(* ===== verification/_CoqProject ===== *)
-Q . S2P
Prelude.v
Le.v
Tlv.v
Crc32.v
Uuid.v
ConfigRamstore.v
Status.v
StoragePartition.v
BlockStore.v
BlockDevice.v
PartitionedBlockStore.v
Volume.v
BlockVolume.v
RpcAbi.v
RpcService.v
RpcEndpoint.v
RpcCaller.v
StorageBackend.v
ServiceClient.v
BlockStorageProvider.v
BlockStorageClient.v
SecureStorageProvider.v
SecureStorageClient.v
LuaProvider.v
LuaClient.v
LuaSp.v
FwDirectory.v
StreamManager.v
UpdateAgent.v
BankTracker.v
MetadataSerializer.v
MetadataV2.v
MetadataManager.v
Installer.v
VolumeInstallers.v
BankedStore.v
FwuProvider.v
BankedAgent.v
VariableIndex.v
VariableStorage.v
UefiStore.v
UefiStoreSpec.v
UefiStoreSet.v
UefiStoreRun.v
UefiStoreNames.v
UefiStoreInfo.v
UefiProvider.v
SfsFlash.v
SfsAdapter.v
SfsMblock.v
SfsFs.v
SecureFlashStore.v
SfsLogic.v
SfsMeta.v
SfsData.v
SfsFiles.v
SfsDelete.v
SfsInit.v
SfsStore.v
SfsCrash.v
