(* ===== verification/Prelude.v ===== *)
(** * Trusted Services with a Lua service: a verification of its core in Rocq

    ** The program

    The repository holds the secure-world services of the Trusted Services
    project with a Lua scripting service added.  A client reaches a service
    through an RPC session; over FF-A the message arrives at the RPC endpoint of
    a secure partition, which keeps the memory clients shared with it and hands
    the request to a service provider; the provider dispatches it by opcode to a
    handler.  Storage is layered: block devices implement a block store
    interface, a partitioned store cuts one store into partitions with access
    control, and a block volume offers a partition as a seekable file.  The
    firmware update service is a state machine, the update agent, over a firmware
    store with two banks per location: clients stream images through it, installers
    write them to the volumes of the bank the system does not run from, and FWU
    metadata in two replicas tells the boot loader which bank to boot.

    ** The files

    - [Prelude]: machine integers with explicit wrap-around ([u16], [u32],
      [u64], [s32]), byte buffers with bounds-checked [load] and [store],
      C strings, indexed lists, and the lemmas and tactics about them.
    - [Le], [Tlv], [Crc32], [Uuid]: components/common/endian/le.c, tlv/tlv.c,
      crc32/crc32.c and uuid/uuid.c.
    - [ConfigRamstore]: components/config/ramstore/config_ramstore.c.
    - [Status]: the status codes of the services.
    - [StoragePartition], [BlockStore], [BlockDevice], [PartitionedBlockStore]:
      components/service/block_storage/block_store (storage_partition_acl.c,
      storage_partition.c, block_store.c, device/block_device.c,
      device/ram/ram_block_store.c, device/null/null_block_store.c,
      partitioned/partitioned_block_store.c).  The class [BlockStoreLaws] is the
      contract of the interface in block_store.h: clients (the partitioned store,
      the block volume) are proved against it, and the RAM store and the
      partitioned store are instances.
    - [Volume], [BlockVolume]: components/media/volume (volume.c,
      index/volume_index.c, block_volume/block_volume.c), with the class
      [VolumeLaws] between the two.
    - [RpcAbi], [RpcService], [RpcEndpoint]: components/rpc/ts_rpc/common/
      ts_rpc_abi.c, components/rpc/common/endpoint/rpc_service_interface.c with
      components/service/common/provider/service_provider.c, and
      components/rpc/ts_rpc/endpoint/sp/ts_rpc_endpoint_sp.c.
    - [RpcCaller]: components/rpc/common/caller (rpc_caller.c,
      rpc_caller_session.c) and components/rpc/direct/direct_caller.c; the class
      [CallerLaws] states what a transport promises to a session.
    - [ServiceClient]: components/service/common/client/service_client.c and the
      transaction (begin, copy, invoke, end) every client operation is made of.  The
      session allocates the memory of a transaction; a client's theorem asks that calloc
      serves the sizes of its own messages ([allocated]), and a client whose calloc may
      refuse others does what one with an endless calloc does ([lockstep]).
    - [BlockStorageProvider], [BlockStorageClient]: components/service/block_storage
      (provider/block_storage_provider.c with its packed-c serializer,
      block_store/client/block_storage_client.c); [WireStore] says which values of a
      store fit the messages.
    - [StorageBackend]: components/service/secure_storage/backend (storage_backend.h,
      mock_store/mock_store.c, null_store/null_store.c); the class [StorageLaws] is what
      a backend promises, [storage_spec] the map of assets it stands for.
    - [SecureStorageProvider], [SecureStorageClient]: components/service/secure_storage
      (frontend/secure_storage_provider/secure_storage_provider.c, the PSA frontends,
      backend/secure_storage_client/secure_storage_client.c); the client is again a
      lawful backend.
    - [LuaProvider], [LuaClient], [LuaSp]: components/service/lua (provider/
      lua_provider.c with its packed-c serializer, client/lua_client.c) and
      deployments/lua/env/commonsp/lua_sp.c.
    - [FwDirectory], [StreamManager], [UpdateAgent]: components/service/fwu/agent
      (fw_directory.c with img_dir_serializer.c, stream_manager.c, update_agent.c)
      and components/service/fwu/common/update_agent_interface.c.  The record
      [fw_store_ops] is fw_store.h, the store as the agent sees it, whose operations may
      fail to return; the class [FwStoreLaws] says that a store returns from the calls
      the update flow allows.
    - [BankTracker], [MetadataSerializer], [MetadataV2], [MetadataManager],
      [BankedStore]: components/service/fwu/fw_store/banked (bank_tracker.c,
      bank_scheme.h, volume_id.h, metadata_serializer.h with the class
      [SerializerLaws], v2/metadata_serializer_v2.c, metadata_manager.c,
      banked_fw_store.c).
    - [Installer], [VolumeInstallers]: components/service/fwu/installer
      (installer.c, installer_index.c, raw/raw_installer.c,
      copy/copy_installer.c); [WorkingVolume] and [SafeVolume] are what installers
      and the metadata manager rely on in a volume, [lawful] what the store relies
      on in an installer, whose begin may fail.
    - [FwuProvider]: components/service/fwu/provider (fwu_provider_shim.c,
      fwu_provider.c, serializer/fwu_provider_serializer.c) over the agent's
      interface, whose promises are the class [UpdateAgentLaws].
    - [VariableIndex], [VariableStorage]: components/service/uefi/smm_variable/backend
      (variable_index.c, variable_index_iterator.c, variable_checker.c): the table of
      UEFI variables; and how it is saved, restored and enumerated.
    - [UefiStore]: uefi_variable_store.c of the same directory, over two storage backends,
      without UEFI_AUTH_VAR.  [UefiStoreSpec] holds its invariant and the lemmas on saving
      the index and dropping variables without data, [UefiStoreSet] those on SetVariable
      and on what is in the persistent backend, [UefiStoreRun] reading, starting, histories
      and the theorems, [UefiStoreNames] GetNextVariableName, [UefiStoreInfo]
      QueryVariableInfo and the check properties.
    - [UefiProvider]: components/service/uefi/smm_variable/provider
      (smm_variable_provider.c): the eight request handlers over the variable store.
    - [SfsFlash], [SfsAdapter], [SfsMblock], [SfsFs], [SecureFlashStore]:
      components/service/secure_storage/backend/secure_flash_store (sfs_utils.c, flash/
      sfs_flash.c, flash/ram, flash/block_store_adapter, flash_fs/sfs_flash_fs_mblock.c,
      flash_fs/sfs_flash_fs_dblock.c, flash_fs/sfs_flash_fs.c, secure_flash_store.c): a
      storage backend on a file system for flash, as computations in the state monad [SFS].
      The class [FlashLaws] is what a flash promises; the flash in memory and the adapter
      over any lawful block store are instances.
    - [SfsLogic], [SfsMeta], [SfsData], [SfsFiles], [SfsDelete], [SfsInit], [SfsStore],
      [SfsCrash]: the proofs about it.  [SfsLogic] has triples over images of the flash with a rule for each
      operation; [SfsMeta] the metadata functions; [SfsData] the invariant [mounted] of the
      tables of blocks and files and the shape of one change; [SfsFiles] and [SfsDelete] the
      file operations as changes of a map of files; [SfsInit] reset and start; [SfsStore] the
      specification [asset_step] of the backend and the theorems; [SfsCrash] a flash that
      writes down its contents after each part of a write and each erase, and what a start
      from any of them finds.

    ** How code becomes definitions

    A C function is a Rocq function of the same name over records named after the
    C structs.  State that a function mutates is passed and returned.  A result
    in [option] is [None] exactly when the C code would access memory out of
    bounds or through NULL, fail an assertion, or loop for ever; error codes are
    ordinary results.  So a theorem that says a call is [Some] says that it returns
    and stays in bounds.  Integers are [Z] and are wrapped where the C type wraps.  Loops are
    [Fixpoint]s; where a loop is not structural it has fuel equal to a bound the
    code itself implies (the bytes left to transfer in a block volume, the bytes
    left in a TLV region, the bytes left to copy, the number of installers, the
    length of a table, one more than the entries for the search of the next variable name,
    the octets of a write or a move for the loops over pieces of it, one more than those of a
    read for [get_loop], whose body runs at least once),
    and the theorems show that the fuel is enough.  Linked
    structures are tables of records whose links are indices or addresses, and
    the invariants say which chains they form.  Heap allocation and code outside the repository (the FF-A
    SPM, the TF-A io layer, the Lua virtual machine, the CRC32B instruction) are
    parameters; what is assumed of them is a named predicate ([spm_ok],
    [io_forwards], [vm_ok], [heap_ok]) that the witnesses instantiate.

    ** What is proved

    - Data formats: endian accessors, TLV records, UUID text, RPC registers and
      the Lua messages are read back as they were written; decoding of arbitrary
      bytes stays in bounds and terminates; both CRC routines compute the
      bit-serial CRC-32.
    - Storage: the configuration store refines a finite map; the RAM store, the
      partitioned store over any lawful store, and the block volume over any
      lawful store refine an array of blocks, a window of it, and a file, for all
      sequences of requests; clients without access and partitions without common
      blocks do not interfere.  The block storage service serves any requests of any
      senders within the view of the store it has, and a client that uses a store
      through the service gets what it would get from the store itself.
    - Secure storage: the mock store refines a map of assets; the service serves any
      requests of any senders as its backend would, and a client that uses a backend
      through a session and the service keeps the backend's promises.
    - Secure flash store: over any lawful flash every create, write, read and delete of a
      file does to the map of files what it says and leaves the invariant; started on a flash
      without a file system the store serves any sequence of requests as a map of assets
      does, and a restart finds the same assets; what it keeps fits its capacity.  When the power
      fails during a request, and any number of times during the starts after it, every
      asset but the one of the request is found as it was.  Covered
      are the requests with data or capacity, and extensions up to the end of an asset.
    - UEFI variables: the index refines a map with unique identifiers, is restored as it
      was saved, marks every change that must be saved, and is enumerated completely.  The
      variable store over any two lawful backends refines a map from names to attributes
      and data, finds exactly its non-volatile variables after a restart, and does not
      change variables that are protected.  A client that asks for one name after another
      sees every accessible variable once; the sizes QueryVariableInfo reports add up; a
      check property is read back as it was set and is enforced.  The provider answers any
      messages as the map does.
    - RPC: the endpoint answers every history of messages without a fault, never
      touches the memory of another client, and accounts for every shared
      region; a session never leaks its shared memory whatever the order of its
      calls; dispatch finds the handler of the opcode.
    - Lua: the provider refines an abstract service of live environments with
      pending scripts; the client, the session, the direct caller and the
      provider together do so end to end; the secure partition never faults from
      boot on.
    - Firmware update: the stream manager refines a list of streams, of which the one
      opened first is recycled, and handles of closed streams are rejected; over a store
      that returns from the calls the update flow allows, the agent returns, calls the
      store only in the order of the flow and releases all it allocates; version 2 metadata is read back
      as it was written and any bytes are read safely; an update of the metadata
      interrupted at any point, torn writes included, leaves a state from which the
      next start recovers the old or the new metadata and repairs both replicas; the
      raw and the copy installer leave exactly the image in the volume; the banked
      store refines an abstract pair of banks for every order of operations, and
      never makes a bank without content the active one.  The FWU service answers
      arbitrary messages as the agent's interface says, and no messages make the
      agent leave the update flow, up to a message that announces more than lies in
      the caller's memory, which makes the service fault.
    - Error behaviour that departs from what the code means to do is proved where
      it was found: an endpoint with a free descriptor cannot be shut down, a
      creation whose response does not fit loses an environment,
      ram_block_store_modify leaves its buffer when its length wraps, an
      installation after a return to the previous bank overwrites the running bank,
      an installer that could not begin fails an assertion at its next use, a
      metadata update that was stored in part is not undone ([stale_stored_crc]),
      a begin or a write request that announces more than its memory holds makes the
      firmware update service read past it, an extension
      of an asset whose end wraps is written outside it, a stored index with too many
      records is restored past the table ([restore_past_table]), a save of the variable
      index that fails or is cut short loses variables, a request for the next
      variable name clears as much memory as it says it has, the removal of an asset without
      data moves those of other clients in the flash, an extension inside an asset erases what
      is behind it, and a replacement that does not fit, or that loses power half way, removes the asset.

    ** What is not modelled

    - The authentication of UEFI variables (UEFI_AUTH_VAR): what it decides depends on a
      PKCS #7 parser of a cryptographic library that is not in the repository.
    - Cryptography, attestation, TPM, RPMB and logging: wrappers of external libraries whose
      results are what matters in them.
    - The MM frontend, the C++ clients, the FF-A library, locators and the other transports:
      adapters of protocols, with no state of their own beyond what the endpoint has.
    - Device drivers, file, flash and semihosting block stores, the C library and the
      allocator.
    - The secure flash store with SFS_VALIDATE_METADATA_FROM_FLASH, which no build file
      defines, and the states in which an operation of it failed: the flash of [FlashLaws]
      does not fail.
    - The direct inspector and the configuration of the update agent, version 1 metadata and
      GPT: small parts of components whose interfaces are modelled, the banked store as an
      instance of [FwStoreLaws] among them.

    In the fault model of [SfsCrash] a write ends after any of its octets, but a write of at
    most eight octets (the header of a metablock) and an erase are done or not.
    In that of [MetadataManager] an interrupted operation leaves the volume as it
    was or with contents that fail the CRC. *)
From stdpp Require Export base list option gmap.
From Stdlib Require Export ZArith Lia ZifyBool.

Declare Scope ts_scope.
Delimit Scope ts_scope with ts.
Global Open Scope Z_scope.
Global Open Scope ts_scope.
Global Set Default Goal Selector "!".

(** ** Machine integers

    A [w]-bit unsigned C value is a [Z] in [0, 2^w); every arithmetic step of
    the C code that may leave the range is followed by an explicit [wrap]. *)
Definition wrap (w x : Z) : Z := x mod 2 ^ w.
Definition swrap (w x : Z) : Z := (x + 2 ^ (w - 1)) mod 2 ^ w - 2 ^ (w - 1).
Abbreviation u8 := (wrap 8).
Abbreviation u16 := (wrap 16).
Abbreviation u32 := (wrap 32).
Abbreviation u64 := (wrap 64).
Abbreviation s32 := (swrap 32).
Abbreviation s64 := (swrap 64).

Definition fits (w x : Z) : Prop := 0 <= x < 2 ^ w.

(** ** Undefined behaviour

    Code that may fault returns an [option]: [None] stands for an access
    outside an object, a failed [assert] or a NULL dereference.  Error codes
    the C functions return are ordinary values. *)
Notation "'assert!' b ;; k" := (if (b : bool) then k else None)
  (at level 100, b at next level, k at level 200, right associativity) : ts_scope.

(** ** Byte buffers *)
Abbreviation bytes := (list Z).
Definition len {A} (l : list A) : Z := Z.of_nat (length l).
Definition byte_ok (b : Z) : Prop := 0 <= b < 256.
Definition bytes_ok (l : bytes) : Prop := Forall byte_ok l.

(** [nthZ l i]: the element at a C index. *)
Definition nthZ {A} (l : list A) (i : Z) : option A :=
  if 0 <=? i then l !! Z.to_nat i else None.

(** [setZ l i x]: [l[i] = x], faulting out of range. *)
Definition setZ {A} (l : list A) (i : Z) (x : A) : option (list A) :=
  if (0 <=? i) && (i <? len l) then Some (<[Z.to_nat i := x]> l) else None.

(** [load b off n]: read [n] bytes at [off]; [store b off d]: memcpy [d] to [off]. *)
Definition load (b : bytes) (off n : Z) : option bytes :=
  if (0 <=? off) && (0 <=? n) && (off + n <=? len b)
  then Some (take (Z.to_nat n) (drop (Z.to_nat off) b)) else None.

Definition store (b : bytes) (off : Z) (d : bytes) : option bytes :=
  if (0 <=? off) && (off + len d <=? len b)
  then Some (take (Z.to_nat off) b ++ d ++ drop (Z.to_nat (off + len d)) b) else None.

(** [fill v n]: the bytes a [memset(_, v, n)] writes. *)
Definition fill (v n : Z) : bytes := replicate (Z.to_nat n) v.

(** Little-endian integers of [n] bytes. *)
Fixpoint le_combine (l : bytes) : Z :=
  match l with
  | [] => 0
  | b :: l => b + 256 * le_combine l
  end.

Fixpoint le_split (n : nat) (z : Z) : bytes :=
  match n with
  | O => []
  | S n => z mod 256 :: le_split n (z / 256)
  end.

(** The index of the first element satisfying [p] (a C search loop). *)
Fixpoint find_index {A} (p : A -> bool) (l : list A) : option nat :=
  match l with
  | [] => None
  | x :: l => if p x then Some O else S <$> find_index p l
  end.

Definition bytes_eqb (a b : bytes) : bool := bool_decide (a = b).

(** [strlen]: the index of the first NUL of the array. *)
Definition strlen (s : bytes) : option Z := Z.of_nat <$> find_index (fun c => c =? 0) s.

(** ** Automation *)
Create HintDb ts.

Ltac bool_to_prop :=
  repeat match goal with
  | H : _ && _ = true |- _ => apply andb_true_iff in H; destruct H
  | H : _ || _ = false |- _ => apply orb_false_iff in H; destruct H
  | H : negb _ = true |- _ => apply negb_true_iff in H
  | H : negb _ = false |- _ => apply negb_false_iff in H
  | H : bool_decide _ = true |- _ => apply bool_decide_eq_true in H
  | H : bool_decide _ = false |- _ => apply bool_decide_eq_false in H
  end.

(** Split every [match]/[if] of the goal and the context, closing the
    contradictory branches. *)
Ltac split_matches :=
  repeat (case_match; simplify_eq/=; bool_to_prop; try done; try lia).

(** Invert a successful computation in the option monad. *)
Ltac inv_bind H :=
  repeat (apply bind_Some in H as (? & ? & H)); simplify_eq/=.

Ltac len_simpl :=
  unfold len in *;
  rewrite ?length_app, ?length_take, ?length_drop, ?length_replicate, ?length_insert,
    ?length_cons, ?length_nil in *.

Ltac len_lia := len_simpl; simpl in *; lia.

(** ** Machine integers: lemmas *)
Lemma wrap_small w x : 0 <= x < 2 ^ w -> wrap w x = x.
Proof. apply Z.mod_small. Qed.

Lemma wrap_fits w x : 0 <= w -> fits w (wrap w x).
Proof. intros. unfold fits, wrap. apply Z.mod_pos_bound. lia. Qed.

Lemma wrap_idem w x : 0 <= w -> wrap w (wrap w x) = wrap w x.
Proof. intros. by apply wrap_small, wrap_fits. Qed.

Lemma swrap_small w x : 0 < w -> - 2 ^ (w - 1) <= x < 2 ^ (w - 1) -> swrap w x = x.
Proof.
  intros. unfold swrap. rewrite Z.mod_small; [lia|].
  replace (2 ^ w) with (2 * 2 ^ (w - 1)); [lia|].
  rewrite <- Z.pow_succ_r by lia. f_equal. lia.
Qed.

Lemma swrap_wrap w x : 0 < w -> swrap w (wrap w x) = swrap w x.
Proof. intros. unfold swrap, wrap. by rewrite Zplus_mod_idemp_l. Qed.

Lemma swrap_add_wrap w x y : 0 < w -> swrap w (x + wrap w y) = swrap w (x + y).
Proof.
  intros. unfold swrap, wrap. f_equal.
  replace (x + y mod 2 ^ w + 2 ^ (w - 1)) with (x + 2 ^ (w - 1) + y mod 2 ^ w) by lia.
  rewrite Zplus_mod_idemp_r. f_equal. lia.
Qed.

(** ** Sequences: lemmas *)
Lemma len_nonneg {A} (l : list A) : 0 <= len l.
Proof. unfold len. lia. Qed.

Lemma len_app {A} (l k : list A) : len (l ++ k) = len l + len k.
Proof. unfold len. rewrite length_app. lia. Qed.

Lemma len_fill v n : 0 <= n -> len (fill v n) = n.
Proof. intros. unfold len, fill. rewrite length_replicate. lia. Qed.

Lemma fill_bytes_ok v n : byte_ok v -> bytes_ok (fill v n).
Proof. intros. by apply Forall_replicate. Qed.

Lemma nthZ_of_nat {A} (l : list A) (n : nat) : nthZ l (Z.of_nat n) = l !! n.
Proof. unfold nthZ. rewrite Nat2Z.id. case_match; [done|lia]. Qed.

Lemma nthZ_Some {A} (l : list A) i x : nthZ l i = Some x -> 0 <= i < len l.
Proof.
  unfold nthZ, len. case_match; [|done]. intros H1%lookup_lt_Some. lia.
Qed.

Lemma nthZ_is_Some {A} (l : list A) i : 0 <= i < len l -> is_Some (nthZ l i).
Proof.
  unfold nthZ, len. intros. case_match; [|lia]. apply lookup_lt_is_Some. lia.
Qed.

Lemma nthZ_None {A} (l : list A) i : len l <= i -> nthZ l i = None.
Proof.
  unfold nthZ, len. intros. case_match; [|done]. apply lookup_ge_None. lia.
Qed.

Lemma setZ_Some {A} (l l' : list A) i x :
  setZ l i x = Some l' <-> 0 <= i < len l /\ l' = <[Z.to_nat i := x]> l.
Proof.
  unfold setZ. case_match; bool_to_prop.
  - split; [intros [= <-]; split; [lia|done]|by intros [_ ->]].
  - split; [done|]. intros [? _]. lia.
Qed.

Lemma setZ_is_Some {A} (l : list A) i x :
  0 <= i < len l -> setZ l i x = Some (<[Z.to_nat i := x]> l).
Proof. intros. by apply setZ_Some. Qed.

Lemma setZ_len {A} (l l' : list A) i x : setZ l i x = Some l' -> len l' = len l.
Proof. intros [_ ->]%setZ_Some. unfold len. by rewrite length_insert. Qed.

Lemma nthZ_setZ_eq {A} (l l' : list A) i x : setZ l i x = Some l' -> nthZ l' i = Some x.
Proof.
  intros [? ->]%setZ_Some. unfold nthZ, len in *. case_match; [|lia].
  apply list_lookup_insert_eq. lia.
Qed.

Lemma nthZ_setZ_ne {A} (l l' : list A) i j x :
  setZ l i x = Some l' -> i <> j -> nthZ l' j = nthZ l j.
Proof.
  intros [? ->]%setZ_Some ?. unfold nthZ. case_match; [|done].
  apply list_lookup_insert_ne. lia.
Qed.

Lemma nthZ_insert_eq {A} (l : list A) i x :
  0 <= i < len l -> nthZ (<[Z.to_nat i := x]> l) i = Some x.
Proof. intros. by apply (nthZ_setZ_eq l), setZ_is_Some. Qed.

Lemma nthZ_insert_ne {A} (l : list A) i j x :
  0 <= i -> i <> j -> nthZ (<[Z.to_nat i := x]> l) j = nthZ l j.
Proof.
  intros. unfold nthZ. case_match; [|done]. apply list_lookup_insert_ne. lia.
Qed.

Lemma list_eq_nthZ {A} (l1 l2 : list A) :
  (forall i, 0 <= i -> nthZ l1 i = nthZ l2 i) -> l1 = l2.
Proof.
  intros H. apply list_eq. intros i. specialize (H (Z.of_nat i)).
  rewrite !nthZ_of_nat in H. apply H. lia.
Qed.

Lemma nthZ_app {A} (l1 l2 : list A) i :
  nthZ (l1 ++ l2) i = if i <? len l1 then nthZ l1 i else nthZ l2 (i - len l1).
Proof.
  unfold nthZ, len. repeat case_match; try lia; try done.
  - apply lookup_app_l. lia.
  - rewrite lookup_app_r by lia. f_equal. lia.
Qed.

Lemma nthZ_take {A} (l : list A) n i :
  nthZ (take (Z.to_nat n) l) i = if i <? n then nthZ l i else None.
Proof.
  unfold nthZ. repeat case_match; try lia; try done.
  - apply lookup_take_lt. lia.
  - apply lookup_take_ge. lia.
Qed.

Lemma nthZ_drop {A} (l : list A) n i :
  0 <= n -> 0 <= i -> nthZ (drop (Z.to_nat n) l) i = nthZ l (n + i).
Proof.
  intros. unfold nthZ. repeat case_match; try lia; try done.
  rewrite lookup_drop. f_equal. lia.
Qed.

Lemma nthZ_fill v n i : 0 <= i < n -> nthZ (fill v n) i = Some v.
Proof.
  intros. unfold nthZ, fill. case_match; [|lia].
  apply lookup_replicate_2. lia.
Qed.

(** ** Buffers: lemmas *)
Lemma load_Some b off n d :
  load b off n = Some d ->
  0 <= off /\ 0 <= n /\ off + n <= len b /\ d = take (Z.to_nat n) (drop (Z.to_nat off) b).
Proof. unfold load. case_match; bool_to_prop; [|done]. naive_solver lia. Qed.

Lemma load_ok b off n :
  0 <= off -> 0 <= n -> off + n <= len b ->
  load b off n = Some (take (Z.to_nat n) (drop (Z.to_nat off) b)).
Proof. intros. unfold load. case_match; [done|]. lia. Qed.

Lemma load_len b off n d : load b off n = Some d -> len d = n.
Proof.
  intros (?&?&?&->)%load_Some. unfold len in *. rewrite length_take, length_drop. lia.
Qed.

Lemma load_nthZ b off n d i :
  load b off n = Some d -> 0 <= i < n -> nthZ d i = nthZ b (off + i).
Proof.
  intros (?&?&?&->)%load_Some ?. rewrite nthZ_take, nthZ_drop by lia. case_match; [done|lia].
Qed.

Lemma load_bytes_ok b off n d : load b off n = Some d -> bytes_ok b -> bytes_ok d.
Proof. intros (?&?&?&->)%load_Some ?. by apply Forall_take, Forall_drop. Qed.

Lemma load_all b : load b 0 (len b) = Some b.
Proof.
  rewrite load_ok by (pose proof (len_nonneg b); lia).
  unfold len. rewrite Nat2Z.id, drop_0. by rewrite firstn_all.
Qed.

Lemma load_ext b b' off n :
  len b' = len b ->
  (forall i, off <= i < off + n -> nthZ b' i = nthZ b i) ->
  load b' off n = load b off n.
Proof.
  intros Hl H. unfold load. rewrite Hl. case_match; [|done]. bool_to_prop. f_equal.
  apply list_eq_nthZ. intros i Hi. rewrite !nthZ_take, !nthZ_drop by lia.
  case_match; [|done]. apply H. lia.
Qed.

Lemma store_Some b off d b' :
  store b off d = Some b' ->
  0 <= off /\ off + len d <= len b /\
  b' = take (Z.to_nat off) b ++ d ++ drop (Z.to_nat (off + len d)) b.
Proof. unfold store. case_match; bool_to_prop; [|done]. naive_solver lia. Qed.

Lemma store_ok b off d :
  0 <= off -> off + len d <= len b -> exists b', store b off d = Some b'.
Proof. intros. unfold store. case_match; [eauto|]. lia. Qed.

Lemma store_len b off d b' : store b off d = Some b' -> len b' = len b.
Proof.
  intros (?&?&->)%store_Some. unfold len in *.
  rewrite !length_app, length_take, length_drop. lia.
Qed.

Lemma store_nthZ b off d b' i :
  store b off d = Some b' -> 0 <= i ->
  nthZ b' i = if (off <=? i) && (i <? off + len d) then nthZ d (i - off) else nthZ b i.
Proof.
  intros (?&?&->)%store_Some ?.
  pose proof (len_nonneg d).
  assert (len (take (Z.to_nat off) b) = off) as Hl.
  { unfold len in *. rewrite length_take. lia. }
  rewrite nthZ_app, Hl, nthZ_take.
  destruct (Z.ltb_spec i off); [case_match; [lia|done]|].
  rewrite nthZ_app. destruct (Z.ltb_spec (i - off) (len d)).
  - case_match; [done|lia].
  - rewrite nthZ_drop by lia. case_match; [lia|]. f_equal. lia.
Qed.

Lemma store_bytes_ok b off d b' :
  store b off d = Some b' -> bytes_ok b -> bytes_ok d -> bytes_ok b'.
Proof.
  intros (?&?&->)%store_Some ??. apply Forall_app; split; [by apply Forall_take|].
  apply Forall_app; split; [done|by apply Forall_drop].
Qed.

Lemma load_store_same b off d b' :
  store b off d = Some b' -> load b' off (len d) = Some d.
Proof.
  intros H. pose proof (store_len _ _ _ _ H). pose proof (len_nonneg d).
  pose proof (store_Some _ _ _ _ H) as (?&?&_).
  rewrite load_ok by lia. f_equal. apply list_eq_nthZ. intros i Hi.
  rewrite nthZ_take, nthZ_drop by lia. case_match.
  - rewrite (store_nthZ _ _ _ _ _ H) by lia. case_match; [f_equal; lia|lia].
  - symmetry. apply nthZ_None. lia.
Qed.

Lemma load_store_disjoint b off d b' off' n :
  store b off d = Some b' -> 0 <= off' ->
  off' + n <= off \/ off + len d <= off' ->
  load b' off' n = load b off' n.
Proof.
  intros H ? Hd. apply load_ext; [by eapply store_len|].
  intros i Hi. rewrite (store_nthZ _ _ _ _ _ H) by lia. case_match; [lia|done].
Qed.

Lemma load_app b off n m d :
  0 <= n -> 0 <= m -> load b off (n + m) = Some d ->
  exists d1 d2, load b off n = Some d1 /\ load b (off + n) m = Some d2 /\ d = d1 ++ d2.
Proof.
  intros ?? (?&?&?&->)%load_Some.
  exists (take (Z.to_nat n) (drop (Z.to_nat off) b)),
    (take (Z.to_nat m) (drop (Z.to_nat (off + n)) b)).
  rewrite !load_ok by lia. repeat split; [].
  rewrite !Z2Nat.inj_add by lia. rewrite <- drop_drop. symmetry. apply take_take_drop.
Qed.

Lemma setZ_store b i x : setZ b i x = store b i [x].
Proof.
  unfold setZ, store. change (len [x]) with 1.
  destruct (Z.leb_spec 0 i); [|done]. simpl.
  destruct (Z.ltb_spec i (len b)), (Z.leb_spec (i + 1) (len b)); try lia; [|done].
  f_equal. unfold len in *. rewrite insert_take_drop by lia.
  simpl. f_equal. f_equal. f_equal. lia.
Qed.

Lemma store_app b off d1 d2 :
  (b1 ← store b off d1; store b1 (off + len d1) d2) = store b off (d1 ++ d2).
Proof.
  pose proof (len_nonneg d1). pose proof (len_nonneg d2).
  assert (len (d1 ++ d2) = len d1 + len d2) as Hl by (unfold len; rewrite length_app; lia).
  destruct (store b off d1) as [b1|] eqn:E1; cbn [mbind option_bind].
  - pose proof (store_len _ _ _ _ E1) as Hl1.
    destruct (store b (off) (d1 ++ d2)) as [b2|] eqn:E2.
    + pose proof (store_Some _ _ _ _ E2) as (?&?&_).
      destruct (store_ok b1 (off + len d1) d2) as [b3 E3]; [lia|lia|].
      rewrite E3. f_equal. apply list_eq_nthZ. intros i Hi.
      rewrite (store_nthZ _ _ _ _ _ E3), (store_nthZ _ _ _ _ _ E2), (store_nthZ _ _ _ _ _ E1)
        by lia.
      rewrite nthZ_app, Hl.
      repeat case_match; bool_to_prop; try lia; try done. f_equal. lia.
    + destruct (store b1 (off + len d1) d2) as [b3|] eqn:E3; [|done].
      pose proof (store_Some _ _ _ _ E3) as (?&?&_).
      pose proof (store_Some _ _ _ _ E1) as (?&?&_).
      destruct (store_ok b off (d1 ++ d2)) as [? ?]; [lia|lia|congruence].
  - destruct (store b off (d1 ++ d2)) as [b2|] eqn:E2; [|done].
    pose proof (store_Some _ _ _ _ E2) as (?&?&_).
    destruct (store_ok b off d1) as [? ?]; [lia|lia|congruence].
Qed.

Lemma store_cons b off x d :
  store b off (x :: d) = (b1 ← setZ b off x; store b1 (off + 1) d).
Proof.
  change (x :: d) with ([x] ++ d). rewrite <- store_app.
  rewrite setZ_store. by change (len [x]) with 1.
Qed.

Lemma load_nil b off : 0 <= off <= len b -> load b off 0 = Some [].
Proof. intros. by rewrite load_ok by lia. Qed.

Lemma load_cons b off n :
  0 <= n ->
  load b off (n + 1) = (v ← nthZ b off; r ← load b (off + 1) n; Some (v :: r)).
Proof.
  intros. destruct (load b off (n + 1)) as [d|] eqn:E1.
  - pose proof (load_Some _ _ _ _ E1) as (?&?&?&Hd).
    destruct (nthZ_is_Some b off) as [v Hv]; [lia|].
    rewrite Hv, load_ok by lia. cbn [mbind option_bind]. f_equal. rewrite Hd.
    unfold nthZ in Hv. case_match; [|done].
    rewrite !Z2Nat.inj_add by lia. rewrite (drop_S _ v) by done.
    change (Z.to_nat 1) with 1%nat. by rewrite !Nat.add_1_r.
  - destruct (nthZ b off) as [v|] eqn:Hv; [|done]. cbn [mbind option_bind].
    apply nthZ_Some in Hv.
    destruct (load b (off + 1) n) as [r|] eqn:Hr; [|done].
    apply load_Some in Hr as (?&?&?&_). rewrite load_ok in E1 by lia. done.
Qed.

(** ** Slices of a buffer: a window of [n] bytes at [s] *)
Definition slice (b : bytes) (s n : Z) : bytes := take (Z.to_nat n) (drop (Z.to_nat s) b).

Lemma slice_len b s n : 0 <= s -> 0 <= n -> s + n <= len b -> len (slice b s n) = n.
Proof. intros. unfold slice, len in *. rewrite length_take, length_drop. lia. Qed.

Lemma slice_slice b s n o m :
  0 <= s -> 0 <= o -> 0 <= m -> o + m <= n -> slice b (s + o) m = slice (slice b s n) o m.
Proof.
  intros. apply list_eq_nthZ. intros i Hi. unfold slice.
  rewrite !nthZ_take. case_match; [|done]. rewrite !nthZ_drop by lia.
  rewrite nthZ_take, nthZ_drop by lia. case_match; [|lia]. f_equal. lia.
Qed.

Lemma nthZ_slice b s n i :
  0 <= s -> 0 <= i < n -> nthZ (slice b s n) i = nthZ b (s + i).
Proof.
  intros. unfold slice. rewrite nthZ_take, nthZ_drop by lia. case_match; [done|lia].
Qed.

Lemma load_slice b s n off k :
  0 <= s -> 0 <= off -> 0 <= k -> off + k <= n -> s + n <= len b ->
  load (slice b s n) off k = load b (s + off) k.
Proof.
  intros. rewrite !load_ok by (rewrite ?slice_len; lia). f_equal.
  apply list_eq_nthZ. intros i Hi. rewrite !nthZ_take. case_match; [|done].
  rewrite !nthZ_drop, nthZ_slice by lia. f_equal. lia.
Qed.

Lemma store_slice b s n off d b' :
  0 <= s -> 0 <= off -> off + len d <= n -> s + n <= len b ->
  store b (s + off) d = Some b' -> store (slice b s n) off d = Some (slice b' s n).
Proof.
  intros Hs Ho Hd Hn Hst. pose proof (len_nonneg d). pose proof (store_len _ _ _ _ Hst) as Hl.
  destruct (store_ok (slice b s n) off d) as [x Hx]; [lia|rewrite slice_len; lia|].
  rewrite Hx. f_equal. pose proof (store_len _ _ _ _ Hx) as Hlx. rewrite slice_len in Hlx by lia.
  apply list_eq_nthZ. intros i Hi. destruct (Z.ltb_spec i n) as [Hin|Hout].
  - rewrite (store_nthZ _ _ _ _ _ Hx), !nthZ_slice, (store_nthZ _ _ _ _ _ Hst) by lia.
    replace (s + i - (s + off)) with (i - off) by lia. repeat case_match; bool_to_prop; try lia; done.
  - rewrite !nthZ_None; [done| |lia]. rewrite slice_len; lia.
Qed.

Lemma load_is_slice b s n :
  0 <= s -> 0 <= n -> s + n <= len b -> load b s n = Some (slice b s n).
Proof. intros. by rewrite load_ok. Qed.

Lemma slice_app b s n m :
  0 <= s -> 0 <= n -> 0 <= m -> slice b s (n + m) = slice b s n ++ slice b (s + n) m.
Proof.
  intros. unfold slice. rewrite !Z2Nat.inj_add by lia. rewrite <- drop_drop.
  symmetry. apply take_take_drop.
Qed.

Lemma slice_all b : slice b 0 (len b) = b.
Proof. unfold slice, len. by rewrite Nat2Z.id, drop_0, firstn_all. Qed.

Lemma slice_nil b s : slice b s 0 = [].
Proof. unfold slice. by rewrite take_0. Qed.

Lemma store_nil b off : 0 <= off <= len b -> store b off [] = Some b.
Proof.
  intros. unfold store. change (len []) with 0. rewrite Z.add_0_r. case_match; [|lia].
  simpl. by rewrite take_drop.
Qed.

(** Writing through a pointer into the middle of a buffer. *)
Lemma store_drop b off d x :
  0 <= off <= len b -> store (drop (Z.to_nat off) b) 0 d = Some x ->
  store b off d = Some (take (Z.to_nat off) b ++ x).
Proof.
  intros Ho (_ & Hl & ->)%store_Some. pose proof (len_nonneg d).
  assert (len (drop (Z.to_nat off) b) = len b - off) as Hd
    by (unfold len in *; rewrite length_drop; lia).
  unfold store. case_match; [|lia]. f_equal. rewrite take_0, drop_drop. simpl.
  do 3 f_equal. lia.
Qed.

(** Writing outside the window leaves it alone. *)
Lemma slice_store_disjoint b s n off d b' :
  0 <= s -> s + n <= off \/ off + len d <= s ->
  store b off d = Some b' -> slice b' s n = slice b s n.
Proof.
  intros Hs Hd Hst. pose proof (store_Some _ _ _ _ Hst) as (? & _).
  apply list_eq_nthZ. intros i Hi. unfold slice. rewrite !nthZ_take. case_match; [|done].
  rewrite !nthZ_drop by lia. rewrite (store_nthZ _ _ _ _ _ Hst) by lia.
  case_match; [|done]. bool_to_prop. lia.
Qed.

(** ** Little-endian integers: lemmas *)
Lemma length_le_split n z : length (le_split n z) = n.
Proof. revert z. induction n; intros; simpl; auto. Qed.

Lemma len_le_split n z : len (le_split n z) = Z.of_nat n.
Proof. unfold len. by rewrite length_le_split. Qed.

Lemma le_split_bytes_ok n z : bytes_ok (le_split n z).
Proof.
  revert z. induction n; intros; simpl; [constructor|].
  constructor; [|apply IHn]. unfold byte_ok. apply Z.mod_pos_bound. lia.
Qed.

Lemma le_combine_split n z : le_combine (le_split n z) = wrap (8 * Z.of_nat n) z.
Proof.
  revert z. induction n as [|n IH]; intros z; cbn [le_split le_combine].
  - unfold wrap. by rewrite Z.mod_1_r.
  - rewrite IH. unfold wrap. replace (8 * Z.of_nat (S n)) with (8 + 8 * Z.of_nat n) by lia.
    rewrite Z.pow_add_r by lia. change (2 ^ 8) with 256.
    rewrite Z.rem_mul_r by lia. done.
Qed.

Lemma le_combine_bound l : bytes_ok l -> 0 <= le_combine l < 2 ^ (8 * len l).
Proof.
  induction 1 as [|b l Hb Hl IH]; cbn [le_combine].
  - unfold len. simpl. lia.
  - unfold len in *. rewrite length_cons. unfold byte_ok in Hb.
    replace (8 * Z.of_nat (S (length l))) with (8 + 8 * Z.of_nat (length l)) by lia.
    rewrite Z.pow_add_r by lia. lia.
Qed.

Lemma le_split_combine l : bytes_ok l -> le_split (length l) (le_combine l) = l.
Proof.
  induction 1 as [|b l Hb Hl IH]; cbn [le_combine le_split length]; [done|].
  unfold byte_ok in Hb. rewrite (Z.mul_comm 256), Z_mod_plus_full, Z.mod_small by lia.
  rewrite Z.div_add, Z.div_small by lia. f_equal. done.
Qed.

Lemma le_roundtrip n z : 0 <= z < 2 ^ (8 * Z.of_nat n) -> le_combine (le_split n z) = z.
Proof. intros. rewrite le_combine_split. by apply wrap_small. Qed.

(** A shifted byte does not meet the bits below it. *)
Lemma lor_shiftl_add a b k :
  0 <= k -> 0 <= a < 2 ^ k -> Z.lor a (Z.shiftl b k) = a + b * 2 ^ k.
Proof.
  intros Hk Ha. rewrite <- Z.shiftl_mul_pow2 by lia.
  symmetry. apply Z.add_nocarry_lor. apply Z.bits_inj_iff. intros i. rewrite Z.land_spec, Z.bits_0.
  destruct (Z.ltb_spec i k).
  - by rewrite Z.shiftl_spec_low, andb_false_r.
  - rewrite <- (Z.mod_small a (2 ^ k)) by lia.
    by rewrite Z.mod_pow2_bits_high by lia.
Qed.

Lemma land_255_mod x : Z.land x 255 = x mod 256.
Proof. change 255 with (Z.ones 8). by rewrite Z.land_ones by lia. Qed.

Lemma shiftr_div x k : 0 <= k -> Z.shiftr x k = x / 2 ^ k.
Proof. intros. by apply Z.shiftr_div_pow2. Qed.

(** ** Search loops: lemmas *)
Lemma find_index_Some {A} (p : A -> bool) l i :
  find_index p l = Some i <->
  (exists x, l !! i = Some x /\ p x = true) /\
  (forall j y, (j < i)%nat -> l !! j = Some y -> p y = false).
Proof.
  revert i. induction l as [|x l IH]; intros i; simpl.
  - split; [done|]. intros [(?&?&?) _]. by rewrite lookup_nil in *.
  - destruct (p x) eqn:Hp.
    + split.
      * intros [= <-]. split; [by exists x|]. intros j y Hj. lia.
      * intros [_ H]. destruct i; [done|]. specialize (H O x ltac:(lia) eq_refl). congruence.
    + rewrite fmap_Some. split.
      * intros (i' & Hi & ->). apply IH in Hi as [Hx Hlt]. split; [done|].
        intros [|j] y Hj Hy; [by simplify_eq/=|]. simpl in Hy. eapply Hlt; [|done]. lia.
      * intros [(y & Hy & Hpy) Hlt]. destruct i as [|i]; [simpl in Hy; congruence|].
        exists i. split; [|done]. apply IH. split; [eauto|].
        intros j z Hj Hz. apply (Hlt (S j)); [lia|done].
Qed.

Lemma find_index_None {A} (p : A -> bool) l :
  find_index p l = None <-> Forall (fun x => p x = false) l.
Proof.
  induction l as [|x l IH]; simpl; [split; auto|].
  destruct (p x) eqn:Hp.
  - split; [done|]. intros H. inversion H. congruence.
  - rewrite fmap_None, IH, Forall_cons. tauto.
Qed.

Lemma find_index_lt {A} (p : A -> bool) l i : find_index p l = Some i -> (i < length l)%nat.
Proof. intros [(?&?&?) _]%find_index_Some. by eapply lookup_lt_Some. Qed.

Lemma strlen_bounds s n : strlen s = Some n -> 0 <= n < len s.
Proof.
  unfold strlen, len. intros (i & Hi%find_index_lt & ->)%fmap_Some. lia.
Qed.

Lemma bytes_eqb_eq a b : bytes_eqb a b = true <-> a = b.
Proof. unfold bytes_eqb. by rewrite bool_decide_eq_true. Qed.

#[export] Hint Resolve len_nonneg le_split_bytes_ok fill_bytes_ok store_bytes_ok load_bytes_ok : ts.
Create Rewrite HintDb ts_len.
#[export] Hint Rewrite @length_app @length_take @length_drop @length_replicate @length_insert
  length_le_split : ts_len.

(** ** Members of packed messages: little-endian unsigned integers of [n] bytes *)
Definition uint_at (m : bytes) (off n : Z) : Z := wrap (8 * n) (le_combine (slice m off n)).
Definition get_uint (m : bytes) (off n : Z) : option Z :=
  b ← load m off n; Some (wrap (8 * n) (le_combine b)).
Definition put_uint (m : bytes) (off : Z) (n : nat) (v : Z) : option bytes :=
  store m off (le_split n (wrap (8 * Z.of_nat n) v)).

Lemma get_uint_ok m off n :
  0 <= off -> 0 <= n -> off + n <= len m -> get_uint m off n = Some (uint_at m off n).
Proof. intros. unfold get_uint. by rewrite load_is_slice. Qed.

Lemma uint_at_bound m off n : 0 <= n -> 0 <= uint_at m off n < 2 ^ (8 * n).
Proof. intros. apply wrap_fits. lia. Qed.

Lemma uint_at_prefix m m' n off k :
  slice m 0 n = slice m' 0 n -> 0 <= off -> 0 <= k -> off + k <= n -> uint_at m off k = uint_at m' off k.
Proof.
  intros Hs Ho Hk Hn. unfold uint_at. replace off with (0 + off) by lia.
  by rewrite (slice_slice m 0 n), (slice_slice m' 0 n), Hs by lia.
Qed.

Lemma put_cons b off n v d :
  store b off (le_split n (wrap (8 * Z.of_nat n) v) ++ d)
  = (b ← put_uint b off n v; store b (off + Z.of_nat n) d).
Proof. rewrite <- store_app. unfold len. by rewrite length_le_split. Qed.

Lemma store_front m d : len d <= len m ->
  exists m', store m 0 d = Some m' /\ len m' = len m /\ slice m' 0 (len d) = d.
Proof.
  intros Hd. destruct (store_ok m 0 d) as [m' Hm']; [lia..|]. exists m'. split; [done|].
  split; [by eapply store_len|]. pose proof (load_store_same _ _ _ _ Hm') as Hl.
  pose proof (store_len _ _ _ _ Hm'). rewrite load_is_slice in Hl by (pose proof (len_nonneg d); lia).
  by injection Hl.
Qed.

(** The fields of a message from its front on. *)
Lemma bytes_front b off n x tail :
  slice b off n = x ++ tail -> 0 <= off -> off + n <= len b -> n = len x + len tail ->
  slice b off (len x) = x /\ slice b (off + len x) (len tail) = tail.
Proof.
  intros Hs Hoff Hlen ->. pose proof (len_nonneg tail). pose proof (len_nonneg x).
  rewrite slice_app in Hs by lia. apply app_inj_1 in Hs as [Hs ->]; [done|].
  pose proof (slice_len b off (len x)). unfold len in *. lia.
Qed.

Lemma uint_front b off n k v tail :
  slice b off n = le_split k v ++ tail -> 0 <= off -> off + n <= len b ->
  n = Z.of_nat k + len tail -> 0 <= v < 2 ^ (8 * Z.of_nat k) ->
  uint_at b off (Z.of_nat k) = v /\ slice b (off + Z.of_nat k) (len tail) = tail.
Proof.
  intros Hs Hoff Hlen Hn Hv. rewrite <- (len_le_split k v) in *.
  apply bytes_front in Hs as [Hx Ht]; [|done..]. split; [|done]. unfold uint_at.
  rewrite Hx, len_le_split, le_combine_split, wrap_idem by lia. apply wrap_small. by rewrite len_le_split in Hv.
Qed.
