(* ===== verification/Le.v ===== *)
(** * components/common/endian/le.c: little-endian loads and stores

    [base] is the object the C pointer refers to; an access outside it is
    [None].  The results are characterised by the mathematical encoding
    [le_split]/[le_combine] of the prelude. *)
From S2P Require Import Prelude.

Definition load_u8_le (base : bytes) (offset : Z) : option Z :=
  v0 ← nthZ base offset; Some v0.

Definition load_u16_le (base : bytes) (offset : Z) : option Z :=
  v0 ← nthZ base offset; v1 ← nthZ base (offset + 1);
  let r := 0 in
  let r := u16 (Z.lor r v0) in
  let r := u16 (Z.lor r (Z.shiftl v1 8)) in
  Some r.

Definition load_u32_le (base : bytes) (offset : Z) : option Z :=
  v0 ← nthZ base offset; v1 ← nthZ base (offset + 1);
  v2 ← nthZ base (offset + 2); v3 ← nthZ base (offset + 3);
  let r := 0 in
  let r := u32 (Z.lor r v0) in
  let r := u32 (Z.lor r (u32 (Z.shiftl v1 8))) in
  let r := u32 (Z.lor r (u32 (Z.shiftl v2 16))) in
  let r := u32 (Z.lor r (u32 (Z.shiftl v3 24))) in
  Some r.

Definition load_u64_le (base : bytes) (offset : Z) : option Z :=
  v0 ← nthZ base offset; v1 ← nthZ base (offset + 1);
  v2 ← nthZ base (offset + 2); v3 ← nthZ base (offset + 3);
  v4 ← nthZ base (offset + 4); v5 ← nthZ base (offset + 5);
  v6 ← nthZ base (offset + 6); v7 ← nthZ base (offset + 7);
  let r := 0 in
  let r := u64 (Z.lor r v0) in
  let r := u64 (Z.lor r (u64 (Z.shiftl v1 8))) in
  let r := u64 (Z.lor r (u64 (Z.shiftl v2 16))) in
  let r := u64 (Z.lor r (u64 (Z.shiftl v3 24))) in
  let r := u64 (Z.lor r (u64 (Z.shiftl v4 32))) in
  let r := u64 (Z.lor r (u64 (Z.shiftl v5 40))) in
  let r := u64 (Z.lor r (u64 (Z.shiftl v6 48))) in
  let r := u64 (Z.lor r (u64 (Z.shiftl v7 56))) in
  Some r.

Definition store_u8_le (base : bytes) (offset val : Z) : option bytes :=
  setZ base offset val.

Definition store_u16_le (base : bytes) (offset val : Z) : option bytes :=
  base ← setZ base offset (u8 (Z.land val 255));
  setZ base (offset + 1) (u8 (Z.land (Z.shiftr val 8) 255)).

Definition store_u32_le (base : bytes) (offset val : Z) : option bytes :=
  base ← setZ base offset (u8 (Z.land val 255));
  base ← setZ base (offset + 1) (u8 (Z.land (Z.shiftr val 8) 255));
  base ← setZ base (offset + 2) (u8 (Z.land (Z.shiftr val 16) 255));
  setZ base (offset + 3) (u8 (Z.land (Z.shiftr val 24) 255)).

Definition store_u64_le (base : bytes) (offset val : Z) : option bytes :=
  base ← setZ base offset (u8 (Z.land val 255));
  base ← setZ base (offset + 1) (u8 (Z.land (Z.shiftr val 8) 255));
  base ← setZ base (offset + 2) (u8 (Z.land (Z.shiftr val 16) 255));
  base ← setZ base (offset + 3) (u8 (Z.land (Z.shiftr val 24) 255));
  base ← setZ base (offset + 4) (u8 (Z.land (Z.shiftr val 32) 255));
  base ← setZ base (offset + 5) (u8 (Z.land (Z.shiftr val 40) 255));
  base ← setZ base (offset + 6) (u8 (Z.land (Z.shiftr val 48) 255));
  setZ base (offset + 7) (u8 (Z.land (Z.shiftr val 56) 255)).

(** One step of a load: or-ing the next byte above what is already there. *)
Lemma lor_byte_step w k r v :
  0 <= k -> k + 8 <= w -> 0 <= r < 2 ^ k -> byte_ok v ->
  wrap w (Z.lor r (wrap w (Z.shiftl v k))) = r + v * 2 ^ k /\ r + v * 2 ^ k < 2 ^ (k + 8).
Proof.
  intros Hk Hw Hr Hv. unfold byte_ok in Hv.
  assert (0 < 2 ^ k) by lia.
  assert (2 ^ (k + 8) = 2 ^ k * 256) as Hp by (rewrite Z.pow_add_r; lia).
  assert (2 ^ (k + 8) <= 2 ^ w) by (apply Z.pow_le_mono_r; lia).
  assert (r + v * 2 ^ k < 2 ^ (k + 8)) by nia.
  split; [|lia].
  rewrite (wrap_small w (Z.shiftl v k)); [|rewrite Z.shiftl_mul_pow2; nia].
  rewrite lor_shiftl_add by lia. apply wrap_small. nia.
Qed.

Ltac lor_steps w :=
  repeat match goal with
  | |- context [wrap w (Z.lor ?r (wrap w (Z.shiftl ?v ?k)))] =>
      let H := fresh in
      assert (wrap w (Z.lor r (wrap w (Z.shiftl v k))) = r + v * 2 ^ k
              /\ r + v * 2 ^ k < 2 ^ (k + 8)) as [H ?]
        by (apply lor_byte_step; [lia|lia| |done]; unfold byte_ok in *; lia);
      rewrite H; clear H
  end.

(** Loads compute the little-endian value of the bytes they read. *)
Lemma nthZ_byte_ok base i v : bytes_ok base -> nthZ base i = Some v -> byte_ok v.
Proof.
  intros Hb H. unfold nthZ in H. case_match; [|done].
  by eapply Forall_lookup_1.
Qed.

Lemma load_u16_le_spec base offset v0 v1 :
  bytes_ok base ->
  nthZ base offset = Some v0 -> nthZ base (offset + 1) = Some v1 ->
  load_u16_le base offset = Some (le_combine [v0; v1]).
Proof.
  intros Hb H0 H1. unfold load_u16_le. rewrite H0, H1. cbn [mbind option_bind le_combine].
  pose proof (nthZ_byte_ok _ _ _ Hb H0) as B0. pose proof (nthZ_byte_ok _ _ _ Hb H1) as B1.
  unfold byte_ok in *. rewrite Z.lor_0_l, (wrap_small 16 v0) by lia.
  rewrite lor_shiftl_add, wrap_small by lia. f_equal. lia.
Qed.

Lemma load_u32_le_spec base offset v0 v1 v2 v3 :
  bytes_ok base ->
  nthZ base offset = Some v0 -> nthZ base (offset + 1) = Some v1 ->
  nthZ base (offset + 2) = Some v2 -> nthZ base (offset + 3) = Some v3 ->
  load_u32_le base offset = Some (le_combine [v0; v1; v2; v3]).
Proof.
  intros Hb H0 H1 H2 H3. unfold load_u32_le. rewrite H0, H1, H2, H3.
  cbn [mbind option_bind le_combine].
  assert (byte_ok v0 /\ byte_ok v1 /\ byte_ok v2 /\ byte_ok v3) as (B0&B1&B2&B3).
  { repeat split; eapply nthZ_byte_ok; eauto. }
  f_equal. rewrite Z.lor_0_l, (wrap_small 32 v0) by (unfold byte_ok in *; lia).
  assert (0 <= v0 < 2 ^ 8) by (unfold byte_ok in *; lia).
  lor_steps 32. lia.
Qed.

Lemma load_u64_le_spec base offset v0 v1 v2 v3 v4 v5 v6 v7 :
  bytes_ok base ->
  nthZ base offset = Some v0 -> nthZ base (offset + 1) = Some v1 ->
  nthZ base (offset + 2) = Some v2 -> nthZ base (offset + 3) = Some v3 ->
  nthZ base (offset + 4) = Some v4 -> nthZ base (offset + 5) = Some v5 ->
  nthZ base (offset + 6) = Some v6 -> nthZ base (offset + 7) = Some v7 ->
  load_u64_le base offset = Some (le_combine [v0; v1; v2; v3; v4; v5; v6; v7]).
Proof.
  intros Hb H0 H1 H2 H3 H4 H5 H6 H7. unfold load_u64_le.
  rewrite H0, H1, H2, H3, H4, H5, H6, H7. cbn [mbind option_bind le_combine].
  assert (byte_ok v0 /\ byte_ok v1 /\ byte_ok v2 /\ byte_ok v3) as (B0&B1&B2&B3).
  { repeat split; eapply nthZ_byte_ok; eauto. }
  assert (byte_ok v4 /\ byte_ok v5 /\ byte_ok v6 /\ byte_ok v7) as (B4&B5&B6&B7).
  { repeat split; eapply nthZ_byte_ok; eauto. }
  f_equal. rewrite Z.lor_0_l, (wrap_small 64 v0) by (unfold byte_ok in *; lia).
  assert (0 <= v0 < 2 ^ 8) by (unfold byte_ok in *; lia).
  lor_steps 64. lia.
Qed.

(** Stores write the little-endian bytes of the value, and nothing else. *)
Lemma store_byte_mod val k : 0 <= k -> u8 (Z.land (Z.shiftr val k) 255) = val / 2 ^ k mod 256.
Proof.
  intros. rewrite land_255_mod, shiftr_div by lia. unfold wrap. by rewrite Zmod_mod.
Qed.

Ltac norm_divisors :=
  rewrite ?Z.div_div by lia;
  repeat match goal with
  | |- context [2 ^ ?k] => let v := eval compute in (2 ^ k) in change (2 ^ k) with v
  | |- context [Z.pos ?a * 256] =>
      let v := eval compute in (Z.pos a * 256) in change (Z.pos a * 256) with v
  end.

Ltac norm_offsets :=
  rewrite <- ?Z.add_assoc;
  repeat match goal with
  | |- context [Z.pos ?a + Z.pos ?b] =>
      let v := eval compute in (Z.pos a + Z.pos b) in change (Z.pos a + Z.pos b) with v
  end.

Ltac store_steps :=
  norm_divisors; repeat (rewrite store_cons;
    match goal with
    | |- (setZ ?b ?o ?x ≫= _) = (setZ ?b ?o ?y ≫= _) =>
        destruct (setZ b o x); [cbn [mbind option_bind]|done]
    end; norm_offsets);
  rewrite setZ_store.

Lemma store_u16_le_spec base offset val :
  store_u16_le base offset val = store base offset (le_split 2 val).
Proof.
  unfold store_u16_le. cbn [le_split].
  rewrite <- (Z.shiftr_0_r val) at 1. rewrite !store_byte_mod, Z.div_1_r by lia.
  store_steps. done.
Qed.

Lemma store_u32_le_spec base offset val :
  store_u32_le base offset val = store base offset (le_split 4 val).
Proof.
  unfold store_u32_le. cbn [le_split].
  rewrite <- (Z.shiftr_0_r val) at 1. rewrite !store_byte_mod, Z.div_1_r by lia.
  store_steps. done.
Qed.

Lemma store_u64_le_spec base offset val :
  store_u64_le base offset val = store base offset (le_split 8 val).
Proof.
  unfold store_u64_le. cbn [le_split].
  rewrite <- (Z.shiftr_0_r val) at 1. rewrite !store_byte_mod, Z.div_1_r by lia.
  store_steps. done.
Qed.

(** Loads, as the value of the bytes in memory. *)
Lemma load_u16_le_eq base offset :
  bytes_ok base -> load_u16_le base offset = le_combine <$> load base offset 2.
Proof.
  intros Hb. change 2 with (0 + 1 + 1). rewrite !load_cons by lia.
  destruct (nthZ base offset) eqn:E0; [|unfold load_u16_le; by rewrite E0].
  destruct (nthZ base (offset + 1)) eqn:E1; [|unfold load_u16_le; by rewrite E0, E1].
  erewrite load_u16_le_spec by done. cbn [mbind option_bind].
  rewrite load_nil by (apply nthZ_Some in E0, E1; lia). done.
Qed.

Lemma load_u32_le_eq base offset :
  bytes_ok base -> load_u32_le base offset = le_combine <$> load base offset 4.
Proof.
  intros Hb. change 4 with (0 + 1 + 1 + 1 + 1). rewrite !load_cons by lia.
  norm_offsets.
  destruct (nthZ base offset) eqn:E0; [|unfold load_u32_le; by rewrite E0].
  destruct (nthZ base (offset + 1)) eqn:E1; [|unfold load_u32_le; by rewrite E0, E1].
  destruct (nthZ base (offset + 2)) eqn:E2; [|unfold load_u32_le; by rewrite E0, E1, E2].
  destruct (nthZ base (offset + 3)) eqn:E3; [|unfold load_u32_le; by rewrite E0, E1, E2, E3].
  erewrite load_u32_le_spec by done. cbn [mbind option_bind].
  rewrite load_nil by (apply nthZ_Some in E0, E3; lia). done.
Qed.

Lemma load_u64_le_eq base offset v :
  bytes_ok base -> load base offset 8 = Some v ->
  load_u64_le base offset = Some (le_combine v).
Proof.
  intros Hb. change 8 with (0 + 1 + 1 + 1 + 1 + 1 + 1 + 1 + 1). rewrite !load_cons by lia.
  norm_offsets. intros H.
  repeat match type of H with
  | (nthZ base ?o ≫= _) = Some _ =>
      destruct (nthZ base o) eqn:?; [cbn [mbind option_bind] in H|done]
  | context [nthZ base ?o] => destruct (nthZ base o) eqn:?; [cbn [mbind option_bind] in H|done]
  end.
  erewrite load_u64_le_spec by done.
  rewrite load_nil in H by (repeat match goal with E : nthZ _ _ = Some _ |- _ =>
    apply nthZ_Some in E end; lia).
  cbn [mbind option_bind] in H. congruence.
Qed.

(** A store of [n] little-endian bytes touches exactly [offset, offset + n). *)
Definition only_changes (base base' : bytes) (offset n : Z) : Prop :=
  len base' = len base /\
  forall i, 0 <= i -> i < offset \/ offset + n <= i -> nthZ base' i = nthZ base i.

Lemma store_only_changes b off d b' :
  store b off d = Some b' -> only_changes b b' off (len d).
Proof.
  intros H. split; [by eapply store_len|]. intros i Hi Hout.
  rewrite (store_nthZ _ _ _ _ _ H) by lia. case_match; [lia|done].
Qed.

Lemma store_le_load n b off val b' :
  store b off (le_split n val) = Some b' -> load b' off (Z.of_nat n) = Some (le_split n val).
Proof.
  intros H. apply load_store_same in H. unfold len in H. by rewrite length_le_split in H.
Qed.

(** What store_uN_le writes, load_uN_le reads back (modulo the width), for
    each of the 16, 32 and 64 bit accessors, and no byte outside the stored
    field changes. *)
Theorem le_store_load_roundtrip base offset val base' :
  bytes_ok base ->
  (store_u16_le base offset val = Some base' ->
     load_u16_le base' offset = Some (u16 val) /\ only_changes base base' offset 2) /\
  (store_u32_le base offset val = Some base' ->
     load_u32_le base' offset = Some (u32 val) /\ only_changes base base' offset 4) /\
  (store_u64_le base offset val = Some base' ->
     load_u64_le base' offset = Some (u64 val) /\ only_changes base base' offset 8).
Proof.
  intros Hb. rewrite store_u16_le_spec, store_u32_le_spec, store_u64_le_spec.
  split; [|split]; intros H;
    (assert (bytes_ok base') by (eapply store_bytes_ok; eauto with ts));
    (split; [|by apply store_only_changes in H]).
  - rewrite load_u16_le_eq, (store_le_load 2 _ _ _ _ H : load _ _ 2 = _) by done.
    cbn [fmap option_fmap option_map]. by rewrite le_combine_split.
  - rewrite load_u32_le_eq, (store_le_load 4 _ _ _ _ H : load _ _ 4 = _) by done.
    cbn [fmap option_fmap option_map]. by rewrite le_combine_split.
  - erewrite load_u64_le_eq by (done || exact (store_le_load 8 _ _ _ _ H)).
    by rewrite le_combine_split.
Qed.

Lemma le_store_load_roundtrip_witness :
  load_u32_le [17; 120; 86; 52; 18; 17] 1 = Some 305419896 /\
  only_changes (fill 17 6) [17; 120; 86; 52; 18; 17] 1 4.
Proof.
  refine (proj1 (proj2 (le_store_load_roundtrip (fill 17 6) 1 305419896 _ _)) _).
  - apply fill_bytes_ok. unfold byte_ok. lia.
  - reflexivity.
Defined.
