(* ===== verification/Tlv.v ===== *)
(** * components/common/tlv: tag/length/value records

    Pointers are 64-bit addresses and [object]s are the C objects they point
    into, so that the pointer comparisons of the iterators are the ones of the
    code. *)
From S2P Require Import Prelude.

Record object := Obj { base : Z; data : bytes }.

Definition read_at (o : object) (p n : Z) : option bytes := load (data o) (p - base o) n.

Definition write_at (o : object) (p : Z) (d : bytes) : option object :=
  d' ← store (data o) (p - base o) d; Some (Obj (base o) d').

Definition byte_at (o : object) (p : Z) : option Z := nthZ (data o) (p - base o).

Definition TLV_TAG_WIDTH : Z := 2.
Definition TLV_LENGTH_WIDTH : Z := 2.
Definition TLV_HDR_LEN : Z := TLV_TAG_WIDTH + TLV_LENGTH_WIDTH.
Definition TLV_TAG_OFFSET : Z := 0.
Definition TLV_LENGTH_OFFSET : Z := TLV_TAG_WIDTH.
Definition TLV_VALUE_OFFSET : Z := TLV_HDR_LEN.

Record tlv_record := TlvRecord { tag : Z; length : Z; value : Z }.

Record tlv_iterator := TlvIterator { pos : Z; limit : Z; prev_tag : Z }.

Record tlv_const_iterator := TlvConstIterator { cpos : Z; climit : Z }.

Definition tlv_required_space (length : Z) : Z := u64 (TLV_HDR_LEN + length).

Definition tlv_iterator_begin (buf bufsize : Z) : tlv_iterator :=
  let limit := u64 (buf + bufsize) in
  let limit := if limit <? buf then buf else limit in
  TlvIterator buf limit 0.

Definition tlv_const_iterator_begin (buf bufsize : Z) : tlv_const_iterator :=
  let limit := u64 (buf + bufsize) in
  let limit := if limit <? buf then buf else limit in
  TlvConstIterator buf limit.

(** [src] is the object [input->value] points into. *)
Definition tlv_encode (o : object) (iter : tlv_iterator) (src : object) (input : tlv_record) :
    option (bool * tlv_iterator * object) :=
  let required_space := tlv_required_space (length input) in
  let available_space := u64 (limit iter - pos iter) in
  if (required_space <=? available_space) && (prev_tag iter <=? tag input) then
    o ← write_at o (pos iter + TLV_TAG_OFFSET + 0) [u8 (Z.shiftr (tag input) 8)];
    o ← write_at o (pos iter + TLV_TAG_OFFSET + 1) [u8 (tag input)];
    o ← write_at o (pos iter + TLV_LENGTH_OFFSET + 0) [u8 (Z.shiftr (length input) 8)];
    o ← write_at o (pos iter + TLV_LENGTH_OFFSET + 1) [u8 (length input)];
    v ← read_at src (value input) (length input);
    o ← write_at o (pos iter + TLV_VALUE_OFFSET) v;
    Some (true, TlvIterator (pos iter + required_space) (limit iter) (tag input), o)
  else Some (false, iter, o).

Definition tlv_decode (o : object) (iter : tlv_const_iterator) (output : tlv_record) :
    option (bool * tlv_const_iterator * tlv_record) :=
  let max_space := u64 (climit iter - cpos iter) in
  if TLV_HDR_LEN <=? max_space then
    t0 ← byte_at o (cpos iter + TLV_TAG_OFFSET + 0);
    t1 ← byte_at o (cpos iter + TLV_TAG_OFFSET + 1);
    l0 ← byte_at o (cpos iter + TLV_LENGTH_OFFSET + 0);
    l1 ← byte_at o (cpos iter + TLV_LENGTH_OFFSET + 1);
    let output := TlvRecord (u16 (Z.lor (Z.shiftl t0 8) t1)) (u16 (Z.lor (Z.shiftl l0 8) l1))
                    (cpos iter + TLV_VALUE_OFFSET) in
    let record_len := length output + TLV_HDR_LEN in
    if record_len <=? max_space
    then Some (true, TlvConstIterator (cpos iter + record_len) (climit iter), output)
    else Some (false, iter, output)
  else Some (false, iter, output).

(** The search loop; [None] also when the fuel runs out, which
    [tlv_find_decode_returns] excludes. *)
Fixpoint tlv_find_loop (fuel : nat) (o : object) (iter temp_iter : tlv_const_iterator)
    (t : Z) (output : tlv_record) : option (bool * tlv_const_iterator * tlv_record) :=
  match fuel with
  | O => None
  | S fuel =>
      r ← tlv_decode o temp_iter output;
      let '(ok, temp_iter, output) := r in
      if ok : bool then
        if tag output =? t then Some (true, temp_iter, output)
        else if t <? tag output then Some (false, iter, output)
        else tlv_find_loop fuel o iter temp_iter t output
      else Some (false, iter, output)
  end.

(** Each iteration moves at least [TLV_HDR_LEN] bytes towards the limit. *)
Definition tlv_find_decode (o : object) (iter : tlv_const_iterator) (t : Z) (output : tlv_record) :
    option (bool * tlv_const_iterator * tlv_record) :=
  tlv_find_loop (S (Z.to_nat (climit iter - cpos iter))) o iter iter t output.

(** ** The abstract content of a buffer *)

(** A record by value, as the client of the iterators sees it. *)
Record entry := Entry { e_tag : Z; e_value : bytes }.

Definition entry_ok (e : entry) : Prop :=
  0 <= e_tag e < 2 ^ 16 /\ len (e_value e) < 2 ^ 16 /\ bytes_ok (e_value e).

Definition be16 (x : Z) : bytes := [x / 256 mod 256; x mod 256].

Definition enc (e : entry) : bytes := be16 (e_tag e) ++ be16 (len (e_value e)) ++ e_value e.

(** The client's view of a decoded record. *)
Definition entry_of (o : object) (r : tlv_record) : option entry :=
  Entry (tag r) <$> read_at o (value r) (length r).

Definition object_of (v : bytes) : object := Obj 0 v.

(** Encoding a sequence of entries with successive [tlv_encode] calls. *)
Fixpoint encode_all (o : object) (iter : tlv_iterator) (es : list entry) :
    option (bool * tlv_iterator * object) :=
  match es with
  | [] => Some (true, iter, o)
  | e :: es =>
      r ← tlv_encode o iter (object_of (e_value e)) (TlvRecord (e_tag e) (len (e_value e)) 0);
      let '(ok, iter, o) := r in
      if ok : bool then encode_all o iter es else Some (false, iter, o)
  end.

(** Iterators over a live object: inside it, and the object inside the
    address space. *)
Definition in_object (o : object) (p l : Z) : Prop :=
  0 <= base o <= p /\ p <= l /\ l <= base o + len (data o) /\ base o + len (data o) < 2 ^ 64.

(** Entries in ascending tag order, as the encoder enforces. *)
Fixpoint ascending (prev : Z) (es : list entry) : Prop :=
  match es with
  | [] => True
  | e :: es => prev <= e_tag e /\ ascending (e_tag e) es
  end.

Definition encs (es : list entry) : bytes := concat (enc <$> es).

(** The first entry with a given tag, with what follows it. *)
Fixpoint first_with_tag (t : Z) (es : list entry) : option entry :=
  match es with
  | [] => None
  | e :: es => if e_tag e =? t then Some e else first_with_tag t es
  end.

(** ** Lemmas *)
Lemma write_at_cons o p x d :
  write_at o p (x :: d) = (o1 ← write_at o p [x]; write_at o1 (p + 1) d).
Proof.
  unfold write_at. rewrite store_cons, setZ_store.
  destruct (store (data o) (p - base o) [x]) as [b1|]; [|done].
  cbn [mbind option_bind base data]. by replace (p + 1 - base o) with (p - base o + 1) by lia.
Qed.

Lemma write_header o p a b c d v :
  (o ← write_at o p [a]; o ← write_at o (p + 1) [b]; o ← write_at o (p + 2) [c];
   o ← write_at o (p + 3) [d]; write_at o (p + 4) v) = write_at o p (a :: b :: c :: d :: v).
Proof.
  rewrite (write_at_cons o p a (b :: _)). destruct (write_at o p [a]) as [o1|]; [cbn [mbind option_bind]|done].
  rewrite (write_at_cons o1 _ b (c :: _)). destruct (write_at o1 _ [b]) as [o2|]; [cbn [mbind option_bind]|done].
  replace (p + 1 + 1) with (p + 2) by lia. rewrite (write_at_cons o2 _ c (d :: _)).
  destruct (write_at o2 _ [c]) as [o3|]; [cbn [mbind option_bind]|done].
  replace (p + 2 + 1) with (p + 3) by lia. rewrite (write_at_cons o3 _ d v).
  destruct (write_at o3 _ [d]) as [o4|]; [cbn [mbind option_bind]|done].
  by replace (p + 3 + 1) with (p + 4) by lia.
Qed.

Lemma len_enc e : len (enc e) = 4 + len (e_value e).
Proof. unfold enc, be16, len. rewrite !length_app. cbn [Datatypes.length]. lia. Qed.

Lemma len_encs_cons e es : len (encs (e :: es)) = len (enc e) + len (encs es).
Proof. change (encs (e :: es)) with (enc e ++ encs es). unfold len. rewrite length_app. lia. Qed.

Lemma be16_or x :
  0 <= x < 2 ^ 16 -> u16 (Z.lor (Z.shiftl (x / 256 mod 256) 8) (x mod 256)) = x.
Proof.
  intros Hx. pose proof (Z.mod_pos_bound x 256 ltac:(lia)). rewrite (Z.mod_small (x / 256)) by
    (split; [apply Z.div_pos; lia|apply Z.div_lt_upper_bound; lia]).
  rewrite Z.lor_comm, lor_shiftl_add by lia.
  rewrite wrap_small; pose proof (Z_div_mod_eq_full x 256); lia.
Qed.

Lemma enc_bytes_ok e : entry_ok e -> bytes_ok (enc e).
Proof.
  intros (_&_&Hv). unfold enc, be16. repeat constructor; try done;
    apply Z.mod_pos_bound; lia.
Qed.

(** [tlv_encode], accepted: exactly [enc e] is written at [pos]. *)
Lemma tlv_encode_accept o p l prev e :
  in_object o p l -> entry_ok e -> prev <= e_tag e -> len (enc e) <= l - p ->
  exists o', write_at o p (enc e) = Some o' /\
    tlv_encode o (TlvIterator p l prev) (object_of (e_value e))
      (TlvRecord (e_tag e) (len (e_value e)) 0)
    = Some (true, TlvIterator (p + len (enc e)) l (e_tag e), o').
Proof.
  intros (Hb&Hp&Hl&Hm) (Ht&Hv&_) Hprev Hfit.
  pose proof (len_nonneg (e_value e)). rewrite len_enc in *.
  destruct (store_ok (data o) (p - base o) (enc e)) as [d' Hd'];
    [lia|rewrite len_enc; lia|].
  exists (Obj (base o) d').
  assert (write_at o p (enc e) = Some (Obj (base o) d')) as Hw by (unfold write_at; by rewrite Hd').
  split; [done|].
  unfold tlv_encode, tlv_required_space. cbn [pos limit prev_tag tag length value].
  change TLV_TAG_OFFSET with 0. change TLV_LENGTH_OFFSET with 2.
  change TLV_VALUE_OFFSET with 4. change TLV_HDR_LEN with 4.
  rewrite !wrap_small by lia. case_match; [|lia].
  assert (read_at (object_of (e_value e)) 0 (len (e_value e)) = Some (e_value e)) as ->
    by apply load_all.
  unfold enc, be16 in Hw. cbn [app] in Hw. rewrite <- write_header in Hw.
  rewrite !shiftr_div, !Z.add_0_r, <- !(Z.add_assoc p) by lia. change (0 + 1) with 1. change (2 + 1) with 3.
  unfold wrap. change (2 ^ 8) with 256.
  repeat match type of Hw with
  | (?w ≫= _) = Some _ => destruct w as [?|]; [cbn [mbind option_bind] in Hw |- *|done]
  end.
  rewrite Hw. cbn [mbind option_bind]. done.
Qed.

Lemma tlv_encode_reject o iter src input :
  u64 (limit iter - pos iter) < tlv_required_space (length input) \/ tag input < prev_tag iter ->
  tlv_encode o iter src input = Some (false, iter, o).
Proof. intros H. unfold tlv_encode. case_match; [|done]. bool_to_prop. lia. Qed.

(** [tlv_decode] of an encoded entry. *)
Lemma encoded_bytes o p e :
  read_at o p (len (enc e)) = Some (enc e) ->
  byte_at o p = Some (e_tag e / 256 mod 256) /\ byte_at o (p + 1) = Some (e_tag e mod 256) /\
  byte_at o (p + 2) = Some (len (e_value e) / 256 mod 256) /\
  byte_at o (p + 3) = Some (len (e_value e) mod 256) /\
  read_at o (p + 4) (len (e_value e)) = Some (e_value e).
Proof.
  intros H. pose proof (len_nonneg (e_value e)).
  assert (forall i, 0 <= i < 4 -> byte_at o (p + i) = nthZ (enc e) i) as Hi.
  { intros i Hi. unfold byte_at. rewrite (load_nthZ _ _ _ _ _ H) by (rewrite len_enc; lia).
    f_equal. lia. }
  split; [rewrite <- (Z.add_0_r p); by rewrite Hi by lia|].
  do 3 (split; [by rewrite Hi by lia|]).
  unfold read_at in *. rewrite len_enc in H. apply load_app in H as (d1&d2&H1&H2&He); [|lia|lia].
  replace (p + 4 - base o) with (p - base o + 4) by lia. rewrite H2. f_equal.
  apply load_len in H1. unfold len in H1. unfold enc in He.
  rewrite app_assoc in He. apply app_inj_1 in He as [_ ->]; [done|].
  rewrite length_app. cbn [be16 Datatypes.length]. lia.
Qed.

Lemma tlv_decode_encoded o p l e out :
  in_object o p l -> entry_ok e -> len (enc e) <= l - p ->
  read_at o p (len (enc e)) = Some (enc e) ->
  exists r, tlv_decode o (TlvConstIterator p l) out
      = Some (true, TlvConstIterator (p + len (enc e)) l, r) /\
    tag r = e_tag e /\ entry_of o r = Some e.
Proof.
  intros (Hb&Hp&Hl&Hm) (Ht&Hv&_) Hfit (H0&H1&H2&H3&Hval)%encoded_bytes.
  pose proof (len_nonneg (e_value e)). rewrite len_enc in *.
  unfold tlv_decode. cbn [cpos climit].
  change TLV_TAG_OFFSET with 0. change TLV_LENGTH_OFFSET with 2.
  change TLV_VALUE_OFFSET with 4. change TLV_HDR_LEN with 4.
  rewrite wrap_small by lia. case_match; [|lia].
  rewrite !Z.add_0_r, H0, <- !Z.add_assoc. change (2 + 1) with 3. rewrite H1, H2, H3.
  cbn [mbind option_bind tag length value]. rewrite !be16_or by lia. case_match; [|lia].
  rewrite (Z.add_comm (len (e_value e))). eexists. split; [reflexivity|]. split; [done|].
  unfold entry_of. cbn [tag length value]. rewrite Hval. by destruct e.
Qed.

(** Writing at [p] keeps everything below [p] and the shape of the object. *)
Lemma write_at_spec o p d o' :
  write_at o p d = Some o' ->
  base o' = base o /\ len (data o') = len (data o) /\ read_at o' p (len d) = Some d /\
  forall q n, base o <= q -> q + n <= p -> read_at o' q n = read_at o q n.
Proof.
  unfold write_at. intros H. apply bind_Some in H as (d' & H & [= <-]). cbn [base data].
  split; [done|]. split; [by eapply store_len|]. split; [by eapply load_store_same|].
  intros q n Hq Hn. unfold read_at. cbn [base data]. eapply load_store_disjoint; [done|lia|lia].
Qed.

Lemma in_object_write o p d o' q l :
  write_at o p d = Some o' -> in_object o q l -> in_object o' q l.
Proof. intros (?&?&_)%write_at_spec (?&?&?&?). unfold in_object. lia. Qed.

Lemma in_object_advance o p l n : in_object o p l -> 0 <= n <= l - p -> in_object o (p + n) l.
Proof. intros (?&?&?&?) ?. unfold in_object. lia. Qed.

(** Encoding a sequence that fits succeeds and leaves its encoding in the buffer. *)
Lemma encode_all_spec es : forall o p l prev,
  in_object o p l -> Forall entry_ok es -> ascending prev es -> len (encs es) <= l - p ->
  exists prev' o', encode_all o (TlvIterator p l prev) es
      = Some (true, TlvIterator (p + len (encs es)) l prev', o') /\
    base o' = base o /\ len (data o') = len (data o) /\
    read_at o' p (len (encs es)) = Some (encs es) /\
    forall q n, base o <= q -> q + n <= p -> read_at o' q n = read_at o q n.
Proof.
  induction es as [|e es IH]; intros o p l prev Ho Hok Hasc Hfit; cbn [encode_all].
  - exists prev, o. change (len (encs [])) with 0. rewrite Z.add_0_r.
    destruct Ho as (?&?&?&?). repeat split; try done. unfold read_at. by rewrite load_nil by lia.
  - apply Forall_cons in Hok as [He Hok]. destruct Hasc as [Hp Hasc].
    rewrite len_encs_cons in *. pose proof (len_nonneg (encs es)). pose proof (len_nonneg (enc e)).
    destruct (tlv_encode_accept o p l prev e) as (o1 & Hw & ->); try done; [lia|].
    cbn [mbind option_bind].
    destruct (IH o1 (p + len (enc e)) l (e_tag e)) as (prev' & o' & Hrun & Hb & Hl & Hread & Hframe).
    { apply in_object_advance; [by eapply in_object_write|lia]. }
    { done. } { done. } { lia. }
    apply write_at_spec in Hw as (Hb1 & Hl1 & Hr1 & Hf1). destruct Ho as (?&?&?&?).
    exists prev', o'. rewrite Z.add_assoc. repeat split; [done|congruence|lia| |].
    + unfold read_at in *. change (encs (e :: es)) with (enc e ++ encs es).
      specialize (Hframe p (len (enc e)) ltac:(lia) ltac:(lia)). rewrite Hr1 in Hframe.
      rewrite load_ok by (pose proof (len_nonneg (encs es)); lia).
      apply load_Some in Hframe as (?&?&?&He1). apply load_Some in Hread as (?&?&?&He2).
      f_equal. rewrite Z2Nat.inj_add, <- take_take_drop, drop_drop by lia.
      rewrite <- He1. f_equal. rewrite <- Z2Nat.inj_add by lia.
      replace (p - base o' + len (enc e)) with (p + len (enc e) - base o') by lia. done.
    + intros q n Hq Hn. rewrite Hframe by lia. apply Hf1; lia.
Qed.

(** On any bytes, a decode step stays inside the buffer and, when it
    succeeds, moves forward past a record that lies inside it. *)
Lemma tlv_decode_safe o p l out :
  in_object o p l -> bytes_ok (data o) ->
  exists ok it r, tlv_decode o (TlvConstIterator p l) out = Some (ok, it, r) /\
    climit it = l /\
    (if ok : bool
     then p + TLV_HDR_LEN <= cpos it <= l /\ value r = p + TLV_VALUE_OFFSET /\
          cpos it = value r + length r /\ is_Some (read_at o (value r) (length r))
     else cpos it = p).
Proof.
  intros (Hb&Hp&Hl&Hm) Hok. unfold tlv_decode. cbn [cpos climit].
  change TLV_TAG_OFFSET with 0. change TLV_LENGTH_OFFSET with 2.
  change TLV_VALUE_OFFSET with 4. change TLV_HDR_LEN with 4.
  rewrite wrap_small by lia. case_match; [|by do 3 eexists].
  assert (forall i, 0 <= i < 4 -> exists b, byte_at o (p + i) = Some b) as Hbyte.
  { intros i Hi. unfold byte_at. by apply nthZ_is_Some; lia. }
  destruct (Hbyte 0) as [t0 E0]; [lia|]. destruct (Hbyte 1) as [t1 E1]; [lia|].
  destruct (Hbyte 2) as [l0 E2]; [lia|]. destruct (Hbyte 3) as [l1 E3]; [lia|].
  rewrite !Z.add_0_r in *. rewrite <- !(Z.add_assoc p). change (2 + 1) with 3.
  change (0 + 1) with 1. rewrite E0, E1, E2, E3. cbn [mbind option_bind tag length value].
  pose proof (wrap_fits 16 (Z.lor (Z.shiftl l0 8) l1) ltac:(lia)) as Hf. unfold fits in Hf.
  case_match; [|by do 3 eexists].
  do 3 eexists. split; [reflexivity|]. cbn [cpos climit value length].
  split; [done|]. split; [lia|]. split; [done|]. split; [lia|].
  unfold read_at. rewrite load_ok by lia. eauto.
Qed.

(** The search loop returns within the fuel of [tlv_find_decode]. *)
Lemma tlv_find_loop_safe fuel : forall o it0 p l t out,
  in_object o p l -> bytes_ok (data o) -> (Z.to_nat (l - p) < fuel)%nat ->
  exists ok it r, tlv_find_loop fuel o it0 (TlvConstIterator p l) t out = Some (ok, it, r) /\
    (if ok : bool
     then climit it = l /\ p + TLV_HDR_LEN <= cpos it <= l /\ cpos it = value r + length r /\
          tag r = t /\ p + TLV_VALUE_OFFSET <= value r /\ is_Some (read_at o (value r) (length r))
     else it = it0).
Proof.
  induction fuel as [|fuel IH]; intros o it0 p l t out Ho Hok Hfuel; [lia|].
  cbn [tlv_find_loop].
  destruct (tlv_decode_safe o p l out Ho Hok) as (ok & it & r & -> & Hl & Hr).
  cbn [mbind option_bind]. destruct ok; [|by do 3 eexists].
  destruct Hr as (Hp & Hv & Hc & Hs). change TLV_HDR_LEN with 4 in *. change TLV_VALUE_OFFSET with 4 in *.
  destruct (Z.eqb_spec (tag r) t) as [Ht|Ht].
  { do 3 eexists. split; [reflexivity|]. simpl. repeat split; try done; lia. }
  case_match; [by do 3 eexists|].
  destruct it as [cp cl]. simpl in *. subst cl.
  destruct (IH o it0 cp l t r) as (ok & it & r' & Hrun & Hpost); try done.
  { destruct Ho as (?&?&?&?). unfold in_object. lia. } { lia. }
  rewrite Hrun. do 3 eexists. split; [reflexivity|]. destruct ok; [|done].
  destruct Hpost as (?&?&?&?&?&?). repeat split; try done; lia.
Qed.

Lemma ascending_first_none t es : forall k, ascending k es -> t < k -> first_with_tag t es = None.
Proof.
  induction es as [|e es IH]; intros k; simpl; [done|]. intros [Hk Ha] Ht.
  case_match; [lia|]. eapply IH; [done|lia].
Qed.

(** ... and on an encoded sequence it finds the first entry with the tag. *)
Lemma tlv_find_loop_encoded es : forall fuel o it0 p l t out,
  in_object o p l -> l = p + len (encs es) -> Forall entry_ok es ->
  (exists prev, ascending prev es) ->
  read_at o p (len (encs es)) = Some (encs es) -> (Z.to_nat (l - p) < fuel)%nat ->
  match first_with_tag t es with
  | Some e => exists it r, tlv_find_loop fuel o it0 (TlvConstIterator p l) t out = Some (true, it, r)
                /\ entry_of o r = Some e
  | None => exists r, tlv_find_loop fuel o it0 (TlvConstIterator p l) t out = Some (false, it0, r)
  end.
Proof.
  induction es as [|e es IH]; intros fuel o it0 p l t out Ho Hl Hok [prev Hasc] Hread Hfuel;
    (destruct fuel as [|fuel]; [lia|]); cbn [tlv_find_loop first_with_tag].
  - exists out. change (len (encs [])) with 0 in *. unfold tlv_decode. cbn [cpos climit].
    replace (l - p) with 0 by lia. rewrite wrap_small by lia. done.
  - apply Forall_cons in Hok as [He Hok]. destruct Hasc as [_ Hasc].
    rewrite len_encs_cons in *. pose proof (len_nonneg (encs es)).
    pose proof (len_nonneg (e_value e)) as Hnn. pose proof (len_enc e) as Henc.
    unfold read_at in Hread. apply load_app in Hread as (d1 & d2 & H1 & H2 & Hd); [|lia|lia].
    assert (d1 = enc e /\ d2 = encs es) as [-> ->].
    { apply load_len in H1. unfold len in H1. change (encs (e :: es)) with (enc e ++ encs es) in Hd.
      apply app_inj_1 in Hd as [-> ->]; [done|lia]. }
    destruct (tlv_decode_encoded o p l e out) as (r & -> & Htag & Hent); [done|done|lia|done|].
    cbn [mbind option_bind]. rewrite Htag.
    destruct (Z.eqb_spec (e_tag e) t); [eauto|].
    destruct (Z.ltb_spec t (e_tag e)) as [Hlt|Hge].
    + rewrite (ascending_first_none t es (e_tag e)) by (done || lia). eauto.
    + apply IH; [apply in_object_advance; [done|lia]|lia|done|eauto| |lia].
      unfold read_at. by replace (p + len (enc e) - base o) with (p - base o + len (enc e)) by lia.
Qed.

(** Encoding any in-order sequence of records that fits the buffer succeeds,
    writes only the encoded region, and tlv_find_decode over that region returns,
    for every tag, exactly the first record encoded with that tag (or reports that
    there is none and leaves the iterator where it was). *)
Theorem tlv_encode_find_roundtrip o p size es t out :
  in_object o p (p + size) -> Forall entry_ok es -> ascending 0 es -> len (encs es) <= size ->
  exists it o', encode_all o (tlv_iterator_begin p size) es = Some (true, it, o') /\
    pos it = p + len (encs es) /\
    (forall q n, base o <= q -> q + n <= p -> read_at o' q n = read_at o q n) /\
    let begin := tlv_const_iterator_begin p (pos it - p) in
    match first_with_tag t es with
    | Some e => exists it' r, tlv_find_decode o' begin t out = Some (true, it', r)
                  /\ entry_of o' r = Some e
    | None => exists r, tlv_find_decode o' begin t out = Some (false, begin, r)
    end.
Proof.
  intros Ho Hok Hasc Hfit. pose proof Ho as (?&?&?&?). pose proof (len_nonneg (encs es)).
  assert (tlv_iterator_begin p size = TlvIterator p (p + size) 0) as ->.
  { unfold tlv_iterator_begin. rewrite wrap_small by lia. by case_match; [lia|]. }
  destruct (encode_all_spec es o p (p + size) 0) as (prev' & o' & -> & Hb & Hl & Hr & Hf);
    try done; [lia|].
  do 2 eexists. split; [reflexivity|]. cbn [pos]. split; [done|]. split; [done|].
  replace (p + len (encs es) - p) with (len (encs es)) by lia.
  unfold tlv_const_iterator_begin. rewrite wrap_small by lia.
  destruct (Z.ltb_spec (p + len (encs es)) p); [lia|]. cbv zeta.
  unfold tlv_find_decode. cbn [cpos climit].
  apply tlv_find_loop_encoded; try done; [|eauto|lia].
  unfold in_object. lia.
Qed.

Lemma tlv_encode_find_roundtrip_witness :
  let es := [Entry 1 [7; 8]; Entry 5 [9]] in
  let o := Obj 4096 (fill 0 16) in
  exists it o', encode_all o (tlv_iterator_begin 4098 12) es = Some (true, it, o') /\
    pos it = 4098 + 11 /\
    (forall q n, base o <= q -> q + n <= 4098 -> read_at o' q n = read_at o q n) /\
    exists it' r, tlv_find_decode o' (tlv_const_iterator_begin 4098 (pos it - 4098)) 5
                    (TlvRecord 0 0 0) = Some (true, it', r) /\ entry_of o' r = Some (Entry 5 [9]).
Proof.
  intros es o. apply (tlv_encode_find_roundtrip o 4098 12 es 5 (TlvRecord 0 0 0)).
  - unfold in_object. change (len (data o)) with 16. simpl. lia.
  - repeat constructor; simpl; lia.
  - simpl. lia.
  - vm_compute. discriminate.
Defined.

(** C29: on arbitrary (untrusted) bytes tlv_find_decode always returns: it never
    reads outside the iterator's range, and a record it reports has the requested
    tag, its value lies inside the range and the iterator is left just after it. *)
Theorem tlv_find_decode_returns o p l t out :
  in_object o p l -> bytes_ok (data o) ->
  exists ok it r, tlv_find_decode o (TlvConstIterator p l) t out = Some (ok, it, r) /\
    (if ok : bool
     then climit it = l /\ p + TLV_HDR_LEN <= cpos it <= l /\ cpos it = value r + length r /\
          tag r = t /\ p + TLV_VALUE_OFFSET <= value r /\ is_Some (read_at o (value r) (length r))
     else it = TlvConstIterator p l).
Proof.
  intros Ho Hok. unfold tlv_find_decode. cbn [cpos climit].
  apply tlv_find_loop_safe; [done|done|lia].
Qed.

Lemma tlv_find_decode_returns_witness :
  let o := Obj 64 [0; 1; 0; 200; 3; 4] in
  exists ok it r, tlv_find_decode o (TlvConstIterator 64 70) 1 (TlvRecord 0 0 0) = Some (ok, it, r) /\
    (if ok : bool
     then climit it = 70 /\ 64 + TLV_HDR_LEN <= cpos it <= 70 /\ cpos it = value r + length r /\
          tag r = 1 /\ 64 + TLV_VALUE_OFFSET <= value r /\ is_Some (read_at o (value r) (length r))
     else it = TlvConstIterator 64 70).
Proof.
  intros o. apply (tlv_find_decode_returns o 64 70 1 (TlvRecord 0 0 0)).
  - unfold in_object. change (len (data o)) with 6. simpl. lia.
  - repeat constructor; lia.
Defined.
