(* ===== verification/Crc32.v ===== *)
(** * components/common/crc32/crc32.c: CRC-32 of the FWU metadata

    The table-driven routine of the code, the hardware routine behind
    [__crc32b] (an argument of the model: the instruction is not in the
    repository) and the bit-serial reference CRC they both compute. *)
From S2P Require Import Prelude.

Definition crc32_tab : list Z :=
  [0x00000000; 0x77073096; 0xee0e612c; 0x990951ba; 0x076dc419; 0x706af48f;
   0xe963a535; 0x9e6495a3; 0x0edb8832; 0x79dcb8a4; 0xe0d5e91e; 0x97d2d988;
   0x09b64c2b; 0x7eb17cbd; 0xe7b82d07; 0x90bf1d91; 0x1db71064; 0x6ab020f2;
   0xf3b97148; 0x84be41de; 0x1adad47d; 0x6ddde4eb; 0xf4d4b551; 0x83d385c7;
   0x136c9856; 0x646ba8c0; 0xfd62f97a; 0x8a65c9ec; 0x14015c4f; 0x63066cd9;
   0xfa0f3d63; 0x8d080df5; 0x3b6e20c8; 0x4c69105e; 0xd56041e4; 0xa2677172;
   0x3c03e4d1; 0x4b04d447; 0xd20d85fd; 0xa50ab56b; 0x35b5a8fa; 0x42b2986c;
   0xdbbbc9d6; 0xacbcf940; 0x32d86ce3; 0x45df5c75; 0xdcd60dcf; 0xabd13d59;
   0x26d930ac; 0x51de003a; 0xc8d75180; 0xbfd06116; 0x21b4f4b5; 0x56b3c423;
   0xcfba9599; 0xb8bda50f; 0x2802b89e; 0x5f058808; 0xc60cd9b2; 0xb10be924;
   0x2f6f7c87; 0x58684c11; 0xc1611dab; 0xb6662d3d; 0x76dc4190; 0x01db7106;
   0x98d220bc; 0xefd5102a; 0x71b18589; 0x06b6b51f; 0x9fbfe4a5; 0xe8b8d433;
   0x7807c9a2; 0x0f00f934; 0x9609a88e; 0xe10e9818; 0x7f6a0dbb; 0x086d3d2d;
   0x91646c97; 0xe6635c01; 0x6b6b51f4; 0x1c6c6162; 0x856530d8; 0xf262004e;
   0x6c0695ed; 0x1b01a57b; 0x8208f4c1; 0xf50fc457; 0x65b0d9c6; 0x12b7e950;
   0x8bbeb8ea; 0xfcb9887c; 0x62dd1ddf; 0x15da2d49; 0x8cd37cf3; 0xfbd44c65;
   0x4db26158; 0x3ab551ce; 0xa3bc0074; 0xd4bb30e2; 0x4adfa541; 0x3dd895d7;
   0xa4d1c46d; 0xd3d6f4fb; 0x4369e96a; 0x346ed9fc; 0xad678846; 0xda60b8d0;
   0x44042d73; 0x33031de5; 0xaa0a4c5f; 0xdd0d7cc9; 0x5005713c; 0x270241aa;
   0xbe0b1010; 0xc90c2086; 0x5768b525; 0x206f85b3; 0xb966d409; 0xce61e49f;
   0x5edef90e; 0x29d9c998; 0xb0d09822; 0xc7d7a8b4; 0x59b33d17; 0x2eb40d81;
   0xb7bd5c3b; 0xc0ba6cad; 0xedb88320; 0x9abfb3b6; 0x03b6e20c; 0x74b1d29a;
   0xead54739; 0x9dd277af; 0x04db2615; 0x73dc1683; 0xe3630b12; 0x94643b84;
   0x0d6d6a3e; 0x7a6a5aa8; 0xe40ecf0b; 0x9309ff9d; 0x0a00ae27; 0x7d079eb1;
   0xf00f9344; 0x8708a3d2; 0x1e01f268; 0x6906c2fe; 0xf762575d; 0x806567cb;
   0x196c3671; 0x6e6b06e7; 0xfed41b76; 0x89d32be0; 0x10da7a5a; 0x67dd4acc;
   0xf9b9df6f; 0x8ebeeff9; 0x17b7be43; 0x60b08ed5; 0xd6d6a3e8; 0xa1d1937e;
   0x38d8c2c4; 0x4fdff252; 0xd1bb67f1; 0xa6bc5767; 0x3fb506dd; 0x48b2364b;
   0xd80d2bda; 0xaf0a1b4c; 0x36034af6; 0x41047a60; 0xdf60efc3; 0xa867df55;
   0x316e8eef; 0x4669be79; 0xcb61b38c; 0xbc66831a; 0x256fd2a0; 0x5268e236;
   0xcc0c7795; 0xbb0b4703; 0x220216b9; 0x5505262f; 0xc5ba3bbe; 0xb2bd0b28;
   0x2bb45a92; 0x5cb36a04; 0xc2d7ffa7; 0xb5d0cf31; 0x2cd99e8b; 0x5bdeae1d;
   0x9b64c2b0; 0xec63f226; 0x756aa39c; 0x026d930a; 0x9c0906a9; 0xeb0e363f;
   0x72076785; 0x05005713; 0x95bf4a82; 0xe2b87a14; 0x7bb12bae; 0x0cb61b38;
   0x92d28e9b; 0xe5d5be0d; 0x7cdcefb7; 0x0bdbdf21; 0x86d3d2d4; 0xf1d4e242;
   0x68ddb3f8; 0x1fda836e; 0x81be16cd; 0xf6b9265b; 0x6fb077e1; 0x18b74777;
   0x88085ae6; 0xff0f6a70; 0x66063bca; 0x11010b5c; 0x8f659eff; 0xf862ae69;
   0x616bffd3; 0x166ccf45; 0xa00ae278; 0xd70dd2ee; 0x4e048354; 0x3903b3c2;
   0xa7672661; 0xd06016f7; 0x4969474d; 0x3e6e77db; 0xaed16a4a; 0xd9d65adc;
   0x40df0b66; 0x37d83bf0; 0xa9bcae53; 0xdebb9ec5; 0x47b2cf7f; 0x30b5ffe9;
   0xbdbdf21c; 0xcabac28a; 0x53b39330; 0x24b4a3a6; 0xbad03605; 0xcdd70693;
   0x54de5729; 0x23d967bf; 0xb3667a2e; 0xc4614ab8; 0x5d681b02; 0x2a6f2b94;
   0xb40bbe37; 0xc30c8ea1; 0x5a05df1b; 0x2d02ef8d].

(** C's [~] on a [uint32_t]. *)
Definition not32 (x : Z) : Z := Z.lxor x (2 ^ 32 - 1).

Fixpoint crc32_sw_loop (crc : Z) (buf : bytes) : option Z :=
  match buf with
  | [] => Some crc
  | b :: buf =>
      t ← nthZ crc32_tab (Z.land (Z.lxor crc b) 255);
      crc32_sw_loop (Z.lxor t (Z.shiftr crc 8)) buf
  end.

(** [buf = None] is the NULL pointer. *)
Definition crc32_sw (crc_prev : Z) (buf : option bytes) (size : Z) : option Z :=
  let crc := not32 crc_prev in
  match buf with
  | None => Some 0
  | Some buf => buf ← load buf 0 size; crc ← crc32_sw_loop crc buf; Some (not32 crc)
  end.

Definition crc32_armv8a (crc32b : Z -> Z -> Z) (crc_prev : Z) (buf : option bytes) (size : Z) :
    option Z :=
  let crc := not32 crc_prev in
  match buf with
  | None => Some 0
  | Some buf => buf ← load buf 0 size; Some (not32 (fold_left crc32b buf crc))
  end.

(** The function pointer [crc32] and the routine it holds. *)
Inductive crc32_impl := Crc32Sw | Crc32Armv8a.

Definition crc32_initial : crc32_impl := Crc32Sw.

(** [arm_feature_crc32]: compiled with __ARM_FEATURE_CRC32;
    [hw_available]: the answer of crc32_armv8a_hw_available(). *)
Definition crc32_init (arm_feature_crc32 hw_available : bool) (crc32 : crc32_impl) : crc32_impl :=
  if arm_feature_crc32 && hw_available then Crc32Armv8a else crc32.

Definition tf_crc32 (crc32 : crc32_impl) (crc32b : Z -> Z -> Z) (crc : Z)
    (buf : option bytes) (size : Z) : option Z :=
  match crc32 with
  | Crc32Sw => crc32_sw crc buf size
  | Crc32Armv8a => crc32_armv8a crc32b crc buf size
  end.

(** ** The reference: reflected CRC-32, polynomial 0xEDB88320, bit by bit *)
Definition crc_poly : Z := 0xEDB88320.

Definition crc_bit (c : Z) : Z :=
  Z.lxor (Z.shiftr c 1) (if Z.testbit c 0 then crc_poly else 0).

Definition crc_bits8 (c : Z) : Z := Nat.iter 8 crc_bit c.

Definition crc_byte (c b : Z) : Z := crc_bits8 (Z.lxor c b).

Definition crc_ref (crc_prev : Z) (buf : bytes) : Z := not32 (fold_left crc_byte buf (not32 crc_prev)).

(** ** The table holds the reference CRC of every byte *)
Lemma crc32_tab_ref :
  forallb (fun i => bool_decide (nthZ crc32_tab i = Some (crc_bits8 i))) (Z.of_nat <$> seq 0 256) = true.
Proof. vm_compute. reflexivity. Qed.

Lemma crc32_tab_lookup i : 0 <= i < 256 -> nthZ crc32_tab i = Some (crc_bits8 i).
Proof.
  intros Hi. pose proof crc32_tab_ref as H. rewrite forallb_forall in H.
  specialize (H i). rewrite bool_decide_eq_true in H. apply H.
  apply list_elem_of_In. apply list_elem_of_fmap. exists (Z.to_nat i).
  split; [lia|]. apply elem_of_seq. lia.
Qed.

(** ** Linearity of the reference step *)
Lemma crc_bit_lxor a b : crc_bit (Z.lxor a b) = Z.lxor (crc_bit a) (crc_bit b).
Proof.
  unfold crc_bit. rewrite Z.shiftr_lxor, Z.lxor_spec.
  destruct (Z.testbit a 0), (Z.testbit b 0); cbn [xorb]; rewrite ?Z.lxor_0_r.
  - rewrite Z.lxor_assoc, (Z.lxor_comm crc_poly), Z.lxor_assoc, Z.lxor_nilpotent.
    by rewrite Z.lxor_0_r.
  - by rewrite !Z.lxor_assoc, (Z.lxor_comm crc_poly).
  - by rewrite Z.lxor_assoc.
  - done.
Qed.

Lemma iter_crc_bit_lxor n a b :
  Nat.iter n crc_bit (Z.lxor a b) = Z.lxor (Nat.iter n crc_bit a) (Nat.iter n crc_bit b).
Proof. induction n as [|n IH]; [done|]. rewrite !Nat.iter_succ. by rewrite IH, crc_bit_lxor. Qed.

Lemma iter_crc_bit_shift n x : Nat.iter n crc_bit (Z.shiftl x (Z.of_nat n)) = x.
Proof.
  induction n as [|n IH]; [apply Z.shiftl_0_r|].
  rewrite Nat.iter_succ_r. unfold crc_bit at 2.
  rewrite Z.shiftl_spec_low by lia. rewrite Z.lxor_0_r, Z.shiftr_shiftl_l by lia.
  replace (Z.of_nat (S n) - 1) with (Z.of_nat n) by lia. done.
Qed.

Lemma split_low_byte c : c = Z.lxor (Z.land c 255) (Z.shiftl (Z.shiftr c 8) 8).
Proof.
  apply Z.bits_inj_iff. intros i. rewrite Z.lxor_spec, Z.land_spec.
  destruct (Z.ltb_spec i 0); [by rewrite !Z.testbit_neg_r|].
  rewrite Z.shiftl_spec by lia. change 255 with (Z.ones 8).
  destruct (Z.ltb_spec i 8).
  - rewrite Z.ones_spec_low, andb_true_r by lia.
    by rewrite (Z.testbit_neg_r _ (i - 8)), xorb_false_r by lia.
  - rewrite Z.ones_spec_high, andb_false_r, xorb_false_l by lia.
    rewrite Z.shiftr_spec by lia. f_equal. lia.
Qed.

Lemma crc_bits8_split c : crc_bits8 c = Z.lxor (crc_bits8 (Z.land c 255)) (Z.shiftr c 8).
Proof.
  unfold crc_bits8. rewrite (split_low_byte c) at 1. rewrite iter_crc_bit_lxor.
  f_equal. apply (iter_crc_bit_shift 8).
Qed.

Lemma fold_left_cons {A B} (f : A -> B -> A) b l a : fold_left f (b :: l) a = fold_left f l (f a b).
Proof. done. Qed.

(** One table step is one reference byte step. *)
Lemma byte_shiftr b : byte_ok b -> Z.shiftr b 8 = 0.
Proof. intros. unfold byte_ok in *. rewrite shiftr_div by lia. by apply Z.div_small. Qed.

Lemma crc_table_step crc b :
  byte_ok b ->
  Z.lxor (crc_bits8 (Z.land (Z.lxor crc b) 255)) (Z.shiftr crc 8) = crc_byte crc b.
Proof.
  intros Hb. unfold crc_byte. rewrite (crc_bits8_split (Z.lxor crc b)).
  by rewrite Z.shiftr_lxor, (byte_shiftr b), Z.lxor_0_r.
Qed.

Lemma crc32_sw_loop_ref buf : forall crc,
  bytes_ok buf -> crc32_sw_loop crc buf = Some (fold_left crc_byte buf crc).
Proof.
  induction buf as [|b buf IH]; intros crc Hok; [done|]. apply Forall_cons in Hok as [Hb Hok].
  rewrite fold_left_cons. cbn [crc32_sw_loop]. rewrite crc32_tab_lookup.
  - cbn [mbind option_bind]. rewrite crc_table_step by done. by apply IH.
  - rewrite land_255_mod. apply Z.mod_pos_bound. lia.
Qed.

Lemma crc32_sw_ref crc_prev buf :
  bytes_ok buf -> crc32_sw crc_prev (Some buf) (len buf) = Some (crc_ref crc_prev buf).
Proof.
  intros Hok. unfold crc32_sw. rewrite load_all. cbn [mbind option_bind].
  by rewrite crc32_sw_loop_ref.
Qed.

(** Every routine returns on a buffer that holds enough bytes. *)
Lemma crc32_total impl crc32b crc_prev buf size :
  0 <= size <= len buf -> exists c, tf_crc32 impl crc32b crc_prev (Some buf) size = Some c.
Proof.
  intros Hs. destruct impl; simpl; unfold crc32_sw, crc32_armv8a; rewrite load_ok by lia;
    cbn [mbind option_bind]; [|by eexists].
  generalize (take (Z.to_nat size) (drop (Z.to_nat 0) buf)) (not32 crc_prev). intros l.
  induction l as [|b l IH]; intros c; [by eexists|]. cbn [crc32_sw_loop].
  rewrite crc32_tab_lookup; [cbn [mbind option_bind]; apply IH|].
  rewrite land_255_mod. by apply Z.mod_pos_bound.
Qed.

(** ** Injectivity of the reference step on 32-bit states *)
Lemma lxor_fits w a b : 0 <= w -> fits w a -> fits w b -> fits w (Z.lxor a b).
Proof.
  intros Hw Ha Hb. unfold fits in *.
  assert (Z.lxor a b = Z.lxor a b mod 2 ^ w) as ->.
  { apply Z.bits_inj_iff. intros i. destruct (Z.ltb_spec i w).
    - destruct (Z.ltb_spec i 0); [by rewrite !Z.testbit_neg_r|].
      by rewrite Z.mod_pow2_bits_low.
    - rewrite Z.mod_pow2_bits_high, Z.lxor_spec by lia.
      rewrite <- (Z.mod_small a (2 ^ w)), <- (Z.mod_small b (2 ^ w)) by lia.
      by rewrite !Z.mod_pow2_bits_high by lia. }
  apply Z.mod_pos_bound. lia.
Qed.

Lemma crc_bit_fits c : fits 32 c -> fits 32 (crc_bit c).
Proof.
  intros Hc. unfold crc_bit. apply lxor_fits; [lia| |].
  - unfold fits in *. rewrite shiftr_div by lia. split; [apply Z.div_pos; lia|].
    apply Z.div_lt_upper_bound; lia.
  - unfold fits, crc_poly. case_match; lia.
Qed.

Lemma crc_bit_top c : fits 32 c -> Z.testbit (crc_bit c) 31 = Z.testbit c 0.
Proof.
  intros Hc. unfold crc_bit. rewrite Z.lxor_spec, Z.shiftr_spec by lia.
  unfold fits in Hc. rewrite <- (Z.mod_small c (2 ^ 32)) at 1 by lia.
  rewrite Z.mod_pow2_bits_high by lia. rewrite xorb_false_l. by destruct (Z.testbit c 0).
Qed.

Lemma crc_bit_inj a b : fits 32 a -> fits 32 b -> crc_bit a = crc_bit b -> a = b.
Proof.
  intros Ha Hb H. pose proof (crc_bit_top a Ha) as Hta. pose proof (crc_bit_top b Hb) as Htb.
  rewrite H, Htb in Hta. unfold crc_bit in H. rewrite Hta in H.
  assert (Z.shiftr a 1 = Z.shiftr b 1) as Hs.
  { apply (f_equal (fun x => Z.lxor x (if Z.testbit a 0 then crc_poly else 0))) in H.
    by rewrite !Z.lxor_assoc, !Z.lxor_nilpotent, !Z.lxor_0_r in H. }
  apply Z.bits_inj_iff. intros i. destruct (Z.ltb_spec i 0); [by rewrite !Z.testbit_neg_r|].
  destruct (Z.eqb_spec i 0) as [->|]; [done|].
  replace i with (i - 1 + 1) by lia. rewrite <- !Z.shiftr_spec by lia. by rewrite Hs.
Qed.

Lemma iter_crc_bit_inj n a b :
  fits 32 a -> fits 32 b -> Nat.iter n crc_bit a = Nat.iter n crc_bit b -> a = b.
Proof.
  revert a b. induction n as [|n IH]; intros a b Ha Hb; [done|].
  rewrite !Nat.iter_succ_r. intros H. apply crc_bit_inj; [done|done|].
  apply IH; [by apply crc_bit_fits|by apply crc_bit_fits|done].
Qed.

Lemma crc_bits8_inj a b : fits 32 a -> fits 32 b -> crc_bits8 a = crc_bits8 b -> a = b.
Proof. unfold crc_bits8. apply iter_crc_bit_inj. Qed.

Lemma iter_crc_bit_fits n c : fits 32 c -> fits 32 (Nat.iter n crc_bit c).
Proof. intros. induction n as [|n IH]; [done|]. rewrite Nat.iter_succ. by apply crc_bit_fits. Qed.

Lemma crc_bits8_fits c : fits 32 c -> fits 32 (crc_bits8 c).
Proof. unfold crc_bits8. apply iter_crc_bit_fits. Qed.

(** From here on only the lemmas about the eight-fold step are used. *)
#[local] Opaque crc_bits8.

Lemma byte_fits32 b : byte_ok b -> fits 32 b.
Proof. unfold byte_ok, fits. lia. Qed.

Lemma crc_byte_fits c b : fits 32 c -> byte_ok b -> fits 32 (crc_byte c b).
Proof. intros. apply crc_bits8_fits, lxor_fits; [lia|done|by apply byte_fits32]. Qed.

Lemma lxor_cancel_l c a b : Z.lxor c a = Z.lxor c b -> a = b.
Proof.
  intros H. apply (f_equal (Z.lxor c)) in H.
  by rewrite <- !Z.lxor_assoc, Z.lxor_nilpotent, !Z.lxor_0_l in H.
Qed.

Lemma crc_byte_inj_byte c a b :
  fits 32 c -> byte_ok a -> byte_ok b -> crc_byte c a = crc_byte c b -> a = b.
Proof.
  intros Hc Ha Hb H. apply (lxor_cancel_l c).
  apply crc_bits8_inj; [| |done]; apply lxor_fits; auto using byte_fits32; lia.
Qed.

Lemma crc_fold_inj l : forall c d,
  fits 32 c -> fits 32 d -> bytes_ok l ->
  fold_left crc_byte l c = fold_left crc_byte l d -> c = d.
Proof.
  induction l as [|b l IH]; intros c d Hc Hd Hl; [done|]. apply Forall_cons in Hl as [Hb Hl].
  rewrite !fold_left_cons. intros H. apply IH in H; auto using crc_byte_fits.
  apply (lxor_cancel_l b). rewrite !(Z.lxor_comm b).
  apply crc_bits8_inj; [| |done]; apply lxor_fits; auto using byte_fits32; lia.
Qed.

Lemma crc_fold_fits l : forall c, fits 32 c -> bytes_ok l -> fits 32 (fold_left crc_byte l c).
Proof.
  induction l as [|b l IH]; intros c Hc Hl; [done|]. apply Forall_cons in Hl as [Hb Hl].
  rewrite fold_left_cons. apply IH; auto using crc_byte_fits.
Qed.

Lemma not32_fits c : fits 32 c -> fits 32 (not32 c).
Proof. intros. apply lxor_fits; [lia|done|]. unfold fits. lia. Qed.

Lemma not32_inj a b : not32 a = not32 b -> a = b.
Proof. unfold not32. rewrite !(Z.lxor_comm _ (2 ^ 32 - 1)). apply lxor_cancel_l. Qed.

Lemma not32_involutive a : not32 (not32 a) = a.
Proof. unfold not32. by rewrite Z.lxor_assoc, Z.lxor_nilpotent, Z.lxor_0_r. Qed.

Lemma crc_ref_fits p l : fits 32 p -> bytes_ok l -> fits 32 (crc_ref p l).
Proof. intros. by apply not32_fits, crc_fold_fits; [apply not32_fits|]. Qed.

(** ** Properties *)

(** C30: whichever routine the function pointer holds after crc32_init, and
    whatever the CPU provides (as long as the CRC32B instruction computes the
    CRC-32 byte step), crc32 returns the bit-serial CRC-32 of the buffer; so the
    256-entry table is right and the hardware and software paths agree. *)
Theorem crc32_impls_agree crc32b feature hw crc_prev buf :
  (forall c b, fits 32 c -> byte_ok b -> crc32b c b = crc_byte c b) ->
  fits 32 crc_prev -> bytes_ok buf ->
  tf_crc32 (crc32_init feature hw crc32_initial) crc32b crc_prev (Some buf) (len buf)
  = Some (crc_ref crc_prev buf).
Proof.
  intros Hb Hc Hok. unfold crc32_init, crc32_initial.
  destruct (feature && hw); cbn [tf_crc32]; [|by apply crc32_sw_ref].
  unfold crc32_armv8a. rewrite load_all. cbn [mbind option_bind]. unfold crc_ref. do 2 f_equal.
  apply not32_fits in Hc. revert Hc Hok. generalize (not32 crc_prev). clear crc_prev.
  induction buf as [|b buf IH]; intros c Hc Hok; [done|]. apply Forall_cons in Hok as [Hbb Hok].
  rewrite !fold_left_cons. rewrite Hb by done. apply IH; auto using crc_byte_fits.
Qed.

Lemma crc32_impls_agree_witness :
  tf_crc32 (crc32_init true true crc32_initial) crc_byte 0
    (Some [49; 50; 51; 52; 53; 54; 55; 56; 57]) 9 = Some 0xCBF43926.
Proof.
  refine (eq_trans (crc32_impls_agree crc_byte true true 0
    [49; 50; 51; 52; 53; 54; 55; 56; 57] _ _ _) _).
  - reflexivity.
  - unfold fits. lia.
  - repeat constructor; lia.
  - vm_compute. reflexivity.
Defined.

(** A CRC taken over a buffer in two pieces, feeding the first result to the
    second call, is the CRC of the whole buffer. *)
Theorem crc32_sw_incremental crc_prev a b c :
  bytes_ok a -> bytes_ok b ->
  crc32_sw crc_prev (Some a) (len a) = Some c ->
  crc32_sw c (Some b) (len b) = crc32_sw crc_prev (Some (a ++ b)) (len (a ++ b)).
Proof.
  intros Ha Hb. rewrite !crc32_sw_ref by (done || by apply Forall_app).
  intros [= <-]. f_equal. unfold crc_ref. rewrite not32_involutive. by rewrite fold_left_app.
Qed.

Lemma crc32_sw_incremental_witness :
  exists c, crc32_sw 0 (Some [49; 50; 51; 52; 53; 54]) 6 = Some c /\
     crc32_sw c (Some [55; 56; 57]) 3 = crc32_sw 0 (Some [49; 50; 51; 52; 53; 54; 55; 56; 57]) 9.
Proof.
  eexists. split; [reflexivity|].
  apply (crc32_sw_incremental 0 [49; 50; 51; 52; 53; 54] [55; 56; 57]).
  - repeat constructor; lia.
  - repeat constructor; lia.
  - reflexivity.
Defined.

(** The CRC detects every change of a single byte of the buffer. *)
Theorem crc32_detects_byte_change crc_prev pre x y post :
  fits 32 crc_prev -> bytes_ok pre -> byte_ok x -> byte_ok y -> bytes_ok post -> x <> y ->
  crc32_sw crc_prev (Some (pre ++ x :: post)) (len (pre ++ x :: post))
  <> crc32_sw crc_prev (Some (pre ++ y :: post)) (len (pre ++ y :: post)).
Proof.
  intros Hc Hpre Hx Hy Hpost Hne.
  rewrite !crc32_sw_ref by (apply Forall_app; split; [done|by constructor]).
  intros [= H]. apply Hne. apply not32_inj in H. rewrite !fold_left_app in H.
  rewrite !fold_left_cons in H. pose proof (crc_fold_fits pre _ (not32_fits _ Hc) Hpre).
  apply crc_fold_inj in H; auto using crc_byte_fits. by apply crc_byte_inj_byte in H.
Qed.

Lemma crc32_detects_byte_change_witness :
  crc32_sw 0 (Some [1; 2; 3]) 3 <> crc32_sw 0 (Some [1; 9; 3]) 3.
Proof.
  apply (crc32_detects_byte_change 0 [1] 2 9 [3]).
  - unfold fits. lia.
  - repeat constructor; lia.
  - unfold byte_ok. lia.
  - unfold byte_ok. lia.
  - repeat constructor; lia.
  - discriminate.
Defined.
