(* ===== verification/Uuid.v ===== *)
(** * components/common/uuid/uuid.c: canonical and octet forms of UUIDs

    A [char *] is the character array it points into, as codes 0..255 (plain
    [char] is unsigned on the target). *)
From S2P Require Import Prelude.

Definition UUID_OCTETS_LEN : Z := 16.
Definition UUID_CANONICAL_FORM_LEN : Z := 36.

Definition isdigit (c : Z) : bool := (48 <=? c) && (c <=? 57).

Definition isxdigit (c : Z) : bool :=
  if isdigit c then true
  else if (65 <=? c) && (c <=? 70) then true
  else if (97 <=? c) && (c <=? 102) then true
  else false.

Definition hex_to_nibble (hex : Z) : Z :=
  if (48 <=? hex) && (hex <=? 57) then u8 (hex - 48)
  else u8 ((Z.lor hex 32 - 97) + 10).

Definition nibble_to_hex (nibble : Z) : Z :=
  let nibble := Z.land nibble 15 in
  if nibble <=? 9 then u8 (48 + nibble) else u8 (97 + nibble - 10).

Definition hex_to_byte (s : bytes) (pos : Z) : option Z :=
  h0 ← nthZ s pos; h1 ← nthZ s (pos + 1);
  let byte := u8 (Z.shiftl (hex_to_nibble h0) 4) in
  Some (u8 (Z.lor byte (Z.land (hex_to_nibble h1) 15))).

(** [memchr(s + i, c, n) != NULL] *)
Fixpoint memchr (s : bytes) (c : Z) (i : Z) (n : nat) : option bool :=
  match n with
  | O => Some false
  | S n => x ← nthZ s i; if x =? c then Some true else memchr s c (i + 1) n
  end.

Definition is_dash_index (i : Z) : bool := (i =? 8) || (i =? 13) || (i =? 18) || (i =? 23).

(** The checking loop, from index [i]: [true] when every character is right. *)
Fixpoint uuid_check_chars (s : bytes) (i : Z) (n : nat) : option bool :=
  match n with
  | O => Some true
  | S n =>
      c ← nthZ s i;
      let invalid := if is_dash_index i then negb (c =? 45) else negb (isxdigit c) in
      if invalid then Some false else uuid_check_chars s (i + 1) n
  end.

Definition uuid_is_valid (canonical_form : bytes) : option Z :=
  nul ← memchr canonical_form 0 0 36;
  if nul : bool then Some 0
  else
    ok ← uuid_check_chars canonical_form 0 36;
    if ok : bool then Some UUID_CANONICAL_FORM_LEN else Some 0.

Definition uuid_is_equal (octets_a octets_b : bytes) : option bool :=
  a ← load octets_a 0 UUID_OCTETS_LEN; b ← load octets_b 0 UUID_OCTETS_LEN;
  Some (bytes_eqb a b).

Definition uuid_get_nil : bytes := fill 0 UUID_OCTETS_LEN.

Definition uuid_is_nil (octets : bytes) : option bool := uuid_is_equal uuid_get_nil octets.

(** One of the five [while (octet_index < limit)] loops of the parser. *)
Fixpoint parse_octets (n : nat) (s : bytes) (pos : Z) (buf : bytes) (octet_index : Z) :
    option bytes :=
  match n with
  | O => Some buf
  | S n =>
      b ← hex_to_byte s pos;
      buf ← setZ buf octet_index b;
      parse_octets n s (pos + 2) buf (octet_index + 1)
  end.

Definition uuid_parse_to_octets (canonical_form buf : bytes) (buf_size : Z) : option (Z * bytes) :=
  valid_chars ← uuid_is_valid canonical_form;
  if (buf_size <? UUID_OCTETS_LEN) || negb (valid_chars =? UUID_CANONICAL_FORM_LEN)
  then Some (0, buf)
  else
    buf ← parse_octets 4 canonical_form 0 buf 0;
    buf ← parse_octets 2 canonical_form 9 buf 4;
    buf ← parse_octets 2 canonical_form 14 buf 6;
    buf ← parse_octets 2 canonical_form 19 buf 8;
    buf ← parse_octets 6 canonical_form 24 buf 10;
    Some (valid_chars, buf).

(** Where each octet of the reversed form comes from. *)
Definition reverse_order : list (Z * Z) :=
  [(0, 3); (1, 2); (2, 1); (3, 0); (4, 5); (5, 4); (6, 7); (7, 6); (8, 8); (9, 9); (10, 10);
   (11, 11); (12, 12); (13, 13); (14, 14); (15, 15)].

Fixpoint copy_octets (order : list (Z * Z)) (input_octets buf : bytes) : option bytes :=
  match order with
  | [] => Some buf
  | (i, j) :: order => x ← nthZ input_octets j; buf ← setZ buf i x; copy_octets order input_octets buf
  end.

Definition uuid_reverse_octets (input_octets buf : bytes) (buf_size : Z) : option bytes :=
  if UUID_OCTETS_LEN <=? buf_size then copy_octets reverse_order input_octets buf else Some buf.

(** [scratch]: the uninitialised contents of the local [standard_encoding]. *)
Definition uuid_parse_to_guid_octets (scratch canonical_form buf : bytes) (buf_size : Z) :
    option (Z * bytes) :=
  r ← uuid_parse_to_octets canonical_form scratch UUID_OCTETS_LEN;
  let '(valid_chars, standard_encoding) := r in
  if valid_chars =? UUID_CANONICAL_FORM_LEN
  then buf ← uuid_reverse_octets standard_encoding buf buf_size; Some (valid_chars, buf)
  else Some (valid_chars, buf).

Definition uuid_octets_from_canonical (uuid_octets canonical_form : bytes) : option bytes :=
  r ← uuid_parse_to_octets canonical_form uuid_octets UUID_OCTETS_LEN;
  assert! fst r =? UUID_CANONICAL_FORM_LEN ;; Some (snd r).

Definition uuid_guid_octets_from_canonical (scratch uuid_octets canonical_form : bytes) :
    option bytes :=
  r ← uuid_parse_to_guid_octets scratch canonical_form uuid_octets UUID_OCTETS_LEN;
  assert! fst r =? UUID_CANONICAL_FORM_LEN ;; Some (snd r).

(** The printing loop; 17 rounds of fuel cover the 16 octets and the exit test. *)
Fixpoint canonical_loop (fuel : nat) (octets : bytes) (octet_index char_index : Z)
    (characters : bytes) : option (Z * bytes) :=
  match fuel with
  | O => None
  | S fuel =>
      if octet_index <? UUID_OCTETS_LEN then
        b ← nthZ octets octet_index;
        characters ← setZ characters char_index (nibble_to_hex (Z.shiftr b 4));
        characters ← setZ characters (char_index + 1) (nibble_to_hex (Z.land b 15));
        let octet_index := octet_index + 1 in
        let char_index := char_index + 2 in
        if (octet_index =? 4) || (octet_index =? 6) || (octet_index =? 8) || (octet_index =? 10)
        then characters ← setZ characters char_index 45;
             canonical_loop fuel octets octet_index (char_index + 1) characters
        else canonical_loop fuel octets octet_index char_index characters
      else Some (char_index, characters)
  end.

Definition uuid_canonical_from_octets (characters uuid_octets : bytes) : option bytes :=
  r ← canonical_loop 17 uuid_octets 0 0 characters;
  let '(char_index, characters) := r in
  setZ characters char_index 0.

Definition uuid_canonical_from_guid_octets (scratch characters uuid_octets : bytes) : option bytes :=
  reversed_octets ← uuid_reverse_octets uuid_octets scratch UUID_OCTETS_LEN;
  uuid_canonical_from_octets characters reversed_octets.

(** ** Hexadecimal digits *)
Definition tolower (c : Z) : Z := if (65 <=? c) && (c <=? 90) then c - 65 + 97 else c.

Lemma range_forallb (p : Z -> bool) n i :
  forallb p (Z.of_nat <$> seq 0 n) = true -> 0 <= i < Z.of_nat n -> p i = true.
Proof.
  intros H Hi. rewrite forallb_forall in H. apply H, list_elem_of_In, list_elem_of_fmap.
  exists (Z.to_nat i). split; [lia|]. apply elem_of_seq. lia.
Qed.

Lemma hex_nibble_roundtrip n :
  0 <= n < 16 ->
  isxdigit (nibble_to_hex n) = true /\ hex_to_nibble (nibble_to_hex n) = n /\
  (nibble_to_hex n =? 0) = false /\ tolower (nibble_to_hex n) = nibble_to_hex n.
Proof.
  intros Hn.
  pose proof (range_forallb (fun n => isxdigit (nibble_to_hex n)
    && (hex_to_nibble (nibble_to_hex n) =? n) && negb (nibble_to_hex n =? 0)
    && (tolower (nibble_to_hex n) =? nibble_to_hex n)) 16 n eq_refl Hn) as H.
  cbv beta in H. bool_to_prop. repeat split; try done; lia.
Qed.

Lemma hex_digit_roundtrip c :
  isxdigit c = true ->
  nibble_to_hex (hex_to_nibble c) = tolower c /\ 0 <= hex_to_nibble c < 16 /\ (c =? 0) = false.
Proof.
  intros Hc.
  assert (0 <= c < Z.of_nat 128) as Hr.
  { unfold isxdigit, isdigit in Hc. repeat case_match; bool_to_prop; lia. }
  pose proof (range_forallb (fun c => negb (isxdigit c) ||
    (nibble_to_hex (hex_to_nibble c) =? tolower c) && (0 <=? hex_to_nibble c)
    && (hex_to_nibble c <? 16) && negb (c =? 0)) 128 c eq_refl Hr) as H.
  cbv beta in H. rewrite Hc in H. cbn [negb orb] in H. bool_to_prop. lia.
Qed.

Lemma nibbles_of_byte b :
  byte_ok b ->
  0 <= Z.shiftr b 4 < 16 /\ 0 <= Z.land b 15 < 16 /\
  u8 (Z.lor (u8 (Z.shiftl (Z.shiftr b 4) 4)) (Z.land (Z.land b 15) 15)) = b.
Proof.
  intros Hb.
  pose proof (range_forallb (fun b => (0 <=? Z.shiftr b 4) && (Z.shiftr b 4 <? 16) &&
    (0 <=? Z.land b 15) && (Z.land b 15 <? 16) &&
    (u8 (Z.lor (u8 (Z.shiftl (Z.shiftr b 4) 4)) (Z.land (Z.land b 15) 15)) =? b)) 256 b eq_refl Hb)
    as H.
  cbv beta in H. bool_to_prop. lia.
Qed.

(** ** The canonical text of 16 octets *)
Definition hex2 (b : Z) : bytes := [nibble_to_hex (Z.shiftr b 4); nibble_to_hex (Z.land b 15)].

Definition hexes (l : bytes) : bytes := concat (hex2 <$> l).

Definition canon (l : bytes) : bytes :=
  hexes (take 4 l) ++ 45 :: hexes (take 2 (drop 4 l)) ++ 45 :: hexes (take 2 (drop 6 l)) ++
  45 :: hexes (take 2 (drop 8 l)) ++ 45 :: hexes (drop 10 l).

Lemma canonical_from_octets_eq characters octets :
  length octets = 16%nat -> length characters = 37%nat ->
  uuid_canonical_from_octets characters octets = Some (canon octets ++ [0]).
Proof.
  intros Ho Hc.
  do 16 (destruct octets as [|? octets]; [simpl in Ho; lia|]).
  destruct octets; [|simpl in Ho; lia].
  do 37 (destruct characters as [|? characters]; [simpl in Hc; lia|]).
  destruct characters; [|simpl in Hc; lia].
  cbv -[nibble_to_hex Z.shiftr Z.land]. reflexivity.
Qed.

(** ** What the validity check accepts *)
Definition good_char (k c : Z) : Prop :=
  if is_dash_index k then c = 45 else isxdigit c = true.

Lemma uuid_check_chars_spec s n : forall i,
  uuid_check_chars s i n = Some true <->
  forall k, i <= k < i + Z.of_nat n -> exists c, nthZ s k = Some c /\ good_char k c.
Proof.
  induction n as [|n IH]; intros i; cbn [uuid_check_chars].
  - split; [intros _ k Hk; lia|done].
  - split.
    + intros H k Hk. apply bind_Some in H as (c & Hc & H). unfold good_char.
      destruct (Z.eqb_spec k i) as [->|].
      * exists c. split; [done|]. split_matches.
      * specialize (IH (i + 1)). destruct IH as [IH _].
        apply IH; [|lia]. split_matches.
    + intros H. destruct (H i) as (c & Hc & Hg); [lia|]. rewrite Hc. cbn [mbind option_bind].
      specialize (IH (i + 1)). destruct IH as [_ IH].
      assert (uuid_check_chars s (i + 1) n = Some true) as Hrest.
      { apply IH. intros k Hk. apply H. lia. }
      unfold good_char in Hg. split_matches.
Qed.

Lemma memchr_false s c n : forall i,
  (forall k, i <= k < i + Z.of_nat n -> exists x, nthZ s k = Some x /\ x <> c) ->
  memchr s c i n = Some false.
Proof.
  induction n as [|n IH]; intros i H; [done|]. cbn [memchr].
  destruct (H i) as (x & -> & Hx); [lia|]. cbn [mbind option_bind].
  case_match; [lia|]. apply IH. intros k Hk. apply H. lia.
Qed.

Lemma good_char_nonzero k c : good_char k c -> c <> 0.
Proof.
  unfold good_char. case_match; [lia|]. intros (_ & _ & Hz)%hex_digit_roundtrip. lia.
Qed.

Lemma uuid_is_valid_iff s :
  uuid_is_valid s = Some UUID_CANONICAL_FORM_LEN <->
  forall k, 0 <= k < 36 -> exists c, nthZ s k = Some c /\ good_char k c.
Proof.
  rewrite <- (uuid_check_chars_spec s 36 0). unfold uuid_is_valid. split.
  - intros H. apply bind_Some in H as ([] & _ & H); [done|].
    apply bind_Some in H as ([] & H & Hs); done.
  - intros H. rewrite (memchr_false s 0 36).
    + cbn [mbind option_bind]. by rewrite H.
    + intros k Hk. rewrite uuid_check_chars_spec in H. destruct (H k Hk) as (c & ? & Hg).
      exists c. split; [done|]. by eapply good_char_nonzero.
Qed.

(** ** What the parser returns *)
Definition hexbyte (h0 h1 : Z) : Z :=
  u8 (Z.lor (u8 (Z.shiftl (hex_to_nibble h0) 4)) (Z.land (hex_to_nibble h1) 15)).

Definition char_at (s : bytes) (k : nat) : Z := nth k s 0.

Definition octets_of (s : bytes) : bytes :=
  (fun k => hexbyte (char_at s k) (char_at s (S k))) <$>
  [0; 2; 4; 6; 9; 11; 14; 16; 19; 21; 24; 26; 28; 30; 32; 34]%nat.

Lemma valid_len s : uuid_is_valid s = Some UUID_CANONICAL_FORM_LEN -> 36 <= len s.
Proof.
  intros H. rewrite uuid_is_valid_iff in H. destruct (H 35) as (c & Hc & _); [lia|].
  apply nthZ_Some in Hc. lia.
Qed.

Lemma parse_to_octets_eq s buf buf_size :
  uuid_is_valid s = Some UUID_CANONICAL_FORM_LEN -> length buf = 16%nat -> 16 <= buf_size ->
  uuid_parse_to_octets s buf buf_size = Some (UUID_CANONICAL_FORM_LEN, octets_of s).
Proof.
  intros Hv Hb Hs. unfold uuid_parse_to_octets. rewrite Hv. cbn [mbind option_bind].
  destruct (Z.ltb_spec buf_size UUID_OCTETS_LEN) as [?|_]; [change UUID_OCTETS_LEN with 16 in *; lia|].
  rewrite Z.eqb_refl. cbn [negb orb]. apply valid_len in Hv as Hl.
  do 36 (destruct s as [|? s]; [exfalso; unfold len in Hl; simpl length in Hl; lia|]). clear Hv Hl Hs.
  do 16 (destruct buf as [|? buf]; [simpl in Hb; lia|]).
  destruct buf; [|simpl in Hb; lia].
  cbv -[hex_to_nibble Z.lor Z.land Z.shiftl wrap]. reflexivity.
Qed.

(** Reading a printed string back, and printing a read string. *)
Lemma canon_valid octets rest :
  length octets = 16%nat -> bytes_ok octets ->
  uuid_is_valid (canon octets ++ rest) = Some UUID_CANONICAL_FORM_LEN.
Proof.
  intros Ho Hok. do 16 (destruct octets as [|? octets]; [simpl in Ho; lia|]).
  destruct octets; [|simpl in Ho; lia]. clear Ho.
  assert (Forall (fun b => isxdigit (nibble_to_hex (Z.shiftr b 4)) = true /\
    isxdigit (nibble_to_hex (Z.land b 15)) = true /\
    (nibble_to_hex (Z.shiftr b 4) =? 0) = false /\
    (nibble_to_hex (Z.land b 15) =? 0) = false)
    [z; z0; z1; z2; z3; z4; z5; z6; z7; z8; z9; z10; z11; z12; z13; z14]) as H.
  { eapply Forall_impl; [exact Hok|]. intros b Hb. apply nibbles_of_byte in Hb as (H1 & H2 & _).
    apply hex_nibble_roundtrip in H1, H2. tauto. }
  clear Hok.
  rewrite !Forall_cons in H. destruct_and! H.
  apply uuid_is_valid_iff. apply (uuid_check_chars_spec _ 36 0).
  cbv -[nibble_to_hex Z.shiftr Z.land isxdigit].
  repeat match goal with H : isxdigit _ = true |- _ => rewrite H; clear H end.
  reflexivity.
Qed.

Lemma octets_of_canon octets rest :
  length octets = 16%nat -> bytes_ok octets -> octets_of (canon octets ++ rest) = octets.
Proof.
  intros Ho Hok. do 16 (destruct octets as [|? octets]; [simpl in Ho; lia|]).
  destruct octets; [|simpl in Ho; lia]. clear Ho.
  assert (forall b, byte_ok b ->
    hexbyte (nibble_to_hex (Z.shiftr b 4)) (nibble_to_hex (Z.land b 15)) = b) as Hb.
  { intros b Hb. apply nibbles_of_byte in Hb as (H1 & H2 & H). unfold hexbyte.
    apply hex_nibble_roundtrip in H1 as (_ & -> & _), H2 as (_ & -> & _). exact H. }
  unfold bytes_ok in Hok. rewrite !Forall_cons in Hok. destruct_and! Hok.
  cbv -[nibble_to_hex Z.shiftr Z.land hexbyte]. by rewrite !Hb by done.
Qed.

Lemma canon_octets_of s :
  uuid_is_valid s = Some UUID_CANONICAL_FORM_LEN ->
  canon (octets_of s) = tolower <$> take 36 s.
Proof.
  intros Hv. apply valid_len in Hv as Hl.
  assert (forall h0 h1, isxdigit h0 = true -> isxdigit h1 = true ->
    hex2 (hexbyte h0 h1) = [tolower h0; tolower h1]) as Hx.
  { intros h0 h1 H0 H1. apply hex_digit_roundtrip in H0 as (<- & H0 & _), H1 as (<- & H1 & _).
    unfold hex2. set (a := hex_to_nibble h0) in *. set (b := hex_to_nibble h1) in *.
    assert (hexbyte h0 h1 = 16 * a + b) as ->.
    { unfold hexbyte. fold a b.
      rewrite (wrap_small 8 (Z.shiftl a 4)) by (rewrite Z.shiftl_mul_pow2; lia).
      change 15 with (Z.ones 4). rewrite Z.land_ones, Z.mod_small by lia.
      rewrite Z.lor_comm, lor_shiftl_add, wrap_small by lia. lia. }
    rewrite shiftr_div by lia. change 15 with (Z.ones 4). rewrite Z.land_ones by lia.
    change (2 ^ 4) with 16. rewrite (Z.mul_comm 16), Z.div_add_l, Z.div_small, Z.add_0_r by lia.
    by rewrite Z.add_comm, Z_mod_plus_full, Z.mod_small by lia. }
  assert (Forall2 good_char (Z.of_nat <$> seq 0 36) (take 36 s)) as Hg.
  { apply Forall2_same_length_lookup. split.
    - rewrite length_fmap, length_seq, length_take. unfold len in Hl. lia.
    - intros k x c Hx1 Hc. apply list_lookup_fmap_Some in Hx1 as (k' & -> & Hk).
      apply lookup_seq in Hk as [-> Hk]. rewrite lookup_take_lt in Hc by lia.
      rewrite uuid_is_valid_iff in Hv. destruct (Hv (Z.of_nat k)) as (c' & Hc' & Hgc); [lia|].
      rewrite nthZ_of_nat in Hc'. simpl. by simplify_eq. }
  clear Hv.
  do 36 (destruct s as [|? s]; [exfalso; unfold len in Hl; simpl length in Hl; lia|]).
  clear Hl. cbn [take seq fmap list_fmap] in Hg. rewrite !Forall2_cons in Hg. destruct_and! Hg.
  cbv [good_char is_dash_index] in *. simpl in *. subst.
  unfold octets_of, canon, hexes. cbn [fmap list_fmap take drop char_at nth concat].
  by rewrite !Hx by done.
Qed.

Lemma reverse_octets_eq input buf buf_size :
  length input = 16%nat -> length buf = 16%nat -> 16 <= buf_size ->
  uuid_reverse_octets input buf buf_size
  = Some (reverse (take 4 input) ++ reverse (take 2 (drop 4 input)) ++
          reverse (take 2 (drop 6 input)) ++ drop 8 input).
Proof.
  intros Hi Hb Hs. unfold uuid_reverse_octets, UUID_OCTETS_LEN.
  destruct (Z.leb_spec 16 buf_size); [|lia].
  do 16 (destruct input as [|? input]; [simpl in Hi; lia|]). destruct input; [|simpl in Hi; lia].
  do 16 (destruct buf as [|? buf]; [simpl in Hb; lia|]). destruct buf; [|simpl in Hb; lia].
  reflexivity.
Qed.

(** ** Properties *)

(** Printing 16 octets and parsing the text back returns the same octets, and
    parsing any text the validity check accepts and printing it returns that text
    in lower case; no access of either direction leaves its buffer. *)
Theorem uuid_print_parse_roundtrip octets characters buf :
  length octets = 16%nat -> bytes_ok octets -> length characters = 37%nat -> length buf = 16%nat ->
  (exists text, uuid_canonical_from_octets characters octets = Some text /\
     uuid_parse_to_octets text buf UUID_OCTETS_LEN = Some (UUID_CANONICAL_FORM_LEN, octets)) /\
  (forall s, uuid_is_valid s = Some UUID_CANONICAL_FORM_LEN ->
     exists o, uuid_parse_to_octets s buf UUID_OCTETS_LEN = Some (UUID_CANONICAL_FORM_LEN, o) /\
       uuid_canonical_from_octets characters o = Some ((tolower <$> take 36 s) ++ [0])).
Proof.
  intros Ho Hok Hc Hb. split.
  - exists (canon octets ++ [0]). rewrite canonical_from_octets_eq by done. split; [done|].
    rewrite parse_to_octets_eq by (done || by apply canon_valid).
    by rewrite octets_of_canon.
  - intros s Hs. exists (octets_of s). rewrite parse_to_octets_eq by done. split; [done|].
    by rewrite canonical_from_octets_eq, canon_octets_of by done.
Qed.

Lemma uuid_print_parse_roundtrip_witness :
  exists text, uuid_canonical_from_octets (fill 0 37) (fill 171 16) = Some text /\
    uuid_parse_to_octets text (fill 0 16) UUID_OCTETS_LEN
    = Some (UUID_CANONICAL_FORM_LEN, fill 171 16).
Proof.
  refine (proj1 (uuid_print_parse_roundtrip (fill 171 16) (fill 0 37) (fill 0 16) _ _ _ _)).
  - reflexivity.
  - apply fill_bytes_ok. unfold byte_ok. lia.
  - reflexivity.
  - reflexivity.
Defined.

(** On every string whose first 36 characters are hexadecimal digits with
    dashes at 8, 13, 18 and 23, the GUID parser returns the octets of the
    standard parser with the three integer fields byte-reversed, and reversing
    twice gives them back. *)
Theorem uuid_guid_parse s scratch buf :
  length scratch = 16%nat -> length buf = 16%nat ->
  (forall k, 0 <= k < 36 -> exists c, nthZ s k = Some c /\ good_char k c) ->
  exists std guid,
    uuid_parse_to_octets s buf UUID_OCTETS_LEN = Some (UUID_CANONICAL_FORM_LEN, std) /\
    uuid_parse_to_guid_octets scratch s buf UUID_OCTETS_LEN = Some (UUID_CANONICAL_FORM_LEN, guid) /\
    guid = reverse (take 4 std) ++ reverse (take 2 (drop 4 std)) ++
           reverse (take 2 (drop 6 std)) ++ drop 8 std /\
    uuid_reverse_octets guid scratch UUID_OCTETS_LEN = Some std.
Proof.
  intros Hs Hb Hv%uuid_is_valid_iff.
  exists (octets_of s). eexists. split; [by apply parse_to_octets_eq|].
  unfold uuid_parse_to_guid_octets. rewrite parse_to_octets_eq by done.
  cbn [mbind option_bind]. rewrite Z.eqb_refl.
  rewrite (reverse_octets_eq (octets_of s)) by done. cbn [mbind option_bind].
  split; [reflexivity|]. split; [reflexivity|]. by rewrite reverse_octets_eq.
Qed.

(** The text 0123...-style UUID used by the witness. *)
Definition sample_text : bytes :=
  [54;97;56;99;102;99;102;56;45;56;51;55;54;45;52;54;97;100;45;57;48;51;102;45;55;55;55;101;
   99;101;98;56;97;102;50;97;0].

Lemma uuid_guid_parse_witness :
  exists std guid,
    uuid_parse_to_octets sample_text (fill 0 16) UUID_OCTETS_LEN = Some (UUID_CANONICAL_FORM_LEN, std) /\
    uuid_parse_to_guid_octets (fill 9 16) sample_text (fill 0 16) UUID_OCTETS_LEN
      = Some (UUID_CANONICAL_FORM_LEN, guid) /\
    guid = reverse (take 4 std) ++ reverse (take 2 (drop 4 std)) ++
           reverse (take 2 (drop 6 std)) ++ drop 8 std /\
    uuid_reverse_octets guid (fill 9 16) UUID_OCTETS_LEN = Some std.
Proof.
  apply (uuid_guid_parse sample_text (fill 9 16) (fill 0 16)).
  - reflexivity.
  - reflexivity.
  - apply uuid_is_valid_iff. vm_compute. reflexivity.
Defined.
