(* ===== verification/ConfigRamstore.v ===== *)
(** * components/config/ramstore: the run-time configuration store

    The singly linked list of heap containers is a list, most recent first;
    containers are never shared or modified after their creation.  A [char *]
    is the array it points into. *)
From S2P Require Import Prelude.

Inductive config_classifier :=
  | CONFIG_CLASSIFIER_DEVICE_REGION
  | CONFIG_CLASSIFIER_MEMORY_REGION
  | CONFIG_CLASSIFIER_HW_FEATURE
  | CONFIG_CLASSIFIER_BLOB.

#[export] Instance config_classifier_eq_dec : EqDecision config_classifier.
Proof. solve_decision. Defined.

#[export] Instance config_classifier_countable : Countable config_classifier.
Proof.
  refine (inj_countable' (fun c => match c with
    | CONFIG_CLASSIFIER_DEVICE_REGION => 0%nat | CONFIG_CLASSIFIER_MEMORY_REGION => 1%nat
    | CONFIG_CLASSIFIER_HW_FEATURE => 2%nat | CONFIG_CLASSIFIER_BLOB => 3%nat end)
    (fun n => match n with
    | 0%nat => CONFIG_CLASSIFIER_DEVICE_REGION | 1%nat => CONFIG_CLASSIFIER_MEMORY_REGION
    | 2%nat => CONFIG_CLASSIFIER_HW_FEATURE | _ => CONFIG_CLASSIFIER_BLOB end) _).
  by intros [].
Defined.

(** [name] is the whole 32-byte array, [data] the bytes stored after the struct. *)
Record config_container := Container {
  classifier : config_classifier;
  name : bytes;
  instance : Z;
  size : Z;
  data : bytes
}.

Definition NAME_SIZE : Z := 32.
(** sizeof(struct config_container) on the 64-bit target *)
Definition CONTAINER_SIZE : Z := 56.

(** [strncmp(a, b, n) == 0] *)
Fixpoint strncmp_eq (a b : bytes) (n : nat) : option bool :=
  match n with
  | O => Some true
  | S n =>
      match a, b with
      | x :: a, y :: b =>
          if negb (x =? y) then Some false
          else if x =? 0 then Some true
          else strncmp_eq a b n
      | _, _ => None
      end
  end.

(** [malloc]: [None] when it fails, else the initial contents of the name array. *)
Definition config_container_create (malloc : option bytes) (c : config_classifier)
    (n : bytes) (inst : Z) (d : bytes) (sz : Z) : option (option config_container) :=
  l ← strlen n;
  let name_length := l + 1 in
  if NAME_SIZE <? name_length then Some None
  else match malloc with
  | None => Some None
  | Some junk =>
      let block := u64 (CONTAINER_SIZE + sz) in
      nm ← load n 0 name_length;
      nm ← store junk 0 nm;
      assert! CONTAINER_SIZE + sz <=? block ;;
      d ← load d 0 sz;
      Some (Some (Container c nm inst sz d))
  end.

Definition config_ramstore := list config_container.

(** deinit destroys the list from its head; [None] if the fuel runs out. *)
Fixpoint config_ramstore_deinit_loop (fuel : nat) (ramstore : config_ramstore) :
    option config_ramstore :=
  match fuel, ramstore with
  | _, [] => Some []
  | O, _ => None
  | S fuel, _ :: next => config_ramstore_deinit_loop fuel next
  end.

Definition config_ramstore_deinit (ramstore : config_ramstore) : option config_ramstore :=
  config_ramstore_deinit_loop (length ramstore) ramstore.

Definition config_store_add (malloc : option bytes) (ramstore : config_ramstore)
    (c : config_classifier) (n : bytes) (inst : Z) (d : bytes) (data_len : Z) :
    option (bool * config_ramstore) :=
  r ← config_container_create malloc c n inst d data_len;
  match r with
  | None => Some (false, ramstore)
  | Some container => Some (true, container :: ramstore)
  end.

(** [buf] is the object [data] points to; it has [data_buf_size] bytes or more. *)
Fixpoint config_store_query (ramstore : config_ramstore) (c : config_classifier) (n : bytes)
    (inst : Z) (buf : bytes) (data_buf_size : Z) : option (bool * bytes) :=
  match ramstore with
  | [] => Some (false, buf)
  | container :: next =>
      same_name ← strncmp_eq (name container) n 32;
      if bool_decide (classifier container = c) && same_name && (instance container =? inst) then
        if data_buf_size =? size container then
          d ← load (data container) 0 (size container);
          buf ← store buf 0 d;
          Some (true, buf)
        else Some (false, buf)
      else config_store_query next c n inst buf data_buf_size
  end.

Fixpoint config_store_count_loop (ramstore : config_ramstore) (c : config_classifier) (count : Z) : Z :=
  match ramstore with
  | [] => count
  | container :: next =>
      config_store_count_loop next c
        (if bool_decide (classifier container = c) then u32 (count + 1) else count)
  end.

Definition config_store_count (ramstore : config_ramstore) (c : config_classifier) : Z :=
  config_store_count_loop ramstore c 0.

(** ** The abstract store: a finite map from keys to objects *)
Definition key : Type := config_classifier * bytes * Z.

(** The text of a NUL-terminated array. *)
Fixpoint text (s : bytes) : bytes :=
  match s with
  | [] => []
  | c :: s => if c =? 0 then [] else c :: text s
  end.

Definition container_key (k : config_container) : key := (classifier k, text (name k), instance k).

Definition abs (ramstore : config_ramstore) : gmap key bytes :=
  list_to_map ((fun k => (container_key k, data k)) <$> ramstore).

(** A C string: NUL-terminated, its length with the NUL at most [n]. *)
Definition cstring (s : bytes) (n : Z) : Prop :=
  exists l, strlen s = Some l /\ l < n.

Definition container_ok (k : config_container) : Prop :=
  cstring (name k) NAME_SIZE /\ len (name k) = NAME_SIZE /\ len (data k) = size k.

Definition store_inv (ramstore : config_ramstore) : Prop := Forall container_ok ramstore.

(** ** Strings *)
Lemma strlen_cons c s : strlen (c :: s) = if c =? 0 then Some 0 else Z.add 1 <$> strlen s.
Proof.
  unfold strlen. simpl. case_match; [done|]. destruct (find_index _ s); simpl; [|done].
  f_equal. lia.
Qed.

Lemma strlen_nonneg s l : strlen s = Some l -> 0 <= l < len s.
Proof.
  unfold strlen. intros (i & Hi & ->)%fmap_Some. apply find_index_lt in Hi. unfold len. lia.
Qed.

Lemma strncmp_text a : forall b n la lb,
  strlen a = Some la -> strlen b = Some lb -> la < Z.of_nat n \/ lb < Z.of_nat n ->
  strncmp_eq a b n = Some (bool_decide (text a = text b)).
Proof.
  induction a as [|x a IH]; intros b n la lb Ha Hb Hn; [done|].
  destruct b as [|y b]; [done|].
  pose proof (strlen_nonneg _ _ Ha). pose proof (strlen_nonneg _ _ Hb).
  destruct n as [|n]; [lia|]. cbn [strncmp_eq text]. rewrite strlen_cons in Ha, Hb.
  destruct (Z.eqb_spec x y) as [<-|Hxy]; cbn [negb].
  - destruct (Z.eqb_spec x 0) as [->|Hx]; [done|].
    apply fmap_Some in Ha as (la' & Ha & ->), Hb as (lb' & Hb & ->).
    rewrite (IH b n la' lb') by (done || lia). f_equal. apply bool_decide_ext.
    split; [by intros ->|by intros [= ->]].
  - f_equal. symmetry. apply bool_decide_eq_false. repeat case_match; try lia; congruence.
Qed.

Lemma text_take s l m : strlen s = Some l -> l < Z.of_nat m -> text (take m s) = text s.
Proof.
  revert l m. induction s as [|c s IH]; intros l m Hl Hm; [by rewrite take_nil|].
  pose proof (strlen_nonneg _ _ Hl). destruct m as [|m]; [lia|]. cbn [take text].
  rewrite strlen_cons in Hl. destruct (Z.eqb_spec c 0); [done|].
  apply fmap_Some in Hl as (l' & Hl & ->). f_equal. apply (IH l'); [done|lia].
Qed.

Lemma text_app s l t : strlen s = Some l -> text (s ++ t) = text s.
Proof.
  revert l. induction s as [|c s IH]; intros l Hl; [done|]. rewrite strlen_cons in Hl.
  cbn [app text]. case_match; [done|]. apply fmap_Some in Hl as (l' & Hl & _).
  f_equal. by apply (IH l').
Qed.

Lemma strlen_app s l t : strlen s = Some l -> strlen (s ++ t) = Some l.
Proof.
  revert l. induction s as [|c s IH]; intros l Hl; [done|]. rewrite strlen_cons in *.
  cbn [app]. rewrite strlen_cons. case_match; [done|].
  apply fmap_Some in Hl as (l' & Hl & ->). by rewrite (IH l').
Qed.

Lemma strlen_take s l m : strlen s = Some l -> l < Z.of_nat m -> strlen (take m s) = Some l.
Proof.
  revert l m. induction s as [|c s IH]; intros l m Hl Hm; [done|].
  pose proof (strlen_nonneg _ _ Hl). destruct m as [|m]; [lia|]. cbn [take].
  rewrite strlen_cons in *. destruct (Z.eqb_spec c 0); [done|].
  apply fmap_Some in Hl as (l' & Hl & ->). rewrite (IH l'); [done|done|lia].
Qed.

(** ** Operations against the abstract map *)
Lemma config_container_create_ok junk c n inst d sz l :
  strlen n = Some l -> l < NAME_SIZE -> len junk = NAME_SIZE ->
  0 <= sz <= len d -> CONTAINER_SIZE + sz < 2 ^ 64 ->
  exists k, config_container_create (Some junk) c n inst d sz = Some (Some k) /\
    container_ok k /\ container_key k = (c, text n, inst) /\ load d 0 sz = Some (data k).
Proof.
  intros Hl Hn Hj Hsz Hfit. unfold CONTAINER_SIZE, NAME_SIZE in *.
  pose proof (strlen_nonneg _ _ Hl). unfold config_container_create.
  rewrite Hl. cbn [mbind option_bind]. unfold NAME_SIZE, CONTAINER_SIZE.
  case_match; [lia|]. rewrite (load_ok n 0 (l + 1)) by lia. cbn [mbind option_bind]. rewrite drop_0.
  assert (len (take (Z.to_nat (l + 1)) n) = l + 1) as Hlen.
  { unfold len in *. rewrite length_take. lia. }
  destruct (store_ok junk 0 (take (Z.to_nat (l + 1)) n)) as [nm Hnm]; [lia|lia|].
  rewrite Hnm. cbn [mbind option_bind]. rewrite wrap_small by lia.
  case_match; [|lia]. rewrite (load_ok d 0 sz) by lia. cbn [mbind option_bind].
  eexists. split; [reflexivity|].
  pose proof (store_len _ _ _ _ Hnm). apply store_Some in Hnm as (_ & _ & Hnm).
  rewrite take_0 in Hnm. cbn [app] in Hnm.
  assert (strlen (take (Z.to_nat (l + 1)) n) = Some l) as Hst by (apply strlen_take; [done|lia]).
  unfold container_ok, container_key, cstring, NAME_SIZE. cbn [name classifier instance data size].
  repeat split.
  - exists l. split; [|lia]. rewrite Hnm. by apply strlen_app.
  - lia.
  - unfold len in *. rewrite length_take, length_drop. lia.
  - rewrite Hnm, (text_app _ l) by done. by rewrite (text_take _ l) by (done || lia).
Qed.

Lemma config_store_query_abs ramstore c n inst buf sz l :
  store_inv ramstore -> strlen n = Some l -> 0 <= sz <= len buf ->
  config_store_query ramstore c n inst buf sz =
  match abs ramstore !! (c, text n, inst) with
  | Some d => if sz =? len d then b ← store buf 0 d; Some (true, b) else Some (false, buf)
  | None => Some (false, buf)
  end.
Proof.
  intros Hinv Hl Hbuf. induction Hinv as [|k ks (Hk1 & Hk2 & Hk3) _ IH]; [done|].
  cbn [config_store_query]. destruct Hk1 as (lk & Hlk & Hlk32).
  erewrite (strncmp_text (name k) n 32) by (done || (left; unfold NAME_SIZE in *; lia)).
  cbn [mbind option_bind].
  change (abs (k :: ks)) with (<[container_key k := data k]> (abs ks)).
  rewrite lookup_insert. unfold container_key.
  destruct (decide ((classifier k, text (name k), instance k) = (c, text n, inst))) as [Heq|Hne].
  - injection Heq as -> -> ->. rewrite !bool_decide_eq_true_2 by done. rewrite Z.eqb_refl.
    cbn [andb]. rewrite <- Hk3. destruct (sz =? len (data k)); [|done].
    by rewrite load_all.
  - destruct (bool_decide _ && _ && _) eqn:Hb; [|exact IH]. exfalso. apply Hne. bool_to_prop.
    apply pair_eq. split; [apply pair_eq; done|lia].
Qed.

Lemma config_ramstore_deinit_empty ramstore : config_ramstore_deinit ramstore = Some [].
Proof.
  unfold config_ramstore_deinit. induction ramstore as [|k ks IH]; [done|]. exact IH.
Qed.

Lemma config_store_count_loop_spec ramstore c : forall n,
  0 <= n -> n + len ramstore < 2 ^ 32 ->
  config_store_count_loop ramstore c n
  = n + len (filter (fun k => classifier k = c) ramstore).
Proof.
  induction ramstore as [|k ks IH]; intros n Hn Hfit; [simpl; unfold len; simpl; lia|].
  cbn [config_store_count_loop]. unfold len in *. rewrite length_cons in Hfit.
  rewrite filter_cons. case_bool_decide as Hk.
  - rewrite decide_True by done. rewrite wrap_small, IH by lia. rewrite length_cons. lia.
  - rewrite decide_False by done. apply IH; lia.
Qed.

(** C28: the linked-list store implements a finite map keyed by classifier, name
    and instance: a successful add binds its key to the stored bytes and changes
    no other key, a query copies out exactly the bytes bound to its key when the
    buffer has their size and fails otherwise, and deinit empties the store. *)
Theorem config_store_refines_map ramstore c n inst d sz l junk :
  store_inv ramstore -> strlen n = Some l -> l < NAME_SIZE -> len junk = NAME_SIZE ->
  0 <= sz <= len d -> CONTAINER_SIZE + sz < 2 ^ 64 ->
  exists ramstore' v,
    config_store_add (Some junk) ramstore c n inst d sz = Some (true, ramstore') /\
    store_inv ramstore' /\ load d 0 sz = Some v /\
    abs ramstore' = <[(c, text n, inst) := v]> (abs ramstore) /\
    (forall c2 n2 inst2 l2 buf sz2, strlen n2 = Some l2 -> 0 <= sz2 <= len buf ->
       config_store_query ramstore' c2 n2 inst2 buf sz2 =
       match <[(c, text n, inst) := v]> (abs ramstore) !! (c2, text n2, inst2) with
       | Some x => if sz2 =? len x then b ← store buf 0 x; Some (true, b) else Some (false, buf)
       | None => Some (false, buf)
       end) /\
    config_ramstore_deinit ramstore' = Some [].
Proof.
  intros Hinv Hl Hn Hj Hsz Hfit.
  destruct (config_container_create_ok junk c n inst d sz l) as (k & Hk & Hok & Hkey & Hd); try done.
  exists (k :: ramstore), (data k). unfold config_store_add. rewrite Hk. cbn [mbind option_bind].
  assert (abs (k :: ramstore) = <[(c, text n, inst) := data k]> (abs ramstore)) as Habs
    by (rewrite <- Hkey; done).
  split; [done|]. split; [by constructor|]. split; [done|]. split; [done|]. split.
  - intros. rewrite <- Habs. eapply config_store_query_abs; [by constructor|done|done].
  - apply config_ramstore_deinit_empty.
Qed.

Lemma config_store_refines_map_witness :
  exists ramstore' v,
    config_store_add (Some (fill 7 32)) [] CONFIG_CLASSIFIER_BLOB [97; 98; 0] 3 [1; 2; 3] 2
      = Some (true, ramstore') /\
    store_inv ramstore' /\ load [1; 2; 3] 0 2 = Some v /\
    abs ramstore' = <[(CONFIG_CLASSIFIER_BLOB, text [97; 98; 0], 3) := v]> (abs []) /\
    (forall c2 n2 inst2 l2 buf sz2, strlen n2 = Some l2 -> 0 <= sz2 <= len buf ->
       config_store_query ramstore' c2 n2 inst2 buf sz2 =
       match <[(CONFIG_CLASSIFIER_BLOB, text [97; 98; 0], 3) := v]> (abs []) !! (c2, text n2, inst2) with
       | Some x => if sz2 =? len x then b ← store buf 0 x; Some (true, b) else Some (false, buf)
       | None => Some (false, buf)
       end) /\
    config_ramstore_deinit ramstore' = Some [].
Proof.
  apply (config_store_refines_map [] CONFIG_CLASSIFIER_BLOB [97; 98; 0] 3 [1; 2; 3] 2 2 (fill 7 32)).
  - constructor.
  - reflexivity.
  - reflexivity.
  - reflexivity.
  - vm_compute. split; discriminate.
  - reflexivity.
Defined.
