(* ===== verification/Status.v ===== *)
(** * Status codes shared by the services

    psa_status_t (components/service/common/include/psa/error.h), rpc_status_t
    (components/rpc/common/interface/rpc_status.h), the FWU, Lua and errno
    values, as the signed integers the C code uses. *)
From S2P Require Import Prelude.

Definition PSA_SUCCESS : Z := 0.
Definition PSA_ERROR_GENERIC_ERROR : Z := -132.
Definition PSA_ERROR_NOT_PERMITTED : Z := -133.
Definition PSA_ERROR_NOT_SUPPORTED : Z := -134.
Definition PSA_ERROR_INVALID_ARGUMENT : Z := -135.
Definition PSA_ERROR_BAD_STATE : Z := -137.
Definition PSA_ERROR_BUFFER_TOO_SMALL : Z := -138.
Definition PSA_ERROR_ALREADY_EXISTS : Z := -139.
Definition PSA_ERROR_DOES_NOT_EXIST : Z := -140.
Definition PSA_ERROR_INSUFFICIENT_MEMORY : Z := -141.
Definition PSA_ERROR_INSUFFICIENT_STORAGE : Z := -142.
Definition PSA_ERROR_STORAGE_FAILURE : Z := -146.
Definition PSA_STATUS_HARDWARE_FAILURE : Z := -147.

(** A psa_status_t. *)
Definition int32 (st : Z) : Prop := - 2 ^ 31 <= st < 2 ^ 31.

Definition RPC_SUCCESS : Z := 0.
Definition RPC_ERROR_INTERNAL : Z := -1.
Definition RPC_ERROR_INVALID_VALUE : Z := -2.
Definition RPC_ERROR_NOT_FOUND : Z := -3.
Definition RPC_ERROR_INVALID_STATE : Z := -4.
Definition RPC_ERROR_TRANSPORT_LAYER : Z := -5.
Definition RPC_ERROR_INVALID_REQUEST_BODY : Z := -6.
Definition RPC_ERROR_INVALID_RESPONSE_BODY : Z := -7.
Definition RPC_ERROR_RESOURCE_FAILURE : Z := -8.

Definition FWU_STATUS_SUCCESS : Z := 0.
Definition FWU_STATUS_UNKNOWN : Z := -1.
Definition FWU_STATUS_BUSY : Z := -2.
Definition FWU_STATUS_OUT_OF_BOUNDS : Z := -3.
Definition FWU_STATUS_AUTH_FAIL : Z := -4.
Definition FWU_STATUS_NO_PERMISSION : Z := -5.
Definition FWU_STATUS_DENIED : Z := -6.
Definition FWU_STATUS_RESUME : Z := -7.
Definition FWU_STATUS_NOT_AVAILABLE : Z := -8.

Definition LUA_SUCCESS : Z := 0.
Definition LUA_ERROR_GENERIC_ERROR : Z := -1.
Definition LUA_ERROR_OUT_OF_FREE_ENVIRONMENTS : Z := -2.
Definition LUA_ERROR_ENVIRONMENT_DOES_NOT_EXIST : Z := -3.
Definition LUA_ERROR_OUT_OF_MEMORY : Z := -4.
Definition LUA_ERROR_BUFFER_TOO_SMALL : Z := -5.
Definition LUA_ERROR_PARSER_ERROR : Z := -6.
Definition LUA_ERROR_INTERPRETER_ERROR : Z := -7.

Definition EIO : Z := 5.
Definition ENOMEM : Z := 12.
Definition ENODEV : Z := 19.
Definition EINVAL : Z := 22.
Definition ENOSPC : Z := 28.
