(* ===== verification/StoragePartition.v ===== *)
(** * components/service/block_storage/block_store: storage partitions

    storage_partition_acl.c (the access control list of a partition) and
    storage_partition.c (its geometry and clipping rules). *)
From S2P Require Import Prelude.

Definition STORAGE_PARTITION_ACL_ALLOWLIST_LEN : Z := 1.
Definition STORAGE_PARTITION_ACL_MAX_OWNER_ID_LEN : Z := 40.

Record storage_partition_acl := Acl {
  owner_id : bytes;
  allowlist_len : Z;
  allowlist : list Z
}.

(** An authorizer is a deployment-specific function of the client ID and the
    owner string; a NULL pointer is [None]. *)
Abbreviation storage_partition_authorizer := (option (Z -> bytes -> bool)).

Definition storage_partition_acl_init : storage_partition_acl :=
  Acl (fill 0 STORAGE_PARTITION_ACL_MAX_OWNER_ID_LEN) 0
      (replicate (Z.to_nat STORAGE_PARTITION_ACL_ALLOWLIST_LEN) 0).

Definition storage_partition_acl_add (acl : storage_partition_acl) (client_id : Z)
    : option (bool * storage_partition_acl) :=
  if allowlist_len acl <? STORAGE_PARTITION_ACL_ALLOWLIST_LEN then
    l ← setZ (allowlist acl) (allowlist_len acl) client_id;
    Some (true, Acl (owner_id acl) (u64 (allowlist_len acl + 1)) l)
  else Some (false, acl).

Definition storage_partition_acl_set_owner_id (acl : storage_partition_acl) (owner : bytes)
    : option (bool * storage_partition_acl) :=
  n ← strlen owner;
  let l := u64 (n + 1) in
  if l >? STORAGE_PARTITION_ACL_MAX_OWNER_ID_LEN then Some (false, acl)
  else
    d ← load owner 0 l;
    o ← store (owner_id acl) 0 d;
    Some (true, Acl o (allowlist_len acl) (allowlist acl)).

Fixpoint acl_check_loop (l : list Z) (client_id : Z) (n : nat) (i : Z) : option bool :=
  match n with
  | O => Some false
  | S n =>
      x ← nthZ l i;
      if client_id =? x then Some true else acl_check_loop l client_id n (i + 1)
  end.

Definition storage_partition_acl_check (acl : storage_partition_acl) (client_id : Z)
    : option bool :=
  acl_check_loop (allowlist acl) client_id (Z.to_nat (allowlist_len acl)) 0.

Definition storage_partition_acl_authorize (acl : storage_partition_acl) (client_id : Z)
    (authorizer : storage_partition_authorizer) : option (bool * storage_partition_acl) :=
  is_access_permitted ← storage_partition_acl_check acl client_id;
  if negb is_access_permitted then
    match authorizer with
    | Some f =>
        if f client_id (owner_id acl) then storage_partition_acl_add acl client_id
        else Some (false, acl)
    | None =>
        o ← nthZ (owner_id acl) 0;
        if (allowlist_len acl =? 0) && (o =? 0) then storage_partition_acl_add acl client_id
        else Some (false, acl)
    end
  else Some (true, acl).

Record storage_partition := Partition {
  sp_partition_guid : bytes;
  sp_block_size : Z;
  sp_num_blocks : Z;
  sp_base_lba : Z;
  sp_acl : storage_partition_acl
}.

Definition nil_guid : bytes := fill 0 16.

(** The struct after [memset(partition, 0, sizeof(struct storage_partition))]. *)
Definition zero_partition : storage_partition :=
  Partition nil_guid 0 0 0 storage_partition_acl_init.

Definition storage_partition_init (partition_guid : option bytes) (num_blocks block_size : Z)
    : storage_partition :=
  Partition (default nil_guid partition_guid) block_size num_blocks 0
            storage_partition_acl_init.

Definition storage_partition_deinit : storage_partition := zero_partition.

Definition set_acl (p : storage_partition) (a : storage_partition_acl) : storage_partition :=
  Partition (sp_partition_guid p) (sp_block_size p) (sp_num_blocks p) (sp_base_lba p) a.

Definition storage_partition_grant_access (p : storage_partition) (client_id : Z)
    : option (bool * storage_partition) :=
  '(r, a) ← storage_partition_acl_add (sp_acl p) client_id; Some (r, set_acl p a).

Definition storage_partition_assign_ownership (p : storage_partition) (owner : bytes)
    : option (bool * storage_partition) :=
  '(r, a) ← storage_partition_acl_set_owner_id (sp_acl p) owner; Some (r, set_acl p a).

Definition storage_partition_is_guid_matched (p : storage_partition) (guid : bytes) : bool :=
  bytes_eqb (sp_partition_guid p) guid.

Definition storage_partition_is_open_permitted (p : storage_partition) (client_id : Z)
    (authorizer : storage_partition_authorizer) : option (bool * storage_partition) :=
  '(r, a) ← storage_partition_acl_authorize (sp_acl p) client_id authorizer;
  Some (r, set_acl p a).

Definition storage_partition_is_access_permitted (p : storage_partition) (client_id : Z)
    : option bool :=
  storage_partition_acl_check (sp_acl p) client_id.

Definition storage_partition_is_lba_legal (p : storage_partition) (lba : Z) : bool :=
  lba <? sp_num_blocks p.

Definition storage_partition_clip_length (p : storage_partition) (lba offset req_len : Z) : Z :=
  if lba <? sp_num_blocks p then
    let remaining_len := u64 ((sp_num_blocks p - lba) * sp_block_size p) in
    let remaining_len := if offset <? remaining_len then remaining_len - offset else 0 in
    if req_len >? remaining_len then remaining_len else req_len
  else 0.

Definition storage_partition_clip_num_blocks (p : storage_partition) (lba num_blocks : Z) : Z :=
  if lba <? sp_num_blocks p then
    let remaining_blocks := sp_num_blocks p - lba in
    if num_blocks >? remaining_blocks then remaining_blocks else num_blocks
  else 0.

(** ** Well-formedness and the permission relation *)

Definition acl_wf (a : storage_partition_acl) : Prop :=
  len (owner_id a) = STORAGE_PARTITION_ACL_MAX_OWNER_ID_LEN /\
  len (allowlist a) = STORAGE_PARTITION_ACL_ALLOWLIST_LEN /\
  0 <= allowlist_len a <= STORAGE_PARTITION_ACL_ALLOWLIST_LEN.

(** The client is on the list. *)
Definition acl_permits (a : storage_partition_acl) (client_id : Z) : Prop :=
  exists i, 0 <= i < allowlist_len a /\ nthZ (allowlist a) i = Some client_id.

(** ** Access control list *)

Lemma acl_check_loop_spec l client n i :
  0 <= i -> i + Z.of_nat n <= len l ->
  exists b, acl_check_loop l client n i = Some b /\
    (b = true <-> exists j, i <= j < i + Z.of_nat n /\ nthZ l j = Some client).
Proof.
  revert i. induction n as [|n IH]; intros i Hi Hn; simpl.
  - exists false. split; [done|]. split; [done|]. intros (j & ? & _). lia.
  - destruct (nthZ_is_Some l i) as [x Hx]; [lia|]. rewrite Hx. simpl.
    destruct (Z.eqb_spec client x) as [->|Hne].
    + exists true. split; [done|]. split; [|done]. intros _. exists i. split; [lia|done].
    + destruct (IH (i + 1)) as (b & Hb & Hiff); [lia|lia|]. exists b. split; [done|].
      rewrite Hiff. split; intros (j & Hj & Hc).
      * exists j. split; [lia|done].
      * exists j. split; [|done]. destruct (decide (j = i)) as [->|]; [congruence|lia].
Qed.

Lemma acl_check_spec a client :
  acl_wf a -> exists b, storage_partition_acl_check a client = Some b /\
    (b = true <-> acl_permits a client).
Proof.
  intros (_ & Hl & Hn). unfold storage_partition_acl_check, acl_permits.
  destruct (acl_check_loop_spec (allowlist a) client (Z.to_nat (allowlist_len a)) 0)
    as (b & Hb & Hiff); [lia|lia|].
  exists b. split; [done|]. rewrite Hiff.
  by replace (0 + Z.of_nat (Z.to_nat (allowlist_len a))) with (allowlist_len a) by lia.
Qed.

Lemma acl_check_true a client :
  acl_wf a -> acl_permits a client -> storage_partition_acl_check a client = Some true.
Proof.
  intros Hwf Hp. destruct (acl_check_spec a client Hwf) as ([] & Hb & Hiff); [done|].
  apply Hiff in Hp. done.
Qed.

Lemma acl_init_wf : acl_wf storage_partition_acl_init.
Proof. done. Qed.

Lemma acl_init_permits_none client : ~ acl_permits storage_partition_acl_init client.
Proof. intros (i & Hi & _). simpl in Hi. lia. Qed.

(** Adding a client: the list is a one-slot set that is never overwritten. *)
Lemma acl_add_spec a client :
  acl_wf a -> exists b a', storage_partition_acl_add a client = Some (b, a') /\ acl_wf a' /\
    owner_id a' = owner_id a /\
    (b = true <-> allowlist_len a < STORAGE_PARTITION_ACL_ALLOWLIST_LEN) /\
    (b = false -> a' = a) /\
    (forall c, acl_permits a' c <-> acl_permits a c \/ (b = true /\ c = client)).
Proof.
  intros (Ho & Hl & Hn). unfold storage_partition_acl_add.
  destruct (Z.ltb_spec (allowlist_len a) STORAGE_PARTITION_ACL_ALLOWLIST_LEN) as [Hlt|Hge].
  - rewrite setZ_is_Some by lia. simpl.
    eexists true, _. split; [done|]. unfold STORAGE_PARTITION_ACL_ALLOWLIST_LEN in *.
    assert (u64 (allowlist_len a + 1) = allowlist_len a + 1) as Hu by (apply wrap_small; lia).
    split; [|split; [done|split; [done|split; [done|]]]].
    + unfold acl_wf. simpl. rewrite Hu. unfold len in *. rewrite length_insert. simpl in *.
      unfold STORAGE_PARTITION_ACL_ALLOWLIST_LEN. lia.
    + intros c. unfold acl_permits. simpl. rewrite Hu. split.
      * intros (i & Hi & Hc). destruct (decide (i = allowlist_len a)) as [->|].
        -- right. rewrite nthZ_insert_eq in Hc by lia. by simplify_eq.
        -- left. exists i. rewrite nthZ_insert_ne in Hc by lia. split; [lia|done].
      * intros [(i & Hi & Hc)|[_ ->]].
        -- exists i. rewrite nthZ_insert_ne by lia. split; [lia|done].
        -- exists (allowlist_len a). rewrite nthZ_insert_eq by lia. split; [lia|done].
  - exists false, a. split; [done|]. split; [done|]. split; [done|].
    split; [split; [done|intros; lia]|]. split; [done|]. intros c. split; [by left|].
    intros [?|[??]]; done.
Qed.

Lemma acl_set_owner_wf a owner b a' :
  acl_wf a -> storage_partition_acl_set_owner_id a owner = Some (b, a') ->
  acl_wf a' /\ (forall c, acl_permits a' c <-> acl_permits a c).
Proof.
  intros Hwf Hs. unfold storage_partition_acl_set_owner_id in Hs. inv_bind Hs.
  case_match; [by simplify_eq|]. inv_bind Hs. split; [|done].
  destruct Hwf as (? & ? & ?). unfold acl_wf. simpl.
  split; [|done]. by erewrite store_len.
Qed.

(** The outcome of an authorization, on every branch. *)
Lemma acl_authorize_spec a client auth :
  acl_wf a -> exists b a', storage_partition_acl_authorize a client auth = Some (b, a') /\
    acl_wf a' /\ owner_id a' = owner_id a /\
    (b = true -> acl_permits a' client) /\ (b = false -> a' = a) /\
    (forall c, acl_permits a c -> acl_permits a' c) /\
    (forall c, acl_permits a' c -> acl_permits a c \/ (c = client /\ b = true)) /\
    (acl_permits a client -> b = true) /\
    (auth = None -> acl_permits a client \/ allowlist_len a = 0 \/ b = false).
Proof.
  intros Hwf. unfold storage_partition_acl_authorize.
  destruct (acl_check_spec a client Hwf) as (b & Hb & Hiff). rewrite Hb. simpl.
  destruct b; simpl.
  - exists true, a. split; [done|]. split; [done|]. split; [done|].
    split; [tauto|]. split; [done|]. split; [done|]. split; [by left|].
    split; [done|]. intros _. left. tauto.
  - assert (~ acl_permits a client) as Hno by (intros ?; by apply Hiff in H).
    destruct (acl_add_spec a client Hwf) as (r & a1 & Ha & Hwf1 & Ho1 & Hr & Hf & Hp).
    assert (forall f : bool, (f = true -> auth = None -> allowlist_len a = 0) ->
      exists b a', (if f then storage_partition_acl_add a client else Some (false, a)) =
        Some (b, a') /\ acl_wf a' /\ owner_id a' = owner_id a /\
      (b = true -> acl_permits a' client) /\ (b = false -> a' = a) /\
      (forall c, acl_permits a c -> acl_permits a' c) /\
      (forall c, acl_permits a' c -> acl_permits a c \/ (c = client /\ b = true)) /\
      (acl_permits a client -> b = true) /\
      (auth = None -> acl_permits a client \/ allowlist_len a = 0 \/ b = false)) as Hg.
    { intros [] Hz.
      - exists r, a1. split; [done|]. split; [done|]. split; [done|].
        split; [intros ->; apply Hp; by right|]. split; [done|].
        split; [intros c Hc; apply Hp; by left|].
        split; [intros c [Hc|[? ?]]%Hp; [by left|right; done]|].
        split; [done|]. intros Hn. right. left. auto.
      - exists false, a. split; [done|]. split; [done|]. split; [done|]. split; [done|].
        split; [done|]. split; [done|]. split; [by left|]. split; [done|]. intros _. by do 2 right. }
    destruct auth as [f|]; [by apply Hg|].
    destruct (nthZ_is_Some (owner_id a) 0) as [o Hoz].
    { destruct Hwf as (-> & _). unfold STORAGE_PARTITION_ACL_MAX_OWNER_ID_LEN. lia. }
    rewrite Hoz. simpl. apply Hg. intros Hq _. bool_to_prop. lia.
Qed.

(** ** Clipping *)

(** For a request that starts inside a block, clipping to the partition never
    cuts the request below the end of that block. *)
Lemma clip_length_in_block p lba offset n :
  0 <= lba < sp_num_blocks p -> 0 <= offset < sp_block_size p -> 0 <= n ->
  sp_num_blocks p * sp_block_size p < 2 ^ 64 ->
  Z.min (storage_partition_clip_length p lba offset n) (sp_block_size p - offset) =
  Z.min n (sp_block_size p - offset) /\
  0 <= storage_partition_clip_length p lba offset n <= n.
Proof.
  intros Hl Ho Hn Hs. unfold storage_partition_clip_length.
  assert (sp_block_size p <= (sp_num_blocks p - lba) * sp_block_size p
          <= sp_num_blocks p * sp_block_size p) by nia.
  rewrite wrap_small by lia. repeat case_match; lia.
Qed.

Lemma clip_num_blocks_spec p lba n :
  0 <= lba < sp_num_blocks p -> 0 <= n ->
  storage_partition_clip_num_blocks p lba n = Z.min n (sp_num_blocks p - lba).
Proof. intros. unfold storage_partition_clip_num_blocks. repeat case_match; lia. Qed.

Lemma clip_length_bounds p lba offset n :
  0 <= offset -> 0 <= n -> 0 <= storage_partition_clip_length p lba offset n <= n.
Proof.
  intros Ho Hn. unfold storage_partition_clip_length.
  pose proof (wrap_fits 64 ((sp_num_blocks p - lba) * sp_block_size p) ltac:(lia)) as [??].
  repeat case_match; lia.
Qed.
