(* ===== verification/BlockStore.v ===== *)
(** * components/service/block_storage/block_store/block_store.[ch]: the interface

    A [struct block_store] is a context with a table of function pointers.  The
    table is a record of operations over the type [C] of contexts; an out
    parameter is passed in with its current value and returned with its new
    one, because an operation that fails may leave it alone.  The laws every
    data-keeping block store promises to its clients are the class
    [BlockStoreLaws]; the stores stacked on another one and the volume layer
    are verified against it. *)
From S2P Require Import Prelude Status.

Record storage_partition_info := Info {
  info_num_blocks : Z;
  info_block_size : Z;
  info_partition_guid : bytes;
  info_parent_guid : bytes
}.

Record block_store_interface (C : Type) := Interface {
  get_partition_info : C -> bytes -> storage_partition_info ->
    option (Z * storage_partition_info * C);
  open : C -> Z -> bytes -> Z -> option (Z * Z * C);
  close : C -> Z -> Z -> option (Z * C);
  (** [read c client handle lba offset buffer_size buffer data_len] *)
  read : C -> Z -> Z -> Z -> Z -> Z -> bytes -> Z -> option (Z * bytes * Z * C);
  (** [write c client handle lba offset data data_len num_written] *)
  write : C -> Z -> Z -> Z -> Z -> bytes -> Z -> Z -> option (Z * Z * C);
  erase : C -> Z -> Z -> Z -> Z -> option (Z * C)
}.
Arguments Interface {C}.
Arguments get_partition_info {C}.
Arguments open {C}.
Arguments close {C}.
Arguments read {C}.
Arguments write {C}.
Arguments erase {C}.

(** [bs_interface] is [None] for a NULL pointer. *)
Record block_store (C : Type) := BlockStore {
  bs_context : C;
  bs_interface : option (block_store_interface C)
}.
Arguments BlockStore {C}.
Arguments bs_context {C}.
Arguments bs_interface {C}.

Definition set_context {C} (b : block_store C) (c : C) : block_store C :=
  BlockStore c (bs_interface b).

Section Dispatch.
Context {C : Type}.
Implicit Types b : block_store C.

Definition block_store_get_partition_info b (guid : bytes) (info : storage_partition_info) :=
  i ← bs_interface b;
  '(st, info, c) ← get_partition_info i (bs_context b) guid info;
  Some (st, info, set_context b c).

Definition block_store_open b (client_id : Z) (guid : bytes) (handle : Z) :=
  i ← bs_interface b;
  '(st, handle, c) ← open i (bs_context b) client_id guid handle;
  Some (st, handle, set_context b c).

Definition block_store_close b (client_id handle : Z) :=
  i ← bs_interface b;
  '(st, c) ← close i (bs_context b) client_id handle;
  Some (st, set_context b c).

Definition block_store_read b (client_id handle lba offset buffer_size : Z)
    (buffer : bytes) (data_len : Z) :=
  i ← bs_interface b;
  '(st, buffer, data_len, c) ←
    read i (bs_context b) client_id handle lba offset buffer_size buffer data_len;
  Some (st, buffer, data_len, set_context b c).

Definition block_store_write b (client_id handle lba offset : Z) (data : bytes)
    (data_len num_written : Z) :=
  i ← bs_interface b;
  '(st, num_written, c) ←
    write i (bs_context b) client_id handle lba offset data data_len num_written;
  Some (st, num_written, set_context b c).

Definition block_store_erase b (client_id handle begin_lba num_blocks : Z) :=
  i ← bs_interface b;
  '(st, c) ← erase i (bs_context b) client_id handle begin_lba num_blocks;
  Some (st, set_context b c).

End Dispatch.

(** ** What a block store promises

    The abstract view of a context: which client may use which handle, the
    geometry behind a handle and the bytes of the partition it refers to. *)
Record store_view (C : Type) := View {
  v_ok : C -> Prop;
  v_access : C -> Z -> Z -> Prop;
  v_nblocks : C -> Z -> Z;
  v_bsize : C -> Z -> Z;
  v_data : C -> Z -> bytes;
  v_described : C -> bytes -> Z -> Z -> Prop
}.
Arguments View {C}.
Arguments v_ok {C}.
Arguments v_access {C}.
Arguments v_nblocks {C}.
Arguments v_bsize {C}.
Arguments v_data {C}.
Arguments v_described {C}.

(** Everything a client could see in [c] it still sees in [c']. *)
Definition view_ext {C} (V : store_view C) (c c' : C) : Prop :=
  v_ok V c' /\
  forall client h, v_access V c client h ->
    v_access V c' client h /\ v_nblocks V c' h = v_nblocks V c h /\
    v_bsize V c' h = v_bsize V c h /\ v_data V c' h = v_data V c h.

(** The same, except that the bytes behind handle [h] are now [d]. *)
Definition view_upd {C} (V : store_view C) (c : C) (h : Z) (d : bytes) (c' : C) : Prop :=
  v_ok V c' /\ v_data V c' h = d /\
  forall client k, v_access V c client k ->
    v_access V c' client k /\ v_nblocks V c' k = v_nblocks V c k /\
    v_bsize V c' k = v_bsize V c k.

Definition in_range {C} (V : store_view C) (c : C) (client h lba offset : Z) : Prop :=
  v_access V c client h /\ lba < v_nblocks V c h /\ offset < v_bsize V c h.

Class BlockStoreLaws {C} (I : block_store_interface C) (V : store_view C) : Prop := {
  law_geometry c client h :
    v_ok V c -> v_access V c client h ->
    fits 64 (v_nblocks V c h) /\ fits 64 (v_bsize V c h) /\
    v_nblocks V c h * v_bsize V c h < 2 ^ 64 /\
    len (v_data V c h) = v_nblocks V c h * v_bsize V c h;
  (** a read succeeds exactly on a legal position of an accessible handle, and
      returns the bytes of one block from that position *)
  law_read c client h lba offset n buf dl :
    v_ok V c -> 0 <= h -> 0 <= lba -> 0 <= offset -> 0 <= n <= len buf ->
    exists st buf' dl' c',
      read I c client h lba offset n buf dl = Some (st, buf', dl', c') /\ view_ext V c c' /\
      ((st = PSA_SUCCESS /\ in_range V c client h lba offset /\
        dl' = Z.min n (v_bsize V c h - offset) /\
        exists d, load (v_data V c h) (lba * v_bsize V c h + offset) dl' = Some d /\
          store buf 0 d = Some buf')
       \/ (st <> PSA_SUCCESS /\ ~ in_range V c client h lba offset /\ buf' = buf /\ dl' = dl));
  law_write c client h lba offset data n nw :
    v_ok V c -> 0 <= h -> 0 <= lba -> 0 <= offset -> 0 <= n <= len data ->
    exists st nw' c',
      write I c client h lba offset data n nw = Some (st, nw', c') /\
      ((st = PSA_SUCCESS /\ in_range V c client h lba offset /\
        nw' = Z.min n (v_bsize V c h - offset) /\
        exists d', store (v_data V c h) (lba * v_bsize V c h + offset)
                     (take (Z.to_nat nw') data) = Some d' /\
          view_upd V c h d' c')
       \/ (st <> PSA_SUCCESS /\ ~ in_range V c client h lba offset /\ nw' = nw /\
           view_ext V c c'));
  (** an erase touches the named blocks only, clipped to the partition *)
  law_erase c client h lba n :
    v_ok V c -> 0 <= h -> 0 <= lba -> 0 <= n ->
    exists st c',
      erase I c client h lba n = Some (st, c') /\
      ((st = PSA_SUCCESS /\ v_access V c client h /\ lba < v_nblocks V c h /\
        exists e d', len e = Z.min n (v_nblocks V c h - lba) * v_bsize V c h /\
          store (v_data V c h) (lba * v_bsize V c h) e = Some d' /\ view_upd V c h d' c')
       \/ (st <> PSA_SUCCESS /\ ~ (v_access V c client h /\ lba < v_nblocks V c h) /\
           view_ext V c c'));
  law_open c client guid h0 :
    v_ok V c ->
    exists st h c',
      open I c client guid h0 = Some (st, h, c') /\ view_ext V c c' /\
      (st = PSA_SUCCESS ->
        v_access V c' client h /\ 0 <= h /\
        forall nb bs, v_described V c guid nb bs -> v_nblocks V c' h = nb /\ v_bsize V c' h = bs);
  law_info c guid info0 :
    v_ok V c ->
    exists st info c',
      get_partition_info I c guid info0 = Some (st, info, c') /\ view_ext V c c' /\
      (st = PSA_SUCCESS ->
        v_described V c' guid (info_num_blocks info) (info_block_size info));
  law_close c client h :
    v_ok V c -> 0 <= h -> exists st c', close I c client h = Some (st, c') /\ view_ext V c c' /\
      (st = PSA_SUCCESS <-> v_access V c client h)
}.

(** ** A client's session on one handle

    [run_requests] plays a list of requests against the operations of a store;
    [spec_run] is the abstract store: an array of bytes read and written within
    single blocks. *)
Inductive request :=
  | Read (lba offset n : Z)
  | Write (lba offset : Z) (data : bytes)
  | Erase (lba n : Z).

(** [None]: the request was refused. *)
Inductive reply :=
  | Data (r : option bytes)
  | Written (r : option Z)
  | Erased (r : bool).

Definition request_wf (r : request) : Prop :=
  match r with
  | Read lba offset n => 0 <= lba /\ 0 <= offset /\ 0 <= n
  | Write lba offset _ => 0 <= lba /\ 0 <= offset
  | Erase lba n => 0 <= lba /\ 0 <= n
  end.

Definition run_request {C} (I : block_store_interface C) (client h : Z) (c : C) (r : request)
    : option (reply * C) :=
  match r with
  | Read lba offset n =>
      '(st, buf, dl, c) ← read I c client h lba offset n (fill 0 n) 0;
      if st =? PSA_SUCCESS then d ← load buf 0 dl; Some (Data (Some d), c)
      else Some (Data None, c)
  | Write lba offset data =>
      '(st, nw, c) ← write I c client h lba offset data (len data) 0;
      Some (Written (if st =? PSA_SUCCESS then Some nw else None), c)
  | Erase lba n =>
      '(st, c) ← erase I c client h lba n;
      Some (Erased (st =? PSA_SUCCESS), c)
  end.

Fixpoint run_requests {C} (I : block_store_interface C) (client h : Z) (c : C)
    (rs : list request) : option (list reply * C) :=
  match rs with
  | [] => Some ([], c)
  | r :: rs =>
      '(x, c) ← run_request I client h c r;
      '(xs, c) ← run_requests I client h c rs;
      Some (x :: xs, c)
  end.

Definition legal (nb bs lba offset : Z) : Prop := lba < nb /\ offset < bs.

(** One request on a partition of [nb] blocks of [bs] bytes holding [d]. *)
Inductive spec_step (nb bs : Z) (d : bytes) : request -> reply -> bytes -> Prop :=
  | spec_read lba offset n x :
      legal nb bs lba offset ->
      load d (lba * bs + offset) (Z.min n (bs - offset)) = Some x ->
      spec_step nb bs d (Read lba offset n) (Data (Some x)) d
  | spec_read_refused lba offset n :
      ~ legal nb bs lba offset -> spec_step nb bs d (Read lba offset n) (Data None) d
  | spec_write lba offset data w d' :
      legal nb bs lba offset -> w = Z.min (len data) (bs - offset) ->
      store d (lba * bs + offset) (take (Z.to_nat w) data) = Some d' ->
      spec_step nb bs d (Write lba offset data) (Written (Some w)) d'
  | spec_write_refused lba offset data :
      ~ legal nb bs lba offset -> spec_step nb bs d (Write lba offset data) (Written None) d
  | spec_erase lba n e d' :
      lba < nb -> len e = Z.min n (nb - lba) * bs ->
      store d (lba * bs) e = Some d' ->
      spec_step nb bs d (Erase lba n) (Erased true) d'
  | spec_erase_refused lba n :
      ~ lba < nb -> spec_step nb bs d (Erase lba n) (Erased false) d.

Inductive spec_run (nb bs : Z) : bytes -> list request -> list reply -> bytes -> Prop :=
  | spec_nil d : spec_run nb bs d [] [] d
  | spec_cons d r x d1 rs xs d2 :
      spec_step nb bs d r x d1 -> spec_run nb bs d1 rs xs d2 ->
      spec_run nb bs d (r :: rs) (x :: xs) d2.

(** ** Lemmas *)

Lemma view_ext_refl {C} (V : store_view C) c : v_ok V c -> view_ext V c c.
Proof. intros. split; [done|]. by intros. Qed.

Lemma view_ext_trans {C} (V : store_view C) c1 c2 c3 :
  view_ext V c1 c2 -> view_ext V c2 c3 -> view_ext V c1 c3.
Proof.
  intros [H1 E1] [H2 E2]. split; [done|]. intros client h Ha.
  destruct (E1 client h Ha) as (Ha1 & Hn1 & Hb1 & Hd1).
  destruct (E2 client h Ha1) as (Ha2 & Hn2 & Hb2 & Hd2). by rewrite Hn2, Hb2, Hd2.
Qed.

Section Session.
Context {C : Type} (I : block_store_interface C) (V : store_view C) `{!BlockStoreLaws I V}.

(** After a successful or refused request the client still has its handle,
    with the same geometry. *)
Definition keeps (client h : Z) (c c' : C) : Prop :=
  v_ok V c' /\ v_access V c' client h /\
  v_nblocks V c' h = v_nblocks V c h /\ v_bsize V c' h = v_bsize V c h.

Lemma ext_keeps client h c c' :
  v_access V c client h -> view_ext V c c' -> keeps client h c c' /\ v_data V c' h = v_data V c h.
Proof. intros Ha [Hok He]. destruct (He _ _ Ha) as (?&?&?&?). done. Qed.

Lemma upd_keeps client h c d c' :
  v_access V c client h -> view_upd V c h d c' -> keeps client h c c' /\ v_data V c' h = d.
Proof. intros Ha (Hok & Hd & He). destruct (He _ _ Ha) as (?&?&?). done. Qed.

Lemma run_read_refines client h c lba offset n :
  v_ok V c -> v_access V c client h -> 0 <= h -> request_wf (Read lba offset n) ->
  exists x c', run_request I client h c (Read lba offset n) = Some (x, c') /\
    keeps client h c c' /\
    spec_step (v_nblocks V c h) (v_bsize V c h) (v_data V c h) (Read lba offset n) x
      (v_data V c' h).
Proof.
  intros Hok Ha Hh (Hl & Ho & Hn). simpl.
  destruct (law_read c client h lba offset n (fill 0 n) 0)
    as (st & buf & dl & c' & Hr & Hext & Hcase); [done..|by rewrite len_fill|].
  destruct (ext_keeps client h c c' Ha Hext) as [Hk Hd]. rewrite Hr. simpl.
  destruct Hcase as [(-> & (_ & Hr1 & Hr2) & Hdl & d & Hload & Hst)|(Hst & Hnr & -> & ->)].
  - pose proof (load_store_same _ _ _ _ Hst) as Hls. rewrite (load_len _ _ _ _ Hload) in Hls.
    simpl. rewrite Hls. simpl. eexists _, _. split; [done|]. split; [done|]. rewrite Hd.
    constructor; [done|]. by rewrite <- Hdl.
  - destruct (Z.eqb_spec st PSA_SUCCESS); [done|]. eexists _, _. split; [done|].
    split; [done|]. rewrite Hd. constructor. intros [??]. by apply Hnr.
Qed.

Lemma run_write_refines client h c lba offset data :
  v_ok V c -> v_access V c client h -> 0 <= h -> request_wf (Write lba offset data) ->
  exists x c', run_request I client h c (Write lba offset data) = Some (x, c') /\
    keeps client h c c' /\
    spec_step (v_nblocks V c h) (v_bsize V c h) (v_data V c h) (Write lba offset data) x
      (v_data V c' h).
Proof.
  intros Hok Ha Hh (Hl & Ho). simpl.
  destruct (law_write c client h lba offset data (len data) 0)
    as (st & nw & c' & Hr & Hcase); [done..|split; [apply len_nonneg|lia]|].
  rewrite Hr. simpl.
  destruct Hcase as [(-> & (_ & Hr1 & Hr2) & Hnw & d' & Hst & Hupd)|(Hst & Hnr & -> & Hext)].
  - destruct (upd_keeps client h c d' c' Ha Hupd) as [Hk Hd].
    eexists _, _. split; [done|]. split; [done|]. rewrite Hd. by econstructor.
  - destruct (ext_keeps client h c c' Ha Hext) as [Hk Hd].
    destruct (Z.eqb_spec st PSA_SUCCESS); [done|]. eexists _, _. split; [done|].
    split; [done|]. rewrite Hd. constructor. intros [??]. by apply Hnr.
Qed.

Lemma run_erase_refines client h c lba n :
  v_ok V c -> v_access V c client h -> 0 <= h -> request_wf (Erase lba n) ->
  exists x c', run_request I client h c (Erase lba n) = Some (x, c') /\
    keeps client h c c' /\
    spec_step (v_nblocks V c h) (v_bsize V c h) (v_data V c h) (Erase lba n) x
      (v_data V c' h).
Proof.
  intros Hok Ha Hh (Hl & Ho). simpl.
  destruct (law_erase c client h lba n) as (st & c' & Hr & Hcase); [done..|].
  rewrite Hr. simpl.
  destruct Hcase as [(-> & _ & Hr1 & e & d' & Hlen & Hst & Hupd)|(Hst & Hnr & Hext)].
  - destruct (upd_keeps client h c d' c' Ha Hupd) as [Hk Hd].
    eexists _, _. split; [done|]. split; [done|]. rewrite Hd. by econstructor.
  - destruct (ext_keeps client h c c' Ha Hext) as [Hk Hd].
    destruct (Z.eqb_spec st PSA_SUCCESS); [done|]. eexists _, _. split; [done|].
    split; [done|]. rewrite Hd. constructor. tauto.
Qed.

(** Every store with the laws refines the abstract store, request by request. *)
Lemma run_requests_refines client h c rs :
  v_ok V c -> v_access V c client h -> 0 <= h -> Forall request_wf rs ->
  exists xs c', run_requests I client h c rs = Some (xs, c') /\ keeps client h c c' /\
    spec_run (v_nblocks V c h) (v_bsize V c h) (v_data V c h) rs xs (v_data V c' h).
Proof.
  intros Hok Ha Hh Hwf. revert c Hok Ha. induction Hwf as [|r rs Hr Hrs IH]; intros c Hok Ha.
  - exists [], c. split; [done|]. split; [done|]. constructor.
  - assert (exists x c', run_request I client h c r = Some (x, c') /\
      keeps client h c c' /\ spec_step (v_nblocks V c h) (v_bsize V c h) (v_data V c h) r x
        (v_data V c' h)) as (x & c1 & Hx & (Hok1 & Ha1 & Hn1 & Hb1) & Hs).
    { destruct r; [by apply run_read_refines|by apply run_write_refines|
        by apply run_erase_refines]. }
    destruct (IH c1 Hok1 Ha1) as (xs & c2 & Hxs & (Hok2 & Ha2 & Hn2 & Hb2) & Hss).
    exists (x :: xs), c2. simpl. rewrite Hx. simpl. rewrite Hxs. simpl.
    split; [done|]. split; [unfold keeps; split_and!; congruence|].
    econstructor; [done|]. by rewrite <- Hn1, <- Hb1.
Qed.

End Session.

#[export] Hint Resolve view_ext_refl : ts.
