(* ===== verification/BlockDevice.v ===== *)
(** * components/service/block_storage/block_store/device: RAM and null devices

    block_device.c is the part shared by all devices with a single partition,
    ram_block_store.c keeps the blocks in heap memory, null_block_store.c
    accepts and discards. *)
From S2P Require Import Prelude Status StoragePartition BlockStore.

(** [base_block_store] is the published interface, a field of the store itself. *)
Record block_device := BlockDevice { storage_partition_of : storage_partition }.

Definition BLOCK_DEVICE_PARTITION_HANDLE : Z := 0.

Definition block_device_check_access_permitted (d : block_device) (client_id handle : Z)
    : option Z :=
  if negb (handle =? BLOCK_DEVICE_PARTITION_HANDLE) then Some PSA_ERROR_INVALID_ARGUMENT
  else
    permitted ← storage_partition_is_access_permitted (storage_partition_of d) client_id;
    Some (if negb permitted then PSA_ERROR_NOT_PERMITTED else PSA_SUCCESS).

Definition block_device_get_partition_info (d : block_device) (guid : bytes)
    (info : storage_partition_info) : Z * storage_partition_info :=
  let p := storage_partition_of d in
  if storage_partition_is_guid_matched p guid then
    (PSA_SUCCESS, Info (sp_num_blocks p) (sp_block_size p) (sp_partition_guid p) (fill 0 16))
  else (PSA_ERROR_INVALID_ARGUMENT, info).

Definition block_device_open (d : block_device) (client_id : Z) (guid : bytes) (handle : Z)
    : option (Z * Z * block_device) :=
  if storage_partition_is_guid_matched (storage_partition_of d) guid then
    '(permitted, p) ←
      storage_partition_is_open_permitted (storage_partition_of d) client_id None;
    if (permitted : bool) then Some (PSA_SUCCESS, BLOCK_DEVICE_PARTITION_HANDLE, BlockDevice p)
    else Some (PSA_ERROR_NOT_PERMITTED, handle, BlockDevice p)
  else Some (PSA_ERROR_NOT_PERMITTED, handle, d).

Definition block_device_close (d : block_device) (client_id handle : Z) : option Z :=
  block_device_check_access_permitted d client_id handle.

Definition block_device_init (disk_guid : option bytes) (num_blocks block_size : Z)
    : block_device :=
  BlockDevice (storage_partition_init disk_guid num_blocks block_size).

Definition block_device_deinit : block_device := BlockDevice storage_partition_deinit.

Definition block_device_configure (disk_guid : option bytes) (num_blocks block_size : Z)
    : block_device :=
  BlockDevice (storage_partition_init disk_guid num_blocks block_size).

(** ** RAM block store

    [ram_back_store] is the heap block; [None] once freed. *)
Record ram_block_store := Ram {
  ram_device : block_device;
  ram_back_store : option bytes
}.

Definition ram_partition (r : ram_block_store) : storage_partition :=
  storage_partition_of (ram_device r).

Definition RAM_BLOCK_STORE_ERASED_VALUE : Z := 255.

Definition ram_block_store_get_partition_info (r : ram_block_store) (guid : bytes)
    (info : storage_partition_info) : option (Z * storage_partition_info * ram_block_store) :=
  let '(st, info) := block_device_get_partition_info (ram_device r) guid info in
  Some (st, info, r).

Definition ram_block_store_open (r : ram_block_store) (client_id : Z) (guid : bytes)
    (handle : Z) : option (Z * Z * ram_block_store) :=
  '(st, handle, d) ← block_device_open (ram_device r) client_id guid handle;
  Some (st, handle, Ram d (ram_back_store r)).

Definition ram_block_store_close (r : ram_block_store) (client_id handle : Z)
    : option (Z * ram_block_store) :=
  st ← block_device_close (ram_device r) client_id handle; Some (st, r).

Definition ram_block_store_read (r : ram_block_store)
    (client_id handle lba offset buffer_size : Z) (buffer : bytes) (data_len : Z)
    : option (Z * bytes * Z * ram_block_store) :=
  status ← block_device_check_access_permitted (ram_device r) client_id handle;
  if status =? PSA_SUCCESS then
    let p := ram_partition r in
    if storage_partition_is_lba_legal p lba && (offset <? sp_block_size p) then
      let bytes_remaining := sp_block_size p - offset in
      let bytes_to_read := if buffer_size <? bytes_remaining then buffer_size
                           else bytes_remaining in
      m ← ram_back_store r;
      d ← load m (u64 (lba * sp_block_size p) + offset) bytes_to_read;
      buffer ← store buffer 0 d;
      Some (status, buffer, bytes_to_read, r)
    else Some (PSA_ERROR_INVALID_ARGUMENT, buffer, data_len, r)
  else Some (status, buffer, data_len, r).

Definition ram_block_store_write (r : ram_block_store)
    (client_id handle lba offset : Z) (data : bytes) (data_len num_written : Z)
    : option (Z * Z * ram_block_store) :=
  status ← block_device_check_access_permitted (ram_device r) client_id handle;
  if status =? PSA_SUCCESS then
    let p := ram_partition r in
    if storage_partition_is_lba_legal p lba && (offset <? sp_block_size p) then
      let bytes_remaining := sp_block_size p - offset in
      let bytes_to_write := if data_len <? bytes_remaining then data_len
                            else bytes_remaining in
      m ← ram_back_store r;
      d ← load data 0 bytes_to_write;
      m ← store m (u64 (lba * sp_block_size p) + offset) d;
      Some (status, bytes_to_write, Ram (ram_device r) (Some m))
    else Some (PSA_ERROR_INVALID_ARGUMENT, num_written, r)
  else Some (status, num_written, r).

Definition ram_block_store_erase (r : ram_block_store)
    (client_id handle begin_lba num_blocks : Z) : option (Z * ram_block_store) :=
  status ← block_device_check_access_permitted (ram_device r) client_id handle;
  let p := ram_partition r in
  let status := if (status =? PSA_SUCCESS) && negb (storage_partition_is_lba_legal p begin_lba)
                then PSA_ERROR_INVALID_ARGUMENT else status in
  if status =? PSA_SUCCESS then
    let blocks_to_erase := storage_partition_clip_num_blocks p begin_lba num_blocks in
    let erase_len := u64 (blocks_to_erase * sp_block_size p) in
    m ← ram_back_store r;
    m ← store m (u64 (begin_lba * sp_block_size p))
          (fill RAM_BLOCK_STORE_ERASED_VALUE erase_len);
    Some (status, Ram (ram_device r) (Some m))
  else Some (status, r).

Definition ram_block_store_interface : block_store_interface ram_block_store :=
  Interface ram_block_store_get_partition_info ram_block_store_open ram_block_store_close
    ram_block_store_read ram_block_store_write ram_block_store_erase.

(** [malloc_ok] tells whether malloc returned a block; [None] is a NULL return. *)
Definition ram_block_store_init (malloc_ok : bool) (disk_guid : option bytes)
    (num_blocks block_size : Z) : option (block_store ram_block_store) :=
  let back_store_size := u64 (num_blocks * block_size) in
  if malloc_ok then
    Some (BlockStore
      (Ram (block_device_init disk_guid num_blocks block_size)
           (Some (fill RAM_BLOCK_STORE_ERASED_VALUE back_store_size)))
      (Some ram_block_store_interface))
  else None.

Definition ram_block_store_deinit (r : ram_block_store) : ram_block_store :=
  Ram block_device_deinit None.

Definition ram_block_store_modify (r : ram_block_store) (offset : Z) (data : bytes)
    (data_len : Z) : option (Z * ram_block_store) :=
  let p := ram_partition r in
  let back_store_size := u64 (sp_block_size p * sp_num_blocks p) in
  if offset <? back_store_size then
    let write_len := if u64 (offset + data_len) <? back_store_size then data_len
                     else back_store_size - offset in
    m ← ram_back_store r;
    d ← load data 0 write_len;
    m ← store m offset d;
    Some (PSA_SUCCESS, Ram (ram_device r) (Some m))
  else Some (PSA_ERROR_INVALID_ARGUMENT, r).

(** ** Null block store *)
Record null_block_store := Null { null_device : block_device }.

Definition null_block_store_get_partition_info (n : null_block_store) (guid : bytes)
    (info : storage_partition_info) : option (Z * storage_partition_info * null_block_store) :=
  let '(st, info) := block_device_get_partition_info (null_device n) guid info in
  Some (st, info, n).

Definition null_block_store_open (n : null_block_store) (client_id : Z) (guid : bytes)
    (handle : Z) : option (Z * Z * null_block_store) :=
  '(st, handle, d) ← block_device_open (null_device n) client_id guid handle;
  Some (st, handle, Null d).

Definition null_block_store_close (n : null_block_store) (client_id handle : Z)
    : option (Z * null_block_store) :=
  st ← block_device_close (null_device n) client_id handle; Some (st, n).

Definition null_block_store_read (n : null_block_store)
    (client_id handle lba offset buffer_size : Z) (buffer : bytes) (data_len : Z)
    : option (Z * bytes * Z * null_block_store) :=
  status ← block_device_check_access_permitted (null_device n) client_id handle;
  if status =? PSA_SUCCESS then
    let p := storage_partition_of (null_device n) in
    if storage_partition_is_lba_legal p lba && (offset <? sp_block_size p) then
      let bytes_remaining := sp_block_size p - offset in
      let bytes_to_read := if buffer_size <? bytes_remaining then buffer_size
                           else bytes_remaining in
      buffer ← store buffer 0 (fill 0 bytes_to_read);
      Some (status, buffer, bytes_to_read, n)
    else Some (PSA_ERROR_INVALID_ARGUMENT, buffer, data_len, n)
  else Some (status, buffer, data_len, n).

Definition null_block_store_write (n : null_block_store)
    (client_id handle lba offset : Z) (data : bytes) (data_len num_written : Z)
    : option (Z * Z * null_block_store) :=
  status ← block_device_check_access_permitted (null_device n) client_id handle;
  if status =? PSA_SUCCESS then
    let p := storage_partition_of (null_device n) in
    if storage_partition_is_lba_legal p lba && (offset <? sp_block_size p) then
      let bytes_remaining := sp_block_size p - offset in
      let bytes_to_write := if data_len <? bytes_remaining then data_len
                            else bytes_remaining in
      Some (status, bytes_to_write, n)
    else Some (PSA_ERROR_INVALID_ARGUMENT, num_written, n)
  else Some (status, num_written, n).

Definition null_block_store_erase (n : null_block_store)
    (client_id handle begin_lba num_blocks : Z) : option (Z * null_block_store) :=
  status ← block_device_check_access_permitted (null_device n) client_id handle;
  let p := storage_partition_of (null_device n) in
  Some (if (status =? PSA_SUCCESS) && negb (storage_partition_is_lba_legal p begin_lba)
        then PSA_ERROR_INVALID_ARGUMENT else status, n).

Definition null_block_store_interface : block_store_interface null_block_store :=
  Interface null_block_store_get_partition_info null_block_store_open null_block_store_close
    null_block_store_read null_block_store_write null_block_store_erase.

Definition null_block_store_init (disk_guid : option bytes) (num_blocks block_size : Z)
    : block_store null_block_store :=
  BlockStore (Null (block_device_init disk_guid num_blocks block_size))
    (Some null_block_store_interface).

Definition null_block_store_deinit : null_block_store := Null block_device_deinit.

(** ** The abstract view of a RAM store *)
Definition ram_ok (r : ram_block_store) : Prop :=
  let p := ram_partition r in
  acl_wf (sp_acl p) /\ fits 64 (sp_num_blocks p) /\ fits 64 (sp_block_size p) /\
  sp_num_blocks p * sp_block_size p < 2 ^ 64 /\
  exists m, ram_back_store r = Some m /\ len m = sp_num_blocks p * sp_block_size p.

Definition ram_view : store_view ram_block_store := {|
  v_ok := ram_ok;
  v_access r client h :=
    h = BLOCK_DEVICE_PARTITION_HANDLE /\ acl_permits (sp_acl (ram_partition r)) client;
  v_nblocks r _ := sp_num_blocks (ram_partition r);
  v_bsize r _ := sp_block_size (ram_partition r);
  v_data r _ := default [] (ram_back_store r);
  v_described r guid nb bs :=
    sp_partition_guid (ram_partition r) = guid /\
    sp_num_blocks (ram_partition r) = nb /\ sp_block_size (ram_partition r) = bs
|}.

(** ** Operations of several clients on one device *)
Inductive device_op :=
  | DevOpen (client_id : Z) (guid : bytes)
  | DevClose (client_id handle : Z)
  | DevRequest (client_id handle : Z) (r : request).

Definition op_client (o : device_op) : Z :=
  match o with DevOpen c _ | DevClose c _ | DevRequest c _ _ => c end.

(** The outcome of an operation: did it succeed. *)
Definition ram_device_op (r : ram_block_store) (o : device_op) : option (bool * ram_block_store) :=
  match o with
  | DevOpen c g =>
      '(st, _, r) ← ram_block_store_open r c g 0; Some (st =? PSA_SUCCESS, r)
  | DevClose c h => '(st, r) ← ram_block_store_close r c h; Some (st =? PSA_SUCCESS, r)
  | DevRequest c h q =>
      '(x, r) ← run_request ram_block_store_interface c h r q;
      Some (match x with
            | Data o => bool_decide (is_Some o) | Written o => bool_decide (is_Some o)
            | Erased b => b end, r)
  end.

Fixpoint ram_device_run (r : ram_block_store) (os : list device_op)
    : option (list bool * ram_block_store) :=
  match os with
  | [] => Some ([], r)
  | o :: os =>
      '(b, r) ← ram_device_op r o;
      '(bs, r) ← ram_device_run r os;
      Some (b :: bs, r)
  end.

Definition device_op_wf (o : device_op) : Prop :=
  match o with
  | DevRequest _ h q => 0 <= h /\ request_wf q
  | _ => True
  end.

(** ** The shared device operations *)

Lemma check_access_spec d client h :
  acl_wf (sp_acl (storage_partition_of d)) ->
  exists st, block_device_check_access_permitted d client h = Some st /\
    (st = PSA_SUCCESS <->
     h = BLOCK_DEVICE_PARTITION_HANDLE /\ acl_permits (sp_acl (storage_partition_of d)) client).
Proof.
  intros Hwf. unfold block_device_check_access_permitted, storage_partition_is_access_permitted.
  destruct (Z.eqb_spec h BLOCK_DEVICE_PARTITION_HANDLE) as [->|Hne]; simpl.
  - destruct (acl_check_spec (sp_acl (storage_partition_of d)) client Hwf) as (b & Hb & Hiff).
    rewrite Hb. simpl. eexists. split; [done|]. destruct b; simpl; [tauto|].
    split; [done|]. intros [_ ?%Hiff]. done.
  - eexists. split; [done|]. split; [done|]. tauto.
Qed.

Lemma ram_check_access r client h :
  ram_ok r ->
  exists st, block_device_check_access_permitted (ram_device r) client h = Some st /\
    (st = PSA_SUCCESS <-> v_access ram_view r client h).
Proof. intros (Hwf & _). by apply check_access_spec. Qed.

(** The position of a legal request lies in the heap block, without overflow. *)
Lemma block_position nb bs lba offset n :
  fits 64 bs -> nb * bs < 2 ^ 64 -> 0 <= lba < nb -> 0 <= offset -> 0 <= n -> offset + n <= bs ->
  u64 (lba * bs) = lba * bs /\ 0 <= lba * bs + offset /\ lba * bs + offset + n <= nb * bs.
Proof.
  unfold fits. intros. assert (lba * bs + bs <= nb * bs) by nia.
  assert (0 <= lba * bs) by nia. rewrite wrap_small by lia. lia.
Qed.

Lemma ram_upd_view r m m' :
  ram_ok r -> ram_back_store r = Some m -> len m' = len m ->
  view_upd ram_view r 0 m' (Ram (ram_device r) (Some m')).
Proof.
  intros (Hwf & Hf1 & Hf2 & Hs & m0 & Hm & Hl) Hm1 Hlen. simplify_eq.
  split; [|by split]. split; [done|]. split; [done|]. split; [done|]. split; [done|].
  exists m'. split; [done|]. unfold ram_partition in *. simpl. lia.
Qed.

Lemma ram_read_law r client h lba offset n buf dl :
  ram_ok r -> 0 <= lba -> 0 <= offset -> 0 <= n <= len buf ->
  exists st buf' dl',
    ram_block_store_read r client h lba offset n buf dl = Some (st, buf', dl', r) /\
    ((st = PSA_SUCCESS /\ in_range ram_view r client h lba offset /\
      dl' = Z.min n (v_bsize ram_view r h - offset) /\
      exists d, load (v_data ram_view r h) (lba * v_bsize ram_view r h + offset) dl' = Some d /\
        store buf 0 d = Some buf')
     \/ (st <> PSA_SUCCESS /\ ~ in_range ram_view r client h lba offset /\
         buf' = buf /\ dl' = dl)).
Proof.
  intros Hok Hlba Hoff Hn. unfold ram_block_store_read.
  destruct (ram_check_access r client h Hok) as (st & Hst & Hacc). rewrite Hst. simpl.
  destruct Hok as (Hwf & Hf1 & Hf2 & Hs & m & Hm & Hl).
  destruct (Z.eqb_spec st PSA_SUCCESS) as [Heq|Hne].
  2:{ eexists _, _, _. split; [done|]. right. unfold in_range. tauto. }
  unfold storage_partition_is_lba_legal.
  destruct (Z.ltb_spec lba (sp_num_blocks (ram_partition r))) as [Hlt|Hge];
    destruct (Z.ltb_spec offset (sp_block_size (ram_partition r))) as [Hlt2|Hge2]; simpl.
  2-4: eexists _, _, _; split; [done|]; right; split; [done|]; split; [|done];
    intros (_ & Hx & Hy); simpl in Hx, Hy; lia.
  set (k := if n <? _ then n else _).
  assert (k = Z.min n (sp_block_size (ram_partition r) - offset)) as Hk
    by (subst k; case_match; lia).
  destruct (block_position (sp_num_blocks (ram_partition r)) (sp_block_size (ram_partition r))
    lba offset k) as (Hu & Hp1 & Hp2); [done|done|lia|lia|lia|lia|].
  rewrite Hm. simpl. rewrite Hu, load_ok by lia. simpl.
  set (d := take _ _). assert (len d = k) as Hd.
  { subst d. eapply (load_len m (lba * sp_block_size (ram_partition r) + offset)).
    by rewrite load_ok by lia. }
  destruct (store_ok buf 0 d) as [buf' Hb]; [lia|lia|]. rewrite Hb. simpl.
  eexists _, _, _. split; [done|]. left. split; [done|]. split; [split; [tauto|done]|].
  split; [done|]. exists d. split; [|done]. by rewrite load_ok by lia.
Qed.

Lemma ram_write_law r client h lba offset data n nw :
  ram_ok r -> 0 <= lba -> 0 <= offset -> 0 <= n <= len data ->
  exists st nw' r',
    ram_block_store_write r client h lba offset data n nw = Some (st, nw', r') /\
    ((st = PSA_SUCCESS /\ in_range ram_view r client h lba offset /\
      nw' = Z.min n (v_bsize ram_view r h - offset) /\
      exists d', store (v_data ram_view r h) (lba * v_bsize ram_view r h + offset)
                   (take (Z.to_nat nw') data) = Some d' /\
        view_upd ram_view r h d' r')
     \/ (st <> PSA_SUCCESS /\ ~ in_range ram_view r client h lba offset /\ nw' = nw /\ r' = r)).
Proof.
  intros Hok Hlba Hoff Hn. unfold ram_block_store_write.
  destruct (ram_check_access r client h Hok) as (st & Hst & Hacc). rewrite Hst. simpl.
  pose proof Hok as (Hwf & Hf1 & Hf2 & Hs & m & Hm & Hl).
  destruct (Z.eqb_spec st PSA_SUCCESS) as [Heq|Hne].
  2:{ eexists _, _, _. split; [done|]. right. unfold in_range. tauto. }
  unfold storage_partition_is_lba_legal.
  destruct (Z.ltb_spec lba (sp_num_blocks (ram_partition r))) as [Hlt|Hge];
    destruct (Z.ltb_spec offset (sp_block_size (ram_partition r))) as [Hlt2|Hge2]; simpl.
  2-4: eexists _, _, _; split; [done|]; right; split; [done|]; split; [|done];
    intros (_ & Hx & Hy); simpl in Hx, Hy; lia.
  set (k := if n <? _ then n else _).
  assert (k = Z.min n (sp_block_size (ram_partition r) - offset)) as Hk
    by (subst k; case_match; lia).
  destruct (block_position (sp_num_blocks (ram_partition r)) (sp_block_size (ram_partition r))
    lba offset k) as (Hu & Hp1 & Hp2); [done|done|lia|lia|lia|lia|].
  rewrite Hm. simpl. rewrite Hu, load_ok by lia. simpl. rewrite drop_0.
  assert (len (take (Z.to_nat k) data) = k) as Hd by (unfold len in *; rewrite length_take; lia).
  destruct (store_ok m (lba * sp_block_size (ram_partition r) + offset)
    (take (Z.to_nat k) data)) as [m' Hb]; [lia|lia|]. rewrite Hb. simpl.
  eexists _, _, _. split; [done|]. left. split; [done|]. split; [split; [tauto|done]|].
  split; [done|]. exists m'. split; [done|].
  apply Hacc in Heq as [-> _]. eapply ram_upd_view; [done|done|]. by eapply store_len.
Qed.

Lemma ram_erase_law r client h lba n :
  ram_ok r -> 0 <= lba -> 0 <= n ->
  exists st r',
    ram_block_store_erase r client h lba n = Some (st, r') /\
    ((st = PSA_SUCCESS /\ v_access ram_view r client h /\ lba < v_nblocks ram_view r h /\
      exists d', let k := Z.min n (v_nblocks ram_view r h - lba) * v_bsize ram_view r h in
        0 <= k /\ store (v_data ram_view r h) (lba * v_bsize ram_view r h)
          (fill RAM_BLOCK_STORE_ERASED_VALUE k) = Some d' /\ view_upd ram_view r h d' r')
     \/ (st <> PSA_SUCCESS /\
         ~ (v_access ram_view r client h /\ lba < v_nblocks ram_view r h) /\ r' = r)).
Proof.
  intros Hok Hlba Hn. unfold ram_block_store_erase.
  destruct (ram_check_access r client h Hok) as (st & Hst & Hacc). rewrite Hst. simpl.
  pose proof Hok as (Hwf & Hf1 & Hf2 & Hs & m & Hm & Hl).
  destruct (Z.eqb_spec st PSA_SUCCESS) as [Heq|Hne]; simpl.
  2:{ destruct (Z.eqb_spec st PSA_SUCCESS); [done|].
      eexists _, _. split; [done|]. right. split; [done|]. split; [|done].
      intros [Hx _]. by apply Hne, Hacc. }
  unfold storage_partition_is_lba_legal.
  destruct (Z.ltb_spec lba (sp_num_blocks (ram_partition r))) as [Hlt|Hge]; simpl.
  2:{ eexists _, _. split; [done|]. right. split; [done|]. split; [|done].
      intros (_ & Hx). simpl in Hx. lia. }
  subst st. simpl. rewrite clip_num_blocks_spec by lia.
  set (k := Z.min n _ * _).
  assert (0 <= k /\ 0 <= lba * sp_block_size (ram_partition r) /\
    lba * sp_block_size (ram_partition r) + k <=
    sp_num_blocks (ram_partition r) * sp_block_size (ram_partition r)) as (Hk & Hk1 & Hk2).
  { subst k. unfold fits in *. split; [nia|]. split; [nia|]. rewrite <- Z.mul_add_distr_r.
    apply Z.mul_le_mono_nonneg_r; lia. }
  rewrite !wrap_small by lia. rewrite Hm. simpl.
  pose proof (len_fill RAM_BLOCK_STORE_ERASED_VALUE k Hk) as Hlf.
  destruct (store_ok m (lba * sp_block_size (ram_partition r))
    (fill RAM_BLOCK_STORE_ERASED_VALUE k)) as [m' Hb]; [lia|lia|]. rewrite Hb. simpl.
  destruct (proj1 Hacc eq_refl) as [-> ?].
  eexists _, _. split; [done|]. left. split; [done|]. split; [done|]. split; [done|].
  exists m'. split; [done|]. split; [done|].
  eapply ram_upd_view; [done|done|]. by eapply store_len.
Qed.

Lemma ram_open_law r client guid h0 :
  ram_ok r -> exists st h r', ram_block_store_open r client guid h0 = Some (st, h, r') /\
    view_ext ram_view r r' /\
    (ram_back_store r' = ram_back_store r /\
     sp_num_blocks (ram_partition r') = sp_num_blocks (ram_partition r) /\
     sp_block_size (ram_partition r') = sp_block_size (ram_partition r)) /\
    (st <> PSA_SUCCESS -> r' = r) /\
    (st = PSA_SUCCESS -> v_access ram_view r' client h /\
      sp_partition_guid (ram_partition r) = guid /\
      (acl_permits (sp_acl (ram_partition r)) client \/
       allowlist_len (sp_acl (ram_partition r)) = 0)) /\
    (acl_permits (sp_acl (ram_partition r)) client -> r' = r).
Proof.
  intros Hok. pose proof Hok as (Hwf & Hf1 & Hf2 & Hs & m & Hm & Hl).
  unfold ram_block_store_open, block_device_open, storage_partition_is_guid_matched.
  destruct (bytes_eqb _ guid) eqn:Hg; simpl.
  2:{ exists PSA_ERROR_NOT_PERMITTED, h0, r. split; [by destruct r|].
      split; [by apply view_ext_refl|]. done. }
  apply bytes_eqb_eq in Hg. unfold storage_partition_is_open_permitted.
  destruct (acl_authorize_spec (sp_acl (ram_partition r)) client None Hwf)
    as (b & a' & Ha & Hwf' & _ & Ht & Hf & Hmono & Hback & Hyes & Hnone).
  unfold ram_partition in Ha. rewrite Ha. simpl.
  assert (view_ext ram_view r
    (Ram (BlockDevice (set_acl (ram_partition r) a')) (ram_back_store r))) as Hext.
  { split; [|intros c h [-> Hp]; repeat split; auto; by apply Hmono].
    split; [done|]. split; [done|]. split; [done|]. split; [done|]. by exists m. }
  assert (acl_permits (sp_acl (ram_partition r)) client -> a' = sp_acl (ram_partition r)) as Hid.
  { intros Hp. unfold storage_partition_acl_authorize in Ha.
    change (sp_acl (storage_partition_of (ram_device r))) with (sp_acl (ram_partition r)) in Ha.
    rewrite (acl_check_true _ _ Hwf Hp) in Ha. simpl in Ha. by simplify_eq. }
  assert (a' = sp_acl (ram_partition r) ->
    Ram (BlockDevice (set_acl (ram_partition r) a')) (ram_back_store r) = r) as Hr.
  { intros ->. by destruct r as [[[]] ?]. }
  destruct b; eexists _, _, _; (split; [done|]).
  - split; [done|]. split; [done|]. split; [done|]. split; [|auto].
    intros _. split; [split; [done|by apply Ht]|]. split; [done|].
    destruct (Hnone eq_refl) as [?|[?|?]]; [by left|by right|done].
  - split; [done|]. split; [done|]. split; [|split; [done|auto]]. intros _. auto.
Qed.

#[export] Instance ram_block_store_laws : BlockStoreLaws ram_block_store_interface ram_view.
Proof.
  split; simpl.
  - intros r client h (Hwf & Hf1 & Hf2 & Hs & m & -> & Hl) _. done.
  - intros. destruct (ram_read_law c client h lba offset n buf dl) as (st & b' & dl' & Hr & Hc);
      [done..|]. exists st, b', dl', c. split; [done|]. split; [auto with ts|done].
  - intros. destruct (ram_write_law c client h lba offset data n nw)
      as (st & nw' & r' & Hr & Hc); [done..|]. exists st, nw', r'. split; [done|].
    destruct Hc as [?|(?&?&?&->)]; [by left|right; auto with ts].
  - intros. destruct (ram_erase_law c client h lba n) as (st & r' & Hr & Hc); [done..|].
    exists st, r'. split; [done|].
    destruct Hc as [(?&?&?&d'&?&?&?)|(?&?&->)]; [left|right; auto with ts].
    split; [done|]. split; [done|]. split; [done|]. eexists _, d'.
    split; [|done]. by rewrite len_fill.
  - intros. destruct (ram_open_law c client guid h0) as (st & h & r' & Ho & Hext & Hgeo & _ & Hs & _);
      [done|]. exists st, h, r'. split; [done|]. split; [done|]. intros Hst.
    destruct (Hs Hst) as ([-> Ha] & Hg & _). split; [done|]. split; [done|]. intros nb bs (_ & <- & <-).
    by destruct Hgeo as (_ & -> & ->).
  - intros c guid info0 Hok. unfold ram_block_store_get_partition_info,
      block_device_get_partition_info, storage_partition_is_guid_matched.
    destruct (bytes_eqb _ guid) eqn:Hg; eexists _, _, _; (split; [done|]);
      (split; [by apply view_ext_refl|]); [|done].
    apply bytes_eqb_eq in Hg. done.
  - intros c client h Hok Hh. unfold ram_block_store_close, block_device_close.
    destruct (ram_check_access c client h Hok) as (st & -> & Hiff). simpl.
    eexists _, _. split; [done|]. split; [by apply view_ext_refl|]. done.
Qed.

(** ** Exclusive ownership of a device *)

(** With a one-slot list, a listed client is the only one. *)
Lemma acl_permits_unique a client client' :
  acl_wf a -> acl_permits a client -> acl_permits a client' -> client' = client.
Proof.
  intros (_ & _ & Hl) (i & Hi & Hc) (j & Hj & Hc').
  unfold STORAGE_PARTITION_ACL_ALLOWLIST_LEN in Hl.
  replace j with i in Hc' by lia. congruence.
Qed.

Definition ram_owned (owner : Z) (r : ram_block_store) : Prop :=
  ram_ok r /\ acl_permits (sp_acl (ram_partition r)) owner.

Lemma ram_other_no_access owner r client h :
  ram_owned owner r -> client <> owner -> ~ v_access ram_view r client h.
Proof. intros [Hok Ho] Hne [_ Hp]. apply Hne. apply proj1 in Hok. by eapply acl_permits_unique. Qed.

(** Another client's operation fails and changes nothing. *)
Lemma ram_other_refused owner r o :
  ram_owned owner r -> device_op_wf o -> op_client o <> owner ->
  ram_device_op r o = Some (false, r).
Proof.
  intros Ho Hwf Hne. pose proof (ram_other_no_access owner r (op_client o)) as Hna.
  pose proof Ho as [Hok Hown].
  destruct o as [c g|c h|c h [lba off n|lba off d|lba n]]; simpl in *.
  - destruct (ram_open_law r c g 0) as (st & h & r' & -> & _ & _ & Hf & Hs & _); [done|]. simpl.
    destruct (Z.eqb_spec st PSA_SUCCESS) as [->|]; [|by rewrite Hf].
    destruct (Hs eq_refl) as (_ & _ & [Hp|Hz]).
    + exfalso. apply (Hna 0); [done..|]. by split.
    + destruct Hown as (i & Hi & _). lia.
  - unfold ram_block_store_close, block_device_close.
    destruct (ram_check_access r c h Hok) as (st & -> & Hiff). simpl.
    destruct (Z.eqb_spec st PSA_SUCCESS) as [He|]; [|done].
    apply Hiff in He. by destruct (Hna h).
  - destruct Hwf as (Hh & Hl & Hf & Hn).
    destruct (ram_read_law r c h lba off n (fill 0 n) 0) as (st & b & dl & -> & Hc);
      [done..|by rewrite len_fill|]. simpl.
    destruct Hc as [(_ & [Ha _] & _)|(Hst & _)]; [by destruct (Hna h)|].
    by destruct (Z.eqb_spec st PSA_SUCCESS).
  - destruct Hwf as (Hh & Hl & Hf).
    destruct (ram_write_law r c h lba off d (len d) 0) as (st & nw & r' & -> & Hc);
      [done..|split; [apply len_nonneg|done]|]. simpl.
    destruct Hc as [(_ & [Ha _] & _)|(Hst & _ & _ & ->)]; [by destruct (Hna h)|].
    by destruct (Z.eqb_spec st PSA_SUCCESS).
  - destruct Hwf as (Hh & Hl & Hn).
    destruct (ram_erase_law r c h lba n) as (st & r' & -> & Hc); [done..|]. simpl.
    destruct Hc as [(_ & Ha & _)|(Hst & _ & ->)]; [by destruct (Hna h)|].
    by destruct (Z.eqb_spec st PSA_SUCCESS).
Qed.

(** The owner's operations return, and the owner stays the owner. *)
Lemma ram_owner_step owner r o :
  ram_owned owner r -> device_op_wf o -> op_client o = owner ->
  exists b r', ram_device_op r o = Some (b, r') /\ ram_owned owner r'.
Proof.
  intros Ho Hwf He. pose proof Ho as [Hok Hown].
  assert (forall r', view_ext ram_view r r' -> ram_owned owner r') as Hext.
  { intros r' [Hok' Hx]. destruct (Hx owner 0) as ([_ ?] & _); [by split|]. by split. }
  destruct o as [c g|c h|c h q]; simpl in *; subst c.
  - destruct (ram_open_law r owner g 0) as (st & h & r' & -> & Hx & _); [done|]. simpl. eauto.
  - unfold ram_block_store_close, block_device_close.
    destruct (ram_check_access r owner h Hok) as (st & -> & _). simpl. eauto.
  - destruct Hwf as [Hh Hq].
    assert (exists x r', run_request ram_block_store_interface owner h r q = Some (x, r') /\
      ram_owned owner r') as (x & r' & -> & Hr); [|simpl; eauto].
    destruct q as [lba off n|lba off d|lba n]; simpl in *.
    + destruct Hq as (? & ? & ?).
      destruct (ram_read_law r owner h lba off n (fill 0 n) 0) as (st & b & dl & -> & Hc);
        [done..|by rewrite len_fill|]. simpl.
      destruct Hc as [(-> & _ & Hdl & d & Hl & Hs)|(Hst & _ & -> & ->)].
      * apply load_store_same in Hs as Hls. rewrite (load_len _ _ _ _ Hl) in Hls.
        simpl. rewrite Hls. simpl. eauto.
      * destruct (Z.eqb_spec st PSA_SUCCESS); [done|]. eauto.
    + destruct Hq as (? & ?).
      destruct (ram_write_law r owner h lba off d (len d) 0) as (st & nw & r' & -> & Hc);
        [done..|split; [apply len_nonneg|done]|]. simpl.
      destruct Hc as [(_ & _ & _ & d' & _ & Hok' & _ & Hx)|(_ & _ & _ & ->)]; [|eauto].
      eexists _, _. split; [done|]. destruct (Hx owner 0) as ([_ ?] & _); [by split|]. by split.
    + destruct Hq as (? & ?).
      destruct (ram_erase_law r owner h lba n) as (st & r' & -> & Hc); [done..|]. simpl.
      destruct Hc as [(_ & _ & _ & d' & _ & _ & Hok' & _ & Hx)|(_ & _ & ->)]; [|eauto].
      eexists _, _. split; [done|]. destruct (Hx owner 0) as ([_ ?] & _); [by split|]. by split.
Qed.

(** ** Properties of the devices *)

(** C20: a RAM block store refines an array of blocks: on a freshly initialised
    store the first client to open it succeeds, and every sequence of its read,
    write and erase requests returns (no access outside the heap block, no
    overflow) with the replies and the final contents of the abstract store
    that starts erased. *)
Theorem ram_block_store_session guid nb bs client rs :
  fits 64 nb -> fits 64 bs -> nb * bs < 2 ^ 64 -> Forall request_wf rs ->
  exists b b1 xs r,
    ram_block_store_init true (Some guid) nb bs = Some b /\
    block_store_open b client guid 0 = Some (PSA_SUCCESS, 0, b1) /\
    run_requests ram_block_store_interface client 0 (bs_context b1) rs = Some (xs, r) /\
    spec_run nb bs (fill RAM_BLOCK_STORE_ERASED_VALUE (nb * bs)) rs xs
      (default [] (ram_back_store r)).
Proof.
  intros Hnb Hbs Hs Hrs. unfold fits in *. unfold ram_block_store_init.
  rewrite wrap_small by nia. eexists _. set (b := BlockStore _ _).
  assert (ram_ok (bs_context b)) as Hok.
  { split; [apply acl_init_wf|]. do 3 (split; [done|]). eexists. split; [done|].
    simpl. rewrite len_fill by nia. done. }
  destruct (ram_open_law (bs_context b) client guid 0 Hok)
    as (st & h & r1 & Ho & [Hok1 Hx] & (Hd & Hn1 & Hb1) & Hf & Hst & _).
  assert (st = PSA_SUCCESS /\ h = 0) as [-> ->].
  { unfold ram_block_store_open, block_device_open, storage_partition_is_guid_matched in Ho.
    simpl in Ho. unfold bytes_eqb in Ho. rewrite bool_decide_true in Ho by done.
    simpl in Ho. by simplify_eq. }
  destruct (Hst eq_refl) as (Ha & _).
  destruct (run_requests_refines ram_block_store_interface ram_view client 0 r1 rs)
    as (xs & r2 & Hrun & _ & Hspec); [done..|].
  exists (set_context b r1), xs, r2. split; [done|]. split.
  { unfold block_store_open. simpl. simpl in Ho. by rewrite Ho. }
  split; [done|]. simpl in Hspec. by rewrite Hd, Hn1, Hb1 in Hspec.
Qed.

Lemma ram_block_store_session_witness :
  exists b b1 xs r,
    ram_block_store_init true (Some (fill 7 16)) 2 4 = Some b /\
    block_store_open b 9 (fill 7 16) 0 = Some (PSA_SUCCESS, 0, b1) /\
    run_requests ram_block_store_interface 9 0 (bs_context b1)
      [Write 1 2 [5; 6; 8]; Read 1 0 10; Erase 0 5; Read 2 0 1] = Some (xs, r) /\
    spec_run 2 4 (fill RAM_BLOCK_STORE_ERASED_VALUE (2 * 4))
      [Write 1 2 [5; 6; 8]; Read 1 0 10; Erase 0 5; Read 2 0 1] xs
      (default [] (ram_back_store r)).
Proof.
  apply (ram_block_store_session (fill 7 16) 2 4 9); [done..|].
  repeat constructor; simpl; lia.
Defined.

(** Once a client owns a device, the operations of all other clients fail,
    and the final state is the one reached by the owner's operations alone: no
    interleaving of foreign opens, closes, reads, writes and erases has any
    effect. *)
Theorem ram_device_owner_noninterference owner r os :
  ram_owned owner r -> Forall device_op_wf os ->
  exists bs r' bs',
    ram_device_run r os = Some (bs, r') /\
    ram_device_run r (filter (fun o => op_client o = owner) os) = Some (bs', r') /\
    Forall2 (fun o b => op_client o <> owner -> b = false) os bs.
Proof.
  intros Ho Hwf. revert r Ho. induction Hwf as [|o os Hw Hos IH]; intros r Ho.
  - eexists [], _, []. split; [done|]. split; [done|]. constructor.
  - destruct (decide (op_client o = owner)) as [He|Hne].
    + destruct (ram_owner_step owner r o) as (b & r1 & Hop & Ho1); [done..|].
      destruct (IH r1 Ho1) as (bs & r' & bs' & H1 & H2 & H3).
      exists (b :: bs), r', (b :: bs'). rewrite filter_cons_True by done. simpl.
      rewrite Hop. simpl. rewrite H1, H2. split; [done|]. split; [done|]. by constructor.
    + destruct (IH r Ho) as (bs & r' & bs' & H1 & H2 & H3).
      exists (false :: bs), r', bs'. rewrite filter_cons_False by done. simpl.
      rewrite (ram_other_refused owner) by done. simpl. rewrite H1.
      split; [done|]. split; [done|]. by constructor.
Qed.

Lemma ram_device_owner_noninterference_witness :
  let r := Ram (BlockDevice (Partition (fill 7 16) 4 2 0
             (Acl (fill 0 40) 1 [9]))) (Some (fill 255 8)) in
  let os := [DevOpen 5 (fill 7 16); DevRequest 9 0 (Write 0 0 [1; 2]);
             DevRequest 5 0 (Write 0 0 [3; 4]); DevRequest 9 0 (Read 0 0 4)] in
  exists bs r' bs',
    ram_device_run r os = Some (bs, r') /\
    ram_device_run r (filter (fun o => op_client o = 9) os) = Some (bs', r') /\
    Forall2 (fun o b => op_client o <> 9 -> b = false) os bs.
Proof.
  apply (ram_device_owner_noninterference 9).
  - split; [|by exists 0]. split; [done|]. split; [done|]. split; [done|]. split; [done|].
    eexists. by split.
  - repeat constructor; simpl; lia.
Defined.

(** Ram_block_store_modify writes the data clipped to the end of the heap
    block when the end position fits a size_t, and accesses memory out of
    bounds when it wraps around. *)
Theorem ram_block_store_modify_bounds r m offset data data_len :
  ram_ok r -> ram_back_store r = Some m ->
  0 <= offset < len m -> 0 <= data_len <= len data -> fits 64 data_len ->
  (offset + data_len < 2 ^ 64 ->
   exists m', store m offset (take (Z.to_nat (Z.min data_len (len m - offset))) data) = Some m' /\
     ram_block_store_modify r offset data data_len = Some (PSA_SUCCESS, Ram (ram_device r) (Some m')))
  /\ (2 ^ 64 <= offset + data_len -> ram_block_store_modify r offset data data_len = None).
Proof.
  intros (_ & Hf1 & Hf2 & Hs & m0 & Hm & Hl) Hm1 Ho Hd Hdl.
  assert (m0 = m) by congruence. subst m0.
  unfold fits in *. unfold ram_block_store_modify. rewrite Z.mul_comm.
  rewrite (wrap_small 64 (sp_num_blocks _ * _)) by nia.
  destruct (Z.ltb_spec offset (sp_num_blocks (ram_partition r) * sp_block_size (ram_partition r)));
    [|lia]. rewrite Hm. simpl. split; intros He.
  - rewrite wrap_small by lia.
    assert ((if offset + data_len <? len m then data_len else len m - offset) =
      Z.min data_len (len m - offset)) as Hk by (case_match; lia).
    rewrite <- Hl, Hk. set (k := Z.min _ _).
    assert (0 <= k <= len data /\ offset + k <= len m) as Hk2 by (subst k; lia).
    rewrite load_ok by lia. simpl. rewrite drop_0.
    destruct (store_ok m offset (take (Z.to_nat k) data)) as [m' Hm']; [lia| |].
    { assert (len (take (Z.to_nat k) data) = k) by (unfold len in *; rewrite length_take; lia).
      lia. }
    rewrite Hm'. simpl. eauto.
  - assert (u64 (offset + data_len) = offset + data_len - 2 ^ 64) as Hw.
    { unfold wrap. rewrite <- (Z.mod_add _ (-1)) by lia. rewrite Z.mod_small; lia. }
    rewrite Hw. case_match; [|lia]. rewrite load_ok by lia. simpl. rewrite drop_0.
    unfold store. case_match; [|done]. bool_to_prop.
    assert (len (take (Z.to_nat data_len) data) = data_len)
      by (unfold len in *; rewrite length_take; lia). lia.
Qed.

Lemma ram_block_store_modify_bounds_witness :
  let r := Ram (BlockDevice (Partition (fill 7 16) 4 2 0
             (Acl (fill 0 40) 1 [9]))) (Some (fill 255 8)) in
  exists m', store (fill 255 8) 6 [1; 2] = Some m' /\
    ram_block_store_modify r 6 [1; 2; 3] 3 = Some (PSA_SUCCESS, Ram (ram_device r) (Some m')).
Proof.
  intros r. apply (ram_block_store_modify_bounds r (fill 255 8) 6 [1; 2; 3] 3); try done.
  split; [done|]. split; [done|]. split; [done|]. split; [done|]. eexists. by split.
Defined.
