(* ===== verification/PartitionedBlockStore.v ===== *)
(** * components/service/block_storage/block_store/partitioned

    partitioned_block_store.c stacks partitions on a back store reached through
    the block_store interface.  The back store is owned by the partitioned
    store.  A configuration listener is a function pointer (0 is NULL) whose
    code is the parameter [call_listener]; an authorizer is a pure function. *)
From S2P Require Import Prelude Status StoragePartition BlockStore BlockDevice.

Definition PARTITIONED_BLOCK_STORE_MAX_PARTITIONS : Z := 8.

Record partitioned_block_store (C : Type) := Partitioned {
  local_client_id : Z;
  authorizer : storage_partition_authorizer;
  config_listener : Z;
  num_partitions : Z;
  partitions : list storage_partition;
  back_store_handle : Z;
  back_store : block_store C;
  back_store_info : storage_partition_info
}.
Arguments Partitioned {C}.
Arguments local_client_id {C}.
Arguments authorizer {C}.
Arguments config_listener {C}.
Arguments num_partitions {C}.
Arguments partitions {C}.
Arguments back_store_handle {C}.
Arguments back_store {C}.
Arguments back_store_info {C}.

Section Partitioned.
Context {C : Type}.
Implicit Types p : partitioned_block_store C.

Definition set_partitions p (n : Z) (l : list storage_partition) : partitioned_block_store C :=
  Partitioned (local_client_id p) (authorizer p) (config_listener p) n l
    (back_store_handle p) (back_store p) (back_store_info p).

Definition set_back_store p (b : block_store C) : partitioned_block_store C :=
  Partitioned (local_client_id p) (authorizer p) (config_listener p) (num_partitions p)
    (partitions p) (back_store_handle p) b (back_store_info p).

Context (call_listener : Z -> partitioned_block_store C -> bytes -> storage_partition_info ->
                         option (bool * partitioned_block_store C)).

(** The search loop: the first of [n] partitions from index [i] with the GUID. *)
Fixpoint find_guid_loop (l : list storage_partition) (guid : bytes) (n : nat) (i : Z)
    : option (option Z) :=
  match n with
  | O => Some None
  | S n =>
      q ← nthZ l i;
      if storage_partition_is_guid_matched q guid then Some (Some i)
      else find_guid_loop l guid n (i + 1)
  end.

(** The do-while makes at most two passes: [try_again] is read before it is
    assigned, so a second pass never calls the listener.  The result is the
    status and the index out parameter. *)
Definition find_by_partition_guid p (guid : bytes) (index : Z)
    : option (Z * Z * partitioned_block_store C) :=
  found ← find_guid_loop (partitions p) guid (Z.to_nat (num_partitions p)) 0;
  match found with
  | Some i => Some (PSA_SUCCESS, i, p)
  | None =>
      if config_listener p =? 0 then Some (PSA_ERROR_INVALID_ARGUMENT, index, p)
      else
        '(try_again, p) ← call_listener (config_listener p) p guid (back_store_info p);
        if (try_again : bool) then
          found ← find_guid_loop (partitions p) guid (Z.to_nat (num_partitions p)) 0;
          match found with
          | Some i => Some (PSA_SUCCESS, i, p)
          | None => Some (PSA_ERROR_INVALID_ARGUMENT, index, p)
          end
        else Some (PSA_ERROR_INVALID_ARGUMENT, index, p)
  end.

(** The partition out parameter is set on success only. *)
Definition validate_partition_request p (client_id handle : Z)
    : option (Z * option storage_partition) :=
  if handle >=? PARTITIONED_BLOCK_STORE_MAX_PARTITIONS then
    Some (PSA_ERROR_INVALID_ARGUMENT, None)
  else
    q ← nthZ (partitions p) handle;
    permitted ← storage_partition_is_access_permitted q client_id;
    if negb permitted then Some (PSA_ERROR_NOT_PERMITTED, None)
    else Some (PSA_SUCCESS, Some q).

Definition partitioned_block_store_get_partition_info p (guid : bytes)
    (info : storage_partition_info)
    : option (Z * storage_partition_info * partitioned_block_store C) :=
  '(status, i, p) ← find_by_partition_guid p guid 0;
  if status =? PSA_SUCCESS then
    q ← nthZ (partitions p) i;
    Some (status, Info (sp_num_blocks q) (sp_block_size q) (sp_partition_guid q)
                       (info_partition_guid (back_store_info p)), p)
  else Some (status, info, p).

Definition partitioned_block_store_open p (client_id : Z) (guid : bytes) (handle : Z)
    : option (Z * Z * partitioned_block_store C) :=
  '(status, i, p) ← find_by_partition_guid p guid 0;
  if status =? PSA_SUCCESS then
    q ← nthZ (partitions p) i;
    '(permitted, q) ← storage_partition_is_open_permitted q client_id (authorizer p);
    l ← setZ (partitions p) i q;
    let p := set_partitions p (num_partitions p) l in
    if (permitted : bool) then Some (status, u32 i, p)
    else Some (PSA_ERROR_NOT_PERMITTED, handle, p)
  else Some (status, handle, p).

Definition partitioned_block_store_close p (client_id handle : Z)
    : option (Z * partitioned_block_store C) :=
  '(status, _) ← validate_partition_request p client_id handle; Some (status, p).

Definition partitioned_block_store_read p (client_id handle lba offset buffer_size : Z)
    (buffer : bytes) (data_len : Z)
    : option (Z * bytes * Z * partitioned_block_store C) :=
  '(status, partition) ← validate_partition_request p client_id handle;
  if status =? PSA_SUCCESS then
    q ← partition;
    if storage_partition_is_lba_legal q lba then
      let clipped_read_len := storage_partition_clip_length q lba offset buffer_size in
      '(status, buffer, data_len, b) ←
        block_store_read (back_store p) (local_client_id p) (back_store_handle p)
          (u64 (sp_base_lba q + lba)) offset clipped_read_len buffer data_len;
      Some (status, buffer, data_len, set_back_store p b)
    else Some (PSA_ERROR_INVALID_ARGUMENT, buffer, data_len, p)
  else Some (status, buffer, data_len, p).

Definition partitioned_block_store_write p (client_id handle lba offset : Z)
    (data : bytes) (data_len num_written : Z)
    : option (Z * Z * partitioned_block_store C) :=
  '(status, partition) ← validate_partition_request p client_id handle;
  if status =? PSA_SUCCESS then
    q ← partition;
    if storage_partition_is_lba_legal q lba then
      let clipped_data_len := storage_partition_clip_length q lba offset data_len in
      '(status, num_written, b) ←
        block_store_write (back_store p) (local_client_id p) (back_store_handle p)
          (u64 (sp_base_lba q + lba)) offset data clipped_data_len num_written;
      Some (status, num_written, set_back_store p b)
    else Some (PSA_ERROR_INVALID_ARGUMENT, num_written, p)
  else Some (status, num_written, p).

Definition partitioned_block_store_erase p (client_id handle begin_lba num_blocks : Z)
    : option (Z * partitioned_block_store C) :=
  '(status, partition) ← validate_partition_request p client_id handle;
  if status =? PSA_SUCCESS then
    q ← partition;
    if storage_partition_is_lba_legal q begin_lba then
      let clipped_num_blocks := storage_partition_clip_num_blocks q begin_lba num_blocks in
      '(status, b) ←
        block_store_erase (back_store p) (local_client_id p) (back_store_handle p)
          (u64 (sp_base_lba q + begin_lba)) clipped_num_blocks;
      Some (status, set_back_store p b)
    else Some (PSA_ERROR_INVALID_ARGUMENT, p)
  else Some (status, p).

Definition partitioned_block_store_interface
    : block_store_interface (partitioned_block_store C) :=
  Interface partitioned_block_store_get_partition_info partitioned_block_store_open
    partitioned_block_store_close partitioned_block_store_read partitioned_block_store_write
    partitioned_block_store_erase.

(** [p] is the caller's memory before the call, [info] the uninitialised local;
    the boolean tells whether the returned pointer is not NULL. *)
Definition partitioned_block_store_init p (info : storage_partition_info) (client_id : Z)
    (back_store_guid : bytes) (b : block_store C) (auth : storage_partition_authorizer)
    : option (bool * partitioned_block_store C) :=
  let p := Partitioned client_id auth 0 0 (partitions p) (back_store_handle p) b
             (back_store_info p) in
  '(status, info, b) ← block_store_get_partition_info b back_store_guid info;
  let p := set_back_store p b in
  if negb (status =? PSA_SUCCESS) then Some (false, p)
  else
    '(status, h, b) ← block_store_open b client_id back_store_guid (back_store_handle p);
    let p := Partitioned client_id auth 0 0 (partitions p) h b info in
    Some (status =? PSA_SUCCESS, p).

Definition partitioned_block_store_deinit p : option (partitioned_block_store C) :=
  '(_, b) ← block_store_close (back_store p) (local_client_id p) (back_store_handle p);
  let n := Z.to_nat (num_partitions p) in
  if num_partitions p <=? len (partitions p) then
    Some (set_partitions (set_back_store p b) (num_partitions p)
           (replicate n storage_partition_deinit ++ drop n (partitions p)))
  else None.

Definition partitioned_block_store_attach_config_listener p (listener : Z)
    : partitioned_block_store C :=
  Partitioned (local_client_id p) (authorizer p) listener (num_partitions p) (partitions p)
    (back_store_handle p) (back_store p) (back_store_info p).

Definition partitioned_block_store_add_partition p (guid : option bytes)
    (starting_lba ending_lba : Z) : option (bool * partitioned_block_store C) :=
  if num_partitions p >=? PARTITIONED_BLOCK_STORE_MAX_PARTITIONS then Some (false, p)
  else if (starting_lba >? ending_lba) || (ending_lba >=? info_num_blocks (back_store_info p))
  then Some (false, p)
  else
    let q := storage_partition_init guid (u64 (ending_lba - starting_lba + 1))
               (info_block_size (back_store_info p)) in
    let q := Partition (sp_partition_guid q) (sp_block_size q) (sp_num_blocks q) starting_lba
               (sp_acl q) in
    l ← setZ (partitions p) (num_partitions p) q;
    Some (true, set_partitions p (u64 (num_partitions p + 1)) l).

Definition partitioned_block_store_get_back_store_info p : storage_partition_info :=
  back_store_info p.

End Partitioned.

(** ** The abstract view of a partitioned store *)
Section View.
Context {C : Type} (I : block_store_interface C) (V : store_view C).
Implicit Types p : partitioned_block_store C.

Definition back_context p : C := bs_context (back_store p).
Definition back_data p : bytes := v_data V (back_context p) (back_store_handle p).

(** A configured partition lies within the back store. *)
Definition partition_wf (info : storage_partition_info) (q : storage_partition) : Prop :=
  sp_block_size q = info_block_size info /\ 0 <= sp_base_lba q /\ 0 <= sp_num_blocks q /\
  sp_base_lba q + sp_num_blocks q <= info_num_blocks info.

Definition back_ok p : Prop :=
  bs_interface (back_store p) = Some I /\ v_ok V (back_context p) /\
  v_access V (back_context p) (local_client_id p) (back_store_handle p) /\
  0 <= back_store_handle p /\
  v_nblocks V (back_context p) (back_store_handle p) = info_num_blocks (back_store_info p) /\
  v_bsize V (back_context p) (back_store_handle p) = info_block_size (back_store_info p).

(** Slots beyond [num_partitions] have an empty allowlist. *)
Definition table_ok p : Prop :=
  len (partitions p) = PARTITIONED_BLOCK_STORE_MAX_PARTITIONS /\
  0 <= num_partitions p <= PARTITIONED_BLOCK_STORE_MAX_PARTITIONS /\
  forall i q, nthZ (partitions p) i = Some q ->
    acl_wf (sp_acl q) /\
    (i < num_partitions p -> partition_wf (back_store_info p) q) /\
    (num_partitions p <= i -> allowlist_len (sp_acl q) = 0).

Definition partitioned_ok p : Prop := back_ok p /\ table_ok p.

Definition partition_data p (q : storage_partition) : bytes :=
  slice (back_data p) (sp_base_lba q * sp_block_size q) (sp_num_blocks q * sp_block_size q).

Definition partitioned_view : store_view (partitioned_block_store C) := {|
  v_ok := partitioned_ok;
  v_access p client h :=
    exists q, nthZ (partitions p) h = Some q /\ acl_permits (sp_acl q) client;
  v_nblocks p h := default 0 (sp_num_blocks <$> nthZ (partitions p) h);
  v_bsize p h := default 0 (sp_block_size <$> nthZ (partitions p) h);
  v_data p h := default [] (partition_data p <$> nthZ (partitions p) h);
  v_described p guid nb bs :=
    exists i q, find_guid_loop (partitions p) guid (Z.to_nat (num_partitions p)) 0 = Some (Some i) /\
      nthZ (partitions p) i = Some q /\ sp_num_blocks q = nb /\ sp_block_size q = bs
|}.

End View.

(** Caller's memory that was zeroed before initialisation. *)
Definition zeroed {C} (p : partitioned_block_store C) : Prop :=
  partitions p = replicate 8 zero_partition.

(** A sequence of configuration calls. *)
Fixpoint add_partitions {C} (p : partitioned_block_store C) (l : list (bytes * Z * Z))
    : option (partitioned_block_store C) :=
  match l with
  | [] => Some p
  | (guid, s, e) :: l =>
      '(_, p) ← partitioned_block_store_add_partition p (Some guid) s e; add_partitions p l
  end.

(** No client is on any list. *)
Definition unclaimed {C} (p : partitioned_block_store C) : Prop :=
  forall i q, nthZ (partitions p) i = Some q -> allowlist_len (sp_acl q) = 0.

(** Two partitions share no block. *)
Definition disjoint (q r : storage_partition) : Prop :=
  sp_base_lba q + sp_num_blocks q <= sp_base_lba r \/
  sp_base_lba r + sp_num_blocks r <= sp_base_lba q.

(** ** Lemmas *)
Section Laws.
Context {C : Type} (I : block_store_interface C) (V : store_view C) `{HL : !BlockStoreLaws I V}.
Implicit Types p : partitioned_block_store C.
Context (call_listener : Z -> partitioned_block_store C -> bytes -> storage_partition_info ->
                         option (bool * partitioned_block_store C)).
Abbreviation PV := (partitioned_view I V).
Abbreviation PI := (partitioned_block_store_interface call_listener).

(** The documented contract of a listener: it may add partitions. *)
Hypothesis listener_adds : forall p guid,
  partitioned_ok I V p -> config_listener p <> 0 ->
  exists b p', call_listener (config_listener p) p guid (back_store_info p) = Some (b, p') /\
    view_ext PV p p'.

Lemma validate_spec p client h :
  partitioned_ok I V p -> 0 <= h ->
  exists st o, validate_partition_request p client h = Some (st, o) /\
    ((exists q, st = PSA_SUCCESS /\ o = Some q /\ nthZ (partitions p) h = Some q /\
        acl_permits (sp_acl q) client /\ acl_wf (sp_acl q) /\
        partition_wf (back_store_info p) q)
     \/ (st <> PSA_SUCCESS /\ ~ v_access PV p client h)).
Proof.
  intros (_ & Hlen & Hnum & Hq) Hh. unfold validate_partition_request.
  destruct (Z.geb_spec h PARTITIONED_BLOCK_STORE_MAX_PARTITIONS) as [Hge|Hlt].
  - eexists _, _. split; [done|]. right. split; [done|].
    intros (q & Hx%nthZ_Some & _). lia.
  - destruct (nthZ_is_Some (partitions p) h) as [q Hx]; [lia|]. rewrite Hx. simpl.
    destruct (Hq h q Hx) as (Hwf & Hin & Hout).
    destruct (acl_check_spec (sp_acl q) client Hwf) as (b & Hb & Hiff).
    unfold storage_partition_is_access_permitted. rewrite Hb. simpl. destruct b; simpl.
    + eexists _, _. split; [done|]. left. exists q.
      assert (acl_permits (sp_acl q) client) as Hp by tauto.
      do 5 (split; [done|]). apply Hin. destruct Hp as (i & Hi & _).
      destruct (Z.ltb_spec h (num_partitions p)); [done|]. specialize (Hout ltac:(lia)). lia.
    + eexists _, _. split; [done|]. right. split; [done|].
      intros (q' & Hx' & Hp). simplify_eq. apply Hiff in Hp. done.
Qed.

(** Geometry of a configured partition inside the back store. *)
Lemma partition_in_back p q :
  partitioned_ok I V p -> partition_wf (back_store_info p) q ->
  fits 64 (sp_num_blocks q) /\ fits 64 (sp_block_size q) /\ fits 64 (sp_base_lba q) /\
  sp_num_blocks q * sp_block_size q < 2 ^ 64 /\
  0 <= sp_base_lba q * sp_block_size q /\ 0 <= sp_num_blocks q * sp_block_size q /\
  sp_base_lba q * sp_block_size q + sp_num_blocks q * sp_block_size q <= len (back_data V p) /\
  (forall lba, 0 <= lba < sp_num_blocks q -> u64 (sp_base_lba q + lba) = sp_base_lba q + lba).
Proof.
  intros ((_ & Hok & Hacc & _ & Hn & Hb) & _) (Hbs & Hbase & Hnb & Hle).
  destruct (law_geometry _ _ _ Hok Hacc) as (Hf1 & Hf2 & Hs & Hl). unfold back_data.
  rewrite Hl. rewrite Hn, Hb, <- Hbs in *. unfold fits in *.
  assert ((sp_base_lba q + sp_num_blocks q) * sp_block_size q <=
    info_num_blocks (back_store_info p) * sp_block_size q) by (apply Z.mul_le_mono_nonneg_r; lia).
  rewrite Z.mul_add_distr_r in *.
  assert (0 <= sp_base_lba q * sp_block_size q) by nia.
  assert (0 <= sp_num_blocks q * sp_block_size q) by nia.
  repeat (split; [lia|]). intros lba Hlba. apply wrap_small. lia.
Qed.

(** Changing the back store's context only. *)
Lemma set_back_ext p b :
  partitioned_ok I V p -> bs_interface b = Some I ->
  view_ext V (back_context p) (bs_context b) -> view_ext PV p (set_back_store p b).
Proof.
  intros ((Hi & Hok & Hacc & Hh & Hn & Hb) & Ht) Hib [Hok' Hx].
  destruct (Hx _ _ Hacc) as (Hacc' & Hn' & Hb' & Hd').
  assert (back_data V (set_back_store p b) = back_data V p) as Hd by done.
  split.
  - split; [|done]. split; [done|]. split; [done|]. split; [done|]. split; [done|].
    unfold back_context in *. simpl in *. split; congruence.
  - intros client h Ha. split; [done|]. split; [done|]. split; [done|].
    simpl. unfold partition_data. by rewrite Hd.
Qed.

Definition back_same p p' : Prop :=
  back_data V p' = back_data V p /\ partitions p' = partitions p.

Lemma set_back_same p b :
  partitioned_ok I V p -> view_ext V (back_context p) (bs_context b) ->
  back_same p (set_back_store p b).
Proof.
  intros ((Hi & Hok & Hacc & _) & _) [_ Hx]. destruct (Hx _ _ Hacc) as (_ & _ & _ & Hd). done.
Qed.

Lemma set_back_upd p b h q d' :
  partitioned_ok I V p -> bs_interface b = Some I ->
  nthZ (partitions p) h = Some q ->
  view_upd V (back_context p) (back_store_handle p) d' (bs_context b) ->
  view_upd PV p h (slice d' (sp_base_lba q * sp_block_size q)
                    (sp_num_blocks q * sp_block_size q)) (set_back_store p b).
Proof.
  intros ((Hi & Hok & Hacc & Hh & Hn & Hb) & Ht) Hib Hq (Hok' & Hd & Hx).
  destruct (Hx _ _ Hacc) as (Hacc' & Hn' & Hb').
  split; [|split].
  - split; [|done]. split; [done|]. split; [done|]. split; [done|]. split; [done|].
    unfold back_context in *. simpl in *. split; congruence.
  - simpl. rewrite Hq. simpl. unfold partition_data, back_data. by rewrite <- Hd.
  - intros client k Ha. done.
Qed.

Lemma block_store_read_Some (b : block_store C) client h lba off n buf dl st buf' dl' c' :
  bs_interface b = Some I ->
  read I (bs_context b) client h lba off n buf dl = Some (st, buf', dl', c') ->
  block_store_read b client h lba off n buf dl = Some (st, buf', dl', set_context b c').
Proof. intros Hi Hr. unfold block_store_read. rewrite Hi. simpl. by rewrite Hr. Qed.

Lemma block_store_write_Some (b : block_store C) client h lba off d n nw st nw' c' :
  bs_interface b = Some I ->
  write I (bs_context b) client h lba off d n nw = Some (st, nw', c') ->
  block_store_write b client h lba off d n nw = Some (st, nw', set_context b c').
Proof. intros Hi Hr. unfold block_store_write. rewrite Hi. simpl. by rewrite Hr. Qed.

Lemma block_store_erase_Some (b : block_store C) client h lba n st c' :
  bs_interface b = Some I ->
  erase I (bs_context b) client h lba n = Some (st, c') ->
  block_store_erase b client h lba n = Some (st, set_context b c').
Proof. intros Hi Hr. unfold block_store_erase. rewrite Hi. simpl. by rewrite Hr. Qed.

(** The view of an accessible partition, in terms of its table entry. *)
Lemma in_range_entry p client h lba offset q :
  nthZ (partitions p) h = Some q -> acl_permits (sp_acl q) client ->
  in_range PV p client h lba offset <-> lba < sp_num_blocks q /\ offset < sp_block_size q.
Proof.
  intros Hq Hp. unfold in_range. simpl. rewrite Hq. simpl.
  split; [tauto|]. intros [??]. split; [by exists q|done].
Qed.

Lemma in_range_back p q lba offset :
  partitioned_ok I V p -> partition_wf (back_store_info p) q -> lba < sp_num_blocks q ->
  in_range V (back_context p) (local_client_id p) (back_store_handle p)
    (sp_base_lba q + lba) offset <-> offset < sp_block_size q.
Proof.
  intros ((_ & _ & Hacc & _ & Hn & Hb) & _) (Hbs & Hw) Hlt. unfold in_range.
  rewrite Hn, Hb, Hbs. split; [tauto|]. intros. split; [done|]. lia.
Qed.

Lemma partitioned_read_law p client h lba offset n buf dl :
  partitioned_ok I V p -> 0 <= h -> 0 <= lba -> 0 <= offset -> 0 <= n <= len buf ->
  exists st buf' dl' p',
    partitioned_block_store_read p client h lba offset n buf dl = Some (st, buf', dl', p') /\
    view_ext PV p p' /\ back_same p p' /\
    ((st = PSA_SUCCESS /\ in_range PV p client h lba offset /\
      dl' = Z.min n (v_bsize PV p h - offset) /\
      exists d, load (v_data PV p h) (lba * v_bsize PV p h + offset) dl' = Some d /\
        store buf 0 d = Some buf')
     \/ (st <> PSA_SUCCESS /\ ~ in_range PV p client h lba offset /\ buf' = buf /\ dl' = dl)).
Proof.
  intros Hok Hh Hlba Hoff Hn. unfold partitioned_block_store_read.
  destruct (validate_spec p client h Hok Hh)
    as (st & o & -> & [(q & -> & -> & Hq & Hperm & Hacl & Hw)|[Hst Hna]]); simpl.
  2:{ destruct (Z.eqb_spec st PSA_SUCCESS); [done|]. eexists _, _, _, _. split; [done|].
      split; [by apply view_ext_refl|]. split; [done|]. right. unfold in_range. tauto. }
  pose proof (in_range_entry p client h lba offset q Hq Hperm) as Hrng.
  unfold storage_partition_is_lba_legal.
  destruct (Z.ltb_spec lba (sp_num_blocks q)) as [Hlt|Hge].
  2:{ eexists _, _, _, _. split; [done|]. split; [by apply view_ext_refl|]. split; [done|].
      right. split; [done|]. split; [|done]. rewrite Hrng. lia. }
  destruct (partition_in_back p q Hok Hw) as (Hf1 & Hf2 & Hf3 & Hs & Hp1 & Hp2 & Hp3 & Hu).
  rewrite Hu by lia. pose proof (clip_length_bounds q lba offset n) as Hclip.
  destruct (law_read (back_context p) (local_client_id p) (back_store_handle p)
    (sp_base_lba q + lba) offset (storage_partition_clip_length q lba offset n) buf dl)
    as (st & buf' & dl' & c' & Hr & Hext & Hcase); [apply Hok..|apply proj2 in Hw; lia|lia|lia|].
  rewrite (block_store_read_Some (back_store p) _ _ _ _ _ _ _ st buf' dl' c')
    by (done || apply Hok). simpl.
  eexists _, _, _, _. split; [done|]. split; [apply set_back_ext; [done|apply Hok|done]|].
  split; [by apply set_back_same|].
  pose proof (in_range_back p q lba offset Hok Hw Hlt) as Hrb.
  destruct Hcase as [(-> & Hr1%Hrb & Hdl & d & Hload & Hsto)|(Hst & Hnr & -> & ->)].
  2:{ right. split; [done|]. split; [|done]. rewrite Hrng. tauto. }
  left. split; [done|]. split; [by rewrite Hrng|]. simpl. rewrite Hq. simpl.
  destruct Hok as ((_ & _ & _ & _ & _ & Hb) & _). rewrite Hb, <- (proj1 Hw) in Hdl, Hload.
  destruct (clip_length_in_block q lba offset n) as [Hmin _]; [lia|lia|lia|done|].
  split; [lia|]. exists d. split; [|done]. unfold partition_data.
  assert (lba * sp_block_size q + sp_block_size q <= sp_num_blocks q * sp_block_size q) by nia.
  rewrite load_slice by nia. rewrite <- Hload. f_equal. lia.
Qed.

Lemma partitioned_write_law p client h lba offset data n nw :
  partitioned_ok I V p -> 0 <= h -> 0 <= lba -> 0 <= offset -> 0 <= n <= len data ->
  exists st nw' p',
    partitioned_block_store_write p client h lba offset data n nw = Some (st, nw', p') /\
    ((st = PSA_SUCCESS /\ in_range PV p client h lba offset /\
      nw' = Z.min n (v_bsize PV p h - offset) /\
      exists d' q b', nthZ (partitions p) h = Some q /\
        store (v_data PV p h) (lba * v_bsize PV p h + offset)
          (take (Z.to_nat nw') data) = Some d' /\
        store (back_data V p) ((sp_base_lba q + lba) * sp_block_size q + offset)
          (take (Z.to_nat nw') data) = Some b' /\ back_data V p' = b' /\
        partitions p' = partitions p /\ view_upd PV p h d' p')
     \/ (st <> PSA_SUCCESS /\ ~ in_range PV p client h lba offset /\ nw' = nw /\
         view_ext PV p p' /\ back_same p p')).
Proof.
  intros Hok Hh Hlba Hoff Hn. unfold partitioned_block_store_write.
  destruct (validate_spec p client h Hok Hh)
    as (st & o & -> & [(q & -> & -> & Hq & Hperm & Hacl & Hw)|[Hst Hna]]); simpl.
  2:{ destruct (Z.eqb_spec st PSA_SUCCESS); [done|]. eexists _, _, _. split; [done|].
      right. split; [done|]. split; [unfold in_range; tauto|]. split; [done|].
      split; [by apply view_ext_refl|done]. }
  pose proof (in_range_entry p client h lba offset q Hq Hperm) as Hrng.
  unfold storage_partition_is_lba_legal.
  destruct (Z.ltb_spec lba (sp_num_blocks q)) as [Hlt|Hge].
  2:{ eexists _, _, _. split; [done|]. right. split; [done|].
      split; [rewrite Hrng; lia|]. split; [done|]. split; [by apply view_ext_refl|done]. }
  destruct (partition_in_back p q Hok Hw) as (Hf1 & Hf2 & Hf3 & Hs & Hp1 & Hp2 & Hp3 & Hu).
  rewrite Hu by lia. pose proof (clip_length_bounds q lba offset n) as Hclip.
  destruct (law_write (back_context p) (local_client_id p) (back_store_handle p)
    (sp_base_lba q + lba) offset data (storage_partition_clip_length q lba offset n) nw)
    as (st & nw' & c' & Hr & Hcase); [apply Hok..|apply proj2 in Hw; lia|lia|lia|].
  rewrite (block_store_write_Some (back_store p) _ _ _ _ _ _ _ st nw' c')
    by (done || apply Hok). simpl.
  eexists _, _, _. split; [done|].
  pose proof (in_range_back p q lba offset Hok Hw Hlt) as Hrb.
  destruct Hcase as [(-> & Hr1%Hrb & Hnw & b' & Hsto & Hupd)|(Hst & Hnr & -> & Hext)].
  2:{ right. split; [done|]. split; [rewrite Hrng; tauto|]. split; [done|].
      split; [apply set_back_ext; [done|apply Hok|done]|by apply set_back_same]. }
  left. split; [done|]. split; [by rewrite Hrng|]. simpl. rewrite Hq. simpl.
  pose proof Hok as ((_ & _ & _ & _ & _ & Hb) & _). rewrite Hb, <- (proj1 Hw) in Hnw, Hsto.
  destruct (clip_length_in_block q lba offset n) as [Hmin _]; [lia|lia|lia|done|].
  split; [lia|].
  assert (len (take (Z.to_nat nw') data) = nw') as Hln
    by (unfold len in *; rewrite length_take; lia).
  exists (slice b' (sp_base_lba q * sp_block_size q) (sp_num_blocks q * sp_block_size q)), q, b'.
  split; [done|]. split.
  - assert (lba * sp_block_size q + sp_block_size q <= sp_num_blocks q * sp_block_size q) by nia.
    apply store_slice; [lia|nia|lia|lia|]. rewrite <- Hsto. unfold back_data. f_equal. lia.
  - split; [done|]. split; [apply Hupd|]. split; [done|].
    eapply set_back_upd; [done|apply Hok|done|done].
Qed.

Lemma partitioned_erase_law p client h lba n :
  partitioned_ok I V p -> 0 <= h -> 0 <= lba -> 0 <= n ->
  exists st p',
    partitioned_block_store_erase p client h lba n = Some (st, p') /\
    ((st = PSA_SUCCESS /\ v_access PV p client h /\ lba < v_nblocks PV p h /\
      exists e d' q b', len e = Z.min n (v_nblocks PV p h - lba) * v_bsize PV p h /\
        nthZ (partitions p) h = Some q /\
        store (v_data PV p h) (lba * v_bsize PV p h) e = Some d' /\
        store (back_data V p) ((sp_base_lba q + lba) * sp_block_size q) e = Some b' /\
        back_data V p' = b' /\ partitions p' = partitions p /\ view_upd PV p h d' p')
     \/ (st <> PSA_SUCCESS /\ ~ (v_access PV p client h /\ lba < v_nblocks PV p h) /\
         view_ext PV p p' /\ back_same p p')).
Proof.
  intros Hok Hh Hlba Hn. unfold partitioned_block_store_erase.
  destruct (validate_spec p client h Hok Hh)
    as (st & o & -> & [(q & -> & -> & Hq & Hperm & Hacl & Hw)|[Hst Hna]]); simpl.
  2:{ destruct (Z.eqb_spec st PSA_SUCCESS); [done|]. eexists _, _. split; [done|].
      right. split; [done|]. split; [simpl in Hna; tauto|].
      split; [by apply view_ext_refl|done]. }
  unfold storage_partition_is_lba_legal. rewrite Hq. simpl.
  destruct (Z.ltb_spec lba (sp_num_blocks q)) as [Hlt|Hge].
  2:{ eexists _, _. split; [done|]. right. split; [done|].
      split; [lia|]. split; [by apply view_ext_refl|done]. }
  destruct (partition_in_back p q Hok Hw) as (Hf1 & Hf2 & Hf3 & Hs & Hp1 & Hp2 & Hp3 & Hu).
  rewrite Hu, clip_num_blocks_spec by lia. set (k := Z.min n _).
  destruct (law_erase (back_context p) (local_client_id p) (back_store_handle p)
    (sp_base_lba q + lba) k)
    as (st & c' & Hr & Hcase); [apply Hok..|apply proj2 in Hw; lia|lia|].
  rewrite (block_store_erase_Some (back_store p) _ _ _ _ st c') by (done || apply Hok). simpl.
  eexists _, _. split; [done|].
  pose proof Hok as ((_ & _ & Hacc & _ & Hbn & Hb) & _). rewrite Hb, Hbn, <- (proj1 Hw) in Hcase.
  destruct Hw as (Hw0 & Hw1 & Hw2 & Hw3).
  destruct Hcase as [(-> & _ & _ & e & b' & He & Hsto & Hupd)|(Hst & Hnr & Hext)].
  2:{ destruct Hnr. split; [done|]. lia. }
  left. split; [done|]. split; [by exists q|]. split; [done|].
  replace (Z.min k _) with k in He by lia. unfold fits in *.
  assert (lba * sp_block_size q + k * sp_block_size q <= sp_num_blocks q * sp_block_size q).
  { rewrite <- Z.mul_add_distr_r. apply Z.mul_le_mono_nonneg_r; lia. }
  exists e, (slice b' (sp_base_lba q * sp_block_size q) (sp_num_blocks q * sp_block_size q)), q, b'.
  split; [done|]. split; [done|]. split.
  - apply store_slice; [lia|nia|lia|lia|]. rewrite <- Hsto. unfold back_data. f_equal. lia.
  - split; [done|]. split; [apply Hupd|]. split; [done|].
    eapply set_back_upd; [done|apply Hok|done|done].
Qed.

(** *** Search and open *)

Lemma find_guid_loop_spec l guid n i :
  0 <= i -> i + Z.of_nat n <= len l ->
  exists o, find_guid_loop l guid n i = Some o /\
    (forall j, o = Some j -> i <= j < i + Z.of_nat n /\
       exists q, nthZ l j = Some q /\ sp_partition_guid q = guid).
Proof.
  revert i. induction n as [|n IH]; intros i Hi Hl; simpl; [by exists None|].
  destruct (nthZ_is_Some l i) as [q Hq]; [lia|]. rewrite Hq. simpl.
  unfold storage_partition_is_guid_matched. destruct (bytes_eqb _ guid) eqn:Hg.
  - exists (Some i). split; [done|]. intros j [= <-]. split; [lia|].
    exists q. split; [done|]. by apply bytes_eqb_eq.
  - destruct (IH (i + 1)) as (o & Ho & Hj); [lia|lia|]. exists o. split; [done|].
    intros j Hoj. destruct (Hj j Hoj) as [? ?]. split; [lia|done].
Qed.

Lemma find_by_guid_spec p guid :
  partitioned_ok I V p ->
  exists st i p', find_by_partition_guid call_listener p guid 0 = Some (st, i, p') /\
    view_ext PV p p' /\
    (st = PSA_SUCCESS ->
      find_guid_loop (partitions p') guid (Z.to_nat (num_partitions p')) 0 = Some (Some i) /\
      0 <= i < num_partitions p' /\ is_Some (nthZ (partitions p') i)) /\
    (forall j, find_guid_loop (partitions p) guid (Z.to_nat (num_partitions p)) 0 = Some (Some j) ->
      st = PSA_SUCCESS /\ i = j /\ p' = p).
Proof.
  intros Hok. unfold find_by_partition_guid.
  assert (forall p, partitioned_ok I V p -> exists o,
    find_guid_loop (partitions p) guid (Z.to_nat (num_partitions p)) 0 = Some o /\
    forall j, o = Some j -> 0 <= j < num_partitions p /\ is_Some (nthZ (partitions p) j)) as Hf.
  { intros x (_ & Hl & Hn & _).
    destruct (find_guid_loop_spec (partitions x) guid (Z.to_nat (num_partitions x)) 0)
      as (o & Ho & Hj); [lia|lia|]. exists o. split; [done|]. intros j Hoj.
    destruct (Hj j Hoj) as (? & q & Hq & _). split; [lia|]. by exists q. }
  destruct (Hf p Hok) as ([i|] & Ho & Hj); rewrite Ho; simpl.
  - exists PSA_SUCCESS, i, p. split; [done|]. split; [by apply view_ext_refl|].
    split; [intros _; split; [done|by apply Hj]|]. intros j [= ->]. done.
  - destruct (Z.eqb_spec (config_listener p) 0) as [Hz|Hnz].
    { eexists _, _, _. split; [done|]. split; [by apply view_ext_refl|]. by split. }
    destruct (listener_adds p guid Hok Hnz) as (b & p' & -> & Hext). simpl.
    destruct b; [|eexists _, _, _; split; [done|]; split; [done|]; by split].
    destruct (Hf p' (proj1 Hext)) as ([i|] & Ho' & Hj'); rewrite Ho'; simpl;
      eexists _, _, _; (split; [done|]); (split; [done|]); [|by split].
    split; [|done]. intros _. split; [done|]. by apply Hj'.
Qed.

(** Replacing a table entry by one with a longer list of permitted clients. *)
Lemma grant_ext p i q a' :
  partitioned_ok I V p -> 0 <= i < num_partitions p -> nthZ (partitions p) i = Some q ->
  acl_wf a' -> (forall c, acl_permits (sp_acl q) c -> acl_permits a' c) ->
  view_ext PV p (set_partitions p (num_partitions p)
                   (<[Z.to_nat i := set_acl q a']> (partitions p))).
Proof.
  intros (Hb & Hl & Hn & Ht) Hi Hq Hwf Hm.
  assert (0 <= i < len (partitions p)) as Hil by lia.
  split.
  - split; [done|]. split; [by unfold len in *; simpl; rewrite length_insert|]. split; [done|].
    intros j x Hx. simpl in Hx. destruct (decide (i = j)) as [->|Hne].
    + rewrite nthZ_insert_eq in Hx by done. simplify_eq. simpl.
      destruct (Ht j q Hq) as (_ & Hw & _). split; [done|]. split; [done|]. lia.
    + rewrite nthZ_insert_ne in Hx by lia. by apply Ht.
  - intros client h (x & Hx & Hp). simpl. destruct (decide (i = h)) as [->|Hne].
    + rewrite nthZ_insert_eq, Hq by done. simplify_eq. simpl. split; [|done].
      eexists. split; [done|]. simpl. auto.
    + rewrite nthZ_insert_ne, Hx by lia. split; [by exists x|done].
Qed.

Lemma partitioned_open_law p client guid h0 :
  partitioned_ok I V p ->
  exists st h p', partitioned_block_store_open call_listener p client guid h0 = Some (st, h, p') /\
    view_ext PV p p' /\
    (st = PSA_SUCCESS ->
      v_access PV p' client h /\ 0 <= h < num_partitions p' /\
      forall nb bs, v_described PV p guid nb bs -> v_nblocks PV p' h = nb /\ v_bsize PV p' h = bs).
Proof.
  intros Hok. unfold partitioned_block_store_open.
  destruct (find_by_guid_spec p guid Hok) as (st & i & p1 & -> & Hext1 & Hs & Hf). simpl.
  destruct (Z.eqb_spec st PSA_SUCCESS) as [->|Hne]; [|by eexists _, _, _].
  destruct (Hs eq_refl) as (Hfind & Hi & q & Hq). rewrite Hq. simpl.
  pose proof (proj1 Hext1) as Hok1. pose proof Hok1 as (_ & Hl & Hn & Ht).
  unfold storage_partition_is_open_permitted.
  destruct (acl_authorize_spec (sp_acl q) client (authorizer p1)) as
    (b & a' & -> & Hwf & _ & Htrue & _ & Hm & _); [by eapply Ht|]. simpl.
  rewrite setZ_is_Some by lia. simpl.
  pose proof (grant_ext p1 i q a' Hok1 Hi Hq Hwf Hm) as Hext2.
  assert (u32 i = i) as Hu.
  { apply wrap_small. unfold PARTITIONED_BLOCK_STORE_MAX_PARTITIONS in Hn. lia. }
  destruct b; eexists _, _, _; (split; [done|]);
    (split; [by eapply view_ext_trans|]); [|done].
  intros _. rewrite Hu. simpl. rewrite nthZ_insert_eq by lia. simpl. split; [|split; [lia|]].
  - eexists. split; [done|]. by apply Htrue.
  - intros nb bs (j & q' & Hj & Hq' & <- & <-). destruct (Hf j Hj) as (_ & -> & ->).
    by simplify_eq.
Qed.

Lemma partitioned_laws : BlockStoreLaws PI PV.
Proof.
  split; simpl.
  - intros p client h Hok (q & Hq & Hp). rewrite Hq. simpl.
    assert (partition_wf (back_store_info p) q) as Hw.
    { destruct Hok as (_ & _ & _ & Ht). destruct (Ht h q Hq) as (_ & Hw & Hz). apply Hw.
      destruct (Z.ltb_spec h (num_partitions p)); [done|]. specialize (Hz ltac:(lia)).
      destruct Hp as (? & ? & _). lia. }
    destruct (partition_in_back p q Hok Hw) as (? & ? & ? & ? & ? & ? & ? & _).
    repeat (split; [done|]). unfold partition_data. by rewrite slice_len by lia.
  - intros p client h lba offset n buf dl Hok Hh Hl Ho Hn.
    destruct (partitioned_read_law p client h lba offset n buf dl)
      as (st & b' & dl' & p' & Hr & Hx & _ & Hc); [done..|]. by exists st, b', dl', p'.
  - intros p client h lba offset data n nw Hok Hh Hl Ho Hn.
    destruct (partitioned_write_law p client h lba offset data n nw)
      as (st & nw' & p' & Hr & Hc); [done..|]. exists st, nw', p'. split; [done|].
    destruct Hc as [(? & ? & ? & d' & q & b' & ? & ? & ? & ? & ? & ?)|(?&?&?&?&_)]; [|by right].
    left. do 3 (split; [done|]). by exists d'.
  - intros p client h lba n Hok Hh Hl Hn.
    destruct (partitioned_erase_law p client h lba n) as (st & p' & Hr & Hc); [done..|].
    exists st, p'. split; [done|].
    destruct Hc as [(?&?&?&e&d'&q&b'&?&?&?&?&?&?&?)|(?&?&?&_)]; [|by right].
    left. do 3 (split; [done|]). by exists e, d'.
  - intros p client guid h0 Hok.
    destruct (partitioned_open_law p client guid h0 Hok) as (st & h & p' & Ho & Hext & Hs).
    exists st, h, p'. split; [done|]. split; [done|]. intros Hst.
    destruct (Hs Hst) as (? & [? _] & ?). done.
  - intros p guid info0 Hok. unfold partitioned_block_store_get_partition_info.
    destruct (find_by_guid_spec p guid Hok) as (st & i & p1 & -> & Hext1 & Hs & Hf). simpl.
    destruct (Z.eqb_spec st PSA_SUCCESS) as [->|Hne]; [|by eexists _, _, _].
    destruct (Hs eq_refl) as (Hfind & Hi & q & Hq). rewrite Hq. simpl.
    eexists _, _, _. split; [done|]. split; [done|]. intros _. by exists i, q.
  - intros p client h Hok Hh. unfold partitioned_block_store_close.
    destruct (validate_spec p client h Hok Hh)
      as (st & o & -> & [(q & -> & -> & Hq & Hperm & Hacl & Hw)|[Hst Hna]]); simpl;
      eexists _, _; (split; [done|]); (split; [by apply view_ext_refl|]).
    + split; [|done]. intros _. by exists q.
    + split; [done|]. intros Hx. by destruct Hna.
Qed.

(** *** Configuration *)

(** Adding a partition keeps the store well formed and all open handles alive. *)
Lemma add_partition_ext p guid s e b p' :
  partitioned_ok I V p -> 0 <= s -> 0 <= e ->
  partitioned_block_store_add_partition p guid s e = Some (b, p') ->
  view_ext PV p p' /\
  (b = true -> s <= e < info_num_blocks (back_store_info p) /\
     num_partitions p' = num_partitions p + 1 /\
     exists q, nthZ (partitions p') (num_partitions p) = Some q /\ sp_base_lba q = s /\
       sp_num_blocks q = e - s + 1 /\ sp_acl q = storage_partition_acl_init /\
       sp_partition_guid q = default nil_guid guid /\
       sp_block_size q = info_block_size (back_store_info p)).
Proof.
  intros Hok Hs He. pose proof Hok as (Hback & Hl & Hn & Ht).
  unfold partitioned_block_store_add_partition.
  destruct (Z.geb_spec (num_partitions p) PARTITIONED_BLOCK_STORE_MAX_PARTITIONS) as [Hge|Hlt].
  { intros [= <- <-]. split; [by apply view_ext_refl|done]. }
  destruct (_ || _) eqn:Hchk.
  { intros [= <- <-]. split; [by apply view_ext_refl|done]. }
  rewrite setZ_is_Some by lia. simpl. intros [= <- <-]. bool_to_prop.
  assert (info_num_blocks (back_store_info p) < 2 ^ 64) as Hinfo.
  { destruct Hback as (_ & Hv & Hacc & _ & Hnb & _). rewrite <- Hnb.
    eapply law_geometry; done. }
  assert (u64 (num_partitions p + 1) = num_partitions p + 1) as Hu1.
  { apply wrap_small. unfold PARTITIONED_BLOCK_STORE_MAX_PARTITIONS in *. lia. }
  assert (u64 (e - s + 1) = e - s + 1) as Hu2 by (apply wrap_small; lia).
  rewrite Hu1, Hu2. simpl. split.
  - split.
    + split; [done|]. split; [by unfold len in *; simpl; rewrite length_insert|].
      split; [simpl; lia|]. simpl. intros i q Hq.
      destruct (decide (num_partitions p = i)) as [<-|Hne].
      * rewrite nthZ_insert_eq in Hq by lia. simplify_eq. simpl.
        split; [apply acl_init_wf|]. split; [|lia]. intros _. split; [done|]. simpl. lia.
      * rewrite nthZ_insert_ne in Hq by lia. destruct (Ht i q Hq) as (? & Hw & Hz).
        split; [done|]. split; intros; [apply Hw; lia|apply Hz; lia].
    + intros client h (q & Hq & Hp). assert (num_partitions p <> h).
      { intros <-. destruct (Ht _ q Hq) as (_ & _ & Hz). specialize (Hz ltac:(lia)).
        destruct Hp as (? & ? & _). lia. }
      simpl. rewrite nthZ_insert_ne, Hq by lia. split; [by exists q|done].
  - intros _. split; [lia|]. split; [done|]. eexists. rewrite nthZ_insert_eq by lia. done.
Qed.

(** Initialisation over a back store that keeps the laws. *)
Lemma partitioned_init_ok p0 info client guid b auth p :
  zeroed p0 -> bs_interface b = Some I -> v_ok V (bs_context b) ->
  partitioned_block_store_init p0 info client guid b auth = Some (true, p) ->
  partitioned_ok I V p /\ unclaimed p.
Proof.
  intros Hz Hi Hok. unfold partitioned_block_store_init, block_store_get_partition_info,
    block_store_open. rewrite Hi. cbn [mbind option_bind].
  destruct (law_info (bs_context b) guid info Hok) as (st & info' & c1 & -> & [Hok1 _] & Hd).
  cbn [mbind option_bind]. destruct (Z.eqb_spec st PSA_SUCCESS) as [->|]; simpl; [|done].
  rewrite Hi. simpl.
  destruct (law_open c1 client guid (back_store_handle p0) Hok1)
    as (st2 & h & c2 & -> & [Hok2 _] & Ho). simpl.
  destruct (Z.eqb_spec st2 PSA_SUCCESS) as [->|]; [|done]. intros [= <-].
  destruct (Ho eq_refl) as (Hacc & Hh & Hgeo).
  destruct (Hgeo _ _ (Hd eq_refl)) as [Hn Hb].
  assert (forall i q, nthZ (partitions p0) i = Some q -> q = zero_partition) as Hzq.
  { rewrite Hz. intros i q Hq. unfold nthZ in Hq. case_match; [|done].
    by apply lookup_replicate in Hq as [-> _]. }
  split; [split; [by repeat split|]|by intros i q ->%Hzq].
  split; [simpl; by rewrite Hz|]. split; [done|]. simpl. intros i q Hq.
  pose proof (nthZ_Some _ _ _ Hq). apply Hzq in Hq as ->. split; [done|]. split; [lia|done].
Qed.

Lemma add_partition_unclaimed p guid s e b p' :
  unclaimed p -> 0 <= num_partitions p ->
  partitioned_block_store_add_partition p guid s e = Some (b, p') -> unclaimed p'.
Proof.
  intros Hu Hn. unfold partitioned_block_store_add_partition.
  repeat (case_match; [by intros [= _ <-]|]). intros Ha. inv_bind Ha.
  intros i q Hq. simpl in Hq.
  match goal with Hs : setZ _ _ _ = Some _ |- _ => rename Hs into Hset end.
  destruct (decide (num_partitions p = i)) as [<-|Hne].
  - rewrite (nthZ_setZ_eq _ _ _ _ Hset) in Hq. by simplify_eq.
  - rewrite (nthZ_setZ_ne _ _ _ _ _ Hset Hne) in Hq. by eapply Hu.
Qed.

Lemma add_partitions_ok p l :
  partitioned_ok I V p -> Forall (fun '(_, s, e) => 0 <= s /\ 0 <= e) l ->
  exists p', add_partitions p l = Some p' /\ view_ext PV p p' /\ (unclaimed p -> unclaimed p').
Proof.
  intros Hok Hl. revert p Hok. induction Hl as [|[[guid s] e] l [Hs He] Hl IH]; intros p Hok.
  - exists p. split; [done|]. split; [by apply view_ext_refl|done].
  - simpl. destruct (partitioned_block_store_add_partition p (Some guid) s e) as [[b p1]|] eqn:E.
    + destruct (add_partition_ext p (Some guid) s e b p1) as [Hx _]; [done..|]. simpl.
      destruct (IH p1 (proj1 Hx)) as (p2 & Hp2 & Hx2 & Hu2). exists p2. split; [done|].
      split; [by eapply view_ext_trans|]. intros Hu. apply Hu2.
      eapply add_partition_unclaimed; [done|apply Hok|done].
    + unfold partitioned_block_store_add_partition in E. repeat case_match; try done.
      rewrite setZ_is_Some in E; [done|]. destruct Hok as (_ & Hlen & Hn & _). lia.
Qed.

(** A request through one handle changes nothing outside that partition. *)
Lemma request_frame p client h r x p' q s n :
  partitioned_ok I V p -> 0 <= h -> request_wf r -> nthZ (partitions p) h = Some q ->
  run_request PI client h p r = Some (x, p') ->
  0 <= s -> s + n <= sp_base_lba q * sp_block_size q \/
    (sp_base_lba q + sp_num_blocks q) * sp_block_size q <= s ->
  slice (back_data V p') s n = slice (back_data V p) s n /\ partitions p' = partitions p.
Proof.
  intros Hok Hh Hwf Hq Hrun Hs Hdis.
  assert (v_access PV p client h -> partition_wf (back_store_info p) q) as Hw.
  { intros Ha. destruct (validate_spec p client h Hok Hh)
      as (st & o & _ & [(q' & _ & _ & Hq' & _ & _ & Hw)|[_ Hna]]); [by simplify_eq|done]. }
  destruct r as [lba offset k|lba offset data|lba k]; simpl in Hrun.
  - destruct Hwf as (Hl & Ho & Hk).
    destruct (partitioned_read_law p client h lba offset k (fill 0 k) 0)
      as (st & b & dl & p1 & Hr & _ & [Hb Hp] & _); [done..|by rewrite len_fill|].
    rewrite Hr in Hrun. simpl in Hrun.
    assert (p1 = p') as <-; [|by rewrite Hb].
    case_match; [|by simplify_eq]. inv_bind Hrun. done.
  - destruct Hwf as (Hl & Ho).
    destruct (partitioned_write_law p client h lba offset data (len data) 0)
      as (st & nw & p1 & Hr & Hc); [done..|split; [apply len_nonneg|done]|].
    rewrite Hr in Hrun. simpl in Hrun. simplify_eq.
    destruct Hc as [(_ & Hin & Hnw & d' & q' & b' & Hq' & _ & Hst & Hb & Hp & _)|
      (_ & _ & _ & _ & Hb & Hp)]; [|by rewrite Hb].
    assert (q' = q) by congruence. subst q' b'. specialize (Hw (proj1 Hin)). split; [|done].
    destruct (partition_in_back p q Hok Hw) as (Hf1 & Hf2 & Hf3 & _).
    destruct Hin as (_ & Hin1 & Hin2). simpl in Hin1, Hin2, Hnw. rewrite Hq in *. simpl in *.
    eapply slice_store_disjoint; [done| |exact Hst]. unfold fits in *.
    assert (len (take (Z.to_nat nw) data) = nw) as ->
      by (pose proof (len_nonneg data); unfold len in *; rewrite length_take; lia).
    destruct Hdis as [Hd|Hd]; [left; nia|right].
    assert ((sp_base_lba q + lba + 1) * sp_block_size q <=
      (sp_base_lba q + sp_num_blocks q) * sp_block_size q)
      by (apply Z.mul_le_mono_nonneg_r; lia). lia.
  - destruct Hwf as (Hl & Hk).
    destruct (partitioned_erase_law p client h lba k) as (st & p1 & Hr & Hc); [done..|].
    rewrite Hr in Hrun. simpl in Hrun. simplify_eq.
    destruct Hc as [(_ & Ha & Hin & e & d' & q' & b' & He & Hq' & _ & Hst & Hb & Hp & _)|
      (_ & _ & _ & Hb & Hp)]; [|by rewrite Hb].
    assert (q' = q) by congruence. subst q' b'. specialize (Hw Ha). split; [|done].
    destruct (partition_in_back p q Hok Hw) as (Hf1 & Hf2 & Hf3 & _).
    simpl in Hin, He. rewrite Hq in *. simpl in *.
    eapply slice_store_disjoint; [done| |exact Hst]. unfold fits in *. rewrite He.
    destruct Hdis as [Hd|Hd]; [left; nia|right].
    assert ((sp_base_lba q + lba + Z.min k (sp_num_blocks q - lba)) * sp_block_size q <=
      (sp_base_lba q + sp_num_blocks q) * sp_block_size q)
      by (apply Z.mul_le_mono_nonneg_r; lia). lia.
Qed.

End Laws.

(** ** Properties of the partitioned store *)

(** C10: over any back store that keeps the block store laws, and with any
    configuration listener that only adds partitions, a client that opened a
    partition gets an abstract store of its own: every sequence of requests
    returns, with the replies and final contents of an array of blocks that is
    a window of the back store. *)
Theorem partitioned_session_refines {C} (I : block_store_interface C) (V : store_view C)
    call_listener (p p1 : partitioned_block_store C) client guid h rs :
  BlockStoreLaws I V ->
  (forall p guid, partitioned_ok I V p -> config_listener p <> 0 ->
     exists b p', call_listener (config_listener p) p guid (back_store_info p) = Some (b, p') /\
       view_ext (partitioned_view I V) p p') ->
  partitioned_ok I V p ->
  partitioned_block_store_open call_listener p client guid 0 = Some (PSA_SUCCESS, h, p1) ->
  Forall request_wf rs ->
  exists q xs p2,
    nthZ (partitions p1) h = Some q /\
    run_requests (partitioned_block_store_interface call_listener) client h p1 rs
      = Some (xs, p2) /\
    spec_run (sp_num_blocks q) (sp_block_size q) (partition_data V p1 q) rs xs
      (v_data (partitioned_view I V) p2 h).
Proof.
  intros HL Hlist Hok Ho Hrs.
  destruct (partitioned_open_law I V call_listener Hlist p client guid 0 Hok)
    as (st & h' & p' & Ho' & Hext & Hs). simplify_eq.
  destruct (Hs eq_refl) as (Ha & Hh & _). pose proof Ha as (q & Hq & _).
  pose proof (partitioned_laws I V call_listener Hlist) as HP.
  destruct (run_requests_refines (partitioned_block_store_interface call_listener)
    (partitioned_view I V) client h p1 rs) as (xs & p2 & Hrun & _ & Hspec);
    [apply Hext|done|lia|done|].
  exists q, xs, p2. split; [done|]. split; [done|]. simpl in Hspec. by rewrite Hq in Hspec.
Qed.

(** A small back store used by the witnesses: 8 blocks of 4 bytes, opened by the
    local client 100. *)
Definition example_back : block_store ram_block_store :=
  BlockStore (Ram (BlockDevice (Partition (fill 7 16) 4 8 0 (Acl (fill 0 40) 1 [100])))
    (Some (fill 255 32))) (Some ram_block_store_interface).

Definition example_store (listener n : Z) (l : list storage_partition)
    : partitioned_block_store ram_block_store :=
  Partitioned 100 None listener n l 0 example_back (Info 8 4 (fill 7 16) (fill 0 16)).

(** Adds blocks 4 and 5 under the requested GUID. *)
Definition example_listener (f : Z) (p : partitioned_block_store ram_block_store) (guid : bytes)
    (info : storage_partition_info) : option (bool * partitioned_block_store ram_block_store) :=
  partitioned_block_store_add_partition p (Some guid) 4 5.

Lemma example_back_ok listener n l :
  back_ok ram_block_store_interface ram_view (example_store listener n l).
Proof.
  split; [done|]. split; [|split; [|done]].
  - split; [done|]. split; [done|]. split; [done|]. split; [done|]. by eexists.
  - split; [done|]. by exists 0.
Qed.

Lemma example_table_ok listener n l :
  len l = 8 -> 0 <= n <= 8 ->
  (forall i q, l !! i = Some q -> acl_wf (sp_acl q) /\
     (Z.of_nat i < n -> partition_wf (Info 8 4 (fill 7 16) (fill 0 16)) q) /\
     (n <= Z.of_nat i -> allowlist_len (sp_acl q) = 0)) ->
  partitioned_ok ram_block_store_interface ram_view (example_store listener n l).
Proof.
  intros Hl Hn Ht. split; [apply example_back_ok|]. split; [done|]. split; [done|].
  simpl. intros i q Hq. pose proof (nthZ_Some _ _ _ Hq).
  replace i with (Z.of_nat (Z.to_nat i)) in * by lia. rewrite nthZ_of_nat in Hq. by apply Ht.
Qed.

Lemma partitioned_session_refines_witness :
  let p := example_store 1 0 (replicate 8 zero_partition) in
  let rs := [Write 1 2 [5; 6; 8]; Read 1 0 10; Erase 0 5; Read 2 0 1] in
  exists h p1, partitioned_block_store_open example_listener p 9 (fill 3 16) 0
    = Some (PSA_SUCCESS, h, p1) /\
  exists q xs p2,
    nthZ (partitions p1) h = Some q /\
    run_requests (partitioned_block_store_interface example_listener) 9 h p1 rs
      = Some (xs, p2) /\
    spec_run (sp_num_blocks q) (sp_block_size q) (partition_data ram_view p1 q) rs xs
      (v_data (partitioned_view ram_block_store_interface ram_view) p2 h).
Proof.
  intros p rs.
  assert (fst <$> partitioned_block_store_open example_listener p 9 (fill 3 16) 0
    = Some (PSA_SUCCESS, 0)) as ([[st h] p1] & Ho & [= <- <-])%fmap_Some by (vm_compute; reflexivity).
  exists 0, p1. split; [exact Ho|].
  apply (partitioned_session_refines ram_block_store_interface ram_view example_listener p p1 9
    (fill 3 16)); [apply _| | |exact Ho|repeat constructor; simpl; lia].
  - intros p' guid Hok _. unfold example_listener.
    destruct (partitioned_block_store_add_partition p' (Some guid) 4 5) as [[b p'']|] eqn:Ea.
    + exists b, p''. split; [done|].
      by apply (add_partition_ext ram_block_store_interface ram_view) in Ea as [? _].
    + exfalso. unfold partitioned_block_store_add_partition in Ea. repeat case_match; try done.
      rewrite setZ_is_Some in Ea; [done|]. destruct Hok as (_ & Hlen & Hn & _). lia.
  - apply example_table_ok; [done|lia|]. intros i q [-> ?]%lookup_replicate.
    split; [done|]. split; [lia|done].
Defined.

(** C15: partition isolation.  Whatever a client asks of one partition, legal or
    not, every partition that shares no block with it keeps its contents. *)
Theorem partitioned_isolation {C} (I : block_store_interface C) (V : store_view C)
    call_listener (p p' : partitioned_block_store C) client h q k r req x :
  BlockStoreLaws I V -> partitioned_ok I V p -> 0 <= h -> request_wf req ->
  nthZ (partitions p) h = Some q -> nthZ (partitions p) k = Some r ->
  partition_wf (back_store_info p) q -> partition_wf (back_store_info p) r -> disjoint q r ->
  run_request (partitioned_block_store_interface call_listener) client h p req = Some (x, p') ->
  nthZ (partitions p') k = Some r /\ partition_data V p' r = partition_data V p r.
Proof.
  intros HL Hok Hh Hwf Hq Hr Hwq Hwr Hdis Hrun.
  destruct (partition_in_back I V p q Hok Hwq) as (_ & Hf2 & _).
  destruct (partition_in_back I V p r Hok Hwr) as (_ & _ & _ & _ & Hp1 & _).
  pose proof (proj1 Hwq) as Hbq. pose proof (proj1 Hwr) as Hbr.
  rewrite <- Hbr in Hbq. unfold fits in Hf2.
  destruct (request_frame I V call_listener p client h req x p' q
    (sp_base_lba r * sp_block_size r) (sp_num_blocks r * sp_block_size r)) as [Hs Hp]; [done..| |].
  - rewrite <- Hbq. destruct Hdis as [Hd|Hd]; [right|left; rewrite <- Z.mul_add_distr_r];
      apply Z.mul_le_mono_nonneg_r; lia.
  - split; [by rewrite Hp|]. done.
Qed.

Lemma partitioned_isolation_witness :
  let q := Partition (fill 1 16) 4 3 0 (Acl (fill 0 40) 1 [9]) in
  let r := Partition (fill 2 16) 4 2 3 storage_partition_acl_init in
  let p := example_store 0 2 ([q; r] ++ replicate 6 zero_partition) in
  exists x p', run_request (partitioned_block_store_interface example_listener) 9 0 p
      (Write 2 2 [1; 2; 3; 4]) = Some (x, p') /\
    nthZ (partitions p') 1 = Some r /\ partition_data ram_view p' r = partition_data ram_view p r.
Proof.
  intros q r p.
  assert (fst <$> run_request (partitioned_block_store_interface example_listener) 9 0 p
      (Write 2 2 [1; 2; 3; 4]) = Some (Written (Some 2)))
    as ([x p'] & Hr & Hx)%fmap_Some by (vm_compute; reflexivity).
  simpl in Hx. subst x.
  eexists _, p'. split; [exact Hr|].
  eapply (partitioned_isolation ram_block_store_interface ram_view example_listener p _ 9 0 q 1 r
    (Write 2 2 [1; 2; 3; 4])); [apply _| |done|done|done|done|by repeat split|by repeat split| |
    exact Hr].
  - apply example_table_ok; [done|lia|]. intros i x Hx.
    do 2 (destruct i as [|i]; [simpl in Hx; simplify_eq; split; [done|by repeat split]|]).
    change (replicate 6 zero_partition !! i = Some x) in Hx. apply lookup_replicate in Hx as [-> _]. split; [done|]. split; [lia|done].
  - by left.
Defined.

(** Initialising a partitioned store in zeroed memory over a back store that
    keeps the laws and configuring it with any list of partitions yields a
    well-formed store: every configured partition lies inside the back store
    and no client has access to any of them yet. *)
Theorem partitioned_configuration_ok {C} (I : block_store_interface C) (V : store_view C)
    (p0 p : partitioned_block_store C) info client guid b auth l :
  BlockStoreLaws I V -> zeroed p0 -> bs_interface b = Some I -> v_ok V (bs_context b) ->
  partitioned_block_store_init p0 info client guid b auth = Some (true, p) ->
  Forall (fun '(_, s, e) => 0 <= s /\ 0 <= e) l ->
  exists p', add_partitions p l = Some p' /\ partitioned_ok I V p' /\
    (forall i q, nthZ (partitions p') i = Some q -> i < num_partitions p' ->
       partition_wf (back_store_info p') q) /\
    forall client h, ~ v_access (partitioned_view I V) p' client h.
Proof.
  intros HL Hz Hi Hok Hinit Hl.
  destruct (partitioned_init_ok I V p0 info client guid b auth p Hz Hi Hok Hinit) as [Hp Hu].
  destruct (add_partitions_ok I V p l Hp Hl) as (p' & Ha & [Hok' _] & Hu').
  exists p'. split; [done|]. split; [done|]. split.
  - intros i q Hq Hlt. destruct Hok' as (_ & _ & _ & Ht). by apply (Ht i q Hq).
  - intros c h (q & Hq & i & Hi' & _). apply Hu' in Hq; [lia|done].
Qed.

Lemma partitioned_configuration_ok_witness :
  let p0 := Partitioned 0 None 5 3 (replicate 8 zero_partition) 7 example_back
              (Info 0 0 [] []) in
  let l := [(fill 1 16, 0, 2); (fill 2 16, 3, 9); (fill 2 16, 3, 4)] in
  exists p, partitioned_block_store_init p0 (Info 1 2 [] []) 100 (fill 7 16) example_back None
    = Some (true, p) /\
  exists p', add_partitions p l = Some p' /\
    partitioned_ok ram_block_store_interface ram_view p' /\
    (forall i q, nthZ (partitions p') i = Some q -> i < num_partitions p' ->
       partition_wf (back_store_info p') q) /\
    forall client h, ~ v_access (partitioned_view ram_block_store_interface ram_view) p' client h.
Proof.
  intros p0 l.
  assert (fst <$> partitioned_block_store_init p0 (Info 1 2 [] []) 100 (fill 7 16) example_back
      None = Some true) as ([b p] & Hp & Hx)%fmap_Some by (vm_compute; reflexivity).
  simpl in Hx. subst b.
  exists p. split; [exact Hp|].
  apply (partitioned_configuration_ok ram_block_store_interface ram_view p0 p (Info 1 2 [] [])
    100 (fill 7 16) example_back None l);
    [apply _|reflexivity|reflexivity|apply (example_back_ok 0 0 [])|exact Hp|repeat constructor; lia].
Defined.
