(* ===== verification/Volume.v ===== *)
(** * components/media/volume: the volume interface

    volume.h gives every volume a device of the TF-A io_storage layer (open,
    close, seek, size, read, write) plus two optional operations.  TF-A's
    io_storage is not part of the repository: it is the parameter [io_storage],
    and [io_forwards] states its documented behaviour (a call reaches the
    function table of the device; an open may also fail for lack of handles).
    A volume is modelled by the record of its device functions over the type
    [X] of volume states.  [VolumeLaws] is what a client of an open volume may
    rely on: the volume is a file of fixed size with a position.
    volume_index.c is the table from volume IDs to volumes. *)
From S2P Require Import Prelude Status.

(** io_seek_mode_t of io_storage.h *)
Inductive io_seek_mode := IO_SEEK_INVALID | IO_SEEK_SET | IO_SEEK_CUR.

Record io_dev_funcs (X : Type) := DevFuncs {
  dev_open : X -> option (Z * X);
  dev_close : X -> option (Z * X);
  dev_seek : X -> io_seek_mode -> Z -> option (Z * X);
  (** [dev_size x length]: status, length out parameter *)
  dev_size : X -> Z -> option (Z * Z * X);
  (** [dev_read x buffer length length_read] *)
  dev_read : X -> bytes -> Z -> Z -> option (Z * bytes * Z * X);
  (** [dev_write x buffer length length_written] *)
  dev_write : X -> bytes -> Z -> Z -> option (Z * Z * X)
}.
Arguments DevFuncs {X}.
Arguments dev_open {X}.
Arguments dev_close {X}.
Arguments dev_seek {X}.
Arguments dev_size {X}.
Arguments dev_read {X}.
Arguments dev_write {X}.

(** The io_open, io_close, ... functions of TF-A. *)
Record io_storage (X : Type) := IoStorage {
  io_open : io_dev_funcs X -> X -> option (Z * X);
  io_close : io_dev_funcs X -> X -> option (Z * X);
  io_seek : io_dev_funcs X -> X -> io_seek_mode -> Z -> option (Z * X);
  io_size : io_dev_funcs X -> X -> Z -> option (Z * Z * X);
  io_read : io_dev_funcs X -> X -> bytes -> Z -> Z -> option (Z * bytes * Z * X);
  io_write : io_dev_funcs X -> X -> bytes -> Z -> Z -> option (Z * Z * X)
}.
Arguments IoStorage {X}.
Arguments io_open {X}.
Arguments io_close {X}.
Arguments io_seek {X}.
Arguments io_size {X}.
Arguments io_read {X}.
Arguments io_write {X}.

Definition io_forwards {X} (io : io_storage X) : Prop :=
  (forall f x, io_open io f x = dev_open f x \/
     exists e, e <> 0 /\ io_open io f x = Some (e, x)) /\
  (forall f x, io_close io f x = dev_close f x) /\
  (forall f x m o, io_seek io f x m o = dev_seek f x m o) /\
  (forall f x n, io_size io f x n = dev_size f x n) /\
  (forall f x b n r, io_read io f x b n r = dev_read f x b n r) /\
  (forall f x b n r, io_write io f x b n r = dev_write f x b n r).

(** The layer that only forwards. *)
Definition forwarding_io {X} : io_storage X :=
  IoStorage dev_open dev_close dev_seek dev_size dev_read dev_write.

(** struct volume: the optional functions may be NULL. *)
Record volume (X : Type) := Volume {
  funcs : io_dev_funcs X;
  vol_erase : option (X -> option (Z * X));
  vol_get_storage_ids : option (X -> option bytes -> option bytes ->
                                option (Z * option bytes * option bytes * X))
}.
Arguments Volume {X}.
Arguments funcs {X}.
Arguments vol_erase {X}.
Arguments vol_get_storage_ids {X}.

Section Operations.
Context {X : Type}.

Definition volume_init (f : io_dev_funcs X) : volume X := Volume f None None.

Context (io : io_storage X).

Definition volume_open (v : volume X) (x : X) := io_open io (funcs v) x.
Definition volume_close (v : volume X) (x : X) := io_close io (funcs v) x.
Definition volume_seek (v : volume X) (x : X) (mode : io_seek_mode) (offset : Z) :=
  io_seek io (funcs v) x mode offset.
Definition volume_size (v : volume X) (x : X) (size : Z) := io_size io (funcs v) x size.
Definition volume_read (v : volume X) (x : X) (buffer : bytes) (length length_read : Z) :=
  io_read io (funcs v) x buffer length length_read.
Definition volume_write (v : volume X) (x : X) (buffer : bytes) (length length_written : Z) :=
  io_write io (funcs v) x buffer length length_written.

Definition volume_erase (v : volume X) (x : X) : option (Z * X) :=
  match vol_erase v with Some f => f x | None => Some (0, x) end.

Definition volume_get_storage_ids (v : volume X) (x : X) (partition_guid parent_guid : option bytes)
    : option (Z * option bytes * option bytes * X) :=
  match vol_get_storage_ids v with
  | Some f => f x partition_guid parent_guid
  | None => Some (- EIO, partition_guid, parent_guid, x)
  end.

End Operations.

(** ** What an open volume promises *)
Record volume_view (X : Type) := VolumeView {
  vv_ready : X -> Prop;
  vv_data : X -> bytes;
  vv_pos : X -> Z
}.
Arguments VolumeView {X}.
Arguments vv_ready {X}.
Arguments vv_data {X}.
Arguments vv_pos {X}.

Class VolumeLaws {X} (io : io_storage X) (v : volume X) (W : volume_view X) : Prop := {
  vlaw_pos x : vv_ready W x -> 0 <= vv_pos W x <= len (vv_data W x) /\ len (vv_data W x) < 2 ^ 63;
  vlaw_seek x mode offset :
    vv_ready W x -> - 2 ^ 63 <= offset < 2 ^ 63 ->
    let target := match mode with IO_SEEK_CUR => vv_pos W x + offset | _ => offset end in
    exists st x', volume_seek io v x mode offset = Some (st, x') /\ vv_ready W x' /\
      vv_data W x' = vv_data W x /\
      ((st = 0 /\ mode <> IO_SEEK_INVALID /\ 0 <= target <= len (vv_data W x) /\
        vv_pos W x' = target)
       \/ (st <> 0 /\ x' = x /\
           (mode <> IO_SEEK_INVALID -> ~ 0 <= target <= len (vv_data W x))));
  vlaw_size x size :
    vv_ready W x -> volume_size io v x size = Some (0, len (vv_data W x), x);
  vlaw_read x buf n r :
    vv_ready W x -> 0 <= n <= len buf -> n < 2 ^ 64 ->
    let k := Z.min n (len (vv_data W x) - vv_pos W x) in
    exists buf' x', volume_read io v x buf n r = Some (0, buf', k, x') /\ vv_ready W x' /\
      vv_data W x' = vv_data W x /\ vv_pos W x' = vv_pos W x + k /\
      store buf 0 (slice (vv_data W x) (vv_pos W x) k) = Some buf';
  vlaw_write x buf n r :
    vv_ready W x -> 0 <= n <= len buf -> n < 2 ^ 64 ->
    let k := Z.min n (len (vv_data W x) - vv_pos W x) in
    exists x', volume_write io v x buf n r = Some (0, k, x') /\ vv_ready W x' /\
      vv_pos W x' = vv_pos W x + k /\
      store (vv_data W x) (vv_pos W x) (take (Z.to_nat k) buf) = Some (vv_data W x')
}.

(** ** The abstract file: its bytes and a position *)
Inductive file_op :=
  | FSeek (mode : io_seek_mode) (offset : Z)
  | FRead (n : Z)
  | FWrite (buf : bytes)
  | FSize.

Inductive file_reply :=
  | Sought (ok : bool)
  | Bytes (d : bytes)
  | Count (n : Z).

Definition file_op_wf (o : file_op) : Prop :=
  match o with
  | FSeek _ offset => - 2 ^ 63 <= offset < 2 ^ 63
  | FRead n => fits 64 n
  | FWrite buf => len buf < 2 ^ 64
  | FSize => True
  end.

Definition file_step (f : bytes * Z) (o : file_op) : file_reply * (bytes * Z) :=
  let '(d, pos) := f in
  match o with
  | FSeek mode offset =>
      let target := match mode with IO_SEEK_CUR => pos + offset | _ => offset end in
      match mode with
      | IO_SEEK_INVALID => (Sought false, f)
      | _ => if (0 <=? target) && (target <=? len d) then (Sought true, (d, target))
             else (Sought false, f)
      end
  | FRead n =>
      let k := Z.min n (len d - pos) in (Bytes (slice d pos k), (d, pos + k))
  | FWrite buf =>
      let k := Z.min (len buf) (len d - pos) in
      (Count k, (default d (store d pos (take (Z.to_nat k) buf)), pos + k))
  | FSize => (Count (len d), f)
  end.

Fixpoint file_run (f : bytes * Z) (os : list file_op) : list file_reply * (bytes * Z) :=
  match os with
  | [] => ([], f)
  | o :: os => let '(x, f) := file_step f o in let '(xs, f) := file_run f os in (x :: xs, f)
  end.

(** The same operations through the volume interface; the caller's buffer for a
    read has the requested length. *)
Definition volume_step {X} (io : io_storage X) (v : volume X) (x : X) (o : file_op)
    : option (file_reply * X) :=
  match o with
  | FSeek mode offset => '(st, x) ← volume_seek io v x mode offset; Some (Sought (st =? 0), x)
  | FRead n =>
      '(st, buf, k, x) ← volume_read io v x (fill 0 n) n 0;
      assert! st =? 0;; d ← load buf 0 k; Some (Bytes d, x)
  | FWrite buf =>
      '(st, k, x) ← volume_write io v x buf (len buf) 0; assert! st =? 0;; Some (Count k, x)
  | FSize => '(st, n, x) ← volume_size io v x 0; assert! st =? 0;; Some (Count n, x)
  end.

Fixpoint volume_run {X} (io : io_storage X) (v : volume X) (x : X) (os : list file_op)
    : option (list file_reply * X) :=
  match os with
  | [] => Some ([], x)
  | o :: os =>
      '(r, x) ← volume_step io v x o;
      '(rs, x) ← volume_run io v x os;
      Some (r :: rs, x)
  end.

(** ** volume_index.c

    The index holds pointers to volumes; a pointer is an address, 0 is NULL. *)
Definition VOLUME_INDEX_MAX_ENTRIES : Z := 8.

Record volume_index := VolumeIndex {
  vi_size : Z;
  entries : list (Z * Z)
}.

Definition volume_index_clear : volume_index :=
  VolumeIndex 0 (replicate (Z.to_nat VOLUME_INDEX_MAX_ENTRIES) (0, 0)).

Definition volume_index_init : volume_index := volume_index_clear.

Definition volume_index_add (ix : volume_index) (volume_id volume : Z)
    : option (Z * volume_index) :=
  if vi_size ix <? VOLUME_INDEX_MAX_ENTRIES then
    l ← setZ (entries ix) (vi_size ix) (volume_id, volume);
    Some (0, VolumeIndex (u64 (vi_size ix + 1)) l)
  else Some (-1, ix).

Fixpoint volume_index_find_loop (l : list (Z * Z)) (volume_id : Z) (n : nat) (i volume : Z)
    : option (Z * Z) :=
  match n with
  | O => Some (-1, volume)
  | S n =>
      e ← nthZ l i;
      if fst e =? volume_id then Some (0, snd e)
      else volume_index_find_loop l volume_id n (i + 1) volume
  end.

(** The status and the [*volume] out parameter. *)
Definition volume_index_find (ix : volume_index) (volume_id volume : Z) : option (Z * Z) :=
  volume_index_find_loop (entries ix) volume_id (Z.to_nat (vi_size ix)) 0 volume.

Definition volume_index_get (ix : volume_index) (index : Z) : option Z :=
  if index <? vi_size ix then snd <$> nthZ (entries ix) index else Some 0.

(** [deref] gives the [dev_handle] and [io_spec] fields of the volume at an address. *)
Definition plat_get_image_source (ix : volume_index) (deref : Z -> option (Z * Z))
    (volume_id dev_handle io_spec : Z) : option (Z * Z * Z) :=
  '(result, volume) ← volume_index_find ix volume_id 0;
  if result =? 0 then
    if negb (volume =? 0) then
      '(d, s) ← deref volume; Some (result, d, s)
    else Some (-1, dev_handle, io_spec)
  else Some (result, dev_handle, io_spec).

(** The calls made since the index was cleared, oldest first. *)
Fixpoint volume_index_adds (ix : volume_index) (l : list (Z * Z)) : option (list Z * volume_index) :=
  match l with
  | [] => Some ([], ix)
  | (i, v) :: l =>
      '(r, ix) ← volume_index_add ix i v;
      '(rs, ix) ← volume_index_adds ix l;
      Some (r :: rs, ix)
  end.

(** The specification: the first registration of an ID among those accepted. *)
Definition first_registered (l : list (Z * Z)) (volume_id : Z) : option Z :=
  snd <$> find_index (fun e => fst e =? volume_id) l ≫= (fun i => l !! i).

(** ** Lemmas *)

Lemma forwarding_io_forwards {X} : io_forwards (@forwarding_io X).
Proof. split; [by left|]. done. Qed.

Section File.
Context {X : Type} (io : io_storage X) (v : volume X) (W : volume_view X) `{!VolumeLaws io v W}.

Lemma volume_step_refines x o :
  vv_ready W x -> file_op_wf o ->
  exists r x', volume_step io v x o = Some (r, x') /\ vv_ready W x' /\
    file_step (vv_data W x, vv_pos W x) o = (r, (vv_data W x', vv_pos W x')).
Proof.
  intros Hr Ho. destruct (vlaw_pos x Hr) as [Hpos Hsz]. destruct o as [mode off|n|buf|]; simpl.
  - destruct (vlaw_seek x mode off Hr Ho) as (st & x' & -> & Hr' & Hd & Hcase). simpl in *.
    eexists _, _. split; [done|]. split; [done|]. rewrite Hd.
    destruct Hcase as [(-> & Hm & Ht & ->)|(Hst & -> & Hm)].
    + destruct mode; [done|..]; (case_match; [done|lia]).
    + destruct (Z.eqb_spec st 0); [done|]. destruct mode; [done|..];
        specialize (Hm ltac:(done)); (case_match; [lia|done]).
  - destruct Ho as [Hn0 Hn64].
    destruct (vlaw_read x (fill 0 n) n 0 Hr) as (buf & x' & -> & Hr' & Hd & Hp & Hst);
      [by rewrite len_fill|done|]. simpl. apply load_store_same in Hst.
    rewrite slice_len in Hst by lia. rewrite Hst. simpl. eexists _, _. split; [done|].
    split; [done|]. by rewrite Hd, Hp.
  - destruct (vlaw_write x buf (len buf) 0 Hr) as (x' & -> & Hr' & Hp & Hst);
      [pose proof (len_nonneg buf); lia|done|]. simpl. eexists _, _. split; [done|].
    split; [done|]. by rewrite Hst, Hp.
  - rewrite vlaw_size by done. simpl. by eexists _, _.
Qed.

(** A lawful volume behaves as the abstract file. *)
Lemma volume_run_refines x os :
  vv_ready W x -> Forall file_op_wf os ->
  exists rs x', volume_run io v x os = Some (rs, x') /\ vv_ready W x' /\
    file_run (vv_data W x, vv_pos W x) os = (rs, (vv_data W x', vv_pos W x')).
Proof.
  intros Hr Hos. revert x Hr. induction Hos as [|o os Ho Hos IH]; intros x Hr;
    cbn [volume_run file_run].
  - by eexists _, _.
  - destruct (volume_step_refines x o Hr Ho) as (r & x1 & -> & Hr1 & ->).
    cbn [mbind option_bind].
    destruct (IH x1 Hr1) as (rs & x2 & -> & Hr2 & ->). by eexists _, _.
Qed.

End File.

Definition index_holds (ix : volume_index) (l : list (Z * Z)) : Prop :=
  vi_size ix = len l /\ len (entries ix) = VOLUME_INDEX_MAX_ENTRIES /\
  take (length l) (entries ix) = l.

Lemma volume_index_add_spec ix l i v :
  index_holds ix l ->
  exists ix', volume_index_add ix i v =
      Some (if len l <? VOLUME_INDEX_MAX_ENTRIES then 0 else -1, ix') /\
    index_holds ix' (if len l <? VOLUME_INDEX_MAX_ENTRIES then l ++ [(i, v)] else l).
Proof.
  intros (Hs & Hl & Ht). unfold volume_index_add. rewrite Hs.
  destruct (Z.ltb_spec (len l) VOLUME_INDEX_MAX_ENTRIES) as [Hlt|]; [|by exists ix].
  pose proof (len_nonneg l). unfold VOLUME_INDEX_MAX_ENTRIES in *.
  rewrite setZ_is_Some by lia. simpl. eexists. split; [done|].
  rewrite wrap_small by lia. split; [simpl; len_lia|]. simpl.
  split; [unfold len in *; by rewrite length_insert|].
  rewrite length_app. simpl. unfold len in *. rewrite Nat2Z.id, Nat.add_1_r.
  rewrite (take_S_r _ _ (i, v)); [|apply list_lookup_insert_eq; lia].
  by rewrite take_insert_ge, Ht by lia.
Qed.

Lemma volume_index_adds_spec ix l0 l :
  index_holds ix l0 ->
  exists rs ix', volume_index_adds ix l = Some (rs, ix') /\
    index_holds ix' (l0 ++ take (Z.to_nat (VOLUME_INDEX_MAX_ENTRIES - len l0)) l).
Proof.
  revert ix l0. induction l as [|[i v] l IH]; intros ix l0 Hix.
  - eexists [], _. split; [done|]. by rewrite take_nil, app_nil_r.
  - simpl. destruct (volume_index_add_spec ix l0 i v Hix) as (ix1 & -> & Hix1). simpl.
    destruct (IH ix1 _ Hix1) as (rs & ix2 & -> & Hix2). simpl. eexists _, _. split; [done|].
    destruct (Z.ltb_spec (len l0) VOLUME_INDEX_MAX_ENTRIES) as [Hlt|Hge].
    + rewrite <- app_assoc in Hix2. simpl in Hix2.
      replace (Z.to_nat (VOLUME_INDEX_MAX_ENTRIES - len l0)) with
        (S (Z.to_nat (VOLUME_INDEX_MAX_ENTRIES - len (l0 ++ [(i, v)]))))
        by (unfold len in *; rewrite length_app; simpl; lia).
      done.
    + replace (Z.to_nat (VOLUME_INDEX_MAX_ENTRIES - len l0)) with 0%nat in * by lia. done.
Qed.

Lemma volume_index_find_loop_spec l id n i v :
  0 <= i -> i + Z.of_nat n <= len l ->
  volume_index_find_loop l id n i v =
  Some (match first_registered (take n (drop (Z.to_nat i) l)) id with
        | Some w => (0, w) | None => (-1, v) end).
Proof.
  revert i. induction n as [|n IH]; intros i Hi Hl; simpl; [done|].
  destruct (nthZ_is_Some l i) as [e He]; [lia|]. rewrite He. simpl.
  unfold nthZ in He. destruct (Z.leb_spec 0 i); [|lia].
  rewrite (drop_S _ e _ He). simpl. unfold first_registered in *. simpl.
  destruct (fst e =? id) eqn:Heq; [done|].
  rewrite IH by lia. replace (Z.to_nat (i + 1)) with (S (Z.to_nat i)) by lia.
  by destruct (find_index _ _).
Qed.

Lemma volume_index_find_spec ix l id v :
  index_holds ix l ->
  volume_index_find ix id v =
  Some (match first_registered l id with Some w => (0, w) | None => (-1, v) end).
Proof.
  intros (Hs & Hl & Ht). unfold volume_index_find.
  assert (len l <= len (entries ix)).
  { rewrite <- Ht. unfold len. rewrite length_take. lia. }
  rewrite volume_index_find_loop_spec by (pose proof (len_nonneg l); lia).
  rewrite drop_0, Hs. unfold len. by rewrite Nat2Z.id, Ht.
Qed.

(** ** Properties of the index *)

(** After any sequence of registrations the index resolves an ID to the
    volume first registered under it among the first eight registrations, by
    ID and through the image source hook, and to nothing otherwise. *)
Theorem volume_index_lookup l deref id dev io :
  exists rs ix,
    volume_index_adds volume_index_init l = Some (rs, ix) /\
    let l8 := take 8 l in
    (forall v, volume_index_find ix id v =
       Some (match first_registered l8 id with Some w => (0, w) | None => (-1, v) end)) /\
    plat_get_image_source ix deref id dev io =
      (match first_registered l8 id with
       | Some w => if w =? 0 then Some (-1, dev, io)
                   else '(d, s) ← deref w; Some (0, d, s)
       | None => Some (-1, dev, io) end) /\
    (forall i, 0 <= i -> volume_index_get ix i = Some (default 0 (snd <$> nthZ l8 i))).
Proof.
  assert (index_holds volume_index_init []) as H0 by done.
  destruct (volume_index_adds_spec volume_index_init [] l H0) as (rs & ix & Ha & Hix).
  exists rs, ix. split; [done|]. change (Z.to_nat (VOLUME_INDEX_MAX_ENTRIES - len []))
    with 8%nat in Hix. rewrite app_nil_l in Hix. intros l8. split; [|split].
  - intros v. by apply volume_index_find_spec.
  - unfold plat_get_image_source. rewrite (volume_index_find_spec _ _ _ _ Hix).
    fold l8. destruct (first_registered l8 id) as [w|]; simpl; [|done].
    by destruct (w =? 0).
  - intros i Hi. destruct Hix as (Hs & Hl & Ht). unfold volume_index_get. rewrite Hs.
    fold l8 in Hs, Ht |- *. destruct (Z.ltb_spec i (len l8)).
    + rewrite <- Ht. unfold len in *.
      assert (nthZ (take (length l8) (entries ix)) i = nthZ (entries ix) i) as ->.
      { rewrite <- (Nat2Z.id (length l8)), nthZ_take. case_match; [done|lia]. }
      destruct (nthZ_is_Some (entries ix) i) as [e He]; [|by rewrite He].
      rewrite <- Ht in H. rewrite length_take in H. unfold len. lia.
    + by rewrite nthZ_None by lia.
Qed.
