(* ===== verification/BlockVolume.v ===== *)
(** * components/media/volume/block_volume: a volume on a block store

    block_volume.c turns a partition of a block store into a file: a position,
    and read and write loops that cut a transfer at block boundaries.  The
    loops run while data remain; their fuel is one more than the length of the
    transfer, because a lawful block store moves at least one byte per call. *)
From S2P Require Import Prelude Status StoragePartition BlockStore BlockDevice.
From S2P Require Import PartitionedBlockStore Volume.

Definition EPERM : Z := 1.
Definition ENXIO : Z := 6.
Definition UINT32_MAX : Z := 2 ^ 32 - 1.

Record block_volume (C : Type) := BlockVolume {
  file_pos : Z;
  bv_size : Z;
  bv_store : block_store C;
  bv_guid : bytes;
  bv_handle : Z;
  bv_info : storage_partition_info
}.
Arguments BlockVolume {C}.
Arguments file_pos {C}.
Arguments bv_size {C}.
Arguments bv_store {C}.
Arguments bv_guid {C}.
Arguments bv_handle {C}.
Arguments bv_info {C}.

Section BlockVolume.
Context {C : Type}.
Implicit Types b : block_volume C.

Definition set_pos b (pos : Z) : block_volume C :=
  BlockVolume pos (bv_size b) (bv_store b) (bv_guid b) (bv_handle b) (bv_info b).
Definition set_store b (s : block_store C) : block_volume C :=
  BlockVolume (file_pos b) (bv_size b) s (bv_guid b) (bv_handle b) (bv_info b).

(** The two GUID fields of partition_info keep their old value [b]. *)
Definition block_volume_init b (s : block_store C) (guid : bytes) : block_volume C :=
  BlockVolume 0 0 s guid 0
    (Info 0 0 (info_partition_guid (bv_info b)) (info_parent_guid (bv_info b))).

Definition block_volume_set_partition_guid b (guid : bytes) : block_volume C :=
  BlockVolume (file_pos b) (bv_size b) (bv_store b) guid (bv_handle b) (bv_info b).

Definition block_volume_open b : option (Z * block_volume C) :=
  '(st, info, s) ← block_store_get_partition_info (bv_store b) (bv_guid b) (bv_info b);
  let b := BlockVolume (file_pos b) (bv_size b) s (bv_guid b) (bv_handle b) info in
  if st =? PSA_SUCCESS then
    '(st, h, s) ← block_store_open (bv_store b) 0 (bv_guid b) (bv_handle b);
    Some (if st =? PSA_SUCCESS then 0 else - EPERM,
          BlockVolume 0 (u64 (info_block_size info * info_num_blocks info)) s (bv_guid b) h info)
  else Some (- EPERM, b).

Definition block_volume_close b : option (Z * block_volume C) :=
  '(st, s) ← block_store_close (bv_store b) 0 (bv_handle b);
  let b := set_store b s in
  if st =? PSA_SUCCESS then
    Some (0, BlockVolume 0 0 (bv_store b) (bv_guid b) (bv_handle b) (bv_info b))
  else Some (- ENXIO, b).

(** [offset] is a signed 64-bit value; the comparisons with the size_t [size]
    convert it to unsigned, and the sum is computed unsigned and converted to
    ssize_t. *)
Definition block_volume_seek b (mode : io_seek_mode) (offset : Z)
    : option (Z * block_volume C) :=
  match mode with
  | IO_SEEK_SET =>
      if u64 offset <=? bv_size b then Some (0, set_pos b (u64 offset))
      else Some (- EINVAL, b)
  | IO_SEEK_CUR =>
      let target_pos := s64 (u64 (file_pos b + u64 offset)) in
      if (0 <=? target_pos) && (u64 target_pos <=? bv_size b)
      then Some (0, set_pos b (u64 target_pos))
      else Some (- EINVAL, b)
  | IO_SEEK_INVALID => Some (- EINVAL, b)
  end.

Definition block_volume_size b (length : Z) : option (Z * Z * block_volume C) :=
  Some (0, bv_size b, b).

(** The length one iteration asks the block store for. *)
Definition request_len b (length done : Z) : Z :=
  let offset := file_pos b mod info_block_size (bv_info b) in
  let bytes_remaining_in_block := info_block_size (bv_info b) - offset in
  let bytes_remaining_in_file := bv_size b - file_pos b in
  let bytes_remaining := length - done in
  let bytes_remaining := if bytes_remaining >? bytes_remaining_in_file
                         then bytes_remaining_in_file else bytes_remaining in
  if bytes_remaining <? bytes_remaining_in_block then bytes_remaining
  else bytes_remaining_in_block.

(** [base] is the caller's buffer; an iteration passes the part of it that
    starts at [bytes_read]. *)
Fixpoint block_volume_read_loop (fuel : nat) b (base : bytes) (length bytes_read : Z)
    : option (Z * bytes * Z * block_volume C) :=
  match fuel with
  | O => None
  | S fuel =>
      if (bytes_read <? length) && (file_pos b <? bv_size b) then
        let lba := file_pos b / info_block_size (bv_info b) in
        let offset := file_pos b mod info_block_size (bv_info b) in
        '(st, part, actual_len, s) ←
          block_store_read (bv_store b) 0 (bv_handle b) lba offset
            (request_len b length bytes_read) (drop (Z.to_nat bytes_read) base) 0;
        let base := take (Z.to_nat bytes_read) base ++ part in
        let b := set_store b s in
        if negb (st =? PSA_SUCCESS) then Some (- EIO, base, 0, b)
        else block_volume_read_loop fuel (set_pos b (u64 (file_pos b + actual_len))) base length
               (u64 (bytes_read + actual_len))
      else Some (0, base, bytes_read, b)
  end.

Definition block_volume_read b (buffer : bytes) (length length_read : Z)
    : option (Z * bytes * Z * block_volume C) :=
  if info_block_size (bv_info b) =? 0 then Some (- EIO, buffer, 0, b)
  else block_volume_read_loop (S (Z.to_nat length)) b buffer length 0.

Fixpoint block_volume_write_loop (fuel : nat) b (buffer : bytes) (length bytes_written : Z)
    : option (Z * Z * block_volume C) :=
  match fuel with
  | O => None
  | S fuel =>
      if (bytes_written <? length) && (file_pos b <? bv_size b) then
        let lba := file_pos b / info_block_size (bv_info b) in
        let offset := file_pos b mod info_block_size (bv_info b) in
        '(st, actual_len, s) ←
          block_store_write (bv_store b) 0 (bv_handle b) lba offset
            (drop (Z.to_nat bytes_written) buffer) (request_len b length bytes_written) 0;
        let b := set_store b s in
        if negb (st =? PSA_SUCCESS) then Some (- EIO, 0, b)
        else block_volume_write_loop fuel (set_pos b (u64 (file_pos b + actual_len))) buffer
               length (u64 (bytes_written + actual_len))
      else Some (0, bytes_written, b)
  end.

Definition block_volume_write b (buffer : bytes) (length length_written : Z)
    : option (Z * Z * block_volume C) :=
  if info_block_size (bv_info b) =? 0 then Some (- EIO, 0, b)
  else block_volume_write_loop (S (Z.to_nat length)) b buffer length 0.

Definition block_volume_erase b : option (Z * block_volume C) :=
  '(st, s) ← block_store_erase (bv_store b) 0 (bv_handle b) 0 UINT32_MAX;
  Some (if st =? PSA_SUCCESS then 0 else - EIO, set_store b s).

(** [info] is the uninitialised local; the GUID out pointers may be NULL. *)
Definition block_volume_get_storage_ids (info : storage_partition_info) b
    (partition_guid parent_guid : option bytes)
    : option (Z * option bytes * option bytes * block_volume C) :=
  '(st, info, s) ← block_store_get_partition_info (bv_store b) (bv_guid b) info;
  let b := set_store b s in
  if st =? PSA_SUCCESS then
    Some (0, (fun _ => info_partition_guid info) <$> partition_guid,
          (fun _ => info_parent_guid info) <$> parent_guid, b)
  else Some (- EINVAL, partition_guid, parent_guid, b).

Definition block_volume_dev_funcs : io_dev_funcs (block_volume C) :=
  DevFuncs block_volume_open block_volume_close block_volume_seek block_volume_size
    block_volume_read block_volume_write.

(** The volume published by block_volume_init. *)
Definition block_volume_volume (info : storage_partition_info) : volume (block_volume C) :=
  Volume block_volume_dev_funcs (Some block_volume_erase)
    (Some (block_volume_get_storage_ids info)).

End BlockVolume.

(** ** The abstract file *)
Section File.
Context {C : Type} (I : block_store_interface C) (V : store_view C).
Implicit Types b : block_volume C.

Definition bv_context b : C := bs_context (bv_store b).
Definition bv_data b : bytes := v_data V (bv_context b) (bv_handle b).

(** An open volume. *)
Definition bv_ready b : Prop :=
  bs_interface (bv_store b) = Some I /\ v_ok V (bv_context b) /\
  v_access V (bv_context b) 0 (bv_handle b) /\ 0 <= bv_handle b /\
  v_nblocks V (bv_context b) (bv_handle b) = info_num_blocks (bv_info b) /\
  v_bsize V (bv_context b) (bv_handle b) = info_block_size (bv_info b) /\
  0 < info_block_size (bv_info b) /\
  bv_size b = info_num_blocks (bv_info b) * info_block_size (bv_info b) /\
  bv_size b < 2 ^ 63 /\ 0 <= file_pos b <= bv_size b.

Definition bv_view : volume_view (block_volume C) := VolumeView bv_ready bv_data file_pos.

End File.

(** ** Lemmas *)
Section Laws.
Context {C : Type} (I : block_store_interface C) (V : store_view C) `{HL : !BlockStoreLaws I V}.
Implicit Types b : block_volume C.
Abbreviation ready := (bv_ready I V).

Lemma ready_data_len b : ready b -> len (bv_data V b) = bv_size b.
Proof.
  intros (Hi & Hok & Ha & Hh & Hn & Hb & Hp & Hs & _).
  destruct (law_geometry _ _ _ Hok Ha) as (_ & _ & _ & Hl).
  unfold bv_data. by rewrite Hl, Hn, Hb, Hs.
Qed.

Lemma ready_set_pos b pos : ready b -> 0 <= pos <= bv_size b -> ready (set_pos b pos).
Proof. intros (?&?&?&?&?&?&?&?&?&?) ?. do 9 (split; [done|]). done. Qed.

Lemma ready_keep b c' :
  ready b -> keeps V 0 (bv_handle b) (bv_context b) c' ->
  ready (set_store b (set_context (bv_store b) c')).
Proof.
  intros (?&?&?&?&Hn&Hb&?&?&?&?) (Hok & Ha & Hn' & Hb').
  unfold bv_ready, bv_context in *. simpl in *. rewrite Hn', Hb'. do 9 (split; [done|]). done.
Qed.

(** The position of an unfinished transfer, as a legal block position. *)
Lemma pos_in_range b :
  ready b -> file_pos b < bv_size b ->
  let bs := info_block_size (bv_info b) in
  let lba := file_pos b / bs in
  let offset := file_pos b mod bs in
  0 <= lba /\ 0 <= offset < bs /\ lba * bs + offset = file_pos b /\
  in_range V (bv_context b) 0 (bv_handle b) lba offset.
Proof.
  intros (Hi & Hok & Ha & Hh & Hn & Hb & Hp & Hs & _ & Hpos) Hlt bs lba offset.
  pose proof (Z.mod_pos_bound (file_pos b) bs Hp) as Hm.
  pose proof (Z.div_mod (file_pos b) bs ltac:(lia)) as Hdm.
  assert (0 <= lba) by (apply Z.div_pos; lia).
  assert (lba < info_num_blocks (bv_info b)).
  { apply Z.div_lt_upper_bound; [done|]. rewrite Z.mul_comm. lia. }
  split; [done|]. split; [exact Hm|]. split; [subst lba offset; lia|].
  unfold in_range. rewrite Hn, Hb. split; [done|]. split; [done|]. apply Hm.
Qed.

Lemma request_len_spec b length done :
  request_len b length done =
  Z.min (Z.min (length - done) (bv_size b - file_pos b))
        (info_block_size (bv_info b) - file_pos b mod info_block_size (bv_info b)).
Proof. unfold request_len. repeat case_match; lia. Qed.

Lemma read_step b base length done :
  ready b -> file_pos b < bv_size b -> 0 <= done < length -> length <= len base ->
  exists part c',
    let k := request_len b length done in
    let b' := set_store b (set_context (bv_store b) c') in
    block_store_read (bv_store b) 0 (bv_handle b)
      (file_pos b / info_block_size (bv_info b)) (file_pos b mod info_block_size (bv_info b))
      k (drop (Z.to_nat done) base) 0
      = Some (PSA_SUCCESS, part, k, set_context (bv_store b) c') /\
    0 < k /\ k <= length - done /\ file_pos b + k <= bv_size b /\
    store base done (slice (bv_data V b) (file_pos b) k)
      = Some (take (Z.to_nat done) base ++ part) /\
    ready b' /\ bv_data V b' = bv_data V b.
Proof.
  intros Hr Hlt Hdone Hbase.
  destruct (pos_in_range b Hr Hlt) as (Hl & Ho & Hpos & Hin). simpl in *.
  pose proof (request_len_spec b length done) as Hk. set (k := request_len b length done) in *.
  pose proof Hr as (Hi & Hok & Ha & Hh & Hn & Hb & Hp & Hs & _ & _).
  assert (len (drop (Z.to_nat done) base) = len base - done) as Hld
    by (unfold len in *; rewrite length_drop; lia).
  destruct (law_read (bv_context b) 0 (bv_handle b)
    (file_pos b / info_block_size (bv_info b)) (file_pos b mod info_block_size (bv_info b))
    k (drop (Z.to_nat done) base) 0)
    as (st & part & dl & c' & Hrd & Hext & Hcase); [done|done|lia|lia|lia|].
  destruct Hcase as [(-> & _ & Hdl & d & Hload & Hsto)|(_ & Hnr & _)]; [|done].
  rewrite Hb in Hdl, Hload. rewrite Hpos in Hload. assert (dl = k) as -> by lia.
  destruct (ext_keeps V 0 (bv_handle b) _ c' Ha Hext) as [Hkeep Hd].
  pose proof (ready_data_len b Hr) as Hdlen.
  exists part, c'. split; [eapply block_store_read_Some; done|].
  split; [lia|]. split; [lia|]. split; [lia|]. split.
  - apply store_drop; [lia|]. rewrite load_is_slice in Hload;
      [|lia|lia|unfold bv_data in Hdlen; lia]. by simplify_eq.
  - split; [by apply ready_keep|]. done.
Qed.

Lemma read_loop_spec fuel b base length done :
  ready b -> 0 <= done <= length -> length <= len base -> length < 2 ^ 64 ->
  (Z.to_nat (length - done) < fuel)%nat ->
  let k := Z.min (length - done) (bv_size b - file_pos b) in
  exists base' b', block_volume_read_loop fuel b base length done
      = Some (0, base', done + k, b') /\
    ready b' /\ bv_data V b' = bv_data V b /\ file_pos b' = file_pos b + k /\
    store base done (slice (bv_data V b) (file_pos b) k) = Some base'.
Proof.
  revert b base done. induction fuel as [|fuel IH]; intros b base done Hr Hdone Hbase Hlen Hf; [lia|].
  simpl. assert (0 <= file_pos b <= bv_size b /\ bv_size b < 2 ^ 63) as [Hpos Hsz].
  { destruct Hr as (_&_&_&_&_&_&_&_&?&?). done. }
  destruct (Z.ltb_spec done length); destruct (Z.ltb_spec (file_pos b) (bv_size b)); simpl.
  2-4: set (k := Z.min _ _); assert (k = 0) as -> by lia; rewrite slice_nil, store_nil by lia;
    rewrite !Z.add_0_r; by eexists _, _.
  destruct (read_step b base length done) as (part & c' & Hrd & Hk0 & Hk1 & Hk2 & Hst & Hr' & Hd');
    [done|done|lia|lia|].
  rewrite Hrd. simpl. set (k := request_len b length done) in *.
  set (b1 := set_store b (set_context (bv_store b) c')) in *.
  rewrite !wrap_small by lia.
  assert (len (take (Z.to_nat done) base ++ part) = len base) as Hl1 by (by eapply store_len).
  destruct (IH (set_pos b1 (file_pos b + k)) (take (Z.to_nat done) base ++ part) (done + k))
    as (base' & b' & -> & Hr2 & Hd2 & Hp2 & Hs2);
    [apply ready_set_pos; [done|simpl; lia]|lia|lia|lia|lia|]. simpl in Hp2, Hs2 |- *.
  set (k2 := Z.min (length - (done + k)) (bv_size b - (file_pos b + k))) in *.
  assert (Z.min (length - done) (bv_size b - file_pos b) = k + k2) as -> by lia.
  eexists _, _. split; [by rewrite Z.add_assoc|]. split; [done|].
  split; [by rewrite Hd2|]. split; [lia|].
  change (bv_data V (set_pos b1 (file_pos b + k))) with (bv_data V b1) in Hs2. rewrite Hd' in Hs2.
  rewrite slice_app by lia. rewrite <- store_app, Hst. cbn [mbind option_bind].
  rewrite slice_len by (try lia; rewrite ready_data_len by done; lia). done.
Qed.

Lemma write_step b buf length done :
  ready b -> file_pos b < bv_size b -> 0 <= done < length -> length <= len buf ->
  exists c',
    let k := request_len b length done in
    let b' := set_store b (set_context (bv_store b) c') in
    block_store_write (bv_store b) 0 (bv_handle b)
      (file_pos b / info_block_size (bv_info b)) (file_pos b mod info_block_size (bv_info b))
      (drop (Z.to_nat done) buf) k 0
      = Some (PSA_SUCCESS, k, set_context (bv_store b) c') /\
    0 < k /\ k <= length - done /\ file_pos b + k <= bv_size b /\
    store (bv_data V b) (file_pos b) (slice buf done k) = Some (bv_data V b') /\ ready b'.
Proof.
  intros Hr Hlt Hdone Hbase.
  destruct (pos_in_range b Hr Hlt) as (Hl & Ho & Hpos & Hin). simpl in *.
  pose proof (request_len_spec b length done) as Hk. set (k := request_len b length done) in *.
  pose proof Hr as (Hi & Hok & Ha & Hh & Hn & Hb & Hp & Hs & _ & _).
  assert (len (drop (Z.to_nat done) buf) = len buf - done) as Hld
    by (unfold len in *; rewrite length_drop; lia).
  destruct (law_write (bv_context b) 0 (bv_handle b)
    (file_pos b / info_block_size (bv_info b)) (file_pos b mod info_block_size (bv_info b))
    (drop (Z.to_nat done) buf) k 0)
    as (st & nw & c' & Hwr & Hcase); [done|done|lia|lia|lia|].
  destruct Hcase as [(-> & _ & Hnw & d' & Hsto & Hupd)|(_ & Hnr & _)]; [|done].
  rewrite Hb in Hnw, Hsto. rewrite Hpos in Hsto. assert (nw = k) as -> by lia.
  destruct (upd_keeps V 0 (bv_handle b) _ d' c' Ha Hupd) as [Hkeep Hd].
  exists c'. split; [eapply block_store_write_Some; done|].
  split; [lia|]. split; [lia|]. split; [lia|]. split; [|by apply ready_keep].
  unfold bv_data at 2. simpl. unfold bv_context. simpl. rewrite Hd. done.
Qed.

Lemma write_loop_spec fuel b buf length done :
  ready b -> 0 <= done <= length -> length <= len buf -> length < 2 ^ 64 ->
  (Z.to_nat (length - done) < fuel)%nat ->
  let k := Z.min (length - done) (bv_size b - file_pos b) in
  exists b', block_volume_write_loop fuel b buf length done = Some (0, done + k, b') /\
    ready b' /\ file_pos b' = file_pos b + k /\
    store (bv_data V b) (file_pos b) (slice buf done k) = Some (bv_data V b').
Proof.
  revert b done. induction fuel as [|fuel IH]; intros b done Hr Hdone Hbase Hlen Hf; [lia|].
  simpl. assert (0 <= file_pos b <= bv_size b /\ bv_size b < 2 ^ 63) as [Hpos Hsz].
  { destruct Hr as (_&_&_&_&_&_&_&_&?&?). done. }
  pose proof (ready_data_len b Hr) as Hdl.
  destruct (Z.ltb_spec done length); destruct (Z.ltb_spec (file_pos b) (bv_size b)); simpl.
  2-4: set (k := Z.min _ _); assert (k = 0) as -> by lia; rewrite slice_nil, store_nil by lia;
    rewrite !Z.add_0_r; by eexists _.
  destruct (write_step b buf length done) as (c' & Hwr & Hk0 & Hk1 & Hk2 & Hst & Hr');
    [done|done|lia|lia|].
  rewrite Hwr. simpl. set (k := request_len b length done) in *.
  set (b1 := set_store b (set_context (bv_store b) c')) in *.
  rewrite !wrap_small by lia.
  destruct (IH (set_pos b1 (file_pos b + k)) (done + k))
    as (b' & -> & Hr2 & Hp2 & Hs2); [apply ready_set_pos; [done|simpl; lia]|lia|lia|lia|lia|].
  simpl in Hp2, Hs2 |- *.
  set (k2 := Z.min (length - (done + k)) (bv_size b - (file_pos b + k))) in *.
  assert (Z.min (length - done) (bv_size b - file_pos b) = k + k2) as -> by lia.
  eexists _. split; [by rewrite Z.add_assoc|]. split; [done|]. split; [lia|].
  change (bv_data V (set_pos b1 (file_pos b + k))) with (bv_data V b1) in Hs2.
  rewrite slice_app by lia. rewrite <- store_app, Hst. cbn [mbind option_bind].
  by rewrite slice_len by lia.
Qed.

Lemma seek_spec b mode offset :
  ready b -> - 2 ^ 63 <= offset < 2 ^ 63 ->
  let target := match mode with IO_SEEK_CUR => file_pos b + offset | _ => offset end in
  exists st b', block_volume_seek b mode offset = Some (st, b') /\ ready b' /\
    bv_data V b' = bv_data V b /\
    ((st = 0 /\ mode <> IO_SEEK_INVALID /\ 0 <= target <= len (bv_data V b) /\
      file_pos b' = target)
     \/ (st <> 0 /\ b' = b /\
         (mode <> IO_SEEK_INVALID -> ~ 0 <= target <= len (bv_data V b)))).
Proof.
  intros Hr Hoff target.
  pose proof (ready_data_len b Hr) as Hl.
  assert (0 <= file_pos b <= bv_size b /\ bv_size b < 2 ^ 63) as [Hpos Hsz].
  { destruct Hr as (_&_&_&_&_&_&_&_&?&?). done. }
  assert (forall pos, 0 <= pos <= bv_size b -> ready (set_pos b pos)) as Hset
    by (intros; by apply ready_set_pos).
  unfold block_volume_seek. rewrite Hl.
  destruct mode; subst target; cbn beta iota.
  + eexists _, _. split; [done|]. split; [done|]. split; [done|]. by right.
  + assert (u64 offset = if offset <? 0 then offset + 2 ^ 64 else offset) as ->.
    { unfold wrap. case_match.
      - rewrite <- (Z.mod_add _ 1) by lia. rewrite Z.mod_small; lia.
      - apply Z.mod_small. lia. }
    destruct (Z.leb_spec (if offset <? 0 then offset + 2 ^ 64 else offset) (bv_size b));
      eexists _, _; (split; [done|]); destruct (Z.ltb_spec offset 0); try lia.
    * split; [apply Hset; lia|]. split; [done|]. left. repeat split; try lia; done.
    * split; [done|]. split; [done|]. right. repeat split; try done. lia.
    * split; [done|]. split; [done|]. right. repeat split; try done. lia.
  + set (t := file_pos b + offset).
    assert (s64 (u64 (file_pos b + u64 offset)) = s64 t) as ->.
    { by rewrite swrap_wrap, swrap_add_wrap by lia. }
    destruct (decide (t < 2 ^ 63)) as [Hsmall|Hbig].
    * rewrite swrap_small by lia.
      destruct (Z.leb_spec 0 t); simpl.
      -- rewrite wrap_small by lia.
         destruct (Z.leb_spec t (bv_size b)); eexists _, _; (split; [done|]).
         ++ split; [apply Hset; lia|]. split; [done|]. left. repeat split; try lia; done.
         ++ split; [done|]. split; [done|]. right. repeat split; try done. lia.
      -- eexists _, _. split; [done|]. split; [done|]. split; [done|]. right.
         repeat split; try done. lia.
    * assert (s64 t = t - 2 ^ 64) as ->.
      { unfold swrap. rewrite <- (Z.mod_add _ (-1)) by lia. rewrite Z.mod_small; lia. }
      destruct (Z.leb_spec 0 (t - 2 ^ 64)); [lia|]. simpl. eexists _, _. split; [done|].
      split; [done|]. split; [done|]. right. repeat split; try done. lia.
Qed.

(** An open volume keeps the volume laws. *)
Lemma block_volume_laws io info :
  io_forwards io -> VolumeLaws io (block_volume_volume (C := C) info) (bv_view I V).
Proof.
  intros (_ & _ & Fseek & Fsize & Fread & Fwrite). split.
  - intros b Hr. pose proof (ready_data_len b Hr) as Hl. simpl. rewrite Hl.
    destruct Hr as (_&_&_&_&_&_&_&_&?&?). done.
  - intros b mode offset Hr Hoff. unfold volume_seek. rewrite Fseek. by apply seek_spec.
  - intros b size Hr. unfold volume_size. rewrite Fsize. simpl. unfold block_volume_size.
    by rewrite <- (ready_data_len b Hr).
  - intros b buf n r Hr Hn Hn64 k. unfold volume_read. rewrite Fread. simpl. unfold block_volume_read.
    pose proof (ready_data_len b Hr) as Hl.
    assert (0 < info_block_size (bv_info b)) as Hbs by apply Hr.
    destruct (Z.eqb_spec (info_block_size (bv_info b)) 0); [lia|].
    subst k. simpl. rewrite Hl.
    destruct (read_loop_spec (S (Z.to_nat n)) b buf n 0) as (buf' & b' & He & Hx);
      [done|lia|lia|lia|lia|]. rewrite !Z.sub_0_r, Z.add_0_l in *. by eexists _, _.
  - intros b buf n r Hr Hn Hn64 k. unfold volume_write. rewrite Fwrite. simpl.
    unfold block_volume_write. pose proof (ready_data_len b Hr) as Hl.
    assert (0 < info_block_size (bv_info b)) as Hbs by apply Hr.
    destruct (Z.eqb_spec (info_block_size (bv_info b)) 0); [lia|].
    subst k. simpl. rewrite Hl.
    destruct (write_loop_spec (S (Z.to_nat n)) b buf n 0) as (b' & He & Hx);
      [done|lia|lia|lia|lia|]. rewrite !Z.sub_0_r, Z.add_0_l in *. by eexists _.
Qed.

End Laws.

(** ** Properties of block volumes *)

(** Opening: either the partition's file at position 0, or an error. *)
Lemma block_volume_open_spec {C} (I : block_store_interface C) (V : store_view C)
    `{!BlockStoreLaws I V} b :
  bs_interface (bv_store b) = Some I -> v_ok V (bv_context b) ->
  exists st b', block_volume_open b = Some (st, b') /\
    (st = 0 -> 0 < info_block_size (bv_info b') -> bv_size b' < 2 ^ 63 ->
       bv_ready I V b' /\ file_pos b' = 0).
Proof.
  intros Hi Hok. unfold block_volume_open, block_store_get_partition_info, block_store_open.
  rewrite Hi. cbn [mbind option_bind]. fold (bv_context b).
  destruct (law_info (bv_context b) (bv_guid b) (bv_info b) Hok)
    as (st & info & c1 & -> & [Hok1 _] & Hd). cbn [mbind option_bind].
  destruct (Z.eqb_spec st PSA_SUCCESS) as [->|Hne]; [|by eexists _, _].
  cbn [bv_store bs_interface set_context]. rewrite Hi. cbn [mbind option_bind bs_context].
  destruct (law_open c1 0 (bv_guid b) (bv_handle b) Hok1)
    as (st2 & h & c2 & Ho & [Hok2 _] & Hs). simpl. rewrite Ho. simpl. eexists _, _. split; [done|].
  destruct (Z.eqb_spec st2 PSA_SUCCESS) as [->|]; [|done]. intros _ Hbs Hsz. simpl in *.
  destruct (Hs eq_refl) as (Ha & Hh & Hgeo). destruct (Hgeo _ _ (Hd eq_refl)) as [Hn Hb].
  destruct (law_geometry _ _ _ Hok2 Ha) as (Hf1 & Hf2 & Hm & _). rewrite Hn, Hb in *.
  unfold fits in *. assert (0 <= info_num_blocks info * info_block_size info) by nia.
  assert (u64 (info_block_size info * info_num_blocks info) =
    info_num_blocks info * info_block_size info) as Hu
    by (rewrite Z.mul_comm; apply wrap_small; lia).
  split; [|done]. unfold bv_ready. simpl. rewrite Hu in *. repeat (split; [done|]). lia.
Qed.

(** C19: a block volume is a file.  Over any block store that keeps the laws, and
    through any io layer that forwards calls, a successfully opened volume
    answers every sequence of seek, read, write and size calls, always
    returning, exactly as an in-memory file of the size of the partition that
    starts at position 0: transfers are cut at block boundaries, clipped at the
    end of the partition, and write only the bytes they should. *)
Theorem block_volume_refines_file {C} (I : block_store_interface C) (V : store_view C)
    (io : io_storage (block_volume C)) info b b1 os :
  BlockStoreLaws I V -> io_forwards io ->
  bs_interface (bv_store b) = Some I -> v_ok V (bv_context b) ->
  volume_open io (block_volume_volume info) b = Some (0, b1) ->
  0 < info_block_size (bv_info b1) -> bv_size b1 < 2 ^ 63 -> Forall file_op_wf os ->
  exists rs b2, volume_run io (block_volume_volume info) b1 os = Some (rs, b2) /\
    file_run (bv_data V b1, 0) os = (rs, (bv_data V b2, file_pos b2)).
Proof.
  intros HL Hio Hi Hok Ho Hbs Hsz Hos.
  assert (bv_ready I V b1 /\ file_pos b1 = 0) as [Hr Hp].
  { destruct (block_volume_open_spec I V b Hi Hok) as (st & b' & Hb & Hs).
    destruct Hio as (Hopen & _). unfold volume_open in Ho.
    destruct (Hopen (funcs (block_volume_volume info)) b) as [He|(e & He & Hx)].
    - rewrite He in Ho. simpl in Ho. rewrite Hb in Ho. simplify_eq. auto.
    - rewrite Hx in Ho. by simplify_eq. }
  pose proof (block_volume_laws I V io info Hio) as HW.
  destruct (volume_run_refines io (block_volume_volume info) (bv_view I V) b1 os Hr Hos)
    as (rs & b2 & Hrun & _ & Hf). exists rs, b2. split; [done|].
  simpl in Hf. by rewrite Hp in Hf.
Qed.

Lemma block_volume_refines_file_witness :
  let store := BlockStore (Ram (BlockDevice (Partition (fill 7 16) 4 3 0
      storage_partition_acl_init)) (Some (fill 255 12))) (Some ram_block_store_interface) in
  let b := BlockVolume 5 5 store (fill 7 16) 0 (Info 0 0 [] []) in
  let vol := block_volume_volume (Info 0 0 [] []) in
  let os := [FSeek IO_SEEK_SET 3; FWrite [1; 2; 3; 4; 5; 6]; FSeek IO_SEEK_CUR (-4);
             FRead 20; FSize] in
  exists b1 rs b2, volume_open forwarding_io vol b = Some (0, b1) /\
    volume_run forwarding_io vol b1 os = Some (rs, b2) /\
    file_run (bv_data ram_view b1, 0) os = (rs, (bv_data ram_view b2, file_pos b2)).
Proof.
  intros store b vol os.
  assert ((fun '(st, b1) => (st, info_block_size (bv_info b1), bv_size b1)) <$>
    volume_open forwarding_io vol b = Some (0, 4, 12))
    as ([st b1] & Ho & Hx)%fmap_Some by (vm_compute; reflexivity).
  simplify_eq. exists b1.
  destruct (block_volume_refines_file ram_block_store_interface ram_view forwarding_io
    (Info 0 0 [] []) b b1 os) as (rs & b2 & Hrun & Hf);
    [apply _|apply forwarding_io_forwards|done| |done|lia|lia|repeat constructor; vm_compute; done|].
  - split; [done|]. split; [done|]. split; [done|]. split; [done|]. by eexists.
  - by exists rs, b2.
Defined.
