(* ===== verification/RpcAbi.v ===== *)
(** * components/rpc/ts_rpc/common/ts_rpc_abi.c: the register layout of a call

    A call or a reply is five 32-bit registers.  Register 0 packs the flags,
    the interface ID and the opcode; the other registers hold full words. *)
From S2P Require Import Prelude.

Abbreviation regs := (list Z).

Definition TS_RPC_CONTROL_REG : Z := 0.
Definition TS_RPC_FLAGS_REG : Z := 0.
Definition TS_RPC_FLAGS_SHIFT : Z := 24.
Definition TS_RPC_FLAGS_MASK : Z := 63.
Definition TS_RPC_INTERFACE_ID_REG : Z := 0.
Definition TS_RPC_INTERFACE_ID_SHIFT : Z := 16.
Definition TS_RPC_INTERFACE_ID_MASK : Z := 255.
Definition TS_RPC_MANAGEMENT_INTERFACE_ID : Z := 255.
Definition TS_RPC_OPCODE_REG : Z := 0.
Definition TS_RPC_OPCODE_SHIFT : Z := 0.
Definition TS_RPC_OPCODE_MASK : Z := 65535.
Definition TS_RPC_VERSION_REG : Z := 1.
Definition TS_RPC_MEMORY_HANDLE_LSW_REG : Z := 1.
Definition TS_RPC_MEMORY_HANDLE_MSW_REG : Z := 2.
Definition TS_RPC_MEMORY_TAG_LSW_REG : Z := 3.
Definition TS_RPC_MEMORY_TAG_MSW_REG : Z := 4.
Definition TS_RPC_RPC_STATUS_REG : Z := 1.
Definition TS_RPC_SERVICE_STATUS_REG : Z := 2.
Definition TS_RPC_UUID_START_REG : Z := 1.
Definition TS_RPC_QUERIED_INTERFACE_ID_REG : Z := 2.
Definition TS_RPC_QUERIED_INTERFACE_ID_SHIFT : Z := 0.
Definition TS_RPC_QUERIED_INTERFACE_ID_MASK : Z := 255.
Definition TS_RPC_REQUEST_LENGTH_REG : Z := 3.
Definition TS_RPC_CLIENT_ID_REG : Z := 4.
Definition TS_RPC_RESPONSE_LENGTH_REG : Z := 3.

Definition get_field (r : regs) (reg shift mask : Z) : option Z :=
  v ← nthZ r reg; Some (Z.land (Z.shiftr v shift) mask).

Definition set_field (r : regs) (reg shift mask value : Z) : option regs :=
  v ← nthZ r reg;
  let v := Z.land v (Z.lxor (u32 (Z.shiftl mask shift)) (2 ^ 32 - 1)) in
  let v := Z.lor v (u32 (Z.shiftl (Z.land value mask) shift)) in
  setZ r reg v.

Definition ts_rpc_abi_get_flags (r : regs) : option Z :=
  get_field r TS_RPC_FLAGS_REG TS_RPC_FLAGS_SHIFT TS_RPC_FLAGS_MASK.
Definition ts_rpc_abi_set_flags (r : regs) (flags : Z) : option regs :=
  set_field r TS_RPC_FLAGS_REG TS_RPC_FLAGS_SHIFT TS_RPC_FLAGS_MASK flags.
Definition ts_rpc_abi_get_interface_id (r : regs) : option Z :=
  get_field r TS_RPC_INTERFACE_ID_REG TS_RPC_INTERFACE_ID_SHIFT TS_RPC_INTERFACE_ID_MASK.
Definition ts_rpc_abi_set_interface_id (r : regs) (interface_id : Z) : option regs :=
  set_field r TS_RPC_INTERFACE_ID_REG TS_RPC_INTERFACE_ID_SHIFT TS_RPC_INTERFACE_ID_MASK
    interface_id.
Definition ts_rpc_abi_is_management_interface_id (r : regs) : option bool :=
  i ← ts_rpc_abi_get_interface_id r; Some (i =? TS_RPC_MANAGEMENT_INTERFACE_ID).
Definition ts_rpc_abi_set_management_interface_id (r : regs) : option regs :=
  ts_rpc_abi_set_interface_id r TS_RPC_MANAGEMENT_INTERFACE_ID.
Definition ts_rpc_abi_get_opcode (r : regs) : option Z :=
  get_field r TS_RPC_OPCODE_REG TS_RPC_OPCODE_SHIFT TS_RPC_OPCODE_MASK.
Definition ts_rpc_abi_set_opcode (r : regs) (opcode : Z) : option regs :=
  set_field r TS_RPC_OPCODE_REG TS_RPC_OPCODE_SHIFT TS_RPC_OPCODE_MASK opcode.
Definition ts_rpc_abi_copy_control_reg (response request : regs) : option regs :=
  v ← nthZ request TS_RPC_CONTROL_REG; setZ response TS_RPC_CONTROL_REG v.
Definition ts_rpc_abi_get_version (r : regs) : option Z := nthZ r TS_RPC_VERSION_REG.
Definition ts_rpc_abi_set_version (r : regs) (version : Z) : option regs :=
  setZ r TS_RPC_VERSION_REG version.
Definition ts_rpc_abi_get_memory_handle (r : regs) : option Z :=
  h ← nthZ r TS_RPC_MEMORY_HANDLE_MSW_REG; l ← nthZ r TS_RPC_MEMORY_HANDLE_LSW_REG;
  Some (Z.lor (u64 (Z.shiftl h 32)) l).
Definition ts_rpc_abi_set_memory_handle (r : regs) (handle : Z) : option regs :=
  r ← setZ r TS_RPC_MEMORY_HANDLE_LSW_REG (u32 handle);
  setZ r TS_RPC_MEMORY_HANDLE_MSW_REG (u32 (Z.shiftr handle 32)).
Definition ts_rpc_abi_get_memory_tag (r : regs) : option Z :=
  h ← nthZ r TS_RPC_MEMORY_TAG_MSW_REG; l ← nthZ r TS_RPC_MEMORY_TAG_LSW_REG;
  Some (Z.lor (u64 (Z.shiftl h 32)) l).
Definition ts_rpc_abi_set_memory_tag (r : regs) (tag : Z) : option regs :=
  r ← setZ r TS_RPC_MEMORY_TAG_LSW_REG (u32 tag);
  setZ r TS_RPC_MEMORY_TAG_MSW_REG (u32 (Z.shiftr tag 32)).
Definition ts_rpc_abi_get_rpc_status (r : regs) : option Z := nthZ r TS_RPC_RPC_STATUS_REG.
(** The signed status is converted to uint32_t by the call. *)
Definition ts_rpc_abi_set_rpc_status (r : regs) (status : Z) : option regs :=
  setZ r TS_RPC_RPC_STATUS_REG (u32 status).
Definition ts_rpc_abi_get_service_status (r : regs) : option Z :=
  nthZ r TS_RPC_SERVICE_STATUS_REG.
Definition ts_rpc_abi_set_service_status (r : regs) (status : Z) : option regs :=
  setZ r TS_RPC_SERVICE_STATUS_REG (u32 status).

(** The 16 UUID bytes occupy four consecutive little-endian registers. *)
Definition ts_rpc_abi_get_uuid (r : regs) : option bytes :=
  a ← nthZ r TS_RPC_UUID_START_REG; b ← nthZ r (TS_RPC_UUID_START_REG + 1);
  c ← nthZ r (TS_RPC_UUID_START_REG + 2); d ← nthZ r (TS_RPC_UUID_START_REG + 3);
  Some (le_split 4 a ++ le_split 4 b ++ le_split 4 c ++ le_split 4 d).
Definition ts_rpc_abi_set_uuid (r : regs) (uuid : bytes) : option regs :=
  a ← load uuid 0 4; b ← load uuid 4 4; c ← load uuid 8 4; d ← load uuid 12 4;
  r ← setZ r TS_RPC_UUID_START_REG (le_combine a);
  r ← setZ r (TS_RPC_UUID_START_REG + 1) (le_combine b);
  r ← setZ r (TS_RPC_UUID_START_REG + 2) (le_combine c);
  setZ r (TS_RPC_UUID_START_REG + 3) (le_combine d).

Definition ts_rpc_abi_get_queried_interface_id (r : regs) : option Z :=
  get_field r TS_RPC_QUERIED_INTERFACE_ID_REG TS_RPC_QUERIED_INTERFACE_ID_SHIFT
    TS_RPC_QUERIED_INTERFACE_ID_MASK.
Definition ts_rpc_abi_set_queried_interface_id (r : regs) (interface_id : Z) : option regs :=
  set_field r TS_RPC_QUERIED_INTERFACE_ID_REG TS_RPC_QUERIED_INTERFACE_ID_SHIFT
    TS_RPC_QUERIED_INTERFACE_ID_MASK interface_id.
Definition ts_rpc_abi_get_request_length (r : regs) : option Z :=
  nthZ r TS_RPC_REQUEST_LENGTH_REG.
Definition ts_rpc_abi_set_request_length (r : regs) (length : Z) : option regs :=
  setZ r TS_RPC_REQUEST_LENGTH_REG (u32 length).
Definition ts_rpc_abi_get_client_id (r : regs) : option Z := nthZ r TS_RPC_CLIENT_ID_REG.
Definition ts_rpc_abi_set_client_id (r : regs) (client_id : Z) : option regs :=
  setZ r TS_RPC_CLIENT_ID_REG client_id.
Definition ts_rpc_abi_get_response_length (r : regs) : option Z :=
  nthZ r TS_RPC_RESPONSE_LENGTH_REG.
Definition ts_rpc_abi_set_response_length (r : regs) (length : Z) : option regs :=
  setZ r TS_RPC_RESPONSE_LENGTH_REG (u32 length).

(** ** Building and reading messages *)

(** The fields of a service call, in the order ts_rpc_caller_sp.c sets them in
    zeroed registers. *)
Definition build_call (flags interface_id opcode handle length client_id : Z) : option regs :=
  r ← ts_rpc_abi_set_flags (replicate 5 0) flags;
  r ← ts_rpc_abi_set_interface_id r interface_id;
  r ← ts_rpc_abi_set_opcode r opcode;
  r ← ts_rpc_abi_set_memory_handle r handle;
  r ← ts_rpc_abi_set_request_length r length;
  ts_rpc_abi_set_client_id r client_id.

(** ** Lemmas *)

Definition put (v s m value : Z) : Z :=
  Z.lor (Z.land v (Z.lxor (u32 (Z.shiftl (Z.ones m) s)) (2 ^ 32 - 1)))
        (u32 (Z.shiftl (Z.land value (Z.ones m)) s)).

Lemma put_bit v s m value i :
  0 <= s -> 0 <= m -> s + m <= 32 -> 0 <= i < 32 ->
  Z.testbit (put v s m value) i =
  if (s <=? i) && (i <? s + m) then Z.testbit value (i - s) else Z.testbit v i.
Proof.
  intros. unfold put, wrap. change (2 ^ 32 - 1) with (Z.ones 32).
  rewrite Z.lor_spec, Z.land_spec, Z.lxor_spec, !Z.mod_pow2_bits_low, !Z.shiftl_spec, Z.land_spec
    by lia.
  rewrite (Z.testbit_ones 32) by lia.
  destruct (Z.leb_spec s i).
  - rewrite Z.testbit_ones by lia. destruct (Z.ltb_spec i (s + m)); simpl.
    + destruct (Z.leb_spec 0 i); [|lia]. destruct (Z.ltb_spec i 32); [|lia].
      destruct (Z.leb_spec 0 (i - s)); [|lia]. destruct (Z.ltb_spec (i - s) m); [|lia].
      simpl. by rewrite andb_false_r, andb_true_r.
    + destruct (Z.ltb_spec (i - s) m); [lia|]. rewrite !andb_false_r.
      destruct (Z.leb_spec 0 i); [|lia]. destruct (Z.ltb_spec i 32); [|lia]. simpl.
      by rewrite andb_true_r, orb_false_r.
  - rewrite !(Z.testbit_neg_r _ (i - s)) by lia. simpl.
    destruct (Z.leb_spec 0 i); [|lia]. destruct (Z.ltb_spec i 32); [|lia]. simpl.
    by rewrite andb_true_r, orb_false_r.
Qed.

Lemma put_fits v s m value :
  fits 32 v -> 0 <= s -> 0 <= m -> s + m <= 32 -> fits 32 (put v s m value).
Proof.
  intros Hv ???. assert (put v s m value = put v s m value mod 2 ^ 32) as ->;
    [|by apply wrap_fits].
  apply Z.bits_inj'. intros i Hi. destruct (Z.ltb_spec i 32).
  - by rewrite Z.mod_pow2_bits_low by lia.
  - rewrite Z.mod_pow2_bits_high by lia. unfold put, wrap.
    rewrite Z.lor_spec, Z.land_spec, (Z.mod_pow2_bits_high _ 32) by lia.
    assert (Z.testbit v i = false) as ->; [|done].
    rewrite <- (Z.mod_small v (2 ^ 32)) by apply Hv. apply Z.mod_pow2_bits_high. lia.
Qed.

(** Reading a field of a register after writing the same or a disjoint one. *)
Lemma get_put_same v s m value :
  0 <= s -> 0 <= m -> s + m <= 32 -> 0 <= value < 2 ^ m ->
  Z.land (Z.shiftr (put v s m value) s) (Z.ones m) = value.
Proof.
  intros Hs Hm Hsm Hv. apply Z.bits_inj'. intros i Hi.
  rewrite Z.land_spec, Z.shiftr_spec, Z.testbit_ones by lia.
  destruct (Z.leb_spec 0 i); [|lia]. destruct (Z.ltb_spec i m); simpl.
  - rewrite put_bit, andb_true_r by lia. case_match; [|lia]. f_equal. lia.
  - rewrite andb_false_r. symmetry. rewrite <- (Z.mod_small value (2 ^ m)) by done.
    apply Z.mod_pow2_bits_high. lia.
Qed.

Lemma get_put_other v s m value s' m' :
  0 <= s -> 0 <= m -> s + m <= 32 -> 0 <= s' -> 0 <= m' -> s' + m' <= 32 ->
  s + m <= s' \/ s' + m' <= s ->
  Z.land (Z.shiftr (put v s m value) s') (Z.ones m') = Z.land (Z.shiftr v s') (Z.ones m').
Proof.
  intros. apply Z.bits_inj'. intros i Hi.
  rewrite !Z.land_spec, !Z.shiftr_spec, Z.testbit_ones by lia.
  destruct (Z.ltb_spec i m'); [|by rewrite !andb_false_r].
  rewrite put_bit by lia. case_match; [lia|done].
Qed.

Lemma word_pair h : 0 <= h < 2 ^ 64 ->
  Z.lor (u64 (Z.shiftl (u32 (Z.shiftr h 32)) 32)) (u32 h) = h.
Proof.
  intros Hh. rewrite Z.lor_comm, shiftr_div by lia.
  assert (0 <= h / 2 ^ 32 < 2 ^ 32) as Hd.
  { split; [apply Z.div_pos; lia|]. apply Z.div_lt_upper_bound; lia. }
  rewrite (wrap_small 32 (h / 2 ^ 32)) by done.
  rewrite (wrap_small 64) by (rewrite Z.shiftl_mul_pow2 by lia; lia).
  rewrite lor_shiftl_add; [|lia|apply wrap_fits; lia]. unfold wrap.
  pose proof (Z.div_mod h (2 ^ 32)). lia.
Qed.

(** ** Properties *)

(** The register layout loses nothing: the fields a caller packs into the
    registers of a call are the fields the endpoint reads back, although three
    of them share one register. *)
Theorem ts_rpc_call_roundtrip flags interface_id opcode handle length client_id :
  fits 6 flags -> fits 8 interface_id -> fits 16 opcode -> fits 64 handle ->
  fits 32 length -> fits 32 client_id ->
  exists r, build_call flags interface_id opcode handle length client_id = Some r /\
    len r = 5 /\ Forall (fits 32) r /\
    ts_rpc_abi_get_flags r = Some flags /\
    ts_rpc_abi_get_interface_id r = Some interface_id /\
    ts_rpc_abi_is_management_interface_id r =
      Some (interface_id =? TS_RPC_MANAGEMENT_INTERFACE_ID) /\
    ts_rpc_abi_get_opcode r = Some opcode /\
    ts_rpc_abi_get_memory_handle r = Some handle /\
    ts_rpc_abi_get_request_length r = Some length /\
    ts_rpc_abi_get_client_id r = Some client_id.
Proof.
  intros Hf Hi Ho Hh Hl Hc. unfold fits in Hf, Hi, Ho, Hh, Hl, Hc.
  assert (u32 length = length) as Hul by (by apply wrap_small).
  set (r0 := put (put (put 0 24 6 flags) 16 8 interface_id) 0 16 opcode).
  exists [r0; u32 handle; u32 (Z.shiftr handle 32); u32 length; client_id].
  split; [reflexivity|]. split; [done|]. rewrite Hul.
  assert (fits 32 r0) as Hr0.
  { subst r0. do 3 (apply put_fits; [|lia|lia|lia]). done. }
  split.
  { rewrite !Forall_cons. repeat split; try apply wrap_fits; try lia; try apply Hr0.
    constructor. }
  assert (Z.land (Z.shiftr r0 24) (Z.ones 6) = flags) as E1.
  { subst r0. rewrite get_put_other, get_put_other, get_put_same by lia. done. }
  assert (Z.land (Z.shiftr r0 16) (Z.ones 8) = interface_id) as E2.
  { subst r0. rewrite get_put_other, get_put_same by lia. done. }
  assert (Z.land (Z.shiftr r0 0) (Z.ones 16) = opcode) as E3.
  { subst r0. rewrite get_put_same by lia. done. }
  split; [exact (f_equal Some E1)|]. split; [exact (f_equal Some E2)|].
  split; [exact (f_equal (fun x => Some (x =? 255)) E2)|].
  split; [exact (f_equal Some E3)|].
  split; [exact (f_equal Some (word_pair handle Hh))|]. done.
Qed.

Lemma ts_rpc_call_roundtrip_witness :
  exists r, build_call 1 254 4660 1311768467463790320 4096 7 = Some r /\
    ts_rpc_abi_get_opcode r = Some 4660 /\
    ts_rpc_abi_get_memory_handle r = Some 1311768467463790320.
Proof.
  destruct (ts_rpc_call_roundtrip 1 254 4660 1311768467463790320 4096 7)
    as (r & Hr & _ & _ & _ & _ & _ & Ho & Hh & _); [done..|]. by exists r.
Defined.

(** A UUID placed in the registers is read back unchanged. *)
Theorem ts_rpc_uuid_roundtrip r uuid :
  len r = 5 -> len uuid = 16 -> bytes_ok uuid ->
  exists r', ts_rpc_abi_set_uuid r uuid = Some r' /\ len r' = 5 /\
    nthZ r' TS_RPC_CONTROL_REG = nthZ r TS_RPC_CONTROL_REG /\
    ts_rpc_abi_get_uuid r' = Some uuid.
Proof.
  intros Hr Hu Hb. unfold len in *.
  destruct r as [|r0 [|r1 [|r2 [|r3 [|r4 [|? ?]]]]]]; try (simpl in Hr; lia).
  destruct uuid as [|a0 [|a1 [|a2 [|a3 [|b0 [|b1 [|b2 [|b3 [|c0 [|c1 [|c2 [|c3
    [|d0 [|d1 [|d2 [|d3 [|? ?]]]]]]]]]]]]]]]]]; try (simpl in Hu; lia).
  exists [r0; le_combine [a0; a1; a2; a3]; le_combine [b0; b1; b2; b3];
    le_combine [c0; c1; c2; c3]; le_combine [d0; d1; d2; d3]].
  split; [reflexivity|]. split; [reflexivity|]. split; [reflexivity|].
  unfold bytes_ok in Hb. rewrite !Forall_cons in Hb. destruct_and! Hb.
  assert (forall a b c d, byte_ok a -> byte_ok b -> byte_ok c -> byte_ok d ->
    le_split 4 (le_combine [a; b; c; d]) = [a; b; c; d]) as Hsplit.
  { intros. apply (le_split_combine [a; b; c; d]).
    repeat (apply Forall_cons_2; [done|]). apply Forall_nil_2. }
  change (Some (le_split 4 (le_combine [a0; a1; a2; a3]) ++ le_split 4 (le_combine [b0; b1; b2; b3])
    ++ le_split 4 (le_combine [c0; c1; c2; c3]) ++ le_split 4 (le_combine [d0; d1; d2; d3]))
    = Some [a0; a1; a2; a3; b0; b1; b2; b3; c0; c1; c2; c3; d0; d1; d2; d3]).
  by rewrite !Hsplit.
Qed.

Lemma ts_rpc_uuid_roundtrip_witness :
  exists r', ts_rpc_abi_set_uuid [1; 2; 3; 4; 5] (fill 171 16) = Some r' /\ len r' = 5 /\
    nthZ r' TS_RPC_CONTROL_REG = nthZ [1; 2; 3; 4; 5] TS_RPC_CONTROL_REG /\
    ts_rpc_abi_get_uuid r' = Some (fill 171 16).
Proof.
  apply (ts_rpc_uuid_roundtrip [1; 2; 3; 4; 5] (fill 171 16)); [done|done|].
  by apply fill_bytes_ok.
Defined.
