(* ===== verification/RpcService.v ===== *)
(** * components/rpc/common/endpoint and components/service/common/provider

    rpc_service_interface.[ch]: the request a service receives; and
    service_provider.[ch]: dispatch of a request to the handler of its opcode,
    with a chain of providers.

    The endpoint points both the request and the response buffer of a call at
    the caller's shared memory, so the two are one object here: [region].  The
    state [S] is that of all services; a handler is a function on it. *)
From S2P Require Import Prelude Status.

Record rpc_request := Request {
  source_id : Z;
  interface_id : Z;
  opcode : Z;
  client_id : Z;
  service_status : Z;
  request_data_length : Z;
  request_size : Z;
  response_data_length : Z;
  response_size : Z;
  (** the memory behind request.data and response.data; [None] is NULL *)
  region : option bytes
}.

Definition set_response (r : rpc_request) (status data_length : Z) (m : option bytes)
    : rpc_request :=
  Request (source_id r) (interface_id r) (opcode r) (client_id r) status
    (request_data_length r) (request_size r) data_length (response_size r) m.

(** struct rpc_buffer *)
Record rpc_buffer := Buffer {
  buf_data : option bytes;
  buf_data_length : Z;
  buf_size : Z
}.

(** The two buffers of a request, and the response buffer written back. *)
Definition request_buffer (r : rpc_request) : rpc_buffer :=
  Buffer (region r) (request_data_length r) (request_size r).
Definition response_buffer (r : rpc_request) : rpc_buffer :=
  Buffer (region r) (response_data_length r) (response_size r).
Definition put_response (r : rpc_request) (b : rpc_buffer) : rpc_request :=
  set_response r (service_status r) (buf_data_length b) (buf_data b).
Definition put_status (r : rpc_request) (status : Z) : rpc_request :=
  set_response r status (response_data_length r) (region r).

(** A receive function: the RPC status, the request with the response filled
    in, and the new state; [None] is a fault of the service. *)
Abbreviation service S := (S -> rpc_request -> option (Z * rpc_request * S)).

Record rpc_service_interface (S : Type) := Service {
  svc_uuid : bytes;
  svc_receive : service S
}.
Arguments Service {S}.
Arguments svc_uuid {S}.
Arguments svc_receive {S}.

Definition rpc_service_receive {S} (s : option (rpc_service_interface S)) : service S :=
  fun st req =>
    match s with
    | None => Some (RPC_ERROR_INVALID_VALUE, req, st)
    | Some s => svc_receive s st req
    end.

(** ** Service providers *)

Record service_handler (S : Type) := Handler {
  h_opcode : Z;
  h_invoke : service S
}.
Arguments Handler {S}.
Arguments h_opcode {S}.
Arguments h_invoke {S}.

(** A concrete provider embeds the service_provider as its first member, so the
    context a handler is given is the provider's own state, part of [S]. *)
Record service_provider (S : Type) := Provider {
  sp_uuid : bytes;
  handlers : list (service_handler S);
  num_handlers : Z;
  opcode_range_lo : Z;
  opcode_range_hi : Z;
  successor : option (rpc_service_interface S)
}.
Arguments Provider {S}.
Arguments sp_uuid {S}.
Arguments handlers {S}.
Arguments num_handlers {S}.
Arguments opcode_range_lo {S}.
Arguments opcode_range_hi {S}.
Arguments successor {S}.

Section Provider.
Context {S : Type}.
Implicit Types sp : service_provider S.

Fixpoint find_handler_loop (l : list (service_handler S)) (op : Z) (n : nat) (i : Z)
    : option (option (service_handler S)) :=
  match n with
  | O => Some None
  | Datatypes.S n =>
      h ← nthZ l i;
      if h_opcode h =? op then Some (Some h) else find_handler_loop l op n (i + 1)
  end.

Definition find_handler sp (op : Z) : option (option (service_handler S)) :=
  if (op >=? opcode_range_lo sp) && (op <=? opcode_range_hi sp)
  then find_handler_loop (handlers sp) op (Z.to_nat (num_handlers sp)) 0
  else Some None.

Fixpoint opcode_range_loop (l : list (service_handler S)) (n : nat) (i lo hi : Z)
    : option (Z * Z) :=
  match n with
  | O => Some (lo, hi)
  | Datatypes.S n =>
      h ← nthZ l i;
      let op := h_opcode h in
      opcode_range_loop l n (i + 1) (if op <? lo then op else lo) (if op >? hi then op else hi)
  end.

Definition set_opcode_range sp : option (service_provider S) :=
  '(lo, hi) ← opcode_range_loop (handlers sp) (Z.to_nat (num_handlers sp)) 0 (2 ^ 32 - 1) 0;
  Some (Provider (sp_uuid sp) (handlers sp) (num_handlers sp) lo hi (successor sp)).

Definition receive sp : service S :=
  fun st req =>
    handler ← find_handler sp (opcode req);
    match handler with
    | Some h => h_invoke h st req
    | None =>
        match successor sp with
        | Some _ => rpc_service_receive (successor sp) st req
        | None => Some (RPC_ERROR_INVALID_VALUE, req, st)
        end
    end.

Definition service_provider_get_rpc_interface sp : rpc_service_interface S :=
  Service (sp_uuid sp) (receive sp).

Definition service_provider_init (uuid : bytes) (hs : list (service_handler S)) (n : Z)
    : option (service_provider S) :=
  set_opcode_range (Provider uuid hs n 0 0 None).

Definition set_successor sp (s : option (rpc_service_interface S)) : service_provider S :=
  Provider (sp_uuid sp) (handlers sp) (num_handlers sp) (opcode_range_lo sp)
    (opcode_range_hi sp) s.

(** Returns the extended provider and the sub-provider. *)
Definition service_provider_extend sp (sub : service_provider S)
    : service_provider S * service_provider S :=
  let sub := set_successor sub (successor sp) in
  (set_successor sp (Some (service_provider_get_rpc_interface sub)), sub).

Definition service_provider_link_successor sp (s : rpc_service_interface S)
    : service_provider S :=
  set_successor sp (Some s).

(** ** The specification: the first handler of the opcode in a table *)
Definition first_handler (l : list (service_handler S)) (op : Z) : option (service_handler S) :=
  i ← find_index (fun h => h_opcode h =? op) l; l !! i.

Definition table_ok sp : Prop :=
  num_handlers sp = len (handlers sp) /\
  forall h, h ∈ handlers sp -> opcode_range_lo sp <= h_opcode h <= opcode_range_hi sp.

(** ** Lemmas *)

Lemma find_handler_loop_spec l op n i :
  0 <= i -> i + Z.of_nat n <= len l ->
  find_handler_loop l op n i = Some (first_handler (take n (drop (Z.to_nat i) l)) op).
Proof.
  revert i. induction n as [|n IH]; intros i Hi Hl; simpl; [done|].
  destruct (nthZ_is_Some l i) as [h Hh]; [lia|]. rewrite Hh. simpl.
  unfold nthZ in Hh. destruct (Z.leb_spec 0 i); [|lia].
  rewrite (drop_S _ h _ Hh). simpl. unfold first_handler in *. simpl.
  destruct (h_opcode h =? op) eqn:Heq; [done|].
  rewrite IH by lia. replace (Z.to_nat (i + 1)) with (Datatypes.S (Z.to_nat i)) by lia.
  by destruct (find_index _ _).
Qed.

(** The range check never hides a handler. *)
Lemma find_handler_spec sp op :
  table_ok sp -> find_handler sp op = Some (first_handler (handlers sp) op).
Proof.
  intros [Hn Hr]. unfold find_handler.
  destruct ((op >=? _) && (op <=? _)) eqn:Hin.
  - rewrite find_handler_loop_spec by (pose proof (len_nonneg (handlers sp)); lia).
    rewrite drop_0, Hn. unfold len. by rewrite Nat2Z.id, firstn_all.
  - f_equal. symmetry. unfold first_handler.
    destruct (find_index _ _) as [i|] eqn:Hf; [|done]. exfalso.
    apply find_index_Some in Hf as ((h & Hh & Heq) & _).
    apply list_elem_of_lookup_2, Hr in Hh. lia.
Qed.

Lemma opcode_range_loop_spec l n i lo hi :
  0 <= i -> i + Z.of_nat n <= len l ->
  exists lo' hi', opcode_range_loop l n i lo hi = Some (lo', hi') /\ lo' <= lo /\ hi <= hi' /\
    forall j h, i <= j < i + Z.of_nat n -> nthZ l j = Some h -> lo' <= h_opcode h <= hi'.
Proof.
  revert i lo hi. induction n as [|n IH]; intros i lo hi Hi Hl; simpl.
  - exists lo, hi. repeat split; try done; lia.
  - destruct (nthZ_is_Some l i) as [h Hh]; [lia|]. rewrite Hh. simpl.
    destruct (IH (i + 1) (if h_opcode h <? lo then h_opcode h else lo)
      (if h_opcode h >? hi then h_opcode h else hi)) as (lo' & hi' & -> & Hlo & Hhi & Hall);
      [lia|lia|].
    assert (lo' <= lo /\ lo' <= h_opcode h) as [Hlo1 Hlo2]
      by (destruct (Z.ltb_spec (h_opcode h) lo); lia).
    assert (hi <= hi' /\ h_opcode h <= hi') as [Hhi1 Hhi2]
      by (destruct (h_opcode h >? hi) eqn:Hgt; lia).
    exists lo', hi'. split; [done|]. split; [done|]. split; [done|]. intros j g Hj Hg.
    destruct (decide (j = i)) as [->|]; [by simplify_eq|]. apply (Hall j); [lia|done].
Qed.

Lemma service_provider_init_ok uuid hs :
  exists sp, service_provider_init uuid hs (len hs) = Some sp /\ table_ok sp /\
    handlers sp = hs /\ successor sp = None.
Proof.
  unfold service_provider_init, set_opcode_range. simpl. pose proof (len_nonneg hs).
  destruct (opcode_range_loop_spec hs (Z.to_nat (len hs)) 0 (2 ^ 32 - 1) 0)
    as (lo & hi & -> & _ & _ & Hall); [lia|lia|]. simpl. eexists. split; [done|].
  split; [|done]. split; [done|]. simpl. intros h [i Hi]%list_elem_of_lookup_1.
  apply (Hall (Z.of_nat i)); [|by rewrite nthZ_of_nat].
  pose proof (lookup_lt_Some _ _ _ Hi). unfold len in *. lia.
Qed.

Lemma receive_spec sp st req :
  table_ok sp ->
  receive sp st req =
  match first_handler (handlers sp) (opcode req) with
  | Some h => h_invoke h st req
  | None => match successor sp with
            | Some s => svc_receive s st req
            | None => Some (RPC_ERROR_INVALID_VALUE, req, st) end
  end.
Proof. intros Ht. unfold receive. rewrite find_handler_spec by done. simpl. by destruct (successor sp). Qed.

End Provider.

(** ** Properties *)

(** Dispatch.  A provider extended by a sub-provider serves a request with
    the first handler of its opcode in its own table, else with the first one
    of the sub-provider's table, and refuses any other opcode with
    RPC_ERROR_INVALID_VALUE leaving the state and the request untouched.  The
    opcode range kept to skip a table never changes which handler is found. *)
Theorem service_provider_dispatch {S} uuid (hs : list (service_handler S)) uuid' hs' st req :
  exists base sub ext,
    service_provider_init uuid hs (len hs) = Some base /\
    service_provider_init uuid' hs' (len hs') = Some sub /\
    ext = fst (service_provider_extend base sub) /\
    rpc_service_receive (Some (service_provider_get_rpc_interface ext)) st req =
      match first_handler hs (opcode req), first_handler hs' (opcode req) with
      | Some h, _ => h_invoke h st req
      | None, Some h => h_invoke h st req
      | None, None => Some (RPC_ERROR_INVALID_VALUE, req, st)
      end.
Proof.
  destruct (service_provider_init_ok uuid hs) as (base & Hb & Htb & Hhb & Hsb).
  destruct (service_provider_init_ok uuid' hs') as (sub & Hs & Hts & Hhs & Hss).
  exists base, sub, (fst (service_provider_extend base sub)).
  split; [done|]. split; [done|]. split; [done|].
  unfold service_provider_extend. simpl.
  rewrite receive_spec by exact Htb. simpl. rewrite Hhb.
  destruct (first_handler hs (opcode req)); [done|]. simpl.
  rewrite receive_spec by exact Hts. simpl. rewrite Hhs, Hsb. done.
Qed.
