(* ===== verification/RpcEndpoint.v ===== *)
(** * components/rpc/ts_rpc/endpoint/sp: the TS RPC endpoint of a secure partition

    ts_rpc_endpoint_sp.c receives a message, serves the management interface
    (version, sharing of memory, interface discovery) and dispatches service
    calls with the caller's shared memory as buffer.

    The secure partition manager behind libsp is a parameter: its state is [M],
    [sp_memory_retrieve m sender receiver handle] answers with a result, the
    contents of the region and its page count.  [S] is the state of the
    services.  Memory is changed by other worlds between calls only. *)
From S2P Require Import Prelude Status RpcAbi RpcService.

Definition FFA_MEM_HANDLE_INVALID : Z := 2 ^ 64 - 1.
Definition FFA_MEM_TRANSACTION_PAGE_SIZE : Z := 4096.
Definition FFA_VERSION_MAJOR : Z := 1.
Definition FFA_VERSION_MINOR : Z := 1.
Definition SP_RESULT_OK : Z := 0.
Definition TS_RPC_ABI_MANAGEMENT_OPCODE_VERSION : Z := 0.
Definition TS_RPC_ABI_MANAGEMENT_OPCODE_MEMORY_RETRIEVE : Z := 1.
Definition TS_RPC_ABI_MANAGEMENT_OPCODE_MEMORY_RELINQUISH : Z := 2.
Definition TS_RPC_ABI_MANAGEMENT_OPCODE_INTERFACE_ID_QUERY : Z := 3.
Definition TS_RPC_ABI_VERSION_V1 : Z := 1.

Record ts_rpc_shared_memory := Shm {
  shm_owner_id : Z;
  shm_handle : Z;
  shm_data : option bytes;
  shm_size : Z;
  shm_used : bool
}.

Definition null_shared_memory : ts_rpc_shared_memory :=
  Shm 65535 FFA_MEM_HANDLE_INVALID None 0 true.
(** A calloc'ed or cleared descriptor. *)
Definition zero_shm : ts_rpc_shared_memory := Shm 0 0 None 0 false.

(** The two counts are the lengths passed to calloc. *)
Record ts_rpc_endpoint_sp (S : Type) := Endpoint {
  own_id : Z;
  services : list (option (rpc_service_interface S));
  service_count : Z;
  shared_memories : list ts_rpc_shared_memory;
  shared_memory_count : Z
}.
Arguments Endpoint {S}.
Arguments own_id {S}.
Arguments services {S}.
Arguments service_count {S}.
Arguments shared_memories {S}.
Arguments shared_memory_count {S}.

(** The 32-bit view of the argument registers. *)
Record sp_msg := Msg {
  msg_source_id : Z;
  msg_destination_id : Z;
  is_64bit_message : bool;
  args32 : regs
}.

Definition rpc_uuid_equal (a b : bytes) : bool := bytes_eqb a b.

Section Endpoint.
Context {S M : Type}.
Context (sp_memory_retrieve : M -> Z -> Z -> Z -> Z * bytes * Z * M)
        (sp_memory_relinquish : M -> Z -> Z -> Z * M).
Implicit Types ep : ts_rpc_endpoint_sp S.

Definition set_shms ep (l : list ts_rpc_shared_memory) : ts_rpc_endpoint_sp S :=
  Endpoint (own_id ep) (services ep) (service_count ep) l (shared_memory_count ep).

(** A search of the descriptor array; the result is an index. *)
Definition find_free_shared_memory_descriptor ep : option nat :=
  find_index (fun d => negb (shm_used d)) (shared_memories ep).

Definition find_shared_memory_descriptor ep (owner handle : Z) : option nat :=
  find_index (fun d => shm_used d && (shm_owner_id d =? owner) && (shm_handle d =? handle))
    (shared_memories ep).

Definition handle_memory_retrieve ep (m : M) (source memory_handle memory_tag : Z)
    : Z * ts_rpc_endpoint_sp S * M :=
  match find_free_shared_memory_descriptor ep with
  | None => (RPC_ERROR_NOT_FOUND, ep, m)
  | Some i =>
      let '(res, data, page_count, m) := sp_memory_retrieve m source (own_id ep) memory_handle in
      if negb (res =? SP_RESULT_OK) then (RPC_ERROR_TRANSPORT_LAYER, ep, m)
      else
        let d := Shm source memory_handle (Some data)
                   (u32 (page_count * FFA_MEM_TRANSACTION_PAGE_SIZE)) true in
        (RPC_SUCCESS, set_shms ep (<[i := d]> (shared_memories ep)), m)
  end.

Definition handle_memory_relinquish ep (m : M) (source memory_handle : Z)
    : Z * ts_rpc_endpoint_sp S * M :=
  match find_shared_memory_descriptor ep source memory_handle with
  | None => (RPC_ERROR_NOT_FOUND, ep, m)
  | Some i =>
      let '(res, m) := sp_memory_relinquish m memory_handle (own_id ep) in
      if negb (res =? SP_RESULT_OK) then (RPC_ERROR_TRANSPORT_LAYER, ep, m)
      else (RPC_SUCCESS, set_shms ep (<[i := zero_shm]> (shared_memories ep)), m)
  end.

Definition handle_interface_id_query ep (service_uuid : bytes) : Z * Z :=
  match find_index (fun s => match s with
                             | Some s => rpc_uuid_equal service_uuid (svc_uuid s)
                             | None => false end) (services ep) with
  | Some i => (RPC_SUCCESS, u8 (Z.of_nat i))
  | None => (RPC_ERROR_NOT_FOUND, 0)
  end.

Definition handle_management_interface ep (m : M) (source : Z) (request response : regs)
    : option (regs * ts_rpc_endpoint_sp S * M) :=
  op ← ts_rpc_abi_get_opcode request;
  if op =? TS_RPC_ABI_MANAGEMENT_OPCODE_VERSION then
    response ← ts_rpc_abi_set_version response TS_RPC_ABI_VERSION_V1;
    Some (response, ep, m)
  else if op =? TS_RPC_ABI_MANAGEMENT_OPCODE_MEMORY_RETRIEVE then
    handle ← ts_rpc_abi_get_memory_handle request;
    tag ← ts_rpc_abi_get_memory_tag request;
    let '(status, ep, m) := handle_memory_retrieve ep m source handle tag in
    response ← ts_rpc_abi_set_rpc_status response status;
    Some (response, ep, m)
  else if op =? TS_RPC_ABI_MANAGEMENT_OPCODE_MEMORY_RELINQUISH then
    handle ← ts_rpc_abi_get_memory_handle request;
    let '(status, ep, m) := handle_memory_relinquish ep m source handle in
    response ← ts_rpc_abi_set_rpc_status response status;
    Some (response, ep, m)
  else if op =? TS_RPC_ABI_MANAGEMENT_OPCODE_INTERFACE_ID_QUERY then
    uuid ← ts_rpc_abi_get_uuid request;
    let '(status, i) := handle_interface_id_query ep uuid in
    response ← (if status =? RPC_SUCCESS then ts_rpc_abi_set_queried_interface_id response i
                else Some response);
    response ← ts_rpc_abi_set_rpc_status response status;
    Some (response, ep, m)
  else
    response ← ts_rpc_abi_set_rpc_status response RPC_ERROR_INVALID_VALUE;
    Some (response, ep, m).

(** The memory a call uses: a descriptor of the caller, with its index, or no
    memory at all. *)
Definition call_memory ep (source handle : Z) : option (option nat * ts_rpc_shared_memory) :=
  if negb (handle =? FFA_MEM_HANDLE_INVALID) then
    i ← find_shared_memory_descriptor ep source handle;
    d ← shared_memories ep !! i; Some (Some i, d)
  else Some (None, null_shared_memory).

(** What the service writes to the buffer lands in the caller's memory. *)
Definition write_back ep (i : option nat) (d : ts_rpc_shared_memory) (r : option bytes)
    : ts_rpc_endpoint_sp S :=
  match i with
  | Some i => set_shms ep (<[i := Shm (shm_owner_id d) (shm_handle d) r (shm_size d) (shm_used d)]>
                             (shared_memories ep))
  | None => ep
  end.

Definition handle_service_interfaces ep (st : S) (source : Z) (request response : regs)
    : option (regs * ts_rpc_endpoint_sp S * S) :=
  iface ← ts_rpc_abi_get_interface_id request;
  if iface >=? service_count ep then
    response ← ts_rpc_abi_set_rpc_status response RPC_ERROR_INVALID_VALUE;
    Some (response, ep, st)
  else
    service ← nthZ (services ep) iface;
    match service with
    | None =>
        response ← ts_rpc_abi_set_rpc_status response RPC_ERROR_INTERNAL;
        Some (response, ep, st)
    | Some _ =>
        handle ← ts_rpc_abi_get_memory_handle request;
        match call_memory ep source handle with
        | None =>
            response ← ts_rpc_abi_set_rpc_status response RPC_ERROR_NOT_FOUND;
            Some (response, ep, st)
        | Some (i, memory) =>
            request_length ← ts_rpc_abi_get_request_length request;
            if request_length >? shm_size memory then
              response ← ts_rpc_abi_set_rpc_status response RPC_ERROR_INVALID_VALUE;
              Some (response, ep, st)
            else
              op ← ts_rpc_abi_get_opcode request;
              client ← ts_rpc_abi_get_client_id request;
              let req := Request source iface op client 0 request_length (shm_size memory)
                           0 (shm_size memory) (shm_data memory) in
              '(status, req, st) ← rpc_service_receive service st req;
              let ep := write_back ep i memory (region req) in
              response ← (if status =? RPC_SUCCESS then
                            r ← ts_rpc_abi_set_response_length response
                                  (response_data_length req);
                            ts_rpc_abi_set_service_status r (service_status req)
                          else Some response);
              response ← ts_rpc_abi_set_rpc_status response status;
              Some (response, ep, st)
        end
    end.

(** [ffa_version] and [ffa_own_id] are the answers of the SPM to discovery;
    [calloc1], [calloc2] tell whether the two allocations succeed.  A NULL
    endpoint is [None]. *)
Definition ts_rpc_endpoint_sp_init (endpoint : option (ts_rpc_endpoint_sp S))
    (ffa_version : Z * Z * Z) (ffa_own_id : Z * Z) (calloc1 calloc2 : bool)
    (count shm_count : Z) : Z * option (ts_rpc_endpoint_sp S) :=
  match endpoint with
  | None => (RPC_ERROR_INVALID_VALUE, None)
  | Some ep =>
      if count =? 0 then (RPC_ERROR_INVALID_VALUE, Some ep)
      else
        let '(res, major, minor) := ffa_version in
        if negb (res =? SP_RESULT_OK) then (RPC_ERROR_TRANSPORT_LAYER, Some ep)
        else if negb (major =? FFA_VERSION_MAJOR) || (minor <? FFA_VERSION_MINOR)
        then (RPC_ERROR_TRANSPORT_LAYER, Some ep)
        else
          let '(res, id) := ffa_own_id in
          let ep := Endpoint id (services ep) (service_count ep) (shared_memories ep)
                      (shared_memory_count ep) in
          if negb (res =? SP_RESULT_OK) then (RPC_ERROR_TRANSPORT_LAYER, Some ep)
          else if negb calloc1 then
            (RPC_ERROR_RESOURCE_FAILURE,
             Some (Endpoint id [] (service_count ep) (shared_memories ep) (shared_memory_count ep)))
          else if negb calloc2 then
            (RPC_ERROR_RESOURCE_FAILURE,
             Some (Endpoint id [] count [] (shared_memory_count ep)))
          else
            (RPC_SUCCESS, Some (Endpoint id (replicate (Z.to_nat count) None) count
                                  (replicate (Z.to_nat shm_count) zero_shm) shm_count))
  end.

(** The loop visits the descriptors in order, relinquishing each one through its
    own owner and handle. *)
Fixpoint deinit_loop (n : nat) (i : nat) ep (m : M) : option (Z * ts_rpc_endpoint_sp S * M) :=
  match n with
  | O => Some (RPC_SUCCESS, ep, m)
  | Datatypes.S n =>
      d ← shared_memories ep !! i;
      let '(status, ep, m) := handle_memory_relinquish ep m (shm_owner_id d) (shm_handle d) in
      if negb (status =? RPC_SUCCESS) then Some (status, ep, m)
      else deinit_loop n (Datatypes.S i) ep m
  end.

Definition ts_rpc_endpoint_sp_deinit (endpoint : option (ts_rpc_endpoint_sp S)) (m : M)
    : option (Z * option (ts_rpc_endpoint_sp S) * M) :=
  match endpoint with
  | None => Some (RPC_ERROR_INVALID_VALUE, None, m)
  | Some ep =>
      '(status, ep, m) ← deinit_loop (Z.to_nat (shared_memory_count ep)) 0 ep m;
      if negb (status =? RPC_SUCCESS) then Some (status, Some ep, m)
      else Some (RPC_SUCCESS, Some (Endpoint 0 [] 0 [] 0), m)
  end.

Definition ts_rpc_endpoint_sp_add_service (endpoint : option (ts_rpc_endpoint_sp S))
    (service : option (rpc_service_interface S)) : Z * option (ts_rpc_endpoint_sp S) :=
  match endpoint, service with
  | Some ep, Some s =>
      match find_index (fun s => match s with Some _ => false | None => true end)
              (services ep) with
      | Some i => (RPC_SUCCESS, Some (Endpoint (own_id ep) (<[i := Some s]> (services ep))
                     (service_count ep) (shared_memories ep) (shared_memory_count ep)))
      | None => (RPC_ERROR_RESOURCE_FAILURE, Some ep)
      end
  | _, _ => (RPC_ERROR_INVALID_VALUE, endpoint)
  end.

Definition ts_rpc_endpoint_sp_receive ep (st : S) (m : M) (request : sp_msg)
    : option (sp_msg * ts_rpc_endpoint_sp S * S * M) :=
  let reply r := Msg (msg_destination_id request) (msg_source_id request)
                   (is_64bit_message request) r in
  response ← ts_rpc_abi_copy_control_reg (replicate 5 0) (args32 request);
  if negb (is_64bit_message request) then
    management ← ts_rpc_abi_is_management_interface_id (args32 request);
    if (management : bool) then
      '(response, ep, m) ←
        handle_management_interface ep m (msg_source_id request) (args32 request) response;
      Some (reply response, ep, st, m)
    else
      '(response, ep, st) ←
        handle_service_interfaces ep st (msg_source_id request) (args32 request) response;
      Some (reply response, ep, st, m)
  else
    response ← ts_rpc_abi_set_rpc_status response RPC_ERROR_INVALID_VALUE;
    Some (reply response, ep, st, m).

End Endpoint.

(** ** Well-formedness *)

(** A used descriptor covers at least the size it states; the others are clear. *)
Definition shm_ok (d : ts_rpc_shared_memory) : Prop :=
  if shm_used d then exists b, shm_data d = Some b /\ 0 <= shm_size d <= len b /\ shm_size d < 2 ^ 32
  else d = zero_shm.

Definition endpoint_ok {S} (ep : ts_rpc_endpoint_sp S) : Prop :=
  service_count ep = len (services ep) /\
  shared_memory_count ep = len (shared_memories ep) /\
  Forall shm_ok (shared_memories ep).

(** What the endpoint gives to a service. *)
Definition request_ok (req : rpc_request) : Prop :=
  0 <= request_data_length req <= request_size req /\ request_size req < 2 ^ 32 /\
  response_size req = request_size req /\
  match region req with
  | Some b => request_size req <= len b
  | None => request_size req = 0
  end.

(** A request as the endpoint builds it: no response yet. *)
Definition fresh_request (req : rpc_request) : Prop :=
  request_ok req /\ response_data_length req = 0.

(** Requests served one after the other. *)
Fixpoint service_run {S} (f : service S) (st : S) (reqs : list rpc_request)
    : option (list (Z * rpc_request) * S) :=
  match reqs with
  | [] => Some ([], st)
  | req :: reqs =>
      '(status, req, st) ← f st req;
      '(out, st) ← service_run f st reqs;
      Some ((status, req) :: out, st)
  end.

(** The response to a call that ended with [st]: it starts with [head] and [body],
    of which [reported] bytes count in its length; [err] if there is no room. *)
Definition answered (err : Z) (req : rpc_request) (st : Z) (head body : bytes) (reported : Z)
    (status : Z) (req' : rpc_request) : Prop :=
  let n := len head + len body in
  exists m', region req' = Some m' /\ Some (len m') = (len <$> region req) /\
    if n <=? response_size req then
      status = RPC_SUCCESS /\ service_status req' = st /\
      response_data_length req' = len head + reported /\ slice m' 0 n = head ++ body
    else status = err.

(** A request that is long enough for its fixed part has that part in memory. *)
Lemma fresh_region req k :
  fresh_request req -> 0 < k <= request_data_length req ->
  exists m, region req = Some m /\ k <= len m /\ 0 <= response_size req <= len m /\
    request_data_length req <= len m /\ response_data_length req = 0.
Proof.
  intros [(Hl & _ & Hs & Hm) Hd] Hk. destruct (region req) as [m|]; [|lia]. exists m.
  repeat split; try done; lia.
Qed.

Lemma plain_answer err r p st :
  region r = Some p -> 0 <= response_size r -> response_data_length r = 0 ->
  answered err r st [] [] 0 RPC_SUCCESS (put_status r st).
Proof.
  intros Hreg Hs Hd. exists p. simpl. rewrite Hreg. split; [done|].
  split; [done|]. destruct (Z.leb_spec (len (@nil Z) + len (@nil Z)) (response_size r)); [|len_lia].
  rewrite Hd. done.
Qed.

(** A body stored at the start of the response, or no room for it. *)
Lemma stored_answer err r p p' st body n k :
  region r = Some p -> len p' = len p -> slice p' 0 (len body) = body -> len body <= response_size r ->
  k = n -> answered err r st [] body n RPC_SUCCESS (set_response r st k (Some p')).
Proof.
  intros Hreg Hl Hs Hb ->. exists p'. simpl. rewrite Hreg. split; [done|]. simpl. rewrite Hl.
  split; [done|]. change (len (@nil Z) + len body) with (len body).
  destruct (Z.leb_spec (len body) (response_size r)); [done|lia].
Qed.

Lemma small_answer err r r' p p' st body n :
  region r = Some p -> region r' = Some p' -> len p' = len p -> response_size r < len body ->
  answered err r st [] body n err r'.
Proof.
  intros Hreg Hreg' Hl Hb. exists p'. rewrite Hreg. split; [done|]. simpl. rewrite Hl.
  split; [done|]. change (len (@nil Z) + len body) with (len body).
  destruct (Z.leb_spec (len body) (response_size r)); [lia|done].
Qed.

(** What a service owes on the states that satisfy its invariant: it returns,
    keeps the invariant and keeps the buffer it was given. *)
Definition service_ok {S} (Inv : S -> Prop) (f : service S) : Prop :=
  forall st req, Inv st -> fresh_request req ->
    exists status req' st', f st req = Some (status, req', st') /\ Inv st' /\
      (len <$> region req') = (len <$> region req).

Definition services_ok {S} (Inv : S -> Prop) (ep : ts_rpc_endpoint_sp S) : Prop :=
  forall s, Some s ∈ services ep -> service_ok Inv (svc_receive s).

(** A region retrieved from the SPM has the pages it announces. *)
Definition spm_ok {M} (retrieve : M -> Z -> Z -> Z -> Z * bytes * Z * M) : Prop :=
  forall m s o h res data pages m',
    retrieve m s o h = (res, data, pages, m') -> res = SP_RESULT_OK ->
    fits 32 pages /\ len data = pages * FFA_MEM_TRANSACTION_PAGE_SIZE.

Definition msg_ok (r : regs) : Prop := len r = 5 /\ Forall (fits 32) r.

(** The registers of a response under construction. *)
Definition response_ok (control : Z) (r : regs) : Prop :=
  len r = 5 /\ nthZ r TS_RPC_CONTROL_REG = Some control.

(** Only the descriptor of the call may change, and only in its contents. *)
Definition same_descriptor (d d' : ts_rpc_shared_memory) : Prop :=
  shm_owner_id d' = shm_owner_id d /\ shm_handle d' = shm_handle d /\
  shm_size d' = shm_size d /\ shm_used d' = shm_used d.

(** How many descriptors hold the region [h] of [owner]; how many are free. *)
Definition held {S} (ep : ts_rpc_endpoint_sp S) (owner h : Z) : nat :=
  length (filter (fun d => shm_used d = true /\ shm_owner_id d = owner /\ shm_handle d = h)
            (shared_memories ep)).

Definition free_slots {S} (ep : ts_rpc_endpoint_sp S) : nat :=
  length (filter (fun d => shm_used d = false) (shared_memories ep)).

(** Several messages, one after the other. *)
Fixpoint receive_all {S M} (retrieve : M -> Z -> Z -> Z -> Z * bytes * Z * M)
    (relinquish : M -> Z -> Z -> Z * M) (ep : ts_rpc_endpoint_sp S) (st : S) (m : M)
    (msgs : list sp_msg) : option (list sp_msg * ts_rpc_endpoint_sp S * S * M) :=
  match msgs with
  | [] => Some ([], ep, st, m)
  | msg :: msgs =>
      '(reply, ep, st, m) ← ts_rpc_endpoint_sp_receive retrieve relinquish ep st m msg;
      '(replies, ep, st, m) ← receive_all retrieve relinquish ep st m msgs;
      Some (reply :: replies, ep, st, m)
  end.

(** A history of sharing requests, and the number of successful retrievals of a
    region minus the number of successful relinquishments. *)
Inductive share_op := Retrieve (owner h : Z) | Relinquish (owner h : Z).

Section Shares.
Context {S M : Type}.
Context (sp_memory_retrieve : M -> Z -> Z -> Z -> Z * bytes * Z * M)
        (sp_memory_relinquish : M -> Z -> Z -> Z * M).

Definition share_step (ep : ts_rpc_endpoint_sp S) (m : M) (o : share_op)
    : Z * ts_rpc_endpoint_sp S * M :=
  match o with
  | Retrieve owner h => handle_memory_retrieve sp_memory_retrieve ep m owner h 0
  | Relinquish owner h => handle_memory_relinquish sp_memory_relinquish ep m owner h
  end.

Fixpoint share_run (ep : ts_rpc_endpoint_sp S) (m : M) (os : list share_op)
    : list Z * ts_rpc_endpoint_sp S * M :=
  match os with
  | [] => ([], ep, m)
  | o :: os =>
      let '(st, ep, m) := share_step ep m o in
      let '(sts, ep, m) := share_run ep m os in (st :: sts, ep, m)
  end.

End Shares.

Definition share_weight (owner h : Z) (o : share_op) (st : Z) : Z :=
  if st =? RPC_SUCCESS then
    match o with
    | Retrieve o k => if (o =? owner) && (k =? h) then 1 else 0
    | Relinquish o k => if (o =? owner) && (k =? h) then -1 else 0
    end
  else 0.

Fixpoint share_balance (owner h : Z) (os : list share_op) (sts : list Z) : Z :=
  match os, sts with
  | o :: os, st :: sts => share_weight owner h o st + share_balance owner h os sts
  | _, _ => 0
  end.

(** ** Lemmas *)

Lemma set_response_reg c r i v :
  response_ok c r -> 1 <= i < 5 -> exists r', setZ r i v = Some r' /\ response_ok c r'.
Proof.
  intros [Hl Hc] Hi. rewrite setZ_is_Some by lia. eexists. split; [done|]. split.
  - unfold len in *. by rewrite length_insert.
  - rewrite nthZ_insert_ne by (unfold TS_RPC_CONTROL_REG; lia). done.
Qed.

Lemma set_queried c r v :
  response_ok c r ->
  exists r', ts_rpc_abi_set_queried_interface_id r v = Some r' /\ response_ok c r'.
Proof.
  intros Hr. unfold ts_rpc_abi_set_queried_interface_id, set_field.
  destruct (nthZ_is_Some r TS_RPC_QUERIED_INTERFACE_ID_REG) as [w Hw].
  { destruct Hr as [-> _]. unfold TS_RPC_QUERIED_INTERFACE_ID_REG. lia. }
  rewrite Hw. simpl. apply set_response_reg; [done|].
  unfold TS_RPC_QUERIED_INTERFACE_ID_REG. lia.
Qed.

Lemma set_status c r v :
  response_ok c r -> exists r', ts_rpc_abi_set_rpc_status r v = Some r' /\ response_ok c r'.
Proof. intros. apply set_response_reg; [done|]. unfold TS_RPC_RPC_STATUS_REG. lia. Qed.

Lemma msg_reg r i : msg_ok r -> 0 <= i < 5 -> exists v, nthZ r i = Some v /\ fits 32 v.
Proof.
  intros [Hl Hf] Hi. destruct (nthZ_is_Some r i) as [v Hv]; [lia|]. exists v. split; [done|].
  unfold nthZ in Hv. case_match; [|done]. by eapply Forall_lookup_1.
Qed.

Ltac msg_regs H :=
  destruct (msg_reg _ 0 H ltac:(lia)) as (w0 & Hw0 & ?);
  destruct (msg_reg _ 1 H ltac:(lia)) as (w1 & Hw1 & ?);
  destruct (msg_reg _ 2 H ltac:(lia)) as (w2 & Hw2 & ?);
  destruct (msg_reg _ 3 H ltac:(lia)) as (w3 & Hw3 & ?);
  destruct (msg_reg _ 4 H ltac:(lia)) as (w4 & Hw4 & ?).

Section Facts.
#[local] Set Default Proof Using "Type".
Context {S M : Type}.
Context (sp_memory_retrieve : M -> Z -> Z -> Z -> Z * bytes * Z * M)
        (sp_memory_relinquish : M -> Z -> Z -> Z * M).
Implicit Types ep : ts_rpc_endpoint_sp S.
Abbreviation retrieve := (handle_memory_retrieve sp_memory_retrieve).
Abbreviation relinquish := (handle_memory_relinquish sp_memory_relinquish).

Lemma find_shm_Some ep owner h i :
  find_shared_memory_descriptor ep owner h = Some i ->
  exists d, shared_memories ep !! i = Some d /\ shm_used d = true /\
    shm_owner_id d = owner /\ shm_handle d = h.
Proof.
  intros ((d & Hd & Hp) & _)%find_index_Some. exists d. split; [done|].
  bool_to_prop. split; [done|]. lia.
Qed.

Lemma set_shms_ok ep i d :
  endpoint_ok ep -> shm_ok d -> endpoint_ok (set_shms ep (<[i := d]> (shared_memories ep))).
Proof.
  intros (Hs & Hm & Hf) Hd. split; [done|]. split.
  - unfold len in *. simpl. by rewrite length_insert.
  - simpl. by apply Forall_insert.
Qed.

Lemma retrieve_ok ep m source h tag st ep' m' :
  spm_ok sp_memory_retrieve -> endpoint_ok ep ->
  retrieve ep m source h tag = (st, ep', m') -> endpoint_ok ep' /\ services ep' = services ep.
Proof.
  intros Hspm Hok. unfold handle_memory_retrieve.
  destruct (find_free_shared_memory_descriptor ep) as [i|]; [|by intros [= _ <- _]].
  destruct (sp_memory_retrieve m source (own_id ep) h) as [[[res data] pages] m1] eqn:E.
  destruct (Z.eqb_spec res SP_RESULT_OK) as [->|]; simpl; [|by intros [= _ <- _]].
  intros [= _ <- _]. split; [|done]. apply set_shms_ok; [done|].
  destruct (Hspm _ _ _ _ _ _ _ _ E eq_refl) as [Hp Hl]. unfold shm_ok. simpl.
  exists data. split; [done|]. rewrite Hl. unfold fits, FFA_MEM_TRANSACTION_PAGE_SIZE in *.
  pose proof (wrap_fits 32 (pages * 4096) ltac:(lia)) as [? ?].
  split; [split; [done|]; apply Z.mod_le; lia|done].
Qed.

Lemma relinquish_ok ep m source h st ep' m' :
  endpoint_ok ep -> relinquish ep m source h = (st, ep', m') ->
  endpoint_ok ep' /\ services ep' = services ep.
Proof.
  intros Hok. unfold handle_memory_relinquish.
  destruct (find_shared_memory_descriptor ep source h) as [i|]; [|by intros [= _ <- _]].
  destruct (sp_memory_relinquish m h (own_id ep)) as [res m1].
  destruct (Z.eqb_spec res SP_RESULT_OK) as [->|]; simpl; [|by intros [= _ <- _]].
  intros [= _ <- _]. split; [|done]. by apply set_shms_ok.
Qed.

(** The management interface answers every message. *)
Lemma management_ok ep m source request response c :
  spm_ok sp_memory_retrieve -> endpoint_ok ep -> msg_ok request -> response_ok c response ->
  exists r ep' m', handle_management_interface sp_memory_retrieve sp_memory_relinquish ep m source
      request response = Some (r, ep', m') /\ endpoint_ok ep' /\ response_ok c r /\
      services ep' = services ep.
Proof.
  intros Hspm Hok Hmsg Hr. msg_regs Hmsg.
  unfold handle_management_interface, ts_rpc_abi_get_opcode, get_field, ts_rpc_abi_get_memory_handle,
    ts_rpc_abi_get_memory_tag, ts_rpc_abi_get_uuid.
  change (TS_RPC_UUID_START_REG + 1) with 2. change (TS_RPC_UUID_START_REG + 2) with 3.
  change (TS_RPC_UUID_START_REG + 3) with 4.
  unfold TS_RPC_OPCODE_REG, TS_RPC_MEMORY_HANDLE_MSW_REG, TS_RPC_MEMORY_HANDLE_LSW_REG,
    TS_RPC_MEMORY_TAG_LSW_REG, TS_RPC_MEMORY_TAG_MSW_REG, TS_RPC_UUID_START_REG.
  rewrite Hw0, Hw1, Hw2, Hw3, Hw4. cbn [mbind option_bind].
  repeat match goal with |- context [if ?b then _ else _] =>
    match b with _ =? _ => destruct b end end.
  - unfold ts_rpc_abi_set_version.
    destruct (set_response_reg c response TS_RPC_VERSION_REG TS_RPC_ABI_VERSION_V1 Hr)
      as (r & -> & Hr'); [unfold TS_RPC_VERSION_REG; lia|]. by eexists _, _, _.
  - destruct (retrieve _ _ _ _ _) as [[st ep'] m'] eqn:E.
    destruct (set_status c response st Hr) as (r & -> & Hr').
    eexists _, _, _. split; [done|]. by destruct (retrieve_ok _ _ _ _ _ _ _ _ Hspm Hok E).
  - destruct (relinquish _ _ _ _) as [[st ep'] m'] eqn:E.
    destruct (set_status c response st Hr) as (r & -> & Hr').
    eexists _, _, _. split; [done|]. by destruct (relinquish_ok _ _ _ _ _ _ _ Hok E).
  - destruct (handle_interface_id_query _ _) as [st i].
    destruct (st =? RPC_SUCCESS).
    + destruct (set_queried c response i Hr) as (r1 & -> & Hr1). simpl.
      destruct (set_status c r1 st Hr1) as (r & -> & Hr'). by eexists _, _, _.
    + simpl. destruct (set_status c response st Hr) as (r & -> & Hr'). by eexists _, _, _.
  - destruct (set_status c response RPC_ERROR_INVALID_VALUE Hr) as (r & -> & Hr').
    by eexists _, _, _.
Qed.

Lemma call_memory_spec ep source h i d :
  endpoint_ok ep -> call_memory ep source h = Some (i, d) ->
  (exists j b, i = Some j /\ shared_memories ep !! j = Some d /\ shm_used d = true /\
     shm_owner_id d = source /\ shm_handle d = h /\ shm_data d = Some b /\
     0 <= shm_size d <= len b /\ shm_size d < 2 ^ 32)
  \/ (i = None /\ d = null_shared_memory /\ h = FFA_MEM_HANDLE_INVALID).
Proof.
  intros (_ & _ & Hf) Hc. unfold call_memory in Hc.
  destruct (Z.eqb_spec h FFA_MEM_HANDLE_INVALID) as [->|Hne]; simpl in Hc;
    [right; by simplify_eq|].
  apply bind_Some in Hc as (j & Hj & Hc). apply bind_Some in Hc as (d' & Hd' & Hc).
  injection Hc as <- <-. left.
  destruct (find_shm_Some _ _ _ _ Hj) as (d & Hd & Hu & Ho & Hh).
  assert (d = d') by congruence. subst d'.
  pose proof (Forall_lookup_1 _ _ _ _ Hf Hd) as Hs. unfold shm_ok in Hs.
  rewrite Hu in Hs. destruct Hs as (b & Hb & Hsz). by exists j, b.
Qed.

Lemma write_back_ok ep i d r source h :
  endpoint_ok ep -> call_memory ep source h = Some (i, d) -> (len <$> r) = (len <$> shm_data d) ->
  endpoint_ok (write_back ep i d r) /\
  forall j d0, shared_memories ep !! j = Some d0 ->
    exists d1, shared_memories (write_back ep i d r) !! j = Some d1 /\ same_descriptor d0 d1 /\
      (shm_owner_id d0 <> source \/ shm_handle d0 <> h -> d1 = d0).
Proof.
  intros Hok Hc Hlen.
  destruct (call_memory_spec ep source h i d Hok Hc)
    as [(j & b & -> & Hd & Hu & Ho & Hh & Hb & Hsz)|(-> & -> & _)]; simpl.
  2:{ split; [done|]. intros j d0 Hj. by exists d0. }
  rewrite Hb in Hlen. simpl in Hlen. apply fmap_Some in Hlen as (b' & -> & Hl'). split.
  - apply set_shms_ok; [done|]. unfold shm_ok. simpl. rewrite Hu. exists b'. split; [done|]. lia.
  - intros k d0 Hk. destruct (decide (j = k)) as [->|Hne].
    + simplify_eq. eexists. rewrite list_lookup_insert_eq by (by eapply lookup_lt_Some).
      split; [done|]. split; [done|]. tauto.
    + rewrite list_lookup_insert_ne by done. by exists d0.
Qed.

(** The response registers of a completed call. *)
Lemma build_response c response status req' :
  response_ok c response ->
  exists r, (response0 ← (if status =? RPC_SUCCESS then
      r ← ts_rpc_abi_set_response_length response (response_data_length req');
      ts_rpc_abi_set_service_status r (service_status req') else Some response);
    ts_rpc_abi_set_rpc_status response0 status) = Some r /\ response_ok c r /\
    ts_rpc_abi_get_rpc_status r = Some (u32 status) /\
    (status = RPC_SUCCESS ->
     ts_rpc_abi_get_response_length r = Some (u32 (response_data_length req')) /\
     ts_rpc_abi_get_service_status r = Some (u32 (service_status req'))).
Proof.
  intros Hr. unfold ts_rpc_abi_set_response_length, ts_rpc_abi_set_service_status,
    ts_rpc_abi_set_rpc_status, ts_rpc_abi_get_rpc_status, ts_rpc_abi_get_response_length,
    ts_rpc_abi_get_service_status.
  assert (1 <= TS_RPC_RPC_STATUS_REG < 5) as Hi1 by done.
  assert (1 <= TS_RPC_SERVICE_STATUS_REG < 5) as Hi2 by done.
  assert (1 <= TS_RPC_RESPONSE_LENGTH_REG < 5) as Hi3 by done.
  destruct (Z.eqb_spec status RPC_SUCCESS) as [->|Hne].
  - destruct (set_response_reg c response _ (u32 (response_data_length req')) Hr Hi3)
      as (r1 & E1 & Hr1). rewrite E1. cbn [mbind option_bind].
    destruct (set_response_reg c r1 _ (u32 (service_status req')) Hr1 Hi2) as (r2 & E2 & Hr2).
    rewrite E2. cbn [mbind option_bind].
    destruct (set_response_reg c r2 _ (u32 RPC_SUCCESS) Hr2 Hi1) as (r3 & E3 & Hr3).
    exists r3. split; [done|]. split; [done|]. split; [by eapply nthZ_setZ_eq|]. intros _.
    rewrite (nthZ_setZ_ne _ _ _ _ _ E3), (nthZ_setZ_ne _ _ _ _ _ E2), (nthZ_setZ_eq _ _ _ _ E1),
      (nthZ_setZ_ne _ _ _ _ _ E3), (nthZ_setZ_eq _ _ _ _ E2) by done. done.
  - cbn [mbind option_bind]. destruct (set_response_reg c response _ (u32 status) Hr Hi1)
      as (r3 & E3 & Hr3). exists r3. split; [done|]. split; [done|].
    split; [by eapply nthZ_setZ_eq|done].
Qed.

(** A service call: refused, or handed to one service with the caller's memory. *)
Lemma service_call_spec Inv ep st source request response c :
  endpoint_ok ep -> msg_ok request -> response_ok c response -> services_ok Inv ep -> Inv st ->
  exists r ep' st', handle_service_interfaces ep st source request response = Some (r, ep', st') /\
    endpoint_ok ep' /\ response_ok c r /\ Inv st' /\ services ep' = services ep /\
    ((ep' = ep /\ st' = st /\ exists e, e <> 0 /\ ts_rpc_abi_get_rpc_status r = Some e) \/
     exists s h i d req status req',
       ts_rpc_abi_get_memory_handle request = Some h /\ call_memory ep source h = Some (i, d) /\
       Some s ∈ services ep /\ source_id req = source /\ region req = shm_data d /\
       request_size req = shm_size d /\ request_ok req /\
       svc_receive s st req = Some (status, req', st') /\
       (len <$> region req') = (len <$> region req) /\ ep' = write_back ep i d (region req') /\
       ts_rpc_abi_get_rpc_status r = Some (u32 status) /\
       (status = RPC_SUCCESS ->
        ts_rpc_abi_get_response_length r = Some (u32 (response_data_length req')) /\
        ts_rpc_abi_get_service_status r = Some (u32 (service_status req')))).
Proof.
  intros Hok Hmsg Hr Hsvc Hinv. msg_regs Hmsg.
  unfold handle_service_interfaces, ts_rpc_abi_get_interface_id, ts_rpc_abi_get_opcode, get_field,
    ts_rpc_abi_get_memory_handle, ts_rpc_abi_get_request_length, ts_rpc_abi_get_client_id.
  unfold TS_RPC_OPCODE_REG, TS_RPC_MEMORY_HANDLE_MSW_REG, TS_RPC_MEMORY_HANDLE_LSW_REG,
    TS_RPC_REQUEST_LENGTH_REG, TS_RPC_CLIENT_ID_REG, TS_RPC_INTERFACE_ID_REG.
  rewrite Hw0, Hw1, Hw2, Hw3, Hw4. cbn [mbind option_bind].
  set (iface := Z.land (Z.shiftr w0 _) TS_RPC_INTERFACE_ID_MASK).
  assert (0 <= iface) by (apply Z.land_nonneg; by right).
  set (h := Z.lor _ w1).
  assert (forall e, u32 e <> 0 -> exists r ep' st',
    (response ← ts_rpc_abi_set_rpc_status response e; Some (response, ep, st)) =
      Some (r, ep', st') /\ endpoint_ok ep' /\ response_ok c r /\ Inv st' /\
    services ep' = services ep /\ ep' = ep /\ st' = st /\ exists e, e <> 0 /\ ts_rpc_abi_get_rpc_status r = Some e) as Hrefuse.
  { intros e He. unfold ts_rpc_abi_get_rpc_status. destruct (set_status c response e Hr)
      as (r & Hset & Hr'). rewrite Hset. eexists _, _, _. split; [done|]. split; [done|].
    do 5 (split; [done|]). exists (u32 e). split; [done|]. by eapply nthZ_setZ_eq. }
  destruct (Z.geb_spec iface (service_count ep)) as [Hge|Hlt].
  { destruct (Hrefuse RPC_ERROR_INVALID_VALUE) as (r & ep' & st' & He & ? & ? & ? & ? & ?);
      [done|]. exists r, ep', st'. do 5 (split; [done|]). by left. }
  destruct (nthZ_is_Some (services ep) iface) as [sv Hsv]; [destruct Hok as (? & _); lia|].
  rewrite Hsv. cbn [mbind option_bind]. destruct sv as [s|].
  2:{ destruct (Hrefuse RPC_ERROR_INTERNAL) as (r & ep' & st' & He & ? & ? & ? & ? & ?);
      [done|]. exists r, ep', st'. do 5 (split; [done|]). by left. }
  destruct (call_memory ep source h) as [[i d]|] eqn:Hcall.
  2:{ destruct (Hrefuse RPC_ERROR_NOT_FOUND) as (r & ep' & st' & He & ? & ? & ? & ? & ?);
      [done|]. exists r, ep', st'. do 5 (split; [done|]). by left. }
  destruct (w3 >? shm_size d) eqn:Hlen.
  { destruct (Hrefuse RPC_ERROR_INVALID_VALUE) as (r & ep' & st' & He & ? & ? & ? & ? & ?);
      [done|]. exists r, ep', st'. do 5 (split; [done|]). by left. }
  assert (Some s ∈ services ep) as Hin.
  { unfold nthZ in Hsv. case_match; [|done]. by eapply list_elem_of_lookup_2. }
  set (req := Request _ _ _ _ _ _ _ _ _ _).
  assert (request_ok req) as Hreq.
  { unfold request_ok, fits in *. simpl. destruct (call_memory_spec ep source h i d Hok Hcall)
      as [(j & b & -> & Hd & Hu & Ho & Hh & Hb & Hsz)|(-> & -> & _)]; [rewrite Hb|simpl in *]; lia. }
  destruct (Hsvc s Hin st req Hinv (conj Hreq eq_refl)) as (status & req' & st' & Hrecv & Hinv' & Hregion).
  unfold rpc_service_receive. rewrite Hrecv. cbn [mbind option_bind].
  destruct (write_back_ok ep i d (region req') source h Hok Hcall Hregion) as [Hok' _].
  destruct (build_response c response status req' Hr) as (r & Hrr & Hrok & Hst & Hsucc).
  exists r, (write_back ep i d (region req')), st'. split.
  { apply bind_Some in Hrr as (r0 & -> & Hr0). simpl. by rewrite Hr0. }
  split; [done|]. split; [done|]. split; [done|]. split; [by destruct i|]. right.
  exists s, h, i, d, req, status, req'. repeat (split; [done|]). done.
Qed.

(** Descriptors of other owners are left alone by the management calls. *)
Lemma retrieve_frame ep m source h tag st ep' m' j d :
  retrieve ep m source h tag = (st, ep', m') ->
  shared_memories ep !! j = Some d -> shm_used d = true -> shared_memories ep' !! j = Some d.
Proof.
  clear sp_memory_relinquish.
  unfold handle_memory_retrieve. intros Hr Hj Hu.
  destruct (find_free_shared_memory_descriptor ep) as [i|] eqn:Hf; [|by simplify_eq].
  destruct (sp_memory_retrieve m source (own_id ep) h) as [[[res data] pages] m1].
  destruct (negb _); simplify_eq; [done|]. simpl.
  apply find_index_Some in Hf as ((d' & Hd' & Hn) & _).
  rewrite list_lookup_insert_ne; [done|]. intros ->. simplify_eq. by rewrite Hu in Hn.
Qed.

Lemma relinquish_frame ep m source h st ep' m' j d :
  relinquish ep m source h = (st, ep', m') ->
  shared_memories ep !! j = Some d -> shm_owner_id d <> source ->
  shared_memories ep' !! j = Some d.
Proof.
  clear sp_memory_retrieve.
  unfold handle_memory_relinquish. intros Hr Hj Hu.
  destruct (find_shared_memory_descriptor ep source h) as [i|] eqn:Hf; [|by simplify_eq].
  destruct (sp_memory_relinquish m h (own_id ep)) as [res m1].
  destruct (negb _); simplify_eq; [done|]. simpl.
  destruct (find_shm_Some _ _ _ _ Hf) as (d' & Hd' & _ & Ho & _).
  rewrite list_lookup_insert_ne; [done|]. intros ->. by simplify_eq.
Qed.

Lemma management_frame ep m source request response r ep' m' j d :
  handle_management_interface sp_memory_retrieve sp_memory_relinquish ep m source request response
    = Some (r, ep', m') ->
  shared_memories ep !! j = Some d -> shm_used d = true -> shm_owner_id d <> source ->
  shared_memories ep' !! j = Some d.
Proof.
  unfold handle_management_interface. intros Hm Hj Hu Ho.
  apply bind_Some in Hm as (op & _ & Hm).
  destruct (op =? _); [by inv_bind Hm|]. destruct (op =? _).
  { apply bind_Some in Hm as (h & _ & Hm). apply bind_Some in Hm as (tag & _ & Hm).
    destruct (retrieve _ _ _ _ _) as [[st ep1] m1] eqn:E. inv_bind Hm.
    by eapply retrieve_frame. }
  destruct (op =? _).
  { apply bind_Some in Hm as (h & _ & Hm).
    destruct (relinquish _ _ _ _) as [[st ep1] m1] eqn:E. inv_bind Hm.
    by eapply relinquish_frame. }
  destruct (op =? _); [|by inv_bind Hm].
  apply bind_Some in Hm as (u & _ & Hm). destruct (handle_interface_id_query _ _). by inv_bind Hm.
Qed.

(** ** Accounting of shared memory *)

Lemma filter_insert_length (P : ts_rpc_shared_memory -> Prop) `{!forall d, Decision (P d)} l i x y :
  l !! i = Some x ->
  (length (filter P (<[i := y]> l)) + (if decide (P x) then 1 else 0) =
   length (filter P l) + (if decide (P y) then 1 else 0))%nat.
Proof.
  intros Hx. pose proof (lookup_lt_Some _ _ _ Hx). rewrite insert_take_drop by done.
  rewrite <- (take_drop_middle l i x Hx) at 3. rewrite !filter_app, !filter_cons, !length_app.
  repeat case_decide; simpl; lia.
Qed.

Lemma retrieve_account ep m source h tag st ep' m' :
  retrieve ep m source h tag = (st, ep', m') ->
  (st = RPC_SUCCESS /\ free_slots ep = Datatypes.S (free_slots ep') /\
   held ep' source h = Datatypes.S (held ep source h) /\
   (forall o k, o <> source \/ k <> h -> held ep' o k = held ep o k)) \/
  (st <> RPC_SUCCESS /\ ep' = ep).
Proof.
  clear sp_memory_relinquish.
  unfold handle_memory_retrieve. intros Hr.
  destruct (find_free_shared_memory_descriptor ep) as [i|] eqn:Hf; [|right; by simplify_eq].
  destruct (sp_memory_retrieve m source (own_id ep) h) as [[[res data] pages] m1].
  destruct (negb _); [right; by simplify_eq|]. left. simplify_eq.
  apply find_index_Some in Hf as ((d & Hd & Hn) & _). apply negb_true_iff in Hn.
  split; [done|]. unfold free_slots, held. simpl. split; [|split].
  - pose proof (filter_insert_length (fun d => shm_used d = false) _ _ _
      (Shm source h (Some data) (u32 (pages * FFA_MEM_TRANSACTION_PAGE_SIZE)) true) Hd) as Hl.
    simpl in Hl. repeat case_decide; try done. lia.
  - pose proof (filter_insert_length (fun d => shm_used d = true /\ shm_owner_id d = source /\
      shm_handle d = h) _ _ _
      (Shm source h (Some data) (u32 (pages * FFA_MEM_TRANSACTION_PAGE_SIZE)) true) Hd) as Hl.
    simpl in Hl. repeat case_decide; try (by destruct_and?; congruence); [|tauto]. lia.
  - intros o k Hne.
    pose proof (filter_insert_length (fun d => shm_used d = true /\ shm_owner_id d = o /\
      shm_handle d = k) _ _ _
      (Shm source h (Some data) (u32 (pages * FFA_MEM_TRANSACTION_PAGE_SIZE)) true) Hd) as Hl.
    simpl in Hl. repeat case_decide; try (by destruct_and?; intuition congruence). lia.
Qed.

Lemma relinquish_account ep m source h st ep' m' :
  relinquish ep m source h = (st, ep', m') ->
  (st = RPC_SUCCESS /\ free_slots ep' = Datatypes.S (free_slots ep) /\
   held ep source h = Datatypes.S (held ep' source h) /\
   (forall o k, o <> source \/ k <> h -> held ep' o k = held ep o k)) \/
  (st <> RPC_SUCCESS /\ ep' = ep).
Proof.
  clear sp_memory_retrieve.
  unfold handle_memory_relinquish. intros Hr.
  destruct (find_shared_memory_descriptor ep source h) as [i|] eqn:Hf; [|right; by simplify_eq].
  destruct (sp_memory_relinquish m h (own_id ep)) as [res m1].
  destruct (negb _); [right; by simplify_eq|]. left. simplify_eq.
  destruct (find_shm_Some _ _ _ _ Hf) as (d & Hd & Hu & Ho & Hh).
  split; [done|]. unfold free_slots, held. simpl. split; [|split].
  - pose proof (filter_insert_length (fun d => shm_used d = false) _ _ _ zero_shm Hd) as Hl.
    simpl in Hl. repeat case_decide; try congruence; try done. lia.
  - pose proof (filter_insert_length (fun d => shm_used d = true /\ shm_owner_id d = source /\
      shm_handle d = h) _ _ _ zero_shm Hd) as Hl.
    simpl in Hl. repeat case_decide; try (by destruct_and?; congruence); [|tauto]. lia.
  - intros o k Hne.
    pose proof (filter_insert_length (fun d => shm_used d = true /\ shm_owner_id d = o /\
      shm_handle d = k) _ _ _ zero_shm Hd) as Hl.
    simpl in Hl. repeat case_decide; try (by destruct_and?; intuition congruence). lia.
Qed.

(** The shutdown loop stops at the first free descriptor at the latest. *)
Lemma deinit_loop_fails n i ep m j :
  (i + n = length (shared_memories ep))%nat -> (i <= j < i + n)%nat ->
  shared_memories ep !! j = Some zero_shm -> held ep 0 0 = 0%nat ->
  exists st ep' m', deinit_loop sp_memory_relinquish n i ep m = Some (st, ep', m') /\
    st <> RPC_SUCCESS.
Proof.
  clear sp_memory_retrieve.
  revert i ep m. induction n as [|n IH]; intros i ep m Hn Hj Hz Hh; [lia|]. simpl.
  destruct (lookup_lt_is_Some_2 (shared_memories ep) i) as [d Hd]; [lia|].
  rewrite Hd. cbn [mbind option_bind].
  destruct (relinquish ep m (shm_owner_id d) (shm_handle d)) as [[st ep1] m1] eqn:E.
  destruct (Z.eqb_spec st RPC_SUCCESS) as [->|Hne]; simpl; [|by eexists _, _, _].
  pose proof (relinquish_account _ _ _ _ _ _ _ E) as [(_ & _ & Ha & Ho)|[? _]]; [|done].
  assert (shm_owner_id d <> 0 \/ shm_handle d <> 0) as Hd0.
  { destruct (decide (shm_owner_id d = 0)) as [E1|]; [|by left].
    destruct (decide (shm_handle d = 0)) as [E2|]; [|by right]. rewrite E1, E2 in Ha. lia. }
  unfold handle_memory_relinquish in E.
  destruct (find_shared_memory_descriptor ep _ _) as [k|] eqn:Hf; [|by simplify_eq].
  destruct (sp_memory_relinquish _ _ _) as [res m2]. destruct (negb _); simplify_eq.
  apply (IH (Datatypes.S i)).
  - simpl. rewrite length_insert. lia.
  - destruct (decide (i = j)) as [->|]; [|lia]. rewrite Hz in Hd. simplify_eq. simpl in Hd0. lia.
  - simpl. destruct (decide (k = j)) as [->|]; [|by rewrite list_lookup_insert_ne].
    apply list_lookup_insert_eq. lia.
  - rewrite Ho by (destruct Hd0; [left|right]; congruence). done.
Qed.

End Facts.

(** ** Properties of the endpoint *)

(** A small instance used by the witnesses: an echo service and one region of
    4096 bytes that sender 5 shared under handle 77. *)
Definition example_echo : rpc_service_interface Z :=
  Service (fill 1 16) (fun st req =>
    Some (RPC_SUCCESS, set_response req 0 (request_data_length req) (region req), st + 1)).

Definition example_endpoint : ts_rpc_endpoint_sp Z :=
  Endpoint 9 [Some example_echo; None] 2
    [Shm 5 77 (Some (fill 0 4096)) 4096 true; zero_shm] 2.

Definition example_retrieve (m s o h : Z) : Z * bytes * Z * Z := (SP_RESULT_OK, fill 0 4096, 1, m).
Definition example_relinquish (m h o : Z) : Z * Z := (SP_RESULT_OK, m).
Definition example_call : sp_msg := Msg 5 9 false [3; 77; 0; 10; 0].

Lemma example_spm_ok : spm_ok example_retrieve.
Proof. intros m s o h res data pages m' [= <- <- <- <-] _. done. Qed.

Lemma example_endpoint_ok : endpoint_ok example_endpoint.
Proof.
  split; [done|]. split; [done|]. repeat constructor.
  exists (fill 0 4096). split; [done|]. rewrite len_fill; simpl; lia.
Qed.

Lemma example_services_ok : services_ok (fun n => 0 <= n) example_endpoint.
Proof.
  intros s Hs st req Hst _. simpl in Hs.
  apply elem_of_cons in Hs as [[= ->]|[[=]|[]%not_elem_of_nil]%elem_of_cons].
  simpl. eexists _, _, _. split; [done|]. split; [lia|done].
Qed.

Lemma example_call_ok : msg_ok (args32 example_call).
Proof. split; [done|]. simpl. rewrite !Forall_cons. repeat split; done. Qed.

Lemma receive_safe {S M} (Inv : S -> Prop) retrieve relinquish
    (ep : ts_rpc_endpoint_sp S) st (m : M) msg :
  spm_ok retrieve -> endpoint_ok ep -> msg_ok (args32 msg) -> services_ok Inv ep -> Inv st ->
  exists reply ep' st' m',
    ts_rpc_endpoint_sp_receive retrieve relinquish ep st m msg = Some (reply, ep', st', m') /\
    endpoint_ok ep' /\ services ep' = services ep /\ Inv st' /\ msg_destination_id reply = msg_source_id msg /\
    msg_source_id reply = msg_destination_id msg /\ len (args32 reply) = 5 /\
    nthZ (args32 reply) TS_RPC_CONTROL_REG = nthZ (args32 msg) TS_RPC_CONTROL_REG.
Proof.
  intros Hspm Hok Hmsg Hsvc Hinv. unfold ts_rpc_endpoint_sp_receive, ts_rpc_abi_copy_control_reg.
  destruct (msg_reg _ 0 Hmsg ltac:(lia)) as (w0 & Hw0 & _). unfold TS_RPC_CONTROL_REG.
  rewrite Hw0. cbn [mbind option_bind]. rewrite setZ_is_Some by done. cbn [mbind option_bind].
  set (resp := <[_ := w0]> _). assert (response_ok w0 resp) as Hr by done.
  destruct (is_64bit_message msg); cbn [negb].
  - destruct (set_status w0 resp RPC_ERROR_INVALID_VALUE Hr) as (r & -> & Hr1 & Hr2).
    by eexists _, _, _, _.
  - unfold ts_rpc_abi_is_management_interface_id, ts_rpc_abi_get_interface_id, get_field.
    unfold TS_RPC_INTERFACE_ID_REG. rewrite Hw0. cbn [mbind option_bind]. destruct (_ =? _).
    + destruct (management_ok retrieve relinquish ep m (msg_source_id msg) (args32 msg) resp w0)
        as (r & ep' & m' & -> & Hok' & [Hr1 Hr2] & Hs); [done..|]. by eexists _, _, _, _.
    + destruct (service_call_spec Inv ep st (msg_source_id msg) (args32 msg) resp w0)
        as (r & ep' & st' & -> & Hok' & [Hr1 Hr2] & Hi & Hs & _); [done..|]. by eexists _, _, _, _.
Qed.

(** C14: the endpoint survives every history of messages.  With an SPM that
    announces regions truthfully and services that return, keep their invariant
    and keep their buffer, every message of any sequence, 32-bit or 64-bit, gets
    a reply that goes back to its sender with the control register copied,
    without a fault, and the endpoint and the services stay well formed. *)
Theorem ts_rpc_endpoint_receive_safe {S M} (Inv : S -> Prop) retrieve relinquish
    (ep : ts_rpc_endpoint_sp S) st (m : M) msgs :
  spm_ok retrieve -> endpoint_ok ep -> services_ok Inv ep -> Inv st ->
  Forall (fun msg => msg_ok (args32 msg)) msgs ->
  exists replies ep' st' m',
    receive_all retrieve relinquish ep st m msgs = Some (replies, ep', st', m') /\
    endpoint_ok ep' /\ services_ok Inv ep' /\ Inv st' /\
    Forall2 (fun msg reply =>
      msg_destination_id reply = msg_source_id msg /\
      msg_source_id reply = msg_destination_id msg /\ len (args32 reply) = 5 /\
      nthZ (args32 reply) TS_RPC_CONTROL_REG = nthZ (args32 msg) TS_RPC_CONTROL_REG) msgs replies.
Proof.
  intros Hspm Hok Hsvc Hinv Hmsgs. revert ep st m Hok Hsvc Hinv.
  induction Hmsgs as [|msg msgs Hmsg _ IH]; intros ep st m Hok Hsvc Hinv.
  - eexists [], _, _, _. repeat (split; [done|]). constructor.
  - simpl. destruct (receive_safe Inv retrieve relinquish ep st m msg)
      as (reply & ep1 & st1 & m1 & -> & Hok1 & Hs1 & Hi1 & Hrep); [done..|]. simpl.
    destruct (IH ep1 st1 m1) as (replies & ep2 & st2 & m2 & -> & H2); [done| |done|].
    { unfold services_ok. by rewrite Hs1. }
    simpl. eexists (reply :: replies), _, _, _. split; [done|].
    destruct H2 as (? & ? & ? & ?). do 3 (split; [done|]). by constructor.
Qed.

Lemma ts_rpc_endpoint_receive_safe_witness :
  exists replies ep' st' m',
    receive_all example_retrieve example_relinquish example_endpoint 0 0
      [example_call; example_call] = Some (replies, ep', st', m') /\ endpoint_ok ep' /\ 0 <= st'.
Proof.
  destruct (ts_rpc_endpoint_receive_safe (fun n => 0 <= n) example_retrieve example_relinquish
    example_endpoint 0 0 [example_call; example_call])
    as (replies & ep' & st' & m' & Hr & Hok & _ & Hi & _);
    [apply example_spm_ok|apply example_endpoint_ok|apply example_services_ok|done|
     do 2 (apply Forall_cons_2; [apply example_call_ok|]); apply Forall_nil_2|].
  by exists replies, ep', st', m'.
Defined.

(** C9: isolation of clients.  A message from one sender never changes a memory
    descriptor of another one, and if a service runs then its request names the
    sender, and its buffer is memory the sender shared (or none at all), at
    least as long as the request. *)
Theorem ts_rpc_endpoint_isolation {S M} (Inv : S -> Prop) retrieve relinquish
    (ep ep' : ts_rpc_endpoint_sp S) st st' (m m' : M) msg reply :
  endpoint_ok ep -> msg_ok (args32 msg) -> services_ok Inv ep -> Inv st ->
  ts_rpc_endpoint_sp_receive retrieve relinquish ep st m msg = Some (reply, ep', st', m') ->
  (forall j d, shared_memories ep !! j = Some d -> shm_used d = true ->
     shm_owner_id d <> msg_source_id msg -> shared_memories ep' !! j = Some d) /\
  (st' = st \/ exists s req status req',
     Some s ∈ services ep /\ svc_receive s st req = Some (status, req', st') /\
     request_ok req /\ source_id req = msg_source_id msg /\
     (region req = None \/ exists j d, shared_memories ep !! j = Some d /\ shm_used d = true /\
        shm_owner_id d = msg_source_id msg /\ region req = shm_data d)).
Proof.
  intros Hok Hmsg Hsvc Hinv Hrun. unfold ts_rpc_endpoint_sp_receive in Hrun.
  apply bind_Some in Hrun as (resp & Hresp & Hrun).
  destruct (negb _); [|by inv_bind Hrun; split; [|left]].
  apply bind_Some in Hrun as (mgmt & _ & Hrun). destruct mgmt.
  { apply bind_Some in Hrun as ([[r ep1] m1] & Hm & Hrun). simplify_eq.
    split; [|by left]. intros j d Hj Hu Ho. by eapply management_frame. }
  unfold ts_rpc_abi_copy_control_reg in Hresp. apply bind_Some in Hresp as (w0 & Hw0 & Hresp).
  rewrite setZ_is_Some in Hresp by done. simplify_eq.
  destruct (service_call_spec Inv ep st (msg_source_id msg) (args32 msg) (<[0%nat := w0]> (replicate 5 0))
    w0) as (r & ep1 & st1 & Hs & Hok1 & _ & _ & _ & Hcase); [done..|].
  change (Z.to_nat TS_RPC_CONTROL_REG) with 0%nat in Hrun. rewrite Hs in Hrun. simplify_eq/=.
  destruct Hcase as [(-> & -> & _)|(s & h & i & d & req & status & req' & _ & Hcall & Hin & Hsrc &
    Hreg & _ & Hreq & Hrecv & Hkeep & -> & _)]; [by split; [|left]|].
  rewrite Hreg in Hkeep.
  destruct (write_back_ok ep i d _ _ _ Hok Hcall Hkeep) as [_ Hframe]. split.
  - intros j d0 Hj Hu Ho. destruct (Hframe j d0 Hj) as (d1 & Hd1 & _ & He).
    rewrite Hd1, He; [done|]. by left.
  - right. eexists s, req, _, _. do 4 (split; [done|]). rewrite Hreg.
    destruct (call_memory_spec ep _ h i d Hok Hcall)
      as [(j & b & -> & Hd & Hu & Ho & _)|(_ & -> & _)]; [right; by exists j, d|by left].
Qed.

Lemma ts_rpc_endpoint_isolation_witness :
  exists reply ep' st' m',
    ts_rpc_endpoint_sp_receive example_retrieve example_relinquish example_endpoint 0 0 example_call
      = Some (reply, ep', st', m') /\ st' = 1 /\
    (st' = 0 \/ exists s req status req',
       Some s ∈ services example_endpoint /\ svc_receive s 0 req = Some (status, req', st') /\
       request_ok req /\ source_id req = 5 /\
       (region req = None \/ exists j d, shared_memories example_endpoint !! j = Some d /\
          shm_used d = true /\ shm_owner_id d = 5 /\ region req = shm_data d)).
Proof.
  assert ((fun '(_, _, st', _) => st') <$> ts_rpc_endpoint_sp_receive example_retrieve
    example_relinquish example_endpoint 0 0 example_call = Some 1)
    as ([[[reply ep'] st'] m'] & Hr & Hst)%fmap_Some by (vm_compute; reflexivity).
  exists reply, ep', st', m'. split; [done|]. split; [done|].
  apply (ts_rpc_endpoint_isolation (fun n => 0 <= n) example_retrieve example_relinquish example_endpoint ep' 0 st'
    0 m' example_call reply example_endpoint_ok example_call_ok example_services_ok (Z.le_refl 0) Hr).
Defined.

(** C27: accounting.  After any history of sharing requests by any senders, the
    endpoint holds a region exactly as many times as it was successfully
    retrieved and not yet relinquished, and the table keeps its size. *)
Theorem ts_rpc_endpoint_share_accounting {S M} retrieve relinquish
    (ep : ts_rpc_endpoint_sp S) (m : M) os owner h :
  let '(sts, ep', m') := share_run retrieve relinquish ep m os in
  length sts = length os /\
  Z.of_nat (held ep' owner h) = Z.of_nat (held ep owner h) + share_balance owner h os sts /\
  length (shared_memories ep') = length (shared_memories ep).
Proof.
  destruct (share_run retrieve relinquish ep m os) as [[sts ep'] m'] eqn:Hrun.
  revert ep m sts Hrun. induction os as [|o os IH]; intros ep m sts Hrun; simpl in Hrun.
  - simplify_eq. simpl. split; [done|]. split; [lia|done].
  - destruct (share_step retrieve relinquish ep m o) as [[st ep1] m1] eqn:Hstep.
    destruct (share_run retrieve relinquish ep1 m1 os) as [[sts1 ep2] m2] eqn:Hrest.
    simplify_eq. destruct (IH _ _ _ Hrest) as (Hl & Hb & Hn).
    assert (Z.of_nat (held ep1 owner h) = Z.of_nat (held ep owner h) + share_weight owner h o st /\
      length (shared_memories ep1) = length (shared_memories ep)) as [Hw Hn1];
      [|simpl; split; [by f_equal|split; [lia|congruence]]].
    split.
    + unfold share_weight. destruct o as [s k|s k]; simpl in Hstep.
      * destruct (retrieve_account retrieve _ _ _ _ _ _ _ _ Hstep) as [(-> & _ & Hh & Ho)|(Hst & ->)].
        2:{ destruct (Z.eqb_spec st RPC_SUCCESS); [done|lia]. }
        simpl.
        destruct (Z.eqb_spec s owner), (Z.eqb_spec k h); simplify_eq/=;
          first [lia|rewrite Ho by auto; lia].
      * destruct (relinquish_account relinquish _ _ _ _ _ _ _ Hstep) as [(-> & _ & Hh & Ho)|(Hst & ->)].
        2:{ destruct (Z.eqb_spec st RPC_SUCCESS); [done|lia]. }
        simpl.
        destruct (Z.eqb_spec s owner), (Z.eqb_spec k h); simplify_eq/=;
          first [lia|rewrite Ho by auto; lia].
    + destruct o as [s k|s k]; simpl in Hstep.
      * unfold handle_memory_retrieve in Hstep. repeat case_match; simplify_eq/=; try done.
        by rewrite length_insert.
      * unfold handle_memory_relinquish in Hstep. repeat case_match; simplify_eq/=; try done.
        by rewrite length_insert.
Qed.

(** Shutting the endpoint down fails whenever a descriptor is free (and no
    region is held by the null owner under handle 0): the loop relinquishes
    every descriptor, the free ones included, and the first free one ends it
    with an error, so the endpoint is never released. *)
Theorem ts_rpc_endpoint_deinit_fails {S M} relinquish (ep : ts_rpc_endpoint_sp S) (m : M) :
  endpoint_ok ep -> (0 < free_slots ep)%nat -> held ep 0 0 = 0%nat ->
  exists status ep' m', ts_rpc_endpoint_sp_deinit relinquish (Some ep) m
    = Some (status, Some ep', m') /\ status <> RPC_SUCCESS.
Proof.
  intros (_ & Hcount & Hshm) Hfree Hheld. unfold ts_rpc_endpoint_sp_deinit. rewrite Hcount.
  unfold len. rewrite Nat2Z.id.
  assert (exists j, (0 <= j < length (shared_memories ep))%nat /\
    shared_memories ep !! j = Some zero_shm) as (j & Hj & Hz).
  { unfold free_slots in Hfree. destruct (filter _ _) as [|d l] eqn:Hf; [simpl in Hfree; lia|].
    assert (d ∈ filter (fun d => shm_used d = false) (shared_memories ep)) as Hd
      by (rewrite Hf; left).
    apply list_elem_of_filter in Hd as [Hu Hd].
    apply list_elem_of_lookup_1 in Hd as [j Hj]. exists j.
    pose proof (lookup_lt_Some _ _ _ Hj). split; [lia|].
    pose proof (Forall_lookup_1 _ _ _ _ Hshm Hj) as Hs. unfold shm_ok in Hs. rewrite Hu in Hs.
    congruence. }
  destruct (deinit_loop_fails relinquish (length (shared_memories ep)) 0 ep m j)
    as (st & ep' & m' & -> & Hst); [done|lia|done|done|]. simpl.
  destruct (Z.eqb_spec st RPC_SUCCESS); [done|]. simpl. by eexists _, _, _.
Qed.

Lemma ts_rpc_endpoint_deinit_fails_witness :
  exists status ep' m', ts_rpc_endpoint_sp_deinit example_relinquish (Some example_endpoint) 0
    = Some (status, Some ep', m') /\ status <> RPC_SUCCESS.
Proof.
  apply (ts_rpc_endpoint_deinit_fails example_relinquish);
    [apply example_endpoint_ok|vm_compute; lia|vm_compute; reflexivity].
Defined.
