(* ===== verification/RpcCaller.v ===== *)
(** * components/rpc/common/caller and components/rpc/direct: the client side

    rpc_caller.c: dispatch through a caller interface; rpc_caller_session.c: the
    begin / invoke / end transactions of a client over one shared memory;
    direct_caller.c: the caller that hands requests to a service of the same
    image.

    [C] is the state behind a caller's context.  A buffer pointer given out by a
    session is the session's own shared memory, so the model keeps the contents
    there; [None] is a NULL buffer.  A pointer parameter that may be NULL is an
    [option], or a boolean when only its presence matters. *)
From S2P Require Import Prelude Status RpcService RpcEndpoint.

Record rpc_caller_shared_memory := SharedMemory {
  memory_id : Z;
  buffer : option bytes;
  memory_size : Z
}.

Definition null_memory : rpc_caller_shared_memory := SharedMemory 0 None 0.

(** Every operation returns its status and the new state of the context.  [call]
    also takes and returns *response_length and *service_status. *)
Record rpc_caller_interface (C : Type) := Caller {
  ci_open_session : C -> bytes -> Z -> Z * C;
  ci_find_and_open_session : C -> bytes -> Z * C;
  ci_close_session : C -> Z * C;
  ci_create_shared_memory : C -> Z -> rpc_caller_shared_memory -> Z * rpc_caller_shared_memory * C;
  ci_release_shared_memory : C -> rpc_caller_shared_memory -> Z * rpc_caller_shared_memory * C;
  ci_call : C -> Z -> rpc_caller_shared_memory -> Z -> Z -> Z ->
            option (Z * rpc_caller_shared_memory * Z * Z * C)
}.
Arguments Caller {C}.
Arguments ci_open_session {C}.
Arguments ci_find_and_open_session {C}.
Arguments ci_close_session {C}.
Arguments ci_create_shared_memory {C}.
Arguments ci_release_shared_memory {C}.
Arguments ci_call {C}.

(** enum rpc_caller_memory_policy *)
Definition alloc_for_each_call : Z := 0.
Definition alloc_for_session : Z := 1.

Record rpc_caller_session (C : Type) := Session {
  caller : option (rpc_caller_interface C);
  shared_memory : rpc_caller_shared_memory;
  shared_memory_policy : Z;
  is_call_transaction_in_progress : bool;
  request_length : Z
}.
Arguments Session {C}.
Arguments caller {C}.
Arguments shared_memory {C}.
Arguments shared_memory_policy {C}.
Arguments is_call_transaction_in_progress {C}.
Arguments request_length {C}.

Section Caller.
Context {C : Type}.
Implicit Types (ci : option (rpc_caller_interface C)) (c : C) (s : rpc_caller_session C).
Implicit Types m : rpc_caller_shared_memory.

(** ** rpc_caller.c *)

Definition rpc_caller_open_session ci c (service_uuid : bytes) (endpoint_id : Z) : Z * C :=
  match ci with
  | None => (RPC_ERROR_INVALID_VALUE, c)
  | Some i => ci_open_session i c service_uuid endpoint_id
  end.

Definition rpc_caller_find_and_open_session ci c (service_uuid : bytes) : Z * C :=
  match ci with
  | None => (RPC_ERROR_INVALID_VALUE, c)
  | Some i => ci_find_and_open_session i c service_uuid
  end.

Definition rpc_caller_close_session ci c : Z * C :=
  match ci with
  | None => (RPC_ERROR_INVALID_VALUE, c)
  | Some i => ci_close_session i c
  end.

Definition rpc_caller_create_shared_memory ci c (length : Z) m
    : Z * rpc_caller_shared_memory * C :=
  match ci with
  | None => (RPC_ERROR_INVALID_VALUE, m, c)
  | Some i => ci_create_shared_memory i c length m
  end.

Definition rpc_caller_release_shared_memory ci c m : Z * rpc_caller_shared_memory * C :=
  match ci with
  | None => (RPC_ERROR_INVALID_VALUE, m, c)
  | Some i => ci_release_shared_memory i c m
  end.

(** The opcode parameter is a uint16_t. *)
Definition rpc_caller_call ci c (opcode : Z) m (request_length response_length service_status : Z)
    : option (Z * rpc_caller_shared_memory * Z * Z * C) :=
  match ci with
  | None => Some (RPC_ERROR_INVALID_VALUE, m, response_length, service_status, c)
  | Some i => ci_call i c (u16 opcode) m request_length response_length service_status
  end.

(** ** rpc_caller_session.c *)

Definition set_memory s m : rpc_caller_session C :=
  Session (caller s) m (shared_memory_policy s) (is_call_transaction_in_progress s)
    (request_length s).
Definition set_policy s (policy : Z) : rpc_caller_session C :=
  Session (caller s) (shared_memory s) policy (is_call_transaction_in_progress s)
    (request_length s).
Definition set_transaction s (in_progress : bool) (length : Z) : rpc_caller_session C :=
  Session (caller s) (shared_memory s) (shared_memory_policy s) in_progress length.

Definition initalize_shared_memory s ci (shared_memory_size : Z) c
    : Z * rpc_caller_session C * C :=
  if negb (shared_memory_size =? 0) then
    let '(status, m, c) :=
      rpc_caller_create_shared_memory ci c shared_memory_size (shared_memory s) in
    if negb (status =? RPC_SUCCESS) then
      let '(_, c) := rpc_caller_close_session ci c in (status, set_memory s m, c)
    else (RPC_SUCCESS, set_policy (set_memory s m) alloc_for_session, c)
  else (RPC_SUCCESS, set_policy (set_memory s null_memory) alloc_for_each_call, c).

(** The last steps of both open functions. *)
Definition set_caller s ci : rpc_caller_session C :=
  Session ci (shared_memory s) (shared_memory_policy s) false 0.

Definition rpc_caller_session_open (session : option (rpc_caller_session C)) ci
    (service_uuid : option bytes) (endpoint_id shared_memory_size : Z) c
    : Z * option (rpc_caller_session C) * C :=
  match session, ci, service_uuid with
  | Some s, Some _, Some uuid =>
      let '(status, c) := rpc_caller_open_session ci c uuid endpoint_id in
      if negb (status =? RPC_SUCCESS) then (status, Some s, c)
      else
        let '(status, s, c) := initalize_shared_memory s ci shared_memory_size c in
        if negb (status =? RPC_SUCCESS) then (status, Some s, c)
        else (status, Some (set_caller s ci), c)
  | _, _, _ => (RPC_ERROR_INVALID_VALUE, session, c)
  end.

Definition rpc_caller_session_find_and_open (session : option (rpc_caller_session C)) ci
    (service_uuid : option bytes) (shared_memory_size : Z) c
    : Z * option (rpc_caller_session C) * C :=
  match session, ci, service_uuid with
  | Some s, Some _, Some uuid =>
      let '(status, c) := rpc_caller_find_and_open_session ci c uuid in
      if negb (status =? RPC_SUCCESS) then (status, Some s, c)
      else
        let '(status, s, c) := initalize_shared_memory s ci shared_memory_size c in
        if negb (status =? RPC_SUCCESS) then (status, Some s, c)
        else (status, Some (set_caller s ci), c)
  | _, _, _ => (RPC_ERROR_INVALID_VALUE, session, c)
  end.

Definition rpc_caller_session_close (session : option (rpc_caller_session C)) c
    : Z * option (rpc_caller_session C) * C :=
  match session with
  | None => (RPC_ERROR_INVALID_VALUE, None, c)
  | Some s =>
      if is_call_transaction_in_progress s then (RPC_ERROR_INVALID_STATE, Some s, c)
      else if shared_memory_policy s =? alloc_for_session then
        let '(rpc_status, m, c) :=
          rpc_caller_release_shared_memory (caller s) c (shared_memory s) in
        let s := set_memory s m in
        if negb (rpc_status =? RPC_SUCCESS) then (rpc_status, Some s, c)
        else let '(status, c) := rpc_caller_close_session (caller s) c in (status, Some s, c)
      else let '(status, c) := rpc_caller_close_session (caller s) c in (status, Some s, c)
  end.

(** Is there a usable buffer?  The test of invoke, end and begin. *)
Definition no_memory m : bool :=
  (match buffer m with None => true | Some _ => false end) || (memory_size m =? 0).

(** The boolean tells whether the returned handle is not NULL. *)
Definition rpc_caller_session_begin (session : option (rpc_caller_session C))
    (has_request_buffer : bool) (request_length response_max_length : Z) c
    : bool * option (rpc_caller_session C) * C :=
  let required_buffer_length := Z.max request_length response_max_length in
  if required_buffer_length >? 2 ^ 32 - 1 then (false, session, c)
  else
    match session with
    | None => (false, None, c)
    | Some s =>
        if negb has_request_buffer || is_call_transaction_in_progress s then (false, Some s, c)
        else if shared_memory_policy s =? alloc_for_each_call then
          if (match buffer (shared_memory s) with Some _ => true | None => false end) ||
             negb (memory_size (shared_memory s) =? 0)
          then (false, Some s, c)
          else
            let '(status, m, c) := rpc_caller_create_shared_memory (caller s) c
                                     required_buffer_length (shared_memory s) in
            let s := set_memory s m in
            if negb (status =? RPC_SUCCESS) then (false, Some s, c)
            else (true, Some (set_transaction s true request_length), c)
        else if shared_memory_policy s =? alloc_for_session then
          if no_memory (shared_memory s) then (false, Some s, c)
          else if memory_size (shared_memory s) <? required_buffer_length
          then (false, Some s, c)
          else (true, Some (set_transaction s true request_length), c)
        else (false, Some s, c)
    end.

(** Returns the status, *response_buffer ([None] is NULL), *response_length and
    *service_status; [resp] and [resp_len] tell whether the out pointers exist. *)
Definition rpc_caller_session_invoke (handle : option (rpc_caller_session C)) (opcode : Z)
    (resp resp_len : bool) (response_buffer : option bytes) (response_length service_status : Z) c
    : option (Z * option bytes * Z * Z * option (rpc_caller_session C) * C) :=
  match handle with
  | None => Some (RPC_ERROR_INVALID_VALUE, response_buffer, response_length, service_status, None, c)
  | Some s =>
      if negb resp || negb resp_len then
        Some (RPC_ERROR_INVALID_VALUE, response_buffer, response_length, service_status, Some s, c)
      else if negb (is_call_transaction_in_progress s) then
        Some (RPC_ERROR_INVALID_STATE, response_buffer, response_length, service_status, Some s, c)
      else if negb (request_length s =? 0) && no_memory (shared_memory s) then
        Some (RPC_ERROR_INVALID_STATE, response_buffer, response_length, service_status, Some s, c)
      else
        '(status, m, response_length, service_status, c) ←
          rpc_caller_call (caller s) c opcode (shared_memory s) (request_length s)
            response_length service_status;
        let s := set_memory s m in
        if negb (status =? RPC_SUCCESS) || (response_length >? memory_size (shared_memory s))
        then Some (status, None, 0, service_status, Some s, c)
        else Some (status, buffer (shared_memory s), response_length, service_status, Some s, c)
  end.

Definition rpc_caller_session_end (handle : option (rpc_caller_session C)) c
    : Z * option (rpc_caller_session C) * C :=
  match handle with
  | None => (RPC_ERROR_INVALID_VALUE, None, c)
  | Some s =>
      if negb (is_call_transaction_in_progress s) then (RPC_ERROR_INVALID_STATE, Some s, c)
      else if negb (request_length s =? 0) && no_memory (shared_memory s) then
        (RPC_ERROR_INVALID_STATE, Some s, c)
      else if shared_memory_policy s =? alloc_for_each_call then
        let '(status, m, c) :=
          rpc_caller_release_shared_memory (caller s) c (shared_memory s) in
        let s := set_memory s m in
        if negb (status =? RPC_SUCCESS) then (status, Some s, c)
        else (RPC_SUCCESS, Some (set_transaction (set_memory s null_memory) false 0), c)
      else if shared_memory_policy s =? alloc_for_session then
        (RPC_SUCCESS, Some (set_transaction s false 0), c)
      else (RPC_ERROR_INVALID_STATE, Some s, c)
  end.

End Caller.

(** ** direct_caller.c

    The state is that of the service [S], with the number of heap blocks the
    caller has handed out; [calloc_ok] tells whether an allocation of a size
    succeeds.  The static counter of endpoint ids is [next_caller_id]. *)

Definition DIRECT_CALLER_BASE_DEFAULT_ID : Z := 4096.

Record direct_caller_context (S : Type) := DirectContext {
  dc_service : rpc_service_interface S;
  dc_endpoint_id : Z
}.
Arguments DirectContext {S}.
Arguments dc_service {S}.
Arguments dc_endpoint_id {S}.

Record direct_state (S : Type) := DirectState { live_blocks : Z; service_state : S }.
Arguments DirectState {S}.
Arguments live_blocks {S}.
Arguments service_state {S}.

Module Direct.
Section Direct.
Context {S : Type} (calloc_ok : Z -> bool) (context : direct_caller_context S).
Abbreviation C := (direct_state S).

Definition find_and_open_session (c : C) (service_uuid : bytes) : Z * C :=
  if negb (rpc_uuid_equal service_uuid (svc_uuid (dc_service context)))
  then (RPC_ERROR_NOT_FOUND, c) else (RPC_SUCCESS, c).

Definition open_session (c : C) (service_uuid : bytes) (endpoint_id : Z) : Z * C :=
  find_and_open_session c service_uuid.

Definition close_session (c : C) : Z * C := (RPC_SUCCESS, c).

(** The result of calloc is not checked. *)
Definition create_shared_memory (c : C) (size : Z) (m : rpc_caller_shared_memory)
    : Z * rpc_caller_shared_memory * C :=
  if calloc_ok size
  then (RPC_SUCCESS, SharedMemory 0 (Some (fill 0 size)) size,
        DirectState (live_blocks c + 1) (service_state c))
  else (RPC_SUCCESS, SharedMemory 0 None size, c).

(** free(NULL) does nothing. *)
Definition release_shared_memory (c : C) (m : rpc_caller_shared_memory)
    : Z * rpc_caller_shared_memory * C :=
  match buffer m with
  | Some _ => (RPC_SUCCESS, m, DirectState (live_blocks c - 1) (service_state c))
  | None => (RPC_SUCCESS, m, c)
  end.

Definition call (c : C) (opcode : Z) (m : rpc_caller_shared_memory)
    (request_length response_length service_status : Z)
    : option (Z * rpc_caller_shared_memory * Z * Z * C) :=
  let rpc_request := Request (dc_endpoint_id context) 0 opcode 0 0 request_length (memory_size m)
                       0 (memory_size m) (buffer m) in
  '(status, r, st) ←
    rpc_service_receive (Some (dc_service context)) (service_state c) rpc_request;
  Some (status, SharedMemory (memory_id m) (region r) (memory_size m), response_data_length r,
        RpcService.service_status r, DirectState (live_blocks c) st).

Definition interface : rpc_caller_interface C :=
  Caller open_session find_and_open_session close_session create_shared_memory
    release_shared_memory call.

End Direct.
End Direct.

(** The assigned id and the new value of the counter. *)
Definition allocate_caller_endpoint_id (next_caller_id : Z) : Z * Z :=
  (u16 next_caller_id, u32 (next_caller_id + 1)).

(** [has_caller], [has_context]: the caller exists and already has a context.
    Returns the context installed on success. *)
Definition direct_caller_init {S} (has_caller has_context : bool) (calloc_context : bool)
    (service : rpc_service_interface S) (next_caller_id : Z)
    : Z * option (direct_caller_context S) * Z :=
  if negb has_caller || has_context then (RPC_ERROR_INVALID_VALUE, None, next_caller_id)
  else if negb calloc_context then (RPC_ERROR_INTERNAL, None, next_caller_id)
  else
    let '(id, next) := allocate_caller_endpoint_id next_caller_id in
    (RPC_SUCCESS, Some (DirectContext service id), next).

(** ** What a session relies on *)

Definition memory_ok (m : rpc_caller_shared_memory) : Prop :=
  exists b, buffer m = Some b /\ len b = memory_size m.

(** A caller keeps its invariant; a successful allocation has the size asked for
    and is one more live block, a successful release one less; a failed
    operation leaves the descriptor alone; a call keeps the memory's extent. *)
Class CallerLaws {C} (i : rpc_caller_interface C) (Inv : C -> Prop) (live : C -> Z) : Prop := {
  open_law : forall c uuid e st c', Inv c -> ci_open_session i c uuid e = (st, c') ->
    Inv c' /\ live c' = live c;
  find_and_open_law : forall c uuid st c', Inv c -> ci_find_and_open_session i c uuid = (st, c') ->
    Inv c' /\ live c' = live c;
  close_law : forall c st c', Inv c -> ci_close_session i c = (st, c') ->
    Inv c' /\ live c' = live c;
  create_law : forall c n m st m' c', Inv c -> 0 <= n < 2 ^ 32 ->
    ci_create_shared_memory i c n m = (st, m', c') ->
    Inv c' /\ if st =? RPC_SUCCESS
              then memory_ok m' /\ memory_size m' = n /\ live c' = live c + 1
              else m' = m /\ live c' = live c;
  release_law : forall c m st m' c', Inv c -> memory_ok m ->
    ci_release_shared_memory i c m = (st, m', c') ->
    Inv c' /\ if st =? RPC_SUCCESS then live c' = live c - 1 else m' = m /\ live c' = live c;
  call_law : forall c op m n rl ss, Inv c -> memory_ok m -> 0 <= n <= memory_size m ->
    memory_size m < 2 ^ 32 ->
    exists st m' rl' ss' c', ci_call i c op m n rl ss = Some (st, m', rl', ss', c') /\
      Inv c' /\ live c' = live c /\ memory_ok m' /\ memory_size m' = memory_size m
}.

(** ** Client behaviour, in any order *)

(** memcpy of data to the start of the buffer a session gave out. *)
Definition write_request {C} (s : rpc_caller_session C) (off : Z) (data : bytes)
    : option (rpc_caller_session C) :=
  b ← buffer (shared_memory s);
  b ← store b off data;
  Some (set_memory s (SharedMemory (memory_id (shared_memory s)) (Some b)
                        (memory_size (shared_memory s)))).

Inductive session_op := Begin (request : bytes) (response_max : Z) | Invoke (op : Z) | End.

Definition session_step {C} (s : rpc_caller_session C) (c : C) (o : session_op)
    : option (rpc_caller_session C * C) :=
  match o with
  | Begin request response_max =>
      let '(handle, s, c) := rpc_caller_session_begin (Some s) true (len request) response_max c in
      s ← s;
      if (handle : bool) then s ← write_request s 0 request; Some (s, c) else Some (s, c)
  | Invoke op =>
      '(_, _, _, _, s, c) ← rpc_caller_session_invoke (Some s) op true true None 0 0 c;
      s ← s; Some (s, c)
  | End => let '(_, s, c) := rpc_caller_session_end (Some s) c in s ← s; Some (s, c)
  end.

Fixpoint session_run {C} (s : rpc_caller_session C) (c : C) (ops : list session_op)
    : option (rpc_caller_session C * C) :=
  match ops with
  | [] => Some (s, c)
  | o :: ops => '(s, c) ← session_step s c o; session_run s c ops
  end.

(** The number of live blocks a session accounts for. *)
Definition held_blocks {C} (s : rpc_caller_session C) : Z :=
  if shared_memory_policy s =? alloc_for_session then 1
  else if is_call_transaction_in_progress s then 1 else 0.

Definition session_ok {C} (i : rpc_caller_interface C) (s : rpc_caller_session C) : Prop :=
  caller s = Some i /\
  (shared_memory_policy s = alloc_for_each_call \/ shared_memory_policy s = alloc_for_session) /\
  memory_size (shared_memory s) < 2 ^ 32 /\
  (if is_call_transaction_in_progress s
   then 0 <= request_length s <= memory_size (shared_memory s) else request_length s = 0) /\
  (if held_blocks s =? 1 then memory_ok (shared_memory s) else shared_memory s = null_memory).

Definition session_op_ok (o : session_op) : Prop :=
  match o with Begin _ n => 0 <= n | _ => True end.

Section Session.
Context {C : Type} (i : rpc_caller_interface C) (Inv : C -> Prop) (live : C -> Z).
Context `{!CallerLaws i Inv live}.
Implicit Types (s : rpc_caller_session C) (c : C).

Definition session_inv (base : Z) s c : Prop :=
  session_ok i s /\ Inv c /\ live c = base + held_blocks s.

Lemma no_memory_ok m : memory_ok m -> no_memory m = (memory_size m =? 0).
Proof. intros (b & Hb & _). unfold no_memory. by rewrite Hb. Qed.

Lemma held_in_progress s : is_call_transaction_in_progress s = true -> held_blocks s = 1.
Proof. unfold held_blocks. intros ->. by case_match. Qed.

Lemma begin_step base s c request rm :
  session_inv base s c -> 0 <= rm ->
  exists s' c', session_step s c (Begin request rm) = Some (s', c') /\ session_inv base s' c'.
Proof.
  intros Hinv Hrm. pose proof Hinv as ((Hc & Hp & Hsz & Hreq & Hmem) & Hi & Hl).
  unfold session_step, rpc_caller_session_begin. pose proof (len_nonneg request).
  set (n := Z.max (len request) rm).
  destruct (n >? 2 ^ 32 - 1) eqn:Hn; [by eexists _, _|]. simpl orb.
  destruct (is_call_transaction_in_progress s) eqn:Hprog; [by eexists _, _|].
  unfold held_blocks in Hl, Hmem. rewrite Hprog in Hl, Hmem. rewrite Hc.
  assert (forall m, memory_ok m -> n <= memory_size m -> memory_size m < 2 ^ 32 ->
    forall c', Inv c' -> live c' = base + 1 -> exists s' c'',
      (s0 ← Some (set_transaction (set_memory s m) true (len request));
       s1 ← write_request s0 0 request; Some (s1, c')) = Some (s', c'') /\
      session_inv base s' c'') as Hgo.
  { intros m (b & Hb & Hbl) Hle Hlt c' Hi' Hl'. unfold write_request. simpl. rewrite Hb. simpl.
    destruct (store_ok b 0 request) as [b' Hb']; [lia..|]. rewrite Hb'. simpl.
    eexists _, _. split; [done|]. pose proof (store_len _ _ _ _ Hb') as Hbl'.
    split; [|split; [done|]].
    - split; [done|]. split; [done|]. split; [done|]. split; [simpl; lia|].
      unfold held_blocks. simpl. destruct (_ =? alloc_for_session); exists b'; (split; [done|]);
        simpl; lia.
    - unfold held_blocks. simpl. destruct (_ =? alloc_for_session); lia. }
  destruct Hp as [Hp|Hp]; rewrite Hp in *; simpl in *.
  - rewrite Hmem. simpl.
    destruct (ci_create_shared_memory i c n null_memory) as [[st m] c1] eqn:Hcreate.
    destruct (create_law c n null_memory st m c1 Hi) as [Hi1 Hcase]; [lia|done|].
    destruct (Z.eqb_spec st RPC_SUCCESS) as [Hst|Hst]; simpl.
    + destruct Hcase as (Hm & Hn' & Hl1). apply (Hgo m); [done|lia..|done|lia].
    + destruct Hcase as [-> Hl1]. eexists _, _. split; [done|]. split; [|split; [done|]].
      * split; [done|]. split; [by left|]. split; [done|]. simpl. rewrite Hprog. split; [done|].
        unfold held_blocks. simpl. rewrite Hp, Hprog. done.
      * unfold held_blocks. simpl. rewrite Hp, Hprog. simpl. lia.
  - rewrite no_memory_ok by done. destruct (Z.eqb_spec (memory_size (shared_memory s)) 0).
    { by eexists _, _. }
    destruct (Z.ltb_spec (memory_size (shared_memory s)) n); [by eexists _, _|]. simpl.
    replace (set_transaction s true (len request)) with
      (set_transaction (set_memory s (shared_memory s)) true (len request)) by done.
    apply Hgo; [done..|lia].
Qed.

Lemma invoke_step base s c op :
  session_inv base s c ->
  exists s' c', session_step s c (Invoke op) = Some (s', c') /\ session_inv base s' c'.
Proof.
  intros Hinv. pose proof Hinv as ((Hc & Hp & Hsz & Hreq & Hmem) & Hi & Hl).
  unfold session_step, rpc_caller_session_invoke. simpl orb.
  destruct (is_call_transaction_in_progress s) eqn:Hprog; simpl; [|by eexists _, _].
  pose proof (held_in_progress s Hprog) as Hh.
  rewrite Hh in Hmem. simpl in Hmem. rewrite no_memory_ok by done.
  destruct (negb _ && _); [by eexists _, _|].
  rewrite Hc. simpl. destruct (call_law c (u16 op) (shared_memory s) (request_length s) 0 0)
    as (st & m & rl & ss & c1 & -> & Hi1 & Hl1 & Hm & Hms); [done..|]. simpl.
  assert (session_inv base (set_memory s m) c1) as Hs'.
  { split; [|split; [done|by rewrite Hl1]]. split; [done|]. split; [done|]. simpl.
    rewrite Hprog, Hms. split; [done|]. split; [done|].
    change (held_blocks (set_memory s m)) with (held_blocks s). by rewrite Hh. }
  destruct (_ || _); by eexists _, _.
Qed.

Lemma end_step base s c :
  session_inv base s c ->
  exists s' c', session_step s c End = Some (s', c') /\ session_inv base s' c'.
Proof.
  intros Hinv. pose proof Hinv as ((Hc & Hp & Hsz & Hreq & Hmem) & Hi & Hl).
  unfold session_step, rpc_caller_session_end.
  destruct (is_call_transaction_in_progress s) eqn:Hprog; simpl; [|by eexists _, _].
  pose proof (held_in_progress s Hprog) as Hh.
  rewrite Hh in Hmem. simpl in Hmem. rewrite no_memory_ok by done.
  destruct (negb _ && _); [by eexists _, _|].
  destruct Hp as [Hp|Hp]; rewrite Hp; simpl.
  - rewrite Hc. simpl.
    destruct (ci_release_shared_memory i c (shared_memory s)) as [[st m] c1] eqn:Hrel.
    destruct (release_law c _ _ _ _ Hi Hmem Hrel) as [Hi1 Hcase].
    destruct (Z.eqb_spec st RPC_SUCCESS) as [Hst|Hst]; simpl; eexists _, _; (split; [done|]).
    + split; [|split; [done|]].
      * split; [done|]. split; [by left|]. split; [done|]. split; [done|].
        unfold held_blocks. simpl. by rewrite Hp.
      * unfold held_blocks. simpl. rewrite Hp. simpl. lia.
    + destruct Hcase as [-> Hl1]. split; [|split; [done|by rewrite Hl1]].
      split; [done|]. split; [by left|]. simpl. rewrite Hprog. split; [done|]. split; [done|].
      change (held_blocks (set_memory s (shared_memory s))) with (held_blocks s). by rewrite Hh.
  - eexists _, _. split; [done|].
    assert (held_blocks (set_transaction s false 0) = 1) as Hh'.
    { unfold held_blocks. simpl. by rewrite Hp. }
    split; [|split; [done|by rewrite Hh', <- Hh]].
    split; [done|]. split; [by right|]. split; [done|]. split; [done|]. by rewrite Hh'.
Qed.

Lemma session_run_inv base s c ops :
  session_inv base s c -> Forall session_op_ok ops ->
  exists s' c', session_run s c ops = Some (s', c') /\ session_inv base s' c'.
Proof.
  intros Hinv Hops. revert s c Hinv. induction Hops as [|o ops Ho _ IH]; intros s c Hinv.
  - by exists s, c.
  - assert (exists s' c', session_step s c o = Some (s', c') /\ session_inv base s' c')
      as (s1 & c1 & E & Hinv1).
    { destruct o as [request rm|op|]; [by apply begin_step|by apply invoke_step|by apply end_step]. }
    simpl. rewrite E. simpl. by apply IH.
Qed.

Lemma session_open_inv s0 uuid e size c0 s c :
  Inv c0 -> 0 <= size < 2 ^ 32 ->
  rpc_caller_session_open (Some s0) (Some i) (Some uuid) e size c0 = (RPC_SUCCESS, Some s, c) ->
  session_inv (live c0) s c.
Proof.
  intros Hi Hsize. simpl. destruct (ci_open_session i c0 uuid e) as [st1 c1] eqn:Ho.
  destruct (open_law c0 uuid e st1 c1 Hi Ho) as [Hi1 Hl1].
  destruct (Z.eqb_spec st1 RPC_SUCCESS); simpl; [|congruence].
  unfold initalize_shared_memory. destruct (Z.eqb_spec size 0) as [->|Hn]; simpl.
  { intros [= <- <-]. split; [|split; [done|]].
    - split; [done|]. split; [by left|]. done.
    - unfold held_blocks. simpl. lia. }
  destruct (ci_create_shared_memory i c1 size _) as [[st2 m] c2] eqn:Hcr.
  destruct (create_law c1 size _ st2 m c2 Hi1 Hsize Hcr) as [Hi2 Hcase].
  destruct (Z.eqb_spec st2 RPC_SUCCESS) as [->|Hne]; simpl.
  - intros [= <- <-]. destruct Hcase as (Hm & Hms & Hl2). split; [|split; [done|]].
    + split; [done|]. split; [by right|]. simpl. split; [lia|]. done.
    + unfold held_blocks. simpl. lia.
  - destruct (ci_close_session i c2) as [st3 c3]. simpl.
    destruct (Z.eqb_spec st2 RPC_SUCCESS); simpl; congruence.
Qed.

Lemma session_close_inv base s c so c' :
  session_inv base s c -> rpc_caller_session_close (Some s) c = (RPC_SUCCESS, so, c') ->
  Inv c' /\ live c' = base.
Proof.
  intros ((Hc & Hp & Hsz & Hreq & Hmem) & Hi & Hl). unfold rpc_caller_session_close.
  unfold held_blocks in Hl, Hmem.
  destruct (is_call_transaction_in_progress s); [done|].
  destruct Hp as [Hp|Hp]; rewrite Hp in *; simpl in *; rewrite Hc; simpl.
  - destruct (ci_close_session i c) as [st c1] eqn:Hcl. intros [= -> _ <-].
    destruct (close_law c _ _ Hi Hcl). split; [done|lia].
  - destruct (ci_release_shared_memory i c (shared_memory s)) as [[st m] c1] eqn:Hrel.
    destruct (release_law c _ _ _ _ Hi Hmem Hrel) as [Hi1 Hcase].
    destruct (Z.eqb_spec st RPC_SUCCESS); simpl; [|congruence].
    destruct (ci_close_session i c1) as [st' c2] eqn:Hcl. intros [= -> _ <-].
    destruct (close_law c1 _ _ Hi1 Hcl). split; [done|lia].
Qed.

End Session.

(** ** The direct caller keeps the laws *)

Section DirectLaws.
Context {S : Type} (calloc_ok : Z -> bool) (context : direct_caller_context S) (Inv : S -> Prop).
Context (Hcalloc : forall n, calloc_ok n = true)
        (Hservice : service_ok Inv (svc_receive (dc_service context))).

Lemma direct_request_ok id op n m :
  memory_ok m -> 0 <= n <= memory_size m -> memory_size m < 2 ^ 32 ->
  fresh_request (Request id 0 op 0 0 n (memory_size m) 0 (memory_size m) (buffer m)).
Proof.
  intros (b & Hb & Hbl) Hn Hm. split; [|done]. unfold request_ok. simpl. rewrite Hb.
  do 3 (split; [done|]). lia.
Qed.

#[export] Instance direct_caller_laws :
  CallerLaws (Direct.interface calloc_ok context) (fun c => Inv (service_state c)) live_blocks.
Proof using Hcalloc Hservice.
  split; simpl.
  - intros c uuid e st c' Hi. unfold Direct.open_session, Direct.find_and_open_session.
    destruct (negb _); intros [= <- <-]; done.
  - intros c uuid st c' Hi. unfold Direct.find_and_open_session.
    destruct (negb _); intros [= <- <-]; done.
  - intros c st c' Hi [= <- <-]. done.
  - intros c n m st m' c' Hi Hn. unfold Direct.create_shared_memory. rewrite Hcalloc.
    intros [= <- <- <-]. split; [done|]. simpl. split; [|done].
    exists (fill 0 n). split; [done|]. simpl. apply len_fill. lia.
  - intros c m st m' c' Hi (b & Hb & _). unfold Direct.release_shared_memory. rewrite Hb.
    intros [= <- <- <-]. done.
  - intros c op m n rl ss Hi Hm Hn Hs. unfold Direct.call.
    destruct (Hservice (service_state c)
      (Request (dc_endpoint_id context) 0 op 0 0 n (memory_size m) 0 (memory_size m) (buffer m)))
      as (status & r & st & Hr & Hi' & Hkeep); [done|by apply direct_request_ok|].
    simpl. rewrite Hr. simpl. eexists _, _, _, _, _. split; [done|]. split; [done|].
    split; [done|]. split; [|done]. simpl in Hkeep. destruct Hm as (b & Hb & Hbl).
    rewrite Hb in Hkeep. simpl in Hkeep. apply fmap_Some in Hkeep as (b' & Hb' & Hl').
    exists b'. split; [done|]. simpl. lia.
Qed.

End DirectLaws.

(** ** Properties of the session *)

(** C26: a session never leaks or double-frees its shared memory.  Over any
    caller that keeps its laws, after a successful open with either policy,
    every sequence of begin, invoke and end steps, in any order, returns; the
    caller has exactly the blocks it had before plus the one the session holds;
    and a close that succeeds gives the last one back. *)
Theorem rpc_session_lifecycle {C} (i : rpc_caller_interface C) (Inv : C -> Prop) (live : C -> Z)
    s0 uuid e size c0 s c ops :
  CallerLaws i Inv live -> Inv c0 -> 0 <= size < 2 ^ 32 ->
  rpc_caller_session_open (Some s0) (Some i) (Some uuid) e size c0 = (RPC_SUCCESS, Some s, c) ->
  Forall session_op_ok ops ->
  exists s' c', session_run s c ops = Some (s', c') /\ session_ok i s' /\
    live c' = live c0 + held_blocks s' /\
    forall so c'', rpc_caller_session_close (Some s') c' = (RPC_SUCCESS, so, c'') ->
      live c'' = live c0.
Proof.
  intros Hlaws Hi Hsize Hopen Hops.
  pose proof (session_open_inv i Inv live s0 uuid e size c0 s c Hi Hsize Hopen) as Hinv.
  destruct (session_run_inv i Inv live (live c0) s c ops Hinv Hops)
    as (s' & c' & Hrun & Hinv'). pose proof Hinv' as (Hok & _ & Hl).
  exists s', c'. do 3 (split; [done|]). intros so c'' Hclose.
  by eapply session_close_inv.
Qed.

Lemma rpc_session_lifecycle_witness :
  let ctx := DirectContext example_echo DIRECT_CALLER_BASE_DEFAULT_ID in
  let i := Direct.interface (fun _ => true) ctx in
  exists s c s' c',
    rpc_caller_session_open (Some (Session None null_memory 0 false 0)) (Some i)
      (Some (fill 1 16)) 0 0 (DirectState 3 0) = (RPC_SUCCESS, Some s, c) /\
    session_run s c [Begin [1; 2] 4; Invoke 7; Begin [] 0; End; End; Invoke 7] = Some (s', c') /\
    live_blocks c' = 3.
Proof.
  intros ctx i.
  destruct (rpc_caller_session_open (Some (Session None null_memory 0 false 0)) (Some i)
      (Some (fill 1 16)) 0 0 (DirectState 3 0)) as [[st [s|]] c] eqn:Ho; [|done].
  assert (st = RPC_SUCCESS) as -> by (by inversion Ho).
  assert (service_ok (fun n => 0 <= n) (svc_receive (dc_service ctx))) as Hsvc.
  { apply example_services_ok. left. }
  destruct (rpc_session_lifecycle i (fun c => 0 <= service_state c) live_blocks
    (Session None null_memory 0 false 0) (fill 1 16) 0 0 (DirectState 3 0) s c
    [Begin [1; 2] 4; Invoke 7; Begin [] 0; End; End; Invoke 7])
    as (s' & c' & Hrun & _ & Hl & _);
    [by apply direct_caller_laws|done|done|done|by rewrite !Forall_cons|].
  exists s, c, s', c'. split; [done|]. split; [done|]. rewrite Hl.
  revert Hrun. inversion Ho. intros Hrun. vm_compute in Hrun. inversion Hrun. done.
Defined.
