(* ===== verification/StorageBackend.v ===== *)
(** * components/service/secure_storage/backend: the storage backend interface

    storage_backend.h and psa/storage_common.h: the operations of a storage backend,
    and the class [StorageLaws] of what they promise; mock_store.c, which keeps
    assets in a table on the heap, is an instance; null_store.c refuses everything.
    [p_data] is the memory a pointer points to, [None] for NULL. *)
From S2P Require Import Prelude Status.

(** ** psa/storage_common.h *)

Record psa_storage_info_t := StorageInfo { si_capacity : Z; si_size : Z; si_flags : Z }.

Definition PSA_STORAGE_FLAG_NONE : Z := 0.
Definition PSA_STORAGE_FLAG_WRITE_ONCE : Z := Z.shiftl 1 0.
Definition PSA_STORAGE_SUPPORT_SET_EXTENDED : Z := Z.shiftl 1 0.

(** ** storage_backend.h *)

(** [sb_get] takes and returns the buffer and *p_data_length. *)
Record storage_backend_interface (C : Type) := StorageBackend {
  sb_set : C -> Z -> Z -> Z -> option bytes -> Z -> option (Z * C);
  sb_get : C -> Z -> Z -> Z -> Z -> option bytes -> Z -> option (Z * option bytes * Z * C);
  sb_get_info : C -> Z -> Z -> option psa_storage_info_t -> option (Z * option psa_storage_info_t * C);
  sb_remove : C -> Z -> Z -> option (Z * C);
  sb_create : C -> Z -> Z -> Z -> Z -> option (Z * C);
  sb_set_extended : C -> Z -> Z -> Z -> Z -> option bytes -> option (Z * C);
  sb_get_support : C -> Z -> option (Z * C)
}.
Arguments StorageBackend {C}.
Arguments sb_set {C}.
Arguments sb_get {C}.
Arguments sb_get_info {C}.
Arguments sb_remove {C}.
Arguments sb_create {C}.
Arguments sb_set_extended {C}.
Arguments sb_get_support {C}.

(** memcpy from and to memory that may be NULL when nothing is copied. *)
Definition copy_in (p : option bytes) (n : Z) : option bytes :=
  if n =? 0 then Some [] else d ← p; load d 0 n.
Definition copy_out (p : option bytes) (d : bytes) : option (option bytes) :=
  if len d =? 0 then Some p else b ← p; b ← store b 0 d; Some (Some b).

(** ** What a backend promises *)

(** An asset has room for more data than it holds when it was created with
    [sb_create]. *)
Record asset := Asset { a_flags : Z; a_room : Z; a_data : bytes }.

Definition write_once (a : asset) : bool := negb (Z.land (a_flags a) PSA_STORAGE_FLAG_WRITE_ONCE =? 0).

(** The assets each client sees, and the largest transfers that surely succeed: of a read,
    and of an extension. *)
Record storage_view (C : Type) := StorageView {
  sv_ok : C -> Prop;
  sv_asset : C -> Z -> Z -> option asset;
  sv_limit : Z;
  sv_extend_limit : Z
}.
Arguments StorageView {C}.
Arguments sv_ok {C}.
Arguments sv_asset {C}.
Arguments sv_limit {C}.
Arguments sv_extend_limit {C}.

Definition unchanged {C} (V : storage_view C) (d d' : C) : Prop :=
  forall client u, sv_asset V d' client u = sv_asset V d client u.

(** Clients may share their assets. *)
Definition updated {C} (V : storage_view C) (d d' : C) (client u : Z) (a : option asset) : Prop :=
  sv_asset V d' client u = a /\
  forall client' u', u' <> u -> sv_asset V d' client' u' = sv_asset V d client' u'.

(** Data written at an offset; a gap is filled with zeroes. *)
Definition extended (x : bytes) (off : Z) (d x' : bytes) : Prop :=
  store (x ++ fill 0 (off + len d - len x)) off d = Some x'.

Definition asset_ok (a : asset) : Prop :=
  fits 32 (a_flags a) /\ len (a_data a) <= a_room a < 2 ^ 64.

Class StorageLaws {C} (I : storage_backend_interface C) (V : storage_view C) : Prop := {
  no_asset_0 : forall d client, sv_ok V d -> sv_asset V d client 0 = None;
  law_asset : forall d client u a, sv_ok V d -> sv_asset V d client u = Some a -> asset_ok a;
  law_set : forall d client u n p flags data,
    sv_ok V d -> fits 64 u -> fits 64 n -> fits 32 flags -> copy_in p n = Some data ->
    exists st d', sb_set I d client u n p flags = Some (st, d') /\ sv_ok V d' /\ int32 st /\
      ((st = PSA_SUCCESS /\ from_option (negb ∘ write_once) true (sv_asset V d client u) = true /\
        len data <= sv_limit V /\ exists room, updated V d d' client u (Some (Asset flags room data))) \/
       (st <> PSA_SUCCESS /\ unchanged V d d'));
  law_get : forall d client u off n p k,
    sv_ok V d -> fits 64 u -> fits 64 off -> fits 64 n ->
    (0 < n -> exists b, p = Some b /\ forall a, sv_asset V d client u = Some a ->
       Z.min (len (a_data a) - off) n <= len b) ->
    exists st p' k' d', sb_get I d client u off n p k = Some (st, p', k', d') /\ sv_ok V d' /\
      unchanged V d d' /\ int32 st /\ len <$> p' = len <$> p /\
      match sv_asset V d client u with
      | Some a =>
          (off <= len (a_data a) -> n <= sv_limit V -> st = PSA_SUCCESS) /\
          (st = PSA_SUCCESS -> off <= len (a_data a) /\ k' = Z.min (len (a_data a) - off) n /\
             copy_out p (slice (a_data a) off k') = Some p')
      | None => st <> PSA_SUCCESS /\ (u <> 0 -> n <= sv_limit V -> st = PSA_ERROR_DOES_NOT_EXIST)
      end /\ (st <> PSA_SUCCESS -> k' = k \/ k' = 0);
  law_get_info : forall d client u i,
    sv_ok V d -> fits 64 u ->
    exists st i' d', sb_get_info I d client u (Some i) = Some (st, Some i', d') /\ sv_ok V d' /\
      unchanged V d d' /\ int32 st /\
      match sv_asset V d client u with
      | Some a => st = PSA_SUCCESS /\ si_size i' = u32 (len (a_data a)) /\ si_flags i' = a_flags a /\
                  fits 32 (si_capacity i')
      | None => st <> PSA_SUCCESS /\ (u <> 0 -> st = PSA_ERROR_DOES_NOT_EXIST)
      end;
  law_remove : forall d client u,
    sv_ok V d -> fits 64 u ->
    exists st d', sb_remove I d client u = Some (st, d') /\ sv_ok V d' /\ int32 st /\
      match sv_asset V d client u with
      | Some a =>
          if write_once a then st <> PSA_SUCCESS /\ unchanged V d d'
          else st = PSA_SUCCESS /\ updated V d d' client u None
      | None => st <> PSA_SUCCESS /\ unchanged V d d' /\ (u <> 0 -> st = PSA_ERROR_DOES_NOT_EXIST)
      end;
  law_create : forall d client u room flags,
    sv_ok V d -> fits 64 u -> fits 64 room -> fits 32 flags ->
    exists st d', sb_create I d client u room flags = Some (st, d') /\ sv_ok V d' /\ int32 st /\
      ((st = PSA_SUCCESS /\ sv_asset V d client u = None /\
        updated V d d' client u (if u =? 0 then None else Some (Asset flags room []))) \/
       (st <> PSA_SUCCESS /\ unchanged V d d'));
  law_set_extended : forall d client u off n b data,
    sv_ok V d -> fits 64 u -> 0 <= off -> off + n < 2 ^ 64 -> load b 0 n = Some data ->
    exists st d', sb_set_extended I d client u off n (Some b) = Some (st, d') /\ sv_ok V d' /\ int32 st /\
      match sv_asset V d client u with
      | Some a =>
          (off + n <= a_room a -> n <= sv_extend_limit V -> st = PSA_SUCCESS) /\
          ((st = PSA_SUCCESS /\ off + n <= a_room a /\ exists x, extended (a_data a) off data x /\
              updated V d d' client u (Some (Asset (a_flags a) (a_room a) x))) \/
           (st <> PSA_SUCCESS /\ unchanged V d d'))
      | None => unchanged V d d' /\ (u <> 0 -> st <> PSA_SUCCESS)
      end;
  law_get_support : forall d client, sv_ok V d ->
    exists v d', sb_get_support I d client = Some (v, d') /\ sv_ok V d' /\ unchanged V d d' /\ fits 32 v
}.

(** ** mock_store.c *)

Module MockStore.

Definition MOCK_STORE_NUM_SLOTS : Z := 100.
Definition MOCK_STORE_ITEM_SIZE_LIMIT : Z := 10000.

Record mock_store_slot := Slot {
  uid : Z;
  flags : Z;
  slot_len : Z;
  capacity : Z;
  item : option bytes
}.

(** The slots of a struct mock_store. *)
Abbreviation mock_store := (list mock_store_slot).

Definition free : mock_store_slot := Slot (2 ^ 64 - 1) 0 0 0 None.

Definition has_item (s : mock_store_slot) : bool := match item s with Some _ => true | None => false end.

(** A slot is its position in the table. *)
Definition find_slot (context : mock_store) (u : Z) : option nat :=
  find_index (fun s => has_item s && (uid s =? u)) context.

Definition find_empty_slot (context : mock_store) : option nat :=
  find_index (fun s => negb (has_item s)) context.

Definition free_slot (slot : mock_store_slot) : mock_store_slot :=
  match item slot with Some _ => free | None => slot end.

Section MockStore.
(** [malloc_ok n]: malloc of [n] octets succeeds. *)
Context (malloc_ok : Z -> bool).
Implicit Types context : mock_store.

Definition mock_store_set context (client_id u data_length : Z) (p_data : option bytes) (create_flags : Z)
    : option (Z * mock_store) :=
  if data_length >? MOCK_STORE_ITEM_SIZE_LIMIT then Some (PSA_ERROR_INSUFFICIENT_STORAGE, context)
  else if u =? 0 then Some (PSA_ERROR_INVALID_ARGUMENT, context)
  else
    let fill_slot context i :=
      if malloc_ok data_length then
        data ← copy_in p_data data_length;
        Some (PSA_SUCCESS, <[i := Slot u create_flags data_length data_length (Some data)]> context)
      else Some (PSA_ERROR_INSUFFICIENT_STORAGE, context) in
    match find_slot context u with
    | Some i =>
        s ← context !! i;
        if negb (Z.land (flags s) PSA_STORAGE_FLAG_WRITE_ONCE =? 0)
        then Some (PSA_ERROR_NOT_PERMITTED, context)
        else fill_slot (<[i := free_slot s]> context) i
    | None =>
        match find_empty_slot context with
        | Some i => fill_slot context i
        | None => Some (PSA_ERROR_INSUFFICIENT_STORAGE, context)
        end
    end.

Definition mock_store_get context (client_id u data_offset data_size : Z) (p_data : option bytes)
    (p_data_length : Z) : option (Z * option bytes * Z * mock_store) :=
  if u =? 0 then Some (PSA_ERROR_INVALID_ARGUMENT, p_data, p_data_length, context)
  else
    match find_slot context u with
    | None => Some (PSA_ERROR_DOES_NOT_EXIST, p_data, p_data_length, context)
    | Some i =>
        s ← context !! i;
        if slot_len s <? data_offset then
          Some (PSA_ERROR_INVALID_ARGUMENT, p_data, p_data_length, context)
        else
          let p_data_length := Z.min (slot_len s - data_offset) data_size in
          it ← item s;
          d ← load it data_offset p_data_length;
          p_data ← copy_out p_data d;
          Some (PSA_SUCCESS, p_data, p_data_length, context)
    end.

Definition mock_store_get_info context (client_id u : Z) (p_info : option psa_storage_info_t)
    : option (Z * option psa_storage_info_t * mock_store) :=
  if u =? 0 then Some (PSA_ERROR_INVALID_ARGUMENT, p_info, context)
  else
    match find_slot context u with
    | Some i =>
        s ← context !! i;
        _ ← p_info;
        Some (PSA_SUCCESS, Some (StorageInfo (u32 (slot_len s)) (u32 (slot_len s)) (flags s)), context)
    | None => _ ← p_info; Some (PSA_ERROR_DOES_NOT_EXIST, Some (StorageInfo 0 0 0), context)
    end.

Definition mock_store_remove context (client_id u : Z) : option (Z * mock_store) :=
  if u =? 0 then Some (PSA_ERROR_INVALID_ARGUMENT, context)
  else
    match find_slot context u with
    | Some i =>
        s ← context !! i;
        if Z.land (flags s) PSA_STORAGE_FLAG_WRITE_ONCE =? 0
        then Some (PSA_SUCCESS, <[i := free_slot s]> context)
        else Some (PSA_ERROR_NOT_PERMITTED, context)
    | None => Some (PSA_ERROR_DOES_NOT_EXIST, context)
    end.

Definition mock_store_create context (client_id u cap create_flags : Z) : option (Z * mock_store) :=
  match find_slot context u with
  | Some _ => Some (PSA_ERROR_ALREADY_EXISTS, context)
  | None =>
      match find_empty_slot context with
      | Some i =>
          if malloc_ok cap
          then Some (PSA_SUCCESS, <[i := Slot u create_flags 0 cap (Some (fill 0 cap))]> context)
          else Some (PSA_ERROR_INSUFFICIENT_STORAGE, context)
      | None => Some (PSA_ERROR_ALREADY_EXISTS, context)
      end
  end.

Definition mock_store_set_extended context (client_id u data_offset data_length : Z) (p_data : option bytes)
    : option (Z * mock_store) :=
  match find_slot context u with
  | Some i =>
      s ← context !! i;
      it ← item s;
      match p_data with
      | Some d =>
          if capacity s >=? u64 (data_offset + data_length) then
            d ← load d 0 data_length;
            it ← store it data_offset d;
            let n := if u64 (data_offset + data_length) >? slot_len s
                     then u64 (data_offset + data_length) else slot_len s in
            Some (PSA_SUCCESS, <[i := Slot (uid s) (flags s) n (capacity s) (Some it)]> context)
          else Some (PSA_ERROR_INVALID_ARGUMENT, context)
      | None => Some (PSA_ERROR_INVALID_ARGUMENT, context)
      end
  | None => Some (PSA_ERROR_DOES_NOT_EXIST, context)
  end.

Definition mock_store_get_support context (client_id : Z) : option (Z * mock_store) :=
  Some (PSA_STORAGE_SUPPORT_SET_EXTENDED, context).

Definition interface : storage_backend_interface mock_store :=
  StorageBackend mock_store_set mock_store_get mock_store_get_info mock_store_remove mock_store_create
    mock_store_set_extended mock_store_get_support.

Definition mock_store_init : mock_store * storage_backend_interface mock_store :=
  (replicate (Z.to_nat MOCK_STORE_NUM_SLOTS) free, interface).

End MockStore.

Definition mock_store_reset (context : mock_store) : mock_store := free_slot <$> context.

Definition mock_store_deinit (context : mock_store) : mock_store := mock_store_reset context.

Definition mock_store_exists (context : mock_store) (u : Z) : bool :=
  existsb (fun s => has_item s && (uid s =? u)) context.

Definition mock_store_num_items (context : mock_store) : Z := len (List.filter has_item context).

End MockStore.

(** ** null_store.c *)

Module NullStore.

Section NullStore.
Context {C : Type}.

Definition null_store_set (context : C) (client_id u data_length : Z) (p_data : option bytes) (create_flags : Z)
    : option (Z * C) := Some (PSA_ERROR_STORAGE_FAILURE, context).
Definition null_store_get (context : C) (client_id u data_offset data_size : Z) (p_data : option bytes)
    (p_data_length : Z) : option (Z * option bytes * Z * C) :=
  Some (PSA_ERROR_STORAGE_FAILURE, p_data, p_data_length, context).
Definition null_store_get_info (context : C) (client_id u : Z) (p_info : option psa_storage_info_t)
    : option (Z * option psa_storage_info_t * C) := Some (PSA_ERROR_STORAGE_FAILURE, p_info, context).
Definition null_store_remove (context : C) (client_id u : Z) : option (Z * C) :=
  Some (PSA_ERROR_STORAGE_FAILURE, context).
Definition null_store_create (context : C) (client_id u cap create_flags : Z) : option (Z * C) :=
  Some (PSA_ERROR_STORAGE_FAILURE, context).
Definition null_store_set_extended (context : C) (client_id u data_offset data_length : Z)
    (p_data : option bytes) : option (Z * C) := Some (PSA_ERROR_STORAGE_FAILURE, context).
Definition null_store_get_support (context : C) (client_id : Z) : option (Z * C) := Some (0, context).

Definition interface : storage_backend_interface C :=
  StorageBackend null_store_set null_store_get null_store_get_info null_store_remove null_store_create
    null_store_set_extended null_store_get_support.

End NullStore.
End NullStore.

(** ** The mock store keeps the promises *)

Section MockLaws.
Import MockStore.
Implicit Types (l : mock_store) (s : mock_store_slot).

Definition slot_ok s : Prop :=
  match item s with
  | Some it => len it = capacity s /\ 0 <= slot_len s <= capacity s /\ capacity s < 2 ^ 64 /\
      fits 32 (flags s) /\ slice it (slot_len s) (capacity s - slot_len s) = fill 0 (capacity s - slot_len s)
  | None => True
  end.

Definition mock_ok l : Prop :=
  len l = MOCK_STORE_NUM_SLOTS /\ Forall slot_ok l /\
  forall i j s t, l !! i = Some s -> l !! j = Some t -> has_item s = true -> has_item t = true ->
    uid s = uid t -> i = j.

Definition slot_asset s : option asset :=
  it ← item s; Some (Asset (flags s) (capacity s) (slice it 0 (slot_len s))).

Definition mock_asset l (u : Z) : option asset :=
  if u =? 0 then None else i ← find_slot l u; s ← l !! i; slot_asset s.

Definition mock_view : storage_view mock_store := StorageView mock_ok (fun l _ u => mock_asset l u) (2 ^ 64) (2 ^ 64).

Lemma find_slot_found l u i :
  find_slot l u = Some i -> exists s it, l !! i = Some s /\ item s = Some it /\ uid s = u.
Proof.
  unfold find_slot. intros ((s & Hs & Hp) & _)%find_index_Some. exists s.
  apply andb_true_iff in Hp as [Hi Hu]. unfold has_item in Hi. destruct (item s) as [it|]; [|done].
  exists it. split; [done|]. split; [done|lia].
Qed.

Lemma find_slot_missing l u :
  find_slot l u = None -> forall i s, l !! i = Some s -> has_item s = true -> uid s <> u.
Proof.
  unfold find_slot. rewrite find_index_None, Forall_lookup. intros H i s Hs Hi Hu.
  specialize (H i s Hs). rewrite Hi in H. simpl in H. lia.
Qed.

Lemma asset_missing l u :
  (forall i s, l !! i = Some s -> has_item s = true -> uid s <> u) -> mock_asset l u = None.
Proof.
  intros H. unfold mock_asset. destruct (u =? 0); [done|].
  destruct (find_slot l u) as [i|] eqn:Hf; [|done].
  apply find_slot_found in Hf as (s & it & Hs & Hi & Hu). exfalso. apply (H i s); [done| |done].
  unfold has_item. by rewrite Hi.
Qed.

Lemma asset_at l i s :
  mock_ok l -> l !! i = Some s -> has_item s = true -> uid s <> 0 -> mock_asset l (uid s) = slot_asset s.
Proof.
  intros (_ & _ & Huniq) Hs Hi Hu. unfold mock_asset. destruct (Z.eqb_spec (uid s) 0); [done|].
  destruct (find_slot l (uid s)) as [j|] eqn:Hf.
  - apply find_slot_found in Hf as (t & it & Ht & Hit & Hut).
    rewrite (Huniq i j s t) in Hs; [|done..|unfold has_item; by rewrite Hit|done].
    simpl. rewrite Ht in *. simpl. by simplify_eq.
  - by destruct (find_slot_missing _ _ Hf i s).
Qed.

(** A slot of [u], or a free one when [u] has none, is replaced. *)
Lemma replace_slot l i s s' u client :
  mock_ok l -> l !! i = Some s -> find_slot l u = Some i \/ (has_item s = false /\ find_slot l u = None) ->
  slot_ok s' -> (has_item s' = true -> uid s' = u) ->
  mock_ok (<[i := s']> l) /\
  updated mock_view l (<[i := s']> l) client u (if u =? 0 then None else slot_asset s').
Proof.
  intros Hok Hs Hold Hs' Hu'. pose proof Hok as (Hlen & Hall & Huniq).
  pose proof (lookup_lt_Some _ _ _ Hs) as Hlt.
  assert (forall j t, j <> i -> l !! j = Some t -> has_item t = true -> uid t <> u) as Hother.
  { intros j t Hj Ht Hit Hut. destruct Hold as [Hf|[_ Hf]].
    - apply find_slot_found in Hf as (s1 & it & Hs1 & Hi1 & Hu1). apply Hj, (Huniq j i t s1); try done.
      + unfold has_item. by rewrite Hi1.
      + congruence.
    - by apply (find_slot_missing _ _ Hf j t). }
  assert (mock_ok (<[i := s']> l)) as Hok'.
  { split; [unfold len in *; by rewrite length_insert|]. split; [by apply Forall_insert|].
    intros j k t1 t2. rewrite !list_lookup_insert_Some.
    intros [(-> & <- & _)|[Hj H1]] [(-> & <- & _)|[Hk H2]] Hi1 Hi2 Heq; [done| | |by eapply Huniq].
    - exfalso. apply (Hother k t2); [done..|]. rewrite <- Heq. auto.
    - exfalso. apply (Hother j t1); [done..|]. rewrite Heq. auto. }
  split; [done|]. split; simpl.
  - destruct (has_item s') eqn:Hi'.
    + specialize (Hu' eq_refl). subst u. destruct (Z.eqb_spec (uid s') 0) as [->|]; [done|].
      apply (asset_at _ i); [done|by apply list_lookup_insert_eq|done..].
    + replace (if u =? 0 then None else slot_asset s') with (@None asset).
      2:{ unfold slot_asset, has_item in *. by destruct (item s'), (u =? 0). }
      apply asset_missing. intros j t. rewrite list_lookup_insert_Some.
      intros [(-> & <- & _)|[Hj H1]] Hi; [congruence|by eapply Hother].
  - intros _ u' Hne. destruct (decide (u' = 0)) as [->|Hz]; [done|].
    destruct (find_slot l u') as [j|] eqn:Hf.
    + apply find_slot_found in Hf as (t & it & Ht & Hit & <-).
      assert (has_item t = true) as Hi by (unfold has_item; by rewrite Hit).
      assert (j <> i) as Hj.
      { intros ->. simplify_eq. destruct Hold as [Hf|[Hf _]]; [|congruence].
        apply find_slot_found in Hf as (s1 & _ & Hs1 & _ & Hu1). by simplify_eq. }
      rewrite (asset_at l j), (asset_at (<[i:=s']> l) j); try done. by rewrite list_lookup_insert_ne.
    + rewrite (asset_missing l u') by (by apply find_slot_missing). apply asset_missing.
      intros j t. rewrite list_lookup_insert_Some.
      intros [(-> & <- & _)|[Hj H1]] Hi; [intros Heq; by rewrite (Hu' Hi) in Heq|].
      by eapply find_slot_missing.
Qed.

Lemma slot_cases l u :
  mock_ok l ->
  (exists i s it, find_slot l u = Some i /\ l !! i = Some s /\ item s = Some it /\ uid s = u /\ slot_ok s /\
     (u <> 0 -> mock_asset l u = Some (Asset (flags s) (capacity s) (slice it 0 (slot_len s))))) \/
  (find_slot l u = None /\ mock_asset l u = None).
Proof.
  intros Hok. destruct (find_slot l u) as [i|] eqn:Hf; [left|right; split; [done|]].
  2:{ apply asset_missing. by apply find_slot_missing. }
  pose proof Hf as (s & it & Hs & Hit & Hu)%find_slot_found. exists i, s, it.
  do 4 (split; [done|]). split; [destruct Hok as (_ & Hall & _); by eapply Forall_lookup_1|].
  intros Hu0. unfold mock_asset. destruct (Z.eqb_spec u 0); [done|]. rewrite Hf. simpl. rewrite Hs. simpl.
  unfold slot_asset. by rewrite Hit.
Qed.

Lemma empty_slot l i : find_empty_slot l = Some i -> exists s, l !! i = Some s /\ has_item s = false.
Proof.
  unfold find_empty_slot. intros ((s & Hs & Hp) & _)%find_index_Some. exists s. split; [done|].
  by apply negb_true_iff.
Qed.

Lemma free_slot_ok : slot_ok free.
Proof. done. Qed.

Lemma free_item s it : item s = Some it -> free_slot s = free.
Proof. unfold free_slot. by intros ->. Qed.

Lemma copy_in_len p n d : 0 <= n -> copy_in p n = Some d -> len d = n.
Proof.
  unfold copy_in. destruct (Z.eqb_spec n 0) as [->|]; [by intros _ [= <-]|].
  destruct p as [b|]; [|done]. simpl. by intros _ H%load_len.
Qed.

Lemma copy_in_all data : copy_in (Some data) (len data) = Some data.
Proof.
  unfold copy_in. destruct (Z.eqb_spec (len data) 0); [|apply load_all]. by destruct data; [|len_lia].
Qed.

Lemma full_slot_ok u f n data :
  fits 64 n -> fits 32 f -> len data = n -> slot_ok (Slot u f n n (Some data)).
Proof.
  intros Hn Hf Hd. unfold slot_ok. cbn [item capacity slot_len flags]. split; [done|].
  split; [unfold fits in *; lia|]. split; [unfold fits in *; lia|]. split; [done|].
  rewrite Z.sub_diag. by rewrite slice_nil.
Qed.

(** An operation refused without a change. *)
Ltac refused := eexists _, _; split; [done|]; split; [done|]; split; [done|]; right; done.

Section Laws.
Context (malloc_ok : Z -> bool) (Hmalloc : forall n, malloc_ok n = true).

Lemma unchanged_refl l : unchanged mock_view l l.
Proof using. done. Qed.

Lemma mock_set_ok l client u n p f data :
  mock_ok l -> fits 64 n -> fits 32 f -> copy_in p n = Some data ->
  exists st l', mock_store_set malloc_ok l client u n p f = Some (st, l') /\ mock_ok l' /\ int32 st /\
    ((st = PSA_SUCCESS /\ from_option (negb ∘ write_once) true (mock_asset l u) = true /\
      len data <= 2 ^ 64 /\ exists room, updated mock_view l l' client u (Some (Asset f room data))) \/
     (st <> PSA_SUCCESS /\ unchanged mock_view l l')).
Proof using Hmalloc.
  intros Hok Hn Hf Hd. unfold mock_store_set. rewrite !Hmalloc, Hd. cbn [mbind option_bind].
  destruct (n >? _); [refused|].
  destruct (Z.eqb_spec u 0) as [|Hu]; [refused|].
  pose proof (copy_in_len p n data (proj1 Hn) Hd) as Hdl.
  assert (slice data 0 n = data) as Hsl by (rewrite <- Hdl; apply slice_all).
  destruct (slot_cases l u Hok) as [(i & s & it & Hfs & Hs & Hit & Hus & Hsok & Ha)|[Hfs Ha]].
  - rewrite Hfs, Hs. cbn [mbind option_bind]. specialize (Ha Hu). rewrite Ha.
    destruct (Z.eqb_spec (Z.land (flags s) PSA_STORAGE_FLAG_WRITE_ONCE) 0) as [Hw|Hw]; simpl negb; cbv match;
      [|refused].
    rewrite list_insert_insert_eq. eexists _, _. split; [done|].
    destruct (replace_slot l i s (Slot u f n n (Some data)) u client) as [Hok' Hup];
      [done|done|by left|by apply full_slot_ok|done|].
    split; [done|]. split; [done|]. left. split; [done|].
    split; [unfold write_once; simpl; by rewrite Hw|]. split; [unfold fits in *; lia|]. exists n.
    destruct (Z.eqb_spec u 0); [done|]. unfold slot_asset in Hup. simpl in Hup. by rewrite Hsl in Hup.
  - rewrite Hfs, Ha. destruct (find_empty_slot l) as [i|] eqn:He; [|refused].
    apply empty_slot in He as (s & Hs & Hi). eexists _, _. split; [done|].
    destruct (replace_slot l i s (Slot u f n n (Some data)) u client) as [Hok' Hup];
      [done|done|by right|by apply full_slot_ok|done|].
    split; [done|]. split; [done|]. left. split; [done|]. split; [done|]. split; [unfold fits in *; lia|]. exists n.
    destruct (Z.eqb_spec u 0); [done|]. unfold slot_asset in Hup. simpl in Hup. by rewrite Hsl in Hup.
Qed.


Lemma mock_get_ok l client u off n p k :
  mock_ok l -> fits 64 off -> fits 64 n ->
  (0 < n -> exists b, p = Some b /\ forall a, mock_asset l u = Some a ->
     Z.min (len (a_data a) - off) n <= len b) ->
  exists st p' k', mock_store_get l client u off n p k = Some (st, p', k', l) /\ int32 st /\
    len <$> p' = len <$> p /\
    match mock_asset l u with
    | Some a =>
        (off <= len (a_data a) -> n <= 2 ^ 64 -> st = PSA_SUCCESS) /\
        (st = PSA_SUCCESS -> off <= len (a_data a) /\ k' = Z.min (len (a_data a) - off) n /\
           copy_out p (slice (a_data a) off k') = Some p')
    | None => st <> PSA_SUCCESS /\ (u <> 0 -> n <= 2 ^ 64 -> st = PSA_ERROR_DOES_NOT_EXIST)
    end /\ (st <> PSA_SUCCESS -> k' = k \/ k' = 0).
Proof using.
  intros Hok [Ho _] [Hn _] Hp. unfold mock_store_get.
  destruct (Z.eqb_spec u 0) as [->|Hu].
  { eexists _, _, _. split; [done|]. split; [done|]. split; [done|]. simpl. split; [done|]. by left. }
  destruct (slot_cases l u Hok) as [(i & s & it & Hfs & Hs & Hit & Hus & Hsok & Ha)|[Hfs Ha]].
  2:{ rewrite Hfs, Ha. eexists _, _, _. split; [done|]. split; [done|]. split; [done|]. split; [done|]. by left. }
  rewrite Hfs, (Ha Hu). simpl. rewrite Hs. simpl. unfold slot_ok in Hsok. rewrite Hit in Hsok.
  destruct Hsok as (Hil & Hsl & _). rewrite slice_len by lia.
  destruct (Z.ltb_spec (slot_len s) off).
  { eexists _, _, _. split; [done|]. split; [done|]. split; [done|]. split; [|by left]. split; [lia|done]. }
  rewrite Hit. cbn [mbind option_bind]. rewrite load_is_slice by lia. cbn [mbind option_bind].
  set (d := slice it off (Z.min (slot_len s - off) n)).
  assert (len d = Z.min (slot_len s - off) n) as Hd by (apply slice_len; lia).
  assert (exists p', copy_out p d = Some p' /\ len <$> p' = len <$> p) as (p' & Hp' & Hlp).
  { unfold copy_out. destruct (Z.eqb_spec (len d) 0); [by exists p|].
    destruct Hp as (b & -> & Hb); [lia|]. specialize (Hb _ (Ha Hu)). cbn [a_data] in Hb.
    rewrite slice_len in Hb by lia. simpl. destruct (store_ok b 0 d) as [b' Hb']; [lia..|].
    rewrite Hb'. exists (Some b'). split; [done|]. simpl. by rewrite (store_len _ _ _ _ Hb'). }
  rewrite Hp'. eexists _, _, _. split; [done|]. split; [done|]. split; [done|]. split; [|done].
  split; [done|]. intros _. split; [done|]. split; [done|].
  replace (slice (slice it 0 (slot_len s)) off (Z.min (slot_len s - off) n)) with d; [done|].
  assert (load (slice it 0 (slot_len s)) off (Z.min (slot_len s - off) n) = Some d) as Hload.
  { rewrite load_slice by lia. simpl. by rewrite load_is_slice by lia. }
  rewrite load_is_slice in Hload; [congruence|lia|lia|rewrite slice_len; lia].
Qed.

Lemma mock_get_info_ok l client u i :
  mock_ok l ->
  exists st i', mock_store_get_info l client u (Some i) = Some (st, Some i', l) /\ int32 st /\
    match mock_asset l u with
    | Some a => st = PSA_SUCCESS /\ si_size i' = u32 (len (a_data a)) /\ si_flags i' = a_flags a /\
                fits 32 (si_capacity i')
    | None => st <> PSA_SUCCESS /\ (u <> 0 -> st = PSA_ERROR_DOES_NOT_EXIST)
    end.
Proof using.
  intros Hok. unfold mock_store_get_info. destruct (Z.eqb_spec u 0) as [->|Hu].
  { eexists _, _. split; [done|]. done. }
  destruct (slot_cases l u Hok) as [(j & s & it & Hfs & Hs & Hit & Hus & Hsok & Ha)|[Hfs Ha]].
  2:{ rewrite Hfs, Ha. eexists _, _. split; [done|]. done. }
  rewrite Hfs, (Ha Hu). simpl. rewrite Hs. simpl. unfold slot_ok in Hsok. rewrite Hit in Hsok.
  eexists _, _. split; [done|]. split; [done|]. split; [done|]. rewrite slice_len by lia.
  split; [done|]. split; [done|]. by apply wrap_fits.
Qed.

Lemma mock_remove_ok l client u :
  mock_ok l ->
  exists st l', mock_store_remove l client u = Some (st, l') /\ mock_ok l' /\ int32 st /\
    match mock_asset l u with
    | Some a => if write_once a then st <> PSA_SUCCESS /\ unchanged mock_view l l'
                else st = PSA_SUCCESS /\ updated mock_view l l' client u None
    | None => st <> PSA_SUCCESS /\ unchanged mock_view l l' /\ (u <> 0 -> st = PSA_ERROR_DOES_NOT_EXIST)
    end.
Proof using.
  intros Hok. unfold mock_store_remove. destruct (Z.eqb_spec u 0) as [->|Hu].
  { eexists _, _. split; [done|]. done. }
  destruct (slot_cases l u Hok) as [(j & s & it & Hfs & Hs & Hit & Hus & Hsok & Ha)|[Hfs Ha]].
  2:{ rewrite Hfs, Ha. eexists _, _. split; [done|]. done. }
  rewrite Hfs, (Ha Hu). simpl. rewrite Hs. simpl. unfold write_once. cbn [a_flags].
  destruct (Z.land (flags s) PSA_STORAGE_FLAG_WRITE_ONCE =? 0); simpl negb; cbv match;
    [|eexists _, _; split; [done|]; done].
  rewrite (free_item s it Hit).
  destruct (replace_slot l j s free u client) as [Hok' Hup]; [done|done|by left|done|done|].
  eexists _, _. split; [done|]. split; [done|]. split; [done|]. split; [done|].
  destruct (u =? 0); done.
Qed.

Lemma mock_create_ok l client u room f :
  mock_ok l -> fits 64 room -> fits 32 f ->
  exists st l', mock_store_create malloc_ok l client u room f = Some (st, l') /\ mock_ok l' /\ int32 st /\
    ((st = PSA_SUCCESS /\ mock_asset l u = None /\
      updated mock_view l l' client u (if u =? 0 then None else Some (Asset f room []))) \/
     (st <> PSA_SUCCESS /\ unchanged mock_view l l')).
Proof using Hmalloc.
  intros Hok [Hr0 Hr] Hf. unfold mock_store_create. rewrite Hmalloc.
  destruct (slot_cases l u Hok) as [(j & s & it & Hfs & Hs & Hit & Hus & Hsok & Ha)|[Hfs Ha]];
    rewrite Hfs; [refused|].
  destruct (find_empty_slot l) as [i|] eqn:He; [|refused].
  apply empty_slot in He as (s & Hs & Hi). eexists _, _. split; [done|].
  destruct (replace_slot l i s (Slot u f 0 room (Some (fill 0 room))) u client) as [Hok' Hup];
    [done|done|by right| |done|].
  { unfold slot_ok. cbn [item capacity slot_len flags]. rewrite len_fill by lia.
    split; [done|]. split; [lia|]. split; [done|]. split; [done|]. rewrite Z.sub_0_r.
    transitivity (slice (fill 0 room) 0 (len (fill 0 room))); [by rewrite len_fill|apply slice_all]. }
  split; [done|]. split; [done|]. left. split; [done|]. split; [done|].
  unfold slot_asset in Hup. simpl in Hup. by rewrite slice_nil in Hup.
Qed.


(** The octets of an item past its data are zero. *)
Lemma zero_tail it sl room k :
  len it = room -> 0 <= sl -> 0 <= k -> sl + k <= room ->
  slice it sl (room - sl) = fill 0 (room - sl) -> slice it sl k = fill 0 k.
Proof using.
  intros Hl Hs Hk Hb Hz. apply list_eq_nthZ. intros i Hi. destruct (Z.ltb_spec i k) as [Hik|Hik].
  - rewrite nthZ_fill, nthZ_slice, <- (nthZ_slice it sl (room - sl)) by lia.
    rewrite Hz. apply nthZ_fill. lia.
  - rewrite !nthZ_None; [done| |]; [rewrite len_fill; lia|rewrite slice_len; lia].
Qed.

Lemma extend_slot s it off d it' n :
  slot_ok s -> item s = Some it -> 0 <= off -> off + len d <= capacity s -> store it off d = Some it' ->
  n = Z.max (off + len d) (slot_len s) ->
  slot_ok (Slot (uid s) (flags s) n (capacity s) (Some it')) /\
  extended (slice it 0 (slot_len s)) off d (slice it' 0 n).
Proof using.
  intros Hok Hit Ho Hc Hst Hn. unfold slot_ok in *. rewrite Hit in Hok.
  destruct Hok as (Hl & Hsl & Hcap & Hf & Hz). pose proof (store_len _ _ _ _ Hst) as Hl'.
  pose proof (len_nonneg d). cbn [item capacity slot_len flags]. split.
  - split; [lia|]. split; [lia|]. split; [done|]. split; [done|].
    rewrite (slice_store_disjoint it n (capacity s - n) off d it') by (done || lia).
    pose proof (slice_app it (slot_len s) (n - slot_len s) (capacity s - n)) as Happ.
    replace (n - slot_len s + (capacity s - n)) with (capacity s - slot_len s) in Happ by lia.
    rewrite Hz, (zero_tail it (slot_len s) (capacity s) (n - slot_len s)) in Happ by (done || lia).
    replace (slot_len s + (n - slot_len s)) with n in Happ by lia.
    specialize (Happ ltac:(lia) ltac:(lia) ltac:(lia)).
    apply (app_inv_head (fill 0 (n - slot_len s))). rewrite <- Happ. unfold fill.
    rewrite <- replicate_add. f_equal. lia.
  - unfold extended. rewrite slice_len by lia.
    assert (slice it 0 (slot_len s) ++ fill 0 (off + len d - slot_len s) = slice it 0 n) as ->.
    { replace n with (slot_len s + (n - slot_len s)) by lia. rewrite slice_app by lia. f_equal.
      rewrite (zero_tail it _ (capacity s)) by (done || lia). unfold fill. f_equal. lia. }
    apply store_slice; [lia..|done].
Qed.

Lemma mock_set_extended_ok l client u off n b data :
  mock_ok l -> 0 <= off -> off + n < 2 ^ 64 -> load b 0 n = Some data ->
  exists st l', mock_store_set_extended l client u off n (Some b) = Some (st, l') /\ mock_ok l' /\ int32 st /\
    match mock_asset l u with
    | Some a =>
        (off + n <= a_room a -> n <= 2 ^ 64 -> st = PSA_SUCCESS) /\
        ((st = PSA_SUCCESS /\ off + n <= a_room a /\ exists x, extended (a_data a) off data x /\
            updated mock_view l l' client u (Some (Asset (a_flags a) (a_room a) x))) \/
         (st <> PSA_SUCCESS /\ unchanged mock_view l l'))
    | None => unchanged mock_view l l' /\ (u <> 0 -> st <> PSA_SUCCESS)
    end.
Proof using.
  intros Hok Ho Hb Hload. pose proof (load_len _ _ _ _ Hload) as Hn. pose proof (len_nonneg data).
  unfold mock_store_set_extended. rewrite wrap_small by lia.
  destruct (slot_cases l u Hok) as [(j & s & it & Hfs & Hs & Hit & Hus & Hsok & Ha)|[Hfs Ha]].
  2:{ rewrite Hfs, Ha. eexists _, _. split; [done|]. done. }
  rewrite Hfs. simpl. rewrite Hs. simpl. rewrite Hit. cbn [mbind option_bind].
  destruct (Z.geb_spec (capacity s) (off + n)) as [Hc|Hc].
  2:{ eexists _, _. split; [done|]. split; [done|]. split; [done|].
      destruct (decide (u = 0)) as [->|Hu]; [done|]. rewrite (Ha Hu). simpl. split; [lia|]. by right. }
  rewrite Hload. cbn [mbind option_bind]. pose proof Hsok as Hs1. unfold slot_ok in Hs1. rewrite Hit in Hs1.
  destruct (store_ok it off data) as [it' Hit']; [lia..|]. rewrite Hit'. cbn [mbind option_bind].
  set (k := if off + n >? slot_len s then off + n else slot_len s).
  destruct (extend_slot s it off data it' k Hsok Hit) as [Hsok' Hext];
    [lia|lia|done|subst k; destruct (Z.gtb_spec (off + n) (slot_len s)); lia|].
  destruct (replace_slot l j s (Slot (uid s) (flags s) k (capacity s) (Some it')) u client) as [Hok' Hup];
    [done|done|by left|done|done|].
  eexists _, _. split; [done|]. split; [done|]. split; [done|].
  destruct (Z.eqb_spec u 0) as [->|Hu].
  - simpl. split; [|done]. intros c u'. destruct (decide (u' = 0)) as [->|Hne]; [done|]. by apply Hup.
  - rewrite (Ha Hu). cbn [a_room a_flags a_data]. split; [done|]. left. split; [done|]. split; [lia|].
    exists (slice it' 0 k). split; [done|]. exact Hup.
Qed.

#[export] Instance mock_store_laws : StorageLaws (interface malloc_ok) mock_view.
Proof using Hmalloc.
  split; simpl.
  - done.
  - intros l client u a Hok Ha. destruct (slot_cases l u Hok) as [(j & s & it & _ & _ & Hit & _ & Hs & Ha')|[_ Ha']];
      [|congruence]. destruct (decide (u = 0)) as [->|Hu]; [done|]. rewrite (Ha' Hu) in Ha. simplify_eq.
    unfold slot_ok in Hs. rewrite Hit in Hs. split; [tauto|]. cbn [a_data a_room]. rewrite slice_len; lia.
  - intros. by apply mock_set_ok.
  - intros l client u off n p k Hok _ Ho Hn Hp.
    destruct (mock_get_ok l client u off n p k Hok Ho Hn Hp) as (st & p' & k' & -> & H). by exists st, p', k', l.
  - intros l client u i Hok _. destruct (mock_get_info_ok l client u i Hok) as (st & i' & -> & H).
    by exists st, i', l.
  - intros. by apply mock_remove_ok.
  - intros. by apply mock_create_ok.
  - intros. by apply mock_set_extended_ok.
  - intros l client Hok. by eexists _, l.
Qed.


(** The store refuses an asset only for its size, its identifier or for want of a slot. *)
Lemma mock_set_accepts l client u data f :
  mock_ok l -> u <> 0 -> len data <= MOCK_STORE_ITEM_SIZE_LIMIT ->
  from_option (negb ∘ write_once) true (mock_asset l u) = true ->
  is_Some (mock_asset l u) \/ mock_store_num_items l < MOCK_STORE_NUM_SLOTS ->
  exists l', mock_store_set malloc_ok l client u (len data) (Some data) f = Some (PSA_SUCCESS, l').
Proof using Hmalloc.
  intros Hok Hu Hl Hw Hroom. unfold mock_store_set. rewrite !Hmalloc, copy_in_all. cbn [mbind option_bind].
  destruct (Z.gtb_spec (len data) MOCK_STORE_ITEM_SIZE_LIMIT); [lia|].
  destruct (Z.eqb_spec u 0); [done|].
  destruct (slot_cases l u Hok) as [(i & s & it & Hfs & Hs & Hit & Hus & Hsok & Ha)|[Hfs Ha]]; rewrite Hfs.
  - rewrite Hs. cbn [mbind option_bind]. rewrite (Ha Hu) in Hw. simpl in Hw. unfold write_once in Hw.
    rewrite negb_involutive in Hw. cbn [a_flags] in Hw. rewrite Hw. by eexists.
  - destruct Hroom as [[a Ha']|Hn]; [congruence|]. destruct (find_empty_slot l) as [i|] eqn:He; [by eexists|].
    exfalso. unfold find_empty_slot in He. rewrite find_index_None in He.
    assert (List.filter has_item l = l) as Hfilter.
    { clear -He. induction He as [|s l Hs _ IH]; [done|]. simpl. apply negb_false_iff in Hs. by rewrite Hs, IH. }
    unfold mock_store_num_items in Hn. rewrite Hfilter in Hn. destruct Hok as (Hlen & _). lia.
Qed.


End Laws.


End MockLaws.

Lemma mock_init_ok malloc_ok :
  mock_ok (fst (MockStore.mock_store_init malloc_ok)) /\
  forall u, mock_asset (fst (MockStore.mock_store_init malloc_ok)) u = None.
Proof.
  cbn [fst MockStore.mock_store_init]. split.
  - split; [done|]. split; [by apply Forall_replicate|].
    intros i j s t Hs Ht Hi. apply lookup_replicate in Hs as [-> _]. done.
  - intros u. apply asset_missing. intros i s Hs. by apply lookup_replicate in Hs as [-> _].
Qed.

(** ** Requests of a client and what they do *)

Inductive storage_op :=
  | SetAsset (u : Z) (data : bytes) (flags : Z)
  | GetData (u off n : Z)
  | GetInfo (u : Z)
  | RemoveAsset (u : Z)
  | CreateAsset (u room flags : Z)
  | ExtendAsset (u off : Z) (data : bytes)
  | GetSupport.

(** What a client learns; the support map is in the flags. *)
Record storage_reply := Reply { r_status : Z; r_data : bytes; r_info : psa_storage_info_t }.

Definition no_info : psa_storage_info_t := StorageInfo 0 0 0.

Definition run_op {C} (I : storage_backend_interface C) (client : Z) (d : C) (o : storage_op)
    : option (storage_reply * C) :=
  match o with
  | SetAsset u data flags =>
      '(st, d) ← sb_set I d client u (len data) (Some data) flags; Some (Reply st [] no_info, d)
  | GetData u off n =>
      '(st, p, k, d) ← sb_get I d client u off n (Some (fill 0 n)) 0;
      if st =? PSA_SUCCESS then b ← p; x ← load b 0 k; Some (Reply st x no_info, d)
      else Some (Reply st [] no_info, d)
  | GetInfo u =>
      '(st, i, d) ← sb_get_info I d client u (Some no_info);
      i ← i; Some (Reply st [] (if st =? PSA_SUCCESS then i else no_info), d)
  | RemoveAsset u => '(st, d) ← sb_remove I d client u; Some (Reply st [] no_info, d)
  | CreateAsset u room flags =>
      '(st, d) ← sb_create I d client u room flags; Some (Reply st [] no_info, d)
  | ExtendAsset u off data =>
      '(st, d) ← sb_set_extended I d client u off (len data) (Some data); Some (Reply st [] no_info, d)
  | GetSupport => '(v, d) ← sb_get_support I d client; Some (Reply PSA_SUCCESS [] (StorageInfo 0 0 v), d)
  end.

Definition op_ok (o : storage_op) : Prop :=
  match o with
  | SetAsset u data flags => fits 64 u /\ len data < 2 ^ 64 /\ fits 32 flags
  | GetData u off n => fits 64 u /\ fits 64 off /\ fits 64 n
  | GetInfo u | RemoveAsset u => fits 64 u
  | CreateAsset u room flags => fits 64 u /\ fits 64 room /\ fits 32 flags
  | ExtendAsset u off data => fits 64 u /\ 0 <= off /\ off + len data < 2 ^ 64
  | GetSupport => True
  end.

(** One request: the specification.  A store may refuse to store for want of space; all
    else is determined by the asset, for transfers within the limit. *)
Inductive storage_spec {C} (V : storage_view C) (d : C) (client : Z) : storage_op -> storage_reply -> C -> Prop :=
  | spec_set u data flags room d' :
      from_option (negb ∘ write_once) true (sv_asset V d client u) = true -> len data <= sv_limit V ->
      updated V d d' client u (Some (Asset flags room data)) ->
      storage_spec V d client (SetAsset u data flags) (Reply PSA_SUCCESS [] no_info) d'
  | spec_set_refused u data flags st d' :
      st <> PSA_SUCCESS -> int32 st -> unchanged V d d' ->
      storage_spec V d client (SetAsset u data flags) (Reply st [] no_info) d'
  | spec_get u off n a d' :
      sv_asset V d client u = Some a -> off <= len (a_data a) -> unchanged V d d' ->
      storage_spec V d client (GetData u off n)
        (Reply PSA_SUCCESS (slice (a_data a) off (Z.min (len (a_data a) - off) n)) no_info) d'
  | spec_get_refused u off n st d' :
      st <> PSA_SUCCESS -> int32 st -> unchanged V d d' ->
      match sv_asset V d client u with
      | Some a => n <= sv_limit V -> len (a_data a) < off
      | None => u <> 0 -> n <= sv_limit V -> st = PSA_ERROR_DOES_NOT_EXIST
      end ->
      storage_spec V d client (GetData u off n) (Reply st [] no_info) d'
  | spec_info u a room d' :
      sv_asset V d client u = Some a -> unchanged V d d' -> fits 32 room ->
      storage_spec V d client (GetInfo u)
        (Reply PSA_SUCCESS [] (StorageInfo room (u32 (len (a_data a))) (a_flags a))) d'
  | spec_info_missing u st d' :
      sv_asset V d client u = None -> st <> PSA_SUCCESS -> int32 st -> unchanged V d d' ->
      (u <> 0 -> st = PSA_ERROR_DOES_NOT_EXIST) ->
      storage_spec V d client (GetInfo u) (Reply st [] no_info) d'
  | spec_remove u a d' :
      sv_asset V d client u = Some a -> write_once a = false -> updated V d d' client u None ->
      storage_spec V d client (RemoveAsset u) (Reply PSA_SUCCESS [] no_info) d'
  | spec_remove_refused u st d' :
      from_option write_once true (sv_asset V d client u) = true -> st <> PSA_SUCCESS -> int32 st ->
      unchanged V d d' -> (sv_asset V d client u = None -> u <> 0 -> st = PSA_ERROR_DOES_NOT_EXIST) ->
      storage_spec V d client (RemoveAsset u) (Reply st [] no_info) d'
  | spec_create u room flags d' :
      sv_asset V d client u = None ->
      updated V d d' client u (if u =? 0 then None else Some (Asset flags room [])) ->
      storage_spec V d client (CreateAsset u room flags) (Reply PSA_SUCCESS [] no_info) d'
  | spec_create_refused u room flags st d' :
      st <> PSA_SUCCESS -> int32 st -> unchanged V d d' ->
      storage_spec V d client (CreateAsset u room flags) (Reply st [] no_info) d'
  | spec_extend u off data a x d' :
      sv_asset V d client u = Some a -> off + len data <= a_room a -> extended (a_data a) off data x ->
      updated V d d' client u (Some (Asset (a_flags a) (a_room a) x)) ->
      storage_spec V d client (ExtendAsset u off data) (Reply PSA_SUCCESS [] no_info) d'
  | spec_extend_refused u off data st d' :
      int32 st -> unchanged V d d' ->
      match sv_asset V d client u with
      | Some a => st <> PSA_SUCCESS /\ (len data <= sv_extend_limit V -> a_room a < off + len data)
      | None => u <> 0 -> st <> PSA_SUCCESS
      end ->
      storage_spec V d client (ExtendAsset u off data) (Reply st [] no_info) d'
  | spec_support v d' :
      fits 32 v -> unchanged V d d' ->
      storage_spec V d client GetSupport (Reply PSA_SUCCESS [] (StorageInfo 0 0 v)) d'.

Fixpoint run_ops {C} (I : storage_backend_interface C) (client : Z) (d : C) (ops : list storage_op)
    : option (list storage_reply * C) :=
  match ops with
  | [] => Some ([], d)
  | o :: ops =>
      '(r, d) ← run_op I client d o;
      '(rs, d) ← run_ops I client d ops;
      Some (r :: rs, d)
  end.

(** The specification on its own, for one client. *)
Definition abstract_view (limit extend_limit : Z) : storage_view (Z -> option asset) :=
  StorageView (fun _ => True) (fun m _ u => m u) limit extend_limit.

Inductive storage_history (limit extend_limit client : Z)
    : (Z -> option asset) -> list storage_op -> list storage_reply -> (Z -> option asset) -> Prop :=
  | history_nil m : storage_history limit extend_limit client m [] [] m
  | history_cons m o r m1 ops rs m2 :
      storage_spec (abstract_view limit extend_limit) m client o r m1 -> storage_history limit extend_limit client m1 ops rs m2 ->
      storage_history limit extend_limit client m (o :: ops) (r :: rs) m2.

Section Lawful.
Context {C : Type} (I : storage_backend_interface C) (V : storage_view C) {Hlaws : StorageLaws I V}.

Lemma copy_out_load p d p' : copy_out p d = Some p' -> forall b, p = Some b -> exists b', p' = Some b' /\ load b' 0 (len d) = Some d.
Proof using.
  unfold copy_out. intros H b ->. destruct (Z.eqb_spec (len d) 0) as [Hz|Hz].
  - simplify_eq. exists b. split; [done|]. destruct d; [|len_lia]. apply load_nil. len_lia.
  - apply bind_Some in H as (b' & H1 & H). simpl in H1. injection H1 as <-.
    apply bind_Some in H as (b' & H1 & [= <-]). exists b'. split; [done|]. by eapply load_store_same.
Qed.

Lemma lawful_op client d o :
  sv_ok V d -> op_ok o ->
  exists r d', run_op I client d o = Some (r, d') /\ sv_ok V d' /\ storage_spec V d client o r d'.
Proof using Hlaws.
  intros Hok Ho. destruct o as [u data f|u off n|u|u|u room f|u off data|]; cbn [run_op op_ok] in *.
  - destruct Ho as (Hu & Hl & Hf). pose proof (len_nonneg data).
    destruct (law_set d client u (len data) (Some data) f data Hok Hu ltac:(unfold fits; lia) Hf (copy_in_all data))
      as (st & d' & -> & Hok' & Hi & Hcase). eexists _, _. split; [done|]. split; [done|].
    destruct Hcase as [(-> & Hw & Hll & room & Hup)|[Hne Hun]]; [by eapply spec_set|by apply spec_set_refused].
  - destruct Ho as (Hu & Hof & Hn).
    destruct (law_get d client u off n (Some (fill 0 n)) 0 Hok Hu Hof Hn)
      as (st & p' & k' & d' & -> & Hok' & Hun & Hi & Hlen & Hcase & Hk).
    { exists (fill 0 n). split; [done|]. intros a _. rewrite len_fill; lia. }
    cbn [mbind option_bind]. destruct (Z.eqb_spec st PSA_SUCCESS) as [->|Hne].
    + destruct (sv_asset V d client u) as [a|] eqn:Ha; [|by destruct Hcase].
      destruct Hcase as [_ Hs]. destruct (Hs eq_refl) as (Hoff & -> & Hcopy).
      destruct (copy_out_load _ _ _ Hcopy _ eq_refl) as (b' & -> & Hload). cbn [mbind option_bind].
      rewrite slice_len in Hload by (unfold fits in *; lia). rewrite Hload. cbn [mbind option_bind].
      eexists _, _. split; [done|]. split; [done|]. by apply spec_get.
    + eexists _, _. split; [done|]. split; [done|]. apply spec_get_refused; try done.
      destruct (sv_asset V d client u) as [a|] eqn:Ha; [|by destruct Hcase].
      destruct Hcase as [Hs _]. intros Hlim. destruct (Z.ltb_spec (len (a_data a)) off); [done|].
      destruct Hne. by apply Hs.
  - destruct (law_get_info d client u no_info Hok Ho) as (st & i' & d' & -> & Hok' & Hun & Hi & Hcase).
    cbn [mbind option_bind]. eexists _, _. split; [done|]. split; [done|].
    destruct (sv_asset V d client u) as [a|] eqn:Ha.
    + destruct Hcase as (-> & Hs & Hf & Hc). simpl. destruct i' as [ci si fi]. simpl in *. subst.
      by apply spec_info.
    + destruct Hcase as [Hne Hst]. destruct (Z.eqb_spec st PSA_SUCCESS); [done|]. by apply spec_info_missing.
  - destruct (law_remove d client u Hok Ho) as (st & d' & -> & Hok' & Hi & Hcase).
    cbn [mbind option_bind]. eexists _, _. split; [done|]. split; [done|].
    destruct (sv_asset V d client u) as [a|] eqn:Ha.
    + destruct (write_once a) eqn:Hw; [|destruct Hcase as [-> Hup]; by eapply spec_remove].
      apply spec_remove_refused; rewrite ?Ha; try done; apply Hcase.
    + apply spec_remove_refused; rewrite ?Ha; try done; try apply Hcase. intros _. apply Hcase.
  - destruct Ho as (Hu & Hr & Hf).
    destruct (law_create d client u room f Hok Hu Hr Hf) as (st & d' & -> & Hok' & Hi & Hcase).
    cbn [mbind option_bind]. eexists _, _. split; [done|]. split; [done|].
    destruct Hcase as [(-> & Ha & Hup)|[Hne Hun]]; [by apply spec_create|by apply spec_create_refused].
  - destruct Ho as (Hu & Hof & Hn).
    destruct (law_set_extended d client u off (len data) data data Hok Hu Hof Hn (load_all data))
      as (st & d' & -> & Hok' & Hi & Hcase).
    cbn [mbind option_bind]. eexists _, _. split; [done|]. split; [done|].
    destruct (sv_asset V d client u) as [a|] eqn:Ha.
    + destruct Hcase as [Hp [(-> & Hr & x & Hx & Hup)|[Hne Hun]]]; [by eapply spec_extend|].
      apply spec_extend_refused; [done..|]. rewrite Ha. split; [done|]. intros Hlim.
      destruct (Z.ltb_spec (a_room a) (off + len data)); [done|]. destruct Hne. by apply Hp.
    + apply spec_extend_refused; [done|apply Hcase|]. rewrite Ha. apply Hcase.
  - destruct (law_get_support d client Hok) as (v & d' & -> & Hok' & Hun & Hv).
    cbn [mbind option_bind]. eexists _, _. split; [done|]. split; [done|]. by apply spec_support.
Qed.


(** ** The abstract store: a map from identifiers to assets *)

Lemma spec_abstract client d o r d' :
  storage_spec V d client o r d' ->
  storage_spec (abstract_view (sv_limit V) (sv_extend_limit V)) (sv_asset V d client) client o r (sv_asset V d' client).
Proof using.
  assert (unchanged V d d' -> unchanged (abstract_view (sv_limit V) (sv_extend_limit V)) (sv_asset V d client) (sv_asset V d' client))
    as Hun by (intros H c u; apply H).
  assert (forall u a, updated V d d' client u a ->
    updated (abstract_view (sv_limit V) (sv_extend_limit V)) (sv_asset V d client) (sv_asset V d' client) client u a) as Hup.
  { intros u a [H1 H2]. split; [done|]. intros c u' Hne. by apply H2. }
  destruct 1; [eapply spec_set|eapply spec_set_refused|eapply spec_get|eapply spec_get_refused|eapply spec_info|
    eapply spec_info_missing|eapply spec_remove|eapply spec_remove_refused|eapply spec_create|
    eapply spec_create_refused|eapply spec_extend|eapply spec_extend_refused|eapply spec_support]; eauto.
Qed.

Lemma lawful_run client d ops :
  sv_ok V d -> Forall op_ok ops ->
  exists rs d', run_ops I client d ops = Some (rs, d') /\ sv_ok V d' /\
    storage_history (sv_limit V) (sv_extend_limit V) client (sv_asset V d client) ops rs (sv_asset V d' client).
Proof using Hlaws.
  intros Hok Hops. revert d Hok. induction Hops as [|o ops Ho _ IH]; intros d Hok.
  { eexists _, _. split; [done|]. split; [done|]. by constructor. }
  destruct (lawful_op client d o Hok Ho) as (r & d1 & H1 & Hok1 & Hspec).
  destruct (IH d1 Hok1) as (rs & d2 & H2 & Hok2 & Hh). cbn [run_ops]. rewrite H1. cbn [mbind option_bind].
  rewrite H2. eexists _, _. split; [done|]. split; [done|]. econstructor; [by apply spec_abstract|done].
Qed.


End Lawful.

(** ** Properties *)

(** From its initialisation on the mock store serves any sequence of requests in range: every
    call returns, and the replies are those of a map from identifiers to assets. *)
Theorem mock_store_refines malloc_ok client ops :
  (forall n, malloc_ok n = true) -> Forall op_ok ops ->
  let '(store, interface) := MockStore.mock_store_init malloc_ok in
  exists rs store' m0, (forall u, m0 u = None) /\ run_ops interface client store ops = Some (rs, store') /\
    storage_history (2 ^ 64) (2 ^ 64) client m0 ops rs (mock_asset store').
Proof.
  intros Hm Hops. cbv beta iota delta [MockStore.mock_store_init].
  destruct (mock_init_ok malloc_ok) as [Hok Hnone]. cbn [fst MockStore.mock_store_init] in Hok, Hnone.
  pose proof (mock_store_laws malloc_ok Hm) as Hlaws.
  destruct (lawful_run (MockStore.interface malloc_ok) mock_view client _ ops Hok Hops)
    as (rs & l' & Hrun & _ & Hh).
  exists rs, l', (mock_asset (replicate (Z.to_nat MockStore.MOCK_STORE_NUM_SLOTS) MockStore.free)).
  split; [done|]. split; [done|]. exact Hh.
Qed.

(** set, get at an offset, create and extend, remove. *)
Definition sample_ops : list storage_op :=
  [SetAsset 7 [1; 2; 3] 0; GetData 7 1 8; CreateAsset 9 4 0; ExtendAsset 9 2 [5]; GetData 9 0 4; RemoveAsset 7].

Lemma mock_store_refines_witness :
  let '(store, interface) := MockStore.mock_store_init (fun _ => true) in
  exists rs store' m0, (forall u, m0 u = None) /\ run_ops interface 0 store sample_ops = Some (rs, store') /\
    storage_history (2 ^ 64) (2 ^ 64) 0 m0 sample_ops rs (mock_asset store').
Proof.
  apply (mock_store_refines (fun _ => true) 0 sample_ops); [done|].
  unfold sample_ops. repeat (apply Forall_cons; split); [..|apply Forall_nil]; unfold op_ok, fits, len; simpl; lia.
Defined.

(** The bound of mock_store_set_extended wraps: data at an offset whose sum with its length
    passes 2^64 goes before the check and is written outside the item. *)
Theorem mock_set_extended_wraps l client u off n b a :
  mock_ok l -> mock_asset l u = Some a -> 0 <= off < 2 ^ 64 -> 0 < n <= len b -> off + n >= 2 ^ 64 ->
  off + n - 2 ^ 64 <= a_room a -> n <= 2 ^ 64 ->
  MockStore.mock_store_set_extended l client u off n (Some b) = None.
Proof.
  intros Hok Ha Ho Hn Hw Hr Hn64. unfold MockStore.mock_store_set_extended.
  destruct (slot_cases l u Hok) as [(j & s & it & Hfs & Hs & Hit & Hus & Hsok & Ha')|[_ Ha']]; [|congruence].
  destruct (decide (u = 0)) as [->|Hu]; [done|]. rewrite (Ha' Hu) in Ha. injection Ha as <-.
  cbn [a_room] in Hr. unfold slot_ok in Hsok. rewrite Hit in Hsok.
  rewrite Hfs. simpl. rewrite Hs. simpl. rewrite Hit. cbn [mbind option_bind].
  assert (u64 (off + n) = off + n - 2 ^ 64) as ->.
  { unfold wrap. symmetry. apply (Z.mod_unique _ _ 1); lia. }
  destruct (Z.geb_spec (MockStore.capacity s) (off + n - 2 ^ 64)); [|lia].
  rewrite load_is_slice by lia. cbn [mbind option_bind]. unfold store.
  rewrite slice_len by lia. destruct (Z.leb_spec (off + n) (len it)); [lia|].
  by rewrite andb_false_r.
Qed.

Lemma mock_set_extended_wraps_witness :
  MockStore.mock_store_set_extended
    (<[0%nat := MockStore.Slot 7 0 0 4 (Some [0; 0; 0; 0])]> (replicate 100 MockStore.free))
    0 7 (2 ^ 64 - 1) 2 (Some [1; 2]) = None.
Proof.
  destruct (mock_init_ok (fun _ => true)) as [Hok _].
  destruct (replace_slot _ 0 MockStore.free (MockStore.Slot 7 0 0 4 (Some [0; 0; 0; 0])) 7 0 Hok) as [Hok' Hup];
    [done|right; done|vm_compute; repeat split; intros; discriminate|done|].
  apply (mock_set_extended_wraps _ 0 7 _ _ _ (Asset 0 4 []) Hok'); [apply Hup|unfold len; simpl; lia..].
Defined.
