(* ===== verification/ServiceClient.v ===== *)
(** * components/service/common/client and one transaction of a client

    service_client.c: what every service client keeps; and lemmas about a client's
    transaction (begin, write the request, invoke, end) over the direct caller,
    for any service that keeps its buffer and its invariant. *)
From S2P Require Import Prelude Status RpcService RpcEndpoint RpcCaller.

(** ** service_client.c *)

Record service_info := ServiceInfo { supported_encodings : Z; max_payload : Z }.

Record service_client (C : Type) := ServiceClient {
  session : option (rpc_caller_session C);
  rpc_status : Z;
  client_service_info : service_info
}.
Arguments ServiceClient {C}.
Arguments session {C}.
Arguments rpc_status {C}.
Arguments client_service_info {C}.

Definition service_client_init {C} (context : option (service_client C))
    (s : option (rpc_caller_session C)) : Z * option (service_client C) :=
  match context, s with
  | Some _, Some s => (PSA_SUCCESS, Some (ServiceClient (Some s) RPC_SUCCESS (ServiceInfo 0 4096)))
  | _, _ => (PSA_ERROR_INVALID_ARGUMENT, context)
  end.

Definition service_client_deinit {C} (context : service_client C) : service_client C :=
  ServiceClient None (rpc_status context) (client_service_info context).

Definition service_client_set_service_info {C} (context : service_client C) (info : service_info)
    : service_client C := ServiceClient (session context) (rpc_status context) info.

(** ** The transaction every client operation is made of *)

Section Client.
Context {C : Type}.
Implicit Types (x : service_client C) (c : C).

Definition with_session x (s : option (rpc_caller_session C)) : service_client C :=
  ServiceClient s (rpc_status x) (client_service_info x).
Definition with_rpc_status x (status : Z) : service_client C :=
  ServiceClient (session x) status (client_service_info x).

(** memcpy of the parts of a request, one after the other. *)
Fixpoint copy_parts x (off : Z) (parts : list bytes) : option (service_client C) :=
  match parts with
  | [] => Some x
  | part :: parts =>
      s ← session x;
      s ← write_request s off part;
      copy_parts (with_session x (Some s)) (off + len part) parts
  end.

(** Begin, copy the request, invoke, look at the response, end.  [failed] is the
    status where the call did not reach the service, [a] the results where it did
    not succeed; [decode] reads them from the response. *)
Definition transact {A} x c (parts : list bytes) (req_len resp_max op failed : Z) (a : A)
    (decode : option bytes -> Z -> option (Z * A)) : option (Z * A * service_client C * C) :=
  let '(call_handle, s, c) := rpc_caller_session_begin (session x) true req_len resp_max c in
  let x := with_session x s in
  if (call_handle : bool) then
    x ← copy_parts x 0 parts;
    '(status, resp_buf, resp_len, service_status, s, c) ←
      rpc_caller_session_invoke (session x) op true true None 0 0 c;
    let x := with_rpc_status (with_session x s) status in
    '(op_status, a) ←
      (if status =? RPC_SUCCESS then
         let op_status := s32 service_status in
         if op_status =? 0 then decode resp_buf resp_len else Some (op_status, a)
       else Some (failed, a));
    let '(_, s, c) := rpc_caller_session_end (session x) c in
    Some (op_status, a, with_session x s, c)
  else Some (failed, a, with_rpc_status x RPC_ERROR_INTERNAL, c).

End Client.

(** The largest message a session can carry. *)
Definition session_capacity {C} (s : rpc_caller_session C) : Z :=
  if shared_memory_policy s =? alloc_for_session then memory_size (shared_memory s)
  else 2 ^ 32 - 1.

(** ** One transaction over the direct caller *)

Section Transaction.
Context {S : Type} (calloc_ok : Z -> bool) (Hcalloc : forall n, calloc_ok n = true).
Context (svc : rpc_service_interface S) (id : Z) (Inv : S -> Prop).
Context (Hsvc : service_ok Inv (svc_receive svc)).

Let ctx : direct_caller_context S := DirectContext svc id.
Let i : rpc_caller_interface (direct_state S) := Direct.interface calloc_ok ctx.
Implicit Types (s : rpc_caller_session (direct_state S)) (c : direct_state S).

Let inv (base : Z) s c : Prop :=
  session_inv i (fun c => Inv (service_state c)) live_blocks base s c.

(** Between begin and end: the transaction's buffer and what it holds. *)
Definition open_tx (base cap : Z) s c (n : Z) (b : bytes) (p : S) : Prop :=
  inv base s c /\ is_call_transaction_in_progress s = true /\ request_length s = n /\
  buffer (shared_memory s) = Some b /\ len b = memory_size (shared_memory s) /\
  service_state c = p /\ session_capacity s = cap.

Definition idle (base cap : Z) s c (p : S) : Prop :=
  inv base s c /\ is_call_transaction_in_progress s = false /\ service_state c = p /\
  session_capacity s = cap.

Lemma tx_begin base cap s c p n rm :
  idle base cap s c p -> 0 <= n -> 0 <= rm -> 0 < Z.max n rm <= cap ->
  exists s' c' b, rpc_caller_session_begin (Some s) true n rm c = (true, Some s', c') /\
    open_tx base cap s' c' n b p /\ Z.max n rm <= len b.
Proof using Hcalloc.
  intros (((Hc & Hp & Hsz & Hreq & Hmem) & Hi & Hl) & Hprog & Hst & Hcap) Hn Hrm Hmax.
  unfold rpc_caller_session_begin, session_capacity, held_blocks in *.
  rewrite Hprog in *. destruct (Z.max n rm >? 2 ^ 32 - 1) eqn:Hbig.
  { exfalso. destruct (shared_memory_policy s =? alloc_for_session); lia. }
  simpl orb. destruct Hp as [Hp|Hp]; rewrite Hp in *; simpl in *.
  - rewrite Hmem, Hc. simpl. unfold Direct.create_shared_memory. rewrite Hcalloc. simpl.
    eexists _, _, (fill 0 (Z.max n rm)). split; [done|]. rewrite len_fill by lia. split; [|lia].
    split; [|repeat split; simpl; try done; [apply len_fill; lia|];
      unfold session_capacity; simpl; by rewrite Hp].
    split; [|split; [done|unfold held_blocks; simpl; rewrite Hp; simpl; lia]].
    split; [done|]. split; [by left|]. simpl. split; [lia|]. split; [lia|].
    unfold held_blocks. simpl. rewrite Hp. exists (fill 0 (Z.max n rm)). split; [done|].
    simpl. apply len_fill. lia.
  - rewrite no_memory_ok by done. destruct Hmem as (b & Hb & Hbl).
    destruct (Z.eqb_spec (memory_size (shared_memory s)) 0); [lia|].
    destruct (Z.ltb_spec (memory_size (shared_memory s)) (Z.max n rm)); [lia|].
    eexists _, _, b. split; [done|]. split; [|lia].
    split; [|repeat split; try done; unfold session_capacity; simpl; by rewrite Hp].
    split; [|split; [done|unfold held_blocks; simpl; rewrite Hp; simpl; lia]].
    split; [done|]. split; [by right|]. simpl. split; [lia|]. split; [lia|].
    unfold held_blocks. simpl. rewrite Hp. by exists b.
Qed.

Lemma tx_write base cap s c n b p off data :
  open_tx base cap s c n b p -> 0 <= off -> off + len data <= len b ->
  exists s' b', write_request s off data = Some s' /\ store b off data = Some b' /\
    open_tx base cap s' c n b' p.
Proof using.
  intros (((Hc & Hp & Hsz & Hreq & Hmem) & Hi & Hl) & Hprog & Hn & Hb & Hbl & Hst & Hcap) Hoff Hlen.
  unfold write_request. rewrite Hb. simpl. destruct (store_ok b off data) as [b' Hb']; [done..|].
  rewrite Hb'. simpl. eexists _, b'. split; [done|]. split; [done|].
  pose proof (store_len _ _ _ _ Hb') as Hbl'.
  split; [|by repeat split; try done; simpl; lia].
  split; [|done]. split; [done|]. split; [done|]. split; [done|]. split; [done|].
  change (held_blocks (set_memory _ _)) with (held_blocks s).
  rewrite (held_in_progress s Hprog). exists b'. split; [done|]. simpl. lia.
Qed.

Lemma tx_end base cap s c n b p :
  open_tx base cap s c n b p ->
  exists s' c', rpc_caller_session_end (Some s) c = (RPC_SUCCESS, Some s', c') /\
    idle base cap s' c' p.
Proof using.
  intros (((Hc & Hp & Hsz & Hreq & Hmem) & Hi & Hl) & Hprog & Hn & Hb & Hbl & Hst & Hcap).
  unfold rpc_caller_session_end, no_memory. rewrite Hprog in *. rewrite Hb. simpl.
  rewrite Hn in *. destruct (negb (n =? 0) && (memory_size (shared_memory s) =? 0)) eqn:Hz; [lia|].
  rewrite (held_in_progress s Hprog) in Hl. unfold session_capacity in Hcap.
  destruct Hp as [Hp|Hp]; rewrite Hp in *; simpl in *.
  - rewrite Hc. simpl. unfold Direct.release_shared_memory. rewrite Hb. simpl.
    eexists _, _. split; [done|].
    split; [|repeat split; try done; unfold session_capacity; simpl; by rewrite Hp].
    split; [|split; [done|unfold held_blocks; simpl; rewrite Hp; simpl; lia]].
    split; [done|]. split; [by left|]. simpl. split; [lia|]. split; [done|].
    unfold held_blocks. simpl. by rewrite Hp.
  - eexists _, _. split; [done|].
    split; [|repeat split; try done; unfold session_capacity; simpl; by rewrite Hp].
    split; [|split; [done|unfold held_blocks; simpl; rewrite Hp; simpl; lia]].
    split; [done|]. split; [by right|]. simpl. split; [done|]. split; [done|].
    unfold held_blocks. simpl. rewrite Hp. by exists b.
Qed.

(** The call of a transaction, for a service that answers the request. *)
Lemma tx_call base cap s c n b p op status req' p' b' :
  open_tx base cap s c n b p -> 0 <= op < 2 ^ 16 ->
  svc_receive svc p (Request id 0 op 0 0 n (len b) 0 (len b) (Some b)) = Some (status, req', p') ->
  Inv p' -> region req' = Some b' -> len b' = len b ->
  exists s' c',
    rpc_caller_session_invoke (Some s) op true true None 0 0 c =
      Some (if negb (status =? RPC_SUCCESS) || (response_data_length req' >? len b)
            then (status, None, 0, service_status req', Some s', c')
            else (status, Some b', response_data_length req', service_status req', Some s', c')) /\
    open_tx base cap s' c' n b' p'.
Proof using.
  intros (((Hc & Hp & Hsz & Hreq & Hmem) & Hi & Hl) & Hprog & Hn & Hb & Hbl & Hst & Hcap) Hop Hr Hok' Hb' Hbl'.
  unfold rpc_caller_session_invoke, no_memory. rewrite Hprog, Hb, Hn. simpl. rewrite Hprog in Hreq.
  destruct (negb (n =? 0) && (memory_size (shared_memory s) =? 0)) eqn:Hz; [lia|].
  rewrite Hc. unfold rpc_caller_call. simpl. unfold Direct.call. rewrite Hst, Hb, <- Hbl.
  rewrite (wrap_small 16 op) by done. simpl. rewrite Hr. simpl. rewrite Hb'.
  eexists _, _. split; [by destruct (_ || _)|].
  split; [|repeat split; try done; simpl; try lia; unfold session_capacity in *; simpl in *;
    by rewrite ?Hbl, ?Hn].
  split; [|done]. split; [done|]. split; [done|]. simpl. rewrite Hbl. split; [done|].
  rewrite Hprog. split; [done|]. change (held_blocks (set_memory _ _)) with (held_blocks s).
  rewrite (held_in_progress s Hprog). exists b'. split; [done|]. simpl. lia.
Qed.

(** The request of an open transaction is as the endpoint would build it. *)
Lemma tx_fresh base cap s c n b p op :
  open_tx base cap s c n b p -> fresh_request (Request id 0 op 0 0 n (len b) 0 (len b) (Some b)) /\ Inv p.
Proof using.
  intros (((_ & _ & Hsz & Hreq & _) & Hi & _) & Hprog & Hn & Hb & Hbl & Hst & _).
  split; [|by subst p]. split; [|done]. unfold request_ok. simpl. rewrite Hprog, Hn in Hreq. lia.
Qed.

(** What the service did, and what invoke returns. *)
Lemma tx_invoke base cap s c n b p op :
  open_tx base cap s c n b p -> 0 <= op < 2 ^ 16 ->
  let req := Request id 0 op 0 0 n (len b) 0 (len b) (Some b) in
  exists status req' p' s' c' b',
    fresh_request req /\ Inv p /\ svc_receive svc p req = Some (status, req', p') /\ Inv p' /\
    region req' = Some b' /\ len b' = len b /\
    rpc_caller_session_invoke (Some s) op true true None 0 0 c =
      Some (if negb (status =? RPC_SUCCESS) || (response_data_length req' >? len b)
            then (status, None, 0, service_status req', Some s', c')
            else (status, Some b', response_data_length req', service_status req', Some s', c')) /\
    open_tx base cap s' c' n b' p'.
Proof using Hsvc.
  intros Htx Hop req. destruct (tx_fresh base cap s c n b p op Htx) as [Hfresh Hp].
  destruct (Hsvc p req Hp Hfresh) as (status & req' & p' & Hr & Hok' & Hlen).
  simpl in Hlen. apply fmap_Some in Hlen as (b' & Hb' & Hbl').
  destruct (tx_call base cap s c n b p op status req' p' b' Htx Hop Hr Hok' Hb' ltac:(done)) as (s' & c' & H1 & H2).
  by exists status, req', p', s', c', b'.
Qed.

(** Opening a session. *)
Lemma open_idle s0 uuid e size live p s c :
  Inv p -> 0 <= size < 2 ^ 32 ->
  rpc_caller_session_open (Some s0) (Some i) (Some uuid) e size (DirectState live p)
    = (RPC_SUCCESS, Some s, c) ->
  idle live (session_capacity s) s c p.
Proof using Hcalloc.
  intros Hp Hsize. simpl. unfold Direct.open_session, Direct.find_and_open_session.
  destruct (negb (rpc_uuid_equal _ _)); [done|]. simpl. unfold initalize_shared_memory.
  destruct (Z.eqb_spec size 0) as [->|Hz]; simpl.
  - intros [= <- <-]. split; [|done]. split; [|split; [done|]; unfold held_blocks; simpl; lia].
    split; [done|]. split; [by left|]. done.
  - unfold Direct.create_shared_memory. rewrite Hcalloc. simpl. intros [= <- <-].
    split; [|done]. split; [|by split]. split; [done|]. split; [by right|]. split; [simpl; lia|].
    split; [done|]. exists (fill 0 size). split; [done|]. cbn [memory_size shared_memory set_caller set_policy set_memory]. apply len_fill, Hsize.
Qed.

(** A message larger than the session's memory is refused. *)
Lemma tx_begin_refused base cap s c p n rm :
  idle base cap s c p -> 0 <= n -> 0 <= rm -> cap < Z.max n rm ->
  rpc_caller_session_begin (Some s) true n rm c = (false, Some s, c).
Proof using.
  intros (((Hc & Hp & Hsz & Hreq & Hmem) & Hi & Hl) & Hprog & Hst & Hcap) Hn Hrm Hmax.
  unfold rpc_caller_session_begin, session_capacity, held_blocks in *.
  rewrite Hprog in *. destruct (Z.gtb_spec (Z.max n rm) (2 ^ 32 - 1)) as [|Hle]; [done|].
  simpl orb. destruct Hp as [Hp|Hp]; rewrite Hp in *; simpl in *; [lia|].
  rewrite no_memory_ok by done. destruct (_ =? 0); [done|].
  destruct (Z.ltb_spec (memory_size (shared_memory s)) (Z.max n rm)); [done|lia].
Qed.

Lemma capacity_bound base cap s c p : idle base cap s c p -> cap < 2 ^ 32.
Proof using.
  intros (((_ & _ & Hsz & _) & _) & _ & _ & <-). unfold session_capacity. destruct (_ =? _); lia.
Qed.

Lemma copy_parts_ok base cap x s c n b p off parts :
  session x = Some s -> open_tx base cap s c n b p -> 0 <= off ->
  off + len (concat parts) <= len b ->
  exists x' s' b', copy_parts x off parts = Some x' /\ session x' = Some s' /\
    store b off (concat parts) = Some b' /\ open_tx base cap s' c n b' p.
Proof using.
  revert x s b off. induction parts as [|part parts IH]; intros x s b off Hs Htx Hoff Hlen.
  - exists x, s, b. split; [done|]. split; [done|]. split; [|done]. apply store_nil.
    simpl in Hlen. unfold len in *. simpl in Hlen. lia.
  - simpl in Hlen. rewrite len_app in Hlen. pose proof (len_nonneg (concat parts)).
    destruct (tx_write base cap s c n b p off part Htx Hoff) as (s1 & b1 & Hw & Hb1 & Htx1); [lia|].
    pose proof (store_len _ _ _ _ Hb1) as Hl1.
    destruct (IH (with_session x (Some s1)) s1 b1 (off + len part)) as (x' & s' & b' & Hc & Hs' & Hb' & Htx');
      [done|done|pose proof (len_nonneg part); lia|lia|].
    exists x', s', b'. simpl. rewrite Hs. cbn [mbind option_bind]. rewrite Hw. cbn [mbind option_bind].
    split; [done|]. split; [done|]. split; [|done]. rewrite <- store_app, Hb1. exact Hb'.
Qed.

(** What a transaction does, in terms of the request the service receives. *)
Lemma transact_ok {A} base cap x s c p parts req_len resp_max op failed (a : A) decode :
  session x = Some s -> idle base cap s c p -> req_len = len (concat parts) -> 0 <= resp_max ->
  0 < Z.max req_len resp_max <= cap -> 0 <= op < 2 ^ 16 ->
  exists b status req' p' b' x' s' c',
    let req := Request id 0 op 0 0 req_len (len b) 0 (len b) (Some b) in
    Z.max req_len resp_max <= len b /\ slice b 0 req_len = concat parts /\
    fresh_request req /\ Inv p /\ svc_receive svc p req = Some (status, req', p') /\
    region req' = Some b' /\ len b' = len b /\
    session x' = Some s' /\ idle base cap s' c' p' /\
    transact x c parts req_len resp_max op failed a decode =
      ('(st, a) ←
         (if status =? RPC_SUCCESS then
            if s32 (service_status req') =? 0 then
              if response_data_length req' >? len b then decode None 0
              else decode (Some b') (response_data_length req')
            else Some (s32 (service_status req'), a)
          else Some (failed, a));
       Some (st, a, x', c')).
Proof using Hsvc Hcalloc.
  intros Hs Hidle Hlen Hrm Hmax Hop. pose proof (len_nonneg (concat parts)).
  destruct (tx_begin base cap s c p req_len resp_max Hidle) as (s1 & c1 & b0 & Hbegin & Htx & Hb0); [lia..|].
  destruct (copy_parts_ok base cap (with_session x (Some s1)) s1 c1 req_len b0 p 0 parts)
    as (x2 & s2 & b & Hcopy & Hs2 & Hb & Htx2); [done|done|lia|lia|].
  pose proof (store_len _ _ _ _ Hb) as Hlb. pose proof (load_store_same _ _ _ _ Hb) as Hload.
  rewrite load_is_slice in Hload by lia. injection Hload as Hload.
  destruct (tx_invoke base cap s2 c1 req_len b p op Htx2 Hop)
    as (status & req' & p' & s3 & c3 & b' & Hrok & Hp & Hr & _ & Hb' & Hlb' & Hinv & Htx3).
  destruct (tx_end base cap s3 c3 req_len b' p' Htx3) as (s4 & c4 & Hend & Hidle').
  exists b, status, req', p', b', (with_session (with_rpc_status (with_session x2 (Some s3)) status) (Some s4)), s4, c4.
  cbv zeta. split; [lia|]. split; [by rewrite Hlen|]. split; [done|]. do 6 (split; [done|]).
  unfold transact. rewrite Hs, Hbegin. rewrite Hcopy. cbn [mbind option_bind]. rewrite Hs2, Hinv.
  destruct (Z.eqb_spec status RPC_SUCCESS) as [->|Hne]; simpl negb.
  - simpl orb. destruct (_ >? _); cbn [mbind option_bind]; simpl (RPC_SUCCESS =? RPC_SUCCESS); cbv match;
      simpl session; rewrite Hend; destruct (_ =? 0); done.
  - simpl orb. cbn [mbind option_bind]. destruct (Z.eqb_spec status RPC_SUCCESS); [done|].
    simpl session. by rewrite Hend.
Qed.

End Transaction.

(** ** Sessions and the allocator

    The lemmas above are about a calloc that always gives memory.  For any other they
    hold as long as it gives what is asked for: the memory of a session of [size] octets
    when it is opened, or, where a session has none, the buffer of each message. *)

Definition allocated (calloc_ok : Z -> bool) (size : Z) (messages : list Z) : Prop :=
  if size =? 0 then Forall (fun n => n < 2 ^ 32 -> calloc_ok n = true) messages
  else calloc_ok size = true.

Section Allocation.
Context {S : Type} (calloc_ok : Z -> bool) (ctx : direct_caller_context S) (size : Z).
Implicit Types (s : rpc_caller_session (direct_state S)) (c : direct_state S).
Implicit Types x : service_client (direct_state S).

(** A session over the direct caller, and the same session over the one whose calloc
    does not fail. *)
Definition over s : Prop :=
  caller s = Some (Direct.interface calloc_ok ctx) /\
  shared_memory_policy s = if size =? 0 then alloc_for_each_call else alloc_for_session.

Definition endless s : rpc_caller_session (direct_state S) :=
  Session (Some (Direct.interface (fun _ => true) ctx)) (shared_memory s) (shared_memory_policy s)
    (is_call_transaction_in_progress s) (request_length s).

Definition endless_client x : service_client (direct_state S) :=
  with_session x (endless <$> session x).

Definition over_client x : Prop := exists s, session x = Some s /\ over s.

(** Two runs of an operation in lockstep. *)
Definition lockstep {A} (r r' : option (A * service_client (direct_state S) * direct_state S)) : Prop :=
  match r with
  | None => r' = None
  | Some (a, x, c) => r' = Some (a, endless_client x, c) /\ over_client x
  end.

Lemma allocated_one n : allocated calloc_ok size [n] -> (size =? 0) = true -> n < 2 ^ 32 -> calloc_ok n = true.
Proof using. unfold allocated. intros H Hz. rewrite Hz in H. inversion H; subst. assumption. Qed.

Lemma allocated_cons n ns :
  allocated calloc_ok size (n :: ns) <-> allocated calloc_ok size [n] /\ allocated calloc_ok size ns.
Proof using. unfold allocated. destruct (size =? 0); [rewrite !Forall_cons, Forall_nil|]; tauto. Qed.

Lemma begin_lockstep s b n rm c :
  over s -> allocated calloc_ok size [Z.max n rm] ->
  exists h s' c', over s' /\ rpc_caller_session_begin (Some s) b n rm c = (h, Some s', c') /\
    rpc_caller_session_begin (Some (endless s)) b n rm c = (h, Some (endless s'), c').
Proof using.
  intros Ho Hal. pose proof Ho as [Hc Hp]. pose proof (allocated_one _ Hal) as Hok.
  unfold rpc_caller_session_begin. cbn [endless is_call_transaction_in_progress shared_memory shared_memory_policy caller].
  destruct (Z.gtb_spec (Z.max n rm) (2 ^ 32 - 1)); [by eexists _, _, _|].
  destruct (_ || _); [by eexists _, _, _|].
  rewrite Hc, Hp. destruct (size =? 0) eqn:Hz; cbn [Z.eqb alloc_for_each_call alloc_for_session Pos.eqb].
  - destruct (_ || _); [by eexists _, _, _|]. cbn [rpc_caller_create_shared_memory ci_create_shared_memory Direct.interface].
    unfold Direct.create_shared_memory. rewrite Hok by (done || lia). simpl negb. cbv iota.
    eexists _, _, _. split; [|split; reflexivity]. split; [done|]. simpl. by rewrite Hp, Hz.
  - destruct (no_memory _); [by eexists _, _, _|]. destruct (_ <? _); [by eexists _, _, _|].
    eexists _, _, _. split; [|split; reflexivity]. split; [done|]. simpl. by rewrite Hp, Hz.
Qed.

Lemma write_lockstep s off data :
  over s ->
  match write_request s off data with
  | None => write_request (endless s) off data = None
  | Some s' => over s' /\ write_request (endless s) off data = Some (endless s')
  end.
Proof using.
  intros Ho. unfold write_request. cbn [endless shared_memory].
  destruct (buffer (shared_memory s)) as [b|]; [|done]. cbn [mbind option_bind].
  destruct (store b off data) as [b'|]; done.
Qed.

Lemma invoke_lockstep s op r1 r2 rb rl ss c :
  over s ->
  match rpc_caller_session_invoke (Some s) op r1 r2 rb rl ss c with
  | None => rpc_caller_session_invoke (Some (endless s)) op r1 r2 rb rl ss c = None
  | Some (st, rb', rl', ss', s1, c') => exists s', s1 = Some s' /\ over s' /\
      rpc_caller_session_invoke (Some (endless s)) op r1 r2 rb rl ss c = Some (st, rb', rl', ss', Some (endless s'), c')
  end.
Proof using.
  intros Ho. pose proof Ho as [Hc Hp]. unfold rpc_caller_session_invoke.
  cbn [endless is_call_transaction_in_progress shared_memory request_length caller].
  destruct (_ || _); [by exists s|]. destruct (negb _); [by exists s|]. destruct (_ && _); [by exists s|].
  rewrite Hc. cbn [rpc_caller_call ci_call Direct.interface].
  destruct (Direct.call _ _ _ _ _ _ _) as [[[[[st m] rl'] ss'] c']|]; [|done]. cbn [mbind option_bind].
  cbn [set_memory shared_memory]. destruct (_ || _); by eexists.
Qed.

Lemma end_lockstep s c :
  over s ->
  exists st s' c', over s' /\ rpc_caller_session_end (Some s) c = (st, Some s', c') /\
    rpc_caller_session_end (Some (endless s)) c = (st, Some (endless s'), c').
Proof using.
  intros Ho. pose proof Ho as [Hc Hp]. unfold rpc_caller_session_end.
  cbn [endless is_call_transaction_in_progress shared_memory shared_memory_policy request_length caller].
  destruct (negb _); [by eexists _, _, _|]. destruct (_ && _); [by eexists _, _, _|].
  rewrite Hc, Hp. destruct (size =? 0) eqn:Hz; cbn [Z.eqb alloc_for_each_call alloc_for_session Pos.eqb].
  - cbn [rpc_caller_release_shared_memory ci_release_shared_memory Direct.interface]. unfold Direct.release_shared_memory.
    destruct (buffer _); simpl negb; cbv iota; eexists _, _, _; (split; [|split; reflexivity]);
      (split; [done|]); simpl; by rewrite Hp, Hz.
  - eexists _, _, _. split; [|split; reflexivity]. split; [done|]. simpl. by rewrite Hp, Hz.
Qed.

Lemma copy_lockstep x s off parts :
  session x = Some s -> over s ->
  match copy_parts x off parts with
  | None => copy_parts (endless_client x) off parts = None
  | Some x' => copy_parts (endless_client x) off parts = Some (endless_client x') /\ over_client x'
  end.
Proof using.
  revert x s off. induction parts as [|part parts IH]; intros x s off Hs Ho; cbn [copy_parts].
  - split; [done|by exists s].
  - cbn [endless_client with_session session]. rewrite Hs. cbn [mbind option_bind fmap option_fmap option_map].
    pose proof (write_lockstep s off part Ho) as Hw. destruct (write_request s off part) as [s1|]; [|by rewrite Hw].
    destruct Hw as [Ho1 ->]. cbn [mbind option_bind]. exact (IH (with_session x (Some s1)) s1 _ eq_refl Ho1).
Qed.

Lemma transact_lockstep {A} x s c parts req_len resp_max op failed (a : A) decode :
  session x = Some s -> over s -> allocated calloc_ok size [Z.max req_len resp_max] ->
  lockstep (transact x c parts req_len resp_max op failed a decode)
    (transact (endless_client x) c parts req_len resp_max op failed a decode).
Proof using.
  intros Hs Ho Hal. unfold transact. cbn [endless_client with_session session]. rewrite Hs.
  cbn [fmap option_fmap option_map].
  destruct (begin_lockstep s true req_len resp_max c Ho Hal) as (h & s1 & c1 & Ho1 & -> & ->).
  destruct h; [|by split; [done|exists s1]].
  pose proof (copy_lockstep (with_session x (Some s1)) s1 0 parts eq_refl Ho1) as Hcopy.
  unfold endless_client, with_session in Hcopy |- *.
  cbn [session rpc_status client_service_info fmap option_fmap option_map] in Hcopy |- *.
  destruct (copy_parts _ 0 parts) as [x2|]; [|by rewrite Hcopy].
  destruct Hcopy as [-> (s2 & Hs2 & Ho2)]. cbn [mbind option_bind endless_client with_session session].
  rewrite Hs2. cbn [fmap option_fmap option_map].
  pose proof (invoke_lockstep s2 op true true None 0 0 c1 Ho2) as Hinv.
  destruct (rpc_caller_session_invoke _ _ _ _ _ _ _ _) as [[[[[[st rb] rl] ss] s3] c3]|]; [|by rewrite Hinv].
  destruct Hinv as (s3' & -> & Ho3 & ->). cbn [mbind option_bind].
  destruct (if st =? RPC_SUCCESS then _ else _) as [[st2 a2]|]; [|done]. cbn [mbind option_bind].
  cbn [with_rpc_status with_session session].
  destruct (end_lockstep s3' c3 Ho3) as (st4 & s4 & c4 & Ho4 & -> & ->).
  split; [done|by exists s4].
Qed.

(** Where calloc gives nothing the client writes to NULL. *)
Lemma transact_unallocated {A} x s c part parts req_len resp_max op failed (a : A) decode :
  session x = Some s -> over s -> size = 0 -> is_call_transaction_in_progress s = false ->
  shared_memory s = null_memory -> Z.max req_len resp_max < 2 ^ 32 -> calloc_ok (Z.max req_len resp_max) = false ->
  transact x c (part :: parts) req_len resp_max op failed a decode = None.
Proof using.
  intros Hs [Hc Hp] -> Hprog Hm Hlt Hno. unfold transact, rpc_caller_session_begin. rewrite Hs, Hc, Hp, Hm, Hprog.
  destruct (Z.gtb_spec (Z.max req_len resp_max) (2 ^ 32 - 1)); [lia|]. simpl.
  unfold Direct.create_shared_memory. rewrite Hno. reflexivity.
Qed.

(** Opening the session. *)
Lemma open_lockstep s0 uuid e c0 s c :
  allocated calloc_ok size [] ->
  rpc_caller_session_open (Some s0) (Some (Direct.interface calloc_ok ctx)) (Some uuid) e size c0 = (RPC_SUCCESS, Some s, c) ->
  over s /\
  rpc_caller_session_open (Some s0) (Some (Direct.interface (fun _ => true) ctx)) (Some uuid) e size c0
    = (RPC_SUCCESS, Some (endless s), c).
Proof using.
  unfold allocated, over. intros Hal. simpl. unfold Direct.open_session, Direct.find_and_open_session.
  destruct (negb _); [done|]. simpl. unfold initalize_shared_memory.
  destruct (size =? 0) eqn:Hz; simpl; [by intros [= <- <-]|].
  unfold Direct.create_shared_memory. rewrite Hal. simpl. by intros [= <- <-].
Qed.

End Allocation.
