(* ===== verification/BlockStorageProvider.v ===== *)
(** * components/service/block_storage/provider: the block storage service

    block_storage_provider.c serves requests for the partitions of a block store
    on behalf of the sender of each request; packedc_block_storage_serializer.c
    decodes requests and encodes responses.  The store is any [block_store]; [C]
    is the type of its contexts. *)
From S2P Require Import Prelude Status StoragePartition BlockStore BlockDevice RpcService RpcEndpoint.

Definition TS_BLOCK_STORAGE_OPCODE_BASE : Z := 256.
Definition TS_BLOCK_STORAGE_OPCODE_GET_PARTITION_INFO : Z := TS_BLOCK_STORAGE_OPCODE_BASE + 1.
Definition TS_BLOCK_STORAGE_OPCODE_OPEN : Z := TS_BLOCK_STORAGE_OPCODE_BASE + 2.
Definition TS_BLOCK_STORAGE_OPCODE_CLOSE : Z := TS_BLOCK_STORAGE_OPCODE_BASE + 3.
Definition TS_BLOCK_STORAGE_OPCODE_READ : Z := TS_BLOCK_STORAGE_OPCODE_BASE + 4.
Definition TS_BLOCK_STORAGE_OPCODE_WRITE : Z := TS_BLOCK_STORAGE_OPCODE_BASE + 5.
Definition TS_BLOCK_STORAGE_OPCODE_ERASE : Z := TS_BLOCK_STORAGE_OPCODE_BASE + 6.

Definition TS_BLOCK_STORAGE_GUID_OCTET_LEN : Z := 16.
Definition TS_BLOCK_STORAGE_SERVICE_UUID : bytes :=
  [99; 100; 110; 128; 235; 82; 70; 47; 172; 79; 140; 223; 57; 135; 81; 156].

(** ** packedc_block_storage_serializer.c *)

(** A storage_partition_handle_t is a uint32_t; the messages have a uint64_t. *)
Definition deserialize_get_partition_info_req (req : rpc_buffer) (partition_guid : bytes)
    : option (Z * bytes) :=
  if 16 <=? buf_data_length req then
    d ← buf_data req;
    guid ← load d 0 16;
    Some (RPC_SUCCESS, guid)
  else Some (RPC_ERROR_INVALID_REQUEST_BODY, partition_guid).

Definition serialize_get_partition_info_resp (resp : rpc_buffer) (info : storage_partition_info)
    : option (Z * rpc_buffer) :=
  partition_guid ← load (info_partition_guid info) 0 TS_BLOCK_STORAGE_GUID_OCTET_LEN;
  parent_guid ← load (info_parent_guid info) 0 TS_BLOCK_STORAGE_GUID_OCTET_LEN;
  let resp_msg := le_split 8 (u64 (info_num_blocks info)) ++ le_split 4 (u32 (info_block_size info)) ++
                  partition_guid ++ parent_guid in
  if 44 <=? buf_size resp then
    d ← buf_data resp;
    d ← store d 0 resp_msg;
    Some (RPC_SUCCESS, Buffer (Some d) 44 (buf_size resp))
  else Some (RPC_ERROR_INTERNAL, resp).

Definition deserialize_open_req (req : rpc_buffer) (partition_guid : bytes) : option (Z * bytes) :=
  if 16 <=? buf_data_length req then
    d ← buf_data req;
    guid ← load d 0 16;
    Some (RPC_SUCCESS, guid)
  else Some (RPC_ERROR_INVALID_REQUEST_BODY, partition_guid).

Definition serialize_open_resp (resp : rpc_buffer) (handle : Z) : option (Z * rpc_buffer) :=
  if 8 <=? buf_size resp then
    d ← buf_data resp;
    d ← put_uint d 0 8 handle;
    Some (RPC_SUCCESS, Buffer (Some d) 8 (buf_size resp))
  else Some (RPC_ERROR_INTERNAL, resp).

Definition deserialize_close_req (req : rpc_buffer) (handle : Z) : option (Z * Z) :=
  if 8 <=? buf_data_length req then
    d ← buf_data req;
    handle ← get_uint d 0 8;
    Some (RPC_SUCCESS, u32 handle)
  else Some (RPC_ERROR_INVALID_REQUEST_BODY, handle).

(** Returns the status, *handle, *lba, *offset and *len. *)
Definition deserialize_read_req (req : rpc_buffer) (handle lba offset length : Z)
    : option (Z * Z * Z * Z * Z) :=
  if 24 <=? buf_data_length req then
    d ← buf_data req;
    handle ← get_uint d 0 8;
    lba ← get_uint d 8 8;
    offset ← get_uint d 16 4;
    length ← get_uint d 20 4;
    Some (RPC_SUCCESS, u32 handle, lba, offset, length)
  else Some (RPC_ERROR_INVALID_REQUEST_BODY, handle, lba, offset, length).

(** *data points into the request: it is an offset. *)
Definition deserialize_write_req (req : rpc_buffer) (handle lba offset data data_length : Z)
    : option (Z * Z * Z * Z * Z * Z) :=
  if 20 <=? buf_data_length req then
    d ← buf_data req;
    handle ← get_uint d 0 8;
    lba ← get_uint d 8 8;
    offset ← get_uint d 16 4;
    Some (RPC_SUCCESS, u32 handle, lba, offset, 20, buf_data_length req - 20)
  else Some (RPC_ERROR_INVALID_REQUEST_BODY, handle, lba, offset, data, data_length).

Definition serialize_write_resp (resp : rpc_buffer) (num_written : Z) : option (Z * rpc_buffer) :=
  if 8 <=? buf_size resp then
    d ← buf_data resp;
    d ← put_uint d 0 8 num_written;
    Some (RPC_SUCCESS, Buffer (Some d) 8 (buf_size resp))
  else Some (RPC_ERROR_INTERNAL, resp).

Definition deserialize_erase_req (req : rpc_buffer) (handle begin_lba num_blocks : Z)
    : option (Z * Z * Z * Z) :=
  if 20 <=? buf_data_length req then
    d ← buf_data req;
    handle ← get_uint d 0 8;
    begin_lba ← get_uint d 8 8;
    num_blocks ← get_uint d 16 4;
    Some (RPC_SUCCESS, u32 handle, begin_lba, num_blocks)
  else Some (RPC_ERROR_INVALID_REQUEST_BODY, handle, begin_lba, num_blocks).

(** struct block_storage_serializer *)
Record block_storage_serializer := BlockStorageSerializer {
  des_info_req : rpc_buffer -> bytes -> option (Z * bytes);
  ser_info_resp : rpc_buffer -> storage_partition_info -> option (Z * rpc_buffer);
  des_open_req : rpc_buffer -> bytes -> option (Z * bytes);
  ser_open_resp : rpc_buffer -> Z -> option (Z * rpc_buffer);
  des_close_req : rpc_buffer -> Z -> option (Z * Z);
  des_read_req : rpc_buffer -> Z -> Z -> Z -> Z -> option (Z * Z * Z * Z * Z);
  des_write_req : rpc_buffer -> Z -> Z -> Z -> Z -> Z -> option (Z * Z * Z * Z * Z * Z);
  ser_write_resp : rpc_buffer -> Z -> option (Z * rpc_buffer);
  des_erase_req : rpc_buffer -> Z -> Z -> Z -> option (Z * Z * Z * Z)
}.

Definition packedc_block_storage_serializer_instance : block_storage_serializer :=
  BlockStorageSerializer deserialize_get_partition_info_req serialize_get_partition_info_resp
    deserialize_open_req serialize_open_resp deserialize_close_req deserialize_read_req
    deserialize_write_req serialize_write_resp deserialize_erase_req.

(** ** block_storage_provider.c *)

(** [bp_serializer] is [None] for NULL. *)
Record block_storage_provider (C : Type) := BlockStorageProvider {
  bp_serializer : option block_storage_serializer;
  bp_block_store : block_store C
}.
Arguments BlockStorageProvider {C}.
Arguments bp_serializer {C}.
Arguments bp_block_store {C}.

Section Provider.
(** [uninitialised]: the local variable of get_partition_info_handler. *)
Context {C : Type} (uninitialised : storage_partition_info).
Implicit Types p : block_storage_provider C.

Definition set_store p (b : block_store C) : block_storage_provider C :=
  BlockStorageProvider (bp_serializer p) b.

Definition block_storage_provider_register_serializer p (s : block_storage_serializer)
    : block_storage_provider C := BlockStorageProvider (Some s) (bp_block_store p).

Definition get_block_storage_serializer p (req : rpc_request) : option block_storage_serializer :=
  bp_serializer p.

Definition get_partition_info_handler : service (block_storage_provider C) := fun p req =>
  match get_block_storage_serializer p req with
  | None => Some (RPC_ERROR_INTERNAL, req, p)
  | Some serializer =>
      '(rpc_status, partition_guid) ← des_info_req serializer (request_buffer req) (fill 0 16);
      if rpc_status =? RPC_SUCCESS then
        '(op_status, partition_info, b) ←
          block_store_get_partition_info (bp_block_store p) partition_guid uninitialised;
        let p := set_store p b in
        let req := put_status req op_status in
        if op_status =? PSA_SUCCESS then
          '(rpc_status, resp) ← ser_info_resp serializer (response_buffer req) partition_info;
          Some (rpc_status, put_response req resp, p)
        else Some (rpc_status, req, p)
      else Some (rpc_status, req, p)
  end.

Definition open_handler : service (block_storage_provider C) := fun p req =>
  match get_block_storage_serializer p req with
  | None => Some (RPC_ERROR_INTERNAL, req, p)
  | Some serializer =>
      '(rpc_status, partition_guid) ← des_open_req serializer (request_buffer req) (fill 0 16);
      if rpc_status =? RPC_SUCCESS then
        '(op_status, handle, b) ←
          block_store_open (bp_block_store p) (source_id req) partition_guid 0;
        let p := set_store p b in
        let req := put_status req op_status in
        if op_status =? PSA_SUCCESS then
          '(rpc_status, resp) ← ser_open_resp serializer (response_buffer req) handle;
          Some (rpc_status, put_response req resp, p)
        else Some (rpc_status, req, p)
      else Some (rpc_status, req, p)
  end.

Definition close_handler : service (block_storage_provider C) := fun p req =>
  match get_block_storage_serializer p req with
  | None => Some (RPC_ERROR_INTERNAL, req, p)
  | Some serializer =>
      '(rpc_status, handle) ← des_close_req serializer (request_buffer req) 0;
      if rpc_status =? RPC_SUCCESS then
        '(op_status, b) ← block_store_close (bp_block_store p) (source_id req) handle;
        Some (rpc_status, put_status req op_status, set_store p b)
      else Some (rpc_status, req, p)
  end.

(** The data is read straight into the response buffer. *)
Definition read_handler : service (block_storage_provider C) := fun p req =>
  match get_block_storage_serializer p req with
  | None => Some (RPC_ERROR_INTERNAL, req, p)
  | Some serializer =>
      '(rpc_status, handle, lba, offset, length) ←
        des_read_req serializer (request_buffer req) 0 0 0 0;
      if rpc_status =? RPC_SUCCESS then
        let length := if length >? response_size req then response_size req else length in
        d ← region req;
        '(op_status, d, data_length, b) ←
          block_store_read (bp_block_store p) (source_id req) handle lba offset length d
            (response_data_length req);
        Some (rpc_status, set_response req op_status data_length (Some d), set_store p b)
      else Some (rpc_status, req, p)
  end.

Definition write_handler : service (block_storage_provider C) := fun p req =>
  match get_block_storage_serializer p req with
  | None => Some (RPC_ERROR_INTERNAL, req, p)
  | Some serializer =>
      '(rpc_status, handle, lba, offset, data, data_len) ←
        des_write_req serializer (request_buffer req) 0 0 0 0 0;
      if rpc_status =? RPC_SUCCESS then
        d ← region req;
        bytes ← load d data data_len;
        '(op_status, num_written, b) ←
          block_store_write (bp_block_store p) (source_id req) handle lba offset bytes data_len 0;
        let p := set_store p b in
        let req := put_status req op_status in
        if op_status =? PSA_SUCCESS then
          '(rpc_status, resp) ← ser_write_resp serializer (response_buffer req) num_written;
          Some (rpc_status, put_response req resp, p)
        else Some (rpc_status, req, p)
      else Some (rpc_status, req, p)
  end.

Definition erase_handler : service (block_storage_provider C) := fun p req =>
  match get_block_storage_serializer p req with
  | None => Some (RPC_ERROR_INTERNAL, req, p)
  | Some serializer =>
      '(rpc_status, handle, begin_lba, num_blocks) ←
        des_erase_req serializer (request_buffer req) 0 0 0;
      if rpc_status =? RPC_SUCCESS then
        '(op_status, b) ←
          block_store_erase (bp_block_store p) (source_id req) handle begin_lba num_blocks;
        Some (rpc_status, put_status req op_status, set_store p b)
      else Some (rpc_status, req, p)
  end.

Definition handler_table : list (service_handler (block_storage_provider C)) :=
  [Handler TS_BLOCK_STORAGE_OPCODE_GET_PARTITION_INFO get_partition_info_handler;
   Handler TS_BLOCK_STORAGE_OPCODE_OPEN open_handler;
   Handler TS_BLOCK_STORAGE_OPCODE_CLOSE close_handler;
   Handler TS_BLOCK_STORAGE_OPCODE_READ read_handler;
   Handler TS_BLOCK_STORAGE_OPCODE_WRITE write_handler;
   Handler TS_BLOCK_STORAGE_OPCODE_ERASE erase_handler].

(** [context] is [None] for NULL.  Returns the provider and its interface. *)
Definition block_storage_provider_init (context : option (block_storage_provider C)) (b : block_store C)
    : option (option (block_storage_provider C * rpc_service_interface (block_storage_provider C))) :=
  match context with
  | None => Some None
  | Some _ =>
      sp ← service_provider_init TS_BLOCK_STORAGE_SERVICE_UUID handler_table (len handler_table);
      Some (Some (BlockStorageProvider None b, service_provider_get_rpc_interface sp))
  end.

End Provider.

(** ** Specification: what a request asks of the store, and what it gets *)

Inductive storage_call :=
  | Malformed (rpc_status : Z)
  | InfoCall (guid : bytes)
  | OpenCall (guid : bytes)
  | CloseCall (h : Z)
  | ReadCall (h lba offset n : Z)
  | WriteCall (h lba offset : Z) (data : bytes)
  | EraseCall (h lba n : Z).

Definition parse_call (req : rpc_request) : storage_call :=
  let op := opcode req in
  let n := request_data_length req in
  let m := default [] (region req) in
  let fixed k call := if n <? k then Malformed RPC_ERROR_INVALID_REQUEST_BODY else call in
  if op =? TS_BLOCK_STORAGE_OPCODE_GET_PARTITION_INFO then fixed 16 (InfoCall (slice m 0 16))
  else if op =? TS_BLOCK_STORAGE_OPCODE_OPEN then fixed 16 (OpenCall (slice m 0 16))
  else if op =? TS_BLOCK_STORAGE_OPCODE_CLOSE then fixed 8 (CloseCall (u32 (uint_at m 0 8)))
  else if op =? TS_BLOCK_STORAGE_OPCODE_READ then
    fixed 24 (ReadCall (u32 (uint_at m 0 8)) (uint_at m 8 8) (uint_at m 16 4) (uint_at m 20 4))
  else if op =? TS_BLOCK_STORAGE_OPCODE_WRITE then
    fixed 20 (WriteCall (u32 (uint_at m 0 8)) (uint_at m 8 8) (uint_at m 16 4) (slice m 20 (n - 20)))
  else if op =? TS_BLOCK_STORAGE_OPCODE_ERASE then
    fixed 20 (EraseCall (u32 (uint_at m 0 8)) (uint_at m 8 8) (uint_at m 16 4))
  else Malformed RPC_ERROR_INVALID_VALUE.

Definition info_bytes (info : storage_partition_info) : bytes :=
  le_split 8 (u64 (info_num_blocks info)) ++ le_split 4 (u32 (info_block_size info)) ++
  info_partition_guid info ++ info_parent_guid info.

(** The results of a successful operation are in the response; a refused operation
    has an empty one. *)
Definition results (req : rpc_request) (st : Z) (body : bytes) (status : Z) (req' : rpc_request) : Prop :=
  let body := if st =? PSA_SUCCESS then body else [] in
  answered RPC_ERROR_INTERNAL req st [] body (len body) status req'.

(** One request served for its sender, in terms of the view of the store. *)
Inductive storage_step {C} (V : store_view C) (c : C) (req : rpc_request)
    : Z -> rpc_request -> C -> Prop :=
  | step_malformed st : parse_call req = Malformed st -> storage_step V c req st req c
  | step_info guid st info status req' c' :
      parse_call req = InfoCall guid -> view_ext V c c' ->
      (st = PSA_SUCCESS -> v_described V c' guid (info_num_blocks info) (info_block_size info) /\
        len (info_bytes info) = 44) ->
      int32 st -> results req st (info_bytes info) status req' -> storage_step V c req status req' c'
  | step_open guid st h status req' c' :
      parse_call req = OpenCall guid -> view_ext V c c' ->
      (st = PSA_SUCCESS -> v_access V c' (source_id req) h /\ 0 <= h /\
        forall nb bs, v_described V c guid nb bs -> v_nblocks V c' h = nb /\ v_bsize V c' h = bs) ->
      int32 st -> results req st (le_split 8 (u64 h)) status req' -> storage_step V c req status req' c'
  | step_close h st status req' c' :
      parse_call req = CloseCall h -> view_ext V c c' ->
      (st = PSA_SUCCESS <-> v_access V c (source_id req) h) ->
      int32 st -> results req st [] status req' -> storage_step V c req status req' c'
  | step_read h lba offset n m d m' c' :
      parse_call req = ReadCall h lba offset n -> view_ext V c c' ->
      in_range V c (source_id req) h lba offset -> region req = Some m ->
      load (v_data V c h) (lba * v_bsize V c h + offset)
        (Z.min (Z.min n (response_size req)) (v_bsize V c h - offset)) = Some d ->
      store m 0 d = Some m' ->
      storage_step V c req RPC_SUCCESS (set_response req PSA_SUCCESS (len d) (Some m')) c'
  | step_read_refused h lba offset n st c' :
      parse_call req = ReadCall h lba offset n -> view_ext V c c' ->
      ~ in_range V c (source_id req) h lba offset -> st <> PSA_SUCCESS -> int32 st ->
      storage_step V c req RPC_SUCCESS (put_status req st) c'
  | step_write h lba offset data w d' status req' c' :
      parse_call req = WriteCall h lba offset data -> in_range V c (source_id req) h lba offset ->
      w = Z.min (len data) (v_bsize V c h - offset) ->
      store (v_data V c h) (lba * v_bsize V c h + offset) (take (Z.to_nat w) data) = Some d' ->
      view_upd V c h d' c' ->
      results req PSA_SUCCESS (le_split 8 (u64 w)) status req' -> storage_step V c req status req' c'
  | step_write_refused h lba offset data st c' :
      parse_call req = WriteCall h lba offset data -> view_ext V c c' ->
      ~ in_range V c (source_id req) h lba offset -> st <> PSA_SUCCESS -> int32 st ->
      storage_step V c req RPC_SUCCESS (put_status req st) c'
  | step_erase h lba n e d' c' :
      parse_call req = EraseCall h lba n -> v_access V c (source_id req) h -> lba < v_nblocks V c h ->
      len e = Z.min n (v_nblocks V c h - lba) * v_bsize V c h ->
      store (v_data V c h) (lba * v_bsize V c h) e = Some d' -> view_upd V c h d' c' ->
      storage_step V c req RPC_SUCCESS (put_status req PSA_SUCCESS) c'
  | step_erase_refused h lba n st c' :
      parse_call req = EraseCall h lba n -> view_ext V c c' ->
      ~ (v_access V c (source_id req) h /\ lba < v_nblocks V c h) -> st <> PSA_SUCCESS -> int32 st ->
      storage_step V c req RPC_SUCCESS (put_status req st) c'.

(** What a store's values must be for the C types they have: GUIDs of 16 octets,
    32-bit handles and statuses. *)
Class WireStore {C} (I : block_store_interface C) (V : store_view C) : Prop := {
  wire_guids c guid info0 info c' : v_ok V c -> len guid = 16 ->
    get_partition_info I c guid info0 = Some (PSA_SUCCESS, info, c') ->
    len (info_partition_guid info) = 16 /\ len (info_parent_guid info) = 16;
  wire_handle c client h : v_access V c client h -> h < 2 ^ 32;
  wire_info c guid info0 st info c' :
    get_partition_info I c guid info0 = Some (st, info, c') -> int32 st;
  wire_open c client guid h0 st h c' : open I c client guid h0 = Some (st, h, c') -> int32 st;
  wire_close c client h st c' : close I c client h = Some (st, c') -> int32 st;
  wire_read c client h lba offset n buf dl st buf' dl' c' :
    read I c client h lba offset n buf dl = Some (st, buf', dl', c') -> int32 st;
  wire_write c client h lba offset data n nw st nw' c' :
    write I c client h lba offset data n nw = Some (st, nw', c') -> int32 st;
  wire_erase c client h lba n st c' : erase I c client h lba n = Some (st, c') -> int32 st
}.

Definition provider_ok {C} (I : block_store_interface C) (V : store_view C)
    (p : block_storage_provider C) : Prop :=
  bp_serializer p = Some packedc_block_storage_serializer_instance /\
  bs_interface (bp_block_store p) = Some I /\ v_ok V (bs_context (bp_block_store p)).

Definition store_context {C} (p : block_storage_provider C) : C := bs_context (bp_block_store p).

(** ** Lemmas: the handlers *)

Section Handlers.
Context {C : Type} (I : block_store_interface C) (V : store_view C) {Hlaws : BlockStoreLaws I V}.
Context {Hwire : WireStore I V} (uninitialised : storage_partition_info).
Implicit Types p : block_storage_provider C.

Definition served p req (r : option (Z * rpc_request * block_storage_provider C)) : Prop :=
  exists status req' p', r = Some (status, req', p') /\ provider_ok I V p' /\
    storage_step V (store_context p) req status req' (store_context p') /\
    (len <$> region req') = (len <$> region req).

Lemma provider_ok_set p c : provider_ok I V p -> v_ok V c ->
  provider_ok I V (set_store p (set_context (bp_block_store p) c)).
Proof. intros (Hs & Hi & _) Hc. done. Qed.

Lemma results_plain req m st :
  region req = Some m -> 0 <= response_size req -> response_data_length req = 0 ->
  st <> PSA_SUCCESS -> forall body, results req st body RPC_SUCCESS (put_status req st).
Proof.
  intros Hm Hs Hd Hst body. unfold results. destruct (Z.eqb_spec st PSA_SUCCESS); [done|].
  by eapply plain_answer.
Qed.

Lemma results_len req st body status req' :
  results req st body status req' -> (len <$> region req') = (len <$> region req).
Proof. intros (m' & -> & Hl & _). by rewrite <- Hl. Qed.

(** Open a handler on a request with opcode [Hop]: too short, or its fields; the call
    it asks for is then [call]. *)
Ltac parsed Hop Hreg :=
  unfold parse_call; rewrite Hop, ?Hreg; simpl Z.eqb; cbv match;
  match goal with |- context [request_data_length ?req <? ?k] =>
    destruct (Z.ltb_spec (request_data_length req) k); [done || lia|done || lia] end.

Ltac open_handler_on p req Hop Hp Hfresh call :=
  destruct Hp as (Hser & Hif & Hvok); unfold get_block_storage_serializer;
  match goal with H : bp_serializer p = _ |- _ => rewrite H end;
  cbn [des_info_req des_open_req des_close_req des_read_req des_write_req des_erase_req
       ser_info_resp ser_open_resp ser_write_resp packedc_block_storage_serializer_instance];
  unfold deserialize_get_partition_info_req, deserialize_open_req, deserialize_close_req,
    deserialize_read_req, deserialize_write_req, deserialize_erase_req;
  simpl buf_data_length; simpl buf_data; rewrite Z.leb_antisym;
  match goal with |- context [request_data_length req <? ?k] =>
    destruct (Z.ltb_spec (request_data_length req) k) as [Hlt|Hge]; cbn [negb];
      [ eexists _, _, _; split; [done|]; split; [done|]; split; [|done];
        apply step_malformed; parsed Hop Hop
      | destruct (fresh_region req k Hfresh) as (m & Hreg & Hk & Hsz & Hdl & Hd0); [lia|] ] end;
  match goal with H : region req = Some _ |- _ => rewrite H end;
  cbn [mbind option_bind]; rewrite ?get_uint_ok, ?load_is_slice by lia;
  cbn [mbind option_bind]; change (RPC_SUCCESS =? RPC_SUCCESS) with true; cbv match;
  match goal with H : region req = Some ?m |- _ =>
    let c := eval cbv beta in (call m) in
    assert (parse_call req = c) as Hparse by parsed Hop H end;
  unfold block_store_get_partition_info, block_store_open, block_store_close, block_store_read,
    block_store_write, block_store_erase;
  match goal with H : bs_interface _ = Some _ |- _ => rewrite H end; cbn [mbind option_bind].

Lemma u32_nonneg x : 0 <= u32 x.
Proof. apply (wrap_fits 32). lia. Qed.

Lemma storage_close_handled p req :
  provider_ok I V p -> fresh_request req -> opcode req = TS_BLOCK_STORAGE_OPCODE_CLOSE ->
  served p req (close_handler p req).
Proof.
  intros Hp Hfresh Hop. pose proof Hp as Hp0. unfold close_handler.
  open_handler_on p req Hop Hp Hfresh (fun m => CloseCall (u32 (uint_at m 0 8))).
  destruct (law_close (bs_context (bp_block_store p)) (source_id req) (u32 (uint_at m 0 8)) Hvok)
    as (st & c' & Hop' & Hext & Hiff); [apply u32_nonneg|]. rewrite Hop'. pose proof (wire_close _ _ _ _ _ Hop'). cbn [mbind option_bind].
  eexists _, _, _. split; [done|]. split; [by apply provider_ok_set; [|apply Hext]|]. split; [|done].
  eapply step_close; [done|done|done|done|]. unfold results.
  destruct (st =? PSA_SUCCESS); eapply plain_answer; done || lia.
Qed.

Lemma storage_erase_handled p req :
  provider_ok I V p -> fresh_request req -> opcode req = TS_BLOCK_STORAGE_OPCODE_ERASE ->
  served p req (erase_handler p req).
Proof.
  intros Hp Hfresh Hop. pose proof Hp as Hp0. unfold erase_handler.
  open_handler_on p req Hop Hp Hfresh
    (fun m => EraseCall (u32 (uint_at m 0 8)) (uint_at m 8 8) (uint_at m 16 4)).
  destruct (law_erase (bs_context (bp_block_store p)) (source_id req) (u32 (uint_at m 0 8)) (uint_at m 8 8)
    (uint_at m 16 4) Hvok) as (st & c' & Hop' & Hcase);
    [apply u32_nonneg|apply uint_at_bound; lia..|]. rewrite Hop'. pose proof (wire_erase _ _ _ _ _ _ _ Hop').
  cbn [mbind option_bind].
  destruct Hcase as [(-> & Ha & Hl & e & d' & He & Hst & Hupd)|(Hst & Hno & Hext)];
    (eexists _, _, _; split; [done|]).
  - split; [by apply provider_ok_set; [|apply Hupd]|]. split; [|done]. by eapply step_erase.
  - split; [by apply provider_ok_set; [|apply Hext]|]. split; [|done]. by eapply step_erase_refused.
Qed.

(** A body that the handler encodes if it fits. *)
Lemma encoded_results req m body :
  region req = Some m -> 0 <= response_size req <= len m -> response_data_length req = 0 ->
  exists status resp,
    (if len body <=? response_size req
     then d ← store m 0 body; Some (RPC_SUCCESS, Buffer (Some d) (len body) (response_size req))
     else Some (RPC_ERROR_INTERNAL, response_buffer (put_status req PSA_SUCCESS))) = Some (status, resp) /\
    results req PSA_SUCCESS body status (put_response (put_status req PSA_SUCCESS) resp).
Proof.
  intros Hm Hs Hd. unfold results. simpl (PSA_SUCCESS =? PSA_SUCCESS). cbv match.
  destruct (Z.leb_spec (len body) (response_size req)) as [Hf|Hf].
  - destruct (store_front m body) as (m' & -> & Hl & Hsl); [lia|]. cbn [mbind option_bind].
    eexists _, _. split; [done|]. by apply (stored_answer _ req m).
  - eexists _, _. split; [done|]. by apply (small_answer _ req _ m m).
Qed.

(** The three handlers that return results share their end. *)
Lemma results_served p req c' m body status resp :
  provider_ok I V p -> v_ok V c' -> region req = Some m ->
  results req PSA_SUCCESS body status (put_response (put_status req PSA_SUCCESS) resp) ->
  (forall req', results req PSA_SUCCESS body status req' ->
    storage_step V (store_context p) req status req' c') ->
  served p req (Some (status, put_response (put_status req PSA_SUCCESS) resp,
    set_store p (set_context (bp_block_store p) c'))).
Proof.
  intros Hp Hc Hm Hres Hstep. eexists _, _, _. split; [done|]. split; [by apply provider_ok_set|].
  split; [by apply Hstep|]. by eapply results_len.
Qed.

Lemma storage_info_handled p req :
  provider_ok I V p -> fresh_request req -> opcode req = TS_BLOCK_STORAGE_OPCODE_GET_PARTITION_INFO ->
  served p req (get_partition_info_handler uninitialised p req).
Proof.
  intros Hp Hfresh Hop. pose proof Hp as Hp0. unfold get_partition_info_handler.
  open_handler_on p req Hop Hp Hfresh (fun m => InfoCall (slice m 0 16)).
  destruct (law_info (bs_context (bp_block_store p)) (slice m 0 16) uninitialised Hvok)
    as (st & info & c' & Hget & Hext & Hdesc). rewrite Hget. pose proof (wire_info _ _ _ _ _ _ Hget).
  cbn [mbind option_bind].
  destruct (Z.eqb_spec st PSA_SUCCESS) as [->|Hne].
  - destruct (wire_guids _ _ _ _ _ Hvok (slice_len m 0 16 ltac:(lia) ltac:(lia) ltac:(lia)) Hget) as [Hg1 Hg2]. unfold serialize_get_partition_info_resp.
    unfold TS_BLOCK_STORAGE_GUID_OCTET_LEN. rewrite <- Hg1 at 1. rewrite load_all.
    cbn [mbind option_bind]. rewrite <- Hg2 at 1. rewrite load_all. cbn [mbind option_bind].
    fold (info_bytes info). simpl buf_size. simpl buf_data. rewrite Hreg. cbn [mbind option_bind].
    assert (len (info_bytes info) = 44) as H44
      by (unfold info_bytes; rewrite !len_app, !len_le_split; lia).
    destruct (encoded_results req m (info_bytes info) Hreg Hsz Hd0) as (status & resp & Henc & Hres).
    rewrite H44 in Henc. rewrite Henc. cbn [mbind option_bind].
    eapply results_served; [done|apply Hext|done|done|]. intros req' Hr.
    eapply (step_info _ _ _ _ _ info); [done|done| |done|exact Hr]. intros _. split; [by apply Hdesc|done].
  - eexists _, _, _. split; [done|]. split; [by apply provider_ok_set; [|apply Hext]|]. split; [|done].
    eapply (step_info _ _ _ _ _ info); [done|done|done|done|]. eapply results_plain; done || lia.
Qed.

Lemma storage_open_handled p req :
  provider_ok I V p -> fresh_request req -> opcode req = TS_BLOCK_STORAGE_OPCODE_OPEN ->
  served p req (open_handler p req).
Proof.
  intros Hp Hfresh Hop. pose proof Hp as Hp0. unfold open_handler.
  open_handler_on p req Hop Hp Hfresh (fun m => OpenCall (slice m 0 16)).
  destruct (law_open (bs_context (bp_block_store p)) (source_id req) (slice m 0 16) 0 Hvok)
    as (st & h & c' & Hop' & Hext & Hacc). rewrite Hop'. pose proof (wire_open _ _ _ _ _ _ _ Hop').
  cbn [mbind option_bind].
  destruct (Z.eqb_spec st PSA_SUCCESS) as [->|Hne].
  - unfold serialize_open_resp. simpl buf_size. simpl buf_data. rewrite Hreg. cbn [mbind option_bind].
    destruct (encoded_results req m (le_split 8 (u64 h)) Hreg Hsz Hd0) as (status & resp & Henc & Hres).
    change (len (le_split 8 (u64 h))) with 8 in Henc. unfold put_uint.
    change (wrap (8 * Z.of_nat 8) h) with (u64 h). rewrite Henc.
    cbn [mbind option_bind].
    eapply results_served; [done|apply Hext|done|done|]. intros req' Hr. by eapply step_open.
  - eexists _, _, _. split; [done|]. split; [by apply provider_ok_set; [|apply Hext]|]. split; [|done].
    eapply step_open; [done|done|done|done|]. eapply results_plain; done || lia.
Qed.

Lemma storage_read_handled p req :
  provider_ok I V p -> fresh_request req -> opcode req = TS_BLOCK_STORAGE_OPCODE_READ ->
  served p req (read_handler p req).
Proof.
  intros Hp Hfresh Hop. pose proof Hp as Hp0. unfold read_handler.
  open_handler_on p req Hop Hp Hfresh
    (fun m => ReadCall (u32 (uint_at m 0 8)) (uint_at m 8 8) (uint_at m 16 4) (uint_at m 20 4)).
  set (n := if uint_at m 20 4 >? response_size req then _ else _).
  pose proof (uint_at_bound m 20 4 ltac:(lia)) as Hn0.
  assert (n = Z.min (uint_at m 20 4) (response_size req)) as Hn
    by (subst n; destruct (uint_at m 20 4 >? response_size req) eqn:E; lia).
  destruct (law_read (bs_context (bp_block_store p)) (source_id req) (u32 (uint_at m 0 8)) (uint_at m 8 8)
    (uint_at m 16 4) n m (response_data_length req) Hvok) as (st & m' & dl & c' & Hop' & Hext & Hcase);
    [apply u32_nonneg|apply uint_at_bound; lia..|lia|]. rewrite Hop'.
  pose proof (wire_read _ _ _ _ _ _ _ _ _ _ _ _ Hop'). cbn [mbind option_bind].
  destruct Hcase as [(-> & Hin & Hdl' & d & Hload & Hst)|(Hst & Hno & -> & ->)];
    (eexists _, _, _; split; [done|]; split; [by apply provider_ok_set; [|apply Hext]|]).
  - pose proof (load_len _ _ _ _ Hload) as Hld. rewrite <- Hld. split.
    + eapply step_read; [done|done|done|done| |done]. unfold store_context. by rewrite <- Hn, <- Hdl'.
    + simpl. rewrite Hreg. simpl. f_equal. by eapply store_len.
  - split; [|simpl; by rewrite Hreg].
    replace (set_response req st (response_data_length req) (Some m)) with (put_status req st)
      by (unfold put_status; by rewrite Hreg).
    by eapply step_read_refused.
Qed.

Lemma storage_write_handled p req :
  provider_ok I V p -> fresh_request req -> opcode req = TS_BLOCK_STORAGE_OPCODE_WRITE ->
  served p req (write_handler p req).
Proof.
  intros Hp Hfresh Hop. pose proof Hp as Hp0. unfold write_handler.
  open_handler_on p req Hop Hp Hfresh
    (fun m => WriteCall (u32 (uint_at m 0 8)) (uint_at m 8 8) (uint_at m 16 4)
                (slice m 20 (request_data_length req - 20))).
  rewrite load_is_slice by lia. cbn [mbind option_bind].
  set (data := slice m 20 (request_data_length req - 20)) in *.
  assert (len data = request_data_length req - 20) as Hlen by (apply slice_len; lia).
  rewrite <- Hlen.
  destruct (law_write (bs_context (bp_block_store p)) (source_id req) (u32 (uint_at m 0 8)) (uint_at m 8 8)
    (uint_at m 16 4) data (len data) 0 Hvok) as (st & w & c' & Hop' & Hcase);
    [apply u32_nonneg|apply uint_at_bound; lia..|lia|]. rewrite Hop'.
  pose proof (wire_write _ _ _ _ _ _ _ _ _ _ _ Hop'). cbn [mbind option_bind].
  destruct Hcase as [(-> & Hin & Hw & d' & Hst & Hupd)|(Hst & Hno & -> & Hext)].
  - change (PSA_SUCCESS =? PSA_SUCCESS) with true. cbv match.
    unfold serialize_write_resp. simpl buf_size. simpl buf_data. rewrite Hreg. cbn [mbind option_bind].
    destruct (encoded_results req m (le_split 8 (u64 w)) Hreg Hsz Hd0) as (status & resp & Henc & Hres).
    change (len (le_split 8 (u64 w))) with 8 in Henc. unfold put_uint.
    change (wrap (8 * Z.of_nat 8) w) with (u64 w). rewrite Henc. cbn [mbind option_bind].
    eapply results_served; [done|apply Hupd|done|done|]. intros req' Hr. by eapply step_write.
  - destruct (Z.eqb_spec st PSA_SUCCESS); [done|].
    eexists _, _, _. split; [done|]. split; [by apply provider_ok_set; [|apply Hext]|]. split; [|done].
    by eapply step_write_refused.
Qed.

Lemma storage_served p req sp :
  provider_ok I V p -> fresh_request req ->
  service_provider_init TS_BLOCK_STORAGE_SERVICE_UUID (handler_table uninitialised)
    (len (handler_table (C := C) uninitialised)) = Some sp ->
  served p req (receive sp p req).
Proof.
  intros Hp Hfresh Hinit.
  destruct (service_provider_init_ok TS_BLOCK_STORAGE_SERVICE_UUID (handler_table (C := C) uninitialised))
    as (sp' & Hi & Htab & Hh & Hs). rewrite Hinit in Hi. injection Hi as <-.
  rewrite receive_spec, Hh, Hs by done. unfold first_handler, handler_table. cbn [find_index h_opcode].
  rewrite !(Z.eqb_sym _ (opcode req)).
  destruct (Z.eqb_spec (opcode req) TS_BLOCK_STORAGE_OPCODE_GET_PARTITION_INFO) as [E|N0]; [by apply storage_info_handled|].
  destruct (Z.eqb_spec (opcode req) TS_BLOCK_STORAGE_OPCODE_OPEN) as [E|N1]; [by apply storage_open_handled|].
  destruct (Z.eqb_spec (opcode req) TS_BLOCK_STORAGE_OPCODE_CLOSE) as [E|N2]; [by apply storage_close_handled|].
  destruct (Z.eqb_spec (opcode req) TS_BLOCK_STORAGE_OPCODE_READ) as [E|N3]; [by apply storage_read_handled|].
  destruct (Z.eqb_spec (opcode req) TS_BLOCK_STORAGE_OPCODE_WRITE) as [E|N4]; [by apply storage_write_handled|].
  destruct (Z.eqb_spec (opcode req) TS_BLOCK_STORAGE_OPCODE_ERASE) as [E|N5]; [by apply storage_erase_handled|].
  eexists _, _, _. split; [done|]. split; [done|]. split; [|done]. apply step_malformed.
  unfold parse_call. by apply Z.eqb_neq in N0 as ->, N1 as ->, N2 as ->, N3 as ->, N4 as ->, N5 as ->.
Qed.


End Handlers.

(** ** Sessions *)

Inductive storage_session {C} (V : store_view C)
    : C -> list rpc_request -> list (Z * rpc_request) -> C -> Prop :=
  | storage_nil c : storage_session V c [] [] c
  | storage_cons c req status req' c1 reqs out c2 :
      storage_step V c req status req' c1 -> storage_session V c1 reqs out c2 ->
      storage_session V c (req :: reqs) ((status, req') :: out) c2.

Lemma provider_init_receive {C} uninitialised (context : block_storage_provider C) b p svc :
  block_storage_provider_init uninitialised (Some context) b = Some (Some (p, svc)) ->
  exists sp, service_provider_init TS_BLOCK_STORAGE_SERVICE_UUID (handler_table uninitialised)
    (len (handler_table (C := C) uninitialised)) = Some sp /\ svc = service_provider_get_rpc_interface sp /\
    p = BlockStorageProvider None b.
Proof.
  unfold block_storage_provider_init. destruct (service_provider_init _ _ _) as [sp|]; [|done].
  cbn [mbind option_bind]. intros [= <- <-]. by exists sp.
Qed.

Lemma storage_run {C} (I : block_store_interface C) (V : store_view C) `{!BlockStoreLaws I V}
    `{!WireStore I V} uninitialised context b p0 svc p reqs :
  block_storage_provider_init uninitialised (Some context) b = Some (Some (p0, svc)) ->
  provider_ok I V p -> Forall fresh_request reqs ->
  exists out p', service_run (svc_receive svc) p reqs = Some (out, p') /\ provider_ok I V p' /\
    storage_session V (store_context p) reqs out (store_context p').
Proof.
  intros (sp & Hsp & -> & _)%provider_init_receive Hp Hreqs. revert p Hp.
  induction Hreqs as [|req reqs Hreq _ IH]; intros p Hp.
  { eexists _, _. split; [done|]. split; [done|]. constructor. }
  destruct (storage_served I V uninitialised p req sp Hp Hreq Hsp)
    as (status & req' & p1 & Hr & Hp1 & Hstep & _).
  destruct (IH p1 Hp1) as (out & p2 & Hrun & Hp2 & Hses). cbn [service_run]. simpl svc_receive. rewrite Hr.
  cbn [mbind option_bind]. simpl svc_receive in Hrun. rewrite Hrun. eexists _, _. split; [done|].
  split; [done|]. by econstructor.
Qed.

(** ** Properties *)

(** C12: the block storage service gives every client the view of the store, and no
    more.  Over any store that keeps the block store laws, and whatever the requests
    contain, every sequence of requests by any senders is handled without a fault.
    Each request acts on behalf of its sender: reads return the bytes of one block
    from a legal position of a partition the sender has opened, clipped to the
    response buffer; writes and erases change just the blocks they name; a request
    for a handle the sender has no access to, or out of range, is refused and leaves
    every partition as it was; a malformed request changes nothing. *)
Theorem block_storage_service_refines {C} (I : block_store_interface C) (V : store_view C) uninitialised
    context b p svc reqs :
  BlockStoreLaws I V -> WireStore I V -> bs_interface b = Some I -> v_ok V (bs_context b) ->
  block_storage_provider_init uninitialised (Some context) b = Some (Some (p, svc)) ->
  Forall fresh_request reqs ->
  exists out p', service_run (svc_receive svc)
      (block_storage_provider_register_serializer p packedc_block_storage_serializer_instance) reqs
      = Some (out, p') /\
    v_ok V (store_context p') /\ storage_session V (bs_context b) reqs out (store_context p').
Proof.
  intros Hlaws Hwire Hi Hok Hinit Hreqs.
  destruct (provider_init_receive _ _ _ _ _ Hinit) as (sp & _ & _ & ->).
  destruct (storage_run I V uninitialised context b _ svc (block_storage_provider_register_serializer
    (BlockStorageProvider None b) packedc_block_storage_serializer_instance) reqs Hinit)
    as (out & p' & Hrun & Hp' & Hses); [done|done|].
  exists out, p'. split; [done|]. split; [apply Hp'|done].
Qed.

Lemma check_access_int32 d client h st :
  block_device_check_access_permitted d client h = Some st -> int32 st.
Proof.
  unfold block_device_check_access_permitted. destruct (negb _); [by intros [= <-]|].
  intros (permitted & _ & [= <-])%bind_Some. by destruct permitted.
Qed.

(** The status of an operation that checks access first is that of the check or a constant. *)
Ltac status_of_ram H :=
  apply bind_Some in H as (? & ?%check_access_int32 & H); cbn zeta in H;
  repeat match type of H with
  | (if ?b then _ else _) = _ => destruct b
  | (_ ≫= _) = _ => apply bind_Some in H as (? & _ & H)
  end; simplify_eq; done.

#[export] Instance ram_wire_store : WireStore ram_block_store_interface ram_view.
Proof.
  split.
  - intros r guid info0 info r' _ Hlen Hget. simpl in Hget.
    unfold ram_block_store_get_partition_info, block_device_get_partition_info,
      storage_partition_is_guid_matched, bytes_eqb in Hget.
    destruct (bool_decide _) eqn:E; [|done]. apply bool_decide_eq_true in E.
    injection Hget as <- _. simpl. split; [by rewrite E|done].
  - intros r client h [-> _]. done.
  - intros r guid info0 st info r' H. simpl in H.
    unfold ram_block_store_get_partition_info, block_device_get_partition_info in H.
    by destruct (storage_partition_is_guid_matched _ _); simplify_eq.
  - intros r client guid h0 st h r' H. simpl in H. unfold ram_block_store_open, block_device_open in H.
    apply bind_Some in H as ([[st1 h1] d1] & H & H1). simplify_eq.
    destruct (storage_partition_is_guid_matched _ _); [|by simplify_eq].
    apply bind_Some in H as ([[] q] & _ & H); by simplify_eq.
  - intros r client h st r' H. simpl in H. unfold ram_block_store_close, block_device_close in H.
    status_of_ram H.
  - intros r client h lba offset n buf dl st buf' dl' r' H. simpl in H. unfold ram_block_store_read in H.
    status_of_ram H.
  - intros r client h lba offset data n nw st nw' r' H. simpl in H. unfold ram_block_store_write in H.
    status_of_ram H.
  - intros r client h lba n st r' H. simpl in H. unfold ram_block_store_erase in H.
    apply bind_Some in H as (st0 & Hst0%check_access_int32 & H). cbn zeta in H.
    destruct ((st0 =? PSA_SUCCESS) && _);
      [change (PSA_ERROR_INVALID_ARGUMENT =? PSA_SUCCESS) with false in H;
       cbv match in H; by simplify_eq|].
    destruct (st0 =? PSA_SUCCESS); [|by simplify_eq].
    apply bind_Some in H as (? & _ & H). apply bind_Some in H as (? & _ & H). by simplify_eq.
Qed.

(** Two clients of a RAM store of 2 blocks of 4 bytes: the first opens it, writes and
    reads; the second is refused; a request with an unknown opcode. *)
Definition sample_storage_requests : list rpc_request :=
  let req src op n b := Request src 0 op 0 0 n 48 0 48 (Some (take 48 (b ++ fill 0 48))) in
  [req 9 TS_BLOCK_STORAGE_OPCODE_OPEN 16 (fill 7 16);
   req 9 TS_BLOCK_STORAGE_OPCODE_GET_PARTITION_INFO 16 (fill 7 16);
   req 9 TS_BLOCK_STORAGE_OPCODE_WRITE 23 (fill 0 8 ++ le_split 8 1 ++ le_split 4 2 ++ [5; 6; 8]);
   req 9 TS_BLOCK_STORAGE_OPCODE_READ 24 (fill 0 8 ++ le_split 8 1 ++ le_split 4 0 ++ le_split 4 90);
   req 8 TS_BLOCK_STORAGE_OPCODE_READ 24 (fill 0 8 ++ le_split 8 1 ++ le_split 4 0 ++ le_split 4 90);
   req 9 TS_BLOCK_STORAGE_OPCODE_READ 23 (fill 0 8 ++ le_split 8 1 ++ le_split 4 0 ++ le_split 4 90);
   req 9 99 0 []].

Lemma sample_storage_fresh : Forall fresh_request sample_storage_requests.
Proof. repeat (constructor; [by vm_compute|]). constructor. Qed.

Definition sample_ram : block_store ram_block_store :=
  match ram_block_store_init true (Some (fill 7 16)) 2 4 with
  | Some b => b
  | None => BlockStore (Ram (block_device_init None 0 0) None) None
  end.

Definition sample_storage : block_storage_provider ram_block_store * rpc_service_interface (block_storage_provider ram_block_store) :=
  match block_storage_provider_init (Info 0 0 [] []) (Some (BlockStorageProvider None sample_ram)) sample_ram with
  | Some (Some x) => x
  | _ => (BlockStorageProvider None sample_ram, Service [] (fun p req => None))
  end.

Example sample_storage_run :
  (fun '(out, _) => map (fun o => (fst o, service_status (snd o), response_data_length (snd o),
     take (Z.to_nat (response_data_length (snd o))) (default [] (region (snd o))))) out) <$>
  service_run (svc_receive (snd sample_storage))
    (block_storage_provider_register_serializer (fst sample_storage) packedc_block_storage_serializer_instance)
    sample_storage_requests
  = Some [(0, 0, 8, fill 0 8);
          (0, 0, 44, [2; 0; 0; 0; 0; 0; 0; 0; 4; 0; 0; 0] ++ fill 7 16 ++ fill 0 16);
          (0, 0, 8, [2; 0; 0; 0; 0; 0; 0; 0]); (0, 0, 4, [255; 255; 5; 6]);
          (0, PSA_ERROR_NOT_PERMITTED, 0, []); (RPC_ERROR_INVALID_REQUEST_BODY, 0, 0, []);
          (RPC_ERROR_INVALID_VALUE, 0, 0, [])].
Proof. vm_compute. reflexivity. Qed.

Lemma sample_ram_ok : bs_interface sample_ram = Some ram_block_store_interface /\
  v_ok ram_view (bs_context sample_ram).
Proof.
  split; [reflexivity|]. split; [apply acl_init_wf|]. repeat split; try done.
  eexists. split; [reflexivity|]. reflexivity.
Qed.

Lemma block_storage_service_refines_witness :
  exists out p', service_run (svc_receive (snd sample_storage))
      (block_storage_provider_register_serializer (fst sample_storage)
        packedc_block_storage_serializer_instance) sample_storage_requests = Some (out, p') /\
    v_ok ram_view (store_context p') /\
    storage_session ram_view (bs_context sample_ram) sample_storage_requests out (store_context p').
Proof.
  apply (block_storage_service_refines ram_block_store_interface ram_view (Info 0 0 [] [])
    (BlockStorageProvider None sample_ram) sample_ram (fst sample_storage) (snd sample_storage)
    sample_storage_requests).
  - exact ram_block_store_laws.
  - exact ram_wire_store.
  - apply sample_ram_ok.
  - apply sample_ram_ok.
  - reflexivity.
  - exact sample_storage_fresh.
Defined.
