(* ===== verification/BlockStorageClient.v ===== *)
(** * components/service/block_storage/block_store/client: a block store behind RPC

    block_storage_client.c implements the block store interface by calls to the
    block storage service over a client's RPC session.  A context is the client
    with the state [D] behind its caller.  Every operation is one transaction
    ([ServiceClient.transact]): the messages are packed little-endian structs. *)
From S2P Require Import Prelude Status StoragePartition BlockStore BlockDevice RpcService.
From S2P Require Import RpcEndpoint RpcCaller ServiceClient BlockStorageProvider.

(** struct block_storage_client: the base block store points back to it. *)
Record block_storage_client (D : Type) := BlockStorageClient { bc_client : service_client D }.
Arguments BlockStorageClient {D}.
Arguments bc_client {D}.

Section Client.
Context {D : Type}.
Abbreviation context := (block_storage_client D * D)%type.

Definition block_storage_client_get_partition_info (x : context) (partition_guid : bytes)
    (info : storage_partition_info) : option (Z * storage_partition_info * context) :=
  req_msg ← load partition_guid 0 16;
  '(psa_status, info, y, d) ←
    transact (bc_client (fst x)) (snd x) [req_msg] 16 44 TS_BLOCK_STORAGE_OPCODE_GET_PARTITION_INFO
      PSA_ERROR_GENERIC_ERROR info
      (fun resp_buf resp_len =>
         if resp_len >=? 44 then
           b ← resp_buf;
           num_blocks ← get_uint b 0 8;
           block_size ← get_uint b 8 4;
           guid ← load b 12 16;
           parent ← load b 28 16;
           Some (PSA_SUCCESS, Info num_blocks block_size guid parent)
         else Some (PSA_ERROR_GENERIC_ERROR, info));
  Some (psa_status, info, (BlockStorageClient y, d)).

Definition block_storage_client_open (x : context) (client_id : Z) (partition_guid : bytes) (handle : Z)
    : option (Z * Z * context) :=
  req_msg ← load partition_guid 0 16;
  '(psa_status, handle, y, d) ←
    transact (bc_client (fst x)) (snd x) [req_msg] 16 8 TS_BLOCK_STORAGE_OPCODE_OPEN
      PSA_ERROR_GENERIC_ERROR handle
      (fun resp_buf resp_len =>
         if resp_len >=? 8 then
           b ← resp_buf;
           h ← get_uint b 0 8;
           Some (PSA_SUCCESS, u32 h)
         else Some (PSA_ERROR_GENERIC_ERROR, handle));
  Some (psa_status, handle, (BlockStorageClient y, d)).

Definition block_storage_client_close (x : context) (client_id handle : Z) : option (Z * context) :=
  '(psa_status, _, y, d) ←
    transact (bc_client (fst x)) (snd x) [le_split 8 (u64 handle)] 8 0 TS_BLOCK_STORAGE_OPCODE_CLOSE
      PSA_ERROR_GENERIC_ERROR tt (fun _ _ => Some (PSA_SUCCESS, tt));
  Some (psa_status, (BlockStorageClient y, d)).

(** Returns the status, the buffer and *data_len. *)
Definition block_storage_client_read (x : context) (client_id handle lba offset buffer_size : Z)
    (buffer : bytes) (data_len : Z) : option (Z * bytes * Z * context) :=
  let req_msg := le_split 8 (u64 handle) ++ le_split 8 (u64 lba) ++ le_split 4 (u32 offset) ++
                 le_split 4 (u32 buffer_size) in
  '(psa_status, (buffer, data_len), y, d) ←
    transact (bc_client (fst x)) (snd x) [req_msg] 24 buffer_size TS_BLOCK_STORAGE_OPCODE_READ
      PSA_ERROR_GENERIC_ERROR (buffer, 0)
      (fun resp_buf resp_len =>
         if resp_len <=? buffer_size then
           (* memcpy of no bytes reads nothing *)
           m ← (if resp_len =? 0 then Some [] else b ← resp_buf; load b 0 resp_len);
           buffer ← store buffer 0 m;
           Some (PSA_SUCCESS, (buffer, resp_len))
         else Some (PSA_ERROR_BUFFER_TOO_SMALL, (buffer, 0)));
  Some (psa_status, buffer, data_len, (BlockStorageClient y, d)).

(** Returns the status and *num_written. *)
Definition block_storage_client_write (x : context) (client_id handle lba offset : Z) (data : bytes)
    (data_len num_written : Z) : option (Z * Z * context) :=
  let req_msg := le_split 8 (u64 handle) ++ le_split 8 (u64 lba) ++ le_split 4 (u32 offset) in
  data ← load data 0 data_len;
  '(psa_status, num_written, y, d) ←
    transact (bc_client (fst x)) (snd x) [req_msg; data] (u64 (20 + data_len)) 8
      TS_BLOCK_STORAGE_OPCODE_WRITE PSA_ERROR_GENERIC_ERROR num_written
      (fun resp_buf resp_len =>
         if resp_len >=? 8 then
           b ← resp_buf;
           n ← get_uint b 0 8;
           Some (PSA_SUCCESS, n)
         else Some (PSA_ERROR_GENERIC_ERROR, num_written));
  Some (psa_status, num_written, (BlockStorageClient y, d)).

Definition block_storage_client_erase (x : context) (client_id handle begin_lba num_blocks : Z)
    : option (Z * context) :=
  let req_msg := le_split 8 (u64 handle) ++ le_split 8 (u64 begin_lba) ++ le_split 4 (u32 num_blocks) in
  '(psa_status, _, y, d) ←
    transact (bc_client (fst x)) (snd x) [req_msg] 20 0 TS_BLOCK_STORAGE_OPCODE_ERASE
      PSA_ERROR_GENERIC_ERROR tt (fun _ _ => Some (PSA_SUCCESS, tt));
  Some (psa_status, (BlockStorageClient y, d)).

Definition block_storage_client_interface : block_store_interface context :=
  Interface block_storage_client_get_partition_info block_storage_client_open
    block_storage_client_close block_storage_client_read block_storage_client_write
    block_storage_client_erase.

(** The out-parameter of service_client_init is unchanged where there is no session. *)
Definition block_storage_client_init (x : block_storage_client D) (s : option (rpc_caller_session D))
    : block_storage_client D :=
  let '(_, y) := service_client_init (Some (bc_client x)) s in
  match y with Some y => BlockStorageClient y | None => x end.

Definition block_storage_client_deinit (x : block_storage_client D) : block_storage_client D :=
  BlockStorageClient (service_client_deinit (bc_client x)).

End Client.

(** ** The client over the direct caller to a block storage provider *)

(** The requests a session of capacity [cap] can carry without truncation. *)
Definition remote_request_ok (cap : Z) (r : request) : Prop :=
  match r with
  | Read lba offset n => fits 64 lba /\ fits 32 offset /\ 0 <= n <= cap
  | Write lba offset data => fits 64 lba /\ fits 32 offset /\ 20 + len data <= cap
  | Erase lba n => fits 64 lba /\ fits 32 n
  end.

(** The fields every request on a handle starts with. *)
Lemma storage_header_fields b n h lba offset tail :
  slice b 0 n = le_split 8 (u64 h) ++ le_split 8 (u64 lba) ++ le_split 4 (u32 offset) ++ tail ->
  n <= len b -> n = 20 + len tail -> fits 32 h -> fits 64 lba -> fits 32 offset ->
  u32 (uint_at b 0 8) = h /\ uint_at b 8 8 = lba /\ uint_at b 16 4 = offset /\ slice b 20 (len tail) = tail.
Proof.
  unfold fits. intros Hs Hn Hlen Hh Hl Ho. rewrite !(wrap_small 64), (wrap_small 32) in Hs by lia.
  apply uint_front in Hs as [H0 Hs]; [|lia|lia|rewrite !len_app, !len_le_split; lia|lia].
  apply uint_front in Hs as [H1 Hs]; [|lia|rewrite !len_app, !len_le_split; lia|
    rewrite !len_app, !len_le_split; lia|lia].
  apply uint_front in Hs as [H2 Hs]; [|lia|rewrite !len_app, !len_le_split; lia|
    rewrite !len_app, !len_le_split; lia|lia].
  change (Z.of_nat 8) with 8 in *. change (Z.of_nat 4) with 4 in *. change (0 + 8) with 8 in *.
  change (8 + 8) with 16 in *. change (16 + 4) with 20 in *.
  rewrite H0. split; [by apply wrap_small|]. done.
Qed.

(** ** The steps a given call can make *)

Section Steps.
Context {C : Type} (V : store_view C).
Implicit Types (d : C) (req : rpc_request).

Ltac invert_step :=
  intros [] ?;
  match goal with H1 : parse_call _ = _, H2 : parse_call _ = _ |- _ => rewrite H1 in H2; simplify_eq end;
  eauto 12.

Lemma step_read_inv d req status req' d' h lba offset n :
  storage_step V d req status req' d' -> parse_call req = ReadCall h lba offset n ->
  status = RPC_SUCCESS /\ view_ext V d d' /\
  ((exists m x m', in_range V d (source_id req) h lba offset /\ region req = Some m /\
      load (v_data V d h) (lba * v_bsize V d h + offset)
        (Z.min (Z.min n (response_size req)) (v_bsize V d h - offset)) = Some x /\
      store m 0 x = Some m' /\ req' = set_response req PSA_SUCCESS (len x) (Some m')) \/
   (exists st, ~ in_range V d (source_id req) h lba offset /\ st <> PSA_SUCCESS /\ int32 st /\
      req' = put_status req st)).
Proof using. invert_step. Qed.

Lemma step_write_inv d req status req' d' h lba offset data :
  storage_step V d req status req' d' -> parse_call req = WriteCall h lba offset data ->
  (exists w x, in_range V d (source_id req) h lba offset /\
     w = Z.min (len data) (v_bsize V d h - offset) /\
     store (v_data V d h) (lba * v_bsize V d h + offset) (take (Z.to_nat w) data) = Some x /\
     view_upd V d h x d' /\ results req PSA_SUCCESS (le_split 8 (u64 w)) status req') \/
  (exists st, view_ext V d d' /\ ~ in_range V d (source_id req) h lba offset /\
     st <> PSA_SUCCESS /\ int32 st /\ status = RPC_SUCCESS /\ req' = put_status req st).
Proof using. invert_step. Qed.

Lemma step_erase_inv d req status req' d' h lba n :
  storage_step V d req status req' d' -> parse_call req = EraseCall h lba n ->
  status = RPC_SUCCESS /\ exists st, int32 st /\ req' = put_status req st /\
  ((st = PSA_SUCCESS /\ v_access V d (source_id req) h /\ lba < v_nblocks V d h /\
    exists e x, len e = Z.min n (v_nblocks V d h - lba) * v_bsize V d h /\
      store (v_data V d h) (lba * v_bsize V d h) e = Some x /\ view_upd V d h x d') \/
   (st <> PSA_SUCCESS /\ view_ext V d d' /\
    ~ (v_access V d (source_id req) h /\ lba < v_nblocks V d h))).
Proof using.
  invert_step. split; [done|]. exists PSA_SUCCESS. split; [done|]. split; [done|]. left. eauto 10.
Qed.

Lemma step_open_inv d req status req' d' guid :
  storage_step V d req status req' d' -> parse_call req = OpenCall guid ->
  view_ext V d d' /\ exists st h, int32 st /\ results req st (le_split 8 (u64 h)) status req' /\
  (st = PSA_SUCCESS -> v_access V d' (source_id req) h /\ 0 <= h /\
     forall nb bs, v_described V d guid nb bs -> v_nblocks V d' h = nb /\ v_bsize V d' h = bs).
Proof using. invert_step. Qed.

Lemma step_close_inv d req status req' d' h :
  storage_step V d req status req' d' -> parse_call req = CloseCall h ->
  view_ext V d d' /\ exists st, int32 st /\ results req st [] status req' /\
  (st = PSA_SUCCESS <-> v_access V d (source_id req) h).
Proof using. invert_step. Qed.

Lemma step_info_inv d req status req' d' guid :
  storage_step V d req status req' d' -> parse_call req = InfoCall guid ->
  view_ext V d d' /\ exists st info, int32 st /\ results req st (info_bytes info) status req' /\
  (st = PSA_SUCCESS -> v_described V d' guid (info_num_blocks info) (info_block_size info) /\
     len (info_bytes info) = 44).
Proof using. invert_step. Qed.

Lemma int32_s32 st : int32 st -> s32 st = st.
Proof using. intros. by apply swrap_small. Qed.

Lemma results_room req b st body status req' :
  region req = Some b -> results req st body status req' -> len body <= response_size req ->
  status = RPC_SUCCESS /\ service_status req' = st /\
  (st = PSA_SUCCESS -> exists b', region req' = Some b' /\ response_data_length req' = len body /\
     slice b' 0 (len body) = body).
Proof using.
  intros Hreg (m' & Hm' & _ & Hr) Hlen. pose proof (len_nonneg body).
  change (len (@nil Z)) with 0 in Hr.
  destruct (Z.eqb_spec st PSA_SUCCESS) as [->|Hst].
  - destruct (Z.leb_spec (0 + len body) (response_size req)); [|lia].
    destruct Hr as (-> & -> & Hd & Hs). do 2 (split; [done|]). intros _. by exists m'.
  - change (len (@nil Z)) with 0 in Hr. destruct (Z.leb_spec (0 + 0) (response_size req)); [|lia].
    destruct Hr as (-> & -> & _). done.
Qed.

(** The response of a successful operation, as the client decodes it. *)
Lemma results_decoded {A} req b st body status req' b' k failed (a : A) decode :
  results req st body status req' -> region req = Some b -> response_size req = len b -> int32 st ->
  len body = k -> k <= len b -> region req' = Some b' -> len b' = len b ->
  (if status =? RPC_SUCCESS then
     if s32 (service_status req') =? 0 then
       if response_data_length req' >? len b then decode None 0
       else decode (Some b') (response_data_length req')
     else Some (s32 (service_status req'), a)
   else Some (failed, a))
  = (if st =? PSA_SUCCESS then decode (Some b') k else Some (st, a)) /\
  (st = PSA_SUCCESS -> slice b' 0 k = body).
Proof using.
  intros Hres Hreg Hsz Hint <- Hk Hb' Hlb.
  apply (results_room _ b) in Hres as (-> & -> & Hok); [|done|lia].
  change (RPC_SUCCESS =? RPC_SUCCESS) with true. cbv match. rewrite int32_s32 by done.
  change PSA_SUCCESS with 0 in *. destruct (Z.eqb_spec st 0) as [->|]; [|done].
  destruct (Hok eq_refl) as (b1 & Hb1 & Hdl & Hs). rewrite Hb' in Hb1. injection Hb1 as <-.
  rewrite Hdl. destruct (Z.gtb_spec (len body) (len b)); [lia|]. done.
Qed.

End Steps.

Section EndToEnd.
Context {C : Type} (I : block_store_interface C) (V : store_view C) {Hlaws : BlockStoreLaws I V}.
Context {Hwire : WireStore I V} (uninitialised : storage_partition_info).
Context (sp : service_provider (block_storage_provider C))
  (Hsp : service_provider_init TS_BLOCK_STORAGE_SERVICE_UUID (handler_table uninitialised)
           (len (handler_table (C := C) uninitialised)) = Some sp).
Context (calloc_ok : Z -> bool) (Hcalloc : forall n, calloc_ok n = true) (id : Z).

Abbreviation state := (direct_state (block_storage_provider C)).
Abbreviation storage_service := (service_provider_get_rpc_interface sp).
Abbreviation idle := (ServiceClient.idle calloc_ok storage_service id (provider_ok I V)).
Implicit Types (s : rpc_caller_session state) (c : state) (x : block_storage_client state).

Lemma storage_receive_ok : service_ok (provider_ok I V) (receive sp).
Proof using Hsp Hlaws Hwire.
  intros p req Hp Hreq.
  destruct (storage_served I V uninitialised p req sp Hp Hreq Hsp) as (status & req' & p' & Hr & Hok & _ & Hl).
  by exists status, req', p'.
Qed.

(** A transaction with the provider: the step of the store it makes. *)
Lemma storage_transact {A} base cap (y : service_client state) s c p parts req_len resp_max op failed (a : A) decode :
  session y = Some s -> idle base cap s c p -> req_len = len (concat parts) -> 0 <= resp_max ->
  0 < Z.max req_len resp_max <= cap -> 0 <= op < 2 ^ 16 ->
  exists b status req' p' b' y' s' c',
    let req := Request id 0 op 0 0 req_len (len b) 0 (len b) (Some b) in
    Z.max req_len resp_max <= len b /\ slice b 0 req_len = concat parts /\
    storage_step V (store_context p) req status req' (store_context p') /\
    region req' = Some b' /\ len b' = len b /\
    session y' = Some s' /\ idle base cap s' c' p' /\
    transact y c parts req_len resp_max op failed a decode =
      ('(st, a) ←
         (if status =? RPC_SUCCESS then
            if s32 (service_status req') =? 0 then
              if response_data_length req' >? len b then decode None 0
              else decode (Some b') (response_data_length req')
            else Some (s32 (service_status req'), a)
          else Some (failed, a));
       Some (st, a, y', c')).
Proof using Hsp Hlaws Hwire Hcalloc.
  intros Hs Hidle Hlen Hrm Hmax Hop.
  destruct (transact_ok calloc_ok Hcalloc storage_service id (provider_ok I V) storage_receive_ok
    base cap y s c p parts req_len resp_max op failed a decode Hs Hidle Hlen Hrm Hmax Hop)
    as (b & status & req' & p' & b' & y' & s' & c' & Hb & Hsl & Hfresh & Hp & Hr & Hb' & Hlb & Hs' & Hi' & Heq).
  destruct (storage_served I V uninitialised p _ sp Hp Hfresh Hsp) as (st1 & r1 & p1 & Hr1 & _ & Hstep & _).
  simpl in Hr. rewrite Hr in Hr1. injection Hr1 as <- <- <-.
  exists b, status, req', p', b', y', s', c'. done.
Qed.

(** After an operation: the session is idle again, and [P] relates the stores. *)
Definition remote {A} base cap (p : block_storage_provider C) (r : option (A * (block_storage_client state * state)))
    (P : A -> C -> Prop) : Prop :=
  exists a x' s' c' p', r = Some (a, (x', c')) /\ session (bc_client x') = Some s' /\
    idle base cap s' c' p' /\ P a (store_context p').

Definition session_step base cap p h client x c r : Prop :=
  let d := store_context p in
  remote base cap p (run_request block_storage_client_interface client h (x, c) r)
    (fun reply d' => keeps V id h d d' /\
       spec_step (v_nblocks V d h) (v_bsize V d h) (v_data V d h) r reply (v_data V d' h)).

Lemma guid_loaded guid : len guid = 16 -> load guid 0 16 = Some guid.
Proof using. intros <-. apply load_all. Qed.

Lemma idle_ok base cap s c p : idle base cap s c p -> v_ok V (store_context p).
Proof using. intros ((_ & (_ & _ & Hok) & _) & _ & <- & _). done. Qed.

Lemma remote_read base cap client h x s c p lba offset n :
  session (bc_client x) = Some s -> idle base cap s c p -> v_access V (store_context p) id h ->
  fits 32 h -> 44 <= cap -> remote_request_ok cap (Read lba offset n) ->
  session_step base cap p h client x c (Read lba offset n).
Proof using Hsp Hlaws Hwire Hcalloc.
  intros Hs Hidle Ha Hh Hcap (Hl & Ho & Hn). pose proof (capacity_bound _ _ _ _ _ _ _ _ _ Hidle) as Hc.
  unfold session_step, remote. cbn [run_request read block_storage_client_interface].
  unfold block_storage_client_read. simpl fst. simpl snd.
  match goal with |- context [transact _ _ [?m] _ _ _ _ ?a ?dec] => set (msg := m); set (decode := dec) end.
  assert (24 = len (concat [msg])) as Hmsg.
  { subst msg. cbn [concat]. rewrite app_nil_r, !len_app, !len_le_split. done. }
  destruct (storage_transact base cap (bc_client x) s c p [msg] 24 n TS_BLOCK_STORAGE_OPCODE_READ
    PSA_ERROR_GENERIC_ERROR (fill 0 n, 0) decode Hs Hidle Hmsg)
    as (b & status & req' & p' & b' & y & s' & c' & Hb & Hsl & Hstep & Hb' & Hlb & Hs' & Hi' & ->);
    [lia|lia|done|].
  cbn [concat] in Hsl. rewrite app_nil_r in Hsl. subst msg.
  apply storage_header_fields in Hsl as (H0 & H8 & H16 & H20); [|lia|by rewrite len_le_split|done..].
  assert (uint_at b 20 4 = n) as Hn4.
  { rewrite len_le_split in H20. unfold uint_at. change (Z.of_nat 4) with 4 in H20.
    rewrite H20, le_combine_split, !wrap_idem by lia. apply wrap_small. lia. }
  assert (parse_call (Request id 0 TS_BLOCK_STORAGE_OPCODE_READ 0 0 24 (len b) 0 (len b) (Some b))
    = ReadCall h lba offset n) as Hparse by (unfold parse_call; simpl; congruence).
  destruct (step_read_inv _ _ _ _ _ _ _ _ _ _ Hstep Hparse) as (-> & Hext & Hcase).
  destruct (ext_keeps V id h _ _ Ha Hext) as [Hk Hd].
  destruct Hcase as [(m & d & m' & (_ & Hr1 & Hr2) & [= <-] & Hload & Hst & ->)|(st & Hnr & Hst & Hint & ->)].
  - simpl in Hb'. injection Hb' as <-. simpl in Hload.
    replace (Z.min n (len b)) with n in Hload by lia.
    pose proof (load_len _ _ _ _ Hload) as Hld. pose proof (len_nonneg d).
    simpl. destruct (Z.gtb_spec (len d) (len b)); [lia|]. subst decode. cbv beta.
    destruct (Z.leb_spec (len d) n); [|lia].
    assert ((if len d =? 0 then Some [] else load m' 0 (len d)) = Some d) as Hm.
    { rewrite (load_store_same _ _ _ _ Hst). destruct (Z.eqb_spec (len d) 0); [|done].
      by destruct d; [|len_lia]. }
    cbn [mbind option_bind]. rewrite Hm. cbn [mbind option_bind].
    destruct (store_ok (fill 0 n) 0 d) as [buf Hbuf]; [lia|rewrite len_fill; lia|]. rewrite Hbuf.
    cbn [mbind option_bind]. simpl (PSA_SUCCESS =? PSA_SUCCESS). cbv match.
    rewrite (load_store_same _ _ _ _ Hbuf). cbn [mbind option_bind].
    eexists _, _, _, _, _. split; [done|]. split; [done|]. split; [done|]. split; [done|].
    rewrite Hd. by apply spec_read.
  - rewrite int32_s32 by done. simpl. destruct (Z.eqb_spec st 0); [done|]. simpl.
    destruct (Z.eqb_spec st PSA_SUCCESS); [done|]. simpl.
    eexists _, _, _, _, _. split; [done|]. split; [done|]. split; [done|]. split; [done|].
    rewrite Hd. apply spec_read_refused. intros [??]. by apply Hnr.
Qed.

Lemma remote_write base cap client h x s c p lba offset data :
  session (bc_client x) = Some s -> idle base cap s c p -> v_access V (store_context p) id h ->
  fits 32 h -> 44 <= cap -> remote_request_ok cap (Write lba offset data) ->
  session_step base cap p h client x c (Write lba offset data).
Proof using Hsp Hlaws Hwire Hcalloc.
  intros Hs Hidle Ha Hh Hcap (Hl & Ho & Hn). pose proof (capacity_bound _ _ _ _ _ _ _ _ _ Hidle) as Hc.
  pose proof (len_nonneg data) as Hdl.
  unfold session_step, remote. cbn [run_request write block_storage_client_interface].
  unfold block_storage_client_write. simpl fst. simpl snd.
  rewrite load_is_slice, slice_all by lia. cbn [mbind option_bind]. rewrite (wrap_small 64 (20 + len data)) by lia.
  match goal with |- context [transact _ _ [?m; _] _ _ _ _ ?a ?dec] => set (msg := m); set (decode := dec) end.
  assert (20 + len data = len (concat [msg; data])) as Hmsg.
  { subst msg. cbn [concat]. rewrite app_nil_r, !len_app, !len_le_split. lia. }
  destruct (storage_transact base cap (bc_client x) s c p [msg; data] (20 + len data) 8
    TS_BLOCK_STORAGE_OPCODE_WRITE PSA_ERROR_GENERIC_ERROR 0 decode Hs Hidle Hmsg)
    as (b & status & req' & p' & b' & y & s' & c' & Hb & Hsl & Hstep & Hb' & Hlb & Hs' & Hi' & ->);
    [lia|lia|done|].
  cbn [concat] in Hsl. rewrite app_nil_r in Hsl. subst msg. rewrite <- !app_assoc in Hsl.
  apply storage_header_fields in Hsl as (H0 & H8 & H16 & H20); [|lia|done..].
  assert (parse_call (Request id 0 TS_BLOCK_STORAGE_OPCODE_WRITE 0 0 (20 + len data) (len b) 0 (len b) (Some b))
    = WriteCall h lba offset data) as Hparse.
  { unfold parse_call. cbn [opcode request_data_length region default]. simpl Z.eqb. cbv match.
    destruct (Z.ltb_spec (20 + len data) 20); [lia|].
    replace (20 + len data - 20) with (len data) by lia. simpl. congruence. }
  destruct (step_write_inv _ _ _ _ _ _ _ _ _ _ Hstep Hparse) as
    [(w & d & (_ & Hr1 & Hr2) & Hw & Hst & Hupd & Hres)|(st & Hext & Hnr & Hst & Hint & -> & ->)].
  - destruct (upd_keeps V id h _ _ _ Ha Hupd) as [Hk Hd].
    destruct (law_geometry (store_context p) id h) as (_ & Hbs & _); [by eapply idle_ok|done|].
    destruct (results_decoded _ b _ _ _ _ b' 8 PSA_ERROR_GENERIC_ERROR 0 decode Hres eq_refl eq_refl)
      as [-> Hsl1]; [done|by rewrite len_le_split|lia|done|done|]. specialize (Hsl1 eq_refl).
    change (PSA_SUCCESS =? PSA_SUCCESS) with true. cbv match. subst decode. cbv beta.
    change (8 >=? 8) with true. cbn [mbind option_bind].
    rewrite get_uint_ok by lia. unfold uint_at.
    rewrite Hsl1, le_combine_split, !wrap_idem, (wrap_small _ w) by (unfold fits in *; lia). simpl.
    eexists _, _, _, _, _. split; [done|]. split; [done|]. split; [done|]. split; [done|].
    rewrite Hd. by eapply spec_write.
  - destruct (ext_keeps V id h _ _ Ha Hext) as [Hk Hd].
    simpl. rewrite int32_s32 by done. simpl. destruct (Z.eqb_spec st 0); [done|]. simpl.
    destruct (Z.eqb_spec st PSA_SUCCESS); [done|]. simpl.
    eexists _, _, _, _, _. split; [done|]. split; [done|]. split; [done|]. split; [done|].
    rewrite Hd. apply spec_write_refused. intros [??]. by apply Hnr.
Qed.

Lemma remote_erase base cap client h x s c p lba n :
  session (bc_client x) = Some s -> idle base cap s c p -> v_access V (store_context p) id h ->
  fits 32 h -> 44 <= cap -> remote_request_ok cap (Erase lba n) ->
  session_step base cap p h client x c (Erase lba n).
Proof using Hsp Hlaws Hwire Hcalloc.
  intros Hs Hidle Ha Hh Hcap (Hl & Hn). pose proof (capacity_bound _ _ _ _ _ _ _ _ _ Hidle) as Hc.
  unfold session_step, remote. cbn [run_request erase block_storage_client_interface].
  unfold block_storage_client_erase. simpl fst. simpl snd.
  match goal with |- context [transact _ _ [?m] _ _ _ _ ?a ?dec] => set (msg := m); set (decode := dec) end.
  assert (20 = len (concat [msg])) as Hmsg.
  { subst msg. cbn [concat]. rewrite app_nil_r, !len_app, !len_le_split. done. }
  destruct (storage_transact base cap (bc_client x) s c p [msg] 20 0
    TS_BLOCK_STORAGE_OPCODE_ERASE PSA_ERROR_GENERIC_ERROR tt decode Hs Hidle Hmsg)
    as (b & status & req' & p' & b' & y & s' & c' & Hb & Hsl & Hstep & Hb' & Hlb & Hs' & Hi' & ->);
    [lia|lia|done|].
  cbn [concat] in Hsl. subst msg. rewrite <- !app_assoc in Hsl.
  apply storage_header_fields in Hsl as (H0 & H8 & H16 & H20); [|lia|done..].
  assert (parse_call (Request id 0 TS_BLOCK_STORAGE_OPCODE_ERASE 0 0 20 (len b) 0 (len b) (Some b))
    = EraseCall h lba n) as Hparse by (unfold parse_call; simpl; congruence).
  destruct (step_erase_inv _ _ _ _ _ _ _ _ _ Hstep Hparse) as (-> & st & Hint & -> & Hcase).
  simpl. rewrite int32_s32 by done.
  destruct Hcase as [(-> & _ & Hr1 & e & d & He & Hst & Hupd)|(Hst & Hext & Hnr)].
  - destruct (upd_keeps V id h _ _ _ Ha Hupd) as [Hk Hd]. simpl.
    destruct (Z.gtb_spec 0 (len b)); [lia|]. subst decode. simpl.
    eexists _, _, _, _, _. split; [done|]. split; [done|]. split; [done|]. split; [done|].
    rewrite Hd. by eapply spec_erase.
  - destruct (ext_keeps V id h _ _ Ha Hext) as [Hk Hd].
    destruct (Z.eqb_spec st 0); [done|]. simpl.
    destruct (Z.eqb_spec st PSA_SUCCESS); [done|].
    eexists _, _, _, _, _. split; [done|]. split; [done|]. split; [done|]. split; [done|].
    rewrite Hd. apply spec_erase_refused. intros ?. by apply Hnr.
Qed.


Lemma remote_open base cap client guid h0 x s c p :
  session (bc_client x) = Some s -> idle base cap s c p -> 44 <= cap -> len guid = 16 ->
  let d := store_context p in
  remote base cap p (block_storage_client_open (x, c) client guid h0)
    (fun '(st, h) d' => view_ext V d d' /\
       (st = PSA_SUCCESS -> v_access V d' id h /\ fits 32 h /\
          forall nb bs, v_described V d guid nb bs -> v_nblocks V d' h = nb /\ v_bsize V d' h = bs)).
Proof using Hsp Hlaws Hwire Hcalloc.
  intros Hs Hidle Hcap Hguid d. unfold remote, block_storage_client_open. simpl fst. simpl snd.
  rewrite (guid_loaded guid Hguid). cbn [mbind option_bind].
  match goal with |- context [transact _ _ _ _ _ _ _ ?a ?dec] => set (decode := dec) end.
  assert (16 = len (concat [guid])) as Hmsg by (cbn [concat]; by rewrite app_nil_r).
  destruct (storage_transact base cap (bc_client x) s c p [guid] 16 8 TS_BLOCK_STORAGE_OPCODE_OPEN
    PSA_ERROR_GENERIC_ERROR h0 decode Hs Hidle Hmsg)
    as (b & status & req' & p' & b' & y & s' & c' & Hb & Hsl & Hstep & Hb' & Hlb & Hs' & Hi' & ->);
    [lia|lia|done|].
  cbn [concat] in Hsl. rewrite app_nil_r in Hsl.
  destruct (step_open_inv _ _ _ _ _ _ guid Hstep) as (Hext & st & h & Hint & Hres & Hok);
    [unfold parse_call; simpl; congruence|].
  destruct (results_decoded _ b _ _ _ _ b' 8 PSA_ERROR_GENERIC_ERROR h0 decode Hres eq_refl eq_refl)
    as [-> Hsl1]; [done|by rewrite len_le_split|lia|done|done|].
  destruct (Z.eqb_spec st PSA_SUCCESS) as [->|Hst].
  - destruct (Hok eq_refl) as (Ha & Hh0 & Hdesc). pose proof (wire_handle _ _ _ Ha).
    subst decode. cbv beta. change (8 >=? 8) with true. cbn [mbind option_bind].
    rewrite get_uint_ok by lia. unfold uint_at.
    rewrite (Hsl1 eq_refl), le_combine_split. change (8 * Z.of_nat 8) with 64. change (8 * 8) with 64.
    rewrite !wrap_idem by lia.
    rewrite (wrap_small 64) by lia. cbn [mbind option_bind]. rewrite (wrap_small 32) by lia.
    eexists (_, _), _, _, _, _. do 3 (split; [done|]). split; [done|]. done.
  - cbn [mbind option_bind]. eexists (_, _), _, _, _, _. by do 4 (split; [done|]).
Qed.

Lemma remote_close base cap client h x s c p :
  session (bc_client x) = Some s -> idle base cap s c p -> 44 <= cap -> fits 32 h ->
  let d := store_context p in
  remote base cap p (block_storage_client_close (x, c) client h)
    (fun st d' => view_ext V d d' /\ (st = PSA_SUCCESS <-> v_access V d id h)).
Proof using Hsp Hlaws Hwire Hcalloc.
  intros Hs Hidle Hcap Hh d. unfold remote, block_storage_client_close. simpl fst. simpl snd.
  match goal with |- context [transact _ _ _ _ _ _ _ ?a ?dec] => set (decode := dec) end.
  assert (8 = len (concat [le_split 8 (u64 h)])) as Hmsg.
  { cbn [concat]. by rewrite app_nil_r, len_le_split. }
  destruct (storage_transact base cap (bc_client x) s c p [le_split 8 (u64 h)] 8 0
    TS_BLOCK_STORAGE_OPCODE_CLOSE PSA_ERROR_GENERIC_ERROR tt decode Hs Hidle Hmsg)
    as (b & status & req' & p' & b' & y & s' & c' & Hb & Hsl & Hstep & Hb' & Hlb & Hs' & Hi' & ->);
    [lia|lia|done|].
  cbn [concat] in Hsl. unfold fits in Hh.
  apply uint_front in Hsl as [H0 _]; [|lia..|done|apply wrap_fits; lia].
  destruct (step_close_inv _ _ _ _ _ _ h Hstep) as (Hext & st & Hint & Hres & Hok).
  { unfold parse_call. simpl. change (Z.of_nat 8) with 8 in H0. rewrite H0.
    by rewrite (wrap_small 64), (wrap_small 32) by lia. }
  destruct (results_decoded _ b _ _ _ _ b' 0 PSA_ERROR_GENERIC_ERROR tt decode Hres eq_refl eq_refl)
    as [-> _]; [done|done|lia|done|done|].
  destruct (Z.eqb_spec st PSA_SUCCESS) as [->|Hst]; cbn [mbind option_bind];
    eexists _, _, _, _, _; by do 4 (split; [done|]).
Qed.


Lemma remote_info base cap guid info0 x s c p :
  session (bc_client x) = Some s -> idle base cap s c p -> 44 <= cap -> len guid = 16 ->
  let d := store_context p in
  remote base cap p (block_storage_client_get_partition_info (x, c) guid info0)
    (fun '(st, info) d' => view_ext V d d' /\
       (st = PSA_SUCCESS -> exists nb bs, v_described V d' guid nb bs /\
          info_num_blocks info = u64 nb /\ info_block_size info = u32 bs)).
Proof using Hsp Hlaws Hwire Hcalloc.
  intros Hs Hidle Hcap Hguid d. unfold remote, block_storage_client_get_partition_info. simpl fst. simpl snd.
  rewrite (guid_loaded guid Hguid). cbn [mbind option_bind].
  match goal with |- context [transact _ _ _ _ _ _ _ ?a ?dec] => set (decode := dec) end.
  assert (16 = len (concat [guid])) as Hmsg by (cbn [concat]; by rewrite app_nil_r).
  destruct (storage_transact base cap (bc_client x) s c p [guid] 16 44
    TS_BLOCK_STORAGE_OPCODE_GET_PARTITION_INFO PSA_ERROR_GENERIC_ERROR info0 decode Hs Hidle Hmsg)
    as (b & status & req' & p' & b' & y & s' & c' & Hb & Hsl & Hstep & Hb' & Hlb & Hs' & Hi' & ->);
    [lia|lia|done|].
  cbn [concat] in Hsl. rewrite app_nil_r in Hsl.
  destruct (step_info_inv _ _ _ _ _ _ guid Hstep) as (Hext & st & info & Hint & Hres & Hok);
    [unfold parse_call; simpl; congruence|].
  destruct (Z.eqb_spec st PSA_SUCCESS) as [->|Hst].
  - destruct (Hok eq_refl) as [Hdesc Hl]. pose proof Hl as Hl'.
    unfold info_bytes in Hl'. rewrite !len_app, !len_le_split in Hl'.
    destruct (results_decoded _ b _ _ _ _ b' 44 PSA_ERROR_GENERIC_ERROR info0 decode Hres eq_refl eq_refl)
      as [-> Hsl1]; [done|done|lia|done|done|].
    specialize (Hsl1 eq_refl). unfold info_bytes in Hsl1.
    apply uint_front in Hsl1 as [H0 Hsl1]; [|lia..|rewrite !len_app, len_le_split; lia|apply wrap_fits; lia].
    apply uint_front in Hsl1 as [H8 _];
      [|lia|rewrite !len_app, len_le_split; lia|rewrite !len_app, len_le_split; lia|apply wrap_fits; lia].
    change (Z.of_nat 8) with 8 in *. change (Z.of_nat 4) with 4 in *. change (0 + 8) with 8 in *.
    change (PSA_SUCCESS =? PSA_SUCCESS) with true. cbv match. subst decode. cbv beta.
    change (44 >=? 44) with true. cbn [mbind option_bind].
    rewrite !get_uint_ok, !load_is_slice, H0, H8 by lia. cbn [mbind option_bind].
    eexists (_, _), _, _, _, _. do 3 (split; [done|]). split; [done|]. intros _.
    eexists _, _. split; [exact Hdesc|]. done.
  - assert (results (Request id 0 TS_BLOCK_STORAGE_OPCODE_GET_PARTITION_INFO 0 0 16 (len b) 0 (len b) (Some b))
      st [] status req') as Hres0.
    { revert Hres. unfold results. by destruct (Z.eqb_spec st PSA_SUCCESS). }
    destruct (results_decoded _ b _ _ _ _ b' 0 PSA_ERROR_GENERIC_ERROR info0 decode Hres0 eq_refl eq_refl)
      as [-> _]; [done|done|lia|done|done|].
    destruct (Z.eqb_spec st PSA_SUCCESS); [done|]. cbn [mbind option_bind].
    eexists (_, _), _, _, _, _. by do 4 (split; [done|]).
Qed.


Lemma remote_step base cap client h x s c p r :
  session (bc_client x) = Some s -> idle base cap s c p -> v_access V (store_context p) id h ->
  fits 32 h -> 44 <= cap -> remote_request_ok cap r -> session_step base cap p h client x c r.
Proof using Hsp Hlaws Hwire Hcalloc.
  intros. destruct r; [by eapply remote_read|by eapply remote_write|by eapply remote_erase].
Qed.

Lemma remote_run base cap client h x s c p rs :
  session (bc_client x) = Some s -> idle base cap s c p -> v_access V (store_context p) id h ->
  fits 32 h -> 44 <= cap -> Forall (remote_request_ok cap) rs ->
  let d := store_context p in
  remote base cap p (run_requests block_storage_client_interface client h (x, c) rs)
    (fun replies d' => keeps V id h d d' /\
       spec_run (v_nblocks V d h) (v_bsize V d h) (v_data V d h) rs replies (v_data V d' h)).
Proof using Hsp Hlaws Hwire Hcalloc.
  intros Hs Hidle Ha Hh Hcap Hrs. revert x s c p Hs Hidle Ha.
  induction Hrs as [|r rs Hr _ IH]; intros x s c p Hs Hidle Ha d.
  - eexists [], _, _, _, _. do 3 (split; [done|]). split; [|constructor].
    split; [by eapply idle_ok|]. done.
  - destruct (remote_step base cap client h x s c p r Hs Hidle Ha Hh Hcap Hr)
      as (reply & x1 & s1 & c1 & p1 & H1 & Hs1 & Hi1 & (_ & Ha1 & Hn1 & Hb1) & Hstep).
    destruct (IH x1 s1 c1 p1 Hs1 Hi1 Ha1)
      as (replies & x2 & s2 & c2 & p2 & H2 & Hs2 & Hi2 & (Hok2 & Ha2 & Hn2 & Hb2) & Hrun).
    eexists (_ :: _), x2, s2, c2, p2. cbn [run_requests]. rewrite H1. cbn [mbind option_bind]. rewrite H2.
    do 3 (split; [done|]). split; [unfold keeps, d; split_and!; congruence|].
    econstructor; [exact Hstep|]. unfold d. by rewrite <- Hn1, <- Hb1.
Qed.


End EndToEnd.

(** ** Under an allocator that can fail *)

(** The shared memory a request needs. *)
Definition remote_message (r : request) : Z :=
  match r with
  | Read _ _ n => Z.max 24 n
  | Write _ _ data => Z.max (u64 (20 + len data)) 8
  | Erase _ _ => 20
  end.

Section Lockstep.
Context {S : Type} (calloc_ok : Z -> bool) (ctx : direct_caller_context S) (size : Z).
Abbreviation context := (block_storage_client (direct_state S) * direct_state S)%type.
Abbreviation interface := (block_storage_client_interface (D := direct_state S)).
Implicit Types x : context.

Definition endless_context x : context :=
  (BlockStorageClient (endless_client ctx (bc_client (fst x))), snd x).

Definition over_context x : Prop := over_client calloc_ok ctx size (bc_client (fst x)).

Definition context_lockstep {A} (r r' : option (A * context)) : Prop :=
  match r with
  | None => r' = None
  | Some (a, x) => r' = Some (a, endless_context x) /\ over_context x
  end.

(** An operation is a call and, unless it faults, its results. *)
Ltac follow_call Hs Ho Hal :=
  cbn [endless_context fst snd bc_client];
  match goal with |- context [transact ?y ?c ?p ?n ?m ?o ?f ?a ?d] =>
    let Hl := fresh in
    pose proof (transact_lockstep calloc_ok ctx size y _ c p n m o f a d Hs Ho Hal) as Hl; unfold lockstep in Hl;
    destruct (transact y c p n m o f a d) as [[[[? ?] ?] ?]|]; [destruct Hl as [-> ?]|by rewrite Hl]
  end; try (by split).

(** What follows an operation follows its twin. *)
Lemma context_lockstep_bind {A B} (r r' : option (A * context)) (f f' : A * context -> option (B * context)) :
  context_lockstep r r' ->
  (forall a x, over_context x -> context_lockstep (f (a, x)) (f' (a, endless_context x))) ->
  context_lockstep (p ← r; f p) (p ← r'; f' p).
Proof using.
  intros H Hf. destruct r as [[a x]|]; simpl in H; [destruct H as [-> Ho]; by apply Hf|by subst r'].
Qed.

Lemma lockstep_inv {A} (r r' : option (A * context)) a x' :
  context_lockstep r r' -> r' = Some (a, x') ->
  exists x, r = Some (a, x) /\ x' = endless_context x /\ over_context x.
Proof using.
  intros H Hr. destruct r as [[a1 x]|]; simpl in H; [|congruence]. destruct H as [H Ho].
  rewrite H in Hr. injection Hr as <- <-. by exists x.
Qed.

Lemma info_lockstep x guid info :
  over_context x -> allocated calloc_ok size [44] ->
  context_lockstep (block_storage_client_get_partition_info x guid info)
    (block_storage_client_get_partition_info (endless_context x) guid info).
Proof using.
  intros (s & Hs & Ho) Hal. unfold block_storage_client_get_partition_info. destruct (load guid 0 16); [|done].
  cbn [mbind option_bind]. follow_call Hs Ho Hal.
Qed.

Lemma open_context_lockstep x client guid h :
  over_context x -> allocated calloc_ok size [16] ->
  context_lockstep (block_storage_client_open x client guid h)
    (block_storage_client_open (endless_context x) client guid h).
Proof using.
  intros (s & Hs & Ho) Hal. unfold block_storage_client_open. destruct (load guid 0 16); [|done].
  cbn [mbind option_bind]. follow_call Hs Ho Hal.
Qed.

Lemma close_lockstep x client h :
  over_context x -> allocated calloc_ok size [8] ->
  context_lockstep (block_storage_client_close x client h) (block_storage_client_close (endless_context x) client h).
Proof using. intros (s & Hs & Ho) Hal. unfold block_storage_client_close. follow_call Hs Ho Hal. Qed.

Lemma request_lockstep x client h r :
  over_context x -> allocated calloc_ok size [remote_message r] ->
  context_lockstep (run_request interface client h x r) (run_request interface client h (endless_context x) r).
Proof using.
  intros (s & Hs & Ho) Hal. destruct r as [lba offset n|lba offset data|lba n];
    cbn [run_request read write erase block_storage_client_interface remote_message] in *.
  - apply context_lockstep_bind.
    + unfold block_storage_client_read. follow_call Hs Ho Hal. destruct p. by split.
    + intros [[st buf] dl] y Hy. destruct (st =? PSA_SUCCESS); [|done]. by destruct (load buf 0 dl).
  - apply context_lockstep_bind; [|by intros [st nw] y Hy].
    unfold block_storage_client_write. destruct (load data 0 (len data)) as [d|]; [|done]. cbn [mbind option_bind].
    follow_call Hs Ho Hal.
  - apply context_lockstep_bind; [|done]. unfold block_storage_client_erase. follow_call Hs Ho Hal.
Qed.

Lemma requests_lockstep x client h rs :
  over_context x -> allocated calloc_ok size (map remote_message rs) ->
  context_lockstep (run_requests interface client h x rs) (run_requests interface client h (endless_context x) rs).
Proof using.
  revert x. induction rs as [|r rs IH]; intros x Ho Hal; [done|].
  cbn [map] in Hal. apply allocated_cons in Hal as [Hr Hrs]. cbn [run_requests].
  apply context_lockstep_bind; [by apply request_lockstep|]. intros a y Hy.
  apply context_lockstep_bind; [by apply IH|done].
Qed.

End Lockstep.

(** ** The property *)

Lemma endless_client_refines {C} (I : block_store_interface C) (V : store_view C) uninitialised
    context b p svc id s0 uuid e size live s c x client guid info0 rs :
  BlockStoreLaws I V -> WireStore I V ->
  bs_interface b = Some I -> v_ok V (bs_context b) ->
  block_storage_provider_init uninitialised (Some context) b = Some (Some (p, svc)) ->
  0 <= size < 2 ^ 32 ->
  rpc_caller_session_open (Some s0) (Some (Direct.interface (fun _ => true) (DirectContext svc id)))
    (Some uuid) e size
    (DirectState live (block_storage_provider_register_serializer p packedc_block_storage_serializer_instance))
    = (RPC_SUCCESS, Some s, c) ->
  44 <= session_capacity s -> len guid = 16 -> Forall (remote_request_ok (session_capacity s)) rs ->
  let store_of x := store_context (service_state (snd x)) in
  exists st1 info x1 st2 h x2,
    block_storage_client_get_partition_info (block_storage_client_init x (Some s), c) guid info0
      = Some (st1, info, x1) /\
    block_storage_client_open x1 client guid 0 = Some (st2, h, x2) /\
    (st1 = PSA_SUCCESS -> st2 = PSA_SUCCESS -> exists nb bs replies x3 x4 s4,
       info_num_blocks info = u64 nb /\ info_block_size info = u32 bs /\
       run_requests block_storage_client_interface client h x2 rs = Some (replies, x3) /\
       spec_run nb bs (v_data V (store_of x2) h) rs replies (v_data V (store_of x3) h) /\
       block_storage_client_close x3 client h = Some (PSA_SUCCESS, x4) /\
       session (bc_client (fst x4)) = Some s4 /\ is_call_transaction_in_progress s4 = false /\
       live_blocks (snd x4) = live + held_blocks s4).
Proof.
  intros Hlaws Hwire Hi Hok Hinit Hsize Hopen Hcap Hguid Hrs store_of.
  destruct (provider_init_receive _ _ _ _ _ Hinit) as (sp & Hsp & -> & ->).
  pose proof (open_idle (fun _ => true) (fun _ => eq_refl) (service_provider_get_rpc_interface sp) id (provider_ok I V)
    s0 uuid e size live (block_storage_provider_register_serializer (BlockStorageProvider None b)
      packedc_block_storage_serializer_instance) s c (conj eq_refl (conj Hi Hok)) Hsize Hopen) as Hidle.
  destruct (remote_info I V uninitialised sp Hsp (fun _ => true) (fun _ => eq_refl) id live _ guid info0
    (block_storage_client_init x (Some s)) s c _ eq_refl Hidle Hcap Hguid)
    as ([st1 info] & x1 & s1 & c1 & p1 & H1 & Hs1 & Hi1 & Hext1 & Hd1).
  destruct (remote_open I V uninitialised sp Hsp (fun _ => true) (fun _ => eq_refl) id live _ client guid 0
    x1 s1 c1 p1 Hs1 Hi1 Hcap Hguid) as ([st2 h] & x2 & s2 & c2 & p2 & H2 & Hs2 & Hi2 & Hext2 & Ha2).
  exists st1, info, (x1, c1), st2, h, (x2, c2). split; [done|]. split; [done|]. intros -> ->.
  destruct (Hd1 eq_refl) as (nb & bs & Hdesc & Hnb & Hbs).
  destruct (Ha2 eq_refl) as (Hacc & Hh & Hgeo). destruct (Hgeo nb bs Hdesc) as [Hn2 Hb2].
  destruct (remote_run I V uninitialised sp Hsp (fun _ => true) (fun _ => eq_refl) id live _ client h x2 s2 c2 p2 rs
    Hs2 Hi2 Hacc Hh Hcap Hrs) as (replies & x3 & s3 & c3 & p3 & H3 & Hs3 & Hi3 & (_ & Hacc3 & _) & Hrun).
  destruct (remote_close I V uninitialised sp Hsp (fun _ => true) (fun _ => eq_refl) id live _ client h x3 s3 c3 p3
    Hs3 Hi3 Hcap Hh) as (st4 & x4 & s4 & c4 & p4 & H4 & Hs4 & Hi4 & _ & Hst4).
  apply Hst4 in Hacc3 as ->. exists nb, bs, replies, (x3, c3), (x4, c4), s4.
  split; [done|]. split; [done|]. split; [exact H3|].
  destruct Hi2 as (_ & _ & E2 & _), Hi3 as (_ & _ & E3 & _).
  split; [unfold store_of; simpl; rewrite E2, E3; by rewrite <- Hn2, <- Hb2|].
  split; [exact H4|]. split; [done|]. destruct Hi4 as ((_ & _ & Hl) & Hprog & _). done.
Qed.

(** C11: a block store behind RPC is the block store.  A client that opens a session
    over the direct caller to a freshly initialised provider, over any store that
    keeps the block store laws, can ask for a partition's geometry and open it; if
    both succeed, the geometry it was told is that of the partition (block count and
    block size at their width in the message), and every sequence of reads, writes
    and erases that fits the session runs without a fault and follows the abstract
    block store on the partition's bytes; the partition can then be closed, and no
    shared memory is leaked.  The condition is that calloc gives what this run asks it
    for: the memory of the session or, where the session has none, that of each message
    ([allocated]).  Where it does not, the direct caller hands out NULL and the client
    writes to it ([transact_unallocated]). *)
Theorem block_storage_client_refines {C} (I : block_store_interface C) (V : store_view C) uninitialised
    context b p svc calloc_ok id s0 uuid e size live s c x client guid info0 rs :
  BlockStoreLaws I V -> WireStore I V -> allocated calloc_ok size (44 :: 16 :: 8 :: map remote_message rs) ->
  bs_interface b = Some I -> v_ok V (bs_context b) ->
  block_storage_provider_init uninitialised (Some context) b = Some (Some (p, svc)) ->
  0 <= size < 2 ^ 32 ->
  rpc_caller_session_open (Some s0) (Some (Direct.interface calloc_ok (DirectContext svc id)))
    (Some uuid) e size
    (DirectState live (block_storage_provider_register_serializer p packedc_block_storage_serializer_instance))
    = (RPC_SUCCESS, Some s, c) ->
  44 <= session_capacity s -> len guid = 16 -> Forall (remote_request_ok (session_capacity s)) rs ->
  let store_of x := store_context (service_state (snd x)) in
  exists st1 info x1 st2 h x2,
    block_storage_client_get_partition_info (block_storage_client_init x (Some s), c) guid info0
      = Some (st1, info, x1) /\
    block_storage_client_open x1 client guid 0 = Some (st2, h, x2) /\
    (st1 = PSA_SUCCESS -> st2 = PSA_SUCCESS -> exists nb bs replies x3 x4 s4,
       info_num_blocks info = u64 nb /\ info_block_size info = u32 bs /\
       run_requests block_storage_client_interface client h x2 rs = Some (replies, x3) /\
       spec_run nb bs (v_data V (store_of x2) h) rs replies (v_data V (store_of x3) h) /\
       block_storage_client_close x3 client h = Some (PSA_SUCCESS, x4) /\
       session (bc_client (fst x4)) = Some s4 /\ is_call_transaction_in_progress s4 = false /\
       live_blocks (snd x4) = live + held_blocks s4).
Proof.
  intros Hlaws Hwire Hal Hi Hok Hinit Hsize Hopen Hcap Hguid Hrs store_of.
  apply allocated_cons in Hal as [H44 [H16 [H8 Hal]%allocated_cons]%allocated_cons].
  assert (allocated calloc_ok size []) as Hnil by (revert H8; unfold allocated; by destruct (size =? 0)).
  apply open_lockstep in Hopen as [Hover Hopen]; [|done]. set (ctx := DirectContext svc id) in *.
  assert (over_context calloc_ok ctx size (block_storage_client_init x (Some s), c)) as Ho0 by (by exists s).
  destruct (endless_client_refines I V uninitialised context b p svc id s0 uuid e size live (endless ctx s) c x
    client guid info0 rs Hlaws Hwire Hi Hok Hinit Hsize Hopen Hcap Hguid Hrs)
    as (st1 & info & x1' & st2 & h & x2' & H1 & H2 & Hrun).
  pose proof (info_lockstep calloc_ok ctx size _ guid info0 Ho0 H44) as L1.
  apply (lockstep_inv _ _ _ _ _ _ _ L1) in H1 as (x1 & E1 & -> & Ho1).
  pose proof (open_context_lockstep calloc_ok ctx size _ client guid 0 Ho1 H16) as L2.
  apply (lockstep_inv _ _ _ _ _ _ _ L2) in H2 as (x2 & E2 & -> & Ho2).
  exists st1, info, x1, st2, h, x2. split; [exact E1|]. split; [exact E2|]. intros Hs1 Hs2.
  destruct (Hrun Hs1 Hs2) as (nb & bs & replies & x3' & x4' & s4' & Hnb & Hbs & H3 & Hspec & H4 & Hs4 & Hprog & Hl).
  pose proof (requests_lockstep calloc_ok ctx size _ client h rs Ho2 Hal) as L3.
  apply (lockstep_inv _ _ _ _ _ _ _ L3) in H3 as (x3 & E3 & -> & Ho3).
  pose proof (close_lockstep calloc_ok ctx size _ client h Ho3 H8) as L4.
  apply (lockstep_inv _ _ _ _ _ _ _ L4) in H4 as (x4 & E4 & -> & s4 & Es4 & Ho4).
  cbn [endless_context endless_client with_session fst bc_client session] in Hs4. rewrite Es4 in Hs4. injection Hs4 as <-.
  exists nb, bs, replies, x3, x4, s4. split; [exact Hnb|]. split; [exact Hbs|]. split; [exact E3|].
  split; [exact Hspec|]. split; [exact E4|]. split; [exact Es4|]. split; [exact Hprog|exact Hl].
Qed.

(** A session with memory of its own to the sample provider. *)
Definition sample_remote : rpc_caller_session (direct_state (block_storage_provider ram_block_store)) *
    direct_state (block_storage_provider ram_block_store) :=
  let c := DirectState 2 (block_storage_provider_register_serializer (fst sample_storage)
             packedc_block_storage_serializer_instance) in
  match rpc_caller_session_open (Some (Session None null_memory 0 false 0))
          (Some (Direct.interface (fun _ => true) (DirectContext (snd sample_storage) 9)))
          (Some TS_BLOCK_STORAGE_SERVICE_UUID) 0 64 c with
  | (_, Some s, c) => (s, c)
  | (_, None, c) => (Session None null_memory 0 false 0, c)
  end.

Definition sample_remote_client : block_storage_client (direct_state (block_storage_provider ram_block_store)) :=
  BlockStorageClient (ServiceClient None 0 (ServiceInfo 0 0)).

Definition sample_remote_requests : list request :=
  [Write 1 2 [5; 6; 8]; Read 1 0 40; Erase 1 1; Read 1 0 3; Read 2 0 4].

Lemma block_storage_client_refines_witness :
  let store_of x := store_context (service_state (snd x)) in
  exists st1 info x1 st2 h x2,
    block_storage_client_get_partition_info
      (block_storage_client_init sample_remote_client (Some (fst sample_remote)), snd sample_remote)
      (fill 7 16) (Info 0 0 [] []) = Some (st1, info, x1) /\
    block_storage_client_open x1 3 (fill 7 16) 0 = Some (st2, h, x2) /\
    (st1 = PSA_SUCCESS -> st2 = PSA_SUCCESS -> exists nb bs replies x3 x4 s4,
       info_num_blocks info = u64 nb /\ info_block_size info = u32 bs /\
       run_requests block_storage_client_interface 3 h x2 sample_remote_requests = Some (replies, x3) /\
       spec_run nb bs (v_data ram_view (store_of x2) h) sample_remote_requests replies
         (v_data ram_view (store_of x3) h) /\
       block_storage_client_close x3 3 h = Some (PSA_SUCCESS, x4) /\
       session (bc_client (fst x4)) = Some s4 /\ is_call_transaction_in_progress s4 = false /\
       live_blocks (snd x4) = 2 + held_blocks s4).
Proof.
  apply (block_storage_client_refines ram_block_store_interface ram_view (Info 0 0 [] [])
    (BlockStorageProvider None sample_ram) sample_ram (fst sample_storage) (snd sample_storage)
    (fun _ => true) 9 (Session None null_memory 0 false 0) TS_BLOCK_STORAGE_SERVICE_UUID 0 64 2
    (fst sample_remote) (snd sample_remote) sample_remote_client 3 (fill 7 16) (Info 0 0 [] [])
    sample_remote_requests).
  - exact ram_block_store_laws.
  - exact ram_wire_store.
  - done.
  - apply sample_ram_ok.
  - apply sample_ram_ok.
  - reflexivity.
  - done.
  - reflexivity.
  - vm_compute. discriminate.
  - reflexivity.
  - assert (session_capacity (fst sample_remote) = 64) as -> by reflexivity.
    repeat (apply Forall_cons; split; [by repeat split; vm_compute|]). constructor.
Defined.

(** The sample session does open the partition, and what it reads is what it wrote. *)
Example sample_remote_run :
  ('(st1, info, x1) ← block_storage_client_get_partition_info
      (block_storage_client_init sample_remote_client (Some (fst sample_remote)), snd sample_remote)
      (fill 7 16) (Info 0 0 [] []);
   '(st2, h, x2) ← block_storage_client_open x1 3 (fill 7 16) 0;
   '(replies, x3) ← run_requests block_storage_client_interface 3 h x2 sample_remote_requests;
   Some (st1, st2, info_num_blocks info, info_block_size info, replies))
  = Some (PSA_SUCCESS, PSA_SUCCESS, 2, 4,
      [Written (Some 2); Data (Some [255; 255; 5; 6]); Erased true; Data (Some [255; 255; 255]); Data None]).
Proof. vm_compute. reflexivity. Qed.
