(* ===== verification/SecureStorageProvider.v ===== *)
(** * components/service/secure_storage/frontend: the secure storage service

    secure_storage_provider.c serves the operations of a storage backend on behalf of the
    sender of each request (messages of
    protocols/service/secure_storage/packed-c/secure_storage_proto.h); its_frontend.c and
    ps_frontend.c are the PSA interfaces over a backend in the same image.  The backend is
    any [storage_backend_interface]; the provider's state is the context of its backend. *)
From S2P Require Import Prelude Status RpcService RpcEndpoint StorageBackend.

Definition TS_SECURE_STORAGE_OPCODE_BASE : Z := 256.
Definition TS_SECURE_STORAGE_OPCODE_SET : Z := TS_SECURE_STORAGE_OPCODE_BASE + 0.
Definition TS_SECURE_STORAGE_OPCODE_GET : Z := TS_SECURE_STORAGE_OPCODE_BASE + 1.
Definition TS_SECURE_STORAGE_OPCODE_GET_INFO : Z := TS_SECURE_STORAGE_OPCODE_BASE + 2.
Definition TS_SECURE_STORAGE_OPCODE_REMOVE : Z := TS_SECURE_STORAGE_OPCODE_BASE + 3.
Definition TS_SECURE_STORAGE_OPCODE_CREATE : Z := TS_SECURE_STORAGE_OPCODE_BASE + 4.
Definition TS_SECURE_STORAGE_OPCODE_SET_EXTENDED : Z := TS_SECURE_STORAGE_OPCODE_BASE + 5.
Definition TS_SECURE_STORAGE_OPCODE_GET_SUPPORT : Z := TS_SECURE_STORAGE_OPCODE_BASE + 6.

(** ** secure_storage_provider.c *)

Section Provider.
Context {C : Type} (backend : storage_backend_interface C).

Definition set_handler : service C := fun context req =>
  if request_data_length req <? 20 then Some (RPC_ERROR_INVALID_REQUEST_BODY, req, context)
  else
    d ← region req;
    uid ← get_uint d 0 8;
    data_length ← get_uint d 8 8;
    create_flags ← get_uint d 16 4;
    if 20 + data_length >? 2 ^ 64 - 1 then Some (RPC_ERROR_INVALID_REQUEST_BODY, req, context)
    else if request_data_length req <? 20 + data_length then
      Some (RPC_ERROR_INVALID_REQUEST_BODY, req, context)
    else
      '(status, context) ← sb_set backend context (source_id req) uid data_length
                             (Some (drop 20 d)) create_flags;
      Some (RPC_SUCCESS, put_status req status, context).

(** The data is read straight into the response buffer. *)
Definition get_handler : service C := fun context req =>
  if request_data_length req <? 24 then Some (RPC_ERROR_INVALID_REQUEST_BODY, req, context)
  else
    d ← region req;
    uid ← get_uint d 0 8;
    data_offset ← get_uint d 8 8;
    requested ← get_uint d 16 8;
    let data_size := Z.min (response_size req) requested in
    '(status, d, data_length, context) ←
      sb_get backend context (source_id req) uid data_offset data_size (Some d) (response_data_length req);
    Some (RPC_SUCCESS, set_response req status data_length d, context).

Definition get_info_handler : service C := fun context req =>
  let storage_info := StorageInfo 0 0 0 in
  if request_data_length req <? 8 then Some (RPC_ERROR_INVALID_REQUEST_BODY, req, context)
  else if response_size req <? 20 then Some (RPC_ERROR_INVALID_RESPONSE_BODY, req, context)
  else
    d ← region req;
    uid ← get_uint d 0 8;
    '(status, storage_info, context) ←
      sb_get_info backend context (source_id req) uid (Some storage_info);
    if status =? PSA_SUCCESS then
      i ← storage_info;
      d ← store d 0 (le_split 8 (u64 (si_capacity i)) ++ le_split 8 (u64 (si_size i)) ++
                     le_split 4 (u32 (si_flags i)));
      Some (RPC_SUCCESS, set_response req status 20 (Some d), context)
    else Some (RPC_SUCCESS, put_status req status, context).

Definition remove_handler : service C := fun context req =>
  if request_data_length req <? 8 then Some (RPC_ERROR_INVALID_REQUEST_BODY, req, context)
  else
    d ← region req;
    uid ← get_uint d 0 8;
    '(status, context) ← sb_remove backend context (source_id req) uid;
    Some (RPC_SUCCESS, put_status req status, context).

Definition create_handler : service C := fun context req =>
  if request_data_length req <? 20 then Some (RPC_ERROR_INVALID_REQUEST_BODY, req, context)
  else
    d ← region req;
    uid ← get_uint d 0 8;
    capacity ← get_uint d 8 8;
    create_flags ← get_uint d 16 4;
    '(status, context) ← sb_create backend context (source_id req) uid capacity create_flags;
    Some (RPC_SUCCESS, put_status req status, context).

Definition set_extended_handler : service C := fun context req =>
  if request_data_length req <? 24 then Some (RPC_ERROR_INVALID_REQUEST_BODY, req, context)
  else
    d ← region req;
    uid ← get_uint d 0 8;
    data_offset ← get_uint d 8 8;
    data_length ← get_uint d 16 8;
    if 24 + data_length >? 2 ^ 64 - 1 then Some (RPC_ERROR_INVALID_REQUEST_BODY, req, context)
    else if request_data_length req <? 24 + data_length then
      Some (RPC_ERROR_INVALID_REQUEST_BODY, req, context)
    else
      '(status, context) ← sb_set_extended backend context (source_id req) uid data_offset data_length
                             (Some (drop 24 d));
      Some (RPC_SUCCESS, put_status req status, context).

Definition get_support_handler : service C := fun context req =>
  if response_size req <? 4 then Some (RPC_ERROR_INVALID_RESPONSE_BODY, req, context)
  else
    '(feature_map, context) ← sb_get_support backend context (source_id req);
    d ← region req;
    d ← store d 0 (le_split 4 (u32 feature_map));
    Some (RPC_SUCCESS, set_response req PSA_SUCCESS 4 (Some d), context).

Definition handler_table : list (service_handler C) :=
  [Handler TS_SECURE_STORAGE_OPCODE_SET set_handler;
   Handler TS_SECURE_STORAGE_OPCODE_GET get_handler;
   Handler TS_SECURE_STORAGE_OPCODE_GET_INFO get_info_handler;
   Handler TS_SECURE_STORAGE_OPCODE_REMOVE remove_handler;
   Handler TS_SECURE_STORAGE_OPCODE_CREATE create_handler;
   Handler TS_SECURE_STORAGE_OPCODE_SET_EXTENDED set_extended_handler;
   Handler TS_SECURE_STORAGE_OPCODE_GET_SUPPORT get_support_handler].

(** [has_context], [has_backend]: the pointers are not NULL. *)
Definition secure_storage_provider_init (has_context has_backend : bool) (service_uuid : bytes)
    : option (option (rpc_service_interface C)) :=
  if negb has_context || negb has_backend then Some None
  else
    sp ← service_provider_init service_uuid handler_table (len handler_table);
    Some (Some (service_provider_get_rpc_interface sp)).

(** ** its_frontend.c and ps_frontend.c

    The static instance is the backend with client id 0. *)

Definition frontend_client_id : Z := 0.

Definition psa_its_set (context : C) (uid data_length : Z) (p_data : option bytes) (create_flags : Z)
    : option (Z * C) := sb_set backend context frontend_client_id uid data_length p_data create_flags.
Definition psa_its_get (context : C) (uid data_offset data_size : Z) (p_data : option bytes) (p_data_length : Z)
    : option (Z * option bytes * Z * C) :=
  sb_get backend context frontend_client_id uid data_offset data_size p_data p_data_length.
Definition psa_its_get_info (context : C) (uid : Z) (p_info : option psa_storage_info_t)
    : option (Z * option psa_storage_info_t * C) := sb_get_info backend context frontend_client_id uid p_info.
Definition psa_its_remove (context : C) (uid : Z) : option (Z * C) :=
  sb_remove backend context frontend_client_id uid.

Definition psa_ps_set (context : C) (uid data_length : Z) (p_data : option bytes) (create_flags : Z)
    : option (Z * C) := sb_set backend context frontend_client_id uid data_length p_data create_flags.
Definition psa_ps_get (context : C) (uid data_offset data_size : Z) (p_data : option bytes) (p_data_length : Z)
    : option (Z * option bytes * Z * C) :=
  sb_get backend context frontend_client_id uid data_offset data_size p_data p_data_length.
Definition psa_ps_get_info (context : C) (uid : Z) (p_info : option psa_storage_info_t)
    : option (Z * option psa_storage_info_t * C) := sb_get_info backend context frontend_client_id uid p_info.
Definition psa_ps_remove (context : C) (uid : Z) : option (Z * C) :=
  sb_remove backend context frontend_client_id uid.
Definition psa_ps_create (context : C) (uid capacity create_flags : Z) : option (Z * C) :=
  sb_create backend context frontend_client_id uid capacity create_flags.
Definition psa_ps_set_extended (context : C) (uid data_offset data_length : Z) (p_data : option bytes)
    : option (Z * C) := sb_set_extended backend context frontend_client_id uid data_offset data_length p_data.
Definition psa_ps_get_support (context : C) : option (Z * C) := sb_get_support backend context frontend_client_id.

End Provider.

(** ** Specification: what a request asks of the backend, and what it gets *)

Inductive storage_request := Malformed (rpc_status : Z) | Call (o : storage_op).

Definition parse_call (req : rpc_request) : storage_request :=
  let op := opcode req in
  let n := request_data_length req in
  let m := default [] (region req) in
  let fixed k o := if n <? k then Malformed RPC_ERROR_INVALID_REQUEST_BODY else o in
  if op =? TS_SECURE_STORAGE_OPCODE_SET then
    fixed 20 (if n <? 20 + uint_at m 8 8 then Malformed RPC_ERROR_INVALID_REQUEST_BODY
              else Call (SetAsset (uint_at m 0 8) (slice m 20 (uint_at m 8 8)) (uint_at m 16 4)))
  else if op =? TS_SECURE_STORAGE_OPCODE_GET then
    fixed 24 (Call (GetData (uint_at m 0 8) (uint_at m 8 8) (Z.min (response_size req) (uint_at m 16 8))))
  else if op =? TS_SECURE_STORAGE_OPCODE_GET_INFO then
    fixed 8 (if response_size req <? 20 then Malformed RPC_ERROR_INVALID_RESPONSE_BODY
             else Call (GetInfo (uint_at m 0 8)))
  else if op =? TS_SECURE_STORAGE_OPCODE_REMOVE then fixed 8 (Call (RemoveAsset (uint_at m 0 8)))
  else if op =? TS_SECURE_STORAGE_OPCODE_CREATE then
    fixed 20 (Call (CreateAsset (uint_at m 0 8) (uint_at m 8 8) (uint_at m 16 4)))
  else if op =? TS_SECURE_STORAGE_OPCODE_SET_EXTENDED then
    fixed 24 (if n <? 24 + uint_at m 16 8 then Malformed RPC_ERROR_INVALID_REQUEST_BODY
              else Call (ExtendAsset (uint_at m 0 8) (uint_at m 8 8) (slice m 24 (uint_at m 16 8))))
  else if op =? TS_SECURE_STORAGE_OPCODE_GET_SUPPORT then
    if response_size req <? 4 then Malformed RPC_ERROR_INVALID_RESPONSE_BODY else Call GetSupport
  else Malformed RPC_ERROR_INVALID_VALUE.

Definition info_body (i : psa_storage_info_t) : bytes :=
  le_split 8 (u64 (si_capacity i)) ++ le_split 8 (u64 (si_size i)) ++ le_split 4 (u32 (si_flags i)).

Definition reply_body (o : storage_op) (r : storage_reply) : bytes :=
  match o with
  | GetData _ _ _ => r_data r
  | GetInfo _ => info_body (r_info r)
  | GetSupport => le_split 4 (u32 (si_flags (r_info r)))
  | _ => []
  end.

(** A successful operation has its results at the start of the response buffer. *)
Definition responds (req : rpc_request) (o : storage_op) (r : storage_reply) (req' : rpc_request) : Prop :=
  exists n m', req' = set_response req (r_status r) n m' /\ len <$> m' = len <$> region req /\
    if r_status r =? PSA_SUCCESS
    then n = len (reply_body o r) /\ copy_out (region req) (reply_body o r) = Some m'
    else n = 0.

(** One request served for its sender. *)
Inductive secure_storage_step {C} (V : storage_view C) (d : C) (req : rpc_request)
    : Z -> rpc_request -> C -> Prop :=
  | step_malformed st : parse_call req = Malformed st -> secure_storage_step V d req st req d
  | step_call o r req' d' :
      parse_call req = Call o -> storage_spec V d (source_id req) o r d' -> responds req o r req' ->
      secure_storage_step V d req RPC_SUCCESS req' d'.

(** The offset and the length of an extension do not wrap. *)
Definition in_range (req : rpc_request) : Prop :=
  match parse_call req with
  | Call (ExtendAsset _ off data) => off + len data < 2 ^ 64
  | _ => True
  end.

(** ** Lemmas: each handler *)

Section Handlers.
Context {C : Type} (I : storage_backend_interface C) (V : storage_view C) {Hlaws : StorageLaws I V}.
Implicit Types (d : C) (req : rpc_request).

Definition served d req (result : option (Z * rpc_request * C)) : Prop :=
  exists status req' d', result = Some (status, req', d') /\ sv_ok V d' /\
    secure_storage_step V d req status req' d' /\ len <$> region req' = len <$> region req.

Lemma served_malformed d req st :
  sv_ok V d -> parse_call req = Malformed st -> served d req (Some (st, req, d)).
Proof using. intros Hok Hp. exists st, req, d. split; [done|]. split; [done|]. split; [by constructor|done]. Qed.

Lemma served_call d req o r n m d' :
  sv_ok V d' -> parse_call req = Call o -> storage_spec V d (source_id req) o r d' ->
  len <$> m = len <$> region req ->
  (if r_status r =? PSA_SUCCESS
   then n = len (reply_body o r) /\ copy_out (region req) (reply_body o r) = Some m else n = 0) ->
  served d req (Some (RPC_SUCCESS, set_response req (r_status r) n m, d')).
Proof using.
  intros Hok Hp Hs Hl Hb. eexists _, _, _. split; [done|]. split; [done|]. split; [|done].
  eapply step_call; [done..|]. by exists n, m.
Qed.

(** A status without results. *)
Lemma served_status d req o r d' :
  fresh_request req -> sv_ok V d' -> parse_call req = Call o -> storage_spec V d (source_id req) o r d' ->
  (r_status r = PSA_SUCCESS -> reply_body o r = []) ->
  served d req (Some (RPC_SUCCESS, put_status req (r_status r), d')).
Proof using.
  intros [_ Hfresh] Hok Hp Hs Hb. unfold put_status. rewrite Hfresh. eapply served_call; try done.
  destruct (Z.eqb_spec (r_status r) PSA_SUCCESS) as [Hst|]; [|done]. rewrite (Hb Hst). done.
Qed.

(** The fields of a message that is long enough. *)
Lemma message_fields req k :
  fresh_request req -> 0 < k -> k <= request_data_length req ->
  exists m, region req = Some m /\ k <= len m /\ request_data_length req <= len m /\
    forall off n, 0 <= off -> 0 <= n -> off + n <= k -> get_uint m off n = Some (uint_at m off n).
Proof using.
  intros [(Hn & _ & _ & Hreg) _] Hk Hle. destruct (region req) as [m|]; [|lia]. exists m.
  split; [done|]. split; [lia|]. split; [lia|]. intros. apply get_uint_ok; lia.
Qed.

Lemma uint_fits m off n : 0 <= n -> fits (8 * n) (uint_at m off n).
Proof using. intros. by apply uint_at_bound. Qed.

Lemma load_rest (m : bytes) (k n : Z) : 0 <= k -> 0 <= n -> k + n <= len m -> load (drop (Z.to_nat k) m) 0 n = Some (slice m k n).
Proof using.
  intros. rewrite load_is_slice; [unfold slice; by rewrite drop_0|lia..|].
  unfold len in *. rewrite length_drop. lia.
Qed.

(** The call of a request whose opcode is known. *)
Ltac parsed H :=
  match goal with
  | Hop : opcode ?req = _ |- _ =>
      pose proof (eq_refl (parse_call req)) as H; unfold parse_call in H at 2; rewrite Hop in H;
      cbv zeta in H; simpl Z.eqb in H; cbv match in H
  end.

Lemma set_handled d req :
  sv_ok V d -> fresh_request req -> opcode req = TS_SECURE_STORAGE_OPCODE_SET -> served d req (set_handler I d req).
Proof using Hlaws.
  intros Hok Hfresh Hop. unfold set_handler.
  parsed Hparse.
  destruct (Z.ltb_spec (request_data_length req) 20) as [Hlt|Hge]; [by apply served_malformed|].
  destruct (message_fields req 20 Hfresh) as (m & Hm & Hlm & Hdl & Hget); [lia..|].
  rewrite Hm in *. simpl default in Hparse. cbn [mbind option_bind]. rewrite !Hget by lia. cbn [mbind option_bind].
  pose proof (uint_fits m 8 8 ltac:(lia)) as Hn. pose proof Hfresh as [(Hd0 & Hsz & _) _].
  destruct (Z.gtb_spec (20 + uint_at m 8 8) (2 ^ 64 - 1)).
  { apply served_malformed; [done|]. destruct (Z.ltb_spec (request_data_length req) (20 + uint_at m 8 8)); [done|lia]. }
  destruct (Z.ltb_spec (request_data_length req) (20 + uint_at m 8 8)); [by apply served_malformed|].
  unfold fits in Hn.
  destruct (law_set d (source_id req) (uint_at m 0 8) (uint_at m 8 8) (Some (drop 20 m)) (uint_at m 16 4)
    (slice m 20 (uint_at m 8 8)) Hok (uint_fits _ _ 8 ltac:(lia)) (uint_fits _ _ 8 ltac:(lia))
    (uint_fits _ _ 4 ltac:(lia))) as (st & d' & -> & Hok' & Hi & Hcase).
  { unfold copy_in. destruct (Z.eqb_spec (uint_at m 8 8) 0) as [->|]; [by rewrite slice_nil|].
    apply (load_rest m 20); lia. }
  cbn [mbind option_bind].
  apply (served_status d req _ (Reply st [] no_info) d' Hfresh Hok' Hparse); [|done].
  destruct Hcase as [(-> & Hw & Hll & room & Hup)|[Hne Hun]]; [by eapply spec_set|by apply spec_set_refused].
Qed.

Lemma get_handled d req :
  sv_ok V d -> fresh_request req -> opcode req = TS_SECURE_STORAGE_OPCODE_GET -> served d req (get_handler I d req).
Proof using Hlaws.
  intros Hok Hfresh Hop. unfold get_handler.
  parsed Hparse.
  destruct (Z.ltb_spec (request_data_length req) 24) as [Hlt|Hge]; [by apply served_malformed|].
  destruct (message_fields req 24 Hfresh) as (m & Hm & Hlm & Hdl & Hget); [lia..|].
  rewrite Hm in *. simpl default in Hparse. cbn [mbind option_bind]. rewrite !Hget by lia. cbn [mbind option_bind].
  pose proof Hfresh as [(Hn0 & Hsz & Hrs & Hreg) Hdl0]. rewrite Hm in Hreg.
  pose proof (uint_fits m 16 8 ltac:(lia)) as Hn.
  set (n := Z.min (response_size req) (uint_at m 16 8)) in *.
  destruct (law_get d (source_id req) (uint_at m 0 8) (uint_at m 8 8) n (Some m) (response_data_length req) Hok
    (uint_fits _ _ 8 ltac:(lia)) (uint_fits _ _ 8 ltac:(lia)))
    as (st & p' & k' & d' & -> & Hok' & Hun & Hi & Hlen & Hcase & Hk).
  { unfold fits in *. lia. }
  { intros _. exists m. split; [done|]. intros a _. lia. }
  cbn [mbind option_bind]. destruct (Z.eqb_spec st PSA_SUCCESS) as [->|Hne].
  - destruct (sv_asset V d (source_id req) (uint_at m 0 8)) as [a|] eqn:Ha; [|by destruct Hcase].
    destruct Hcase as [_ Hs]. destruct (Hs eq_refl) as (Hoff & -> & Hcopy).
    pose proof (uint_fits m 8 8 ltac:(lia)) as [Ho8 _].
    eapply (served_call d req _ (Reply PSA_SUCCESS _ no_info)); [done|done|by apply spec_get|by rewrite Hm|].
    cbn [r_status reply_body r_data]. simpl (PSA_SUCCESS =? PSA_SUCCESS). cbv match.
    rewrite slice_len by (unfold fits in *; lia). by rewrite Hm.
  - eapply (served_call d req _ (Reply st [] no_info)); [done|done| |by rewrite Hm|].
    + apply spec_get_refused; try done.
      destruct (sv_asset V d (source_id req) (uint_at m 0 8)) as [a|] eqn:Ha; [|by destruct Hcase].
      destruct Hcase as [Hs _]. intros Hlim. destruct (Z.ltb_spec (len (a_data a)) (uint_at m 8 8)); [done|].
      destruct Hne. by apply Hs.
    + cbn [r_status]. destruct (Z.eqb_spec st PSA_SUCCESS); [done|]. rewrite Hdl0 in Hk. destruct (Hk Hne); done.
Qed.

Lemma copy_out_ok m body : len body <= len m -> exists m', copy_out (Some m) body = Some (Some m') /\ len m' = len m.
Proof using.
  intros Hl. unfold copy_out. destruct (len body =? 0); [by exists m|]. pose proof (len_nonneg body).
  destruct (store_ok m 0 body) as [m' Hm']; [lia..|]. simpl. rewrite Hm'. exists m'. split; [done|].
  by eapply store_len.
Qed.

Lemma copy_out_store m body m' : store m 0 body = Some m' -> copy_out (Some m) body = Some (Some m').
Proof using.
  intros H. unfold copy_out. simpl. rewrite H. destruct (Z.eqb_spec (len body) 0) as [Hz|]; [|done].
  destruct body; [|len_lia]. rewrite store_nil in H; [by simplify_eq|len_lia].
Qed.

Lemma get_info_handled d req :
  sv_ok V d -> fresh_request req -> opcode req = TS_SECURE_STORAGE_OPCODE_GET_INFO ->
  served d req (get_info_handler I d req).
Proof using Hlaws.
  intros Hok Hfresh Hop. unfold get_info_handler. parsed Hparse.
  destruct (Z.ltb_spec (request_data_length req) 8) as [Hlt|Hge]; [by apply served_malformed|].
  destruct (Z.ltb_spec (response_size req) 20) as [Hlt|Hge']; [by apply served_malformed|].
  destruct (message_fields req 8 Hfresh) as (m & Hm & Hlm & Hdl & Hget); [lia..|].
  rewrite Hm in *. simpl default in Hparse. cbn [mbind option_bind]. rewrite !Hget by lia. cbn [mbind option_bind].
  pose proof Hfresh as [(_ & _ & Hrs & Hreg) _]. rewrite Hm in Hreg.
  destruct (law_get_info d (source_id req) (uint_at m 0 8) (StorageInfo 0 0 0) Hok (uint_fits _ _ 8 ltac:(lia)))
    as (st & i' & d' & -> & Hok' & Hun & Hi & Hcase). cbn [mbind option_bind].
  destruct (sv_asset V d (source_id req) (uint_at m 0 8)) as [a|] eqn:Ha.
  - destruct Hcase as (-> & Hs & Hf & Hc). simpl (PSA_SUCCESS =? PSA_SUCCESS). cbv match.
    destruct i' as [ci si fi]. cbn [si_size si_flags si_capacity] in *. subst si fi.
    destruct (store_ok m 0 (info_body (StorageInfo ci (u32 (len (a_data a))) (a_flags a)))) as [m' Hm'];
      [lia|unfold info_body; rewrite !len_app, !len_le_split; lia|].
    unfold info_body in Hm'. cbn [si_size si_flags si_capacity] in Hm'. cbn [mbind option_bind].
    cbn [si_size si_flags si_capacity]. rewrite Hm'. cbn [mbind option_bind].
    eapply (served_call d req _ (Reply PSA_SUCCESS [] (StorageInfo ci _ _))); [done|done|by apply spec_info| |].
    + rewrite Hm. simpl. f_equal. by eapply store_len.
    + cbn [r_status reply_body r_info]. simpl (PSA_SUCCESS =? PSA_SUCCESS). cbv match. rewrite Hm.
      split; [|by apply copy_out_store]. unfold info_body. by rewrite !len_app, !len_le_split.
  - destruct Hcase as [Hne Hst]. destruct (Z.eqb_spec st PSA_SUCCESS); [done|].
    apply (served_status d req _ (Reply st [] no_info) d' Hfresh Hok' Hparse); [by apply spec_info_missing|done].
Qed.

Lemma remove_handled d req :
  sv_ok V d -> fresh_request req -> opcode req = TS_SECURE_STORAGE_OPCODE_REMOVE ->
  served d req (remove_handler I d req).
Proof using Hlaws.
  intros Hok Hfresh Hop. unfold remove_handler. parsed Hparse.
  destruct (Z.ltb_spec (request_data_length req) 8) as [Hlt|Hge]; [by apply served_malformed|].
  destruct (message_fields req 8 Hfresh) as (m & Hm & Hlm & Hdl & Hget); [lia..|].
  rewrite Hm in *. simpl default in Hparse. cbn [mbind option_bind]. rewrite !Hget by lia. cbn [mbind option_bind].
  destruct (lawful_op I V (source_id req) d (RemoveAsset (uint_at m 0 8)) Hok (uint_fits _ _ 8 ltac:(lia)))
    as (r & d' & Hrun & Hok' & Hspec). cbn [run_op] in Hrun.
  destruct (sb_remove I d (source_id req) (uint_at m 0 8)) as [[st d1]|]; [|done].
  cbn [mbind option_bind] in *. injection Hrun as <- <-.
  by apply (served_status d req _ (Reply st [] no_info) d1 Hfresh Hok' Hparse).
Qed.

Lemma asset_create_handled d req :
  sv_ok V d -> fresh_request req -> opcode req = TS_SECURE_STORAGE_OPCODE_CREATE ->
  served d req (create_handler I d req).
Proof using Hlaws.
  intros Hok Hfresh Hop. unfold create_handler. parsed Hparse.
  destruct (Z.ltb_spec (request_data_length req) 20) as [Hlt|Hge]; [by apply served_malformed|].
  destruct (message_fields req 20 Hfresh) as (m & Hm & Hlm & Hdl & Hget); [lia..|].
  rewrite Hm in *. simpl default in Hparse. cbn [mbind option_bind]. rewrite !Hget by lia. cbn [mbind option_bind].
  destruct (lawful_op I V (source_id req) d (CreateAsset (uint_at m 0 8) (uint_at m 8 8) (uint_at m 16 4)) Hok)
    as (r & d' & Hrun & Hok' & Hspec).
  { split; [by apply (uint_fits _ _ 8)|]. split; [by apply (uint_fits _ _ 8)|by apply (uint_fits _ _ 4)]. }
  cbn [run_op] in Hrun.
  destruct (sb_create I d (source_id req) _ _ _) as [[st d1]|]; [|done].
  cbn [mbind option_bind] in *. injection Hrun as <- <-.
  by apply (served_status d req _ (Reply st [] no_info) d1 Hfresh Hok' Hparse).
Qed.

Lemma set_extended_handled d req :
  sv_ok V d -> fresh_request req -> in_range req -> opcode req = TS_SECURE_STORAGE_OPCODE_SET_EXTENDED ->
  served d req (set_extended_handler I d req).
Proof using Hlaws.
  intros Hok Hfresh Hrange Hop. unfold set_extended_handler. unfold in_range in Hrange. parsed Hparse.
  destruct (Z.ltb_spec (request_data_length req) 24) as [Hlt|Hge]; [by apply served_malformed|].
  destruct (message_fields req 24 Hfresh) as (m & Hm & Hlm & Hdl & Hget); [lia..|].
  rewrite Hm in *. simpl default in Hparse. cbn [mbind option_bind]. rewrite !Hget by lia. cbn [mbind option_bind].
  pose proof (uint_fits m 16 8 ltac:(lia)) as Hn. pose proof Hfresh as [(Hd0 & Hsz & _) _].
  destruct (Z.gtb_spec (24 + uint_at m 16 8) (2 ^ 64 - 1)).
  { apply served_malformed; [done|]. destruct (Z.ltb_spec (request_data_length req) (24 + uint_at m 16 8)); [done|lia]. }
  destruct (Z.ltb_spec (request_data_length req) (24 + uint_at m 16 8)); [by apply served_malformed|].
  rewrite Hparse in Hrange. unfold fits in Hn. rewrite slice_len in Hrange by lia.
  destruct (law_set_extended d (source_id req) (uint_at m 0 8) (uint_at m 8 8) (uint_at m 16 8) (drop 24 m)
    (slice m 24 (uint_at m 16 8)) Hok (uint_fits _ _ 8 ltac:(lia))) as (st & d' & -> & Hok' & Hi & Hcase);
    [apply (uint_fits _ _ 8); lia|done|apply (load_rest m 24); lia|].
  cbn [mbind option_bind]. apply (served_status d req _ (Reply st [] no_info) d' Hfresh Hok' Hparse); [|done].
  assert (len (slice m 24 (uint_at m 16 8)) = uint_at m 16 8) as Hsl by (apply slice_len; lia).
  destruct (sv_asset V d (source_id req) (uint_at m 0 8)) as [a|] eqn:Ha.
  - destruct Hcase as [Hp [(-> & Hr & x & Hx & Hup)|[Hne Hun]]]; [eapply spec_extend; [done|lia|done..]|].
    apply spec_extend_refused; [done..|]. rewrite Ha, Hsl. split; [done|]. intros Hlim.
    destruct (Z.ltb_spec (a_room a) (uint_at m 8 8 + uint_at m 16 8)); [done|]. destruct Hne. by apply Hp.
  - apply spec_extend_refused; [done|apply Hcase|]. rewrite Ha. apply Hcase.
Qed.

Lemma get_support_handled d req :
  sv_ok V d -> fresh_request req -> opcode req = TS_SECURE_STORAGE_OPCODE_GET_SUPPORT ->
  served d req (get_support_handler I d req).
Proof using Hlaws.
  intros Hok Hfresh Hop. unfold get_support_handler. parsed Hparse.
  destruct (Z.ltb_spec (response_size req) 4) as [Hlt|Hge]; [by apply served_malformed|].
  destruct (law_get_support d (source_id req) Hok) as (v & d' & -> & Hok' & Hun & Hv). cbn [mbind option_bind].
  pose proof Hfresh as [(_ & _ & Hrs & Hreg) _]. destruct (region req) as [m|] eqn:Hm; [|lia]. cbn [mbind option_bind].
  destruct (store_ok m 0 (le_split 4 (u32 v))) as [m' Hm']; [lia|rewrite len_le_split; lia|].
  rewrite Hm'. cbn [mbind option_bind].
  eapply (served_call d req _ (Reply PSA_SUCCESS [] (StorageInfo 0 0 v))); [done|done|by apply spec_support| |].
  - rewrite Hm. simpl. f_equal. by eapply store_len.
  - cbn [r_status reply_body r_info si_flags]. simpl (PSA_SUCCESS =? PSA_SUCCESS). cbv match. rewrite Hm.
    split; [by rewrite len_le_split|by apply copy_out_store].
Qed.

Lemma secure_storage_served uuid sp d req :
  service_provider_init uuid (handler_table I) (len (handler_table I)) = Some sp ->
  sv_ok V d -> fresh_request req -> in_range req -> served d req (receive sp d req).
Proof using Hlaws.
  intros Hinit Hok Hfresh Hrange.
  destruct (service_provider_init_ok uuid (handler_table I)) as (sp' & Hi & Htab & Hh & Hs).
  rewrite Hinit in Hi. injection Hi as <-.
  rewrite receive_spec, Hh, Hs by done. unfold first_handler, handler_table. cbn [find_index h_opcode].
  rewrite !(Z.eqb_sym _ (opcode req)).
  destruct (Z.eqb_spec (opcode req) TS_SECURE_STORAGE_OPCODE_SET) as [E|N0]; [by apply set_handled|].
  destruct (Z.eqb_spec (opcode req) TS_SECURE_STORAGE_OPCODE_GET) as [E|N1]; [by apply get_handled|].
  destruct (Z.eqb_spec (opcode req) TS_SECURE_STORAGE_OPCODE_GET_INFO) as [E|N2]; [by apply get_info_handled|].
  destruct (Z.eqb_spec (opcode req) TS_SECURE_STORAGE_OPCODE_REMOVE) as [E|N3]; [by apply remove_handled|].
  destruct (Z.eqb_spec (opcode req) TS_SECURE_STORAGE_OPCODE_CREATE) as [E|N4]; [by apply asset_create_handled|].
  destruct (Z.eqb_spec (opcode req) TS_SECURE_STORAGE_OPCODE_SET_EXTENDED) as [E|N5]; [by apply set_extended_handled|].
  destruct (Z.eqb_spec (opcode req) TS_SECURE_STORAGE_OPCODE_GET_SUPPORT) as [E|N6]; [by apply get_support_handled|].
  apply served_malformed; [done|]. unfold parse_call.
  by apply Z.eqb_neq in N0 as ->, N1 as ->, N2 as ->, N3 as ->, N4 as ->, N5 as ->, N6 as ->.
Qed.


End Handlers.

(** ** Sessions *)

Inductive secure_storage_session {C} (V : storage_view C)
    : C -> list rpc_request -> list (Z * rpc_request) -> C -> Prop :=
  | session_nil d : secure_storage_session V d [] [] d
  | session_cons d req status req' d1 reqs out d2 :
      secure_storage_step V d req status req' d1 -> secure_storage_session V d1 reqs out d2 ->
      secure_storage_session V d (req :: reqs) ((status, req') :: out) d2.

Lemma provider_init_interface {C} (I : storage_backend_interface C) uuid svc :
  secure_storage_provider_init I true true uuid = Some (Some svc) ->
  exists sp, service_provider_init uuid (handler_table I) (len (handler_table I)) = Some sp /\
    svc = service_provider_get_rpc_interface sp.
Proof.
  unfold secure_storage_provider_init. simpl negb. cbv match. simpl orb. cbv match.
  intros (sp & Hsp & [= <-])%bind_Some. by exists sp.
Qed.

(** ** Properties *)

(** C35: The secure storage service over any backend that keeps its promises answers any
    requests of any senders, in any order, within its buffers: a malformed request changes
    nothing, and any other one does to the assets of its sender, and tells it, what the
    operation of the backend would (extensions whose end wraps apart). *)
Theorem secure_storage_service_refines {C} (I : storage_backend_interface C) (V : storage_view C) uuid svc d reqs :
  StorageLaws I V -> secure_storage_provider_init I true true uuid = Some (Some svc) -> sv_ok V d ->
  Forall (fun req => fresh_request req /\ in_range req) reqs ->
  exists out d', service_run (svc_receive svc) d reqs = Some (out, d') /\ sv_ok V d' /\
    secure_storage_session V d reqs out d'.
Proof.
  intros Hlaws (sp & Hsp & ->)%provider_init_interface Hok Hreqs. revert d Hok.
  induction Hreqs as [|req reqs [Hfresh Hrange] _ IH]; intros d Hok.
  { eexists _, _. split; [done|]. split; [done|]. constructor. }
  destruct (secure_storage_served I V uuid sp d req Hsp Hok Hfresh Hrange)
    as (status & req' & d1 & Hr & Hok1 & Hstep & _).
  destruct (IH d1 Hok1) as (out & d2 & Hrun & Hok2 & Hses). cbn [service_run svc_receive service_provider_get_rpc_interface].
  rewrite Hr. cbn [mbind option_bind]. simpl svc_receive in Hrun. rewrite Hrun.
  eexists _, _. split; [done|]. split; [done|]. by econstructor.
Qed.

(** An asset is stored and read back; a message too short and one that announces more data
    than it has. *)
Definition sample_message (op n : Z) (b : bytes) : rpc_request :=
  Request 5 0 op 0 0 n 64 0 64 (Some (b ++ fill 0 (64 - len b))).

Definition sample_requests : list rpc_request :=
  [sample_message 256 23 (le_split 8 7 ++ le_split 8 3 ++ le_split 4 0 ++ [1; 2; 3]);
   sample_message 257 24 (le_split 8 7 ++ le_split 8 1 ++ le_split 8 64);
   sample_message 257 23 []; sample_message 256 23 (le_split 8 7 ++ le_split 8 40)].

Lemma secure_storage_service_refines_witness :
  exists svc, secure_storage_provider_init (MockStore.interface (fun _ => true)) true true [] = Some (Some svc) /\
  exists out d', service_run (svc_receive svc) (fst (MockStore.mock_store_init (fun _ => true))) sample_requests
      = Some (out, d') /\ mock_ok d' /\
    secure_storage_session mock_view (fst (MockStore.mock_store_init (fun _ => true))) sample_requests out d'.
Proof.
  destruct (secure_storage_provider_init (MockStore.interface (fun _ => true)) true true []) as [[svc|]|] eqn:Hi;
    [|discriminate Hi..].
  exists svc. split; [done|].
  apply (secure_storage_service_refines (MockStore.interface (fun _ => true)) mock_view [] svc);
    [by apply mock_store_laws|done|apply mock_init_ok|].
  unfold sample_requests, sample_message.
  repeat (apply Forall_cons; split); [..|apply Forall_nil]; split; try done; split; try done; vm_compute;
    repeat split; discriminate.
Defined.
