(* ===== verification/SecureStorageClient.v ===== *)
(** * components/service/secure_storage/backend/secure_storage_client

    secure_storage_client.c: a storage backend that makes each operation a call of the
    secure storage service.  [C] is the state behind the session's caller; the context
    of the backend is the client with that state. *)
From S2P Require Import Prelude Status RpcService RpcEndpoint RpcCaller StorageBackend ServiceClient SecureStorageProvider.

Section Client.
Context {C : Type}.
Implicit Types x : service_client C.

(** Begin, write the request, invoke, read the response, end.  [failed] and [a] are the
    results where there is no handle; [after] is what is done with the results of invoke.
    [parts] is [None] when the data of the request cannot be read. *)
Definition secure_storage_call {A} (context : service_client C * C) (parts : option (list bytes))
    (request_length response_length opcode failed : Z) (a : A)
    (after : Z -> option bytes -> Z -> Z -> option (Z * A)) : option (Z * A * (service_client C * C)) :=
  let '(x, c) := context in
  let '(handle, s, c) := rpc_caller_session_begin (session x) true request_length response_length c in
  let x := with_session x s in
  if (handle : bool) then
    parts ← parts;
    x ← copy_parts x 0 parts;
    '(rpc_status, response, response_length, service_status, s, c) ←
      rpc_caller_session_invoke (session x) opcode true true None 0 0 c;
    let x := with_session x s in
    '(psa_status, a) ← after rpc_status response response_length service_status;
    let '(rpc_status, s, c) := rpc_caller_session_end (session x) c in
    let psa_status := if (psa_status =? PSA_SUCCESS) && negb (rpc_status =? RPC_SUCCESS)
                      then PSA_ERROR_GENERIC_ERROR else psa_status in
    Some (psa_status, a, (with_session x s, c))
  else Some (failed, a, (x, c)).

(** psa_status when invoke does not succeed is [failed]. *)
Definition status_only (failed rpc_status : Z) (response : option bytes) (response_length service_status : Z)
    : option (Z * unit) :=
  Some (if rpc_status =? RPC_SUCCESS then s32 service_status else failed, tt).

Definition secure_storage_client_set (context : service_client C * C) (client_id uid data_length : Z)
    (p_data : option bytes) (create_flags : Z) : option (Z * (service_client C * C)) :=
  let context := (with_rpc_status (fst context) RPC_SUCCESS, snd context) in
  if (match p_data with None => true | Some _ => false end) && negb (data_length =? 0) then
    Some (PSA_ERROR_INVALID_ARGUMENT, context)
  else if 20 + data_length >? 2 ^ 64 - 1 then Some (PSA_ERROR_INVALID_ARGUMENT, context)
  else
    '(status, _, context) ← secure_storage_call context
      (data ← copy_in p_data data_length;
       Some [le_split 8 (u64 uid) ++ le_split 8 (u64 data_length) ++ le_split 4 (u32 create_flags); data])
      (20 + data_length) 0 TS_SECURE_STORAGE_OPCODE_SET PSA_ERROR_GENERIC_ERROR tt
      (status_only PSA_ERROR_GENERIC_ERROR);
    Some (status, context).

Definition secure_storage_client_get (context : service_client C * C) (client_id uid data_offset data_size : Z)
    (p_data : option bytes) (p_data_length : Z) : option (Z * option bytes * Z * (service_client C * C)) :=
  if (match p_data with None => true | Some _ => false end) && negb (data_size =? 0) then
    Some (PSA_ERROR_INVALID_ARGUMENT, p_data, p_data_length, context)
  else
    '(status, (p_data, p_data_length), context) ← secure_storage_call context
      (Some [le_split 8 (u64 uid) ++ le_split 8 (u64 data_offset) ++ le_split 8 (u64 data_size)])
      24 data_size TS_SECURE_STORAGE_OPCODE_GET PSA_ERROR_GENERIC_ERROR (p_data, p_data_length)
      (fun rpc_status response response_length service_status =>
         if negb (rpc_status =? RPC_SUCCESS) || (response_length >? data_size) then
           Some (PSA_ERROR_GENERIC_ERROR, (p_data, p_data_length))
         else
           let psa_status := s32 service_status in
           if negb (psa_status =? PSA_SUCCESS) then Some (psa_status, (p_data, p_data_length))
           else
             data ← copy_in response response_length;
             p_data ← copy_out p_data data;
             Some (psa_status, (p_data, response_length)));
    Some (status, p_data, p_data_length, context).

Definition secure_storage_client_get_info (context : service_client C * C) (client_id uid : Z)
    (p_info : option psa_storage_info_t) : option (Z * option psa_storage_info_t * (service_client C * C)) :=
  match p_info with
  | None => Some (PSA_ERROR_INVALID_ARGUMENT, p_info, context)
  | Some info =>
      '(status, info, context) ← secure_storage_call context (Some [le_split 8 (u64 uid)]) 8 20
        TS_SECURE_STORAGE_OPCODE_GET_INFO PSA_ERROR_GENERIC_ERROR info
        (fun rpc_status response response_length service_status =>
           if negb (rpc_status =? RPC_SUCCESS) ||
              ((service_status =? PSA_SUCCESS) && negb (response_length =? 20))
           then Some (PSA_ERROR_GENERIC_ERROR, info)
           else
             let psa_status := s32 service_status in
             if psa_status =? PSA_SUCCESS then
               r ← response;
               capacity ← get_uint r 0 8;
               size ← get_uint r 8 8;
               flags ← get_uint r 16 4;
               Some (psa_status, StorageInfo (u32 capacity) (u32 size) flags)
             else Some (psa_status, StorageInfo 0 0 PSA_STORAGE_FLAG_NONE));
      Some (status, Some info, context)
  end.

Definition secure_storage_client_remove (context : service_client C * C) (client_id uid : Z)
    : option (Z * (service_client C * C)) :=
  '(status, _, context) ← secure_storage_call context (Some [le_split 8 (u64 uid)]) 8 0
    TS_SECURE_STORAGE_OPCODE_REMOVE PSA_ERROR_GENERIC_ERROR tt (status_only PSA_ERROR_GENERIC_ERROR);
  Some (status, context).

(** The status is initialised to PSA_SUCCESS here and in the next function. *)
Definition secure_storage_client_create (context : service_client C * C) (client_id uid capacity create_flags : Z)
    : option (Z * (service_client C * C)) :=
  '(status, _, context) ← secure_storage_call context
    (Some [le_split 8 (u64 uid) ++ le_split 8 (u64 capacity) ++ le_split 4 (u32 create_flags)]) 20 0
    TS_SECURE_STORAGE_OPCODE_CREATE PSA_SUCCESS tt (status_only PSA_SUCCESS);
  Some (status, context).

Definition secure_storage_set_extended (context : service_client C * C) (client_id uid data_offset data_length : Z)
    (p_data : option bytes) : option (Z * (service_client C * C)) :=
  match p_data with
  | None => Some (PSA_ERROR_INVALID_ARGUMENT, context)
  | Some _ =>
      if 24 + data_length >? 2 ^ 64 - 1 then Some (PSA_ERROR_INVALID_ARGUMENT, context)
      else
        '(status, _, context) ← secure_storage_call context
          (data ← copy_in p_data data_length;
           Some [le_split 8 (u64 uid) ++ le_split 8 (u64 data_offset) ++ le_split 8 (u64 data_length); data])
          (24 + data_length) 0 TS_SECURE_STORAGE_OPCODE_SET_EXTENDED PSA_ERROR_INVALID_ARGUMENT tt
          (status_only PSA_SUCCESS);
        Some (status, context)
  end.

Definition secure_storage_get_support (context : service_client C * C) (client_id : Z)
    : option (Z * (service_client C * C)) :=
  '(_, feature_map, context) ← secure_storage_call context (Some []) 0 4 TS_SECURE_STORAGE_OPCODE_GET_SUPPORT
    PSA_ERROR_GENERIC_ERROR 0
    (fun rpc_status response response_length service_status =>
       if negb (rpc_status =? RPC_SUCCESS) || (response_length <? 4) then Some (PSA_ERROR_GENERIC_ERROR, 0)
       else
         let psa_status := s32 service_status in
         if negb (psa_status =? PSA_SUCCESS) then Some (psa_status, 0)
         else r ← response; feature_map ← get_uint r 0 4; Some (psa_status, feature_map));
  Some (feature_map, context).

Definition secure_storage_client_interface : storage_backend_interface (service_client C * C) :=
  StorageBackend secure_storage_client_set secure_storage_client_get secure_storage_client_get_info
    secure_storage_client_remove secure_storage_client_create secure_storage_set_extended
    secure_storage_get_support.

(** The status of service_client_init is not looked at. *)
Definition secure_storage_client_init (context : service_client C) (s : option (rpc_caller_session C))
    : option (service_client C) * storage_backend_interface (service_client C * C) :=
  let '(_, client) := service_client_init (Some context) s in (client, secure_storage_client_interface).

Definition secure_storage_client_deinit (context : service_client C) : service_client C :=
  service_client_deinit context.

End Client.

(** ** Lemmas: one call of the service *)

Section Remote.
Context {C : Type} (I : storage_backend_interface C) (V : storage_view C) {Hlaws : StorageLaws I V}.
Context (uuid : bytes) (sp : service_provider C)
  (Hsp : service_provider_init uuid (handler_table I) (len (handler_table I)) = Some sp).
Context (calloc_ok : Z -> bool) (Hcalloc : forall n, calloc_ok n = true) (id base cap : Z) (Hcap : 24 <= cap).

Abbreviation state := (direct_state C).
Abbreviation svc := (service_provider_get_rpc_interface sp).
Abbreviation idle := (ServiceClient.idle calloc_ok svc id (sv_ok V) base cap).
Implicit Types (x : service_client state) (c : state) (p : C).

Lemma refused_call {A} x s c p parts n rm op failed (a : A) after :
  session x = Some s -> idle s c p -> 0 <= n -> 0 <= rm -> cap < Z.max n rm ->
  exists x', session x' = Some s /\
    secure_storage_call (x, c) parts n rm op failed a after = Some (failed, a, (x', c)).
Proof using.
  intros Hs Hidle Hn Hrm Hmax. exists (with_session x (Some s)). split; [done|]. unfold secure_storage_call.
  by rewrite Hs, (tx_begin_refused calloc_ok svc id (sv_ok V) base cap s c p n rm Hidle Hn Hrm Hmax).
Qed.

Lemma remote_call {A} x s c p parts n rm op failed (a : A) after o :
  session x = Some s -> idle s c p -> n = len (concat parts) -> 0 <= rm -> 0 < Z.max n rm <= cap ->
  0 <= op < 2 ^ 16 ->
  (forall b, slice b 0 n = concat parts -> Z.max n rm <= len b ->
     parse_call (Request id 0 op 0 0 n (len b) 0 (len b) (Some b)) = Call o) ->
  (match o with ExtendAsset _ off data => off + len data < 2 ^ 64 | _ => True end) ->
  exists r b k x' s' c' p', storage_spec V p id o r p' /\ session x' = Some s' /\ idle s' c' p' /\
    (if r_status r =? PSA_SUCCESS
     then k = len (reply_body o r) /\ k <= len b /\ slice b 0 k = reply_body o r else k = 0) /\
    secure_storage_call (x, c) (Some parts) n rm op failed a after =
      ('(st, a) ← after RPC_SUCCESS (Some b) k (r_status r); Some (st, a, (x', c'))).
Proof using Hsp Hlaws Hcalloc.
  intros Hs Hidle Hn Hrm Hmax Hop Hparse Hrange. pose proof (len_nonneg (concat parts)).
  destruct (tx_begin calloc_ok Hcalloc svc id (sv_ok V) base cap s c p n rm Hidle)
    as (s1 & c1 & b0 & Hbegin & Htx & Hb0); [lia..|].
  destruct (copy_parts_ok calloc_ok svc id (sv_ok V) base cap (with_session x (Some s1)) s1 c1 n b0 p 0 parts)
    as (x2 & s2 & b & Hcopy & Hs2 & Hb & Htx2); [done|done|lia|lia|].
  pose proof (store_len _ _ _ _ Hb) as Hlb. pose proof (load_store_same _ _ _ _ Hb) as Hload.
  rewrite load_is_slice, <- Hn in Hload by lia. injection Hload as Hload.
  specialize (Hparse b Hload ltac:(lia)).
  destruct (tx_fresh calloc_ok svc id (sv_ok V) base cap s2 c1 n b p op Htx2) as [Hfresh Hp].
  set (req := Request id 0 op 0 0 n (len b) 0 (len b) (Some b)) in *.
  destruct (secure_storage_served I V uuid sp p req Hsp Hp Hfresh) as (status & req' & p' & Hr & Hp' & Hstep & Hlen).
  { unfold in_range. rewrite Hparse. done. }
  inversion Hstep as [st Hm|o' r req1 d1 Hc Hspec Hresp]; subst; [congruence|].
  rewrite Hparse in Hc. injection Hc as <-. destruct Hresp as (k & m' & -> & Hml & Hbody).
  simpl in Hml. apply fmap_Some in Hml as (b' & -> & Hbl).
  destruct (tx_call calloc_ok svc id (sv_ok V) base cap s2 c1 _ b p op _ _ p' b' Htx2 Hop Hr Hp' eq_refl
    ltac:(done)) as (s3 & c3 & Hinv & Htx3).
  destruct (tx_end calloc_ok svc id (sv_ok V) base cap s3 c3 _ b' p' Htx3) as (s4 & c4 & Hend & Hidle').
  assert (0 <= k <= len b /\ (if r_status r =? PSA_SUCCESS
     then k = len (reply_body o r) /\ k <= len b' /\ slice b' 0 k = reply_body o r else k = 0)) as [Hk Hbody'].
  { destruct (r_status r =? PSA_SUCCESS); [|pose proof (len_nonneg b); lia]. destruct Hbody as [-> Hcp].
    destruct (copy_out_load _ _ _ Hcp b eq_refl) as (b1 & [= <-] & Hl1).
    pose proof (load_Some _ _ _ _ Hl1) as (_ & Hk0 & Hk1 & _). split; [lia|]. split; [done|]. split; [lia|].
    rewrite load_is_slice in Hl1 by lia. congruence. }
  eexists r, b', k, _, s4, c4, p'. split; [done|]. split; [|split; [done|]; split; [done|]].
  2:{ unfold secure_storage_call. rewrite Hs, Hbegin. cbn [mbind option_bind]. rewrite Hcopy.
      cbn [mbind option_bind]. rewrite Hs2, Hinv. cbn [response_data_length set_response service_status].
      simpl (RPC_SUCCESS =? RPC_SUCCESS). simpl negb. simpl orb. destruct (Z.gtb_spec k (len b)); [lia|].
      cbn [mbind option_bind]. destruct (after _ _ _ _) as [[st a']|]; [|done]. cbn [mbind option_bind].
      cbn [session with_session]. rewrite Hend. simpl (RPC_SUCCESS =? RPC_SUCCESS). simpl negb.
      rewrite andb_false_r. reflexivity. }
  done.
Qed.

(** The three fields at the front of a message, and what follows. *)
Lemma three_fields b n (k : nat) u v w tail :
  slice b 0 n = (le_split 8 (u64 u) ++ le_split 8 (u64 v) ++ le_split k w) ++ tail -> n <= len b ->
  n = 16 + Z.of_nat k + len tail -> fits 64 u -> fits 64 v -> 0 <= w < 2 ^ (8 * Z.of_nat k) ->
  uint_at b 0 8 = u /\ uint_at b 8 8 = v /\ uint_at b 16 (Z.of_nat k) = w /\
  slice b (16 + Z.of_nat k) (len tail) = tail.
Proof using.
  unfold fits. intros Hs Hn Hlen Hu Hv Hw. rewrite !(wrap_small 64) in Hs by lia. rewrite <- !app_assoc in Hs.
  apply uint_front in Hs as [H0 Hs]; [|lia|lia|rewrite !len_app, !len_le_split; lia|lia].
  apply uint_front in Hs as [H1 Hs]; [|lia|rewrite !len_app, !len_le_split; lia|
    rewrite !len_app, !len_le_split; lia|lia].
  by apply uint_front in Hs as [H2 Hs]; [|lia|rewrite !len_app, !len_le_split; lia|
    rewrite !len_app, !len_le_split; lia|lia].
Qed.

Lemma one_field b n u : slice b 0 n = le_split 8 (u64 u) -> n <= len b -> n = 8 -> fits 64 u -> uint_at b 0 8 = u.
Proof using.
  unfold fits. intros Hs Hn -> Hu. rewrite wrap_small in Hs by lia. unfold uint_at.
  rewrite Hs, le_combine_split, wrap_idem by lia. apply wrap_small. lia.
Qed.

Definition remote_view : storage_view (service_client state * state) :=
  StorageView (fun '(x, c) => exists s, session x = Some s /\ idle s c (service_state c))
    (fun '(x, c) _ u => sv_asset V (service_state c) id u) (Z.min (sv_limit V) cap)
    (Z.min (sv_extend_limit V) (cap - 24)).

Lemma idle_state s c p : idle s c p -> service_state c = p.
Proof using. by intros (_ & _ & <- & _). Qed.

Lemma remote_idle_ok s c p : idle s c p -> sv_ok V p.
Proof using. intros ((_ & Hi & _) & _ & <- & _). done. Qed.

Lemma remote_ok x c s p : session x = Some s -> idle s c p -> sv_ok remote_view (x, c).
Proof using. intros Hs Hi. exists s. split; [done|]. by rewrite (idle_state _ _ _ Hi). Qed.

(** What is unchanged or updated at the service is so for the client. *)
Lemma remote_unchanged x c x' c' :
  unchanged V (service_state c) (service_state c') -> unchanged remote_view (x, c) (x', c').
Proof using. intros H client u. apply H. Qed.

Lemma remote_updated x c x' c' client u a :
  updated V (service_state c) (service_state c') id u a -> updated remote_view (x, c) (x', c') client u a.
Proof using. intros [H1 H2]. split; [done|]. intros client' u' Hne. by apply H2. Qed.

Lemma int32_status st : int32 st -> s32 st = st.
Proof using. intros. by apply swrap_small. Qed.

Lemma copy_in_parts {A} q n data (f : bytes -> A) :
  copy_in q n = Some data -> (d ← copy_in q n; Some (f d)) = Some (f data).
Proof using. by intros ->. Qed.

Lemma remote_set x c client u n pd flags data :
  sv_ok remote_view (x, c) -> fits 64 u -> fits 64 n -> fits 32 flags -> copy_in pd n = Some data ->
  exists st d', secure_storage_client_set (x, c) client u n pd flags = Some (st, d') /\ sv_ok remote_view d' /\
    int32 st /\
    ((st = PSA_SUCCESS /\ from_option (negb ∘ write_once) true (sv_asset remote_view (x, c) client u) = true /\
      len data <= sv_limit remote_view /\
      exists room, updated remote_view (x, c) d' client u (Some (Asset flags room data))) \/
     (st <> PSA_SUCCESS /\ unchanged remote_view (x, c) d')).
Proof using Hsp Hlaws Hcalloc Hcap.
  intros (s & Hs & Hidle) Hu Hn Hf Hd. unfold secure_storage_client_set. simpl fst. simpl snd.
  pose proof (copy_in_len pd n data (proj1 Hn) Hd) as Hdl. rewrite (copy_in_parts _ _ _ _ Hd).
  pose proof (remote_ok x c s _ Hs Hidle) as Hok.
  destruct (_ && _).
  { eexists _, _. split; [done|]. split; [by exists s|]. split; [done|]. right. split; [done|].
    by apply remote_unchanged. }
  destruct (Z.gtb_spec (20 + n) (2 ^ 64 - 1)).
  { eexists _, _. split; [done|]. split; [by exists s|]. split; [done|]. right. split; [done|].
    by apply remote_unchanged. }
  unfold fits in Hn. set (y := with_rpc_status x RPC_SUCCESS).
  destruct (Z.ltb_spec cap (20 + n)).
  { match goal with |- context [secure_storage_call _ ?ps ?a ?b ?o ?f ?t ?k] =>
      destruct (refused_call y s c (service_state c) ps a b o f t k Hs Hidle) as (x' & Hs' & ->); [lia..|] end.
    cbn [mbind option_bind]. eexists _, _. split; [done|]. split; [by exists s|]. split; [done|]. right.
    split; [done|]. by apply remote_unchanged. }
  match goal with |- context [secure_storage_call _ (Some ?ps) ?a ?b ?o ?f ?t ?k] =>
    destruct (remote_call y s c (service_state c) ps a b o f t k (SetAsset u data flags) Hs Hidle)
      as (r & m & j & x' & s' & c' & p' & Hspec & Hs' & Hidle' & Hbody & ->) end;
    [cbn [concat]; rewrite app_nil_r, !len_app, !len_le_split; lia|lia|lia|done| |done|].
  { intros m Hsl Hlm. cbn [concat] in Hsl. rewrite app_nil_r in Hsl.
    rewrite (wrap_small 32 flags) in Hsl by exact Hf.
    apply three_fields in Hsl as (F0 & F1 & F2 & F3); [|lia|lia|done|done|exact Hf].
    change (Z.of_nat 4) with 4 in *. unfold parse_call. cbn [opcode request_data_length response_size region]. simpl default.
    simpl Z.eqb. cbv match zeta. rewrite F0, F1, F2.
    destruct (Z.ltb_spec (20 + n) 20); [lia|]. destruct (Z.ltb_spec (20 + n) (20 + n)); [lia|].
    rewrite <- Hdl. change (16 + 4) with 20 in F3. by rewrite F3. }
  cbn [mbind option_bind status_only]. simpl (RPC_SUCCESS =? RPC_SUCCESS). cbv match.
  eexists _, _. split; [done|]. split; [by eapply remote_ok|].
  rewrite <- (idle_state _ _ _ Hidle') in Hspec.
  inversion Hspec; subst; cbn [r_status] in *; (rewrite int32_status by done); (split; [done|]).
  - left. split; [done|]. split; [done|]. split; [simpl; lia|]. eexists. by apply remote_updated.
  - right. split; [done|]. by apply remote_unchanged.
Qed.


Lemma remote_get x c client u off n pd k :
  sv_ok remote_view (x, c) -> fits 64 u -> fits 64 off -> fits 64 n ->
  (0 < n -> exists b, pd = Some b /\ forall a, sv_asset remote_view (x, c) client u = Some a ->
     Z.min (len (a_data a) - off) n <= len b) ->
  exists st q' k' d', secure_storage_client_get (x, c) client u off n pd k = Some (st, q', k', d') /\
    sv_ok remote_view d' /\ unchanged remote_view (x, c) d' /\ int32 st /\ len <$> q' = len <$> pd /\
    match sv_asset remote_view (x, c) client u with
    | Some a =>
        (off <= len (a_data a) -> n <= sv_limit remote_view -> st = PSA_SUCCESS) /\
        (st = PSA_SUCCESS -> off <= len (a_data a) /\ k' = Z.min (len (a_data a) - off) n /\
           copy_out pd (slice (a_data a) off k') = Some q')
    | None => st <> PSA_SUCCESS /\ (u <> 0 -> n <= sv_limit remote_view -> st = PSA_ERROR_DOES_NOT_EXIST)
    end /\ (st <> PSA_SUCCESS -> k' = k \/ k' = 0).
Proof using Hsp Hlaws Hcalloc Hcap.
  intros (s & Hs & Hidle) Hu Hoff Hn Hbuf. unfold secure_storage_client_get.
  assert ((match pd with None => true | Some _ => false end) && negb (n =? 0) = false) as ->.
  { destruct (Z.eqb_spec n 0); [by rewrite andb_false_r|]. destruct Hbuf as (b & -> & _); [unfold fits in *; lia|done]. }
  unfold fits in Hn. destruct (Z.ltb_spec cap n).
  { match goal with |- context [secure_storage_call _ ?ps ?a ?b ?o ?f ?t ?k] =>
      destruct (refused_call x s c (service_state c) ps a b o f t k Hs Hidle) as (x' & Hs' & ->); [lia..|] end.
    cbn [mbind option_bind]. eexists _, _, _, _. split; [done|]. split; [by exists s|].
    split; [by apply remote_unchanged|]. split; [done|]. split; [done|]. split; [|by left].
    simpl. destruct (sv_asset V _ id u); split; [lia|done..|lia]. }
  match goal with |- context [secure_storage_call _ (Some ?ps) ?a ?b ?o ?f ?t ?k] =>
    destruct (remote_call x s c (service_state c) ps a b o f t k (GetData u off n) Hs Hidle)
      as (r & m & j & x' & s' & c' & p' & Hspec & Hs' & Hidle' & Hbody & ->) end;
    [cbn [concat]; rewrite app_nil_r, !len_app, !len_le_split; lia|lia|lia|done| |done|].
  { intros m Hsl Hlm. cbn [concat] in Hsl.
    rewrite (wrap_small 64 n) in Hsl by lia.
    apply three_fields in Hsl as (F0 & F1 & F2 & _); [|lia|done|done|done|lia].
    change (Z.of_nat 8) with 8 in *. unfold parse_call. cbn [opcode request_data_length response_size region].
    simpl default. simpl Z.eqb. cbv match zeta. rewrite F0, F1, F2. do 2 f_equal. lia. }
  rewrite <- (idle_state _ _ _ Hidle') in Hspec. simpl (RPC_SUCCESS =? RPC_SUCCESS). simpl negb. simpl orb.
  inversion Hspec as [| |u1 off1 n1 a d1 Ha Hle Hun E1 E2|u1 off1 n1 st d1 Hne Hint Hun Hcase E1 E2|
    | | | | | | | |]; subst; cbn [r_status reply_body r_data] in *.
  - rewrite slice_len in Hbody by (unfold fits in *; lia). destruct Hbody as (-> & Hj & Hsl).
    destruct (Z.gtb_spec (Z.min (len (a_data a) - off) n) n); [lia|].
    rewrite int32_status by done. simpl (PSA_SUCCESS =? PSA_SUCCESS). cbv match.
    set (j := Z.min (len (a_data a) - off) n) in *.
    assert (copy_in (Some m) j = Some (slice (a_data a) off j)) as ->.
    { unfold copy_in. destruct (Z.eqb_spec j 0) as [->|]; [by rewrite slice_nil|]. simpl.
      unfold fits in *. rewrite load_is_slice by lia. by rewrite Hsl. }
    cbn [mbind option_bind].
    assert (len (slice (a_data a) off j) = j) as Hlj by (apply slice_len; unfold fits in *; lia).
    assert (exists q, copy_out pd (slice (a_data a) off j) = Some q /\ len <$> q = len <$> pd) as (q & Hq & Hlq).
    { destruct (Z.eqb_spec j 0) as [Hz|Hz]; [exists pd; unfold copy_out; by rewrite Hlj, Hz|].
      destruct Hbuf as (b & -> & Hb); [unfold fits in *; lia|]. specialize (Hb a Ha).
      destruct (copy_out_ok b (slice (a_data a) off j)) as (b' & Hb' & Hlb'); [lia|].
      exists (Some b'). split; [done|]. simpl. by rewrite Hlb'. }
    rewrite Hq. cbn [mbind option_bind]. eexists _, _, _, _. split; [done|]. split; [by eapply remote_ok|].
    split; [by apply remote_unchanged|]. split; [done|]. split; [done|]. cbn [sv_asset remote_view]. rewrite Ha.
    split; [|done]. split; [done|]. intros _. done.
  - destruct (Z.eqb_spec st PSA_SUCCESS); [done|]. subst j. destruct (Z.gtb_spec 0 n); [lia|].
    rewrite int32_status by done. simpl negb. destruct (Z.eqb_spec st PSA_SUCCESS); [done|].
    simpl negb. cbv match. cbn [mbind option_bind]. eexists _, _, _, _. split; [done|]. split; [by eapply remote_ok|].
    split; [by apply remote_unchanged|]. split; [done|]. split; [done|]. split; [|by left].
    cbn [sv_asset sv_limit remote_view]. destruct (sv_asset V _ id u) as [a|].
    + split; [|done]. intros H1 H2. lia.
    + split; [done|]. intros H1 H2. apply Hcase; [done|lia].
Qed.

Lemma remote_get_info x c client u i :
  sv_ok remote_view (x, c) -> fits 64 u ->
  exists st i' d', secure_storage_client_get_info (x, c) client u (Some i) = Some (st, Some i', d') /\
    sv_ok remote_view d' /\ unchanged remote_view (x, c) d' /\ int32 st /\
    match sv_asset remote_view (x, c) client u with
    | Some a => st = PSA_SUCCESS /\ si_size i' = u32 (len (a_data a)) /\ si_flags i' = a_flags a /\
                fits 32 (si_capacity i')
    | None => st <> PSA_SUCCESS /\ (u <> 0 -> st = PSA_ERROR_DOES_NOT_EXIST)
    end.
Proof using Hsp Hlaws Hcalloc Hcap.
  intros (s & Hs & Hidle) Hu. unfold secure_storage_client_get_info.
  match goal with |- context [secure_storage_call _ (Some ?ps) ?a ?b ?o ?f ?t ?k] =>
    destruct (remote_call x s c (service_state c) ps a b o f t k (GetInfo u) Hs Hidle)
      as (r & m & j & x' & s' & c' & p' & Hspec & Hs' & Hidle' & Hbody & ->) end;
    [cbn [concat]; rewrite app_nil_r, !len_le_split; lia|lia|lia|done| |done|].
  { intros m Hsl Hlm. cbn [concat] in Hsl. rewrite app_nil_r in Hsl.
    apply one_field in Hsl; [|lia|done|done]. unfold parse_call.
    cbn [opcode request_data_length response_size region]. simpl default. simpl Z.eqb. cbv match zeta.
    destruct (Z.ltb_spec (len m) 20); [lia|]. simpl. by rewrite Hsl. }
  rewrite <- (idle_state _ _ _ Hidle') in Hspec. simpl (RPC_SUCCESS =? RPC_SUCCESS). simpl negb. simpl orb.
  pose proof (remote_idle_ok _ _ _ Hidle) as Hok.
  inversion Hspec as [| | | |u1 a room d1 Ha Hun Hroom E1 E2|u1 st d1 Ha Hne Hint Hun Hst E1 E2| | | | | | |];
    subst; cbn [r_status reply_body r_info] in *.
  - destruct Hbody as (-> & Hj & Hsl). destruct (law_asset _ _ _ _ Hok Ha) as [Hfl _].
    assert (len (info_body (StorageInfo room (u32 (len (a_data a))) (a_flags a))) = 20) as Hlen
      by (unfold info_body; by rewrite !len_app, !len_le_split).
    rewrite Hlen in *. simpl (PSA_SUCCESS =? PSA_SUCCESS). simpl (20 =? 20). simpl andb. cbv match.
    rewrite int32_status by done. simpl (PSA_SUCCESS =? PSA_SUCCESS). cbv match. cbn [mbind option_bind].
    unfold info_body in Hsl. cbn [si_capacity si_size si_flags] in Hsl.
    pose proof (wrap_fits 32 (len (a_data a)) ltac:(lia)) as Hw.
    rewrite (wrap_small 32 (a_flags a)), <- (app_nil_r (_ ++ _ ++ _)) in Hsl by exact Hfl.
    apply three_fields in Hsl as (F0 & F1 & F2 & _); [|lia|done|unfold fits in *; lia..|exact Hfl].
    change (Z.of_nat 4) with 4 in F2. rewrite !get_uint_ok by lia. cbn [mbind option_bind].
    rewrite F0, F1, F2. eexists _, _, _. split; [done|]. split; [by eapply remote_ok|].
    split; [by apply remote_unchanged|]. split; [done|]. cbn [sv_asset remote_view]. rewrite Ha.
    split; [done|]. cbn [si_capacity si_size si_flags]. split; [by apply wrap_idem|]. split; [done|].
    by apply wrap_fits.
  - destruct (Z.eqb_spec st PSA_SUCCESS); [done|]. simpl andb. cbv match. rewrite int32_status by done.
    destruct (Z.eqb_spec st PSA_SUCCESS); [done|]. cbn [mbind option_bind].
    eexists _, _, _. split; [done|]. split; [by eapply remote_ok|]. split; [by apply remote_unchanged|].
    split; [done|]. cbn [sv_asset remote_view]. by rewrite Ha.
Qed.


Lemma remote_remove x c client u :
  sv_ok remote_view (x, c) -> fits 64 u ->
  exists st d', secure_storage_client_remove (x, c) client u = Some (st, d') /\ sv_ok remote_view d' /\ int32 st /\
    match sv_asset remote_view (x, c) client u with
    | Some a => if write_once a then st <> PSA_SUCCESS /\ unchanged remote_view (x, c) d'
                else st = PSA_SUCCESS /\ updated remote_view (x, c) d' client u None
    | None => st <> PSA_SUCCESS /\ unchanged remote_view (x, c) d' /\ (u <> 0 -> st = PSA_ERROR_DOES_NOT_EXIST)
    end.
Proof using Hsp Hlaws Hcalloc Hcap.
  intros (s & Hs & Hidle) Hu. unfold secure_storage_client_remove.
  match goal with |- context [secure_storage_call _ (Some ?ps) ?a ?b ?o ?f ?t ?k] =>
    destruct (remote_call x s c (service_state c) ps a b o f t k (RemoveAsset u) Hs Hidle)
      as (r & m & j & x' & s' & c' & p' & Hspec & Hs' & Hidle' & _ & ->) end;
    [cbn [concat]; rewrite app_nil_r, !len_le_split; lia|lia|lia|done| |done|].
  { intros m Hsl Hlm. cbn [concat] in Hsl. rewrite app_nil_r in Hsl.
    apply one_field in Hsl; [|lia|done|done]. unfold parse_call.
    cbn [opcode request_data_length response_size region]. simpl default. simpl Z.eqb. cbv match zeta.
    simpl. by rewrite Hsl. }
  rewrite <- (idle_state _ _ _ Hidle') in Hspec. cbn [mbind option_bind status_only].
  simpl (RPC_SUCCESS =? RPC_SUCCESS). cbv match. eexists _, _. split; [done|]. split; [by eapply remote_ok|].
  cbn [sv_asset remote_view].
  inversion Hspec as [| | | | | |u1 a d1 Ha Hw Hup E1 E2|u1 st d1 Hw Hne Hint Hun Hst E1 E2| | | | |];
    subst; cbn [r_status]; rewrite int32_status by done; (split; [done|]).
  - rewrite Ha, Hw. split; [done|]. by apply remote_updated.
  - destruct (sv_asset V _ id u) as [a|]; simpl in Hw; [rewrite Hw|]; (split; [done|]);
      [by apply remote_unchanged|]. split; [by apply remote_unchanged|auto].
Qed.

Lemma remote_create x c client u room flags :
  sv_ok remote_view (x, c) -> fits 64 u -> fits 64 room -> fits 32 flags ->
  exists st d', secure_storage_client_create (x, c) client u room flags = Some (st, d') /\
    sv_ok remote_view d' /\ int32 st /\
    ((st = PSA_SUCCESS /\ sv_asset remote_view (x, c) client u = None /\
      updated remote_view (x, c) d' client u (if u =? 0 then None else Some (Asset flags room []))) \/
     (st <> PSA_SUCCESS /\ unchanged remote_view (x, c) d')).
Proof using Hsp Hlaws Hcalloc Hcap.
  intros (s & Hs & Hidle) Hu Hr Hf. unfold secure_storage_client_create.
  match goal with |- context [secure_storage_call _ (Some ?ps) ?a ?b ?o ?f ?t ?k] =>
    destruct (remote_call x s c (service_state c) ps a b o f t k (CreateAsset u room flags) Hs Hidle)
      as (r & m & j & x' & s' & c' & p' & Hspec & Hs' & Hidle' & _ & ->) end;
    [cbn [concat]; rewrite app_nil_r, !len_app, !len_le_split; lia|lia|lia|done| |done|].
  { intros m Hsl Hlm. cbn [concat] in Hsl. rewrite (wrap_small 32 flags) in Hsl by exact Hf.
    apply three_fields in Hsl as (F0 & F1 & F2 & _); [|lia|done|done|done|exact Hf].
    change (Z.of_nat 4) with 4 in *. unfold parse_call. cbn [opcode request_data_length response_size region].
    simpl default. simpl Z.eqb. cbv match zeta. simpl. by rewrite F0, F1, F2. }
  rewrite <- (idle_state _ _ _ Hidle') in Hspec. cbn [mbind option_bind status_only].
  simpl (RPC_SUCCESS =? RPC_SUCCESS). cbv match. eexists _, _. split; [done|]. split; [by eapply remote_ok|].
  inversion Hspec; subst; cbn [r_status]; rewrite int32_status by done; (split; [done|]).
  - left. split; [done|]. split; [done|]. by apply remote_updated.
  - right. split; [done|]. by apply remote_unchanged.
Qed.

Lemma remote_set_extended x c client u off n b data :
  sv_ok remote_view (x, c) -> fits 64 u -> 0 <= off -> off + n < 2 ^ 64 -> load b 0 n = Some data ->
  exists st d', secure_storage_set_extended (x, c) client u off n (Some b) = Some (st, d') /\
    sv_ok remote_view d' /\ int32 st /\
    match sv_asset remote_view (x, c) client u with
    | Some a =>
        (off + n <= a_room a -> n <= sv_extend_limit remote_view -> st = PSA_SUCCESS) /\
        ((st = PSA_SUCCESS /\ off + n <= a_room a /\ exists y, extended (a_data a) off data y /\
            updated remote_view (x, c) d' client u (Some (Asset (a_flags a) (a_room a) y))) \/
         (st <> PSA_SUCCESS /\ unchanged remote_view (x, c) d'))
    | None => unchanged remote_view (x, c) d' /\ (u <> 0 -> st <> PSA_SUCCESS)
    end.
Proof using Hsp Hlaws Hcalloc Hcap.
  intros (s & Hs & Hidle) Hu Hoff Hsum Hd. pose proof (load_len _ _ _ _ Hd) as Hdl. pose proof (len_nonneg data).
  unfold secure_storage_set_extended. destruct (Z.gtb_spec (24 + n) (2 ^ 64 - 1)).
  { pose proof (load_Some _ _ _ _ Hd) as (_ & _ & Hlb & _). eexists _, _. split; [done|]. split; [by exists s|].
    split; [done|]. pose proof (capacity_bound _ _ _ _ _ _ _ _ _ Hidle). cbn [sv_asset sv_extend_limit remote_view].
    destruct (sv_asset V _ id u); [|split; [by apply remote_unchanged|done]].
    split; [lia|]. right. split; [done|]. by apply remote_unchanged. }
  assert (copy_in (Some b) n = Some data) as Hcp.
  { unfold copy_in. destruct (Z.eqb_spec n 0) as [->|]; [|done]. by destruct data; [|len_lia]. }
  rewrite (copy_in_parts _ _ _ _ Hcp). destruct (Z.ltb_spec cap (24 + n)).
  { match goal with |- context [secure_storage_call _ ?ps ?a ?b ?o ?f ?t ?k] =>
      destruct (refused_call x s c (service_state c) ps a b o f t k Hs Hidle) as (x' & Hs' & ->); [lia..|] end.
    cbn [mbind option_bind]. eexists _, _. split; [done|]. split; [by exists s|]. split; [done|].
    cbn [sv_asset sv_extend_limit remote_view].
    destruct (sv_asset V _ id u); [|split; [by apply remote_unchanged|done]].
    split; [lia|]. right. split; [done|]. by apply remote_unchanged. }
  match goal with |- context [secure_storage_call _ (Some ?ps) ?a ?b ?o ?f ?t ?k] =>
    destruct (remote_call x s c (service_state c) ps a b o f t k (ExtendAsset u off data) Hs Hidle)
      as (r & m & j & x' & s' & c' & p' & Hspec & Hs' & Hidle' & _ & ->) end;
    [cbn [concat]; rewrite app_nil_r, !len_app, !len_le_split; lia|lia|lia|done| |simpl; lia|].
  { intros m Hsl Hlm. cbn [concat] in Hsl. rewrite app_nil_r, (wrap_small 64 n) in Hsl by lia.
    apply three_fields in Hsl as (F0 & F1 & F2 & F3); [|lia|lia|done|unfold fits; lia|lia].
    change (Z.of_nat 8) with 8 in *. unfold parse_call. cbn [opcode request_data_length response_size region].
    simpl default. simpl Z.eqb. cbv match zeta. rewrite F0, F1, F2.
    destruct (Z.ltb_spec (24 + n) 24); [lia|]. destruct (Z.ltb_spec (24 + n) (24 + n)); [lia|].
    rewrite <- Hdl. change (16 + 8) with 24 in F3. by rewrite F3. }
  rewrite <- (idle_state _ _ _ Hidle') in Hspec. cbn [mbind option_bind status_only].
  simpl (RPC_SUCCESS =? RPC_SUCCESS). cbv match. eexists _, _. split; [done|]. split; [by eapply remote_ok|].
  cbn [sv_asset sv_extend_limit remote_view].
  inversion Hspec as [| | | | | | | | | |u1 off1 data1 a y d1 Ha Hr Hy Hup E1 E2|u1 off1 data1 st d1 Hint Hun Hst E1 E2|];
    subst; cbn [r_status]; rewrite int32_status by done; (split; [done|]).
  - rewrite Ha. split; [done|]. left. split; [done|]. split; [lia|]. exists y. split; [done|]. by apply remote_updated.
  - destruct (sv_asset V _ id u) as [a|]; [|split; [by apply remote_unchanged|done]].
    destruct Hst as [Hne Hr]. split; [lia|]. right. split; [done|]. by apply remote_unchanged.
Qed.

Lemma remote_get_support x c client :
  sv_ok remote_view (x, c) ->
  exists v d', secure_storage_get_support (x, c) client = Some (v, d') /\ sv_ok remote_view d' /\
    unchanged remote_view (x, c) d' /\ fits 32 v.
Proof using Hsp Hlaws Hcalloc Hcap.
  intros (s & Hs & Hidle). unfold secure_storage_get_support.
  match goal with |- context [secure_storage_call _ (Some ?ps) ?a ?b ?o ?f ?t ?k] =>
    destruct (remote_call x s c (service_state c) ps a b o f t k GetSupport Hs Hidle)
      as (r & m & j & x' & s' & c' & p' & Hspec & Hs' & Hidle' & Hbody & ->) end;
    [done|lia|lia|done| |done|].
  { intros m _ Hlm. unfold parse_call. cbn [opcode response_size]. simpl Z.eqb. cbv match zeta.
    destruct (Z.ltb_spec (len m) 4); [lia|done]. }
  rewrite <- (idle_state _ _ _ Hidle') in Hspec.
  inversion Hspec as [| | | | | | | | | | | |v d1 Hv Hun E1 E2]; subst. cbn [r_status reply_body r_info si_flags] in *.
  simpl (PSA_SUCCESS =? PSA_SUCCESS) in Hbody. cbv match in Hbody. rewrite len_le_split in Hbody.
  change (Z.of_nat 4) with 4 in Hbody. destruct Hbody as (-> & Hj & Hsl).
  simpl (RPC_SUCCESS =? RPC_SUCCESS). simpl negb. simpl orb. simpl (4 <? 4). cbv match.
  rewrite int32_status by done. simpl (PSA_SUCCESS =? PSA_SUCCESS). cbv match. cbn [mbind option_bind].
  simpl negb. cbv match. rewrite get_uint_ok by lia. cbn [mbind option_bind].
  unfold uint_at. rewrite Hsl, le_combine_split, !wrap_idem by lia.
  eexists _, _. split; [done|]. split; [by eapply remote_ok|]. split; [by apply remote_unchanged|].
  by apply wrap_fits.
Qed.

#[export] Instance secure_storage_client_laws : StorageLaws secure_storage_client_interface remote_view.
Proof using Hsp Hlaws Hcalloc Hcap.
  split.
  - intros [x c] client (s & _ & Hi).
    exact (no_asset_0 _ id (remote_idle_ok _ _ _ Hi)).
  - intros [x c] client u a (s & _ & Hi) Ha. exact (law_asset _ id u a (remote_idle_ok _ _ _ Hi) Ha).
  - intros [x c]. apply remote_set.
  - intros [x c]. apply remote_get.
  - intros [x c]. apply remote_get_info.
  - intros [x c]. apply remote_remove.
  - intros [x c]. apply remote_create.
  - intros [x c]. apply remote_set_extended.
  - intros [x c]. apply remote_get_support.
Qed.


End Remote.

(** Where no call can begin, nothing is created and PSA_SUCCESS is returned. *)
Lemma create_without_session {C} (x : service_client C) c client u room flags :
  session x = None -> exists x', secure_storage_client_create (x, c) client u room flags = Some (PSA_SUCCESS, (x', c)).
Proof. intros Hs. unfold secure_storage_client_create, secure_storage_call. rewrite Hs. by eexists. Qed.

(** ** Under an allocator that can fail *)

(** The shared memory a request needs. *)
Definition storage_message (o : storage_op) : Z :=
  match o with
  | SetAsset _ data _ => 20 + len data
  | GetData _ _ n => Z.max 24 n
  | GetInfo _ => 20
  | RemoveAsset _ => 8
  | CreateAsset _ _ _ => 20
  | ExtendAsset _ _ data => 24 + len data
  | GetSupport => 4
  end.

Section Lockstep.
Context {S : Type} (calloc_ok : Z -> bool) (ctx : direct_caller_context S) (size : Z).
Abbreviation context := (service_client (direct_state S) * direct_state S)%type.
Implicit Types x : context.

Definition endless_storage x : context := (endless_client ctx (fst x), snd x).

Definition over_storage x : Prop := over_client calloc_ok ctx size (fst x).

Definition storage_lockstep {A} (r r' : option (A * context)) : Prop :=
  match r with
  | None => r' = None
  | Some (a, x) => r' = Some (a, endless_storage x) /\ over_storage x
  end.

Lemma storage_lockstep_bind {A B} (r r' : option (A * context)) (f f' : A * context -> option (B * context)) :
  storage_lockstep r r' ->
  (forall a x, over_storage x -> storage_lockstep (f (a, x)) (f' (a, endless_storage x))) ->
  storage_lockstep (p ← r; f p) (p ← r'; f' p).
Proof using.
  intros H Hf. destruct r as [[a x]|]; simpl in H; [destruct H as [-> Ho]; by apply Hf|by subst r'].
Qed.

Lemma storage_call_lockstep {A} x parts n rm op failed (a : A) after :
  over_storage x -> allocated calloc_ok size [Z.max n rm] ->
  storage_lockstep (secure_storage_call x parts n rm op failed a after)
    (secure_storage_call (endless_storage x) parts n rm op failed a after).
Proof using.
  destruct x as [x c]. intros (s & Hs & Ho) Hal. unfold secure_storage_call, endless_storage, endless_client.
  cbn [fst snd with_session session] in *. rewrite Hs. cbn [fmap option_fmap option_map].
  destruct (begin_lockstep calloc_ok ctx size s true n rm c Ho Hal) as (h & s1 & c1 & Ho1 & -> & ->).
  destruct h; [|by split; [done|exists s1]]. destruct parts as [parts|]; [|done]. cbn [mbind option_bind].
  pose proof (copy_lockstep calloc_ok ctx size (with_session x (Some s1)) s1 0 parts eq_refl Ho1) as Hcopy.
  unfold endless_client, with_session in Hcopy |- *.
  cbn [session rpc_status client_service_info fmap option_fmap option_map] in Hcopy |- *.
  destruct (copy_parts _ 0 parts) as [x2|]; [|by rewrite Hcopy].
  destruct Hcopy as [-> (s2 & Hs2 & Ho2)]. cbn [mbind option_bind session].
  rewrite Hs2. cbn [fmap option_fmap option_map].
  pose proof (invoke_lockstep calloc_ok ctx size s2 op true true None 0 0 c1 Ho2) as Hinv.
  destruct (rpc_caller_session_invoke _ _ _ _ _ _ _ _) as [[[[[[st rb] rl] ss] s3] c3]|]; [|by rewrite Hinv].
  destruct Hinv as (s3' & -> & Ho3 & ->). cbn [mbind option_bind].
  destruct (after st rb rl ss) as [[st2 a2]|]; [|done]. cbn [mbind option_bind session].
  destruct (end_lockstep calloc_ok ctx size s3' c3 Ho3) as (st4 & s4 & c4 & Ho4 & -> & ->).
  split; [done|by exists s4].
Qed.

Lemma set_lockstep x client u n pd flags :
  over_storage x -> allocated calloc_ok size [Z.max (20 + n) 0] ->
  storage_lockstep (secure_storage_client_set x client u n pd flags)
    (secure_storage_client_set (endless_storage x) client u n pd flags).
Proof using.
  intros Ho Hal. unfold secure_storage_client_set.
  change (with_rpc_status (fst (endless_storage x)) RPC_SUCCESS, snd (endless_storage x))
    with (endless_storage (with_rpc_status (fst x) RPC_SUCCESS, snd x)).
  assert (over_storage (with_rpc_status (fst x) RPC_SUCCESS, snd x)) as Ho' by exact Ho.
  destruct (_ && _); [by split|]. destruct (_ >? _); [by split|].
  apply storage_lockstep_bind; [by apply storage_call_lockstep|by intros []].
Qed.

Lemma get_lockstep x client u off n pd k :
  over_storage x -> allocated calloc_ok size [Z.max 24 n] ->
  storage_lockstep (secure_storage_client_get x client u off n pd k)
    (secure_storage_client_get (endless_storage x) client u off n pd k).
Proof using.
  intros Ho Hal. unfold secure_storage_client_get. destruct (_ && _); [by split|].
  apply storage_lockstep_bind; [by apply storage_call_lockstep|by intros [? []]].
Qed.

Lemma get_info_lockstep x client u i :
  over_storage x -> allocated calloc_ok size [20] ->
  storage_lockstep (secure_storage_client_get_info x client u i)
    (secure_storage_client_get_info (endless_storage x) client u i).
Proof using.
  intros Ho Hal. unfold secure_storage_client_get_info. destruct i; [|by split].
  apply storage_lockstep_bind; [by apply storage_call_lockstep|by intros []].
Qed.

Lemma remove_lockstep x client u :
  over_storage x -> allocated calloc_ok size [8] ->
  storage_lockstep (secure_storage_client_remove x client u)
    (secure_storage_client_remove (endless_storage x) client u).
Proof using. intros Ho Hal. apply storage_lockstep_bind; [by apply storage_call_lockstep|by intros []]. Qed.

Lemma create_lockstep x client u room flags :
  over_storage x -> allocated calloc_ok size [20] ->
  storage_lockstep (secure_storage_client_create x client u room flags)
    (secure_storage_client_create (endless_storage x) client u room flags).
Proof using. intros Ho Hal. apply storage_lockstep_bind; [by apply storage_call_lockstep|by intros []]. Qed.

Lemma set_extended_lockstep x client u off n pd :
  over_storage x -> allocated calloc_ok size [Z.max (24 + n) 0] ->
  storage_lockstep (secure_storage_set_extended x client u off n pd)
    (secure_storage_set_extended (endless_storage x) client u off n pd).
Proof using.
  intros Ho Hal. unfold secure_storage_set_extended. destruct pd; [|by split]. destruct (_ >? _); [by split|].
  apply storage_lockstep_bind; [by apply storage_call_lockstep|by intros []].
Qed.

Lemma get_support_lockstep x client :
  over_storage x -> allocated calloc_ok size [4] ->
  storage_lockstep (secure_storage_get_support x client) (secure_storage_get_support (endless_storage x) client).
Proof using. intros Ho Hal. apply storage_lockstep_bind; [by apply storage_call_lockstep|by intros []]. Qed.

Lemma run_op_lockstep x client o :
  over_storage x -> allocated calloc_ok size [storage_message o] ->
  storage_lockstep (run_op secure_storage_client_interface client x o)
    (run_op secure_storage_client_interface client (endless_storage x) o).
Proof using.
  intros Ho Hal. destruct o as [u data f|u off n|u|u|u room f|u off data|];
    cbn [run_op storage_message secure_storage_client_interface sb_set sb_get sb_get_info sb_remove sb_create
         sb_set_extended sb_get_support] in *; try pose proof (len_nonneg data);
    apply storage_lockstep_bind.
  - apply set_lockstep; [done|]. by rewrite Z.max_l by lia.
  - done.
  - by apply get_lockstep.
  - intros [[st p] k] y Hy. destruct (st =? PSA_SUCCESS); [|done]. destruct p; [|done]. cbn [mbind option_bind].
    by destruct (load _ 0 k).
  - by apply get_info_lockstep.
  - intros [st [i|]] y Hy; done.
  - by apply remove_lockstep.
  - done.
  - by apply create_lockstep.
  - done.
  - apply set_extended_lockstep; [done|]. by rewrite Z.max_l by lia.
  - done.
  - by apply get_support_lockstep.
  - done.
Qed.

Lemma run_ops_lockstep x client ops :
  over_storage x -> allocated calloc_ok size (map storage_message ops) ->
  storage_lockstep (run_ops secure_storage_client_interface client x ops)
    (run_ops secure_storage_client_interface client (endless_storage x) ops).
Proof using.
  revert x. induction ops as [|o ops IH]; intros x Ho Hal; [done|].
  cbn [map] in Hal. apply allocated_cons in Hal as [Hal Hops]. cbn [run_ops].
  apply storage_lockstep_bind; [by apply run_op_lockstep|]. intros a y Hy.
  apply storage_lockstep_bind; [by apply IH|done].
Qed.

End Lockstep.

(** ** Properties *)

Lemma endless_storage_refines {C} (I : storage_backend_interface C) (V : storage_view C) uuid svc
    id s0 service_uuid e size live d s c x0 x interface client ops :
  StorageLaws I V ->
  secure_storage_provider_init I true true uuid = Some (Some svc) -> sv_ok V d -> 0 <= size < 2 ^ 32 ->
  rpc_caller_session_open (Some s0) (Some (Direct.interface (fun _ => true) (DirectContext svc id)))
    (Some service_uuid) e size (DirectState live d) = (RPC_SUCCESS, Some s, c) ->
  24 <= session_capacity s -> secure_storage_client_init x0 (Some s) = (Some x, interface) ->
  Forall op_ok ops ->
  exists rs x' c', run_ops interface client (x, c) ops = Some (rs, (x', c')) /\ sv_ok V (service_state c') /\
    storage_history (Z.min (sv_limit V) (session_capacity s))
      (Z.min (sv_extend_limit V) (session_capacity s - 24)) client
      (sv_asset V d id) ops rs (sv_asset V (service_state c') id).
Proof.
  intros Hlaws (sp & Hsp & ->)%provider_init_interface Hok Hsize Hopen Hcap Hinit Hops.
  pose proof (open_idle (fun _ => true) (fun _ => eq_refl) _ id (sv_ok V) s0 service_uuid e size live d s c Hok Hsize Hopen) as Hidle.
  injection Hinit as <- <-. set (x := ServiceClient (Some s) RPC_SUCCESS (ServiceInfo 0 4096)).
  pose proof (idle_state V sp (fun _ => true) id live _ s c d Hidle) as Hst.
  pose proof (secure_storage_client_laws I V uuid sp Hsp (fun _ => true) (fun _ => eq_refl) id live (session_capacity s) Hcap) as Hc.
  destruct (lawful_run _ _ client (x, c) ops (remote_ok V sp (fun _ => true) id live _ x c s d eq_refl Hidle) Hops)
    as (rs & [x' c'] & Hrun & (s' & _ & Hi') & Hh).
  exists rs, x', c'. split; [done|]. split; [by eapply remote_idle_ok|]. cbn [sv_asset remote_view sv_limit sv_extend_limit] in Hh.
  by rewrite Hst in Hh.
Qed.

(** C36: End to end: a client that uses a storage backend through a session and the secure
    storage service gets, for any sequence of requests, the replies of the assets the backend
    keeps for it, and no call faults.  A read or a partial write that fits the session's
    memory with the header of its message succeeds when the asset, its size and its room
    allow it; whether there is room for an asset that is set or created is the backend's
    choice, and a refusal changes nothing.  The condition is that calloc gives what this
    run asks it for: the memory of the session or, where the session has none, that of each
    request ([allocated]).  Where it does not, the direct caller hands out NULL, which the
    client writes to ([set_unallocated]). *)
Theorem secure_storage_client_refines {C} (I : storage_backend_interface C) (V : storage_view C) uuid svc
    calloc_ok id s0 service_uuid e size live d s c x0 x interface client ops :
  StorageLaws I V -> allocated calloc_ok size (map storage_message ops) ->
  secure_storage_provider_init I true true uuid = Some (Some svc) -> sv_ok V d -> 0 <= size < 2 ^ 32 ->
  rpc_caller_session_open (Some s0) (Some (Direct.interface calloc_ok (DirectContext svc id)))
    (Some service_uuid) e size (DirectState live d) = (RPC_SUCCESS, Some s, c) ->
  24 <= session_capacity s -> secure_storage_client_init x0 (Some s) = (Some x, interface) ->
  Forall op_ok ops ->
  exists rs x' c', run_ops interface client (x, c) ops = Some (rs, (x', c')) /\ sv_ok V (service_state c') /\
    storage_history (Z.min (sv_limit V) (session_capacity s))
      (Z.min (sv_extend_limit V) (session_capacity s - 24)) client
      (sv_asset V d id) ops rs (sv_asset V (service_state c') id).
Proof.
  intros Hlaws Hal Hsvc Hok Hsize Hopen Hcap Hinit Hops.
  assert (allocated calloc_ok size []) as Hnil by (revert Hal; unfold allocated; by destruct (size =? 0)).
  set (ctx := DirectContext svc id) in *. apply open_lockstep in Hopen as [Hover Hopen]; [|done].
  injection Hinit as <- <-. set (x := ServiceClient (Some s) RPC_SUCCESS (ServiceInfo 0 4096)).
  assert (over_storage calloc_ok ctx size (x, c)) as Ho by (by exists s).
  destruct (endless_storage_refines I V uuid svc id s0 service_uuid e size live d (endless ctx s) c x0
    (endless_client ctx x) secure_storage_client_interface client ops Hlaws Hsvc Hok Hsize Hopen Hcap eq_refl Hops)
    as (rs & x1 & c1 & Hrun & Hok1 & Hh).
  pose proof (run_ops_lockstep calloc_ok ctx size (x, c) client ops Ho Hal) as Hl.
  change (endless_client ctx x, c) with (endless_storage ctx (x, c)) in Hrun. rewrite Hrun in Hl.
  destruct (run_ops secure_storage_client_interface client (x, c) ops) as [[rs' [x' c']]|] eqn:E; [|done].
  destruct Hl as [[= -> -> ->] _]. exists rs', x', c'. split; [reflexivity|]. split; [exact Hok1|exact Hh].
Qed.

(** A session without memory of its own that is refused the memory of a message. *)
Lemma set_unallocated {S} calloc_ok (ctx : direct_caller_context S) x s c client u data flags :
  session x = Some s -> over calloc_ok ctx 0 s -> is_call_transaction_in_progress s = false ->
  shared_memory s = null_memory -> 20 + len data < 2 ^ 32 -> calloc_ok (20 + len data) = false ->
  secure_storage_client_set (x, c) client u (len data) (Some data) flags = None.
Proof.
  intros Hs [Hc Hp] Hprog Hm Hlt Hno. pose proof (len_nonneg data).
  unfold secure_storage_client_set, secure_storage_call, rpc_caller_session_begin. simpl andb. cbv iota.
  destruct (Z.gtb_spec (20 + len data) (2 ^ 64 - 1)); [lia|]. rewrite (copy_in_parts _ _ _ _ (copy_in_all data)).
  rewrite Z.max_l by lia. cbn [fst snd with_rpc_status session]. rewrite Hs, Hc, Hp, Hm, Hprog.
  destruct (Z.gtb_spec (20 + len data) (2 ^ 32 - 1)); [lia|]. simpl.
  unfold Direct.create_shared_memory. by rewrite Hno.
Qed.

(** Over the mock store, with a shared memory of 64 octets. *)
Definition sample_backend : storage_backend_interface MockStore.mock_store := MockStore.interface (fun _ => true).
Definition sample_mock : MockStore.mock_store := fst (MockStore.mock_store_init (fun _ => true)).

Definition sample_service : rpc_service_interface MockStore.mock_store :=
  default (Service [] (fun d req => None)) (default None (secure_storage_provider_init sample_backend true true [1])).

Definition sample_opened : rpc_caller_session (direct_state MockStore.mock_store) * direct_state MockStore.mock_store :=
  let '(_, s, c) := rpc_caller_session_open (Some (Session None null_memory 0 false 0))
    (Some (Direct.interface (fun _ => true) (DirectContext sample_service 5))) (Some [1]) 0 64
    (DirectState 0 sample_mock) in (default (Session None null_memory 0 false 0) s, c).

Definition sample_client : service_client (direct_state MockStore.mock_store) :=
  ServiceClient (Some (fst sample_opened)) RPC_SUCCESS (ServiceInfo 0 4096).

Lemma secure_storage_client_refines_witness :
  exists rs x' c', run_ops secure_storage_client_interface 0 (sample_client, snd sample_opened) sample_ops
      = Some (rs, (x', c')) /\
    sv_ok mock_view (service_state c') /\
    storage_history (Z.min (sv_limit mock_view) (session_capacity (fst sample_opened)))
      (Z.min (sv_extend_limit mock_view) (session_capacity (fst sample_opened) - 24)) 0
      (sv_asset mock_view sample_mock 5) sample_ops rs (sv_asset mock_view (service_state c') 5).
Proof.
  apply (secure_storage_client_refines sample_backend mock_view [1] sample_service (fun _ => true) 5
    (Session None null_memory 0 false 0) [1] 0 64 0 sample_mock (fst sample_opened) (snd sample_opened)
    (ServiceClient None 0 (ServiceInfo 0 0)) sample_client).
  - by apply mock_store_laws.
  - done.
  - reflexivity.
  - apply mock_init_ok.
  - lia.
  - reflexivity.
  - vm_compute. discriminate.
  - reflexivity.
  - unfold sample_ops. repeat (apply Forall_cons; split); [..|apply Forall_nil]; unfold op_ok, fits, len; simpl; lia.
Defined.

(** What the sample session reads is what it wrote. *)
Example sample_storage_replies :
  ('(rs, _) ← run_ops secure_storage_client_interface 0 (sample_client, snd sample_opened) sample_ops;
   Some (map (fun r => (r_status r, r_data r)) rs))
  = Some [(0, []); (0, [2; 3]); (0, []); (0, []); (0, [0; 0; 5]); (0, [])].
Proof. vm_compute. reflexivity. Qed.
