(* ===== verification/LuaProvider.v ===== *)
(** * components/service/lua/provider: the Lua service

    lua_provider.c keeps a pool of 16 script environments, the free ones linked
    in a list through their [next] fields, and passes scripts to a Lua virtual
    machine; packedc_lua_serializer.c decodes requests and encodes responses.

    The virtual machine is not part of the repository: [lua_vm] is the record
    of the API functions the provider calls, over the type [L] of machine
    states.  A protected call is assumed to return.  [realloc_ok] tells whether
    a reallocation of the given size succeeds. *)
From S2P Require Import Prelude Status RpcAbi RpcService RpcEndpoint.

Definition MAX_ENV_COUNT : Z := 16.
Definition NIL : Z := -1.
Definition LUA_REFNIL : Z := -1.
Definition LUA_OK : Z := 0.

Definition TS_LUA_OPCODE_BASE : Z := 512.
Definition TS_LUA_OPCODE_ENV_CREATE : Z := TS_LUA_OPCODE_BASE + 0.
Definition TS_LUA_OPCODE_ENV_APPEND : Z := TS_LUA_OPCODE_BASE + 1.
Definition TS_LUA_OPCODE_ENV_EXECUTE : Z := TS_LUA_OPCODE_BASE + 2.
Definition TS_LUA_OPCODE_ENV_DELETE : Z := TS_LUA_OPCODE_BASE + 3.

(** The standard libraries opened by the provider. *)
Inductive lua_lib := BaseLib | MathLib | StringLib | TableLib | CoroutineLib | Utf8Lib.

Record lua_vm (L : Type) := LuaVm {
  luaL_newstate : option L;
  luaL_requiref : L -> lua_lib -> L;
  lua_pop : L -> Z -> L;
  (** push the C function lua_log *)
  lua_pushcfunction : L -> L;
  (** set the global "print" *)
  lua_setglobal : L -> L;
  (** create the registry table "global_env_meta"; false if it exists *)
  luaL_newmetatable : L -> bool * L;
  lua_pushglobaltable : L -> L;
  (** set the field "__index" of the table at an index *)
  lua_setfield : L -> Z -> L;
  lua_newtable : L -> L;
  (** give the table on top the metatable "global_env_meta" *)
  luaL_setmetatable : L -> L;
  luaL_ref : L -> Z * L;
  luaL_unref : L -> Z -> L;
  (** [luaL_loadbuffer l script env_index]: the chunk is named after the environment *)
  luaL_loadbuffer : L -> bytes -> Z -> Z * L;
  lua_tostring : L -> Z -> option bytes;
  lua_rawgeti : L -> Z -> L;
  lua_setupvalue : L -> Z -> Z -> L;
  lua_pcall : L -> Z * L
}.
Arguments luaL_newstate {L}.
Arguments luaL_requiref {L}.
Arguments lua_pop {L}.
Arguments lua_pushcfunction {L}.
Arguments lua_setglobal {L}.
Arguments luaL_newmetatable {L}.
Arguments lua_pushglobaltable {L}.
Arguments lua_setfield {L}.
Arguments lua_newtable {L}.
Arguments luaL_setmetatable {L}.
Arguments luaL_ref {L}.
Arguments luaL_unref {L}.
Arguments luaL_loadbuffer {L}.
Arguments lua_tostring {L}.
Arguments lua_rawgeti {L}.
Arguments lua_setupvalue {L}.
Arguments lua_pcall {L}.

(** ** packedc_lua_serializer.c *)

(** The packed messages are one little-endian int32_t. *)
Definition ENV_INDEX_LEN : Z := 4.
Definition put_env_index (i : Z) : bytes := le_split 4 (u32 i).
Definition get_env_index (b : bytes) : Z := s32 (le_combine b).

Definition serialize_env_create_resp (resp : rpc_buffer) (env_index : Z)
    : option (Z * rpc_buffer) :=
  if ENV_INDEX_LEN <=? buf_size resp then
    d ← buf_data resp;
    d ← store d 0 (put_env_index env_index);
    Some (RPC_SUCCESS, Buffer (Some d) ENV_INDEX_LEN (buf_size resp))
  else Some (RPC_ERROR_INTERNAL, resp).

(** The script out parameter points into the request buffer: it is the offset. *)
Definition deserialize_env_append_req (req : rpc_buffer) (env_index script script_len : Z)
    : option (Z * Z * Z * Z) :=
  if ENV_INDEX_LEN <=? buf_data_length req then
    d ← buf_data req;
    m ← load d 0 ENV_INDEX_LEN;
    Some (RPC_SUCCESS, get_env_index m, ENV_INDEX_LEN, buf_data_length req - ENV_INDEX_LEN)
  else Some (RPC_ERROR_INVALID_REQUEST_BODY, env_index, script, script_len).

Definition deserialize_env_execute_req (req : rpc_buffer) (env_index : Z) : option (Z * Z) :=
  if ENV_INDEX_LEN <=? buf_data_length req then
    d ← buf_data req;
    m ← load d 0 ENV_INDEX_LEN;
    Some (RPC_SUCCESS, get_env_index m)
  else Some (RPC_ERROR_INVALID_REQUEST_BODY, env_index).

(** [err_msg] is [None] for NULL; its first [err_len] bytes are copied. *)
Definition serialize_env_execute_resp (resp : rpc_buffer) (err_msg : option bytes) (err_len : Z)
    : option (Z * rpc_buffer) :=
  if err_len =? 0 then Some (RPC_SUCCESS, Buffer (buf_data resp) 0 (buf_size resp))
  else if err_len <=? buf_size resp then
    msg ← err_msg;
    src ← load msg 0 err_len;
    d ← buf_data resp;
    d ← store d 0 src;
    Some (RPC_SUCCESS, Buffer (Some d) err_len (buf_size resp))
  else Some (RPC_ERROR_INTERNAL, resp).

Definition deserialize_env_delete_req (req : rpc_buffer) (env_index : Z) : option (Z * Z) :=
  if ENV_INDEX_LEN <=? buf_data_length req then
    d ← buf_data req;
    m ← load d 0 ENV_INDEX_LEN;
    Some (RPC_SUCCESS, get_env_index m)
  else Some (RPC_ERROR_INVALID_REQUEST_BODY, env_index).

(** struct lua_serializer *)
Record lua_serializer := Serializer {
  ser_create_resp : rpc_buffer -> Z -> option (Z * rpc_buffer);
  des_append_req : rpc_buffer -> Z -> Z -> Z -> option (Z * Z * Z * Z);
  des_execute_req : rpc_buffer -> Z -> option (Z * Z);
  ser_execute_resp : rpc_buffer -> option bytes -> Z -> option (Z * rpc_buffer);
  des_delete_req : rpc_buffer -> Z -> option (Z * Z)
}.

Definition packedc_lua_serializer_instance : lua_serializer :=
  Serializer serialize_env_create_resp deserialize_env_append_req deserialize_env_execute_req
    serialize_env_execute_resp deserialize_env_delete_req.

(** ** lua_provider.c *)

(** [script_buf] is the heap block, [None] for NULL. *)
Record env_entry := Entry {
  lua_env_ref : Z;
  script_buf : option bytes;
  script_len : Z;
  next : Z
}.

(** [lua_state] is [None] for NULL. *)
Record lua_provider (L : Type) := LuaProvider {
  serializer : option lua_serializer;
  lua_state : option L;
  env_entries : list env_entry;
  free_env_entry_ind : Z
}.
Arguments LuaProvider {L}.
Arguments serializer {L}.
Arguments lua_state {L}.
Arguments env_entries {L}.
Arguments free_env_entry_ind {L}.

Section Provider.
Context {L : Type} (vm : lua_vm L) (realloc_ok : Z -> bool).
Implicit Types p : lua_provider L.

Definition set_entries p (l : list env_entry) : lua_provider L :=
  LuaProvider (serializer p) (lua_state p) l (free_env_entry_ind p).
Definition set_state p (l : L) : lua_provider L :=
  LuaProvider (serializer p) (Some l) (env_entries p) (free_env_entry_ind p).
Definition set_free p (i : Z) : lua_provider L :=
  LuaProvider (serializer p) (lua_state p) (env_entries p) i.

(** The pool after initialisation: entry i links to i + 1, the last to NIL. *)
Fixpoint init_entries (n : nat) (i : Z) : list env_entry :=
  match n with
  | O => [Entry LUA_REFNIL None 0 NIL]
  | S n => Entry LUA_REFNIL None 0 (i + 1) :: init_entries n (i + 1)
  end.

Definition require_lib (l : L) (lib : lua_lib) : L := lua_pop vm (luaL_requiref vm l lib) 1.

(** The boolean tells whether the returned interface is not NULL; a NULL context
    is [None].  lua_close has no effect on the provider's memory. *)
Definition lua_provider_init (context : option (lua_provider L))
    : bool * option (lua_provider L) :=
  match context with
  | None => (false, None)
  | Some p =>
      match luaL_newstate vm with
      | None => (false, Some (LuaProvider (serializer p) None (env_entries p)
                                (free_env_entry_ind p)))
      | Some l =>
          let l := fold_left require_lib
                     [BaseLib; MathLib; StringLib; TableLib; CoroutineLib; Utf8Lib] l in
          let l := lua_setglobal vm (lua_pushcfunction vm l) in
          let '(created, l) := luaL_newmetatable vm l in
          let l := if created then lua_setfield vm (lua_pushglobaltable vm l) (-2) else l in
          let l := lua_pop vm l 1 in
          (true, Some (LuaProvider (serializer p) (Some l)
                         (init_entries (Z.to_nat (MAX_ENV_COUNT - 1)) 0) 0))
      end
  end.

Definition lua_provider_register_serializer p (s : lua_serializer) : lua_provider L :=
  LuaProvider (Some s) (lua_state p) (env_entries p) (free_env_entry_ind p).

Definition get_lua_serializer p (req : rpc_request) : option lua_serializer := serializer p.

Definition env_create_handler : service (lua_provider L) := fun p req =>
  let free_idx := free_env_entry_ind p in
  if free_idx =? NIL then
    Some (RPC_SUCCESS, put_status req LUA_ERROR_OUT_OF_FREE_ENVIRONMENTS, p)
  else
    entry ← nthZ (env_entries p) free_idx;
    let p := set_free p (next entry) in
    l ← lua_state p;
    let l := luaL_setmetatable vm (lua_newtable vm l) in
    let '(env_ref, l) := luaL_ref vm l in
    let p := set_state p l in
    es ← setZ (env_entries p) free_idx (Entry env_ref None 0 NIL);
    let p := set_entries p es in
    let req := put_status req LUA_SUCCESS in
    match get_lua_serializer p req with
    | Some s =>
        '(rpc_status, b) ← ser_create_resp s (response_buffer req) free_idx;
        Some (rpc_status, put_response req b, p)
    | None => Some (RPC_ERROR_INTERNAL, req, p)
    end.

(** [env_exists p i]: the index check of the three other handlers. *)
Definition env_exists p (env_index : Z) : option (option env_entry) :=
  if (env_index <? 0) || (env_index >=? MAX_ENV_COUNT) then Some None
  else
    entry ← nthZ (env_entries p) env_index;
    if lua_env_ref entry =? LUA_REFNIL then Some None else Some (Some entry).

Definition env_append_handler : service (lua_provider L) := fun p req =>
  '(rpc_status, env_index, script, slen) ←
    (match get_lua_serializer p req with
     | Some s => des_append_req s (request_buffer req) (-1) 0 0
     | None => Some (RPC_ERROR_INTERNAL, -1, 0, 0)
     end);
  if negb (rpc_status =? RPC_SUCCESS) then
    Some (RPC_SUCCESS, put_status req LUA_ERROR_GENERIC_ERROR, p)
  else
    e ← env_exists p env_index;
    match e with
    | None => Some (RPC_SUCCESS, put_status req LUA_ERROR_ENVIRONMENT_DOES_NOT_EXIST, p)
    | Some entry =>
        let new_len := u64 (script_len entry + slen) in
        let block := u64 (new_len + 1) in
        if negb (realloc_ok block) then
          Some (RPC_SUCCESS, put_status req LUA_ERROR_OUT_OF_MEMORY, p)
        else
          (* realloc keeps the old contents; the rest of the block is not read *)
          let old := default [] (script_buf entry) in
          let tmp := take (Z.to_nat block) (old ++ fill 0 (block - len old)) in
          m ← region req;
          chunk ← load m script slen;
          tmp ← store tmp (script_len entry) chunk;
          es ← setZ (env_entries p) env_index
                 (Entry (lua_env_ref entry) (Some tmp) new_len (next entry));
          Some (RPC_SUCCESS, put_status req LUA_SUCCESS, set_entries p es)
    end.

(** The error message on top of the stack, up to its first NUL, as the source
    measures it with strlen. *)
Definition error_message (l : L) : option (option bytes * Z) :=
  match lua_tostring vm l (-1) with
  | Some msg => n ← strlen msg; Some (Some msg, n)
  | None => Some (None, 0)
  end.

Definition env_execute_handler : service (lua_provider L) := fun p req =>
  '(rpc_status, env_index) ←
    (match get_lua_serializer p req with
     | Some s => des_execute_req s (request_buffer req) (-1)
     | None => Some (RPC_ERROR_INTERNAL, -1)
     end);
  if negb (rpc_status =? RPC_SUCCESS) then
    Some (RPC_SUCCESS, put_status req LUA_ERROR_GENERIC_ERROR, p)
  else
    e ← env_exists p env_index;
    match e with
    | None => Some (RPC_SUCCESS, put_status req LUA_ERROR_ENVIRONMENT_DOES_NOT_EXIST, p)
    | Some entry =>
        s ← get_lua_serializer p req;
        match script_buf entry with
        | None =>
            let req := put_status req LUA_SUCCESS in
            '(_, b) ← ser_execute_resp s (response_buffer req) None 0;
            Some (RPC_SUCCESS, put_response req b, p)
        | Some buf =>
            if script_len entry =? 0 then
              let req := put_status req LUA_SUCCESS in
              '(_, b) ← ser_execute_resp s (response_buffer req) None 0;
              Some (RPC_SUCCESS, put_response req b, p)
            else
              l ← lua_state p;
              script ← load buf 0 (script_len entry);
              let '(res, l) := luaL_loadbuffer vm l script env_index in
              if negb (res =? LUA_OK) then
                '(msg, n) ← error_message l;
                let req := put_status req LUA_ERROR_PARSER_ERROR in
                '(_, b) ← ser_execute_resp s (response_buffer req) msg n;
                Some (RPC_SUCCESS, put_response req b, set_state p (lua_pop vm l 1))
              else
                es ← setZ (env_entries p) env_index
                       (Entry (lua_env_ref entry) None 0 (next entry));
                let p := set_entries p es in
                let l := lua_setupvalue vm (lua_rawgeti vm l (lua_env_ref entry)) (-2) 1 in
                let '(res, l) := lua_pcall vm l in
                if negb (res =? LUA_OK) then
                  '(msg, n) ← error_message l;
                  let req := put_status req LUA_ERROR_INTERPRETER_ERROR in
                  '(_, b) ← ser_execute_resp s (response_buffer req) msg n;
                  Some (RPC_SUCCESS, put_response req b, set_state p (lua_pop vm l 1))
                else
                  let req := put_status req LUA_SUCCESS in
                  '(_, b) ← ser_execute_resp s (response_buffer req) None 0;
                  Some (RPC_SUCCESS, put_response req b, set_state p l)
        end
    end.

Definition env_delete_handler : service (lua_provider L) := fun p req =>
  '(rpc_status, env_index) ←
    (match get_lua_serializer p req with
     | Some s => des_delete_req s (request_buffer req) (-1)
     | None => Some (RPC_ERROR_INTERNAL, -1)
     end);
  if negb (rpc_status =? RPC_SUCCESS) then
    Some (RPC_SUCCESS, put_status req LUA_ERROR_GENERIC_ERROR, p)
  else
    e ← env_exists p env_index;
    match e with
    | None => Some (RPC_SUCCESS, put_status req LUA_ERROR_ENVIRONMENT_DOES_NOT_EXIST, p)
    | Some entry =>
        l ← lua_state p;
        let p := set_state p (luaL_unref vm l (lua_env_ref entry)) in
        es ← setZ (env_entries p) env_index (Entry LUA_REFNIL None 0 (free_env_entry_ind p));
        let p := set_free (set_entries p es) env_index in
        Some (RPC_SUCCESS, put_status req LUA_SUCCESS, p)
    end.

Definition handler_table : list (service_handler (lua_provider L)) :=
  [Handler TS_LUA_OPCODE_ENV_CREATE env_create_handler;
   Handler TS_LUA_OPCODE_ENV_APPEND env_append_handler;
   Handler TS_LUA_OPCODE_ENV_EXECUTE env_execute_handler;
   Handler TS_LUA_OPCODE_ENV_DELETE env_delete_handler].

End Provider.

(** ** Well-formedness of the pool *)

(** No allocated object exceeds PTRDIFF_MAX bytes. *)
Definition heap_ok (realloc_ok : Z -> bool) : Prop :=
  forall n, realloc_ok n = true -> n < 2 ^ 63.

(** The documented behaviour of the machine the provider relies on: a reference
    to a table is not LUA_REFNIL, and messages are C strings. *)
Definition vm_ok {L} (vm : lua_vm L) : Prop :=
  (forall l, fst (luaL_ref vm l) <> LUA_REFNIL) /\
  (forall l i msg, lua_tostring vm l i = Some msg -> is_Some (strlen msg)).

(** [chain es i fl]: following [next] from [i] visits exactly [fl]. *)
Fixpoint chain (es : list env_entry) (i : Z) (fl : list Z) : Prop :=
  match fl with
  | [] => i = NIL
  | j :: fl => i = j /\ exists e, nthZ es j = Some e /\ chain es (next e) fl
  end.

(** A script buffer has one byte more than its length; free entries hold none. *)
Definition entry_ok (e : env_entry) : Prop :=
  match script_buf e with
  | None => script_len e = 0
  | Some b => 0 <= script_len e /\ len b = script_len e + 1 /\ len b < 2 ^ 63 /\
              lua_env_ref e <> LUA_REFNIL
  end.

(** Every entry is either allocated or on the free list, exactly once. *)
Definition provider_ok {L} (p : lua_provider L) : Prop :=
  len (env_entries p) = MAX_ENV_COUNT /\ Forall entry_ok (env_entries p) /\
  serializer p = Some packedc_lua_serializer_instance /\ is_Some (lua_state p) /\
  exists fl, chain (env_entries p) (free_env_entry_ind p) fl /\ NoDup fl /\
    forall i e, nthZ (env_entries p) i = Some e -> (lua_env_ref e = LUA_REFNIL <-> i ∈ fl).

(** ** The abstract service: live environments, each with its pending script *)

Definition entry_script (e : env_entry) : bytes :=
  take (Z.to_nat (script_len e)) (default [] (script_buf e)).

Definition env_view {L} (p : lua_provider L) (i : Z) : option bytes :=
  e ← nthZ (env_entries p) i;
  if lua_env_ref e =? LUA_REFNIL then None else Some (entry_script e).

Inductive lua_call :=
  | Create
  | Append (env_index : Z) (chunk : bytes)
  | Execute (env_index : Z)
  | Delete (env_index : Z)
  | Malformed.

(** What a request asks for. *)
Definition parse_call (req : rpc_request) : lua_call :=
  if opcode req =? TS_LUA_OPCODE_ENV_CREATE then Create
  else if request_data_length req <? ENV_INDEX_LEN then Malformed
  else
    let body := take (Z.to_nat (request_data_length req)) (default [] (region req)) in
    let i := get_env_index (take 4 body) in
    if opcode req =? TS_LUA_OPCODE_ENV_APPEND then Append i (drop 4 body)
    else if opcode req =? TS_LUA_OPCODE_ENV_EXECUTE then Execute i
    else Delete i.

Definition env_update (envs : Z -> option bytes) (i : Z) (v : option bytes)
    (envs' : Z -> option bytes) : Prop :=
  envs' i = v /\ forall j, j <> i -> envs' j = envs j.

Definition env_same (envs envs' : Z -> option bytes) : Prop := forall j, envs' j = envs j.

(** One call on the abstract service, with the status it reports.  The result of
    parsing and running a script is the machine's. *)
Inductive env_step (envs : Z -> option bytes) : lua_call -> Z -> (Z -> option bytes) -> Prop :=
  | step_create i envs' :
      0 <= i < MAX_ENV_COUNT -> envs i = None -> env_update envs i (Some []) envs' ->
      env_step envs Create LUA_SUCCESS envs'
  | step_create_full envs' :
      (forall i, 0 <= i < MAX_ENV_COUNT -> is_Some (envs i)) -> env_same envs envs' ->
      env_step envs Create LUA_ERROR_OUT_OF_FREE_ENVIRONMENTS envs'
  | step_append i chunk script envs' :
      envs i = Some script -> env_update envs i (Some (script ++ chunk)) envs' ->
      env_step envs (Append i chunk) LUA_SUCCESS envs'
  | step_append_no_memory i chunk envs' :
      is_Some (envs i) -> env_same envs envs' ->
      env_step envs (Append i chunk) LUA_ERROR_OUT_OF_MEMORY envs'
  | step_append_missing i chunk envs' :
      envs i = None -> env_same envs envs' ->
      env_step envs (Append i chunk) LUA_ERROR_ENVIRONMENT_DOES_NOT_EXIST envs'
  | step_execute i script envs' :
      envs i = Some script -> env_update envs i (Some []) envs' ->
      env_step envs (Execute i) LUA_SUCCESS envs'
  | step_execute_parse i script envs' :
      envs i = Some script -> script <> [] -> env_same envs envs' ->
      env_step envs (Execute i) LUA_ERROR_PARSER_ERROR envs'
  | step_execute_run i script envs' :
      envs i = Some script -> script <> [] -> env_update envs i (Some []) envs' ->
      env_step envs (Execute i) LUA_ERROR_INTERPRETER_ERROR envs'
  | step_execute_missing i envs' :
      envs i = None -> env_same envs envs' ->
      env_step envs (Execute i) LUA_ERROR_ENVIRONMENT_DOES_NOT_EXIST envs'
  | step_delete i envs' :
      is_Some (envs i) -> env_update envs i None envs' ->
      env_step envs (Delete i) LUA_SUCCESS envs'
  | step_delete_missing i envs' :
      envs i = None -> env_same envs envs' ->
      env_step envs (Delete i) LUA_ERROR_ENVIRONMENT_DOES_NOT_EXIST envs'
  | step_malformed envs' :
      env_same envs envs' -> env_step envs Malformed LUA_ERROR_GENERIC_ERROR envs'.

(** A sequence of requests to one provider, with the RPC and service statuses. *)
Fixpoint lua_run {L} (f : service (lua_provider L)) (p : lua_provider L)
    (reqs : list rpc_request) : option (list (Z * Z) * lua_provider L) :=
  match reqs with
  | [] => Some ([], p)
  | req :: reqs =>
      '(status, req', p) ← f p req;
      '(out, p) ← lua_run f p reqs;
      Some ((status, service_status req') :: out, p)
  end.

Inductive env_run : (Z -> option bytes) -> list lua_call -> list Z -> (Z -> option bytes) -> Prop :=
  | run_nil envs envs' : env_same envs envs' -> env_run envs [] [] envs'
  | run_cons envs c st envs1 cs sts envs2 :
      env_step envs c st envs1 -> env_run envs1 cs sts envs2 ->
      env_run envs (c :: cs) (st :: sts) envs2.

Definition lua_opcode (op : Z) : Prop :=
  TS_LUA_OPCODE_ENV_CREATE <= op <= TS_LUA_OPCODE_ENV_DELETE.

(** ** Lemmas: the pool *)

Lemma chain_insert es i fl k e :
  chain es i fl -> k ∉ fl -> 0 <= k < len es -> chain (<[Z.to_nat k := e]> es) i fl.
Proof.
  revert i. induction fl as [|j fl IH]; intros i Hc Hk Hl; simpl in *; [done|].
  apply not_elem_of_cons in Hk as [Hkj Hk]. destruct Hc as (-> & e' & He' & Hc).
  split; [done|]. exists e'. split; [|by apply IH].
  by rewrite nthZ_insert_ne by lia.
Qed.

Lemma chain_range es i fl j : chain es i fl -> j ∈ fl -> 0 <= j < len es.
Proof.
  revert i. induction fl as [|k fl IH]; intros i Hc Hj; [by apply not_elem_of_nil in Hj|].
  destruct Hc as (-> & e & He & Hc). apply elem_of_cons in Hj as [->|Hj]; [|by eapply IH].
  by eapply nthZ_Some.
Qed.

Lemma nthZ_Forall {A} (P : A -> Prop) l i x : Forall P l -> nthZ l i = Some x -> P x.
Proof. intros Hf Hx. unfold nthZ in Hx. case_match; [|done]. by eapply Forall_lookup_1. Qed.

Section Facts.
Context {L : Type} (vm : lua_vm L) (realloc_ok : Z -> bool) (Hvm : vm_ok vm)
  (Hheap : heap_ok realloc_ok).
Implicit Types p : lua_provider L.

(** Replacing an entry that keeps its place (allocated or free). *)
Lemma update_entry_ok p i e e' l :
  provider_ok p -> nthZ (env_entries p) i = Some e -> entry_ok e' -> next e' = next e ->
  lua_env_ref e' = lua_env_ref e ->
  provider_ok (set_state (set_entries p (<[Z.to_nat i := e']> (env_entries p))) l).
Proof.
  intros (Hl & Hf & Hs & Hst & fl & Hc & Hnd & Href) He He' Hn Hr.
  pose proof (nthZ_Some _ _ _ He) as Hi.
  split; [unfold len in *; simpl; by rewrite length_insert|].
  split; [simpl; by apply Forall_insert|]. split; [done|]. split; [by eexists|].
  exists fl. simpl. split; [|split; [done|]].
  - clear Href Hnd Hst Hs. revert Hc. generalize (free_env_entry_ind p) as k.
    induction fl as [|j fl IH]; intros k Hc; simpl in *; [done|].
    destruct Hc as (-> & x & Hx & Hc). split; [done|]. destruct (decide (i = j)) as [->|].
    + exists e'. rewrite nthZ_insert_eq by done. split; [done|]. simplify_eq. rewrite Hn. by apply IH.
    + exists x. rewrite nthZ_insert_ne by lia. split; [done|]. by apply IH.
  - intros j x Hx. destruct (decide (i = j)) as [->|].
    + rewrite nthZ_insert_eq in Hx by done. simplify_eq. rewrite Hr. by apply Href.
    + rewrite nthZ_insert_ne in Hx by lia. by apply Href.
Qed.

Lemma set_entries_view p i e l j :
  nthZ (env_entries p) i = Some e ->
  forall e', env_view (set_state (set_entries p (<[Z.to_nat i := e']> (env_entries p))) l) j =
    if decide (j = i) then
      if lua_env_ref e' =? LUA_REFNIL then None else Some (entry_script e')
    else env_view p j.
Proof.
  intros He e'. pose proof (nthZ_Some _ _ _ He). unfold env_view. simpl. case_decide as Hj.
  - subst j. by rewrite nthZ_insert_eq by done.
  - by rewrite nthZ_insert_ne by lia.
Qed.

Lemma env_exists_spec p i :
  provider_ok p ->
  exists o, env_exists p i = Some o /\
    match o with
    | Some e => nthZ (env_entries p) i = Some e /\ lua_env_ref e <> LUA_REFNIL /\ entry_ok e /\
                env_view p i = Some (entry_script e)
    | None => env_view p i = None
    end.
Proof.
  intros (Hl & Hf & _). unfold env_exists, env_view.
  destruct ((i <? 0) || (i >=? MAX_ENV_COUNT)) eqn:Hr.
  - exists None. split; [done|]. destruct (nthZ (env_entries p) i) as [e|] eqn:He; [|done].
    apply nthZ_Some in He. lia.
  - bool_to_prop. destruct (nthZ_is_Some (env_entries p) i) as [e He]; [lia|]. rewrite He. simpl.
    destruct (Z.eqb_spec (lua_env_ref e) LUA_REFNIL) as [Hz|Hnz].
    + by exists None.
    + exists (Some e). split; [done|]. split; [done|]. split; [done|].
      split; [by eapply nthZ_Forall|done].
Qed.

Lemma set_state_ok p l : provider_ok p -> provider_ok (set_state p l).
Proof. intros (? & ? & ? & ? & ?). by do 3 (split; [done|]); split; [eexists|]. Qed.

(** ** Lemmas: the serializer on a well-formed request *)

Lemma request_index req :
  request_ok req -> ENV_INDEX_LEN <= request_data_length req ->
  exists b, region req = Some b /\ load b 0 ENV_INDEX_LEN = Some (take 4 b) /\
    take 4 (take (Z.to_nat (request_data_length req)) b) = take 4 b /\
    request_data_length req <= len b.
Proof.
  unfold request_ok, ENV_INDEX_LEN. intros (Hl & _ & _ & Hr) Hi.
  destruct (region req) as [b|]; [|lia]. exists b. split; [done|].
  split; [by rewrite load_ok, drop_0 by lia|]. split; [|lia].
  rewrite take_take. f_equal. lia.
Qed.

Lemma put_status_region req st : region (put_status req st) = region req.
Proof. done. Qed.

Lemma execute_resp_ok req msg n :
  request_ok req -> 0 <= n -> (0 < n -> exists b, msg = Some b /\ n <= len b) ->
  exists st b, serialize_env_execute_resp (response_buffer req) msg n = Some (st, b) /\
    (len <$> buf_data b) = (len <$> region req) /\
    (0 <= response_data_length req -> 0 <= buf_data_length b).
Proof.
  intros (Hl & _ & Hsz & Hr) Hn Hmsg. unfold serialize_env_execute_resp.
  destruct (Z.eqb_spec n 0) as [->|Hnz]; [by eexists _, _|]. simpl.
  destruct (Z.leb_spec n (response_size req)) as [Hle|]; [|by eexists _, _].
  destruct (Hmsg ltac:(lia)) as (m & -> & Hm). simpl. rewrite load_ok, drop_0 by lia. simpl.
  destruct (region req) as [d|]; [|lia]. simpl.
  destruct (store_ok d 0 (take (Z.to_nat n) m)) as [d' Hd']; [lia| |].
  { unfold len in *. rewrite length_take. lia. }
  rewrite Hd'. simpl. eexists _, _. split; [done|]. simpl. split; [f_equal; by eapply store_len|done].
Qed.

(** ** Lemmas: the handlers *)

(** The reply of a handler: the call succeeds at the RPC layer, except for a
    creation whose index does not fit the response; the index returned by a
    creation was free and is live. *)
Definition reply_ok p req (status : Z) req' p' : Prop :=
  (0 <= response_data_length req -> 0 <= response_data_length req') /\
  if opcode req =? TS_LUA_OPCODE_ENV_CREATE then
    if service_status req' =? LUA_SUCCESS then
      exists i, 0 <= i < MAX_ENV_COUNT /\ env_view p i = None /\ env_view p' i = Some [] /\
        if response_size req <? ENV_INDEX_LEN then status = RPC_ERROR_INTERNAL
        else status = RPC_SUCCESS /\ response_data_length req' = ENV_INDEX_LEN /\
          exists b, region req' = Some b /\ load b 0 ENV_INDEX_LEN = Some (put_env_index i)
    else status = RPC_SUCCESS
  else status = RPC_SUCCESS.

(** What every handler guarantees. *)
Definition handled p req (r : option (Z * rpc_request * lua_provider L)) : Prop :=
  exists status req' p', r = Some (status, req', p') /\ provider_ok p' /\
    (len <$> region req') = (len <$> region req) /\
    env_step (env_view p) (parse_call req) (service_status req') (env_view p') /\
    reply_ok p req status req' p'.

Lemma reply_status p req st p' :
  opcode req <> TS_LUA_OPCODE_ENV_CREATE -> reply_ok p req RPC_SUCCESS (put_status req st) p'.
Proof.
  intros Hop. unfold reply_ok. destruct (Z.eqb_spec (opcode req) TS_LUA_OPCODE_ENV_CREATE); done.
Qed.

Lemma create_handled p req :
  provider_ok p -> request_ok req -> opcode req = TS_LUA_OPCODE_ENV_CREATE ->
  handled p req (env_create_handler vm p req).
Proof.
  intros Hok Hreq Hop. pose proof Hok as (Hl & Hf & Hs & [l Hst] & fl & Hc & Hnd & Href).
  unfold env_create_handler, handled, parse_call. rewrite Hop, Z.eqb_refl.
  destruct fl as [|i fl]; simpl in Hc.
  - rewrite Hc. simpl. eexists _, _, _. split; [done|]. split; [done|]. split; [done|].
    unfold reply_ok. rewrite Hop. split; [|done].
    apply step_create_full; [|done]. intros i Hi. unfold env_view.
    destruct (nthZ_is_Some (env_entries p) i) as [e He]; [lia|]. rewrite He. simpl.
    destruct (Z.eqb_spec (lua_env_ref e) LUA_REFNIL) as [Hz|]; [|done].
    apply (Href i e He) in Hz. by apply not_elem_of_nil in Hz.
  - destruct Hc as (Hfree & e & He & Hc). pose proof (nthZ_Some _ _ _ He) as Hi. rewrite Hfree.
    destruct (Z.eqb_spec i NIL) as [->|Hn]; [unfold NIL in Hi; lia|].
    rewrite He. cbn [mbind option_bind set_free lua_state]. rewrite Hst. cbn [mbind option_bind].
    destruct (luaL_ref vm _) as [ref l'] eqn:Er.
    assert (ref <> LUA_REFNIL) as Hrefn.
    { destruct Hvm as [Hr _]. specialize (Hr (luaL_setmetatable vm (lua_newtable vm l))).
      by rewrite Er in Hr. }
    simpl. rewrite setZ_is_Some by done. simpl. rewrite Hs. simpl.
    apply NoDup_cons in Hnd as [Hni Hnd].
    set (p' := set_entries _ _).
    assert (provider_ok p') as Hok'.
    { split; [unfold len in *; simpl; by rewrite length_insert|].
      split; [simpl; by apply Forall_insert|]. split; [done|]. split; [by eexists|].
      exists fl. simpl. split; [by apply chain_insert|]. split; [done|]. intros j x Hx.
      destruct (decide (i = j)) as [<-|Hij].
      - rewrite nthZ_insert_eq in Hx by done. simplify_eq. simpl. tauto.
      - rewrite nthZ_insert_ne in Hx by lia. rewrite (Href j x Hx), elem_of_cons.
        split; [intros [->|?]; done|by right]. }
    assert (env_view p i = None) as Hold.
    { unfold env_view. rewrite He. simpl. by rewrite (proj2 (Href i e He)) by left. }
    assert (env_view p' i = Some []) as Hnew.
    { unfold env_view. simpl. rewrite nthZ_insert_eq by done. simpl.
      by destruct (Z.eqb_spec ref LUA_REFNIL). }
    assert (env_step (env_view p) Create LUA_SUCCESS (env_view p')) as Hstep.
    { apply (step_create _ i); [lia|done|]. split; [done|].
      intros j Hj. unfold env_view. simpl. by rewrite nthZ_insert_ne by lia. }
    unfold serialize_env_create_resp. simpl. unfold reply_ok. rewrite Hop.
    destruct (Z.leb_spec ENV_INDEX_LEN (response_size req)) as [Hsz|Hsz].
    + destruct Hreq as (_ & _ & Hrs & Hreg). unfold ENV_INDEX_LEN in *.
      destruct (region req) as [b|] eqn:Hb; [|lia]. simpl.
      assert (len (put_env_index i) = 4) as H4
        by (unfold put_env_index, len; by rewrite length_le_split).
      destruct (store_ok b 0 (put_env_index i)) as [b' Hb']; [lia..|].
      rewrite Hb'. simpl. eexists _, _, _. split; [done|]. split; [done|].
      split; [simpl; f_equal; by eapply store_len|]. split; [done|]. split; [done|].
      exists i. rewrite <- Hl. do 3 (split; [done|]). destruct (Z.ltb_spec (response_size req) 4); [lia|].
      do 2 (split; [done|]). exists b'. split; [done|]. rewrite <- H4. by eapply load_store_same.
    + simpl. eexists _, _, _. do 4 (split; [done|]). split; [done|].
      exists i. rewrite <- Hl. do 3 (split; [done|]).
      by destruct (Z.ltb_spec (response_size req) ENV_INDEX_LEN); [|lia].
Qed.

(** A request too short to hold an index. *)
Lemma malformed_handled p req :
  provider_ok p -> opcode req <> TS_LUA_OPCODE_ENV_CREATE ->
  request_data_length req < ENV_INDEX_LEN ->
  handled p req (Some (RPC_SUCCESS, put_status req LUA_ERROR_GENERIC_ERROR, p)).
Proof.
  intros Hok Hop Hlen. unfold handled, parse_call.
  destruct (Z.eqb_spec (opcode req) TS_LUA_OPCODE_ENV_CREATE); [done|].
  destruct (Z.ltb_spec (request_data_length req) ENV_INDEX_LEN); [|lia].
  eexists _, _, _. split; [done|]. split; [done|]. split; [done|].
  split; [by constructor|]. by apply reply_status.
Qed.

Lemma append_handled p req :
  provider_ok p -> request_ok req -> opcode req = TS_LUA_OPCODE_ENV_APPEND ->
  handled p req (env_append_handler realloc_ok p req).
Proof.
  intros Hok Hreq Hop. pose proof Hok as (_ & _ & Hs & [l Hst] & _).
  unfold env_append_handler, get_lua_serializer. rewrite Hs.
  cbn [des_append_req packedc_lua_serializer_instance]. unfold deserialize_env_append_req.
  cbn [request_buffer buf_data_length buf_data].
  destruct (Z.leb_spec ENV_INDEX_LEN (request_data_length req)) as [Hge|Hlt].
  2:{ simpl. apply malformed_handled; [done|by rewrite Hop|lia]. }
  destruct (request_index req Hreq Hge) as (b & Hb & Hld & Htt & Hlen). rewrite Hb.
  cbn [mbind option_bind]. rewrite Hld. simpl.
  set (i := get_env_index (take 4 b)).
  set (chunk := drop 4 (take (Z.to_nat (request_data_length req)) b)).
  assert (parse_call req = Append i chunk) as Hparse.
  { unfold parse_call. rewrite Hop, Hb. change (default [] (Some b)) with b.
    destruct (Z.ltb_spec (request_data_length req) ENV_INDEX_LEN); [lia|]. by rewrite Htt. }
  unfold handled. rewrite Hparse.
  destruct (env_exists_spec p i Hok) as (o & -> & Ho). simpl.
  destruct o as [e|].
  2:{ eexists _, _, _. split; [done|]. split; [done|]. split; [done|].
      split; [by apply step_append_missing|]. apply reply_status. by rewrite Hop. }
  destruct Ho as (He & Href & Hent & Hview).
  assert (0 <= script_len e /\ script_len e < 2 ^ 63 /\ len (entry_script e) = script_len e) as
    (Hsl0 & Hsl & Hes).
  { unfold entry_ok in Hent. unfold entry_script. destruct (script_buf e) as [old|]; simpl.
    - destruct Hent as (? & Hlo & ? & _). split; [done|]. split; [lia|].
      unfold len in *. rewrite length_take. lia.
    - rewrite take_nil. unfold len. simpl. lia. }
  set (slen := request_data_length req - ENV_INDEX_LEN).
  assert (0 <= slen < 2 ^ 32) as Hslen
    by (subst slen; destruct Hreq as (? & ? & _); unfold ENV_INDEX_LEN in *; lia).
  rewrite (wrap_small 64 (script_len e + slen)) by lia.
  rewrite (wrap_small 64 (script_len e + slen + 1)) by lia.
  destruct (realloc_ok (script_len e + slen + 1)) eqn:Halloc; simpl.
  2:{ eexists _, _, _. split; [done|]. split; [done|]. split; [done|].
      split; [apply step_append_no_memory; [by rewrite Hview|done]|].
      apply reply_status. by rewrite Hop. }
  apply Hheap in Halloc.
  set (old := default [] (script_buf e)).
  assert (script_len e <= len old <= script_len e + 1 /\
    entry_script e = take (Z.to_nat (script_len e)) old) as [Hold Hes'].
  { split; [|done]. unfold entry_ok in Hent. subst old. destruct (script_buf e); simpl; [lia|].
    unfold len. simpl. lia. }
  set (tmp := take _ (old ++ _)).
  assert (len tmp = script_len e + slen + 1) as Htmp.
  { subst tmp. unfold len, fill in *. rewrite length_take, length_app, length_replicate. lia. }
  change (drop 0 _) with b. rewrite load_ok by (unfold ENV_INDEX_LEN in *; lia). simpl.
  change (Z.to_nat ENV_INDEX_LEN) with 4%nat.
  assert (take (Z.to_nat slen) (drop 4 b) = chunk) as ->.
  { subst chunk slen. rewrite take_drop_commute. do 2 f_equal. unfold ENV_INDEX_LEN in *. lia. }
  assert (len chunk = slen) as Hchunk.
  { subst chunk slen. unfold len, ENV_INDEX_LEN in *. rewrite length_drop, length_take. lia. }
  destruct (store_ok tmp (script_len e) chunk) as [tmp' Ht']; [lia|lia|]. rewrite Ht'. simpl.
  rewrite setZ_is_Some by (by eapply nthZ_Some). simpl.
  set (e' := Entry _ _ _ _).
  eexists _, _, _. split; [done|].
  replace (set_entries p _) with
    (set_state (set_entries p (<[Z.to_nat i := e']> (env_entries p))) l)
    by (unfold set_state, set_entries; simpl; by rewrite Hst).
  pose proof (store_len _ _ _ _ Ht') as Hlt'.
  split; [eapply update_entry_ok; [done|done| |done|done]|].
  { unfold entry_ok. simpl. repeat split; try done; lia. }
  split; [done|]. split; [|apply reply_status; by rewrite Hop].
  apply (step_append _ _ _ (entry_script e)); [done|]. split.
  - rewrite (set_entries_view p i e l i He e'). rewrite decide_True by done. simpl.
    destruct (Z.eqb_spec (lua_env_ref e) LUA_REFNIL); [done|]. f_equal.
    unfold entry_script at 1. simpl. apply store_Some in Ht' as (_ & _ & ->).
    rewrite app_assoc, take_app_length'.
    + f_equal. rewrite Hes'. subst tmp. rewrite take_take.
      replace (Nat.min _ _) with (Z.to_nat (script_len e)) by lia.
      apply take_app_le. unfold len in *. lia.
    + unfold len in *. rewrite length_app, length_take. lia.
  - intros j Hj. rewrite (set_entries_view p i e l j He e'). by rewrite decide_False.
Qed.

(** Decoding an index-only request. *)
Lemma parse_index req b :
  opcode req = TS_LUA_OPCODE_ENV_EXECUTE \/ opcode req = TS_LUA_OPCODE_ENV_DELETE ->
  ENV_INDEX_LEN <= request_data_length req -> region req = Some b ->
  take 4 (take (Z.to_nat (request_data_length req)) b) = take 4 b ->
  parse_call req = if opcode req =? TS_LUA_OPCODE_ENV_EXECUTE
                   then Execute (get_env_index (take 4 b)) else Delete (get_env_index (take 4 b)).
Proof.
  intros Hop Hge Hb Htt. unfold parse_call. rewrite Hb. change (default [] (Some b)) with b.
  destruct (Z.ltb_spec (request_data_length req) ENV_INDEX_LEN); [lia|]. rewrite Htt.
  by destruct Hop as [-> | ->].
Qed.

Lemma error_message_ok l :
  exists msg n, error_message vm l = Some (msg, n) /\ 0 <= n /\
    (0 < n -> exists b, msg = Some b /\ n <= len b).
Proof.
  unfold error_message. destruct (lua_tostring vm l (-1)) as [msg|] eqn:E.
  - destruct (proj2 Hvm _ _ _ E) as [n Hn]. rewrite Hn. simpl. eexists _, _. split; [done|].
    apply strlen_bounds in Hn. split; [lia|]. intros _. exists msg. split; [done|lia].
  - eexists _, _. split; [done|]. split; [lia|lia].
Qed.

(** The reply of an execution: status [st], a message of [n] bytes. *)
Lemma execute_reply p p' req st msg n :
  opcode req = TS_LUA_OPCODE_ENV_EXECUTE ->
  request_ok req -> provider_ok p' -> 0 <= n -> (0 < n -> exists b, msg = Some b /\ n <= len b) ->
  env_step (env_view p) (parse_call req) st (env_view p') ->
  handled p req
    ('(_, b) ← serialize_env_execute_resp (response_buffer (put_status req st)) msg n;
     Some (RPC_SUCCESS, put_response (put_status req st) b, p')).
Proof.
  intros Hop Hreq Hok Hn Hmsg Hstep.
  destruct (execute_resp_ok (put_status req st) msg n) as (s & b & -> & Hlen & Hrl); [done..|]. simpl.
  eexists _, _, _. split; [done|]. split; [done|]. split; [done|]. split; [done|].
  unfold reply_ok. by rewrite Hop.
Qed.

Lemma env_view_set_state p l j : env_view (set_state p l) j = env_view p j.
Proof. done. Qed.

Lemma empty_script e : entry_ok e -> script_len e = 0 -> entry_script e = [].
Proof. intros _ Hz. unfold entry_script. by rewrite Hz, take_0. Qed.

Lemma loaded_script e b :
  entry_ok e -> script_buf e = Some b -> load b 0 (script_len e) = Some (entry_script e).
Proof.
  unfold entry_ok, entry_script. intros He Hb. rewrite Hb in *. simpl.
  rewrite load_ok, drop_0 by lia. done.
Qed.

Lemma execute_handled p req :
  provider_ok p -> request_ok req -> opcode req = TS_LUA_OPCODE_ENV_EXECUTE ->
  handled p req (env_execute_handler vm p req).
Proof.
  intros Hok Hreq Hop. pose proof Hok as (_ & _ & Hs & [l Hst] & _).
  unfold env_execute_handler, get_lua_serializer. rewrite Hs.
  cbn [des_execute_req ser_execute_resp packedc_lua_serializer_instance].
  unfold deserialize_env_execute_req. cbn [request_buffer buf_data_length buf_data].
  destruct (Z.leb_spec ENV_INDEX_LEN (request_data_length req)) as [Hge|Hlt].
  2:{ simpl. apply malformed_handled; [done|by rewrite Hop|lia]. }
  destruct (request_index req Hreq Hge) as (b & Hb & Hld & Htt & Hlen). rewrite Hb.
  cbn [mbind option_bind]. rewrite Hld. cbn [mbind option_bind]. simpl (negb _).
  set (i := get_env_index (take 4 b)).
  assert (parse_call req = Execute i) as Hparse.
  { rewrite (parse_index req b) by auto. by rewrite Hop. }
  destruct (env_exists_spec p i Hok) as (o & -> & Ho). cbn [mbind option_bind]. destruct o as [e|].
  2:{ eexists _, _, _. split; [done|]. split; [done|]. split; [done|]. rewrite Hparse.
      split; [by apply step_execute_missing|]. apply reply_status. by rewrite Hop. }
  destruct Ho as (He & Href & Hent & Hview).
  assert (script_len e = 0 -> handled p req
    ('(_, b) ← serialize_env_execute_resp (response_buffer (put_status req LUA_SUCCESS)) None 0;
     Some (RPC_SUCCESS, put_response (put_status req LUA_SUCCESS) b, p))) as Hempty.
  { intros Hz. apply execute_reply; [done|done|done|lia|lia|]. rewrite Hparse.
    rewrite empty_script in Hview by done.
    apply (step_execute _ _ []); [done|]. split; [done|]. done. }
  destruct (script_buf e) as [buf|] eqn:Hbuf.
  2:{ apply Hempty. unfold entry_ok in Hent. by rewrite Hbuf in Hent. }
  destruct (Z.eqb_spec (script_len e) 0) as [Hz|Hnz]; [by apply Hempty|].
  rewrite Hst, (loaded_script e buf Hent Hbuf). cbn [mbind option_bind].
  assert (entry_script e <> []) as Hne.
  { intros Hn. apply (f_equal len) in Hn. pose proof (loaded_script e buf Hent Hbuf) as Hl.
    apply load_len in Hl. rewrite Hn in Hl. unfold len in Hl. simpl in Hl. lia. }
  destruct (luaL_loadbuffer vm l (entry_script e) i) as [res l1].
  destruct (negb (res =? LUA_OK)).
  { destruct (error_message_ok l1) as (msg & n & -> & Hn & Hm). cbn [mbind option_bind].
    apply execute_reply; [done|done|by apply set_state_ok|done|done|]. rewrite Hparse.
    by apply (step_execute_parse _ _ (entry_script e)). }
  rewrite setZ_is_Some by (by eapply nthZ_Some). cbn [mbind option_bind].
  set (e' := Entry _ _ _ _). destruct (lua_pcall vm _) as [res2 l2].
  assert (forall l', env_update (env_view p) i (Some [])
    (env_view (set_state (set_entries p (<[Z.to_nat i := e']> (env_entries p))) l'))) as Hupd.
  { intros l'. split.
    - rewrite (set_entries_view p i e l' i He e'), decide_True by done. simpl.
      by destruct (Z.eqb_spec (lua_env_ref e) LUA_REFNIL).
    - intros j Hj. by rewrite (set_entries_view p i e l' j He e'), decide_False. }
  assert (forall l', provider_ok (set_state (set_entries p
    (<[Z.to_nat i := e']> (env_entries p))) l')) as Hok'.
  { intros l'. by eapply update_entry_ok. }
  destruct (negb (res2 =? LUA_OK)).
  - destruct (error_message_ok l2) as (msg & n & -> & Hn & Hm). cbn [mbind option_bind].
    apply execute_reply; [done|done|apply Hok'|done|done|]. rewrite Hparse.
    by apply (step_execute_run _ _ (entry_script e)).
  - apply execute_reply; [done|done|apply Hok'|lia|lia|]. rewrite Hparse.
    by apply (step_execute _ _ (entry_script e)).
Qed.

Lemma delete_handled p req :
  provider_ok p -> request_ok req -> opcode req = TS_LUA_OPCODE_ENV_DELETE ->
  handled p req (env_delete_handler vm p req).
Proof.
  intros Hok Hreq Hop. pose proof Hok as (Hl & Hf & Hs & [l Hst] & fl & Hc & Hnd & Hfl).
  unfold env_delete_handler, get_lua_serializer. rewrite Hs.
  cbn [des_delete_req packedc_lua_serializer_instance].
  unfold deserialize_env_delete_req. cbn [request_buffer buf_data_length buf_data].
  destruct (Z.leb_spec ENV_INDEX_LEN (request_data_length req)) as [Hge|Hlt].
  2:{ simpl. apply malformed_handled; [done|by rewrite Hop|lia]. }
  destruct (request_index req Hreq Hge) as (b & Hb & Hld & Htt & Hlen). rewrite Hb.
  cbn [mbind option_bind]. rewrite Hld. cbn [mbind option_bind]. simpl (negb _).
  set (i := get_env_index (take 4 b)).
  assert (parse_call req = Delete i) as Hparse.
  { rewrite (parse_index req b) by auto. by rewrite Hop. }
  destruct (env_exists_spec p i Hok) as (o & -> & Ho). cbn [mbind option_bind]. destruct o as [e|].
  2:{ eexists _, _, _. split; [done|]. split; [done|]. split; [done|]. rewrite Hparse.
      split; [by apply step_delete_missing|]. apply reply_status. by rewrite Hop. }
  destruct Ho as (He & Href & Hent & Hview). pose proof (nthZ_Some _ _ _ He) as Hi.
  rewrite Hst. cbn [mbind option_bind set_state env_entries]. rewrite setZ_is_Some by done.
  cbn [mbind option_bind]. set (e' := Entry _ _ _ _).
  eexists _, _, _. split; [done|].
  assert (i ∉ fl) as Hnot by (intros Hin; by apply Href, (Hfl i e He)).
  split; [|split; [done|split; [|apply reply_status; by rewrite Hop]]].
  - split; [unfold len in *; simpl; by rewrite length_insert|].
    split; [simpl; by apply Forall_insert|]. split; [done|]. split; [by eexists|].
    exists (i :: fl). simpl. split.
    + split; [done|]. exists e'. rewrite nthZ_insert_eq by done. split; [done|].
      by apply chain_insert.
    + split; [by apply NoDup_cons|]. intros j x Hx. destruct (decide (i = j)) as [<-|Hij].
      * rewrite nthZ_insert_eq in Hx by done. simplify_eq. split; [by left|done].
      * rewrite nthZ_insert_ne in Hx by lia. rewrite (Hfl j x Hx), elem_of_cons.
        split; [by right|intros [->|?]; done].
  - rewrite Hparse. apply step_delete; [by rewrite Hview|]. split.
    + unfold env_view. simpl. by rewrite nthZ_insert_eq by done.
    + intros j Hj. unfold env_view. simpl. by rewrite nthZ_insert_ne by lia.
Qed.

(** Dispatch through the provider's table. *)
Lemma lua_service_ok sp uuid :
  service_provider_init uuid (handler_table vm realloc_ok)
    (len (handler_table vm realloc_ok)) = Some sp ->
  forall p req, provider_ok p -> request_ok req ->
    (lua_opcode (opcode req) -> handled p req (receive sp p req)) /\
    (~ lua_opcode (opcode req) -> receive sp p req = Some (RPC_ERROR_INVALID_VALUE, req, p)).
Proof.
  intros Hsp p req Hok Hreq.
  destruct (service_provider_init_ok uuid (handler_table vm realloc_ok))
    as (sp' & Hsp' & Ht & Hh & Hsucc). rewrite Hsp in Hsp'. simplify_eq.
  rewrite receive_spec by done. rewrite Hh, Hsucc. unfold first_handler, handler_table, lua_opcode.
  cbn [find_index h_opcode].
  destruct (Z.eqb_spec TS_LUA_OPCODE_ENV_CREATE (opcode req)) as [E1|N1].
  { split; [intros _; by apply create_handled|]. rewrite <- E1. intros []. done. }
  destruct (Z.eqb_spec TS_LUA_OPCODE_ENV_APPEND (opcode req)) as [E2|N2].
  { split; [intros _; by apply append_handled|]. rewrite <- E2. intros []. done. }
  destruct (Z.eqb_spec TS_LUA_OPCODE_ENV_EXECUTE (opcode req)) as [E3|N3].
  { split; [intros _; by apply execute_handled|]. rewrite <- E3. intros []. done. }
  destruct (Z.eqb_spec TS_LUA_OPCODE_ENV_DELETE (opcode req)) as [E4|N4].
  { split; [intros _; by apply delete_handled|]. rewrite <- E4. intros []. done. }
  simpl. split; [|done]. unfold TS_LUA_OPCODE_ENV_CREATE, TS_LUA_OPCODE_ENV_APPEND,
    TS_LUA_OPCODE_ENV_EXECUTE, TS_LUA_OPCODE_ENV_DELETE in *. lia.
Qed.

End Facts.

(** ** Initialisation *)

Lemma lua_provider_init_ok {L} (vm : lua_vm L) p p0 :
  lua_provider_init vm (Some p) = (true, Some p0) ->
  let p1 := lua_provider_register_serializer p0 packedc_lua_serializer_instance in
  provider_ok p1 /\ forall i, env_view p1 i = None.
Proof.
  unfold lua_provider_init. destruct (luaL_newstate vm) as [l|]; [|done].
  destruct (luaL_newmetatable vm _) as [created l']. intros [= <-].
  assert (forall i e, nthZ (init_entries (Z.to_nat (MAX_ENV_COUNT - 1)) 0) i = Some e ->
    e = Entry LUA_REFNIL None 0 (next e) /\ 0 <= i < 16) as Hall.
  { intros i e He. pose proof (nthZ_Some _ _ _ He) as Hi. split; [|exact Hi].
    revert He. change (len _) with 16 in Hi. unfold nthZ. destruct (0 <=? i); [|done].
    assert (Z.to_nat i < 16)%nat as Hn by lia. revert Hn. generalize (Z.to_nat i) as n.
    intros n Hn He. do 16 (destruct n as [|n]; [by inversion He|]). lia. }
  split.
  - split; [done|]. split; [|split; [done|split; [by eexists|]]].
    + apply Forall_lookup_2. intros i e He. rewrite <- nthZ_of_nat in He.
      destruct (Hall _ _ He) as [-> _]. done.
    + exists [0; 1; 2; 3; 4; 5; 6; 7; 8; 9; 10; 11; 12; 13; 14; 15]. split.
      { simpl. repeat (split; [done|]; eexists; split; [reflexivity|]; simpl). done. }
      split; [apply (bool_decide_unpack _); by vm_compute|].
      intros i e He. destruct (Hall i e He) as [-> Hi]. split; [intros _|done].
      rewrite !elem_of_cons. lia.
  - intros i. unfold env_view.
    destruct (nthZ _ i) as [e|] eqn:He; [|done].
    destruct (Hall i e He) as [-> _]. done.
Qed.

Lemma lua_run_refines {L} (f : service (lua_provider L)) (p : lua_provider L) reqs :
  (forall p req, provider_ok p -> request_ok req -> lua_opcode (opcode req) ->
     handled p req (f p req)) ->
  provider_ok p -> Forall request_ok reqs -> Forall (fun r => lua_opcode (opcode r)) reqs ->
  exists out p', lua_run f p reqs = Some (out, p') /\ provider_ok p' /\
    env_run (env_view p) (map parse_call reqs) (map snd out) (env_view p').
Proof.
  intros Hf Hok Hreqs Hops. revert p Hok. induction Hreqs as [|req reqs Hreq _ IH]; intros p Hok.
  - exists [], p. split; [done|]. split; [done|]. by constructor.
  - apply Forall_cons in Hops as [Hop Hops].
    destruct (Hf p req Hok Hreq Hop) as (st & req' & p1 & E1 & Hok1 & _ & Hstep & _).
    destruct (IH Hops p1 Hok1) as (out & p2 & E2 & Hok2 & Hrun).
    exists ((st, service_status req') :: out), p2. simpl. rewrite E1. simpl. rewrite E2. simpl.
    split; [done|]. split; [done|]. by econstructor.
Qed.

Lemma env_step_same e e' c st e2 : env_same e e' -> env_step e' c st e2 -> env_step e c st e2.
Proof.
  unfold env_same. intros Hs Hstep.
  assert (forall j v, env_update e' j v e2 -> env_update e j v e2) as Hu.
  { intros j v [Hj Ho]. split; [done|]. intros k Hk. rewrite <- Hs. by apply Ho. }
  inversion Hstep; subst; rewrite ?Hs in *; econstructor; eauto;
    unfold env_same in *; intros; rewrite <- ?Hs; eauto; congruence.
Qed.

Lemma env_run_snoc e cs sts e1 c st e2 :
  env_run e cs sts e1 -> env_step e1 c st e2 -> env_run e (cs ++ [c]) (sts ++ [st]) e2.
Proof.
  induction 1 as [e e1 Hs|e c0 st0 e0 cs sts e1 Hstep Hrun IH]; intros Hlast.
  - simpl. econstructor; [|by constructor]. eapply env_step_same; [|done]. done.
  - simpl. econstructor; [done|]. by apply IH.
Qed.

Lemma env_run_same e e' cs sts e2 : (forall j, e' j = e j) -> env_run e' cs sts e2 -> env_run e cs sts e2.
Proof.
  intros Hs Hrun. inversion Hrun; subst.
  - constructor. unfold env_same in *. congruence.
  - econstructor; [|done]. by eapply env_step_same.
Qed.

(** ** Properties of the service *)

(** A machine whose state counts the references it gave out: the witnesses run
    the provider on it.  A script that starts with a zero byte does not parse. *)
Definition example_vm : lua_vm Z :=
  LuaVm Z (Some 0) (fun l _ => l) (fun l _ => l) (fun l => l) (fun l => l) (fun l => (true, l))
    (fun l => l) (fun l _ => l) (fun l => l) (fun l => l) (fun l => (1 + Z.abs l, 1 + Z.abs l))
    (fun l _ => l)
    (fun l s _ => (match s with 0 :: _ => 3 | _ => LUA_OK end, l))
    (fun l _ => Some [110; 111; 0]) (fun l _ => l) (fun l _ _ => l) (fun l => (LUA_OK, l)).

Definition example_realloc_ok (n : Z) : bool := n <? 1000.

Lemma example_vm_ok : vm_ok example_vm.
Proof.
  split.
  - intros l. simpl. unfold LUA_REFNIL. lia.
  - intros l i msg [= <-]. by eexists.
Qed.

Lemma example_heap_ok : heap_ok example_realloc_ok.
Proof. unfold heap_ok, example_realloc_ok. lia. Qed.

(** C1: the Lua service implements its abstract contract.  From a freshly
    initialised provider, every sequence of well-formed requests with one of the
    four opcodes, whatever their bodies, is handled without a fault, and the
    statuses and the pool follow the abstract service of live environments and
    pending scripts, started with no environment. *)
Theorem lua_service_refines {L} (vm : lua_vm L) realloc_ok uuid sp p p0 reqs :
  vm_ok vm -> heap_ok realloc_ok ->
  lua_provider_init vm (Some p) = (true, Some p0) ->
  service_provider_init uuid (handler_table vm realloc_ok)
    (len (handler_table vm realloc_ok)) = Some sp ->
  Forall request_ok reqs -> Forall (fun r => lua_opcode (opcode r)) reqs ->
  exists out p',
    lua_run (receive sp) (lua_provider_register_serializer p0 packedc_lua_serializer_instance) reqs
      = Some (out, p') /\
    env_run (fun _ => None) (map parse_call reqs) (map snd out) (env_view p').
Proof.
  intros Hvm Hheap Hinit Hsp Hreqs Hops.
  destruct (lua_provider_init_ok vm p p0 Hinit) as [Hok Hempty].
  destruct (lua_run_refines (receive sp)
    (lua_provider_register_serializer p0 packedc_lua_serializer_instance) reqs)
    as (out & p' & Hrun & _ & Henv); [|done..|].
  { intros q req Hq Hr Hop. by apply (lua_service_ok vm realloc_ok Hvm Hheap sp uuid Hsp). }
  exists out, p'. split; [done|]. by eapply env_run_same.
Qed.

(** Create, append "hi" to environment 0, execute it, delete it, delete it again. *)
Definition example_requests : list rpc_request :=
  let body (op n : Z) b := Request 5 0 op 0 0 n 8 0 8 (Some b) in
  [body TS_LUA_OPCODE_ENV_CREATE 0 (fill 0 8);
   body TS_LUA_OPCODE_ENV_APPEND 6 [0; 0; 0; 0; 104; 105; 0; 0];
   body TS_LUA_OPCODE_ENV_EXECUTE 4 (fill 0 8);
   body TS_LUA_OPCODE_ENV_DELETE 4 (fill 0 8);
   body TS_LUA_OPCODE_ENV_DELETE 4 (fill 0 8)].

Lemma lua_service_refines_witness :
  exists sp p0 out p',
    lua_provider_init example_vm (Some (LuaProvider None None [] 0)) = (true, Some p0) /\
    lua_run (receive sp) (lua_provider_register_serializer p0 packedc_lua_serializer_instance)
      example_requests = Some (out, p') /\
    map snd out = [LUA_SUCCESS; LUA_SUCCESS; LUA_SUCCESS; LUA_SUCCESS;
                   LUA_ERROR_ENVIRONMENT_DOES_NOT_EXIST] /\
    env_run (fun _ => None) (map parse_call example_requests) (map snd out) (env_view p').
Proof.
  destruct (service_provider_init_ok (fill 7 16) (handler_table example_vm example_realloc_ok))
    as (sp & Hsp & _).
  destruct (lua_provider_init example_vm (Some (LuaProvider None None [] 0))) as [ok [p0|]] eqn:Hi;
    [|done].
  assert (ok = true) as -> by (by inversion Hi).
  destruct (lua_service_refines example_vm example_realloc_ok (fill 7 16) sp
    (LuaProvider None None [] 0) p0 example_requests example_vm_ok example_heap_ok Hi Hsp)
    as (out & p' & Hrun & Henv).
  { unfold example_requests. rewrite !Forall_cons. repeat split; try done; simpl; lia. }
  { unfold example_requests. rewrite !Forall_cons. repeat split; done. }
  exists sp, p0, out, p'. split; [done|]. split; [done|]. split; [|done].
  assert (fst <$> lua_run (receive sp) (lua_provider_register_serializer p0
    packedc_lua_serializer_instance) example_requests = Some
      [(0, LUA_SUCCESS); (0, LUA_SUCCESS); (0, LUA_SUCCESS); (0, LUA_SUCCESS);
       (0, LUA_ERROR_ENVIRONMENT_DOES_NOT_EXIST)]) as Hout.
  { inversion Hi. inversion Hsp. vm_compute. reflexivity. }
  rewrite Hrun in Hout. by inversion Hout.
Defined.

(** A response buffer that cannot hold the index leaks an environment.  When
    a free environment exists and the response has fewer than four bytes, the
    call fails at the RPC layer, so the caller has no index to delete, and yet
    one more environment is live. *)
Theorem lua_create_leak {L} (vm : lua_vm L) p req :
  vm_ok vm -> provider_ok p -> request_ok req -> opcode req = TS_LUA_OPCODE_ENV_CREATE ->
  response_size req < ENV_INDEX_LEN ->
  (exists i, 0 <= i < MAX_ENV_COUNT /\ env_view p i = None) ->
  exists req' p' i, env_create_handler vm p req = Some (RPC_ERROR_INTERNAL, req', p') /\
    env_view p i = None /\ env_view p' i = Some [].
Proof.
  intros Hvm Hok Hreq Hop Hsz (k & Hk & Hnone).
  destruct (create_handled vm Hvm p req Hok Hreq Hop)
    as (status & req' & p' & Hrun & _ & _ & Hstep & _ & Hreply).
  unfold parse_call in Hstep. rewrite Hop, Z.eqb_refl in Hstep. rewrite Hop in Hreply.
  destruct (Z.ltb_spec (response_size req) ENV_INDEX_LEN); [|lia].
  inversion Hstep as [i0 envs' Hi Hfree _ Hc Hst|envs' Hfull| | | | | | | | | |].
  - rewrite <- Hst in Hreply. destruct Hreply as (i & _ & Hold & Hnew & ->). by exists req', p', i.
  - destruct (Hfull k Hk) as [x Hx]. congruence.
Qed.

Lemma lua_create_leak_witness :
  exists p0 req' p' i,
    env_create_handler example_vm (lua_provider_register_serializer p0
        packedc_lua_serializer_instance) (Request 5 0 TS_LUA_OPCODE_ENV_CREATE 0 0 0 0 0 0 None)
      = Some (RPC_ERROR_INTERNAL, req', p') /\
    env_view (lua_provider_register_serializer p0 packedc_lua_serializer_instance) i = None /\
    env_view p' i = Some [].
Proof.
  destruct (lua_provider_init example_vm (Some (LuaProvider None None [] 0))) as [ok [p0|]] eqn:Hi;
    [|done].
  assert (ok = true) as -> by (by inversion Hi).
  destruct (lua_provider_init_ok _ _ _ Hi) as [Hok Hempty].
  exists p0. apply (lua_create_leak example_vm); [apply example_vm_ok|done|done|done|done|].
  exists 0. split; [done|]. apply Hempty.
Defined.
