(* ===== verification/LuaClient.v ===== *)
(** * components/service/lua/client: the Lua client, and the service end to end

    lua_client.c over service_client.c ([ServiceClient]): each operation is one transaction of the
    client's RPC session.  [None] is a fault of the client (a write through a
    NULL buffer). *)
From S2P Require Import Prelude Status RpcAbi RpcService RpcEndpoint RpcCaller ServiceClient LuaProvider.

(** ** lua_client.c *)

(** struct lua_client has a service_client as its only member. *)
Record lua_client (C : Type) := LuaClient { client : service_client C }.
Arguments LuaClient {C}.
Arguments client {C}.

Section Client.
Context {C : Type}.
Implicit Types (x : lua_client C) (c : C).

Definition set_session x (s : option (rpc_caller_session C)) : lua_client C :=
  LuaClient (ServiceClient s (rpc_status (client x)) (client_service_info (client x))).
Definition set_rpc_status x (status : Z) : lua_client C :=
  LuaClient (ServiceClient (session (client x)) status (client_service_info (client x))).

(** memcpy into the request buffer of the session. *)
Definition memcpy_request x (off : Z) (data : bytes) : option (lua_client C) :=
  s ← session (client x);
  s ← write_request s off data;
  Some (set_session x (Some s)).

(** Returns the status and *env_index. *)
Definition env_create x c : option (Z * Z * lua_client C * C) :=
  let lua_status := LUA_ERROR_GENERIC_ERROR in
  let env_index := -1 in
  let '(call_handle, s, c) :=
    rpc_caller_session_begin (session (client x)) true 0 ENV_INDEX_LEN c in
  let x := set_session x s in
  if (call_handle : bool) then
    '(status, resp_buf, resp_len, service_status, s, c) ←
      rpc_caller_session_invoke (session (client x)) TS_LUA_OPCODE_ENV_CREATE true true None 0 0 c;
    let x := set_rpc_status (set_session x s) status in
    '(lua_status, env_index) ←
      (if status =? RPC_SUCCESS then
         let lua_status := s32 service_status in
         if lua_status =? LUA_SUCCESS then
           if resp_len =? ENV_INDEX_LEN then
             b ← resp_buf;
             m ← load b 0 ENV_INDEX_LEN;
             Some (lua_status, get_env_index m)
           else Some (LUA_ERROR_GENERIC_ERROR, env_index)
         else Some (lua_status, env_index)
       else Some (lua_status, env_index));
    let '(_, s, c) := rpc_caller_session_end (session (client x)) c in
    Some (lua_status, env_index, set_session x s, c)
  else Some (lua_status, env_index, set_rpc_status x RPC_ERROR_INTERNAL, c).

(** [script_bytes] has script_len bytes. *)
Definition env_append x (env_index : Z) (script_bytes : bytes) c
    : option (Z * lua_client C * C) :=
  let lua_status := LUA_ERROR_GENERIC_ERROR in
  let req_len := u64 (ENV_INDEX_LEN + len script_bytes) in
  let '(call_handle, s, c) :=
    rpc_caller_session_begin (session (client x)) true req_len 0 c in
  let x := set_session x s in
  if (call_handle : bool) then
    x ← memcpy_request x 0 (put_env_index env_index);
    x ← memcpy_request x ENV_INDEX_LEN script_bytes;
    '(status, resp_buf, resp_len, service_status, s, c) ←
      rpc_caller_session_invoke (session (client x)) TS_LUA_OPCODE_ENV_APPEND true true None 0 0 c;
    let x := set_rpc_status (set_session x s) status in
    let lua_status := if status =? RPC_SUCCESS then s32 service_status else lua_status in
    let '(_, s, c) := rpc_caller_session_end (session (client x)) c in
    Some (lua_status, set_session x s, c)
  else Some (lua_status, set_rpc_status x RPC_ERROR_INTERNAL, c).

(** Returns the status, the error message buffer and *error_msg_len. *)
Definition env_execute x (env_index : Z) (error_msg_buf_size : Z) (error_msg_buf : bytes) c
    : option (Z * bytes * Z * lua_client C * C) :=
  let lua_status := LUA_ERROR_GENERIC_ERROR in
  let error_msg_len := 0 in
  let '(call_handle, s, c) :=
    rpc_caller_session_begin (session (client x)) true ENV_INDEX_LEN error_msg_buf_size c in
  let x := set_session x s in
  if (call_handle : bool) then
    x ← memcpy_request x 0 (put_env_index env_index);
    '(status, resp_buf, resp_len, service_status, s, c) ←
      rpc_caller_session_invoke (session (client x)) TS_LUA_OPCODE_ENV_EXECUTE true true None 0 0 c;
    let x := set_rpc_status (set_session x s) status in
    '(lua_status, error_msg_buf, error_msg_len) ←
      (if status =? RPC_SUCCESS then
         let lua_status := s32 service_status in
         if negb (lua_status =? LUA_SUCCESS) then
           if resp_len <=? error_msg_buf_size then
             (* memcpy of no bytes reads nothing *)
             msg ← (if resp_len =? 0 then Some [] else b ← resp_buf; load b 0 resp_len);
             buf ← store error_msg_buf 0 msg;
             Some (lua_status, buf, resp_len)
           else Some (PSA_ERROR_BUFFER_TOO_SMALL, error_msg_buf, error_msg_len)
         else Some (lua_status, error_msg_buf, error_msg_len)
       else Some (lua_status, error_msg_buf, error_msg_len));
    let '(_, s, c) := rpc_caller_session_end (session (client x)) c in
    Some (lua_status, error_msg_buf, error_msg_len, set_session x s, c)
  else Some (lua_status, error_msg_buf, error_msg_len, set_rpc_status x RPC_ERROR_INTERNAL, c).

Definition env_delete x (env_index : Z) c : option (Z * lua_client C * C) :=
  let lua_status := LUA_ERROR_GENERIC_ERROR in
  let '(call_handle, s, c) :=
    rpc_caller_session_begin (session (client x)) true ENV_INDEX_LEN 0 c in
  let x := set_session x s in
  if (call_handle : bool) then
    x ← memcpy_request x 0 (put_env_index env_index);
    '(status, resp_buf, resp_len, service_status, s, c) ←
      rpc_caller_session_invoke (session (client x)) TS_LUA_OPCODE_ENV_DELETE true true None 0 0 c;
    let x := set_rpc_status (set_session x s) status in
    let lua_status := if status =? RPC_SUCCESS then s32 service_status else lua_status in
    let '(_, s, c) := rpc_caller_session_end (session (client x)) c in
    Some (lua_status, set_session x s, c)
  else Some (lua_status, set_rpc_status x RPC_ERROR_INTERNAL, c).

Definition lua_client_init x (s : option (rpc_caller_session C)) : lua_client C :=
  let '(_, y) := service_client_init (Some (client x)) s in
  match y with Some y => LuaClient y | None => x end.

Definition lua_client_deinit x : lua_client C := LuaClient (service_client_deinit (client x)).

(** ** A client's operations in sequence *)

Inductive client_op :=
  | CCreate
  | CAppend (env_index : Z) (script : bytes)
  | CExecute (env_index : Z) (error_msg_buf : bytes)
  | CDelete (env_index : Z).

(** The status, the index of a creation, and the message of an execution. *)
Record client_result := Result { res_status : Z; res_index : Z; res_message : bytes }.

Definition client_step x c (o : client_op) : option (client_result * lua_client C * C) :=
  match o with
  | CCreate => '(st, i, x, c) ← env_create x c; Some (Result st i [], x, c)
  | CAppend i script => '(st, x, c) ← env_append x i script c; Some (Result st (-1) [], x, c)
  | CExecute i buf =>
      '(st, buf, n, x, c) ← env_execute x i (len buf) buf c;
      Some (Result st (-1) (take (Z.to_nat n) buf), x, c)
  | CDelete i => '(st, x, c) ← env_delete x i c; Some (Result st (-1) [], x, c)
  end.

Fixpoint client_run x c (os : list client_op)
    : option (list client_result * lua_client C * C) :=
  match os with
  | [] => Some ([], x, c)
  | o :: os =>
      '(r, x, c) ← client_step x c o;
      '(rs, x, c) ← client_run x c os;
      Some (r :: rs, x, c)
  end.

End Client.

(** ** What the operations promise *)

Definition client_call (o : client_op) : lua_call :=
  match o with
  | CCreate => Create
  | CAppend i script => Append i script
  | CExecute i _ => Execute i
  | CDelete i => Delete i
  end.

(** The status is that of the abstract service; a creation returns a fresh
    index; an execution whose message exceeds the client's buffer reports that
    instead. *)
Definition client_spec (envs : Z -> option bytes) (o : client_op) (r : client_result)
    (envs' : Z -> option bytes) : Prop :=
  exists st, env_step envs (client_call o) st envs' /\
    match o with
    | CCreate =>
        res_status r = st /\
        if st =? LUA_SUCCESS
        then envs (res_index r) = None /\ envs' (res_index r) = Some []
        else res_index r = -1
    | CExecute _ buf =>
        len (res_message r) <= len buf /\
        (res_status r = st \/
         st <> LUA_SUCCESS /\ res_status r = PSA_ERROR_BUFFER_TOO_SMALL /\ res_message r = [])
    | _ => res_status r = st
    end.

Inductive client_trace : (Z -> option bytes) -> list client_op -> list client_result ->
    (Z -> option bytes) -> Prop :=
  | trace_nil envs envs' : env_same envs envs' -> client_trace envs [] [] envs'
  | trace_cons envs o r envs1 os rs envs2 :
      client_spec envs o r envs1 -> client_trace envs1 os rs envs2 ->
      client_trace envs (o :: os) (r :: rs) envs2.

(** What an operation needs of the session, and of its index argument. *)
Definition client_op_ok (capacity : Z) (o : client_op) : Prop :=
  let int32 i := - 2 ^ 31 <= i < 2 ^ 31 in
  match o with
  | CCreate => ENV_INDEX_LEN <= capacity
  | CAppend i script => int32 i /\ ENV_INDEX_LEN + len script <= capacity
  | CExecute i buf => int32 i /\ Z.max ENV_INDEX_LEN (len buf) <= capacity
  | CDelete i => int32 i /\ ENV_INDEX_LEN <= capacity
  end.

(** ** Lemmas: one transaction over the direct caller *)

Lemma get_put_env_index i : - 2 ^ 31 <= i < 2 ^ 31 -> get_env_index (put_env_index i) = i.
Proof.
  intros Hi. unfold get_env_index, put_env_index. rewrite le_combine_split.
  change (8 * Z.of_nat 4) with 32. rewrite wrap_idem, swrap_wrap by lia. apply swrap_small; lia.
Qed.

Lemma len_put_env_index i : len (put_env_index i) = ENV_INDEX_LEN.
Proof. unfold put_env_index, len. by rewrite length_le_split. Qed.

Lemma env_step_status envs c st envs' : env_step envs c st envs' -> -7 <= st <= 0.
Proof. intros Hs. inversion Hs; done. Qed.

Lemma client_trace_same e e' os rs e2 :
  (forall j, e' j = e j) -> client_trace e' os rs e2 -> client_trace e os rs e2.
Proof.
  intros Hs Htr. inversion Htr as [|? o r envs1 ? ? ? (st & Hstep & Hr)]; subst.
  - constructor. unfold env_same in *. congruence.
  - econstructor; [|done]. exists st. split; [by eapply env_step_same|].
    destruct o; [|done..]. by rewrite <- Hs.
Qed.

Section EndToEnd.
Context {L : Type} (vm : lua_vm L) (realloc_ok : Z -> bool) (Hvm : vm_ok vm)
  (Hheap : heap_ok realloc_ok).
Context (uuid : bytes) (sp : service_provider (lua_provider L))
  (Hsp : service_provider_init uuid (handler_table vm realloc_ok)
           (len (handler_table vm realloc_ok)) = Some sp).
Context (calloc_ok : Z -> bool) (Hcalloc : forall n, calloc_ok n = true) (id : Z).

Implicit Types (s : rpc_caller_session (direct_state (lua_provider L)))
  (c : direct_state (lua_provider L)).

Abbreviation lua_service := (service_provider_get_rpc_interface sp).
Abbreviation idle := (ServiceClient.idle calloc_ok lua_service id provider_ok).
Abbreviation open_tx := (ServiceClient.open_tx calloc_ok lua_service id provider_ok).

Lemma lua_receive_ok : service_ok provider_ok (receive sp).
Proof using Hvm Hheap Hsp.
  intros p req Hp [Hreq _].
  destruct (lua_service_ok vm realloc_ok Hvm Hheap sp uuid Hsp p req Hp Hreq) as [Hin Hout].
  destruct (decide (lua_opcode (opcode req))) as [Hop|Hop].
  - destruct (Hin Hop) as (st & req' & p' & Hr & Hok & Hlen & _). by exists st, req', p'.
  - rewrite Hout by done. by eexists _, _, _.
Qed.

(** The call of a transaction: what the service did, and what invoke returns. *)
Lemma lua_invoke base cap s c n b p op :
  open_tx base cap s c n b p -> lua_opcode op ->
  let req := Request id 0 op 0 0 n (len b) 0 (len b) (Some b) in
  exists status req' p' s' c' b',
    handled p req (Some (status, req', p')) /\ region req' = Some b' /\
    rpc_caller_session_invoke (Some s) op true true None 0 0 c =
      Some (if negb (status =? RPC_SUCCESS) || (response_data_length req' >? len b)
            then (status, None, 0, service_status req', Some s', c')
            else (status, Some b', response_data_length req', service_status req', Some s', c')) /\
    open_tx base cap s' c' n b' p'.
Proof using Hvm Hheap Hsp.
  intros Htx Hop req.
  assert (0 <= op < 2 ^ 16) as Hrange.
  { unfold lua_opcode, TS_LUA_OPCODE_ENV_CREATE, TS_LUA_OPCODE_ENV_DELETE, TS_LUA_OPCODE_BASE in Hop. lia. }
  destruct (tx_invoke calloc_ok lua_service id provider_ok lua_receive_ok base cap s c n b p op Htx Hrange)
    as (status & req' & p' & s' & c' & b' & Hrok & Hp & Hr & _ & Hb' & _ & Hinv & Htx').
  destruct (proj1 (lua_service_ok vm realloc_ok Hvm Hheap sp uuid Hsp p req Hp (proj1 Hrok)) Hop)
    as (st & r & q & Hr' & Hh). simpl in Hr. fold req in Hr. rewrite Hr' in Hr. injection Hr as -> -> ->.
  exists status, req', p', s', c', b'. split; [by exists status, req', p'|]. done.
Qed.

(** The request the service sees after the client copied [body]. *)
Lemma stored_body b0 b body : store b0 0 body = Some b -> take (Z.to_nat (len body)) b = body.
Proof using.
  intros (_ & _ & ->)%store_Some. simpl. apply take_app_length'. unfold len. lia.
Qed.

Lemma parse_request b0 b op j rest n sz :
  store b0 0 (put_env_index j ++ rest) = Some b -> n = ENV_INDEX_LEN + len rest ->
  - 2 ^ 31 <= j < 2 ^ 31 -> lua_opcode op -> op <> TS_LUA_OPCODE_ENV_CREATE ->
  parse_call (Request id 0 op 0 0 n sz 0 sz (Some b)) =
    if op =? TS_LUA_OPCODE_ENV_APPEND then Append j rest
    else if op =? TS_LUA_OPCODE_ENV_EXECUTE then Execute j else Delete j.
Proof using.
  intros Hb -> Hj Hop Hne. apply stored_body in Hb. unfold parse_call. simpl.
  pose proof (len_put_env_index j) as Hlj. unfold len in Hb, Hlj. rewrite length_app in Hb.
  replace (Z.to_nat (ENV_INDEX_LEN + len rest))
    with (Z.to_nat (Z.of_nat (length (put_env_index j) + length rest))) by (unfold len; lia).
  rewrite Hb. pose proof (len_nonneg rest).
  destruct (Z.eqb_spec op TS_LUA_OPCODE_ENV_CREATE); [done|].
  destruct (Z.ltb_spec (ENV_INDEX_LEN + len rest) ENV_INDEX_LEN); [lia|].
  assert (length (put_env_index j) = 4%nat) as H4 by (unfold ENV_INDEX_LEN in Hlj; lia).
  rewrite take_app_length', drop_app_length' by done. by rewrite get_put_env_index.
Qed.

(** The shape all four operations share after the request is written: invoke,
    look at the reply, end. *)
Lemma tx_finish base cap x s c n b p op :
  session (client x) = Some s -> open_tx base cap s c n b p -> lua_opcode op ->
  op <> TS_LUA_OPCODE_ENV_CREATE \/ ENV_INDEX_LEN <= len b ->
  let req := Request id 0 op 0 0 n (len b) 0 (len b) (Some b) in
  exists req' p' s1 c1 b' resp rl s2 c2,
    env_step (env_view p) (parse_call req) (service_status req') (env_view p') /\
    reply_ok p req RPC_SUCCESS req' p' /\ region req' = Some b' /\
    rpc_caller_session_invoke (session (client x)) op true true None 0 0 c =
      Some (RPC_SUCCESS, resp, rl, service_status req', Some s1, c1) /\
    (rl = 0 /\ response_data_length req' > len b \/
     resp = Some b' /\ rl = response_data_length req' /\ 0 <= rl <= len b /\ len b = len b') /\
    rpc_caller_session_end (Some s1) c1 = (RPC_SUCCESS, Some s2, c2) /\
    idle base cap s2 c2 p'.
Proof using Hvm Hheap Hsp.
  intros Hs Htx Hop Hne req. rewrite Hs.
  destruct (lua_invoke base cap s c n b p op Htx Hop) as (status & req' & p' & s1 & c1 & b' &
    (st0 & r0 & q0 & [= <- <- <-] & Hok & Hlen & Hstep & Hreply) & Hb' & Hinv & Htx1).
  assert (status = RPC_SUCCESS) as ->.
  { destruct Hreply as [_ Hr]. simpl in Hr. pose proof (env_step_status _ _ _ _ Hstep).
    destruct (Z.eqb_spec op TS_LUA_OPCODE_ENV_CREATE) as [E|]; [|done].
    destruct Hne as [?|Hge]; [done|].
    destruct (service_status req' =? LUA_SUCCESS); [|done].
    destruct (Z.ltb_spec (len b) ENV_INDEX_LEN); [lia|]. by destruct Hr as (? & _ & _ & _ & -> & _). }
  destruct (tx_end calloc_ok lua_service id provider_ok base cap s1 c1 n b' p' Htx1) as (s2 & c2 & Hend & Hidle).
  fold req in Hreply, Hstep, Hlen. rewrite Hb' in Hlen. simpl in Hlen.
  destruct (Z.gtb_spec (response_data_length req') (len b)) as [Hgt|Hle].
  - rewrite orb_true_r in Hinv. exists req', p', s1, c1, b', None, 0, s2, c2.
    do 4 (split; [done|]). split; [left; lia|]. done.
  - simpl in Hinv. exists req', p', s1, c1, b', (Some b'), (response_data_length req'), s2, c2.
    do 4 (split; [done|]). split; [right|done].
    do 2 (split; [done|]). split; [|congruence]. split; [|done]. by apply Hreply.
Qed.

(** The result of one operation. *)
Definition stepped base cap (p : lua_provider L) o (r : option (client_result * lua_client (direct_state (lua_provider L))
    * direct_state (lua_provider L))) : Prop :=
  exists res x' s' c' p', r = Some (res, x', c') /\ session (client x') = Some s' /\
    idle base cap s' c' p' /\ client_spec (env_view p) o res (env_view p').

Lemma status_s32 envs call st envs' : env_step envs call st envs' -> s32 st = st.
Proof using. intros Hs%env_step_status. apply swrap_small; lia. Qed.

Lemma create_step base cap x s c p :
  session (client x) = Some s -> idle base cap s c p -> client_op_ok cap CCreate ->
  stepped base cap p CCreate (client_step x c CCreate).
Proof using Hvm Hheap Hsp Hcalloc.
  intros Hs Hidle Hcap. simpl in Hcap. unfold client_step, env_create. rewrite Hs.
  destruct (tx_begin calloc_ok Hcalloc lua_service id provider_ok base cap s c p 0 ENV_INDEX_LEN Hidle) as (s1 & c1 & b & -> & Htx & Hb);
    [lia|done|unfold ENV_INDEX_LEN in *; lia|].
  destruct (tx_finish base cap (set_session x (Some s1)) s1 c1 0 b p TS_LUA_OPCODE_ENV_CREATE)
    as (req' & p' & s2 & c2 & b' & resp & rl & s3 & c3 & Hstep & [_ Hreply] & Hb' & Hinv & Hresp &
        Hend & Hidle'); [done|done|done|right; unfold ENV_INDEX_LEN in *; lia|].
  rewrite Hinv. cbn [mbind option_bind set_rpc_status set_session client session].
  simpl (RPC_SUCCESS =? RPC_SUCCESS). cbv iota.
  rewrite (status_s32 _ _ _ _ Hstep). rewrite Hend. simpl in Hreply.
  unfold parse_call in Hstep. simpl in Hstep.
  destruct (Z.eqb_spec (service_status req') LUA_SUCCESS) as [Hst|Hst].
  - destruct Hreply as (i0 & Hi0 & Hold & Hnew & Hr).
    destruct (Z.ltb_spec (len b) ENV_INDEX_LEN); [unfold ENV_INDEX_LEN in *; lia|].
    destruct Hr as (_ & Hrl & b0 & Hb0 & Hld). rewrite Hb' in Hb0. simplify_eq.
    destruct Hresp as [[-> Hgt]|(-> & -> & _)]; [lia|]. rewrite Hrl. simpl. rewrite Hld. simpl.
    eexists _, _, _, _, p'. split; [done|]. split; [done|]. split; [done|].
    exists (service_status req'). split; [done|]. simpl. rewrite get_put_env_index.
    2:{ unfold MAX_ENV_COUNT in Hi0. lia. }
    split; [done|]. by rewrite Hst.
  - simpl. eexists _, _, _, _, p'. split; [done|]. split; [done|]. split; [done|].
    exists (service_status req'). split; [done|]. simpl. split; [done|].
    by destruct (Z.eqb_spec (service_status req') LUA_SUCCESS).
Qed.

Lemma append_step base cap x s c p j script :
  session (client x) = Some s -> idle base cap s c p -> client_op_ok cap (CAppend j script) ->
  cap < 2 ^ 32 ->
  stepped base cap p (CAppend j script) (client_step x c (CAppend j script)).
Proof using Hvm Hheap Hsp Hcalloc.
  intros Hs Hidle [Hj Hcap] Hlt. pose proof (len_nonneg script) as Hl0.
  unfold client_step, env_append. rewrite Hs. rewrite wrap_small by (unfold ENV_INDEX_LEN in *; lia).
  destruct (tx_begin calloc_ok Hcalloc lua_service id provider_ok base cap s c p (ENV_INDEX_LEN + len script) 0 Hidle)
    as (s1 & c1 & b & -> & Htx & Hb); [unfold ENV_INDEX_LEN in *; lia..|].
  destruct (tx_write _ _ _ _ _ _ _ _ _ _ _ 0 (put_env_index j) Htx)
    as (s2 & b2 & Hw2 & Hs2 & Htx2); [done|rewrite len_put_env_index; lia|].
  destruct (tx_write _ _ _ _ _ _ _ _ _ _ _ ENV_INDEX_LEN script Htx2)
    as (s3 & b3 & Hw3 & Hs3 & Htx3); [done|rewrite (store_len _ _ _ _ Hs2); lia|].
  assert (store b 0 (put_env_index j ++ script) = Some b3) as Hbody.
  { rewrite <- store_app, Hs2. simpl. by rewrite len_put_env_index. }
  unfold memcpy_request. cbn [set_session client session mbind option_bind]. rewrite Hw2.
  cbn [set_session client session mbind option_bind]. rewrite Hw3. cbn [mbind option_bind].
  match goal with |- context [rpc_caller_session_invoke (session (client ?y))] => set (y0 := y) end.
  destruct (tx_finish base cap y0 s3 c1 _ b3 p TS_LUA_OPCODE_ENV_APPEND eq_refl Htx3)
    as (req' & p' & s4 & c2 & b' & resp & rl & s5 & c3 & Hstep & _ & Hb' & Hinv & _ & Hend & Hidle');
    [done|by left|].
  rewrite Hinv. cbn [mbind option_bind set_rpc_status set_session client session]. rewrite Hend.
  simpl. rewrite (status_s32 _ _ _ _ Hstep).
  rewrite (parse_request b b3 _ j script) in Hstep by done.
  eexists _, _, _, _, p'. do 3 (split; [done|]). by exists (service_status req').
Qed.

Lemma delete_step base cap x s c p j :
  session (client x) = Some s -> idle base cap s c p -> client_op_ok cap (CDelete j) ->
  stepped base cap p (CDelete j) (client_step x c (CDelete j)).
Proof using Hvm Hheap Hsp Hcalloc.
  intros Hs Hidle [Hj Hcap]. unfold client_step, env_delete. rewrite Hs.
  destruct (tx_begin calloc_ok Hcalloc lua_service id provider_ok base cap s c p ENV_INDEX_LEN 0 Hidle)
    as (s1 & c1 & b & -> & Htx & Hb); [unfold ENV_INDEX_LEN in *; lia..|].
  destruct (tx_write _ _ _ _ _ _ _ _ _ _ _ 0 (put_env_index j) Htx)
    as (s2 & b2 & Hw2 & Hs2 & Htx2); [done|rewrite len_put_env_index; lia|].
  unfold memcpy_request. cbn [set_session client session mbind option_bind]. rewrite Hw2.
  cbn [mbind option_bind].
  match goal with |- context [rpc_caller_session_invoke (session (client ?y))] => set (y0 := y) end.
  destruct (tx_finish base cap y0 s2 c1 _ b2 p TS_LUA_OPCODE_ENV_DELETE eq_refl Htx2)
    as (req' & p' & s4 & c2 & b' & resp & rl & s5 & c3 & Hstep & _ & Hb' & Hinv & _ & Hend & Hidle');
    [done|by left|].
  rewrite Hinv. cbn [mbind option_bind set_rpc_status set_session client session]. rewrite Hend.
  simpl. rewrite (status_s32 _ _ _ _ Hstep).
  rewrite (parse_request b b2 _ j []) in Hstep by (done || by rewrite app_nil_r).
  eexists _, _, _, _, p'. do 3 (split; [done|]). by exists (service_status req').
Qed.

Lemma execute_step base cap x s c p j buf :
  session (client x) = Some s -> idle base cap s c p -> client_op_ok cap (CExecute j buf) ->
  stepped base cap p (CExecute j buf) (client_step x c (CExecute j buf)).
Proof using Hvm Hheap Hsp Hcalloc.
  intros Hs Hidle [Hj Hcap]. unfold client_step, env_execute. rewrite Hs.
  pose proof (len_nonneg buf).
  destruct (tx_begin calloc_ok Hcalloc lua_service id provider_ok base cap s c p ENV_INDEX_LEN (len buf) Hidle)
    as (s1 & c1 & b & -> & Htx & Hb); [unfold ENV_INDEX_LEN in *; lia..|].
  destruct (tx_write _ _ _ _ _ _ _ _ _ _ _ 0 (put_env_index j) Htx)
    as (s2 & b2 & Hw2 & Hs2 & Htx2); [done|rewrite len_put_env_index; lia|].
  unfold memcpy_request. cbn [set_session client session mbind option_bind]. rewrite Hw2.
  cbn [mbind option_bind].
  match goal with |- context [rpc_caller_session_invoke (session (client ?y))] => set (y0 := y) end.
  destruct (tx_finish base cap y0 s2 c1 _ b2 p TS_LUA_OPCODE_ENV_EXECUTE eq_refl Htx2)
    as (req' & p' & s4 & c2 & b' & resp & rl & s5 & c3 & Hstep & _ & Hb' & Hinv & Hresp & Hend & Hidle');
    [done|by left|].
  rewrite Hinv. cbn [mbind option_bind set_rpc_status set_session client session].
  simpl (RPC_SUCCESS =? RPC_SUCCESS). cbv iota. rewrite Hend.
  rewrite (status_s32 _ _ _ _ Hstep).
  rewrite (parse_request b b2 _ j []) in Hstep by (done || by rewrite app_nil_r).
  destruct (Z.eqb_spec (service_status req') LUA_SUCCESS) as [Hst|Hst]; simpl.
  { eexists _, _, _, _, p'. do 3 (split; [done|]). exists (service_status req').
    split; [done|]. simpl. split; [done|by left]. }
  destruct (Z.leb_spec rl (len buf)) as [Hrl|Hrl]; simpl.
  - assert (exists msg, (if rl =? 0 then Some [] else b0 ← resp; load b0 0 rl) = Some msg /\
      len msg = rl) as (msg & Hmsg & Hml).
    { destruct (Z.eqb_spec rl 0) as [->|]; [by exists []|].
      destruct Hresp as [[? _]|(-> & _ & Hr & Hbb)]; [done|]. simpl.
      rewrite load_ok, drop_0 by lia. eexists. split; [done|]. unfold len in *.
      rewrite length_take. lia. }
    rewrite Hmsg. simpl. destruct (store_ok buf 0 msg) as [buf' Hbuf]; [done|lia|].
    rewrite Hbuf. simpl. eexists _, _, _, _, p'. do 3 (split; [done|]). exists (service_status req').
    split; [done|]. simpl. split; [|by left]. rewrite <- (store_len _ _ _ _ Hbuf).
    unfold len. rewrite length_take. lia.
  - eexists _, _, _, _, p'. do 3 (split; [done|]). exists (service_status req').
    split; [done|]. simpl. split; [done|]. by right.
Qed.

Lemma client_step_ok base cap x s c p o :
  session (client x) = Some s -> idle base cap s c p -> client_op_ok cap o -> cap < 2 ^ 32 ->
  stepped base cap p o (client_step x c o).
Proof using Hvm Hheap Hsp Hcalloc.
  intros. destruct o as [|j script|j buf|j].
  - by eapply create_step.
  - by eapply append_step.
  - by eapply execute_step.
  - by eapply delete_step.
Qed.

Lemma client_run_ok base cap x s c p os :
  session (client x) = Some s -> idle base cap s c p -> Forall (client_op_ok cap) os ->
  cap < 2 ^ 32 ->
  exists rs x' s' c' p', client_run x c os = Some (rs, x', c') /\ session (client x') = Some s' /\
    idle base cap s' c' p' /\ client_trace (env_view p) os rs (env_view p').
Proof using Hvm Hheap Hsp Hcalloc.
  intros Hs Hidle Hos Hcap. revert x s c p Hs Hidle.
  induction Hos as [|o os Ho _ IH]; intros x s c p Hs Hidle.
  - exists [], x, s, c, p. do 3 (split; [done|]). by constructor.
  - destruct (client_step_ok base cap x s c p o Hs Hidle Ho Hcap)
      as (r & x1 & s1 & c1 & p1 & E1 & Hs1 & Hidle1 & Hspec).
    destruct (IH x1 s1 c1 p1 Hs1 Hidle1) as (rs & x2 & s2 & c2 & p2 & E2 & Hs2 & Hidle2 & Htr).
    exists (r :: rs), x2, s2, c2, p2. simpl. rewrite E1. simpl. rewrite E2. simpl.
    do 3 (split; [done|]). by econstructor.
Qed.

End EndToEnd.

(** ** Under an allocator that can fail *)

(** The shared memory an operation needs. *)
Definition client_message (o : client_op) : Z :=
  match o with
  | CCreate => ENV_INDEX_LEN
  | CAppend _ script => Z.max (u64 (ENV_INDEX_LEN + len script)) 0
  | CExecute _ buf => Z.max ENV_INDEX_LEN (len buf)
  | CDelete _ => ENV_INDEX_LEN
  end.

Section Lockstep.
Context {S : Type} (calloc_ok : Z -> bool) (ctx : direct_caller_context S) (size : Z).
Implicit Types (x : lua_client (direct_state S)) (c : direct_state S) (s : rpc_caller_session (direct_state S)).

Definition endless_lua x : lua_client (direct_state S) := LuaClient (endless_client ctx (client x)).

Definition over_lua x : Prop := over_client calloc_ok ctx size (client x).

Definition lua_lockstep {A} (r r' : option (A * lua_client (direct_state S) * direct_state S)) : Prop :=
  match r with
  | None => r' = None
  | Some (a, x, c) => r' = Some (a, endless_lua x, c) /\ over_lua x
  end.

Lemma lua_lockstep_bind {A B} (r r' : option (A * lua_client (direct_state S) * direct_state S))
    (f f' : A * lua_client (direct_state S) * direct_state S -> option (B * lua_client (direct_state S) * direct_state S)) :
  lua_lockstep r r' ->
  (forall a x c, over_lua x -> lua_lockstep (f (a, x, c)) (f' (a, endless_lua x, c))) ->
  lua_lockstep (p ← r; f p) (p ← r'; f' p).
Proof using.
  intros H Hf. destruct r as [[[a x] c]|]; simpl in H; [destruct H as [-> Ho]; by apply Hf|by subst r'].
Qed.

Lemma set_session_endless x s : set_session (endless_lua x) (Some (endless ctx s)) = endless_lua (set_session x (Some s)).
Proof using. done. Qed.

Lemma over_set_session x s : over calloc_ok ctx size s -> over_lua (set_session x (Some s)).
Proof using. intros Ho. by exists s. Qed.

Lemma set_rpc_status_endless x st : set_rpc_status (endless_lua x) st = endless_lua (set_rpc_status x st).
Proof using. done. Qed.

Lemma over_set_rpc_status x st : over_lua x -> over_lua (set_rpc_status x st).
Proof using. done. Qed.

(** The steps of an operation, each with its twin. *)
Lemma lua_begin_lockstep x b n rm c :
  over_lua x -> allocated calloc_ok size [Z.max n rm] ->
  exists h s c', over_lua (set_session x (Some s)) /\
    rpc_caller_session_begin (session (client x)) b n rm c = (h, Some s, c') /\
    rpc_caller_session_begin (session (client (endless_lua x))) b n rm c = (h, Some (endless ctx s), c').
Proof using.
  intros (s & Hs & Ho) Hal. cbn [endless_lua endless_client client with_session session]. rewrite Hs.
  destruct (begin_lockstep calloc_ok ctx size s b n rm c Ho Hal) as (h & s1 & c1 & Ho1 & H1 & H2).
  exists h, s1, c1. by split; [apply over_set_session|].
Qed.

Lemma lua_write_lockstep x off data :
  over_lua x ->
  match memcpy_request x off data with
  | None => memcpy_request (endless_lua x) off data = None
  | Some y => over_lua y /\ memcpy_request (endless_lua x) off data = Some (endless_lua y)
  end.
Proof using.
  intros (s & Hs & Ho). unfold memcpy_request. cbn [endless_lua endless_client client with_session session].
  rewrite Hs. cbn [mbind option_bind fmap option_fmap option_map].
  pose proof (write_lockstep calloc_ok ctx size s off data Ho) as Hw.
  destruct (write_request s off data) as [s1|]; [|by rewrite Hw]. destruct Hw as [Ho1 ->].
  by split; [apply over_set_session|].
Qed.

Lemma lua_invoke_lockstep x op c :
  over_lua x ->
  match rpc_caller_session_invoke (session (client x)) op true true None 0 0 c with
  | None => rpc_caller_session_invoke (session (client (endless_lua x))) op true true None 0 0 c = None
  | Some (st, rb, rl, ss, s, c') => exists s', s = Some s' /\ over_lua (set_session x (Some s')) /\
      rpc_caller_session_invoke (session (client (endless_lua x))) op true true None 0 0 c
        = Some (st, rb, rl, ss, Some (endless ctx s'), c')
  end.
Proof using.
  intros (s & Hs & Ho). cbn [endless_lua endless_client client with_session session]. rewrite Hs.
  pose proof (invoke_lockstep calloc_ok ctx size s op true true None 0 0 c Ho) as Hi.
  destruct (rpc_caller_session_invoke (Some s) op true true None 0 0 c) as [[[[[[st rb] rl] ss] s1] c1]|]; [|done].
  destruct Hi as (s' & -> & Ho1 & Hi). exists s'. split; [done|]. split; [by apply over_set_session|done].
Qed.

Lemma lua_end_lockstep x c :
  over_lua x ->
  exists st s c', over_lua (set_session x (Some s)) /\
    rpc_caller_session_end (session (client x)) c = (st, Some s, c') /\
    rpc_caller_session_end (session (client (endless_lua x))) c = (st, Some (endless ctx s), c').
Proof using.
  intros (s & Hs & Ho). cbn [endless_lua endless_client client with_session session]. rewrite Hs.
  destruct (end_lockstep calloc_ok ctx size s c Ho) as (st & s1 & c1 & Ho1 & H1 & H2).
  exists st, s1, c1. by split; [apply over_set_session|].
Qed.

#[local] Opaque endless_lua endless.

(** Follow an operation and its twin, step by step. *)
Ltac follow_lua :=
  match goal with
  | |- context [rpc_caller_session_begin (session (client ?x)) ?b ?n ?rm ?c] =>
      let H := fresh in let Ho := fresh in
      destruct (lua_begin_lockstep x b n rm c) as ([] & ? & ? & Ho & H & ->); [done|done|..];
      rewrite H; clear H
  | |- context [memcpy_request ?x ?off ?data] =>
      let H := fresh in
      assert (over_lua x) as H by done; apply (lua_write_lockstep x off data) in H;
      destruct (memcpy_request x off data); [destruct H as [? ->]|by rewrite H]
  | |- context [rpc_caller_session_invoke (session (client ?x)) ?op _ _ _ _ _ ?c] =>
      let H := fresh in
      assert (over_lua x) as H by done; apply (lua_invoke_lockstep x op c) in H;
      destruct (rpc_caller_session_invoke (session (client x)) op true true None 0 0 c) as [[[[[[? ?] ?] ?] ?] ?]|];
      [destruct H as (? & -> & ? & ->)|by rewrite H]
  | |- context [rpc_caller_session_end (session (client ?x)) ?c] =>
      let H := fresh in
      destruct (lua_end_lockstep x c) as (? & ? & ? & ? & H & ->); [done|]; rewrite H; clear H
  end; cbn [mbind option_bind]; rewrite ?set_session_endless, ?set_rpc_status_endless.

Lemma env_create_lockstep x c :
  over_lua x -> allocated calloc_ok size [ENV_INDEX_LEN] -> lua_lockstep (env_create x c) (env_create (endless_lua x) c).
Proof using.
  intros Ho Hal. unfold env_create. follow_lua; [|by split].
  follow_lua. destruct (if _ =? RPC_SUCCESS then _ else _) as [[? ?]|]; [|done]. cbn [mbind option_bind]. follow_lua. by split.
Qed.

Lemma env_append_lockstep x i script c :
  over_lua x -> allocated calloc_ok size [Z.max (u64 (ENV_INDEX_LEN + len script)) 0] ->
  lua_lockstep (env_append x i script c) (env_append (endless_lua x) i script c).
Proof using.
  intros Ho Hal. unfold env_append. follow_lua; [|by split]. do 4 follow_lua. by split.
Qed.

Lemma env_execute_lockstep x i n buf c :
  over_lua x -> allocated calloc_ok size [Z.max ENV_INDEX_LEN n] ->
  lua_lockstep (env_execute x i n buf c) (env_execute (endless_lua x) i n buf c).
Proof using.
  intros Ho Hal. unfold env_execute. follow_lua; [|by split]. do 2 follow_lua.
  destruct (if _ =? RPC_SUCCESS then _ else _) as [[[? ?] ?]|]; [|done]. cbn [mbind option_bind]. follow_lua. by split.
Qed.

Lemma env_delete_lockstep x i c :
  over_lua x -> allocated calloc_ok size [ENV_INDEX_LEN] ->
  lua_lockstep (env_delete x i c) (env_delete (endless_lua x) i c).
Proof using.
  intros Ho Hal. unfold env_delete. follow_lua; [|by split]. do 3 follow_lua. by split.
Qed.

Lemma client_step_lockstep x c o :
  over_lua x -> allocated calloc_ok size [client_message o] ->
  lua_lockstep (client_step x c o) (client_step (endless_lua x) c o).
Proof using.
  intros Ho Hal. destruct o; cbn [client_step client_message] in *; apply lua_lockstep_bind.
  - by apply env_create_lockstep.
  - by intros [? ?].
  - by apply env_append_lockstep.
  - done.
  - by apply env_execute_lockstep.
  - by intros [[? ?] ?].
  - by apply env_delete_lockstep.
  - done.
Qed.

Lemma client_run_lockstep x c os :
  over_lua x -> allocated calloc_ok size (map client_message os) ->
  lua_lockstep (client_run x c os) (client_run (endless_lua x) c os).
Proof using.
  revert x c. induction os as [|o os IH]; intros x c Ho Hal; [done|].
  cbn [map] in Hal. apply allocated_cons in Hal as [Hal Hos]. cbn [client_run].
  apply lua_lockstep_bind; [by apply client_step_lockstep|]. intros a y d Hy.
  apply lua_lockstep_bind; [by apply IH|done].
Qed.

End Lockstep.

(** ** The property *)

Lemma endless_lua_refines {L} (vm : lua_vm L) realloc_ok uuid sp id p p0 s0 e size live
    s c x os :
  vm_ok vm -> heap_ok realloc_ok ->
  lua_provider_init vm (Some p) = (true, Some p0) ->
  service_provider_init uuid (handler_table vm realloc_ok)
    (len (handler_table vm realloc_ok)) = Some sp ->
  0 <= size < 2 ^ 32 ->
  rpc_caller_session_open (Some s0)
    (Some (Direct.interface (fun _ => true) (DirectContext (service_provider_get_rpc_interface sp) id)))
    (Some uuid) e size
    (DirectState live (lua_provider_register_serializer p0 packedc_lua_serializer_instance))
    = (RPC_SUCCESS, Some s, c) ->
  Forall (client_op_ok (session_capacity s)) os ->
  exists rs x' s' c', client_run (lua_client_init x (Some s)) c os = Some (rs, x', c') /\
    client_trace (fun _ => None) os rs (env_view (service_state c')) /\
    session (client x') = Some s' /\ is_call_transaction_in_progress s' = false /\
    live_blocks c' = live + held_blocks s'.
Proof.
  intros Hvm Hheap Hinit Hsp Hsize Hopen Hos.
  destruct (lua_provider_init_ok vm p p0 Hinit) as [Hok Hempty].
  pose proof (open_idle (fun _ => true) (fun _ => eq_refl) (service_provider_get_rpc_interface sp) id provider_ok
    s0 uuid e size live _ s c Hok Hsize Hopen) as Hidle.
  destruct (client_run_ok vm realloc_ok Hvm Hheap uuid sp Hsp (fun _ => true) (fun _ => eq_refl) id live
    (session_capacity s) (lua_client_init x (Some s)) s c _ os eq_refl Hidle Hos
    (capacity_bound _ _ _ _ _ _ _ _ _ Hidle))
    as (rs & x' & s' & c' & p' & Hrun & Hs' & ((_ & _ & Hl) & Hprog & Hst & _) & Htr).
  exists rs, x', s', c'. split; [done|]. rewrite Hst.
  split; [by eapply client_trace_same|]. done.
Qed.

(** C13: the Lua service, end to end.  A client that opens a session (with
    memory per session or per call) over the direct caller to a freshly
    initialised provider, and then issues any sequence of operations that fit
    the session, never faults; every status, every index returned by a creation
    and the environments follow the abstract service: scripts arrive byte for
    byte, and no shared memory block is leaked.  The condition is that calloc gives
    what this run asks it for: the memory of the session or, where the session has
    none, that of each operation ([allocated]).  Where it does not, the direct caller
    hands out NULL, which the client writes to ([append_unallocated]). *)
Theorem lua_client_refines {L} (vm : lua_vm L) realloc_ok calloc_ok uuid sp id p p0 s0 e size live
    s c x os :
  vm_ok vm -> heap_ok realloc_ok -> allocated calloc_ok size (map client_message os) ->
  lua_provider_init vm (Some p) = (true, Some p0) ->
  service_provider_init uuid (handler_table vm realloc_ok)
    (len (handler_table vm realloc_ok)) = Some sp ->
  0 <= size < 2 ^ 32 ->
  rpc_caller_session_open (Some s0)
    (Some (Direct.interface calloc_ok (DirectContext (service_provider_get_rpc_interface sp) id)))
    (Some uuid) e size
    (DirectState live (lua_provider_register_serializer p0 packedc_lua_serializer_instance))
    = (RPC_SUCCESS, Some s, c) ->
  Forall (client_op_ok (session_capacity s)) os ->
  exists rs x' s' c', client_run (lua_client_init x (Some s)) c os = Some (rs, x', c') /\
    client_trace (fun _ => None) os rs (env_view (service_state c')) /\
    session (client x') = Some s' /\ is_call_transaction_in_progress s' = false /\
    live_blocks c' = live + held_blocks s'.
Proof.
  intros Hvm Hheap Hal Hinit Hsp Hsize Hopen Hos.
  assert (allocated calloc_ok size []) as Hnil by (revert Hal; unfold allocated; by destruct (size =? 0)).
  set (ctx := DirectContext (service_provider_get_rpc_interface sp) id) in *.
  apply open_lockstep in Hopen as [Hover Hopen]; [|done].
  assert (over_lua calloc_ok ctx size (lua_client_init x (Some s))) as Ho by (by exists s).
  destruct (endless_lua_refines vm realloc_ok uuid sp id p p0 s0 e size live (endless ctx s) c x os
    Hvm Hheap Hinit Hsp Hsize Hopen Hos) as (rs & x1 & s1 & c1 & Hrun & Htr & Hs1 & Hprog & Hl).
  pose proof (client_run_lockstep calloc_ok ctx size _ c os Ho Hal) as Hstep.
  change (lua_client_init x (Some (endless ctx s))) with (endless_lua ctx (lua_client_init x (Some s))) in Hrun.
  rewrite Hrun in Hstep. destruct (client_run (lua_client_init x (Some s)) c os) as [[[rs' x'] c']|] eqn:E; [|done].
  destruct Hstep as [[= -> -> ->] (s' & Hs' & _)]. cbn [endless_lua endless_client with_session client session] in Hs1.
  rewrite Hs' in Hs1. injection Hs1 as <-.
  exists rs', x', s', c'. split; [reflexivity|]. split; [exact Htr|]. split; [exact Hs'|]. split; [exact Hprog|exact Hl].
Qed.

(** A session without memory of its own that is refused the memory of a script. *)
Lemma append_unallocated {S} calloc_ok (ctx : direct_caller_context S) x s i script c :
  session (client x) = Some s -> over calloc_ok ctx 0 s -> is_call_transaction_in_progress s = false ->
  shared_memory s = null_memory -> ENV_INDEX_LEN + len script < 2 ^ 32 ->
  calloc_ok (ENV_INDEX_LEN + len script) = false -> env_append x i script c = None.
Proof.
  intros Hs [Hc Hp] Hprog Hm Hlt Hno. unfold env_append, rpc_caller_session_begin.
  pose proof (len_nonneg script). assert (0 <= ENV_INDEX_LEN) by done.
  rewrite wrap_small, Z.max_l by lia. rewrite Hs, Hc, Hp, Hm, Hprog.
  destruct (Z.gtb_spec (ENV_INDEX_LEN + len script) (2 ^ 32 - 1)); [lia|]. simpl.
  unfold Direct.create_shared_memory. by rewrite Hno.
Qed.

Lemma lua_client_refines_witness :
  let os := [CCreate; CAppend 0 [104; 105]; CExecute 0 (fill 0 8); CAppend 0 [0];
             CExecute 0 (fill 0 8); CDelete 0; CDelete 0] in
  exists (sp : service_provider (lua_provider Z)) p0 s c rs x' c',
    rpc_caller_session_open (Some (Session None null_memory 0 false 0))
      (Some (Direct.interface (fun _ => true)
         (DirectContext (service_provider_get_rpc_interface sp) 4096)))
      (Some (fill 7 16)) 0 64
      (DirectState 2 (lua_provider_register_serializer p0 packedc_lua_serializer_instance))
      = (RPC_SUCCESS, Some s, c) /\
    client_run (lua_client_init (LuaClient (ServiceClient None 0 (ServiceInfo 0 0))) (Some s)) c os
      = Some (rs, x', c') /\
    rs = [Result LUA_SUCCESS 0 []; Result LUA_SUCCESS (-1) []; Result LUA_SUCCESS (-1) [];
          Result LUA_SUCCESS (-1) []; Result LUA_ERROR_PARSER_ERROR (-1) [110; 111];
          Result LUA_SUCCESS (-1) []; Result LUA_ERROR_ENVIRONMENT_DOES_NOT_EXIST (-1) []] /\
    client_trace (fun _ => None) os rs (env_view (service_state c')).
Proof.
  intros os.
  destruct (service_provider_init_ok (fill 7 16) (handler_table example_vm example_realloc_ok))
    as (sp & Hsp & _).
  destruct (lua_provider_init example_vm (Some (LuaProvider None None [] 0))) as [ok [p0|]] eqn:Hi;
    [|done].
  assert (ok = true) as -> by (by inversion Hi).
  destruct (rpc_caller_session_open (Some (Session None null_memory 0 false 0))
      (Some (Direct.interface (fun _ => true)
         (DirectContext (service_provider_get_rpc_interface sp) 4096)))
      (Some (fill 7 16)) 0 64
      (DirectState 2 (lua_provider_register_serializer p0 packedc_lua_serializer_instance)))
    as [[st [s|]] c] eqn:Ho; [|exfalso; by inversion Hsp; inversion Hi; subst].
  assert (st = RPC_SUCCESS) as -> by (inversion Hsp; inversion Hi; subst; by inversion Ho).
  destruct (lua_client_refines example_vm example_realloc_ok (fun _ => true) (fill 7 16) sp 4096
    (LuaProvider None None [] 0) p0 (Session None null_memory 0 false 0) 0 64 2 s c
    (LuaClient (ServiceClient None 0 (ServiceInfo 0 0))) os example_vm_ok example_heap_ok)
    as (rs & x' & s' & c' & Hrun & Htr & _); [done|done|done|done|done| |].
  { assert (session_capacity s = 64) as -> by (inversion Hsp; inversion Hi; subst; by inversion Ho).
    unfold os. rewrite !Forall_cons. repeat split; done. }
  exists sp, p0, s, c, rs, x', c'. split; [done|]. split; [done|]. split; [|done].
  apply (f_equal (fmap (fun y => fst (fst y)))) in Hrun. simpl in Hrun.
  revert Hrun. inversion Hsp. inversion Hi. subst. inversion Ho. subst. intros Hrun.
  vm_compute in Hrun. by inversion Hrun.
Defined.
