(* ===== verification/LuaSp.v ===== *)
(** * deployments/lua/env/commonsp/lua_sp.c: the Lua secure partition

    sp_main boots the partition (buffers, configuration, provider, RPC endpoint)
    and then answers direct messages for ever.  The outcomes of the calls that
    leave the partition are arguments: discovery and buffer mapping (sp_init),
    loading of the boot configuration, the allocations and, in the loop, the
    results of sending a response and of waiting for a message. *)
From S2P Require Import Prelude Status RpcAbi RpcService RpcEndpoint LuaProvider.

Definition TS_LUA_SERVICE_UUID : bytes :=
  [207; 12; 252; 248; 131; 118; 70; 173; 144; 63; 119; 126; 206; 184; 175; 42].

(** What the boot phase asks of its surroundings. *)
Record boot_env := BootEnv {
  sp_init_result : option Z;
  sp_config_load_result : bool;
  ffa_version_get : Z * Z * Z;
  ffa_own_id_get : Z * Z;
  calloc_services : bool;
  calloc_memories : bool
}.

Record sp_state (L M : Type) := SpState {
  rpc_endpoint : ts_rpc_endpoint_sp (lua_provider L);
  lua_instance : lua_provider L;
  spm : M
}.
Arguments SpState {L M}.
Arguments rpc_endpoint {L M}.
Arguments lua_instance {L M}.
Arguments spm {L M}.

(** How an iteration of the loop continues: the response was sent and the next
    message came with it; sending failed and waiting gave the next message; or
    both failed, and the partition stops in its error loop. *)
Inductive sp_event := Sent (next : sp_msg) | Waited (next : sp_msg) | Fatal.

Section Sp.
Context {L M : Type} (vm : lua_vm L) (realloc_ok : Z -> bool).
Context (sp_memory_retrieve : M -> Z -> Z -> Z -> Z * bytes * Z * M)
        (sp_memory_relinquish : M -> Z -> Z -> Z * M).

(** The zero-initialised locals of sp_main. *)
Definition zero_provider : lua_provider L := LuaProvider None None [] 0.
Definition zero_endpoint : ts_rpc_endpoint_sp (lua_provider L) := Endpoint 0 [] 0 [] 0.

(** Up to the first message: [None] if the partition is not viable. *)
Definition sp_main_boot (env : boot_env) : option (ts_rpc_endpoint_sp (lua_provider L) * lua_provider L) :=
  _ ← sp_init_result env;
  if negb (sp_config_load_result env) then None
  else
    let '(lua_iface, p) := lua_provider_init vm (Some zero_provider) in
    if negb lua_iface then None
    else
      p ← p;
      sp ← service_provider_init TS_LUA_SERVICE_UUID (handler_table vm realloc_ok)
             (len (handler_table vm realloc_ok));
      let p := lua_provider_register_serializer p packedc_lua_serializer_instance in
      let '(status, ep) := ts_rpc_endpoint_sp_init (Some zero_endpoint) (ffa_version_get env)
                             (ffa_own_id_get env) (calloc_services env) (calloc_memories env) 1 16 in
      if negb (status =? RPC_SUCCESS) then None
      else
        let '(status, ep) :=
          ts_rpc_endpoint_sp_add_service ep (Some (service_provider_get_rpc_interface sp)) in
        if negb (status =? RPC_SUCCESS) then None
        else ep ← ep; Some (ep, p).

(** The message loop on a first message and the events that follow: the
    responses, the state, and whether the partition still runs. *)
Fixpoint sp_main_loop (st : sp_state L M) (req_msg : sp_msg) (events : list sp_event)
    : option (list sp_msg * sp_state L M * bool) :=
  '(resp_msg, ep, p, m) ←
    ts_rpc_endpoint_sp_receive sp_memory_retrieve sp_memory_relinquish (rpc_endpoint st)
      (lua_instance st) (spm st) req_msg;
  let st := SpState ep p m in
  match events with
  | [] => Some ([resp_msg], st, true)
  | Fatal :: _ => Some ([resp_msg], st, false)
  | Sent next :: events | Waited next :: events =>
      '(resps, st, running) ← sp_main_loop st next events;
      Some (resp_msg :: resps, st, running)
  end.

End Sp.

(** The messages the loop handles, in order. *)
Fixpoint handled_messages (req_msg : sp_msg) (events : list sp_event) : list sp_msg :=
  match events with
  | [] | Fatal :: _ => [req_msg]
  | Sent next :: events | Waited next :: events => req_msg :: handled_messages next events
  end.

(** A response goes back to its sender with the control register of the request. *)
Definition answers (msg reply : sp_msg) : Prop :=
  msg_destination_id reply = msg_source_id msg /\
  msg_source_id reply = msg_destination_id msg /\ len (args32 reply) = 5 /\
  nthZ (args32 reply) TS_RPC_CONTROL_REG = nthZ (args32 msg) TS_RPC_CONTROL_REG.

(** The provider is well formed and in a state of the abstract service. *)
Definition lua_reachable {L} (p : lua_provider L) : Prop :=
  provider_ok p /\ exists calls sts, env_run (fun _ => None) calls sts (env_view p).

Section Facts.
Context {L M : Type} (vm : lua_vm L) (realloc_ok : Z -> bool) (Hvm : vm_ok vm)
  (Hheap : heap_ok realloc_ok).

Lemma lua_service_reachable sp uuid :
  service_provider_init uuid (handler_table vm realloc_ok)
    (len (handler_table vm realloc_ok)) = Some sp ->
  service_ok lua_reachable (receive sp).
Proof using Hvm Hheap.
  intros Hsp p req [Hp (calls & sts & Hrun)] [Hreq _].
  destruct (lua_service_ok vm realloc_ok Hvm Hheap sp uuid Hsp p req Hp Hreq) as [Hin Hout].
  destruct (decide (lua_opcode (opcode req))) as [Hop|Hop].
  - destruct (Hin Hop) as (st & req' & p' & Hr & Hok & Hlen & Hstep & _).
    exists st, req', p'. split; [done|]. split; [|done]. split; [done|].
    eexists _, _. by eapply env_run_snoc.
  - rewrite Hout by done. eexists _, _, _. split; [done|]. split; [|done].
    split; [done|]. by exists calls, sts.
Qed.

Lemma boot_ok env ep p :
  sp_main_boot vm realloc_ok env = Some (ep, p) ->
  endpoint_ok ep /\ services_ok lua_reachable ep /\ lua_reachable p.
Proof using Hvm Hheap.
  unfold sp_main_boot. intros Hb. apply bind_Some in Hb as (own & _ & Hb).
  destruct (sp_config_load_result env); cbn [negb] in Hb; [|done].
  destruct (lua_provider_init vm (Some zero_provider)) as [ok q] eqn:Hi.
  destruct ok; cbn [negb] in Hb; [|done].
  apply bind_Some in Hb as (p0 & -> & Hb). apply bind_Some in Hb as (sp & Hsp & Hb).
  destruct (lua_provider_init_ok vm _ p0 Hi) as [Hok Hempty].
  unfold ts_rpc_endpoint_sp_init in Hb. simpl in Hb.
  destruct (ffa_version_get env) as [[res major] minor].
  destruct (negb (res =? SP_RESULT_OK)); [done|].
  destruct (_ || _); [done|]. destruct (ffa_own_id_get env) as [res' oid].
  destruct (negb (res' =? SP_RESULT_OK)); [done|].
  destruct (calloc_services env); simpl in Hb; [|done].
  destruct (calloc_memories env); simpl in Hb; [|done].
  simplify_eq/=. split; [|split].
  - split; [done|]. split; [done|]. by repeat constructor.
  - intros s Hs. simpl in Hs.
    apply elem_of_cons in Hs as [[= ->]|Hs%not_elem_of_nil]; [|done]. simpl.
    by eapply lua_service_reachable.
  - split; [done|]. exists [], []. constructor. unfold env_same. done.
Qed.
End Facts.

(** C25: the Lua partition never faults.  After a successful boot, for every
    first message and every continuation, with whatever registers, senders and
    interface the messages carry, each message handled is answered to its
    sender, and the environments are always in a state that some sequence of
    calls reaches on the abstract service. *)
Theorem lua_sp_safe {L M} (vm : lua_vm L) realloc_ok retrieve relinquish env ep p (m : M) msg events :
  vm_ok vm -> heap_ok realloc_ok -> spm_ok retrieve ->
  sp_main_boot vm realloc_ok env = Some (ep, p) ->
  Forall (fun msg => msg_ok (args32 msg)) (handled_messages msg events) ->
  exists replies st running,
    sp_main_loop retrieve relinquish (SpState ep p m) msg events = Some (replies, st, running) /\
    Forall2 answers (handled_messages msg events) replies /\ lua_reachable (lua_instance st).
Proof.
  intros Hvm Hheap Hspm Hboot Hmsgs.
  destruct (boot_ok vm realloc_ok Hvm Hheap env ep p Hboot) as (Hep & Hsvc & Hp). clear Hboot.
  revert ep p m msg Hep Hsvc Hp Hmsgs.
  induction events as [|[next|next|] events IH]; intros ep p m msg Hep Hsvc Hp Hmsgs;
    simpl in Hmsgs; apply Forall_cons in Hmsgs as [Hmsg Hmsgs];
    destruct (receive_safe lua_reachable retrieve relinquish ep p m msg)
      as (reply & ep1 & p1 & m1 & E & Hep1 & Hs1 & Hp1 & Hans); try done;
    simpl; rewrite E; simpl.
  1,4: eexists _, _, _; split; [done|];
    split; [constructor; [exact Hans|constructor]|done].
  all: destruct (IH ep1 p1 m1 next) as (replies & st & running & -> & Hall & Hreach);
    [done|unfold services_ok; by rewrite Hs1|done|done|]; simpl;
    eexists _, _, _; split; [done|]; split; [by constructor|done].
Qed.

(** A boot of the example machine, then a retrieval and a call of interface 0
    that creates an environment. *)
Definition example_boot_env : boot_env :=
  BootEnv (Some 9) true (SP_RESULT_OK, 1, 1) (SP_RESULT_OK, 9) true true.

Definition example_retrieve_msg : sp_msg := Msg 5 9 false [16711681; 77; 0; 0; 0].

Lemma lua_sp_safe_witness :
  exists ep p replies st running,
    sp_main_boot example_vm example_realloc_ok example_boot_env = Some (ep, p) /\
    sp_main_loop example_retrieve example_relinquish (SpState ep p 0)
      example_retrieve_msg [Sent (Msg 5 9 false [512; 77; 0; 0; 0]); Fatal]
      = Some (replies, st, running) /\
    length replies = 2%nat /\ running = false /\ lua_reachable (lua_instance st).
Proof.
  assert ((fun _ => tt) <$> sp_main_boot example_vm example_realloc_ok example_boot_env = Some tt)
    as ([ep p] & Hb & _)%fmap_Some by (vm_compute; reflexivity).
  destruct (lua_sp_safe example_vm example_realloc_ok example_retrieve example_relinquish
    example_boot_env ep p 0 example_retrieve_msg
    [Sent (Msg 5 9 false [512; 77; 0; 0; 0]); Fatal] example_vm_ok example_heap_ok example_spm_ok Hb)
    as (replies & st & running & Hrun & Hall & Hreach).
  { simpl. rewrite !Forall_cons. split; [|split; [|done]]; (split; [done|]); simpl;
      rewrite !Forall_cons; repeat split; done. }
  exists ep, p, replies, st, running. split; [done|]. split; [done|].
  split; [by rewrite <- (Forall2_length _ _ _ Hall)|]. split; [|done].
  assert (snd <$> (x ← sp_main_boot example_vm example_realloc_ok example_boot_env;
    sp_main_loop example_retrieve example_relinquish (SpState (fst x) (snd x) 0)
      example_retrieve_msg [Sent (Msg 5 9 false [512; 77; 0; 0; 0]); Fatal]) = Some false) as Hf
    by (vm_compute; reflexivity).
  rewrite Hb in Hf. cbn [mbind option_bind fst snd] in Hf. rewrite Hrun in Hf. by inversion Hf.
Defined.
