(* ===== verification/FwDirectory.v ===== *)
(** * components/service/fwu/agent: the firmware directory and its serializer

    fw_directory.c keeps what the inspector found out about the booted images;
    img_dir_serializer.c presents it to clients as a packed image directory.  A
    pointer to an image_info is the record it points to: entries do not change
    once they are added. *)
From S2P Require Import Prelude Status Uuid.

Definition FWU_MAX_FW_DIRECTORY_ENTRIES : Z := 20.

Inductive install_type :=
  | INSTALL_TYPE_WHOLE_VOLUME
  | INSTALL_TYPE_SUB_VOLUME
  | INSTALL_TYPE_WHOLE_VOLUME_COPY
  | INSTALL_TYPE_LIMIT.

Record boot_info := BootInfo {
  boot_index : Z;
  active_index : Z;
  previous_active_index : Z
}.

Record image_info := ImageInfo {
  img_type_uuid : bytes;
  max_size : Z;
  lowest_accepted_version : Z;
  active_version : Z;
  permissions : Z;
  image_index : Z;
  location_id : Z;
  image_install_type : install_type
}.

Record fw_directory := FwDirectory {
  fd_boot_info : boot_info;
  num_images : Z;
  entries : list image_info
}.

Definition zero_image_info : image_info :=
  ImageInfo (fill 0 16) 0 0 0 0 0 0 INSTALL_TYPE_WHOLE_VOLUME.

Definition fw_directory_init : fw_directory :=
  FwDirectory (BootInfo 0 0 0) 0
    (replicate (Z.to_nat FWU_MAX_FW_DIRECTORY_ENTRIES) zero_image_info).

Definition fw_directory_deinit (d : fw_directory) : fw_directory := d.

Definition fw_directory_set_boot_info (d : fw_directory) (b : boot_info) : fw_directory :=
  FwDirectory b (num_images d) (entries d).

Definition set_image_index (i : image_info) (index : Z) : image_info :=
  ImageInfo (img_type_uuid i) (max_size i) (lowest_accepted_version i) (active_version i)
    (permissions i) index (location_id i) (image_install_type i).

Definition fw_directory_add_image_info (d : fw_directory) (i : image_info)
    : option (Z * fw_directory) :=
  if num_images d <? FWU_MAX_FW_DIRECTORY_ENTRIES then
    let index := u32 (num_images d) in
    es ← setZ (entries d) index (set_image_index i index);
    Some (FWU_STATUS_SUCCESS, FwDirectory (fd_boot_info d) (num_images d + 1) es)
  else Some (FWU_STATUS_UNKNOWN, d).

(** The search loop over the first [n] entries from index [i]. *)
Fixpoint find_image_loop (es : list image_info) (uuid : bytes) (n : nat) (i : Z)
    : option (option image_info) :=
  match n with
  | O => Some None
  | S n =>
      e ← nthZ es i;
      equal ← uuid_is_equal uuid (img_type_uuid e);
      if equal : bool then Some (Some e) else find_image_loop es uuid n (i + 1)
  end.

Definition fw_directory_find_image_info (d : fw_directory) (uuid : bytes)
    : option (option image_info) :=
  find_image_loop (entries d) uuid (Z.to_nat (num_images d)) 0.

Definition fw_directory_get_boot_info (d : fw_directory) : boot_info := fd_boot_info d.

Definition fw_directory_get_image_info (d : fw_directory) (index : Z)
    : option (option image_info) :=
  if index <? num_images d then e ← nthZ (entries d) index; Some (Some e) else Some None.

Definition fw_directory_num_images (d : fw_directory) : Z := num_images d.

(** ** img_dir_serializer.c *)

(** sizeof and offsets of the packed structures fwu_image_directory and
    fwu_image_info_entry. *)
Definition DIR_HEADER_LEN : Z := 24.
Definition IMG_INFO_LEN : Z := 40.

Definition img_dir_serializer_get_len (d : fw_directory) : Z :=
  u64 (DIR_HEADER_LEN + u64 (IMG_INFO_LEN * fw_directory_num_images d)).

(** Assignment to a uint32_t member of the packed output. *)
Definition put32 (b : bytes) (off v : Z) : option bytes := store b off (le_split 4 (u32 v)).

Definition serialize_entry (b : bytes) (index : Z) (i : image_info) (accepted : bool)
    : option bytes :=
  let base := DIR_HEADER_LEN + IMG_INFO_LEN * index in
  uuid ← load (img_type_uuid i) 0 UUID_OCTETS_LEN;
  b ← store b base uuid;
  b ← put32 b (base + 16) (permissions i);
  b ← put32 b (base + 20) (max_size i);
  b ← put32 b (base + 24) (lowest_accepted_version i);
  b ← put32 b (base + 28) (active_version i);
  put32 b (base + 32) (if accepted then 1 else 0).

Fixpoint serialize_loop (d : fw_directory) (is_accepted : image_info -> option bool) (b : bytes)
    (n : nat) (index : Z) : option bytes :=
  match n with
  | O => Some b
  | S n =>
      i ← fw_directory_get_image_info d index;
      i ← i;
      accepted ← is_accepted i;
      b ← serialize_entry b index i accepted;
      serialize_loop d is_accepted b n (index + 1)
  end.

(** [is_accepted] is fw_store_is_accepted on the agent's store, None where that
    does not return.  Returns the status, the buffer and *data_len. *)
Definition img_dir_serializer_serialize (d : fw_directory) (is_accepted : image_info -> option bool)
    (buf : bytes) (buf_size : Z) : option (Z * bytes * Z) :=
  let serialized_len := img_dir_serializer_get_len d in
  if buf_size <? serialized_len then Some (FWU_STATUS_OUT_OF_BOUNDS, buf, 0)
  else
    b ← store buf 0 (fill 0 serialized_len);
    let bi := fw_directory_get_boot_info d in
    b ← put32 b 0 2;
    b ← put32 b 4 DIR_HEADER_LEN;
    b ← put32 b 8 (fw_directory_num_images d);
    b ← put32 b 12 (if active_index bi =? boot_index bi then 1 else 0);
    b ← put32 b 16 IMG_INFO_LEN;
    b ← put32 b 20 0;
    n ← load b 8 4;
    b ← serialize_loop d is_accepted b (Z.to_nat (le_combine n)) 0;
    Some (FWU_STATUS_SUCCESS, b, serialized_len).

(** ** What a client reads *)

Record dir_entry := DirEntry {
  de_uuid : bytes;
  de_permissions : Z;
  de_max_size : Z;
  de_lowest_version : Z;
  de_version : Z;
  de_accepted : Z;
  de_reserved : Z
}.

Definition get32 (b : bytes) (off : Z) : Z := le_combine (slice b off 4).

Definition decode_entry (b : bytes) (index : Z) : dir_entry :=
  let base := get32 b 4 + get32 b 16 * index in
  DirEntry (slice b base 16) (get32 b (base + 16)) (get32 b (base + 20)) (get32 b (base + 24))
    (get32 b (base + 28)) (get32 b (base + 32)) (get32 b (base + 36)).

(** The version, the correct-boot flag and the entries of a directory. *)
Definition decode_directory (b : bytes) : Z * Z * list dir_entry :=
  (get32 b 0, get32 b 12,
   map (fun k => decode_entry b (Z.of_nat k)) (seq 0 (Z.to_nat (get32 b 8)))).

Definition image_entry (is_accepted : image_info -> bool) (i : image_info) : dir_entry :=
  DirEntry (img_type_uuid i) (u32 (permissions i)) (u32 (max_size i))
    (u32 (lowest_accepted_version i)) (u32 (active_version i))
    (if is_accepted i then 1 else 0) 0.

(** The images of a directory, and what is well formed. *)
Definition images (d : fw_directory) : list image_info := take (Z.to_nat (num_images d)) (entries d).

Definition directory_ok (d : fw_directory) : Prop :=
  len (entries d) = FWU_MAX_FW_DIRECTORY_ENTRIES /\
  0 <= num_images d <= FWU_MAX_FW_DIRECTORY_ENTRIES /\
  Forall (fun i => len (img_type_uuid i) = 16) (entries d).

(** ** Lemmas *)

Lemma store_bind {A} b o d1 o2 d2 (k : bytes -> option A) :
  o2 = o + len d1 ->
  (b1 ← store b o d1; b2 ← store b1 o2 d2; k b2) = (b2 ← store b o (d1 ++ d2); k b2).
Proof. intros ->. rewrite <- store_app. by destruct (store b o d1). Qed.

Lemma store_slice_same b o d b' : store b o d = Some b' -> slice b' o (len d) = d.
Proof.
  intros (Ho & Hl & ->)%store_Some. pose proof (len_nonneg d). unfold slice, len in *.
  rewrite drop_app_length', Nat2Z.id by (rewrite length_take; lia). by apply take_app_length'.
Qed.

Definition le32 (v : Z) : bytes := le_split 4 (u32 v).

Lemma len_le32 v : len (le32 v) = 4.
Proof. unfold le32, len. by rewrite length_le_split. Qed.

Lemma le32_value v : le_combine (le32 v) = u32 v.
Proof. unfold le32. rewrite le_combine_split. change (8 * Z.of_nat 4) with 32. by apply wrap_idem. Qed.

Definition entry_bytes (i : image_info) (accepted : bool) : bytes :=
  img_type_uuid i ++ le32 (permissions i) ++ le32 (max_size i) ++
  le32 (lowest_accepted_version i) ++ le32 (active_version i) ++
  le32 (if accepted then 1 else 0).

Lemma len_entry_bytes i a : len (img_type_uuid i) = 16 -> len (entry_bytes i a) = 36.
Proof. intros Hu. unfold entry_bytes. rewrite !len_app, !len_le32, Hu. done. Qed.

Lemma serialize_entry_eq b k i a :
  len (img_type_uuid i) = 16 ->
  serialize_entry b k i a = store b (DIR_HEADER_LEN + IMG_INFO_LEN * k) (entry_bytes i a).
Proof.
  intros Hu. unfold serialize_entry, put32. fold (le32 (permissions i)) (le32 (max_size i))
    (le32 (lowest_accepted_version i)) (le32 (active_version i)) (le32 (if a then 1 else 0)).
  unfold UUID_OCTETS_LEN. rewrite <- Hu, load_all. cbn [mbind option_bind].
  set (o := DIR_HEADER_LEN + IMG_INFO_LEN * k).
  rewrite store_bind by lia.
  do 3 (rewrite store_bind by (rewrite !len_app, !len_le32; lia)).
  match goal with |- context [store b o ?d] =>
    replace (o + 32) with (o + len d) by (rewrite !len_app, !len_le32; lia) end.
  rewrite store_app. unfold entry_bytes. by rewrite <- !app_assoc.
Qed.

Definition header_bytes (d : fw_directory) : bytes :=
  le32 2 ++ le32 DIR_HEADER_LEN ++ le32 (num_images d) ++
  le32 (if active_index (fd_boot_info d) =? boot_index (fd_boot_info d) then 1 else 0) ++
  le32 IMG_INFO_LEN ++ le32 0.

Lemma header_eq {A} b d (k : bytes -> option A) :
  (b ← put32 b 0 2;
   b ← put32 b 4 DIR_HEADER_LEN;
   b ← put32 b 8 (num_images d);
   b ← put32 b 12 (if active_index (fd_boot_info d) =? boot_index (fd_boot_info d) then 1 else 0);
   b ← put32 b 16 IMG_INFO_LEN;
   b ← put32 b 20 0;
   k b) = (b ← store b 0 (header_bytes d); k b).
Proof.
  unfold put32, header_bytes. fold (le32 2) (le32 DIR_HEADER_LEN) (le32 (num_images d))
    (le32 (if active_index (fd_boot_info d) =? boot_index (fd_boot_info d) then 1 else 0))
    (le32 IMG_INFO_LEN) (le32 0).
  do 5 (rewrite store_bind by (by rewrite ?len_app, ?len_le32)). by rewrite <- !app_assoc.
Qed.

Lemma len_header d : len (header_bytes d) = DIR_HEADER_LEN.
Proof. unfold header_bytes. by rewrite !len_app, !len_le32. Qed.

Lemma get_image d k :
  directory_ok d -> 0 <= k < num_images d ->
  exists i, fw_directory_get_image_info d k = Some (Some i) /\ nthZ (images d) k = Some i /\
    len (img_type_uuid i) = 16.
Proof.
  intros (Hl & Hn & Hu) Hk. unfold fw_directory_get_image_info.
  destruct (Z.ltb_spec k (num_images d)); [|lia].
  destruct (nthZ_is_Some (entries d) k) as [i Hi]; [lia|]. exists i. rewrite Hi.
  split; [done|]. split; [unfold images; rewrite nthZ_take; case_match; [done|lia]|].
  unfold nthZ in Hi. case_match; [|done]. by eapply Forall_lookup_1 in Hu.
Qed.

(** The store's answers for the images of a directory. *)
Definition answers (d : fw_directory) (is_accepted : image_info -> option bool)
    (acc : image_info -> bool) : Prop :=
  forall i, i ∈ images d -> is_accepted i = Some (acc i).

Lemma nthZ_elem {A} (l : list A) k x : nthZ l k = Some x -> x ∈ l.
Proof. unfold nthZ. case_match; [|done]. apply list_elem_of_lookup_2. Qed.

(** The entry loop writes its entries and nothing else; the reserved words stay. *)
Lemma serialize_loop_ok d is_accepted acc b n index :
  directory_ok d -> answers d is_accepted acc -> 0 <= index -> index + Z.of_nat n = num_images d ->
  DIR_HEADER_LEN + IMG_INFO_LEN * num_images d <= len b ->
  exists b', serialize_loop d is_accepted b n index = Some b' /\ len b' = len b /\
    (forall s m, 0 <= s -> s + m <= DIR_HEADER_LEN + IMG_INFO_LEN * index ->
       slice b' s m = slice b s m) /\
    (forall s m, DIR_HEADER_LEN + IMG_INFO_LEN * num_images d <= s -> slice b' s m = slice b s m) /\
    (forall k, 0 <= k -> slice b' (DIR_HEADER_LEN + IMG_INFO_LEN * k + 36) 4 =
                         slice b (DIR_HEADER_LEN + IMG_INFO_LEN * k + 36) 4) /\
    forall k i, index <= k < num_images d -> nthZ (images d) k = Some i ->
      slice b' (DIR_HEADER_LEN + IMG_INFO_LEN * k) 36 = entry_bytes i (acc i).
Proof.
  unfold DIR_HEADER_LEN, IMG_INFO_LEN.
  intros Hd Ha. revert b index. induction n as [|n IH]; intros b index Hi Hn Hb.
  { exists b. do 5 (split; [done|]). lia. }
  simpl. destruct (get_image d index Hd) as (i & -> & Hnth & Hu); [lia|]. cbn [mbind option_bind].
  rewrite (Ha i) by (by eapply nthZ_elem). cbn [mbind option_bind].
  rewrite serialize_entry_eq by done. unfold DIR_HEADER_LEN, IMG_INFO_LEN.
  pose proof (len_entry_bytes i (acc i) Hu) as He.
  destruct (store_ok b (24 + 40 * index) (entry_bytes i (acc i))) as [b1 Hb1]; [lia..|].
  rewrite Hb1. cbn [mbind option_bind]. pose proof (store_len _ _ _ _ Hb1) as Hl1.
  destruct (IH b1 (index + 1)) as (b' & E & Hl & Hlow & Hhigh & Hres & Hent); [lia..|].
  exists b'. split; [done|]. split; [lia|].
  assert (forall s m, 0 <= s -> s + m <= 24 + 40 * index \/ 24 + 40 * index + 36 <= s ->
    slice b1 s m = slice b s m) as Hdis.
  { intros s m Hs Hd'. apply (slice_store_disjoint _ _ _ _ _ _ Hs) with (2 := Hb1). lia. }
  split; [|split; [|split]].
  - intros s m Hs Hm. rewrite Hlow by lia. apply Hdis; lia.
  - intros s m Hs. rewrite Hhigh by lia. apply Hdis; lia.
  - intros k Hk. rewrite Hres by done. apply Hdis; lia.
  - intros k j Hk Hj. destruct (decide (k = index)) as [E2|Hne]; [|apply Hent; [lia|done]].
    subst k. rewrite Hnth in Hj. simplify_eq. rewrite Hlow by lia. rewrite <- He.
    by eapply store_slice_same.
Qed.

Lemma slice_mid (l x r : bytes) o n : o = len l -> n = len x -> slice (l ++ x ++ r) o n = x.
Proof.
  intros -> ->. unfold slice, len. rewrite !Nat2Z.id, drop_app_length. by apply take_app_length'.
Qed.

(** The word at [o] inside a part of the buffer that is known. *)
Lemma get32_in b s n o (l r : bytes) v :
  slice b s n = l ++ le32 v ++ r -> 0 <= s -> o = len l -> o + 4 <= n -> get32 b (s + o) = u32 v.
Proof.
  intros Hb Hs Ho Hn. pose proof (len_nonneg l). unfold get32.
  rewrite (slice_slice b s n o 4), Hb by lia.
  rewrite (slice_mid l) by (done || by rewrite len_le32). apply le32_value.
Qed.

Lemma decode_entry_ok b k i a :
  get32 b 4 = DIR_HEADER_LEN -> get32 b 16 = IMG_INFO_LEN -> 0 <= k ->
  len (img_type_uuid i) = 16 ->
  slice b (DIR_HEADER_LEN + IMG_INFO_LEN * k) 36 = entry_bytes i a ->
  slice b (DIR_HEADER_LEN + IMG_INFO_LEN * k + 36) 4 = fill 0 4 ->
  decode_entry b k = image_entry (fun _ => a) i.
Proof.
  intros Ho Hs Hk Hu Hb Hr. unfold decode_entry, image_entry. rewrite Ho, Hs.
  assert (0 <= DIR_HEADER_LEN + IMG_INFO_LEN * k) as Hpos by (unfold DIR_HEADER_LEN, IMG_INFO_LEN; lia).
  revert Hpos Hb Hr. generalize (DIR_HEADER_LEN + IMG_INFO_LEN * k). intros s Hpos Hb Hr.
  unfold entry_bytes in Hb. set (u := img_type_uuid i) in *.
  rewrite (get32_in b s 36 16 u _ (permissions i) Hb) by (done || lia).
  rewrite (app_assoc u) in Hb.
  rewrite (get32_in b s 36 20 _ _ (max_size i) Hb)
    by (rewrite ?len_app, ?len_le32, ?Hu; done || lia).
  rewrite (app_assoc (u ++ _)) in Hb.
  rewrite (get32_in b s 36 24 _ _ (lowest_accepted_version i) Hb)
    by (rewrite ?len_app, ?len_le32, ?Hu; done || lia).
  rewrite (app_assoc ((u ++ _) ++ _)) in Hb.
  rewrite (get32_in b s 36 28 _ _ (active_version i) Hb)
    by (rewrite ?len_app, ?len_le32, ?Hu; done || lia).
  rewrite (app_assoc (((u ++ _) ++ _) ++ _)) in Hb.
  rewrite <- (app_nil_r (le32 (if a then 1 else 0))) in Hb.
  rewrite (get32_in b s 36 32 _ _ _ Hb) by (rewrite ?len_app, ?len_le32, ?Hu; done || lia).
  f_equal.
  - replace s with (s + 0) by lia. rewrite (slice_slice b s 36 0 16), Hb by lia.
    rewrite <- !app_assoc. apply (slice_mid [] u); [done|by rewrite Hu].
  - by destruct a.
  - unfold get32. by rewrite Hr.
Qed.

Lemma get_len_ok d :
  directory_ok d ->
  img_dir_serializer_get_len d = DIR_HEADER_LEN + IMG_INFO_LEN * num_images d.
Proof.
  intros (_ & Hn & _). unfold img_dir_serializer_get_len, fw_directory_num_images, DIR_HEADER_LEN,
    IMG_INFO_LEN, FWU_MAX_FW_DIRECTORY_ENTRIES in *.
  rewrite (wrap_small 64 (40 * num_images d)), wrap_small by lia. done.
Qed.

Lemma serialize_ok d is_accepted acc buf :
  directory_ok d -> answers d is_accepted acc -> img_dir_serializer_get_len d <= len buf ->
  exists b, let n := img_dir_serializer_get_len d in
    img_dir_serializer_serialize d is_accepted buf (len buf) = Some (FWU_STATUS_SUCCESS, b, n) /\
    len b = len buf /\ slice b 0 24 = header_bytes d /\
    (forall s m, n <= s -> slice b s m = slice buf s m) /\
    forall k i, nthZ (images d) k = Some i -> 0 <= k < num_images d ->
      len (img_type_uuid i) = 16 /\
      slice b (DIR_HEADER_LEN + IMG_INFO_LEN * k) 36 = entry_bytes i (acc i) /\
      slice b (DIR_HEADER_LEN + IMG_INFO_LEN * k + 36) 4 = fill 0 4.
Proof.
  intros Hd Ha Hlen. pose proof (get_len_ok d Hd) as Hgl. rewrite Hgl in *.
  pose proof Hd as (_ & Hn & _). unfold img_dir_serializer_serialize. rewrite Hgl.
  unfold DIR_HEADER_LEN, IMG_INFO_LEN, FWU_MAX_FW_DIRECTORY_ENTRIES in *.
  destruct (Z.ltb_spec (len buf) (24 + 40 * num_images d)); [lia|].
  set (n := 24 + 40 * num_images d) in *.
  destruct (store_ok buf 0 (fill 0 n)) as [b0 Hb0]; [lia|rewrite len_fill; lia|].
  rewrite Hb0. cbn [mbind option_bind]. unfold fw_directory_get_boot_info, fw_directory_num_images.
  rewrite (header_eq b0 d).
  pose proof (store_len _ _ _ _ Hb0) as Hl0.
  destruct (store_ok b0 0 (header_bytes d)) as [b1 Hb1]; [done|rewrite len_header;
    unfold DIR_HEADER_LEN; lia|].
  rewrite Hb1. cbn [mbind option_bind]. pose proof (store_len _ _ _ _ Hb1) as Hl1.
  pose proof (store_slice_same _ _ _ _ Hb1) as Hh. rewrite len_header in Hh.
  change DIR_HEADER_LEN with 24 in Hh.
  rewrite load_is_slice by lia. cbn [mbind option_bind]. change (slice b1 8 4) with (slice b1 (0 + 8) 4).
  rewrite (slice_slice b1 0 24 8 4), Hh by lia. unfold header_bytes at 1.
  rewrite (app_assoc (le32 2)), (slice_mid (le32 2 ++ _)) by (by rewrite ?len_app, ?len_le32).
  rewrite le32_value, wrap_small by lia.
  destruct (serialize_loop_ok d is_accepted acc b1 (Z.to_nat (num_images d)) 0 Hd Ha)
    as (b & -> & Hl & Hlow & Hhigh & Hres & Hent); [lia|lia|unfold DIR_HEADER_LEN, IMG_INFO_LEN; lia|].
  unfold DIR_HEADER_LEN, IMG_INFO_LEN in *. cbn [mbind option_bind].
  assert (forall s m, 24 <= s -> slice b1 s m = slice b0 s m) as H10.
  { intros s m Hs. apply (slice_store_disjoint _ _ _ 0 (header_bytes d)); [lia| |done].
    rewrite len_header. unfold DIR_HEADER_LEN. lia. }
  exists b. split; [done|]. split; [lia|]. split; [rewrite Hlow by lia; done|]. split.
  - intros s m Hs. rewrite Hhigh, H10 by lia.
    apply (slice_store_disjoint _ _ _ 0 (fill 0 n)); [lia|rewrite len_fill; lia|done].
  - intros k i Hi Hk. destruct (get_image d k Hd Hk) as (i' & _ & Hi' & Hu).
    rewrite Hi in Hi'. simplify_eq. split; [done|]. split; [by apply Hent|].
    rewrite Hres, H10 by lia. pose proof (store_slice_same _ _ _ _ Hb0) as Hz.
    rewrite len_fill in Hz by lia. replace (24 + 40 * k + 36) with (0 + (24 + 40 * k + 36)) by lia.
    rewrite (slice_slice b0 0 (24 + 40 * num_images d)), Hz by lia. unfold slice, fill.
    rewrite drop_replicate, take_replicate. f_equal. lia.
Qed.

Lemma get32_prefix b n o : 0 <= o -> o + 4 <= n -> get32 (slice b 0 n) o = get32 b o.
Proof. intros. unfold get32. rewrite <- slice_slice by lia. done. Qed.

Lemma header_fields b d :
  slice b 0 24 = header_bytes d -> 0 <= num_images d < 2 ^ 32 ->
  get32 b 0 = 2 /\ get32 b 4 = DIR_HEADER_LEN /\ get32 b 8 = num_images d /\
  get32 b 12 = (if active_index (fd_boot_info d) =? boot_index (fd_boot_info d) then 1 else 0) /\
  get32 b 16 = IMG_INFO_LEN.
Proof.
  intros Hb Hn. unfold header_bytes in Hb.
  assert (forall (l r : bytes) v o, slice b 0 24 = l ++ le32 v ++ r -> o = len l -> o + 4 <= 24 ->
    get32 b o = u32 v) as Hget.
  { intros l r v o Hs Ho Hl. rewrite <- (get32_in b 0 24 o l r v) by (done || lia). f_equal. }
  split; [by rewrite (Hget [] _ 2 0 Hb)|]. split; [by rewrite (Hget (le32 2) _ _ 4 Hb)|].
  rewrite (app_assoc (le32 2)) in Hb.
  split; [rewrite (Hget _ _ (num_images d) 8 Hb); [by apply wrap_small|by rewrite len_app, !len_le32|done]|].
  rewrite (app_assoc (_ ++ _)) in Hb.
  split; [rewrite (Hget _ _ _ 12 Hb); [by destruct (_ =? _)|by rewrite !len_app, !len_le32|done]|].
  rewrite (app_assoc ((_ ++ _) ++ _)) in Hb.
  rewrite (Hget _ _ _ 16 Hb); [done|by rewrite !len_app, !len_le32|done].
Qed.

(** What a client of the directory decodes. *)
Definition directory_view (d : fw_directory) (acc : image_info -> bool) : Z * Z * list dir_entry :=
  (2, if active_index (fd_boot_info d) =? boot_index (fd_boot_info d) then 1 else 0,
   map (image_entry acc) (images d)).

Lemma serialize_decodes d is_accepted acc buf :
  directory_ok d -> answers d is_accepted acc ->
  let n := img_dir_serializer_get_len d in n <= len buf ->
  exists b, img_dir_serializer_serialize d is_accepted buf (len buf) = Some (FWU_STATUS_SUCCESS, b, n) /\
    n = 24 + 40 * num_images d /\ len b = len buf /\
    (forall s m, n <= s -> slice b s m = slice buf s m) /\
    decode_directory (slice b 0 n) = directory_view d acc.
Proof.
  intros Hd Ha n Hge. pose proof Hd as (Hle & Hn & _). pose proof (get_len_ok d Hd) as Hgl. fold n in Hgl.
  unfold DIR_HEADER_LEN, IMG_INFO_LEN, FWU_MAX_FW_DIRECTORY_ENTRIES in *.
  destruct (serialize_ok d is_accepted acc buf Hd Ha Hge) as (b & Hs & Hl & Hh & Hrest & Hent).
  exists b. split; [done|]. split; [done|]. split; [done|]. split; [done|].
  destruct (header_fields b d Hh) as (E0 & E4 & E8 & E12 & E16); [lia|].
  unfold decode_directory, directory_view. rewrite !get32_prefix, E0, E8, E12 by lia. f_equal.
  apply list_eq. intros k. rewrite !list_lookup_fmap.
  destruct (decide (k < Z.to_nat (num_images d))%nat) as [Hk|Hk].
  2:{ rewrite (lookup_seq_ge 0), lookup_ge_None_2; [done|unfold images; rewrite length_take; lia|lia]. }
  rewrite lookup_seq_lt by done. simpl.
  destruct (get_image d (Z.of_nat k) Hd) as (i & _ & Hi & Hu); [lia|].
  destruct (Hent (Z.of_nat k) i Hi) as (_ & Hb1 & Hb2); [lia|].
  rewrite nthZ_of_nat in Hi. rewrite Hi. simpl. f_equal.
  unfold DIR_HEADER_LEN, IMG_INFO_LEN in *.
  assert (forall o m, 0 <= o -> 0 <= m -> o + m <= n -> slice (slice b 0 n) o m = slice b o m) as Hsl
    by (intros; by rewrite <- slice_slice by lia).
  rewrite (decode_entry_ok _ _ i (acc i)); [done|..]; rewrite ?get32_prefix by lia; try done; [lia|..].
  - rewrite Hsl by (unfold DIR_HEADER_LEN, IMG_INFO_LEN; lia). done.
  - rewrite Hsl by (unfold DIR_HEADER_LEN, IMG_INFO_LEN; lia). done.
Qed.

(** The image directory a client reads is the firmware directory.  When the
    store answers which images are accepted, then for a
    buffer of the announced length or more, serialisation succeeds, reports that
    length, leaves the rest of the buffer alone, and decoding the reported bytes
    by the offsets in their own header gives the version, the correct-boot flag
    and every image with its fields and acceptance, in order; for a shorter
    buffer it fails and writes nothing. *)
Theorem img_dir_roundtrip d is_accepted acc buf :
  directory_ok d -> answers d is_accepted acc ->
  let n := img_dir_serializer_get_len d in
  if len buf <? n
  then img_dir_serializer_serialize d is_accepted buf (len buf) = Some (FWU_STATUS_OUT_OF_BOUNDS, buf, 0)
  else exists b, img_dir_serializer_serialize d is_accepted buf (len buf) = Some (FWU_STATUS_SUCCESS, b, n) /\
    n = 24 + 40 * num_images d /\ len b = len buf /\
    (forall s m, n <= s -> slice b s m = slice buf s m) /\
    decode_directory (slice b 0 n) = directory_view d acc.
Proof.
  intros Hd Ha n. destruct (Z.ltb_spec (len buf) n) as [Hlt|Hge]; [|by apply serialize_decodes].
  unfold img_dir_serializer_serialize. fold n. by destruct (Z.ltb_spec (len buf) n); [|lia].
Qed.

Definition example_image (tag : Z) : image_info :=
  ImageInfo (fill tag 16) 4096 1 (tag + 1) 3 0 7 INSTALL_TYPE_WHOLE_VOLUME.

Definition example_directory : fw_directory :=
  FwDirectory (BootInfo 1 1 0) 2 ([example_image 5; example_image 6] ++
    replicate 18 zero_image_info).

Lemma example_directory_ok : directory_ok example_directory.
Proof. split; [done|]. split; [done|]. apply (bool_decide_unpack _). by vm_compute. Qed.

Lemma img_dir_roundtrip_witness :
  exists b, img_dir_serializer_serialize example_directory (fun i => Some (active_version i =? 6))
      (fill 9 200) 200 = Some (FWU_STATUS_SUCCESS, b, 104) /\
    decode_directory (slice b 0 104) =
      (2, 1, [DirEntry (fill 5 16) 3 4096 1 6 1 0; DirEntry (fill 6 16) 3 4096 1 7 0 0]).
Proof.
  destruct (img_dir_roundtrip example_directory (fun i => Some (active_version i =? 6))
    (fun i => active_version i =? 6) (fill 9 200)
    example_directory_ok (fun i _ => eq_refl)) as (b & Hs & _ & _ & _ & Hdec).
  exists b. split; [exact Hs|exact Hdec].
Defined.

(** ** The directory as a table *)

Lemma uuid_equal_eq a b : len a = 16 -> len b = 16 -> uuid_is_equal a b = Some (bytes_eqb a b).
Proof.
  intros Ha Hb. unfold uuid_is_equal, UUID_OCTETS_LEN. rewrite <- Ha at 1. rewrite load_all.
  simpl. rewrite <- Hb. by rewrite load_all.
Qed.

Definition first_image (l : list image_info) (uuid : bytes) : option image_info :=
  find_index (fun i => bytes_eqb uuid (img_type_uuid i)) l ≫= (l !!.).

Lemma first_image_cons e l uuid :
  first_image (e :: l) uuid =
    if bytes_eqb uuid (img_type_uuid e) then Some e else first_image l uuid.
Proof.
  unfold first_image. simpl. destruct (bytes_eqb uuid (img_type_uuid e)); [done|].
  by destruct (find_index _ l).
Qed.

Lemma find_image_loop_ok es uuid n k :
  Forall (fun i => len (img_type_uuid i) = 16) es -> len uuid = 16 -> 0 <= k ->
  k + Z.of_nat n <= len es ->
  find_image_loop es uuid n k = Some (first_image (take n (drop (Z.to_nat k) es)) uuid).
Proof.
  intros Hes Hu. revert k. induction n as [|n IH]; intros k Hk Hn; [done|]. simpl.
  destruct (nthZ_is_Some es k) as [e He]; [lia|]. rewrite He. simpl.
  unfold nthZ in He. case_match; [|done].
  rewrite uuid_equal_eq by (done || by eapply Forall_lookup_1 in Hes). simpl.
  rewrite (drop_S _ _ _ He), firstn_cons, first_image_cons.
  destruct (bytes_eqb uuid (img_type_uuid e)); [done|]. rewrite IH by lia.
  by replace (Z.to_nat (k + 1)) with (S (Z.to_nat k)) by lia.
Qed.

Lemma find_image_ok d uuid :
  directory_ok d -> len uuid = 16 ->
  fw_directory_find_image_info d uuid = Some (first_image (images d) uuid).
Proof.
  intros (Hl & Hn & Hu) Huu. unfold fw_directory_find_image_info.
  rewrite find_image_loop_ok by (done || lia). done.
Qed.

Lemma add_image_ok d i :
  directory_ok d -> len (img_type_uuid i) = 16 ->
  exists st d', fw_directory_add_image_info d i = Some (st, d') /\ directory_ok d' /\
    images d' = if num_images d <? FWU_MAX_FW_DIRECTORY_ENTRIES
                then images d ++ [set_image_index i (num_images d)] else images d.
Proof.
  intros (Hl & Hn & Hu) Hi. unfold fw_directory_add_image_info.
  destruct (Z.ltb_spec (num_images d) FWU_MAX_FW_DIRECTORY_ENTRIES) as [Hlt|]; [|by eexists _, _].
  unfold FWU_MAX_FW_DIRECTORY_ENTRIES in *. rewrite (wrap_small 32) by lia.
  rewrite setZ_is_Some by lia. simpl. eexists _, _. split; [done|]. split.
  - split; [simpl; unfold len in *; by rewrite length_insert|]. split; [simpl;
      unfold FWU_MAX_FW_DIRECTORY_ENTRIES; lia|]. simpl. by apply Forall_insert.
  - unfold images. simpl. replace (Z.to_nat (num_images d + 1)) with (S (Z.to_nat (num_images d))) by lia.
    unfold len in Hl. rewrite (take_S_r _ _ (set_image_index i (num_images d))).
    + by rewrite take_insert_ge by lia.
    + apply list_lookup_insert_eq. lia.
Qed.

Lemma init_directory_ok : directory_ok fw_directory_init.
Proof. split; [done|]. split; [done|]. apply (bool_decide_unpack _). by vm_compute. Qed.
