(* ===== verification/StreamManager.v ===== *)
(** * components/service/fwu/agent/stream_manager.c: streams of the update agent

    A pool of four stream contexts.  Free ones are linked through [next]; active
    ones form a doubly linked list, most recently opened first, and the oldest
    is recycled when the pool is exhausted.

    A pointer to a context is its index in the pool ([None] is NULL); a pointer
    to a data buffer, a firmware store or an installer is an address.  The
    contents of buffers are given by [heap].  The firmware store's operations
    are parameters over its state [F]; they return None where they do not return,
    as after a failed assertion. *)
From S2P Require Import Prelude Status Uuid FwDirectory.

Definition FWU_STREAM_MANAGER_POOL_SIZE : Z := 4.

Inductive fwu_stream_type :=
  | FWU_STREAM_TYPE_NONE
  | FWU_STREAM_TYPE_BUFFER
  | FWU_STREAM_TYPE_INSTALL.

#[export] Instance fwu_stream_type_eq_dec : EqDecision fwu_stream_type.
Proof. solve_decision. Defined.

(** The union: the variant written last, [NoVariant] before that. *)
Inductive stream_variant :=
  | NoVariant
  | BufferVariant (pos data data_len : Z)
  | InstallVariant (fw_store installer : Z) (image : image_info).

Record stream_context := StreamContext {
  type : fwu_stream_type;
  handle : Z;
  next : option Z;
  prev : option Z;
  variant : stream_variant
}.

Record stream_manager := StreamManager {
  contexts : list stream_context;
  free : option Z;
  active_head : option Z;
  active_tail : option Z;
  rolling_count : Z
}.

Implicit Types (m : stream_manager) (c : stream_context).

Definition set_contexts m (cs : list stream_context) : stream_manager :=
  StreamManager cs (free m) (active_head m) (active_tail m) (rolling_count m).
Definition set_free m (i : option Z) : stream_manager :=
  StreamManager (contexts m) i (active_head m) (active_tail m) (rolling_count m).
Definition set_head m (i : option Z) : stream_manager :=
  StreamManager (contexts m) (free m) i (active_tail m) (rolling_count m).
Definition set_tail m (i : option Z) : stream_manager :=
  StreamManager (contexts m) (free m) (active_head m) i (rolling_count m).

(** Assignment to one context of the pool. *)
Definition update m (i : Z) (f : stream_context -> stream_context) : option stream_manager :=
  c ← nthZ (contexts m) i;
  cs ← setZ (contexts m) i (f c);
  Some (set_contexts m cs).

Definition with_next (i : option Z) c := StreamContext (type c) (handle c) i (prev c) (variant c).
Definition with_prev (i : option Z) c := StreamContext (type c) (handle c) (next c) i (variant c).
Definition with_type (t : fwu_stream_type) c :=
  StreamContext t (handle c) (next c) (prev c) (variant c).
Definition with_handle (h : Z) c := StreamContext (type c) h (next c) (prev c) (variant c).
Definition with_variant (v : stream_variant) c :=
  StreamContext (type c) (handle c) (next c) (prev c) v.

(** [context] is the index of the context in the pool. *)
Definition generate_handle m (context : Z) : Z * stream_manager :=
  (Z.lor (Z.land (u32 context) 65535) (u32 (Z.shiftl (rolling_count m) 16)),
   StreamManager (contexts m) (free m) (active_head m) (active_tail m)
     (u16 (rolling_count m + 1))).

Definition index_from_handle (handle : Z) : Z := Z.land handle 65535.

Definition add_to_free_list m (context : Z) : option stream_manager :=
  m ← update m context (fun c => StreamContext FWU_STREAM_TYPE_NONE 0 (free m) None (variant c));
  Some (set_free m (Some context)).

Definition free_stream_context m (context : Z) : option stream_manager :=
  c ← nthZ (contexts m) context;
  m ← (match prev c with
       | Some p => update m p (with_next (next c))
       | None => Some (set_head m (next c))
       end);
  c ← nthZ (contexts m) context;
  m ← (match next c with
       | Some n => update m n (with_prev (prev c))
       | None => Some (set_tail m (prev c))
       end);
  add_to_free_list m context.

Definition get_active_context m (h : Z) : option (option Z) :=
  let index := index_from_handle h in
  if index <? FWU_STREAM_MANAGER_POOL_SIZE then
    c ← nthZ (contexts m) index;
    if bool_decide (type c <> FWU_STREAM_TYPE_NONE) && (handle c =? h)
    then Some (Some index) else Some None
  else Some None.

Fixpoint init_loop m (n : nat) (i : Z) : option stream_manager :=
  match n with
  | O => Some m
  | S n => m ← add_to_free_list m i; init_loop m n (i + 1)
  end.

Definition stream_manager_init m : option stream_manager :=
  init_loop (StreamManager (contexts m) None None None 0)
    (Z.to_nat FWU_STREAM_MANAGER_POOL_SIZE) 0.

Definition stream_manager_deinit m : stream_manager := m.

(** The loops that free every context for which [p] holds. *)
Fixpoint cancel_loop (p : stream_context -> bool) m (n : nat) (i : Z) : option stream_manager :=
  match n with
  | O => Some m
  | S n =>
      c ← nthZ (contexts m) i;
      m ← (if p c then free_stream_context m i else Some m);
      cancel_loop p m n (i + 1)
  end.

Definition stream_manager_cancel_streams m (t : fwu_stream_type) : option stream_manager :=
  cancel_loop (fun c => bool_decide (type c = t)) m (Z.to_nat FWU_STREAM_MANAGER_POOL_SIZE) 0.

Fixpoint is_open_loop m (t : fwu_stream_type) (n : nat) (i : Z) : option bool :=
  match n with
  | O => Some false
  | S n =>
      c ← nthZ (contexts m) i;
      if bool_decide (type c = t) then Some true else is_open_loop m t n (i + 1)
  end.

Definition stream_manager_is_open_streams m (t : fwu_stream_type) : option bool :=
  is_open_loop m t (Z.to_nat FWU_STREAM_MANAGER_POOL_SIZE) 0.

(** The part of alloc_stream_context that moves the first free context to the
    front of the active list: its index and handle, if there is one. *)
Definition take_free_context m (t : fwu_stream_type) : option (option (Z * Z) * stream_manager) :=
  match free m with
  | None => Some (None, m)
  | Some i =>
      c ← nthZ (contexts m) i;
      let m := set_free m (next c) in
      m ← update m i (with_next (active_head m));
      m ← update m i (with_prev None);
      let m := set_head m (Some i) in
      let m := match active_tail m with None => set_tail m (Some i) | Some _ => m end in
      c ← nthZ (contexts m) i;
      m ← (match next c with Some n => update m n (with_prev (Some i)) | None => Some m end);
      m ← update m i (with_type t);
      let '(h, m) := generate_handle m i in
      m ← update m i (with_handle h);
      Some (Some (i, h), m)
  end.

Section Store.
Context {F : Type}.
Context (fw_store_commit_image : F -> Z -> Z -> image_info -> bool -> option (Z * F))
        (fw_store_write_image : F -> Z -> Z -> bytes -> option (Z * F)).
Context (heap : Z -> option bytes).
Implicit Types f : F.

Definition stream_manager_close m f (h : Z) (accepted : bool)
    : option (Z * stream_manager * F) :=
  context ← get_active_context m h;
  match context with
  | None => Some (FWU_STATUS_UNKNOWN, m, f)
  | Some i =>
      c ← nthZ (contexts m) i;
      '(status, f) ←
        (if bool_decide (type c = FWU_STREAM_TYPE_INSTALL) then
           match variant c with
           | InstallVariant store installer image =>
               fw_store_commit_image f store installer image accepted
           | _ => None
           end
         else Some (FWU_STATUS_SUCCESS, f));
      m ← free_stream_context m i;
      Some (status, m, f)
  end.

(** Returns the index of the new context and its handle, if there is one. *)
Definition alloc_stream_context m f (t : fwu_stream_type)
    : option (option (Z * Z) * stream_manager * F) :=
  '(m, f) ←
    (match free m, active_tail m with
     | None, Some tail =>
         c ← nthZ (contexts m) tail;
         '(_, m, f) ← stream_manager_close m f (handle c) false;
         Some (m, f)
     | _, _ => Some (m, f)
     end);
  '(context, m) ← take_free_context m t;
  Some (context, m, f).

(** Both open functions return the status and *handle. *)
Definition stream_manager_open_buffer_stream m f (data data_len h : Z)
    : option (Z * Z * stream_manager * F) :=
  m ← cancel_loop (fun c => bool_decide (type c = FWU_STREAM_TYPE_BUFFER) &&
        match variant c with BufferVariant _ d _ => d =? data | _ => false end)
        m (Z.to_nat FWU_STREAM_MANAGER_POOL_SIZE) 0;
  '(context, m, f) ← alloc_stream_context m f FWU_STREAM_TYPE_BUFFER;
  match context with
  | None => Some (FWU_STATUS_UNKNOWN, h, m, f)
  | Some (i, h) =>
      m ← update m i (with_variant (BufferVariant 0 data data_len));
      Some (FWU_STATUS_SUCCESS, h, m, f)
  end.

Definition stream_manager_open_install_stream m f (store installer : Z) (image : image_info)
    (h : Z) : option (Z * Z * stream_manager * F) :=
  m ← cancel_loop (fun c => bool_decide (type c = FWU_STREAM_TYPE_INSTALL) &&
        match variant c with
        | InstallVariant s i _ => (s =? store) && (i =? installer)
        | _ => false
        end) m (Z.to_nat FWU_STREAM_MANAGER_POOL_SIZE) 0;
  '(context, m, f) ← alloc_stream_context m f FWU_STREAM_TYPE_INSTALL;
  match context with
  | None => Some (FWU_STATUS_UNKNOWN, h, m, f)
  | Some (i, h) =>
      m ← update m i (with_variant (InstallVariant store installer image));
      Some (FWU_STATUS_SUCCESS, h, m, f)
  end.

(** [data] is what the pointer and the length describe, None where they leave the
    memory; only the store dereferences it. *)
Definition stream_manager_write m f (h : Z) (data : option bytes) : option (Z * F) :=
  context ← get_active_context m h;
  match context with
  | None => Some (FWU_STATUS_UNKNOWN, f)
  | Some i =>
      c ← nthZ (contexts m) i;
      if bool_decide (type c = FWU_STREAM_TYPE_INSTALL) then
        match variant c with
        | InstallVariant store installer _ =>
            data ← data; fw_store_write_image f store installer data
        | _ => None
        end
      else Some (FWU_STATUS_UNKNOWN, f)
  end.

(** Returns the status, the buffer, *read_len, *total_len. *)
Definition stream_manager_read m (h : Z) (buf : bytes) (read_len total_len : Z)
    : option (Z * bytes * Z * Z * stream_manager) :=
  context ← get_active_context m h;
  match context with
  | None => Some (FWU_STATUS_UNKNOWN, buf, read_len, total_len, m)
  | Some i =>
      c ← nthZ (contexts m) i;
      if bool_decide (type c = FWU_STREAM_TYPE_BUFFER) then
        match variant c with
        | BufferVariant pos data data_len =>
            let remaining_len := u64 (data_len - pos) in
            let len_to_read := if remaining_len <=? len buf then remaining_len else len buf in
            src ← heap data;
            chunk ← load src pos len_to_read;
            buf ← store buf 0 chunk;
            m ← update m i (with_variant (BufferVariant (pos + len_to_read) data data_len));
            Some (FWU_STATUS_SUCCESS, buf, len_to_read, data_len, m)
        | _ => None
        end
      else Some (FWU_STATUS_DENIED, buf, read_len, total_len, m)
  end.

End Store.

(** ** The abstract manager: open streams, most recently opened first *)

Record stream := Stream { st_handle : Z; st_variant : stream_variant }.

Definition variant_type (v : stream_variant) : fwu_stream_type :=
  match v with
  | NoVariant => FWU_STREAM_TYPE_NONE
  | BufferVariant _ _ _ => FWU_STREAM_TYPE_BUFFER
  | InstallVariant _ _ _ => FWU_STREAM_TYPE_INSTALL
  end.

Definition context_stream c : stream := Stream (handle c) (variant c).

(** Following the active list through the pool. *)
Fixpoint follow (cs : list stream_context) (i : option Z) (fuel : nat) : list stream :=
  match fuel, i with
  | S n, Some j =>
      match nthZ cs j with
      | Some c => context_stream c :: follow cs (next c) n
      | None => []
      end
  | _, _ => []
  end.

Definition open_streams m : list stream := follow (contexts m) (active_head m) 4.

(** ** Well-formedness of the pool *)

(** [chain cs i l]: from [i], [next] visits exactly [l]. *)
Fixpoint chain (cs : list stream_context) (i : option Z) (l : list Z) : Prop :=
  match l with
  | [] => i = None
  | j :: l => i = Some j /\ exists c, nthZ cs j = Some c /\ chain cs (next c) l
  end.

(** [dlseg cs p i l e]: a doubly linked segment [l] that starts at [i], whose
    first [prev] is [p] and whose last [next] is [e]. *)
Fixpoint dlseg (cs : list stream_context) (p i : option Z) (l : list Z) (e : option Z) : Prop :=
  match l with
  | [] => i = e
  | j :: l => i = Some j /\ exists c, nthZ cs j = Some c /\ prev c = p /\ dlseg cs (Some j) (next c) l e
  end.

Definition context_ok (fl al : list Z) (i : Z) c : Prop :=
  (i ∈ fl -> type c = FWU_STREAM_TYPE_NONE) /\
  (i ∈ al -> type c <> FWU_STREAM_TYPE_NONE /\ variant_type (variant c) = type c /\
             index_from_handle (handle c) = i).

Record sm_ok m (fl al : list Z) : Prop := {
  ok_len : len (contexts m) = FWU_STREAM_MANAGER_POOL_SIZE;
  ok_free : chain (contexts m) (free m) fl;
  ok_active : dlseg (contexts m) None (active_head m) al None;
  ok_tail : active_tail m = last al;
  ok_nodup : NoDup (fl ++ al);
  ok_all : forall i, i ∈ fl ++ al <-> 0 <= i < FWU_STREAM_MANAGER_POOL_SIZE;
  ok_data : forall i c, nthZ (contexts m) i = Some c -> context_ok fl al i c;
  ok_count : fits 16 (rolling_count m)
}.

(** ** Lemmas: updates of the pool *)

(** What a context keeps when only its links change. *)
Definition payload c : fwu_stream_type * Z * stream_variant := (type c, handle c, variant c).

Lemma update_ok m i g c :
  nthZ (contexts m) i = Some c ->
  update m i g = Some (set_contexts m (<[Z.to_nat i := g c]> (contexts m))).
Proof.
  intros Hc. unfold update. rewrite Hc. simpl. pose proof (nthZ_Some _ _ _ Hc).
  by rewrite setZ_is_Some.
Qed.

Lemma chain_frame cs cs' i l :
  (forall j, j ∈ l -> next <$> nthZ cs' j = next <$> nthZ cs j) ->
  chain cs i l -> chain cs' i l.
Proof.
  revert i. induction l as [|j l IH]; intros i Hf Hc; simpl in *; [done|].
  destruct Hc as (-> & c & Hj & Hc). split; [done|].
  pose proof (Hf j ltac:(left)) as Hfj. rewrite Hj in Hfj. simpl in Hfj.
  apply fmap_Some in Hfj as (c' & Hc' & Hn). exists c'. split; [done|]. rewrite <- Hn.
  apply IH; [|done]. intros k Hk. apply Hf. by right.
Qed.

Definition links c := (next c, prev c).

Lemma dlseg_frame cs cs' p i l e :
  (forall j, j ∈ l -> links <$> nthZ cs' j = links <$> nthZ cs j) ->
  dlseg cs p i l e -> dlseg cs' p i l e.
Proof.
  revert p i. induction l as [|j l IH]; intros p i Hf Hc; simpl in *; [done|].
  destruct Hc as (-> & c & Hj & Hp & Hc). split; [done|].
  pose proof (Hf j ltac:(left)) as Hfj. rewrite Hj in Hfj. simpl in Hfj.
  apply fmap_Some in Hfj as (c' & Hc' & [= Hn Hp']). exists c'. split; [done|]. split; [congruence|].
  rewrite <- Hn. apply IH; [|done]. intros k Hk. apply Hf. by right.
Qed.

Definition last_or (p : option Z) (l : list Z) : option Z :=
  match last l with Some x => Some x | None => p end.

Lemma last_or_cons p j l : last_or p (j :: l) = last_or (Some j) l.
Proof. unfold last_or. destruct l as [|k l]; [done|]. rewrite last_cons. by destruct (last (k :: l)). Qed.

Lemma dlseg_app cs p i l1 l2 e :
  dlseg cs p i (l1 ++ l2) e <-> exists q, dlseg cs p i l1 q /\ dlseg cs (last_or p l1) q l2 e.
Proof.
  revert p i. induction l1 as [|j l1 IH]; intros p i; simpl.
  - split; [by exists i|intros (q & -> & ?); done].
  - setoid_rewrite IH. rewrite last_or_cons. split.
    + intros (-> & c & Hj & Hp & q & Ha & Hb). exists q. split; [|done]. split; [done|].
      by exists c.
    + intros (q & (-> & c & Hj & Hp & Ha) & Hb). split; [done|]. exists c.
      split; [done|]. split; [done|]. by exists q.
Qed.

Lemma nthZ_update_other (cs : list stream_context) i j x :
  0 <= i < len cs -> i <> j -> nthZ (<[Z.to_nat i := x]> cs) j = nthZ cs j.
Proof. intros. apply nthZ_insert_ne; lia. Qed.

(** Redirecting the end of a segment, and the back link of its start. *)
Lemma dlseg_set_end cs p i l x e e' c :
  dlseg cs p i (l ++ [x]) e -> x ∉ l -> nthZ cs x = Some c ->
  dlseg (<[Z.to_nat x := with_next e' c]> cs) p i (l ++ [x]) e'.
Proof.
  intros Hd Hx Hc. pose proof (nthZ_Some _ _ _ Hc) as Hr.
  apply dlseg_app in Hd as (q & Ha & Hb). apply dlseg_app. exists q. split.
  - eapply dlseg_frame; [|done]. intros j Hj. rewrite nthZ_update_other; [done..|].
    intros ->. done.
  - simpl in *. destruct Hb as (-> & c0 & Hc0 & Hp & _). split; [done|]. simplify_eq.
    exists (with_next e' c0). rewrite nthZ_insert_eq by done. done.
Qed.

Lemma dlseg_set_start cs p p' n l e c :
  dlseg cs p (Some n) (n :: l) e -> n ∉ l -> nthZ cs n = Some c ->
  dlseg (<[Z.to_nat n := with_prev p' c]> cs) p' (Some n) (n :: l) e.
Proof.
  intros (_ & c0 & Hc0 & _ & Hb) Hn Hc. pose proof (nthZ_Some _ _ _ Hc) as Hr. simplify_eq.
  split; [done|]. exists (with_prev p' c0). rewrite nthZ_insert_eq by done.
  split; [done|]. split; [done|]. eapply dlseg_frame; [|done].
  intros j Hj. rewrite nthZ_update_other; [done..|]. intros ->. done.
Qed.

Lemma dlseg_in cs p i l e j : dlseg cs p i l e -> j ∈ l -> is_Some (nthZ cs j).
Proof.
  revert p i. induction l as [|k l IH]; intros p i Hd Hj; [by apply not_elem_of_nil in Hj|].
  destruct Hd as (_ & c & Hc & _ & Hd). apply elem_of_cons in Hj as [->|Hj]; [by eexists|].
  by eapply IH.
Qed.

(** The pool after an assignment that touches one context's links only. *)
Definition links_only (cs cs' : list stream_context) (touched : list Z) : Prop :=
  len cs' = len cs /\
  (forall j, payload <$> nthZ cs' j = payload <$> nthZ cs j) /\
  (forall j, j ∉ touched -> nthZ cs' j = nthZ cs j).

Lemma links_only_refl cs l : links_only cs cs l.
Proof. done. Qed.

Lemma links_only_trans cs cs1 cs2 l :
  links_only cs cs1 l -> links_only cs1 cs2 l -> links_only cs cs2 l.
Proof.
  intros (Hl1 & Hp1 & Ht1) (Hl2 & Hp2 & Ht2). split; [lia|]. split.
  - intros j. by rewrite Hp2.
  - intros j Hj. by rewrite Ht2, Ht1.
Qed.

Lemma links_only_insert cs x c c' l :
  nthZ cs x = Some c -> payload c' = payload c -> x ∈ l ->
  links_only cs (<[Z.to_nat x := c']> cs) l.
Proof.
  intros Hc Hp Hx. pose proof (nthZ_Some _ _ _ Hc) as Hr. split; [unfold len; by rewrite length_insert|].
  split.
  - intros j. destruct (decide (x = j)) as [<-|]; [|by rewrite nthZ_update_other].
    rewrite nthZ_insert_eq by done. rewrite Hc. simpl. by rewrite Hp.
  - intros j Hj. rewrite nthZ_update_other; [done..|]. intros ->. done.
Qed.

(** Taking [i] out of the active list. *)
Definition unlink m (i : Z) : option stream_manager :=
  c ← nthZ (contexts m) i;
  m ← (match prev c with
       | Some p => update m p (with_next (next c))
       | None => Some (set_head m (next c))
       end);
  c ← nthZ (contexts m) i;
  match next c with
  | Some n => update m n (with_prev (prev c))
  | None => Some (set_tail m (prev c))
  end.

Lemma free_stream_context_unlink m i :
  free_stream_context m i = (m ← unlink m i; add_to_free_list m i).
Proof.
  unfold free_stream_context, unlink. destruct (nthZ (contexts m) i) as [c|]; [|done]. simpl.
  destruct (match prev c with Some p => _ | None => _ end) as [m1|]; [|done]. simpl.
  by destruct (nthZ (contexts m1) i).
Qed.

Lemma unlink_first m i c l1 l2 :
  dlseg (contexts m) None (active_head m) (l1 ++ i :: l2) None -> NoDup (l1 ++ i :: l2) ->
  nthZ (contexts m) i = Some c ->
  prev c = last l1 /\
  exists m1, (match prev c with
              | Some p => update m p (with_next (next c))
              | None => Some (set_head m (next c))
              end) = Some m1 /\
    dlseg (contexts m1) None (active_head m1) l1 (next c) /\
    dlseg (contexts m1) (Some i) (next c) l2 None /\ nthZ (contexts m1) i = Some c /\
    links_only (contexts m) (contexts m1) (l1 ++ l2) /\
    free m1 = free m /\ active_tail m1 = active_tail m /\ rolling_count m1 = rolling_count m.
Proof.
  intros Hd Hnd Hc. apply dlseg_app in Hd as (q & Hd1 & -> & c0 & Hc0 & Hp & Hd2). simplify_eq.
  apply NoDup_app in Hnd as (Hn1 & Hdis & [Hi2 Hn2]%NoDup_cons).
  assert (prev c0 = last l1) as Hprev by (rewrite Hp; unfold last_or; by destruct (last l1)).
  split; [done|].
  destruct l1 as [|p l1' _] using rev_ind.
  - simpl in Hprev. rewrite Hprev. eexists. split; [done|]. simpl. done.
  - rewrite last_snoc in Hprev. rewrite Hprev.
    destruct (dlseg_in _ _ _ _ _ p Hd1) as [cp Hcp]; [set_solver|].
    rewrite (update_ok _ _ _ cp) by done. eexists. split; [done|]. simpl.
    apply NoDup_app in Hn1 as (_ & Hpn & _).
    assert (p ∉ l1') as Hpl by (intros Hin; apply (Hpn p Hin); left).
    assert (p <> i /\ p ∉ l2) as [Hpi Hp2].
    { pose proof (Hdis p ltac:(apply elem_of_app; right; left)) as Hnp. by apply not_elem_of_cons in Hnp. }
    pose proof (nthZ_Some _ _ _ Hcp). split; [by eapply dlseg_set_end|]. split.
    + eapply dlseg_frame; [|done]. intros j Hj. rewrite nthZ_update_other; [done..|]. by intros ->.
    + split; [by rewrite nthZ_update_other|]. split; [|done].
      eapply links_only_insert; [done|done|]. rewrite !elem_of_app. left. right. left.
Qed.

Lemma unlink_ok m i c l1 l2 :
  dlseg (contexts m) None (active_head m) (l1 ++ i :: l2) None -> NoDup (l1 ++ i :: l2) ->
  nthZ (contexts m) i = Some c -> active_tail m = last (l1 ++ i :: l2) ->
  exists m2, unlink m i = Some m2 /\
    dlseg (contexts m2) None (active_head m2) (l1 ++ l2) None /\
    active_tail m2 = last (l1 ++ l2) /\ links_only (contexts m) (contexts m2) (l1 ++ l2) /\
    free m2 = free m /\ rolling_count m2 = rolling_count m.
Proof.
  intros Hd Hnd Hc Htail. unfold unlink. rewrite Hc. cbn [mbind option_bind].
  destruct (unlink_first m i c l1 l2 Hd Hnd Hc)
    as (Hprev & m1 & -> & Hd1 & Hd2 & Hc1 & Hlinks & Hfree & Ht & Hrc). cbn [mbind option_bind].
  rewrite Hc1. cbn [mbind option_bind]. apply NoDup_app in Hnd as (Hn1 & Hdis & [Hi2 Hn2]%NoDup_cons).
  destruct l2 as [|n l2].
  - simpl in Hd2. rewrite Hd2. eexists. split; [done|]. simpl. rewrite app_nil_r in *.
    split; [by rewrite Hd2 in Hd1|]. done.
  - pose proof Hd2 as (Hn & cn & Hcn & _). rewrite Hn. rewrite (update_ok _ _ _ cn) by done.
    eexists. split; [done|]. simpl. apply NoDup_cons in Hn2 as [Hnl _].
    assert (n ∉ l1) as Hn1' by (intros Hin; apply (Hdis n Hin); right; left).
    pose proof (nthZ_Some _ _ _ Hcn). split.
    + apply dlseg_app. exists (Some n). split.
      * rewrite Hn in Hd1. eapply dlseg_frame; [|done]. intros j Hj.
        rewrite nthZ_update_other; [done..|]. by intros ->.
      * rewrite Hn in Hd2. eapply (dlseg_set_start _ _ (prev c)) in Hd2; [|done|done].
        assert (last_or None l1 = prev c) as -> by (rewrite Hprev; unfold last_or; by destruct (last l1)).
        done.
    + split; [by rewrite Ht, Htail, !last_app_cons|].
      split; [|done]. eapply links_only_trans; [done|].
      eapply links_only_insert; [done|done|]. apply elem_of_app. right. left.
Qed.

Definition stream_at (cs : list stream_context) (i : Z) : option stream :=
  context_stream <$> nthZ cs i.

Lemma follow_dlseg cs p i l n :
  dlseg cs p i l None -> (length l <= n)%nat -> follow cs i n = omap (stream_at cs) l.
Proof.
  revert p i n. induction l as [|j l IH]; intros p i n Hd Hn; simpl in Hd.
  - subst i. by destruct n.
  - destruct Hd as (-> & c & Hc & _ & Hd). destruct n as [|n]; [simpl in Hn; lia|]. simpl.
    unfold stream_at at 1. rewrite Hc. simpl. f_equal. eapply IH; [done|]. simpl in Hn. lia.
Qed.

Lemma sm_length m fl al : sm_ok m fl al -> (length fl + length al = 4)%nat.
Proof.
  intros Hok. rewrite <- length_app. change 4%nat with (length (seqZ 0 4)).
  apply Permutation_length. apply NoDup_Permutation; [by eapply ok_nodup|apply NoDup_seqZ|].
  intros i. rewrite (ok_all _ _ _ Hok), elem_of_seqZ. unfold FWU_STREAM_MANAGER_POOL_SIZE. lia.
Qed.

Lemma sm_streams m fl al :
  sm_ok m fl al -> open_streams m = omap (stream_at (contexts m)) al.
Proof.
  intros Hok. eapply follow_dlseg; [by eapply ok_active|]. pose proof (sm_length _ _ _ Hok). lia.
Qed.

Lemma streams_ext cs cs' (l : list Z) :
  (forall j, j ∈ l -> stream_at cs' j = stream_at cs j) -> omap (stream_at cs') l = omap (stream_at cs) l.
Proof.
  induction l as [|j l IH]; intros Hext; [done|]. simpl. rewrite Hext by left.
  destruct (stream_at cs j); [f_equal|]; apply IH; intros k Hk; apply Hext; by right.
Qed.

Lemma payload_stream cs cs' j :
  payload <$> nthZ cs' j = payload <$> nthZ cs j -> stream_at cs' j = stream_at cs j.
Proof.
  unfold stream_at. destruct (nthZ cs' j) as [c'|], (nthZ cs j) as [c|]; simpl; try done.
  intros [= _ Hh Hv]. unfold context_stream. by rewrite Hh, Hv.
Qed.

Lemma free_stream_context_ok m fl l1 i l2 :
  sm_ok m fl (l1 ++ i :: l2) ->
  exists m', free_stream_context m i = Some m' /\ sm_ok m' (i :: fl) (l1 ++ l2) /\
    rolling_count m' = rolling_count m /\
    (forall j, j <> i -> payload <$> nthZ (contexts m') j = payload <$> nthZ (contexts m) j).
Proof.
  intros Hok. pose proof Hok as [Hlen Hfree Hact Htail Hnd Hall Hdata Hcount].
  assert ((fl ++ l1 ++ i :: l2) ≡ₚ (i :: fl ++ l1 ++ l2)) as Hperm.
  { by rewrite (app_assoc fl l1 (i :: l2)), <- Permutation_middle, <- app_assoc. }
  assert (NoDup (i :: fl ++ l1 ++ l2)) as Hnd' by (by rewrite <- Hperm).
  apply NoDup_app in Hnd as (_ & Hfa & Hnda).
  destruct (dlseg_in _ _ _ _ _ i Hact) as [c Hc]; [apply elem_of_app; right; left|].
  destruct (unlink_ok m i c l1 l2 Hact Hnda Hc Htail)
    as (m2 & Hun & Hd2 & Ht2 & (Hl2 & Hp2 & Hu2) & Hf2 & Hr2).
  apply NoDup_cons in Hnd' as [Hi Hnd''].
  assert ((i ∉ fl) /\ (i ∉ l1 ++ l2)) as [Hifl Hial] by (rewrite elem_of_app in Hi; tauto).
  assert (forall j, j ∈ fl -> j ∉ l1 ++ l2) as Hdisj.
  { intros j Hj Hin. apply (Hfa j Hj). rewrite elem_of_app, elem_of_cons in *. tauto. }
  assert (exists c2, nthZ (contexts m2) i = Some c2) as [c2 Hc2].
  { specialize (Hu2 i Hial). rewrite Hu2. by exists c. }
  rewrite free_stream_context_unlink, Hun. cbn [mbind option_bind]. unfold add_to_free_list.
  rewrite (update_ok _ _ _ c2) by done. cbn [mbind option_bind]. eexists. split; [done|].
  pose proof (nthZ_Some _ _ _ Hc2) as Hr. set (c3 := StreamContext _ _ _ _ _).
  assert (forall j, j <> i -> nthZ (<[Z.to_nat i := c3]> (contexts m2)) j = nthZ (contexts m2) j)
    as Hother by (intros; by rewrite nthZ_update_other by done).
  split; [|split; [done|]].
  - split; simpl.
    + unfold len in *. rewrite length_insert. lia.
    + split; [done|]. exists c3. rewrite nthZ_insert_eq by done. split; [done|]. simpl. rewrite Hf2.
      eapply chain_frame; [|done]. intros j Hj. rewrite Hother by (by intros ->).
      by rewrite Hu2 by (by apply Hdisj).
    + eapply dlseg_frame; [|done]. intros j Hj. rewrite Hother; [done|]. by intros ->.
    + done.
    + by apply NoDup_cons.
    + intros j. rewrite <- Hall. change (i :: fl ++ l1 ++ l2) with (i :: (fl ++ l1 ++ l2)).
      by rewrite Hperm.
    + intros j x Hx. destruct (decide (j = i)) as [->|Hj].
      * rewrite nthZ_insert_eq in Hx by done. simplify_eq. split; [done|]. by intros Hin.
      * rewrite Hother in Hx by done. pose proof (Hp2 j) as Hpj. rewrite Hx in Hpj. simpl in Hpj.
        symmetry in Hpj. apply fmap_Some in Hpj as (x0 & Hx0 & [= Et Eh Ev]).
        destruct (Hdata j x0 Hx0) as [Ha Hb]. split.
        { intros [->|Hin]%elem_of_cons; [done|]. rewrite Et. by apply Ha. }
        { intros Hin. rewrite Et, Eh, Ev. apply Hb.
          rewrite elem_of_app, elem_of_cons in *. tauto. }
    + by rewrite Hr2.
  - intros j Hj. simpl. by rewrite Hother.
Qed.

Lemma stream_elem m fl al s :
  sm_ok m fl al -> s ∈ open_streams m ->
  exists j c, j ∈ al /\ nthZ (contexts m) j = Some c /\ s = context_stream c /\
    index_from_handle (st_handle s) = j /\ variant_type (st_variant s) = type c /\
    type c <> FWU_STREAM_TYPE_NONE.
Proof.
  intros Hok. rewrite (sm_streams _ _ _ Hok), list_elem_of_omap. intros (j & Hj & Hs).
  unfold stream_at in Hs. apply fmap_Some in Hs as (c & Hc & ->).
  destruct (ok_data _ _ _ Hok j c Hc) as [_ Hd]. destruct (Hd Hj) as (Ht & Hv & Hi).
  by exists j, c.
Qed.

Lemma omap_split {A B} (g : A -> option B) l1 x l2 y :
  g x = Some y -> omap g (l1 ++ x :: l2) = omap g l1 ++ y :: omap g l2.
Proof. intros Hx. rewrite omap_app. simpl. by rewrite Hx. Qed.

Lemma filter_ext_in {A} (P Q : A -> Prop) `{!forall x, Decision (P x), !forall x, Decision (Q x)} (l : list A) :
  (forall x, x ∈ l -> P x <-> Q x) -> filter P l = filter Q l.
Proof.
  induction l as [|x l IH]; intros Hpq; [done|]. rewrite !filter_cons.
  rewrite IH by (intros y Hy; apply Hpq; by right).
  destruct (Hpq x ltac:(left)) as [H1 H2]. repeat case_decide; tauto.
Qed.

Lemma filter_all_in {A} (P : A -> Prop) `{!forall x, Decision (P x)} (l : list A) :
  (forall x, x ∈ l -> P x) -> filter P l = l.
Proof.
  induction l as [|x l IH]; intros Hp; [done|]. rewrite filter_cons.
  rewrite IH by (intros y Hy; apply Hp; by right).
  by rewrite decide_True by (apply Hp; left).
Qed.

(** Removing a context removes its stream. *)
Lemma free_streams m fl l1 i l2 c m' :
  sm_ok m fl (l1 ++ i :: l2) -> nthZ (contexts m) i = Some c ->
  free_stream_context m i = Some m' -> sm_ok m' (i :: fl) (l1 ++ l2) ->
  (forall j, j <> i -> payload <$> nthZ (contexts m') j = payload <$> nthZ (contexts m) j) ->
  open_streams m' = filter (fun s => index_from_handle (st_handle s) <> i) (open_streams m).
Proof.
  intros Hok Hc _ Hok' Hpay. rewrite (sm_streams _ _ _ Hok').
  assert (forall l : list Z, (forall j, j ∈ l -> j ∈ l1 ++ l2) ->
    omap (stream_at (contexts m')) l = omap (stream_at (contexts m)) l /\
    filter (fun s => index_from_handle (st_handle s) <> i) (omap (stream_at (contexts m)) l)
      = omap (stream_at (contexts m)) l) as Hl.
  { intros l Hin. pose proof (ok_nodup _ _ _ Hok') as Hnd.
    assert (i ∉ l) as Hil.
    { intros Hi. simpl in Hnd. apply NoDup_cons in Hnd as [Hni _]. apply Hni.
      apply elem_of_app. right. by apply Hin. }
    split.
    - apply streams_ext. intros j Hj. apply payload_stream, Hpay. by intros ->.
    - apply filter_all_in. intros s (j & Hj & Hs)%list_elem_of_omap. unfold stream_at in Hs.
      apply fmap_Some in Hs as (cj & Hcj & ->).
      destruct (ok_data _ _ _ Hok j cj Hcj) as [_ Hd].
      destruct Hd as (_ & _ & Hidx).
      { pose proof (Hin j Hj). rewrite elem_of_app, elem_of_cons in *. tauto. }
      simpl. rewrite Hidx. by intros ->. }
  rewrite (sm_streams _ _ _ Hok), (omap_split _ l1 i l2 (context_stream c))
    by (unfold stream_at; by rewrite Hc).
  rewrite omap_app, filter_app, filter_cons.
  destruct (Hl l1) as [-> ->]; [intros; apply elem_of_app; by left|].
  destruct (Hl l2) as [-> ->]; [intros; apply elem_of_app; by right|].
  destruct (ok_data _ _ _ Hok i c Hc) as [_ Hd]. destruct Hd as (_ & _ & Hidx).
  { apply elem_of_app. right. left. }
  simpl. case_decide; [done|]. done.
Qed.

(** [p] recognises the streams that satisfy [P]. *)
Definition recognises (p : stream_context -> bool) (P : stream -> bool) : Prop :=
  (forall c, type c = FWU_STREAM_TYPE_NONE -> p c = false) /\
  (forall c, variant_type (variant c) = type c -> p c = P (context_stream c)).

Lemma free_elem m fl al i :
  sm_ok m fl al -> i ∈ al ->
  exists m' c al', nthZ (contexts m) i = Some c /\ free_stream_context m i = Some m' /\
    sm_ok m' (i :: fl) al' /\ rolling_count m' = rolling_count m /\
    open_streams m' = filter (fun s => index_from_handle (st_handle s) <> i) (open_streams m).
Proof.
  intros Hok Hi. apply list_elem_of_split in Hi as (l1 & l2 & ->).
  destruct (free_stream_context_ok m fl l1 i l2 Hok) as (m' & Hf & Hok' & Hrc & Hpay).
  destruct (dlseg_in _ _ _ _ _ i (ok_active _ _ _ Hok)) as [c Hc]; [apply elem_of_app; right; left|].
  exists m', c, (l1 ++ l2). do 4 (split; [done|]). by eapply free_streams.
Qed.

Lemma cancel_loop_ok p P m fl al n i :
  recognises p P -> sm_ok m fl al -> 0 <= i -> i + Z.of_nat n = FWU_STREAM_MANAGER_POOL_SIZE ->
  exists m' fl' al', cancel_loop p m n i = Some m' /\ sm_ok m' fl' al' /\
    rolling_count m' = rolling_count m /\
    open_streams m' = filter (fun s => ~ (i <= index_from_handle (st_handle s) /\ P s = true))
                        (open_streams m).
Proof.
  intros [Hnone Hrec]. revert m fl al i. induction n as [|n IH]; intros m fl al i Hok Hi Hn.
  { exists m, fl, al. do 3 (split; [done|]). symmetry. apply filter_all_in.
    intros s Hs. destruct (stream_elem _ _ _ _ Hok Hs) as (j & c & Hj & _ & _ & -> & _).
    pose proof (proj1 (ok_all _ _ _ Hok j) ltac:(apply elem_of_app; by right)). lia. }
  simpl. destruct (nthZ_is_Some (contexts m) i) as [c Hc]; [rewrite (ok_len _ _ _ Hok); lia|].
  rewrite Hc. cbn [mbind option_bind]. destruct (p c) eqn:Hp.
  - assert (i ∈ al) as Hial.
    { assert (i ∈ fl ++ al) as [Hf|]%elem_of_app by (apply (ok_all _ _ _ Hok); lia); [|done].
      destruct (ok_data _ _ _ Hok i c Hc) as [Hd _]. by rewrite Hnone in Hp by auto. }
    destruct (free_elem m fl al i Hok Hial) as (m1 & c1 & al1 & _ & -> & Hok1 & Hrc1 & Hs1).
    cbn [mbind option_bind]. destruct (IH m1 _ _ (i + 1) Hok1) as (m' & fl' & al' & -> & Hok' & Hrc & Hs);
      [lia|lia|]. exists m', fl', al'. split; [done|]. split; [done|]. split; [congruence|].
    rewrite Hs, Hs1, list_filter_filter. apply filter_ext_in. intros s Hin.
    destruct (stream_elem _ _ _ _ Hok Hin) as (j & cj & Hj & Hcj & -> & Hidx & Hv & _). rewrite Hidx.
    simpl in Hv. pose proof (Hrec cj Hv) as Hpj. split; [intuition lia|].
    intros Hno. split; [intuition lia|]. intros Hji. apply Hno. split; [lia|].
    rewrite <- Hpj. rewrite Hji in Hcj. congruence.
  - cbn [mbind option_bind]. destruct (IH m _ _ (i + 1) Hok) as (m' & fl' & al' & -> & Hok' & Hrc & Hs);
      [lia|lia|]. exists m', fl', al'. do 3 (split; [done|]). rewrite Hs.
    apply filter_ext_in. intros s Hin.
    destruct (stream_elem _ _ _ _ Hok Hin) as (j & cj & Hj & Hcj & -> & Hidx & Hv & _). rewrite Hidx.
    simpl in Hv. pose proof (Hrec cj Hv) as Hpj.
    destruct (decide (j = i)) as [->|]; [|intuition lia].
    split; [|intuition lia]. intros _ [_ HP]. congruence.
Qed.

Lemma cancel_all_ok p P m fl al :
  recognises p P -> sm_ok m fl al ->
  exists m' fl' al', cancel_loop p m (Z.to_nat FWU_STREAM_MANAGER_POOL_SIZE) 0 = Some m' /\
    sm_ok m' fl' al' /\ rolling_count m' = rolling_count m /\
    open_streams m' = filter (fun s => P s = false) (open_streams m).
Proof.
  intros Hrec Hok. destruct (cancel_loop_ok p P m fl al 4 0 Hrec Hok) as (m' & fl' & al' & E & Hok' & Hrc & Hs);
    [done|done|]. exists m', fl', al'. do 3 (split; [done|]). rewrite Hs. apply filter_ext_in.
  intros s _. unfold index_from_handle. pose proof (Z.land_nonneg (st_handle s) 65535).
  destruct (P s); intuition lia.
Qed.

Lemma get_active_context_ok m fl al h :
  sm_ok m fl al ->
  exists r, get_active_context m h = Some r /\
    match r with
    | Some i => i ∈ al /\ exists c, nthZ (contexts m) i = Some c /\ handle c = h /\
                 context_stream c ∈ open_streams m /\ variant_type (variant c) = type c /\
                 index_from_handle h = i
    | None => forall s, s ∈ open_streams m -> st_handle s <> h
    end.
Proof.
  intros Hok. unfold get_active_context. set (i := index_from_handle h).
  assert (forall s, s ∈ open_streams m -> st_handle s = h -> i ∈ al /\ exists c,
    nthZ (contexts m) i = Some c /\ handle c = h /\ type c <> FWU_STREAM_TYPE_NONE) as Hopen.
  { intros s Hs Hh. destruct (stream_elem _ _ _ _ Hok Hs) as (j & c & Hj & Hc & -> & Hidx & Hv & Ht).
    simpl in *. rewrite Hh in Hidx. fold i in Hidx. subst j. split; [done|]. by exists c. }
  destruct (Z.ltb_spec i FWU_STREAM_MANAGER_POOL_SIZE) as [Hlt|Hge].
  2:{ exists None. split; [done|]. intros s Hs Hh. destruct (Hopen s Hs Hh) as [Hi _].
      pose proof (proj1 (ok_all _ _ _ Hok i) ltac:(apply elem_of_app; by right)). lia. }
  assert (0 <= i) as Hi0 by (apply Z.land_nonneg; by right).
  destruct (nthZ_is_Some (contexts m) i) as [c Hc]; [rewrite (ok_len _ _ _ Hok); lia|].
  rewrite Hc. cbn [mbind option_bind].
  destruct (bool_decide (type c <> FWU_STREAM_TYPE_NONE) && (handle c =? h)) eqn:Hb.
  - apply andb_true_iff in Hb as [Ht Hh]. apply bool_decide_eq_true in Ht. apply Z.eqb_eq in Hh.
    exists (Some i). split; [done|].
    destruct (ok_data _ _ _ Hok i c Hc) as [Hf Hd].
    assert (i ∈ al) as Hial.
    { assert (i ∈ fl ++ al) as [Hin|]%elem_of_app by (apply (ok_all _ _ _ Hok); lia); [|done].
      by apply Hf in Hin. }
    split; [done|]. exists c. destruct (Hd Hial) as (_ & Hv & Hidx). do 2 (split; [done|]).
    split; [|done]. rewrite (sm_streams _ _ _ Hok). apply list_elem_of_omap. exists i.
    split; [done|]. unfold stream_at. by rewrite Hc.
  - exists None. split; [done|]. intros s Hs Hh. destruct (Hopen s Hs Hh) as (_ & c' & Hc' & Hh' & Ht).
    simplify_eq. rewrite bool_decide_true in Hb by done. simpl in Hb. by apply Z.eqb_neq in Hb.
Qed.

(** ** Lemmas: taking a context from the free list *)

Definition push_front m (i : Z) (t : fwu_stream_type) (h : Z) (v : stream_variant) (rest : option Z)
    : stream_manager :=
  let c := StreamContext t h (active_head m) None v in
  let cs := match active_head m with
            | Some n => match nthZ (contexts m) n with
                        | Some cn => <[Z.to_nat n := with_prev (Some i) cn]> (contexts m)
                        | None => contexts m
                        end
            | None => contexts m
            end in
  StreamManager (<[Z.to_nat i := c]> cs) rest (Some i)
    (match active_tail m with None => Some i | Some _ => active_tail m end)
    (u16 (rolling_count m + 1)).

Lemma push_front_ok m fl al i t h v rest :
  sm_ok m (i :: fl) al -> (exists c, nthZ (contexts m) i = Some c /\ next c = rest) ->
  variant_type v = t -> t <> FWU_STREAM_TYPE_NONE -> index_from_handle h = i ->
  sm_ok (push_front m i t h v rest) fl (i :: al) /\
  open_streams (push_front m i t h v rest) = Stream h v :: open_streams m.
Proof.
  intros Hok (c & Hc & Hnext) Hv Ht Hh. pose proof Hok as [Hlen Hfree Hact Htail Hnd Hall Hdata Hcount].
  pose proof (nthZ_Some _ _ _ Hc) as Hi.
  simpl in Hnd. apply NoDup_cons in Hnd as [Hni Hnd]. rewrite elem_of_app in Hni.
  pose proof Hfree as (_ & c0 & Hc0 & Hfl). rewrite Hc in Hc0. injection Hc0 as <-. rewrite Hnext in Hfl.
  apply NoDup_app in Hnd as (Hnf & Hdis & Hna).
  set (m' := push_front _ _ _ _ _ _). unfold push_front in m'.
  set (cs1 := match active_head m with Some _ => _ | None => _ end) in m'.
  set (x := StreamContext _ _ _ _ v) in m'.
  assert (links_only (contexts m) cs1 al /\ dlseg cs1 (Some i) (active_head m) al None) as [Hlo Hd1].
  { unfold cs1. destruct al as [|n al]; simpl in Hact.
    - rewrite Hact. split; [apply links_only_refl|done].
    - pose proof Hact as (Hn & cn & Hcn & _). rewrite Hn, Hcn. apply NoDup_cons in Hna as [Hnn _].
      split; [eapply links_only_insert; [done|done|left]|].
      eapply dlseg_set_start; [|done|done]. by rewrite Hn in Hact. }
  destruct Hlo as (Hl1 & Hp1 & Hu1).
  assert (0 <= i < len cs1) as Hi1 by lia.
  assert (forall j, j <> i -> nthZ (contexts m') j = nthZ cs1 j) as Hother
    by (intros; unfold m'; simpl; by rewrite nthZ_update_other by done).
  assert (nthZ (contexts m') i = Some x) as Hx by (unfold m'; simpl; by rewrite nthZ_insert_eq).
  assert (sm_ok m' fl (i :: al)) as Hok'.
  { split.
    - unfold m', len in *. simpl. rewrite length_insert. lia.
    - eapply chain_frame; [|done]. intros j Hj. rewrite Hother by (intros ->; tauto).
      by rewrite Hu1 by (by apply Hdis).
    - split; [done|]. exists x. split; [done|]. split; [done|].
      eapply dlseg_frame; [|done]. intros j Hj. rewrite Hother; [done|]. intros ->. tauto.
    - unfold m'. simpl. rewrite Htail. destruct al as [|n al]; [done|].
      rewrite last_cons_cons. by destruct (last (n :: al)) eqn:E; [|apply last_None in E].
    - apply NoDup_app. split; [done|]. split; [|apply NoDup_cons; split; [tauto|done]].
      intros j Hj [->|Hin]%elem_of_cons; [tauto|by apply (Hdis j)].
    - intros j. rewrite <- Hall. rewrite !elem_of_app, !elem_of_cons. tauto.
    - intros j y Hy. destruct (decide (j = i)) as [->|Hj].
      + rewrite Hx in Hy. injection Hy as <-. split; [intros; tauto|done].
      + rewrite Hother in Hy by done. pose proof (Hp1 j) as Hpj. rewrite Hy in Hpj. symmetry in Hpj.
        apply fmap_Some in Hpj as (y0 & Hy0 & [= Et Eh Ev]).
        destruct (Hdata j y0 Hy0) as [Ha Hb]. split.
        * intros Hin. rewrite Et. apply Ha. by right.
        * intros [->|Hin]%elem_of_cons; [done|]. rewrite Et, Eh, Ev. by apply Hb.
    - unfold m'. simpl. apply wrap_fits. lia. }
  split; [done|]. rewrite (sm_streams _ _ _ Hok'), (sm_streams _ _ _ Hok).
  change (i :: al) with ([] ++ i :: al). rewrite (omap_split _ [] i al (Stream h v))
    by (unfold stream_at; by rewrite Hx).
  rewrite app_nil_l. f_equal. apply streams_ext. intros j Hj.
  apply payload_stream. rewrite Hother by (intros ->; tauto). apply Hp1.
Qed.

Lemma update_insert m cs i c g :
  contexts m = <[Z.to_nat i := c]> cs -> 0 <= i < len cs ->
  update m i g = Some (set_contexts m (<[Z.to_nat i := g c]> cs)).
Proof.
  intros Hm Hi. rewrite (update_ok m i g c); [|rewrite Hm; by rewrite nthZ_insert_eq].
  by rewrite Hm, list_insert_insert_eq.
Qed.

(** The handle of a new stream: the index below, the rolling count above. *)
Lemma generate_handle_ok m i :
  0 <= i < FWU_STREAM_MANAGER_POOL_SIZE -> fits 16 (rolling_count m) ->
  let h := fst (generate_handle m i) in
  index_from_handle h = i /\ Z.shiftr h 16 = rolling_count m.
Proof.
  unfold FWU_STREAM_MANAGER_POOL_SIZE. intros Hi Hr. simpl. unfold index_from_handle.
  change 65535 with (Z.ones 16).
  rewrite (wrap_small 32 i) by lia. rewrite (Z.land_ones i 16), Z.mod_small by lia.
  assert (Z.shiftl (rolling_count m) 16 = rolling_count m * 2 ^ 16) as Es by (by apply Z.shiftl_mul_pow2).
  rewrite (wrap_small 32) by (unfold fits in Hr; lia).
  rewrite lor_shiftl_add by lia. split.
  - rewrite Z.land_ones, Z.mod_add, Z.mod_small by lia. done.
  - rewrite Z.shiftr_div_pow2, Z.div_add, Z.div_small by lia. lia.
Qed.

Lemma take_free_ok m fl al i t :
  sm_ok m (i :: fl) al -> t <> FWU_STREAM_TYPE_NONE ->
  exists h m1, take_free_context m t = Some (Some (i, h), m1) /\
    index_from_handle h = i /\ Z.shiftr h 16 = rolling_count m /\
    forall v, variant_type v = t -> exists m2 fl2 al2,
      update m1 i (with_variant v) = Some m2 /\ sm_ok m2 fl2 al2 /\
      rolling_count m2 = u16 (rolling_count m + 1) /\
      open_streams m2 = Stream h v :: open_streams m.
Proof.
  intros Hok Ht. pose proof (ok_free _ _ _ Hok) as (Hf & c & Hc & _).
  pose proof (nthZ_Some _ _ _ Hc) as Hi. rewrite (ok_len _ _ _ Hok) in Hi.
  destruct (generate_handle_ok m i Hi (ok_count _ _ _ Hok)) as [Hidx Hsh].
  set (h := fst (generate_handle m i)) in *.
  assert (0 <= i < len (contexts m)) as Hi' by (by rewrite (ok_len _ _ _ Hok)).
  assert (forall v, variant_type v = t -> exists fl2 al2,
    sm_ok (push_front m i t h v (next c)) fl2 al2 /\
    open_streams (push_front m i t h v (next c)) = Stream h v :: open_streams m) as Hpush.
  { intros v Hv. exists fl, (i :: al). eapply push_front_ok; [done|by exists c|done..]. }
  unfold take_free_context. rewrite Hf, Hc. cbn [mbind option_bind].
  rewrite (update_ok _ _ _ c) by done. cbn [mbind option_bind].
  rewrite (update_insert _ (contexts m) i (with_next (active_head m) c)) by done.
  cbn [mbind option_bind set_contexts set_free set_head contexts active_head active_tail free].
  set (c2 := with_prev None (with_next (active_head m) c)).
  match goal with |- context [match active_tail m with None => ?a | Some _ => ?b end] =>
    set (m0 := match active_tail m with None => a | Some _ => b end) end.
  assert (contexts m0 = <[Z.to_nat i := c2]> (contexts m) /\ free m0 = next c /\
    active_head m0 = Some i /\ rolling_count m0 = rolling_count m /\
    active_tail m0 = match active_tail m with None => Some i | Some _ => active_tail m end)
    as (Ecs & Efr & Ehd & Erc & Etl) by (unfold m0; destruct (active_tail m) eqn:E; simpl; rewrite ?E; done).
  rewrite Ecs, nthZ_insert_eq by done. cbn [mbind option_bind c2 next with_prev with_next].
  (* the state before the last two assignments, with the contexts other than [i] in [cs1] *)
  assert (exists m3 cs1, (match active_head m with
      | Some n => update m0 n (with_prev (Some i)) | None => Some m0 end) = Some m3 /\
    len cs1 = len (contexts m) /\ contexts m3 = <[Z.to_nat i := c2]> cs1 /\
    free m3 = next c /\ active_head m3 = Some i /\ rolling_count m3 = rolling_count m /\
    active_tail m3 = (match active_tail m with None => Some i | Some _ => active_tail m end) /\
    forall v, push_front m i t h v (next c) =
      StreamManager (<[Z.to_nat i := StreamContext t h (active_head m) None v]> cs1) (next c) (Some i)
        (active_tail m3) (u16 (rolling_count m + 1)))
    as (m3 & cs1 & -> & Hl1 & Hcs3 & Hf3 & Hh3 & Hr3 & Ht3 & Hpf).
  { unfold push_front. destruct (active_head m) as [n|] eqn:Hn; [|by exists m0, (contexts m); rewrite Etl].
    destruct al as [|n' al']; [by pose proof (ok_active _ _ _ Hok) as Hd; simpl in Hd; congruence|].
    pose proof (ok_active _ _ _ Hok) as (Hn' & cn & Hcn & _). rewrite Hn in Hn'. injection Hn' as <-.
    assert (n <> i) as Hni.
    { pose proof (ok_nodup _ _ _ Hok) as Hnd. intros ->. simpl in Hnd.
      apply NoDup_cons in Hnd as [Hnd _]. apply Hnd, elem_of_app. right. left. }
    pose proof (nthZ_Some _ _ _ Hcn) as Hnr.
    rewrite (update_ok _ _ _ cn) by (rewrite Ecs; by rewrite nthZ_update_other).
    eexists _, (<[Z.to_nat n := with_prev (Some i) cn]> (contexts m)). split; [done|].
    rewrite Hcn. simpl. rewrite Ecs, Etl. split; [unfold len; by rewrite length_insert|].
    split; [apply list_insert_insert_ne; lia|]. done. }
  cbn [mbind option_bind]. assert (0 <= i < len cs1) as Hi1 by lia.
  rewrite (update_insert m3 cs1 i c2) by done. cbn [mbind option_bind].
  unfold generate_handle. cbn [set_contexts contexts rolling_count].
  rewrite Hr3. fold h. change (fst (generate_handle m i)) with h.
  erewrite (update_insert _ cs1 i (with_type t c2)) by done. cbn [mbind option_bind].
  eexists h, _. split; [done|]. split; [done|]. split; [done|]. intros v Hv.
  destruct (Hpush v Hv) as (fl2 & al2 & Hok2 & Hs2). rewrite Hpf in Hok2, Hs2.
  erewrite (update_insert _ cs1 i) by done. eexists _, fl2, al2. split; [done|]. simpl.
  unfold set_contexts, with_variant, with_handle, with_type, c2, with_prev, with_next. simpl.
  rewrite Hf3, Hh3. done.
Qed.

Definition stream_index (s : stream) : Z := index_from_handle (st_handle s).

Lemma streams_index m fl al : sm_ok m fl al -> map stream_index (open_streams m) = al.
Proof.
  intros Hok. rewrite (sm_streams _ _ _ Hok).
  assert (forall j, j ∈ al -> exists c, nthZ (contexts m) j = Some c /\
    index_from_handle (handle c) = j) as Hal.
  { intros j Hj. destruct (dlseg_in _ _ _ _ _ j (ok_active _ _ _ Hok) Hj) as [c Hc]. exists c.
    split; [done|]. destruct (ok_data _ _ _ Hok j c Hc) as [_ Hd]. by destruct (Hd Hj) as (_ & _ & ?). }
  clear Hok. induction al as [|j al IH]; [done|].
  destruct (Hal j ltac:(left)) as (c & Hc & Hj). simpl. unfold stream_at at 1. rewrite Hc. simpl.
  unfold stream_index at 1. simpl. rewrite Hj. f_equal. apply IH. intros k Hk. apply Hal. by right.
Qed.

Lemma streams_nodup m fl al : sm_ok m fl al -> NoDup (map stream_index (open_streams m)).
Proof.
  intros Hok. rewrite (streams_index _ _ _ Hok). pose proof (ok_nodup _ _ _ Hok) as Hnd.
  by apply NoDup_app in Hnd as (_ & _ & ?).
Qed.

Lemma same_handle m fl al s s' :
  sm_ok m fl al -> s ∈ open_streams m -> s' ∈ open_streams m -> stream_index s = stream_index s' ->
  s = s'.
Proof.
  intros Hok Hs Hs' Heq.
  destruct (stream_elem _ _ _ _ Hok Hs) as (j & c & _ & Hc & -> & Hj & _).
  destruct (stream_elem _ _ _ _ Hok Hs') as (j' & c' & _ & Hc' & -> & Hj' & _).
  unfold stream_index in Heq. assert (j = j') as -> by congruence. congruence.
Qed.

Lemma omap_map_ext {A B} (g g' : A -> option B) (k : B -> B) (l : list A) :
  (forall j, j ∈ l -> g' j = k <$> g j) -> omap g' l = map k (omap g l).
Proof.
  induction l as [|j l IH]; intros Hext; [done|]. simpl. rewrite Hext by left.
  destruct (g j); simpl; [f_equal|]; apply IH; intros x Hx; apply Hext; by right.
Qed.

Lemma set_variant_ok m fl al i c v :
  sm_ok m fl al -> nthZ (contexts m) i = Some c -> i ∈ al -> variant_type v = type c ->
  exists m', update m i (with_variant v) = Some m' /\ sm_ok m' fl al /\
    rolling_count m' = rolling_count m /\
    open_streams m' = map (fun s => if stream_index s =? i then Stream (st_handle s) v else s)
                        (open_streams m).
Proof.
  intros Hok Hc Hi Hv. rewrite (update_ok _ _ _ c) by done. eexists. split; [done|].
  pose proof (nthZ_Some _ _ _ Hc) as Hr. set (cs' := <[Z.to_nat i := _]> _).
  assert (forall j, j <> i -> nthZ cs' j = nthZ (contexts m) j) as Hother
    by (intros; unfold cs'; by rewrite nthZ_update_other by done).
  assert (nthZ cs' i = Some (with_variant v c)) as Hx by (unfold cs'; by rewrite nthZ_insert_eq).
  assert (forall j, links <$> nthZ cs' j = links <$> nthZ (contexts m) j) as Hlinks.
  { intros j. destruct (decide (j = i)) as [->|]; [by rewrite Hx, Hc|by rewrite Hother]. }
  assert (sm_ok (set_contexts m cs') fl al) as Hok'.
  { destruct Hok as [Hlen Hfree Hact Htail Hnd Hall Hdata Hcount]. split; try done.
    - unfold cs', len in *. simpl. by rewrite length_insert.
    - eapply chain_frame; [|done]. intros j _. specialize (Hlinks j). unfold links in Hlinks. simpl.
      destruct (nthZ cs' j), (nthZ (contexts m) j); simpl in *; congruence.
    - eapply dlseg_frame; [|done]. intros j _. apply Hlinks.
    - intros j y Hy. simpl in Hy. destruct (decide (j = i)) as [->|Hj].
      + rewrite Hx in Hy. injection Hy as <-. destruct (Hdata i c Hc) as [Ha Hb].
        split; [done|]. intros Hin. destruct (Hb Hin) as (? & _ & ?). done.
      + rewrite Hother in Hy by done. by apply Hdata. }
  split; [done|]. split; [done|]. rewrite (sm_streams _ _ _ Hok'), (sm_streams _ _ _ Hok).
  apply omap_map_ext. intros j Hj. unfold stream_at. simpl. destruct (decide (j = i)) as [->|Hne].
  - rewrite Hx, Hc. simpl. destruct (ok_data _ _ _ Hok i c Hc) as [_ Hd]. destruct (Hd Hi) as (_ & _ & Hci).
    unfold stream_index. simpl. rewrite Hci, Z.eqb_refl. done.
  - rewrite Hother by done. destruct (nthZ (contexts m) j) as [cj|] eqn:Hcj; [|done]. simpl.
    destruct (ok_data _ _ _ Hok j cj Hcj) as [_ Hd]. destruct (Hd Hj) as (_ & _ & Hcj').
    unfold stream_index. simpl. rewrite Hcj'. by destruct (Z.eqb_spec j i).
Qed.

(** ** The abstract operations

    [l] is the list of open streams, most recent first. *)

Section Spec.
Context {F : Type}.
Context (commit_image : F -> Z -> Z -> image_info -> bool -> option (Z * F))
        (write_image : F -> Z -> Z -> bytes -> option (Z * F)) (heap : Z -> option bytes).
Implicit Types (l : list stream) (f : F).

(** Closing a stream commits the image of an install stream. *)
Definition commit_stream f (s : stream) (accepted : bool) : option (Z * F) :=
  match st_variant s with
  | InstallVariant store installer image => commit_image f store installer image accepted
  | _ => Some (FWU_STATUS_SUCCESS, f)
  end.

Definition no_handle l (h : Z) : Prop := forall s, s ∈ l -> st_handle s <> h.

Definition without l (h : Z) : list stream := filter (fun s => st_handle s <> h) l.

Inductive close_spec l f (h : Z) (accepted : bool) : Z -> list stream -> F -> Prop :=
  | close_unknown : no_handle l h -> close_spec l f h accepted FWU_STATUS_UNKNOWN l f
  | close_open s st f' :
      s ∈ l -> st_handle s = h -> commit_stream f s accepted = Some (st, f') ->
      close_spec l f h accepted st (without l h) f'.

(** Room for one more stream: if all four contexts are in use, the stream that was
    opened first is closed, not accepted.  Writing to a stream or reading from it
    does not move it. *)
Inductive make_room l f : list stream -> F -> Prop :=
  | room_free : (length l < 4)%nat -> make_room l f l f
  | room_recycle l0 s st f' :
      length l = 4%nat -> l = l0 ++ [s] -> commit_stream f s false = Some (st, f') ->
      make_room l f l0 f'.

(** Opening: cancel the streams [P] selects, make room, and push the new one
    under a handle that carries the count and no other stream's index. *)
Inductive open_spec (P : stream -> bool) (v : stream_variant) (count : Z) l f :
    Z -> list stream -> F -> Prop :=
  | open_new h l0 f' :
      make_room (filter (fun s => P s = false) l) f l0 f' ->
      Z.shiftr h 16 = count -> 0 <= index_from_handle h < 4 ->
      (forall s, s ∈ l0 -> index_from_handle (st_handle s) <> index_from_handle h) ->
      open_spec P v count l f h (Stream h v :: l0) f'.

Definition same_buffer (data : Z) (s : stream) : bool :=
  match st_variant s with BufferVariant _ d _ => d =? data | _ => false end.

Definition same_install (store installer : Z) (s : stream) : bool :=
  match st_variant s with
  | InstallVariant a b _ => (a =? store) && (b =? installer)
  | _ => false
  end.

Inductive write_spec l f (h : Z) (data : option bytes) : Z -> F -> Prop :=
  | write_open s store installer image b st f' :
      s ∈ l -> st_handle s = h -> st_variant s = InstallVariant store installer image ->
      data = Some b -> write_image f store installer b = Some (st, f') ->
      write_spec l f h data st f'
  | write_other :
      (forall s, s ∈ l -> st_handle s = h -> variant_type (st_variant s) <> FWU_STREAM_TYPE_INSTALL) ->
      write_spec l f h data FWU_STATUS_UNKNOWN f.

(** A read returns the next bytes of the buffer and advances the stream. *)
Definition advance (h n : Z) (s : stream) : stream :=
  if st_handle s =? h then
    match st_variant s with
    | BufferVariant pos data data_len => Stream h (BufferVariant (pos + n) data data_len)
    | _ => s
    end
  else s.

Inductive read_spec l (h size : Z) : Z -> bytes -> list stream -> Prop :=
  | read_buffer s pos data data_len b :
      s ∈ l -> st_handle s = h -> st_variant s = BufferVariant pos data data_len ->
      heap data = Some b ->
      read_spec l h size FWU_STATUS_SUCCESS (slice b pos (Z.min size (data_len - pos)))
        (map (advance h (Z.min size (data_len - pos))) l)
  | read_install s :
      s ∈ l -> st_handle s = h -> variant_type (st_variant s) = FWU_STREAM_TYPE_INSTALL ->
      read_spec l h size FWU_STATUS_DENIED [] l
  | read_unknown : no_handle l h -> read_spec l h size FWU_STATUS_UNKNOWN [] l.

(** Where an operation does not return: a commit or a write of the store does not,
    or the data written is not in memory. *)
Definition close_stops l f (h : Z) (accepted : bool) : Prop :=
  exists s, s ∈ l /\ st_handle s = h /\ commit_stream f s accepted = None.

Definition room_stops l f : Prop :=
  exists l0 s, length l = 4%nat /\ l = l0 ++ [s] /\ commit_stream f s false = None.

Definition write_stops l f (h : Z) (data : option bytes) : Prop :=
  exists s store installer image, s ∈ l /\ st_handle s = h /\
    st_variant s = InstallVariant store installer image /\
    (data ≫= write_image f store installer) = None.

(** A buffer stream stays inside its buffer. *)
Definition stream_ok (s : stream) : Prop :=
  match st_variant s with
  | BufferVariant pos data data_len =>
      0 <= pos <= data_len /\ data_len < 2 ^ 64 /\ exists b, heap data = Some b /\ data_len <= len b
  | _ => True
  end.

(** ** The manager implements them *)

Lemma without_index m fl al i c :
  sm_ok m fl al -> nthZ (contexts m) i = Some c -> i ∈ al ->
  filter (fun s => index_from_handle (st_handle s) <> i) (open_streams m)
    = without (open_streams m) (handle c).
Proof.
  intros Hok Hc Hi. apply filter_ext_in. intros s Hs.
  destruct (stream_elem _ _ _ _ Hok Hs) as (j & cj & Hj & Hcj & -> & Hidx & _). rewrite Hidx. simpl.
  destruct (ok_data _ _ _ Hok i c Hc) as [_ Hd]. destruct (Hd Hi) as (_ & _ & Hci).
  split; [|congruence]. intros Hne Heq. apply Hne. simpl in Hidx. congruence.
Qed.

Lemma close_ok m f fl al h acc :
  sm_ok m fl al ->
  match stream_manager_close commit_image m f h acc with
  | Some (st, m', f') => exists fl' al', sm_ok m' fl' al' /\ rolling_count m' = rolling_count m /\
      close_spec (open_streams m) f h acc st (open_streams m') f'
  | None => close_stops (open_streams m) f h acc
  end.
Proof.
  clear write_image heap. intros Hok. unfold stream_manager_close.
  destruct (get_active_context_ok m fl al h Hok) as (r & -> & Hr). cbn [mbind option_bind].
  destruct r as [i|].
  2:{ exists fl, al. do 2 (split; [done|]). by constructor. }
  destruct Hr as (Hi & c & Hc & Hh & Hin & Hv & Hidx). rewrite Hc. cbn [mbind option_bind].
  destruct (free_elem m fl al i Hok Hi) as (m' & c' & al' & Hc' & Hf & Hok' & Hrc & Hs).
  rewrite Hc in Hc'. injection Hc' as <-. rewrite (without_index m fl al i c Hok Hc Hi), Hh in Hs.
  assert ((if bool_decide (type c = FWU_STREAM_TYPE_INSTALL) then
           match variant c with
           | InstallVariant store installer image => commit_image f store installer image acc
           | _ => None
           end else Some (FWU_STATUS_SUCCESS, f)) = commit_stream f (context_stream c) acc) as ->
    by (unfold commit_stream; simpl; rewrite <- Hv; by destruct (variant c)).
  destruct (commit_stream f (context_stream c) acc) as [[st f']|] eqn:Hcm; cbn [mbind option_bind].
  - rewrite Hf. cbn [mbind option_bind]. exists (i :: fl), al'. do 2 (split; [done|]).
    rewrite Hs. by eapply close_open.
  - by exists (context_stream c).
Qed.

Lemma recycle_ok m f al :
  sm_ok m [] al ->
  exists tail c l0 s, active_tail m = Some tail /\ nthZ (contexts m) tail = Some c /\
    open_streams m = l0 ++ [s] /\
    match stream_manager_close commit_image m f (handle c) false with
    | Some (st, m1, f1) => exists fl1 al1, sm_ok m1 fl1 al1 /\ rolling_count m1 = rolling_count m /\
        open_streams m1 = l0 /\ commit_stream f s false = Some (st, f1)
    | None => commit_stream f s false = None
    end.
Proof.
  clear write_image heap. intros Hok. pose proof (sm_length _ _ _ Hok) as Hl4.
  destruct al as [|tail al0 _] using rev_ind; [simpl in Hl4; lia|].
  destruct (dlseg_in _ _ _ _ _ tail (ok_active _ _ _ Hok)) as [c Hc]; [apply elem_of_app; right; left|].
  assert (open_streams m = omap (stream_at (contexts m)) al0 ++ [context_stream c]) as Hl.
  { rewrite (sm_streams _ _ _ Hok), omap_app. f_equal. simpl. unfold stream_at. by rewrite Hc. }
  pose proof (streams_nodup _ _ _ Hok) as Hnd. rewrite Hl, map_app in Hnd.
  set (l0 := omap _ al0) in *. set (s := context_stream c) in *.
  assert (forall s', s' ∈ l0 -> st_handle s' <> st_handle s) as Hdiff.
  { intros s' Hs' Heq. apply NoDup_app in Hnd as (_ & Hd & _).
    apply (Hd (stream_index s')); [by apply list_elem_of_fmap_2|].
    simpl. unfold stream_index. rewrite Heq. left. }
  assert (forall s', s' ∈ open_streams m -> st_handle s' = handle c -> s' = s) as Hsame.
  { intros s' Hin Hh. rewrite Hl in Hin.
    apply elem_of_app in Hin as [Hin|[->|[]%not_elem_of_nil]%elem_of_cons]; [|done].
    by apply Hdiff in Hin. }
  pose proof (close_ok m f [] (al0 ++ [tail]) (handle c) false Hok) as Hcl.
  exists tail, c, l0, s. split; [by rewrite (ok_tail _ _ _ Hok), last_snoc|]. do 2 (split; [done|]).
  destruct (stream_manager_close commit_image m f (handle c) false) as [[[st m1] f1]|].
  - destruct Hcl as (fl1 & al1 & Hok1 & Hrc & Hspec). exists fl1, al1. do 2 (split; [done|]).
    inversion Hspec as [Hno|s' st' f' Hin Hh Hcm Hst Hl' Hf]; subst.
    + exfalso. apply (Hno s); [rewrite Hl; apply elem_of_app; right; left|done].
    + apply Hsame in Hin as ->; [|done]. split; [|done]. unfold without.
      rewrite Hl, filter_app, filter_all_in by done. rewrite filter_cons.
      rewrite decide_False by (intros Hne; apply Hne; done). by rewrite app_nil_r.
  - destruct Hcl as (s' & Hin & Hh & Hcm). by apply Hsame in Hin as <-.
Qed.

Lemma alloc_ok m f fl al t :
  sm_ok m fl al -> t <> FWU_STREAM_TYPE_NONE ->
  match alloc_stream_context commit_image m f t with
  | Some (r, m1, f') => exists i h l0, r = Some (i, h) /\
      make_room (open_streams m) f l0 f' /\ index_from_handle h = i /\
      Z.shiftr h 16 = rolling_count m /\
      forall v, variant_type v = t -> exists m2 fl2 al2,
        update m1 i (with_variant v) = Some m2 /\ sm_ok m2 fl2 al2 /\
        rolling_count m2 = u16 (rolling_count m + 1) /\ open_streams m2 = Stream h v :: l0
  | None => room_stops (open_streams m) f
  end.
Proof.
  clear write_image heap. intros Hok Ht. unfold alloc_stream_context.
  assert (length (open_streams m) = length al) as Hlen
    by (rewrite <- (streams_index _ _ _ Hok); by rewrite length_map).
  pose proof (sm_length _ _ _ Hok) as Hl4. destruct fl as [|i fl].
  - pose proof (ok_free _ _ _ Hok) as Hfr. simpl in Hfr. rewrite Hfr.
    destruct (recycle_ok m f al Hok) as (tail & c & l0 & s & Ht0 & Hc & Hl & Hcl).
    rewrite Ht0, Hc. cbn [mbind option_bind].
    destruct (stream_manager_close commit_image m f (handle c) false) as [[[st m1] f1]|];
      cbn [mbind option_bind]; [|exists l0, s; simpl in Hl4; split; [lia|done]].
    destruct Hcl as (fl1 & al1 & Hok1 & Hrc1 & Hl0 & Hcm).
    assert (length (open_streams m1) = length al1) as Hlen1
      by (rewrite <- (streams_index _ _ _ Hok1); by rewrite length_map).
    pose proof (sm_length _ _ _ Hok1) as Hl41.
    assert (length (open_streams m1) = 3%nat) as H3.
    { rewrite Hl0. rewrite Hl, length_app in Hlen. simpl in *. lia. }
    destruct fl1 as [|i fl1]; [simpl in *; lia|].
    destruct (take_free_ok m1 fl1 al1 i t Hok1 Ht) as (h & m2 & -> & Hidx & Hsh & Hv).
    cbn [mbind option_bind]. exists i, h, l0. split; [done|].
    split; [eapply (room_recycle _ _ _ s st); [simpl in *; lia|done|done]|].
    split; [done|]. split; [congruence|]. intros v Hvt.
    destruct (Hv v Hvt) as (m3 & fl3 & al3 & ? & ? & ? & ?). exists m3, fl3, al3.
    rewrite <- Hrc1, <- Hl0. done.
  - pose proof (ok_free _ _ _ Hok) as (Hfr & _). rewrite Hfr. cbn [mbind option_bind].
    destruct (take_free_ok m fl al i t Hok Ht) as (h & m2 & -> & Hidx & Hsh & Hv).
    cbn [mbind option_bind]. exists i, h, (open_streams m). split; [done|].
    split; [apply room_free; simpl in Hl4; lia|]. done.
Qed.

(** What the two open functions end with. *)
Definition opened m f (P : stream -> bool) v (r : option (Z * Z * stream_manager * F)) : Prop :=
  match r with
  | Some (st, h, m', f') => st = FWU_STATUS_SUCCESS /\ exists fl' al', sm_ok m' fl' al' /\
      rolling_count m' = u16 (rolling_count m + 1) /\
      open_spec P v (rolling_count m) (open_streams m) f h (open_streams m') f'
  | None => room_stops (filter (fun s => P s = false) (open_streams m)) f
  end.

(** Their common part. *)
Lemma open_ok m f fl al p P t v h0 :
  recognises p P -> sm_ok m fl al -> t <> FWU_STREAM_TYPE_NONE -> variant_type v = t ->
  opened m f P v
    (m ← cancel_loop p m (Z.to_nat FWU_STREAM_MANAGER_POOL_SIZE) 0;
     '(context, m, f) ← alloc_stream_context commit_image m f t;
     match context with
     | None => Some (FWU_STATUS_UNKNOWN, h0, m, f)
     | Some (i, h) => m ← update m i (with_variant v); Some (FWU_STATUS_SUCCESS, h, m, f)
     end).
Proof.
  clear write_image heap. intros Hrec Hok Ht Hv. unfold opened.
  destruct (cancel_all_ok p P m fl al Hrec Hok) as (m1 & fl1 & al1 & -> & Hok1 & Hrc1 & Hs1).
  cbn [mbind option_bind]. pose proof (alloc_ok m1 f fl1 al1 t Hok1 Ht) as Ha.
  destruct (alloc_stream_context commit_image m1 f t) as [[[r m2] f']|]; cbn [mbind option_bind];
    [|by rewrite <- Hs1].
  destruct Ha as (i & h & l0 & -> & Hroom & Hidx & Hsh & Hupd).
  destruct (Hupd v Hv) as (m' & fl' & al' & -> & Hok' & Hrc' & Hs'). cbn [mbind option_bind].
  split; [done|]. exists fl', al'. split; [done|]. split; [congruence|].
  rewrite Hs'. rewrite Hs1 in Hroom. eapply open_new; [done|congruence|..].
  - destruct (stream_elem m' fl' al' (Stream h v) Hok') as (j & c & Hj & _ & _ & Hji & _);
      [rewrite Hs'; left|]. simpl in Hji. rewrite Hji.
    apply (ok_all _ _ _ Hok'). apply elem_of_app. by right.
  - intros s Hs Heq. pose proof (streams_nodup _ _ _ Hok') as Hnd. rewrite Hs' in Hnd. simpl in Hnd.
    apply NoDup_cons in Hnd as [Hni _]. apply Hni. unfold stream_index at 1. simpl. rewrite <- Heq.
    by apply (list_elem_of_fmap_2 stream_index).
Qed.

Lemma open_buffer_ok m f fl al data n h0 :
  sm_ok m fl al ->
  opened m f (same_buffer data) (BufferVariant 0 data n)
    (stream_manager_open_buffer_stream commit_image m f data n h0).
Proof.
  clear write_image heap. intros Hok. eapply open_ok; [|done..].
  split; unfold same_buffer; simpl.
  - intros c ->. done.
  - intros c Hv. rewrite <- Hv. by destruct (variant c).
Qed.

Lemma open_install_ok m f fl al store installer image h0 :
  sm_ok m fl al ->
  opened m f (same_install store installer) (InstallVariant store installer image)
    (stream_manager_open_install_stream commit_image m f store installer image h0).
Proof.
  clear write_image heap. intros Hok. eapply open_ok; [|done..].
  split; unfold same_install; simpl.
  - intros c ->. done.
  - intros c Hv. rewrite <- Hv. by destruct (variant c).
Qed.

Lemma write_ok m f fl al h data :
  sm_ok m fl al ->
  match stream_manager_write write_image m f h data with
  | Some (st, f') => write_spec (open_streams m) f h data st f'
  | None => write_stops (open_streams m) f h data
  end.
Proof.
  clear commit_image heap. intros Hok. unfold stream_manager_write.
  destruct (get_active_context_ok m fl al h Hok) as (r & -> & Hr). cbn [mbind option_bind].
  destruct r as [i|].
  2:{ apply write_other. intros s Hs Hh. by apply Hr in Hs. }
  destruct Hr as (Hi & c & Hc & Hh & Hin & Hv & Hidx). rewrite Hc. cbn [mbind option_bind].
  rewrite <- Hv. destruct (variant c) as [| |store installer image] eqn:Ev; simpl.
  3:{ assert (st_variant (context_stream c) = InstallVariant store installer image) as Es by done.
      destruct data as [b|]; simpl; [|by exists (context_stream c), store, installer, image].
      destruct (write_image f store installer b) as [[st f']|] eqn:Hw; simpl.
      - eapply (write_open _ _ _ _ (context_stream c)); done.
      - by exists (context_stream c), store, installer, image. }
  all: apply write_other; intros s Hs Hsh;
    rewrite (same_handle m fl al s (context_stream c) Hok Hs Hin)
      by (unfold stream_index; simpl; congruence); simpl; by rewrite Ev.
Qed.

Lemma read_ok m fl al h buf rl tl :
  sm_ok m fl al -> Forall stream_ok (open_streams m) ->
  exists st buf' rl' tl' m', stream_manager_read heap m h buf rl tl = Some (st, buf', rl', tl', m') /\
    sm_ok m' fl al /\ rolling_count m' = rolling_count m /\ len buf' = len buf /\
    exists out, read_spec (open_streams m) h (len buf) st out (open_streams m') /\
      (st = FWU_STATUS_SUCCESS -> rl' = len out /\ take (Z.to_nat rl') buf' = out) /\
      (st <> FWU_STATUS_SUCCESS -> rl' = rl /\ out = []).
Proof.
  clear commit_image write_image. intros Hok Hst. unfold stream_manager_read.
  destruct (get_active_context_ok m fl al h Hok) as (r & -> & Hr). cbn [mbind option_bind].
  destruct r as [i|].
  2:{ eexists _, _, _, _, _. do 4 (split; [done|]). exists []. split; [by constructor|]. done. }
  destruct Hr as (Hi & c & Hc & Hh & Hin & Hv & Hidx). rewrite Hc. cbn [mbind option_bind].
  pose proof (proj1 (Forall_forall _ _) Hst _ Hin) as Hs. unfold stream_ok in Hs.
  rewrite <- Hv. simpl in Hs. destruct (variant c) as [|pos data n|store installer image] eqn:Ev; simpl.
  - exfalso. destruct (ok_data _ _ _ Hok i c Hc) as [_ Hd]. destruct (Hd Hi) as (Hne & _). by rewrite <- Hv in Hne.
  - destruct Hs as (Hp & Hn & b & Hb & Hbl). pose proof (len_nonneg buf).
    rewrite (wrap_small 64) by lia. rewrite Hb. cbn [mbind option_bind].
    replace (if n - pos <=? len buf then n - pos else len buf) with (Z.min (len buf) (n - pos))
      by (destruct (Z.leb_spec (n - pos) (len buf)); lia).
    set (k := Z.min (len buf) (n - pos)). assert (0 <= k <= len buf /\ pos + k <= n) as [Hk Hk'] by lia.
    rewrite load_is_slice by lia. cbn [mbind option_bind].
    pose proof (slice_len b pos k ltac:(lia) ltac:(lia) ltac:(lia)) as Hsl.
    destruct (store_ok buf 0 (slice b pos k)) as [buf' Hbuf]; [lia|lia|]. rewrite Hbuf.
    cbn [mbind option_bind].
    destruct (set_variant_ok m fl al i c (BufferVariant (pos + k) data n) Hok Hc Hi)
      as (m' & -> & Hok' & Hrc & Hs'); [by rewrite <- Hv|]. cbn [mbind option_bind].
    eexists _, _, _, _, _. split; [done|]. split; [done|]. split; [done|].
    split; [by eapply store_len|]. exists (slice b pos k). split.
    + rewrite Hs'. rewrite (map_ext_in _ (advance h k)).
      { eapply (read_buffer _ _ _ (context_stream c)); [done|done|done|done]. }
      intros s Hsin%list_elem_of_In. unfold advance.
      destruct (Z.eqb_spec (stream_index s) i) as [E|E].
      * rewrite (same_handle m fl al s (context_stream c) Hok Hsin Hin)
          by (unfold stream_index in *; simpl; congruence).
        simpl. rewrite Hh, Z.eqb_refl, Ev. done.
      * destruct (Z.eqb_spec (st_handle s) h) as [E2|]; [|done]. exfalso. apply E.
        unfold stream_index. congruence.
    + split; [|done]. intros _. split; [done|]. apply store_Some in Hbuf as (_ & _ & ->). simpl.
      apply take_app_length'. unfold len in Hsl. lia.
  - eexists _, _, _, _, _. do 4 (split; [done|]). exists []. split; [|done].
    eapply (read_install _ _ _ (context_stream c)); [done|done|]. simpl. by rewrite Ev.
Qed.

(** ** Sequences of operations *)

Inductive stream_op :=
  | OpenBuffer (data data_len : Z)
  | OpenInstall (store installer : Z) (image : image_info)
  | CloseStream (h : Z) (accepted : bool)
  | CancelStreams (t : fwu_stream_type)
  | IsOpen (t : fwu_stream_type)
  | WriteStream (h : Z) (data : option bytes)
  | ReadStream (h : Z) (buf : bytes).

(** The status (or truth value), the handle and the bytes an operation returns. *)
Record stream_reply := StreamReply { rep_status : Z; rep_handle : Z; rep_data : bytes }.

Definition manager_step m f (o : stream_op) : option (stream_reply * stream_manager * F) :=
  match o with
  | OpenBuffer data n =>
      '(st, h, m, f) ← stream_manager_open_buffer_stream commit_image m f data n 0;
      Some (StreamReply st h [], m, f)
  | OpenInstall store installer image =>
      '(st, h, m, f) ← stream_manager_open_install_stream commit_image m f store installer image 0;
      Some (StreamReply st h [], m, f)
  | CloseStream h acc =>
      '(st, m, f) ← stream_manager_close commit_image m f h acc;
      Some (StreamReply st 0 [], m, f)
  | CancelStreams t => m ← stream_manager_cancel_streams m t; Some (StreamReply 0 0 [], m, f)
  | IsOpen t =>
      b ← stream_manager_is_open_streams m t;
      Some (StreamReply (if b : bool then 1 else 0) 0 [], m, f)
  | WriteStream h data =>
      '(st, f) ← stream_manager_write write_image m f h data; Some (StreamReply st 0 [], m, f)
  | ReadStream h buf =>
      '(st, buf, rl, _, m) ← stream_manager_read heap m h buf 0 0;
      Some (StreamReply st 0 (take (Z.to_nat rl) buf), m, f)
  end.

Definition is_type (t : fwu_stream_type) (s : stream) : bool :=
  bool_decide (variant_type (st_variant s) = t).

(** One operation on the abstract manager; [count] is the rolling count. *)
Inductive stream_step : list stream * F * Z -> stream_op -> stream_reply ->
    list stream * F * Z -> Prop :=
  | step_open_buffer l f count data n h l' f' :
      open_spec (same_buffer data) (BufferVariant 0 data n) count l f h l' f' ->
      stream_step (l, f, count) (OpenBuffer data n) (StreamReply FWU_STATUS_SUCCESS h [])
        (l', f', u16 (count + 1))
  | step_open_install l f count store installer image h l' f' :
      open_spec (same_install store installer) (InstallVariant store installer image) count l f h l' f' ->
      stream_step (l, f, count) (OpenInstall store installer image)
        (StreamReply FWU_STATUS_SUCCESS h []) (l', f', u16 (count + 1))
  | step_close l f count h acc st l' f' :
      close_spec l f h acc st l' f' ->
      stream_step (l, f, count) (CloseStream h acc) (StreamReply st 0 []) (l', f', count)
  | step_cancel l f count t :
      stream_step (l, f, count) (CancelStreams t) (StreamReply 0 0 [])
        (filter (fun s => is_type t s = false) l, f, count)
  | step_is_open l f count t :
      stream_step (l, f, count) (IsOpen t)
        (StreamReply (if existsb (is_type t) l then 1 else 0) 0 []) (l, f, count)
  | step_write l f count h data st f' :
      write_spec l f h data st f' ->
      stream_step (l, f, count) (WriteStream h data) (StreamReply st 0 []) (l, f', count)
  | step_read l f count h buf st out l' :
      read_spec l h (len buf) st out l' ->
      stream_step (l, f, count) (ReadStream h buf) (StreamReply st 0 out) (l', f, count).

(** Buffers handed to the manager exist; the type asked about is a real one. *)
Definition stream_op_ok (o : stream_op) : Prop :=
  match o with
  | OpenBuffer data n => 0 <= n < 2 ^ 64 /\ exists b, heap data = Some b /\ n <= len b
  | CancelStreams t | IsOpen t => t <> FWU_STREAM_TYPE_NONE
  | _ => True
  end.

Lemma is_open_ok m fl al t :
  sm_ok m fl al -> t <> FWU_STREAM_TYPE_NONE ->
  stream_manager_is_open_streams m t = Some (existsb (is_type t) (open_streams m)).
Proof.
  clear commit_image write_image heap. intros Hok Ht. unfold stream_manager_is_open_streams.
  assert (forall n i, 0 <= i -> i + Z.of_nat n = 4 -> exists b, is_open_loop m t n i = Some b /\
    (b = true <-> exists j c, i <= j /\ nthZ (contexts m) j = Some c /\ type c = t)) as Hloop.
  { induction n as [|n IH]; intros i Hi Hn.
    - exists false. split; [done|]. split; [done|]. intros (j & c & Hj & Hc & _).
      pose proof (nthZ_Some _ _ _ Hc) as Hr. rewrite (ok_len _ _ _ Hok) in Hr.
      unfold FWU_STREAM_MANAGER_POOL_SIZE in Hr. lia.
    - simpl. destruct (nthZ_is_Some (contexts m) i) as [c Hc];
        [rewrite (ok_len _ _ _ Hok); unfold FWU_STREAM_MANAGER_POOL_SIZE; lia|].
      rewrite Hc. cbn [mbind option_bind]. case_bool_decide as Hct.
      + exists true. split; [done|]. split; [|done]. intros _. exists i, c. by split; [lia|].
      + destruct (IH (i + 1)) as (b & -> & Hb); [lia..|]. exists b. split; [done|]. rewrite Hb.
        split; intros (j & cj & Hj & Hcj & Htj); exists j, cj; [by split; [lia|]|].
        split; [|done]. assert (j <> i) by congruence. lia. }
  destruct (Hloop 4%nat 0) as (b & Hb & Hiff); [done..|].
  change (Z.to_nat FWU_STREAM_MANAGER_POOL_SIZE) with 4%nat. rewrite Hb. f_equal.
  apply eq_true_iff_eq. rewrite Hiff, existsb_exists. split.
  - intros (j & c & _ & Hc & Htc). exists (context_stream c).
    pose proof (nthZ_Some _ _ _ Hc) as Hr. rewrite (ok_len _ _ _ Hok) in Hr.
    destruct (ok_data _ _ _ Hok j c Hc) as [Hf Hd].
    assert (j ∈ al) as Hj.
    { assert (j ∈ fl ++ al) as [Hin|]%elem_of_app by (by apply (ok_all _ _ _ Hok)); [|done].
      apply Hf in Hin. congruence. }
    split.
    + apply list_elem_of_In. rewrite (sm_streams _ _ _ Hok). apply list_elem_of_omap. exists j.
      split; [done|]. unfold stream_at. by rewrite Hc.
    + unfold is_type. simpl. destruct (Hd Hj) as (_ & -> & _). by apply bool_decide_true.
  - intros (s & Hs%list_elem_of_In & Hty). unfold is_type in Hty. apply bool_decide_eq_true in Hty.
    destruct (stream_elem _ _ _ _ Hok Hs) as (j & c & Hj & Hc & -> & _ & Hv & _). exists j, c.
    pose proof (nthZ_Some _ _ _ Hc). split; [lia|]. split; [done|]. congruence.
Qed.

Lemma make_room_sub l f l0 f' s : make_room l f l0 f' -> s ∈ l0 -> s ∈ l.
Proof.
  clear write_image heap. intros Hr Hs. inversion Hr as [|l1 s1 st1 f1 Hlen Hl]; subst; [done|].
  apply elem_of_app. by left.
Qed.

Lemma open_streams_ok P v count l f h l' f' :
  open_spec P v count l f h l' f' -> stream_ok (Stream h v) -> Forall stream_ok l -> Forall stream_ok l'.
Proof.
  clear write_image. intros Ho Hv Hl. inversion Ho as [h0 l0 f0 Hroom]; subst. constructor; [done|].
  apply Forall_forall. intros s Hs. eapply make_room_sub in Hs; [|done].
  apply list_elem_of_filter in Hs as [_ Hs]. by eapply Forall_forall in Hl.
Qed.


Lemma read_streams_ok l h size st out l' :
  (forall s s', s ∈ l -> s' ∈ l -> st_handle s = st_handle s' -> s = s') ->
  0 <= size -> read_spec l h size st out l' -> Forall stream_ok l -> Forall stream_ok l'.
Proof.
  clear commit_image write_image. intros Huniq Hsz Hr Hl.
  inversion Hr as [s pos data n b Hs Hh Hv Hb| |]; subst; [|done..].
  apply Forall_forall. intros s' (s0 & -> & Hs0)%list_elem_of_fmap. unfold advance.
  pose proof (proj1 (Forall_forall _ _) Hl _ Hs0) as Hok.
  destruct (Z.eqb_spec (st_handle s0) (st_handle s)) as [E|]; [|done].
  apply Huniq in E as ->; [|done..]. rewrite Hv. unfold stream_ok in *. rewrite Hv in Hok. simpl.
  destruct Hok as (Hp & Hok). split; [lia|done].
Qed.

Lemma filter_streams_ok (P : stream -> Prop) `{!forall s, Decision (P s)} l :
  Forall stream_ok l -> Forall stream_ok (filter P l).
Proof.
  clear commit_image write_image. rewrite !Forall_forall. intros Hl s [_ Hs]%list_elem_of_filter. auto.
Qed.

Lemma close_streams_ok l f h acc st l' f' :
  close_spec l f h acc st l' f' -> Forall stream_ok l -> Forall stream_ok l'.
Proof.
  clear write_image. intros Hc Hl. inversion Hc; subst; [done|]. by apply filter_streams_ok.
Qed.

(** What the manager keeps: the pool is linked properly and buffer streams stay
    inside their buffers. *)
Definition manager_ok m : Prop :=
  (exists fl al, sm_ok m fl al) /\ Forall stream_ok (open_streams m).

Lemma cancel_streams_ok m fl al t :
  sm_ok m fl al -> t <> FWU_STREAM_TYPE_NONE ->
  exists m' fl' al', stream_manager_cancel_streams m t = Some m' /\ sm_ok m' fl' al' /\
    rolling_count m' = rolling_count m /\
    open_streams m' = filter (fun s => is_type t s = false) (open_streams m).
Proof.
  clear commit_image write_image heap. intros Hok Ht. unfold stream_manager_cancel_streams.
  set (p := fun c => bool_decide (type c = t)).
  assert (recognises p (is_type t)) as Hrec.
  { split; unfold p, is_type; simpl.
    - intros c ->. apply bool_decide_eq_false. congruence.
    - intros c Hv. by rewrite <- Hv. }
  destruct (cancel_all_ok p (is_type t) m fl al Hrec Hok) as (m1 & fl1 & al1 & Hc & Hok1 & Hrc1 & Hs1).
  by exists m1, fl1, al1.
Qed.

Lemma same_stream m fl al s s' :
  sm_ok m fl al -> s ∈ open_streams m -> s' ∈ open_streams m -> st_handle s = st_handle s' -> s = s'.
Proof.
  intros Hok Hs Hs' E. eapply same_handle; [done..|]. unfold stream_index. congruence.
Qed.

(** Where an operation on the manager does not return. *)
Definition step_stops l f (o : stream_op) : Prop :=
  match o with
  | OpenBuffer data _ => room_stops (filter (fun s => same_buffer data s = false) l) f
  | OpenInstall store installer _ =>
      room_stops (filter (fun s => same_install store installer s = false) l) f
  | CloseStream h acc => close_stops l f h acc
  | WriteStream h data => write_stops l f h data
  | CancelStreams _ | IsOpen _ | ReadStream _ _ => False
  end.

Lemma manager_step_ok m f o :
  manager_ok m -> stream_op_ok o ->
  match manager_step m f o with
  | Some (rep, m', f') => manager_ok m' /\
      stream_step (open_streams m, f, rolling_count m) o rep (open_streams m', f', rolling_count m')
  | None => step_stops (open_streams m) f o
  end.
Proof.
  intros [(fl & al & Hok) Hst] Ho.
  destruct o as [data n|store installer image|h acc|t|t|h data|h buf]; cbn [manager_step step_stops];
    simpl in Ho.
  - pose proof (open_buffer_ok m f fl al data n 0 Hok) as Hop. unfold opened in Hop.
    destruct (stream_manager_open_buffer_stream _ _ _ _ _ _) as [[[[st h] m'] f']|]; [|done].
    destruct Hop as (-> & fl' & al' & Hok' & Hrc & Hs). cbn [mbind option_bind].
    rewrite Hrc. split; [split; [by eauto|]|by constructor].
    eapply open_streams_ok; [done| |done]. destruct Ho as [? Ho]. by split; [lia|split; [lia|]].
  - pose proof (open_install_ok m f fl al store installer image 0 Hok) as Hop. unfold opened in Hop.
    destruct (stream_manager_open_install_stream _ _ _ _ _ _ _) as [[[[st h] m'] f']|]; [|done].
    destruct Hop as (-> & fl' & al' & Hok' & Hrc & Hs). cbn [mbind option_bind].
    rewrite Hrc. split; [split; [by eauto|]|by constructor]. by eapply open_streams_ok.
  - pose proof (close_ok m f fl al h acc Hok) as Hcl.
    destruct (stream_manager_close _ _ _ _ _) as [[[st m'] f']|]; [|done].
    destruct Hcl as (fl' & al' & Hok' & Hrc & Hs). cbn [mbind option_bind].
    rewrite Hrc. split; [split; [by eauto|]|by constructor]. by eapply close_streams_ok.
  - destruct (cancel_streams_ok m fl al t Hok Ho) as (m' & fl' & al' & -> & Hok' & Hrc & Hs).
    cbn [mbind option_bind]. rewrite Hrc, Hs. split; [split; [by eauto|]|by constructor].
    rewrite Hs. by apply filter_streams_ok.
  - rewrite (is_open_ok m fl al t Hok Ho). cbn [mbind option_bind].
    split; [by split; [eauto|]|]. constructor.
  - pose proof (write_ok m f fl al h data Hok) as Hw.
    destruct (stream_manager_write _ _ _ _ _) as [[st f']|]; [|done]. cbn [mbind option_bind].
    split; [by split; [eauto|]|by constructor].
  - destruct (read_ok m fl al h buf 0 0 Hok Hst)
      as (st & buf' & rl & tl & m' & -> & Hok' & Hrc & Hlen & out & Hs & Hsucc & Hfail).
    cbn [mbind option_bind]. rewrite Hrc.
    assert (take (Z.to_nat rl) buf' = out) as ->.
    { destruct (decide (st = FWU_STATUS_SUCCESS)) as [E|E]; [by apply Hsucc|].
      by destruct (Hfail E) as [-> ->]. }
    split; [split; [by eauto|]|by constructor].
    eapply read_streams_ok; [|apply (len_nonneg buf)|done|done]. intros s s'. by eapply same_stream.
Qed.

Lemma init_ok m :
  len (contexts m) = FWU_STREAM_MANAGER_POOL_SIZE ->
  exists m', stream_manager_init m = Some m' /\ manager_ok m' /\ open_streams m' = [] /\
    rolling_count m' = 0.
Proof.
  clear commit_image write_image. destruct m as [cs fr hd tl rc]. simpl. intros Hlen.
  destruct cs as [|c0 [|c1 [|c2 [|c3 [|]]]]]; try (unfold len in Hlen; simpl in Hlen; discriminate).
  2:{ unfold len, FWU_STREAM_MANAGER_POOL_SIZE in Hlen. simpl in Hlen. lia. }
  eexists. split; [reflexivity|]. split; [|done]. split; [|constructor]. exists [3; 2; 1; 0], [].
  constructor; simpl; try done.
  - repeat (split; [reflexivity|eexists; split; [reflexivity|]]). done.
  - apply NoDup_ListNoDup. repeat constructor; simpl; lia.
  - intros i. rewrite !elem_of_cons. unfold FWU_STREAM_MANAGER_POOL_SIZE.
    split; [intros [?|[?|[?|[?|[]%elem_of_nil]]]]; lia|]. intros Hi.
    assert (i = 3 \/ i = 2 \/ i = 1 \/ i = 0) by lia. tauto.
  - intros i c Hc. split; [|by intros ?%elem_of_nil]. intros Hi. apply nthZ_Some in Hc as Hr.
    unfold len in Hr. simpl in Hr.
    assert (i = 3 \/ i = 2 \/ i = 1 \/ i = 0) as [-> | [-> | [-> | ->]]] by lia;
      by injection Hc as <-.
Qed.

Fixpoint manager_run m f (os : list stream_op) : option (list stream_reply * stream_manager * F) :=
  match os with
  | [] => Some ([], m, f)
  | o :: os =>
      '(rep, m, f) ← manager_step m f o;
      '(reps, m, f) ← manager_run m f os;
      Some (rep :: reps, m, f)
  end.

Inductive stream_steps : list stream * F * Z -> list stream_op -> list stream_reply ->
    list stream * F * Z -> Prop :=
  | steps_nil a : stream_steps a [] [] a
  | steps_cons a b a' o os rep reps :
      stream_step a o rep b -> stream_steps b os reps a' ->
      stream_steps a (o :: os) (rep :: reps) a'.

(** The run is cut short by an operation that does not return, in the state that
    those before it led to. *)
Definition run_stops m f (os : list stream_op) : Prop :=
  exists os1 o os2 reps m1 f1, os = os1 ++ o :: os2 /\ manager_run m f os1 = Some (reps, m1, f1) /\
    manager_ok m1 /\
    stream_steps (open_streams m, f, rolling_count m) os1 reps (open_streams m1, f1, rolling_count m1) /\
    step_stops (open_streams m1) f1 o.

Lemma manager_run_ok m f os :
  manager_ok m -> Forall stream_op_ok os ->
  match manager_run m f os with
  | Some (reps, m', f') => manager_ok m' /\
      stream_steps (open_streams m, f, rolling_count m) os reps (open_streams m', f', rolling_count m')
  | None => run_stops m f os
  end.
Proof.
  intros Hm Hos. revert m f Hm. induction Hos as [|o os Ho Hos IH]; intros m f Hm; simpl.
  - split; [done|constructor].
  - pose proof (manager_step_ok m f o Hm Ho) as Hs.
    destruct (manager_step m f o) as [[[rep m1] f1]|] eqn:Est; cbn [mbind option_bind].
    2:{ exists [], o, os, [], m, f. do 3 (split; [done|]). split; [constructor|done]. }
    destruct Hs as [Hm1 Hs]. specialize (IH m1 f1 Hm1).
    destruct (manager_run m1 f1 os) as [[[reps m2] f2]|]; cbn [mbind option_bind].
    + destruct IH as [Hm2 Hss]. split; [done|]. by econstructor.
    + destruct IH as (os1 & o' & os2 & reps & m2 & f2 & -> & Hrun & Hm2 & Hss & Hstop).
      exists (o :: os1), o', os2, (rep :: reps), m2, f2. split; [done|]. simpl. rewrite Est.
      cbn [mbind option_bind]. rewrite Hrun. do 2 (split; [done|]). split; [|done]. by econstructor.
Qed.

(** ** Stale handles *)

Lemma wrap_add_l w x y : wrap w (wrap w x + y) = wrap w (x + y).
Proof. apply Zplus_mod_idemp_l. Qed.


Definition opens (os : list stream_op) : Z :=
  len (List.filter (fun o => match o with OpenBuffer _ _ | OpenInstall _ _ _ => true | _ => false end) os).

(** The operations that name a stream. *)
Definition names_handle (h : Z) (o : stream_op) : bool :=
  match o with
  | CloseStream h' _ | WriteStream h' _ | ReadStream h' _ => h' =? h
  | _ => false
  end.

(** None of the next [k] streams to be opened can get the handle. *)
Definition unused (h k count : Z) : Prop :=
  fits 16 count /\ forall i, 0 <= i < k -> u16 (count + i) <> Z.shiftr h 16.

Lemma unused_next h k count : unused h k count -> unused h (k - 1) (u16 (count + 1)).
Proof.
  intros [Hc Hk]. split; [by apply wrap_fits|]. intros i Hi. rewrite wrap_add_l.
  replace (count + 1 + i) with (count + (i + 1)) by lia. apply Hk. lia.
Qed.

(** A handle just handed out cannot come back within 2^16 - 1 openings. *)
Lemma unused_fresh h : fits 16 (Z.shiftr h 16) -> unused h 65535 (u16 (Z.shiftr h 16 + 1)).
Proof.
  intros Hf. split; [by apply wrap_fits|]. intros i Hi. rewrite wrap_add_l. unfold fits, wrap in *.
  change (2 ^ 16) with 65536 in *. intros E.
  pose proof (Z.div_mod (Z.shiftr h 16 + 1 + i) 65536). nia.
Qed.

Lemma step_unused a o rep b h k :
  stream_step a o rep b -> unused h k (snd a) -> unused h (k - opens [o]) (snd b).
Proof.
  unfold opens. intros Hs Ha. destruct Hs; simpl in *; rewrite ?Z.sub_0_r; try done;
    by apply unused_next.
Qed.

Lemma no_handle_filter l h (P : stream -> Prop) `{!forall s, Decision (P s)} :
  no_handle l h -> no_handle (filter P l) h.
Proof. intros Hl s [_ Hs]%list_elem_of_filter. by apply Hl. Qed.

Lemma without_no_handle l h : no_handle (without l h) h.
Proof. by intros s [Hs _]%list_elem_of_filter. Qed.

Lemma open_no_handle P v count l f h0 l' f' h k :
  open_spec P v count l f h0 l' f' -> unused h k count -> 1 <= k -> no_handle l h -> no_handle l' h.
Proof.
  clear write_image heap. intros Ho (Hc & Hk) Hk1 Hl. inversion Ho as [? l0 ? Hroom Hsh]; subst.
  intros s [->|Hs]%elem_of_cons; simpl.
  - intros ->. apply (Hk 0); [lia|]. rewrite Z.add_0_r. by apply wrap_small.
  - eapply make_room_sub in Hs; [|done]. apply list_elem_of_filter in Hs as [_ Hs]. by apply Hl.
Qed.

Lemma step_no_handle a o rep b h k :
  stream_step a o rep b -> unused h k (snd a) -> opens [o] <= k ->
  no_handle (fst (fst a)) h -> no_handle (fst (fst b)) h.
Proof.
  intros Hs Ha Hk Hl. unfold opens in *.
  destruct Hs as [? ? ? ? ? ? ? ? Ho|? ? ? ? ? ? ? ? ? Ho|? ? ? ? ? ? ? ? Hc| | | |? ? ? ? ? ? ? ? Hr];
    simpl in *; try done.
  - by eapply open_no_handle.
  - by eapply open_no_handle.
  - inversion Hc; subst; [done|]. by apply no_handle_filter.
  - by apply no_handle_filter.
  - inversion Hr; subst; [|done..].
    intros s' (s0 & -> & Hs0)%list_elem_of_fmap. unfold advance. specialize (Hl s0 Hs0).
    destruct (Z.eqb_spec (st_handle s0) (st_handle s)); [|done].
    by destruct (st_variant s0); simpl; try congruence.
Qed.

Lemma opens_cons o os : opens (o :: os) = opens [o] + opens os.
Proof. unfold opens. destruct o; simpl; rewrite ?len_cons; unfold len; simpl; lia. Qed.

Lemma opens_nonneg os : 0 <= opens os.
Proof. apply len_nonneg. Qed.

Lemma steps_unused a os reps b h k :
  stream_steps a os reps b -> unused h k (snd a) -> unused h (k - opens os) (snd b).
Proof.
  intros Hs. revert k. induction Hs as [a|a b a' o os rep reps Hs _ IH]; intros k Ha.
  - unfold opens. simpl. by rewrite Z.sub_0_r.
  - rewrite opens_cons, Z.sub_add_distr. eapply IH, step_unused; [done..].
Qed.

Lemma steps_no_handle a os reps b h k :
  stream_steps a os reps b -> unused h k (snd a) -> opens os <= k ->
  no_handle (fst (fst a)) h -> no_handle (fst (fst b)) h.
Proof.
  intros Hs. revert k. induction Hs as [a|a b a' o os rep reps Hs _ IH]; intros k Ha Hk Hl; [done|].
  rewrite opens_cons in Hk. pose proof (opens_nonneg os).
  apply (IH (k - opens [o])); [by eapply step_unused|lia|]. eapply step_no_handle; [done..|lia|done].
Qed.

Lemma unknown_handle a o rep b h :
  stream_step a o rep b -> names_handle h o = true -> no_handle (fst (fst a)) h ->
  rep = StreamReply FWU_STATUS_UNKNOWN 0 [] /\ b = a.
Proof.
  intros Hs Ho Hl. destruct Hs as [| |? ? ? ? ? ? ? ? Hc| | |? ? ? ? ? ? ? Hw|? ? ? ? ? ? ? ? Hr];
    simpl in *; try done; apply Z.eqb_eq in Ho as ->.
  - inversion Hc; subst; [done|]. by edestruct Hl.
  - inversion Hw; subst; [|done]. by edestruct Hl.
  - inversion Hr; subst; [..|done]; by edestruct Hl.
Qed.

Lemma opened_unused l f count o rep l' f' count' :
  stream_step (l, f, count) o rep (l', f', count') -> opens [o] = 1 -> fits 16 count ->
  unused (rep_handle rep) 65535 count'.
Proof.
  intros Hs Ho Hc. inversion Hs as [? ? ? ? ? ? ? ? Hop|? ? ? ? ? ? ? ? ? Hop| | | | |]; subst; try done;
    inversion Hop; subst; by apply unused_fresh.
Qed.

Lemma closed_no_handle l f count h acc rep l' f' count' :
  stream_step (l, f, count) (CloseStream h acc) rep (l', f', count') -> no_handle l' h.
Proof.
  intros Hs. inversion Hs as [| |? ? ? ? ? ? ? ? Hc| | | |]; subst.
  inversion Hc; subst; [done|]. apply without_no_handle.
Qed.

Lemma manager_run_app m f os1 os2 :
  manager_run m f (os1 ++ os2) =
  ('(r1, m, f) ← manager_run m f os1; '(r2, m, f) ← manager_run m f os2; Some (r1 ++ r2, m, f)).
Proof.
  revert m f. induction os1 as [|o os1 IH]; intros m f; simpl.
  - by destruct (manager_run m f os2) as [[[??]?]|].
  - destruct (manager_step m f o) as [[[rep m1] f1]|]; [|done]. simpl. rewrite IH.
    destruct (manager_run m1 f1 os1) as [[[r1 m2] f2]|]; [|done]. simpl.
    by destruct (manager_run m2 f2 os2) as [[[??]?]|].
Qed.

(** ** Properties *)

(** C24: the stream manager refines the list of open streams.  After
    stream_manager_init on any pool and over any firmware store, a sequence of
    operations gives the replies, the store calls and the open streams of the
    abstract manager: a list of at most four streams, most recently opened first,
    in which opening cancels the streams on the same buffer or installer and, when
    all four contexts are in use, closes the one opened first (reading and writing
    do not make a stream more recent).  The pool's links and handles stay
    consistent and buffer streams stay inside their buffers ([manager_ok]).  A
    sequence only fails to return where a commit or a write of the store does not
    return or the data to be written is not in memory; what precedes that operation
    is as described. *)
Theorem stream_manager_refines m f os :
  len (contexts m) = FWU_STREAM_MANAGER_POOL_SIZE -> Forall stream_op_ok os ->
  exists m0, stream_manager_init m = Some m0 /\ open_streams m0 = [] /\
    match manager_run m0 f os with
    | Some (reps, m', f') => manager_ok m' /\ (length (open_streams m') <= 4)%nat /\
        stream_steps ([], f, 0) os reps (open_streams m', f', rolling_count m')
    | None => run_stops m0 f os
    end.
Proof.
  intros Hlen Hos. destruct (init_ok m Hlen) as (m0 & Hi & Hok & Hs & Hc).
  exists m0. do 2 (split; [done|]). pose proof (manager_run_ok m0 f os Hok Hos) as Hr.
  destruct (manager_run m0 f os) as [[[reps m'] f']|]; [|done]. rewrite Hs, Hc in Hr.
  destruct Hr as [Hok' Hss]. split; [done|]. split; [|done].
  destruct Hok' as [(fl & al & Hm) _]. pose proof (sm_length _ _ _ Hm) as Hl.
  rewrite <- (length_map stream_index), (streams_index _ _ _ Hm). lia.
Qed.

(** A stale handle is rejected.  Once the stream an open call returned is
    closed, whatever the operations before and after that, every operation on its
    handle answers FWU_STATUS_UNKNOWN and changes nothing, as long as at most
    2^16 - 1 further streams were opened: reusing the context does not make the
    old handle valid again. *)
Theorem stale_handle_rejected m f o rep m1 f1 os1 acc os2 o' reps m2 f2 :
  manager_ok m -> opens [o] = 1 -> stream_op_ok o -> manager_step m f o = Some (rep, m1, f1) ->
  Forall stream_op_ok os1 -> Forall stream_op_ok os2 -> opens os1 + opens os2 <= 65535 ->
  names_handle (rep_handle rep) o' = true ->
  manager_run m1 f1 (os1 ++ CloseStream (rep_handle rep) acc :: os2) = Some (reps, m2, f2) ->
  exists m3, manager_step m2 f2 o' = Some (StreamReply FWU_STATUS_UNKNOWN 0 [], m3, f2) /\
    open_streams m3 = open_streams m2.
Proof.
  intros Hm Hop Ho Hstep Hos1 Hos2 Hn Ho' Hrun.
  pose proof (manager_step_ok m f o Hm Ho) as H1. rewrite Hstep in H1. destruct H1 as [Hm1 Hs].
  set (h := rep_handle rep) in *.
  assert (unused h 65535 (rolling_count m1)) as Hu.
  { destruct Hm as [(fl & al & Hsm) _]. eapply opened_unused; [done..|]. apply (ok_count _ _ _ Hsm). }
  rewrite manager_run_app in Hrun. pose proof (manager_run_ok m1 f1 os1 Hm1 Hos1) as Hr1.
  destruct (manager_run m1 f1 os1) as [[[r1 m1'] f1']|]; [|done]. destruct Hr1 as [Hm2 Hs1].
  cbn [mbind option_bind manager_run] in Hrun.
  pose proof (manager_step_ok m1' f1' (CloseStream h acc) Hm2 I) as Hr2.
  destruct (manager_step m1' f1' (CloseStream h acc)) as [[[rc m3] f3]|]; [|done].
  destruct Hr2 as [Hm3 Hs2]. cbn [mbind option_bind] in Hrun.
  pose proof (manager_run_ok m3 f3 os2 Hm3 Hos2) as Hr3.
  destruct (manager_run m3 f3 os2) as [[[r3 m4] f4]|]; [|done]. destruct Hr3 as [Hm4 Hs3].
  cbn [mbind option_bind] in Hrun. injection Hrun as _ -> ->.
  pose proof (steps_unused _ _ _ _ _ _ Hs1 Hu) as Hu2. pose proof (opens_nonneg os1).
  apply (step_unused _ _ _ _ _ _ Hs2) in Hu2 as Hu3. simpl in Hu2, Hu3.
  assert (no_handle (open_streams m2) h) as Hno.
  { apply (steps_no_handle _ _ _ _ h _ Hs3 Hu3); [change (opens [CloseStream h acc]) with 0; lia|].
    by eapply closed_no_handle. }
  assert (stream_op_ok o') as Hok' by (by destruct o').
  pose proof (manager_step_ok m2 f2 o' Hm4 Hok') as Hr4.
  destruct (manager_step m2 f2 o') as [[[rep' m5] f5]|].
  - destruct Hr4 as [_ Hs4]. destruct (unknown_handle _ _ _ _ h Hs4 Ho' Hno) as [-> Hb].
    injection Hb as Hb1 Hb2 Hb3. exists m5. by rewrite Hb2.
  - exfalso. destruct o'; simpl in Ho', Hr4; try done; apply Z.eqb_eq in Ho' as ->.
    + destruct Hr4 as (s & Hin & Hh & _). by apply (Hno s).
    + destruct Hr4 as (s & ? & ? & ? & Hin & Hh & _). by apply (Hno s).
Qed.
End Spec.

(** ** Examples *)

(** A store that logs commits and writes and stops at a write of a ninth byte; one
    buffer of six bytes at address 16. *)
Definition log_commit (f : list (Z * Z)) (store installer : Z) (image : image_info) (accepted : bool)
    : option (Z * list (Z * Z)) :=
  Some (FWU_STATUS_SUCCESS, f ++ [(installer, if accepted then 1 else 0)]).
Definition log_write (f : list (Z * Z)) (store installer : Z) (data : bytes)
    : option (Z * list (Z * Z)) :=
  if len data <=? 8 then Some (FWU_STATUS_SUCCESS, f ++ [(installer, len data)]) else None.
Definition sample_heap (a : Z) : option bytes := if a =? 16 then Some [1; 2; 3; 4; 5; 6] else None.

Definition blank_context : stream_context := StreamContext FWU_STREAM_TYPE_NONE 0 None None NoVariant.
Definition blank_manager : stream_manager :=
  StreamManager (replicate 4 blank_context) None None None 0.
Definition started_manager : stream_manager :=
  match stream_manager_init blank_manager with Some m => m | None => blank_manager end.

Definition five_installs : list stream_op :=
  [OpenInstall 1 10 (example_image 1); WriteStream 3 (Some [7; 8]); OpenBuffer 16 6; ReadStream 65538 [0; 0; 0; 0];
   ReadStream 65538 [0; 0; 0; 0]; OpenInstall 1 11 (example_image 1); OpenInstall 1 12 (example_image 1);
   OpenInstall 1 13 (example_image 1);
   WriteStream 3 (Some [9]); IsOpen FWU_STREAM_TYPE_BUFFER].

(** The fifth stream recycles the first, whose image is committed unaccepted. *)
Example five_installs_run :
  (fun '(reps, _, f) => (reps, f)) <$>
    manager_run log_commit log_write sample_heap started_manager [] five_installs
  = Some ([StreamReply 0 3 []; StreamReply 0 0 []; StreamReply 0 65538 [];
           StreamReply 0 0 [1; 2; 3; 4]; StreamReply 0 0 [5; 6]; StreamReply 0 131073 [];
           StreamReply 0 196608 []; StreamReply 0 262147 []; StreamReply FWU_STATUS_UNKNOWN 0 [];
           StreamReply 1 0 []], [(10, 2); (10, 0)]).
Proof. vm_compute. reflexivity. Qed.

(** The second write does not return. *)
Example overlong_write_stops :
  manager_run log_commit log_write sample_heap started_manager []
    [OpenInstall 1 10 (example_image 1); WriteStream 3 (Some (fill 7 8)); WriteStream 3 (Some (fill 7 9))]
  = None.
Proof. vm_compute. reflexivity. Qed.

Lemma stream_manager_refines_witness :
  exists m0, stream_manager_init blank_manager = Some m0 /\ open_streams m0 = [] /\
    match manager_run log_commit log_write sample_heap m0 [] five_installs with
    | Some (reps, m', f') => manager_ok sample_heap m' /\ (length (open_streams m') <= 4)%nat /\
        stream_steps log_commit log_write sample_heap ([], [], 0) five_installs reps
          (open_streams m', f', rolling_count m')
    | None => run_stops log_commit log_write sample_heap m0 [] five_installs
    end.
Proof.
  apply (stream_manager_refines log_commit log_write sample_heap blank_manager [] five_installs).
  - reflexivity.
  - repeat constructor; simpl; try done. exists [1; 2; 3; 4; 5; 6]. split; [done|]. by vm_compute.
Defined.

Definition first_open : stream_reply * stream_manager * list (Z * Z) :=
  default (StreamReply 1 0 [], started_manager, [])
    (manager_step log_commit log_write sample_heap started_manager [] (OpenInstall 1 10 (example_image 1))).

Definition reopened : list stream_reply * stream_manager * list (Z * Z) :=
  default ([], started_manager, [])
    (manager_run log_commit log_write sample_heap (snd (fst first_open)) (snd first_open)
      ([WriteStream 3 (Some [7])] ++ CloseStream 3 true :: [OpenInstall 1 10 (example_image 1)])).

Lemma stale_handle_rejected_witness :
  exists m3, manager_step log_commit log_write sample_heap (snd (fst reopened)) (snd reopened)
      (WriteStream 3 (Some [9])) = Some (StreamReply FWU_STATUS_UNKNOWN 0 [], m3, snd reopened) /\
    open_streams m3 = open_streams (snd (fst reopened)).
Proof.
  apply (stale_handle_rejected log_commit log_write sample_heap started_manager []
    (OpenInstall 1 10 (example_image 1)) (fst (fst first_open)) (snd (fst first_open)) (snd first_open)
    [WriteStream 3 (Some [7])] true [OpenInstall 1 10 (example_image 1)] (WriteStream 3 (Some [9]))
    (fst (fst reopened))).
  - destruct (init_ok sample_heap blank_manager) as (m0 & Hi & Hok & _); [reflexivity|].
    unfold started_manager. by rewrite Hi.
  - reflexivity.
  - done.
  - vm_compute. reflexivity.
  - by repeat constructor.
  - by repeat constructor.
  - vm_compute. discriminate.
  - reflexivity.
  - vm_compute. reflexivity.
Defined.
