(* ===== verification/UpdateAgent.v ===== *)
(** * components/service/fwu/agent/update_agent.c: the update agent

    The agent coordinates firmware updates applied to a firmware store: it keeps
    the state of the update flow, the directory of images and the streams a client
    has open, and refuses operations that do not fit the state.

    The store is an interface ([fw_store_ops], fw_store.h) with the laws its
    clients rely on ([FwStoreLaws]); [F] is the state of a store.  An operation of
    the store that does not return, as after a failed assertion, is None, and so is
    the operation of the agent that called it: that the agent returns is proved from
    laws that only promise a return where the update flow allows the call.  The
    agent's only other memory is the buffer for the serialized image directory; its
    address is [image_dir_buf].  An operation on the agent takes and returns the
    pair of the agent and its store. *)
From S2P Require Import Prelude Status Uuid FwDirectory StreamManager.

(** ** The firmware store as the agent sees it *)

(** Every operation is None where it does not return.  [op_select_installer] returns
    the status and *installer; [op_export] returns None for false, otherwise *status,
    *data and *data_len.  [store_memory] gives the contents of the buffers the store
    exports. *)
Record fw_store_ops (F : Type) := FwStoreOps {
  op_synchronize : F -> fw_directory -> Z -> option (Z * fw_directory * F);
  op_begin_install : F -> option (Z * F);
  op_cancel_install : F -> option F;
  op_finalize_install : F -> option (Z * F);
  op_select_installer : F -> image_info -> option (Z * Z * F);
  op_write_image : F -> Z -> bytes -> option (Z * F);
  op_commit_image : F -> Z -> image_info -> bool -> option (Z * F);
  op_notify_accepted : F -> image_info -> option (bool * F);
  op_is_accepted : F -> image_info -> option bool;
  op_is_trial : F -> option bool;
  op_commit_to_update : F -> option (Z * F);
  op_revert_to_previous : F -> option (Z * F);
  op_export : F -> bytes -> option (option (Z * Z * Z) * F);
  store_memory : F -> Z -> option bytes
}.

Arguments op_synchronize {F}.
Arguments op_begin_install {F}.
Arguments op_cancel_install {F}.
Arguments op_finalize_install {F}.
Arguments op_select_installer {F}.
Arguments op_write_image {F}.
Arguments op_commit_image {F}.
Arguments op_notify_accepted {F}.
Arguments op_is_accepted {F}.
Arguments op_is_trial {F}.
Arguments op_commit_to_update {F}.
Arguments op_revert_to_previous {F}.
Arguments op_export {F}.
Arguments store_memory {F}.

(** ** The agent *)

Inductive fwu_state :=
  | FWU_STATE_DEINITIALZED
  | FWU_STATE_INITIALIZING
  | FWU_STATE_REGULAR
  | FWU_STATE_STAGING
  | FWU_STATE_TRIAL_PENDING
  | FWU_STATE_TRIAL.

#[export] Instance fwu_state_eq_dec : EqDecision fwu_state.
Proof. solve_decision. Defined.

(** [image_dir_buf] is the address of the directory buffer and [dir_contents]
    what it holds. *)
Record generic_update_agent := GenericUpdateAgent {
  state : fwu_state;
  fw_store : Z;
  directory : fw_directory;
  streams : stream_manager;
  image_dir_buf : Z;
  dir_contents : bytes;
  image_dir_buf_size : Z
}.

Implicit Types a : generic_update_agent.

Definition with_state a (s : fwu_state) : generic_update_agent :=
  GenericUpdateAgent s (fw_store a) (directory a) (streams a) (image_dir_buf a) (dir_contents a)
    (image_dir_buf_size a).
Definition with_streams a (m : stream_manager) : generic_update_agent :=
  GenericUpdateAgent (state a) (fw_store a) (directory a) m (image_dir_buf a) (dir_contents a)
    (image_dir_buf_size a).
Definition with_dir_contents a (b : bytes) : generic_update_agent :=
  GenericUpdateAgent (state a) (fw_store a) (directory a) (streams a) (image_dir_buf a) b
    (image_dir_buf_size a).
Definition with_directory a (d : fw_directory) : generic_update_agent :=
  GenericUpdateAgent (state a) (fw_store a) d (streams a) (image_dir_buf a) (dir_contents a)
    (image_dir_buf_size a).
Definition with_dir_buf a (addr : Z) (b : bytes) (size : Z) : generic_update_agent :=
  GenericUpdateAgent (state a) (fw_store a) (directory a) (streams a) addr b size.

Record fwu_discovery_result := FwuDiscoveryResult {
  service_status : Z;
  version_major : Z;
  version_minor : Z;
  max_payload_size : Z;
  dr_flags : Z;
  vendor_specific_flags : Z
}.

Definition FWU_PROTOCOL_VERSION_MAJOR : Z := 1.
Definition FWU_PROTOCOL_VERSION_MINOR : Z := 0.

(** "deee58d9-5147-4ad3-a290-77666e2341a5" with its terminator. *)
Definition FWU_DIRECTORY_CANONICAL_UUID : bytes :=
  [100; 101; 101; 101; 53; 56; 100; 57; 45; 53; 49; 52; 55; 45; 52; 97; 100; 51; 45; 97; 50;
   57; 48; 45; 55; 55; 54; 54; 54; 101; 50; 51; 52; 49; 97; 53; 0].

(** The octets of that UUID in GUID order. *)
Definition FWU_DIRECTORY_GUID : bytes :=
  [217; 88; 238; 222; 71; 81; 211; 74; 162; 144; 119; 102; 110; 35; 65; 165].

Section Agent.
Context {F : Type} (ops : fw_store_ops F).
Implicit Types f : F.

(** The store's operations as the stream manager calls them: there is one store. *)
Definition agent_commit_image f (store installer : Z) (image : image_info) (accepted : bool) :=
  op_commit_image ops f installer image accepted.
Definition agent_write_image f (store installer : Z) (data : bytes) :=
  op_write_image ops f installer data.

Definition agent_heap a f (addr : Z) : option bytes :=
  if addr =? image_dir_buf a then Some (dir_contents a) else store_memory ops f addr.

Definition discover a f : Z * fwu_discovery_result :=
  (FWU_STATUS_SUCCESS,
   FwuDiscoveryResult 0 FWU_PROTOCOL_VERSION_MAJOR FWU_PROTOCOL_VERSION_MINOR 0 0 0).

Definition cancel_staging a f : option (Z * generic_update_agent * F) :=
  if bool_decide (state a = FWU_STATE_STAGING) then
    m ← stream_manager_cancel_streams (streams a) FWU_STREAM_TYPE_INSTALL;
    f ← op_cancel_install ops f;
    Some (FWU_STATUS_SUCCESS, with_state (with_streams a m) FWU_STATE_REGULAR, f)
  else Some (FWU_STATUS_DENIED, a, f).

Definition begin_staging a f (vendor_flags partial_update_count : Z) (update_guid : bytes)
    : option (Z * generic_update_agent * F) :=
  '(_, a, f) ← cancel_staging a f;
  if bool_decide (state a = FWU_STATE_REGULAR) then
    '(status, f) ← op_begin_install ops f;
    Some (status, (if status =? FWU_STATUS_SUCCESS then with_state a FWU_STATE_STAGING else a), f)
  else Some (FWU_STATUS_DENIED, a, f).

Definition end_staging a f : option (Z * generic_update_agent * F) :=
  if bool_decide (state a = FWU_STATE_STAGING) then
    any_uncommitted ← stream_manager_is_open_streams (streams a) FWU_STREAM_TYPE_INSTALL;
    if negb any_uncommitted then
      '(status, f) ← op_finalize_install ops f;
      Some (status,
            (if status =? FWU_STATUS_SUCCESS then with_state a FWU_STATE_TRIAL_PENDING else a), f)
    else Some (FWU_STATUS_BUSY, a, f)
  else Some (FWU_STATUS_DENIED, a, f).

Definition accept a f (image_type_uuid : bytes) : option (Z * generic_update_agent * F) :=
  if bool_decide (state a = FWU_STATE_TRIAL) then
    image ← fw_directory_find_image_info (directory a) image_type_uuid;
    match image with
    | Some image =>
        '(all_accepted, f) ← op_notify_accepted ops f image;
        if all_accepted : bool then
          '(status, f) ← op_commit_to_update ops f;
          Some (status, with_state a FWU_STATE_REGULAR, f)
        else Some (FWU_STATUS_SUCCESS, a, f)
    | None => Some (FWU_STATUS_UNKNOWN, a, f)
    end
  else Some (FWU_STATUS_DENIED, a, f).

Definition select_previous a f : option (Z * generic_update_agent * F) :=
  if bool_decide (state a = FWU_STATE_TRIAL) || bool_decide (state a = FWU_STATE_TRIAL_PENDING) then
    '(status, f) ← op_revert_to_previous ops f;
    Some (status, with_state a FWU_STATE_REGULAR, f)
  else Some (FWU_STATUS_DENIED, a, f).

(** The open handlers return false as None, and otherwise *status and *handle. *)
Definition open_image_directory a f (uuid : bytes) (h : Z)
    : option (option (Z * Z) * generic_update_agent * F) :=
  target_uuid ← uuid_guid_octets_from_canonical (fill 0 16) (fill 0 16) FWU_DIRECTORY_CANONICAL_UUID;
  equal ← uuid_is_equal uuid target_uuid;
  if equal : bool then
    '(status, b, serialized_len) ←
      img_dir_serializer_serialize (directory a) (op_is_accepted ops f) (dir_contents a)
        (image_dir_buf_size a);
    let a := with_dir_contents a b in
    if status =? FWU_STATUS_SUCCESS then
      '(status, h, m, f) ←
        stream_manager_open_buffer_stream agent_commit_image (streams a) f (image_dir_buf a)
          serialized_len h;
      Some (Some (status, h), with_streams a m, f)
    else Some (Some (status, h), a, f)
  else Some (None, a, f).

Definition open_fw_store_object a f (uuid : bytes) (h : Z)
    : option (option (Z * Z) * generic_update_agent * F) :=
  '(exported, f) ← op_export ops f uuid;
  match exported with
  | Some (status, exported_data, exported_data_len) =>
      if status =? FWU_STATUS_SUCCESS then
        '(status, h, m, f) ←
          stream_manager_open_buffer_stream agent_commit_image (streams a) f exported_data
            exported_data_len h;
        Some (Some (status, h), with_streams a m, f)
      else Some (Some (status, h), a, f)
  | None => Some (None, a, f)
  end.

Definition open_fw_image a f (uuid : bytes) (h : Z)
    : option (option (Z * Z) * generic_update_agent * F) :=
  image ← fw_directory_find_image_info (directory a) uuid;
  match image with
  | Some image =>
      if bool_decide (state a = FWU_STATE_STAGING) then
        '(status, installer, f) ← op_select_installer ops f image;
        if status =? FWU_STATUS_SUCCESS then
          '(status, h, m, f) ←
            stream_manager_open_install_stream agent_commit_image (streams a) f (fw_store a)
              installer image h;
          Some (Some (status, h), with_streams a m, f)
        else Some (Some (status, h), a, f)
      else Some (Some (FWU_STATUS_DENIED, h), a, f)
  | None => Some (None, a, f)
  end.

(** Returns the status and *handle. *)
Definition open a f (uuid : bytes) (op_type h : Z) : option (Z * Z * generic_update_agent * F) :=
  '(r, a, f) ← open_image_directory a f uuid h;
  match r with
  | Some (status, h) => Some (status, h, a, f)
  | None =>
      '(r, a, f) ← open_fw_store_object a f uuid h;
      match r with
      | Some (status, h) => Some (status, h, a, f)
      | None =>
          '(r, a, f) ← open_fw_image a f uuid h;
          match r with
          | Some (status, h) => Some (status, h, a, f)
          | None => Some (FWU_STATUS_UNKNOWN, h, a, f)
          end
      end
  end.

(** Returns the status, *progress and *total_work. *)
Definition commit a f (h : Z) (accepted : bool) (max_atomic_len progress : Z)
    : option (Z * Z * Z * generic_update_agent * F) :=
  '(result, m, f) ← stream_manager_close agent_commit_image (streams a) f h accepted;
  Some (result, (if result =? 0 then 1 else progress), 1, with_streams a m, f).

Definition write_stream a f (h : Z) (data : option bytes) : option (Z * generic_update_agent * F) :=
  '(status, f) ← stream_manager_write agent_write_image (streams a) f h data;
  Some (status, a, f).

(** Returns the status, the buffer, *read_len and *total_len. *)
Definition read_stream a f (h : Z) (buf : bytes) (read_len total_len : Z)
    : option (Z * bytes * Z * Z * generic_update_agent * F) :=
  '(status, buf, read_len, total_len, m) ←
    stream_manager_read (agent_heap a f) (streams a) h buf read_len total_len;
  Some (status, buf, read_len, total_len, with_streams a m, f).

End Agent.

(** ** update_agent_interface.c: dispatch through the interface *)

(** A method that is NULL is [None].  [C] is what the methods change: the
    context and what it points to.  The data a client writes is None where it is not
    in memory. *)
Record update_agent_interface (C : Type) := UpdateAgentInterface {
  if_discover : option (C -> Z * fwu_discovery_result);
  if_begin_staging : option (C -> Z -> Z -> bytes -> option (Z * C));
  if_end_staging : option (C -> option (Z * C));
  if_cancel_staging : option (C -> option (Z * C));
  if_open : option (C -> bytes -> Z -> Z -> option (Z * Z * C));
  if_write_stream : option (C -> Z -> option bytes -> option (Z * C));
  if_read_stream : option (C -> Z -> bytes -> Z -> Z -> option (Z * bytes * Z * Z * C));
  if_commit : option (C -> Z -> bool -> Z -> Z -> Z -> option (Z * Z * Z * C));
  if_accept_image : option (C -> bytes -> option (Z * C));
  if_select_previous : option (C -> option (Z * C))
}.

Arguments UpdateAgentInterface {C}.
Arguments if_discover {C}.
Arguments if_begin_staging {C}.
Arguments if_end_staging {C}.
Arguments if_cancel_staging {C}.
Arguments if_open {C}.
Arguments if_write_stream {C}.
Arguments if_read_stream {C}.
Arguments if_commit {C}.
Arguments if_accept_image {C}.
Arguments if_select_previous {C}.

Section Interface.
Context {C : Type} (i : update_agent_interface C).
Implicit Types c : C.

(** *result is returned with the status; it is unchanged where there is no method. *)
Definition update_agent_discover c (result : fwu_discovery_result) : Z * fwu_discovery_result :=
  match if_discover i with
  | None => (FWU_STATUS_NOT_AVAILABLE, result)
  | Some method => method c
  end.

Definition update_agent_begin_staging c (vendor_flags partial_update_count : Z) (update_guid : bytes)
    : option (Z * C) :=
  match if_begin_staging i with
  | None => Some (FWU_STATUS_NOT_AVAILABLE, c)
  | Some method => method c vendor_flags partial_update_count update_guid
  end.

Definition update_agent_end_staging c : option (Z * C) :=
  match if_end_staging i with
  | None => Some (FWU_STATUS_NOT_AVAILABLE, c)
  | Some method => method c
  end.

Definition update_agent_cancel_staging c : option (Z * C) :=
  match if_cancel_staging i with
  | None => Some (FWU_STATUS_NOT_AVAILABLE, c)
  | Some method => method c
  end.

Definition update_agent_open c (uuid : bytes) (op_type h : Z) : option (Z * Z * C) :=
  match if_open i with
  | None => Some (FWU_STATUS_NOT_AVAILABLE, h, c)
  | Some method => method c uuid op_type h
  end.

Definition update_agent_write_stream c (h : Z) (data : option bytes) : option (Z * C) :=
  match if_write_stream i with
  | None => Some (FWU_STATUS_NOT_AVAILABLE, c)
  | Some method => method c h data
  end.

Definition update_agent_read_stream c (h : Z) (buf : bytes) (read_len total_len : Z)
    : option (Z * bytes * Z * Z * C) :=
  match if_read_stream i with
  | None => Some (FWU_STATUS_NOT_AVAILABLE, buf, read_len, total_len, c)
  | Some method => method c h buf read_len total_len
  end.

Definition update_agent_commit c (h : Z) (accepted : bool) (max_atomic_len progress total_work : Z)
    : option (Z * Z * Z * C) :=
  match if_commit i with
  | None => Some (FWU_STATUS_NOT_AVAILABLE, progress, total_work, c)
  | Some method => method c h accepted max_atomic_len progress total_work
  end.

Definition update_agent_accept_image c (image_type_uuid : bytes) : option (Z * C) :=
  match if_accept_image i with
  | None => Some (FWU_STATUS_NOT_AVAILABLE, c)
  | Some method => method c image_type_uuid
  end.

Definition update_agent_select_previous c : option (Z * C) :=
  match if_select_previous i with
  | None => Some (FWU_STATUS_NOT_AVAILABLE, c)
  | Some method => method c
  end.

End Interface.

(** The interface of the generic agent. *)
Definition as_context {F} (r : option (Z * generic_update_agent * F))
    : option (Z * (generic_update_agent * F)) :=
  '(st, a, f) ← r; Some (st, (a, f)).

Definition interface {F} (ops : fw_store_ops F) : update_agent_interface (generic_update_agent * F) :=
  UpdateAgentInterface
    (Some (fun '(a, f) => discover a f))
    (Some (fun '(a, f) flags count guid => as_context (begin_staging ops a f flags count guid)))
    (Some (fun '(a, f) => as_context (end_staging ops a f)))
    (Some (fun '(a, f) => as_context (cancel_staging ops a f)))
    (Some (fun '(a, f) uuid op_type h =>
             '(st, h, a, f) ← open ops a f uuid op_type h; Some (st, h, (a, f))))
    (Some (fun '(a, f) h data => as_context (write_stream ops a f h data)))
    (Some (fun '(a, f) h buf rl tl =>
             '(st, buf, rl, tl, a, f) ← read_stream ops a f h buf rl tl; Some (st, buf, rl, tl, (a, f))))
    (Some (fun '(a, f) h acc max p _ =>
             '(st, p, t, a, f) ← commit ops a f h acc max p; Some (st, p, t, (a, f))))
    (Some (fun '(a, f) uuid => as_context (accept ops a f uuid)))
    (Some (fun '(a, f) => as_context (select_previous ops a f))).

(** ** Initialization and release *)

(** What malloc and calloc will answer, and how many blocks are allocated. *)
Record allocator := Allocator { live : Z; outcomes : list bool }.

Definition allocate (al : allocator) : bool * allocator :=
  match outcomes al with
  | true :: os => (true, Allocator (live al + 1) os)
  | _ :: os => (false, Allocator (live al) os)
  | [] => (false, al)
  end.

Definition release (al : allocator) : allocator := Allocator (live al - 1) (outcomes al).

(** A context as calloc leaves it; 0 is the NULL address. *)
Definition zero_agent : generic_update_agent :=
  GenericUpdateAgent FWU_STATE_DEINITIALZED 0
    (FwDirectory (BootInfo 0 0 0) 0
      (replicate (Z.to_nat FWU_MAX_FW_DIRECTORY_ENTRIES) zero_image_info))
    (StreamManager (replicate 4 (StreamContext FWU_STREAM_TYPE_NONE 0 None None NoVariant))
      None None None 0) 0 [] 0.

Definition deinit_context (al : allocator) a : allocator :=
  let al := if image_dir_buf a =? 0 then al else release al in release al.

Definition update_agent_deinit (al : allocator) a : allocator := release (deinit_context al a).

Section Init.
Context {F : Type} (ops : fw_store_ops F).
(** The inspector, the address of the store, and the address and the indeterminate
    contents of the block malloc returns. *)
Context (fw_inspect_method : fw_directory -> Z -> Z * fw_directory)
        (store_address dir_address : Z) (indeterminate : Z -> bytes).

(** Returns the agent's context, or None for NULL. *)
Definition update_agent_init (al : allocator) (f : F) (boot_index : Z)
    : option (option generic_update_agent * allocator * F) :=
  let '(ok, al) := allocate al in
  if negb ok then Some (None, al, f)
  else
    let a := with_state zero_agent FWU_STATE_INITIALIZING in
    let a := GenericUpdateAgent (state a) store_address (directory a) (streams a) 0 [] 0 in
    m ← stream_manager_init (streams a);
    let a := with_directory (with_streams a m) fw_directory_init in
    let '(status, d) := fw_inspect_method (directory a) boot_index in
    let a := with_directory a d in
    if negb (status =? FWU_STATUS_SUCCESS) then Some (None, deinit_context al a, f)
    else
      '(status, d, f) ← op_synchronize ops f (directory a) boot_index;
      let a := with_directory a d in
      if negb (status =? FWU_STATUS_SUCCESS) then Some (None, deinit_context al a, f)
      else
        let size := img_dir_serializer_get_len (directory a) in
        let '(ok, al) := allocate al in
        if negb ok then Some (None, deinit_context al (with_dir_buf a 0 [] size), f)
        else
          let a := with_dir_buf a dir_address (indeterminate size) size in
          is_trial ← op_is_trial ops f;
          let a := with_state a (if is_trial : bool then FWU_STATE_TRIAL else FWU_STATE_REGULAR) in
          let '(ok, al) := allocate al in
          if negb ok then Some (None, deinit_context al a, f)
          else Some (Some a, al, f).

End Init.

(** ** The update flow *)

(** The calls of the store that matter to the flow, with their results. *)
Inductive store_event :=
  | EBeginInstall (st : Z)
  | ECancelInstall
  | EFinalizeInstall (st : Z)
  | ESelectInstaller (st installer : Z)
  | EWriteImage (installer : Z) (data : bytes)
  | ECommitImage (installer : Z) (accepted : bool)
  | ENotifyAccepted (all_accepted : bool)
  | ECommitToUpdate
  | ERevertToPrevious.

(** The flow of an update.  While staging, it keeps the installers that have an
    image open for writing. *)
Inductive flow :=
  | Regular
  | Staging (installers : list Z)
  | TrialPending
  | Trial
  | Accepted.

Definition drop_installer (i : Z) (l : list Z) : list Z := filter (fun j => j <> i) l.

Definition flow_step (p : flow) (e : store_event) : option flow :=
  match p, e with
  | Regular, EBeginInstall st => Some (if st =? FWU_STATUS_SUCCESS then Staging [] else Regular)
  | Staging _, ECancelInstall => Some Regular
  | Staging l, EFinalizeInstall st =>
      if bool_decide (l = []) then Some (if st =? FWU_STATUS_SUCCESS then TrialPending else p)
      else None
  | Staging l, ESelectInstaller st i =>
      Some (Staging (if st =? FWU_STATUS_SUCCESS then i :: drop_installer i l else l))
  | Staging l, EWriteImage i _ => if bool_decide (i ∈ l) then Some (Staging l) else None
  | Staging l, ECommitImage i _ =>
      if bool_decide (i ∈ l) then Some (Staging (drop_installer i l)) else None
  | Trial, ENotifyAccepted all => Some (if all : bool then Accepted else Trial)
  | Accepted, ECommitToUpdate => Some Regular
  | Trial, ERevertToPrevious => Some Regular
  | TrialPending, ERevertToPrevious => Some Regular
  | _, _ => None
  end.

Fixpoint flow_run (p : flow) (es : list store_event) : option flow :=
  match es with
  | [] => Some p
  | e :: es => p ← flow_step p e; flow_run p es
  end.

(** ** What the agent relies on *)

(** A call of the store, and what performing it adds to the events. *)
Inductive store_call :=
  | CallBegin
  | CallCancel
  | CallFinalize
  | CallSelect (image : image_info)
  | CallWrite (installer : Z) (data : bytes)
  | CallCommit (installer : Z) (image : image_info) (accepted : bool)
  | CallNotify (image : image_info)
  | CallCommitToUpdate
  | CallRevert
  | CallExport (uuid : bytes).

Definition perform {F} (ops : fw_store_ops F) (f : F) (c : store_call) : option (list store_event * F) :=
  match c with
  | CallBegin => '(st, f) ← op_begin_install ops f; Some ([EBeginInstall st], f)
  | CallCancel => f ← op_cancel_install ops f; Some ([ECancelInstall], f)
  | CallFinalize => '(st, f) ← op_finalize_install ops f; Some ([EFinalizeInstall st], f)
  | CallSelect image => '(st, i, f) ← op_select_installer ops f image; Some ([ESelectInstaller st i], f)
  | CallWrite i data => '(_, f) ← op_write_image ops f i data; Some ([EWriteImage i data], f)
  | CallCommit i image acc => '(_, f) ← op_commit_image ops f i image acc; Some ([ECommitImage i acc], f)
  | CallNotify image => '(all, f) ← op_notify_accepted ops f image; Some ([ENotifyAccepted all], f)
  | CallCommitToUpdate => '(_, f) ← op_commit_to_update ops f; Some ([ECommitToUpdate], f)
  | CallRevert => '(_, f) ← op_revert_to_previous ops f; Some ([ERevertToPrevious], f)
  | CallExport uuid => '(_, f) ← op_export ops f uuid; Some ([], f)
  end.

(** An image as fw_directory_add_image_info leaves it in the directory. *)
Definition indexed (i : image_info) : Prop := 0 <= image_index i < FWU_MAX_FW_DIRECTORY_ENTRIES.

(** The calls the flow allows. *)
Definition flow_allows (p : flow) (c : store_call) : Prop :=
  match p, c with
  | Regular, CallBegin | Staging _, CallCancel | Accepted, CallCommitToUpdate => True
  | Trial, CallRevert | TrialPending, CallRevert => True
  | Staging l, CallFinalize => l = []
  | Staging _, CallSelect image | Trial, CallNotify image => indexed image
  | Staging l, CallWrite i _ => i ∈ l
  | Staging l, CallCommit i image _ => i ∈ l /\ indexed image
  | _, CallExport uuid => len uuid = 16
  | _, _ => False
  end.

(** Buffers of one memory are at least as long in the other. *)
Definition memory_le (h h' : Z -> option bytes) : Prop :=
  forall addr b, h addr = Some b -> exists b', h' addr = Some b' /\ len b <= len b'.

(** [store_ok p] holds of a store that is ready for the calls the flow allows at
    [p], and [store_fresh d boot_index] of one that can be synchronized with the
    directory [d].  The laws: a ready store returns from an allowed call, is ready for
    what follows it and keeps its memory, and it says which images are accepted;
    exported buffers are valid and not the agent's buffer at [dir_address];
    synchronizing returns, does not change the images of the directory and leaves the
    store ready if it succeeds. *)
Class FwStoreLaws {F} (ops : fw_store_ops F) (dir_address : Z) (store_ok : flow -> F -> Prop)
    (store_fresh : fw_directory -> Z -> F -> Prop) : Prop := {
  call_returns p f c : store_ok p f -> flow_allows p c ->
    exists es f' p', perform ops f c = Some (es, f') /\ flow_run p es = Some p' /\ store_ok p' f' /\
      memory_le (store_memory ops f) (store_memory ops f');
  accepted_returns p f image : store_ok p f -> indexed image -> is_Some (op_is_accepted ops f image);
  export_valid p f uuid data n f' : store_ok p f -> len uuid = 16 ->
    op_export ops f uuid = Some (Some (FWU_STATUS_SUCCESS, data, n), f') ->
    0 <= n < 2 ^ 64 /\ data <> dir_address /\ exists b, store_memory ops f' data = Some b /\ n <= len b;
  synchronize_returns f d boot_index : store_fresh d boot_index f ->
    exists st d' f', op_synchronize ops f d boot_index = Some (st, d', f') /\
      (st = FWU_STATUS_SUCCESS -> exists t, op_is_trial ops f' = Some t /\
         store_ok (if t : bool then Trial else Regular) f');
  synchronize_images f d boot_index st d' f' :
    op_synchronize ops f d boot_index = Some (st, d', f') ->
    num_images d' = num_images d /\ entries d' = entries d
}.

(** A store that also keeps the log of its calls. *)
Section Logged.
Context {F : Type} (ops : fw_store_ops F).

Definition log_event (f : F * list store_event) (g : F) (e : store_event) : F * list store_event :=
  (g, snd f ++ [e]).

Definition logged : fw_store_ops (F * list store_event) :=
  FwStoreOps _
    (fun f d b => '(st, d, g) ← op_synchronize ops (fst f) d b; Some (st, d, (g, snd f)))
    (fun f => '(st, g) ← op_begin_install ops (fst f); Some (st, log_event f g (EBeginInstall st)))
    (fun f => g ← op_cancel_install ops (fst f); Some (log_event f g ECancelInstall))
    (fun f => '(st, g) ← op_finalize_install ops (fst f);
              Some (st, log_event f g (EFinalizeInstall st)))
    (fun f image => '(st, i, g) ← op_select_installer ops (fst f) image;
              Some (st, i, log_event f g (ESelectInstaller st i)))
    (fun f i data => '(st, g) ← op_write_image ops (fst f) i data;
              Some (st, log_event f g (EWriteImage i data)))
    (fun f i image acc => '(st, g) ← op_commit_image ops (fst f) i image acc;
              Some (st, log_event f g (ECommitImage i acc)))
    (fun f image => '(b, g) ← op_notify_accepted ops (fst f) image;
              Some (b, log_event f g (ENotifyAccepted b)))
    (fun f image => op_is_accepted ops (fst f) image)
    (fun f => op_is_trial ops (fst f))
    (fun f => '(st, g) ← op_commit_to_update ops (fst f); Some (st, log_event f g ECommitToUpdate))
    (fun f => '(st, g) ← op_revert_to_previous ops (fst f);
              Some (st, log_event f g ERevertToPrevious))
    (fun f uuid => '(r, g) ← op_export ops (fst f) uuid; Some (r, (g, snd f)))
    (fun f => store_memory ops (fst f)).

End Logged.

Definition stream_installer (s : stream) : option Z :=
  match st_variant s with InstallVariant _ i _ => Some i | _ => None end.

Definition installers (l : list stream) : list Z := omap stream_installer l.

(** Where an agent is in the flow. *)
Definition agent_flow a : flow :=
  match state a with
  | FWU_STATE_STAGING => Staging (installers (open_streams (streams a)))
  | FWU_STATE_TRIAL_PENDING => TrialPending
  | FWU_STATE_TRIAL => Trial
  | _ => Regular
  end.

(** ** Sequences of client operations *)

Inductive agent_op :=
  | BeginStaging (vendor_flags partial_update_count : Z) (update_guid : bytes)
  | EndStaging
  | CancelStaging
  | OpenObject (uuid : bytes) (op_type : Z)
  | WriteObject (h : Z) (data : option bytes)
  | ReadObject (h : Z) (buf : bytes)
  | CommitObject (h : Z) (accepted : bool)
  | AcceptImage (uuid : bytes)
  | SelectPrevious.

Section Run.
Context {F : Type} (ops : fw_store_ops F).

Definition status_reply {C} (r : option (Z * C)) : option (stream_reply * C) :=
  '(st, c) ← r; Some (StreamReply st 0 [], c).

Definition agent_step (c : generic_update_agent * F) (o : agent_op)
    : option (stream_reply * (generic_update_agent * F)) :=
  let i := interface ops in
  match o with
  | BeginStaging flags count guid => status_reply (update_agent_begin_staging i c flags count guid)
  | EndStaging => status_reply (update_agent_end_staging i c)
  | CancelStaging => status_reply (update_agent_cancel_staging i c)
  | OpenObject uuid op_type =>
      '(st, h, c) ← update_agent_open i c uuid op_type 0; Some (StreamReply st h [], c)
  | WriteObject h data => status_reply (update_agent_write_stream i c h data)
  | ReadObject h buf =>
      '(st, buf, rl, _, c) ← update_agent_read_stream i c h buf 0 0;
      Some (StreamReply st 0 (take (Z.to_nat rl) buf), c)
  | CommitObject h acc =>
      '(st, _, _, c) ← update_agent_commit i c h acc 0 0 0; Some (StreamReply st 0 [], c)
  | AcceptImage uuid => status_reply (update_agent_accept_image i c uuid)
  | SelectPrevious => status_reply (update_agent_select_previous i c)
  end.

Fixpoint agent_run (c : generic_update_agent * F) (os : list agent_op)
    : option (list stream_reply * (generic_update_agent * F)) :=
  match os with
  | [] => Some ([], c)
  | o :: os =>
      '(rep, c) ← agent_step c o;
      '(reps, c) ← agent_run c os;
      Some (rep :: reps, c)
  end.

End Run.

(** A uuid_octets has 16 octets, and the data to be written is in memory. *)
Definition agent_op_ok (o : agent_op) : Prop :=
  match o with
  | OpenObject uuid _ | AcceptImage uuid => len uuid = 16
  | WriteObject _ data => is_Some data
  | _ => True
  end.

(** ** Lemmas: memory *)

#[export] Instance memory_le_preorder : PreOrder memory_le.
Proof.
  split; [by intros h addr b Hb; exists b|]. intros h1 h2 h3 H12 H23 addr b Hb.
  destruct (H12 addr b Hb) as (b2 & Hb2 & Hl2). destruct (H23 addr b2 Hb2) as (b3 & Hb3 & Hl3).
  exists b3. split; [done|lia].
Qed.

Lemma stream_ok_le h h' s : memory_le h h' -> stream_ok h s -> stream_ok h' s.
Proof.
  unfold stream_ok. intros Hle. destruct (st_variant s) as [|pos data n|]; try done.
  intros (Hp & Hn & b & Hb & Hl). destruct (Hle data b Hb) as (b' & Hb' & Hl').
  split; [done|]. split; [done|]. exists b'. split; [done|lia].
Qed.

Lemma manager_ok_le h h' m : memory_le h h' -> manager_ok h m -> manager_ok h' m.
Proof.
  intros Hle [Hm Hs]. split; [done|]. eapply Forall_impl; [done|]. intros s. by apply stream_ok_le.
Qed.

Section Memory.
Context {F : Type} (ops : fw_store_ops F).
Implicit Types f : F.

Lemma agent_heap_le a a' f f' :
  image_dir_buf a' = image_dir_buf a -> len (dir_contents a) <= len (dir_contents a') ->
  memory_le (store_memory ops f) (store_memory ops f') ->
  memory_le (agent_heap ops a f) (agent_heap ops a' f').
Proof.
  intros Hd Hl Hle addr b. unfold agent_heap. rewrite Hd.
  destruct (addr =? image_dir_buf a); [|by apply Hle]. intros [= <-]. by eexists.
Qed.

(** Opening keeps the streams valid, in the memory the store leaves. *)
Lemma open_streams_le P v count l f h l' f' a :
  open_spec (agent_commit_image ops) P v count l f h l' f' ->
  memory_le (store_memory ops f) (store_memory ops f') ->
  stream_ok (agent_heap ops a f) (Stream h v) ->
  Forall (stream_ok (agent_heap ops a f)) l -> Forall (stream_ok (agent_heap ops a f')) l'.
Proof.
  intros Ho Hle Hv Hl. eapply Forall_impl; [by eapply open_streams_ok|]. intros s Hs.
  eapply stream_ok_le; [|done]. by apply agent_heap_le.
Qed.

End Memory.

(** ** Lemmas: the logged store *)

(** The conditions on a store, as conditions on the store with its log. *)
Definition on_store {A F} (P : A -> F -> Prop) (x : A) (f : F * list store_event) : Prop := P x (fst f).
Definition on_fresh {A B F} (P : A -> B -> F -> Prop) (x : A) (y : B) (f : F * list store_event) : Prop :=
  P x y (fst f).

Section LoggedLaws.
Context {F : Type} (ops : fw_store_ops F).
Implicit Types f : F * list store_event.

Lemma logged_perform f c :
  perform (logged ops) f c = ('(es, g) ← perform ops (fst f) c; Some (es, (g, snd f ++ es))).
Proof.
  destruct c as [| | |image|i data|i image acc|image| | |uuid]; simpl.
  - by destruct (op_begin_install ops (fst f)) as [[??]|].
  - by destruct (op_cancel_install ops (fst f)).
  - by destruct (op_finalize_install ops (fst f)) as [[??]|].
  - by destruct (op_select_installer ops (fst f) image) as [[[??]?]|].
  - by destruct (op_write_image ops (fst f) i data) as [[??]|].
  - by destruct (op_commit_image ops (fst f) i image acc) as [[??]|].
  - by destruct (op_notify_accepted ops (fst f) image) as [[??]|].
  - by destruct (op_commit_to_update ops (fst f)) as [[??]|].
  - by destruct (op_revert_to_previous ops (fst f)) as [[??]|].
  - destruct (op_export ops (fst f) uuid) as [[??]|]; simpl; [by rewrite app_nil_r|done].
Qed.

#[export] Instance logged_laws dir_address store_ok store_fresh
    `{!FwStoreLaws ops dir_address store_ok store_fresh} :
  FwStoreLaws (logged ops) dir_address (on_store store_ok) (on_fresh store_fresh).
Proof.
  split.
  - intros p f c Hok Hc. destruct (call_returns p (fst f) c Hok Hc) as (es & g & p' & Hp & Hrun & Hok' & Hle).
    exists es, (g, snd f ++ es), p'. by rewrite logged_perform, Hp.
  - intros p f image Hok Hi. exact (accepted_returns (ops := ops) p (fst f) image Hok Hi).
  - intros p f uuid data n f' Hok Hu He. simpl in *.
    destruct (op_export ops (fst f) uuid) as [[r g]|] eqn:E; [|done].
    injection He as -> <-. exact (export_valid (ops := ops) p (fst f) uuid data n g Hok Hu E).
  - intros f d b Hf. simpl. destruct (synchronize_returns (ops := ops) (fst f) d b Hf) as (st & d' & g & -> & Hg).
    by exists st, d', (g, snd f).
  - intros f d b st d' f' He. simpl in *.
    destruct (op_synchronize ops (fst f) d b) as [[[st0 d0] g]|] eqn:E; [|done]. injection He as _ <- _.
    exact (synchronize_images (ops := ops) (fst f) d b st0 d0 g E).
Qed.

Lemma logged_events f c es f' : perform (logged ops) f c = Some (es, f') -> snd f' = snd f ++ es.
Proof.
  rewrite logged_perform. destruct (perform ops (fst f) c) as [[es0 g]|]; [|done].
  by intros [= <- <-].
Qed.

End LoggedLaws.

(** ** Lemmas: installers of the open streams *)

Lemma installers_app l l' : installers (l ++ l') = installers l ++ installers l'.
Proof. apply omap_app. Qed.

Lemma installers_filter (P : stream -> Prop) `{!forall s, Decision (P s)} (Q : Z -> Prop)
    `{!forall i, Decision (Q i)} l :
  (forall s i, s ∈ l -> stream_installer s = Some i -> P s <-> Q i) ->
  installers (filter P l) = filter Q (installers l).
Proof.
  intros HPQ. induction l as [|s l IH]; [done|].
  assert (installers (filter P l) = filter Q (installers l)) as IH'
    by (apply IH; intros; apply HPQ; [by right|done]).
  specialize (HPQ s). unfold installers in *. rewrite filter_cons. simpl.
  destruct (stream_installer s) as [i|] eqn:Hi.
  - specialize (HPQ i ltac:(left) eq_refl). rewrite filter_cons.
    destruct (decide (P s)); destruct (decide (Q i)); simpl; rewrite ?Hi; try (exfalso; tauto); [|done].
    f_equal. exact IH'.
  - destruct (decide (P s)); simpl; rewrite ?Hi; done.
Qed.

Lemma installers_elem l s i : s ∈ l -> stream_installer s = Some i -> i ∈ installers l.
Proof. intros Hs Hi. apply list_elem_of_omap. by exists s. Qed.

Lemma drop_installer_none i l : i ∉ l -> drop_installer i l = l.
Proof. intros Hi. apply filter_all_in. intros j Hj ->. done. Qed.

Lemma drop_installer_last i l : i ∉ l -> drop_installer i (l ++ [i]) = l.
Proof.
  intros Hi. unfold drop_installer. rewrite filter_app, filter_cons, decide_False by tauto.
  rewrite app_nil_r. by apply drop_installer_none.
Qed.

Lemma unique_installer l s s' i :
  NoDup (installers l) -> s ∈ l -> s' ∈ l -> stream_installer s = Some i ->
  stream_installer s' = Some i -> s = s'.
Proof.
  intros Hnd. induction l as [|t l IH]; [by intros ?%elem_of_nil|].
  unfold installers in *. simpl in Hnd. intros Hs Hs' Hi Hi'.
  apply elem_of_cons in Hs as [->|Hs]; apply elem_of_cons in Hs' as [->|Hs']; [done|..].
  - rewrite Hi in Hnd. apply NoDup_cons in Hnd as [Hn _]. destruct Hn. by eapply installers_elem.
  - rewrite Hi' in Hnd. apply NoDup_cons in Hnd as [Hn _]. destruct Hn. by eapply installers_elem.
  - apply IH; [|done..]. destruct (stream_installer t); [by apply NoDup_cons in Hnd as [_ Hnd]|done].
Qed.

Lemma installers_sublist l l' : l' `sublist_of` l -> installers l' `sublist_of` installers l.
Proof.
  unfold installers. induction 1 as [|s l' l H IH|s l' l H IH]; simpl; [done|..].
  - destruct (stream_installer s); [by apply sublist_skip|done].
  - destruct (stream_installer s); [by apply sublist_cons|done].
Qed.

Lemma installers_nodup l l' : l' `sublist_of` l -> NoDup (installers l) -> NoDup (installers l').
Proof. intros Hl Hnd. eapply sublist_NoDup; [done|]. by apply installers_sublist. Qed.

(** ** Lemmas: what the stream manager does to the flow *)

Lemma flow_run_app p es es' : flow_run p (es ++ es') = (p ← flow_run p es; flow_run p es').
Proof.
  revert p. induction es as [|e es IH]; intros p; [done|]. simpl.
  destruct (flow_step p e); [|done]. simpl. apply IH.
Qed.

(** The images a stream installs go to the agent's store and carry their index. *)
Definition of_store (store : Z) (s : stream) : Prop :=
  match st_variant s with InstallVariant st _ image => st = store /\ indexed image | _ => True end.

Section Flow.
Context {F : Type} (ops : fw_store_ops F) (dir_address : Z) {store_ok : flow -> F -> Prop}
  {store_fresh : fw_directory -> Z -> F -> Prop} {Hlaws : FwStoreLaws ops dir_address store_ok store_fresh}.
Implicit Types (f : F * list store_event) (l : list stream).
Abbreviation L := (logged ops).
Abbreviation ready := (on_store store_ok).

Definition close_events (s : stream) (acc : bool) : list store_event :=
  match stream_installer s with Some i => [ECommitImage i acc] | None => [] end.

(** What committing the image of a stream does to a store that holds it open. *)
Lemma commit_stream_flow store q f s acc st f' :
  commit_stream (agent_commit_image L) f s acc = Some (st, f') -> of_store store s ->
  snd f' = snd f ++ close_events s acc /\
  match stream_installer s with
  | Some i => ready (Staging q) f -> i ∈ q -> ready (Staging (drop_installer i q)) f' /\
      memory_le (store_memory L f) (store_memory L f')
  | None => f' = f
  end.
Proof.
  unfold commit_stream, close_events, stream_installer, agent_commit_image, of_store.
  destruct (st_variant s) as [| |store' i image].
  1,2: intros [= _ <-] _; by rewrite app_nil_r.
  intros Hc [_ Hi]. assert (perform L f (CallCommit i image acc) = Some ([ECommitImage i acc], f')) as Hp
    by (cbn [perform]; by rewrite Hc).
  split; [by eapply logged_events|]. intros Hf Hq.
  destruct (call_returns (ops := L) (store_ok := ready) (Staging q) f (CallCommit i image acc) Hf
    (conj Hq Hi)) as (es & g & p' & Hp' & Hrun & Hok & Hle). rewrite Hp in Hp'. injection Hp' as <- <-.
  simpl in Hrun. rewrite bool_decide_true in Hrun by done. simpl in Hrun. by injection Hrun as <-.
Qed.

Lemma commit_stream_returns store q f s acc :
  of_store store s -> (forall i, stream_installer s = Some i -> ready (Staging q) f /\ i ∈ q) ->
  commit_stream (agent_commit_image L) f s acc <> None.
Proof.
  unfold commit_stream, stream_installer, agent_commit_image, of_store.
  destruct (st_variant s) as [| |store' i image]; [done..|]. intros [_ Hi] Hq.
  destruct (Hq i eq_refl) as [Hf Hin].
  destruct (call_returns (ops := L) (store_ok := ready) (Staging q) f (CallCommit i image acc) Hf
    (conj Hin Hi)) as (es & g & p' & Hp & _).
  cbn [perform] in Hp. by destruct (op_commit_image L f i image acc).
Qed.

(** A step from [l] to [l'] that is allowed while staging and leaves the store
    ready, and that does not touch the store where no image is open. *)
Definition allowed (pre : list Z) l l' f f' (new : list store_event) : Prop :=
  snd f' = snd f ++ new /\
  flow_run (Staging (pre ++ installers l)) new = Some (Staging (pre ++ installers l')) /\
  (ready (Staging (pre ++ installers l)) f -> ready (Staging (pre ++ installers l')) f' /\
     memory_le (store_memory L f) (store_memory L f')) /\
  (installers l = [] -> new = [] /\ f' = f).

(** The store can be asked to commit the streams of [l]. *)
Definition can_serve (pre : list Z) l f : Prop :=
  installers l = [] \/ ready (Staging (pre ++ installers l)) f.

Lemma allowed_le pre l l' f f' new :
  allowed pre l l' f f' new -> can_serve pre l f -> memory_le (store_memory L f) (store_memory L f').
Proof.
  intros (_ & _ & Hr & Hnil) [Hi|Hready]; [|by apply Hr]. by destruct (Hnil Hi) as [_ ->].
Qed.

Lemma allowed_refl pre l l' f : installers l' = installers l -> allowed pre l l' f f [].
Proof. intros Hl. unfold allowed. by rewrite app_nil_r, Hl. Qed.

Lemma serve_stream pre l f s i :
  can_serve pre l f -> s ∈ l -> stream_installer s = Some i ->
  ready (Staging (pre ++ installers l)) f /\ i ∈ pre ++ installers l.
Proof.
  intros Hcan Hs Hi. assert (i ∈ installers l) as Hin by (by eapply installers_elem).
  split; [|apply elem_of_app; by right]. destruct Hcan as [Hnil|]; [|done].
  rewrite Hnil in Hin. by apply elem_of_nil in Hin.
Qed.

Lemma room_returns store pre l f :
  can_serve pre l f -> Forall (of_store store) l -> ~ room_stops (agent_commit_image L) l f.
Proof.
  intros Hcan Hst (l0 & s & _ & Hl & Hc). assert (s ∈ l) as Hs
    by (rewrite Hl; apply elem_of_app; right; left).
  eapply commit_stream_returns; [by eapply Forall_forall in Hst| |exact Hc].
  intros i. by apply serve_stream.
Qed.

Lemma close_returns store l f h acc :
  can_serve [] l f -> Forall (of_store store) l -> ~ close_stops (agent_commit_image L) l f h acc.
Proof.
  intros Hcan Hst (s & Hs & _ & Hc).
  eapply commit_stream_returns; [by eapply Forall_forall in Hst| |exact Hc].
  intros i. by eapply (serve_stream []).
Qed.

Lemma make_room_flow store pre l f l0 f' :
  make_room (agent_commit_image L) l f l0 f' -> Forall (of_store store) l -> NoDup (pre ++ installers l) ->
  l0 `sublist_of` l /\ exists new, allowed pre l l0 f f' new.
Proof.
  intros Hr Hst Hnd. inversion Hr as [Hl|l1 s st f1 Hl Heq Hc]; subst.
  { split; [done|]. exists []. by apply allowed_refl. }
  split; [by apply sublist_inserts_r|]. exists (close_events s false). unfold allowed.
  pose proof (proj1 (Forall_forall _ _) Hst s ltac:(apply elem_of_app; right; left)) as Hs.
  destruct (commit_stream_flow store (pre ++ installers (l0 ++ [s])) _ _ _ _ _ Hc Hs) as [Hlog Hok].
  split; [done|]. clear Hlog. rewrite installers_app in *. unfold close_events.
  assert (installers [s] = option_list (stream_installer s)) as Hone
    by (unfold installers; simpl; by destruct (stream_installer s)).
  rewrite Hone in *. destruct (stream_installer s) as [i|] eqn:Hi; simpl in *.
  2:{ rewrite app_nil_r in *. subst f'. done. }
  rewrite app_assoc in *. assert (i ∈ (pre ++ installers l0) ++ [i]) as Hin
    by (apply elem_of_app; right; left).
  rewrite bool_decide_true by done. simpl.
  assert (drop_installer i ((pre ++ installers l0) ++ [i]) = pre ++ installers l0) as Hdrop.
  { apply drop_installer_last. apply NoDup_app in Hnd as (_ & Hd & _). intros Hin'. apply (Hd i Hin'). left. }
  rewrite Hdrop in *. split; [done|]. split; [auto|]. by intros [_ [=]]%app_nil.
Qed.

Lemma close_flow store l f h acc st l' f' :
  close_spec (agent_commit_image L) l f h acc st l' f' -> Forall (of_store store) l ->
  NoDup (installers l) ->
  (forall s s', s ∈ l -> s' ∈ l -> st_handle s = st_handle s' -> s = s') ->
  l' `sublist_of` l /\ exists new, allowed [] l l' f f' new.
Proof.
  intros Hc Hst Hnd Huniq. inversion Hc as [Hno|s st1 f1 Hs Hh Hcm]; subst.
  { split; [done|]. exists []. by apply allowed_refl. }
  split; [apply sublist_filter|]. exists (close_events s acc). unfold allowed. simpl.
  pose proof (proj1 (Forall_forall _ _) Hst s Hs) as Hsst.
  destruct (commit_stream_flow store (installers l) _ _ _ _ _ Hcm Hsst) as [Hlog Hok].
  split; [done|]. unfold close_events, without. destruct (stream_installer s) as [i|] eqn:Hi; simpl.
  - assert (i ∈ installers l) as Hin by (by eapply installers_elem). rewrite bool_decide_true by done.
    simpl. assert (installers (filter (fun s0 => st_handle s0 <> st_handle s) l)
      = drop_installer i (installers l)) as ->.
    { apply installers_filter. intros s' i' Hs' Hi'.
      split; [|intros Hne Heq; apply Hne; apply Huniq in Heq as ->; [congruence|done..]].
      intros Hne ->. apply Hne. f_equal. by eapply unique_installer. }
    split; [done|]. split; [auto|]. intros Hnil. rewrite Hnil in Hin. by apply elem_of_nil in Hin.
  - subst f'. assert (installers (filter (fun s0 => st_handle s0 <> st_handle s) l) = installers l) as ->.
    { rewrite (installers_filter _ (fun _ => True)); [by apply filter_all_in|]. intros s' i' Hs' Hi'.
      split; [done|]. intros _ Heq. apply Huniq in Heq as ->; [congruence|done..]. }
    done.
Qed.

End Flow.

(** ** The agent's invariant *)

Definition running (s : fwu_state) : Prop :=
  s <> FWU_STATE_DEINITIALZED /\ s <> FWU_STATE_INITIALIZING.

(** [store_ok] is the condition on the store. *)
Record agent_ok {F} (ops : fw_store_ops F) (dir_address : Z) (store_ok : flow -> F -> Prop) a (f : F)
    : Prop := {
  ag_manager : manager_ok (agent_heap ops a f) (streams a);
  ag_directory : directory_ok (directory a);
  ag_indexed : Forall indexed (images (directory a));
  ag_buf : image_dir_buf a = dir_address;
  ag_size : image_dir_buf_size a = img_dir_serializer_get_len (directory a);
  ag_contents : len (dir_contents a) = image_dir_buf_size a;
  ag_store : Forall (of_store (fw_store a)) (open_streams (streams a));
  ag_nodup : NoDup (installers (open_streams (streams a)));
  ag_idle : state a <> FWU_STATE_STAGING -> installers (open_streams (streams a)) = [];
  ag_state : running (state a);
  ag_ready : store_ok (agent_flow a) f
}.

Arguments ag_manager {F ops dir_address store_ok a f}.
Arguments ag_directory {F ops dir_address store_ok a f}.
Arguments ag_indexed {F ops dir_address store_ok a f}.
Arguments ag_buf {F ops dir_address store_ok a f}.
Arguments ag_size {F ops dir_address store_ok a f}.
Arguments ag_contents {F ops dir_address store_ok a f}.
Arguments ag_store {F ops dir_address store_ok a f}.
Arguments ag_idle {F ops dir_address store_ok a f}.
Arguments ag_ready {F ops dir_address store_ok a f}.

Section Invariant.
Context {F : Type} (ops : fw_store_ops F) (dir_address : Z) {store_ok : flow -> F -> Prop}
  {store_fresh : fw_directory -> Z -> F -> Prop} {Hlaws : FwStoreLaws ops dir_address store_ok store_fresh}.
Abbreviation L := (logged ops).
Abbreviation ready := (on_store store_ok).
Abbreviation ok := (agent_ok (logged ops) dir_address (on_store store_ok)).
Implicit Types f : F * list store_event.

(** A call the flow allows: it returns, is logged and leaves the store ready for
    what follows it. *)
Lemma call_ok p f c :
  ready p f -> flow_allows p c ->
  exists es f' p', perform L f c = Some (es, f') /\ snd f' = snd f ++ es /\
    flow_run p es = Some p' /\ ready p' f' /\ memory_le (store_memory L f) (store_memory L f').
Proof.
  intros Hf Hc. destruct (call_returns (ops := L) (store_ok := ready) p f c Hf Hc)
    as (es & f' & p' & Hp & Hrun & Hok & Hle).
  exists es, f', p'. split; [done|]. split; [by eapply logged_events|]. done.
Qed.

(** The agent with another state and another store. *)
Lemma with_state_ok a f f' s :
  ok a f -> installers (open_streams (streams a)) = [] -> running s ->
  ready (agent_flow (with_state a s)) f' ->
  memory_le (store_memory L f) (store_memory L f') -> ok (with_state a s) f'.
Proof.
  intros [] Hi Hs Hr Hle. split; try done. simpl. eapply manager_ok_le; [|done]. by apply agent_heap_le.
Qed.

Lemma agent_ok_le a f f' :
  ok a f -> ready (agent_flow a) f' -> memory_le (store_memory L f) (store_memory L f') -> ok a f'.
Proof. intros [] Hr Hle. split; try done. eapply manager_ok_le; [|done]. by apply agent_heap_le. Qed.

(** An operation keeps the invariant and its calls of the store fit the flow. *)
Definition step_ok a f a' f' : Prop :=
  ok a' f' /\ exists new, snd f' = snd f ++ new /\ flow_run (agent_flow a) new = Some (agent_flow a').

Lemma step_refl a f : ok a f -> step_ok a f a f.
Proof. intros Hok. split; [done|]. exists []. by rewrite app_nil_r. Qed.

Lemma step_trans a f a1 f1 a2 f2 : step_ok a f a1 f1 -> step_ok a1 f1 a2 f2 -> step_ok a f a2 f2.
Proof.
  intros [_ (n1 & Hn1 & Hf1)] [Hok (n2 & Hn2 & Hf2)]. split; [done|]. exists (n1 ++ n2).
  rewrite Hn2, Hn1, app_assoc, flow_run_app, Hf1. done.
Qed.

Lemma install_nil_iff l : existsb (is_type FWU_STREAM_TYPE_INSTALL) l = false -> installers l = [].
Proof.
  induction l as [|s l IH]; [done|]. simpl. intros [Hs Hl]%orb_false_iff. unfold is_type in Hs.
  unfold installers. simpl. unfold stream_installer at 1. destruct (st_variant s); try done; by apply IH.
Qed.

Lemma cancelled_nil l : installers (filter (fun s => is_type FWU_STREAM_TYPE_INSTALL s = false) l) = [].
Proof.
  apply install_nil_iff. apply not_true_is_false. intros (s & Hs%list_elem_of_In & Ht)%existsb_exists.
  apply list_elem_of_filter in Hs as [Hs _]. congruence.
Qed.

Lemma cancel_staging_ok a f :
  ok a f ->
  exists st a' f', cancel_staging L a f = Some (st, a', f') /\ step_ok a f a' f' /\
    installers (open_streams (streams a')) = [] /\
    state a' = if bool_decide (state a = FWU_STATE_STAGING) then FWU_STATE_REGULAR else state a.
Proof.
  intros Hok. unfold cancel_staging. case_bool_decide as Hs.
  2:{ eexists _, _, _. split; [done|]. split; [by apply step_refl|]. split; [|done]. by apply Hok. }
  destruct (ag_manager Hok) as [(fl & al & Hsm) Hst].
  destruct (cancel_streams_ok (streams a) fl al FWU_STREAM_TYPE_INSTALL Hsm) as
    (m' & fl' & al' & -> & Hsm' & _ & Hs'); [done|]. cbn [mbind option_bind].
  assert (installers (open_streams m') = []) as Hnil by (rewrite Hs'; apply cancelled_nil).
  pose proof (ag_ready Hok) as Hr. assert (agent_flow a = Staging (installers (open_streams (streams a)))) as Hfl
    by (unfold agent_flow; by rewrite Hs). rewrite Hfl in Hr.
  destruct (call_ok _ f CallCancel Hr I) as (es & f' & p' & Hp & Hlog & Hrun & Hr' & Hle).
  cbn [perform] in Hp. apply bind_Some in Hp as (f1 & -> & [= <- ->]). injection Hrun as <-.
  cbn [mbind option_bind]. eexists _, _, _. split; [done|]. split; [|done]. split.
  - destruct Hok. split; simpl; try done; [|..].
    + eapply manager_ok_le; [by apply (agent_heap_le L a _ f)|].
      split; [by eauto|]. rewrite Hs'. by apply filter_streams_ok.
    + rewrite Hs'. apply Forall_forall. intros s [_ Hin]%list_elem_of_filter. by eapply Forall_forall in Hin.
    + rewrite Hnil. constructor.
  - exists [ECancelInstall]. split; [done|]. by rewrite Hfl.
Qed.

(** A call of the store that moves the agent to state [s]. *)
Lemma state_step a f f' s p' e :
  ok a f -> installers (open_streams (streams a)) = [] -> running s ->
  memory_le (store_memory L f) (store_memory L f') -> snd f' = snd f ++ e ->
  flow_run (agent_flow a) e = Some p' -> ready p' f' -> p' = agent_flow (with_state a s) ->
  step_ok a f (with_state a s) f'.
Proof.
  intros Hok Hi Hs Hle Hlog Hflow Hr ->. split; [|by exists e]. by eapply with_state_ok.
Qed.

(** A call of the store in a state that stays. *)
Lemma call_step a f f' p' e :
  ok a f -> memory_le (store_memory L f) (store_memory L f') -> snd f' = snd f ++ e ->
  flow_run (agent_flow a) e = Some p' -> ready p' f' -> p' = agent_flow a -> step_ok a f a f'.
Proof.
  intros Hok Hle Hlog Hflow Hr ->. split; [|by exists e]. by eapply agent_ok_le.
Qed.

Lemma begin_staging_ok a f flags count guid :
  ok a f ->
  exists st a' f', begin_staging L a f flags count guid = Some (st, a', f') /\ step_ok a f a' f'.
Proof.
  intros Hok. unfold begin_staging.
  destruct (cancel_staging_ok a f Hok) as (st & a1 & f1 & -> & Hstep & Hnil & _).
  cbn [mbind option_bind]. case_bool_decide as Hreg; [|by eexists _, _, _].
  pose proof (ag_ready (proj1 Hstep)) as Hr. assert (agent_flow a1 = Regular) as Hfl
    by (unfold agent_flow; by rewrite Hreg). rewrite Hfl in Hr.
  destruct (call_ok _ f1 CallBegin Hr I) as (es & f2 & p' & Hp & Hlog & Hrun & Hr' & Hle).
  cbn [perform] in Hp. apply bind_Some in Hp as ([st2 f2'] & -> & [= <- ->]).
  cbn [mbind option_bind]. eexists _, _, _. split; [done|]. eapply step_trans; [done|].
  destruct (Z.eqb_spec st2 FWU_STATUS_SUCCESS) as [->|Hne].
  - eapply state_step; [apply Hstep|done|done|done|done|by rewrite Hfl|done|].
    injection Hrun as <-. unfold agent_flow. simpl. by rewrite Hnil.
  - eapply call_step; [apply Hstep|done|done|by rewrite Hfl|done|]. rewrite Hfl.
    simpl in Hrun. destruct (Z.eqb_spec st2 FWU_STATUS_SUCCESS); [done|]. by injection Hrun as <-.
Qed.

Lemma end_staging_ok a f :
  ok a f -> exists st a' f', end_staging L a f = Some (st, a', f') /\ step_ok a f a' f'.
Proof.
  intros Hok. unfold end_staging.
  case_bool_decide as Hs; [|by eexists _, _, _; split; [done|apply step_refl]].
  destruct (ag_manager Hok) as [(fl & al & Hsm) _].
  rewrite (is_open_ok _ fl al FWU_STREAM_TYPE_INSTALL Hsm) by done. cbn [mbind option_bind].
  destruct (existsb _ _) eqn:He; simpl negb; cbv iota;
    [by eexists _, _, _; split; [done|apply step_refl]|].
  apply install_nil_iff in He. assert (agent_flow a = Staging []) as Hfl
    by (unfold agent_flow; by rewrite Hs, He).
  pose proof (ag_ready Hok) as Hr. rewrite Hfl in Hr.
  destruct (call_ok _ f CallFinalize Hr eq_refl) as (es & f' & p' & Hp & Hlog & Hrun & Hr' & Hle).
  cbn [perform] in Hp. apply bind_Some in Hp as ([st f1] & -> & [= <- ->]).
  cbn [mbind option_bind]. eexists _, _, _. split; [done|].
  destruct (Z.eqb_spec st FWU_STATUS_SUCCESS) as [->|Hne].
  - eapply state_step; [done|done|done|done|done|by rewrite Hfl|done|]. by injection Hrun as <-.
  - eapply call_step; [done|done|done|by rewrite Hfl|done|]. rewrite Hfl.
    simpl in Hrun. destruct (Z.eqb_spec st FWU_STATUS_SUCCESS); [done|]. by injection Hrun as <-.
Qed.

Lemma select_previous_ok a f :
  ok a f -> exists st a' f', select_previous L a f = Some (st, a', f') /\ step_ok a f a' f'.
Proof.
  intros Hok. unfold select_previous.
  destruct (bool_decide (state a = FWU_STATE_TRIAL) || bool_decide (state a = FWU_STATE_TRIAL_PENDING))
    eqn:Hs; [|by eexists _, _, _; split; [done|apply step_refl]].
  apply orb_true_iff in Hs. rewrite !bool_decide_eq_true in Hs.
  assert (flow_allows (agent_flow a) CallRevert /\ installers (open_streams (streams a)) = []) as [Ha Hi].
  { split; [unfold agent_flow; by destruct Hs as [-> | ->]|]. apply Hok. by destruct Hs as [-> | ->]. }
  destruct (call_ok _ f CallRevert (ag_ready Hok) Ha) as (es & f' & p' & Hp & Hlog & Hrun & Hr' & Hle).
  cbn [perform] in Hp. apply bind_Some in Hp as ([st f1] & -> & [= <- ->]).
  cbn [mbind option_bind]. eexists _, _, _. split; [done|].
  eapply state_step; [done..|]. unfold agent_flow in *. simpl in *.
  by destruct Hs as [E | E]; rewrite E in Hrun; injection Hrun as <-.
Qed.

(** The image a UUID names in the agent's directory. *)
Lemma found_indexed a f uuid image :
  ok a f -> first_image (images (directory a)) uuid = Some image -> indexed image.
Proof.
  intros Hok Hi. pose proof (ag_indexed Hok) as Hall. unfold first_image in Hi.
  apply bind_Some in Hi as (k & _ & Hk). by eapply Forall_lookup_1 in Hall.
Qed.

Lemma accept_ok a f uuid :
  ok a f -> len uuid = 16 ->
  exists st a' f', accept L a f uuid = Some (st, a', f') /\ step_ok a f a' f'.
Proof.
  intros Hok Hu. unfold accept.
  case_bool_decide as Hs; [|by eexists _, _, _; split; [done|apply step_refl]].
  rewrite find_image_ok by (done || apply Hok). cbn [mbind option_bind].
  destruct (first_image _ uuid) as [image|] eqn:Hi; [|by eexists _, _, _; split; [done|apply step_refl]].
  assert (agent_flow a = Trial) as Hfl by (unfold agent_flow; by rewrite Hs).
  pose proof (ag_ready Hok) as Hr. rewrite Hfl in Hr.
  destruct (call_ok _ f (CallNotify image) Hr (found_indexed _ _ _ _ Hok Hi))
    as (es & f1 & p1 & Hp & Hlog & Hrun & Hr1 & Hle).
  cbn [perform] in Hp. apply bind_Some in Hp as ([all f0] & -> & [= <- ->]). cbn [mbind option_bind].
  injection Hrun as <-. destruct all; simpl in Hr1.
  - destruct (call_ok _ f1 CallCommitToUpdate Hr1 I) as (es & f2 & p2 & Hp & Hlog2 & Hrun2 & Hr2 & Hle2).
    cbn [perform] in Hp. apply bind_Some in Hp as ([st f3] & -> & [= <- ->]). cbn [mbind option_bind].
    injection Hrun2 as <-. eexists _, _, _. split; [done|]. split.
    + eapply with_state_ok; [done|apply Hok; by rewrite Hs|done|done|by etrans].
    + eexists. rewrite Hlog2, Hlog, <- app_assoc. split; [done|]. by rewrite Hfl.
  - eexists _, _, _. split; [done|]. eapply call_step; [done|done|done|by rewrite Hfl|done|done].
Qed.

(** A step on streams that [allowed] describes. *)
Lemma allowed_step a f m' f' new :
  ok a f -> manager_ok (agent_heap L (with_streams a m') f') m' ->
  Forall (of_store (fw_store a)) (open_streams m') -> NoDup (installers (open_streams m')) ->
  allowed ops (store_ok := store_ok) [] (open_streams (streams a)) (open_streams m') f f' new ->
  step_ok a f (with_streams a m') f'.
Proof.
  intros Hok Hm Hst Hnd (Hlog & Hrun & Hr & Hnil). simpl in *.
  destruct (decide (state a = FWU_STATE_STAGING)) as [E|E].
  - assert (agent_flow a = Staging (installers (open_streams (streams a)))) as Hfl
      by (unfold agent_flow; by rewrite E).
    assert (agent_flow (with_streams a m') = Staging (installers (open_streams m'))) as Hfl'
      by (unfold agent_flow; simpl; by rewrite E).
    pose proof (ag_ready Hok) as Hready. rewrite Hfl in Hready. split.
    + destruct Hok. split; try done. rewrite Hfl'. by apply Hr.
    + exists new. rewrite Hfl, Hfl'. done.
  - pose proof (ag_idle Hok E) as Hi. specialize (Hnil Hi) as [-> ->].
    rewrite Hi in Hrun. injection Hrun as Hi'.
    assert (agent_flow (with_streams a m') = agent_flow a) as Hfl
      by (unfold agent_flow; simpl; by destruct (state a)).
    split; [|exists []; by rewrite app_nil_r, Hfl].
    destruct Hok. split; try done. by rewrite Hfl.
Qed.

Lemma sublist_forall {A} (P : A -> Prop) (l l' : list A) : l' `sublist_of` l -> Forall P l -> Forall P l'.
Proof. rewrite !Forall_forall. intros Hl HP x Hx. apply HP. by eapply elem_of_sublist. Qed.

(** The store can be asked to commit the agent's streams. *)
Lemma agent_can_serve a f : ok a f -> can_serve (store_ok := store_ok) [] (open_streams (streams a)) f.
Proof.
  intros Hok. destruct (decide (state a = FWU_STATE_STAGING)) as [E|E].
  - right. pose proof (ag_ready Hok) as Hr. unfold agent_flow in Hr. by rewrite E in Hr.
  - left. by apply Hok.
Qed.

Lemma commit_ok a f h acc max p :
  ok a f ->
  exists st p' t a' f', commit L a f h acc max p = Some (st, p', t, a', f') /\ step_ok a f a' f'.
Proof.
  intros Hok. unfold commit. destruct (ag_manager Hok) as [(fl & al & Hsm) Hst].
  pose proof (close_ok (agent_commit_image L) (streams a) f fl al h acc Hsm) as Hc.
  destruct (stream_manager_close _ _ _ _ _) as [[[st m'] f']|].
  2:{ exfalso. eapply (close_returns ops dir_address); [by apply agent_can_serve|apply Hok|done]. }
  destruct Hc as (fl' & al' & Hsm' & _ & Hspec). cbn [mbind option_bind].
  eexists _, _, _, _, _. split; [done|].
  destruct (close_flow ops dir_address _ _ _ _ _ _ _ _ Hspec (ag_store Hok)) as (Hsub & new & Hall);
    [apply Hok|intros s s'; by eapply same_stream|].
  eapply allowed_step; [done|..|done].
  - split; [by eauto|]. eapply (Forall_impl (stream_ok (agent_heap L a f))); [by eapply sublist_forall|].
    intros s. apply stream_ok_le, agent_heap_le; [done..|].
    by eapply (allowed_le ops), agent_can_serve.
  - eapply sublist_forall; [done|apply Hok].
  - eapply installers_nodup; [done|apply Hok].
Qed.

(** The agent is staging when an image is open, and the installer can be written to. *)
Lemma open_installer a f s i :
  ok a f -> s ∈ open_streams (streams a) -> stream_installer s = Some i ->
  agent_flow a = Staging (installers (open_streams (streams a))) /\
  i ∈ installers (open_streams (streams a)).
Proof.
  intros Hok Hs Hi. assert (i ∈ installers (open_streams (streams a))) as Hin
    by (by eapply installers_elem). split; [|done].
  unfold agent_flow. destruct (decide (state a = FWU_STATE_STAGING)) as [->|E]; [done|].
  rewrite (ag_idle Hok E) in Hin. by apply elem_of_nil in Hin.
Qed.

Lemma write_stream_ok a f h data :
  ok a f -> exists st f', write_stream L a f h (Some data) = Some (st, a, f') /\ step_ok a f a f'.
Proof.
  intros Hok. unfold write_stream. destruct (ag_manager Hok) as [(fl & al & Hsm) Hst].
  assert (forall s store i image, s ∈ open_streams (streams a) -> st_variant s = InstallVariant store i image ->
    exists st f', agent_write_image L f store i data = Some (st, f') /\ step_ok a f a f') as Hwrite.
  { intros s store i image Hs Hv.
    destruct (open_installer a f s i Hok Hs) as [Hfl Hi]; [unfold stream_installer; by rewrite Hv|].
    pose proof (ag_ready Hok) as Hr. rewrite Hfl in Hr.
    destruct (call_ok _ f (CallWrite i data) Hr Hi) as (es & f' & p' & Hp & Hlog & Hrun & Hr' & Hle).
    cbn [perform] in Hp. apply bind_Some in Hp as ([st f1] & Hw & [= <- ->]). exists st, f'.
    split; [exact Hw|]. eapply call_step; [done|done|done|by rewrite Hfl|done|].
    simpl in Hrun. rewrite bool_decide_true in Hrun by done. injection Hrun as <-. by rewrite Hfl. }
  pose proof (write_ok (agent_write_image L) (streams a) f fl al h (Some data) Hsm) as Hw.
  destruct (stream_manager_write _ _ _ _ _) as [[st f']|]; cbn [mbind option_bind].
  - exists st, f'. split; [done|].
    inversion Hw as [s store i image b st0 f0 Hs Hh Hv Hd Hwr|]; subst; [|by apply step_refl].
    injection Hd as <-. destruct (Hwrite _ _ _ _ Hs Hv) as (st1 & f1 & Hwr1 & Hstep).
    rewrite Hwr in Hwr1. by injection Hwr1 as <- <-.
  - destruct Hw as (s & store & i & image & Hs & _ & Hv & Hwr).
    destruct (Hwrite _ _ _ _ Hs Hv) as (st1 & f1 & Hwr1 & _). change (agent_write_image L f store i data = None) in Hwr.
    by rewrite Hwr1 in Hwr.
Qed.

(** A write of data that is not in memory: it is refused, or nothing returns. *)
Lemma write_overrun a f h st a' f' : ok a f -> write_stream L a f h None = Some (st, a', f') -> a' = a /\ f' = f.
Proof.
  intros Hok. unfold write_stream. destruct (ag_manager Hok) as [(fl & al & Hsm) Hst].
  pose proof (write_ok (agent_write_image L) (streams a) f fl al h None Hsm) as Hw.
  destruct (stream_manager_write _ _ _ _ _) as [[st1 f1]|]; [|done]. cbn [mbind option_bind].
  intros [= <- <- <-]. inversion Hw; subst; [done|]. done.
Qed.

Lemma read_installers l h size st out l' heap :
  read_spec heap l h size st out l' -> installers l' = installers l /\
    (forall P, (forall s k, P s -> P (advance h k s)) -> Forall P l -> Forall P l').
Proof.
  intros Hr. inversion Hr as [s pos data n b Hs Hh Hv Hb| |]; subst; [|by split..].
  set (k := Z.min _ _). split.
  - clear. induction l as [|t l IH]; [done|]. unfold installers in *. simpl.
    replace (stream_installer (advance (st_handle s) k t)) with (stream_installer t).
    { destruct (stream_installer t); [f_equal|]; exact IH. }
    unfold advance, stream_installer. destruct (_ =? _); [|done]. by destruct (st_variant t) eqn:E; simpl; rewrite ?E.
  - intros P HP Hl. apply Forall_fmap. eapply Forall_impl; [done|]. intros t. apply HP.
Qed.

Lemma read_stream_ok a f h buf rl tl :
  ok a f ->
  exists st buf' rl' tl' m', read_stream L a f h buf rl tl = Some (st, buf', rl', tl', with_streams a m', f) /\
    step_ok a f (with_streams a m') f.
Proof.
  intros Hok. unfold read_stream. destruct (ag_manager Hok) as [(fl & al & Hsm) Hst].
  destruct (read_ok (agent_heap L a f) (streams a) fl al h buf rl tl Hsm Hst)
    as (st & buf' & rl' & tl' & m' & -> & Hsm' & _ & _ & out & Hspec & _). cbn [mbind option_bind].
  eexists _, _, _, _, _. split; [done|].
  destruct (read_installers _ _ _ _ _ _ _ Hspec) as [Hinst HP].
  eapply (allowed_step _ _ _ _ []); [done|..].
  - split; [by eauto|]. eapply read_streams_ok; [|apply (len_nonneg buf)|done|done].
    intros s s'. by eapply same_stream.
  - apply HP; [|apply Hok]. intros s k. unfold of_store, advance. destruct (_ =? _); [|done].
    by destruct (st_variant s) eqn:E; simpl; rewrite ?E.
  - rewrite Hinst. apply Hok.
  - by apply allowed_refl.
Qed.

Lemma filter_installers_same P l :
  (forall s i, stream_installer s = Some i -> P s = false) ->
  installers (filter (fun s => P s = false) l) = installers l.
Proof.
  intros HP. rewrite (installers_filter _ (fun _ => True)); [by apply filter_all_in|].
  intros s i _ Hi. split; [done|]. intros _. by eapply HP.
Qed.

Lemma filter_of_store store (P : stream -> Prop) `{!forall s, Decision (P s)} l :
  Forall (of_store store) l -> Forall (of_store store) (filter P l).
Proof. intros Hl. eapply sublist_forall; [apply sublist_filter|done]. Qed.

Lemma open_buffer_step a f data n h0 :
  ok a f -> 0 <= n < 2 ^ 64 -> (exists b, agent_heap L a f data = Some b /\ n <= len b) ->
  exists h m' f',
    stream_manager_open_buffer_stream (agent_commit_image L) (streams a) f data n h0
      = Some (FWU_STATUS_SUCCESS, h, m', f') /\
    step_ok a f (with_streams a m') f' /\
    exists l0, open_streams m' = Stream h (BufferVariant 0 data n) :: l0.
Proof.
  intros Hok Hn Hb. destruct (ag_manager Hok) as [(fl & al & Hsm) Hst].
  pose proof (open_buffer_ok (agent_commit_image L) (streams a) f fl al data n h0 Hsm) as Hop.
  set (l := open_streams (streams a)) in *.
  assert (installers (filter (fun s => same_buffer data s = false) l) = installers l) as Hl1.
  { apply filter_installers_same. intros s i. unfold stream_installer, same_buffer.
    by destruct (st_variant s). }
  set (l1 := filter _ l) in *.
  assert (Forall (of_store (fw_store a)) l1) as Hst1 by apply filter_of_store, (ag_store Hok).
  unfold opened in Hop. fold l l1 in Hop.
  destruct (stream_manager_open_buffer_stream _ _ _ _ _ _) as [[[[st h] m'] f']|].
  2:{ eapply (room_returns ops dir_address (fw_store a) [] l1 f) in Hop; [done|..|done].
      unfold can_serve. rewrite Hl1. by apply agent_can_serve. }
  destruct Hop as (-> & fl' & al' & Hsm' & _ & Hspec).
  exists h, m', f'. split; [done|]. pose proof Hspec as Hspec'.
  inversion Hspec as [? l0 ? Hroom _ _ _ Hh Hl]; subst. split; [|by exists l0].
  destruct (make_room_flow ops dir_address (fw_store a) [] l1 f l0 f' Hroom Hst1) as (Hsub & new & Hall);
    [simpl; rewrite Hl1; apply Hok|].
  assert (l0 `sublist_of` l) as Hsub' by (etrans; [done|apply sublist_filter]).
  eapply allowed_step; [done|..]; rewrite <- ?Hl.
  - split; [by eauto|]. rewrite <- Hl. eapply (open_streams_le L); [done| | |apply Hst].
    + eapply (allowed_le ops); [done|]. unfold can_serve. rewrite Hl1. by apply agent_can_serve.
    + by split; [lia|split; [lia|]].
  - constructor; [done|]. eapply sublist_forall; [done|apply Hok].
  - eapply (installers_nodup l l0); [done|apply Hok].
  - unfold allowed in *. rewrite Hl1 in Hall. exact Hall.
Qed.

(** [f] is the store that selected the installer [i], [f0] the one before. *)
Lemma open_install_step a f0 f i image h0 :
  ok a f0 -> memory_le (store_memory L f0) (store_memory L f) ->
  state a = FWU_STATE_STAGING -> indexed image ->
  ready (Staging (i :: drop_installer i (installers (open_streams (streams a))))) f ->
  exists h m' f' new,
    stream_manager_open_install_stream (agent_commit_image L) (streams a) f (fw_store a) i image h0
      = Some (FWU_STATUS_SUCCESS, h, m', f') /\
    ok (with_streams a m') f' /\ snd f' = snd f ++ new /\
    flow_run (Staging (i :: drop_installer i (installers (open_streams (streams a))))) new
      = Some (agent_flow (with_streams a m')).
Proof.
  intros Hok Hle Hs Hidx Hready.
  assert (manager_ok (agent_heap L a f) (streams a)) as [(fl & al & Hsm) Hst]
    by (eapply manager_ok_le; [by apply agent_heap_le|apply Hok]).
  pose proof (open_install_ok (agent_commit_image L) (streams a) f fl al (fw_store a) i image h0 Hsm) as Hop.
  set (l := open_streams (streams a)) in *.
  assert (installers (filter (fun s => same_install (fw_store a) i s = false) l)
    = drop_installer i (installers l)) as Hl1.
  { apply installers_filter. intros s j Hin Hj. unfold stream_installer, same_install in *.
    pose proof (proj1 (Forall_forall _ _) (ag_store Hok) s Hin) as Hstore. unfold of_store in Hstore.
    destruct (st_variant s); try done. injection Hj as ->. destruct Hstore as [-> _].
    rewrite Z.eqb_refl. simpl. rewrite Z.eqb_neq. done. }
  set (l1 := filter _ l) in *.
  assert (Forall (of_store (fw_store a)) l1) as Hst1 by apply filter_of_store, (ag_store Hok).
  unfold opened in Hop. fold l l1 in Hop.
  destruct (stream_manager_open_install_stream _ _ _ _ _ _ _) as [[[[st h] m'] f']|].
  2:{ eapply (room_returns ops dir_address (fw_store a) [i] l1 f) in Hop; [done|..|done].
      right. by rewrite Hl1. }
  destruct Hop as (-> & fl' & al' & Hsm' & _ & Hspec). exists h, m', f'. pose proof Hspec as Hspec'.
  inversion Hspec as [? l0 ? Hroom _ _ _ Hh Hl]; subst.
  assert (NoDup (i :: installers l1)) as Hnd.
  { rewrite Hl1. constructor; [by intros [? _]%list_elem_of_filter|]. apply NoDup_filter, Hok. }
  destruct (make_room_flow ops dir_address (fw_store a) [i] l1 f l0 f' Hroom) as
    (Hsub & new & Hlog & Hrun & Hr & _); [done..|].
  rewrite Hl1 in Hrun, Hr. simpl in Hrun, Hr.
  assert (agent_flow (with_streams a m') = Staging (i :: installers l0)) as Hfl
    by (unfold agent_flow; simpl; by rewrite Hs, <- Hl).
  assert (l0 `sublist_of` l) as Hsub' by (etrans; [done|apply sublist_filter]).
  exists new. split; [done|]. split; [|by rewrite Hfl].
  split; simpl; try apply Hok; rewrite <- ?Hl.
  - split; [by eauto|]. rewrite <- Hl. eapply (open_streams_le L); [done| |done|done].
    by apply Hr.
  - constructor; [done|]. eapply sublist_forall; [done|apply Hok].
  - eapply sublist_NoDup; [done|]. simpl. by apply sublist_skip, installers_sublist.
  - by intros [].
  - rewrite Hfl. by apply Hr.
Qed.

Lemma dir_contents_step a f b :
  ok a f -> len b = len (dir_contents a) -> step_ok a f (with_dir_contents a b) f.
Proof.
  intros [] Hb. split.
  - split; simpl; try done; [|congruence]. eapply manager_ok_le; [|done].
    apply agent_heap_le; [done| |done]. simpl. lia.
  - exists []. by rewrite app_nil_r.
Qed.

Lemma directory_guid :
  uuid_guid_octets_from_canonical (fill 0 16) (fill 0 16) FWU_DIRECTORY_CANONICAL_UUID
    = Some FWU_DIRECTORY_GUID.
Proof. vm_compute. reflexivity. Qed.

Lemma serialized_len_ok d :
  directory_ok d -> 0 <= img_dir_serializer_get_len d < 2 ^ 64.
Proof.
  intros Hd. rewrite (get_len_ok d Hd). destruct Hd as (_ & Hn & _).
  unfold DIR_HEADER_LEN, IMG_INFO_LEN, FWU_MAX_FW_DIRECTORY_ENTRIES in *. lia.
Qed.

(** The images the store says are accepted. *)
Definition accepted_images f (image : image_info) : bool := default false (op_is_accepted L f image).

Lemma agent_answers a f : ok a f -> answers (directory a) (op_is_accepted L f) (accepted_images f).
Proof.
  intros Hok i Hi. unfold accepted_images.
  assert (indexed i) as Hidx by (eapply Forall_forall in Hi; [done|]; apply Hok).
  destruct (accepted_returns (ops := L) (store_ok := ready) _ f i (ag_ready Hok) Hidx) as [b Hb].
  by rewrite Hb.
Qed.

Lemma open_image_directory_ok a f uuid h0 :
  ok a f -> len uuid = 16 ->
  if bytes_eqb uuid FWU_DIRECTORY_GUID then
    exists h a' f' l0, open_image_directory L a f uuid h0 = Some (Some (FWU_STATUS_SUCCESS, h), a', f') /\
      step_ok a f a' f' /\ image_dir_buf a' = image_dir_buf a /\
      open_streams (streams a')
        = Stream h (BufferVariant 0 (image_dir_buf a) (img_dir_serializer_get_len (directory a))) :: l0 /\
      decode_directory (slice (dir_contents a') 0 (img_dir_serializer_get_len (directory a)))
        = directory_view (directory a) (accepted_images f)
  else open_image_directory L a f uuid h0 = Some (None, a, f).
Proof.
  intros Hok Hu. unfold open_image_directory. rewrite directory_guid. cbn [mbind option_bind].
  rewrite uuid_equal_eq by done. cbn [mbind option_bind].
  destruct (bytes_eqb uuid FWU_DIRECTORY_GUID); [|done].
  pose proof (ag_directory Hok) as Hd. pose proof (ag_contents Hok) as Hc.
  pose proof (ag_size Hok) as Hsz.
  destruct (serialize_decodes (directory a) (op_is_accepted L f) (accepted_images f) (dir_contents a) Hd)
    as (b & Hser & _ & Hlen & _ & Hdec); [by eapply agent_answers|lia|].
  rewrite Hc in Hser. rewrite Hser. cbn [mbind option_bind]. rewrite Z.eqb_refl.
  change (image_dir_buf (with_dir_contents a b)) with (image_dir_buf a).
  pose proof (dir_contents_step a f b Hok Hlen) as Hstep1.
  destruct (open_buffer_step (with_dir_contents a b) f (image_dir_buf a)
    (img_dir_serializer_get_len (directory a)) h0) as (h & m' & f' & -> & Hstep2 & l0 & Hl);
    [apply Hstep1|by apply serialized_len_ok| |].
  { exists b. split; [|lia]. unfold agent_heap. simpl. by rewrite Z.eqb_refl. }
  cbn [mbind option_bind]. eexists h, _, f', l0. split; [done|]. split.
  - eapply step_trans; [exact Hstep1|exact Hstep2].
  - done.
Qed.

Lemma open_fw_store_object_ok a f uuid h0 :
  ok a f -> len uuid = 16 ->
  exists r a' f', open_fw_store_object L a f uuid h0 = Some (r, a', f') /\ step_ok a f a' f'.
Proof.
  intros Hok Hu. unfold open_fw_store_object.
  assert (flow_allows (agent_flow a) (CallExport uuid)) as Ha by (by destruct (agent_flow a)).
  destruct (call_ok _ f (CallExport uuid) (ag_ready Hok) Ha) as (es & f1 & p' & Hp & Hlog & Hrun & Hr & Hle).
  cbn [perform] in Hp. apply bind_Some in Hp as ([e f0] & He & [= <- ->]). rewrite He.
  cbn [mbind option_bind]. injection Hrun as <-.
  assert (step_ok a f a f1) as Hstep by (by eapply (call_step _ _ _ _ [])).
  destruct e as [[[st data] n]|]; [|by eexists _, _, _].
  destruct (Z.eqb_spec st FWU_STATUS_SUCCESS) as [->|]; [|by eexists _, _, _].
  destruct (export_valid (ops := L) _ f uuid data n f1 (ag_ready Hok) Hu He) as (Hn & Hne & b & Hb & Hl).
  destruct (open_buffer_step a f1 data n h0) as (h & m' & f' & -> & Hstep2 & _);
    [apply Hstep|done| |].
  { exists b. split; [|done]. unfold agent_heap. rewrite (ag_buf Hok).
    by destruct (Z.eqb_spec data dir_address). }
  cbn [mbind option_bind]. eexists _, _, _. split; [done|]. by eapply step_trans.
Qed.

Lemma open_fw_image_ok a f uuid h0 :
  ok a f -> len uuid = 16 ->
  exists r a' f', open_fw_image L a f uuid h0 = Some (r, a', f') /\ step_ok a f a' f'.
Proof.
  intros Hok Hu. unfold open_fw_image. rewrite find_image_ok by (done || apply Hok).
  cbn [mbind option_bind].
  destruct (first_image _ uuid) as [image|] eqn:Hi; [|by eexists _, _, _; split; [done|apply step_refl]].
  pose proof (found_indexed _ _ _ _ Hok Hi) as Hidx.
  case_bool_decide as Hs; [|by eexists _, _, _; split; [done|apply step_refl]].
  assert (agent_flow a = Staging (installers (open_streams (streams a)))) as Hfl
    by (unfold agent_flow; by rewrite Hs).
  pose proof (ag_ready Hok) as Hr. rewrite Hfl in Hr.
  destruct (call_ok _ f (CallSelect image) Hr Hidx) as (es & f1 & p' & Hp & Hlog & Hrun & Hr1 & Hle).
  cbn [perform] in Hp. apply bind_Some in Hp as ([[st i] f0] & -> & [= <- ->]). cbn [mbind option_bind].
  destruct (Z.eqb_spec st FWU_STATUS_SUCCESS) as [->|Hne].
  - injection Hrun as <-. destruct (open_install_step a f f1 i image h0) as (h & m' & f' & new & -> & Hok' & Hlog' & Hrun);
      [done..|].
    cbn [mbind option_bind]. eexists _, _, _. split; [done|]. split; [done|].
    exists (ESelectInstaller FWU_STATUS_SUCCESS i :: new). rewrite Hlog', Hlog, <- app_assoc.
    split; [done|]. by rewrite Hfl.
  - eexists _, _, _. split; [done|]. eapply call_step; [done|done|done|by rewrite Hfl|done|].
    rewrite Hfl. simpl in Hrun. destruct (Z.eqb_spec st FWU_STATUS_SUCCESS); [done|]. by injection Hrun as <-.
Qed.

Lemma agent_open_ok a f uuid op_type h0 :
  ok a f -> len uuid = 16 ->
  exists st h a' f', open L a f uuid op_type h0 = Some (st, h, a', f') /\ step_ok a f a' f'.
Proof.
  intros Hok Hu. unfold open. pose proof (open_image_directory_ok a f uuid h0 Hok Hu) as Hdir.
  destruct (bytes_eqb uuid FWU_DIRECTORY_GUID).
  { destruct Hdir as (h & a' & f' & l0 & -> & Hstep & _). cbn [mbind option_bind]. by eexists _, _, _, _. }
  rewrite Hdir. cbn [mbind option_bind].
  destruct (open_fw_store_object_ok a f uuid h0 Hok Hu) as (r & a1 & f1 & -> & Hstep1).
  cbn [mbind option_bind]. destruct r as [[st h]|]; [by eexists _, _, _, _|].
  destruct (open_fw_image_ok a1 f1 uuid h0) as (r & a2 & f2 & -> & Hstep2); [apply Hstep1|done|].
  pose proof (step_trans _ _ _ _ _ _ Hstep1 Hstep2). cbn [mbind option_bind].
  by destruct r as [[st h]|]; eexists _, _, _, _.
Qed.

Lemma agent_step_ok a f o :
  ok a f -> agent_op_ok o ->
  exists rep a' f', agent_step L (a, f) o = Some (rep, (a', f')) /\ step_ok a f a' f'.
Proof.
  intros Hok Ho. destruct o as [flags count guid| | |uuid t|h data|h buf|h acc|uuid|]; simpl in *.
  - destruct (begin_staging_ok a f flags count guid Hok) as (st & a' & f' & Heq & Hs).
    eexists _, a', f'. split; [|done]. unfold update_agent_begin_staging. simpl. by rewrite Heq.
  - destruct (end_staging_ok a f Hok) as (st & a' & f' & Heq & Hs).
    eexists _, a', f'. split; [|done]. unfold update_agent_end_staging. simpl. by rewrite Heq.
  - destruct (cancel_staging_ok a f Hok) as (st & a' & f' & Heq & Hs & _).
    eexists _, a', f'. split; [|done]. unfold update_agent_cancel_staging. simpl. by rewrite Heq.
  - destruct (agent_open_ok a f uuid t 0 Hok Ho) as (st & h & a' & f' & Heq & Hs).
    eexists _, a', f'. split; [|done]. unfold update_agent_open. simpl. by rewrite Heq.
  - destruct Ho as [b ->]. destruct (write_stream_ok a f h b Hok) as (st & f' & Heq & Hs).
    eexists _, a, f'. split; [|done]. unfold update_agent_write_stream. simpl. by rewrite Heq.
  - destruct (read_stream_ok a f h buf 0 0 Hok) as (st & buf' & rl & tl & m' & Heq & Hs).
    eexists _, _, f. split; [|done]. unfold update_agent_read_stream. simpl. by rewrite Heq.
  - destruct (commit_ok a f h acc 0 0 Hok) as (st & p & t & a' & f' & Heq & Hs).
    eexists _, a', f'. split; [|done]. unfold update_agent_commit. simpl. by rewrite Heq.
  - destruct (accept_ok a f uuid Hok Ho) as (st & a' & f' & Heq & Hs).
    eexists _, a', f'. split; [|done]. unfold update_agent_accept_image. simpl. by rewrite Heq.
  - destruct (select_previous_ok a f Hok) as (st & a' & f' & Heq & Hs).
    eexists _, a', f'. split; [|done]. unfold update_agent_select_previous. simpl. by rewrite Heq.
Qed.

Lemma agent_run_ok a f os :
  ok a f -> Forall agent_op_ok os ->
  exists reps a' f', agent_run L (a, f) os = Some (reps, (a', f')) /\ step_ok a f a' f'.
Proof.
  intros Hok Hos. revert a f Hok. induction Hos as [|o os Ho Hos IH]; intros a f Hok.
  { eexists _, _, _. split; [done|]. by apply step_refl. }
  destruct (agent_step_ok a f o Hok Ho) as (rep & a1 & f1 & Heq & Hs1).
  destruct (IH a1 f1) as (reps & a2 & f2 & Hr & Hs2); [apply Hs1|].
  exists (rep :: reps), a2, f2. cbn [agent_run]. rewrite Heq. cbn [mbind option_bind]. rewrite Hr.
  split; [done|]. by eapply step_trans.
Qed.

End Invariant.

(** ** Initialization *)

(** An inspector fills the directory properly (fw_directory_add_image_info numbers
    the images), and malloc returns a block of the requested size. *)
Class AgentEnvironment (inspect : fw_directory -> Z -> Z * fw_directory) (dir_address : Z)
    (indeterminate : Z -> bytes) : Prop := {
  inspect_ok d b : directory_ok d -> Forall indexed (images d) ->
    directory_ok (snd (inspect d b)) /\ Forall indexed (images (snd (inspect d b)));
  dir_address_not_null : dir_address <> 0;
  indeterminate_len n : 0 <= n -> len (indeterminate n) = n
}.

Lemma allocate_live al : live (snd (allocate al)) = live al + if fst (allocate al) then 1 else 0.
Proof. unfold allocate. destruct (outcomes al) as [|[] ?]; simpl; lia. Qed.

(** The directory an inspector makes. *)
Definition inspected (inspect : fw_directory -> Z -> Z * fw_directory) (boot : Z) : fw_directory :=
  snd (inspect fw_directory_init boot).

Section InitOk.
Context {F : Type} (ops : fw_store_ops F) (store_address dir_address : Z)
  (inspect : fw_directory -> Z -> Z * fw_directory) (indeterminate : Z -> bytes).
Context {store_ok : flow -> F -> Prop} {store_fresh : fw_directory -> Z -> F -> Prop}
  {Hlaws : FwStoreLaws ops dir_address store_ok store_fresh}
  {Henv : AgentEnvironment inspect dir_address indeterminate}.

Abbreviation init := (update_agent_init ops inspect store_address dir_address indeterminate).

Lemma synchronized_ok f d b st d' f' :
  op_synchronize ops f d b = Some (st, d', f') ->
  directory_ok d -> directory_ok d' /\ images d' = images d.
Proof.
  intros Hs Hd. destruct (synchronize_images _ _ _ _ _ _ Hs) as [Hn He].
  unfold directory_ok, images in *. by rewrite Hn, He.
Qed.

Lemma update_agent_init_ok al f boot :
  store_fresh (inspected inspect boot) boot f ->
  exists r al' f', init al f boot = Some (r, al', f') /\
    match r with
    | None => live al' = live al
    | Some a => live al' = live al + 3 /\ agent_ok ops dir_address store_ok a f' /\
        exists trial, op_is_trial ops f' = Some trial /\
          state a = if trial : bool then FWU_STATE_TRIAL else FWU_STATE_REGULAR
    end.
Proof.
  intros Hfresh. unfold update_agent_init. pose proof (allocate_live al) as Hlive.
  destruct (allocate al) as [[] al1]; simpl in Hlive; [|by eexists _, _, _; split; [done|simpl; lia]].
  cbn [negb]. cbv iota. set (a0 := GenericUpdateAgent _ _ _ _ _ _ _).
  destruct (init_ok (fun _ => None) (streams a0)) as (m & -> & (Hm & Hso) & Hs & _); [done|].
  unfold inspected in Hfresh. simpl. destruct (inspect fw_directory_init boot) as [st d] eqn:Hi. simpl in Hfresh.
  assert (directory_ok d /\ Forall indexed (images d)) as [Hd Hidx].
  { change d with (snd (st, d)). rewrite <- Hi. apply inspect_ok; [apply init_directory_ok|constructor]. }
  destruct (st =? FWU_STATUS_SUCCESS); cbn [negb]; cbv iota;
    [|by eexists _, _, _; split; [done|simpl; lia]].
  simpl directory. destruct (synchronize_returns f d boot Hfresh) as (st2 & d2 & f2 & Hsy & Htrial).
  rewrite Hsy. cbn [mbind option_bind].
  destruct (synchronized_ok _ _ _ _ _ _ Hsy Hd) as [Hd2 Himg].
  destruct (Z.eqb_spec st2 FWU_STATUS_SUCCESS) as [E|]; cbn [negb]; cbv iota;
    [|by eexists _, _, _; split; [done|simpl; lia]].
  destruct (Htrial E) as (trial & Ht & Hready). clear Htrial.
  simpl directory. pose proof (allocate_live al1) as Hlive2.
  destruct (allocate al1) as [[] al2]; simpl in Hlive2; cbn [negb]; cbv iota;
    [|by eexists _, _, _; split; [done|simpl; lia]].
  rewrite Ht. cbn [mbind option_bind].
  pose proof (allocate_live al2) as Hlive3. pose proof dir_address_not_null as Hnn.
  destruct (allocate al2) as [[] al3]; simpl in Hlive3; cbn [negb]; cbv iota.
  2:{ eexists _, _, _. split; [done|]. unfold deinit_context. simpl.
      destruct (Z.eqb_spec dir_address 0); [done|]. simpl. lia. }
  eexists _, _, _. split; [done|]. split; [lia|]. split; [|by exists trial].
  pose proof (serialized_len_ok d2 Hd2) as Hn.
  split; simpl; rewrite ?Hs; try done; try constructor.
  - done.
  - by rewrite Hs.
  - by rewrite Himg.
  - eapply indeterminate_len. lia.
  - by destruct trial.
  - by destruct trial.
  - unfold agent_flow. simpl. by destruct trial.
Qed.

End InitOk.

(** ** Installing an image *)

Section Install.
Context {F : Type} (ops : fw_store_ops F) (dir_address : Z) {store_ok : flow -> F -> Prop}
  {store_fresh : fw_directory -> Z -> F -> Prop} {Hlaws : FwStoreLaws ops dir_address store_ok store_fresh}.
Abbreviation L := (logged ops).
Abbreviation ok := (agent_ok (logged ops) dir_address (on_store store_ok)).
Implicit Types f : F * list store_event.

Lemma write_open_stream a f h store i image data :
  ok a f -> Stream h (InstallVariant store i image) ∈ open_streams (streams a) ->
  exists st f', agent_step L (a, f) (WriteObject h (Some data)) = Some (StreamReply st 0 [], (a, f')) /\
    ok a f' /\ snd f' = snd f ++ [EWriteImage i data].
Proof.
  intros Hok Hin. destruct (write_stream_ok ops dir_address a f h data Hok) as (st & f' & Heq & [Hok' _]).
  exists st, f'. split; [simpl; unfold update_agent_write_stream; simpl; by rewrite Heq|].
  split; [done|]. destruct (ag_manager Hok) as [(fl & al & Hsm) _]. unfold write_stream in Heq.
  pose proof (write_ok (agent_write_image L) (streams a) f fl al h (Some data) Hsm) as Hspec.
  destruct (stream_manager_write _ _ _ _ _) as [[st1 f1]|]; [|done]. injection Heq as -> ->.
  inversion Hspec as [s store1 i1 image1 b st0 f0 Hs Hh Hv Hd Hwr|Hno]; subst.
  - assert (s = Stream (st_handle s) (InstallVariant store i image)) as Hseq
      by (by eapply same_stream). rewrite Hseq in Hv. simpl in Hv. injection Hv as -> -> ->.
    injection Hd as ->. eapply (logged_events ops f (CallWrite i1 b)). cbn [perform].
    unfold agent_write_image in Hwr. by rewrite Hwr.
  - exfalso. by apply (Hno _ Hin).
Qed.

Lemma write_chunks a f h store i image chunks :
  ok a f -> Stream h (InstallVariant store i image) ∈ open_streams (streams a) ->
  exists reps f', agent_run L (a, f) (map (fun b => WriteObject h (Some b)) chunks) = Some (reps, (a, f')) /\
    ok a f' /\ snd f' = snd f ++ map (EWriteImage i) chunks.
Proof.
  intros Hok Hin. revert f Hok. induction chunks as [|c cs IH]; intros f Hok.
  { eexists _, f. split; [done|]. split; [done|]. by rewrite app_nil_r. }
  destruct (write_open_stream a f h store i image c Hok Hin) as (st & f1 & Hs & Hok1 & Hl1).
  destruct (IH f1 Hok1) as (reps & f2 & Hr & Hok2 & Hl2). cbn [map agent_run]. rewrite Hs.
  cbn [mbind option_bind]. rewrite Hr. eexists _, f2. split; [done|]. split; [done|].
  rewrite Hl2, Hl1, <- app_assoc. done.
Qed.

Lemma commit_open_stream a f h store i image acc :
  ok a f -> Stream h (InstallVariant store i image) ∈ open_streams (streams a) ->
  exists st a' f', agent_step L (a, f) (CommitObject h acc) = Some (StreamReply st 0 [], (a', f')) /\
    ok a' f' /\ snd f' = snd f ++ [ECommitImage i acc] /\ i ∉ installers (open_streams (streams a')).
Proof.
  intros Hok Hin. destruct (commit_ok ops dir_address a f h acc 0 0 Hok)
    as (st & p & t & a' & f' & Heq & [Hok' _]).
  exists st, a', f'. destruct (ag_manager Hok) as [(fl & al & Hsm) _]. pose proof Heq as Heq'.
  unfold commit in Heq.
  pose proof (close_ok (agent_commit_image L) (streams a) f fl al h acc Hsm) as Hc.
  destruct (stream_manager_close _ _ _ _ _) as [[[st1 m1] f1]|]; [|done].
  destruct Hc as (fl1 & al1 & _ & _ & Hspec).
  cbn [mbind option_bind] in Heq. injection Heq as -> <- <- <- ->.
  inversion Hspec as [Hno|s st0 f0 Hs Hh Hcm]; subst; [by exfalso; apply (Hno _ Hin)|].
  assert (s = Stream (st_handle s) (InstallVariant store i image)) as Hseq by (by eapply same_stream).
  rewrite Hseq in Hcm. unfold commit_stream, agent_commit_image in Hcm. simpl st_variant in Hcm.
  split; [simpl; unfold update_agent_commit; simpl; by rewrite Heq'|]. split; [done|]. split.
  - eapply (logged_events ops f (CallCommit i image acc)). cbn [perform]. by rewrite Hcm.
  - simpl. intros (s' & Hs' & Hi')%list_elem_of_omap.
    match goal with H : without _ _ = _ |- _ => rewrite <- H in Hs' end.
    apply list_elem_of_filter in Hs' as [Hne Hs'].
    apply Hne. f_equal. eapply unique_installer; [apply Hok|done|exact Hs|done|].
    rewrite Hseq. done.
Qed.

Lemma open_room P v count l f h l' f' :
  open_spec (agent_commit_image L) P v count l f h l' f' -> (length l < 4)%nat ->
  f' = f /\ Stream h v ∈ l'.
Proof.
  intros Ho Hl. inversion Ho as [? l0 ? Hroom]; subst. split; [|left].
  inversion Hroom as [|? ? ? ? Hlen]; subst; [done|].
  pose proof (length_filter (fun s => P s = false) l). lia.
Qed.

Lemma open_image a f uuid t image i g g' :
  ok a f -> state a = FWU_STATE_STAGING -> len uuid = 16 -> uuid <> FWU_DIRECTORY_GUID ->
  op_export ops (fst f) uuid = Some (None, g) -> first_image (images (directory a)) uuid = Some image ->
  op_select_installer ops g image = Some (FWU_STATUS_SUCCESS, i, g') ->
  (length (open_streams (streams a)) < 4)%nat ->
  exists h a' f', agent_step L (a, f) (OpenObject uuid t)
      = Some (StreamReply FWU_STATUS_SUCCESS h [], (a', f')) /\
    ok a' f' /\ snd f' = snd f ++ [ESelectInstaller FWU_STATUS_SUCCESS i] /\ fst f' = g' /\
    state a' = FWU_STATE_STAGING /\
    Stream h (InstallVariant (fw_store a) i image) ∈ open_streams (streams a').
Proof.
  intros Hok Hs Hu Hne Hex Him Hsel Hlen.
  destruct (agent_open_ok ops dir_address a f uuid t 0 Hok Hu) as (st & h & a' & f' & Heq & [Hok' _]).
  pose proof Heq as Heq'. unfold open in Heq.
  pose proof (open_image_directory_ok ops dir_address a f uuid 0 Hok Hu) as Hdir.
  unfold bytes_eqb in Hdir. rewrite bool_decide_false in Hdir by done. rewrite Hdir in Heq. cbn [mbind option_bind] in Heq.
  unfold open_fw_store_object in Heq. simpl op_export in Heq. rewrite Hex in Heq.
  cbn [mbind option_bind] in Heq. unfold open_fw_image in Heq.
  rewrite find_image_ok in Heq by (done || apply Hok). cbn [mbind option_bind] in Heq.
  rewrite Him in Heq. rewrite bool_decide_true in Heq by done. simpl op_select_installer in Heq.
  rewrite Hsel in Heq. cbn [mbind option_bind] in Heq. rewrite Z.eqb_refl in Heq.
  destruct (ag_manager Hok) as [(fl & al & Hsm) _].
  pose proof (open_install_ok (agent_commit_image L) (streams a)
    (log_event (g, snd f) g' (ESelectInstaller FWU_STATUS_SUCCESS i)) fl al (fw_store a) i image 0 Hsm) as Ho.
  unfold opened in Ho. destruct (stream_manager_open_install_stream _ _ _ _ _ _ _) as [[[[st1 h1] m1] f1]|];
    [|done]. destruct Ho as (-> & fl1 & al1 & _ & _ & Hspec).
  cbn [mbind option_bind] in Heq. injection Heq as <- <- <- <-.
  destruct (open_room _ _ _ _ _ _ _ _ Hspec Hlen) as [-> Hin].
  exists h1, (with_streams a m1), (log_event (g, snd f) g' (ESelectInstaller FWU_STATUS_SUCCESS i)).
  split; [simpl; unfold update_agent_open; simpl; by rewrite Heq'|]. done.
Qed.
End Install.

Lemma agent_run_app {F} (ops : fw_store_ops F) c os1 os2 :
  agent_run ops c (os1 ++ os2) =
  ('(r1, c) ← agent_run ops c os1; '(r2, c) ← agent_run ops c os2; Some (r1 ++ r2, c)).
Proof.
  revert c. induction os1 as [|o os1 IH]; intros c; simpl.
  - by destruct (agent_run ops c os2) as [[??]|].
  - destruct (agent_step ops c o) as [[rep c1]|]; [|done]. simpl. rewrite IH.
    destruct (agent_run ops c1 os1) as [[r1 c2]|]; [|done]. simpl.
    by destruct (agent_run ops c2 os2) as [[??]|].
Qed.

(** Reading the stream opened last. *)
Lemma read_new heap h data n l size st out l' :
  (forall s, s ∈ l -> st_handle s <> h) ->
  read_spec heap (Stream h (BufferVariant 0 data n) :: l) h size st out l' ->
  st = FWU_STATUS_SUCCESS /\ exists b, heap data = Some b /\ out = slice b 0 (Z.min size (n - 0)).
Proof.
  intros Hl Hr. inversion Hr as [s pos d m b Hs Hh Hv Hb Hst|s Hs Hh Hv Hst|Hno Hst].
  - apply elem_of_cons in Hs as [E|Hs]; [|by apply Hl in Hs]. rewrite E in Hv. simpl in Hv.
    injection Hv as <- <- <-. split; [done|]. by exists b.
  - apply elem_of_cons in Hs as [E|Hs]; [by rewrite E in Hv|by apply Hl in Hs].
  - exfalso. eapply Hno; [left|done].
Qed.

(** ** Properties *)

Section Properties.
Context {F : Type} (ops : fw_store_ops F) (store_address dir_address : Z)
  (inspect : fw_directory -> Z -> Z * fw_directory) (indeterminate : Z -> bytes)
  (store_ok : flow -> F -> Prop) (store_fresh : fw_directory -> Z -> F -> Prop).

(** The agent enforces the update flow.  Over any store that returns from the calls
    the flow allows, and whatever the inspector and the sequence of client
    operations, every operation returns, and the calls that reach the store are
    those the flow allows: installation only begins from
    the regular state; images are only selected, written and committed while
    staging, each write and commit going to an installer whose image is open;
    installation is only finalized when every opened image has been committed or
    cancelled; acceptance is only notified on trial, the update is committed to
    exactly when the store reports everything accepted, and reverting happens only
    in the trial states. *)
Theorem update_agent_flow al f boot a al' f0 os :
  FwStoreLaws ops dir_address store_ok store_fresh ->
  AgentEnvironment inspect dir_address indeterminate -> store_fresh (inspected inspect boot) boot f ->
  Forall agent_op_ok os ->
  update_agent_init (logged ops) inspect store_address dir_address indeterminate al (f, []) boot
    = Some (Some a, al', f0) ->
  exists trial reps a' f' new, op_is_trial ops (fst f0) = Some trial /\
    agent_run (logged ops) (a, f0) os = Some (reps, (a', f')) /\ snd f' = snd f0 ++ new /\
    flow_run (if trial : bool then Trial else Regular) new = Some (agent_flow a').
Proof.
  intros Hlaws Henv Hfresh Hos Hinit.
  destruct (update_agent_init_ok (logged ops) store_address dir_address inspect indeterminate
    (store_fresh := on_fresh store_fresh) al (f, []) boot Hfresh) as (r & al1 & f1 & Heq & Hr).
  rewrite Hinit in Heq. injection Heq as <- <- <-. destruct Hr as (_ & Hok & trial & Ht & Hst).
  destruct (agent_run_ok ops dir_address a f0 os Hok Hos) as (reps & a' & f' & Hrun & _ & new & Hlog & Hflow).
  exists trial, reps, a', f', new. do 3 (split; [done|]). rewrite <- Hflow. f_equal.
  unfold agent_flow. rewrite Hst. by destruct trial.
Qed.

(** C23: an image a client installs reaches its installer intact.  Over any store
    that returns from the calls the update flow allows, while staging,
    opening an image of the directory (with a stream to spare) selects its
    installer and opens a stream; writing chunks to that stream and committing it
    makes exactly these calls, in order: the selection, one write per chunk with
    the chunk's bytes to the selected installer, and the commit with the client's
    acceptance; afterwards the installer has no open image. *)
Theorem agent_install_image a f uuid t image i g g' :
  FwStoreLaws ops dir_address store_ok store_fresh ->
  agent_ok (logged ops) dir_address (on_store store_ok) a f ->
  state a = FWU_STATE_STAGING -> len uuid = 16 -> uuid <> FWU_DIRECTORY_GUID ->
  op_export ops (fst f) uuid = Some (None, g) -> first_image (images (directory a)) uuid = Some image ->
  op_select_installer ops g image = Some (FWU_STATUS_SUCCESS, i, g') ->
  (length (open_streams (streams a)) < 4)%nat ->
  exists h c1, agent_step (logged ops) (a, f) (OpenObject uuid t)
      = Some (StreamReply FWU_STATUS_SUCCESS h [], c1) /\
    forall chunks acc, exists reps a2 f2,
      agent_run (logged ops) c1 (map (fun b => WriteObject h (Some b)) chunks ++ [CommitObject h acc])
        = Some (reps, (a2, f2)) /\
      snd f2 = snd f ++ ESelectInstaller FWU_STATUS_SUCCESS i :: map (EWriteImage i) chunks
               ++ [ECommitImage i acc] /\
      i ∉ installers (open_streams (streams a2)).
Proof.
  intros Hlaws Hok Hs Hu Hne Hex Him Hsel Hlen.
  destruct (open_image ops dir_address a f uuid t image i g g') as (h & a1 & f1 & Hop & Hok1 & Hlog1 & _ & _ & Hin);
    [done..|]. exists h, (a1, f1). split; [done|]. intros chunks acc.
  destruct (write_chunks ops dir_address a1 f1 h _ i image chunks Hok1 Hin) as (reps & f2 & Hr & Hok2 & Hlog2).
  destruct (commit_open_stream ops dir_address a1 f2 h _ i image acc Hok2 Hin)
    as (st & a3 & f3 & Hc & _ & Hlog3 & Hni).
  eexists _, a3, f3. rewrite agent_run_app, Hr. cbn [mbind option_bind agent_run]. rewrite Hc.
  cbn [mbind option_bind]. split; [done|]. split; [|done].
  rewrite Hlog3, Hlog2, Hlog1, <- !app_assoc. done.
Qed.

(** The image directory is readable through the agent.  In every state a
    client can open the directory's UUID, and reading the stream with a large
    enough buffer returns bytes that decode to the agent's directory with the
    store's view of which images are accepted. *)
Theorem agent_image_directory_read a f t buf :
  FwStoreLaws ops dir_address store_ok store_fresh ->
  agent_ok (logged ops) dir_address (on_store store_ok) a f ->
  img_dir_serializer_get_len (directory a) <= len buf ->
  exists h c1 c2 out acc, agent_step (logged ops) (a, f) (OpenObject FWU_DIRECTORY_GUID t)
      = Some (StreamReply FWU_STATUS_SUCCESS h [], c1) /\
    agent_step (logged ops) c1 (ReadObject h buf) = Some (StreamReply FWU_STATUS_SUCCESS 0 out, c2) /\
    decode_directory out = directory_view (directory a) acc /\
    answers (directory a) (op_is_accepted ops (fst f)) acc.
Proof.
  intros Hlaws Hok Hbuf.
  pose proof (open_image_directory_ok ops dir_address a f FWU_DIRECTORY_GUID 0 Hok) as Hdir.
  destruct Hdir as (h & a1 & f1 & l0 & Hop & [Hok1 _] & Hbase & Hl & Hdec); [done|].
  set (n := img_dir_serializer_get_len (directory a)) in *.
  destruct (ag_manager Hok1) as [(fl & al & Hsm) Hst].
  destruct (read_ok (agent_heap (logged ops) a1 f1) (streams a1) fl al h buf 0 0 Hsm Hst)
    as (st & buf' & rl & tl & m2 & Hr & _ & _ & _ & out & Hspec & Hsucc & _).
  assert (forall s, s ∈ l0 -> st_handle s <> h) as Huniq.
  { pose proof (streams_nodup _ _ _ Hsm) as Hnd. rewrite Hl in Hnd. simpl in Hnd.
    apply NoDup_cons in Hnd as [Hni _]. intros s Hs Hh. apply Hni. unfold stream_index at 1. simpl.
    rewrite <- Hh. by apply (list_elem_of_fmap_2 stream_index). }
  rewrite Hl in Hspec. eapply read_new in Hspec as (-> & b & Hb & ->); [|done].
  destruct (Hsucc eq_refl) as [_ Hout].
  eexists h, (a1, f1), _, _, (accepted_images ops f).
  split; [|split; [|split; [|by eapply (agent_answers ops dir_address)]]].
  - simpl. unfold update_agent_open. simpl. unfold open. by rewrite Hop.
  - simpl. unfold update_agent_read_stream. simpl. unfold read_stream. rewrite Hr.
    cbn [mbind option_bind]. by rewrite Hout.
  - rewrite Z.sub_0_r, Z.min_r by done. unfold agent_heap in Hb.
    rewrite Hbase, Z.eqb_refl in Hb. injection Hb as <-. exact Hdec.
Qed.

(** Initialization and release are balanced.  Whichever allocation, the
    inspector or the store fails, update_agent_init returns; on failure everything
    it allocated is released, and on success update_agent_deinit of the agent it
    returned releases exactly what it holds, also after any client operations. *)
Theorem update_agent_balanced al f boot :
  FwStoreLaws ops dir_address store_ok store_fresh ->
  AgentEnvironment inspect dir_address indeterminate -> store_fresh (inspected inspect boot) boot (fst f) ->
  exists r al' f', update_agent_init (logged ops) inspect store_address dir_address indeterminate al f boot
      = Some (r, al', f') /\
    match r with
    | None => live al' = live al
    | Some a => forall os, Forall agent_op_ok os ->
        exists reps a' f2, agent_run (logged ops) (a, f') os = Some (reps, (a', f2)) /\
          live (update_agent_deinit al' a') = live al
    end.
Proof.
  intros Hlaws Henv Hfresh.
  destruct (update_agent_init_ok (logged ops) store_address dir_address inspect indeterminate
    (store_fresh := on_fresh store_fresh) al f boot Hfresh) as (r & al1 & f1 & Heq & Hr). exists r, al1, f1. split; [done|]. destruct r as [a|]; [|done].
  destruct Hr as (Hlive & Hok & _). intros os Hos.
  destruct (agent_run_ok ops dir_address a f1 os Hok Hos) as (reps & a' & f' & Hrun & [Hok' _]).
  exists reps, a', f'. split; [done|]. pose proof (ag_buf Hok') as Hbuf.
  unfold update_agent_deinit, deinit_context. rewrite Hbuf.
  pose proof (dir_address_not_null (AgentEnvironment := Henv)).
  destruct (Z.eqb_spec dir_address 0); [done|]. simpl. lia.
Qed.

End Properties.

(** ** Examples *)

(** A store that counts its calls, installs an image by its version number, asserts
    that images are in its table and that it booted from one of two banks, and
    exports one buffer; and an inspector that finds two images. *)
Definition sample_export : bytes := fill 138 16.

Definition in_table {A} (image : image_info) (a : A) : option A :=
  if image_index image <? FWU_MAX_FW_DIRECTORY_ENTRIES then Some a else None.

Definition sample_ops : fw_store_ops Z :=
  FwStoreOps Z
    (fun f d b => if b <? 2 then Some (FWU_STATUS_SUCCESS, fw_directory_set_boot_info d (BootInfo b b b), f)
                  else None)
    (fun f => Some (FWU_STATUS_SUCCESS, f + 1))
    (fun f => Some (f + 1))
    (fun f => Some (FWU_STATUS_SUCCESS, f + 1))
    (fun f image => in_table image (FWU_STATUS_SUCCESS, active_version image, f + 1))
    (fun f i data => Some (FWU_STATUS_SUCCESS, f + len data))
    (fun f i image acc => in_table image (FWU_STATUS_SUCCESS, f + 1))
    (fun f image => in_table image (true, f + 1))
    (fun f image => in_table image (active_version image =? 6))
    (fun f => Some (f <? 0))
    (fun f => Some (FWU_STATUS_SUCCESS, f + 1))
    (fun f => Some (FWU_STATUS_SUCCESS, f + 1))
    (fun f uuid => Some (if bytes_eqb uuid sample_export then Some (FWU_STATUS_SUCCESS, 32, 4) else None, f))
    (fun f addr => if addr =? 32 then Some [1; 2; 3; 4] else None).

(** It is ready everywhere in the flow. *)
Definition sample_ready (p : flow) (f : Z) : Prop := True.
Definition sample_fresh (d : fw_directory) (boot_index f : Z) : Prop := boot_index < 2.

Lemma indexed_in_table {A} image (a : A) : indexed image -> in_table image a = Some a.
Proof. intros [_ Hi]. unfold in_table. by destruct (Z.ltb_spec (image_index image) FWU_MAX_FW_DIRECTORY_ENTRIES); [|lia]. Qed.

#[export] Instance sample_laws : FwStoreLaws sample_ops 64 sample_ready sample_fresh.
Proof.
  split.
  - intros p f c _ Hc. destruct p, c; simpl in Hc; try done;
      try match type of Hc with _ /\ indexed _ => destruct Hc as [Hin Hc] end; simpl;
      rewrite ?indexed_in_table by done; eexists _, _, _; (split; [done|]); simpl;
      rewrite ?bool_decide_true by done; do 2 (split; [done|]); intros addr b Hb; by exists b.
  - intros p f image _ Hi. simpl. rewrite indexed_in_table by done. by eexists.
  - intros p f uuid data n f' _ _ He. simpl in *. destruct (bytes_eqb uuid sample_export); [|done].
    injection He as <- <- <-. split; [lia|]. split; [done|]. by exists [1; 2; 3; 4].
  - intros f d b Hb. unfold sample_fresh in Hb. simpl. destruct (Z.ltb_spec b 2); [|lia].
    eexists _, _, _. split; [done|]. intros _. by eexists.
  - intros f d b st d' f' He. simpl in He. destruct (b <? 2); [|done]. by injection He as _ <- _.
Qed.

Definition sample_inspect (d : fw_directory) (b : Z) : Z * fw_directory :=
  match fw_directory_add_image_info d (example_image 5) with
  | Some (_, d) =>
      match fw_directory_add_image_info d (example_image 6) with
      | Some (st, d) => (st, d)
      | None => (FWU_STATUS_UNKNOWN, d)
      end
  | None => (FWU_STATUS_UNKNOWN, d)
  end.

#[export] Instance sample_environment : AgentEnvironment sample_inspect 64 (fill 170).
Proof.
  split; [|done|intros n Hn; by apply len_fill].
  assert (forall d i st d', fw_directory_add_image_info d i = Some (st, d') -> len (img_type_uuid i) = 16 ->
    directory_ok d -> Forall indexed (images d) -> directory_ok d' /\ Forall indexed (images d')) as Hadd.
  { intros d i st d' He Hu Hd Hidx. destruct (add_image_ok d i Hd Hu) as (st1 & d1 & He1 & Hd1 & Himg).
    rewrite He in He1. injection He1 as <- <-. split; [done|]. rewrite Himg.
    destruct (Z.ltb_spec (num_images d) FWU_MAX_FW_DIRECTORY_ENTRIES); [|done].
    apply Forall_app. split; [done|]. constructor; [|constructor]. split; [apply Hd|done]. }
  intros d b Hd Hidx. unfold sample_inspect.
  destruct (fw_directory_add_image_info d (example_image 5)) as [[st1 d1]|] eqn:E1; [|done].
  destruct (Hadd _ _ _ _ E1) as [Hd1 Hidx1]; [done..|].
  destruct (fw_directory_add_image_info d1 (example_image 6)) as [[st2 d2]|] eqn:E2; [|done].
  by eapply Hadd.
Qed.

Definition sample_allocator : allocator := Allocator 0 [true; true; true].
Definition sample_init :=
  update_agent_init (logged sample_ops) sample_inspect 1 64 (fill 170) sample_allocator (0, []) 1.
Definition sample_agent : generic_update_agent :=
  match sample_init with Some (Some a, _, _) => a | _ => zero_agent end.

Lemma sample_agent_ok : agent_ok (logged sample_ops) 64 (on_store sample_ready) sample_agent (0, []).
Proof.
  destruct (update_agent_init_ok (logged sample_ops) 1 64 sample_inspect (fill 170)
    (store_fresh := on_fresh sample_fresh) sample_allocator (0, []) 1) as (r & al & f & Heq & Hr); [done|].
  assert (sample_init = Some (Some sample_agent, Allocator 3 [], (0, []))) as Hi
    by (vm_compute; reflexivity).
  unfold sample_init in Hi. rewrite Heq in Hi. injection Hi as -> -> ->. apply Hr.
Qed.

Definition sample_session : list agent_op :=
  [BeginStaging 0 0 []; OpenObject (fill 5 16) 1; WriteObject 3 (Some [7; 8]); EndStaging;
   CommitObject 3 true; EndStaging; WriteObject 3 (Some [9]); SelectPrevious].

(** Finalizing is refused until the image is committed; the closed stream and the
    finished installation take no more data. *)
Example sample_session_run :
  (fun '(reps, (a, f)) => (map rep_status reps, snd f)) <$>
    agent_run (logged sample_ops) (sample_agent, (0, [])) sample_session
  = Some ([0; 0; 0; FWU_STATUS_BUSY; 0; 0; FWU_STATUS_UNKNOWN; 0],
          [EBeginInstall 0; ESelectInstaller 0 6; EWriteImage 6 [7; 8]; ECommitImage 6 true;
           EFinalizeInstall 0; ERevertToPrevious]).
Proof. vm_compute. reflexivity. Qed.

Lemma update_agent_flow_witness :
  exists trial reps a' f' new, op_is_trial sample_ops 0 = Some trial /\ agent_run (logged sample_ops) (sample_agent, (0, [])) sample_session
      = Some (reps, (a', f')) /\
    snd f' = [] ++ new /\
    flow_run (if trial : bool then Trial else Regular) new = Some (agent_flow a').
Proof.
  apply (update_agent_flow sample_ops 1 64 sample_inspect (fill 170) sample_ready sample_fresh
    sample_allocator 0 1 sample_agent (Allocator 3 []) (0, []) sample_session).
  - exact sample_laws.
  - exact sample_environment.
  - reflexivity.
  - repeat (constructor; [by try eexists|]). constructor.
  - vm_compute. reflexivity.
Defined.

Definition staged_agent : generic_update_agent := with_state sample_agent FWU_STATE_STAGING.

Lemma staged_agent_ok :
  agent_ok (logged sample_ops) 64 (on_store sample_ready) staged_agent (1, [EBeginInstall 0]).
Proof.
  apply (with_state_ok sample_ops 64 sample_agent (0, []));
    [apply sample_agent_ok|reflexivity|done|done|done].
Qed.

Lemma agent_install_image_witness :
  exists h c1, agent_step (logged sample_ops) (staged_agent, (1, [EBeginInstall 0]))
      (OpenObject (fill 6 16) 1) = Some (StreamReply FWU_STATUS_SUCCESS h [], c1) /\
    forall chunks acc, exists reps a2 f2,
      agent_run (logged sample_ops) c1 (map (fun b => WriteObject h (Some b)) chunks ++ [CommitObject h acc])
        = Some (reps, (a2, f2)) /\
      snd f2 = [EBeginInstall 0] ++ ESelectInstaller FWU_STATUS_SUCCESS 7 ::
        map (EWriteImage 7) chunks ++ [ECommitImage 7 acc] /\
      7 ∉ installers (open_streams (streams a2)).
Proof.
  apply (agent_install_image sample_ops 64 sample_ready sample_fresh staged_agent (1, [EBeginInstall 0]) (fill 6 16) 1
    (set_image_index (example_image 6) 1) 7 1 2).
  - exact sample_laws.
  - exact staged_agent_ok.
  - reflexivity.
  - reflexivity.
  - vm_compute. discriminate.
  - reflexivity.
  - vm_compute. reflexivity.
  - reflexivity.
  - vm_compute. lia.
Defined.

Lemma agent_image_directory_read_witness :
  exists h c1 c2 out acc, agent_step (logged sample_ops) (sample_agent, (0, []))
      (OpenObject FWU_DIRECTORY_GUID 0) = Some (StreamReply FWU_STATUS_SUCCESS h [], c1) /\
    agent_step (logged sample_ops) c1 (ReadObject h (fill 0 128))
      = Some (StreamReply FWU_STATUS_SUCCESS 0 out, c2) /\
    decode_directory out = directory_view (directory sample_agent) acc /\
    answers (directory sample_agent) (op_is_accepted sample_ops 0) acc.
Proof.
  apply (agent_image_directory_read sample_ops 64 sample_ready sample_fresh sample_agent (0, []) 0 (fill 0 128)).
  - exact sample_laws.
  - exact sample_agent_ok.
  - vm_compute. discriminate.
Defined.

Lemma update_agent_balanced_witness :
  exists r al' f', update_agent_init (logged sample_ops) sample_inspect 1 64 (fill 170)
      (Allocator 0 [true; false]) (0, []) 1 = Some (r, al', f') /\
    match r with
    | None => live al' = 0
    | Some a => forall os, Forall agent_op_ok os ->
        exists reps a' f2, agent_run (logged sample_ops) (a, f') os = Some (reps, (a', f2)) /\
          live (update_agent_deinit al' a') = 0
    end.
Proof.
  apply (update_agent_balanced sample_ops 1 64 sample_inspect (fill 170) sample_ready sample_fresh
    (Allocator 0 [true; false]) (0, []) 1).
  - exact sample_laws.
  - exact sample_environment.
  - reflexivity.
Defined.
