(* ===== verification/BankTracker.v ===== *)
(** * components/service/fwu/fw_store/banked: bank tracker, bank scheme, volume ids

    What the banked firmware store knows of its two banks: whether a bank holds
    content and which images in it are accepted.  A failing assert() is [None]. *)
From S2P Require Import Prelude Status FwDirectory.

Definition BANK_SCHEME_NUM_BANKS : Z := 2.

Definition bank_scheme_next_index (bank_index : Z) : Z := if bank_index =? 0 then 1 else 0.

Definition BANKED_VOLUME_ID_PRIMARY_METADATA : Z := 0xffff0000.
Definition BANKED_VOLUME_ID_BACKUP_METADATA : Z := 0xffff0001.
Definition BANKED_USAGE_ID_FW_BANK_A : Z := 0.
Definition BANKED_USAGE_ID_FW_BANK_B : Z := 1.

Definition banked_volume_id (location_id usage_id : Z) : Z :=
  Z.lor (u32 (Z.shiftl location_id 16)) (Z.land usage_id 65535).

Definition banked_usage_id (bank_index : Z) : Z :=
  if bank_index =? 0 then BANKED_USAGE_ID_FW_BANK_A else BANKED_USAGE_ID_FW_BANK_B.

Record bank := Bank { is_content : bool; is_accepted : list bool }.

Record bank_tracker := BankTracker { bank_state : list bank }.

Implicit Types t : bank_tracker.

Definition all_images (b : bool) : list bool := replicate (Z.to_nat FWU_MAX_FW_DIRECTORY_ENTRIES) b.

(** memset to 0. *)
Definition bank_tracker_init : bank_tracker :=
  BankTracker (replicate (Z.to_nat BANK_SCHEME_NUM_BANKS) (Bank false (all_images false))).

Definition bank_tracker_deinit t : bank_tracker := t.

(** Assignment to one element of bank_state. *)
Definition with_bank t (bank_index : Z) (f : bank -> option bank) : option bank_tracker :=
  assert! bank_index <? BANK_SCHEME_NUM_BANKS;;
  b ← nthZ (bank_state t) bank_index;
  b ← f b;
  BankTracker <$> setZ (bank_state t) bank_index b.

Definition bank_tracker_accept t (bank_index image_index : Z) : option bank_tracker :=
  with_bank t bank_index (fun b =>
    assert! image_index <? FWU_MAX_FW_DIRECTORY_ENTRIES;;
    Bank (is_content b) <$> setZ (is_accepted b) image_index true).

Definition bank_tracker_copy_accept t (from_bank_index to_bank_index image_index : Z)
    : option bank_tracker :=
  assert! from_bank_index <? BANK_SCHEME_NUM_BANKS;;
  from ← nthZ (bank_state t) from_bank_index;
  with_bank t to_bank_index (fun b =>
    assert! image_index <? FWU_MAX_FW_DIRECTORY_ENTRIES;;
    accepted ← nthZ (is_accepted from) image_index;
    Bank (is_content b) <$> setZ (is_accepted b) image_index accepted).

Definition bank_tracker_set_no_content t (bank_index : Z) : option bank_tracker :=
  with_bank t bank_index (fun _ => Some (Bank false (all_images false))).

Definition bank_tracker_set_holds_content t (bank_index : Z) : option bank_tracker :=
  with_bank t bank_index (fun b => Some (Bank true (is_accepted b))).

Definition bank_tracker_set_holds_accepted_content t (bank_index : Z) : option bank_tracker :=
  with_bank t bank_index (fun _ => Some (Bank true (all_images true))).

Definition bank_tracker_is_content t (bank_index : Z) : option bool :=
  assert! bank_index <? BANK_SCHEME_NUM_BANKS;;
  is_content <$> nthZ (bank_state t) bank_index.

Definition bank_tracker_is_accepted t (bank_index image_index : Z) : option bool :=
  assert! bank_index <? BANK_SCHEME_NUM_BANKS;;
  assert! image_index <? FWU_MAX_FW_DIRECTORY_ENTRIES;;
  b ← nthZ (bank_state t) bank_index;
  nthZ (is_accepted b) image_index.

(** The loop over the first [n] images. *)
Fixpoint all_accepted_loop (l : list bool) (n : nat) (image_index : Z) : option bool :=
  match n with
  | O => Some true
  | S n =>
      a ← nthZ l image_index;
      if a : bool then all_accepted_loop l n (image_index + 1) else Some false
  end.

Definition bank_tracker_is_all_accepted t (bank_index num_images : Z) : option bool :=
  assert! bank_index <? BANK_SCHEME_NUM_BANKS;;
  assert! num_images <=? FWU_MAX_FW_DIRECTORY_ENTRIES;;
  b ← nthZ (bank_state t) bank_index;
  all_accepted_loop (is_accepted b) (Z.to_nat num_images) 0.

(** ** Well-formed trackers *)

Definition bank_ok (b : bank) : Prop := length (is_accepted b) = 20%nat.

Definition tracker_ok t : Prop := exists a b, bank_state t = [a; b] /\ bank_ok a /\ bank_ok b.

(** What the tracker says, for any bank and image. *)
Definition get_bank t (i : Z) : bank := default (Bank false []) (nthZ (bank_state t) i).
Definition content t (i : Z) : bool := is_content (get_bank t i).
Definition accepted t (i k : Z) : bool := default false (nthZ (is_accepted (get_bank t i)) k).
Definition bank_accepted t (i n : Z) : bool := forallb id (take (Z.to_nat n) (is_accepted (get_bank t i))).

Definition bank_index_ok (i : Z) : Prop := i = 0 \/ i = 1.

Lemma tracker_init_ok : tracker_ok bank_tracker_init.
Proof. by eexists _, _. Qed.

Lemma all_images_ok b c : bank_ok (Bank c (all_images b)).
Proof. done. Qed.

Lemma get_bank_ok t i : tracker_ok t -> bank_index_ok i ->
  nthZ (bank_state t) i = Some (get_bank t i) /\ bank_ok (get_bank t i).
Proof.
  intros (a & b & Hs & Ha & Hb) [-> | ->]; unfold get_bank; rewrite Hs; by split.
Qed.

Lemma with_bank_ok t i f b :
  tracker_ok t -> bank_index_ok i -> f (get_bank t i) = Some b -> bank_ok b ->
  exists t', with_bank t i f = Some t' /\ tracker_ok t' /\
    forall j, bank_index_ok j -> get_bank t' j = if j =? i then b else get_bank t j.
Proof.
  intros (x & y & Hs & Hx & Hy) Hi Hf Hb. unfold with_bank, get_bank in *. rewrite Hs in *.
  destruct Hi as [-> | ->]; simpl in *; rewrite Hf; simpl; eexists; (split; [done|]);
    (split; [by eexists _, _|]); intros j [-> | ->]; done.
Qed.

Lemma accepted_Some t i k : tracker_ok t -> bank_index_ok i -> 0 <= k < 20 ->
  nthZ (is_accepted (get_bank t i)) k = Some (accepted t i k).
Proof.
  intros Ht Hi Hk. destruct (get_bank_ok t i Ht Hi) as [_ Hb]. unfold accepted.
  destruct (nthZ_is_Some (is_accepted (get_bank t i)) k) as [x Hx]; [unfold len; rewrite Hb; lia|].
  by rewrite Hx.
Qed.

Lemma is_accepted_ok t i k : tracker_ok t -> bank_index_ok i -> 0 <= k < 20 ->
  bank_tracker_is_accepted t i k = Some (accepted t i k).
Proof.
  intros Ht Hi Hk. unfold bank_tracker_is_accepted, BANK_SCHEME_NUM_BANKS, FWU_MAX_FW_DIRECTORY_ENTRIES.
  destruct (get_bank_ok t i Ht Hi) as [-> _]. rewrite <- (accepted_Some t i k Ht Hi Hk).
  destruct Hi as [-> | ->]; simpl; (destruct (Z.ltb_spec k 20); [done|lia]).
Qed.

Lemma is_content_ok t i : tracker_ok t -> bank_index_ok i ->
  bank_tracker_is_content t i = Some (content t i).
Proof.
  intros Ht Hi. unfold bank_tracker_is_content. destruct (get_bank_ok t i Ht Hi) as [-> _].
  by destruct Hi as [-> | ->].
Qed.

Lemma all_accepted_loop_ok l n k :
  0 <= k -> k + Z.of_nat n <= len l ->
  all_accepted_loop l n k = Some (forallb id (take n (drop (Z.to_nat k) l))).
Proof.
  revert k. induction n as [|n IH]; intros k Hk Hn; [done|]. simpl.
  destruct (nthZ_is_Some l k) as [x Hx]; [lia|]. rewrite Hx. simpl. unfold nthZ in Hx.
  case_match; [|done]. rewrite (drop_S _ _ _ Hx). simpl. destruct x; simpl; [|done].
  rewrite IH by lia. by replace (Z.to_nat (k + 1)) with (S (Z.to_nat k)) by lia.
Qed.

Lemma is_all_accepted_ok t i n : tracker_ok t -> bank_index_ok i -> 0 <= n <= 20 ->
  bank_tracker_is_all_accepted t i n = Some (bank_accepted t i n).
Proof.
  intros Ht Hi Hn. unfold bank_tracker_is_all_accepted, BANK_SCHEME_NUM_BANKS, FWU_MAX_FW_DIRECTORY_ENTRIES.
  destruct (get_bank_ok t i Ht Hi) as [-> Hb].
  assert ((i <? 2) = true) as -> by (by destruct Hi as [-> | ->]).
  destruct (Z.leb_spec n 20); [|lia]. simpl. rewrite all_accepted_loop_ok; [done|lia|].
  unfold len. rewrite Hb. lia.
Qed.

Lemma bank_accepted_iff t i n : tracker_ok t -> bank_index_ok i -> 0 <= n <= 20 ->
  bank_accepted t i n = true <-> forall k, 0 <= k < n -> accepted t i k = true.
Proof.
  intros Ht Hi Hn. destruct (get_bank_ok t i Ht Hi) as [_ Hb]. unfold bank_accepted, accepted.
  set (l := is_accepted (get_bank t i)) in *. rewrite forallb_forall. split.
  - intros Ha k Hk. unfold nthZ. destruct (0 <=? k) eqn:E; [|lia].
    destruct (l !! Z.to_nat k) as [x|] eqn:Hx.
    + simpl. apply (Ha x). apply list_elem_of_In, list_elem_of_lookup. exists (Z.to_nat k).
      rewrite lookup_take_lt by lia. done.
    + apply lookup_ge_None in Hx. unfold bank_ok in Hb. fold l in Hb. lia.
  - intros Ha x (k & Hk)%list_elem_of_In%list_elem_of_lookup.
    apply lookup_take_Some in Hk as [Hk Hlt]. specialize (Ha (Z.of_nat k)).
    rewrite nthZ_of_nat, Hk in Ha. apply Ha. lia.
Qed.

Lemma nthZ_all_images v k : 0 <= k < 20 -> nthZ (all_images v) k = Some v.
Proof.
  intros Hk. unfold nthZ, all_images, FWU_MAX_FW_DIRECTORY_ENTRIES. destruct (0 <=? k) eqn:E; [|lia].
  apply lookup_replicate_2. lia.
Qed.

Lemma set_content_ok t i : tracker_ok t -> bank_index_ok i ->
  exists t', bank_tracker_set_holds_content t i = Some t' /\ tracker_ok t' /\
    (forall j k, bank_index_ok j -> accepted t' j k = accepted t j k) /\
    (forall j, bank_index_ok j -> content t' j = content t j || (j =? i)).
Proof.
  intros Ht Hi. destruct (get_bank_ok t i Ht Hi) as [_ Hb].
  destruct (with_bank_ok t i (fun b => Some (Bank true (is_accepted b))) _ Ht Hi eq_refl Hb)
    as (t' & Heq & Ht' & Hget). exists t'. split; [done|]. split; [done|]. unfold accepted, content.
  split; intros j; [intros k|]; intros Hj; rewrite (Hget j Hj);
    destruct (Z.eqb_spec j i) as [->|]; rewrite ?orb_true_r, ?orb_false_r; done.
Qed.

Lemma set_accepted_content_ok t i : tracker_ok t -> bank_index_ok i ->
  exists t', bank_tracker_set_holds_accepted_content t i = Some t' /\ tracker_ok t' /\
    (forall j k, bank_index_ok j -> 0 <= k < 20 -> accepted t' j k = accepted t j k || (j =? i)) /\
    (forall j, bank_index_ok j -> content t' j = content t j || (j =? i)).
Proof.
  intros Ht Hi. destruct (with_bank_ok t i (fun _ => Some (Bank true (all_images true))) _ Ht Hi
    eq_refl (all_images_ok _ _)) as (t' & Heq & Ht' & Hget).
  exists t'. split; [done|]. split; [done|]. unfold accepted, content.
  split; intros j; [intros k|]; intros Hj; rewrite (Hget j Hj);
    destruct (Z.eqb_spec j i) as [->|]; rewrite ?orb_true_r, ?orb_false_r; try done.
  intros Hk. cbn [is_accepted]. by rewrite nthZ_all_images.
Qed.

Lemma set_no_content_ok t i : tracker_ok t -> bank_index_ok i ->
  exists t', bank_tracker_set_no_content t i = Some t' /\ tracker_ok t' /\
    (forall j k, bank_index_ok j -> 0 <= k < 20 -> accepted t' j k = accepted t j k && negb (j =? i)) /\
    (forall j, bank_index_ok j -> content t' j = content t j && negb (j =? i)).
Proof.
  intros Ht Hi. destruct (with_bank_ok t i (fun _ => Some (Bank false (all_images false))) _ Ht Hi
    eq_refl (all_images_ok _ _)) as (t' & Heq & Ht' & Hget).
  exists t'. split; [done|]. split; [done|]. unfold accepted, content.
  split; intros j; [intros k|]; intros Hj; rewrite (Hget j Hj);
    destruct (Z.eqb_spec j i) as [->|]; simpl negb; rewrite ?andb_true_r, ?andb_false_r; try done.
  intros Hk. cbn [is_accepted]. by rewrite nthZ_all_images.
Qed.

(** Assigning the accepted flag of one image. *)
Lemma set_flag_ok t i k v : tracker_ok t -> bank_index_ok i -> 0 <= k < 20 ->
  exists t', with_bank t i (fun b => assert! k <? FWU_MAX_FW_DIRECTORY_ENTRIES;;
      Bank (is_content b) <$> setZ (is_accepted b) k v) = Some t' /\ tracker_ok t' /\
    (forall j m, bank_index_ok j -> 0 <= m < 20 ->
       accepted t' j m = if (j =? i) && (m =? k) then v else accepted t j m) /\
    (forall j, bank_index_ok j -> content t' j = content t j).
Proof.
  intros Ht Hi Hk. destruct (get_bank_ok t i Ht Hi) as [_ Hb]. unfold bank_ok in Hb.
  destruct (with_bank_ok t i (fun b => assert! k <? FWU_MAX_FW_DIRECTORY_ENTRIES;;
      Bank (is_content b) <$> setZ (is_accepted b) k v)
    (Bank (content t i) (<[Z.to_nat k := v]> (is_accepted (get_bank t i)))) Ht Hi)
    as (t' & Heq & Ht' & Hget).
  { unfold FWU_MAX_FW_DIRECTORY_ENTRIES. destruct (Z.ltb_spec k 20); [|lia].
    rewrite setZ_is_Some by (unfold len; lia). done. }
  { unfold bank_ok. simpl. by rewrite length_insert. }
  exists t'. split; [done|]. split; [done|]. unfold accepted, content.
  split; intros j; [intros m|]; intros Hj; rewrite (Hget j Hj);
    destruct (Z.eqb_spec j i) as [->|]; try done.
  intros Hm. simpl is_accepted. simpl andb. destruct (Z.eqb_spec m k) as [->|].
  - by rewrite nthZ_insert_eq by (unfold len; lia).
  - by rewrite nthZ_insert_ne by lia.
Qed.

Lemma tracker_accept_ok t i k : tracker_ok t -> bank_index_ok i -> 0 <= k < 20 ->
  exists t', bank_tracker_accept t i k = Some t' /\ tracker_ok t' /\
    (forall j m, bank_index_ok j -> 0 <= m < 20 ->
       accepted t' j m = accepted t j m || ((j =? i) && (m =? k))) /\
    (forall j, bank_index_ok j -> content t' j = content t j).
Proof.
  intros Ht Hi Hk. destruct (set_flag_ok t i k true Ht Hi Hk) as (t' & Heq & Ht' & Ha & Hc).
  exists t'. split; [done|]. split; [done|]. split; [|done]. intros j m Hj Hm. rewrite (Ha j m Hj Hm).
  by destruct ((j =? i) && (m =? k)); rewrite ?orb_true_r, ?orb_false_r.
Qed.

Lemma copy_accept_ok t i j k : tracker_ok t -> bank_index_ok i -> bank_index_ok j -> 0 <= k < 20 ->
  exists t', bank_tracker_copy_accept t i j k = Some t' /\ tracker_ok t' /\
    (forall b m, bank_index_ok b -> 0 <= m < 20 ->
       accepted t' b m = if (b =? j) && (m =? k) then accepted t i k else accepted t b m) /\
    (forall b, bank_index_ok b -> content t' b = content t b).
Proof.
  intros Ht Hi Hj Hk. unfold bank_tracker_copy_accept, BANK_SCHEME_NUM_BANKS.
  destruct (get_bank_ok t i Ht Hi) as [-> _].
  assert ((i <? 2) = true) as -> by (by destruct Hi as [-> | ->]). cbn [mbind option_bind].
  destruct (set_flag_ok t j k (accepted t i k) Ht Hj Hk) as (t' & Heq & Hrest). exists t'. split; [|done].
  rewrite <- Heq. simpl. by rewrite (accepted_Some t i k Ht Hi Hk).
Qed.

Lemma init_accepted i k : bank_index_ok i -> 0 <= k < 20 -> accepted bank_tracker_init i k = false.
Proof.
  intros Hi Hk. unfold accepted. replace (get_bank bank_tracker_init i) with (Bank false (all_images false))
    by (by destruct Hi as [-> | ->]). cbn [is_accepted]. by rewrite nthZ_all_images.
Qed.
