(* ===== verification/MetadataSerializer.v ===== *)
(** * The FWU metadata serializer interface

    metadata_serializer.h, the assignments to packed structures that the two
    serializers make, and what the metadata manager relies on. *)
From S2P Require Import Prelude Status FwDirectory BankTracker.

(** ** Assignments to members of a packed structure *)

Inductive field_write :=
  | W8 (off v : Z)
  | W16 (off v : Z)
  | W32 (off v : Z)
  | WUuid (off : Z) (octets : bytes).

Definition w_off (w : field_write) : Z :=
  match w with W8 o _ | W16 o _ | W32 o _ | WUuid o _ => o end.

Definition w_size (w : field_write) : Z :=
  match w with W8 _ _ => 1 | W16 _ _ => 2 | W32 _ _ => 4 | WUuid _ _ => 16 end.

Definition w_data (w : field_write) : bytes :=
  match w with
  | W8 _ v => le_split 1 (u8 v)
  | W16 _ v => le_split 2 (u16 v)
  | W32 _ v => le_split 4 (u32 v)
  | WUuid _ u => u
  end.

(** A UUID is copied with memcpy of 16 octets. *)
Definition write_field (b : bytes) (base : Z) (w : field_write) : option bytes :=
  d ← load (w_data w) 0 (w_size w);
  store b (base + w_off w) d.

(** Assignments in order, to the structure at [base]. *)
Fixpoint store_all (b : bytes) (base : Z) (ws : list field_write) : option bytes :=
  match ws with
  | [] => Some b
  | w :: ws => b ← write_field b base w; store_all b base ws
  end.

(** Members of an integer type, read from a buffer. *)
Definition read8 (b : bytes) (off : Z) : option Z := le_combine <$> load b off 1.
Definition read16 (b : bytes) (off : Z) : option Z := le_combine <$> load b off 2.
Definition read32 (b : bytes) (off : Z) : option Z := le_combine <$> load b off 4.

(** ** The interface *)

(** [ms_serialize] returns the status, the buffer and *metadata_len. *)
Record metadata_serializer := MetadataSerializer {
  ms_serialize : Z -> Z -> fw_directory -> bank_tracker -> bytes -> Z -> option (Z * bytes * Z);
  ms_size : fw_directory -> Z;
  ms_max_size : Z;
  ms_deserialize_bank_info : bank_tracker -> bytes -> Z -> option bank_tracker;
  ms_deserialize_active_indices : bytes -> Z -> option (Z * Z)
}.

(** What was serialized for a bank and an image is accepted after it is read. *)
Definition restores (d : fw_directory) (t t0 t' : bank_tracker) : Prop :=
  forall i k, bank_index_ok i -> 0 <= k < num_images d ->
    accepted t' i k = accepted t0 i k || accepted t i k.

(** The metadata fits the buffer, and reading it back, whatever the CRC field
    holds by then, restores the indices and the accepted images; reading any other
    bytes is safe. *)
Class SerializerLaws (ms : metadata_serializer) : Prop := {
  sl_size d : directory_ok d -> 4 <= ms_size ms d <= ms_max_size ms;
  sl_max : ms_max_size ms < 2 ^ 32;
  sl_serialize a p d t buf :
    directory_ok d -> tracker_ok t -> fits 32 a -> fits 32 p -> len buf = ms_max_size ms ->
    exists b, ms_serialize ms a p d t buf (len buf) = Some (FWU_STATUS_SUCCESS, b, ms_size ms d) /\
      len b = len buf /\
      forall b', len b' = len b -> slice b' 4 (ms_size ms d - 4) = slice b 4 (ms_size ms d - 4) ->
        ms_deserialize_active_indices ms b' (ms_size ms d) = Some (a, p) /\
        forall t0, tracker_ok t0 ->
          exists t', ms_deserialize_bank_info ms t0 b' (ms_size ms d) = Some t' /\ tracker_ok t' /\
            restores d t t0 t';
  sl_deserialize d b t :
    directory_ok d -> tracker_ok t -> bytes_ok b -> len b = ms_max_size ms ->
    (exists a p, ms_deserialize_active_indices ms b (ms_size ms d) = Some (a, p) /\ fits 32 a /\ fits 32 p) /\
    exists t', ms_deserialize_bank_info ms t b (ms_size ms d) = Some t' /\ tracker_ok t'
}.

(** ** Lemmas: what a sequence of assignments leaves *)

Lemma load_store_apart b off d b' s n :
  store b off d = Some b' -> s + n <= off \/ off + len d <= s -> load b' s n = load b s n.
Proof.
  intros Hs Hd. destruct (Z.leb_spec 0 s); [by eapply load_store_disjoint|].
  unfold load. by destruct (Z.leb_spec 0 s); [lia|].
Qed.


Definition field_ok (w : field_write) : Prop :=
  match w with WUuid _ u => len u = 16 | _ => True end.

Lemma w_data_len w : field_ok w -> len (w_data w) = w_size w.
Proof. unfold len. destruct w; simpl; intros H; rewrite ?length_le_split; done. Qed.

Lemma write_field_eq b base w :
  field_ok w -> write_field b base w = store b (base + w_off w) (w_data w).
Proof. intros Hw. unfold write_field. rewrite <- (w_data_len w Hw), load_all. done. Qed.

Definition apart (s n : Z) (w : field_write) : bool :=
  (w_off w + w_size w <=? s) || (s + n <=? w_off w).

Definition untouched (ws : list field_write) (s n : Z) : bool := forallb (apart s n) ws.

(** The last assignment to exactly the [n] bytes at [s], if nothing after it
    touches them. *)
Fixpoint written (ws : list field_write) (s n : Z) : option bytes :=
  match ws with
  | [] => None
  | w :: ws =>
      if (w_off w =? s) && (w_size w =? n) && untouched ws s n then Some (w_data w)
      else written ws s n
  end.

Definition inside (ws : list field_write) (size : Z) : bool :=
  forallb (fun w => (0 <=? w_off w) && (w_off w + w_size w <=? size)) ws.

Lemma store_all_ok b base ws size :
  Forall field_ok ws -> inside ws size = true -> 0 <= base -> base + size <= len b ->
  exists b', store_all b base ws = Some b' /\ len b' = len b.
Proof.
  intros Hok. revert b. induction Hok as [|w ws Hw Hok IH]; intros b Hin Hb Hl; [by exists b|].
  simpl in Hin. apply andb_true_iff in Hin as [Hin1 Hin2]. cbn [store_all].
  rewrite write_field_eq by done. pose proof (w_data_len w Hw) as Hlen.
  destruct (store_ok b (base + w_off w) (w_data w)) as [b1 Hb1]; [lia..|].
  pose proof (store_len _ _ _ _ Hb1) as Hl1. rewrite Hb1. simpl.
  destruct (IH b1) as (b' & Hb' & Hl'); [done|done|lia|]. exists b'. split; [done|congruence].
Qed.

Lemma store_all_untouched b base ws b' s n :
  Forall field_ok ws -> store_all b base ws = Some b' -> untouched ws s n = true ->
  load b' (base + s) n = load b (base + s) n.
Proof.
  intros Hok. revert b. induction Hok as [|w ws Hw Hok IH]; intros b Hs Hu; [by simplify_eq/=|].
  cbn [store_all] in Hs. rewrite write_field_eq in Hs by done. simpl in Hu.
  apply andb_true_iff in Hu as [Hu1 Hu2]. unfold apart in Hu1. pose proof (w_data_len w Hw).
  destruct (store b (base + w_off w) (w_data w)) as [b1|] eqn:Hb1; [|done]. simpl in Hs.
  rewrite (IH b1 Hs Hu2). eapply load_store_apart; [done|]. lia.
Qed.

Lemma store_all_written b base ws b' s n d :
  Forall field_ok ws -> store_all b base ws = Some b' -> written ws s n = Some d ->
  load b' (base + s) n = Some d.
Proof.
  intros Hok. revert b. induction Hok as [|w ws Hw Hok IH]; intros b Hs Hwr; [done|].
  cbn [store_all] in Hs. rewrite write_field_eq in Hs by done. simpl in Hwr.
  destruct (store b (base + w_off w) (w_data w)) as [b1|] eqn:Hb1; [|done]. simpl in Hs.
  destruct ((w_off w =? s) && (w_size w =? n) && untouched ws s n) eqn:E; [|by eapply IH].
  apply andb_true_iff in E as [[<-%Z.eqb_eq <-%Z.eqb_eq]%andb_true_iff Hu]. injection Hwr as <-.
  rewrite (store_all_untouched _ _ _ _ _ _ Hok Hs Hu). rewrite <- (w_data_len w Hw).
  by eapply load_store_same.
Qed.

(** Bytes outside the structure keep their values. *)
Lemma store_all_outside b base ws b' size s n :
  Forall field_ok ws -> inside ws size = true -> store_all b base ws = Some b' ->
  s + n <= base \/ base + size <= s -> load b' s n = load b s n.
Proof.
  intros Hok. revert b. induction Hok as [|w ws Hw Hok IH]; intros b Hin Hs Hd; [by simplify_eq/=|].
  cbn [store_all] in Hs. rewrite write_field_eq in Hs by done. simpl in Hin.
  apply andb_true_iff in Hin as [Hin1 Hin2]. pose proof (w_data_len w Hw).
  destruct (store b (base + w_off w) (w_data w)) as [b1|] eqn:Hb1; [|done]. simpl in Hs.
  rewrite (IH b1 Hin2 Hs Hd). eapply load_store_apart; [done|]. lia.
Qed.

Lemma read32_written b base ws b' s v :
  Forall field_ok ws -> store_all b base ws = Some b' -> written ws s 4 = Some (le_split 4 (u32 v)) ->
  read32 b' (base + s) = Some (u32 v).
Proof.
  intros Hok Hs Hw. unfold read32. rewrite (store_all_written _ _ _ _ _ _ _ Hok Hs Hw).
  apply (f_equal Some). apply le_roundtrip. by apply wrap_fits.
Qed.

Lemma read16_written b base ws b' s v :
  Forall field_ok ws -> store_all b base ws = Some b' -> written ws s 2 = Some (le_split 2 (u16 v)) ->
  read16 b' (base + s) = Some (u16 v).
Proof.
  intros Hok Hs Hw. unfold read16. rewrite (store_all_written _ _ _ _ _ _ _ Hok Hs Hw).
  apply (f_equal Some). apply le_roundtrip. by apply wrap_fits.
Qed.

Lemma read8_written b base ws b' s v :
  Forall field_ok ws -> store_all b base ws = Some b' -> written ws s 1 = Some (le_split 1 (u8 v)) ->
  read8 b' (base + s) = Some (u8 v).
Proof.
  intros Hok Hs Hw. unfold read8. rewrite (store_all_written _ _ _ _ _ _ _ Hok Hs Hw).
  apply (f_equal Some). apply le_roundtrip. by apply wrap_fits.
Qed.

(** [b'] differs from [b] at most in the bytes from [lo] to [hi]. *)
Definition same_outside (b b' : bytes) (lo hi : Z) : Prop :=
  len b' = len b /\ forall s n, s + n <= lo \/ hi <= s -> load b' s n = load b s n.

Lemma same_outside_refl b lo hi : same_outside b b lo hi.
Proof. done. Qed.

Lemma same_outside_trans b b1 b2 lo hi lo1 hi1 lo2 hi2 :
  same_outside b b1 lo1 hi1 -> same_outside b1 b2 lo2 hi2 -> lo <= lo1 -> lo <= lo2 -> hi1 <= hi -> hi2 <= hi ->
  same_outside b b2 lo hi.
Proof.
  intros [Hl1 H1] [Hl2 H2] ? ? ? ?. split; [congruence|]. intros s n Hd.
  rewrite H2, H1 by lia. done.
Qed.

Lemma store_all_same b base ws b' size :
  Forall field_ok ws -> inside ws size = true -> 0 <= base -> base + size <= len b ->
  store_all b base ws = Some b' -> same_outside b b' base (base + size).
Proof.
  intros Hok Hin Hb Hl Hs. destruct (store_all_ok b base ws size Hok Hin Hb Hl) as (b1 & Hs1 & Hl1).
  rewrite Hs in Hs1. injection Hs1 as <-. split; [done|]. intros s n Hd. by eapply store_all_outside.
Qed.

(** Reads inside a buffer of bytes succeed with a value of the member's width. *)
Lemma read_fits b off n : bytes_ok b -> 0 <= off -> 0 <= n -> off + n <= len b ->
  exists v, le_combine <$> load b off n = Some v /\ 0 <= v < 2 ^ (8 * n).
Proof.
  intros Hb Ho Hn Hl. destruct (load b off n) as [d|] eqn:E; [|by rewrite load_ok in E by lia].
  exists (le_combine d). split; [done|]. rewrite <- (load_len _ _ _ _ E).
  apply le_combine_bound. by eapply load_bytes_ok.
Qed.

Lemma read8_fits b off : bytes_ok b -> 0 <= off -> off + 1 <= len b ->
  exists v, read8 b off = Some v /\ 0 <= v < 256.
Proof. intros. by apply (read_fits b off 1). Qed.
Lemma read16_fits b off : bytes_ok b -> 0 <= off -> off + 2 <= len b ->
  exists v, read16 b off = Some v /\ 0 <= v < 65536.
Proof. intros. by apply (read_fits b off 2). Qed.
Lemma read32_fits b off : bytes_ok b -> 0 <= off -> off + 4 <= len b ->
  exists v, read32 b off = Some v /\ 0 <= v < 2 ^ 32.
Proof. intros. by apply (read_fits b off 4). Qed.

Lemma load_of_slice b b' lo n s m :
  len b' = len b -> slice b' lo n = slice b lo n -> 0 <= lo <= s -> s + m <= lo + n ->
  load b' s m = load b s m.
Proof.
  intros Hl Heq Hs Hm. destruct (Z.leb_spec 0 m); [|unfold load; by destruct (Z.leb_spec 0 m); [lia|rewrite ?andb_false_r; simpl]].
  unfold load. rewrite Hl. destruct (_ && _) eqn:E; [|done]. f_equal.
  change (slice b' s m = slice b s m). replace s with (lo + (s - lo)) by lia.
  rewrite (slice_slice b' lo n), (slice_slice b lo n), Heq by lia. done.
Qed.
