(* ===== verification/MetadataV2.v ===== *)
(** * metadata_serializer_v2.c: version 2 of the FWU metadata

    The serializer writes the packed structures of metadata_v2.h into a buffer:
    the header at 0, the firmware store descriptor behind it and one entry per
    image.  The volume index is an argument, and so is what the volumes answer
    when they are asked for their storage UUIDs. *)
From S2P Require Import Prelude Status Volume FwDirectory BankTracker MetadataSerializer.

Definition FWU_METADATA_V2_NUM_BANK_STATES : Z := 4.
Definition FWU_METADATA_V2_BANK_STATE_INVALID : Z := 0xff.
Definition FWU_METADATA_V2_BANK_STATE_VALID : Z := 0xfe.
Definition FWU_METADATA_V2_BANK_STATE_ACCEPTED : Z := 0xfc.

(** sizeof(struct fwu_metadata), offsetof(struct fwu_fw_store_desc, img_entry),
    sizeof(struct fwu_image_entry), offsetof(struct fwu_image_entry,
    img_bank_info), sizeof(struct fwu_img_bank_info). *)
Definition METADATA_LEN : Z := 32.
Definition DESC_LEN : Z := 8.
Definition IMAGE_ENTRY_LEN : Z := 80.
Definition BANK_INFO_OFFSET : Z := 32.
Definition BANK_INFO_LEN : Z := 24.

Definition metadata_serializer_size (d : fw_directory) : Z :=
  u64 (METADATA_LEN + DESC_LEN + u64 (IMAGE_ENTRY_LEN * fw_directory_num_images d)).

Definition metadata_serializer_max_size : Z :=
  METADATA_LEN + DESC_LEN + IMAGE_ENTRY_LEN * FWU_MAX_FW_DIRECTORY_ENTRIES.

Section Serialize.
(** [get_storage_ids volume img parent]: what volume_get_storage_ids leaves in the
    two UUIDs; [parent] is None for NULL.  Its status is not used. *)
Context (ix : volume_index) (get_storage_ids : Z -> bytes -> option bytes -> bytes * option bytes).

(** One round of the loop over the banks; [entry] is the position of the image
    entry.  Returns the buffer and location_uuid. *)
Definition serialize_bank_info (t : bank_tracker) (image : image_info) (b : bytes)
    (entry image_index bank_index : Z) (location_uuid : bytes) : option (bytes * bytes) :=
  '(status, volume) ←
    volume_index_find ix (banked_volume_id (location_id image) (banked_usage_id bank_index)) 0;
  let '(img_uuid, location_uuid) :=
    (if (status =? 0) && negb (volume =? 0) then
       let '(u, parent) :=
         get_storage_ids volume (fill 0 16) (if bank_index =? 0 then Some location_uuid else None) in
       (u, default location_uuid parent)
     else (fill 0 16, location_uuid)) in
  acc ← bank_tracker_is_accepted t bank_index image_index;
  b ← store_all b (entry + BANK_INFO_OFFSET + BANK_INFO_LEN * bank_index)
        [WUuid 0 img_uuid; W32 20 0; W32 16 (if acc : bool then 1 else 0)];
  Some (b, location_uuid).

Fixpoint serialize_banks (t : bank_tracker) (image : image_info) (b : bytes)
    (entry image_index : Z) (location_uuid : bytes) (n : nat) (bank_index : Z)
    : option (bytes * bytes) :=
  match n with
  | O => Some (b, location_uuid)
  | S n =>
      '(b, location_uuid) ← serialize_bank_info t image b entry image_index bank_index location_uuid;
      serialize_banks t image b entry image_index location_uuid n (bank_index + 1)
  end.

(** The loop of serialize_image_entries; [desc] is the position of the descriptor. *)
Fixpoint serialize_images (d : fw_directory) (t : bank_tracker) (b : bytes) (desc : Z)
    (n : nat) (image_index : Z) : option bytes :=
  match n with
  | O => Some b
  | S n =>
      image ← fw_directory_get_image_info d image_index;
      image ← image;
      let entry := desc + DESC_LEN + IMAGE_ENTRY_LEN * image_index in
      '(b, location_uuid) ←
        serialize_banks t image b entry image_index (fill 0 16) (Z.to_nat BANK_SCHEME_NUM_BANKS) 0;
      b ← store_all b entry [WUuid 0 (img_type_uuid image); WUuid 16 location_uuid];
      serialize_images d t b desc n (image_index + 1)
  end.

Definition serialize_image_entries (d : fw_directory) (t : bank_tracker) (b : bytes) (desc : Z)
    : option (Z * bytes) :=
  num_images ← read16 b (desc + 2);
  b ← serialize_images d t b desc (Z.to_nat num_images) 0;
  Some (FWU_STATUS_SUCCESS, b).

Definition serialize_fw_store_desc (d : fw_directory) (t : bank_tracker) (b : bytes) (desc : Z)
    : option (Z * bytes) :=
  b ← store_all b desc
        [W8 0 BANK_SCHEME_NUM_BANKS; W16 2 (fw_directory_num_images d); W16 4 IMAGE_ENTRY_LEN;
         W16 6 BANK_INFO_LEN];
  serialize_image_entries d t b desc.

Definition bank_state_value (d : fw_directory) (t : bank_tracker) (bank_index : Z) : option Z :=
  if bank_index <? BANK_SCHEME_NUM_BANKS then
    all ← bank_tracker_is_all_accepted t bank_index (fw_directory_num_images d);
    if all : bool then Some FWU_METADATA_V2_BANK_STATE_ACCEPTED
    else
      c ← bank_tracker_is_content t bank_index;
      Some (if c : bool then FWU_METADATA_V2_BANK_STATE_VALID
            else FWU_METADATA_V2_BANK_STATE_INVALID)
  else Some FWU_METADATA_V2_BANK_STATE_INVALID.

Fixpoint serialize_bank_states (d : fw_directory) (t : bank_tracker) (b : bytes) (n : nat)
    (bank_index : Z) : option bytes :=
  match n with
  | O => Some b
  | S n =>
      v ← bank_state_value d t bank_index;
      b ← store_all b 0 [W8 (24 + bank_index) v];
      serialize_bank_states d t b n (bank_index + 1)
  end.

(** Returns the status, the buffer and *metadata_len. *)
Definition metadata_serializer_serialize (active_index previous_active_index : Z) (d : fw_directory)
    (t : bank_tracker) (buf : bytes) (buf_size : Z) : option (Z * bytes * Z) :=
  let serialized_size := metadata_serializer_size d in
  if serialized_size <=? buf_size then
    b ← store_all buf 0
          [W32 0 0; W32 4 2; W32 16 serialized_size; W16 20 METADATA_LEN; W32 8 active_index;
           W32 12 previous_active_index];
    b ← serialize_bank_states d t b (Z.to_nat FWU_METADATA_V2_NUM_BANK_STATES) 0;
    descriptor_offset ← read16 b 20;
    '(status, b) ←
      (if serialized_size >? descriptor_offset then serialize_fw_store_desc d t b descriptor_offset
       else Some (FWU_STATUS_SUCCESS, b));
    Some (status, b, if status =? FWU_STATUS_SUCCESS then serialized_size else 0)
  else Some (FWU_STATUS_UNKNOWN, buf, 0).

End Serialize.

(** The loop over the bank states of the header. *)
Fixpoint deserialize_bank_states (t : bank_tracker) (b : bytes) (n : nat) (bank_index : Z)
    : option bank_tracker :=
  match n with
  | O => Some t
  | S n =>
      v ← read8 b (24 + bank_index);
      t ← (if v =? FWU_METADATA_V2_BANK_STATE_ACCEPTED then
             bank_tracker_set_holds_accepted_content t bank_index
           else if v =? FWU_METADATA_V2_BANK_STATE_VALID then
             bank_tracker_set_holds_content t bank_index
           else Some t);
      deserialize_bank_states t b n (bank_index + 1)
  end.

(** The inner loop over the banks of the image entry at [entry]. *)
Fixpoint deserialize_banks (t : bank_tracker) (b : bytes) (entry bank_info_entry_size image_index : Z)
    (n : nat) (bank_index : Z) : option bank_tracker :=
  match n with
  | O => Some t
  | S n =>
      acc ← read32 b (entry + BANK_INFO_OFFSET + bank_index * bank_info_entry_size + 16);
      t ← (if negb (acc =? 0) then bank_tracker_accept t bank_index image_index else Some t);
      deserialize_banks t b entry bank_info_entry_size image_index n (bank_index + 1)
  end.

Fixpoint deserialize_images (t : bank_tracker) (b : bytes)
    (img_entry img_entry_size bank_info_entry_size num_banks : Z) (n : nat) (image_index : Z)
    : option bank_tracker :=
  match n with
  | O => Some t
  | S n =>
      t ← deserialize_banks t b (img_entry + image_index * img_entry_size) bank_info_entry_size
            image_index (Z.to_nat num_banks) 0;
      deserialize_images t b img_entry img_entry_size bank_info_entry_size num_banks n
        (image_index + 1)
  end.

Definition metadata_serializer_deserialize_bank_info (t : bank_tracker) (b : bytes) (metadata_len : Z)
    : option bank_tracker :=
  descriptor_offset ← read16 b 20;
  metadata_size ← read32 b 16;
  if (descriptor_offset >? metadata_len) || (metadata_size >? metadata_len) then Some t
  else
    t ← deserialize_bank_states t b (Z.to_nat BANK_SCHEME_NUM_BANKS) 0;
    if metadata_size >=? descriptor_offset + DESC_LEN then
      num_banks ← read8 b descriptor_offset;
      num_images ← read16 b (descriptor_offset + 2);
      img_entry_size ← read16 b (descriptor_offset + 4);
      bank_info_entry_size ← read16 b (descriptor_offset + 6);
      let fw_store_desc_size := metadata_size - descriptor_offset in
      let total_img_entries_size := fw_store_desc_size - DESC_LEN in
      let per_img_entry_bank_info_size := num_banks * bank_info_entry_size in
      if (img_entry_size <? IMAGE_ENTRY_LEN) || (bank_info_entry_size <? BANK_INFO_LEN) ||
         (num_banks >? BANK_SCHEME_NUM_BANKS) ||
         (img_entry_size <? BANK_INFO_OFFSET + per_img_entry_bank_info_size) ||
         (num_images >? FWU_MAX_FW_DIRECTORY_ENTRIES) ||
         (total_img_entries_size <? num_images * img_entry_size)
      then Some t
      else deserialize_images t b (descriptor_offset + DESC_LEN) img_entry_size bank_info_entry_size
             num_banks (Z.to_nat num_images) 0
    else Some t.

Definition metadata_serializer_deserialize_active_indices (b : bytes) (metadata_len : Z)
    : option (Z * Z) :=
  assert! METADATA_LEN <=? metadata_len;;
  active_index ← read32 b 8;
  previous_active_index ← read32 b 12;
  Some (active_index, previous_active_index).

Definition metadata_serializer_v2 (ix : volume_index)
    (get_storage_ids : Z -> bytes -> option bytes -> bytes * option bytes) : metadata_serializer :=
  MetadataSerializer (metadata_serializer_serialize ix get_storage_ids) metadata_serializer_size
    metadata_serializer_max_size metadata_serializer_deserialize_bank_info
    metadata_serializer_deserialize_active_indices.

(** ** Reading metadata *)


Lemma deserialize_banks_ok t b entry size k n j (acc : Z -> bool) :
  tracker_ok t -> 0 <= k < 20 -> 0 <= j -> j + Z.of_nat n <= 2 ->
  (forall i, 0 <= i < 2 -> i < j + Z.of_nat n ->
     exists v, read32 b (entry + BANK_INFO_OFFSET + i * size + 16) = Some v /\ negb (v =? 0) = acc i) ->
  exists t', deserialize_banks t b entry size k n j = Some t' /\ tracker_ok t' /\
    (forall i m, bank_index_ok i -> 0 <= m < 20 ->
       accepted t' i m = accepted t i m || ((j <=? i) && (i <? j + Z.of_nat n) && (m =? k) && acc i)) /\
    (forall i, bank_index_ok i -> content t' i = content t i).
Proof.
  intros Ht Hk. revert t j Ht. induction n as [|n IH]; intros t j Ht Hj Hn Hr; simpl.
  - exists t. split; [done|]. split; [done|]. split; [|done]. intros i m Hi Hm.
    destruct (Z.leb_spec j i); destruct (Z.ltb_spec i (j + 0)); simpl; rewrite ?orb_false_r; done || lia.
  - destruct (Hr j) as (v & -> & Hv); [lia..|]. simpl. assert (bank_index_ok j) as Hbj by (unfold bank_index_ok; lia).
    assert (exists t1, (if negb (v =? 0) then bank_tracker_accept t j k else Some t) = Some t1 /\
      tracker_ok t1 /\ (forall i m, bank_index_ok i -> 0 <= m < 20 ->
        accepted t1 i m = accepted t i m || ((i =? j) && (m =? k) && acc j)) /\
      (forall i, bank_index_ok i -> content t1 i = content t i)) as (t1 & -> & Ht1 & Ha1 & Hc1).
    { rewrite Hv. destruct (acc j).
      - destruct (tracker_accept_ok t j k Ht Hbj Hk) as (t1 & -> & Ht1 & Ha1 & Hc1). exists t1.
        split; [done|]. split; [done|]. split; [|done]. intros i m Hi Hm. by rewrite Ha1, andb_true_r.
      - exists t. split; [done|]. split; [done|]. split; [|done]. intros i m _ _.
        by rewrite andb_false_r, orb_false_r. }
    simpl. destruct (IH t1 (j + 1)) as (t' & -> & Ht' & Ha' & Hc'); [done|lia|lia| |].
    { intros i Hi Hlt. apply Hr; lia. }
    exists t'. split; [done|]. split; [done|]. split.
    + intros i m Hi Hm. rewrite (Ha' i m Hi Hm), (Ha1 i m Hi Hm), <- orb_assoc. f_equal.
      destruct (Z.eqb_spec i j) as [->|]; lia.
    + intros i Hi. by rewrite (Hc' i Hi), (Hc1 i Hi).
Qed.

Lemma deserialize_images_ok t b base isize bsize nb n k (acc : Z -> Z -> bool) :
  tracker_ok t -> 0 <= k -> k + Z.of_nat n <= 20 -> 0 <= nb <= 2 ->
  (forall i m, 0 <= i < nb -> k <= m < k + Z.of_nat n ->
     exists v, read32 b (base + m * isize + BANK_INFO_OFFSET + i * bsize + 16) = Some v /\
       negb (v =? 0) = acc i m) ->
  exists t', deserialize_images t b base isize bsize nb n k = Some t' /\ tracker_ok t' /\
    (forall i m, bank_index_ok i -> 0 <= m < 20 ->
       accepted t' i m = accepted t i m ||
         ((i <? nb) && (k <=? m) && (m <? k + Z.of_nat n) && acc i m)) /\
    (forall i, bank_index_ok i -> content t' i = content t i).
Proof.
  intros Ht Hk Hn Hnb. revert t k Ht Hk Hn. induction n as [|n IH]; intros t k Ht Hk Hn Hr; simpl.
  - exists t. split; [done|]. split; [done|]. split; [|done]. intros i m Hi Hm.
    destruct (Z.leb_spec k m); destruct (Z.ltb_spec m (k + 0)); simpl;
      rewrite ?andb_false_r, ?andb_true_r, ?orb_false_r; done || lia.
  - destruct (deserialize_banks_ok t b (base + k * isize) bsize k (Z.to_nat nb) 0 (fun i => acc i k))
      as (t1 & -> & Ht1 & Ha1 & Hc1); [done|lia|lia|lia| |].
    { intros i Hi Hlt. destruct (Hr i k) as (v & Hv & Ha); [lia..|]. by exists v. }
    simpl. destruct (IH t1 (k + 1)) as (t' & -> & Ht' & Ha' & Hc'); [done|lia|lia| |].
    { intros i m Hi Hm. apply Hr; lia. }
    exists t'. split; [done|]. split; [done|]. split.
    + intros i m Hi Hm. rewrite (Ha' i m Hi Hm), (Ha1 i m Hi Hm), <- orb_assoc. f_equal.
      assert (0 <= i) by (destruct Hi as [-> | ->]; lia).
      destruct (Z.eqb_spec m k) as [->|]; lia.
    + intros i Hi. by rewrite (Hc' i Hi), (Hc1 i Hi).
Qed.

Definition says_accepted (v : Z) : bool := v =? FWU_METADATA_V2_BANK_STATE_ACCEPTED.
Definition says_content (v : Z) : bool := says_accepted v || (v =? FWU_METADATA_V2_BANK_STATE_VALID).

Lemma deserialize_bank_states_ok t b (v : Z -> Z) :
  tracker_ok t -> (forall i, bank_index_ok i -> read8 b (24 + i) = Some (v i)) ->
  exists t', deserialize_bank_states t b (Z.to_nat BANK_SCHEME_NUM_BANKS) 0 = Some t' /\ tracker_ok t' /\
    (forall i k, bank_index_ok i -> 0 <= k < 20 -> accepted t' i k = accepted t i k || says_accepted (v i)) /\
    (forall i, bank_index_ok i -> content t' i = content t i || says_content (v i)).
Proof.
  intros Ht Hv.
  assert (forall t i, tracker_ok t -> bank_index_ok i -> exists t',
    (if v i =? FWU_METADATA_V2_BANK_STATE_ACCEPTED then bank_tracker_set_holds_accepted_content t i
     else if v i =? FWU_METADATA_V2_BANK_STATE_VALID then bank_tracker_set_holds_content t i
     else Some t) = Some t' /\ tracker_ok t' /\
    (forall j k, bank_index_ok j -> 0 <= k < 20 ->
       accepted t' j k = accepted t j k || ((j =? i) && says_accepted (v i))) /\
    (forall j, bank_index_ok j -> content t' j = content t j || ((j =? i) && says_content (v i)))) as Hstep.
  { clear t Ht. intros t i Ht Hi. unfold says_content, says_accepted.
    destruct (v i =? FWU_METADATA_V2_BANK_STATE_ACCEPTED).
    - destruct (set_accepted_content_ok t i Ht Hi) as (t' & -> & Ht' & Ha & Hc). exists t'.
      split; [done|]. split; [done|]. split; intros; rewrite ?Ha, ?Hc by done; lia.
    - destruct (v i =? FWU_METADATA_V2_BANK_STATE_VALID).
      + destruct (set_content_ok t i Ht Hi) as (t' & -> & Ht' & Ha & Hc). exists t'.
        split; [done|]. split; [done|]. split; intros; rewrite ?Ha, ?Hc by done; lia.
      + exists t. split; [done|]. split; [done|]. split; intros; lia. }
  change (Z.to_nat BANK_SCHEME_NUM_BANKS) with 2%nat. cbn [deserialize_bank_states].
  rewrite (Hv 0 (or_introl eq_refl)), (Hv (0 + 1) (or_intror eq_refl)). cbn [mbind option_bind].
  destruct (Hstep t 0 Ht) as (t1 & -> & Ht1 & Ha1 & Hc1); [by left|]. cbn [mbind option_bind].
  destruct (Hstep t1 (0 + 1) Ht1) as (t2 & -> & Ht2 & Ha2 & Hc2); [by right|]. cbn [mbind option_bind].
  exists t2. split; [done|]. split; [done|]. change (0 + 1) with 1 in *.
  split; intros i; [intros k|]; intros Hi; [intros Hk; rewrite Ha2, Ha1 by done|rewrite Hc2, Hc1 by done];
    destruct Hi as [-> | ->]; lia.
Qed.

(** Reading the descriptor of well-formed metadata. *)
Lemma deserialize_ok t b n off msize (v : Z -> Z) nb ni isize bsize (acc : Z -> Z -> bool) :
  tracker_ok t -> read16 b 20 = Some off -> read32 b 16 = Some msize -> off <= n -> msize <= n ->
  (forall i, bank_index_ok i -> read8 b (24 + i) = Some (v i)) ->
  off + DESC_LEN <= msize ->
  read8 b off = Some nb -> read16 b (off + 2) = Some ni -> read16 b (off + 4) = Some isize ->
  read16 b (off + 6) = Some bsize -> 0 <= nb <= 2 -> 0 <= ni <= 20 -> IMAGE_ENTRY_LEN <= isize ->
  BANK_INFO_LEN <= bsize -> BANK_INFO_OFFSET + nb * bsize <= isize ->
  ni * isize <= msize - off - DESC_LEN ->
  (forall i m, 0 <= i < nb -> 0 <= m < ni ->
     exists x, read32 b (off + DESC_LEN + m * isize + BANK_INFO_OFFSET + i * bsize + 16) = Some x /\
       negb (x =? 0) = acc i m) ->
  exists t', metadata_serializer_deserialize_bank_info t b n = Some t' /\ tracker_ok t' /\
    (forall i k, bank_index_ok i -> 0 <= k < 20 ->
       accepted t' i k = accepted t i k || says_accepted (v i) || ((i <? nb) && (k <? ni) && acc i k)) /\
    (forall i, bank_index_ok i -> content t' i = content t i || says_content (v i)).
Proof.
  intros Ht Ho Hm Hon Hmn Hv Hdl Hnb Hni His Hbs Hnb2 Hni2 His2 Hbs2 Hfit Htot Hacc.
  unfold metadata_serializer_deserialize_bank_info. rewrite Ho, Hm. cbn [mbind option_bind].
  destruct (off >? n) eqn:E1; [lia|]. destruct (msize >? n) eqn:E2; [lia|]. cbn [orb].
  destruct (deserialize_bank_states_ok t b v Ht Hv) as (t1 & -> & Ht1 & Ha1 & Hc1). cbn [mbind option_bind].
  destruct (msize >=? off + DESC_LEN) eqn:E3; [|lia]. rewrite Hnb, Hni, His, Hbs. cbn [mbind option_bind].
  match goal with |- context [if ?c then Some t1 else _] => assert (c = false) as -> end.
  { unfold IMAGE_ENTRY_LEN, BANK_INFO_LEN, BANK_SCHEME_NUM_BANKS, BANK_INFO_OFFSET,
      FWU_MAX_FW_DIRECTORY_ENTRIES, DESC_LEN in *. lia. }
  destruct (deserialize_images_ok t1 b (off + DESC_LEN) isize bsize nb (Z.to_nat ni) 0 acc)
    as (t2 & -> & Ht2 & Ha2 & Hc2); [done|lia..| |].
  { intros i m Hi Hm'. apply Hacc; lia. }
  exists t2. split; [done|]. split; [done|]. split.
  - intros i k Hi Hk. rewrite Ha2, Ha1 by done. f_equal. lia.
  - intros i Hi. rewrite Hc2, Hc1 by done. done.
Qed.

Lemma deserialize_indices b n :
  bytes_ok b -> METADATA_LEN <= n <= len b ->
  exists a p, metadata_serializer_deserialize_active_indices b n = Some (a, p) /\ fits 32 a /\ fits 32 p /\
    a = le_combine (slice b 8 4) /\ p = le_combine (slice b 12 4).
Proof.
  intros Hb Hn. unfold metadata_serializer_deserialize_active_indices.
  destruct (Z.leb_spec METADATA_LEN n); [|lia]. unfold METADATA_LEN in Hn. simpl.
  destruct (read32_fits b 8 Hb) as (a & Ha & Hfa); [lia..|]. destruct (read32_fits b 12 Hb) as (p & Hp & Hfp); [lia..|].
  rewrite Ha, Hp. simpl. exists a, p. split; [done|]. do 2 (split; [done|]).
  unfold read32 in Ha, Hp. rewrite load_is_slice in Ha, Hp by lia. injection Ha as <-. injection Hp as <-. done.
Qed.

(** Reading bank information never leaves the buffer, whatever it holds. *)
Lemma deserialize_safe t b n :
  tracker_ok t -> bytes_ok b -> METADATA_LEN <= len b -> n <= len b ->
  exists t', metadata_serializer_deserialize_bank_info t b n = Some t' /\ tracker_ok t'.
Proof.
  intros Ht Hb Hl Hn. unfold METADATA_LEN in Hl.
  destruct (read16_fits b 20 Hb) as (off & Ho & Hob); [lia..|].
  destruct (read32_fits b 16 Hb) as (msize & Hm & Hmb); [lia..|].
  assert (exists v, forall i, bank_index_ok i -> read8 b (24 + i) = Some (v i)) as (v & Hv).
  { destruct (read8_fits b 24 Hb) as (v0 & Hv0 & _); [lia..|].
    destruct (read8_fits b 25 Hb) as (v1 & Hv1 & _); [lia..|].
    exists (fun i => if i =? 0 then v0 else v1). by intros i [-> | ->]. }
  unfold metadata_serializer_deserialize_bank_info. rewrite Ho, Hm. cbn [mbind option_bind].
  destruct ((off >? n) || (msize >? n)) eqn:E1; [by exists t|].
  destruct (deserialize_bank_states_ok t b v Ht Hv) as (t1 & -> & Ht1 & _). cbn [mbind option_bind].
  destruct (msize >=? off + DESC_LEN) eqn:E2; [|by exists t1]. unfold DESC_LEN in *.
  destruct (read8_fits b off Hb) as (nb & -> & Hnb); [lia..|].
  destruct (read16_fits b (off + 2) Hb) as (ni & -> & Hni); [lia..|].
  destruct (read16_fits b (off + 4) Hb) as (isize & -> & His); [lia..|].
  destruct (read16_fits b (off + 6) Hb) as (bsize & -> & Hbs); [lia..|]. cbn [mbind option_bind].
  match goal with |- context [if ?c then Some t1 else _] => destruct c eqn:E3 end; [by exists t1|].
  unfold IMAGE_ENTRY_LEN, BANK_INFO_LEN, BANK_SCHEME_NUM_BANKS, BANK_INFO_OFFSET,
    FWU_MAX_FW_DIRECTORY_ENTRIES, DESC_LEN in *.
  assert (forall i m, 0 <= i < nb -> 0 <= m < ni ->
    0 <= off + 8 + m * isize + 32 + i * bsize + 16 /\
    off + 8 + m * isize + 32 + i * bsize + 16 + 4 <= len b) as Hin.
  { intros i m Hi Hm'. assert ((m + 1) * isize <= ni * isize) by nia.
    assert ((i + 1) * bsize <= nb * bsize) by nia. split; [nia|]. lia. }
  destruct (deserialize_images_ok t1 b (off + 8) isize bsize nb (Z.to_nat ni) 0
    (fun i m => match read32 b (off + 8 + m * isize + BANK_INFO_OFFSET + i * bsize + 16) with
                | Some x => negb (x =? 0) | None => false end))
    as (t2 & -> & Ht2 & _); [done|lia..| |by exists t2].
  intros i m Hi Hm'. destruct (Hin i m) as [Hin1 Hin2]; [lia..|].
  destruct (read32_fits b (off + 8 + m * isize + BANK_INFO_OFFSET + i * bsize + 16) Hb) as (x & Hx & _);
    [unfold BANK_INFO_OFFSET; lia..|]. exists x. split; [done|]. by rewrite Hx.
Qed.

(** ** Writing metadata *)

(** Volumes answer with 16-octet UUIDs. *)
Definition storage_ids_ok (ids : Z -> bytes -> option bytes -> bytes * option bytes) : Prop :=
  forall v u p, len u = 16 -> (forall l, p = Some l -> len l = 16) ->
    len (fst (ids v u p)) = 16 /\ forall l, snd (ids v u p) = Some l -> len l = 16.

Definition flag (b : bool) : Z := if b then 1 else 0.

Lemma read_same b b' lo hi s n :
  same_outside b b' lo hi -> s + n <= lo \/ hi <= s -> load b' s n = load b s n.
Proof. intros [_ H]. apply H. Qed.

Section Writing.
Context (ix : volume_index) (ids : Z -> bytes -> option bytes -> bytes * option bytes).
Hypothesis index_ok : exists l, index_holds ix l.
Hypothesis ids_ok : storage_ids_ok ids.

Lemma index_find_ok i : exists st v, volume_index_find ix i 0 = Some (st, v).
Proof.
  clear ids_ok ids. destruct index_ok as (l & Hl). rewrite (volume_index_find_spec ix l i 0 Hl).
  by destruct (first_registered l i); eexists _, _.
Qed.

Lemma serialize_bank_info_ok t image b entry k i loc :
  tracker_ok t -> bank_index_ok i -> 0 <= k < 20 -> len loc = 16 -> 0 <= entry ->
  entry + IMAGE_ENTRY_LEN <= len b ->
  let base := entry + BANK_INFO_OFFSET + BANK_INFO_LEN * i in
  exists b' loc', serialize_bank_info ix ids t image b entry k i loc = Some (b', loc') /\
    len loc' = 16 /\ same_outside b b' base (base + BANK_INFO_LEN) /\
    read32 b' (base + 16) = Some (flag (accepted t i k)).
Proof.
  intros Ht Hi Hk Hloc He Hl base. unfold IMAGE_ENTRY_LEN, BANK_INFO_OFFSET, BANK_INFO_LEN in *.
  unfold serialize_bank_info. destruct (index_find_ok (banked_volume_id (location_id image)
    (banked_usage_id i))) as (st & v & ->). cbn [mbind option_bind].
  assert (exists u loc', (if (st =? 0) && negb (v =? 0) then
       let '(u, parent) := ids v (fill 0 16) (if i =? 0 then Some loc else None) in
       (u, default loc parent) else (fill 0 16, loc)) = (u, loc') /\ len u = 16 /\ len loc' = 16)
    as (u & loc' & -> & Hu & Hloc').
  { destruct ((st =? 0) && negb (v =? 0)); [|by eexists _, _].
    destruct (ids_ok v (fill 0 16) (if i =? 0 then Some loc else None)) as [H1 H2]; [done| |].
    { intros l. destruct (i =? 0); [by intros [= <-]|done]. }
    destruct (ids v (fill 0 16) (if i =? 0 then Some loc else None)) as [u [p|]]; eexists _, _;
      (split; [done|]); simpl in *; split; auto. }
  rewrite (is_accepted_ok t i k Ht Hi Hk). cbn [mbind option_bind].
  set (ws := [WUuid 0 u; W32 20 0; W32 16 (if accepted t i k then 1 else 0)]).
  assert (Forall field_ok ws) as Hws by (by repeat constructor).
  assert (0 <= base /\ base + 24 <= len b) as [Hb0 Hb1] by (unfold base; destruct Hi as [-> | ->]; lia).
  fold base. unfold BANK_INFO_OFFSET, BANK_INFO_LEN. fold base.
  destruct (store_all_ok b base ws 24 Hws eq_refl Hb0 Hb1) as (b' & Hs & Hl'). rewrite Hs.
  cbn [mbind option_bind]. exists b', loc'. split; [done|]. split; [done|]. split.
  - by eapply store_all_same.
  - rewrite (read32_written b base ws b' 16 (flag (accepted t i k)) Hws Hs).
    + by destruct (accepted t i k).
    + by destruct (accepted t i k).
Qed.

(** The accepted flags of an image entry. *)
Definition entry_flags (t : bank_tracker) (b : bytes) (entry k : Z) : Prop :=
  forall i, bank_index_ok i ->
    read32 b (entry + BANK_INFO_OFFSET + BANK_INFO_LEN * i + 16) = Some (flag (accepted t i k)).

Lemma entry_flags_same t b b' lo hi entry k :
  same_outside b b' lo hi -> entry + IMAGE_ENTRY_LEN <= lo \/ hi <= entry + BANK_INFO_OFFSET ->
  entry_flags t b entry k -> entry_flags t b' entry k.
Proof.
  intros Hs Hd Hf i Hi. unfold read32. rewrite (read_same _ _ _ _ _ _ Hs); [by apply Hf|].
  unfold IMAGE_ENTRY_LEN, BANK_INFO_OFFSET, BANK_INFO_LEN in *. destruct Hi as [-> | ->]; lia.
Qed.

Lemma serialize_banks_ok t image b entry k :
  tracker_ok t -> 0 <= k < 20 -> 0 <= entry -> entry + IMAGE_ENTRY_LEN <= len b ->
  exists b' loc', serialize_banks ix ids t image b entry k (fill 0 16)
      (Z.to_nat BANK_SCHEME_NUM_BANKS) 0 = Some (b', loc') /\ len loc' = 16 /\
    same_outside b b' (entry + BANK_INFO_OFFSET) (entry + IMAGE_ENTRY_LEN) /\ entry_flags t b' entry k.
Proof.
  intros Ht Hk He Hl. change (Z.to_nat BANK_SCHEME_NUM_BANKS) with 2%nat. cbn [serialize_banks].
  destruct (serialize_bank_info_ok t image b entry k 0 (fill 0 16)) as (b1 & l1 & -> & Hl1 & Hs1 & Hr1);
    [done|by left|done..|]. cbn [mbind option_bind]. change (0 + 1) with 1.
  destruct (serialize_bank_info_ok t image b1 entry k 1 l1) as (b2 & l2 & -> & Hl2 & Hs2 & Hr2);
    [done|by right|done..|by rewrite (proj1 Hs1)|]. cbn [mbind option_bind].
  unfold entry_flags, BANK_INFO_OFFSET, BANK_INFO_LEN, IMAGE_ENTRY_LEN in *.
  exists b2, l2. split; [done|]. split; [done|]. split.
  - eapply same_outside_trans; [done|done|lia..].
  - intros i [-> | ->]; [|done]. unfold read32. rewrite (read_same _ _ _ _ _ _ Hs2) by lia. exact Hr1.
Qed.

Lemma serialize_images_ok d t b desc n k :
  directory_ok d -> tracker_ok t -> 0 <= desc -> 0 <= k -> k + Z.of_nat n = num_images d ->
  desc + DESC_LEN + IMAGE_ENTRY_LEN * num_images d <= len b ->
  exists b', serialize_images ix ids d t b desc n k = Some b' /\
    same_outside b b' (desc + DESC_LEN + IMAGE_ENTRY_LEN * k)
      (desc + DESC_LEN + IMAGE_ENTRY_LEN * num_images d) /\
    forall m, k <= m < num_images d -> entry_flags t b' (desc + DESC_LEN + IMAGE_ENTRY_LEN * m) m.
Proof.
  intros Hd Ht Hde. revert b k. induction n as [|n IH]; intros b k Hk Hn Hl; cbn [serialize_images].
  { exists b. split; [done|]. split; [done|]. intros. lia. }
  pose proof Hd as (_ & Hn20 & _). unfold FWU_MAX_FW_DIRECTORY_ENTRIES in Hn20.
  destruct (get_image d k Hd) as (image & -> & _ & Hu); [lia|]. cbn [mbind option_bind].
  set (entry := desc + DESC_LEN + IMAGE_ENTRY_LEN * k). unfold DESC_LEN, IMAGE_ENTRY_LEN in *.
  destruct (serialize_banks_ok t image b entry k) as (b1 & loc & -> & Hloc & Hs1 & Hf1);
    [done|lia|unfold entry; lia|unfold entry, IMAGE_ENTRY_LEN; lia|]. cbn [mbind option_bind].
  set (ws := [WUuid 0 (img_type_uuid image); WUuid 16 loc]).
  assert (Forall field_ok ws) as Hws by (by repeat constructor).
  pose proof (proj1 Hs1) as Hl1.
  destruct (store_all_ok b1 entry ws 32 Hws eq_refl) as (b2 & Hs & Hl2); [unfold entry; lia..|].
  rewrite Hs. cbn [mbind option_bind].
  assert (same_outside b1 b2 entry (entry + 32)) as Hs2 by (eapply store_all_same; try done; unfold entry; lia).
  destruct (IH b2 (k + 1)) as (b3 & -> & Hs3 & Hf3); [lia..|]. unfold BANK_INFO_OFFSET in *.
  exists b3. split; [done|]. split.
  - eapply (same_outside_trans _ b2); [eapply (same_outside_trans _ b1 _ entry (entry + 80)); try done; lia| done|..];
      unfold entry; lia.
  - intros m Hm. destruct (decide (m = k)) as [->|]; [|apply Hf3; lia].
    eapply entry_flags_same; [exact Hs3|unfold IMAGE_ENTRY_LEN; left; lia|].
    eapply entry_flags_same; [exact Hs2|unfold BANK_INFO_OFFSET; right; unfold entry; lia|]. exact Hf1.
Qed.

(** The state byte of a bank. *)
Definition state_value (d : fw_directory) (t : bank_tracker) (i : Z) : Z :=
  if i <? BANK_SCHEME_NUM_BANKS then
    if bank_accepted t i (num_images d) then FWU_METADATA_V2_BANK_STATE_ACCEPTED
    else if content t i then FWU_METADATA_V2_BANK_STATE_VALID else FWU_METADATA_V2_BANK_STATE_INVALID
  else FWU_METADATA_V2_BANK_STATE_INVALID.

Lemma bank_state_value_ok d t i :
  directory_ok d -> tracker_ok t -> 0 <= i -> bank_state_value d t i = Some (state_value d t i).
Proof.
  clear index_ok ids_ok ix ids. intros (_ & Hn & _) Ht Hi. unfold bank_state_value, state_value.
  destruct (Z.ltb_spec i BANK_SCHEME_NUM_BANKS) as [Hlt|]; [|done]. unfold BANK_SCHEME_NUM_BANKS in Hlt.
  assert (bank_index_ok i) as Hb by (unfold bank_index_ok; lia). unfold fw_directory_num_images.
  rewrite is_all_accepted_ok by done. cbn [mbind option_bind].
  destruct (bank_accepted t i (num_images d)); [done|]. rewrite is_content_ok by done. done.
Qed.

Lemma serialize_bank_states_ok d t b n k :
  directory_ok d -> tracker_ok t -> 0 <= k -> k + Z.of_nat n = 4 -> 32 <= len b ->
  exists b', serialize_bank_states d t b n k = Some b' /\ same_outside b b' (24 + k) 28 /\
    forall i, k <= i < 4 -> read8 b' (24 + i) = Some (state_value d t i).
Proof.
  clear index_ok ids_ok ix ids. intros Hd Ht. revert b k.
  induction n as [|n IH]; intros b k Hk Hn Hl; cbn [serialize_bank_states].
  { exists b. split; [done|]. split; [done|]. intros. lia. }
  rewrite bank_state_value_ok by done. cbn [mbind option_bind].
  set (ws := [W8 (24 + k) (state_value d t k)]).
  assert (Forall field_ok ws) as Hws by (by repeat constructor).
  assert (exists b1, store_all b 0 ws = Some b1 /\ len b1 = len b) as (b1 & Hs & Hl1).
  { apply (store_all_ok b 0 ws 32 Hws); [|lia|lia]. unfold ws, inside. simpl. lia. }
  rewrite Hs. cbn [mbind option_bind]. destruct (IH b1 (k + 1)) as (b2 & -> & Hs2 & Hr2); [lia..|].
  exists b2. split; [done|]. split.
  - split; [by rewrite (proj1 Hs2)|]. intros s m Hsm. rewrite (read_same _ _ _ _ _ _ Hs2) by lia.
    apply (store_all_untouched b 0 ws b1 s m Hws Hs). unfold ws, untouched, apart. simpl. lia.
  - intros i Hi. destruct (decide (i = k)) as [->|]; [|apply Hr2; lia].
    unfold read8. rewrite (read_same _ _ _ _ _ _ Hs2) by lia.
    change (read8 b1 (0 + (24 + k)) = Some (state_value d t k)).
    rewrite (read8_written b 0 ws b1 (24 + k) (state_value d t k) Hws Hs).
    + f_equal. apply wrap_small. unfold state_value. repeat case_match; vm_compute; by split.
    + unfold ws. simpl. by rewrite Z.eqb_refl.
Qed.

(** What a reader finds in serialized metadata. *)
Record holds (a p : Z) (d : fw_directory) (t : bank_tracker) (b : bytes) : Prop := {
  h_active : read32 b 8 = Some a;
  h_previous : read32 b 12 = Some p;
  h_size : read32 b 16 = Some (metadata_serializer_size d);
  h_offset : read16 b 20 = Some METADATA_LEN;
  h_states : forall i, bank_index_ok i -> read8 b (24 + i) = Some (state_value d t i);
  h_banks : read8 b 32 = Some 2;
  h_images : read16 b 34 = Some (num_images d);
  h_entry_size : read16 b 36 = Some IMAGE_ENTRY_LEN;
  h_bank_size : read16 b 38 = Some BANK_INFO_LEN;
  h_flags : forall m, 0 <= m < num_images d ->
    entry_flags t b (METADATA_LEN + DESC_LEN + IMAGE_ENTRY_LEN * m) m
}.

Lemma size_ok d : directory_ok d ->
  metadata_serializer_size d = METADATA_LEN + DESC_LEN + IMAGE_ENTRY_LEN * num_images d.
Proof.
  clear index_ok ids_ok ix ids. intros (_ & Hn & _).
  unfold metadata_serializer_size, fw_directory_num_images, METADATA_LEN, DESC_LEN, IMAGE_ENTRY_LEN,
    FWU_MAX_FW_DIRECTORY_ENTRIES in *.
  rewrite (wrap_small 64 (80 * num_images d)), wrap_small by lia. done.
Qed.

(** It does not depend on the CRC field or on what follows the metadata. *)
Lemma holds_loads a p d t b b' :
  (forall s n, 4 <= s -> s + n <= METADATA_LEN + DESC_LEN + IMAGE_ENTRY_LEN * num_images d ->
     load b' s n = load b s n) ->
  0 <= num_images d -> holds a p d t b -> holds a p d t b'.
Proof.
  clear index_ok ids_ok ix ids. unfold METADATA_LEN, DESC_LEN, IMAGE_ENTRY_LEN. intros Hr Hn [].
  split; unfold read32, read16, read8 in *; try (by rewrite Hr by lia).
  - intros i Hi. rewrite Hr by (destruct Hi as [-> | ->]; lia). auto.
  - intros m Hm i Hi. unfold read32.
    rewrite Hr by (unfold METADATA_LEN, DESC_LEN, IMAGE_ENTRY_LEN, BANK_INFO_OFFSET, BANK_INFO_LEN;
      destruct Hi as [-> | ->]; lia).
    by apply h_flags0.
Qed.

Lemma says_state d t i : bank_index_ok i ->
  says_accepted (state_value d t i) = bank_accepted t i (num_images d) /\
  says_content (state_value d t i) = bank_accepted t i (num_images d) || content t i.
Proof.
  clear index_ok ids_ok ix ids. intros Hi. unfold state_value.
  assert ((i <? BANK_SCHEME_NUM_BANKS) = true) as -> by (by destruct Hi as [-> | ->]).
  by destruct (bank_accepted t i (num_images d)), (content t i).
Qed.

Lemma holds_read a p d t b t0 :
  directory_ok d -> tracker_ok t -> tracker_ok t0 -> holds a p d t b ->
  metadata_serializer_deserialize_active_indices b (metadata_serializer_size d) = Some (a, p) /\
  exists t', metadata_serializer_deserialize_bank_info t0 b (metadata_serializer_size d) = Some t' /\
    tracker_ok t' /\ restores d t t0 t' /\
    (forall i, bank_index_ok i ->
       content t' i = content t0 i || bank_accepted t i (num_images d) || content t i).
Proof.
  clear index_ok ids_ok ix ids. intros Hd Ht Ht0 []. pose proof (size_ok d Hd) as Hsz.
  pose proof Hd as (_ & Hn & _). unfold METADATA_LEN, DESC_LEN, IMAGE_ENTRY_LEN, FWU_MAX_FW_DIRECTORY_ENTRIES in *.
  split.
  { unfold metadata_serializer_deserialize_active_indices, METADATA_LEN.
    destruct (Z.leb_spec 32 (metadata_serializer_size d)); [|lia]. by rewrite h_active0, h_previous0. }
  destruct (deserialize_ok t0 b (metadata_serializer_size d) 32 (metadata_serializer_size d)
    (state_value d t) 2 (num_images d) 80 24 (accepted t)) as (t' & -> & Ht' & Ha & Hc);
    unfold DESC_LEN, IMAGE_ENTRY_LEN, BANK_INFO_LEN, BANK_INFO_OFFSET; try done; try lia.
  { intros i m Hi Hm. assert (bank_index_ok i) as Hb by (unfold bank_index_ok; lia).
    exists (flag (accepted t i m)). split; [|by destruct (accepted t i m)].
    rewrite <- (h_flags0 m Hm i Hb). unfold BANK_INFO_OFFSET, BANK_INFO_LEN. f_equal. lia. }
  exists t'. split; [done|]. split; [done|]. split.
  - intros i k Hi Hk. rewrite (Ha i k Hi) by lia. destruct (says_state d t i Hi) as [-> _].
    destruct (bank_accepted t i (num_images d)) eqn:E.
    + rewrite bank_accepted_iff in E by (done || lia). rewrite (E k Hk). lia.
    + assert (0 <= i < 2) by (destruct Hi as [-> | ->]; lia). lia.
  - intros i Hi. rewrite (Hc i Hi). destruct (says_state d t i Hi) as [_ ->]. by rewrite orb_assoc.
Qed.

Lemma serialize_holds a p d t buf :
  directory_ok d -> tracker_ok t -> fits 32 a -> fits 32 p -> metadata_serializer_size d <= len buf ->
  exists b, metadata_serializer_serialize ix ids a p d t buf (len buf)
      = Some (FWU_STATUS_SUCCESS, b, metadata_serializer_size d) /\
    same_outside buf b 0 (metadata_serializer_size d) /\ holds a p d t b.
Proof.
  intros Hd Ht Ha Hp Hl. unfold metadata_serializer_serialize.
  pose proof (size_ok d Hd) as Hsz. destruct (Z.leb_spec (metadata_serializer_size d) (len buf)); [|lia].
  pose proof Hd as (_ & Hn & _). unfold FWU_MAX_FW_DIRECTORY_ENTRIES in Hn.
  unfold METADATA_LEN, DESC_LEN, IMAGE_ENTRY_LEN in Hsz.
  set (n := metadata_serializer_size d) in *.
  set (ws := [W32 0 0; W32 4 2; W32 16 n; W16 20 METADATA_LEN; W32 8 a; W32 12 p]).
  assert (Forall field_ok ws) as Hws by (by repeat constructor).
  destruct (store_all_ok buf 0 ws 32 Hws eq_refl) as (b1 & Hs1 & Hl1); [lia..|].
  rewrite Hs1. cbn [mbind option_bind].
  change (Z.to_nat FWU_METADATA_V2_NUM_BANK_STATES) with 4%nat.
  destruct (serialize_bank_states_ok d t b1 4 0 Hd Ht) as (b2 & -> & Hs2 & Hst); [lia..|].
  cbn [mbind option_bind]. change (24 + 0) with 24 in Hs2. pose proof (proj1 Hs2) as Hl2.
  assert (read16 b2 20 = Some 32) as Hoff.
  { unfold read16. rewrite (read_same _ _ _ _ _ _ Hs2) by lia.
    apply (read16_written buf 0 ws b1 20 32 Hws Hs1). reflexivity. }
  rewrite Hoff. cbn [mbind option_bind]. destruct (n >? 32) eqn:E; [|lia].
  unfold serialize_fw_store_desc.
  set (ws2 := [W8 0 _; W16 2 _; W16 4 _; W16 6 _]).
  assert (Forall field_ok ws2) as Hws2 by (by repeat constructor).
  destruct (store_all_ok b2 32 ws2 8 Hws2 eq_refl) as (b3 & Hs3 & Hl3); [lia..|].
  rewrite Hs3. cbn [mbind option_bind].
  assert (same_outside b2 b3 32 40) as Hd3 by (apply (store_all_same b2 32 ws2 b3 8); try done; lia).
  unfold serialize_image_entries.
  assert (read16 b3 (32 + 2) = Some (num_images d)) as Hnum.
  { rewrite (read16_written b2 32 ws2 b3 2 (fw_directory_num_images d) Hws2 Hs3 eq_refl).
    f_equal. apply wrap_small. unfold fw_directory_num_images. lia. }
  rewrite Hnum. cbn [mbind option_bind].
  destruct (serialize_images_ok d t b3 32 (Z.to_nat (num_images d)) 0 Hd Ht) as (b4 & -> & Hs4 & Hf4);
    [lia..|unfold DESC_LEN, IMAGE_ENTRY_LEN; lia|]. cbn [mbind option_bind].
  unfold DESC_LEN, IMAGE_ENTRY_LEN in Hs4. rewrite Z.mul_0_r, Z.add_0_r in Hs4.
  exists b4. split; [done|]. pose proof (proj1 Hs4) as Hl4. split.
  { split; [congruence|]. intros s m Hsm. rewrite (read_same _ _ _ _ _ _ Hs4) by lia.
    rewrite (read_same _ _ _ _ _ _ Hd3) by lia. rewrite (read_same _ _ _ _ _ _ Hs2) by lia.
    by apply (store_all_outside buf 0 ws b1 32 s m Hws eq_refl Hs1); lia. }
  assert (forall s m, s + m <= 24 -> load b4 s m = load b1 s m) as R1.
  { intros s m Hsm. rewrite (read_same _ _ _ _ _ _ Hs4) by lia.
    rewrite (read_same _ _ _ _ _ _ Hd3) by lia. by rewrite (read_same _ _ _ _ _ _ Hs2) by lia. }
  assert (forall s m, s + m <= 32 -> load b4 s m = load b2 s m) as R2.
  { intros s m Hsm. rewrite (read_same _ _ _ _ _ _ Hs4) by lia. by rewrite (read_same _ _ _ _ _ _ Hd3) by lia. }
  assert (forall s m, s + m <= 40 -> load b4 s m = load b3 s m) as R3
    by (intros; by rewrite (read_same _ _ _ _ _ _ Hs4) by lia).
  split; unfold read32, read16, read8.
  - rewrite R1 by lia. etrans; [exact (read32_written buf 0 ws b1 8 a Hws Hs1 eq_refl)|].
    by rewrite wrap_small.
  - rewrite R1 by lia. etrans; [exact (read32_written buf 0 ws b1 12 p Hws Hs1 eq_refl)|].
    by rewrite wrap_small.
  - rewrite R1 by lia. etrans; [exact (read32_written buf 0 ws b1 16 n Hws Hs1 eq_refl)|].
    by rewrite wrap_small by lia.
  - rewrite R2 by lia. exact Hoff.
  - intros i Hi. rewrite R2 by (destruct Hi as [-> | ->]; lia). apply Hst. destruct Hi as [-> | ->]; lia.
  - rewrite R3 by lia. exact (read8_written b2 32 ws2 b3 0 BANK_SCHEME_NUM_BANKS Hws2 Hs3 eq_refl).
  - rewrite R3 by lia. exact Hnum.
  - rewrite R3 by lia. exact (read16_written b2 32 ws2 b3 4 IMAGE_ENTRY_LEN Hws2 Hs3 eq_refl).
  - rewrite R3 by lia. exact (read16_written b2 32 ws2 b3 6 BANK_INFO_LEN Hws2 Hs3 eq_refl).
  - intros m Hm. apply Hf4. lia.
Qed.

End Writing.

(** The serializer keeps what the metadata manager relies on. *)
#[export] Instance metadata_v2_laws ix ids :
  (exists l, index_holds ix l) -> storage_ids_ok ids -> SerializerLaws (metadata_serializer_v2 ix ids).
Proof.
  intros Hix Hids. split.
  - intros d Hd. simpl. rewrite (size_ok d Hd). destruct Hd as (_ & Hn & _).
    unfold metadata_serializer_max_size, METADATA_LEN, DESC_LEN, IMAGE_ENTRY_LEN, FWU_MAX_FW_DIRECTORY_ENTRIES in *.
    lia.
  - vm_compute. done.
  - intros a p d t buf Hd Ht Ha Hp Hl. simpl in *. pose proof (size_ok d Hd) as Hsz.
    pose proof Hd as (_ & Hn & _).
    assert (metadata_serializer_size d <= len buf) as Hle.
    { rewrite Hsz, Hl. unfold metadata_serializer_max_size, METADATA_LEN, DESC_LEN, IMAGE_ENTRY_LEN,
        FWU_MAX_FW_DIRECTORY_ENTRIES in *. lia. }
    destruct (serialize_holds ix ids Hix Hids a p d t buf Hd Ht Ha Hp Hle) as (b & Hs & [Hlb _] & Hh).
    exists b. split; [done|]. split; [done|]. intros b' Hlb' Heq.
    assert (holds a p d t b') as Hh'.
    { eapply holds_loads; [|lia|done]. rewrite <- Hsz. intros s n Hs4 Hsn.
      by apply (load_of_slice b b' 4 (metadata_serializer_size d - 4)); [..|lia|lia]. }
    split; [apply (holds_read a p d t b' t Hd Ht Ht Hh')|]. intros t0 Ht0.
    destruct (holds_read a p d t b' t0 Hd Ht Ht0 Hh') as (_ & t' & H1 & H2 & H3 & _). by exists t'.
  - intros d b t Hd Ht Hb Hl. simpl in *. pose proof (size_ok d Hd) as Hsz. pose proof Hd as (_ & Hn & _).
    assert (METADATA_LEN <= metadata_serializer_size d <= len b) as Hr.
    { rewrite Hsz, Hl. unfold metadata_serializer_max_size, METADATA_LEN, DESC_LEN, IMAGE_ENTRY_LEN,
        FWU_MAX_FW_DIRECTORY_ENTRIES in *. lia. }
    split; [|apply deserialize_safe; done || lia].
    destruct (deserialize_indices b _ Hb Hr) as (a & p & H1 & H2 & H3 & _). by exists a, p.
Qed.

(** ** Properties *)

(** C31: version 2 metadata is read back as it was written.  For any directory,
    tracker and bank indices and a large enough buffer, serialization succeeds,
    reports its length and leaves the bytes behind it alone; reading the result
    after a restart gives the same active and previous indices, the same accepted
    flag for every image of each bank, and a bank is known to hold content exactly
    if it was or if all its images were accepted. *)
Theorem metadata_v2_roundtrip ix ids a p d t buf :
  (exists l, index_holds ix l) -> storage_ids_ok ids -> directory_ok d -> tracker_ok t ->
  fits 32 a -> fits 32 p -> metadata_serializer_size d <= len buf ->
  exists b, metadata_serializer_serialize ix ids a p d t buf (len buf)
      = Some (FWU_STATUS_SUCCESS, b, metadata_serializer_size d) /\
    same_outside buf b 0 (metadata_serializer_size d) /\
    metadata_serializer_deserialize_active_indices b (metadata_serializer_size d) = Some (a, p) /\
    exists t', metadata_serializer_deserialize_bank_info bank_tracker_init b
        (metadata_serializer_size d) = Some t' /\ tracker_ok t' /\
      (forall i k, bank_index_ok i -> 0 <= k < num_images d -> accepted t' i k = accepted t i k) /\
      (forall i, bank_index_ok i -> content t' i = bank_accepted t i (num_images d) || content t i).
Proof.
  intros Hix Hids Hd Ht Ha Hp Hl.
  destruct (serialize_holds ix ids Hix Hids a p d t buf Hd Ht Ha Hp Hl) as (b & Hs & Hsame & Hh).
  exists b. split; [done|]. split; [done|].
  destruct (holds_read a p d t b bank_tracker_init Hd Ht tracker_init_ok Hh) as (Hi & t' & H1 & H2 & H3 & H4).
  split; [done|]. exists t'. split; [done|]. split; [done|].
  pose proof Hd as (_ & Hn & _). unfold FWU_MAX_FW_DIRECTORY_ENTRIES in Hn.
  split; [intros i k Hb Hk; rewrite (H3 i k Hb Hk)|intros i Hb; rewrite (H4 i Hb)].
  - rewrite init_accepted by (done || lia). done.
  - by destruct Hb as [-> | ->].
Qed.

(** Reading version 2 metadata is memory safe.  Whatever bytes the storage
    returned, and however its header and descriptor lie about sizes and counts,
    deserialization stays inside the buffer, never indexes a bank or an image that
    does not exist, and leaves a well-formed tracker; the indices it returns are those
    at their offsets in the header. *)
Theorem metadata_v2_deserialize_safe t b n :
  tracker_ok t -> bytes_ok b -> METADATA_LEN <= n <= len b ->
  (exists t', metadata_serializer_deserialize_bank_info t b n = Some t' /\ tracker_ok t') /\
  exists a p, metadata_serializer_deserialize_active_indices b n = Some (a, p) /\ fits 32 a /\ fits 32 p /\
    a = le_combine (slice b 8 4) /\ p = le_combine (slice b 12 4).
Proof.
  intros Ht Hb Hn. split; [apply deserialize_safe; done || lia|]. by apply deserialize_indices.
Qed.

(** ** Examples *)

Definition example_index : volume_index :=
  VolumeIndex 1 ((banked_volume_id 7 0, 80) :: replicate 7 (0, 0)).
Definition example_ids (v : Z) (u : bytes) (p : option bytes) : bytes * option bytes :=
  (fill 33 16, (fun _ => fill 44 16) <$> p).

Lemma example_index_ok : exists l, index_holds example_index l.
Proof. by exists [(banked_volume_id 7 0, 80)]. Qed.

Lemma example_ids_ok : storage_ids_ok example_ids.
Proof. intros v u [l|] Hu Hp; (split; [done|]); intros l'; simpl; [by intros [= <-]|done]. Qed.

Definition example_tracker : bank_tracker :=
  BankTracker [Bank true (true :: true :: replicate 18 false); Bank true (true :: replicate 19 false)].

Lemma example_tracker_ok : tracker_ok example_tracker.
Proof. by eexists _, _. Qed.

Lemma metadata_v2_roundtrip_witness :
  exists b, metadata_serializer_serialize example_index example_ids 1 0 example_directory example_tracker
      (fill 9 300) 300 = Some (FWU_STATUS_SUCCESS, b, 200) /\
    same_outside (fill 9 300) b 0 200 /\
    metadata_serializer_deserialize_active_indices b 200 = Some (1, 0) /\
    exists t', metadata_serializer_deserialize_bank_info bank_tracker_init b 200 = Some t' /\
      tracker_ok t' /\
      (forall i k, bank_index_ok i -> 0 <= k < 2 -> accepted t' i k = accepted example_tracker i k) /\
      (forall i, bank_index_ok i -> content t' i = bank_accepted example_tracker i 2 || content example_tracker i).
Proof.
  apply (metadata_v2_roundtrip example_index example_ids 1 0 example_directory example_tracker (fill 9 300)).
  - exact example_index_ok.
  - exact example_ids_ok.
  - exact example_directory_ok.
  - exact example_tracker_ok.
  - done.
  - done.
  - vm_compute. discriminate.
Defined.

Lemma metadata_v2_deserialize_safe_witness :
  let b := fill 0 16 ++ [255; 255; 0; 0; 32; 0] ++ fill 255 78 in
  (exists t', metadata_serializer_deserialize_bank_info bank_tracker_init b 100 = Some t' /\ tracker_ok t') /\
  exists a p, metadata_serializer_deserialize_active_indices b 100 = Some (a, p).
Proof.
  intros b.
  destruct (metadata_v2_deserialize_safe bank_tracker_init b 100) as [H1 (a & p & H2 & _)].
  - exact tracker_init_ok.
  - apply (bool_decide_unpack _). by vm_compute.
  - split; vm_compute; discriminate.
  - split; [exact H1|]. exists a, p. exact H2.
Defined.
