(* ===== verification/MetadataManager.v ===== *)
(** * metadata_manager.c: the FWU metadata in its two volumes

    The manager keeps a cached copy of the metadata and two replicas in
    non-volatile storage, the primary always written before the backup.  Volumes
    are those of [Volume]; both work on one world [W], the storage of the device.
    The serializer is an interface ([SerializerLaws]).

    The second part gives the storage a fault model, a power budget that runs out
    in the middle of an operation, and shows that an update interrupted at any
    point is recovered at the next start. *)
From S2P Require Import Prelude Status Crc32 Volume FwDirectory BankTracker MetadataSerializer MetadataV2.

Section Manager.
Context {W : Type} (io : io_storage W) (ms : metadata_serializer).
(** The routine behind the crc32 pointer, and malloc of the buffer for the backup
    copy: its contents, or None. *)
Context (impl : crc32_impl) (crc32b : Z -> Z -> Z) (malloc : Z -> option bytes).

(** crc32(0U, buf + sizeof(uint32_t), len - sizeof(uint32_t)) *)
Definition metadata_crc (buf : bytes) (len : Z) : option Z :=
  c ← tf_crc32 impl crc32b 0 (Some (drop 4 buf)) (u64 (len - 4));
  Some (u32 c).

(** Returns the status and the buffer. *)
Definition load_and_check_metadata (v : volume W) (w : W) (buf : bytes) (expected_len : Z)
    : option (Z * bytes * W) :=
  '(status, w) ← volume_open io v w;
  if status =? 0 then
    '(status, buf, _, w) ← volume_read io v w buf expected_len 0;
    status ← (if status =? 0 then
                calc_crc ← metadata_crc buf expected_len;
                expected_crc ← read32 buf 0;
                Some (if calc_crc =? expected_crc then FWU_STATUS_SUCCESS else FWU_STATUS_UNKNOWN)
              else Some status);
    '(_, w) ← volume_close io v w;
    Some (status, buf, w)
  else Some (status, buf, w).

Definition store_metadata (v : volume W) (w : W) (data : bytes) (data_len : Z) : option (Z * W) :=
  '(status, w) ← volume_open io v w;
  if status =? 0 then
    '(status, w) ← volume_erase v w;
    '(status, w) ← (if status =? 0 then
                      '(status, _, w) ← volume_write io v w data data_len 0; Some (status, w)
                    else Some (status, w));
    '(_, w) ← volume_close io v w;
    Some (status, w)
  else Some (status, w).

(** A NULL volume is None. *)
Record metadata_manager := MetadataManager {
  primary_metadata_volume : option (volume W);
  backup_metadata_volume : option (volume W);
  is_dirty : bool;
  is_valid : bool;
  stored_crc : Z;
  metadata_len : Z;
  metadata_max_len : Z;
  metadata_cache : bytes
}.

Implicit Types m : metadata_manager.

Definition with_cache m (b : bytes) (n : Z) : metadata_manager :=
  MetadataManager (primary_metadata_volume m) (backup_metadata_volume m) (is_dirty m) (is_valid m)
    (stored_crc m) n (metadata_max_len m) b.
Definition with_valid m (v : bool) : metadata_manager :=
  MetadataManager (primary_metadata_volume m) (backup_metadata_volume m) (is_dirty m) v
    (stored_crc m) (metadata_len m) (metadata_max_len m) (metadata_cache m).
Definition with_dirty m (d : bool) : metadata_manager :=
  MetadataManager (primary_metadata_volume m) (backup_metadata_volume m) d (is_valid m)
    (stored_crc m) (metadata_len m) (metadata_max_len m) (metadata_cache m).
Definition with_stored_crc m (c : Z) : metadata_manager :=
  MetadataManager (primary_metadata_volume m) (backup_metadata_volume m) (is_dirty m) (is_valid m)
    c (metadata_len m) (metadata_max_len m) (metadata_cache m).

(** [find]: what volume_index_find stores for a volume id; [cache]: the block
    malloc returns, or None. *)
Definition metadata_manager_init (find : Z -> option (volume W)) (cache : option bytes)
    : Z * metadata_manager :=
  let m := MetadataManager (find BANKED_VOLUME_ID_PRIMARY_METADATA)
             (find BANKED_VOLUME_ID_BACKUP_METADATA) false false 0 0 (ms_max_size ms)
             (default [] cache) in
  (match cache with Some _ => FWU_STATUS_SUCCESS | None => FWU_STATUS_UNKNOWN end, m).

(** Changes nothing; returns the block it hands to free(). *)
Definition metadata_manager_deinit m : bytes := metadata_cache m.

(** Checking the replicas: the status of each, the manager and the world. *)
Definition check_primary m (w : W) : option (Z * metadata_manager * W) :=
  match primary_metadata_volume m with
  | Some v =>
      '(status, b, w) ← load_and_check_metadata v w (metadata_cache m) (metadata_len m);
      Some (status, with_valid (with_cache m b (metadata_len m)) (status =? FWU_STATUS_SUCCESS), w)
  | None => Some (FWU_STATUS_UNKNOWN, m, w)
  end.

Definition check_backup m (w : W) : option (Z * metadata_manager * W) :=
  match backup_metadata_volume m with
  | Some v =>
      if is_valid m then
        match malloc (metadata_len m) with
        | Some backup_buf =>
            '(status, b, w) ← load_and_check_metadata v w backup_buf (metadata_len m);
            status ← (if status =? FWU_STATUS_SUCCESS then
                        x ← read32 b 0; y ← read32 (metadata_cache m) 0;
                        Some (if negb (x =? y) then FWU_STATUS_UNKNOWN else status)
                      else Some status);
            Some (status, m, w)
        | None => Some (FWU_STATUS_UNKNOWN, m, w)
        end
      else
        '(status, b, w) ← load_and_check_metadata v w (metadata_cache m) (metadata_len m);
        Some (status, with_valid (with_cache m b (metadata_len m)) (status =? FWU_STATUS_SUCCESS), w)
  | None => Some (FWU_STATUS_UNKNOWN, m, w)
  end.

Definition repair (v : option (volume W)) (status : Z) m (w : W) : option W :=
  match v with
  | Some v =>
      if negb (status =? FWU_STATUS_SUCCESS) then
        '(_, w) ← store_metadata v w (metadata_cache m) (metadata_len m); Some w
      else Some w
  | None => Some w
  end.

(** Loading, checking and repairing, where there is a volume at all. *)
Definition check_replicas m (w : W) (d : fw_directory) : option (Z * metadata_manager * W) :=
  let m := with_cache m (metadata_cache m) (ms_size ms d) in
  '(primary_status, m, w) ← check_primary m w;
  '(backup_status, m, w) ← check_backup m w;
  if is_valid m then
    w ← repair (primary_metadata_volume m) primary_status m w;
    w ← repair (backup_metadata_volume m) backup_status m w;
    c ← read32 (metadata_cache m) 0;
    Some (FWU_STATUS_SUCCESS, with_stored_crc m c, w)
  else Some (FWU_STATUS_UNKNOWN, m, w).

Definition metadata_manager_check_and_repair m (w : W) (d : fw_directory)
    : option (Z * metadata_manager * W) :=
  if is_valid m then Some (FWU_STATUS_SUCCESS, m, w)
  else
    match primary_metadata_volume m, backup_metadata_volume m with
    | None, None => Some (FWU_STATUS_UNKNOWN, m, w)
    | _, _ => check_replicas m w d
    end.

(** Storing the cache in one replica; SUCCESS where there is no volume. *)
Definition store_copy (v : option (volume W)) m (w : W) : option (Z * W) :=
  match v with
  | Some v => store_metadata v w (metadata_cache m) (metadata_len m)
  | None => Some (FWU_STATUS_SUCCESS, w)
  end.

(** The cache with the serialized metadata and its CRC. *)
Definition update_cache m (active_index previous_active_index : Z) (d : fw_directory) (t : bank_tracker)
    : option metadata_manager :=
  '(_, b, n) ←
    ms_serialize ms active_index previous_active_index d t (metadata_cache m) (metadata_max_len m);
  calc_crc ← metadata_crc b n;
  b ← store b 0 (le_split 4 calc_crc);
  Some (with_dirty (with_valid (with_cache m b n) true) true).

Definition metadata_manager_update m (w : W) (active_index previous_active_index : Z)
    (d : fw_directory) (t : bank_tracker) : option (Z * metadata_manager * W) :=
  let was_valid := is_valid m in
  m ← update_cache m active_index previous_active_index d t;
  c ← read32 (metadata_cache m) 0;
  if was_valid && (stored_crc m =? c) then Some (FWU_STATUS_SUCCESS, m, w)
  else
    '(primary_status, w) ← store_copy (primary_metadata_volume m) m w;
    '(backup_status, w) ← store_copy (backup_metadata_volume m) m w;
    let m := if (primary_status =? FWU_STATUS_SUCCESS) && (backup_status =? FWU_STATUS_SUCCESS)
             then with_stored_crc m c else m in
    Some (if negb (primary_status =? FWU_STATUS_SUCCESS) then primary_status
          else if negb (backup_status =? FWU_STATUS_SUCCESS) then backup_status
          else FWU_STATUS_SUCCESS, m, w).

(** Returns the status, the fetched bytes and *is_dirty; the data pointer is the
    cache and *data_len the metadata length. *)
Definition metadata_manager_fetch m : Z * option (Z * bool) * metadata_manager :=
  if is_valid m then
    (FWU_STATUS_SUCCESS, Some (metadata_len m, is_dirty m), with_dirty m false)
  else (FWU_STATUS_UNKNOWN, None, m).

Definition metadata_manager_get_active_indices m (active_index previous_active_index : Z)
    : option (Z * Z * Z) :=
  if is_valid m then
    '(a, p) ← ms_deserialize_active_indices ms (metadata_cache m) (metadata_len m);
    Some (FWU_STATUS_SUCCESS, a, p)
  else Some (FWU_STATUS_UNKNOWN, active_index, previous_active_index).

Definition metadata_manager_cache_invalidate m : metadata_manager := with_valid m false.

Definition metadata_manager_preload_bank_tracker m (t : bank_tracker) : option bank_tracker :=
  ms_deserialize_bank_info ms t (metadata_cache m) (metadata_len m).

End Manager.

Arguments MetadataManager {W}.
Arguments primary_metadata_volume {W}.
Arguments backup_metadata_volume {W}.
Arguments is_dirty {W}.
Arguments is_valid {W}.
Arguments stored_crc {W}.
Arguments metadata_len {W}.
Arguments metadata_max_len {W}.
Arguments metadata_cache {W}.

(** ** The cache, over any storage *)

Section Cache.
Context {impl : crc32_impl} {crc32b : Z -> Z -> Z}.

(** The first [n] bytes carry their own CRC. *)
Definition valid_copy (n : Z) (b : bytes) : bool :=
  match metadata_crc impl crc32b b n, read32 b 0 with
  | Some c, Some e => c =? e
  | _, _ => false
  end.

Lemma metadata_crc_total b n : 4 <= n < 2 ^ 32 -> n <= len b -> exists c, metadata_crc impl crc32b b n = Some c.
Proof.
  intros Hn Hl. unfold metadata_crc. rewrite wrap_small by lia.
  destruct (crc32_total impl crc32b 0 (drop 4 b) (n - 4)) as [c ->].
  { unfold len in *. rewrite length_drop. lia. }
  by eexists.
Qed.

(** Only the metadata itself matters. *)
Lemma metadata_crc_prefix b b' n :
  4 <= n < 2 ^ 32 -> n <= len b -> n <= len b' -> slice b' 4 (n - 4) = slice b 4 (n - 4) ->
  metadata_crc impl crc32b b' n = metadata_crc impl crc32b b n.
Proof.
  intros Hn Hl Hl' Heq. unfold metadata_crc. rewrite wrap_small by lia.
  assert (load (drop 4 b') 0 (n - 4) = load (drop 4 b) 0 (n - 4)) as Hld.
  { rewrite !load_is_slice by (unfold len in *; rewrite ?length_drop; lia).
    apply (f_equal Some). exact Heq. }
  destruct impl; simpl; unfold crc32_sw, crc32_armv8a; by rewrite Hld.
Qed.

Lemma slice_sub b b' n o m :
  slice b' 0 n = slice b 0 n -> 0 <= o -> 0 <= m -> o + m <= n -> slice b' o m = slice b o m.
Proof.
  clear. intros Heq Ho Hm Hn. replace o with (0 + o) by lia.
  rewrite (slice_slice b' 0 n), (slice_slice b 0 n), Heq by lia. done.
Qed.

Lemma read32_prefix b b' n :
  4 <= n -> n <= len b -> n <= len b' -> slice b' 0 n = slice b 0 n -> read32 b' 0 = read32 b 0.
Proof.
  clear. intros Hn Hl Hl' Heq. unfold read32. rewrite !load_is_slice by lia.
  by rewrite (slice_sub b b' n 0 4) by (done || lia).
Qed.

Lemma valid_prefix b b' n :
  4 <= n < 2 ^ 32 -> n <= len b -> n <= len b' -> slice b' 0 n = slice b 0 n ->
  valid_copy n b' = valid_copy n b.
Proof.
  intros Hn Hl Hl' Heq. unfold valid_copy.
  rewrite (metadata_crc_prefix b b') by (done || apply (slice_sub b b' n); done || lia).
  by rewrite (read32_prefix b b' n) by (done || lia).
Qed.

Context {W : Type} {ms : metadata_serializer} {Hms : SerializerLaws ms}.
Implicit Types m : metadata_manager (W := W).

Definition cache_ok m : Prop := metadata_max_len m = ms_max_size ms /\ len (metadata_cache m) = ms_max_size ms.

(** What a valid cache says: the indices, and the images accepted in [t]. *)
Definition decodes m a p d t : Prop :=
  metadata_manager_get_active_indices ms m 0 0 = Some (FWU_STATUS_SUCCESS, a, p) /\
  forall t0, tracker_ok t0 ->
    exists t', metadata_manager_preload_bank_tracker ms m t0 = Some t' /\ tracker_ok t' /\ restores d t t0 t'.

Lemma update_cache_ok m a p d t :
  directory_ok d -> tracker_ok t -> fits 32 a -> fits 32 p -> cache_ok m ->
  exists m', update_cache ms impl crc32b m a p d t = Some m' /\ cache_ok m' /\ is_valid m' = true /\
    primary_metadata_volume m' = primary_metadata_volume m /\
    backup_metadata_volume m' = backup_metadata_volume m /\
    metadata_len m' = ms_size ms d /\ stored_crc m' = stored_crc m /\
    valid_copy (ms_size ms d) (metadata_cache m') = true /\
    forall m2, cache_ok m2 -> is_valid m2 = true -> metadata_len m2 = ms_size ms d ->
      slice (metadata_cache m2) 0 (ms_size ms d) = slice (metadata_cache m') 0 (ms_size ms d) ->
      decodes m2 a p d t.
Proof.
  intros Hd Ht Ha Hp (Hmax & Hlen). unfold update_cache.
  rewrite Hmax, <- Hlen.
  destruct (sl_serialize a p d t (metadata_cache m) Hd Ht Ha Hp Hlen) as (b & -> & Hlb & Hread).
  cbn [mbind option_bind]. pose proof (sl_size d Hd) as Hsz. pose proof sl_max as Hmx.
  set (n := ms_size ms d) in *.
  destruct (metadata_crc_total b n) as [c Hc]; [lia|lia|]. rewrite Hc. cbn [mbind option_bind].
  assert (fits 32 c) as Hfc.
  { unfold metadata_crc in Hc. destruct (tf_crc32 _ _ _ _ _) as [c0|]; [|done]. simpl in Hc.
    injection Hc as <-. by apply wrap_fits. }
  assert (len (le_split 4 c) = 4) as Hl4 by (unfold len; by rewrite length_le_split).
  destruct (store_ok b 0 (le_split 4 c)) as [b' Hb']; [lia|lia|]. rewrite Hb'. cbn [mbind option_bind].
  pose proof (store_len _ _ _ _ Hb') as Hlb'.
  assert (slice b' 4 (n - 4) = slice b 4 (n - 4)) as Htail.
  { eapply slice_store_disjoint; [lia| |exact Hb']. lia. }
  eexists. split; [done|]. simpl.
  split; [split; [done|simpl; congruence]|]. do 2 (split; [done|]).
  split; [done|]. split; [done|]. split; [done|].
  split.
  - unfold valid_copy. rewrite (metadata_crc_prefix b b' n) by (done || lia). rewrite Hc.
    unfold read32. rewrite <- Hl4, (load_store_same _ _ _ _ Hb').
    cbn [fmap option_fmap option_map]. rewrite le_roundtrip by done. by rewrite Z.eqb_refl.
  - intros m2 (_ & Hl2) Hv Hn Heq. unfold decodes, metadata_manager_get_active_indices,
      metadata_manager_preload_bank_tracker. rewrite Hv, Hn.
    destruct (Hread (metadata_cache m2)) as [-> Hbank]; [lia| |done].
    rewrite <- Htail. apply (slice_sub _ _ n); done || lia.
Qed.

End Cache.

Arguments valid_copy : clear implicits.
Arguments cache_ok {W} ms m.
Arguments decodes {W} ms m a p d t.

(** ** Over volumes that always return *)

(** Operations of the volume return, with or without an error. *)
Class SafeVolume {W} (io : io_storage W) (v : volume W) : Prop := {
  sv_open w : exists st w', volume_open io v w = Some (st, w');
  sv_close w : exists st w', volume_close io v w = Some (st, w');
  sv_erase w : exists st w', volume_erase v w = Some (st, w');
  sv_read w b n r : 0 <= n <= len b ->
    exists st b' k w', volume_read io v w b n r = Some (st, b', k, w') /\ len b' = len b /\
      (bytes_ok b -> bytes_ok b');
  sv_write w b n r : 0 <= n <= len b -> exists st k w', volume_write io v w b n r = Some (st, k, w')
}.

Section Safe.
Context {W : Type} (io : io_storage W) (ms : metadata_serializer) {Hms : SerializerLaws ms}.
Context (impl : crc32_impl) (crc32b : Z -> Z -> Z) (malloc : Z -> option bytes).
Hypothesis malloc_ok : forall n b, malloc n = Some b -> len b = n /\ bytes_ok b.
Implicit Types m : metadata_manager (W := W).

Definition manager_safe m : Prop :=
  cache_ok ms m /\
  (forall v, primary_metadata_volume m = Some v -> SafeVolume io v) /\
  (forall v, backup_metadata_volume m = Some v -> SafeVolume io v).

Lemma store_metadata_returns v w data n :
  SafeVolume io v -> 0 <= n <= len data -> exists st w', store_metadata io v w data n = Some (st, w').
Proof.
  clear malloc_ok malloc. intros Hv Hn. unfold store_metadata.
  destruct (sv_open w) as (st & w1 & ->). simpl. destruct (st =? 0); [|by eexists _, _].
  destruct (sv_erase (io := io) w1) as (st2 & w2 & ->). simpl. destruct (st2 =? 0).
  - destruct (sv_write w2 data n 0 Hn) as (st3 & k & w3 & ->). simpl.
    destruct (sv_close w3) as (st4 & w4 & ->). by eexists _, _.
  - simpl. destruct (sv_close w2) as (st4 & w4 & ->). by eexists _, _.
Qed.

Lemma load_and_check_returns v w buf n :
  SafeVolume io v -> 4 <= n < 2 ^ 32 -> n <= len buf ->
  exists st b w', load_and_check_metadata io impl crc32b v w buf n = Some (st, b, w') /\ len b = len buf /\
    (bytes_ok buf -> bytes_ok b).
Proof.
  clear malloc_ok malloc. intros Hv Hn Hl. unfold load_and_check_metadata.
  destruct (sv_open w) as (st & w1 & ->). simpl. destruct (st =? 0); [|by eexists _, _, _].
  destruct (sv_read w1 buf n 0) as (st2 & b & k & w2 & -> & Hb & Hok); [lia|]. simpl.
  destruct (st2 =? 0).
  - destruct (metadata_crc_total (impl := impl) (crc32b := crc32b) b n Hn) as [c ->]; [lia|]. simpl.
    unfold read32. rewrite load_is_slice by lia. simpl.
    destruct (sv_close w2) as (st4 & w4 & ->). by eexists _, _, _.
  - simpl. destruct (sv_close w2) as (st4 & w4 & ->). by eexists _, _, _.
Qed.

(** An update returns with the new metadata in the cache, whether or not it could
    be stored. *)
Lemma manager_update_returns m w a p d t :
  manager_safe m -> directory_ok d -> tracker_ok t -> fits 32 a -> fits 32 p ->
  exists st m' w', metadata_manager_update io ms impl crc32b m w a p d t = Some (st, m', w') /\
    manager_safe m' /\ is_valid m' = true /\ metadata_len m' = ms_size ms d /\ decodes ms m' a p d t.
Proof.
  clear malloc_ok malloc. intros (Hck & Hv1 & Hv2) Hd Ht Ha Hp.
  pose proof (sl_size d Hd) as Hn. pose proof sl_max as Hmx.
  destruct (update_cache_ok (impl := impl) (crc32b := crc32b) m a p d t Hd Ht Ha Hp Hck)
    as (m1 & Hu & Hck1 & Hval & Hp1 & Hb1 & Hn1 & _ & _ & Hdec). pose proof Hck1 as [_ Hl1].
  assert (decodes ms m1 a p d t) as Hd1 by (by apply Hdec).
  assert (manager_safe m1) as Hs1 by (split; [done|]; by rewrite Hp1, Hb1).
  unfold metadata_manager_update. rewrite Hu. cbn [mbind option_bind]. unfold read32 at 1.
  rewrite load_is_slice by lia. cbn [fmap option_fmap option_map mbind option_bind].
  destruct (is_valid m && _); [by eexists _, m1, w|].
  assert (forall v w, (forall u, v = Some u -> SafeVolume io u) ->
    exists st w', store_copy io v m1 w = Some (st, w')) as Hstore.
  { intros [v|] w0 Hv; [|by eexists _, _]. apply store_metadata_returns; [by apply Hv|lia]. }
  rewrite Hp1, Hb1. destruct (Hstore _ w Hv1) as (st1 & w1 & ->). cbn [mbind option_bind].
  destruct (Hstore _ w1 Hv2) as (st2 & w2 & ->). cbn [mbind option_bind].
  eexists _, _, w2. split; [done|]. by destruct (_ && _).
Qed.

(** A manager that is loading the metadata of [d]. *)
Definition loading d m : Prop :=
  manager_safe m /\ metadata_len m = ms_size ms d /\ bytes_ok (metadata_cache m).

Lemma loading_with d m b v :
  loading d m -> len b = len (metadata_cache m) -> bytes_ok b -> loading d (with_valid (with_cache m b (metadata_len m)) v).
Proof.
  clear. intros (((Hmax & Hl) & Hv1 & Hv2) & Hn & _) Hlb Hb. unfold loading, manager_safe, cache_ok. simpl.
  rewrite Hlb. auto 10.
Qed.

Lemma check_primary_returns d m w :
  directory_ok d -> loading d m ->
  exists st m' w', check_primary io impl crc32b m w = Some (st, m', w') /\ loading d m'.
Proof.
  clear malloc_ok malloc. intros Hd Hm. pose proof (sl_size d Hd) as Hn. pose proof sl_max as Hmx.
  pose proof Hm as (((Hmax & Hl) & Hv1 & _) & Hlen & Hb). unfold check_primary.
  destruct (primary_metadata_volume m) as [v|]; [|by eexists _, m, w].
  destruct (load_and_check_returns v w (metadata_cache m) (metadata_len m)) as (st & b & w' & -> & Hlb & Hok);
    [by apply Hv1|lia|lia|]. eexists _, _, w'. split; [done|]. apply loading_with; auto.
Qed.

Lemma check_backup_returns d m w :
  directory_ok d -> loading d m ->
  exists st m' w', check_backup io impl crc32b malloc m w = Some (st, m', w') /\ loading d m'.
Proof.
  intros Hd Hm. pose proof (sl_size d Hd) as Hn. pose proof sl_max as Hmx.
  pose proof Hm as (((Hmax & Hl) & _ & Hv2) & Hlen & Hb). unfold check_backup.
  destruct (backup_metadata_volume m) as [v|]; [|by eexists _, m, w]. destruct (is_valid m).
  - destruct (malloc (metadata_len m)) as [buf|] eqn:Hmal; [|by eexists _, m, w].
    destruct (malloc_ok _ _ Hmal) as [Hlbuf Hbuf].
    destruct (load_and_check_returns v w buf (metadata_len m)) as (st & b & w' & -> & Hlb & Hok);
      [by apply Hv2|lia|lia|]. simpl. destruct (st =? FWU_STATUS_SUCCESS); [|by eexists _, m, w'].
    unfold read32. rewrite !load_is_slice by lia. by eexists _, m, w'.
  - destruct (load_and_check_returns v w (metadata_cache m) (metadata_len m)) as (st & b & w' & -> & Hlb & Hok);
      [by apply Hv2|lia|lia|]. eexists _, _, w'. split; [done|]. apply loading_with; auto.
Qed.

Lemma repair_returns v st m w :
  (forall u, v = Some u -> SafeVolume io u) -> 0 <= metadata_len m <= len (metadata_cache m) ->
  exists w', repair io v st m w = Some w'.
Proof.
  clear malloc_ok malloc. intros Hv Hn. unfold repair. destruct v as [v|]; [|by eexists].
  destruct (negb _); [|by eexists].
  destruct (store_metadata_returns v w (metadata_cache m) (metadata_len m)) as (st1 & w1 & ->);
    [by apply Hv|done|]. by eexists.
Qed.

Lemma check_and_repair_returns m w d :
  manager_safe m -> directory_ok d -> is_valid m = false -> bytes_ok (metadata_cache m) ->
  exists st m' w', metadata_manager_check_and_repair io ms impl crc32b malloc m w d = Some (st, m', w') /\
    manager_safe m' /\ (st = FWU_STATUS_SUCCESS -> is_valid m' = true /\ loading d m').
Proof.
  intros Hs Hd Hinv Hb. pose proof (sl_size d Hd) as Hn. pose proof sl_max as Hmx.
  unfold metadata_manager_check_and_repair. rewrite Hinv.
  assert (exists st m' w', check_replicas io ms impl crc32b malloc m w d = Some (st, m', w') /\
    manager_safe m' /\ (st = FWU_STATUS_SUCCESS -> is_valid m' = true /\ loading d m')) as Hmain.
  { unfold check_replicas. destruct (check_primary_returns d (with_cache m (metadata_cache m) (ms_size ms d)) w Hd) as (st1 & m1 & w1 & -> & Hm1);
      [by split|]. cbn [mbind option_bind].
    destruct (check_backup_returns d m1 w1 Hd Hm1) as (st2 & m2 & w2 & -> & Hm2). cbn [mbind option_bind].
    pose proof Hm2 as (((Hmax & Hl) & Hv1 & Hv2) & Hlen & Hbk).
    destruct (is_valid m2) eqn:Hval; [|by eexists _, m2, w2; split; [done|]; split; [apply Hm2|]].
    destruct (repair_returns _ st1 m2 w2 Hv1) as [w3 ->]; [lia|]. cbn [mbind option_bind].
    destruct (repair_returns _ st2 m2 w3 Hv2) as [w4 ->]; [lia|]. cbn [mbind option_bind].
    unfold read32. rewrite load_is_slice by lia. eexists _, _, w4. split; [done|]. split; [apply Hm2|].
    intros _. split; [done|]. apply Hm2. }
  destruct (primary_metadata_volume m); [done|]. destruct (backup_metadata_volume m); [done|].
  eexists _, m, w. split; [done|]. by split.
Qed.

End Safe.

(** ** The fault model

    Storage with a primary and a backup volume.  [power] operations that change
    storage complete; the next one either does nothing or, if [tear] is set,
    leaves [torn] in the volume, and nothing changes after that. *)

Inductive side := Primary | Backup.

#[export] Instance side_eq_dec : EqDecision side.
Proof. solve_decision. Defined.

Record storage := Storage {
  power : nat;
  tear : bool;
  contents : side -> bytes;
  position : side -> Z
}.

Implicit Types (w : storage) (s : side).

Definition upd {A} (f : side -> A) s (x : A) : side -> A := fun s' => if decide (s' = s) then x else f s'.

Lemma upd_same {A} (f : side -> A) s x : upd f s x s = x.
Proof. unfold upd. by rewrite decide_True. Qed.

Lemma upd_other {A} (f : side -> A) s x s' : s' <> s -> upd f s x s' = f s'.
Proof. intros. unfold upd. by rewrite decide_False. Qed.

Definition set_contents w s (b : bytes) (p : Z) : storage :=
  Storage (power w) (tear w) (upd (contents w) s b) (upd (position w) s p).

Section Flash.
(** What an interrupted operation leaves behind. *)
Context (torn : bytes).

(** A change of the contents of a volume to [b], as far as the power goes. *)
Definition change w s (b : bytes) (p : Z) : Z * storage :=
  match power w with
  | S n => (0, Storage n (tear w) (upd (contents w) s b) (upd (position w) s p))
  | O => (- EIO, if tear w then Storage 0 false (upd (contents w) s torn) (position w) else w)
  end.

Definition erased (b : bytes) : bytes := fill 255 (len b).

Definition flash_funcs s : io_dev_funcs storage := DevFuncs
  (fun w => Some (0, set_contents w s (contents w s) 0))
  (fun w => Some (0, w))
  (fun w mode off =>
     let p := match mode with IO_SEEK_CUR => position w s + off | _ => off end in
     if (0 <=? p) && (p <=? len (contents w s)) then Some (0, set_contents w s (contents w s) p)
     else Some (- EINVAL, w))
  (fun w _ => Some (0, len (contents w s), w))
  (fun w buf n _ =>
     let k := Z.min n (len (contents w s) - position w s) in
     buf ← store buf 0 (slice (contents w s) (position w s) k);
     Some (0, buf, k, set_contents w s (contents w s) (position w s + k)))
  (fun w buf n _ =>
     let k := Z.min n (len (contents w s) - position w s) in
     b ← store (contents w s) (position w s) (take (Z.to_nat k) buf);
     let '(st, w') := change w s b (position w s + k) in
     Some (st, if st =? 0 then k else 0, w')).

Definition flash_volume s : volume storage :=
  Volume (flash_funcs s) (Some (fun w => Some (change w s (erased (contents w s)) (position w s)))) None.

Abbreviation io := (@forwarding_io storage).

(** The storage after a restart: everything but the contents is new. *)
Definition restart w (p : nat) : storage := Storage p false (contents w) (fun _ => 0).

(** ** One replica *)

Context (impl : crc32_impl) (crc32b : Z -> Z -> Z).

Abbreviation valid_copy := (valid_copy impl crc32b).

(** Loading a replica reads it into the buffer and tells whether it is valid. *)
Lemma load_and_check_ok s w buf n :
  4 <= n < 2 ^ 32 -> n <= len (contents w s) -> n <= len buf ->
  exists buf' w', load_and_check_metadata io impl crc32b (flash_volume s) w buf n
      = Some (if valid_copy n (contents w s) then FWU_STATUS_SUCCESS else FWU_STATUS_UNKNOWN, buf', w') /\
    slice buf' 0 n = slice (contents w s) 0 n /\ len buf' = len buf /\
    power w' = power w /\ tear w' = tear w /\ forall s', contents w' s' = contents w s'.
Proof.
  intros Hn Hc Hb. unfold load_and_check_metadata, volume_open, volume_read, volume_close. simpl.
  rewrite !upd_same. rewrite Z.sub_0_r, Z.min_l by lia.
  destruct (store_ok buf 0 (slice (contents w s) 0 n)) as [buf' Hst]; [lia|rewrite slice_len; lia|].
  rewrite Hst. cbn [mbind option_bind]. pose proof (store_len _ _ _ _ Hst) as Hl.
  assert (slice buf' 0 n = slice (contents w s) 0 n) as Heq.
  { rewrite <- (slice_len (contents w s) 0 n) at 1 by lia. by eapply store_slice_same. }
  destruct (metadata_crc_total (impl := impl) (crc32b := crc32b) buf' n Hn) as [c Hcrc]; [lia|]. rewrite Hcrc. cbn [mbind option_bind].
  unfold read32 at 1. rewrite load_is_slice by lia. cbn [fmap option_fmap option_map mbind option_bind].
  eexists _, _. split.
  - rewrite <- (valid_prefix (contents w s) buf' n) by (done || lia). unfold valid_copy. rewrite Hcrc.
    unfold read32. rewrite load_is_slice by lia. done.
  - split; [done|]. split; [done|]. split; [done|]. split; [done|]. intros s'. simpl. unfold upd.
    repeat case_decide; by subst.
Qed.

(** Contents that no start mistakes for metadata. *)
Definition bad n (size : Z) (b : bytes) : Prop := len b = size /\ valid_copy n b = false.

(** Storing a replica: with power for both operations it holds the data, and
    otherwise what is left is the old contents or invalid, and the power is gone. *)
Lemma store_metadata_ok s w data n :
  0 <= n -> n <= len data -> n <= len (contents w s) ->
  bad n (len (contents w s)) torn -> bad n (len (contents w s)) (erased (contents w s)) ->
  exists st w', store_metadata io (flash_volume s) w data n = Some (st, w') /\
    len (contents w' s) = len (contents w s) /\
    (forall s', s' <> s -> contents w' s' = contents w s') /\
    if (2 <=? power w)%nat then
      st = 0 /\ slice (contents w' s) 0 n = slice data 0 n /\ power w' = (power w - 2)%nat /\ tear w' = tear w
    else st <> 0 /\ power w' = 0%nat /\ tear w' = false /\
      (contents w' s = contents w s \/
       bad n (len (contents w s)) (contents w' s) /\ (power w = 1%nat \/ tear w = true)).
Proof.
  intros Hn Hd Hc Ht He. unfold store_metadata, volume_open, volume_erase, volume_write, volume_close.
  simpl. rewrite upd_same. unfold change at 1. simpl.
  destruct w as [pw tr co po]. simpl in *. destruct pw as [|[|pw]]; simpl.
  - eexists _, _. split; [done|]. simpl. destruct tr; simpl; rewrite ?upd_same.
    + split; [by destruct Ht|]. split; [intros s' Hs; by rewrite !upd_other|].
      split; [done|]. split; [done|]. split; [done|]. right. split; [done|]. tauto.
    + split; [done|]. split; [intros s' Hs; by rewrite !upd_other|]. split; [done|]. split; [done|].
      split; [done|]. by left.
  - rewrite !upd_same, Z.sub_0_r. unfold erased. rewrite len_fill by apply len_nonneg.
    rewrite Z.min_l by lia.
    destruct (store_ok (fill 255 (len (co s))) 0 (take (Z.to_nat n) data)) as [b Hb]; [lia|..].
    { rewrite len_fill by apply len_nonneg. unfold len in *. rewrite length_take. lia. }
    rewrite Hb. cbn [mbind option_bind]. unfold change. simpl. eexists _, _. split; [done|].
    destruct tr; simpl; rewrite !upd_same.
    + split; [by destruct Ht|]. split; [intros s' Hs; by rewrite !upd_other|].
      split; [done|]. split; [done|]. split; [done|]. right. split; [done|]. tauto.
    + split; [by rewrite len_fill by apply len_nonneg|]. split; [intros s' Hs; by rewrite !upd_other|].
      split; [done|]. split; [done|]. split; [done|]. right. split; [done|]. tauto.
  - rewrite !upd_same, Z.sub_0_r. unfold erased. rewrite len_fill by apply len_nonneg.
    rewrite Z.min_l by lia.
    destruct (store_ok (fill 255 (len (co s))) 0 (take (Z.to_nat n) data)) as [b Hb]; [lia|..].
    { rewrite len_fill by apply len_nonneg. unfold len in *. rewrite length_take. lia. }
    pose proof (store_len _ _ _ _ Hb) as Hl. rewrite len_fill in Hl by apply len_nonneg.
    rewrite Hb. cbn [mbind option_bind]. unfold change. simpl. eexists _, _. split; [done|]. simpl.
    rewrite !upd_same. split; [done|]. split; [intros s' Hs; by rewrite !upd_other|].
    split; [done|]. split; [|split; [lia|done]].
    change (take (Z.to_nat n) data) with (slice data 0 n) in Hb.
    rewrite <- (slice_len data 0 n) at 1 by lia. by eapply store_slice_same.
Qed.

(** ** Both replicas *)

Context (ms : metadata_serializer) {Hms : SerializerLaws ms}.
Context (malloc : Z -> option bytes).
Hypothesis malloc_ok : forall n b, malloc n = Some b -> len b = n.

Definition on_flash (m : metadata_manager (W := storage)) : Prop :=
  primary_metadata_volume m = Some (flash_volume Primary) /\
  backup_metadata_volume m = Some (flash_volume Backup) /\ cache_ok ms m.

(** Contents of the size of the volumes whose first [n] bytes are [md]. *)
Definition copy n size (md b : bytes) : Prop := len b = size /\ slice b 0 n = md.

(** What an interrupted update can leave, from [old] to [new]. *)
Inductive crashed (n size : Z) (old new : bytes) w : Prop :=
  | crashed_primary :
      copy n size old (contents w Primary) \/ bad n size (contents w Primary) ->
      copy n size old (contents w Backup) -> crashed n size old new w
  | crashed_backup :
      copy n size new (contents w Primary) ->
      copy n size old (contents w Backup) \/ bad n size (contents w Backup) \/
        copy n size new (contents w Backup) -> crashed n size old new w.

Section Update.
Context (n size : Z) (old : bytes).
Hypothesis size_ok : 0 <= n <= size.
Hypothesis torn_bad : bad n size torn.
Hypothesis erased_bad : bad n size (fill 255 size).

Lemma store_both m w st1 w1 :
  on_flash m -> n = metadata_len m -> n <= len (metadata_cache m) ->
  copy n size old (contents w Primary) -> copy n size old (contents w Backup) ->
  store_copy io (primary_metadata_volume m) m w = Some (st1, w1) ->
  exists st2 w2, store_copy io (backup_metadata_volume m) m w1 = Some (st2, w2) /\
    crashed n size old (slice (metadata_cache m) 0 n) w2 /\
    (st1 = 0 -> copy n size (slice (metadata_cache m) 0 n) (contents w2 Primary)).
Proof.
  clear malloc_ok malloc. intros (Hv1 & Hv2 & _) Hn Hl [Hl1 Hp] [Hl2 Hb]. rewrite Hv1, Hv2. simpl.
  rewrite <- Hn. intros Hs1.
  destruct (store_metadata_ok Primary w (metadata_cache m) n) as (st & w' & Heq & Hlp & Ho1 & Hc1);
    [lia|done|lia|by rewrite Hl1|unfold erased; by rewrite Hl1|].
  rewrite Hs1 in Heq. injection Heq as <- <-.
  assert (contents w1 Backup = contents w Backup) as Hb1 by (by apply Ho1).
  destruct (store_metadata_ok Backup w1 (metadata_cache m) n) as (st2 & w2 & -> & Hlb & Ho2 & Hc2);
    [lia|done|rewrite Hb1; lia|by rewrite Hb1, Hl2|unfold erased; by rewrite Hb1, Hl2|].
  exists st2, w2. split; [done|].
  assert (contents w2 Primary = contents w1 Primary) as Hp2 by (by apply Ho2).
  rewrite Hb1 in *. unfold copy. rewrite Hp2.
  destruct (2 <=? power w)%nat.
  - destruct Hc1 as (-> & Hs & _). split; [|by split; [congruence|]]. apply crashed_backup.
    + rewrite Hp2. split; [congruence|done].
    + destruct (2 <=? power w1)%nat.
      * destruct Hc2 as (_ & Hs2 & _). right. right. split; [congruence|done].
      * destruct Hc2 as (_ & _ & _ & [-> | [Hbad _]]); [by left|]. right. left. by rewrite <- Hl2.
  - destruct Hc1 as (Hst & Hpw & Htr & Hc). split; [|by intros ->]. rewrite Hpw in Hc2. simpl in Hc2.
    apply crashed_primary.
    + rewrite Hp2. destruct Hc as [-> | [Hbad _]]; [by left|]. right. by rewrite <- Hl1.
    + destruct Hc2 as (_ & _ & _ & [-> | [_ [H|H]]]); [done|lia|congruence].
Qed.

(** A replica that agrees with the cache. *)
Definition agrees (m : metadata_manager (W := storage)) (b : bytes) : Prop :=
  len b = size /\ valid_copy n b = true /\ read32 b 0 = read32 (metadata_cache m) 0.

Lemma prefix_agrees m b :
  4 <= n < 2 ^ 32 -> n <= len (metadata_cache m) -> len b = size ->
  valid_copy n (metadata_cache m) = true -> slice b 0 n = slice (metadata_cache m) 0 n -> agrees m b.
Proof.
  clear -size_ok. intros Hn Hl Hb Hv Heq. split; [done|].
  rewrite (valid_prefix (metadata_cache m) b n), (read32_prefix (metadata_cache m) b n) by (done || lia).
  done.
Qed.

(** Repairing a replica, if its status asks for it, makes it agree. *)
Lemma repair_ok s st m w :
  4 <= n < 2 ^ 32 -> n <= len (metadata_cache m) -> metadata_len m = n ->
  valid_copy n (metadata_cache m) = true ->
  (2 <= power w)%nat -> len (contents w s) = size -> (st = FWU_STATUS_SUCCESS -> agrees m (contents w s)) ->
  exists w', repair io (Some (flash_volume s)) st m w = Some w' /\ agrees m (contents w' s) /\
    (power w - 2 <= power w')%nat /\ forall s', s' <> s -> contents w' s' = contents w s'.
Proof.
  clear malloc_ok malloc old. intros Hn Hl Hlen Hv Hpw Hsz Hst. unfold repair.
  destruct (Z.eqb_spec st FWU_STATUS_SUCCESS) as [->|Hne]; simpl negb; cbv iota.
  { exists w. split; [done|]. split; [by apply Hst|]. split; [lia|done]. }
  rewrite Hlen. destruct (store_metadata_ok s w (metadata_cache m) n) as (st1 & w1 & -> & Hl1 & Ho & Hc);
    [lia|done|lia|by rewrite Hsz|unfold erased; by rewrite Hsz|].
  destruct (Nat.leb_spec 2 (power w)); [|lia]. destruct Hc as (_ & Hsl & Hp & _).
  exists w1. split; [done|]. split; [|split; [lia|done]]. apply prefix_agrees; [done|done|congruence|done|].
  done.
Qed.

Lemma check_primary_ok m w :
  4 <= n < 2 ^ 32 -> on_flash m -> n <= len (metadata_cache m) -> metadata_len m = n ->
  len (contents w Primary) = size ->
  exists b w', check_primary io impl crc32b m w
      = Some (if valid_copy n (contents w Primary) then FWU_STATUS_SUCCESS else FWU_STATUS_UNKNOWN,
              with_valid (with_cache m b n) (valid_copy n (contents w Primary)), w') /\
    len b = len (metadata_cache m) /\ slice b 0 n = slice (contents w Primary) 0 n /\
    power w' = power w /\ forall s, contents w' s = contents w s.
Proof.
  clear malloc_ok malloc old torn_bad erased_bad. intros Hn (Hv & _) Hl Hlen Hsz. unfold check_primary.
  rewrite Hv, Hlen.
  destruct (load_and_check_ok Primary w (metadata_cache m) n) as (b & w' & -> & Hs & Hlb & Hp & _ & Hc);
    [done|lia|done|]. cbn [mbind option_bind]. exists b, w'.
  split; [by destruct (valid_copy n (contents w Primary))|]. done.
Qed.

Lemma check_backup_valid m w :
  4 <= n < 2 ^ 32 -> on_flash m -> n <= len (metadata_cache m) -> metadata_len m = n ->
  is_valid m = true -> len (contents w Backup) = size ->
  exists st w', check_backup io impl crc32b malloc m w = Some (st, m, w') /\
    (st = FWU_STATUS_SUCCESS -> agrees m (contents w Backup)) /\
    power w' = power w /\ forall s, contents w' s = contents w s.
Proof.
  clear old torn_bad erased_bad. intros Hn (_ & Hv & _) Hl Hlen Hval Hsz. unfold check_backup.
  rewrite Hv, Hval, Hlen. destruct (malloc n) as [buf|] eqn:Hm; [|by eexists _, w].
  apply malloc_ok in Hm.
  destruct (load_and_check_ok Backup w buf n) as (b & w' & -> & Hs & Hlb & Hp & _ & Hc);
    [done|lia|lia|]. cbn [mbind option_bind].
  destruct (valid_copy n (contents w Backup)) eqn:Hvb; simpl; [|by eexists _, w'].
  assert (read32 b 0 = read32 (contents w Backup) 0) as Hr by (apply (read32_prefix _ _ n); lia || done).
  unfold read32 at 1 2. rewrite !load_is_slice by lia. cbn [fmap option_fmap option_map mbind option_bind].
  eexists _, w'. split; [done|]. split; [|done]. intros Hst. split; [done|]. split; [done|].
  destruct (Z.eqb_spec (le_combine (slice b 0 4)) (le_combine (slice (metadata_cache m) 0 4))) as [E|E];
    simpl in Hst; [|done].
  rewrite <- Hr. unfold read32. rewrite !load_is_slice by lia. simpl. by rewrite E.
Qed.

(** The copy a start goes on with: the primary if it is valid. *)
Definition chosen w : bytes := if valid_copy n (contents w Primary) then contents w Primary else contents w Backup.

(** With one valid replica, the cache holds the chosen copy after both checks, and
    the backup is reported good only if it agrees with it. *)
Lemma check_both_ok m w :
  4 <= n < 2 ^ 32 -> on_flash m -> n <= len (metadata_cache m) -> metadata_len m = n ->
  len (contents w Primary) = size -> len (contents w Backup) = size ->
  valid_copy n (contents w Primary) = true \/ valid_copy n (contents w Backup) = true ->
  exists m1 w1 st2 m2 w2,
    check_primary io impl crc32b m w
      = Some (if valid_copy n (contents w Primary) then FWU_STATUS_SUCCESS else FWU_STATUS_UNKNOWN, m1, w1) /\
    check_backup io impl crc32b malloc m1 w1 = Some (st2, m2, w2) /\
    is_valid m2 = true /\ metadata_len m2 = n /\ on_flash m2 /\ valid_copy n (metadata_cache m2) = true /\
    slice (metadata_cache m2) 0 n = slice (chosen w) 0 n /\
    (st2 = FWU_STATUS_SUCCESS -> agrees m2 (contents w Backup)) /\
    power w2 = power w /\ forall s, contents w2 s = contents w s.
Proof.
  clear torn_bad erased_bad. intros Hn Hfl Hl Hlen Hlp Hlb Hval. pose proof Hfl as (Hv1 & Hv2 & Hmax & Hlc).
  destruct (check_primary_ok m w) as (b1 & w1 & -> & Hlb1 & Hs1 & Hp1 & Hc1); [done..|].
  exists (with_valid (with_cache m b1 n) (valid_copy n (contents w Primary))), w1. unfold chosen. destruct (valid_copy n (contents w Primary)) eqn:Hvp.
  - set (m1 := with_valid (with_cache m b1 n) true).
    assert (on_flash m1) as Hfl1 by (do 3 (split; [done|]); simpl; congruence).
    destruct (check_backup_valid m1 w1) as (st2 & w2 & -> & Hag & Hpw2 & Hc2);
      [done|done|simpl; lia|done|done|by rewrite Hc1|].
    exists st2, m1, w2. do 5 (split; [done|]).
    split; [simpl; rewrite (valid_prefix (contents w Primary) b1 n) by (done || lia); done|].
    split; [done|]. split; [by rewrite <- Hc1|]. split; [congruence|]. intros s. by rewrite Hc2.
  - destruct Hval as [?|Hvb]; [done|]. unfold check_backup. simpl. rewrite Hv2.
    destruct (load_and_check_ok Backup w1 b1 n) as (b2 & w2 & -> & Hs2 & Hlb2 & Hp2 & _ & Hc2);
      [lia|rewrite Hc1; lia|lia|]. rewrite Hc1, Hvb in *. cbn [mbind option_bind].
    assert (valid_copy n b2 = true) as Hvb2
      by (rewrite (valid_prefix (contents w Backup) b2 n) by (done || lia); done).
    eexists _, _, w2. do 2 (split; [done|]). simpl. do 2 (split; [done|]).
    split; [do 3 (split; [done|]); simpl; congruence|]. do 2 (split; [done|]).
    split; [|split; [congruence|intros s; by rewrite Hc2]].
    intros _. apply prefix_agrees; simpl; done || lia.
Qed.

(** A start with one valid replica succeeds with the chosen copy and leaves both
    replicas in agreement with it. *)
Lemma recover_ok m w d :
  directory_ok d -> n = ms_size ms d -> on_flash m -> is_valid m = false -> (4 <= power w)%nat ->
  len (contents w Primary) = size -> len (contents w Backup) = size ->
  valid_copy n (contents w Primary) = true \/ valid_copy n (contents w Backup) = true ->
  exists m' w', metadata_manager_check_and_repair io ms impl crc32b malloc m w d
      = Some (FWU_STATUS_SUCCESS, m', w') /\
    is_valid m' = true /\ metadata_len m' = n /\ on_flash m' /\
    slice (metadata_cache m') 0 n = slice (chosen w) 0 n /\ forall s, agrees m' (contents w' s).
Proof.
  intros Hd Hn Hfl Hinv Hpw Hlp Hlb Hval. pose proof (sl_size d Hd) as Hsz. pose proof sl_max as Hmx.
  rewrite <- Hn in Hsz. pose proof Hfl as (Hv1 & Hv2 & Hmax & Hlc).
  unfold metadata_manager_check_and_repair, check_replicas. rewrite Hinv, Hv1. rewrite <- Hn.
  destruct (check_both_ok (with_cache m (metadata_cache m) n) w)
    as (m1 & w1 & st2 & m2 & w2 & -> & Hcb & Hv & Hn2 & Hfl2 & Hvc & Hs2 & Hag & Hpw2 & Hc2);
    [lia|done|simpl; lia|done|done|done|done|].
  cbn [mbind option_bind]. rewrite Hcb. cbn [mbind option_bind]. rewrite Hv.
  pose proof Hfl2 as (Hp2 & Hb2 & _ & Hl2). rewrite Hp2.
  destruct (repair_ok Primary (if valid_copy n (contents w Primary) then FWU_STATUS_SUCCESS else
    FWU_STATUS_UNKNOWN) m2 w2) as (w3 & -> & Hag3 & Hpw3 & Ho3); [lia|lia|done|done|lia|by rewrite Hc2| |].
  { unfold chosen in Hs2. destruct (valid_copy n (contents w Primary)); [|done]. intros _.
    apply prefix_agrees; rewrite ?Hc2; done || lia. }
  cbn [mbind option_bind]. rewrite Hb2.
  assert (contents w3 Backup = contents w Backup) as Hb3 by (by rewrite Ho3, Hc2).
  destruct (repair_ok Backup st2 m2 w3) as (w4 & -> & Hag4 & _ & Ho4);
    [lia|lia|done|done|lia|by rewrite Hb3|by rewrite Hb3|].
  cbn [mbind option_bind]. unfold read32 at 1. rewrite load_is_slice by lia.
  cbn [fmap option_fmap option_map mbind option_bind].
  eexists _, w4. split; [done|]. simpl. do 4 (split; [done|]). intros []; [by rewrite Ho4|done].
Qed.

Lemma crashed_recoverable new w :
  4 <= n < 2 ^ 32 -> len new = n -> crashed n size old new w ->
  (forall b, copy n size old b -> valid_copy n b = true) -> (forall b, copy n size new b -> valid_copy n b = true) ->
  len (contents w Primary) = size /\ len (contents w Backup) = size /\
  (valid_copy n (contents w Primary) = true \/ valid_copy n (contents w Backup) = true) /\
  let r := slice (chosen w) 0 n in
  (r = old \/ r = new) /\ (copy n size new (contents w Primary) -> r = new).
Proof.
  clear malloc_ok malloc torn_bad erased_bad. intros Hn Hnew Hc Hold Hnew'. unfold chosen.
  destruct Hc as [Hp Hb|Hp Hb].
  - assert (valid_copy n (contents w Backup) = true) as Hvb by auto. destruct Hb as [Hlb Hb].
    destruct Hp as [Hp|Hp]; destruct Hp as [Hlp Hp'].
    + rewrite (Hold (contents w Primary)) by done. do 2 (split; [done|]). split; [by left|].
      split; [by left|]. by intros [_ ?].
    + rewrite Hp'. do 2 (split; [done|]). split; [by right|]. split; [by left|].
      intros Hcp. rewrite (Hnew' _ Hcp) in Hp'. done.
  - rewrite (Hnew' _ Hp). destruct Hp as [Hlp Hp]. split; [done|].
    split; [destruct Hb as [[? _]|[[? _]|[? _]]]; done|]. split; [by left|]. split; [by right|done].
Qed.
End Update.

(** The update, whatever the power: the storage it leaves, and what a start that
    finds its metadata reads. *)
Lemma update_leaves m w d a p t size old :
  directory_ok d -> tracker_ok t -> fits 32 a -> fits 32 p -> on_flash m ->
  ms_size ms d <= size -> bad (ms_size ms d) size torn -> bad (ms_size ms d) size (fill 255 size) ->
  (forall s, copy (ms_size ms d) size old (contents w s)) ->
  exists st m1 w1 new, metadata_manager_update io ms impl crc32b m w a p d t = Some (st, m1, w1) /\
    new = slice (metadata_cache m1) 0 (ms_size ms d) /\ crashed (ms_size ms d) size old new w1 /\
    (st = FWU_STATUS_SUCCESS -> is_valid m = false \/ read32 (metadata_cache m1) 0 <> Some (stored_crc m) ->
     copy (ms_size ms d) size new (contents w1 Primary)) /\
    len (metadata_cache m1) = ms_max_size ms /\ valid_copy (ms_size ms d) (metadata_cache m1) = true /\
    forall m2 : metadata_manager (W := storage), cache_ok ms m2 -> is_valid m2 = true -> metadata_len m2 = ms_size ms d ->
      slice (metadata_cache m2) 0 (ms_size ms d) = new -> decodes ms m2 a p d t.
Proof.
  clear malloc_ok malloc. intros Hd Ht Ha Hp Hfl Hsz Htorn Her Hold.
  pose proof (sl_size d Hd) as Hn. pose proof sl_max as Hmx. set (n := ms_size ms d) in *.
  destruct Hfl as (Hv1 & Hv2 & Hck).
  destruct (update_cache_ok (impl := impl) (crc32b := crc32b) m a p d t Hd Ht Ha Hp Hck)
    as (m' & Hu & Hck' & Hv' & Hp1 & Hb1 & Hn' & Hcrc & Hval & Hdec).
  rewrite Hv1 in Hp1. rewrite Hv2 in Hb1. pose proof Hck' as (_ & Hl').
  assert (on_flash m') as Hfl' by (do 2 (split; [done|]); done).
  unfold metadata_manager_update. rewrite Hu. cbn [mbind option_bind].
  destruct (read32 (metadata_cache m') 0) as [c|] eqn:Hc;
    [|by unfold read32 in Hc; rewrite load_is_slice in Hc by lia]. cbn [mbind option_bind].
  destruct (is_valid m && (stored_crc m' =? c)) eqn:Hskip.
  - eexists _, m', w, _. split; [done|]. split; [done|].
    split; [apply crashed_primary; [left|]; apply Hold|]. split; [|done].
    intros _ Hns. apply andb_true_iff in Hskip as [Hv Heq%Z.eqb_eq]. rewrite Hc in Hns.
    destruct Hns as [?|Hns]; [congruence|]. destruct Hns. congruence.
  - destruct (store_metadata_ok Primary w (metadata_cache m') n) as (st1 & w1 & Hs1 & _);
      [lia|lia|destruct (Hold Primary); lia|by destruct (Hold Primary) as [-> _]
      |unfold erased; by destruct (Hold Primary) as [-> _]|].
    assert (store_copy io (primary_metadata_volume m') m' w = Some (st1, w1)) as Hs1'
      by (rewrite Hp1; unfold store_copy; by rewrite Hn').
    rewrite Hs1'. cbn [mbind option_bind].
    destruct (store_both n size old ltac:(lia) Htorn Her m' w st1 w1) as (st2 & w2 & -> & Hcr & Hsucc);
      [done|done|lia|apply Hold|apply Hold|done|]. cbn [mbind option_bind].
    eexists _, _, w2, _. split; [done|]. change FWU_STATUS_SUCCESS with 0 in *.
    destruct (Z.eqb_spec st1 0) as [->|Hne]; simpl; [destruct (st2 =? 0)|]; simpl;
      (do 2 (split; [done|]); split; [by auto|by split]).
Qed.

(** ** Properties *)

(** C18: an update of the metadata survives a loss of power at any point.  From two
    good replicas of the old metadata, with any power left and the operation that
    fails torn or not, the update returns and the next start succeeds: it recovers
    the old metadata or the new, the new if the update reported success and was not
    skipped because the stored CRC was the new one already, and it leaves both
    replicas valid and with the CRC of the copy in use. *)
Theorem metadata_update_crash_safe m w d a p t size old m0 :
  directory_ok d -> tracker_ok t -> fits 32 a -> fits 32 p -> on_flash m ->
  ms_size ms d <= size -> bad (ms_size ms d) size torn -> bad (ms_size ms d) size (fill 255 size) ->
  (forall s, copy (ms_size ms d) size old (contents w s) /\ valid_copy (ms_size ms d) (contents w s) = true) ->
  on_flash m0 -> is_valid m0 = false ->
  exists st m1 w1 m2 w2,
    metadata_manager_update io ms impl crc32b m w a p d t = Some (st, m1, w1) /\
    metadata_manager_check_and_repair io ms impl crc32b malloc m0 (restart w1 4) d
      = Some (FWU_STATUS_SUCCESS, m2, w2) /\
    (slice (metadata_cache m2) 0 (ms_size ms d) = old \/ decodes ms m2 a p d t) /\
    (st = FWU_STATUS_SUCCESS ->
     is_valid m = false \/ read32 (metadata_cache m1) 0 <> Some (stored_crc m) -> decodes ms m2 a p d t) /\
    is_valid m2 = true /\ forall s, agrees (ms_size ms d) size m2 (contents w2 s).
Proof.
  intros Hd Ht Ha Hp Hfl Hsz Htorn Her Hold Hfl0 Hinv.
  pose proof (sl_size d Hd) as Hn. pose proof sl_max as Hmx.
  destruct (update_leaves m w d a p t size old) as (st & m1 & w1 & new & Hu & Hnew & Hcr & Hst & Hl1 & Hv1 & Hdec);
    try done. { intros s. apply Hold. }
  exists st, m1, w1. rewrite Hu.
  destruct (crashed_recoverable (ms_size ms d) size old new w1) as (Hlp & Hlb & Hone & Hr & Hrn);
    [lia|rewrite Hnew, slice_len; lia|done| | |].
  { intros b [Hlb Hb]. destruct (Hold Primary) as [[Hlp Hp'] Hvp].
    rewrite (valid_prefix (contents w Primary)); [done|lia|lia|lia|congruence]. }
  { intros b [Hlb Hb]. rewrite (valid_prefix (metadata_cache m1)); [done|lia|lia|lia|congruence]. }
  destruct (recover_ok (ms_size ms d) size ltac:(lia) Htorn Her m0 (restart w1 4) d)
    as (m2 & w2 & -> & Hv2 & Hn2 & (_ & _ & Hfl2) & Hs2 & Hag); [done|done|done|done|simpl; lia|done..|].
  exists m2, w2. do 2 (split; [done|]). change (chosen _ (restart w1 4)) with (chosen (ms_size ms d) w1) in Hs2.
  split; [|split; [|done]].
  - destruct Hr as [Hr|Hr]; [left; congruence|right; apply Hdec; congruence || done].
  - intros Hst0 Hns. apply Hdec; [done..|]. rewrite Hs2. apply Hrn. by apply Hst.
Qed.

End Flash.

(** ** Examples *)

Definition example_serializer : metadata_serializer := metadata_serializer_v2 example_index example_ids.
Definition no_insn (c b : Z) : Z := 0.

Definition example_manager (cache : bytes) (valid : bool) : metadata_manager (W := storage) :=
  MetadataManager (Some (flash_volume (fill 0 256) Primary)) (Some (flash_volume (fill 0 256) Backup)) false valid
    0 0 (ms_max_size example_serializer) cache.
Definition blank_cache : bytes := fill 0 (ms_max_size example_serializer).

(** The metadata of a device that runs from bank 0, in a volume of 256 bytes. *)
Definition example_old : bytes :=
  match update_cache example_serializer Crc32Sw no_insn (example_manager blank_cache false) 0 1
          example_directory bank_tracker_init with
  | Some m => slice (metadata_cache m) 0 200
  | None => []
  end.
Definition example_storage (p : nat) : storage :=
  Storage p true (fun _ => example_old ++ fill 255 56) (fun _ => 0).

Definition example_malloc (n : Z) : option bytes := if 0 <=? n then Some (fill 0 n) else None.

Lemma example_malloc_ok n b : example_malloc n = Some b -> len b = n.
Proof. unfold example_malloc. destruct (Z.leb_spec 0 n); [|done]. intros [= <-]. by rewrite len_fill. Qed.

(** Power for the primary copy and for the erase of the backup. *)
Lemma metadata_update_crash_safe_witness :
  exists st m1 w1 m2 w2,
    metadata_manager_update (@forwarding_io storage) example_serializer Crc32Sw no_insn
      (example_manager blank_cache true) (example_storage 3) 1 0 example_directory example_tracker
      = Some (st, m1, w1) /\
    metadata_manager_check_and_repair (@forwarding_io storage) example_serializer Crc32Sw no_insn
      example_malloc (example_manager blank_cache false) (restart w1 4) example_directory
      = Some (FWU_STATUS_SUCCESS, m2, w2) /\
    (slice (metadata_cache m2) 0 (ms_size example_serializer example_directory) = example_old \/
     decodes example_serializer m2 1 0 example_directory example_tracker).
Proof.
  destruct (metadata_update_crash_safe (fill 0 256) Crc32Sw no_insn example_serializer
    (Hms := metadata_v2_laws _ _ example_index_ok example_ids_ok) example_malloc example_malloc_ok
    (example_manager blank_cache true) (example_storage 3) example_directory 1 0 example_tracker 256 example_old
    (example_manager blank_cache false))
    as (st & m1 & w1 & m2 & w2 & H1 & H2 & H3 & _).
  - exact example_directory_ok.
  - exact example_tracker_ok.
  - done.
  - done.
  - by repeat split.
  - by vm_compute.
  - by split.
  - by split.
  - intros s. split; [split|]; vm_compute; reflexivity.
  - by repeat split.
  - done.
  - exists st, m1, w1, m2, w2. exact (conj H1 (conj H2 H3)).
Defined.

(** The stored CRC is not updated when storing fails in part.  If the primary was
    stored and the backup was not, and the failure was not a loss of power, an
    update back to the metadata that was stored before is skipped and reported as
    done, while a restart finds the abandoned metadata in the primary. *)
Definition example_ready : metadata_manager (W := storage) :=
  match metadata_manager_check_and_repair (@forwarding_io storage) example_serializer Crc32Sw no_insn
          example_malloc (example_manager blank_cache false) (example_storage 4) example_directory with
  | Some (_, m, _) => m
  | None => example_manager blank_cache false
  end.

Lemma stale_stored_crc :
  match metadata_manager_update (@forwarding_io storage) example_serializer Crc32Sw no_insn
          example_ready (example_storage 2) 1 0 example_directory example_tracker with
  | Some (st1, m1, w1) =>
      st1 <> FWU_STATUS_SUCCESS /\
      match metadata_manager_update (@forwarding_io storage) example_serializer Crc32Sw no_insn
              m1 (Storage 4 false (contents w1) (position w1)) 0 1 example_directory bank_tracker_init with
      | Some (st2, m2, w2) =>
          st2 = FWU_STATUS_SUCCESS /\
          read32 (metadata_cache m2) 8 = Some 0 /\ read32 (contents w2 Primary) 8 = Some 1
      | None => False
      end
  | None => False
  end.
Proof. vm_compute. by repeat split. Qed.
