(* ===== verification/Installer.v ===== *)
(** * components/service/fwu/installer: the base installer and the index

    installer.c dispatches the operations of an update transaction to a concrete
    installer and keeps whether the installer takes part in the transaction and
    the first error it met.  installer_index.c is the table of the installers of
    the platform and of the locations they serve.

    [C] is the type of the contexts of concrete installers and [X] the storage
    they work on; the operations of an interface take and return both. *)
From S2P Require Import Prelude Status Uuid FwDirectory.

#[export] Instance install_type_eq_dec : EqDecision install_type.
Proof. solve_decision. Defined.

Section Base.
Context {C X : Type}.

Record installer_interface := InstallerInterface {
  ii_begin : C -> X -> Z -> Z -> option (Z * C * X);
  ii_finalize : C -> X -> option (Z * C * X);
  ii_abort : C -> X -> option (C * X);
  ii_open : C -> X -> image_info -> option (Z * C * X);
  ii_commit : C -> X -> option (Z * C * X);
  (** [data] has the length data_len *)
  ii_write : C -> X -> bytes -> option (Z * C * X);
  ii_enumerate : C -> X -> Z -> fw_directory -> option (Z * fw_directory * C * X)
}.

(** [next] is the address of the next active installer, 0 for NULL. *)
Record installer := Installer {
  in_install_type : install_type;
  in_location_id : Z;
  in_location_uuid : bytes;
  in_context : C;
  in_interface : installer_interface;
  install_status : Z;
  is_active : bool;
  next : Z
}.

Implicit Types i : installer.

Definition installer_is_active i : bool := is_active i.
Definition installer_status i : Z := install_status i.

Definition installer_init (t : install_type) (location_id : Z) (location_uuid : bytes) (context : C)
    (interface : installer_interface) : installer :=
  Installer t location_id location_uuid context interface FWU_STATUS_SUCCESS false 0.

Definition with_context i (c : C) : installer :=
  Installer (in_install_type i) (in_location_id i) (in_location_uuid i) c (in_interface i)
    (install_status i) (is_active i) (next i).
Definition with_active i (a : bool) : installer :=
  Installer (in_install_type i) (in_location_id i) (in_location_uuid i) (in_context i) (in_interface i)
    (install_status i) a (next i).
Definition with_install_status i (status : Z) : installer :=
  Installer (in_install_type i) (in_location_id i) (in_location_uuid i) (in_context i) (in_interface i)
    status (is_active i) (next i).
Definition with_next_installer i (p : Z) : installer :=
  Installer (in_install_type i) (in_location_id i) (in_location_uuid i) (in_context i) (in_interface i)
    (install_status i) (is_active i) p.

Definition installer_begin i (x : X) (current_volume_id update_volume_id : Z)
    : option (Z * installer * X) :=
  let i := with_active (with_install_status i FWU_STATUS_SUCCESS) true in
  '(status, c, x) ← ii_begin (in_interface i) (in_context i) x current_volume_id update_volume_id;
  Some (status, with_context i c, x).

Definition installer_finalize i (x : X) : option (Z * installer * X) :=
  let i := with_active i false in
  '(status, c, x) ← ii_finalize (in_interface i) (in_context i) x;
  Some (status, with_context i c, x).

Definition installer_abort i (x : X) : option (installer * X) :=
  let i := with_active i false in
  '(c, x) ← ii_abort (in_interface i) (in_context i) x;
  Some (with_context i c, x).

(** The first error is kept; install_status is a uint32_t. *)
Definition note_status i (status : Z) : installer :=
  if negb (status =? 0) && (install_status i =? 0) then with_install_status i (u32 status) else i.

Definition installer_open i (x : X) (image : image_info) : option (Z * installer * X) :=
  '(status, c, x) ← ii_open (in_interface i) (in_context i) x image;
  Some (status, note_status (with_context i c) status, x).

Definition installer_commit i (x : X) : option (Z * installer * X) :=
  '(status, c, x) ← ii_commit (in_interface i) (in_context i) x;
  Some (status, note_status (with_context i c) status, x).

Definition installer_write i (x : X) (data : bytes) : option (Z * installer * X) :=
  '(status, c, x) ← ii_write (in_interface i) (in_context i) x data;
  Some (status, note_status (with_context i c) status, x).

Definition installer_enumerate i (x : X) (volume_id : Z) (d : fw_directory)
    : option (Z * fw_directory * installer * X) :=
  '(status, d, c, x) ← ii_enumerate (in_interface i) (in_context i) x volume_id d;
  Some (status, d, with_context i c, x).

End Base.

Arguments installer_interface : clear implicits.
Arguments installer : clear implicits.

(** ** installer_index.c *)

Definition INSTALLER_INDEX_LIMIT : Z := 8.
Definition INSTALLER_INDEX_LOCATION_ID_LIMIT : Z := 8.

(** The singleton; installers are addresses. *)
Record installer_index := InstallerIndex {
  num_registered : Z;
  registered : list Z;
  num_location_ids : Z;
  location_ids : list Z
}.

Implicit Types ix : installer_index.

Fixpoint has_location_loop (l : list Z) (location_id : Z) (n : nat) (i : Z) : option bool :=
  match n with
  | O => Some false
  | S n =>
      y ← nthZ l i;
      if location_id =? y then Some true else has_location_loop l location_id n (i + 1)
  end.

Definition add_location_id ix (location_id : Z) : option installer_index :=
  found ← has_location_loop (location_ids ix) location_id (Z.to_nat (num_location_ids ix)) 0;
  if found : bool then Some ix
  else if num_location_ids ix <? INSTALLER_INDEX_LOCATION_ID_LIMIT then
    l ← setZ (location_ids ix) (num_location_ids ix) location_id;
    Some (InstallerIndex (num_registered ix) (registered ix) (u64 (num_location_ids ix + 1)) l)
  else Some ix.

Definition installer_index_clear : installer_index :=
  InstallerIndex 0 (replicate (Z.to_nat INSTALLER_INDEX_LIMIT) 0) 0
    (replicate (Z.to_nat INSTALLER_INDEX_LOCATION_ID_LIMIT) 0).

Definition installer_index_init : installer_index := installer_index_clear.

Section Index.
Context {C X : Type}.
(** The installers in memory. *)
Implicit Types h : gmap Z (installer C X).

Definition installer_index_register h ix (p : Z) : option installer_index :=
  assert! negb (p =? 0);;
  if num_registered ix <? INSTALLER_INDEX_LIMIT then
    l ← setZ (registered ix) (num_registered ix) p;
    let ix := InstallerIndex (u64 (num_registered ix + 1)) l (num_location_ids ix) (location_ids ix) in
    i ← h !! p;
    add_location_id ix (in_location_id i)
  else Some ix.

(** The first of the [n] installers from index [k] on that satisfies [f], or NULL. *)
Fixpoint find_installer_loop h (f : installer C X -> option bool) (l : list Z) (n : nat) (k : Z) : option Z :=
  match n with
  | O => Some 0
  | S n =>
      p ← nthZ l k;
      i ← h !! p;
      found ← f i;
      if found : bool then Some p else find_installer_loop h f l n (k + 1)
  end.

Definition installer_index_find h ix (t : install_type) (location_id : Z) : option Z :=
  find_installer_loop h
    (fun i => Some (bool_decide (in_install_type i = t) && (in_location_id i =? location_id)))
    (registered ix) (Z.to_nat (num_registered ix)) 0.

Definition installer_index_find_by_location_uuid h ix (location_uuid : bytes) : option Z :=
  find_installer_loop h (fun i => uuid_is_equal location_uuid (in_location_uuid i))
    (registered ix) (Z.to_nat (num_registered ix)) 0.

End Index.

Definition installer_index_get ix (index : Z) : option Z :=
  if index <? num_registered ix then nthZ (registered ix) index else Some 0.

(** *num_ids and the array. *)
Definition installer_index_get_location_ids ix : Z * list Z := (num_location_ids ix, location_ids ix).

(** ** What the index holds *)

(** The registrations of [l], oldest first. *)
Fixpoint installer_index_registers {C X} (h : gmap Z (installer C X)) ix (l : list Z) : option installer_index :=
  match l with
  | [] => Some ix
  | p :: l => ix ← installer_index_register h ix p; installer_index_registers h ix l
  end.

(** An array of [limit] elements of which the first ones are [l]. *)
Definition array_holds {A} (a : list A) (n limit : Z) (l : list A) : Prop :=
  n = len l /\ len a = limit /\ take (length l) a = l.

Lemma array_holds_push {A} (a : list A) n limit l x :
  array_holds a n limit l -> n < limit ->
  exists a', setZ a n x = Some a' /\ array_holds a' (n + 1) limit (l ++ [x]).
Proof.
  intros (-> & Hl & Ht) Hlt. pose proof (len_nonneg l). rewrite setZ_is_Some by lia.
  eexists. split; [done|]. unfold array_holds, len in *. rewrite length_app, length_insert. simpl.
  split; [lia|]. split; [done|]. rewrite Nat2Z.id, Nat.add_1_r.
  rewrite (take_S_r _ _ x); [|apply list_lookup_insert_eq; lia]. by rewrite take_insert_ge, Ht by lia.
Qed.

Lemma array_holds_nth {A} (a : list A) n limit l k :
  array_holds a n limit l -> 0 <= k < n -> nthZ a k = nthZ l k.
Proof.
  intros (-> & Hl & Ht) Hk. rewrite <- Ht. rewrite <- (Nat2Z.id (length l)), nthZ_take.
  case_match; [done|]. unfold len in *. lia.
Qed.

Section Lookup.
Context {C X : Type} (h : gmap Z (installer C X)).

Definition serves (l : list Z) (y : Z) : Prop := exists p i, p ∈ l /\ h !! p = Some i /\ in_location_id i = y.

(** The installers registered are [l]; their locations are listed once each. *)
Definition index_lists ix (l : list Z) : Prop :=
  array_holds (registered ix) (num_registered ix) INSTALLER_INDEX_LIMIT l /\
  Forall (fun p => p <> 0 /\ is_Some (h !! p)) l /\
  exists ys, array_holds (location_ids ix) (num_location_ids ix) INSTALLER_INDEX_LOCATION_ID_LIMIT ys /\
    NoDup ys /\ len ys <= len l /\ forall y, y ∈ ys <-> serves l y.

Lemma has_location_loop_ok a n limit ys y m k :
  array_holds a n limit ys -> 0 <= k -> k + Z.of_nat m = n ->
  has_location_loop a y m k = Some (bool_decide (y ∈ drop (Z.to_nat k) ys)).
Proof.
  intros Ha. revert k. induction m as [|m IH]; intros k Hk Hn; simpl.
  - rewrite drop_ge by (destruct Ha as [Ha _]; unfold len in Ha; lia). rewrite bool_decide_false; [done|].
    apply not_elem_of_nil.
  - rewrite (array_holds_nth _ _ _ _ _ Ha) by lia.
    destruct (nthZ_is_Some ys k) as [z Hz]; [destruct Ha as [Ha _]; lia|]. rewrite Hz.
    cbn [mbind option_bind]. unfold nthZ in Hz. destruct (Z.leb_spec 0 k); [|lia].
    rewrite (drop_S _ z _ Hz), IH by lia. replace (Z.to_nat (k + 1)) with (S (Z.to_nat k)) by lia.
    destruct (Z.eqb_spec y z) as [->|Hne].
    + by rewrite bool_decide_true by left.
    + apply (f_equal Some). apply bool_decide_ext. rewrite elem_of_cons. tauto.
Qed.

Lemma register_ok ix l p :
  index_lists ix l -> p <> 0 -> is_Some (h !! p) ->
  exists ix', installer_index_register h ix p = Some ix' /\
    index_lists ix' (if len l <? INSTALLER_INDEX_LIMIT then l ++ [p] else l).
Proof.
  intros Hix Hp [i Hi]. pose proof Hix as (Hr & Hall & ys & Hy & Hnd & Hle & Hs).
  unfold installer_index_register.
  destruct (Z.eqb_spec p 0); [done|]. simpl. pose proof (len_nonneg l).
  pose proof Hr as (Hn & _). rewrite Hn. destruct (Z.ltb_spec (len l) INSTALLER_INDEX_LIMIT); [|by exists ix].
  rewrite <- Hn. destruct (array_holds_push _ _ _ _ p Hr) as (a & -> & Ha); [lia|].
  cbn [mbind option_bind]. rewrite Hi. cbn [mbind option_bind]. unfold add_location_id. simpl.
  unfold INSTALLER_INDEX_LIMIT in *. rewrite wrap_small by lia. pose proof Hy as (Hny & _). pose proof (len_nonneg ys).
  rewrite (has_location_loop_ok _ _ _ ys _ _ _ Hy) by lia. cbn [mbind option_bind]. rewrite drop_0.
  assert (Forall (fun p => p <> 0 /\ is_Some (h !! p)) (l ++ [p])) as Hall'
    by (rewrite Forall_app, Forall_singleton; eauto).
  assert (forall y, serves (l ++ [p]) y <-> serves l y \/ in_location_id i = y) as Hserves.
  { intros y. unfold serves. split.
    - intros (q & j & [Hq| ->%list_elem_of_singleton]%elem_of_app & Hj & <-); [by left; eauto|]. right. congruence.
    - intros [(q & j & Hq & Hj & <-)|<-]; [exists q, j|exists p, i]; (split; [apply elem_of_app|done]).
      + by left.
      + right. by apply list_elem_of_singleton. }
  assert (len (l ++ [p]) = len l + 1) as Hlp by (unfold len; rewrite length_app; simpl; lia).
  case_bool_decide as Hin.
  - eexists. split; [done|]. split; [done|]. split; [done|]. exists ys. split; [done|]. split; [done|].
    split; [lia|]. intros y. rewrite Hserves, <- Hs. split; [tauto|]. intros [?|<-]; done.
  - destruct (Z.ltb_spec (num_location_ids ix) INSTALLER_INDEX_LOCATION_ID_LIMIT);
      [|unfold INSTALLER_INDEX_LOCATION_ID_LIMIT in *; lia].
    destruct (array_holds_push _ _ _ _ (in_location_id i) Hy) as (b & -> & Hb); [lia|]. simpl.
    eexists. split; [done|]. split; [done|]. split; [done|]. simpl. exists (ys ++ [in_location_id i]).
    unfold INSTALLER_INDEX_LOCATION_ID_LIMIT in *. rewrite wrap_small by lia. split; [done|].
    split; [apply NoDup_app; split; [done|]; split; [by intros z Hz ->%list_elem_of_singleton|apply NoDup_singleton]|].
    split; [unfold len in *; rewrite !length_app; simpl; lia|].
    intros y. rewrite elem_of_app, list_elem_of_singleton, Hserves, Hs. split; (intros [?|?]; [by left|by right]).
Qed.

Lemma registers_ok ix l0 l :
  index_lists ix l0 -> Forall (fun p => p <> 0 /\ is_Some (h !! p)) l ->
  exists ix', installer_index_registers h ix l = Some ix' /\
    index_lists ix' (l0 ++ take (Z.to_nat (INSTALLER_INDEX_LIMIT - len l0)) l).
Proof.
  intros H0 Hl. revert ix l0 H0. induction Hl as [|p l [Hp Hh] _ IH]; intros ix l0 H0.
  - exists ix. rewrite take_nil, app_nil_r. done.
  - simpl. destruct (register_ok ix l0 p H0 Hp Hh) as (ix1 & -> & H1). cbn [mbind option_bind].
    destruct (IH ix1 _ H1) as (ix2 & -> & H2). exists ix2. split; [done|].
    destruct (Z.ltb_spec (len l0) INSTALLER_INDEX_LIMIT).
    + rewrite <- app_assoc in H2. simpl in H2.
      replace (Z.to_nat (INSTALLER_INDEX_LIMIT - len l0)) with
        (S (Z.to_nat (INSTALLER_INDEX_LIMIT - len (l0 ++ [p]))))
        by (unfold len in *; rewrite length_app; simpl; lia). done.
    + replace (Z.to_nat (INSTALLER_INDEX_LIMIT - len l0)) with 0%nat in * by lia. done.
Qed.

Definition selects (t : install_type) (y p : Z) : bool :=
  match h !! p with
  | Some i => bool_decide (in_install_type i = t) && (in_location_id i =? y)
  | None => false
  end.

Lemma find_installer_loop_ok a n limit l t y m k :
  array_holds a n limit l -> Forall (fun p => p <> 0 /\ is_Some (h !! p)) l -> 0 <= k -> k + Z.of_nat m = n ->
  find_installer_loop h (fun i => Some (bool_decide (in_install_type i = t) && (in_location_id i =? y))) a m k
  = Some (default 0 (find (selects t y) (drop (Z.to_nat k) l))).
Proof.
  intros Ha Hall. revert k. induction m as [|m IH]; intros k Hk Hn; cbn [find_installer_loop].
  - rewrite drop_ge by (destruct Ha as [Ha _]; unfold len in Ha; lia). done.
  - rewrite (array_holds_nth _ _ _ _ _ Ha) by lia.
    destruct (nthZ_is_Some l k) as [p Hz]; [destruct Ha as [Ha _]; lia|]. rewrite Hz.
    cbn [mbind option_bind]. unfold nthZ in Hz. destruct (Z.leb_spec 0 k); [|lia].
    destruct (Forall_lookup_1 _ _ _ _ Hall Hz) as [_ [i Hi]]. rewrite Hi. cbn [mbind option_bind].
    rewrite (drop_S _ p _ Hz). cbn [find]. unfold selects at 1. rewrite Hi.
    destruct (_ && _); [done|]. rewrite IH by lia. by replace (Z.to_nat (k + 1)) with (S (Z.to_nat k)) by lia.
Qed.

Lemma installer_find_ok ix l t y :
  index_lists ix l -> installer_index_find h ix t y = Some (default 0 (find (selects t y) l)).
Proof.
  intros (Hr & Hall & _). unfold installer_index_find. pose proof (len_nonneg l). pose proof (proj1 Hr).
  by rewrite (find_installer_loop_ok _ _ _ l _ _ _ _ Hr Hall) by lia.
Qed.

End Lookup.

(** The installer index.  After any sequence of registrations the first eight
    installers are registered in order; a search for a type and a location finds the
    first of them that serves it, and NULL if there is none; the list of locations
    has each location of a registered installer exactly once. *)
Theorem installer_index_complete {C X} (h : gmap Z (installer C X)) l t y :
  Forall (fun p => p <> 0 /\ is_Some (h !! p)) l ->
  exists ix ys, installer_index_registers h installer_index_init l = Some ix /\
    installer_index_find h ix t y = Some (default 0 (find (selects h t y) (take 8 l))) /\
    (forall k, 0 <= k -> installer_index_get ix k = Some (default 0 (nthZ (take 8 l) k))) /\
    fst (installer_index_get_location_ids ix) = len ys /\
    take (length ys) (snd (installer_index_get_location_ids ix)) = ys /\
    NoDup ys /\ forall z, z ∈ ys <-> serves h (take 8 l) z.
Proof.
  intros Hl. assert (index_lists h installer_index_init []) as H0.
  { split; [done|]. split; [done|]. exists []. split; [done|]. split; [constructor|]. split; [done|].
    intros z. split; [intros Hz|intros (p & i & Hz & _)]; by apply not_elem_of_nil in Hz. }
  destruct (registers_ok h _ _ _ H0 Hl) as (ix & Hix & Hl8). rewrite app_nil_l in Hl8.
  change (Z.to_nat (INSTALLER_INDEX_LIMIT - len [])) with 8%nat in Hl8.
  rewrite <- (installer_find_ok _ _ _ t y Hl8). destruct Hl8 as (Hr & _ & ys & Hy & Hnd & _ & Hs).
  exists ix, ys. split; [done|]. split; [done|]. split; [|destruct Hy as (? & _ & ?); by split].
  intros k Hk. unfold installer_index_get. pose proof Hr as (Hn & _).
  destruct (Z.ltb_spec k (num_registered ix)).
  - rewrite (array_holds_nth _ _ _ _ _ Hr) by lia. destruct (nthZ_is_Some (take 8 l) k) as [p ->]; [lia|]. done.
  - by rewrite nthZ_None by lia.
Qed.

Definition example_installer (t : install_type) (y : Z) : installer unit unit :=
  installer_init t y (fill y 16) tt
    (InstallerInterface (fun c x _ _ => Some (0, c, x)) (fun c x => Some (0, c, x)) (fun c x => Some (c, x))
       (fun c x _ => Some (0, c, x)) (fun c x => Some (0, c, x)) (fun c x _ => Some (0, c, x))
       (fun c x _ d => Some (0, d, c, x))).

Definition example_heap : gmap Z (installer unit unit) :=
  <[16 := example_installer INSTALL_TYPE_WHOLE_VOLUME 1]>
  (<[32 := example_installer INSTALL_TYPE_WHOLE_VOLUME_COPY 1]> ∅).

Lemma installer_index_complete_witness :
  exists ix ys, installer_index_registers example_heap installer_index_init [16; 32] = Some ix /\
    installer_index_find example_heap ix INSTALL_TYPE_WHOLE_VOLUME_COPY 1 = Some 32 /\
    (forall k, 0 <= k -> installer_index_get ix k = Some (default 0 (nthZ [16; 32] k))) /\
    fst (installer_index_get_location_ids ix) = len ys /\
    take (length ys) (snd (installer_index_get_location_ids ix)) = ys /\
    NoDup ys /\ forall z, z ∈ ys <-> serves example_heap [16; 32] z.
Proof.
  apply (installer_index_complete example_heap [16; 32] INSTALL_TYPE_WHOLE_VOLUME_COPY 1).
  repeat constructor; try done; by eexists.
Defined.
