(* ===== verification/VolumeInstallers.v ===== *)
(** * components/service/fwu/installer: the raw and the copy installer

    Both install whole volumes: raw_installer.c writes one image as it is,
    copy_installer.c copies the volume the system runs from.  [X] is the storage
    with all its volumes, [ix] the volume index and [deref] the volumes at the
    addresses the index holds; a failing assert() is [None].

    [raw_installer] repeats the members of its base installer that enumerate
    reads. *)
From S2P Require Import Prelude Status FwDirectory Installer Volume.

Section Installers.
Context {X : Type} (io : io_storage X) (ix : volume_index) (deref : Z -> option (volume X)).

(** assert(p), then the volume *p. *)
Definition volume_at (p : Z) : option (volume X) := assert! negb (p =? 0);; deref p.

(** ** raw_installer.c *)

Record raw_installer := RawInstaller {
  raw_type_uuid : bytes;
  raw_location_id : Z;
  raw_install_type : install_type;
  target_volume : Z;
  commit_count : Z;
  bytes_written : Z;
  is_open : bool
}.

Implicit Types s : raw_installer.

Definition raw_with s (target count written : Z) (opened : bool) : raw_installer :=
  RawInstaller (raw_type_uuid s) (raw_location_id s) (raw_install_type s) target count written opened.

Definition raw_installer_begin s (x : X) (current_volume_id update_volume_id : Z)
    : option (Z * raw_installer * X) :=
  '(status, target) ← volume_index_find ix update_volume_id (target_volume s);
  if status =? 0 then
    assert! negb (target =? 0);;
    Some (status, raw_with s target 0 (bytes_written s) false, x)
  else Some (status, raw_with s target (commit_count s) (bytes_written s) (is_open s), x).

Definition raw_installer_finalize s (x : X) : option (Z * raw_installer * X) :=
  if is_open s then
    v ← volume_at (target_volume s);
    '(_, x) ← volume_close io v x;
    Some (FWU_STATUS_SUCCESS, raw_with s (target_volume s) (commit_count s) (bytes_written s) false, x)
  else Some (FWU_STATUS_SUCCESS, s, x).

Definition raw_installer_abort s (x : X) : option (raw_installer * X) :=
  '(_, s, x) ← raw_installer_finalize s x; Some (s, x).

Definition raw_installer_open s (x : X) (image : image_info) : option (Z * raw_installer * X) :=
  if negb (is_open s) && (commit_count s <? 1) then
    v ← volume_at (target_volume s);
    '(status, x) ← volume_open io v x;
    if status =? 0 then
      '(status, x) ← volume_erase v x;
      if status =? 0 then Some (status, raw_with s (target_volume s) (commit_count s) 0 true, x)
      else '(_, x) ← volume_close io v x; Some (status, s, x)
    else Some (status, s, x)
  else Some (FWU_STATUS_DENIED, s, x).

Definition raw_installer_commit s (x : X) : option (Z * raw_installer * X) :=
  if is_open s then
    v ← volume_at (target_volume s);
    '(status, x) ← volume_close io v x;
    let s := raw_with s (target_volume s) (u32 (commit_count s + 1)) (bytes_written s) false in
    Some (if (status =? 0) && (bytes_written s =? 0) then FWU_STATUS_NOT_AVAILABLE else status, s, x)
  else Some (FWU_STATUS_DENIED, s, x).

Definition raw_installer_write s (x : X) (data : bytes) : option (Z * raw_installer * X) :=
  if is_open s then
    v ← volume_at (target_volume s);
    '(status, len_written, x) ← volume_write io v x data (len data) 0;
    let s := raw_with s (target_volume s) (commit_count s) (u64 (bytes_written s + len_written)) true in
    Some (if (status =? 0) && negb (len_written =? len data) then FWU_STATUS_OUT_OF_BOUNDS else status, s, x)
  else Some (FWU_STATUS_DENIED, s, x).

Definition raw_installer_enumerate s (x : X) (volume_id : Z) (d : fw_directory)
    : option (Z * fw_directory * raw_installer * X) :=
  '(status, p) ← volume_index_find ix volume_id 0;
  if negb (status =? 0) then Some (status, d, s, x)
  else
    v ← volume_at p;
    '(status, x) ← (if negb (is_open s) then volume_open io v x else Some (status, x));
    if negb (status =? 0) then Some (status, d, s, x)
    else
      '(status, size, x) ← volume_size io v x 0;
      if negb (status =? 0) then Some (status, d, s, x)
      else
        '(status, x) ← (if negb (is_open s) then volume_close io v x else Some (status, x));
        if negb (status =? 0) then Some (status, d, s, x)
        else
          let image := ImageInfo (raw_type_uuid s) size 0 0 0 0 (raw_location_id s) (raw_install_type s) in
          '(status, d) ← fw_directory_add_image_info d image;
          Some (status, d, s, x).

Definition raw_interface : installer_interface raw_installer X :=
  InstallerInterface raw_installer_begin raw_installer_finalize raw_installer_abort raw_installer_open
    raw_installer_commit raw_installer_write raw_installer_enumerate.

Definition raw_installer_init (location_uuid : bytes) (location_id : Z) : installer raw_installer X :=
  installer_init INSTALL_TYPE_WHOLE_VOLUME location_id location_uuid
    (RawInstaller location_uuid location_id INSTALL_TYPE_WHOLE_VOLUME 0 0 0 false) raw_interface.

Definition raw_installer_deinit s : raw_installer := s.

(** ** copy_installer.c *)

Definition COPY_CHUNK_SIZE : Z := 4096.

Record copy_installer := CopyInstaller { destination_volume : Z; source_volume : Z }.

Implicit Types c : copy_installer.

Definition close_volumes_on_error (src dst : volume X) (x : X) : option (Z * X) :=
  '(_, x) ← volume_close io src x;
  '(_, x) ← volume_close io dst x;
  Some (FWU_STATUS_UNKNOWN, x).

(** The loop from [copy_len] on.  Every turn that does not end it copies at least
    one byte or, if the source reads no byte, repeats itself. *)
Fixpoint copy_loop (src dst : volume X) (x : X) (copy_buf : bytes) (target_copy_len : Z) (fuel : nat)
    (copy_len : Z) : option (Z * X) :=
  if copy_len <? target_copy_len then
    match fuel with
    | O => None
    | S fuel =>
        let remaining_len := target_copy_len - copy_len in
        let requested_read_len := if remaining_len <? COPY_CHUNK_SIZE then remaining_len else COPY_CHUNK_SIZE in
        '(status, copy_buf, actual_read_len, x) ← volume_read io src x copy_buf requested_read_len 0;
        if negb (status =? 0) then Some (status, x)
        else
          '(status, actual_write_len, x) ← volume_write io dst x copy_buf actual_read_len 0;
          if negb (status =? 0) then Some (status, x)
          else if negb (actual_read_len =? actual_write_len) then Some (FWU_STATUS_UNKNOWN, x)
          else copy_loop src dst x copy_buf target_copy_len fuel (u64 (copy_len + actual_read_len))
    end
  else Some (FWU_STATUS_SUCCESS, x).

(** [copy_buf]: the block malloc returns, or None. *)
Definition copy_volume_contents (copy_buf : option bytes) (src dst : volume X) (x : X) (target_copy_len : Z)
    : option (Z * X) :=
  match copy_buf with
  | None => Some (FWU_STATUS_UNKNOWN, x)
  | Some b => copy_loop src dst x b target_copy_len (Z.to_nat target_copy_len) 0
  end.

Definition copy_installer_begin c (x : X) (current_volume_id update_volume_id : Z)
    : option (Z * copy_installer * X) :=
  '(status, dst) ← volume_index_find ix update_volume_id (destination_volume c);
  '(status, src) ← (if status =? 0 then volume_index_find ix current_volume_id (source_volume c)
                    else Some (status, source_volume c));
  Some (status, if negb (status =? 0) then CopyInstaller 0 0 else CopyInstaller dst src, x).

Definition copy_installer_finalize (copy_buf : option bytes) c (x : X) : option (Z * copy_installer * X) :=
  src ← volume_at (source_volume c);
  dst ← volume_at (destination_volume c);
  '(source_status, x) ← volume_open io src x;
  if negb (source_status =? 0) then Some (source_status, c, x)
  else
    '(destination_status, x) ← volume_open io dst x;
    if negb (destination_status =? 0) then
      '(_, x) ← volume_close io src x; Some (destination_status, c, x)
    else
      '(destination_status, x) ← volume_erase dst x;
      if negb (destination_status =? 0) then
        '(st, x) ← close_volumes_on_error src dst x; Some (st, c, x)
      else
        '(source_status, source_size, x) ← volume_size io src x 0;
        if negb (source_status =? 0) then
          '(st, x) ← close_volumes_on_error src dst x; Some (st, c, x)
        else
          '(destination_status, destination_size, x) ← volume_size io src x 0;
          if negb (destination_status =? 0) then
            '(st, x) ← close_volumes_on_error src dst x; Some (st, c, x)
          else
            '(copy_status, x) ← copy_volume_contents copy_buf src dst x (Z.min source_size destination_size);
            '(source_status, x) ← volume_close io src x;
            '(destination_status, x) ← volume_close io dst x;
            Some (if negb (copy_status =? 0) then copy_status
                  else if negb (destination_status =? 0) then destination_status
                  else if negb (source_status =? 0) then source_status
                  else FWU_STATUS_SUCCESS, c, x).

Definition copy_installer_abort c (x : X) : option (copy_installer * X) := Some (CopyInstaller 0 0, x).

Definition copy_installer_open c (x : X) (image : image_info) : option (Z * copy_installer * X) :=
  Some (FWU_STATUS_DENIED, c, x).

Definition copy_installer_commit c (x : X) : option (Z * copy_installer * X) := Some (FWU_STATUS_DENIED, c, x).

Definition copy_installer_write c (x : X) (data : bytes) : option (Z * copy_installer * X) :=
  Some (FWU_STATUS_DENIED, c, x).

Definition copy_installer_enumerate c (x : X) (volume_id : Z) (d : fw_directory)
    : option (Z * fw_directory * copy_installer * X) := Some (FWU_STATUS_SUCCESS, d, c, x).

Definition copy_interface (copy_buf : option bytes) : installer_interface copy_installer X :=
  InstallerInterface copy_installer_begin (copy_installer_finalize copy_buf) copy_installer_abort
    copy_installer_open copy_installer_commit copy_installer_write copy_installer_enumerate.

Definition copy_installer_init (copy_buf : option bytes) (location_uuid : bytes) (location_id : Z)
    : installer copy_installer X :=
  installer_init INSTALL_TYPE_WHOLE_VOLUME_COPY location_id location_uuid (CopyInstaller 0 0)
    (copy_interface copy_buf).

Definition copy_installer_deinit c : copy_installer := c.

End Installers.

(** ** Volumes that work *)

(** A volume between sessions: when it is closed and what it holds then. *)
Record volume_session (X : Type) := VolumeSession {
  vs_view : volume_view X;
  vs_closed : X -> Prop;
  vs_contents : X -> bytes
}.
Arguments VolumeSession {X}.
Arguments vs_view {X}.
Arguments vs_closed {X}.
Arguments vs_contents {X}.

(** A volume that can be opened, erased and closed without errors; erasing sets
    some value and keeps the size. *)
Class WorkingVolume {X} (io : io_storage X) (v : volume X) (S : volume_session X) : Prop := {
  wv_laws :: VolumeLaws io v (vs_view S);
  wv_open x : vs_closed S x ->
    exists x', volume_open io v x = Some (0, x') /\ vv_ready (vs_view S) x' /\
      vv_data (vs_view S) x' = vs_contents S x /\ vv_pos (vs_view S) x' = 0;
  wv_erase x : vv_ready (vs_view S) x ->
    exists x', volume_erase v x = Some (0, x') /\ vv_ready (vs_view S) x' /\
      len (vv_data (vs_view S) x') = len (vv_data (vs_view S) x) /\ vv_pos (vs_view S) x' = vv_pos (vs_view S) x;
  wv_close x : vv_ready (vs_view S) x ->
    exists x', volume_close io v x = Some (0, x') /\ vs_closed S x' /\
      vs_contents S x' = vv_data (vs_view S) x
}.

Section Raw.
Context {X : Type} (io : io_storage X) (ix : volume_index) (deref : Z -> option (volume X)).

(** One image through the base installer: the status of every call. *)
Fixpoint write_chunks {C} (i : installer C X) (x : X) (chunks : list bytes)
    : option (list Z * installer C X * X) :=
  match chunks with
  | [] => Some ([], i, x)
  | c :: chunks =>
      '(st, i, x) ← installer_write i x c;
      '(sts, i, x) ← write_chunks i x chunks;
      Some (st :: sts, i, x)
  end.

Definition install_image {C} (i : installer C X) (x : X) (current_volume_id update_volume_id : Z)
    (image : image_info) (chunks : list bytes) : option (list Z * installer C X * X) :=
  '(s1, i, x) ← installer_begin i x current_volume_id update_volume_id;
  '(s2, i, x) ← installer_open i x image;
  '(sts, i, x) ← write_chunks i x chunks;
  '(s3, i, x) ← installer_commit i x;
  '(s4, i, x) ← installer_finalize i x;
  Some ([s1; s2] ++ sts ++ [s3; s4], i, x).

(** What the writes answer for a volume of [size] bytes of which [n] are used. *)
Fixpoint chunk_statuses (size n : Z) (chunks : list bytes) : list Z :=
  match chunks with
  | [] => []
  | c :: chunks =>
      (if n + len c <=? size then FWU_STATUS_SUCCESS else FWU_STATUS_OUT_OF_BOUNDS)
      :: chunk_statuses size (Z.min size (n + len c)) chunks
  end.

Context (v : volume X) (S : volume_session X) `{!WorkingVolume io v S}.
Context (target : Z) (target_ok : target <> 0) (target_volume_ok : deref target = Some v).

Abbreviation W := (vs_view S).

Lemma volume_at_target : volume_at deref target = Some v.
Proof. unfold volume_at. by destruct (Z.eqb_spec target 0). Qed.

(** An open raw installer that has written [w] over the erased contents [e]. *)
Definition writing (e w : bytes) (i : installer raw_installer X) (x : X) : Prop :=
  in_interface i = raw_interface io ix deref /\ is_active i = true /\
  is_open (in_context i) = true /\ target_volume (in_context i) = target /\
  commit_count (in_context i) = 0 /\ bytes_written (in_context i) = len w /\
  vv_ready W x /\ vv_pos W x = len w /\ store e 0 w = Some (vv_data W x).

Lemma note_status_fields {C} (i : installer C X) st :
  in_interface (note_status i st) = in_interface i /\ is_active (note_status i st) = is_active i /\
  in_context (note_status i st) = in_context i.
Proof. clear. unfold note_status. by destruct (_ && _). Qed.

Lemma take_app_min (p c : bytes) (size : Z) :
  0 <= size ->
  take (Z.to_nat size) (p ++ c)
  = take (Z.to_nat size) p ++
    take (Z.to_nat (Z.min (len c) (size - len (take (Z.to_nat size) p)))) c.
Proof.
  clear. intros Hs. rewrite take_app. f_equal. unfold len. rewrite length_take.
  destruct (Z.le_gt_cases (Z.of_nat (length p)) size).
  - destruct (Z.le_gt_cases (Z.of_nat (length c)) (size - Z.of_nat (length p))).
    + rewrite !take_ge by lia. done.
    + f_equal. lia.
  - replace (Z.to_nat size - length p)%nat with 0%nat by lia. rewrite take_0. symmetry.
    replace (Z.to_nat _) with 0%nat by lia. apply take_0.
Qed.

Lemma writing_step e p c i x :
  len c < 2 ^ 64 -> writing e (take (length e) p) i x ->
  exists i' x', installer_write i x c
      = Some (if len (take (length e) p) + len c <=? len e then FWU_STATUS_SUCCESS else FWU_STATUS_OUT_OF_BOUNDS,
              i', x') /\ writing e (take (length e) (p ++ c)) i' x'.
Proof.
  intros Hc (Hif & Hact & Hop & Htg & Hcc & Hbw & Hrd & Hpos & Hst). set (w := take (length e) p) in *.
  unfold installer_write. rewrite Hif. simpl. unfold raw_installer_write. rewrite Hop, Htg, volume_at_target.
  cbn [mbind option_bind]. pose proof (store_len _ _ _ _ Hst) as Hlen. pose proof (len_nonneg c).
  destruct (vlaw_pos x Hrd) as [Hp1 Hp2]. rewrite Hpos in Hp1.
  destruct (vlaw_write x c (len c) 0 Hrd) as (x' & -> & Hrd' & Hpos' & Hst'); [lia|done|].
  cbn [mbind option_bind]. rewrite Hlen, Hpos in *.
  assert (take (length e) (p ++ c) = w ++ take (Z.to_nat (Z.min (len c) (len e - len w))) c) as Hw.
  { pose proof (take_app_min p c (len e) (len_nonneg e)) as Ht. unfold len in Ht at 1 2. rewrite Nat2Z.id in Ht.
    rewrite Ht. unfold w, len. by rewrite Nat2Z.id. }
  pose proof (store_app e 0 w (take (Z.to_nat (Z.min (len c) (len e - len w))) c)) as Happ.
  rewrite Hst in Happ. cbn [mbind option_bind] in Happ. rewrite Z.add_0_l, Hst', <- Hw in Happ.
  assert (len (take (length e) (p ++ c)) = len w + Z.min (len c) (len e - len w)) as Hlw.
  { rewrite Hw. unfold len in *. rewrite length_app, length_take. lia. }
  eexists _, _. split.
  - apply (f_equal Some). f_equal. f_equal.
    destruct (Z.eqb_spec (Z.min (len c) (len e - len w)) (len c)), (Z.leb_spec (len w + len c) (len e));
      simpl; done || lia.
  - edestruct (@note_status_fields raw_installer) as (H1 & H2 & H3). unfold writing. rewrite H1, H2, H3. simpl.
    rewrite Hbw, wrap_small by lia. rewrite Hlw. auto 10.
Qed.

Lemma write_chunks_ok e p chunks i x :
  Forall (fun c => len c < 2 ^ 64) chunks -> writing e (take (length e) p) i x ->
  exists i' x', write_chunks i x chunks
      = Some (chunk_statuses (len e) (len (take (length e) p)) chunks, i', x') /\
    writing e (take (length e) (p ++ concat chunks)) i' x'.
Proof.
  intros Hc. revert p i x. induction Hc as [|c chunks Hc _ IH]; intros p i x Hw.
  - exists i, x. rewrite app_nil_r. done.
  - destruct (writing_step e p c i x Hc Hw) as (i1 & x1 & Hwr & Hw1).
    cbn [write_chunks]. rewrite Hwr. cbn [mbind option_bind].
    destruct (IH (p ++ c) i1 x1 Hw1) as (i2 & x2 & -> & Hw2). cbn [mbind option_bind].
    exists i2, x2. split; [|simpl; by rewrite app_assoc]. cbn [chunk_statuses].
    assert (len (take (length e) (p ++ c)) = Z.min (len e) (len (take (length e) p) + len c)) as ->; [|done].
    unfold len. rewrite !length_take, length_app. lia.
Qed.

Lemma raw_begin_ok i x cur upd :
  in_interface i = raw_interface io ix deref ->
  (forall p, volume_index_find ix upd p = Some (0, target)) ->
  exists i', installer_begin i x cur upd = Some (FWU_STATUS_SUCCESS, i', x) /\
    in_interface i' = raw_interface io ix deref /\ is_active i' = true /\
    is_open (in_context i') = false /\ target_volume (in_context i') = target /\
    commit_count (in_context i') = 0.
Proof.
  intros Hif Hfind. unfold installer_begin. simpl. rewrite Hif. simpl. unfold raw_installer_begin.
  rewrite Hfind. simpl. destruct (Z.eqb_spec target 0); [done|]. simpl. by eexists.
Qed.

Lemma raw_open_ok i x image :
  in_interface i = raw_interface io ix deref -> is_active i = true -> is_open (in_context i) = false ->
  target_volume (in_context i) = target -> commit_count (in_context i) = 0 -> vs_closed S x ->
  exists e i' x', installer_open i x image = Some (FWU_STATUS_SUCCESS, i', x') /\
    writing e [] i' x' /\ len e = len (vs_contents S x).
Proof.
  intros Hif Hact Hop Htg Hcc Hcl. unfold installer_open. rewrite Hif. simpl. unfold raw_installer_open.
  rewrite Hop, Hcc, Htg, volume_at_target. simpl.
  destruct (wv_open x Hcl) as (x1 & -> & Hr1 & Hd1 & Hp1). simpl.
  destruct (wv_erase x1 Hr1) as (x2 & -> & Hr2 & Hl2 & Hp2). simpl.
  exists (vv_data W x2). eexists _, x2. split; [done|]. split; [|congruence].
  pose proof (len_nonneg (vv_data W x2)). unfold writing. simpl.
  do 7 (split; [done|]). split; [by rewrite Hp2, Hp1|]. rewrite store_nil by lia. done.
Qed.

Lemma raw_commit_ok e w i x :
  writing e w i x ->
  exists i' x', installer_commit i x
      = Some (if len w =? 0 then FWU_STATUS_NOT_AVAILABLE else FWU_STATUS_SUCCESS, i', x') /\
    in_interface i' = raw_interface io ix deref /\ is_open (in_context i') = false /\
    commit_count (in_context i') = 1 /\ vs_closed S x' /\ store e 0 w = Some (vs_contents S x').
Proof.
  intros (Hif & Hact & Hop & Htg & Hcc & Hbw & Hrd & Hpos & Hst). unfold installer_commit. rewrite Hif. simpl.
  unfold raw_installer_commit. rewrite Hop, Htg, volume_at_target. simpl.
  destruct (wv_close x Hrd) as (x' & -> & Hcl & Hd). simpl. rewrite Hbw.
  destruct (len w =? 0); (eexists _, x'; split; [done|]);
    edestruct (@note_status_fields raw_installer) as (-> & _ & ->); simpl; by rewrite Hcc, Hd.
Qed.

Lemma chunk_statuses_fit size n chunks :
  0 <= n -> n + len (concat chunks) <= size -> chunk_statuses size n chunks = replicate (length chunks) FWU_STATUS_SUCCESS.
Proof.
  clear. revert n. induction chunks as [|c chunks IH]; intros n Hn Hs; [done|]. simpl in *.
  unfold len in Hs. rewrite length_app in Hs. pose proof (len_nonneg c).
  destruct (Z.leb_spec (n + len c) size); [|unfold len in *; lia]. f_equal.
  rewrite Z.min_r by lia. apply IH; unfold len in *; lia.
Qed.

End Raw.

(** The raw installer installs exactly the image.  The calls of a transaction
    for one image, written in any chunks to a volume that works, all return; the
    volume ends closed with the image, cut at the size of the volume, over its erased
    contents; a write reports OUT_OF_BOUNDS exactly if it did not fit, the commit
    reports NOT_AVAILABLE exactly if nothing was written, and the installer ends
    inactive, with its one image committed. *)
Theorem raw_installer_installs {X} (io : io_storage X) ix deref v (S : volume_session X) target i x cur upd image chunks :
  WorkingVolume io v S -> target <> 0 -> deref target = Some v ->
  (forall p, volume_index_find ix upd p = Some (0, target)) ->
  in_interface i = raw_interface io ix deref -> vs_closed S x -> Forall (fun c => len c < 2 ^ 64) chunks ->
  let size := len (vs_contents S x) in
  let installed := take (Z.to_nat size) (concat chunks) in
  exists e i' x', len e = size /\
    install_image i x cur upd image chunks
      = Some ([FWU_STATUS_SUCCESS; FWU_STATUS_SUCCESS] ++ chunk_statuses size 0 chunks ++
              [if len installed =? 0 then FWU_STATUS_NOT_AVAILABLE else FWU_STATUS_SUCCESS; FWU_STATUS_SUCCESS],
              i', x') /\
    vs_closed S x' /\ store e 0 installed = Some (vs_contents S x') /\
    is_active i' = false /\ commit_count (in_context i') = 1 /\
    (len (concat chunks) <= size -> chunk_statuses size 0 chunks = replicate (length chunks) FWU_STATUS_SUCCESS).
Proof.
  intros Hv Ht Hd Hfind Hif Hcl Hc size installed. unfold install_image.
  destruct (raw_begin_ok io ix deref target Ht i x cur upd Hif Hfind) as (i1 & -> & Hif1 & Ha1 & Ho1 & Ht1 & Hc1).
  cbn [mbind option_bind].
  destruct (raw_open_ok io ix deref v S target Ht Hd i1 x image Hif1 Ha1 Ho1 Ht1 Hc1 Hcl)
    as (e & i2 & x2 & -> & Hw & He). cbn [mbind option_bind].
  destruct (write_chunks_ok io ix deref v S target Ht Hd e [] chunks i2 x2 Hc) as (i3 & x3 & -> & Hw3);
    [by rewrite take_nil|]. cbn [mbind option_bind]. rewrite take_nil, He in *. rewrite app_nil_l in Hw3.
  destruct (raw_commit_ok io ix deref v S target Ht Hd e _ i3 x3 Hw3) as (i4 & x4 & -> & Hif4 & Ho4 & Hc4 & Hcl4 & Hs4).
  cbn [mbind option_bind]. unfold installer_finalize. simpl. rewrite Hif4. simpl. unfold raw_installer_finalize.
  rewrite Ho4. cbn [mbind option_bind].
  assert (Z.to_nat size = length e) as Hs by (unfold size; rewrite <- He; unfold len; by rewrite Nat2Z.id).
  unfold installed. rewrite Hs. exists e. eexists _, x4. do 6 (split; [done|]).
  intros Hfit. apply chunk_statuses_fit; lia.
Qed.


(** ** Copying between two volumes *)

(** [x'] is the storage after one operation of the volume [v]. *)
Inductive touched {X} (io : io_storage X) (v : volume X) (x x' : X) : Prop :=
  | touched_open st : volume_open io v x = Some (st, x') -> touched io v x x'
  | touched_close st : volume_close io v x = Some (st, x') -> touched io v x x'
  | touched_erase st : volume_erase v x = Some (st, x') -> touched io v x x'
  | touched_size n st m : volume_size io v x n = Some (st, m, x') -> touched io v x x'
  | touched_read b n r st b' k : volume_read io v x b n r = Some (st, b', k, x') -> touched io v x x'
  | touched_write b n r st k : volume_write io v x b n r = Some (st, k, x') -> touched io v x x'.

(** The volume seen as [S] is the same in both storages. *)
Definition session_same {X} (S : volume_session X) (x x' : X) : Prop :=
  (vs_closed S x -> vs_closed S x' /\ vs_contents S x' = vs_contents S x) /\
  (vv_ready (vs_view S) x -> vv_ready (vs_view S) x' /\
     vv_data (vs_view S) x' = vv_data (vs_view S) x /\ vv_pos (vs_view S) x' = vv_pos (vs_view S) x).

(** Operations of [v] do not touch the volume seen as [S]. *)
Class ApartFrom {X} (io : io_storage X) (v : volume X) (S : volume_session X) : Prop :=
  apart_from x x' : touched io v x x' -> session_same S x x'.

Section Copy.
Context {X : Type} (io : io_storage X) (src dst : volume X) (Ss Sd : volume_session X).
Context `{!WorkingVolume io src Ss} `{!WorkingVolume io dst Sd} `{!ApartFrom io src Sd} `{!ApartFrom io dst Ss}.

Abbreviation Ws := (vs_view Ss).
Abbreviation Wd := (vs_view Sd).

(** Both volumes open, the first [n] bytes of the source [d] copied over [e]. *)
Definition copying (d e : bytes) (n : Z) (x : X) : Prop :=
  vv_ready Ws x /\ vv_ready Wd x /\ vv_data Ws x = d /\ vv_pos Ws x = n /\ vv_pos Wd x = n /\
  store e 0 (slice d 0 n) = Some (vv_data Wd x).

Lemma src_touch x x' : touched io src x x' -> vv_ready Wd x ->
  vv_ready Wd x' /\ vv_data Wd x' = vv_data Wd x /\ vv_pos Wd x' = vv_pos Wd x.
Proof. intros Ht. by apply (apart_from x x' Ht). Qed.

Lemma dst_touch x x' : touched io dst x x' -> vv_ready Ws x ->
  vv_ready Ws x' /\ vv_data Ws x' = vv_data Ws x /\ vv_pos Ws x' = vv_pos Ws x.
Proof. intros Ht. by apply (apart_from x x' Ht). Qed.

(** One turn of the loop: it copies a chunk, or stops at the end of the destination. *)
Lemma copy_turn d e n x buf req :
  copying d e n x -> 0 < req <= len buf -> n + req <= len d -> len buf < 2 ^ 63 ->
  exists b x1 x2, volume_read io src x buf req 0 = Some (0, b, req, x1) /\ len b = len buf /\
    volume_write io dst x1 b req 0 = Some (0, Z.min req (len e - n), x2) /\
    if n + req <=? len e then copying d e (n + req) x2
    else vv_ready Ws x2 /\ vv_ready Wd x2 /\ vv_data Ws x2 = d.
Proof.
  intros (Hrs & Hrd & Hds & Hps & Hpd & Hst) Hreq Hn Hbuf. destruct (vlaw_pos x Hrs) as [Hp1 Hp2].
  destruct (vlaw_pos x Hrd) as [Hq1 Hq2]. pose proof (store_len _ _ _ _ Hst) as Hle.
  rewrite Hds, Hps, Hpd in *. rewrite Hle in *.
  destruct (vlaw_read x buf req 0 Hrs) as (b & x1 & Hrd1 & Hrs1 & Hds1 & Hps1 & Hb); [lia|lia|].
  rewrite Hds, Hps in *. rewrite Z.min_l in Hrd1, Hps1, Hb by lia.
  pose proof (store_len _ _ _ _ Hb) as Hlb. pose proof (load_store_same _ _ _ _ Hb) as Hld.
  rewrite slice_len in Hld by lia.
  destruct (src_touch x x1 (touched_read _ _ _ _ _ _ _ _ _ _ Hrd1) Hrd) as (Hrd2 & Hdd2 & Hpd2).
  destruct (vlaw_write x1 b req 0 Hrd2) as (x2 & Hwr & Hrd3 & Hpd3 & Hst3); [lia|lia|].
  rewrite Hdd2, Hpd2, Hle, Hpd in *.
  destruct (dst_touch x1 x2 (touched_write _ _ _ _ _ _ _ _ _ Hwr) Hrs1) as (Hrs3 & Hds3 & Hps3).
  exists b, x1, x2. do 3 (split; [done|]).
  destruct (Z.leb_spec (n + req) (len e)); [|by rewrite Hds3].
  rewrite Z.min_l in Hpd3, Hst3 by lia.
  unfold copying. rewrite Hds3, Hps3, Hps1, Hpd3. do 5 (split; [done|]).
  apply load_Some in Hld as (_ & _ & _ & Hld). rewrite drop_0 in Hld. rewrite <- Hld in Hst3.
  rewrite slice_app, <- store_app, Hst by lia. cbn [mbind option_bind].
  rewrite slice_len, Z.add_0_l by lia. done.
Qed.

(** The copy ends with SUCCESS, or with UNKNOWN where the destination is too short. *)
Lemma copy_loop_ok d e target buf fuel n x :
  copying d e n x -> len buf = COPY_CHUNK_SIZE -> 0 <= n -> n <= target <= len d -> n <= len e ->
  (Z.to_nat (target - n) <= fuel)%nat ->
  exists x', copy_loop io src dst x buf target fuel n
      = Some (if target <=? len e then FWU_STATUS_SUCCESS else FWU_STATUS_UNKNOWN, x') /\
    if target <=? len e then copying d e target x'
    else vv_ready Ws x' /\ vv_ready Wd x' /\ vv_data Ws x' = d.
Proof.
  revert buf n x. induction fuel as [|fuel IH]; intros buf n x Hc Hbuf Hn Ht Hne Hf; cbn [copy_loop];
    destruct (Z.ltb_spec n target); [lia|..];
    try (replace n with target in * by lia; exists x; destruct (Z.leb_spec target (len e)); [done|lia]).
  pose proof Hc as (Hrs & _ & Hds & _). destruct (vlaw_pos x Hrs) as [_ Hp2]. rewrite Hds in Hp2.
  set (req := if target - n <? COPY_CHUNK_SIZE then target - n else COPY_CHUNK_SIZE).
  assert (0 < req <= 4096 /\ n + req <= target) as [Hreq Hreq'].
  { unfold req, COPY_CHUNK_SIZE. destruct (Z.ltb_spec (target - n) 4096); lia. }
  unfold COPY_CHUNK_SIZE in Hbuf.
  destruct (copy_turn d e n x buf req Hc) as (b & x1 & x2 & -> & Hlb & Hwr & Hcase); [lia|lia|lia|].
  cbn [mbind option_bind]. simpl negb. cbv iota. rewrite Hwr. cbn [mbind option_bind]. simpl negb. cbv iota.
  destruct (Z.leb_spec (n + req) (len e)).
  - rewrite Z.min_l, Z.eqb_refl by lia. simpl negb. cbv iota. rewrite wrap_small by lia.
    apply IH; [done|unfold COPY_CHUNK_SIZE; lia|lia..].
  - destruct (Z.eqb_spec req (Z.min req (len e - n))); [lia|]. simpl negb. cbv iota. exists x2.
    destruct (Z.leb_spec target (len e)); [lia|]. done.
Qed.

(** Opening and erasing: the copy is about to start. *)
Lemma copy_prepare x :
  vs_closed Ss x -> vs_closed Sd x ->
  exists x1 x2 x3 e, volume_open io src x = Some (0, x1) /\ volume_open io dst x1 = Some (0, x2) /\
    volume_erase dst x2 = Some (0, x3) /\ copying (vs_contents Ss x) e 0 x3 /\ len e = len (vs_contents Sd x).
Proof.
  intros Hcs Hcd. destruct (wv_open x Hcs) as (x1 & H1 & Hr1 & Hd1 & Hp1).
  destruct (apart_from x x1 (touched_open io src _ _ _ H1)) as [Hcd1 _]. specialize (Hcd1 Hcd) as [Hcd1 Hct1].
  destruct (wv_open x1 Hcd1) as (x2 & H2 & Hr2 & Hd2 & Hp2).
  destruct (dst_touch x1 x2 (touched_open io dst _ _ _ H2) Hr1) as (Hrs2 & Hds2 & Hps2).
  destruct (wv_erase x2 Hr2) as (x3 & H3 & Hr3 & Hl3 & Hp3).
  destruct (dst_touch x2 x3 (touched_erase io dst _ _ _ H3) Hrs2) as (Hrs3 & Hds3 & Hps3).
  exists x1, x2, x3, (vv_data Wd x3). do 3 (split; [done|]). split; [|congruence].
  do 2 (split; [done|]). split; [congruence|]. split; [congruence|]. split; [congruence|].
  rewrite slice_nil, store_nil; [done|]. pose proof (len_nonneg (vv_data Wd x3)). lia.
Qed.

(** Closing both volumes. *)
Lemma copy_close x :
  vv_ready Ws x -> vv_ready Wd x ->
  exists x1 x2, volume_close io src x = Some (0, x1) /\ volume_close io dst x1 = Some (0, x2) /\
    vs_closed Ss x2 /\ vs_contents Ss x2 = vv_data Ws x /\ vs_closed Sd x2 /\ vs_contents Sd x2 = vv_data Wd x.
Proof.
  intros Hs Hd. destruct (wv_close x Hs) as (x1 & H1 & Hc1 & Hd1).
  destruct (src_touch x x1 (touched_close io src _ _ _ H1) Hd) as (Hr1 & Hdd1 & _).
  destruct (wv_close x1 Hr1) as (x2 & H2 & Hc2 & Hd2).
  destruct (apart_from x1 x2 (touched_close io dst _ _ _ H2)) as [Hcs _]. specialize (Hcs Hc1) as [Hcs Hct].
  exists x1, x2. do 3 (split; [done|]). split; [congruence|]. split; [done|congruence].
Qed.

Context (deref : Z -> option (volume X)) (ps pd : Z) (Hps : ps <> 0) (Hpd : pd <> 0).
Context (Hds : deref ps = Some src) (Hdd : deref pd = Some dst).

Lemma copy_finalize_ok x buf :
  len buf = COPY_CHUNK_SIZE -> vs_closed Ss x -> vs_closed Sd x ->
  exists x' e, copy_installer_finalize io deref (Some buf) (CopyInstaller pd ps) x
    = Some (if len (vs_contents Ss x) <=? len (vs_contents Sd x) then FWU_STATUS_SUCCESS else FWU_STATUS_UNKNOWN,
            CopyInstaller pd ps, x') /\
    vs_closed Ss x' /\ vs_contents Ss x' = vs_contents Ss x /\ vs_closed Sd x' /\
    len e = len (vs_contents Sd x) /\
    (len (vs_contents Ss x) <= len (vs_contents Sd x) -> store e 0 (vs_contents Ss x) = Some (vs_contents Sd x')).
Proof.
  intros Hbuf Hcs Hcd. destruct (copy_prepare x Hcs Hcd) as (x1 & x2 & x3 & e & H1 & H2 & H3 & Hc & He).
  unfold copy_installer_finalize, volume_at. simpl. destruct (Z.eqb_spec ps 0), (Z.eqb_spec pd 0); [done..|].
  simpl. rewrite Hds, Hdd. simpl. rewrite H1. simpl. rewrite H2. simpl. rewrite H3. simpl.
  pose proof Hc as (Hrs & _ & Hdat & _). rewrite (vlaw_size x3 0 Hrs). simpl. rewrite (vlaw_size x3 0 Hrs). simpl.
  rewrite Z.min_id, Hdat. pose proof (len_nonneg (vs_contents Ss x)). pose proof (len_nonneg e).
  destruct (copy_loop_ok (vs_contents Ss x) e (len (vs_contents Ss x)) buf
    (Z.to_nat (len (vs_contents Ss x))) 0 x3 Hc Hbuf) as (x4 & -> & Hcase); [lia..|].
  rewrite <- He. cbn [mbind option_bind].
  assert (vv_ready Ws x4 /\ vv_ready Wd x4 /\ vv_data Ws x4 = vs_contents Ss x) as (Hr1 & Hr2 & Hd4)
    by (destruct (_ <=? _); unfold copying in Hcase; tauto).
  destruct (copy_close x4 Hr1 Hr2) as (x5 & x6 & -> & Hcl & Hk1 & Hk2 & Hk3 & Hk4). simpl.
  rewrite Hcl. simpl. exists x6, e. split; [by destruct (_ <=? _)|]. split; [done|]. split; [congruence|].
  split; [done|]. split; [done|]. intros Hle. destruct (Z.leb_spec (len (vs_contents Ss x)) (len e)); [|lia].
  destruct Hcase as (_ & _ & _ & _ & _ & Hst). rewrite slice_all in Hst. congruence.
Qed.

End Copy.

(** The copy installer copies the running volume.  A transaction over two
    separate volumes that work returns with both closed and the source as it was; if
    the destination is large enough it succeeds and the destination holds the source
    over its erased contents.  A shorter destination is reported as
    FWU_STATUS_UNKNOWN: the length to copy is the minimum of the size of the source
    with itself. *)
Theorem copy_installer_copies {X} (io : io_storage X) ix deref src dst (Ss Sd : volume_session X) ps pd buf i x cur upd :
  WorkingVolume io src Ss -> WorkingVolume io dst Sd -> ApartFrom io src Sd -> ApartFrom io dst Ss ->
  ps <> 0 -> pd <> 0 -> deref ps = Some src -> deref pd = Some dst -> len buf = COPY_CHUNK_SIZE ->
  (forall p, volume_index_find ix cur p = Some (0, ps)) -> (forall p, volume_index_find ix upd p = Some (0, pd)) ->
  in_interface i = copy_interface io ix deref (Some buf) -> vs_closed Ss x -> vs_closed Sd x ->
  exists i1 i2 x' e,
    installer_begin i x cur upd = Some (FWU_STATUS_SUCCESS, i1, x) /\ is_active i1 = true /\
    installer_finalize i1 x
      = Some (if len (vs_contents Ss x) <=? len (vs_contents Sd x) then FWU_STATUS_SUCCESS else FWU_STATUS_UNKNOWN,
              i2, x') /\ is_active i2 = false /\
    vs_closed Ss x' /\ vs_contents Ss x' = vs_contents Ss x /\ vs_closed Sd x' /\
    len e = len (vs_contents Sd x) /\
    (len (vs_contents Ss x) <= len (vs_contents Sd x) ->
     store e 0 (vs_contents Ss x) = Some (vs_contents Sd x')).
Proof.
  intros Hws Hwd Has Had Hps Hpd Hds Hdd Hbuf Hfs Hfd Hif Hcs Hcd.
  unfold installer_begin. simpl. rewrite Hif. simpl. unfold copy_installer_begin. rewrite Hfd. simpl.
  rewrite Hfs. simpl. eexists _. unfold installer_finalize.
  destruct (copy_finalize_ok io src dst Ss Sd deref ps pd Hps Hpd Hds Hdd x buf Hbuf Hcs Hcd)
    as (x' & e & Hfin & Hrest).
  eexists _, x', e. split; [done|]. split; [done|]. simpl. rewrite Hif. simpl. rewrite Hfin. simpl.
  split; [done|]. tauto.
Qed.

(** ** Example: a disk with two volumes *)

Record disk := Disk { d_data : bool -> bytes; d_pos : bool -> Z }.

Definition put {A} (f : bool -> A) (s : bool) (a : A) : bool -> A := fun s' => if Bool.eqb s' s then a else f s'.

Definition disk_funcs (s : bool) : io_dev_funcs disk := DevFuncs
  (fun x => Some (0, Disk (d_data x) (put (d_pos x) s 0)))
  (fun x => Some (0, x))
  (fun x mode off =>
     let p := match mode with IO_SEEK_CUR => d_pos x s + off | _ => off end in
     match mode with
     | IO_SEEK_INVALID => Some (- EINVAL, x)
     | _ => if (0 <=? p) && (p <=? len (d_data x s)) then Some (0, Disk (d_data x) (put (d_pos x) s p))
            else Some (- EINVAL, x)
     end)
  (fun x _ => Some (0, len (d_data x s), x))
  (fun x buf n _ =>
     let k := Z.min n (len (d_data x s) - d_pos x s) in
     buf ← store buf 0 (slice (d_data x s) (d_pos x s) k);
     Some (0, buf, k, Disk (d_data x) (put (d_pos x) s (d_pos x s + k))))
  (fun x buf n _ =>
     let k := Z.min n (len (d_data x s) - d_pos x s) in
     b ← store (d_data x s) (d_pos x s) (take (Z.to_nat k) buf);
     Some (0, k, Disk (put (d_data x) s b) (put (d_pos x) s (d_pos x s + k)))).

Definition disk_volume (s : bool) : volume disk :=
  Volume (disk_funcs s) (Some (fun x => Some (0, Disk (put (d_data x) s (fill 255 (len (d_data x s)))) (d_pos x))))
    None.

Definition disk_session (s : bool) : volume_session disk :=
  VolumeSession
    (VolumeView (fun x => 0 <= d_pos x s <= len (d_data x s) /\ len (d_data x s) < 2 ^ 63)
       (fun x => d_data x s) (fun x => d_pos x s))
    (fun x => len (d_data x s) < 2 ^ 63) (fun x => d_data x s).

Lemma put_same {A} (f : bool -> A) s a : put f s a s = a.
Proof. unfold put. by rewrite Bool.eqb_reflx. Qed.
Lemma put_other {A} (f : bool -> A) s a : put f s a (negb s) = f (negb s).
Proof. by destruct s. Qed.

#[export] Instance disk_volume_laws s : VolumeLaws (@forwarding_io disk) (disk_volume s) (vs_view (disk_session s)).
Proof.
  split; simpl.
  - done.
  - intros x mode off [Hp Hl] Ho. unfold volume_seek. simpl.
    destruct mode; [by eexists _, x; split; [done|]; split; [done|]; split; [done|]; right|..];
      (destruct (_ && _) eqn:E; (eexists _, _; split; [done|]); simpl; rewrite ?put_same;
       (split; [lia|]); (split; [done|]); [left|right]; repeat split; done || lia).
  - done.
  - intros x buf n r [Hp Hl] Hn Hn64. unfold volume_read. simpl.
    set (k := Z.min n _). assert (0 <= k /\ k <= n /\ d_pos x s + k <= len (d_data x s)) as (Hk0 & Hk1 & Hk2)
      by (unfold k; lia).
    destruct (store_ok buf 0 (slice (d_data x s) (d_pos x s) k)) as [b Hb]; [lia|rewrite slice_len; lia|].
    rewrite Hb. cbn [mbind option_bind]. eexists b, _. split; [done|]. simpl. rewrite !put_same.
    split; [lia|]. done.
  - intros x buf n r [Hp Hl] Hn Hn64. unfold volume_write. simpl. set (k := Z.min n _).
    assert (0 <= k /\ k <= n /\ d_pos x s + k <= len (d_data x s)) as (Hk0 & Hk1 & Hk2) by (unfold k; lia).
    destruct (store_ok (d_data x s) (d_pos x s) (take (Z.to_nat k) buf)) as [b Hb];
      [lia|unfold len in *; rewrite length_take; lia|].
    pose proof (store_len _ _ _ _ Hb) as Hlb. rewrite Hb. cbn [mbind option_bind].
    eexists. split; [done|]. simpl. rewrite !put_same. split; [lia|]. done.
Qed.

#[export] Instance disk_volume_works s : WorkingVolume (@forwarding_io disk) (disk_volume s) (disk_session s).
Proof.
  split; [apply _|..]; simpl.
  - intros x Hl. pose proof (len_nonneg (d_data x s)). eexists. split; [done|]. simpl. rewrite put_same.
    split; [lia|done].
  - intros x [Hp Hl]. eexists. split; [done|]. simpl. rewrite put_same, len_fill by apply len_nonneg.
    split; [lia|done].
  - intros x [Hp Hl]. eexists. split; [done|]. done.
Qed.

#[export] Instance disk_volumes_apart s : ApartFrom (@forwarding_io disk) (disk_volume s) (disk_session (negb s)).
Proof.
  intros x x' [st H|st H|st H|n st m H|b n r st b' k H|b n r st k H];
    unfold volume_open, volume_close, volume_erase, volume_size, volume_read, volume_write in H; simpl in H;
    inv_bind H; unfold session_same; simpl; rewrite ?put_other; by split.
Qed.

(** Volume 16 is the running bank and 32 the update bank of location 0. *)
Definition disk_index : volume_index :=
  VolumeIndex 2 ([(0, 16); (1, 32)] ++ replicate 6 (0, 0)).
Definition disk_deref (p : Z) : option (volume disk) :=
  if p =? 16 then Some (disk_volume true) else if p =? 32 then Some (disk_volume false) else None.
Definition example_disk : disk := Disk (fun s => if s then [1; 2; 3] else fill 0 5) (fun _ => 0).

Lemma raw_installer_installs_witness :
  exists e i' x', len e = 5 /\
    install_image (raw_installer_init (@forwarding_io disk) disk_index disk_deref (fill 7 16) 0) example_disk 0 1
      zero_image_info [[4; 5]; [6; 7]; [8; 9]]
      = Some ([0; 0] ++ chunk_statuses 5 0 [[4; 5]; [6; 7]; [8; 9]] ++ [0; 0], i', x') /\
    store e 0 [4; 5; 6; 7; 8] = Some (d_data x' false).
Proof.
  destruct (raw_installer_installs (@forwarding_io disk) disk_index disk_deref (disk_volume false)
    (disk_session false) 32 (raw_installer_init (@forwarding_io disk) disk_index disk_deref (fill 7 16) 0)
    example_disk 0 1 zero_image_info [[4; 5]; [6; 7]; [8; 9]]) as (e & i' & x' & He & Hi & _ & Hs & _).
  - apply _.
  - done.
  - done.
  - done.
  - done.
  - done.
  - by repeat constructor.
  - exists e, i', x'. split; [exact He|]. split; [exact Hi|exact Hs].
Defined.

Lemma copy_installer_copies_witness :
  let i := copy_installer_init (@forwarding_io disk) disk_index disk_deref (Some (fill 0 4096)) (fill 7 16) 0 in
  exists i1 i2 x' e,
    installer_begin i example_disk 0 1 = Some (FWU_STATUS_SUCCESS, i1, example_disk) /\
    installer_finalize i1 example_disk = Some (FWU_STATUS_SUCCESS, i2, x') /\
    d_data x' true = [1; 2; 3] /\ store e 0 [1; 2; 3] = Some (d_data x' false).
Proof.
  intros i.
  destruct (copy_installer_copies (@forwarding_io disk) disk_index disk_deref (disk_volume true) (disk_volume false)
    (disk_session true) (disk_session false) 16 32 (fill 0 4096) i example_disk 0 1)
    as (i1 & i2 & x' & e & H1 & _ & H2 & _ & _ & H3 & _ & _ & H4).
  - apply _.
  - apply _.
  - apply (disk_volumes_apart true).
  - apply (disk_volumes_apart false).
  - done.
  - done.
  - done.
  - done.
  - done.
  - done.
  - done.
  - done.
  - done.
  - done.
  - exists i1, i2, x', e. split; [exact H1|]. split; [exact H2|]. split; [exact H3|]. apply H4. done.
Defined.
