(* ===== verification/BankedStore.v ===== *)
(** * components/service/fwu/fw_store/banked/banked_fw_store.c: the banked store

    A firmware store with two banks per location.  The system runs from one bank
    (the boot index) and updates are installed into the other (the update index);
    the FWU metadata tells the boot loader which bank to boot.  The store drives
    the installers of the platform through an update transaction, keeps the
    tracker of the banks and stores the metadata.

    [C] and [X] are the installer contexts and the storage, as in [Installer].
    Installers are at addresses in [fs_installers], 0 is NULL.  The firmware
    directory is shared with the update agent, which does not change it once the
    store is synchronized.  A failing assert() is [None]. *)
From S2P Require Import Prelude Status Uuid Crc32 Volume FwDirectory BankTracker MetadataSerializer.
From S2P Require Import MetadataV2 MetadataManager Installer VolumeInstallers.

(** "8a7a84a0-8387-40f6-ab41-a8b9a5a60d23" with its terminator. *)
Definition FWU_METADATA_CANONICAL_UUID : bytes :=
  [56; 97; 55; 97; 56; 52; 97; 48; 45; 56; 51; 56; 55; 45; 52; 48; 102; 54; 45; 97; 98; 52; 49;
   45; 97; 56; 98; 57; 97; 53; 97; 54; 48; 100; 50; 51; 0].

Section Store.
Context {C X : Type} (io : io_storage X) (ms : metadata_serializer).
Context (impl : crc32_impl) (crc32b : Z -> Z -> Z) (malloc : Z -> option bytes).
(** The configured installers and the address of the metadata cache. *)
Context (index : installer_index) (cache_address : Z).

Record fw_store := FwStore {
  fs_directory : option fw_directory;
  active_installers : Z;
  fs_manager : metadata_manager (W := X);
  fs_tracker : bank_tracker;
  fs_update_index : Z;
  fs_boot_index : Z;
  fs_installers : gmap Z (installer C X);
  fs_storage : X
}.

Implicit Types f : fw_store.

Definition with_installers f (h : gmap Z (installer C X)) (x : X) : fw_store :=
  FwStore (fs_directory f) (active_installers f) (fs_manager f) (fs_tracker f) (fs_update_index f)
    (fs_boot_index f) h x.
Definition with_active_installers f (p : Z) : fw_store :=
  FwStore (fs_directory f) p (fs_manager f) (fs_tracker f) (fs_update_index f) (fs_boot_index f)
    (fs_installers f) (fs_storage f).
Definition with_tracker f (t : bank_tracker) : fw_store :=
  FwStore (fs_directory f) (active_installers f) (fs_manager f) t (fs_update_index f) (fs_boot_index f)
    (fs_installers f) (fs_storage f).
Definition with_manager f (m : metadata_manager (W := X)) (x : X) : fw_store :=
  FwStore (fs_directory f) (active_installers f) m (fs_tracker f) (fs_update_index f) (fs_boot_index f)
    (fs_installers f) x.
Definition with_indices f (update_index boot_index : Z) : fw_store :=
  FwStore (fs_directory f) (active_installers f) (fs_manager f) (fs_tracker f) update_index boot_index
    (fs_installers f) (fs_storage f).
Definition with_fw_directory f (d : option fw_directory) : fw_store :=
  FwStore d (active_installers f) (fs_manager f) (fs_tracker f) (fs_update_index f) (fs_boot_index f)
    (fs_installers f) (fs_storage f).

(** An operation of the installer at [p]. *)
Definition at_installer f (p : Z) (op : installer C X -> X -> option (Z * installer C X * X))
    : option (Z * fw_store) :=
  i ← fs_installers f !! p;
  '(status, i, x) ← op i (fs_storage f);
  Some (status, with_installers f (<[p := i]> (fs_installers f)) x).

(** The volumes of a location in the update bank and in the bank booted from. *)
Definition update_volume f (location_id : Z) : Z :=
  banked_volume_id location_id (banked_usage_id (fs_update_index f)).
Definition current_volume f (location_id : Z) : Z :=
  banked_volume_id location_id (banked_usage_id (fs_boot_index f)).

Definition activate_installer f (p location_id : Z) : option (Z * fw_store) :=
  '(status, f) ←
    at_installer f p (fun i x => installer_begin i x (current_volume f location_id) (update_volume f location_id));
  if status =? FWU_STATUS_SUCCESS then
    i ← fs_installers f !! p;
    let f := with_installers f (<[p := with_next_installer i (active_installers f)]> (fs_installers f)) (fs_storage f) in
    Some (status, with_active_installers f p)
  else Some (status, f).

(** The loop from [index] on; it ends at the first index without an image. *)
Fixpoint copy_accepted_loop f (d : fw_directory) (location : Z) (fuel : nat) (index : Z) : option fw_store :=
  match fuel with
  | O => None
  | S fuel =>
      image ← fw_directory_get_image_info d index;
      match image with
      | Some image =>
          f ← (if location_id image =? location then
                 t ← bank_tracker_copy_accept (fs_tracker f) (fs_boot_index f) (fs_update_index f)
                       (image_index image);
                 Some (with_tracker f t)
               else Some f);
          copy_accepted_loop f d location fuel (index + 1)
      | None => Some f
      end
  end.

Definition copy_accepted_state_for_location f (location : Z) : option fw_store :=
  d ← fs_directory f;
  copy_accepted_loop f d location (S (Z.to_nat (fw_directory_num_images d))) 0.

(** Whether an active installer, from [p] on, served the location without errors. *)
Fixpoint served_loop (h : gmap Z (installer C X)) (location : Z) (fuel : nat) (p : Z) : option bool :=
  if p =? 0 then Some false
  else
    match fuel with
    | O => None
    | S fuel =>
        i ← h !! p;
        if (in_location_id i =? location) && (installer_status i =? 0) then Some true
        else served_loop h location fuel (next i)
    end.

(** One location of install_unchanged_images. *)
Definition install_unchanged_location f (location : Z) : option (Z * fw_store) :=
  found ← served_loop (fs_installers f) location (size (fs_installers f)) (active_installers f);
  if found : bool then Some (FWU_STATUS_SUCCESS, f)
  else
    p ← installer_index_find (fs_installers f) index INSTALL_TYPE_WHOLE_VOLUME_COPY location;
    if negb (p =? 0) then
      '(status, f) ←
        at_installer f p (fun i x => installer_begin i x (current_volume f location) (update_volume f location));
      if status =? FWU_STATUS_SUCCESS then
        '(status, f) ← at_installer f p installer_finalize;
        if status =? FWU_STATUS_SUCCESS then
          f ← copy_accepted_state_for_location f location;
          Some (status, f)
        else Some (status, f)
      else Some (status, f)
    else Some (FWU_STATUS_NOT_AVAILABLE, f).

Fixpoint install_unchanged_loop f (l : list Z) (n : nat) (i : Z) : option (Z * fw_store) :=
  match n with
  | O => Some (FWU_STATUS_SUCCESS, f)
  | S n =>
      location ← nthZ l i;
      '(status, f) ← install_unchanged_location f location;
      if negb (status =? 0) then Some (status, f) else install_unchanged_loop f l n (i + 1)
  end.

Definition install_unchanged_images f : option (Z * fw_store) :=
  let '(num_locations, ids) := installer_index_get_location_ids index in
  install_unchanged_loop f ids (Z.to_nat num_locations) 0.

(** Returns the status and the store; [find], [cache], [h] and [x]: the volumes, the
    block malloc returns for the metadata, the installers and the storage. *)
Definition banked_fw_store_init (find : Z -> option (volume X)) (cache : option bytes)
    (h : gmap Z (installer C X)) (x : X) : Z * fw_store :=
  let '(status, m) := metadata_manager_init ms find cache in
  (status, FwStore None 0 m bank_tracker_init 0 0 h x).

(** Returns the block it hands to free(). *)
Definition banked_fw_store_deinit f : fw_store * bytes :=
  (with_tracker f (bank_tracker_deinit (fs_tracker f)), metadata_manager_deinit (fs_manager f)).

(** metadata_manager_update with the tracker of the store. *)
Definition update_metadata f (active_index previous_active_index : Z) (d : fw_directory)
    : option (Z * fw_store) :=
  '(status, m, x) ←
    metadata_manager_update io ms impl crc32b (fs_manager f) (fs_storage f) active_index
      previous_active_index d (fs_tracker f);
  Some (status, with_manager f m x).

(** Returns the status, the directory and the store. *)
Definition fw_store_synchronize f (d : fw_directory) (boot_index : Z)
    : option (Z * fw_directory * fw_store) :=
  let f := with_indices (with_fw_directory f (Some d)) (bank_scheme_next_index boot_index) boot_index in
  '(status, m, x) ←
    metadata_manager_check_and_repair io ms impl crc32b malloc (fs_manager f) (fs_storage f) d;
  let f := with_manager f m x in
  '(status, active, previous, f) ←
    (if negb (status =? FWU_STATUS_SUCCESS) then
       t ← bank_tracker_set_holds_accepted_content (fs_tracker f) (fs_boot_index f);
       '(status, f) ← update_metadata (with_tracker f t) boot_index boot_index d;
       Some (status, boot_index, boot_index, f)
     else
       '(status, active, previous) ← metadata_manager_get_active_indices ms (fs_manager f) 0 0;
       t ← metadata_manager_preload_bank_tracker ms (fs_manager f) (fs_tracker f);
       let f := with_tracker f t in
       if (status =? FWU_STATUS_SUCCESS) && negb (boot_index =? active) then
         '(status, f) ← update_metadata f boot_index boot_index d;
         Some (status, boot_index, boot_index, f)
       else Some (status, active, previous, f));
  let d := fw_directory_set_boot_info d (BootInfo boot_index active previous) in
  Some (status, d, with_fw_directory f (Some d)).

Definition fw_store_begin_install f : option (Z * fw_store) :=
  assert! active_installers f =? 0;;
  t ← bank_tracker_set_no_content (fs_tracker f) (fs_update_index f);
  d ← fs_directory f;
  update_metadata (with_tracker f t) (fs_boot_index f) (fs_boot_index f) d.

(** Abort, or finalize as long as there is no error, and remove every active
    installer; [status] is the last status. *)
Fixpoint cancel_loop f (fuel : nat) : option fw_store :=
  if active_installers f =? 0 then Some f
  else
    match fuel with
    | O => None
    | S fuel =>
        let p := active_installers f in
        i ← fs_installers f !! p;
        let f := with_active_installers f (next i) in
        '(i, x) ← installer_abort i (fs_storage f);
        cancel_loop (with_installers f (<[p := i]> (fs_installers f)) x) fuel
    end.

Definition fw_store_cancel_install f : option fw_store := cancel_loop f (size (fs_installers f)).

Fixpoint finalize_loop f (fuel : nat) (status : Z) (is_error : bool) : option (Z * bool * fw_store) :=
  if active_installers f =? 0 then Some (status, is_error, f)
  else
    match fuel with
    | O => None
    | S fuel =>
        let p := active_installers f in
        i ← fs_installers f !! p;
        let f := with_active_installers f (next i) in
        if negb is_error then
          '(status, i, x) ← installer_finalize i (fs_storage f);
          finalize_loop (with_installers f (<[p := i]> (fs_installers f)) x) fuel status
            (negb (status =? FWU_STATUS_SUCCESS))
        else
          '(i, x) ← installer_abort i (fs_storage f);
          finalize_loop (with_installers f (<[p := i]> (fs_installers f)) x) fuel status is_error
    end.

Definition fw_store_finalize_install f : option (Z * fw_store) :=
  let status := FWU_STATUS_NOT_AVAILABLE in
  let is_error := active_installers f =? 0 in
  '(status, is_error, f) ←
    (if negb is_error then
       '(status, f) ← install_unchanged_images f;
       Some (status, negb (status =? FWU_STATUS_SUCCESS), f)
     else Some (status, is_error, f));
  '(status, is_error, f) ← finalize_loop f (size (fs_installers f)) status is_error;
  if is_error : bool then
    Some (if negb (status =? FWU_STATUS_SUCCESS) then status else FWU_STATUS_NOT_AVAILABLE, f)
  else
    t ← bank_tracker_set_holds_content (fs_tracker f) (fs_update_index f);
    d ← fs_directory f;
    update_metadata (with_tracker f t) (fs_update_index f) (fs_boot_index f) d.

(** Returns the status and *installer. *)
Definition fw_store_select_installer f (image : image_info) : option (Z * Z * fw_store) :=
  p ← installer_index_find (fs_installers f) index (image_install_type image) (location_id image);
  if negb (p =? 0) then
    i ← fs_installers f !! p;
    '(ready, status, f) ←
      (if installer_is_active i then Some (true, FWU_STATUS_UNKNOWN, f)
       else
         '(status, f) ← activate_installer f p (location_id image);
         Some (status =? FWU_STATUS_SUCCESS, status, f));
    if ready : bool then
      '(status, f) ← at_installer f p (fun i x => installer_open i x image);
      Some (status, if status =? FWU_STATUS_SUCCESS then p else 0, f)
    else Some (status, 0, f)
  else Some (FWU_STATUS_UNKNOWN, 0, f).

Definition fw_store_write_image f (p : Z) (data : bytes) : option (Z * fw_store) :=
  i ← fs_installers f !! p;
  if negb (installer_is_active i) then Some (FWU_STATUS_DENIED, f)
  else at_installer f p (fun i x => installer_write i x data).

Definition fw_store_commit_image f (p : Z) (image : image_info) (accepted : bool) : option (Z * fw_store) :=
  i ← fs_installers f !! p;
  if negb (installer_is_active i) then Some (FWU_STATUS_DENIED, f)
  else
    '(status, f) ← at_installer f p installer_commit;
    if (status =? FWU_STATUS_SUCCESS) && accepted then
      t ← bank_tracker_accept (fs_tracker f) (fs_update_index f) (image_index image);
      Some (status, with_tracker f t)
    else Some (status, f).

Definition fw_store_notify_accepted f (image : image_info) : option (bool * fw_store) :=
  d ← fs_directory f;
  let num_images := fw_directory_num_images d in
  t ← bank_tracker_accept (fs_tracker f) (fs_boot_index f) (image_index image);
  '(status, f) ← update_metadata (with_tracker f t) (fs_boot_index f) (fs_update_index f) d;
  if status =? FWU_STATUS_SUCCESS then
    all ← bank_tracker_is_all_accepted (fs_tracker f) (fs_boot_index f) num_images;
    Some (all, f)
  else Some (false, f).

Definition fw_store_is_accepted f (image : image_info) : option bool :=
  bank_tracker_is_accepted (fs_tracker f) (fs_boot_index f) (image_index image).

Definition fw_store_is_trial f : option bool :=
  d ← fs_directory f;
  let b := fw_directory_get_boot_info d in
  if boot_index b =? active_index b then
    negb <$> bank_tracker_is_all_accepted (fs_tracker f) (fs_boot_index f) (fw_directory_num_images d)
  else Some false.

Definition fw_store_commit_to_update f : Z * fw_store := (FWU_STATUS_SUCCESS, f).

(** The locals active_index and previous_active_index are indeterminate until the
    metadata manager sets them; 0 stands for their values. *)
Definition fw_store_revert_to_previous f : option (Z * fw_store) :=
  '(status, active, previous) ← metadata_manager_get_active_indices ms (fs_manager f) 0 0;
  if negb (status =? 0) then Some (status, f)
  else
    let '(active, previous) :=
      if active =? fs_boot_index f then (previous, fs_boot_index f) else (fs_boot_index f, active) in
    let f := with_indices f (bank_scheme_next_index active) (fs_boot_index f) in
    t ← bank_tracker_set_holds_accepted_content (fs_tracker f) active;
    d ← fs_directory f;
    update_metadata (with_tracker f t) active previous d.

(** None in the inner option is false; otherwise *status and, if it is SUCCESS,
    *data and *data_len. *)
Definition fw_store_export f (uuid : bytes) : option (option (Z * Z * Z) * fw_store) :=
  target_uuid ← uuid_guid_octets_from_canonical (fill 0 16) (fill 0 16) FWU_METADATA_CANONICAL_UUID;
  equal ← uuid_is_equal uuid target_uuid;
  if equal : bool then
    match metadata_manager_fetch (fs_manager f) with
    | (status, Some (n, _), m) => Some (Some (status, cache_address, n), with_manager f m (fs_storage f))
    | (status, None, m) => Some (Some (status, 0, 0), with_manager f m (fs_storage f))
    end
  else Some (None, f).

End Store.

Arguments fw_store : clear implicits.

(** ** Installers that serve both banks *)

Section Installers.
Context {C X : Type} (begun : C -> Prop).
Implicit Types (i : installer C X) (h : gmap Z (installer C X)).

(** The volumes of the location of the installer exist in both banks: beginning a
    transaction, whether it succeeds or fails, leaves the installer with them, and its
    operations then return, with any status.  Without the volumes the assertions of the
    installers fail ([select_after_failed_begin]). *)
Record lawful i : Prop := {
  lw_begin c x a b : bank_index_ok a -> bank_index_ok b ->
    exists st c' x', ii_begin (in_interface i) c x (banked_volume_id (in_location_id i) (banked_usage_id a))
        (banked_volume_id (in_location_id i) (banked_usage_id b)) = Some (st, c', x') /\ begun c';
  lw_finalize c x : begun c -> exists st c' x', ii_finalize (in_interface i) c x = Some (st, c', x') /\ begun c';
  lw_abort c x : begun c -> exists c' x', ii_abort (in_interface i) c x = Some (c', x');
  lw_open c x image : begun c ->
    exists st c' x', ii_open (in_interface i) c x image = Some (st, c', x') /\ begun c';
  lw_commit c x : begun c -> exists st c' x', ii_commit (in_interface i) c x = Some (st, c', x') /\ begun c';
  lw_write c x data : begun c ->
    exists st c' x', ii_write (in_interface i) c x data = Some (st, c', x') /\ begun c'
}.

(** What no operation changes. *)
Definition same_kind i i' : Prop :=
  in_interface i' = in_interface i /\ in_location_id i' = in_location_id i /\
  in_install_type i' = in_install_type i.
Definition same_frame i i' : Prop := same_kind i i' /\ next i' = next i.

Lemma lawful_frame i i' : same_kind i i' -> lawful i -> lawful i'.
Proof. intros (Hi & Hl & _) H. destruct H. split; rewrite Hi, ?Hl; done. Qed.

Lemma note_status_frame i st :
  same_frame i (note_status i st) /\ is_active (note_status i st) = is_active i /\
  in_context (note_status i st) = in_context i.
Proof. unfold note_status. by destruct (_ && _). Qed.

(** An active installer that has begun, and what an operation of it leaves. *)
Definition running i : Prop := lawful i /\ is_active i = true /\ begun (in_context i).

Lemma begin_ok i x a b :
  lawful i -> bank_index_ok a -> bank_index_ok b ->
  exists st i' x', installer_begin i x (banked_volume_id (in_location_id i) (banked_usage_id a))
      (banked_volume_id (in_location_id i) (banked_usage_id b)) = Some (st, i', x') /\
    same_frame i i' /\ running i'.
Proof.
  intros Hl Ha Hb. unfold installer_begin.
  destruct (lw_begin i Hl (in_context i) x a b Ha Hb) as (st & c' & x' & Heq & Hc). simpl. rewrite Heq. simpl.
  eexists st, _, x'. split; [done|]. split; [done|]. split; [|done]. by apply (lawful_frame i).
Qed.

(** Operations within a transaction keep the installer running. *)
Definition keeps_running (op : installer C X -> X -> option (Z * installer C X * X)) : Prop :=
  forall i x, running i -> exists st i' x', op i x = Some (st, i', x') /\ same_frame i i' /\ running i'.

Lemma noted i c' st : running i -> begun c' ->
  same_frame i (note_status (with_context i c') st) /\ running (note_status (with_context i c') st).
Proof.
  intros (Hl & Ha & _) Hc. destruct (note_status_frame (with_context i c') st) as (Hf & Ha' & Hc').
  split; [done|]. split; [apply (lawful_frame i); [by apply Hf|done]|]. by rewrite Ha', Hc'.
Qed.

Lemma open_keeps image : keeps_running (fun i x => installer_open i x image).
Proof.
  intros i x Hr. pose proof Hr as (Hl & _ & Hb). unfold installer_open.
  destruct (lw_open i Hl (in_context i) x image Hb) as (st & c' & x' & -> & Hc). eexists st, _, x'.
  split; [done|]. by apply noted.
Qed.

Lemma commit_keeps : keeps_running installer_commit.
Proof.
  intros i x Hr. pose proof Hr as (Hl & _ & Hb). unfold installer_commit.
  destruct (lw_commit i Hl (in_context i) x Hb) as (st & c' & x' & -> & Hc). eexists st, _, x'.
  split; [done|]. by apply noted.
Qed.

Lemma write_keeps data : keeps_running (fun i x => installer_write i x data).
Proof.
  intros i x Hr. pose proof Hr as (Hl & _ & Hb). unfold installer_write.
  destruct (lw_write i Hl (in_context i) x data Hb) as (st & c' & x' & -> & Hc). eexists st, _, x'.
  split; [done|]. by apply noted.
Qed.

Lemma finalize_ok i x : lawful i -> begun (in_context i) ->
  exists st i' x', installer_finalize i x = Some (st, i', x') /\ same_frame i i' /\ lawful i' /\
    is_active i' = false /\ begun (in_context i').
Proof.
  intros Hl Hb. unfold installer_finalize.
  destruct (lw_finalize i Hl (in_context i) x Hb) as (st & c' & x' & Heq & Hc). simpl. rewrite Heq. simpl.
  eexists st, _, x'. split; [done|]. split; [done|]. split; [|done]. by apply (lawful_frame i).
Qed.

Lemma abort_ok i x : lawful i -> begun (in_context i) ->
  exists i' x', installer_abort i x = Some (i', x') /\ same_frame i i' /\ lawful i' /\ is_active i' = false.
Proof.
  intros Hl Hb. unfold installer_abort.
  destruct (lw_abort i Hl (in_context i) x Hb) as (c' & x' & Heq). simpl. rewrite Heq. simpl.
  eexists _, x'. split; [done|]. split; [done|]. split; [|done]. by apply (lawful_frame i).
Qed.

(** The index does not depend on what operations change. *)
Lemma index_lists_insert h ix l p i i' :
  index_lists h ix l -> h !! p = Some i -> same_kind i i' -> index_lists (<[p := i']> h) ix l.
Proof.
  intros (Hr & Hf & ys & Hy & Hnd & Hle & Hs) Hp (_ & Hloc & _). split; [done|]. split.
  - eapply Forall_impl; [exact Hf|]. intros q [Hq [j Hj]]. split; [done|]. apply lookup_insert_is_Some'.
    right. by exists j.
  - exists ys. do 3 (split; [done|]). intros y. rewrite Hs. unfold serves. split; intros (q & j & Hq & Hj & <-).
    + destruct (decide (p = q)) as [->|Hne].
      * exists q, i'. rewrite lookup_insert_eq. split; [done|]. split; [done|]. congruence.
      * exists q, j. by rewrite lookup_insert_ne.
    + destruct (decide (p = q)) as [->|Hne].
      * rewrite lookup_insert_eq in Hj. injection Hj as <-. exists q, i. by split.
      * rewrite lookup_insert_ne in Hj by done. by exists q, j.
Qed.

Lemma index_find_insert h ix l t y p i i' :
  index_lists h ix l -> h !! p = Some i -> same_kind i i' ->
  installer_index_find (<[p := i']> h) ix t y = installer_index_find h ix t y.
Proof.
  intros Hl Hp Hk. rewrite (installer_find_ok _ _ _ _ _ Hl).
  rewrite (installer_find_ok _ _ _ _ _ (index_lists_insert _ _ _ _ _ _ Hl Hp Hk)). do 2 f_equal. clear Hl.
  induction l as [|q l IH]; [done|]. simpl. rewrite IH.
  assert (selects (<[p := i']> h) t y q = selects h t y q) as ->; [|done]. unfold selects.
  destruct (decide (p = q)) as [->|Hne]; [|by rewrite lookup_insert_ne].
  rewrite lookup_insert_eq, Hp. by destruct Hk as (_ & -> & ->).
Qed.

(** ** The list of active installers *)

Fixpoint chained h (p : Z) (ps : list Z) : Prop :=
  match ps with
  | [] => p = 0
  | q :: ps => p = q /\ p <> 0 /\ exists i, h !! p = Some i /\ chained h (next i) ps
  end.

Lemma chained_elem h p ps q : chained h p ps -> q ∈ ps -> exists i, h !! q = Some i.
Proof.
  revert p. induction ps as [|r ps IH]; intros p; simpl; [intros _ Hq; by apply not_elem_of_nil in Hq|].
  intros (-> & _ & i & Hi & Hc) [->|Hq]%elem_of_cons; [by exists i|by eapply IH].
Qed.

Lemma chained_insert h p ps q i i' :
  chained h p ps -> h !! q = Some i -> next i' = next i -> chained (<[q := i']> h) p ps.
Proof.
  intros Hc Hq Hn. revert p Hc. induction ps as [|r ps IH]; intros p; simpl; [done|].
  intros (-> & Hp & j & Hj & Hc). split; [done|]. split; [done|]. destruct (decide (q = r)) as [->|Hne].
  - exists i'. rewrite lookup_insert_eq. split; [done|]. rewrite Hn. apply IH. congruence.
  - exists j. rewrite lookup_insert_ne by done. auto.
Qed.

Lemma chained_insert_other h p ps q i' : chained h p ps -> q ∉ ps -> chained (<[q := i']> h) p ps.
Proof.
  intros Hc Hq. revert p Hc. induction ps as [|r ps IH]; intros p; simpl; [done|].
  apply not_elem_of_cons in Hq as [Hne Hq]. intros (-> & Hp & j & Hj & Hc). split; [done|]. split; [done|].
  exists j. rewrite lookup_insert_ne by done. auto.
Qed.

Lemma chained_size h p ps : chained h p ps -> NoDup ps -> (length ps <= size h)%nat.
Proof.
  intros Hc Hnd. rewrite <- size_dom. rewrite <- (size_list_to_set (C := gset Z) ps) by done.
  apply subseteq_size. intros q Hq%elem_of_list_to_set. apply elem_of_dom.
  destruct (chained_elem _ _ _ _ Hc Hq) as [i ->]. done.
Qed.

End Installers.

(** ** The abstract store: which bank is what *)

Record banks := Banks {
  b_boot : Z;
  b_update : Z;
  (** the indices in the metadata *)
  b_active : Z;
  b_previous : Z;
  (** the banks marked as holding content *)
  b_content : Z -> bool;
  (** installers may be active *)
  b_busy : bool
}.

Implicit Types b : banks.

Definition set_active b (active previous : Z) : banks :=
  Banks (b_boot b) (b_update b) active previous (b_content b) (b_busy b).
Definition set_content b (k : Z) (v : bool) : banks :=
  Banks (b_boot b) (b_update b) (b_active b) (b_previous b) (fun j => if j =? k then v else b_content b j) (b_busy b).
Definition set_update b (k : Z) : banks :=
  Banks (b_boot b) k (b_active b) (b_previous b) (b_content b) (b_busy b).
Definition set_busy b (v : bool) : banks :=
  Banks (b_boot b) (b_update b) (b_active b) (b_previous b) (b_content b) v.

Definition other_bank (k : Z) : Z := 1 - k.

Definition begin_banks b : banks := set_active (set_content b (b_update b) false) (b_boot b) (b_boot b).
Definition finish_banks b : banks := set_active (set_content b (b_update b) true) (b_update b) (b_boot b).
Definition revert_banks b : banks :=
  let '(a, p) := if b_active b =? b_boot b then (b_previous b, b_boot b) else (b_boot b, b_active b) in
  set_active (set_content (set_update b (other_bank a)) a true) a p.

Inductive store_op :=
  | OBegin
  | OCancel
  | OFinalize
  | OSelect (image : image_info)
  | OWrite (p : Z) (data : bytes)
  | OCommit (p : Z) (image : image_info) (accepted : bool)
  | ONotify (image : image_info)
  | OCommitToUpdate
  | ORevert
  | OExport (uuid : bytes).

(** What an operation that answers [st] does to the banks.  Only a failing
    finalize leaves a choice: it fails before or after the metadata is updated. *)
Inductive banks_step b : store_op -> Z -> banks -> Prop :=
  | step_begin st : banks_step b OBegin st (begin_banks b)
  | step_cancel st : banks_step b OCancel st (set_busy b false)
  | step_finalize st : banks_step b OFinalize st (set_busy (finish_banks b) false)
  | step_finalize_failed st : st <> FWU_STATUS_SUCCESS -> banks_step b OFinalize st (set_busy b false)
  | step_select image st : banks_step b (OSelect image) st (set_busy b true)
  | step_write p data st : banks_step b (OWrite p data) st b
  | step_commit p image acc st : banks_step b (OCommit p image acc) st b
  | step_notify image st : banks_step b (ONotify image) st (set_active b (b_boot b) (b_update b))
  | step_commit_to_update st : banks_step b OCommitToUpdate st b
  | step_revert st : banks_step b ORevert st (revert_banks b)
  | step_export uuid st : banks_step b (OExport uuid) st b.

Inductive banks_run b : list store_op -> list Z -> banks -> Prop :=
  | run_nil : banks_run b [] [] b
  | run_cons o os st sts b1 b2 :
      banks_step b o st b1 -> banks_run b1 os sts b2 -> banks_run b (o :: os) (st :: sts) b2.

Definition busy_after (busy : bool) (o : store_op) : bool :=
  match o with OSelect _ => true | OCancel | OFinalize => false | _ => busy end.

(** No installation begins while installers are active. *)
Fixpoint ordered (busy : bool) (os : list store_op) : Prop :=
  match os with
  | [] => True
  | o :: os => (o = OBegin -> busy = false) /\ ordered (busy_after busy o) os
  end.

(** Images have an index of the tracker, installers exist. *)
Definition image_ok (image : image_info) : Prop := 0 <= image_index image < FWU_MAX_FW_DIRECTORY_ENTRIES.

Definition store_op_ok (installers : gset Z) (o : store_op) : Prop :=
  match o with
  | OWrite p _ => p ∈ installers
  | OCommit p image _ => p ∈ installers /\ image_ok image
  | ONotify image => image_ok image
  | OExport uuid => len uuid = 16
  | _ => True
  end.

Section Refinement.
Context {C X : Type} (io : io_storage X) (ms : metadata_serializer) {Hms : SerializerLaws ms}.
Context (impl : crc32_impl) (crc32b : Z -> Z -> Z) (malloc : Z -> option bytes).
Context (index : installer_index) (cache_address : Z) (begun : C -> Prop).
Implicit Types (f : fw_store C X) (h : gmap Z (installer C X)).

(** One operation; replies other than statuses are encoded as numbers. *)
Definition store_step f (o : store_op) : option (Z * fw_store C X) :=
  match o with
  | OBegin => fw_store_begin_install io ms impl crc32b f
  | OCancel => f ← fw_store_cancel_install f; Some (0, f)
  | OFinalize => fw_store_finalize_install io ms impl crc32b index f
  | OSelect image => '(st, _, f) ← fw_store_select_installer index f image; Some (st, f)
  | OWrite p data => fw_store_write_image f p data
  | OCommit p image accepted => fw_store_commit_image f p image accepted
  | ONotify image =>
      '(all, f) ← fw_store_notify_accepted io ms impl crc32b f image; Some (if all : bool then 1 else 0, f)
  | OCommitToUpdate => Some (fw_store_commit_to_update f)
  | ORevert => fw_store_revert_to_previous io ms impl crc32b f
  | OExport uuid => '(_, f) ← fw_store_export cache_address f uuid; Some (0, f)
  end.

Fixpoint store_run f (os : list store_op) : option (list Z * fw_store C X) :=
  match os with
  | [] => Some ([], f)
  | o :: os => '(st, f) ← store_step f o; '(sts, f) ← store_run f os; Some (st :: sts, f)
  end.

(** *** The invariant *)

(** Every installer is lawful, and active only if it has begun. *)
Definition heap_ok h : Prop :=
  (forall p i, h !! p = Some i -> lawful begun i /\ (is_active i = true -> begun (in_context i))) /\
  exists l, index_lists h index l.

(** The list of active installers. *)
Definition listed h (p : Z) (ps : list Z) : Prop :=
  chained h p ps /\ NoDup ps /\ forall q i, q ∈ ps -> h !! q = Some i -> begun (in_context i).

Record core_ok f b (d : fw_directory) : Prop := {
  co_directory : fs_directory f = Some d;
  co_directory_ok : directory_ok d;
  co_images : Forall image_ok (images d);
  co_tracker : tracker_ok (fs_tracker f);
  co_boot : fs_boot_index f = b_boot b;
  co_update : fs_update_index f = b_update b;
  co_boot_ok : bank_index_ok (b_boot b);
  co_update_ok : bank_index_ok (b_update b);
  co_content k : bank_index_ok k -> content (fs_tracker f) k = b_content b k;
  co_manager : manager_safe io ms (fs_manager f);
  co_heap : heap_ok (fs_installers f)
}.

(** The metadata in the cache lies in it and names the banks. *)
Definition cached f : Prop :=
  is_valid (fs_manager f) = true /\ 0 <= metadata_len (fs_manager f) <= ms_max_size ms.

Definition says f b : Prop :=
  cached f /\ bank_index_ok (b_active b) /\ bank_index_ok (b_previous b) /\
  metadata_manager_get_active_indices ms (fs_manager f) 0 0 = Some (FWU_STATUS_SUCCESS, b_active b, b_previous b).

Definition banked_ok f b : Prop :=
  exists d ps, core_ok f b d /\ says f b /\ listed (fs_installers f) (active_installers f) ps /\
    (forall q i, q ∈ ps -> fs_installers f !! q = Some i -> is_active i = true) /\
    (b_busy b = false -> ps = []).

Lemma fits_bank k : bank_index_ok k -> fits 32 k.
Proof. by intros [-> | ->]. Qed.

Lemma next_is_other k : bank_index_ok k -> bank_scheme_next_index k = other_bank k.
Proof. by intros [-> | ->]. Qed.

Lemma other_ok k : bank_index_ok k -> bank_index_ok (other_bank k).
Proof. intros [-> | ->]; [by right|by left]. Qed.

(** *** Metadata updates *)

Lemma update_metadata_ok f b d a p :
  core_ok f b d -> bank_index_ok a -> bank_index_ok p ->
  exists st f', update_metadata io ms impl crc32b f a p d = Some (st, f') /\
    core_ok f' (set_active b a p) d /\ says f' (set_active b a p) /\
    fs_installers f' = fs_installers f /\ active_installers f' = active_installers f.
Proof.
  intros Hc Ha Hp. pose proof Hc as []. unfold update_metadata.
  destruct (manager_update_returns io ms impl crc32b (fs_manager f) (fs_storage f) a p d (fs_tracker f))
    as (st & m' & x' & -> & Hm & Hv & Hn & Hdec & _); [done|done|done|by apply fits_bank|by apply fits_bank|].
  eexists st, _. split; [done|]. split; [by split|]. split; [|done]. split; [|done].
  split; [done|]. simpl. rewrite Hn. pose proof (sl_size d co_directory_ok0). lia.
Qed.

Lemma with_tracker_ok f b d t k v :
  core_ok f b d -> tracker_ok t -> 
  (forall j, bank_index_ok j -> content t j = if j =? k then v else content (fs_tracker f) j) ->
  core_ok (with_tracker f t) (set_content b k v) d.
Proof.
  intros [] Ht Hk. split; try done. intros j Hj. simpl. rewrite Hk by done. destruct (j =? k); [done|].
  by apply co_content0.
Qed.

Lemma with_tracker_same f b d t :
  core_ok f b d -> tracker_ok t -> (forall j, bank_index_ok j -> content t j = content (fs_tracker f) j) ->
  core_ok (with_tracker f t) b d.
Proof. intros [] Ht Hk. split; try done. intros j Hj. simpl. rewrite Hk by done. by apply co_content0. Qed.

Lemma begin_install_ok f b :
  banked_ok f b -> b_busy b = false ->
  exists st f', store_step f OBegin = Some (st, f') /\ banked_ok f' (begin_banks b) /\
    dom (fs_installers f') = dom (fs_installers f).
Proof.
  intros (d & ps & Hc & _ & Hl & Hact & Hbusy) Hb. specialize (Hbusy Hb) as ->. pose proof Hl as (Hz & _).
  simpl in Hz. cbn [store_step]. unfold fw_store_begin_install. rewrite Hz. simpl.
  pose proof Hc as []. rewrite co_update0.
  destruct (set_no_content_ok (fs_tracker f) (b_update b)) as (t & -> & Ht & _ & Hk); [done|done|]. simpl.
  rewrite co_directory0. simpl. rewrite co_boot0.
  destruct (update_metadata_ok (with_tracker f t) (set_content b (b_update b) false) d (b_boot b) (b_boot b))
    as (st & f' & -> & Hc' & Hs' & Hh & Hp); [|done|done|].
  { apply with_tracker_ok; [done|done|]. intros j Hj. rewrite Hk by done.
    destruct (j =? b_update b); simpl; by rewrite ?andb_false_r, ?andb_true_r. }
  exists st, f'. split; [done|]. simpl in Hh, Hp. rewrite Hh. split; [|done].
  exists d, []. rewrite Hh, Hp. by split.
Qed.

Lemma notify_ok f b image :
  banked_ok f b -> image_ok image ->
  exists st f', store_step f (ONotify image) = Some (st, f') /\
    banked_ok f' (set_active b (b_boot b) (b_update b)) /\ dom (fs_installers f') = dom (fs_installers f).
Proof.
  intros (d & ps & Hc & _ & Hl) Hi. pose proof Hc as []. cbn [store_step]. unfold fw_store_notify_accepted.
  rewrite co_directory0. simpl. rewrite co_boot0.
  destruct (tracker_accept_ok (fs_tracker f) (b_boot b) (image_index image)) as (t & -> & Ht & _ & Hk);
    [done|done|done|]. simpl. rewrite co_update0.
  destruct (update_metadata_ok (with_tracker f t) b d (b_boot b) (b_update b))
    as (st & f' & -> & Hc' & Hs' & Hh & Hp); [by apply with_tracker_same|done|done|]. simpl. simpl in Hh, Hp.
  assert (banked_ok f' (set_active b (b_boot b) (b_update b))) as Hok.
  { exists d, ps. rewrite Hh, Hp. by split. }
  destruct (st =? FWU_STATUS_SUCCESS); [|simpl; eexists _, f'; split; [done|]; by rewrite Hh].
  pose proof Hc' as []. rewrite is_all_accepted_ok; [|done| |].
  - simpl. eexists _, f'. split; [done|]. by rewrite Hh.
  - rewrite co_boot1. done.
  - destruct co_directory_ok0 as (_ & Hn & _). exact Hn.
Qed.

Lemma revert_ok f b :
  banked_ok f b ->
  exists st f', store_step f ORevert = Some (st, f') /\ banked_ok f' (revert_banks b) /\
    dom (fs_installers f') = dom (fs_installers f).
Proof.
  intros (d & ps & Hc & (Hv & Ha & Hp & Hget) & Hl). pose proof Hc as [].
  cbn [store_step]. unfold fw_store_revert_to_previous. rewrite Hget. simpl. rewrite co_boot0. unfold revert_banks.
  set (ap := if b_active b =? b_boot b then (b_previous b, b_boot b) else (b_boot b, b_active b)).
  assert (bank_index_ok (fst ap) /\ bank_index_ok (snd ap)) as [Hap1 Hap2]
    by (unfold ap; by destruct (b_active b =? b_boot b)).
  clearbody ap. destruct ap as [a p]. simpl in Hap1, Hap2.
  destruct (set_accepted_content_ok (fs_tracker f) a) as (t & Heq & Ht & _ & Hk); [done|done|]. simpl. rewrite Heq.
  simpl. rewrite co_directory0. simpl. rewrite next_is_other by done. set (f1 := with_tracker _ t).
  destruct (update_metadata_ok f1 (set_content (set_update b (other_bank a)) a true) d a p)
    as (st & f' & -> & Hc' & Hs' & Hh & Hpp); [|done|done|].
  { apply with_tracker_ok; [split; try done; by apply other_ok|done|]. intros j Hj. rewrite Hk by done.
    destruct (j =? a); by rewrite ?orb_true_r, ?orb_false_r. }
  exists st, f'. split; [done|]. simpl in Hh, Hpp. rewrite Hh. split; [|done].
  exists d, ps. rewrite Hh, Hpp. by split.
Qed.

Lemma metadata_uuid_parses :
  exists u, uuid_guid_octets_from_canonical (fill 0 16) (fill 0 16) FWU_METADATA_CANONICAL_UUID = Some u /\ len u = 16.
Proof. eexists. split; [vm_compute; reflexivity|reflexivity]. Qed.

Lemma export_ok f b uuid :
  banked_ok f b -> len uuid = 16 ->
  exists r f', fw_store_export cache_address f uuid = Some (r, f') /\ banked_ok f' b /\
    fs_installers f' = fs_installers f /\
    (forall st a n, r = Some (st, a, n) -> st = FWU_STATUS_SUCCESS /\ a = cache_address /\
       n = metadata_len (fs_manager f) /\ metadata_cache (fs_manager f') = metadata_cache (fs_manager f)).
Proof.
  intros (d & ps & Hc & (Hv & Ha & Hp & Hget) & Hl) Hu. unfold fw_store_export.
  destruct metadata_uuid_parses as (u & -> & Hlu). simpl. unfold uuid_is_equal, UUID_OCTETS_LEN.
  rewrite !load_ok by lia. simpl. destruct (bytes_eqb _ _).
  - pose proof Hv as [Hval _]. unfold metadata_manager_fetch. rewrite Hval. eexists _, _. split; [done|]. split; [|split; [done|]].
    + exists d, ps. split; [|split; [|done]].
      * pose proof Hc as []. by split.
      * split; [done|]. split; [done|]. split; [done|]. rewrite <- Hget. unfold metadata_manager_get_active_indices.
        simpl. by rewrite Hval.
    + intros st a n [= <- <- <-]. done.
  - eexists _, f. split; [done|]. split; [by exists d, ps|]. split; [done|]. done.
Qed.

(** *** Operations of installers *)

(** The store within an operation: its list may hold installers that are done. *)
Definition inner_ok f b d ps : Prop :=
  core_ok f b d /\ says f b /\ listed (fs_installers f) (active_installers f) ps.

Lemma heap_ok_insert h p i i' :
  heap_ok h -> h !! p = Some i -> same_kind i i' -> lawful begun i' ->
  (is_active i' = true -> begun (in_context i')) -> heap_ok (<[p := i']> h).
Proof.
  intros [Hall [l Hlist]] Hp Hk Hl Hb. split; [|exists l; by eapply index_lists_insert].
  intros q j. destruct (decide (p = q)) as [->|Hne].
  - rewrite lookup_insert_eq. by intros [= <-].
  - rewrite lookup_insert_ne by done. apply Hall.
Qed.

Lemma listed_insert h p ps q i i' :
  listed h p ps -> h !! q = Some i -> same_frame i i' -> begun (in_context i') -> listed (<[q := i']> h) p ps.
Proof.
  intros (Hc & Hnd & Hb) Hq [_ Hn] Hb'. split; [by eapply chained_insert|]. split; [done|].
  intros r j Hr. destruct (decide (q = r)) as [->|Hne].
  - rewrite lookup_insert_eq. by intros [= <-].
  - rewrite lookup_insert_ne by done. by apply Hb.
Qed.

Lemma inner_insert f b d ps p i i' x' :
  inner_ok f b d ps -> fs_installers f !! p = Some i -> same_frame i i' -> lawful begun i' ->
  begun (in_context i') -> inner_ok (with_installers f (<[p := i']> (fs_installers f)) x') b d ps.
Proof.
  intros (Hc & Hs & Hl) Hp Hf Hlw Hb. split; [|split; [done|by eapply listed_insert]].
  pose proof Hc as []. split; try done. eapply heap_ok_insert; [done|done|apply Hf|done|done].
Qed.

Lemma dom_insert_same h p i i' : h !! p = Some i -> dom (<[p := i']> h) = dom h.
Proof. intros Hp. apply dom_insert_lookup_L. by exists i. Qed.

Lemma at_installer_eq f p i op st i' x' :
  fs_installers f !! p = Some i -> op i (fs_storage f) = Some (st, i', x') ->
  at_installer f p op = Some (st, with_installers f (<[p := i']> (fs_installers f)) x').
Proof. intros Hp Ho. unfold at_installer. rewrite Hp. simpl. by rewrite Ho. Qed.

(** An installer that runs may take the place of one of its kind. *)
Lemma banked_insert f b p i i' x' :
  banked_ok f b -> fs_installers f !! p = Some i -> same_frame i i' -> running begun i' ->
  banked_ok (with_installers f (<[p := i']> (fs_installers f)) x') b.
Proof.
  intros (d & ps & Hc & Hs & Hl & Hact & Hbusy) Hp Hf (Hlw' & Ha' & Hb'). exists d, ps.
  destruct (inner_insert f b d ps p i i' x') as (H1 & H2 & H3); [by split|done..|].
  split; [done|]. split; [done|]. split; [done|]. split; [|done]. simpl. intros q j Hq.
  destruct (decide (p = q)) as [->|Hne]; [rewrite lookup_insert_eq; by intros [= <-]|].
  rewrite lookup_insert_ne by done. by apply Hact.
Qed.

(** An operation of a running installer keeps the store. *)
Lemma running_op_ok f b p i op :
  banked_ok f b -> fs_installers f !! p = Some i -> is_active i = true -> keeps_running begun op ->
  exists st f', at_installer f p op = Some (st, f') /\ banked_ok f' b /\
    dom (fs_installers f') = dom (fs_installers f).
Proof.
  intros Hok Hp Ha Hop. pose proof Hok as (d & ps & Hc & _). unfold at_installer. rewrite Hp. simpl.
  destruct (proj1 (co_heap _ _ _ Hc) p i Hp) as [Hlw Hbg].
  destruct (Hop i (fs_storage f)) as (st & i' & x' & -> & Hf & Hr); [by split; auto|]. simpl.
  eexists st, _. split; [done|]. split; [by eapply banked_insert|by eapply dom_insert_same].
Qed.

Lemma write_image_ok f b p data :
  banked_ok f b -> p ∈ dom (fs_installers f) ->
  exists st f', store_step f (OWrite p data) = Some (st, f') /\ banked_ok f' b /\
    dom (fs_installers f') = dom (fs_installers f).
Proof.
  intros Hok [i Hi]%elem_of_dom. cbn [store_step]. unfold fw_store_write_image. rewrite Hi. simpl.
  destruct (installer_is_active i) eqn:Ha; simpl; [|by eexists _, f].
  eapply running_op_ok; [done|done|done|apply write_keeps].
Qed.

Lemma accept_in_tracker f b k j :
  banked_ok f b -> bank_index_ok j -> 0 <= k < FWU_MAX_FW_DIRECTORY_ENTRIES ->
  exists t, bank_tracker_accept (fs_tracker f) j k = Some t /\ banked_ok (with_tracker f t) b.
Proof.
  intros (d & ps & Hc & Hrest) Hj Hk.
  destruct (tracker_accept_ok (fs_tracker f) j k) as (t & -> & Ht & _ & Hcon); [apply Hc|done|done|].
  exists t. split; [done|]. exists d, ps. split; [by apply with_tracker_same|]. done.
Qed.

Lemma commit_image_ok f b p image acc :
  banked_ok f b -> p ∈ dom (fs_installers f) -> image_ok image ->
  exists st f', store_step f (OCommit p image acc) = Some (st, f') /\ banked_ok f' b /\
    dom (fs_installers f') = dom (fs_installers f).
Proof.
  intros Hok [i Hi]%elem_of_dom Him. cbn [store_step]. unfold fw_store_commit_image. rewrite Hi. simpl.
  destruct (installer_is_active i) eqn:Ha; simpl; [|by eexists _, f].
  destruct (running_op_ok f b p i installer_commit Hok Hi Ha) as (st & f' & -> & Hok' & Hd);
    [apply commit_keeps|]. simpl.
  destruct ((st =? FWU_STATUS_SUCCESS) && acc); [|by eexists _, f'].
  destruct (accept_in_tracker f' b (image_index image) (fs_update_index f') Hok') as (t & -> & Hok2);
    [destruct Hok' as (d' & ps' & Hc' & _); rewrite (co_update _ _ _ Hc'); apply Hc'|done|].
  simpl. eexists _, _. split; [done|]. by split.
Qed.

(** A search of the index finds NULL or an installer of the location. *)
Lemma find_in_heap h t y :
  heap_ok h ->
  exists p, installer_index_find h index t y = Some p /\
    (p <> 0 -> exists i, h !! p = Some i /\ in_location_id i = y).
Proof.
  intros [_ (l & Hl)]. rewrite (installer_find_ok _ _ _ _ _ Hl). eexists. split; [done|].
  destruct (find (selects h t y) l) as [p|] eqn:Hf; [|done]. simpl. intros _.
  apply List.find_some in Hf as [_ Hs]. unfold selects in Hs. destruct (h !! p) as [i|]; [|done].
  exists i. split; [done|]. lia.
Qed.

Lemma set_busy_ok f b : banked_ok f b -> banked_ok f (set_busy b true).
Proof. intros (d & ps & Hc & Hs & Hl & Hact & _). exists d, ps. pose proof Hc as []. split; [by split|]. by split. Qed.

(** The installer joins the list unless its transaction cannot begin. *)
Lemma activate_ok f b p i :
  banked_ok f b -> p <> 0 -> fs_installers f !! p = Some i -> is_active i = false ->
  exists st f' i', activate_installer f p (in_location_id i) = Some (st, f') /\
    banked_ok f' (set_busy b true) /\ dom (fs_installers f') = dom (fs_installers f) /\
    fs_installers f' !! p = Some i' /\ is_active i' = true.
Proof.
  intros Hok Hp0 Hp Hina. pose proof Hok as (d & ps & Hc & Hs & Hl & Hact & _).
  unfold activate_installer, at_installer. rewrite Hp. simpl.
  destruct (proj1 (co_heap _ _ _ Hc) p i Hp) as [Hlw _]. unfold current_volume, update_volume.
  rewrite (co_boot _ _ _ Hc), (co_update _ _ _ Hc).
  destruct (begin_ok begun i (fs_storage f) (b_boot b) (b_update b) Hlw) as (st & i1 & x1 & -> & Hf1 & Hl1 & Ha1 & Hb1);
    [apply Hc|apply Hc|]. simpl.
  assert (p ∉ ps) as Hnin by (intros Hin; rewrite (Hact p i Hin Hp) in Hina; done).
  destruct (Z.eqb_spec st FWU_STATUS_SUCCESS) as [->|Hst].
  2:{ eexists st, _, i1. split; [done|]. split; [|split; [by eapply dom_insert_same|by simpl; rewrite lookup_insert_eq]].
      apply set_busy_ok. by eapply banked_insert. }
  rewrite lookup_insert_eq. simpl. rewrite insert_insert_eq.
  set (i2 := with_next_installer i1 (active_installers f)). eexists _, _, i2. split; [done|]. simpl.
  destruct Hl as (Hch & Hnd & Hbg).
  assert (same_kind i i2) as Hk by apply Hf1.
  assert (lawful begun i2) as Hl2 by (by apply (lawful_frame begun i)).
  split; [|split; [by eapply dom_insert_same|by rewrite lookup_insert_eq]].
  exists d, (p :: ps). split; [pose proof Hc as []; split; try done; by eapply heap_ok_insert|]. split; [done|]. simpl.
  split; [split; [|split; [by constructor|]]|].
  - simpl. split; [done|]. split; [done|]. exists i2. rewrite lookup_insert_eq. split; [done|].
    by apply chained_insert_other.
  - intros q j Hq. destruct (decide (p = q)) as [->|Hne]; [rewrite lookup_insert_eq; by intros [= <-]|].
    rewrite lookup_insert_ne by done. apply elem_of_cons in Hq as [->|Hq]; [done|]. by apply Hbg.
  - split; [|done]. intros q j Hq.
    destruct (decide (p = q)) as [->|Hne]; [rewrite lookup_insert_eq; by intros [= <-]|].
    rewrite lookup_insert_ne by done. apply elem_of_cons in Hq as [->|Hq]; [done|]. by apply Hact.
Qed.

Lemma select_ok f b image :
  banked_ok f b ->
  exists st p f', fw_store_select_installer index f image = Some (st, p, f') /\ banked_ok f' (set_busy b true) /\
    dom (fs_installers f') = dom (fs_installers f) /\ (st = FWU_STATUS_SUCCESS -> p ∈ dom (fs_installers f')).
Proof.
  intros Hok. unfold fw_store_select_installer. pose proof Hok as (d & ps & Hc & _).
  destruct (find_in_heap (fs_installers f) (image_install_type image) (location_id image)) as (p & -> & Hp);
    [apply Hc|]. simpl. destruct (Z.eqb_spec p 0) as [->|Hp0]; simpl.
  { eexists _, _, f. split; [done|]. split; [by apply set_busy_ok|]. done. }
  destruct (Hp Hp0) as (i & Hi & <-). rewrite Hi. simpl.
  assert (exists ready st0 f1 i1, (if installer_is_active i then Some (true, FWU_STATUS_UNKNOWN, f)
       else '(status, f) ← activate_installer f p (in_location_id i); Some (status =? FWU_STATUS_SUCCESS, status, f))
     = Some (ready, st0, f1) /\ (ready = false -> st0 <> FWU_STATUS_SUCCESS) /\ banked_ok f1 (set_busy b true) /\ dom (fs_installers f1) = dom (fs_installers f) /\
     fs_installers f1 !! p = Some i1 /\ is_active i1 = true) as (ready & st0 & f1 & i1 & -> & Hst0 & Hok1 & Hd1 & Hi1 & Ha1).
  { destruct (installer_is_active i) eqn:Ha.
    - exists true, FWU_STATUS_UNKNOWN, f, i. split; [done|]. split; [done|]. split; [by apply set_busy_ok|]. done.
    - destruct (activate_ok f b p i Hok Hp0 Hi Ha) as (st & f1 & i1 & -> & Hok1 & Hd1 & Hi1 & Ha1).
      exists (st =? FWU_STATUS_SUCCESS), st, f1, i1. split; [done|]. split; [lia|]. by split. }
  simpl. destruct ready; [|by eexists st0, 0, f1; specialize (Hst0 eq_refl)]. destruct (running_op_ok f1 _ p i1 (fun i x => installer_open i x image) Hok1 Hi1 Ha1)
    as (st & f2 & -> & Hok2 & Hd2); [apply open_keeps|]. simpl.
  eexists st, _, f2. split; [done|]. split; [done|]. split; [congruence|].
  intros ->. simpl. rewrite Hd2. apply elem_of_dom. by exists i1.
Qed.

(** *** Leaving the transaction *)

(** The first installer leaves the list, done or aborted. *)
Lemma inner_pop f b d p ps i i' x' :
  inner_ok f b d (p :: ps) -> fs_installers f !! p = Some i -> same_frame i i' -> lawful begun i' ->
  is_active i' = false ->
  inner_ok (with_installers (with_active_installers f (next i)) (<[p := i']> (fs_installers f)) x') b d ps.
Proof.
  intros (Hc & Hs & (Heq & Hp0 & j & Hj & Hch) & Hnd & Hb) Hp [Hk Hn] Hlw Hina.
  apply NoDup_cons in Hnd as [Hnin Hnd]. rewrite Heq, Hp in Hj. injection Hj as <-.
  split; [pose proof Hc as []; split; try done; eapply heap_ok_insert; [done|done|done|done|congruence]|].
  split; [done|]. split; [by apply chained_insert_other|]. split; [done|]. simpl. intros q k Hq.
  rewrite lookup_insert_ne by (by intros ->). apply Hb. by right.
Qed.

Lemma inner_head f b d ps :
  inner_ok f b d ps -> active_installers f <> 0 ->
  exists ps' i, ps = active_installers f :: ps' /\ fs_installers f !! active_installers f = Some i /\
    lawful begun i /\ begun (in_context i).
Proof.
  intros (Hc & _ & Hch & _ & Hb) Hne. destruct ps as [|p ps]; [done|]. simpl in Hch.
  destruct Hch as (-> & _ & i & Hi & _). exists ps, i. split; [done|]. split; [done|].
  split; [by apply (proj1 (co_heap _ _ _ Hc) p i)|]. apply (Hb p i); [by left|done].
Qed.

Lemma inner_done f b d ps : inner_ok f b d ps -> active_installers f = 0 -> ps = [].
Proof.
  intros (_ & _ & Hch & _) H0. destruct ps as [|p ps]; [done|]. simpl in Hch.
  destruct Hch as (<- & Hne & _). done.
Qed.

(** With an empty list the store is idle. *)
Lemma inner_idle f b d : inner_ok f b d [] -> banked_ok f (set_busy b false).
Proof.
  intros (Hc & Hs & Hl). exists d, []. pose proof Hc as []. split; [by split|]. split; [done|].
  split; [done|]. split; [|done]. intros q i Hq. by apply not_elem_of_nil in Hq.
Qed.

Lemma inner_fuel f b d ps : inner_ok f b d ps -> (length ps <= size (fs_installers f))%nat.
Proof. intros (_ & _ & Hch & Hnd & _). by eapply chained_size. Qed.

Lemma cancel_installers_ok f b d ps fuel :
  inner_ok f b d ps -> (length ps <= fuel)%nat ->
  exists f', cancel_loop f fuel = Some f' /\ inner_ok f' b d [] /\ dom (fs_installers f') = dom (fs_installers f).
Proof.
  revert f ps. induction fuel as [|fuel IH]; intros f ps Hi Hf; cbn [cancel_loop];
    (destruct (Z.eqb_spec (active_installers f) 0) as [H0|H0];
     [exists f; by rewrite (inner_done f b d ps Hi H0) in Hi|]);
    destruct (inner_head f b d ps Hi H0) as (ps' & i & -> & Hp & Hlw & Hb); simpl in Hf; [lia|].
  rewrite Hp. cbn [mbind option_bind]. simpl fs_storage.
  destruct (abort_ok begun i (fs_storage f) Hlw Hb) as (i' & x' & -> & Hfr & Hlw' & Hina). cbn [mbind option_bind].
  destruct (IH _ ps' (inner_pop f b d _ ps' i i' x' Hi Hp Hfr Hlw' Hina)) as (f' & Hrun & Hi' & Hd); [lia|].
  exists f'. split; [exact Hrun|]. split; [done|]. rewrite Hd. simpl. by eapply dom_insert_same.
Qed.

Lemma finalize_loop_ok f b d ps fuel st err :
  inner_ok f b d ps -> (length ps <= fuel)%nat ->
  exists st' err' f', finalize_loop f fuel st err = Some (st', err', f') /\ inner_ok f' b d [] /\
    dom (fs_installers f') = dom (fs_installers f).
Proof.
  revert f ps st err. induction fuel as [|fuel IH]; intros f ps st err Hi Hf; cbn [finalize_loop];
    (destruct (Z.eqb_spec (active_installers f) 0) as [H0|H0];
     [eexists st, err, f; by rewrite (inner_done f b d ps Hi H0) in Hi|]);
    destruct (inner_head f b d ps Hi H0) as (ps' & i & -> & Hp & Hlw & Hb); simpl in Hf; [lia|].
  rewrite Hp. cbn [mbind option_bind]. simpl fs_storage. destruct err; cbn [negb].
  - destruct (abort_ok begun i (fs_storage f) Hlw Hb) as (i' & x' & -> & Hfr & Hlw' & Hina). cbn [mbind option_bind].
    destruct (IH _ ps' st true (inner_pop f b d _ ps' i i' x' Hi Hp Hfr Hlw' Hina)) as (st' & err' & f' & Hrun & Hi' & Hd);
      [lia|]. eexists _, _, f'. split; [exact Hrun|]. split; [done|]. rewrite Hd. by eapply dom_insert_same.
  - destruct (finalize_ok begun i (fs_storage f) Hlw Hb) as (st1 & i' & x' & -> & Hfr & Hlw' & Hina & _).
    cbn [mbind option_bind].
    destruct (IH _ ps' st1 (negb (st1 =? FWU_STATUS_SUCCESS)) (inner_pop f b d _ ps' i i' x' Hi Hp Hfr Hlw' Hina))
      as (st' & err' & f' & Hrun & Hi' & Hd); [lia|].
    eexists _, _, f'. split; [exact Hrun|]. split; [done|]. rewrite Hd. by eapply dom_insert_same.
Qed.

Lemma store_inner f b : banked_ok f b -> exists d ps, inner_ok f b d ps.
Proof. intros (d & ps & Hc & Hs & Hl & _). by exists d, ps. Qed.

Lemma cancel_ok f b :
  banked_ok f b ->
  exists st f', store_step f OCancel = Some (st, f') /\ banked_ok f' (set_busy b false) /\
    dom (fs_installers f') = dom (fs_installers f).
Proof.
  intros (d & ps & Hi)%store_inner. cbn [store_step]. unfold fw_store_cancel_install.
  destruct (cancel_installers_ok f b d ps _ Hi (inner_fuel _ _ _ _ Hi)) as (f' & -> & Hi' & Hd).
  eexists 0, f'. split; [done|]. split; [|done]. by eapply inner_idle.
Qed.

(** *** Finalizing *)

Lemma served_loop_ok h y p ps fuel :
  chained h p ps -> (length ps <= fuel)%nat -> exists r, served_loop h y fuel p = Some r.
Proof.
  revert p ps. induction fuel as [|fuel IH]; intros p ps Hc Hf; cbn [served_loop];
    (destruct (Z.eqb_spec p 0); [by eexists|]); (destruct ps as [|q ps]; [done|]);
    destruct Hc as (-> & _ & i & Hi & Hc); simpl in Hf; [lia|]. rewrite Hi. cbn [mbind option_bind].
  destruct (_ && _); [by eexists|]. eapply IH; [done|]. lia.
Qed.

Lemma copy_accepted_loop_ok f b d ps y fuel k :
  inner_ok f b d ps -> 0 <= k -> (Z.to_nat (num_images d - k) < fuel)%nat ->
  exists f', copy_accepted_loop f d y fuel k = Some f' /\ inner_ok f' b d ps /\
    fs_installers f' = fs_installers f.
Proof.
  revert f k. induction fuel as [|fuel IH]; intros f k Hi Hk Hf; [lia|]. cbn [copy_accepted_loop].
  pose proof Hi as (Hc & Hs & Hl). pose proof Hc as [].
  destruct (Z.lt_ge_cases k (num_images d)) as [Hlt|Hge].
  - destruct (get_image d k) as (image & -> & Hn & _); [done|lia|]. cbn [mbind option_bind].
    assert (image_ok image) as Him.
    { unfold nthZ in Hn. destruct (0 <=? k); [|done]. by eapply Forall_lookup_1. }
    destruct (location_id image =? y); cbn [mbind option_bind]; [|apply IH; [done|lia|lia]].
    rewrite co_boot0, co_update0.
    destruct (copy_accept_ok (fs_tracker f) (b_boot b) (b_update b) (image_index image)) as (t & -> & Ht & _ & Hcon);
      [done..|]. cbn [mbind option_bind].
    destruct (IH (with_tracker f t) (k + 1)) as (f' & -> & Hi' & Hh); [|lia|lia|by exists f'].
    split; [by apply with_tracker_same|]. by split.
  - unfold fw_directory_get_image_info. destruct (Z.ltb_spec k (num_images d)); [lia|]. by exists f.
Qed.

Lemma unchanged_location_ok f b d ps y :
  inner_ok f b d ps ->
  exists st f', install_unchanged_location index f y = Some (st, f') /\ inner_ok f' b d ps /\
    dom (fs_installers f') = dom (fs_installers f).
Proof.
  intros Hi. pose proof Hi as (Hc & Hs & Hl). unfold install_unchanged_location.
  destruct (served_loop_ok (fs_installers f) y (active_installers f) ps (size (fs_installers f))) as [r ->];
    [apply Hl|by eapply inner_fuel|]. cbn [mbind option_bind]. destruct r; [by eexists _, f|].
  destruct (find_in_heap (fs_installers f) INSTALL_TYPE_WHOLE_VOLUME_COPY y) as (p & -> & Hp); [apply Hc|].
  cbn [mbind option_bind]. destruct (Z.eqb_spec p 0); simpl negb; cbv iota; [by eexists _, f|].
  destruct Hp as (i & Hpi & <-); [done|].
  destruct (proj1 (co_heap _ _ _ Hc) p i Hpi) as [Hlw _]. unfold current_volume, update_volume.
  pose proof Hc as []. rewrite co_boot0, co_update0.
  destruct (begin_ok begun i (fs_storage f) (b_boot b) (b_update b) Hlw) as (st0 & i1 & x1 & Hbeg & Hf1 & Hl1 & Ha1 & Hb1);
    [done|done|]. rewrite (at_installer_eq f p i _ _ i1 x1 Hpi Hbeg). cbn [mbind option_bind]. pose proof (inner_insert f b d ps p i i1 x1 Hi Hpi Hf1 Hl1 Hb1) as Hi1.
  set (f1 := with_installers f _ x1) in *.
  destruct (st0 =? FWU_STATUS_SUCCESS); [|eexists _, f1; split; [done|]; split; [done|by eapply dom_insert_same]].
  assert (fs_installers f1 !! p = Some i1) as Hp1 by apply lookup_insert_eq.
  destruct (finalize_ok begun i1 (fs_storage f1) Hl1 Hb1) as (st & i2 & x2 & Hfin & Hf2 & Hl2 & _ & Hb2).
  rewrite (at_installer_eq f1 p i1 _ _ i2 x2 Hp1 Hfin). cbn [mbind option_bind].
  pose proof (inner_insert f1 b d ps p i1 i2 x2 Hi1 Hp1 Hf2 Hl2 Hb2) as Hi2.
  assert (dom (<[p := i2]> (fs_installers f1)) = dom (fs_installers f)) as Hdom.
  { rewrite (dom_insert_same _ _ _ _ Hp1). by apply (dom_insert_same _ _ i). }
  destruct (st =? FWU_STATUS_SUCCESS); [|eexists _, _; split; [done|]; by split].
  set (f2 := with_installers f1 _ x2) in *. unfold copy_accepted_state_for_location.
  rewrite (co_directory _ _ _ (proj1 Hi2)). cbn [mbind option_bind].
  destruct (copy_accepted_loop_ok f2 b d ps (in_location_id i) (S (Z.to_nat (fw_directory_num_images d))) 0 Hi2)
    as (f3 & -> & Hi3 & Hh); [done|unfold fw_directory_num_images; lia|]. cbn [mbind option_bind].
  eexists _, f3. split; [done|]. split; [done|]. by rewrite Hh.
Qed.

Lemma unchanged_loop_ok f b d ps l n k :
  inner_ok f b d ps -> 0 <= k -> k + Z.of_nat n <= len l ->
  exists st f', install_unchanged_loop index f l n k = Some (st, f') /\ inner_ok f' b d ps /\
    dom (fs_installers f') = dom (fs_installers f).
Proof.
  revert f k. induction n as [|n IH]; intros f k Hi Hk Hn; cbn [install_unchanged_loop]; [by eexists _, f|].
  destruct (nthZ_is_Some l k) as [y ->]; [lia|]. cbn [mbind option_bind].
  destruct (unchanged_location_ok f b d ps y Hi) as (st & f1 & -> & Hi1 & Hd1). cbn [mbind option_bind].
  destruct (negb (st =? 0)); [by eexists _, f1|].
  destruct (IH f1 (k + 1) Hi1) as (st2 & f2 & -> & Hi2 & Hd2); [lia|lia|].
  eexists _, f2. split; [done|]. split; [done|]. congruence.
Qed.

Lemma install_unchanged_ok f b d ps :
  inner_ok f b d ps ->
  exists st f', install_unchanged_images index f = Some (st, f') /\ inner_ok f' b d ps /\
    dom (fs_installers f') = dom (fs_installers f).
Proof.
  intros Hi. pose proof Hi as (Hc & _). destruct (co_heap _ _ _ Hc) as [_ (l & _ & _ & ys & (Hn & Hlen & Ht) & _)].
  unfold install_unchanged_images. simpl. pose proof (len_nonneg ys). apply unchanged_loop_ok; [done|lia|].
  assert (len ys <= len (location_ids index)) by (rewrite <- Ht at 1; unfold len; rewrite length_take; lia). lia.
Qed.

Lemma finalize_install_ok f b :
  banked_ok f b ->
  exists st f' b', store_step f OFinalize = Some (st, f') /\ banked_ok f' b' /\ banks_step b OFinalize st b' /\
    dom (fs_installers f') = dom (fs_installers f).
Proof.
  intros (d & ps & Hi)%store_inner. cbn [store_step]. unfold fw_store_finalize_install.
  assert (exists st0 err0 f0, (if negb (active_installers f =? 0) then
       '(status, f) ← install_unchanged_images index f; Some (status, negb (status =? FWU_STATUS_SUCCESS), f)
     else Some (FWU_STATUS_NOT_AVAILABLE, active_installers f =? 0, f)) = Some (st0, err0, f0) /\
     inner_ok f0 b d ps /\ dom (fs_installers f0) = dom (fs_installers f)) as (st0 & err0 & f0 & -> & Hi0 & Hd0).
  { destruct (negb _); [|by eexists _, _, f].
    destruct (install_unchanged_ok f b d ps Hi) as (st & f0 & -> & Hi0 & Hd0). by eexists _, _, f0. }
  cbn [mbind option_bind].
  destruct (finalize_loop_ok f0 b d ps _ st0 err0 Hi0 (inner_fuel _ _ _ _ Hi0)) as (st1 & err1 & f1 & -> & Hi1 & Hd1).
  cbn [mbind option_bind]. destruct err1.
  { eexists _, f1, (set_busy b false). split; [done|]. split; [by eapply inner_idle|]. split; [|congruence].
    apply step_finalize_failed. by destruct (Z.eqb_spec st1 FWU_STATUS_SUCCESS). }
  destruct Hi1 as (Hc & Hs & Hl). pose proof Hc as []. rewrite co_update0.
  destruct (set_content_ok (fs_tracker f1) (b_update b)) as (t & -> & Ht & _ & Hk); [done|done|]. cbn [mbind option_bind].
  rewrite co_directory0. cbn [mbind option_bind]. rewrite co_boot0.
  destruct (update_metadata_ok (with_tracker f1 t) (set_content b (b_update b) true) d (b_update b) (b_boot b))
    as (st2 & f2 & -> & Hc2 & Hs2 & Hh2 & Hp2); [|done|done|].
  { apply with_tracker_ok; [done|done|]. intros j Hj. rewrite Hk by done.
    destruct (j =? b_update b); by rewrite ?orb_true_r, ?orb_false_r. }
  simpl in Hh2, Hp2. eexists st2, f2, (set_busy (finish_banks b) false). split; [done|].
  split; [|split; [constructor|congruence]]. eapply inner_idle. split; [done|]. split; [done|]. by rewrite Hh2, Hp2.
Qed.


Lemma store_step_ok f b o :
  banked_ok f b -> store_op_ok (dom (fs_installers f)) o -> (o = OBegin -> b_busy b = false) ->
  exists st f' b', store_step f o = Some (st, f') /\ banked_ok f' b' /\ banks_step b o st b' /\
    dom (fs_installers f') = dom (fs_installers f) /\ b_busy b' = busy_after (b_busy b) o.
Proof.
  intros Hok Hop Hbusy. destruct o.
  - destruct (begin_install_ok f b Hok) as (st & f' & Hs & Hok' & Hd); [by apply Hbusy|].
    eexists st, f', _. split; [done|]. split; [done|]. split; [constructor|done].
  - destruct (cancel_ok f b Hok) as (st & f' & Hs & Hok' & Hd).
    eexists st, f', _. split; [done|]. split; [done|]. split; [constructor|done].
  - destruct (finalize_install_ok f b Hok) as (st & f' & b' & Hs & Hok' & Hst & Hd).
    exists st, f', b'. do 3 (split; [done|]). split; [done|]. by inversion Hst.
  - destruct (select_ok f b image Hok) as (st & p & f' & Hs & Hok' & Hd & _). cbn [store_step]. rewrite Hs.
    eexists st, f', _. split; [done|]. split; [done|]. split; [constructor|done].
  - destruct (write_image_ok f b p data Hok Hop) as (st & f' & Hs & Hok' & Hd).
    eexists st, f', _. split; [done|]. split; [done|]. split; [constructor|done].
  - destruct Hop as [Hp Him]. destruct (commit_image_ok f b p image accepted Hok Hp Him) as (st & f' & Hs & Hok' & Hd).
    eexists st, f', _. split; [done|]. split; [done|]. split; [constructor|done].
  - destruct (notify_ok f b image Hok Hop) as (st & f' & Hs & Hok' & Hd).
    eexists st, f', _. split; [done|]. split; [done|]. split; [constructor|done].
  - eexists _, f, b. split; [done|]. split; [done|]. split; [constructor|done].
  - destruct (revert_ok f b Hok) as (st & f' & Hs & Hok' & Hd).
    eexists st, f', _. split; [done|]. split; [done|]. split; [constructor|]. split; [done|].
    unfold revert_banks. by destruct (b_active b =? b_boot b).
  - destruct (export_ok f b uuid Hok Hop) as (r & f' & Hs & Hok' & Hd & _). cbn [store_step]. rewrite Hs.
    eexists 0, f', _. split; [done|]. split; [done|]. split; [constructor|]. by rewrite Hd.
Qed.

Lemma store_run_ok f b os :
  banked_ok f b -> Forall (store_op_ok (dom (fs_installers f))) os -> ordered (b_busy b) os ->
  exists sts f' b', store_run f os = Some (sts, f') /\ banked_ok f' b' /\ banks_run b os sts b'.
Proof.
  revert f b. induction os as [|o os IH]; intros f b Hok Hops Hord; cbn [store_run].
  - eexists [], f, b. split; [done|]. split; [done|constructor].
  - apply Forall_cons in Hops as [Hop Hops]. destruct Hord as [Hb Hord].
    destruct (store_step_ok f b o Hok Hop Hb) as (st & f1 & b1 & -> & Hok1 & Hst & Hd & Hbusy). cbn [mbind option_bind].
    destruct (IH f1 b1 Hok1) as (sts & f2 & b2 & -> & Hok2 & Hrun); [by rewrite Hd|by rewrite Hbusy|].
    eexists (st :: sts), f2, b2. split; [done|]. split; [done|]. by econstructor.
Qed.

(** *** Synchronizing *)

Hypothesis malloc_ok : forall n buf, malloc n = Some buf -> len buf = n /\ bytes_ok buf.

(** A store before its first synchronization. *)
Definition fresh f : Prop :=
  manager_safe io ms (fs_manager f) /\ is_valid (fs_manager f) = false /\ bytes_ok (metadata_cache (fs_manager f)) /\
  tracker_ok (fs_tracker f) /\ heap_ok (fs_installers f) /\ active_installers f = 0.

Definition boot_banks (t : bank_tracker) (boot active previous : Z) : banks :=
  Banks boot (other_bank boot) active previous (content t) false.

(** The metadata manager and the storage once the metadata is in order: the indices
    are in the cache, and the active bank is the one booted from. *)
Lemma synchronize_ok f d boot :
  fresh f -> directory_ok d -> Forall image_ok (images d) -> bank_index_ok boot ->
  exists st f' p, fw_store_synchronize io ms impl crc32b malloc f d boot
      = Some (st, fw_directory_set_boot_info d (BootInfo boot boot p), f') /\
    fs_installers f' = fs_installers f /\
    (bank_index_ok p -> banked_ok f' (boot_banks (fs_tracker f') boot boot p)).
Proof.
  intros (Hm & Hinv & Hb & Ht & Hh & Hz) Hd Him Hbt. unfold fw_store_synchronize.
  set (f0 := with_indices _ _ _).
  destruct (check_and_repair_returns io ms impl crc32b malloc malloc_ok (fs_manager f0) (fs_storage f0) d)
    as (st & m & x & -> & Hms' & Hval); [done|done|done|done|]. cbn [mbind option_bind].
  set (f1 := with_manager f0 m x).
  (* the store once the metadata is updated to the boot bank *)
  assert (forall t, tracker_ok t -> core_ok (with_tracker f1 t) (boot_banks t boot boot boot) d) as Hcore.
  { intros t Ht'. split; try done; [by apply next_is_other|by apply other_ok]. }
  assert (forall f2 p t, core_ok f2 (boot_banks t boot boot p) d -> says f2 (boot_banks t boot boot p) ->
    fs_tracker f2 = t -> fs_installers f2 = fs_installers f -> active_installers f2 = 0 ->
    banked_ok (with_fw_directory f2 (Some (fw_directory_set_boot_info d (BootInfo boot boot p))))
      (boot_banks (fs_tracker f2) boot boot p)) as Hdone.
  { intros f2 p t [] Hs -> Hh2 Hz2. exists (fw_directory_set_boot_info d (BootInfo boot boot p)), [].
    split; [by split|]. split; [done|]. split; [simpl; rewrite Hz2; split; [done|]; split; [constructor|]|split; [|done]];
      intros q i Hq; by apply not_elem_of_nil in Hq. }
  assert (forall t, tracker_ok t -> exists st2 f2,
    update_metadata io ms impl crc32b (with_tracker f1 t) boot boot d = Some (st2, f2) /\
    fs_installers f2 = fs_installers f /\
    banked_ok (with_fw_directory f2 (Some (fw_directory_set_boot_info d (BootInfo boot boot boot))))
      (boot_banks (fs_tracker f2) boot boot boot)) as Hupd.
  { intros t Ht'. destruct (update_metadata_ok (with_tracker f1 t) _ d boot boot (Hcore t Ht') Hbt Hbt)
      as (st2 & f2 & Hu & Hc2 & Hs2 & Hh2 & Hz2). exists st2, f2. rewrite Hu. split; [done|]. split; [done|].
    unfold update_metadata in Hu. apply bind_Some in Hu as ([[? ?] ?] & _ & Hu). injection Hu as <- <-.
    apply (Hdone _ boot t); done. }
  destruct (Z.eqb_spec st FWU_STATUS_SUCCESS) as [Hst|Hst]; simpl negb; cbv iota.
  - destruct (Hval Hst) as (Hv & ((Hmax & Hl) & _) & Hlen & Hbm).
    destruct (sl_deserialize d (metadata_cache m) (fs_tracker f) Hd Ht Hbm Hl) as ((a & p & Ha & _) & t & Hbk & Ht').
    unfold metadata_manager_get_active_indices, metadata_manager_preload_bank_tracker. simpl fs_manager.
    rewrite Hv, Hlen, Ha. cbn [mbind option_bind]. simpl fs_tracker. rewrite Hbk. cbn [mbind option_bind].
    rewrite Z.eqb_refl. destruct (Z.eqb_spec boot a) as [<-|Hne]; simpl andb; cbv iota.
    + eexists _, _, p. split; [done|]. split; [done|]. intros Hp. apply (Hdone (with_tracker f1 t) p t); try done.
      * destruct (Hcore t Ht'). by split.
      * split; [split; [done|]; simpl; rewrite Hlen; pose proof (sl_size d Hd); lia|].
        split; [done|]. split; [done|]. unfold metadata_manager_get_active_indices. simpl.
        by rewrite Hv, Hlen, Ha.
    + destruct (Hupd t Ht') as (st2 & f2 & -> & Hh2 & Hok). cbn [mbind option_bind].
      eexists _, _, boot. split; [done|]. split; [done|]. done.
  - destruct (set_accepted_content_ok (fs_tracker f) boot Ht Hbt) as (t & Hset & Ht' & _).
    simpl fs_tracker. simpl fs_boot_index. rewrite Hset. cbn [mbind option_bind].
    destruct (Hupd t Ht') as (st2 & f2 & -> & Hh2 & Hok). cbn [mbind option_bind].
    eexists _, _, boot. split; [done|]. split; [done|]. done.
Qed.

End Refinement.

(** ** What the abstract store promises *)




Lemma banks_step_boot b o st b' : banks_step b o st b' -> b_boot b' = b_boot b.
Proof. intros []; try done. unfold revert_banks. by destruct (b_active b =? b_boot b). Qed.



(** ** Properties *)

Section Properties.
Context {C X : Type} (io : io_storage X) (ms : metadata_serializer) {Hms : SerializerLaws ms}.
Context (impl : crc32_impl) (crc32b : Z -> Z -> Z) (malloc : Z -> option bytes).
Hypothesis malloc_ok : forall n buf, malloc n = Some buf -> len buf = n /\ bytes_ok buf.
Context (index : installer_index) (cache_address : Z) (begun : C -> Prop).
Implicit Types f : fw_store C X.

(** C16: the banked store refines the abstract banks.  A fresh store whose installers
    have the volumes of their location in both banks ([lawful]: every operation of an
    installer may fail, its begin too) synchronizes with the bank booted from as the
    active one; if the previous index it found names a bank, every sequence of operations
    that begins no installation over another returns without a failed assertion, and the
    metadata in the cache, the update bank and the content marks of the tracker are those
    of a run of the abstract banks with the same statuses.  Where a location has no volume
    in the update bank an assertion does fail ([select_after_failed_begin]). *)
Theorem banked_store_refines f d boot os :
  fresh io ms index begun f -> directory_ok d -> Forall image_ok (images d) -> bank_index_ok boot ->
  Forall (store_op_ok (dom (fs_installers f))) os -> ordered false os ->
  exists st f1 p, fw_store_synchronize io ms impl crc32b malloc f d boot
      = Some (st, fw_directory_set_boot_info d (BootInfo boot boot p), f1) /\
    (bank_index_ok p ->
     exists sts f2 b, store_run io ms impl crc32b index cache_address f1 os = Some (sts, f2) /\
       banks_run (boot_banks (fs_tracker f1) boot boot p) os sts b /\
       metadata_manager_get_active_indices ms (fs_manager f2) 0 0
         = Some (FWU_STATUS_SUCCESS, b_active b, b_previous b) /\
       fs_boot_index f2 = b_boot b /\ fs_update_index f2 = b_update b /\
       forall k, bank_index_ok k -> bank_tracker_is_content (fs_tracker f2) k = Some (b_content b k)).
Proof.
  intros Hf Hd Him Hb Hops Hord.
  destruct (synchronize_ok io ms impl crc32b malloc index begun malloc_ok f d boot Hf Hd Him Hb)
    as (st & f1 & p & -> & Hh & Hok). exists st, f1, p. split; [done|]. intros Hp.
  destruct (store_run_ok io ms impl crc32b index cache_address begun f1 _ os (Hok Hp))
    as (sts & f2 & b & -> & (d2 & ps & Hc & (_ & _ & _ & Hget) & _) & Hrun); [by rewrite Hh|done|].
  exists sts, f2, b. split; [done|]. split; [done|]. split; [done|]. destruct Hc.
  split; [done|]. split; [done|]. intros k Hk. rewrite is_content_ok by done. by rewrite co_content0.
Qed.


(** C32: after a return to the previous bank during a trial the running bank is no
    longer protected.  The update index becomes the boot index; the next installation
    marks the running bank as empty and makes it the active bank again, so it undoes
    the return and a restart during the installation boots the bank being written. *)
Theorem revert_then_install_unprotected f b :
  banked_ok io ms index begun f b -> b_busy b = false -> b_active b = b_boot b -> b_previous b = other_bank (b_boot b) ->
  exists st1 f1 st2 f2,
    fw_store_revert_to_previous io ms impl crc32b f = Some (st1, f1) /\
    metadata_manager_get_active_indices ms (fs_manager f1) 0 0
      = Some (FWU_STATUS_SUCCESS, other_bank (b_boot b), b_boot b) /\
    fw_store_begin_install io ms impl crc32b f1 = Some (st2, f2) /\
    fs_update_index f2 = fs_boot_index f2 /\
    metadata_manager_get_active_indices ms (fs_manager f2) 0 0 = Some (FWU_STATUS_SUCCESS, b_boot b, b_boot b) /\
    bank_tracker_is_content (fs_tracker f2) (b_boot b) = Some false.
Proof.
  intros Hok Hbusy Ha Hp. destruct (revert_ok io ms impl crc32b index cache_address begun f b Hok)
    as (st1 & f1 & H1 & Hok1 & _).
  assert (bank_index_ok (b_boot b)) as Hb by (destruct Hok as (d & ps & Hc & _); apply Hc).
  assert (revert_banks b = set_active (set_content (set_update b (b_boot b)) (other_bank (b_boot b)) true)
            (other_bank (b_boot b)) (b_boot b)) as Hrev.
  { unfold revert_banks. rewrite Ha, Z.eqb_refl, Hp. unfold other_bank. by replace (1 - (1 - b_boot b)) with (b_boot b) by lia. }
  rewrite Hrev in Hok1.
  destruct (begin_install_ok io ms impl crc32b index cache_address begun f1 _ Hok1) as (st2 & f2 & H2 & Hok2 & _); [done|].
  exists st1, f1, st2, f2. split; [exact H1|]. split; [by destruct Hok1 as (? & ? & _ & (_ & _ & _ & Hget) & _)|].
  split; [exact H2|]. destruct Hok2 as (d & ps & Hc & (_ & _ & _ & Hget) & _). destruct Hc.
  split; [by rewrite co_update0, co_boot0|]. split; [done|]. rewrite is_content_ok, co_content0 by done.
  simpl. by rewrite Z.eqb_refl.
Qed.

End Properties.

(** ** Raw installers in a banked store *)

Section RawInstallers.
Context {X : Type} (io : io_storage X) (ix : volume_index) (deref : Z -> option (volume X)).

(** The installer has a volume to write to. *)
Definition raw_begun (s : raw_installer) : Prop :=
  exists v, volume_at deref (target_volume s) = Some v /\ SafeVolume io v.

(** Where the index has a volume of the location in each bank, a raw installer keeps
    what the store relies on. *)
Lemma raw_installer_lawful (i : installer raw_installer X) :
  in_interface i = raw_interface io ix deref ->
  (forall k p0, bank_index_ok k -> exists p v,
     volume_index_find ix (banked_volume_id (in_location_id i) (banked_usage_id k)) p0 = Some (0, p) /\
     volume_at deref p = Some v /\ SafeVolume io v) ->
  lawful raw_begun i.
Proof.
  intros Hif Hix. split; rewrite Hif; simpl.
  - intros c x a b Ha Hb. destruct (Hix b (target_volume c) Hb) as (p & v & Hfind & Hv & Hs).
    unfold raw_installer_begin. rewrite Hfind. simpl. unfold volume_at in Hv.
    destruct (p =? 0) eqn:Hp; [done|]. simpl. eexists _, _, x. split; [done|]. exists v. split; [|done].
    unfold volume_at. simpl. by rewrite Hp.
  - intros c x Hc. pose proof Hc as (v & Hv & Hs). unfold raw_installer_finalize.
    destruct (is_open c); [|by eexists _, c, x]. rewrite Hv. simpl.
    destruct (sv_close x) as (st & x' & ->). by eexists _, _, x'.
  - intros c x Hc. pose proof Hc as (v & Hv & Hs). unfold raw_installer_abort, raw_installer_finalize.
    destruct (is_open c); [|by eexists c, x]. rewrite Hv. simpl.
    destruct (sv_close x) as (st & x' & ->). by eexists _, x'.
  - intros c x image Hc. pose proof Hc as (v & Hv & Hs). unfold raw_installer_open.
    destruct (negb (is_open c) && _); [|by eexists _, c, x]. rewrite Hv. simpl.
    destruct (sv_open x) as (st & x1 & ->). simpl. destruct (st =? 0); [|by eexists _, c, x1].
    destruct (sv_erase (io := io) x1) as (st2 & x2 & ->). simpl. destruct (st2 =? 0); [by eexists _, _, x2|].
    destruct (sv_close x2) as (st3 & x3 & ->). by eexists _, c, x3.
  - intros c x Hc. pose proof Hc as (v & Hv & Hs). unfold raw_installer_commit.
    destruct (is_open c); [|by eexists _, c, x]. rewrite Hv. simpl.
    destruct (sv_close x) as (st & x' & ->). by eexists _, _, x'.
  - intros c x data Hc. pose proof Hc as (v & Hv & Hs). unfold raw_installer_write.
    destruct (is_open c); [|by eexists _, c, x]. rewrite Hv. simpl. pose proof (len_nonneg data).
    destruct (sv_write x data (len data) 0) as (st & k & x' & ->); [lia|]. by eexists _, _, x'.
Qed.

End RawInstallers.

(** An installer whose transaction could not begin counts as active.  If the
    update bank of a location has no volume, selecting its raw installer fails, but
    the installer stays marked as active without being in the list of active
    installers: the next selection skips the beginning of the transaction and the
    open handler fails its assertion on the missing volume. *)
Theorem select_after_failed_begin {X} (io : io_storage X) ix deref index (f : fw_store raw_installer X) l image p i st0 :
  index_lists (fs_installers f) index l ->
  installer_index_find (fs_installers f) index (image_install_type image) (location_id image) = Some p -> p <> 0 ->
  fs_installers f !! p = Some i -> in_interface i = raw_interface io ix deref -> is_active i = false ->
  in_context i = in_context (raw_installer_init io ix deref (in_location_uuid i) (in_location_id i)) ->
  volume_index_find ix (update_volume f (location_id image)) 0 = Some (st0, 0) -> st0 <> 0 ->
  exists f1, fw_store_select_installer index f image = Some (st0, 0, f1) /\
    active_installers f1 = active_installers f /\ fw_store_select_installer index f1 image = None.
Proof.
  intros Hl Hfind Hp Hi Hif Hina Hctx Hvol Hst.
  set (i1 := with_context (with_active (with_install_status i FWU_STATUS_SUCCESS) true) (in_context i)).
  set (f1 := with_installers f (<[p := i1]> (fs_installers f)) (fs_storage f)). exists f1.
  assert ((st0 =? 0) = false) as Hst' by lia. assert ((p =? 0) = false) as Hp' by lia.
  split; [|split; [done|]]; unfold fw_store_select_installer.
  - rewrite Hfind. simpl. rewrite Hp'. simpl. rewrite Hi. simpl. unfold installer_is_active. rewrite Hina.
    unfold activate_installer. rewrite (at_installer_eq f p i _ st0 i1 (fs_storage f) Hi).
    + simpl. change FWU_STATUS_SUCCESS with 0. rewrite Hst'. simpl. by rewrite Hst'.
    + unfold installer_begin. simpl. rewrite Hif. simpl. unfold raw_installer_begin, i1. rewrite Hctx. simpl.
      rewrite Hvol. simpl. by rewrite Hst'.
  - simpl. rewrite (index_find_insert _ _ _ _ _ p i i1 Hl Hi) by done. rewrite Hfind. simpl. rewrite Hp'. simpl.
    rewrite lookup_insert_eq. simpl. unfold at_installer. simpl. rewrite lookup_insert_eq. simpl.
    unfold installer_open. simpl. rewrite Hif. simpl. by rewrite Hctx.
Qed.

(** ** Examples *)

(** A volume without a position: a read returns its first bytes and a write replaces
    its contents. *)
Definition flat_volume : volume bytes :=
  Volume (DevFuncs (fun w => Some (0, w)) (fun w => Some (0, w)) (fun w _ _ => Some (0, w))
    (fun w _ => Some (0, len w, w))
    (fun w buf n _ =>
       let k := Z.min n (len w) in
       buf ← store buf 0 (map (wrap 8) (take (Z.to_nat k) w)); Some (0, buf, k, w))
    (fun w buf n _ => Some (0, n, take (Z.to_nat n) buf))) None None.

#[export] Instance flat_volume_safe : SafeVolume (@forwarding_io bytes) flat_volume.
Proof.
  split.
  - intros w. by eexists _, _.
  - intros w. by eexists _, _.
  - intros w. by eexists _, _.
  - intros w buf n r Hn. unfold volume_read. simpl.
    destruct (store_ok buf 0 (map (wrap 8) (take (Z.to_nat (Z.min n (len w))) w))) as [b Hb];
      [lia|unfold len in *; rewrite length_map, length_take; lia|].
    rewrite Hb. simpl. eexists _, b, _, w. split; [done|]. split; [by eapply store_len|]. intros Hok.
    eapply store_bytes_ok; [done|done|]. apply Forall_map, Forall_true. intros v. by apply wrap_fits.
  - intros w buf n r Hn. by eexists _, _, _.
Qed.

(** One location with a volume in each bank, one raw installer at address 64. *)
Definition flat_index : volume_index := VolumeIndex 2 ([(0, 16); (1, 32)] ++ replicate 6 (0, 0)).
Definition flat_deref (p : Z) : option (volume bytes) :=
  if (p =? 16) || (p =? 32) then Some flat_volume else None.
Definition one_installer : gmap Z (installer raw_installer bytes) :=
  {[64 := raw_installer_init (@forwarding_io bytes) flat_index flat_deref (fill 7 16) 0]}.
Definition one_index : installer_index :=
  default installer_index_init (installer_index_register one_installer installer_index_init 64).

Definition example_store (stored : bytes) : fw_store raw_installer bytes :=
  snd (banked_fw_store_init example_serializer
    (fun id => if id =? BANKED_VOLUME_ID_PRIMARY_METADATA then Some flat_volume else None)
    (Some blank_cache) one_installer stored).

Lemma one_index_lists : index_lists one_installer one_index [64].
Proof.
  destruct (registers_ok one_installer installer_index_init [] [64]) as (ix & Hr & Hl).
  - split; [done|]. split; [done|]. exists []. split; [done|]. split; [constructor|]. split; [done|].
    intros z. split; [intros Hz|intros (p & i & Hz & _)]; by apply not_elem_of_nil in Hz.
  - repeat constructor; [done|by eexists].
  - assert (ix = one_index) as <-; [|exact Hl]. vm_compute in Hr. injection Hr as <-. by vm_compute.
Qed.

Lemma example_store_fresh stored :
  fresh (@forwarding_io bytes) example_serializer one_index (raw_begun (@forwarding_io bytes) flat_deref)
    (example_store stored).
Proof.
  split; [|split; [done|split; [|split; [exact tracker_init_ok|split; [split|done]]]]].
  - split; [done|]. split; intros v; simpl; [|done]. intros [= <-]. apply _.
  - by apply fill_bytes_ok.
  - intros p i. simpl. unfold one_installer. intros [<- <-]%lookup_singleton_Some. split; [|done].
    apply (raw_installer_lawful (@forwarding_io bytes) flat_index flat_deref); [done|].
    intros k p0 [-> | ->]; eexists _, flat_volume; (split; [done|]); split; [done|apply _|done|apply _].
  - exists [64]. exact one_index_lists.
Qed.

Lemma example_malloc_bytes n buf : example_malloc n = Some buf -> len buf = n /\ bytes_ok buf.
Proof.
  unfold example_malloc. destruct (Z.leb_spec 0 n); [|done]. intros [= <-]. split; [by rewrite len_fill|].
  by apply fill_bytes_ok.
Qed.

Abbreviation example_laws := (metadata_v2_laws _ _ example_index_ok example_ids_ok).
Abbreviation example_sync stored :=
  (fw_store_synchronize (@forwarding_io bytes) example_serializer Crc32Sw no_insn example_malloc
     (example_store stored) example_directory).

(** An update from bank 0: the metadata volume is blank at first. *)
Definition example_update : list store_op :=
  [OBegin; OSelect zero_image_info; OWrite 64 [1; 2; 3]; OCommit 64 zero_image_info true; OFinalize].

Lemma example_update_ok : Forall (store_op_ok (dom (fs_installers (example_store [])))) example_update.
Proof.
  assert (64 ∈ dom (fs_installers (example_store []))) as Hin by (apply elem_of_dom; by eexists).
  do 5 (constructor; [by try split|]). constructor.
Qed.

Lemma example_images_ok : Forall image_ok (images example_directory).
Proof. by repeat constructor. Qed.

Lemma banked_store_refines_witness :
  exists st f1 p, example_sync [] 0
      = Some (st, fw_directory_set_boot_info example_directory (BootInfo 0 0 p), f1) /\
    (bank_index_ok p ->
     exists sts f2 b, store_run (@forwarding_io bytes) example_serializer Crc32Sw no_insn one_index 4096 f1 example_update
         = Some (sts, f2) /\
       banks_run (boot_banks (fs_tracker f1) 0 0 p) example_update sts b /\
       metadata_manager_get_active_indices example_serializer (fs_manager f2) 0 0
         = Some (FWU_STATUS_SUCCESS, b_active b, b_previous b) /\
       fs_boot_index f2 = b_boot b /\ fs_update_index f2 = b_update b /\
       forall k, bank_index_ok k -> bank_tracker_is_content (fs_tracker f2) k = Some (b_content b k)).
Proof.
  apply (banked_store_refines (@forwarding_io bytes) example_serializer (Hms := example_laws) Crc32Sw no_insn
    example_malloc example_malloc_bytes one_index 4096 (raw_begun (@forwarding_io bytes) flat_deref)).
  - apply example_store_fresh.
  - exact example_directory_ok.
  - exact example_images_ok.
  - by left.
  - exact example_update_ok.
  - by repeat split.
Defined.



(** Bank 1 on trial, with bank 0 as the previous one. *)
Definition trial_metadata : bytes :=
  match update_cache example_serializer Crc32Sw no_insn (example_manager blank_cache false) 1 0
          example_directory example_tracker with
  | Some m => slice (metadata_cache m) 0 200
  | None => []
  end.

Lemma example_sync_trial :
  match example_sync trial_metadata 1 with
  | Some (_, d1, _) => previous_active_index (fw_directory_get_boot_info d1) = 0
  | None => False
  end.
Proof. by vm_compute. Qed.

Lemma revert_then_install_unprotected_witness :
  exists st d1 f st1 f1 st2 f2,
    example_sync trial_metadata 1 = Some (st, d1, f) /\
    fw_store_revert_to_previous (@forwarding_io bytes) example_serializer Crc32Sw no_insn f = Some (st1, f1) /\
    metadata_manager_get_active_indices example_serializer (fs_manager f1) 0 0 = Some (FWU_STATUS_SUCCESS, 0, 1) /\
    fw_store_begin_install (@forwarding_io bytes) example_serializer Crc32Sw no_insn f1 = Some (st2, f2) /\
    fs_update_index f2 = fs_boot_index f2 /\
    metadata_manager_get_active_indices example_serializer (fs_manager f2) 0 0 = Some (FWU_STATUS_SUCCESS, 1, 1) /\
    bank_tracker_is_content (fs_tracker f2) 1 = Some false.
Proof.
  pose proof example_sync_trial as Htrial.
  destruct (synchronize_ok (@forwarding_io bytes) example_serializer (Hms := example_laws) Crc32Sw no_insn
    example_malloc one_index (raw_begun (@forwarding_io bytes) flat_deref) example_malloc_bytes
    (example_store trial_metadata) example_directory 1) as (st & f & p & Hs & _ & Hok).
  - apply example_store_fresh.
  - exact example_directory_ok.
  - exact example_images_ok.
  - by right.
  - rewrite Hs in Htrial. simpl in Htrial. subst p.
    destruct (revert_then_install_unprotected (@forwarding_io bytes) example_serializer (Hms := example_laws) Crc32Sw
      no_insn one_index 4096 (raw_begun (@forwarding_io bytes) flat_deref) f _ (Hok (or_introl eq_refl)) eq_refl
      eq_refl eq_refl) as (st1 & f1 & st2 & f2 & H).
    eexists st, _, f, st1, f1, st2, f2. split; [exact Hs|exact H].
Defined.

(** The same store with no volume configured. *)
Definition lone_installer : gmap Z (installer raw_installer bytes) :=
  {[64 := raw_installer_init (@forwarding_io bytes) volume_index_init flat_deref (fill 7 16) 0]}.

Definition lone_store : fw_store raw_installer bytes :=
  snd (banked_fw_store_init example_serializer (fun _ => None) (Some blank_cache) lone_installer []).

Lemma lone_index_lists : index_lists (fs_installers lone_store) one_index [64].
Proof.
  destruct one_index_lists as (Hr & _ & ys & Hy & Hnd & Hle & Hs). split; [done|].
  split; [repeat constructor; [done|by eexists]|]. exists ys. do 3 (split; [done|]). intros y. rewrite Hs.
  unfold serves. split; intros (p & i & ->%list_elem_of_singleton & Hi & <-);
    (eexists 64, _; split; [by apply list_elem_of_singleton|]; split; [done|]); by injection Hi as <-.
Qed.

Lemma select_after_failed_begin_witness :
  exists f1, fw_store_select_installer one_index lone_store zero_image_info = Some (-1, 0, f1) /\
    active_installers f1 = active_installers lone_store /\
    fw_store_select_installer one_index f1 zero_image_info = None.
Proof.
  apply (select_after_failed_begin (@forwarding_io bytes) volume_index_init flat_deref one_index lone_store [64]
    zero_image_info 64 (raw_installer_init (@forwarding_io bytes) volume_index_init flat_deref (fill 7 16) 0) (-1)).
  - exact lone_index_lists.
  - by vm_compute.
  - done.
  - done.
  - done.
  - done.
  - done.
  - done.
  - done.
Defined.
