(* ===== verification/FwuProvider.v ===== *)
(** * components/service/fwu/provider: the firmware update service

    fwu_provider_shim.c unwraps a message (function ID in front of the request,
    service status in front of the response) and hands it to the provider;
    fwu_provider.c has a handler per function ID that calls the update agent;
    fwu_provider_serializer.c decodes requests and encodes responses.

    The provider's state [C] is that of the update agent, reached through
    [update_agent_interface].  Two deserializers take a length from the message
    without comparing it with the length of the request: a read past the end of the
    caller's memory is a fault, None, as everywhere in the development. *)
From S2P Require Import Prelude Status Uuid RpcService RpcEndpoint FwDirectory StreamManager UpdateAgent.

Definition FWU_FUNC_ID_DISCOVER : Z := 0.
Definition FWU_FUNC_ID_BEGIN_STAGING : Z := 16.
Definition FWU_FUNC_ID_END_STAGING : Z := 17.
Definition FWU_FUNC_ID_CANCEL_STAGING : Z := 18.
Definition FWU_FUNC_ID_OPEN : Z := 19.
Definition FWU_FUNC_ID_WRITE_STREAM : Z := 20.
Definition FWU_FUNC_ID_READ_STREAM : Z := 21.
Definition FWU_FUNC_ID_COMMIT : Z := 22.
Definition FWU_FUNC_ID_ACCEPT_IMAGE : Z := 23.
Definition FWU_FUNC_ID_SELECT_PREVIOUS : Z := 24.
Definition FWU_FUNC_ID_COUNT : Z := 10.

Definition FWU_OPEN_OP_TYPE_READ : Z := 0.
Definition FWU_OPEN_OP_TYPE_WRITE : Z := 1.
Definition FWU_PROVIDER_MAX_PARTIAL_UPDATE_COUNT : Z := 4.
Definition TS_FWU_SERVICE_UUID : bytes :=
  [104; 35; 168; 56; 27; 6; 71; 14; 151; 116; 12; 206; 139; 251; 83; 253].

Definition SIZE_MAX : Z := 2 ^ 64 - 1.

(** ** fwu_provider_serializer.c *)

(** The fixed part of fwu_discover_out has 24 bytes.  data_length is not set. *)
Definition fwu_serialize_discover_resp (resp : rpc_buffer)
    (status version_major version_minor num_func max_payload_size flags vendor_specific_flags : Z)
    (function_presence : bytes) : option (Z * rpc_buffer) :=
  if 24 + num_func >? SIZE_MAX then Some (RPC_ERROR_INVALID_RESPONSE_BODY, resp)
  else if 24 + num_func <=? buf_size resp then
    d ← buf_data resp;
    d ← put_uint d 0 2 status;
    d ← put_uint d 2 1 version_major;
    d ← put_uint d 3 1 version_minor;
    d ← put_uint d 4 2 24;
    d ← put_uint d 6 2 num_func;
    d ← put_uint d 8 8 max_payload_size;
    d ← put_uint d 16 4 flags;
    d ← put_uint d 20 4 vendor_specific_flags;
    p ← load function_presence 0 num_func;
    d ← store d 24 p;
    Some (RPC_SUCCESS, Buffer (Some d) (buf_data_length resp) (buf_size resp))
  else Some (RPC_ERROR_INVALID_RESPONSE_BODY, resp).

(** Returns the status, *vendor_flags, *partial_update_count and the elements of
    update_guid that were filled.  The memcpy copies 16 octets per element, which
    nothing compares with the length of the request. *)
Definition fwu_deserialize_begin_staging_req (req : rpc_buffer)
    (vendor_flags partial_update_count max_update_count : Z) (update_guid : bytes)
    : option (Z * Z * Z * bytes) :=
  if 12 <=? buf_data_length req then
    m ← buf_data req;
    count ← get_uint m 8 4;
    if 12 + count >? SIZE_MAX then
      Some (RPC_ERROR_INVALID_REQUEST_BODY, vendor_flags, partial_update_count, update_guid)
    else if count >? max_update_count then
      Some (RPC_ERROR_INTERNAL, vendor_flags, partial_update_count, update_guid)
    else
      flags ← get_uint m 4 4;
      guids ← load m 12 (16 * count);
      Some (RPC_SUCCESS, flags, count, guids)
  else Some (RPC_ERROR_INVALID_REQUEST_BODY, vendor_flags, partial_update_count, update_guid).

Definition fwu_deserialize_open_req (req : rpc_buffer) (image_type_uuid : bytes) (op_type : Z)
    : option (Z * bytes * Z) :=
  if 17 <=? buf_data_length req then
    m ← buf_data req;
    t ← get_uint m 16 1;
    if (t =? FWU_OPEN_OP_TYPE_READ) || (t =? FWU_OPEN_OP_TYPE_WRITE) then
      uuid ← load m 0 16;
      Some (RPC_SUCCESS, uuid, t)
    else Some (RPC_ERROR_INVALID_REQUEST_BODY, image_type_uuid, op_type)
  else Some (RPC_ERROR_INVALID_REQUEST_BODY, image_type_uuid, op_type).

Definition fwu_serialize_open_resp (resp : rpc_buffer) (handle : Z) : option (Z * rpc_buffer) :=
  if 4 <=? buf_size resp then
    d ← buf_data resp;
    d ← put_uint d 0 4 handle;
    Some (RPC_SUCCESS, Buffer (Some d) 4 (buf_size resp))
  else Some (RPC_ERROR_INTERNAL, resp).

(** *data points into the request; nothing compares *data_length with the length of
    the request.  Returned is what is there, None where it is not the caller's memory:
    the deserializer does not read it. *)
Definition fwu_deserialize_write_stream_req (req : rpc_buffer) (handle data_length : Z)
    (data : option bytes) : option (Z * Z * Z * option bytes) :=
  if 8 <=? buf_data_length req then
    m ← buf_data req;
    handle ← get_uint m 0 4;
    data_length ← get_uint m 4 4;
    Some (RPC_SUCCESS, handle, data_length, load m 8 data_length)
  else Some (RPC_ERROR_INVALID_REQUEST_BODY, handle, data_length, data).

Definition fwu_deserialize_read_stream_req (req : rpc_buffer) (handle : Z) : option (Z * Z) :=
  if 4 <=? buf_data_length req then
    m ← buf_data req;
    handle ← get_uint m 0 4;
    Some (RPC_SUCCESS, handle)
  else Some (RPC_ERROR_INVALID_REQUEST_BODY, handle).

(** *payload_buf is an offset into the response buffer. *)
Definition fwu_read_stream_resp_payload (resp : rpc_buffer) : Z * Z :=
  (8, if 8 <? buf_size resp then buf_size resp - 8 else 0).

Definition fwu_serialize_read_stream_resp (resp : rpc_buffer) (read_bytes total_bytes : Z)
    : option (Z * rpc_buffer) :=
  if read_bytes >? SIZE_MAX - 8 then Some (RPC_ERROR_INVALID_VALUE, resp)
  else
    let required_len := 8 + read_bytes in
    if required_len <=? buf_size resp then
      d ← buf_data resp;
      d ← put_uint d 0 4 read_bytes;
      d ← put_uint d 4 4 total_bytes;
      Some (RPC_SUCCESS, Buffer (Some d) required_len (buf_size resp))
    else Some (RPC_ERROR_INTERNAL, resp).

Definition fwu_deserialize_commit_req (req : rpc_buffer) (handle : Z) (accepted : bool)
    (max_atomic_len : Z) : option (Z * Z * bool * Z) :=
  if 12 <=? buf_data_length req then
    m ← buf_data req;
    handle ← get_uint m 0 4;
    acceptance_req ← get_uint m 4 4;
    max_atomic_len ← get_uint m 8 4;
    Some (RPC_SUCCESS, handle, acceptance_req =? 0, max_atomic_len)
  else Some (RPC_ERROR_INVALID_REQUEST_BODY, handle, accepted, max_atomic_len).

Definition fwu_serialize_commit_resp (resp : rpc_buffer) (progress total_work : Z)
    : option (Z * rpc_buffer) :=
  if 8 <=? buf_size resp then
    d ← buf_data resp;
    d ← put_uint d 0 4 progress;
    d ← put_uint d 4 4 total_work;
    Some (RPC_SUCCESS, Buffer (Some d) 8 (buf_size resp))
  else Some (RPC_ERROR_INTERNAL, resp).

Definition fwu_deserialize_accept_req (req : rpc_buffer) (image_type_uuid : bytes)
    : option (Z * bytes) :=
  if 20 <=? buf_data_length req then
    m ← buf_data req;
    uuid ← load m 4 16;
    Some (RPC_SUCCESS, uuid)
  else Some (RPC_ERROR_INVALID_REQUEST_BODY, image_type_uuid).

(** ** fwu_provider.c *)

Section Provider.
Context {C : Type} (agent : update_agent_interface C).

(** The array and the number of entries used. *)
Definition add_func_if_present {A} (func : option A) (id : Z) (s : Z * bytes) : option (Z * bytes) :=
  match func with
  | Some _ => p ← setZ (snd s) (fst s) id; Some (u16 (fst s + 1), p)
  | None => Some s
  end.

Definition generate_function_presence (function_presence : bytes) : option (Z * bytes) :=
  s ← add_func_if_present (if_discover agent) FWU_FUNC_ID_DISCOVER (0, function_presence);
  s ← add_func_if_present (if_begin_staging agent) FWU_FUNC_ID_BEGIN_STAGING s;
  s ← add_func_if_present (if_end_staging agent) FWU_FUNC_ID_END_STAGING s;
  s ← add_func_if_present (if_cancel_staging agent) FWU_FUNC_ID_CANCEL_STAGING s;
  s ← add_func_if_present (if_open agent) FWU_FUNC_ID_OPEN s;
  s ← add_func_if_present (if_write_stream agent) FWU_FUNC_ID_WRITE_STREAM s;
  s ← add_func_if_present (if_read_stream agent) FWU_FUNC_ID_READ_STREAM s;
  s ← add_func_if_present (if_commit agent) FWU_FUNC_ID_COMMIT s;
  s ← add_func_if_present (if_accept_image agent) FWU_FUNC_ID_ACCEPT_IMAGE s;
  add_func_if_present (if_select_previous agent) FWU_FUNC_ID_SELECT_PREVIOUS s.

Definition discover_handler : service C := fun c req =>
  let '(status, d) := update_agent_discover agent c (FwuDiscoveryResult 0 0 0 0 0 0) in
  let req := put_status req status in
  if status =? 0 then
    '(num_func, function_presence) ← generate_function_presence (fill 0 FWU_FUNC_ID_COUNT);
    '(rpc_status, resp) ←
      fwu_serialize_discover_resp (response_buffer req) (UpdateAgent.service_status d)
        (version_major d) (version_minor d) num_func (max_payload_size d) (dr_flags d)
        (vendor_specific_flags d) function_presence;
    Some (rpc_status, put_response req resp, c)
  else Some (RPC_SUCCESS, req, c).

Definition begin_staging_handler : service C := fun c req =>
  '(rpc_status, vendor_flags, partial_update_count, update_guid) ←
    fwu_deserialize_begin_staging_req (request_buffer req) 0 0
      FWU_PROVIDER_MAX_PARTIAL_UPDATE_COUNT [];
  if rpc_status =? RPC_SUCCESS then
    '(status, c) ← update_agent_begin_staging agent c vendor_flags partial_update_count update_guid;
    Some (rpc_status, put_status req status, c)
  else Some (rpc_status, req, c).

Definition end_staging_handler : service C := fun c req =>
  '(status, c) ← update_agent_end_staging agent c;
  Some (RPC_SUCCESS, put_status req status, c).

Definition cancel_staging_handler : service C := fun c req =>
  '(status, c) ← update_agent_cancel_staging agent c;
  Some (RPC_SUCCESS, put_status req status, c).

Definition open_handler : service C := fun c req =>
  '(rpc_status, image_type_uuid, op_type) ←
    fwu_deserialize_open_req (request_buffer req) (fill 0 16) 0;
  if rpc_status =? RPC_SUCCESS then
    '(status, handle, c) ← update_agent_open agent c image_type_uuid op_type 0;
    let req := put_status req status in
    if status =? 0 then
      '(rpc_status, resp) ← fwu_serialize_open_resp (response_buffer req) handle;
      Some (rpc_status, put_response req resp, c)
    else Some (rpc_status, req, c)
  else Some (rpc_status, req, c).

Definition write_stream_handler : service C := fun c req =>
  '(rpc_status, handle, data_len, data) ←
    fwu_deserialize_write_stream_req (request_buffer req) 0 0 None;
  if rpc_status =? RPC_SUCCESS then
    '(status, c) ← update_agent_write_stream agent c handle data;
    Some (rpc_status, put_status req status, c)
  else Some (rpc_status, req, c).

(** A buffer of no bytes is not accessed, wherever it is. *)
Definition read_stream_handler : service C := fun c req =>
  '(rpc_status, handle) ← fwu_deserialize_read_stream_req (request_buffer req) 0;
  if rpc_status =? RPC_SUCCESS then
    let '(payload_buf, max_payload) := fwu_read_stream_resp_payload (response_buffer req) in
    m ← region req;
    buf ← (if max_payload =? 0 then Some [] else load m payload_buf max_payload);
    '(status, buf, read_len, total_len, c) ← update_agent_read_stream agent c handle buf 0 0;
    m ← (if max_payload =? 0 then Some m else store m payload_buf buf);
    let req := set_response req status (response_data_length req) (Some m) in
    if status =? 0 then
      '(rpc_status, resp) ← fwu_serialize_read_stream_resp (response_buffer req) read_len total_len;
      Some (rpc_status, put_response req resp, c)
    else Some (rpc_status, req, c)
  else Some (rpc_status, req, c).

Definition commit_handler : service C := fun c req =>
  '(rpc_status, handle, accepted, max_atomic_len) ←
    fwu_deserialize_commit_req (request_buffer req) 0 false 0;
  if rpc_status =? RPC_SUCCESS then
    '(status, progress, total_work, c) ← update_agent_commit agent c handle accepted 0 0 0;
    let req := put_status req status in
    if status =? 0 then
      '(rpc_status, resp) ← fwu_serialize_commit_resp (response_buffer req) progress total_work;
      Some (rpc_status, put_response req resp, c)
    else Some (rpc_status, req, c)
  else Some (rpc_status, req, c).

Definition accept_image_handler : service C := fun c req =>
  '(rpc_status, image_type_uuid) ← fwu_deserialize_accept_req (request_buffer req) [];
  if rpc_status =? RPC_SUCCESS then
    '(status, c) ← update_agent_accept_image agent c image_type_uuid;
    Some (rpc_status, put_status req status, c)
  else Some (rpc_status, req, c).

Definition select_previous_handler : service C := fun c req =>
  '(status, c) ← update_agent_select_previous agent c;
  Some (RPC_SUCCESS, put_status req status, c).

Definition handler_table : list (service_handler C) :=
  [Handler FWU_FUNC_ID_DISCOVER discover_handler;
   Handler FWU_FUNC_ID_BEGIN_STAGING begin_staging_handler;
   Handler FWU_FUNC_ID_END_STAGING end_staging_handler;
   Handler FWU_FUNC_ID_CANCEL_STAGING cancel_staging_handler;
   Handler FWU_FUNC_ID_OPEN open_handler;
   Handler FWU_FUNC_ID_WRITE_STREAM write_stream_handler;
   Handler FWU_FUNC_ID_READ_STREAM read_stream_handler;
   Handler FWU_FUNC_ID_COMMIT commit_handler;
   Handler FWU_FUNC_ID_ACCEPT_IMAGE accept_image_handler;
   Handler FWU_FUNC_ID_SELECT_PREVIOUS select_previous_handler].

End Provider.

(** ** fwu_provider_shim.c *)

Section Shim.
Context {C : Type}.

(** The request without the headers: its memory starts after them. *)
Definition unwrap_request (req : rpc_request) (func_id : Z) (m : bytes) : rpc_request :=
  Request (source_id req) (interface_id req) (Z.land func_id 65535) (client_id req)
    (RpcService.service_status req)
    (u64 (request_data_length req - 4)) (u64 (request_size req - 4))
    (response_data_length req) (u64 (response_size req - 4)) (Some (drop 4 m)).

(** What happens to the answer [fwu_req]; the two requests share their memory. *)
Definition wrap_response (req : rpc_request) (m : bytes) (rpc_status : Z) (fwu_req : rpc_request) (c : C)
    : option (Z * rpc_request * C) :=
  payload ← region fwu_req;
  let m := take 4 m ++ payload in
  let req := set_response req (RpcService.service_status req) (response_data_length req) (Some m) in
  if negb (rpc_status =? RPC_SUCCESS) then Some (rpc_status, req, c)
  else
    let status := RpcService.service_status fwu_req in
    m ← put_uint m 0 4 status;
    let length := response_data_length fwu_req + 4 in
    let req := set_response req status (u64 length) (Some m) in
    if length >? SIZE_MAX then Some (RPC_ERROR_INVALID_RESPONSE_BODY, req, c)
    else if u64 length >? response_size req then Some (RPC_ERROR_INVALID_RESPONSE_BODY, req, c)
    else Some (rpc_status, req, c).

Definition shim_receive (fwu_rpc_interface : rpc_service_interface C) : service C := fun c req =>
  if request_data_length req <? 4 then Some (RPC_ERROR_INVALID_REQUEST_BODY, req, c)
  else if response_size req <? 4 then Some (RPC_ERROR_INVALID_RESPONSE_BODY, req, c)
  else
    m ← region req;
    func_id ← get_uint m 0 4;
    '(rpc_status, fwu_req, c) ←
      rpc_service_receive (Some fwu_rpc_interface) c (unwrap_request req func_id m);
    wrap_response req m rpc_status fwu_req c.

Definition fwu_provider_shim_init (fwu_rpc_interface : rpc_service_interface C)
    : rpc_service_interface C :=
  Service (svc_uuid fwu_rpc_interface) (shim_receive fwu_rpc_interface).

(** Returns the interface exposed to the endpoint. *)
Definition fwu_provider_init (update_agent : update_agent_interface C)
    : option (rpc_service_interface C) :=
  let table := handler_table update_agent in
  sp ← service_provider_init TS_FWU_SERVICE_UUID table (len table);
  Some (fwu_provider_shim_init (service_provider_get_rpc_interface sp)).

End Shim.

(** ** Specification: what a message asks of the agent, and what it is answered *)

Inductive fwu_message :=
  | Refused (rpc_status : Z)
  | DiscoverMessage
  | AgentMessage (o : agent_op)
  | OverrunMessage.

Definition encode32 (v : Z) : bytes := le_split 4 (u32 v).

(** A body [p] of which [n] bytes were sent, with [size] bytes for the response.  A
    begin that announces more GUIDs than memory holds is an [OverrunMessage]; a write
    that announces more data asks the agent to write data that is not there. *)
Definition parse_body (id n size : Z) (p : bytes) : fwu_message :=
  let fixed k msg := if n <? k then Refused RPC_ERROR_INVALID_REQUEST_BODY else msg in
  if id =? FWU_FUNC_ID_DISCOVER then DiscoverMessage
  else if id =? FWU_FUNC_ID_BEGIN_STAGING then
    fixed 12
      (let count := uint_at p 8 4 in
       if count >? FWU_PROVIDER_MAX_PARTIAL_UPDATE_COUNT then Refused RPC_ERROR_INTERNAL
       else match load p 12 (16 * count) with
            | Some guids => AgentMessage (BeginStaging (uint_at p 4 4) count guids)
            | None => OverrunMessage
            end)
  else if id =? FWU_FUNC_ID_END_STAGING then AgentMessage EndStaging
  else if id =? FWU_FUNC_ID_CANCEL_STAGING then AgentMessage CancelStaging
  else if id =? FWU_FUNC_ID_OPEN then
    fixed 17
      (let t := uint_at p 16 1 in
       if (t =? FWU_OPEN_OP_TYPE_READ) || (t =? FWU_OPEN_OP_TYPE_WRITE)
       then AgentMessage (OpenObject (slice p 0 16) t) else Refused RPC_ERROR_INVALID_REQUEST_BODY)
  else if id =? FWU_FUNC_ID_WRITE_STREAM then
    fixed 8 (AgentMessage (WriteObject (uint_at p 0 4) (load p 8 (uint_at p 4 4))))
  else if id =? FWU_FUNC_ID_READ_STREAM then
    fixed 4 (AgentMessage (ReadObject (uint_at p 0 4) (slice p 8 (size - 8))))
  else if id =? FWU_FUNC_ID_COMMIT then
    fixed 12 (AgentMessage (CommitObject (uint_at p 0 4) (uint_at p 4 4 =? 0)))
  else if id =? FWU_FUNC_ID_ACCEPT_IMAGE then fixed 20 (AgentMessage (AcceptImage (slice p 4 16)))
  else if id =? FWU_FUNC_ID_SELECT_PREVIOUS then AgentMessage SelectPrevious
  else Refused RPC_ERROR_INVALID_VALUE.

Definition parse_message (req : rpc_request) : fwu_message :=
  let m := default [] (region req) in
  if request_data_length req <? 4 then Refused RPC_ERROR_INVALID_REQUEST_BODY
  else if response_size req <? 4 then Refused RPC_ERROR_INVALID_RESPONSE_BODY
  else parse_body (Z.land (uint_at m 0 4) 65535) (request_data_length req - 4)
         (response_size req - 4) (drop 4 m).

Section Spec.
Context {C : Type} (agent : update_agent_interface C).

(** The service status and the body of the response. *)
Definition agent_call (c : C) (o : agent_op) : option (Z * bytes * C) :=
  let plain r := '(st, c) ← r; Some (st, [], c) in
  match o with
  | BeginStaging flags count guid => plain (update_agent_begin_staging agent c flags count guid)
  | EndStaging => plain (update_agent_end_staging agent c)
  | CancelStaging => plain (update_agent_cancel_staging agent c)
  | OpenObject uuid t =>
      '(st, h, c) ← update_agent_open agent c uuid t 0;
      Some (st, (if st =? 0 then encode32 h else []), c)
  | WriteObject h data => plain (update_agent_write_stream agent c h data)
  | ReadObject h buf =>
      '(st, buf, rl, tl, c) ← update_agent_read_stream agent c h buf 0 0;
      Some (st, (if st =? 0 then encode32 rl ++ encode32 tl ++ take (Z.to_nat rl) buf else []), c)
  | CommitObject h acc =>
      '(st, progress, total, c) ← update_agent_commit agent c h acc 0 0 0;
      Some (st, (if st =? 0 then encode32 progress ++ encode32 total else []), c)
  | AcceptImage uuid => plain (update_agent_accept_image agent c uuid)
  | SelectPrevious => plain (update_agent_select_previous agent c)
  end.

(** What the service relies on: on the states of [Inv] every operation whose data is
    in memory returns and keeps [Inv], as does a write of other data if it returns,
    and a read stays inside its buffer. *)
Class UpdateAgentLaws (Inv : C -> Prop) : Prop := {
  agent_returns c o : Inv c -> agent_op_ok o ->
    exists st body c', agent_call c o = Some (st, body, c') /\ Inv c';
  agent_overrun c h st body c' : Inv c ->
    agent_call c (WriteObject h None) = Some (st, body, c') -> Inv c';
  agent_read_bounded c h buf st buf' rl tl c' : Inv c ->
    update_agent_read_stream agent c h buf 0 0 = Some (st, buf', rl, tl, c') ->
    len buf' = len buf /\ (st = 0 -> 0 <= rl <= len buf)
}.

End Spec.

(** ** Lemmas: fields *)

Lemma len_encode32 v : len (encode32 v) = 4.
Proof. unfold len, encode32. by rewrite length_le_split. Qed.

Lemma put_uint_32 m off v : put_uint m off 4 v = store m off (encode32 v).
Proof. done. Qed.

Lemma put_fields m off v w :
  (m ← put_uint m off 4 v; put_uint m (off + 4) 4 w) = store m off (encode32 v ++ encode32 w).
Proof. rewrite <- store_app, len_encode32. done. Qed.

(** ** Lemmas: the handlers *)

(** An unwrapped request and its memory. *)
Record body_ok (r : rpc_request) (p : bytes) : Prop := {
  bo_region : region r = Some p;
  bo_length : 0 <= request_data_length r <= len p;
  bo_size : 0 <= response_size r <= len p;
  bo_bound : response_size r < 2 ^ 32;
  bo_response : response_data_length r = 0
}.

(** The body of the response to a discovery. *)
Definition present {A} (func : option A) (id : Z) : bytes :=
  match func with Some _ => [id] | None => [] end.

Section Handlers.
Context {C : Type} (agent : update_agent_interface C).
Context (Inv : C -> Prop) {Hlaws : UpdateAgentLaws agent Inv}.
Implicit Types c : C.
Implicit Types r : rpc_request.

Definition function_ids : bytes :=
  present (if_discover agent) 0 ++ present (if_begin_staging agent) 16 ++
  present (if_end_staging agent) 17 ++ present (if_cancel_staging agent) 18 ++
  present (if_open agent) 19 ++ present (if_write_stream agent) 20 ++
  present (if_read_stream agent) 21 ++ present (if_commit agent) 22 ++
  present (if_accept_image agent) 23 ++ present (if_select_previous agent) 24.

Definition discover_body (d : fwu_discovery_result) : bytes :=
  le_split 2 (u16 (UpdateAgent.service_status d)) ++ le_split 1 (u8 (version_major d)) ++
  le_split 1 (u8 (version_minor d)) ++ le_split 2 24 ++ le_split 2 (len function_ids) ++
  le_split 8 (u64 (max_payload_size d)) ++ encode32 (dr_flags d) ++
  encode32 (vendor_specific_flags d) ++ function_ids.

(** The body of a discovery is written, but its length is not reported. *)
Definition discovered (wrap_status : Z -> bytes) c r (status : Z) r' : Prop :=
  let '(st, d) := update_agent_discover agent c (FwuDiscoveryResult 0 0 0 0 0 0) in
  answered RPC_ERROR_INVALID_RESPONSE_BODY r st (wrap_status st)
    (if st =? 0 then discover_body d else []) 0 status r'.

(** A message served: refused ones change nothing, the others are the agent's to
    answer, and where the agent does not return, neither does the service.  The
    response starts with [wrap_status] of the service status. *)
Definition served (wrap_status : Z -> bytes) c r (msg : fwu_message)
    (res : option (Z * rpc_request * C)) : Prop :=
  match msg with
  | Refused st => res = Some (st, r, c)
  | DiscoverMessage =>
      exists status r', res = Some (status, r', c) /\ discovered wrap_status c r status r'
  | AgentMessage o =>
      match agent_call agent c o with
      | Some (st, body, c') => exists status r', res = Some (status, r', c') /\
          answered RPC_ERROR_INTERNAL r st (wrap_status st) body (len body) status r'
      | None => res = None
      end
  | OverrunMessage => res = None
  end.

Definition handled := served (fun _ => []).

Lemma plain_handled c r p o (call : option (Z * C)) :
  body_ok r p -> agent_call agent c o = ('(st, c) ← call; Some (st, [], c)) ->
  handled c r (AgentMessage o) ('(st, c) ← call; Some (RPC_SUCCESS, put_status r st, c)).
Proof.
  intros Hr Hcall. unfold handled, served. rewrite Hcall. destruct call as [[st1 c1]|]; [|done].
  cbn [mbind option_bind]. eexists _, _. split; [done|]. eapply plain_answer; apply Hr.
Qed.

Lemma add_func_ok {A} (func : option A) id l :
  len l < 10 ->
  add_func_if_present func id (len l, l ++ fill 0 (10 - len l)) =
    Some (len (l ++ present func id), (l ++ present func id) ++ fill 0 (10 - len (l ++ present func id))).
Proof.
  intros Hl. pose proof (len_nonneg l). destruct func; simpl; [|by rewrite app_nil_r].
  unfold setZ. destruct ((0 <=? len l) && _) eqn:E; [|len_simpl; unfold fill in *; rewrite length_replicate in *; lia].
  cbn [mbind option_bind]. f_equal. f_equal.
  - rewrite wrap_small by lia. len_lia.
  - replace (Z.to_nat (len l)) with (length l + 0)%nat by len_lia.
    rewrite insert_app_r. unfold fill.
    replace (Z.to_nat (10 - len l)) with (Datatypes.S (Z.to_nat (10 - len (l ++ [id])))) by len_lia.
    simpl. by rewrite <- app_assoc.
Qed.

Lemma len_present {A} (func : option A) id : 0 <= len (present func id) <= 1.
Proof. by destruct func. Qed.

Lemma function_presence_ok :
  generate_function_presence agent (fill 0 FWU_FUNC_ID_COUNT)
    = Some (len function_ids, function_ids ++ fill 0 (10 - len function_ids)) /\
  0 <= len function_ids <= 10.
Proof.
  pose proof (len_present (if_discover agent) 0). pose proof (len_present (if_begin_staging agent) 16).
  pose proof (len_present (if_end_staging agent) 17). pose proof (len_present (if_cancel_staging agent) 18).
  pose proof (len_present (if_open agent) 19). pose proof (len_present (if_write_stream agent) 20).
  pose proof (len_present (if_read_stream agent) 21). pose proof (len_present (if_commit agent) 22).
  pose proof (len_present (if_accept_image agent) 23). pose proof (len_present (if_select_previous agent) 24).
  unfold generate_function_presence, function_ids, FWU_FUNC_ID_DISCOVER, FWU_FUNC_ID_BEGIN_STAGING,
    FWU_FUNC_ID_END_STAGING, FWU_FUNC_ID_CANCEL_STAGING, FWU_FUNC_ID_OPEN, FWU_FUNC_ID_WRITE_STREAM,
    FWU_FUNC_ID_READ_STREAM, FWU_FUNC_ID_COMMIT, FWU_FUNC_ID_ACCEPT_IMAGE, FWU_FUNC_ID_SELECT_PREVIOUS.
  change (0, fill 0 FWU_FUNC_ID_COUNT) with
    (len (@nil Z), [] ++ fill 0 (10 - len (@nil Z))).
  repeat (rewrite add_func_ok by (rewrite ?len_app; change (len (@nil Z)) with 0; lia);
          cbn [mbind option_bind]).
  rewrite <- !app_assoc. split; [done|]. rewrite !len_app. lia.
Qed.


Lemma serialize_discover_ok resp p d :
  buf_data resp = Some p -> len function_ids <= 10 ->
  fwu_serialize_discover_resp resp (UpdateAgent.service_status d) (version_major d) (version_minor d)
    (len function_ids) (max_payload_size d) (dr_flags d) (vendor_specific_flags d)
    (function_ids ++ fill 0 (10 - len function_ids)) =
  if 24 + len function_ids <=? buf_size resp then
    p ← store p 0 (discover_body d);
    Some (RPC_SUCCESS, Buffer (Some p) (buf_data_length resp) (buf_size resp))
  else Some (RPC_ERROR_INVALID_RESPONSE_BODY, resp).
Proof.
  intros Hp Hn. pose proof (len_nonneg function_ids). unfold fwu_serialize_discover_resp, SIZE_MAX.
  destruct (24 + len function_ids >? _) eqn:E; [lia|]. clear E. destruct (_ <=? buf_size resp); [|done].
  rewrite Hp. cbn [mbind option_bind]. unfold discover_body, encode32.
  change (le_split 2 24) with (le_split 2 (wrap (8 * Z.of_nat 2) 24)).
  replace (le_split 2 (len function_ids)) with (le_split 2 (wrap (8 * Z.of_nat 2) (len function_ids)))
    by (rewrite wrap_small by (simpl; lia); done).
  repeat (rewrite put_cons;
    match goal with |- context [put_uint ?b ?o ?n ?v ≫= _] =>
      destruct (put_uint b o n v) as [?q|]; [cbn [mbind option_bind]|done] end;
    match goal with |- context [?o + Z.of_nat ?n] =>
      let k := eval vm_compute in (o + Z.of_nat n) in change (o + Z.of_nat n) with k end).
  rewrite load_ok by (rewrite ?len_app; pose proof (len_nonneg (fill 0 (10 - len function_ids))); lia).
  cbn [mbind option_bind]. unfold len at 1. by rewrite Nat2Z.id, drop_0, take_app_length.
Qed.


Lemma len_discover_body d : len (discover_body d) = 24 + len function_ids.
Proof.
  assert (forall n v, len (le_split n v) = Z.of_nat n) as Hlen
    by (intros; unfold len; by rewrite length_le_split).
  unfold discover_body. rewrite !len_app, !len_encode32, !Hlen. lia.
Qed.

Lemma discover_handled c r p :
  body_ok r p -> handled c r DiscoverMessage (discover_handler agent c r).
Proof.
  intros Hr. pose proof Hr as [Hreg Hl Hs Hb Hd]. destruct function_presence_ok as [Hgen Hids].
  unfold handled, served, discovered, discover_handler.
  destruct (update_agent_discover agent c _) as [st d]. destruct (Z.eqb_spec st 0) as [->|Hne].
  - rewrite Hgen. cbn [mbind option_bind].
    rewrite (serialize_discover_ok _ p) by (done || lia). simpl buf_size.
    pose proof (len_discover_body d). destruct (Z.leb_spec (24 + len function_ids) (response_size r)) as [Hf|Hf].
    + destruct (store_front p (discover_body d)) as (p' & -> & Hlen & Hsl); [lia|].
      cbn [mbind option_bind]. eexists _, _. split; [done|]. unfold put_response. simpl. rewrite Hd.
      apply (stored_answer _ r p); done || lia.
    + cbn [mbind option_bind]. eexists _, _. split; [done|]. apply (small_answer _ r _ p p); done || lia.
  - eexists _, _. split; [done|]. eapply plain_answer; apply Hr.
Qed.

(** Open a handler on its request: too short for the fixed part, or its fields. *)
Ltac open_request r p Hreg :=
  unfold parse_body; simpl Z.eqb; cbv match; simpl buf_data_length; simpl buf_data; rewrite Hreg;
  rewrite Z.leb_antisym;
  match goal with |- context [request_data_length r <? ?k] =>
    destruct (Z.ltb_spec (request_data_length r) k); cbn [negb]; [done|] end;
  cbn [mbind option_bind]; rewrite ?get_uint_ok by lia; cbn [mbind option_bind].

Lemma begin_handled c r p :
  body_ok r p ->
  handled c r (parse_body FWU_FUNC_ID_BEGIN_STAGING (request_data_length r) (response_size r) p)
    (begin_staging_handler agent c r).
Proof.
  intros Hr. pose proof Hr as [Hreg Hl Hs Hb Hd].
  unfold begin_staging_handler, fwu_deserialize_begin_staging_req. open_request r p Hreg.
  unfold FWU_PROVIDER_MAX_PARTIAL_UPDATE_COUNT, SIZE_MAX.
  destruct (12 + uint_at p 8 4 >? 2 ^ 64 - 1) eqn:E2.
  { pose proof (uint_at_bound p 8 4 ltac:(lia)). lia. }
  destruct (uint_at p 8 4 >? 4); [done|]. destruct (load p 12 (16 * uint_at p 8 4)); [|done].
  cbn [mbind option_bind]. by eapply plain_handled.
Qed.

Lemma open_handled c r p :
  body_ok r p ->
  handled c r (parse_body FWU_FUNC_ID_OPEN (request_data_length r) (response_size r) p)
    (open_handler agent c r).
Proof.
  intros Hr. pose proof Hr as [Hreg Hl Hs Hb Hd].
  unfold open_handler, fwu_deserialize_open_req. open_request r p Hreg.
  destruct (_ || _); [|done]. rewrite load_is_slice by lia. cbn [mbind option_bind].
  unfold handled, served. cbn [agent_call]. simpl (RPC_SUCCESS =? RPC_SUCCESS). cbv match.
  destruct (update_agent_open agent c _ _ 0) as [[[st1 h] c1]|]; [|done].
  cbn [mbind option_bind]. destruct (Z.eqb_spec st1 0) as [->|_].
  - unfold fwu_serialize_open_resp. simpl buf_size. simpl buf_data. rewrite Hreg.
    destruct (Z.leb_spec 4 (response_size r)) as [Hf|Hf]; cbn [mbind option_bind].
    + destruct (store_front p (encode32 h)) as (p' & Hst & Hlen & Hsl); [rewrite len_encode32; lia|].
      rewrite put_uint_32, Hst. cbn [mbind option_bind]. eexists _, _. split; [done|].
      by apply (stored_answer _ r p); [..|rewrite len_encode32; lia|].
    + eexists _, _. split; [done|]. apply (small_answer _ r _ p p); [done..|]. by rewrite len_encode32.
  - eexists _, _. split; [done|]. eapply plain_answer; apply Hr.
Qed.

Lemma write_handled c r p :
  body_ok r p ->
  handled c r (parse_body FWU_FUNC_ID_WRITE_STREAM (request_data_length r) (response_size r) p)
    (write_stream_handler agent c r).
Proof.
  intros Hr. pose proof Hr as [Hreg Hl Hs Hb Hd].
  unfold write_stream_handler, fwu_deserialize_write_stream_req. open_request r p Hreg.
  by eapply plain_handled.
Qed.

Lemma accept_handled c r p :
  body_ok r p ->
  handled c r (parse_body FWU_FUNC_ID_ACCEPT_IMAGE (request_data_length r) (response_size r) p)
    (accept_image_handler agent c r).
Proof.
  intros Hr. pose proof Hr as [Hreg Hl Hs Hb Hd].
  unfold accept_image_handler, fwu_deserialize_accept_req. open_request r p Hreg.
  rewrite load_is_slice by lia. by eapply plain_handled.
Qed.

Lemma commit_handled c r p :
  body_ok r p ->
  handled c r (parse_body FWU_FUNC_ID_COMMIT (request_data_length r) (response_size r) p)
    (commit_handler agent c r).
Proof.
  intros Hr. pose proof Hr as [Hreg Hl Hs Hb Hd].
  unfold commit_handler, fwu_deserialize_commit_req. open_request r p Hreg.
  unfold handled, served. cbn [agent_call]. simpl (RPC_SUCCESS =? RPC_SUCCESS). cbv match.
  destruct (update_agent_commit agent c _ _ 0 0 0) as [[[[st1 pr] tw] c1]|]; [|done].
  cbn [mbind option_bind]. destruct (Z.eqb_spec st1 0) as [->|_].
  - assert (len (encode32 pr ++ encode32 tw) = 8) as Hlen8 by (rewrite len_app, !len_encode32; lia).
    unfold fwu_serialize_commit_resp. simpl buf_size. simpl buf_data. rewrite Hreg.
    destruct (Z.leb_spec 8 (response_size r)) as [Hf|Hf]; cbn [mbind option_bind].
    + destruct (store_front p (encode32 pr ++ encode32 tw)) as (p' & Hst & Hlen & Hsl); [lia|].
      rewrite put_uint_32. rewrite <- store_app, len_encode32 in Hst. change (0 + 4) with 4 in Hst.
      destruct (store p 0 (encode32 pr)) as [q|]; [|done]. cbn [mbind option_bind] in *.
      rewrite put_uint_32, Hst. cbn [mbind option_bind]. eexists _, _. split; [done|].
      apply (stored_answer _ r p); done || lia.
    + eexists _, _. split; [done|]. apply (small_answer _ r _ p p); done || lia.
  - eexists _, _. split; [done|]. eapply plain_answer; apply Hr.
Qed.


(** The memory after the agent has filled the payload. *)
Lemma payload_filled p size buf :
  0 <= size <= len p -> len buf = len (slice p 8 (size - 8)) ->
  exists p1, (if (if 8 <? size then size - 8 else 0) =? 0 then Some p else store p 8 buf) = Some p1 /\
    len p1 = len p /\ forall n, 0 <= n <= len buf -> slice p1 8 n = take (Z.to_nat n) buf.
Proof.
  intros Hs Hb. destruct (Z.ltb_spec 8 size) as [H8|H8].
  - rewrite slice_len in Hb by lia. destruct (Z.eqb_spec (size - 8) 0); [lia|].
    destruct (store_ok p 8 buf) as [p1 Hst]; [lia..|]. exists p1. split; [done|].
    pose proof (store_len _ _ _ _ Hst). split; [done|]. intros k Hk.
    pose proof (load_store_same _ _ _ _ Hst) as Hl. rewrite load_is_slice in Hl by lia.
    injection Hl as Hl. rewrite <- Hl. unfold slice. rewrite take_take. f_equal. lia.
  - assert (slice p 8 (size - 8) = []) as Hn by (unfold slice; by replace (Z.to_nat (size - 8)) with 0%nat by lia).
    rewrite Hn in Hb. simpl. exists p. split; [done|]. split; [done|]. intros n Hle.
    replace n with 0 by len_lia. done.
Qed.

Lemma read_answer c1 r p p1 buf rl tl :
  body_ok r p -> len p1 = len p -> len buf = len (slice p 8 (response_size r - 8)) ->
  0 <= rl <= len buf -> (forall n, 0 <= n <= len buf -> slice p1 8 n = take (Z.to_nat n) buf) ->
  let r1 := set_response r 0 (response_data_length r) (Some p1) in
  exists status r',
    ('(status, resp) ← fwu_serialize_read_stream_resp (response_buffer r1) rl tl;
     Some (status, put_response r1 resp, c1)) = Some (status, r', c1) /\
    let body := encode32 rl ++ encode32 tl ++ take (Z.to_nat rl) buf in
    answered RPC_ERROR_INTERNAL r 0 [] body (len body) status r'.
Proof.
  intros [Hreg Hl Hs Hb Hd] Hl1 Hlb Hrl Hsl r1. set (body := encode32 rl ++ encode32 tl ++ take (Z.to_nat rl) buf).
  assert (len buf <= Z.max 0 (response_size r - 8)) as Hbuf.
  { rewrite Hlb. unfold slice. len_lia. }
  assert (len body = 8 + rl) as Hlen.
  { unfold body. rewrite !len_app, !len_encode32. len_lia. }
  unfold fwu_serialize_read_stream_resp, SIZE_MAX. simpl buf_size. simpl buf_data.
  destruct (rl >? _) eqn:E; [lia|]. clear E.
  destruct (Z.leb_spec (8 + rl) (response_size r)) as [Hf|Hf]; cbn [mbind option_bind].
  - destruct (store_front p1 (encode32 rl ++ encode32 tl)) as (p2 & Hst & Hl2 & Hs2);
      [rewrite len_app, !len_encode32; lia|]. pose proof Hst as Hst'.
    rewrite put_uint_32. rewrite <- store_app, len_encode32 in Hst. change (0 + 4) with 4 in Hst.
    destruct (store p1 0 (encode32 rl)) as [q|]; [|done]. cbn [mbind option_bind] in *.
    rewrite put_uint_32, Hst. cbn [mbind option_bind]. eexists _, _. split; [done|].
    apply (stored_answer _ r p); [done|lia| |lia|simpl; lia]. rewrite Hlen.
    rewrite slice_app by lia. rewrite len_app, !len_encode32 in Hs2. change (4 + 4) with 8 in Hs2.
    rewrite Hs2, (slice_store_disjoint p1 (0 + 8) rl 0 _ p2) by (done || (rewrite len_app, !len_encode32; lia)).
    change (0 + 8) with 8; rewrite (Hsl rl) by lia. unfold body. by rewrite <- app_assoc.
  - eexists _, _. split; [done|]. apply (small_answer _ r _ p p1); done || lia.
Qed.

Lemma read_handled c r p :
  Inv c -> body_ok r p ->
  handled c r (parse_body FWU_FUNC_ID_READ_STREAM (request_data_length r) (response_size r) p)
    (read_stream_handler agent c r).
Proof.
  intros Hinv Hr. pose proof Hr as [Hreg Hl Hs Hb Hd].
  unfold read_stream_handler, fwu_deserialize_read_stream_req. open_request r p Hreg.
  simpl (RPC_SUCCESS =? RPC_SUCCESS). cbv match. unfold fwu_read_stream_resp_payload. simpl buf_size.
  unfold handled, served. cbn [agent_call].
  set (max := if 8 <? response_size r then response_size r - 8 else 0).
  assert ((if max =? 0 then Some [] else load p 8 max) = Some (slice p 8 (response_size r - 8))) as ->.
  { subst max. destruct (Z.ltb_spec 8 (response_size r)).
    - destruct (Z.eqb_spec (response_size r - 8) 0); [lia|]. by apply load_is_slice; lia.
    - simpl. unfold slice. by replace (Z.to_nat (response_size r - 8)) with 0%nat by lia. }
  cbn [mbind option_bind].
  destruct (update_agent_read_stream agent c _ _ 0 0) as [[[[[st1 buf] rl] tl] c1]|] eqn:Hread; [|done].
  destruct (@agent_read_bounded _ _ _ Hlaws _ _ _ _ _ _ _ _ Hinv Hread) as [Hlb Hrl].
  cbn [mbind option_bind].
  destruct (payload_filled p (response_size r) buf) as (p1 & Hp1 & Hlp1 & Hsl1); [done..|].
  subst max. rewrite Hp1. cbn [mbind option_bind]. destruct (Z.eqb_spec st1 0) as [->|_].
  - apply (read_answer c1 r p p1 buf rl tl); [done..| |done]. rewrite Hlb. by apply Hrl.
  - eexists _, _. split; [done|]. exists p1. simpl. rewrite Hreg, Hd. split; [done|].
    split; [simpl; congruence|].
    destruct (Z.leb_spec (len (@nil Z) + len (@nil Z)) (response_size r)); [done|len_lia].
Qed.


(** Dispatch: the provider serves a body as its parsed message asks. *)
Lemma provider_handled c r p sp :
  Inv c -> body_ok r p ->
  service_provider_init TS_FWU_SERVICE_UUID (handler_table agent)
    (len (handler_table agent)) = Some sp ->
  handled c r (parse_body (opcode r) (request_data_length r) (response_size r) p)
    (receive sp c r).
Proof.
  intros Hinv Hr Hinit.
  destruct (service_provider_init_ok TS_FWU_SERVICE_UUID (handler_table agent))
    as (sp' & Hi & Htab & Hh & Hs). rewrite Hinit in Hi. injection Hi as <-.
  rewrite receive_spec, Hh, Hs by done. unfold first_handler, handler_table. cbn [find_index h_opcode].
  rewrite !(Z.eqb_sym _ (opcode r)).
  destruct (Z.eqb_spec (opcode r) FWU_FUNC_ID_DISCOVER) as [E|N0]; [rewrite E; by eapply discover_handled|].
  destruct (Z.eqb_spec (opcode r) FWU_FUNC_ID_BEGIN_STAGING) as [E|N1]; [rewrite E; by apply begin_handled|].
  destruct (Z.eqb_spec (opcode r) FWU_FUNC_ID_END_STAGING) as [E|N2]; [rewrite E; by eapply plain_handled|].
  destruct (Z.eqb_spec (opcode r) FWU_FUNC_ID_CANCEL_STAGING) as [E|N3]; [rewrite E; by eapply plain_handled|].
  destruct (Z.eqb_spec (opcode r) FWU_FUNC_ID_OPEN) as [E|N4]; [rewrite E; by apply open_handled|].
  destruct (Z.eqb_spec (opcode r) FWU_FUNC_ID_WRITE_STREAM) as [E|N5]; [rewrite E; by apply write_handled|].
  destruct (Z.eqb_spec (opcode r) FWU_FUNC_ID_READ_STREAM) as [E|N6]; [rewrite E; by apply read_handled|].
  destruct (Z.eqb_spec (opcode r) FWU_FUNC_ID_COMMIT) as [E|N7]; [rewrite E; by apply commit_handled|].
  destruct (Z.eqb_spec (opcode r) FWU_FUNC_ID_ACCEPT_IMAGE) as [E|N8]; [rewrite E; by apply accept_handled|].
  destruct (Z.eqb_spec (opcode r) FWU_FUNC_ID_SELECT_PREVIOUS) as [E|N9]; [rewrite E; by eapply plain_handled|].
  unfold parse_body. apply Z.eqb_neq in N0 as ->, N1 as ->, N2 as ->, N3 as ->, N4 as ->, N5 as ->,
    N6 as ->, N7 as ->, N8 as ->, N9 as ->. done.
Qed.


Lemma unwrap_body_ok req m id :
  request_ok req -> region req = Some m -> response_data_length req = 0 ->
  4 <= request_data_length req -> 4 <= response_size req ->
  body_ok (unwrap_request req id m) (drop 4 m) /\
  request_data_length (unwrap_request req id m) = request_data_length req - 4 /\
  response_size (unwrap_request req id m) = response_size req - 4.
Proof.
  intros (Hl & Hb & Hs & Hm) Hreg Hd H4 H4'. rewrite Hreg in Hm.
  assert (request_data_length (unwrap_request req id m) = request_data_length req - 4) as E1
    by (simpl; apply wrap_small; lia).
  assert (response_size (unwrap_request req id m) = response_size req - 4) as E2
    by (simpl; apply wrap_small; lia).
  assert (len (drop 4 m) = len m - 4) as Hdrop by (unfold len in *; rewrite length_drop; lia).
  split; [|done]. split; rewrite ?E1, ?E2; done || lia.
Qed.

(** The shim puts the service status in front. *)
Lemma shim_reply c req m r1 p st body rpc_status n :
  request_ok req -> region req = Some m -> 4 <= response_size req ->
  region r1 = Some p -> len p = len m - 4 -> RpcService.service_status r1 = st ->
  slice p 0 (len body) = body -> response_data_length r1 = n -> 0 <= n <= response_size req - 4 ->
  len body <= len p -> rpc_status = RPC_SUCCESS ->
  exists req', wrap_response req m rpc_status r1 c = Some (RPC_SUCCESS, req', c) /\
    exists m', region req' = Some m' /\ len m' = len m /\ RpcService.service_status req' = st /\
      response_data_length req' = 4 + n /\ slice m' 0 (4 + len body) = encode32 st ++ body.
Proof.
  intros (Hl & Hb & Hs & Hm) Hreg H4 Hp Hlp Hst Hsl Hn Hbn Hlb ->. rewrite Hreg in Hm.
  unfold wrap_response. rewrite Hp, Hst, Hn. cbn [mbind option_bind]. simpl (RPC_SUCCESS =? RPC_SUCCESS). cbn [negb]. cbv match.
  pose proof (len_nonneg body).
  assert (len (take 4 m) = 4) as H4m by (unfold len in *; rewrite length_take; lia).
  destruct (store_front (take 4 m ++ p) (encode32 st)) as (m' & Hm' & Hlm & Hslm);
    [rewrite len_app, len_encode32; lia|]. rewrite put_uint_32, Hm'. cbn [mbind option_bind].
  rewrite (wrap_small 64) by lia. unfold SIZE_MAX. destruct (n + 4 >? 2 ^ 64 - 1) eqn:E; [lia|]. clear E.
  simpl (response_size _). destruct (n + 4 >? response_size req) eqn:E; [lia|]. clear E.
  eexists. split; [done|]. exists m'. split; [done|]. rewrite len_app in Hlm. split; [lia|].
  split; [done|]. split; [simpl; lia|]. rewrite len_encode32 in Hslm.
  rewrite slice_app by lia. rewrite Hslm. f_equal.
  rewrite (slice_store_disjoint _ (0 + 4) (len body) 0 (encode32 st) m') by (rewrite ?len_encode32; done || lia).
  rewrite <- Hsl at 2. unfold slice. rewrite drop_0. f_equal. change (Z.to_nat (0 + 4)) with 4%nat.
  by rewrite drop_app_length' by (unfold len in H4m; lia).
Qed.


Lemma shim_failure c req m r1 p rpc_status :
  region r1 = Some p -> rpc_status <> RPC_SUCCESS ->
  wrap_response req m rpc_status r1 c = Some (rpc_status,
    set_response req (RpcService.service_status req) (response_data_length req) (Some (take 4 m ++ p)), c).
Proof.
  intros Hp Hne. unfold wrap_response. rewrite Hp. cbn [mbind option_bind].
  by destruct (Z.eqb_spec rpc_status RPC_SUCCESS).
Qed.

(** Wrapping what the provider answered. *)
Lemma shim_answered err c req m r1 st body n rpc_status r2 :
  request_ok req -> region req = Some m -> 4 <= response_size req ->
  region r1 = Some (drop 4 m) -> response_size r1 = response_size req - 4 ->
  err <> RPC_SUCCESS -> 0 <= n <= len body -> answered err r1 st [] body n rpc_status r2 ->
  exists status req', wrap_response req m rpc_status r2 c = Some (status, req', c) /\
    answered err req st (encode32 st) body n status req'.
Proof.
  intros Hok Hreg H4 Hr1 Hsz Herr Hn (p & Hp & Hlp & Hans). pose proof Hok as (Hl & Hb & Hs & Hm).
  rewrite Hreg in Hm. rewrite Hr1 in Hlp. simpl in Hlp. injection Hlp as Hlp.
  assert (len p = len m - 4) as Hlp' by (rewrite Hlp; unfold len in *; rewrite length_drop; lia).
  unfold answered. rewrite Hreg, len_encode32. simpl. change (len (@nil Z) + len body) with (len body) in Hans.
  rewrite Hsz in Hans. destruct (Z.leb_spec (len body) (response_size req - 4)) as [Hf|Hf].
  - destruct Hans as (Hst & Hss & Hrep & Hsl).
    destruct (shim_reply c req m r2 p st body rpc_status n) as (req' & Hw & m' & Hm' & Hlm & Hs1 & Hs2 & Hs3);
      try done; [pose proof (len_nonneg body); lia..|].
    eexists _, _. split; [exact Hw|]. exists m'. split; [done|]. split; [congruence|].
    destruct (Z.leb_spec (4 + len body) (response_size req)); [done|lia].
  - subst rpc_status. eexists _, _. rewrite (shim_failure _ _ _ _ p) by done. split; [done|].
    eexists. split; [done|]. rewrite len_app. split.
    + f_equal. unfold len in *. rewrite length_take. lia.
    + destruct (Z.leb_spec (4 + len body) (response_size req)); [lia|done].
Qed.

Lemma parse_refused id n size p st :
  parse_body id n size p = Refused st -> st <> RPC_SUCCESS.
Proof. unfold parse_body. intros H ->. by repeat case_match. Qed.

Lemma parse_op_ok id n size p o :
  n <= len p -> parse_body id n size p = AgentMessage o ->
  agent_op_ok o \/ exists h, o = WriteObject h None.
Proof.
  unfold parse_body. intros Hn H. repeat case_match; simplify_eq; simpl;
    first [done | by left | left; apply slice_len; lia | idtac].
  destruct (load p 8 (uint_at p 4 4)); [left|right]; by eexists.
Qed.

Lemma parse_message_ok req o :
  request_ok req -> parse_message req = AgentMessage o ->
  agent_op_ok o \/ exists h, o = WriteObject h None.
Proof.
  intros (Hl & Hb & Hs & Hm). unfold parse_message.
  destruct (Z.ltb_spec (request_data_length req) 4) as [|H4]; [done|]. destruct (_ <? 4); [done|].
  destruct (region req) as [m|]; [|lia]. simpl. apply parse_op_ok.
  unfold len in *. rewrite length_drop. lia.
Qed.

(** The service serves every message as it is parsed. *)
Lemma fwu_served svc c req :
  Inv c -> request_ok req -> response_data_length req = 0 ->
  fwu_provider_init agent = Some svc ->
  served encode32 c req (parse_message req) (svc_receive svc c req).
Proof.
  intros Hinv Hok Hd Hinit. unfold fwu_provider_init in Hinit.
  destruct (service_provider_init _ _ _) as [sp|] eqn:Hsp; [|done]. injection Hinit as <-.
  simpl. unfold shim_receive, parse_message.
  destruct (Z.ltb_spec (request_data_length req) 4) as [H4|H4]; [done|].
  destruct (Z.ltb_spec (response_size req) 4) as [H4'|H4']; [done|].
  pose proof Hok as (Hl & Hb & Hs & Hm). destruct (region req) as [m|] eqn:Hreg; [|lia]. simpl.
  rewrite get_uint_ok by lia. cbn [mbind option_bind].
  destruct (unwrap_body_ok req m (uint_at m 0 4) Hok Hreg Hd H4 H4') as (Hbody & E1 & E2).
  pose proof (provider_handled c _ _ sp Hinv Hbody Hsp) as Hserve. rewrite E1, E2 in Hserve.
  simpl opcode in Hserve. unfold rpc_service_receive, service_provider_get_rpc_interface, svc_receive.
  destruct (parse_body _ _ _ _) as [st| |o|] eqn:Hmsg; unfold handled, served in *.
  - rewrite Hserve. cbn [mbind option_bind]. rewrite (shim_failure _ _ _ _ (drop 4 m)) by (done || by eapply parse_refused).
    rewrite take_drop. by destruct req; simpl in *; subst.
  - destruct Hserve as (status & r' & -> & Hans). cbn [mbind option_bind]. unfold discovered in *.
    destruct (update_agent_discover agent c _) as [st d].
    apply (shim_answered _ c req m _ _ _ _ _ _ Hok Hreg H4' (bo_region _ _ Hbody) E2); [done| |done].
    pose proof (len_nonneg (if st =? 0 then discover_body d else [])). lia.
  - destruct (agent_call agent c o) as [[[st body] c']|]; [|by rewrite Hserve].
    destruct Hserve as (status & r' & -> & Hans).
    cbn [mbind option_bind]. pose proof (len_nonneg body).
    by apply (shim_answered _ c' req m _ _ _ _ _ _ Hok Hreg H4' (bo_region _ _ Hbody) E2); [|lia|].
  - by rewrite Hserve.
Qed.

End Handlers.

(** ** Sessions *)

(** One message served: the RPC status, the request with its response, the state. *)
Inductive fwu_step {C} (agent : update_agent_interface C) (c : C) (req : rpc_request)
    : Z -> rpc_request -> C -> Prop :=
  | step_refused st : parse_message req = Refused st -> fwu_step agent c req st req c
  | step_discover status req' :
      parse_message req = DiscoverMessage -> discovered agent encode32 c req status req' ->
      fwu_step agent c req status req' c
  | step_agent o st body c' status req' :
      parse_message req = AgentMessage o -> agent_call agent c o = Some (st, body, c') ->
      answered RPC_ERROR_INTERNAL req st (encode32 st) body (len body) status req' ->
      fwu_step agent c req status req' c'.

Inductive fwu_session {C} (agent : update_agent_interface C)
    : C -> list rpc_request -> list (Z * rpc_request) -> C -> Prop :=
  | session_nil c : fwu_session agent c [] [] c
  | session_cons c req status req' c1 reqs out c2 :
      fwu_step agent c req status req' c1 -> fwu_session agent c1 reqs out c2 ->
      fwu_session agent c (req :: reqs) ((status, req') :: out) c2.

(** The message announces GUIDs or data that are not in the caller's memory. *)
Definition overruns (req : rpc_request) : Prop :=
  parse_message req = OverrunMessage \/ exists h, parse_message req = AgentMessage (WriteObject h None).

Section Session.
Context {C : Type} (agent : update_agent_interface C) (Inv : C -> Prop).
Context {Hlaws : UpdateAgentLaws agent Inv} (svc : rpc_service_interface C).
Context (Hinit : fwu_provider_init agent = Some svc).

(** The session is cut short by a message that overruns the caller's memory. *)
Definition session_faults (c : C) (reqs : list rpc_request) : Prop :=
  exists before req after out c1, reqs = before ++ req :: after /\
    service_run (svc_receive svc) c before = Some (out, c1) /\ Inv c1 /\
    fwu_session agent c before out c1 /\ overruns req /\ svc_receive svc c1 req = None.

Lemma fwu_step_ok c req :
  Inv c -> fresh_request req ->
  match svc_receive svc c req with
  | Some (status, req', c') => Inv c' /\ fwu_step agent c req status req' c'
  | None => overruns req
  end.
Proof.
  intros Hinv [Hok Hd]. pose proof (fwu_served agent Inv svc c req Hinv Hok Hd Hinit) as Hs.
  unfold overruns. destruct (parse_message req) as [st| |o|] eqn:Hmsg; unfold served in Hs.
  - rewrite Hs. split; [done|]. by constructor.
  - destruct Hs as (status & req' & -> & Hdis). split; [done|]. by constructor.
  - destruct (parse_message_ok req o Hok Hmsg) as [Ho|[h ->]].
    + destruct (@agent_returns _ _ _ Hlaws c o Hinv Ho) as (st & body & c' & Hcall & Hinv').
      rewrite Hcall in Hs. destruct Hs as (status & req' & -> & Hans). split; [done|]. by econstructor.
    + destruct (agent_call agent c (WriteObject h None)) as [[[st body] c']|] eqn:Hcall.
      * destruct Hs as (status & req' & -> & Hans). split; [|by econstructor].
        by eapply (@agent_overrun _ _ _ Hlaws).
      * rewrite Hs. right. by exists h.
  - rewrite Hs. by left.
Qed.

Lemma fwu_run_ok c reqs :
  Inv c -> Forall fresh_request reqs ->
  match service_run (svc_receive svc) c reqs with
  | Some (out, c') => Inv c' /\ fwu_session agent c reqs out c'
  | None => session_faults c reqs
  end.
Proof.
  intros Hinv Hreqs. revert c Hinv. induction Hreqs as [|req reqs Hreq _ IH]; intros c Hinv.
  { split; [done|]. constructor. }
  pose proof (fwu_step_ok c req Hinv Hreq) as Hstep. cbn [service_run].
  destruct (svc_receive svc c req) as [[[status req'] c1]|] eqn:Hr; cbn [mbind option_bind].
  2:{ exists [], req, reqs, [], c. do 3 (split; [done|]). split; [constructor|done]. }
  destruct Hstep as [Hinv1 Hstep]. specialize (IH c1 Hinv1).
  destruct (service_run (svc_receive svc) c1 reqs) as [[out c2]|]; cbn [mbind option_bind].
  - destruct IH as [Hinv2 Hses]. split; [done|]. by econstructor.
  - destruct IH as (before & req0 & after & out & c2 & -> & Hrun & Hinv2 & Hses & Hov & Hnone).
    exists (req :: before), req0, after, ((status, req') :: out), c2. split; [done|].
    cbn [service_run]. rewrite Hr. cbn [mbind option_bind]. rewrite Hrun.
    do 2 (split; [done|]). split; [|done]. by econstructor.
Qed.

End Session.

(** ** The generic agent keeps the laws *)

Section GenericAgent.
Context {F : Type} (ops : fw_store_ops F) (dir_address : Z) {store_ok : flow -> F -> Prop}
  {store_fresh : fw_directory -> Z -> F -> Prop} {Hstore : FwStoreLaws ops dir_address store_ok store_fresh}.
Context (start : flow) (log : list store_event).
Abbreviation state := (generic_update_agent * (F * list store_event))%type.

(** The agent is well formed and the store has been called as the flow allows. *)
Definition flow_inv (c : state) : Prop :=
  agent_ok (logged ops) dir_address (on_store store_ok) (fst c) (snd c) /\
  exists new, snd (snd c) = log ++ new /\ flow_run start new = Some (agent_flow (fst c)).

Lemma agent_call_step (c c' : state) o rep :
  agent_step (logged ops) c o = Some (rep, c') ->
  exists st body, agent_call (interface (logged ops)) c o = Some (st, body, c').
Proof.
  destruct o; cbn [agent_step agent_call]; unfold status_reply; intros H;
    repeat (case_match; simplify_eq/=); simplify_option_eq; repeat (case_match; simplify_eq/=);
    eauto.
Qed.

Lemma agent_call_write (c : state) h data :
  agent_call (interface (logged ops)) c (WriteObject h data)
    = ('(st, a, f) ← write_stream (logged ops) (fst c) (snd c) h data; Some (st, [], (a, f))).
Proof.
  destruct c as [a f]. cbn [agent_call]. unfold update_agent_write_stream. simpl.
  by destruct (write_stream (logged ops) a f h data) as [[[??]?]|].
Qed.

(** Data that is not in memory cannot be handed to an installer. *)
Lemma write_nothing a f h store i image :
  agent_ok (logged ops) dir_address (on_store store_ok) a f ->
  Stream h (InstallVariant store i image) ∈ open_streams (streams a) ->
  write_stream (logged ops) a f h None = None.
Proof.
  intros Hok Hin. unfold write_stream. destruct (ag_manager Hok) as [(fl & al & Hsm) _].
  pose proof (write_ok (agent_write_image (logged ops)) (streams a) f fl al h None Hsm) as Hw.
  destruct (stream_manager_write _ _ _ _ _) as [[st f']|]; [|done].
  inversion Hw as [|Hno]; subst; [done|]. by destruct (Hno _ Hin).
Qed.

#[export] Instance generic_agent_laws : UpdateAgentLaws (interface (logged ops)) flow_inv.
Proof.
  split.
  - intros [a f] o [Hok (new & Hlog & Hflow)] Ho. simpl in *.
    destruct (agent_step_ok ops dir_address a f o Hok Ho) as (rep & a' & f' & Hs & Hok' & new' & Hl' & Hf').
    destruct (agent_call_step _ _ _ _ Hs) as (st & body & Hc). eexists _, _, _. split; [exact Hc|].
    split; [done|]. exists (new ++ new'). simpl. rewrite Hl', Hlog, <- app_assoc. split; [done|].
    rewrite flow_run_app, Hflow. exact Hf'.
  - intros c h st body c' Hinv Hc. rewrite agent_call_write in Hc.
    destruct (write_stream _ _ _ _ _) as [[[st1 a1] f1]|] eqn:E; [|done]. injection Hc as <- <- <-.
    destruct Hinv as [Hok Hnew]. destruct (write_overrun ops dir_address _ _ _ _ _ _ Hok E) as [-> ->].
    by destruct c.
  - intros [a f] h buf st buf' rl tl c' [Hok _] H. unfold update_agent_read_stream in H. simpl in H.
    unfold read_stream in H. destruct (ag_manager Hok) as [(fl & al & Hsm) Hst].
    destruct (read_ok (agent_heap (logged ops) a f) (streams a) fl al h buf 0 0 Hsm Hst)
      as (st1 & buf1 & rl1 & tl1 & m1 & Hread & _ & _ & Hlen & out & _ & Hout & _).
    simpl in Hread, H. rewrite Hread in H. cbn [mbind option_bind] in H. injection H as <- <- <- <- <-.
    split; [done|]. intros Hz. destruct (Hout Hz) as [-> Htake]. pose proof (len_nonneg out).
    split; [done|]. rewrite <- Hlen, <- Htake at 1. unfold len. rewrite length_take. lia.
Qed.

End GenericAgent.

(** ** Lemmas: requests that announce too much *)

Lemma slice_drop4 m off n : 0 <= off -> slice (drop 4 m) off n = slice m (4 + off) n.
Proof. intros. unfold slice. rewrite drop_drop. by replace (Z.to_nat (4 + off)) with (4 + Z.to_nat off)%nat by lia. Qed.

Lemma uint_at_drop4 m off n : 0 <= off -> uint_at (drop 4 m) off n = uint_at m (4 + off) n.
Proof. intros. unfold uint_at. by rewrite slice_drop4. Qed.

Lemma load_past m off n : 4 <= len m -> len m < 4 + off + n -> load (drop 4 m) off n = None.
Proof.
  intros Hm Hn. unfold load.
  assert (len (drop 4 m) = len m - 4) as -> by (unfold len in *; rewrite length_drop; lia).
  destruct (Z.leb_spec (off + n) (len m - 4)); [lia|]. by rewrite !andb_false_r.
Qed.

(** A message with the function ID [id]. *)
Lemma parse_with_id req m id :
  region req = Some m -> 4 <= request_data_length req -> 4 <= response_size req -> uint_at m 0 4 = id ->
  parse_message req
    = parse_body (Z.land id 65535) (request_data_length req - 4) (response_size req - 4) (drop 4 m).
Proof.
  intros Hreg H4 H4' Hid. unfold parse_message. rewrite Hreg. simpl default.
  destruct (Z.ltb_spec (request_data_length req) 4); [lia|].
  destruct (Z.ltb_spec (response_size req) 4); [lia|]. by rewrite Hid.
Qed.

Lemma parse_begin_overrun req m :
  region req = Some m -> 16 <= request_data_length req -> 4 <= response_size req -> 4 <= len m ->
  uint_at m 0 4 = FWU_FUNC_ID_BEGIN_STAGING ->
  uint_at m 12 4 <= FWU_PROVIDER_MAX_PARTIAL_UPDATE_COUNT -> len m < 16 + 16 * uint_at m 12 4 ->
  parse_message req = OverrunMessage.
Proof.
  intros Hreg H16 H4 Hm Hid Hc Hover. rewrite (parse_with_id req m _ Hreg) by (done || lia).
  change (Z.land FWU_FUNC_ID_BEGIN_STAGING 65535) with FWU_FUNC_ID_BEGIN_STAGING.
  unfold parse_body. simpl Z.eqb. cbv match. destruct (Z.ltb_spec (request_data_length req - 4) 12); [lia|].
  rewrite !uint_at_drop4 by lia. change (4 + 8) with 12.
  destruct (uint_at m 12 4 >? FWU_PROVIDER_MAX_PARTIAL_UPDATE_COUNT) eqn:E; [lia|].
  by rewrite load_past by lia.
Qed.

Lemma parse_write_overrun req m :
  region req = Some m -> 12 <= request_data_length req -> 4 <= response_size req -> 4 <= len m ->
  uint_at m 0 4 = FWU_FUNC_ID_WRITE_STREAM -> len m < 12 + uint_at m 8 4 ->
  parse_message req = AgentMessage (WriteObject (uint_at m 4 4) None).
Proof.
  intros Hreg H12 H4 Hm Hid Hover. rewrite (parse_with_id req m _ Hreg) by (done || lia).
  change (Z.land FWU_FUNC_ID_WRITE_STREAM 65535) with FWU_FUNC_ID_WRITE_STREAM.
  unfold parse_body. simpl Z.eqb. cbv match. destruct (Z.ltb_spec (request_data_length req - 4) 8); [lia|].
  rewrite !uint_at_drop4 by lia. change (4 + 0) with 4. change (4 + 4) with 8.
  by rewrite load_past by lia.
Qed.

(** ** Properties *)

(** C22: the firmware update service is its agent behind messages.  Over any agent
    that keeps its laws, every sequence of requests is handled as follows.  A message
    that is too short, has an unknown function ID or malformed fields is refused with
    its RPC error and changes nothing; any other message makes the call of the agent
    it asks for (a commit always with a maximum atomic length of 0, whatever the
    message says), and is answered with the service status followed by the
    operation's results, as long as they fit the response buffer.  The memory keeps
    its length.  The response to a discovery is written in the same way, but its
    length is reported as if it were empty.  Two message fields are not checked: the
    sequence faults at a begin that announces more GUIDs than lie in the caller's
    memory, and may fault at a write that announces more data; everything before that
    message is handled as described, and no other message faults. *)
Theorem fwu_service_refines {C} (agent : update_agent_interface C) (Inv : C -> Prop) svc c reqs :
  UpdateAgentLaws agent Inv -> fwu_provider_init agent = Some svc ->
  Inv c -> Forall fresh_request reqs ->
  match service_run (svc_receive svc) c reqs with
  | Some (out, c') => Inv c' /\ fwu_session agent c reqs out c'
  | None => session_faults agent Inv svc c reqs
  end.
Proof. intros Hlaws Hinit Hinv Hreqs. by apply fwu_run_ok. Qed.

(** C21: no client can drive the store out of the update flow.  From an initialized
    agent over any store that returns from the calls the update flow allows, and
    whatever requests arrive, the service returns from every request, and the calls
    that reached the store are those the update flow allows; the exception is a
    request that announces GUIDs or data outside the caller's memory, at which the
    service may fault, and then this holds of all requests before it. *)
Theorem fwu_service_flow {F} (ops : fw_store_ops F) store_address dir_address inspect indeterminate
    store_ok store_fresh svc al f boot a al' f0 reqs :
  FwStoreLaws ops dir_address store_ok store_fresh ->
  AgentEnvironment inspect dir_address indeterminate -> store_fresh (inspected inspect boot) boot f ->
  update_agent_init (logged ops) inspect store_address dir_address indeterminate al (f, []) boot
    = Some (Some a, al', f0) ->
  fwu_provider_init (interface (logged ops)) = Some svc ->
  Forall fresh_request reqs ->
  exists trial, op_is_trial ops (fst f0) = Some trial /\
    let within c := exists new, snd (snd c) = snd f0 ++ new /\
      flow_run (if trial : bool then Trial else Regular) new = Some (agent_flow (fst c)) in
    match service_run (svc_receive svc) (a, f0) reqs with
    | Some (out, c) => within c
    | None => exists before req after out c, reqs = before ++ req :: after /\
        service_run (svc_receive svc) (a, f0) before = Some (out, c) /\ within c /\ overruns req
    end.
Proof.
  intros Hlaws Henv Hfresh Hinit Hsvc Hreqs.
  destruct (update_agent_init_ok (logged ops) store_address dir_address inspect indeterminate
    (store_fresh := on_fresh store_fresh) al (f, []) boot Hfresh) as (r & al1 & f1 & Heq & Hr).
  rewrite Hinit in Heq. injection Heq as <- <- <-. destruct Hr as (_ & Hok & trial & Ht & Hst).
  exists trial. split; [done|]. set (start := if trial : bool then Trial else Regular). intros within.
  assert (flow_inv ops dir_address (store_ok := store_ok) start (snd f0) (a, f0)) as Hinv.
  { split; [done|]. exists []. rewrite app_nil_r. split; [done|]. unfold agent_flow. simpl fst.
    rewrite Hst. subst start. by destruct trial. }
  pose proof (fwu_run_ok (interface (logged ops)) _ svc Hsvc _ reqs Hinv Hreqs) as Hrun.
  destruct (service_run (svc_receive svc) (a, f0) reqs) as [[out c]|]; [apply Hrun|].
  destruct Hrun as (before & req & after & out & c & -> & Hrun & Hinv' & _ & Hov & _).
  exists before, req, after, out, c. do 2 (split; [done|]). split; [apply Hinv'|done].
Qed.

(** C33: two lengths of a message are trusted, and a client can make the service read
    past the client's memory.  A begin that announces up to four GUIDs, and a write
    to a stream open on an installer, are never compared with the length of the
    request: when what they announce ends past the caller's memory, the service does
    not return (it copies the octets, or hands them to the installer). *)
Theorem overrun_requests_fault {F} (ops : fw_store_ops F) dir_address store_ok store_fresh svc a f req m :
  FwStoreLaws ops dir_address store_ok store_fresh ->
  agent_ok (logged ops) dir_address (on_store store_ok) a f ->
  fwu_provider_init (interface (logged ops)) = Some svc ->
  fresh_request req -> region req = Some m ->
  (16 <= request_data_length req -> 4 <= response_size req ->
   uint_at m 0 4 = FWU_FUNC_ID_BEGIN_STAGING ->
   uint_at m 12 4 <= FWU_PROVIDER_MAX_PARTIAL_UPDATE_COUNT -> len m < 16 + 16 * uint_at m 12 4 ->
   svc_receive svc (a, f) req = None) /\
  (12 <= request_data_length req -> 4 <= response_size req ->
   uint_at m 0 4 = FWU_FUNC_ID_WRITE_STREAM ->
   (exists store i image, Stream (uint_at m 4 4) (InstallVariant store i image) ∈ open_streams (streams a)) ->
   len m < 12 + uint_at m 8 4 ->
   svc_receive svc (a, f) req = None).
Proof.
  intros Hlaws Hok Hinit [Hreq Hd] Hreg. pose proof Hreq as (Hl & Hb & Hs & Hm). rewrite Hreg in Hm.
  assert (flow_inv ops dir_address (store_ok := store_ok) (agent_flow a) (snd f) (a, f)) as Hinv
    by (split; [done|]; exists []; by rewrite app_nil_r).
  pose proof (fwu_served _ _ svc (a, f) req Hinv Hreq Hd Hinit) as Hserved. split.
  - intros H16 H4 Hid Hc Hover. rewrite (parse_begin_overrun req m) in Hserved by (done || lia). exact Hserved.
  - intros H12 H4 Hid (store & i & image & Hin) Hover.
    rewrite (parse_write_overrun req m) in Hserved by (done || lia). unfold served in Hserved.
    rewrite agent_call_write in Hserved. cbn [fst snd] in Hserved.
    by rewrite (write_nothing ops dir_address a f _ _ _ _ Hok Hin) in Hserved.
Qed.

(** ** Witnesses *)

Definition sample_fwu : rpc_service_interface (generic_update_agent * (Z * list store_event)) :=
  match fwu_provider_init (interface (logged sample_ops)) with
  | Some svc => svc
  | None => Service [] (fun c req => None)
  end.

Lemma sample_fwu_init : fwu_provider_init (interface (logged sample_ops)) = Some sample_fwu.
Proof. reflexivity. Qed.

(** A message of [n] bytes in a memory of 48. *)
Definition sample_request (n : Z) (message : bytes) : rpc_request :=
  Request 5 0 0 0 0 n 48 0 48 (Some (take 48 (message ++ fill 0 48))).

(** Discover; begin staging; open an image; write 2 bytes; write 36 bytes of which 2
    were sent; write 40 bytes, of which only 36 are in the caller's memory, to a
    stream that is not open; a request that is too short; commit; an unknown
    function. *)
Definition sample_messages : list rpc_request :=
  [sample_request 4 (encode32 0);
   sample_request 16 (encode32 16);
   sample_request 21 (encode32 19 ++ fill 5 16 ++ [1]);
   sample_request 14 (encode32 20 ++ encode32 3 ++ encode32 2 ++ [7; 8]);
   sample_request 14 (encode32 20 ++ encode32 3 ++ encode32 36 ++ [9; 9]);
   sample_request 14 (encode32 20 ++ encode32 4 ++ encode32 40 ++ [9; 9]);
   sample_request 11 (encode32 20 ++ encode32 3 ++ [0; 0; 0]);
   sample_request 16 (encode32 22 ++ encode32 3);
   sample_request 4 (encode32 99)].

(** The write of 40 bytes to the open stream. *)
Definition overlong_write : rpc_request :=
  sample_request 14 (encode32 20 ++ encode32 3 ++ encode32 40 ++ [9; 9]).

Lemma sample_messages_ok : Forall fresh_request sample_messages.
Proof. repeat (constructor; [by vm_compute|]). constructor. Qed.

Example sample_messages_run :
  (fun '(out, (a, f)) => (map fst out, map (fun o => RpcService.service_status (snd o)) out,
                          map (fun o => response_data_length (snd o)) out, snd f)) <$>
    service_run (svc_receive sample_fwu) (sample_agent, (0, [])) sample_messages
  = Some ([0; 0; 0; 0; 0; 0; RPC_ERROR_INVALID_REQUEST_BODY; 0; RPC_ERROR_INVALID_VALUE],
          [0; 0; 0; 0; 0; FWU_STATUS_UNKNOWN; 0; 0; 0], [4; 4; 8; 4; 4; 4; 0; 12; 0],
          [EBeginInstall 0; ESelectInstaller 0 6; EWriteImage 6 [7; 8];
           EWriteImage 6 ([9; 9] ++ fill 0 34); ECommitImage 6 true]).
Proof. vm_compute. reflexivity. Qed.

Example overlong_write_run :
  service_run (svc_receive sample_fwu) (sample_agent, (0, [])) (take 4 sample_messages ++ [overlong_write])
  = None.
Proof. vm_compute. reflexivity. Qed.

Lemma sample_flow_inv : flow_inv sample_ops 64 (store_ok := sample_ready) Regular [] (sample_agent, (0, [])).
Proof. split; [exact sample_agent_ok|]. exists []. split; [reflexivity|]. by vm_compute. Qed.

Lemma fwu_service_refines_witness :
  match service_run (svc_receive sample_fwu) (sample_agent, (0, [])) sample_messages with
  | Some (out, c') => flow_inv sample_ops 64 (store_ok := sample_ready) Regular [] c' /\
      fwu_session (interface (logged sample_ops)) (sample_agent, (0, [])) sample_messages out c'
  | None => session_faults (interface (logged sample_ops)) (flow_inv sample_ops 64 (store_ok := sample_ready) Regular [])
      sample_fwu (sample_agent, (0, [])) sample_messages
  end.
Proof.
  apply (fwu_service_refines (interface (logged sample_ops))
    (flow_inv sample_ops 64 (store_ok := sample_ready) Regular []) sample_fwu (sample_agent, (0, [])) sample_messages).
  - exact (generic_agent_laws sample_ops 64 Regular []).
  - exact sample_fwu_init.
  - exact sample_flow_inv.
  - exact sample_messages_ok.
Defined.

Lemma fwu_service_flow_witness :
  exists trial, op_is_trial sample_ops 0 = Some trial /\
    let within c := exists new, snd (snd c) = [] ++ new /\
      flow_run (if trial : bool then Trial else Regular) new = Some (agent_flow (fst c)) in
    match service_run (svc_receive sample_fwu) (sample_agent, (0, [])) sample_messages with
    | Some (out, c) => within c
    | None => exists before req after out c, sample_messages = before ++ req :: after /\
        service_run (svc_receive sample_fwu) (sample_agent, (0, [])) before = Some (out, c) /\
        within c /\ overruns req
    end.
Proof.
  apply (fwu_service_flow sample_ops 1 64 sample_inspect (fill 170) sample_ready sample_fresh sample_fwu
    sample_allocator 0 1 sample_agent (Allocator 3 []) (0, []) sample_messages).
  - exact sample_laws.
  - exact sample_environment.
  - reflexivity.
  - vm_compute. reflexivity.
  - exact sample_fwu_init.
  - exact sample_messages_ok.
Defined.

(** The agent with an image open under handle 3. *)
Definition sample_open :=
  match agent_run (logged sample_ops) (sample_agent, (0, []))
          [BeginStaging 0 0 []; OpenObject (fill 5 16) 1] with
  | Some (_, c) => c
  | None => (zero_agent, (0, []))
  end.

Lemma sample_open_ok :
  agent_ok (logged sample_ops) 64 (on_store sample_ready) (fst sample_open) (snd sample_open).
Proof.
  destruct (agent_run_ok sample_ops 64 sample_agent (0, []) [BeginStaging 0 0 []; OpenObject (fill 5 16) 1]
    sample_agent_ok) as (reps & a' & f' & Hrun & Hok & _); [by repeat constructor|].
  unfold sample_open. rewrite Hrun. exact Hok.
Qed.

Lemma overrun_requests_fault_witness :
  svc_receive sample_fwu (fst sample_open, snd sample_open) overlong_write = None.
Proof.
  apply (overrun_requests_fault sample_ops 64 sample_ready sample_fresh sample_fwu (fst sample_open)
    (snd sample_open) overlong_write
    (take 48 ((encode32 20 ++ encode32 3 ++ encode32 40 ++ [9; 9]) ++ fill 0 48))).
  - exact sample_laws.
  - exact sample_open_ok.
  - exact sample_fwu_init.
  - vm_compute. done.
  - reflexivity.
  - vm_compute. discriminate.
  - vm_compute. discriminate.
  - reflexivity.
  - exists 1, 6, (set_image_index (example_image 5) 0). vm_compute. left.
  - reflexivity.
Defined.
