(* ===== verification/BankedAgent.v ===== *)
(** * The banked store as the store of the update agent

    banked_fw_store.c is the implementation of fw_store.h the agent is built with.
    Here it becomes an instance of [fw_store_ops] and [FwStoreLaws]: called as the
    update flow allows, no assertion of it fails and none of its operations reads
    outside its memory.  So what is proved of the agent and of the firmware update
    service over any lawful store holds over this one. *)
From S2P Require Import Prelude Status Uuid Crc32 Volume FwDirectory StreamManager UpdateAgent.
From S2P Require Import BankTracker MetadataSerializer MetadataV2 MetadataManager Installer VolumeInstallers.
From S2P Require Import BankedStore RpcService RpcEndpoint FwuProvider.

Section Instance.
Context {C X : Type} (io : io_storage X) (ms : metadata_serializer) {Hms : SerializerLaws ms}.
Context (impl : crc32_impl) (crc32b : Z -> Z -> Z) (malloc : Z -> option bytes).
Context (index : installer_index) (cache_address : Z) (begun : C -> Prop).
Implicit Types f : fw_store C X.

(** Exported is the metadata in the cache. *)
Definition banked_ops : fw_store_ops (fw_store C X) :=
  FwStoreOps _
    (fun f d boot_index => fw_store_synchronize io ms impl crc32b malloc f d boot_index)
    (fw_store_begin_install io ms impl crc32b)
    fw_store_cancel_install
    (fw_store_finalize_install io ms impl crc32b index)
    (fw_store_select_installer index)
    fw_store_write_image
    fw_store_commit_image
    (fw_store_notify_accepted io ms impl crc32b)
    fw_store_is_accepted
    fw_store_is_trial
    (fun f => Some (fw_store_commit_to_update f))
    (fw_store_revert_to_previous io ms impl crc32b)
    (fw_store_export cache_address)
    (fun f addr => if addr =? cache_address then Some (metadata_cache (fs_manager f)) else None).

(** The store keeps its invariant; outside an installation no installer is active, and
    within one the installers with open images exist. *)
Definition banked_at (p : flow) f (b : banks) : Prop :=
  banked_ok io ms index begun f b /\
  match p with
  | Staging l => forall i, i ∈ l -> i ∈ dom (fs_installers f)
  | _ => b_busy b = false
  end.

Definition banked_ready (p : flow) f : Prop := exists b, banked_at p f b.

(** A store that was just initialized, whose stored metadata names, if it is valid, a
    bank as the previous one. *)
Definition banked_fresh (d : fw_directory) (boot_index : Z) f : Prop :=
  fresh io ms index begun f /\ directory_ok d /\ Forall image_ok (images d) /\ bank_index_ok boot_index /\
  forall st d' f', fw_store_synchronize io ms impl crc32b malloc f d boot_index = Some (st, d', f') ->
    bank_index_ok (previous_active_index (fw_directory_get_boot_info d')).

(** *** Calls *)

(** The operation of the store behind a call of the agent. *)
Definition call_op (c : store_call) : store_op :=
  match c with
  | CallBegin => OBegin
  | CallCancel => OCancel
  | CallFinalize => OFinalize
  | CallSelect image => OSelect image
  | CallWrite i data => OWrite i data
  | CallCommit i image acc => OCommit i image acc
  | CallNotify image => ONotify image
  | CallCommitToUpdate => OCommitToUpdate
  | CallRevert => ORevert
  | CallExport uuid => OExport uuid
  end.

Abbreviation step := (store_step io ms impl crc32b index cache_address).

(** Both views of an operation return together, in the same state. *)
Lemma perform_step f c :
  snd <$> perform banked_ops f c = snd <$> step f (call_op c).
Proof.
  destruct c as [| | |image|i data|i image acc|image| | |uuid]; cbn [perform call_op store_step];
    unfold banked_ops; cbn -[fw_store_begin_install fw_store_cancel_install fw_store_finalize_install
      fw_store_select_installer fw_store_write_image fw_store_commit_image fw_store_notify_accepted
      fw_store_revert_to_previous fw_store_export].
  - by destruct (fw_store_begin_install io ms impl crc32b f) as [[??]|].
  - by destruct (fw_store_cancel_install f).
  - by destruct (fw_store_finalize_install io ms impl crc32b index f) as [[??]|].
  - by destruct (fw_store_select_installer index f image) as [[[??]?]|].
  - by destruct (fw_store_write_image f i data) as [[??]|].
  - by destruct (fw_store_commit_image f i image acc) as [[??]|].
  - by destruct (fw_store_notify_accepted io ms impl crc32b f image) as [[??]|].
  - done.
  - by destruct (fw_store_revert_to_previous io ms impl crc32b f) as [[??]|].
  - by destruct (fw_store_export cache_address f uuid) as [[??]|].
Qed.

Lemma allowed_op_ok p f b c :
  banked_at p f b -> flow_allows p c -> store_op_ok (dom (fs_installers f)) (call_op c) /\
    (call_op c = OBegin -> b_busy b = false).
Proof.
  intros [_ Hp] Hc. destruct c; (split; [|done || (intros _; by destruct p)]); simpl; try done;
    destruct p as [|l| | |]; simpl in *; try done; try (by apply Hp). by split; [apply Hp|]; destruct Hc.
Qed.

(** An allowed call returns and keeps the invariant of the store. *)
Lemma call_keeps p f b c :
  banked_at p f b -> flow_allows p c ->
  exists es f' b', perform banked_ops f c = Some (es, f') /\ banked_ok io ms index begun f' b' /\
    dom (fs_installers f') = dom (fs_installers f) /\ b_busy b' = busy_after (b_busy b) (call_op c).
Proof.
  intros Hat Hc. destruct (allowed_op_ok p f b c Hat Hc) as [Hop Hbusy].
  destruct (store_step_ok io ms impl crc32b index cache_address begun f b (call_op c) (proj1 Hat) Hop Hbusy)
    as (st & f' & b' & Hs & Hok' & _ & Hd & Hb'). pose proof (perform_step f c) as Hp. rewrite Hs in Hp.
  destruct (perform banked_ops f c) as [[es f1]|]; [|done]. injection Hp as ->. by exists es, f', b'.
Qed.

(** The cache keeps its size. *)
Lemma banked_memory f b f' b' :
  banked_ok io ms index begun f b -> banked_ok io ms index begun f' b' ->
  memory_le (store_memory banked_ops f) (store_memory banked_ops f').
Proof.
  intros (d & ps & Hc & _) (d' & ps' & Hc' & _) addr m. simpl. destruct (addr =? cache_address); [|done].
  intros [= <-]. eexists. split; [done|].
  destruct (co_manager _ _ _ _ _ _ _ Hc) as [[_ ->] _]. by destruct (co_manager _ _ _ _ _ _ _ Hc') as [[_ ->] _].
Qed.

(** An installer that was selected exists. *)
Lemma selected_exists f b image st i f' :
  banked_ok io ms index begun f b ->
  fw_store_select_installer index f image = Some (st, i, f') -> st = FWU_STATUS_SUCCESS ->
  i ∈ dom (fs_installers f').
Proof.
  intros Hok Hs Hst. destruct (select_ok io ms index begun f b image Hok)
    as (st1 & p & f1 & Hs1 & _ & _ & Hin). rewrite Hs in Hs1. injection Hs1 as <- <- <-. by apply Hin.
Qed.

Lemma drop_subset i l : drop_installer i l ⊆ l.
Proof. intros j Hj. by apply list_elem_of_filter in Hj as [_ Hj]. Qed.

(** Where the flow goes, the store is ready. *)
Lemma call_ready p f b c es f' b' :
  banked_at p f b -> flow_allows p c -> perform banked_ops f c = Some (es, f') ->
  banked_ok io ms index begun f' b' -> dom (fs_installers f') = dom (fs_installers f) ->
  b_busy b' = busy_after (b_busy b) (call_op c) ->
  exists p', flow_run p es = Some p' /\ banked_at p' f' b'.
Proof.
  intros Hat Hc Hperf Hok' Hd Hb. pose proof Hat as [Hok Hp].
  destruct c as [| | |image|i data|i image acc|image| | |uuid]; cbn [perform call_op busy_after] in *;
    apply bind_Some in Hperf as (r & Hcall & Hperf);
    repeat match type of r with (_ * _)%type => let st := fresh "f1" in destruct r as [r st] end;
    injection Hperf as <- <-;
    destruct p as [|l| | |]; simpl in Hc; try done; cbn [flow_run flow_step];
    rewrite ?bool_decide_true by tauto; cbn [mbind option_bind]; eexists; (split; [reflexivity|]);
    (split; [done|]);
    try match goal with |- context [if ?t then _ else _] => destruct t eqn:Ht end; simpl in *; try congruence;
    intros j Hj; try rewrite Hd; try (by apply Hp); try (by apply not_elem_of_nil in Hj);
    try (by apply drop_subset, Hp in Hj).
  (* selecting *)
  apply elem_of_cons in Hj as [->|Hj%drop_subset%Hp]; [|done]. rewrite <- Hd.
  eapply selected_exists; [done|exact Hcall|by apply Z.eqb_eq].
Qed.


(** *** Synchronizing *)

Hypothesis malloc_ok : forall n buf, malloc n = Some buf -> len buf = n /\ bytes_ok buf.

(** A store that was just initialized returns, and is ready for trial or regular
    operation. *)
Lemma synchronize_ready f d boot :
  banked_fresh d boot f ->
  exists st d' f', fw_store_synchronize io ms impl crc32b malloc f d boot = Some (st, d', f') /\
    exists t, fw_store_is_trial f' = Some t /\ banked_ready (if t : bool then Trial else Regular) f'.
Proof.
  intros (Hf & Hd & Him & Hb & Hp).
  destruct (synchronize_ok io ms impl crc32b malloc index begun malloc_ok f d boot Hf Hd Him Hb)
    as (st & f' & p & Hs & _ & Hok). eexists st, _, f'. split; [exact Hs|].
  specialize (Hok (Hp _ _ _ Hs)). pose proof Hok as (d' & ps & Hc & _).
  destruct Hc. unfold fw_store_is_trial. rewrite co_directory. cbn [mbind option_bind].
  assert (forall t : bool, banked_ready (if t then Trial else Regular) f') as Hready.
  { intros t. eexists. split; [exact Hok|]. by destruct t. }
  case_match; [|exists false; split; [done|apply (Hready false)]].
  rewrite is_all_accepted_ok; [|done| |apply co_directory_ok].
  - eexists. split; [reflexivity|apply Hready].
  - by rewrite co_boot.
Qed.

(** The banked store keeps the laws its agent relies on; its cache is not the buffer
    of the agent. *)
#[export] Instance banked_laws dir_address :
  cache_address <> dir_address -> FwStoreLaws banked_ops dir_address banked_ready banked_fresh.
Proof.
  intros Haddr. split.
  - intros p f c (b & Hat) Hc. destruct (call_keeps p f b c Hat Hc) as (es & f' & b' & Hs & Hok & Hd & Hb).
    destruct (call_ready p f b c es f' b' Hat Hc Hs Hok Hd Hb) as (p' & Hrun & Hat').
    exists es, f', p'. split; [done|]. split; [done|]. split; [by exists b'|].
    eapply banked_memory; [apply Hat|done].
  - intros p f image (b & (d & ps & Hc & _) & _) Hi. destruct Hc. simpl. unfold fw_store_is_accepted.
    rewrite is_accepted_ok; [by eexists|done|by rewrite co_boot|done].
  - intros p f uuid data n f' (b & Hok & _) Hu He. simpl in He.
    destruct (export_ok io ms index cache_address begun f b uuid Hok Hu) as (r & f1 & He1 & _ & _ & Hr).
    rewrite He1 in He. injection He as -> ->. destruct (Hr _ _ _ eq_refl) as (_ & -> & -> & Hcache).
    destruct Hok as (d & ps & Hc & ((_ & Hn) & _) & _). pose proof (sl_max (ms := ms)).
    split; [lia|]. split; [done|]. simpl. rewrite Z.eqb_refl. eexists. split; [reflexivity|]. rewrite Hcache.
    destruct (co_manager _ _ _ _ _ _ _ Hc) as [[_ ->] _]. lia.
  - intros f d boot Hf. destruct (synchronize_ready f d boot Hf) as (st & d' & f' & Hs & t & Ht & Hr).
    exists st, d', f'. split; [done|]. intros _. by exists t.
  - intros f d boot st d' f' Hs. simpl in Hs. unfold fw_store_synchronize in Hs.
    apply bind_Some in Hs as ([[st0 m] x] & _ & Hs). apply bind_Some in Hs as ([[[st1 a] q] f1] & _ & Hs).
    by injection Hs as _ <- _.
Qed.

(** The firmware update service over the banked store: from a store that was just
    initialized, whatever requests arrive, the service returns unless a request
    announces data outside the caller's memory; no assertion of the store fails, and
    the metadata in its cache names banks and agrees with its tracker. *)
Theorem fwu_service_over_banks store_address dir_address inspect indeterminate svc al f boot a al' s0 reqs :
  cache_address <> dir_address -> AgentEnvironment inspect dir_address indeterminate ->
  banked_fresh (inspected inspect boot) boot f ->
  update_agent_init (logged banked_ops) inspect store_address dir_address indeterminate al (f, []) boot
    = Some (Some a, al', s0) ->
  fwu_provider_init (interface (logged banked_ops)) = Some svc ->
  Forall fresh_request reqs ->
  match service_run (svc_receive svc) (a, s0) reqs with
  | Some (_, c) => exists b, banked_at (agent_flow (fst c)) (fst (snd c)) b
  | None => Exists overruns reqs
  end.
Proof.
  intros Haddr Henv Hfresh Hinit Hsvc Hreqs. pose proof (banked_laws dir_address Haddr) as Hlaws.
  destruct (update_agent_init_ok (logged banked_ops) store_address dir_address inspect indeterminate
    (store_fresh := on_fresh banked_fresh) al (f, []) boot Hfresh) as (r & al1 & f1 & Heq & Hr).
  rewrite Hinit in Heq. injection Heq as <- <- <-. destruct Hr as (_ & Hok & _).
  assert (flow_inv banked_ops dir_address (store_ok := banked_ready) (agent_flow a) (snd s0) (a, s0)) as Hinv.
  { split; [done|]. exists []. by rewrite app_nil_r. }
  pose proof (fwu_run_ok _ _ svc Hsvc _ reqs Hinv Hreqs) as Hrun.
  destruct (service_run (svc_receive svc) (a, s0) reqs) as [[out c]|].
  - destruct Hrun as [[Hok' _] _]. destruct (ag_ready Hok') as (b & Hb). by exists b.
  - destruct Hrun as (before & req & after & out & c & -> & _ & _ & _ & Hov & _).
    apply Exists_app. right. by left.
Qed.

End Instance.

(** ** An update over the banks *)

(** The volumes of a device are the parts of one storage: the metadata and the two
    banks.  They have no position: a read returns the first bytes of a part and a
    write replaces its contents. *)
Definition part (k : nat) (x : list bytes) : bytes := default [] (x !! k).

Definition part_volume (k : nat) : volume (list bytes) :=
  Volume (DevFuncs (fun x => Some (0, x)) (fun x => Some (0, x)) (fun x _ _ => Some (0, x))
    (fun x _ => Some (0, len (part k x), x))
    (fun x buf n _ =>
       let m := Z.min n (len (part k x)) in
       buf ← store buf 0 (map (wrap 8) (take (Z.to_nat m) (part k x))); Some (0, buf, m, x))
    (fun x buf n _ => Some (0, n, <[k := take (Z.to_nat n) buf]> x))) None None.

#[export] Instance part_volume_safe k : SafeVolume (@forwarding_io (list bytes)) (part_volume k).
Proof.
  split.
  - intros x. by eexists _, _.
  - intros x. by eexists _, _.
  - intros x. by eexists _, _.
  - intros x buf n r Hn. unfold volume_read. simpl. set (y := part k x).
    destruct (store_ok buf 0 (map (wrap 8) (take (Z.to_nat (Z.min n (len y))) y))) as [b Hb];
      [lia|unfold len in *; rewrite length_map, length_take; lia|].
    rewrite Hb. simpl. eexists _, b, _, x. split; [done|]. split; [by eapply store_len|]. intros Hok.
    eapply store_bytes_ok; [done|done|]. apply Forall_map, Forall_true. intros v. by apply wrap_fits.
  - intros x buf n r Hn. by eexists _, _, _.
Qed.

(** The banks of location 0 are parts 1 and 2; a raw installer at address 64 writes
    them. *)
Definition part_deref (p : Z) : option (volume (list bytes)) :=
  if p =? 16 then Some (part_volume 1) else if p =? 32 then Some (part_volume 2) else None.
Definition device_installers : gmap Z (installer raw_installer (list bytes)) :=
  {[64 := raw_installer_init (@forwarding_io (list bytes)) flat_index part_deref (fill 7 16) 0]}.

Definition device_store : fw_store raw_installer (list bytes) :=
  snd (banked_fw_store_init example_serializer
    (fun id => if id =? BANKED_VOLUME_ID_PRIMARY_METADATA then Some (part_volume 0) else None)
    (Some blank_cache) device_installers [[]; [1; 2; 3]; []]).

Abbreviation device_begun := (raw_begun (@forwarding_io (list bytes)) part_deref).
Abbreviation device_ops := (banked_ops (C := raw_installer) (@forwarding_io (list bytes)) example_serializer
  Crc32Sw no_insn example_malloc one_index 4096).

Lemma device_lists : index_lists device_installers one_index [64].
Proof.
  destruct one_index_lists as (Hr & _ & ys & Hy & Hnd & Hle & Hs). split; [done|].
  split; [repeat constructor; [done|by eexists]|]. exists ys. do 3 (split; [done|]). intros y. rewrite Hs.
  unfold serves. split; intros (p & i & ->%list_elem_of_singleton & Hi & <-);
    (eexists 64, _; split; [by apply list_elem_of_singleton|]; split; [done|]); by injection Hi as <-.
Qed.

Lemma device_store_fresh :
  fresh (@forwarding_io (list bytes)) example_serializer one_index device_begun device_store.
Proof.
  split; [|split; [done|split; [|split; [exact tracker_init_ok|split; [split|done]]]]].
  - split; [done|]. split; intros v; simpl; [|done]. intros [= <-]. apply _.
  - by apply fill_bytes_ok.
  - intros p i. simpl. unfold device_installers. intros [<- <-]%lookup_singleton_Some. split; [|done].
    apply (raw_installer_lawful (@forwarding_io (list bytes)) flat_index part_deref); [done|].
    intros k p0 [-> | ->]; [eexists _, (part_volume 1)|eexists _, (part_volume 2)];
      (split; [done|]); split; [done|apply _|done|apply _].
  - exists [64]. exact device_lists.
Qed.

(** The directory of the device: one image at location 0. *)
Definition device_inspect (d : fw_directory) (b : Z) : Z * fw_directory :=
  match fw_directory_add_image_info d
          (ImageInfo (fill 5 16) 4096 1 6 3 0 0 INSTALL_TYPE_WHOLE_VOLUME) with
  | Some (st, d) => (st, d)
  | None => (FWU_STATUS_UNKNOWN, d)
  end.

#[export] Instance device_environment : AgentEnvironment device_inspect 64 (fill 170).
Proof.
  split; [|done|intros n Hn; by apply len_fill]. intros d b Hd Hidx. unfold device_inspect.
  destruct (add_image_ok d (ImageInfo (fill 5 16) 4096 1 6 3 0 0 INSTALL_TYPE_WHOLE_VOLUME) Hd)
    as (st & d1 & -> & Hd1 & Himg); [done|]. split; [done|]. simpl. rewrite Himg.
  destruct (Z.ltb_spec (num_images d) FWU_MAX_FW_DIRECTORY_ENTRIES); [|done].
  apply Forall_app. split; [done|]. constructor; [|constructor]. split; [apply Hd|done].
Qed.

Lemma device_sync :
  match fw_store_synchronize (@forwarding_io (list bytes)) example_serializer Crc32Sw no_insn example_malloc
          device_store (inspected device_inspect 0) 0 with
  | Some (_, d, _) => previous_active_index (fw_directory_get_boot_info d) = 0
  | None => False
  end.
Proof. by vm_compute. Qed.

Lemma device_fresh :
  banked_fresh (@forwarding_io (list bytes)) example_serializer Crc32Sw no_insn example_malloc one_index device_begun
    (inspected device_inspect 0) 0 device_store.
Proof.
  destruct (inspect_ok (AgentEnvironment := device_environment) fw_directory_init 0) as [Hd Hi];
    [exact init_directory_ok|constructor|].
  split; [exact device_store_fresh|]. split; [exact Hd|]. split; [exact Hi|]. split; [by left|].
  intros st d f Hs. pose proof device_sync as H. rewrite Hs in H. by left.
Qed.

Abbreviation device_init :=
  (update_agent_init (logged device_ops) device_inspect 1 64 (fill 170) sample_allocator (device_store, []) 0).
Abbreviation device_context := (generic_update_agent * (fw_store raw_installer (list bytes) * list store_event))%type.
Definition device_fwu : rpc_service_interface device_context :=
  match fwu_provider_init (interface (logged device_ops)) with
  | Some svc => svc
  | None => Service [] (fun c req => None)
  end.

(** Begin staging, open the image, write, commit it as accepted, end staging. *)
Definition device_messages : list rpc_request :=
  [sample_request 16 (encode32 16);
   sample_request 21 (encode32 19 ++ fill 5 16 ++ [1]);
   sample_request 15 (encode32 20 ++ encode32 3 ++ encode32 3 ++ [7; 8; 9]);
   sample_request 16 (encode32 22 ++ encode32 3);
   sample_request 4 (encode32 17)].

Definition device_update :=
  '(a, _, f) ← device_init; a ← a; service_run (svc_receive device_fwu) (a, f) device_messages.

(** The image is in bank 1, which the metadata now names as the one to boot, and bank
    0 is untouched. *)
Example device_update_run :
  (fun '(out, (a, f)) =>
     (map (fun o => RpcService.service_status (snd o)) out, state a, snd f,
      metadata_manager_get_active_indices example_serializer (fs_manager (fst f)) 0 0,
      drop 1 (fs_storage (fst f)))) <$> device_update
  = Some ([0; 0; 0; 0; 0], FWU_STATE_TRIAL_PENDING,
          [EBeginInstall 0; ESelectInstaller 0 64; EWriteImage 64 [7; 8; 9]; ECommitImage 64 true;
           EFinalizeInstall 0],
          Some (FWU_STATUS_SUCCESS, 1, 0), [[1; 2; 3]; [7; 8; 9]]).
Proof. vm_compute. reflexivity. Qed.

Lemma device_messages_ok : Forall fresh_request device_messages.
Proof. repeat (constructor; [by vm_compute|]). constructor. Qed.

Definition device_agent : generic_update_agent * (fw_store raw_installer (list bytes) * list store_event) :=
  match device_init with
  | Some (Some a, _, f) => (a, f)
  | _ => (zero_agent, (device_store, []))
  end.

Lemma device_init_eq : device_init = Some (Some (fst device_agent), Allocator 3 [], snd device_agent).
Proof.
  assert ((fun '(r, al, _) => (bool_decide (is_Some r), al)) <$> device_init = Some (true, Allocator 3 [])) as Hi
    by (vm_compute; reflexivity).
  unfold device_agent. destruct device_init as [[[[a|] al] f]|]; simpl in Hi; [|done..]. by injection Hi as ->.
Qed.

Lemma fwu_service_over_banks_witness :
  match service_run (svc_receive device_fwu) device_agent device_messages with
  | Some (_, c) => exists b, banked_at (@forwarding_io (list bytes)) example_serializer one_index device_begun
      (agent_flow (fst c)) (fst (snd c)) b
  | None => Exists overruns device_messages
  end.
Proof.
  rewrite (surjective_pairing device_agent).
  apply (fwu_service_over_banks (@forwarding_io (list bytes)) example_serializer (Hms := example_laws) Crc32Sw
    no_insn example_malloc one_index 4096 device_begun example_malloc_bytes 1 64 device_inspect (fill 170)
    device_fwu sample_allocator device_store 0 (fst device_agent) (Allocator 3 []) (snd device_agent) device_messages).
  - done.
  - exact device_environment.
  - exact device_fresh.
  - exact device_init_eq.
  - reflexivity.
  - exact device_messages_ok.
Defined.
