(* ===== verification/VariableIndex.v ===== *)
(** * components/service/uefi/smm_variable/backend: the index of UEFI variables

    variable_index.c keeps a table of the variables of the UEFI variable store,
    with what is needed to save and restore the non-volatile ones;
    variable_index_iterator.c visits its entries and variable_checker.c decides
    whether a variable may be set.  A [struct variable_info *] is the position of
    its entry in the table ([None] for NULL).  Objects that are copied as a whole
    (names, time stamps, fingerprints) are their octets in memory. *)
From S2P Require Import Prelude.

(** ** protocols/common/efi *)

Definition EFI_ERROR (s : Z) : Z := Z.lor (Z.shiftl 1 63) s.
Definition EFI_SUCCESS : Z := 0.
Definition EFI_INVALID_PARAMETER : Z := EFI_ERROR 2.
Definition EFI_BUFFER_TOO_SMALL : Z := EFI_ERROR 5.
Definition EFI_WRITE_PROTECTED : Z := EFI_ERROR 8.
Definition EFI_OUT_OF_RESOURCES : Z := EFI_ERROR 9.
Definition EFI_NOT_FOUND : Z := EFI_ERROR 14.

Definition EFI_VARIABLE_NON_VOLATILE : Z := 1.
Definition VAR_CHECK_VARIABLE_PROPERTY_READ_ONLY : Z := Z.shiftl 1 0.
Definition VAR_CHECK_VARIABLE_PROPERTY_REVISION : Z := 1.

Record EFI_GUID := Guid { Data1 : Z; Data2 : Z; Data3 : Z; Data4 : bytes }.

#[export] Instance efi_guid_eq_dec : EqDecision EFI_GUID.
Proof. solve_decision. Defined.
#[export] Instance efi_guid_countable : Countable EFI_GUID.
Proof.
  refine (inj_countable' (fun g => (Data1 g, Data2 g, Data3 g, Data4 g))
            (fun '(a, b, c, d) => Guid a b c d) _). by intros [].
Defined.

Definition compare_guid (guid1 guid2 : EFI_GUID) : bool :=
  (Data1 guid1 =? Data1 guid2) && (Data2 guid1 =? Data2 guid2) && (Data3 guid1 =? Data3 guid2) &&
  bool_decide (Data4 guid1 = Data4 guid2).

(** ** variable_checker.c *)

Record VAR_CHECK_VARIABLE_PROPERTY := Property {
  Revision : Z; Property_ : Z; Attributes : Z; MinSize : Z; MaxSize : Z
}.

Record variable_constraints := Constraints {
  revision : Z; property : Z; vc_attributes : Z; min_size : Z; max_size : Z
}.

Definition variable_checker_set_constraints (constraints : variable_constraints) (is_update : bool)
    (check_var_property : VAR_CHECK_VARIABLE_PROPERTY) : Z * variable_constraints :=
  if negb (Revision check_var_property =? VAR_CHECK_VARIABLE_PROPERTY_REVISION) then
    (EFI_INVALID_PARAMETER, constraints)
  else if MinSize check_var_property >? MaxSize check_var_property then
    (EFI_INVALID_PARAMETER, constraints)
  else (EFI_SUCCESS,
    Constraints (Revision check_var_property) (Property_ check_var_property)
      (Attributes check_var_property) (MinSize check_var_property) (MaxSize check_var_property)).

Definition variable_checker_get_constraints (constraints : variable_constraints)
    : VAR_CHECK_VARIABLE_PROPERTY :=
  Property (revision constraints) (property constraints) (vc_attributes constraints)
    (min_size constraints) (max_size constraints).

Definition variable_checker_check_on_set (constraints : variable_constraints) (attributes data_size : Z) : Z :=
  if negb (Z.land (property constraints) VAR_CHECK_VARIABLE_PROPERTY_READ_ONLY =? 0) then EFI_WRITE_PROTECTED
  else if data_size <? min_size constraints then EFI_INVALID_PARAMETER
  else if data_size >? max_size constraints then EFI_INVALID_PARAMETER
  else EFI_SUCCESS.

(** ** variable_index.h *)

Definition VARIABLE_INDEX_MAX_NAME_SIZE : Z := 64.
Definition FINGERPRINT_SIZE : Z := 32.
Definition EFI_TIME_SIZE : Z := 16.

(** [name] is int16_t[64]; [md_pad] the padding before [uid]. *)
Record variable_metadata := Metadata {
  guid : EFI_GUID;
  timestamp : bytes;
  fingerprint : bytes;
  name_size : Z;
  name : bytes;
  attributes : Z;
  md_pad : bytes;
  uid : Z
}.

Record variable_info := VarInfo {
  metadata : variable_metadata;
  check_constraints : variable_constraints;
  is_variable_set : bool;
  is_constraints_set : bool
}.

Record variable_entry := Entry { info : variable_info; in_use : bool; dirty : bool }.

Record variable_index := Index {
  max_variables : Z;
  counter : Z;
  entries : list variable_entry
}.

(** Objects in memory. *)
Definition guid_bytes (g : EFI_GUID) : bytes :=
  le_split 4 (Data1 g) ++ le_split 2 (Data2 g) ++ le_split 2 (Data3 g) ++ Data4 g.
Definition guid_of_bytes (b : bytes) : EFI_GUID :=
  Guid (uint_at b 0 4) (uint_at b 4 2) (uint_at b 6 2) (slice b 8 8).

Definition METADATA_SIZE : Z := 216.
Definition metadata_bytes (m : variable_metadata) : bytes :=
  guid_bytes (guid m) ++ timestamp m ++ fingerprint m ++ le_split 8 (name_size m) ++ name m ++
  le_split 4 (attributes m) ++ md_pad m ++ le_split 8 (uid m).
Definition metadata_of_bytes (b : bytes) : variable_metadata :=
  Metadata (guid_of_bytes (slice b 0 16)) (slice b 16 16) (slice b 32 32) (uint_at b 64 8) (slice b 72 128)
    (uint_at b 200 4) (slice b 204 4) (uint_at b 208 8).

Definition CONSTRAINTS_SIZE : Z := 24.
Definition constraints_bytes (c : variable_constraints) : bytes :=
  le_split 2 (revision c) ++ le_split 2 (property c) ++ le_split 4 (vc_attributes c) ++
  le_split 8 (min_size c) ++ le_split 8 (max_size c).
Definition constraints_of_bytes (b : bytes) : variable_constraints :=
  Constraints (uint_at b 0 2) (uint_at b 2 2) (uint_at b 4 4) (uint_at b 8 8) (uint_at b 16 8).

Definition ENTRY_SIZE : Z := 256.
Definition zero_info : variable_info :=
  VarInfo (Metadata (Guid 0 0 0 (fill 0 8)) (fill 0 EFI_TIME_SIZE) (fill 0 FINGERPRINT_SIZE) 0 (fill 0 128) 0
             (fill 0 4) 0)
    (Constraints 0 0 0 0 0) false false.
Definition zero_entry : variable_entry := Entry zero_info false false.

Definition with_info (e : variable_entry) (i : variable_info) : variable_entry := Entry i (in_use e) (dirty e).
Definition with_metadata (e : variable_entry) (m : variable_metadata) : variable_entry :=
  with_info e (VarInfo m (check_constraints (info e)) (is_variable_set (info e)) (is_constraints_set (info e))).
Definition with_entries (ix : variable_index) (es : list variable_entry) : variable_index :=
  Index (max_variables ix) (counter ix) es.
Definition update_entry (ix : variable_index) (pos : Z) (f : variable_entry -> variable_entry)
    : option variable_index :=
  e ← nthZ (entries ix) pos;
  es ← setZ (entries ix) pos (f e);
  Some (with_entries ix es).

(** ** variable_index.c *)

(** for (pos = pos; n iterations; ++pos): the first entry with [p]. *)
Fixpoint scan (n : nat) (p : variable_entry -> option bool) (es : list variable_entry) (pos : Z)
    : option (option Z) :=
  match n with
  | O => Some None
  | S n =>
      e ← nthZ es pos;
      found ← p e;
      if (found : bool) then Some (Some pos) else scan n p es (pos + 1)
  end.

Definition scan_all (ix : variable_index) (p : variable_entry -> option bool) : option (option Z) :=
  scan (Z.to_nat (max_variables ix)) p (entries ix) 0.

Fixpoint generate_uid_loop (n : nat) (ix : variable_index) (candidate : Z) : option Z :=
  match n with
  | O => Some 0
  | S n =>
      used ← scan_all ix (fun e => Some (in_use e && (uid (metadata (info e)) =? candidate)));
      match used with
      | Some _ => generate_uid_loop n ix (candidate + 1)
      | None => Some candidate
      end
  end.

Definition generate_uid (ix : variable_index) : option Z :=
  generate_uid_loop (Z.to_nat (max_variables ix)) ix 1.

(** memcmp of [name_size] octets of [name] with the name of the entry. *)
Definition is_matching_entry (g : EFI_GUID) (nm : bytes) (nsize : Z) (m : variable_metadata) : option bool :=
  if negb (compare_guid g (guid m)) then Some false
  else if negb (nsize =? name_size m) then Some false
  else a ← load nm 0 nsize;
       b ← load (name m) 0 nsize;
       Some (bool_decide (a = b)).

(** The position is an int, -1 for none. *)
Definition find_variable (ix : variable_index) (g : EFI_GUID) (nsize : Z) (nm : bytes) : option Z :=
  r ← scan_all ix (fun e => if in_use e then is_matching_entry g nm nsize (metadata (info e)) else Some false);
  Some (match r with Some pos => s32 pos | None => -1 end).

Definition find_free (ix : variable_index) : option Z :=
  r ← scan_all ix (fun e => Some (negb (in_use e)));
  Some (match r with Some pos => s32 pos | None => -1 end).

Definition mark_dirty (e : variable_entry) : variable_entry :=
  if negb (Z.land (attributes (metadata (info e))) EFI_VARIABLE_NON_VOLATILE =? 0)
  then Entry (info e) (in_use e) true else e.

(** [malloc_ok size]: malloc of [size] octets succeeds. *)
Definition variable_index_init (malloc_ok : Z -> bool) (max : Z) : Z * variable_index :=
  let size := u64 (ENTRY_SIZE * max) in
  if malloc_ok size then
    (EFI_SUCCESS, Index max 0 (replicate (Z.to_nat (size / ENTRY_SIZE)) zero_entry))
  else (EFI_OUT_OF_RESOURCES, Index max 0 []).

(** The table is freed: no entry can be accessed any more. *)
Definition variable_index_deinit (ix : variable_index) : variable_index :=
  Index (max_variables ix) (counter ix) [].

Definition variable_index_max_dump_size (ix : variable_index) : Z :=
  u64 (4 + (METADATA_SIZE + 1 + CONSTRAINTS_SIZE) * max_variables ix).

Definition variable_index_find (ix : variable_index) (g : EFI_GUID) (nsize : Z) (nm : bytes)
    : option (option Z) :=
  pos ← find_variable ix g nsize nm;
  Some (if pos >=? 0 then Some pos else None).

(** The next entry at or after [pos] that holds a variable. *)
Definition next_set (ix : variable_index) (pos : Z) : option (option Z) :=
  scan (Z.to_nat (s32 (max_variables ix) - pos))
    (fun e => Some (in_use e && is_variable_set (info e))) (entries ix) pos.

Definition variable_index_find_next (ix : variable_index) (g : EFI_GUID) (nsize : Z) (nm : bytes)
    : option (option Z * Z) :=
  if nsize >=? 2 then
    first ← get_uint nm 0 2;
    if negb (first =? 0) then
      pos ← find_variable ix g nsize nm;
      if pos >=? 0 then
        r ← next_set ix (pos + 1);
        Some (r, match r with Some _ => EFI_SUCCESS | None => EFI_NOT_FOUND end)
      else Some (None, EFI_INVALID_PARAMETER)
    else
      r ← next_set ix 0;
      Some (r, match r with Some _ => EFI_SUCCESS | None => EFI_NOT_FOUND end)
  else Some (None, EFI_NOT_FOUND).

Definition add_entry (ix : variable_index) (g : EFI_GUID) (nsize : Z) (nm : bytes)
    : option (option Z * variable_index) :=
  if nsize <=? VARIABLE_INDEX_MAX_NAME_SIZE * 2 then
    pos ← find_free ix;
    if pos >=? 0 then
      u ← generate_uid ix;
      e ← nthZ (entries ix) pos;
      let m := metadata (info e) in
      if u =? 0 then
        ix ← update_entry ix pos (fun e => with_metadata e
               (Metadata (guid m) (timestamp m) (fingerprint m) (name_size m) (name m) (attributes m)
                  (md_pad m) u));
        Some (None, ix)
      else
        bytes ← load nm 0 nsize;
        new_name ← store (name m) 0 bytes;
        ix ← update_entry ix pos (fun e =>
               Entry (VarInfo (Metadata g (fill 0 EFI_TIME_SIZE) (fill 0 FINGERPRINT_SIZE) nsize new_name 0
                                 (md_pad m) u)
                        (check_constraints (info e)) false false) true (dirty e));
        Some (Some pos, ix)
    else Some (None, ix)
  else Some (None, ix).

Definition variable_index_add_entry (ix : variable_index) (g : EFI_GUID) (nsize : Z) (nm : bytes)
    : option (option Z * variable_index) := add_entry ix g nsize nm.

Definition variable_index_remove_unused_entry (ix : variable_index) (p : option Z) : option variable_index :=
  match p with
  | None => Some ix
  | Some pos =>
      update_entry ix pos (fun e =>
        if negb (is_constraints_set (info e)) && negb (is_variable_set (info e))
        then Entry zero_info false (dirty e) else e)
  end.

Definition variable_index_set_variable (ix : variable_index) (pos : Z) (attrs : Z) : option variable_index :=
  update_entry ix pos (fun e =>
    let i := info e in let m := metadata i in
    mark_dirty (with_info e
      (VarInfo (Metadata (guid m) (timestamp m) (fingerprint m) (name_size m) (name m) attrs (md_pad m) (uid m))
         (check_constraints i) true (is_constraints_set i)))).

Definition variable_index_clear_variable (ix : variable_index) (p : option Z) : option variable_index :=
  match p with
  | None => Some ix
  | Some pos =>
      update_entry ix pos (fun e =>
        let e := mark_dirty e in let i := info e in
        with_info e (VarInfo (metadata i) (check_constraints i) false (is_constraints_set i)))
  end.

Definition variable_index_set_constraints (ix : variable_index) (p : option Z) (c : variable_constraints)
    : option variable_index :=
  match p with
  | None => Some ix
  | Some pos =>
      update_entry ix pos (fun e =>
        let i := info e in mark_dirty (with_info e (VarInfo (metadata i) c (is_variable_set i) true)))
  end.

Definition is_persistent (e : variable_entry) : bool :=
  in_use e && is_variable_set (info e) &&
  negb (Z.land (attributes (metadata (info e))) EFI_VARIABLE_NON_VOLATILE =? 0).

(** One memcpy of the dump; [None] inside the option for EFI_BUFFER_TOO_SMALL. *)
Definition dump_bytes (buffer_size : Z) (buffer : bytes) (dumped : Z) (b : bytes)
    : option (option (bytes * Z)) :=
  if u64 (dumped + len b) >? buffer_size then Some None
  else buffer ← store buffer dumped b; Some (Some (buffer, dumped + len b)).

Definition dump_entry (buffer_size : Z) (buffer : bytes) (dumped : Z) (e : variable_entry)
    : option (bytes * Z * bool) :=
  r ← dump_bytes buffer_size buffer dumped (metadata_bytes (metadata (info e)));
  match r with
  | None => Some (buffer, dumped, false)
  | Some (buffer, dumped) =>
      r ← dump_bytes buffer_size buffer dumped [if is_constraints_set (info e) then 1 else 0];
      match r with
      | None => Some (buffer, dumped, false)
      | Some (buffer, dumped) =>
          if is_constraints_set (info e) then
            r ← dump_bytes buffer_size buffer dumped (constraints_bytes (check_constraints (info e)));
            match r with
            | None => Some (buffer, dumped, false)
            | Some (buffer, dumped) => Some (buffer, dumped, true)
            end
          else Some (buffer, dumped, true)
      end
  end.

(** The loop over the entries; the result of an error is that of the early return. *)
Fixpoint dump_loop (n : nat) (buffer_size : Z) (es : list variable_entry) (pos : Z) (buffer : bytes)
    (dumped : Z) (any_dirty : bool) : option (Z * bytes * Z * bool * list variable_entry) :=
  match n with
  | O => Some (EFI_SUCCESS, buffer, dumped, any_dirty, es)
  | S n =>
      e ← nthZ es pos;
      '(buffer, dumped, ok) ← (if is_persistent e then dump_entry buffer_size buffer dumped e
                               else Some (buffer, dumped, true));
      if (ok : bool) then
        es ← setZ es pos (Entry (info e) (in_use e) false);
        dump_loop n buffer_size es (pos + 1) buffer dumped (any_dirty || dirty e)
      else Some (EFI_BUFFER_TOO_SMALL, buffer, 0, any_dirty, es)
  end.

(** Returns the status, the buffer, *data_len, *any_dirty and the index. *)
Definition variable_index_dump (ix : variable_index) (buffer_size : Z) (buffer : bytes)
    : option (Z * bytes * Z * bool * variable_index) :=
  buffer ← store buffer 0 (le_split 4 (u32 (counter ix + 1)));
  '(status, buffer, data_len, any_dirty, es) ←
    dump_loop (Z.to_nat (max_variables ix)) buffer_size (entries ix) 0 buffer 4 false;
  Some (status, buffer, data_len, any_dirty, with_entries ix es).

Definition variable_index_confirm_write (ix : variable_index) : variable_index :=
  Index (max_variables ix) (u32 (counter ix + 1)) (entries ix).

(** Any octet but zero stands for true. *)
Fixpoint restore_loop (fuel : nat) (data_len : Z) (buffer : bytes) (ix : variable_index) (loaded pos : Z)
    : option (Z * variable_index) :=
  if loaded <? data_len then
    match fuel with
    | O => None
    | S fuel =>
        if data_len - loaded >=? METADATA_SIZE then
          m ← load buffer loaded METADATA_SIZE;
          ix ← update_entry ix pos (fun e => with_metadata e (metadata_of_bytes m));
          let loaded := loaded + METADATA_SIZE in
          if data_len - loaded >=? 1 then
            b ← nthZ buffer loaded;
            let constrained := negb (b =? 0) in
            ix ← update_entry ix pos (fun e => with_info e
                   (VarInfo (metadata (info e)) (check_constraints (info e)) (is_variable_set (info e)) constrained));
            let loaded := loaded + 1 in
            '(ok, ix, loaded) ←
              (if constrained then
                 if data_len - loaded >=? CONSTRAINTS_SIZE then
                   c ← load buffer loaded CONSTRAINTS_SIZE;
                   ix ← update_entry ix pos (fun e => with_info e
                          (VarInfo (metadata (info e)) (constraints_of_bytes c) (is_variable_set (info e))
                             (is_constraints_set (info e))));
                   Some (true, ix, loaded + CONSTRAINTS_SIZE)
                 else Some (false, ix, loaded)
               else Some (true, ix, loaded));
            if (ok : bool) then
              ix ← update_entry ix pos (fun e =>
                     Entry (VarInfo (metadata (info e)) (check_constraints (info e)) true
                              (is_constraints_set (info e))) true (dirty e));
              restore_loop fuel data_len buffer ix loaded (pos + 1)
            else Some (loaded, ix)
          else Some (loaded, ix)
        else Some (loaded, ix)
    end
  else Some (loaded, ix).

(** Returns the number of octets loaded and the index. *)
Definition variable_index_restore (ix : variable_index) (data_len : Z) (buffer : bytes)
    : option (Z * variable_index) :=
  if data_len >=? 4 then
    c ← get_uint buffer 0 4;
    restore_loop (Z.to_nat data_len) data_len buffer (Index (max_variables ix) c (entries ix)) 4 0
  else restore_loop (Z.to_nat data_len) data_len buffer ix 0 0.

(** ** variable_index_iterator.c *)

Definition variable_index_iterator_first (ix : variable_index) : option Z :=
  r ← scan_all ix (fun e => Some (in_use e));
  Some (match r with Some pos => pos | None => max_variables ix end).

Definition variable_index_iterator_is_done (ix : variable_index) (current_pos : Z) : bool :=
  current_pos >=? max_variables ix.

Definition variable_index_iterator_current (ix : variable_index) (current_pos : Z) : option Z :=
  if negb (variable_index_iterator_is_done ix current_pos) then Some current_pos else None.

Definition variable_index_iterator_next (ix : variable_index) (current_pos : Z) : option Z :=
  if current_pos <? max_variables ix then
    r ← scan (Z.to_nat (max_variables ix - (current_pos + 1))) (fun e => Some (in_use e)) (entries ix)
          (current_pos + 1);
    Some (match r with Some pos => pos | None => max_variables ix end)
  else Some current_pos.

(** ** Specification: the index as a map from names to variables *)

Definition key : Type := EFI_GUID * bytes.

Record variable := Var {
  v_attributes : Z;
  v_uid : Z;
  v_set : bool;
  v_constraints : option variable_constraints;
  v_timestamp : bytes;
  v_fingerprint : bytes
}.

Definition entry_key (e : variable_entry) : key :=
  let m := metadata (info e) in (guid m, slice (name m) 0 (name_size m)).
Definition entry_variable (e : variable_entry) : variable :=
  let i := info e in let m := metadata i in
  Var (attributes m) (uid m) (is_variable_set i)
    (if is_constraints_set i then Some (check_constraints i) else None) (timestamp m) (fingerprint m).

Definition binding (e : variable_entry) : option (key * variable) :=
  if in_use e then Some (entry_key e, entry_variable e) else None.
Definition bindings (es : list variable_entry) : list (key * variable) := omap binding es.
Definition variables (es : list variable_entry) : gmap key variable := list_to_map (bindings es).
Definition uids (es : list variable_entry) : list Z := (fun b => v_uid (snd b)) <$> bindings es.

Definition guid_ok (g : EFI_GUID) : Prop :=
  fits 32 (Data1 g) /\ fits 16 (Data2 g) /\ fits 16 (Data3 g) /\ len (Data4 g) = 8.
Definition metadata_ok (m : variable_metadata) : Prop :=
  guid_ok (guid m) /\ len (timestamp m) = 16 /\ len (fingerprint m) = 32 /\
  0 <= name_size m <= 128 /\ len (name m) = 128 /\ fits 32 (attributes m) /\ len (md_pad m) = 4 /\
  fits 64 (uid m).
Definition constraints_ok (c : variable_constraints) : Prop :=
  fits 16 (revision c) /\ fits 16 (property c) /\ fits 32 (vc_attributes c) /\
  fits 64 (min_size c) /\ fits 64 (max_size c).
Definition entry_ok (e : variable_entry) : Prop :=
  metadata_ok (metadata (info e)) /\ constraints_ok (check_constraints (info e)) /\
  (in_use e = false -> is_variable_set (info e) = false /\ is_constraints_set (info e) = false).

(** Names and identifiers are unique. *)
Definition index_ok (ix : variable_index) : Prop :=
  0 <= max_variables ix < 2 ^ 31 /\ len (entries ix) = max_variables ix /\ fits 32 (counter ix) /\
  Forall entry_ok (entries ix) /\ NoDup (bindings (entries ix)).*1 /\ NoDup (uids (entries ix)) /\
  Forall (fun u => 1 <= u <= max_variables ix) (uids (entries ix)).

(** ** Lemmas: scanning the table *)

Lemma scan_spec n p es pos :
  0 <= pos -> pos + Z.of_nat n <= len es ->
  (forall i e, nthZ es i = Some e -> is_Some (p e)) ->
  (exists i e, scan n p es pos = Some (Some i) /\ pos <= i < pos + Z.of_nat n /\
     nthZ es i = Some e /\ p e = Some true /\
     forall j e', pos <= j < i -> nthZ es j = Some e' -> p e' = Some false) \/
  (scan n p es pos = Some None /\
     forall j e', pos <= j < pos + Z.of_nat n -> nthZ es j = Some e' -> p e' = Some false).
Proof.
  revert pos. induction n as [|n IH]; intros pos Hpos Hlen Hp.
  { right. split; [done|]. intros. lia. }
  simpl. destruct (nthZ_is_Some es pos ltac:(lia)) as [e He]. rewrite He. cbn [mbind option_bind].
  destruct (Hp pos e He) as [b Hb]. rewrite Hb. cbn [mbind option_bind]. destruct b.
  { left. exists pos, e. split; [done|]. split; [lia|]. split; [done|]. split; [done|]. intros; lia. }
  destruct (IH (pos + 1) ltac:(lia) ltac:(lia) Hp) as [(i & e1 & -> & Hi & He1 & Hp1 & Hbefore)|[-> Hall]].
  - left. exists i, e1. split; [done|]. split; [lia|]. split; [done|]. split; [done|].
    intros j e' Hj Hn. destruct (decide (j = pos)) as [->|]; [congruence|]. apply (Hbefore j); [lia|done].
  - right. split; [done|]. intros j e' Hj Hn.
    destruct (decide (j = pos)) as [->|]; [congruence|]. apply (Hall j); [lia|done].
Qed.

(** The entries around a position. *)
Lemma nthZ_split {A} (l : list A) i x :
  nthZ l i = Some x ->
  exists l1 l2, l = l1 ++ x :: l2 /\ len l1 = i /\ forall y, setZ l i y = Some (l1 ++ y :: l2).
Proof.
  intros Hx. pose proof (nthZ_Some _ _ _ Hx) as Hi. unfold nthZ in Hx. case_match; [|done].
  apply list_elem_of_split_length in Hx as (l1 & l2 & -> & Hl).
  exists l1, l2. split; [done|]. split; [unfold len; lia|]. intros y.
  rewrite setZ_is_Some by done. f_equal. rewrite Hl. by rewrite insert_app_r_alt, Nat.sub_diag by lia.
Qed.

Lemma bindings_app l1 l2 : bindings (l1 ++ l2) = bindings l1 ++ bindings l2.
Proof. apply omap_app. Qed.

Lemma bindings_middle l1 e l2 :
  bindings (l1 ++ e :: l2) ≡ₚ option_list (binding e) ++ bindings (l1 ++ l2).
Proof.
  rewrite !bindings_app. unfold bindings at 2. simpl. destruct (binding e) as [b|]; simpl; [|done].
  by rewrite Permutation_middle.
Qed.

(** What an entry contributes to the map. *)
Lemma variables_middle l1 e l2 :
  NoDup (bindings (l1 ++ e :: l2)).*1 ->
  match binding e with
  | Some (k, v) => variables (l1 ++ e :: l2) = <[k := v]> (variables (l1 ++ l2)) /\
                   variables (l1 ++ l2) !! k = None
  | None => variables (l1 ++ e :: l2) = variables (l1 ++ l2)
  end.
Proof.
  intros Hnd. pose proof (bindings_middle l1 e l2) as Hp. unfold variables.
  rewrite (list_to_map_proper _ _ Hnd Hp). rewrite Hp in Hnd.
  destruct (binding e) as [[k v]|]; [|done]. simpl in *. split; [done|].
  apply not_elem_of_list_to_map. by apply NoDup_cons in Hnd as [? _].
Qed.

Lemma variables_lookup es k v :
  NoDup (bindings es).*1 -> variables es !! k = Some v <-> exists i e, nthZ es i = Some e /\ binding e = Some (k, v).
Proof.
  intros Hnd. unfold variables. rewrite <- elem_of_list_to_map by done. unfold bindings.
  rewrite list_elem_of_omap. split.
  - intros (e & [i Hi]%list_elem_of_lookup & Hb). exists (Z.of_nat i), e. by rewrite nthZ_of_nat.
  - intros (i & e & Hi & Hb). exists e. split; [|done]. unfold nthZ in Hi. case_match; [|done].
    by eapply list_elem_of_lookup_2.
Qed.

Lemma variables_size es : NoDup (bindings es).*1 -> size (variables es) = length (bindings es).
Proof.
  intros Hnd. unfold variables. rewrite <- length_map_to_list. by rewrite map_to_list_to_map.
Qed.

(** ** Lemmas: changing one entry *)

Lemma uids_middle l1 e l2 :
  uids (l1 ++ e :: l2) ≡ₚ (v_uid ∘ snd <$> option_list (binding e)) ++ uids (l1 ++ l2).
Proof. unfold uids. by rewrite bindings_middle, fmap_app. Qed.

Lemma index_rest ix l1 e l2 k v :
  index_ok ix -> entries ix = l1 ++ e :: l2 -> binding e = Some (k, v) ->
  (k ∉ (bindings (l1 ++ l2)).*1) /\ (v_uid v ∉ uids (l1 ++ l2)) /\ 1 <= v_uid v <= max_variables ix.
Proof.
  intros (_ & _ & _ & _ & Hk & Hu & Hr) Hes Hb. rewrite Hes in *. rewrite bindings_middle, Hb in Hk.
  rewrite uids_middle, Hb in Hu, Hr. simpl in *. apply NoDup_cons in Hk, Hu. apply Forall_cons in Hr. tauto.
Qed.

Lemma replace_ok ix l1 e l2 e' :
  index_ok ix -> entries ix = l1 ++ e :: l2 -> entry_ok e' ->
  match binding e' with
  | Some (k, v) => (k ∉ (bindings (l1 ++ l2)).*1) /\ (v_uid v ∉ uids (l1 ++ l2)) /\ 1 <= v_uid v <= max_variables ix
  | None => True
  end ->
  index_ok (with_entries ix (l1 ++ e' :: l2)).
Proof.
  intros (Hmax & Hlen & Hc & Hall & Hk & Hu & Hr) Hes He' Hb. unfold index_ok. simpl.
  rewrite Hes in *. split; [done|].
  split; [rewrite <- Hlen; unfold len; rewrite !length_app; done|]. split; [done|].
  split.
  { apply Forall_app in Hall as [H1 H2]. apply Forall_app. split; [done|].
    apply Forall_cons in H2 as [_ H2]. by apply Forall_cons. }
  rewrite bindings_middle, fmap_app in Hk. rewrite uids_middle in Hu, Hr.
  rewrite bindings_middle, uids_middle.
  apply NoDup_app in Hk as (_ & _ & Hk), Hu as (_ & _ & Hu). apply Forall_app in Hr as [_ Hr].
  destruct (binding e') as [[k v]|]; [|done]. simpl in *. destruct Hb as (Hb1 & Hb2 & Hb3).
  split; [by constructor|]. split; [by constructor|]. by constructor.
Qed.

Lemma update_at ix pos e f :
  nthZ (entries ix) pos = Some e ->
  exists l1 l2, entries ix = l1 ++ e :: l2 /\ len l1 = pos /\
    update_entry ix pos f = Some (with_entries ix (l1 ++ f e :: l2)).
Proof.
  intros He. destruct (nthZ_split _ _ _ He) as (l1 & l2 & Hes & Hl & Hset).
  exists l1, l2. split; [done|]. split; [done|]. unfold update_entry. rewrite He. cbn [mbind option_bind].
  by rewrite Hset.
Qed.

(** The entry of a variable changes, not its name or its identifier. *)
Lemma update_in_place ix pos e f :
  index_ok ix -> nthZ (entries ix) pos = Some e -> in_use e = true -> in_use (f e) = true ->
  entry_key (f e) = entry_key e -> uid (metadata (info (f e))) = uid (metadata (info e)) -> entry_ok (f e) ->
  exists es, update_entry ix pos f = Some (with_entries ix es) /\ index_ok (with_entries ix es) /\
    variables es = <[entry_key e := entry_variable (f e)]> (variables (entries ix)).
Proof.
  intros Hok He Hu Hu' Hk Hid He'. destruct (update_at ix pos e f He) as (l1 & l2 & Hes & _ & Hupd).
  assert (binding e = Some (entry_key e, entry_variable e)) as Hb by (unfold binding; by rewrite Hu).
  assert (binding (f e) = Some (entry_key e, entry_variable (f e))) as Hb' by (unfold binding; by rewrite Hu', Hk).
  pose proof (index_rest ix l1 e l2 _ _ Hok Hes Hb) as Hrest.
  assert (index_ok (with_entries ix (l1 ++ f e :: l2))) as Hok'.
  { apply (replace_ok ix l1 e l2); [done..|]. rewrite Hb'. simpl in *. by rewrite Hid. }
  exists (l1 ++ f e :: l2). split; [done|]. split; [done|].
  pose proof (variables_middle l1 e l2) as H1. pose proof (variables_middle l1 (f e) l2) as H2.
  rewrite Hb in H1. rewrite Hb' in H2. rewrite Hes. destruct H1 as [-> _]; [rewrite <- Hes; apply Hok|].
  destruct H2 as [-> _]; [apply Hok'|]. by rewrite insert_insert_eq.
Qed.

(** An entry is taken out of use. *)
Lemma update_release ix pos e f :
  index_ok ix -> nthZ (entries ix) pos = Some e -> in_use e = true -> in_use (f e) = false -> entry_ok (f e) ->
  exists es, update_entry ix pos f = Some (with_entries ix es) /\ index_ok (with_entries ix es) /\
    variables es = delete (entry_key e) (variables (entries ix)).
Proof.
  intros Hok He Hu Hu' He'. destruct (update_at ix pos e f He) as (l1 & l2 & Hes & _ & Hupd).
  assert (binding e = Some (entry_key e, entry_variable e)) as Hb by (unfold binding; by rewrite Hu).
  assert (binding (f e) = None) as Hb' by (unfold binding; by rewrite Hu').
  assert (index_ok (with_entries ix (l1 ++ f e :: l2))) as Hok'.
  { apply (replace_ok ix l1 e l2); [done..|]. by rewrite Hb'. }
  exists (l1 ++ f e :: l2). split; [done|]. split; [done|].
  pose proof (variables_middle l1 e l2) as H1. pose proof (variables_middle l1 (f e) l2) as H2.
  rewrite Hb in H1. rewrite Hb' in H2. rewrite Hes. destruct H1 as [-> H1]; [rewrite <- Hes; apply Hok|].
  rewrite H2 by apply Hok'. by rewrite delete_insert_id.
Qed.

(** A free entry is taken for a new variable. *)
Lemma update_take ix pos e f :
  index_ok ix -> nthZ (entries ix) pos = Some e -> in_use e = false -> in_use (f e) = true -> entry_ok (f e) ->
  variables (entries ix) !! entry_key (f e) = None ->
  uid (metadata (info (f e))) ∉ uids (entries ix) -> 1 <= uid (metadata (info (f e))) <= max_variables ix ->
  exists es, update_entry ix pos f = Some (with_entries ix es) /\ index_ok (with_entries ix es) /\
    variables es = <[entry_key (f e) := entry_variable (f e)]> (variables (entries ix)).
Proof.
  intros Hok He Hu Hu' He' Hnew Huid Hr. destruct (update_at ix pos e f He) as (l1 & l2 & Hes & _ & Hupd).
  assert (binding e = None) as Hb by (unfold binding; by rewrite Hu).
  assert (binding (f e) = Some (entry_key (f e), entry_variable (f e))) as Hb' by (unfold binding; by rewrite Hu').
  pose proof (variables_middle l1 e l2) as H1. rewrite Hb, <- Hes in H1. specialize (H1 ltac:(apply Hok)).
  assert (index_ok (with_entries ix (l1 ++ f e :: l2))) as Hok'.
  { apply (replace_ok ix l1 e l2); [done..|]. rewrite Hb'. rewrite H1 in Hnew.
    split; [by apply not_elem_of_list_to_map|]. split; [|done].
    rewrite Hes, uids_middle, Hb in Huid. exact Huid. }
  exists (l1 ++ f e :: l2). split; [done|]. split; [done|].
  pose proof (variables_middle l1 (f e) l2) as H2. rewrite Hb' in H2. rewrite H1.
  by destruct H2 as [-> _]; [apply Hok'|].
Qed.

(** ** Lemmas: finding entries *)

Lemma compare_guid_spec g1 g2 : compare_guid g1 g2 = bool_decide (g1 = g2).
Proof.
  destruct g1 as [a1 b1 c1 d1], g2 as [a2 b2 c2 d2]. unfold compare_guid. simpl.
  destruct (Z.eqb_spec a1 a2), (Z.eqb_spec b1 b2), (Z.eqb_spec c1 c2); simpl;
    [|symmetry; apply bool_decide_eq_false_2; congruence..].
  apply bool_decide_ext. naive_solver.
Qed.

Lemma entry_at ix i e : index_ok ix -> nthZ (entries ix) i = Some e -> entry_ok e.
Proof.
  intros (_ & _ & _ & Hall & _) He. unfold nthZ in He. case_match; [|done]. by eapply Forall_lookup_1.
Qed.

(** Comparing with an entry compares the names. *)
Lemma matching_spec g nm nsize e :
  entry_ok e -> 0 <= nsize <= len nm ->
  is_matching_entry g nm nsize (metadata (info e)) = Some (bool_decide ((g, slice nm 0 nsize) = entry_key e)).
Proof.
  intros ((_ & _ & _ & Hns & Hnl & _) & _) Hn. unfold is_matching_entry, entry_key.
  rewrite compare_guid_spec. destruct (decide (g = guid (metadata (info e)))) as [->|Hg].
  2:{ rewrite !bool_decide_eq_false_2 by congruence. done. }
  rewrite bool_decide_eq_true_2 by done. simpl.
  destruct (Z.eqb_spec nsize (name_size (metadata (info e)))) as [->|Hne]; simpl.
  - rewrite !load_is_slice by lia. simpl. f_equal. apply bool_decide_ext.
    split; [by intros ->|by intros [= ->]].
  - rewrite bool_decide_eq_false_2; [done|]. intros [= Heq%(f_equal len)]. rewrite !slice_len in Heq; lia.
Qed.

Lemma scan_all_spec ix p :
  index_ok ix -> (forall i e, nthZ (entries ix) i = Some e -> is_Some (p e)) ->
  (exists i e, scan_all ix p = Some (Some i) /\ 0 <= i < max_variables ix /\
     nthZ (entries ix) i = Some e /\ p e = Some true /\
     forall j e', 0 <= j < i -> nthZ (entries ix) j = Some e' -> p e' = Some false) \/
  (scan_all ix p = Some None /\ forall j e', nthZ (entries ix) j = Some e' -> p e' = Some false).
Proof.
  intros Hok Hp. unfold scan_all. pose proof Hok as (Hmax & Hlen & _).
  destruct (scan_spec (Z.to_nat (max_variables ix)) p (entries ix) 0 ltac:(lia) ltac:(lia) Hp)
    as [(i & e & Hs & Hi & He)|[Hs Hall]].
  - left. exists i, e. split; [done|]. split; [lia|done].
  - right. split; [done|]. intros j e' Hj. pose proof (nthZ_Some _ _ _ Hj). apply (Hall j); [lia|done].
Qed.

Lemma find_variable_spec ix g nsize nm :
  index_ok ix -> 0 <= nsize <= len nm ->
  let k := (g, slice nm 0 nsize) in
  (exists pos e, find_variable ix g nsize nm = Some pos /\ 0 <= pos < max_variables ix /\
     nthZ (entries ix) pos = Some e /\ in_use e = true /\ entry_key e = k) \/
  (find_variable ix g nsize nm = Some (-1) /\ variables (entries ix) !! k = None).
Proof.
  intros Hok Hn k. unfold find_variable. pose proof Hok as (Hmax & Hlen & _ & _ & Hnd & _).
  destruct (scan_all_spec ix (fun e => if in_use e then is_matching_entry g nm nsize (metadata (info e))
    else Some false) Hok) as [(i & e & -> & Hi & He & Hp & _)|[-> Hall]].
  - intros i e He%(entry_at ix _ _ Hok). destruct (in_use e); [rewrite matching_spec by done|]; by eexists.
  - left. exists i, e. cbn [mbind option_bind]. rewrite (swrap_small 32) by lia. split; [done|].
    split; [done|]. split; [done|]. destruct (in_use e); [|done].
    rewrite (matching_spec _ _ _ _ (entry_at ix i e Hok He) Hn) in Hp. injection Hp as Hp%bool_decide_eq_true.
    done.
  - right. split; [done|]. apply eq_None_not_Some. intros [v Hv].
    apply variables_lookup in Hv as (i & e & He & Hb); [|done]. specialize (Hall i e He).
    unfold binding in Hb. destruct (in_use e); [|done]. assert (entry_key e = k) as Hk by congruence.
    rewrite (matching_spec _ _ _ _ (entry_at ix i e Hok He) Hn) in Hall.
    injection Hall as Hall%bool_decide_eq_false. by apply Hall.
Qed.

Lemma binding_variable ix pos e :
  index_ok ix -> nthZ (entries ix) pos = Some e -> in_use e = true ->
  variables (entries ix) !! entry_key e = Some (entry_variable e).
Proof.
  intros (_ & _ & _ & _ & Hnd & _) He Hu. apply variables_lookup; [done|].
  exists pos, e. split; [done|]. unfold binding. by rewrite Hu.
Qed.

Lemma bindings_full es : Forall (fun e => in_use e = true) es -> length (bindings es) = length es.
Proof.
  induction 1 as [|e es Hu _ IH]; [done|]. pose proof (Permutation_length (bindings_middle [] e es)) as Hl. simpl app in Hl.
  rewrite Hl, length_app, IH. unfold binding. by rewrite Hu.
Qed.

Lemma bindings_length es : (length (bindings es) <= length es)%nat.
Proof.
  induction es as [|e es IH]; [simpl; lia|].
  pose proof (Permutation_length (bindings_middle [] e es)) as Hl. simpl app in Hl.
  rewrite Hl, length_app. destruct (binding e); simpl; lia.
Qed.

Lemma find_free_spec ix :
  index_ok ix ->
  (exists pos e, find_free ix = Some pos /\ 0 <= pos < max_variables ix /\
     nthZ (entries ix) pos = Some e /\ in_use e = false /\
     Z.of_nat (size (variables (entries ix))) < max_variables ix) \/
  (find_free ix = Some (-1) /\ Z.of_nat (size (variables (entries ix))) = max_variables ix).
Proof.
  intros Hok. pose proof Hok as (Hmax & Hlen & _ & _ & Hnd & _). unfold find_free.
  rewrite variables_size by done.
  destruct (scan_all_spec ix (fun e => Some (negb (in_use e))) Hok) as [(i & e & -> & Hi & He & [= Hp] & _)|[-> Hall]].
  - by eexists.
  - left. exists i, e. cbn [mbind option_bind]. rewrite (swrap_small 32) by lia. apply negb_true_iff in Hp.
    do 4 (split; [done|]). destruct (nthZ_split _ _ _ He) as (l1 & l2 & Hes & _).
    rewrite <- Hlen, Hes. rewrite (Permutation_length (bindings_middle l1 e l2)). unfold binding. rewrite Hp.
    simpl. pose proof (bindings_length (l1 ++ l2)). unfold len. rewrite !length_app in *.
    simpl. lia.
  - right. split; [done|]. rewrite bindings_full; [exact Hlen|]. apply Forall_lookup. intros j e He.
    rewrite <- nthZ_of_nat in He. specialize (Hall _ e He). by destruct (in_use e).
Qed.

Lemma in_uids ix u :
  u ∈ uids (entries ix) <-> exists i e, nthZ (entries ix) i = Some e /\ in_use e = true /\ uid (metadata (info e)) = u.
Proof.
  unfold uids, bindings. rewrite list_elem_of_fmap. split.
  - intros ([k v] & -> & (e & [i Hi]%list_elem_of_lookup & Hb)%list_elem_of_omap).
    exists (Z.of_nat i), e. rewrite nthZ_of_nat. split; [done|]. unfold binding in Hb.
    destruct (in_use e); by simplify_eq.
  - intros (i & e & Hi & Hu & <-). exists (entry_key e, entry_variable e). split; [done|].
    apply list_elem_of_omap. exists e. unfold binding. rewrite Hu. split; [|done].
    unfold nthZ in Hi. case_match; [|done]. by eapply list_elem_of_lookup_2.
Qed.

Lemma generate_uid_loop_spec n ix c :
  index_ok ix -> 1 <= c ->
  exists u, generate_uid_loop n ix c = Some u /\
    ((c <= u < c + Z.of_nat n /\ u ∉ uids (entries ix)) \/
     (u = 0 /\ forall x, c <= x < c + Z.of_nat n -> x ∈ uids (entries ix))).
Proof.
  intros Hok. revert c. induction n as [|n IH]; intros c Hc; simpl.
  { exists 0. split; [done|]. right. split; [done|]. intros. lia. }
  destruct (scan_all_spec ix (fun e => Some (in_use e && (uid (metadata (info e)) =? c))) Hok)
    as [(i & e & -> & _ & He & [= Hp] & _)|[-> Hall]]; [by eexists| |]; cbn [mbind option_bind].
  - apply andb_true_iff in Hp as [Hu Hid%Z.eqb_eq].
    assert (c ∈ uids (entries ix)) as Hin by (apply in_uids; eauto).
    destruct (IH (c + 1) ltac:(lia)) as (u & -> & Hcase). exists u. split; [done|].
    destruct Hcase as [[Hr Hn]|[-> Hr]]; [left; split; [lia|done]|]. right. split; [done|].
    intros x Hx. destruct (decide (x = c)) as [->|]; [done|]. apply Hr. lia.
  - exists c. split; [done|]. left. split; [lia|]. intros (i & e & He & Hu & Hid)%in_uids.
    specialize (Hall i e He). rewrite Hu, Hid, Z.eqb_refl in Hall. done.
Qed.

(** As long as an entry is free there is an identifier for it. *)
Lemma generate_uid_spec ix :
  index_ok ix -> Z.of_nat (size (variables (entries ix))) < max_variables ix ->
  exists u, generate_uid ix = Some u /\ 1 <= u <= max_variables ix /\ u ∉ uids (entries ix).
Proof.
  intros Hok Hsize. pose proof Hok as (Hmax & Hlen & _ & _ & Hnd & _). rewrite variables_size in Hsize by done.
  destruct (generate_uid_loop_spec (Z.to_nat (max_variables ix)) ix 1 Hok ltac:(lia)) as (u & Hu & Hcase).
  exists u. split; [done|]. destruct Hcase as [[Hr Hn]|[-> Hr]]; [split; [lia|done]|]. exfalso.
  assert (seqZ 1 (max_variables ix) ⊆+ uids (entries ix)) as Hsub%submseteq_length.
  { apply NoDup_submseteq; [apply NoDup_seqZ|]. intros x Hx%elem_of_seqZ. apply Hr. lia. }
  rewrite length_seqZ in Hsub. unfold uids in Hsub. rewrite length_fmap in Hsub. lia.
Qed.

(** ** The operations, as the variable store composes them *)

Inductive index_op :=
  | Lookup (g : EFI_GUID) (nsize : Z) (nm : bytes)
  | Ensure (g : EFI_GUID) (nsize : Z) (nm : bytes)
  | SetVariable (g : EFI_GUID) (nsize : Z) (nm : bytes) (attrs : Z)
  | ClearVariable (g : EFI_GUID) (nsize : Z) (nm : bytes)
  | SetConstraints (g : EFI_GUID) (nsize : Z) (nm : bytes) (c : variable_constraints)
  | RemoveUnused (g : EFI_GUID) (nsize : Z) (nm : bytes).

Definition op_key (o : index_op) : key :=
  match o with
  | Lookup g nsize nm | Ensure g nsize nm | SetVariable g nsize nm _ | ClearVariable g nsize nm
  | SetConstraints g nsize nm _ | RemoveUnused g nsize nm => (g, slice nm 0 nsize)
  end.

Definition index_op_ok (o : index_op) : Prop :=
  match o with
  | Lookup g nsize nm | Ensure g nsize nm | ClearVariable g nsize nm | RemoveUnused g nsize nm =>
      guid_ok g /\ 0 <= nsize <= len nm
  | SetVariable g nsize nm attrs => guid_ok g /\ 0 <= nsize <= len nm /\ fits 32 attrs
  | SetConstraints g nsize nm c => guid_ok g /\ 0 <= nsize <= len nm /\ constraints_ok c
  end.

(** The reply: the variable, where there is one after the operation. *)
Definition index_step (ix : variable_index) (o : index_op) : option (option variable * variable_index) :=
  match o with
  | Lookup g nsize nm =>
      p ← variable_index_find ix g nsize nm;
      match p with
      | Some pos => e ← nthZ (entries ix) pos; Some (Some (entry_variable e), ix)
      | None => Some (None, ix)
      end
  | Ensure g nsize nm =>
      p ← variable_index_find ix g nsize nm;
      '(p, ix) ← match p with
                 | Some pos => Some (Some pos, ix)
                 | None => variable_index_add_entry ix g nsize nm
                 end;
      match p with
      | Some pos => e ← nthZ (entries ix) pos; Some (Some (entry_variable e), ix)
      | None => Some (None, ix)
      end
  | SetVariable g nsize nm attrs =>
      p ← variable_index_find ix g nsize nm;
      match p with
      | Some pos =>
          ix ← variable_index_set_variable ix pos attrs;
          e ← nthZ (entries ix) pos; Some (Some (entry_variable e), ix)
      | None => Some (None, ix)
      end
  | ClearVariable g nsize nm =>
      p ← variable_index_find ix g nsize nm;
      ix ← variable_index_clear_variable ix p;
      match p with
      | Some pos => e ← nthZ (entries ix) pos; Some (Some (entry_variable e), ix)
      | None => Some (None, ix)
      end
  | SetConstraints g nsize nm c =>
      p ← variable_index_find ix g nsize nm;
      ix ← variable_index_set_constraints ix p c;
      match p with
      | Some pos => e ← nthZ (entries ix) pos; Some (Some (entry_variable e), ix)
      | None => Some (None, ix)
      end
  | RemoveUnused g nsize nm =>
      p ← variable_index_find ix g nsize nm;
      ix ← variable_index_remove_unused_entry ix p;
      Some (None, ix)
  end.

Fixpoint index_run (ix : variable_index) (os : list index_op)
    : option (list (option variable) * variable_index) :=
  match os with
  | [] => Some ([], ix)
  | o :: os =>
      '(r, ix) ← index_step ix o;
      '(rs, ix) ← index_run ix os;
      Some (r :: rs, ix)
  end.

(** What the operations do to a map of at most [max] variables. *)
Definition fresh_variable (u : Z) : variable := Var 0 u false None (fill 0 16) (fill 0 32).

Definition change_variable (o : index_op) (v : variable) : variable :=
  match o with
  | SetVariable _ _ _ attrs =>
      Var attrs (v_uid v) true (v_constraints v) (v_timestamp v) (v_fingerprint v)
  | ClearVariable _ _ _ =>
      Var (v_attributes v) (v_uid v) false (v_constraints v) (v_timestamp v) (v_fingerprint v)
  | SetConstraints _ _ _ c =>
      Var (v_attributes v) (v_uid v) (v_set v) (Some c) (v_timestamp v) (v_fingerprint v)
  | _ => v
  end.

Definition unused (v : variable) : bool := negb (v_set v) && bool_decide (v_constraints v = None).

Inductive map_step (max : Z) (m : gmap key variable) (o : index_op)
    : option variable -> gmap key variable -> Prop :=
  | map_found v :
      m !! op_key o = Some v -> (forall g nsize nm, o <> RemoveUnused g nsize nm) ->
      map_step max m o (Some (change_variable o v)) (<[op_key o := change_variable o v]> m)
  | map_removed g nsize nm v :
      o = RemoveUnused g nsize nm -> m !! op_key o = Some v ->
      map_step max m o None (if unused v then delete (op_key o) m else m)
  | map_absent :
      m !! op_key o = None -> (forall g nsize nm, o <> Ensure g nsize nm) -> map_step max m o None m
  | map_added g nsize nm u :
      o = Ensure g nsize nm -> m !! op_key o = None -> nsize <= 128 -> Z.of_nat (size m) < max ->
      1 <= u <= max -> (forall k v, m !! k = Some v -> v_uid v <> u) ->
      map_step max m o (Some (fresh_variable u)) (<[op_key o := fresh_variable u]> m)
  | map_full g nsize nm :
      o = Ensure g nsize nm -> m !! op_key o = None -> 128 < nsize \/ Z.of_nat (size m) = max ->
      map_step max m o None m.

Inductive map_run (max : Z)
    : gmap key variable -> list index_op -> list (option variable) -> gmap key variable -> Prop :=
  | map_nil m : map_run max m [] [] m
  | map_cons m o r m1 os rs m2 :
      map_step max m o r m1 -> map_run max m1 os rs m2 -> map_run max m (o :: os) (r :: rs) m2.

(** ** Lemmas: the operations *)

Lemma mark_dirty_info e : info (mark_dirty e) = info e.
Proof. unfold mark_dirty. by destruct (negb _). Qed.
Lemma mark_dirty_in_use e : in_use (mark_dirty e) = in_use e.
Proof. unfold mark_dirty. by destruct (negb _). Qed.

Lemma update_lookup ix pos f e ix' :
  update_entry ix pos f = Some ix' -> nthZ (entries ix) pos = Some e -> nthZ (entries ix') pos = Some (f e).
Proof.
  unfold update_entry. intros Hu He. rewrite He in Hu. cbn [mbind option_bind] in Hu.
  apply bind_Some in Hu as (es & Hs & [= <-]). simpl. by eapply nthZ_setZ_eq.
Qed.

Lemma update_other ix pos f ix' pos' :
  update_entry ix pos f = Some ix' -> pos' <> pos -> nthZ (entries ix') pos' = nthZ (entries ix) pos'.
Proof.
  unfold update_entry. intros (e & _ & (es & Hset & [= <-])%bind_Some)%bind_Some Hne. simpl.
  by eapply nthZ_setZ_ne.
Qed.

(** The identifiers of the variables. *)
Lemma uid_range ix k v :
  index_ok ix -> variables (entries ix) !! k = Some v -> 1 <= v_uid v <= max_variables ix.
Proof.
  intros (_ & _ & _ & _ & Hk & _ & Hr) Hv. unfold variables in Hv. apply elem_of_list_to_map in Hv; [|done].
  rewrite Forall_forall in Hr. apply Hr. unfold uids. apply list_elem_of_fmap. by exists (k, v).
Qed.

Lemma uid_unique ix k v k' v' :
  index_ok ix -> variables (entries ix) !! k = Some v -> variables (entries ix) !! k' = Some v' ->
  v_uid v = v_uid v' -> k = k'.
Proof.
  intros (_ & _ & _ & _ & Hk & Hu & _) Hv Hv' He. unfold variables in *.
  apply elem_of_list_to_map in Hv, Hv'; [|done..]. apply list_elem_of_lookup in Hv as [i Hi], Hv' as [j Hj].
  assert (i = j) as ->.
  { apply (NoDup_lookup _ _ _ (v_uid v) Hu); unfold uids; rewrite list_lookup_fmap; [by rewrite Hi|].
    rewrite Hj. simpl. by rewrite He. }
  congruence.
Qed.

(** The entry at a position of the index. *)
Definition at_pos (ix : variable_index) (pos : Z) (k : key) (v : variable) : Prop :=
  exists e, nthZ (entries ix) pos = Some e /\ in_use e = true /\ entry_key e = k /\ entry_variable e = v.

Lemma at_pos_var ix pos k v : index_ok ix -> at_pos ix pos k v -> variables (entries ix) !! k = Some v.
Proof. intros Hok (e & He & Hu & <- & <-). by eapply binding_variable. Qed.

Lemma find_pos ix g nsize nm :
  index_ok ix -> 0 <= nsize <= len nm ->
  (exists pos v, variable_index_find ix g nsize nm = Some (Some pos) /\ at_pos ix pos (g, slice nm 0 nsize) v) \/
  (variable_index_find ix g nsize nm = Some None /\ variables (entries ix) !! (g, slice nm 0 nsize) = None).
Proof.
  intros Hok Hn. unfold variable_index_find.
  destruct (find_variable_spec ix g nsize nm Hok Hn) as [(pos & e & -> & Hpos & He & Hu & Hk)|[-> Hnone]];
    cbn [mbind option_bind]; [|by right].
  left. exists pos, (entry_variable e). destruct (Z.geb_spec pos 0); [|lia]. split; [done|]. by exists e.
Qed.

(** The index with one variable changed. *)
Definition index_set (ix ix' : variable_index) (pos : Z) (k : key) (v : variable) : Prop :=
  index_ok ix' /\ max_variables ix' = max_variables ix /\ counter ix' = counter ix /\
  variables (entries ix') = <[k := v]> (variables (entries ix)) /\ at_pos ix' pos k v.

Lemma in_place_pos ix pos k v f v' :
  index_ok ix -> at_pos ix pos k v ->
  (forall e, entry_ok e -> in_use e = true -> entry_key e = k -> entry_variable e = v ->
     in_use (f e) = true /\ entry_key (f e) = entry_key e /\
     uid (metadata (info (f e))) = uid (metadata (info e)) /\ entry_ok (f e) /\ entry_variable (f e) = v') ->
  exists ix', update_entry ix pos f = Some ix' /\ index_set ix ix' pos k v'.
Proof.
  intros Hok (e & He & Hu & Hk & Hv) Hf.
  destruct (Hf e (entry_at ix pos e Hok He) Hu Hk Hv) as (Hu' & Hk' & Hid & Hok' & Hv').
  destruct (update_in_place ix pos e f Hok He Hu Hu' Hk' Hid Hok') as (es & Hupd & Hix & Hvars).
  exists (with_entries ix es). split; [done|]. split; [done|]. split; [done|]. split; [done|].
  simpl. rewrite Hvars, Hk, Hv'. split; [done|]. exists (f e).
  split; [exact (update_lookup _ _ _ _ _ Hupd He)|]. split; [done|]. split; [congruence|done].
Qed.

Lemma set_variable_pos ix pos k v attrs :
  index_ok ix -> at_pos ix pos k v -> fits 32 attrs ->
  exists ix', variable_index_set_variable ix pos attrs = Some ix' /\
    index_set ix ix' pos k (Var attrs (v_uid v) true (v_constraints v) (v_timestamp v) (v_fingerprint v)).
Proof.
  intros Hok Hp Ha. apply (in_place_pos ix pos k v); [done..|]. intros e Heok Hu Hk <-.
  destruct Heok as ((Hg & Ht & Hf & Hns & Hnl & _ & Hpd & Hui) & Hc & Hfree).
  rewrite mark_dirty_in_use, mark_dirty_info. split; [done|].
  split; [unfold entry_key; by rewrite mark_dirty_info|]. split; [done|].
  split; [|unfold entry_variable; by rewrite mark_dirty_info].
  unfold entry_ok. rewrite mark_dirty_info, mark_dirty_in_use. simpl. by rewrite Hu.
Qed.

Lemma clear_variable_pos ix pos k v :
  index_ok ix -> at_pos ix pos k v ->
  exists ix', variable_index_clear_variable ix (Some pos) = Some ix' /\
    index_set ix ix' pos k (Var (v_attributes v) (v_uid v) false (v_constraints v) (v_timestamp v) (v_fingerprint v)).
Proof.
  intros Hok Hp. apply (in_place_pos ix pos k v); [done..|]. intros e (Hm & Hc & Hfree) Hu Hk <-.
  split; [simpl; by rewrite mark_dirty_in_use|].
  split; [unfold entry_key; simpl; by rewrite mark_dirty_info|]. split; [simpl; by rewrite mark_dirty_info|].
  split; [|unfold entry_variable; simpl; by rewrite mark_dirty_info].
  unfold entry_ok. simpl. rewrite mark_dirty_info, mark_dirty_in_use. by rewrite Hu.
Qed.

Lemma set_constraints_pos ix pos k v c :
  index_ok ix -> at_pos ix pos k v -> constraints_ok c ->
  exists ix', variable_index_set_constraints ix (Some pos) c = Some ix' /\
    index_set ix ix' pos k (Var (v_attributes v) (v_uid v) (v_set v) (Some c) (v_timestamp v) (v_fingerprint v)).
Proof.
  intros Hok Hp Hc. apply (in_place_pos ix pos k v); [done..|]. intros e (Hm & _ & Hfree) Hu Hk <-.
  rewrite mark_dirty_in_use, mark_dirty_info. split; [done|].
  split; [unfold entry_key; by rewrite mark_dirty_info|]. split; [done|].
  split; [|unfold entry_variable; by rewrite mark_dirty_info].
  unfold entry_ok. rewrite mark_dirty_info, mark_dirty_in_use. simpl. by rewrite Hu.
Qed.

Lemma zero_entry_ok d : entry_ok (Entry zero_info false d).
Proof. unfold entry_ok, metadata_ok, guid_ok, constraints_ok, fits. vm_compute. intuition discriminate. Qed.

Lemma entry_unused e :
  unused (entry_variable e) = negb (is_constraints_set (info e)) && negb (is_variable_set (info e)).
Proof. unfold unused, entry_variable. simpl. by destruct (is_constraints_set _), (is_variable_set _). Qed.

Lemma remove_unused_pos ix pos k v :
  index_ok ix -> at_pos ix pos k v ->
  exists ix', variable_index_remove_unused_entry ix (Some pos) = Some ix' /\ index_ok ix' /\
    max_variables ix' = max_variables ix /\ counter ix' = counter ix /\
    variables (entries ix') =
      if unused v then delete k (variables (entries ix)) else variables (entries ix).
Proof.
  intros Hok Hp. pose proof (at_pos_var ix pos k v Hok Hp) as Hvk. destruct Hp as (e & He & Hu & Hk & <-).
  unfold variable_index_remove_unused_entry. rewrite entry_unused.
  match goal with |- context [update_entry ix pos ?f0] => set (f := f0) end.
  destruct (negb (is_constraints_set (info e)) && negb (is_variable_set (info e))) eqn:Hun.
  - assert (f e = Entry zero_info false (dirty e)) as Hf by (unfold f; by rewrite Hun).
    destruct (update_release ix pos e f Hok He Hu) as (es & -> & Hok' & Hvars);
      [by rewrite Hf|rewrite Hf; apply zero_entry_ok|].
    eexists. do 4 (split; [done|]). simpl. by rewrite Hvars, Hk.
  - assert (f e = e) as Hf by (unfold f; by rewrite Hun).
    destruct (update_in_place ix pos e f Hok He Hu) as (es & -> & Hok' & Hvars);
      [by rewrite Hf..|rewrite Hf; by eapply entry_at|].
    eexists. do 4 (split; [done|]). simpl. rewrite Hvars, Hf, Hk. by rewrite insert_id.
Qed.

(** Adding an entry for a name that has none. *)
Lemma add_entry_pos ix g nsize nm :
  index_ok ix -> guid_ok g -> 0 <= nsize <= len nm -> variables (entries ix) !! (g, slice nm 0 nsize) = None ->
  (exists pos u ix', variable_index_add_entry ix g nsize nm = Some (Some pos, ix') /\
     index_set ix ix' pos (g, slice nm 0 nsize) (fresh_variable u) /\ nsize <= 128 /\
     Z.of_nat (size (variables (entries ix))) < max_variables ix /\ 1 <= u <= max_variables ix /\
     (forall k v, variables (entries ix) !! k = Some v -> v_uid v <> u)) \/
  (variable_index_add_entry ix g nsize nm = Some (None, ix) /\
     (128 < nsize \/ Z.of_nat (size (variables (entries ix))) = max_variables ix)).
Proof.
  intros Hok Hg Hn Hnew. unfold variable_index_add_entry, add_entry, VARIABLE_INDEX_MAX_NAME_SIZE.
  destruct (Z.leb_spec nsize (64 * 2)); [|right; split; [done|]; left; lia].
  destruct (find_free_spec ix Hok) as [(pos & e & -> & Hpos & He & Hu & Hsize)|[-> Hsize]]; cbn [mbind option_bind];
    [|right; split; [done|]; by right].
  destruct (Z.geb_spec pos 0); [|lia].
  destruct (generate_uid_spec ix Hok Hsize) as (u & -> & Hur & Hun). cbn [mbind option_bind].
  rewrite He. cbn [mbind option_bind]. destruct (Z.eqb_spec u 0); [lia|].
  destruct (entry_at ix pos e Hok He) as ((_ & _ & _ & _ & Hnl & _ & Hpad & _) & Hc & _).
  rewrite load_is_slice by lia. cbn [mbind option_bind].
  destruct (store_ok (name (metadata (info e))) 0 (slice nm 0 nsize)) as [b Hb]; [done|rewrite slice_len; lia|].
  rewrite Hb. cbn [mbind option_bind].
  match goal with |- context [update_entry ix pos ?f0] => set (f := f0) end.
  assert (entry_key (f e) = (g, slice nm 0 nsize)) as Hk.
  { unfold entry_key. simpl. f_equal. pose proof (load_store_same _ _ _ _ Hb) as Hl.
    rewrite slice_len in Hl by lia. rewrite load_is_slice in Hl; [by injection Hl|lia..|].
    rewrite (store_len _ _ _ _ Hb). lia. }
  assert (entry_ok (f e)) as He'.
  { split; [|by split]. unfold metadata_ok. simpl. rewrite !len_fill by done. rewrite (store_len _ _ _ _ Hb).
    destruct Hok as (Hmax & _). unfold fits. repeat split; try done; try apply Hg; try lia. }
  destruct (update_take ix pos e f Hok He Hu eq_refl He') as (es & Hupd & Hok' & Hvars);
    [by rewrite Hk|done|done|].
  left. rewrite Hupd. cbn [mbind option_bind]. exists pos, u, (with_entries ix es). split; [done|].
  split.
  - do 3 (split; [done|]). simpl. rewrite Hvars, Hk. split; [done|]. exists (f e).
    split; [exact (update_lookup _ _ _ _ _ Hupd He)|]. done.
  - split; [lia|]. do 2 (split; [done|]).
    intros k v (i & e1 & He1 & Hb1)%variables_lookup <-; [|apply Hok]. apply Hun, in_uids. exists i, e1.
    unfold binding in Hb1. destruct (in_use e1) eqn:Hu1; by simplify_eq.
Qed.

(** What a step of the index shows of the map. *)
Definition stepped ix o (r : option (option variable * variable_index)) : Prop :=
  exists reply ix', r = Some (reply, ix') /\ index_ok ix' /\ max_variables ix' = max_variables ix /\
    map_step (max_variables ix) (variables (entries ix)) o reply (variables (entries ix')).

(** The entry of the variable is changed, and reported. *)
Lemma in_place_step ix o pos v r :
  index_ok ix -> at_pos ix pos (op_key o) v -> (forall g nsize nm, o <> RemoveUnused g nsize nm) ->
  (exists ix', r = Some ix' /\ index_set ix ix' pos (op_key o) (change_variable o v)) ->
  stepped ix o (ix ← r; e ← nthZ (entries ix) pos; Some (Some (entry_variable e), ix)).
Proof.
  intros Hok Hp Ho (ix' & -> & Hok' & Hm & _ & Hvars & e & He & _ & _ & Hv). cbn [mbind option_bind].
  rewrite He. cbn [mbind option_bind]. eexists _, _. do 3 (split; [done|]). rewrite Hvars, Hv.
  apply map_found; [|done]. by eapply at_pos_var.
Qed.

Lemma absent_step ix o :
  index_ok ix -> variables (entries ix) !! op_key o = None -> (forall g nsize nm, o <> Ensure g nsize nm) ->
  stepped ix o (Some (None, ix)).
Proof. intros. exists None, ix. do 3 (split; [done|]). by apply map_absent. Qed.

(** The entry of the variable is only looked at. *)
Lemma look_step ix o pos v :
  index_ok ix -> at_pos ix pos (op_key o) v -> change_variable o v = v ->
  (forall g nsize nm, o <> RemoveUnused g nsize nm) ->
  stepped ix o (e ← nthZ (entries ix) pos; Some (Some (entry_variable e), ix)).
Proof.
  intros Hok Hp Hc Ho. apply (in_place_step ix o pos v (Some ix)); try done. exists ix. split; [done|].
  do 3 (split; [done|]). rewrite Hc, insert_id by (by eapply at_pos_var). done.
Qed.

Lemma lookup_step ix g nsize nm :
  index_ok ix -> index_op_ok (Lookup g nsize nm) -> stepped ix (Lookup g nsize nm) (index_step ix (Lookup g nsize nm)).
Proof.
  intros Hok [_ Hn]. simpl. destruct (find_pos ix g nsize nm Hok Hn) as [(pos & v & -> & Hp)|[-> Hnone]];
    cbn [mbind option_bind]; [by eapply look_step|by apply absent_step].
Qed.

Lemma set_variable_step ix g nsize nm attrs :
  index_ok ix -> index_op_ok (SetVariable g nsize nm attrs) ->
  stepped ix (SetVariable g nsize nm attrs) (index_step ix (SetVariable g nsize nm attrs)).
Proof.
  intros Hok (_ & Hn & Ha). simpl. destruct (find_pos ix g nsize nm Hok Hn) as [(pos & v & -> & Hp)|[-> Hnone]];
    cbn [mbind option_bind]; [|by apply absent_step].
  eapply in_place_step; [done..|by apply set_variable_pos].
Qed.

Lemma clear_variable_step ix g nsize nm :
  index_ok ix -> index_op_ok (ClearVariable g nsize nm) ->
  stepped ix (ClearVariable g nsize nm) (index_step ix (ClearVariable g nsize nm)).
Proof.
  intros Hok (_ & Hn). simpl. destruct (find_pos ix g nsize nm Hok Hn) as [(pos & v & -> & Hp)|[-> Hnone]];
    cbn [mbind option_bind]; [|by apply absent_step].
  eapply in_place_step; [done..|by apply clear_variable_pos].
Qed.

Lemma set_constraints_step ix g nsize nm c :
  index_ok ix -> index_op_ok (SetConstraints g nsize nm c) ->
  stepped ix (SetConstraints g nsize nm c) (index_step ix (SetConstraints g nsize nm c)).
Proof.
  intros Hok (_ & Hn & Hc). simpl. destruct (find_pos ix g nsize nm Hok Hn) as [(pos & v & -> & Hp)|[-> Hnone]];
    cbn [mbind option_bind]; [|by apply absent_step].
  eapply in_place_step; [done..|by apply set_constraints_pos].
Qed.

Lemma remove_unused_step ix g nsize nm :
  index_ok ix -> index_op_ok (RemoveUnused g nsize nm) ->
  stepped ix (RemoveUnused g nsize nm) (index_step ix (RemoveUnused g nsize nm)).
Proof.
  intros Hok (_ & Hn). simpl. destruct (find_pos ix g nsize nm Hok Hn) as [(pos & v & -> & Hp)|[-> Hnone]];
    cbn [mbind option_bind]; [|by apply absent_step].
  destruct (remove_unused_pos ix pos _ v Hok Hp) as (ix' & -> & Hok' & Hm & _ & Hvars). cbn [mbind option_bind].
  exists None, ix'. do 3 (split; [done|]). rewrite Hvars.
  apply (map_removed (max_variables ix) _ (RemoveUnused g nsize nm) g nsize nm v eq_refl).
  exact (at_pos_var ix pos _ v Hok Hp).
Qed.

Lemma add_entry_step ix g nsize nm :
  index_ok ix -> index_op_ok (Ensure g nsize nm) -> variables (entries ix) !! (g, slice nm 0 nsize) = None ->
  stepped ix (Ensure g nsize nm)
    ('(p, ix) ← variable_index_add_entry ix g nsize nm;
     match p with
     | Some pos => e ← nthZ (entries ix) pos; Some (Some (entry_variable e), ix)
     | None => Some (None, ix)
     end).
Proof.
  intros Hok [Hg Hn] Hnew. destruct (add_entry_pos ix g nsize nm Hok Hg Hn Hnew)
    as [(pos & u & ix' & -> & (Hok' & Hm & _ & Hvars & e & He & _ & _ & Hv) & Hs & Hsize & Hu & Hun)|[-> Hfull]];
    cbn [mbind option_bind].
  - rewrite He. cbn [mbind option_bind]. eexists _, _. do 3 (split; [done|]). rewrite Hvars, Hv.
    by apply (map_added _ _ (Ensure g nsize nm) g nsize nm u).
  - exists None, ix. do 3 (split; [done|]). by eapply map_full.
Qed.

Lemma ensure_step ix g nsize nm :
  index_ok ix -> index_op_ok (Ensure g nsize nm) -> stepped ix (Ensure g nsize nm) (index_step ix (Ensure g nsize nm)).
Proof.
  intros Hok Hop. pose proof Hop as [_ Hn]. simpl.
  destruct (find_pos ix g nsize nm Hok Hn) as [(pos & v & -> & Hp)|[-> Hnone]]; cbn [mbind option_bind];
    [by eapply look_step|by apply add_entry_step].
Qed.

Lemma index_step_ok ix o : index_ok ix -> index_op_ok o -> stepped ix o (index_step ix o).
Proof.
  intros. destruct o; [by apply lookup_step|by apply ensure_step|by apply set_variable_step|
    by apply clear_variable_step|by apply set_constraints_step|by apply remove_unused_step].
Qed.

Lemma index_run_ok ix os :
  index_ok ix -> Forall index_op_ok os ->
  exists rs ix', index_run ix os = Some (rs, ix') /\ index_ok ix' /\ max_variables ix' = max_variables ix /\
    map_run (max_variables ix) (variables (entries ix)) os rs (variables (entries ix')).
Proof.
  intros Hok Hos. revert ix Hok. induction Hos as [|o os Ho _ IH]; intros ix Hok.
  { exists [], ix. do 3 (split; [done|]). constructor. }
  destruct (index_step_ok ix o Hok Ho) as (r & ix1 & H1 & Hok1 & Hm1 & Hs1).
  destruct (IH ix1 Hok1) as (rs & ix2 & H2 & Hok2 & Hm2 & Hs2).
  exists (r :: rs), ix2. simpl. rewrite H1. cbn [mbind option_bind]. rewrite H2. cbn [mbind option_bind].
  split; [done|]. split; [done|]. split; [congruence|]. econstructor; [done|]. by rewrite <- Hm1.
Qed.

Lemma index_init_ok malloc_ok max ix :
  0 <= max < 2 ^ 31 -> variable_index_init malloc_ok max = (EFI_SUCCESS, ix) ->
  index_ok ix /\ max_variables ix = max /\ variables (entries ix) = ∅.
Proof.
  intros Hmax. unfold variable_index_init. destruct (malloc_ok _); [|done]. intros [= <-].
  unfold ENTRY_SIZE. rewrite wrap_small by lia. rewrite Z.mul_comm, Z.div_mul by done.
  assert (forall n, bindings (replicate n zero_entry) = []) as Hb by (induction n; done).
  unfold variables. simpl. rewrite Hb. split; [|done]. unfold index_ok, uids. simpl. rewrite Hb.
  split; [done|]. split; [unfold len; rewrite length_replicate; lia|]. split; [done|].
  split; [apply Forall_replicate, zero_entry_ok|]. split; [constructor|]. split; constructor.
Qed.

(** ** Properties *)

(** The variable index is a map from names to variables.  Starting from an
    initialised index, every sequence of the operations the variable store makes
    (look up, find or add, set, clear, set constraints, remove if unused) runs
    without a fault, and its replies and the variables in the index are those of a
    finite map from GUID and name: an operation changes no other variable, a name has
    one entry, an entry is refused only for a name that is too long or when the index
    is full, and every variable has an identifier in 1..max that no other has. *)
Theorem variable_index_refines malloc_ok max ix os :
  0 <= max < 2 ^ 31 -> variable_index_init malloc_ok max = (EFI_SUCCESS, ix) -> Forall index_op_ok os ->
  exists rs ix', index_run ix os = Some (rs, ix') /\ index_ok ix' /\
    map_run max ∅ os rs (variables (entries ix')).
Proof.
  intros Hmax Hinit Hos. destruct (index_init_ok malloc_ok max ix Hmax Hinit) as (Hok & <- & Hv).
  destruct (index_run_ok ix os Hok Hos) as (rs & ix' & Hrun & Hok' & _ & Hmap). rewrite Hv in Hmap.
  by exists rs, ix'.
Qed.

(** ** Samples *)

Definition sample_guid : EFI_GUID := Guid 0x12345678 0x9abc 0xdef0 [1; 2; 3; 4; 5; 6; 7; 8].
Definition sample_name (c : Z) : bytes := [c; 0; 0; 0].

Definition sample_index_ops : list index_op :=
  [Ensure sample_guid 4 (sample_name 65); SetVariable sample_guid 4 (sample_name 65) 7;
   Ensure sample_guid 4 (sample_name 66); SetVariable sample_guid 4 (sample_name 66) 2;
   Ensure sample_guid 4 (sample_name 67); RemoveUnused sample_guid 4 (sample_name 67);
   Ensure sample_guid 4 (sample_name 68); SetConstraints sample_guid 4 (sample_name 68) (Constraints 1 0 0 1 9);
   SetVariable sample_guid 4 (sample_name 68) 3; Lookup sample_guid 4 (sample_name 66)].

Definition empty_index : variable_index := snd (variable_index_init (fun _ => true) 3).
Definition sample_index : variable_index :=
  match index_run empty_index sample_index_ops with Some (_, ix) => ix | None => empty_index end.

Lemma sample_index_ops_ok : Forall index_op_ok sample_index_ops.
Proof. repeat (apply Forall_cons; split; [by repeat split; vm_compute|]). constructor. Qed.

Lemma empty_index_ok : index_ok empty_index.
Proof. by destruct (index_init_ok (fun _ => true) 3 empty_index) as (H & _). Qed.

Lemma sample_index_ok : index_ok sample_index.
Proof.
  destruct (index_run_ok empty_index sample_index_ops empty_index_ok sample_index_ops_ok)
    as (rs & ix & Hrun & Hok & _). unfold sample_index. by rewrite Hrun.
Qed.

Lemma variable_index_refines_witness :
  exists rs ix', index_run empty_index sample_index_ops = Some (rs, ix') /\ index_ok ix' /\
    map_run 3 ∅ sample_index_ops rs (variables (entries ix')).
Proof.
  apply (variable_index_refines (fun _ => true) 3 empty_index sample_index_ops);
    [lia|reflexivity|exact sample_index_ops_ok].
Defined.
