(* ===== verification/VariableStorage.v ===== *)
(** * Saving, restoring and enumerating the index of UEFI variables

    The octets variable_index_dump writes, what variable_index_restore makes of
    them, which changes mark an entry as dirty, and the enumeration of the table
    by variable_index_find_next and by the iterator. *)
From S2P Require Import Prelude VariableIndex.

(** ** Lemmas: objects in memory *)

(** Peel one field off the front of a message. *)
Ltac peel H :=
  (apply uint_front in H as [? H] || apply bytes_front in H as [? H]);
  [|rewrite ?len_app, ?len_le_split in *; change (len (@nil Z)) with 0 in *; unfold fits in *; lia..].

Lemma len_guid_bytes g : guid_ok g -> len (guid_bytes g) = 16.
Proof. intros (_ & _ & _ & H). unfold guid_bytes. rewrite !len_app, !len_le_split. lia. Qed.

Lemma guid_roundtrip g : guid_ok g -> guid_of_bytes (guid_bytes g) = g.
Proof.
  intros Hg. pose proof (slice_all (guid_bytes g)) as Hs. pose proof (len_guid_bytes g Hg) as Hl.
  rewrite Hl in Hs. destruct Hg as (H1 & H2 & H3 & H4). unfold guid_of_bytes. set (b := guid_bytes g) in *.
  unfold b in Hs at 2. unfold guid_bytes in Hs. do 3 peel Hs. destruct g as [d1 d2 d3 d4].
  cbn [Data1 Data2 Data3 Data4] in *. rewrite H4 in Hs. f_equal; done.
Qed.

Lemma len_metadata_bytes m : metadata_ok m -> len (metadata_bytes m) = METADATA_SIZE.
Proof.
  intros (Hg & H2 & H3 & H4 & H5 & H6 & H7 & H8). unfold metadata_bytes, METADATA_SIZE.
  rewrite !len_app, !len_le_split, len_guid_bytes by done. lia.
Qed.

Lemma metadata_roundtrip m : metadata_ok m -> metadata_of_bytes (metadata_bytes m) = m.
Proof.
  intros Hm. pose proof (slice_all (metadata_bytes m)) as Hs. pose proof (len_metadata_bytes m Hm) as Hl.
  rewrite Hl in Hs. destruct Hm as (Hg & H2 & H3 & H4 & H5 & H6 & H7 & H8).
  pose proof (len_guid_bytes _ Hg) as Hlg. pose proof (guid_roundtrip _ Hg) as Hgr.
  unfold metadata_of_bytes, METADATA_SIZE in *. set (b := metadata_bytes m) in *.
  unfold b in Hs at 2. unfold metadata_bytes in Hs. rewrite <- (app_nil_r (le_split 8 (uid m))) in Hs.
  do 8 peel Hs. rewrite Hlg, H2, H3, H5, H7 in *.
  destruct m as [g ts fp ns nm at_ pad u]. cbn [guid timestamp fingerprint name_size name attributes md_pad uid] in *.
  f_equal; try done. congruence.
Qed.

Lemma len_constraints_bytes c : len (constraints_bytes c) = CONSTRAINTS_SIZE.
Proof. unfold constraints_bytes. by rewrite !len_app, !len_le_split. Qed.

Lemma constraints_roundtrip c : constraints_ok c -> constraints_of_bytes (constraints_bytes c) = c.
Proof.
  intros (H1 & H2 & H3 & H4 & H5). pose proof (slice_all (constraints_bytes c)) as Hs.
  pose proof (len_constraints_bytes c) as Hl. unfold CONSTRAINTS_SIZE in Hl. rewrite Hl in Hs.
  unfold constraints_of_bytes. set (b := constraints_bytes c) in *.
  unfold b in Hs at 2. unfold constraints_bytes in Hs. rewrite <- (app_nil_r (le_split 8 (max_size c))) in Hs.
  do 5 peel Hs. destruct c as [rv pr at_ mn mx]. cbn [revision property vc_attributes min_size max_size] in *. f_equal; done.
Qed.

(** ** Lemmas: the dump *)

Definition entry_bytes (e : variable_entry) : bytes :=
  metadata_bytes (metadata (info e)) ++ [if is_constraints_set (info e) then 1 else 0] ++
  (if is_constraints_set (info e) then constraints_bytes (check_constraints (info e)) else []).

Fixpoint image (es : list variable_entry) : bytes :=
  match es with
  | [] => []
  | e :: es => (if is_persistent e then entry_bytes e else []) ++ image es
  end.

Lemma len_variable_bytes e : entry_ok e -> METADATA_SIZE + 1 <= len (entry_bytes e) <= METADATA_SIZE + 1 + CONSTRAINTS_SIZE.
Proof.
  intros [Hm _]. unfold entry_bytes. rewrite !len_app, len_metadata_bytes by done.
  pose proof (len_constraints_bytes (check_constraints (info e))).
  unfold CONSTRAINTS_SIZE in *. destruct (is_constraints_set (info e)); [rewrite H|]; len_lia.
Qed.

Lemma len_image es :
  Forall entry_ok es -> 0 <= len (image es) <= (METADATA_SIZE + 1 + CONSTRAINTS_SIZE) * len es.
Proof.
  induction 1 as [|e es He _ IH]; [done|]. simpl. rewrite len_app. pose proof (len_variable_bytes e He).
  unfold METADATA_SIZE, CONSTRAINTS_SIZE in *.
  replace (len (e :: es)) with (1 + len es) by (unfold len; simpl; lia).
  destruct (is_persistent e); [|change (len (@nil Z)) with 0]; lia.
Qed.

Lemma dump_bytes_ok size buffer dumped b :
  0 <= dumped -> dumped + len b <= size -> size <= len buffer -> size < 2 ^ 64 ->
  exists buffer', store buffer dumped b = Some buffer' /\
    dump_bytes size buffer dumped b = Some (Some (buffer', dumped + len b)).
Proof.
  intros Hd Hs Hb Hl. unfold dump_bytes. pose proof (len_nonneg b). rewrite wrap_small by lia.
  destruct (Z.gtb_spec (dumped + len b) size); [lia|].
  destruct (store_ok buffer dumped b) as [b' ->]; [lia..|]. by exists b'.
Qed.

Lemma dump_entry_ok size buffer dumped e :
  0 <= dumped -> dumped + len (entry_bytes e) <= size -> size <= len buffer -> size < 2 ^ 64 ->
  exists buffer', store buffer dumped (entry_bytes e) = Some buffer' /\
    dump_entry size buffer dumped e = Some (buffer', dumped + len (entry_bytes e), true).
Proof.
  intros Hd Hs Hb Hl. unfold entry_bytes, dump_entry in *.
  set (m := metadata_bytes _) in *. set (f := [_]) in *. rewrite !len_app in Hs.
  pose proof (len_nonneg m). pose proof (len_nonneg f). set (c := if is_constraints_set _ then constraints_bytes _ else _) in *.
  pose proof (len_nonneg c).
  destruct (dump_bytes_ok size buffer dumped m) as (b1 & Hst1 & ->); [lia..|]. cbn [mbind option_bind].
  pose proof (store_len _ _ _ _ Hst1).
  destruct (dump_bytes_ok size b1 (dumped + len m) f) as (b2 & Hst2 & ->); [lia..|]. cbn [mbind option_bind].
  pose proof (store_len _ _ _ _ Hst2).
  destruct (dump_bytes_ok size b2 (dumped + len m + len f) c) as (b3 & Hst3 & Hd3); [lia..|].
  exists b3. rewrite <- !store_app, Hst1. cbn [mbind option_bind]. rewrite <- store_app, Hst2.
  cbn [mbind option_bind]. split; [done|]. rewrite !len_app, !Z.add_assoc. subst c.
  destruct (is_constraints_set (info e)).
  - rewrite Hd3. done.
  - rewrite store_nil in Hst3 by (rewrite ?len_app in *; lia). injection Hst3 as ->.
    change (len (@nil Z)) with 0. by rewrite Z.add_0_r.
Qed.

Definition clean (e : variable_entry) : variable_entry := Entry (info e) (in_use e) false.

Lemma dump_loop_ok size l1 l2 buffer dumped d :
  0 <= dumped -> dumped + len (image l2) <= size -> size <= len buffer -> size < 2 ^ 64 ->
  exists buffer', store buffer dumped (image l2) = Some buffer' /\
    dump_loop (length l2) size (l1 ++ l2) (len l1) buffer dumped d
      = Some (EFI_SUCCESS, buffer', dumped + len (image l2), d || existsb dirty l2, l1 ++ map clean l2).
Proof.
  revert l1 buffer dumped d. induction l2 as [|e l2 IH]; intros l1 buffer dumped d Hd Hs Hb Hl.
  { exists buffer. simpl in *. change (len (@nil Z)) with 0 in *.
    rewrite store_nil by lia. by rewrite Z.add_0_r, orb_false_r. }
  simpl image in *. rewrite len_app in Hs. cbn [length dump_loop existsb map].
  assert (nthZ (l1 ++ e :: l2) (len l1) = Some e) as He.
  { unfold len. rewrite nthZ_of_nat. by rewrite list_lookup_middle. }
  rewrite He. cbn [mbind option_bind]. set (x := if is_persistent e then entry_bytes e else []) in *.
  pose proof (len_nonneg (image l2)). pose proof (len_nonneg x).
  assert (exists b1, store buffer dumped x = Some b1 /\
    (if is_persistent e then dump_entry size buffer dumped e else Some (buffer, dumped, true))
      = Some (b1, dumped + len x, true)) as (b1 & Hst1 & ->).
  { subst x. destruct (is_persistent e); [by apply dump_entry_ok; try lia|].
    exists buffer. change (len (@nil Z)) with 0 in *. by rewrite store_nil, Z.add_0_r by lia. }
  cbn [mbind option_bind]. pose proof (store_len _ _ _ _ Hst1).
  destruct (nthZ_split _ _ _ He) as (k1 & k2 & Hk & Hkl & Hset).
  apply app_inj_1 in Hk as [<- [= <-]]; [|unfold len in Hkl; lia].
  rewrite Hset. cbn [mbind option_bind].
  destruct (IH (l1 ++ [clean e]) b1 (dumped + len x) (d || dirty e)) as (b2 & Hst2 & Hloop); [lia..|].
  exists b2. rewrite <- store_app, Hst1. cbn [mbind option_bind]. split; [done|].
  rewrite <- app_assoc in Hloop. simpl app in Hloop.
  replace (len (l1 ++ [clean e])) with (len l1 + 1) in Hloop by (rewrite len_app; done).
  fold (clean e). rewrite Hloop. rewrite len_app, Z.add_assoc, <- app_assoc, orb_assoc. done.
Qed.

(** ** Lemmas: restoring a dump *)

Lemma update_middle ix l1 e l2 f :
  entries ix = l1 ++ e :: l2 -> update_entry ix (len l1) f = Some (with_entries ix (l1 ++ f e :: l2)).
Proof.
  intros Hes. assert (nthZ (entries ix) (len l1) = Some e) as He.
  { rewrite Hes. unfold len. rewrite nthZ_of_nat. by rewrite list_lookup_middle. }
  destruct (update_at ix (len l1) e f He) as (k1 & k2 & Hk & Hl & ->). rewrite Hes in Hk.
  by apply app_inj_1 in Hk as [<- [= <-]]; [|unfold len in Hl; lia].
Qed.

(** What is left of entry [e] after a dump is loaded over [e0]. *)
Definition restored (e0 e : variable_entry) : variable_entry :=
  Entry (VarInfo (metadata (info e))
           (if is_constraints_set (info e) then check_constraints (info e) else check_constraints (info e0))
           true (is_constraints_set (info e))) true (dirty e0).

Lemma restore_one fuel data_len buffer ix l1 e0 l2 loaded e :
  entry_ok e -> entries ix = l1 ++ e0 :: l2 -> 0 <= loaded ->
  slice buffer loaded (len (entry_bytes e)) = entry_bytes e ->
  loaded + len (entry_bytes e) <= data_len -> data_len <= len buffer ->
  restore_loop (S fuel) data_len buffer ix loaded (len l1)
  = restore_loop fuel data_len buffer (with_entries ix (l1 ++ restored e0 e :: l2))
      (loaded + len (entry_bytes e)) (len l1 + 1).
Proof.
  intros He Hes Hl Hs Hd Hb. pose proof (len_variable_bytes e He) as Hlen. destruct He as (Hm & Hc & _).
  pose proof (len_metadata_bytes _ Hm) as Hlm. pose proof (metadata_roundtrip _ Hm) as Hmr.
  pose proof (constraints_roundtrip _ Hc) as Hcr. pose proof (len_constraints_bytes (check_constraints (info e))) as Hlc.
  unfold METADATA_SIZE, CONSTRAINTS_SIZE in *. cbn [restore_loop].
  destruct (Z.ltb_spec loaded data_len); [|lia].
  unfold METADATA_SIZE, CONSTRAINTS_SIZE.
  destruct (Z.geb_spec (data_len - loaded) 216); [|lia].
  unfold entry_bytes in Hs at 2. set (n := len (entry_bytes e)) in *.
  assert (n = len (metadata_bytes (metadata (info e))) + (1 + len (if is_constraints_set (info e)
    then constraints_bytes (check_constraints (info e)) else []))) as Hn.
  { subst n. unfold entry_bytes. by rewrite !len_app. }
  apply bytes_front in Hs as [Hs1 Hs]; [|lia..|rewrite len_app; exact Hn].
  rewrite Hlm in *. rewrite (load_is_slice buffer loaded 216) by lia. cbn [mbind option_bind]. rewrite Hs1, Hmr.
  rewrite (update_middle ix l1 e0 l2) by done. cbn [mbind option_bind].
  destruct (Z.geb_spec (data_len - (loaded + 216)) 1); [|lia].
  apply bytes_front in Hs as [Hs2 Hs]; [|lia|rewrite len_app; change (len [_]) with 1; lia|by rewrite len_app].
  change (len [_]) with 1 in *.
  assert (nthZ buffer (loaded + 216) = Some (if is_constraints_set (info e) then 1 else 0)) as ->.
  { pose proof (nthZ_slice buffer (loaded + 216) 1 0 ltac:(lia) ltac:(lia)) as Hz. rewrite Hs2 in Hz.
    by rewrite Z.add_0_r in Hz. }
  cbn [mbind option_bind]. erewrite update_middle by done. cbn [mbind option_bind].
  destruct (is_constraints_set (info e)) eqn:Hset.
  - simpl (negb (1 =? 0)). cbv match. rewrite Hlc in Hn.
    destruct (Z.geb_spec (data_len - (loaded + 216 + 1)) 24); [|lia].
    rewrite Hlc in Hs. rewrite (load_is_slice buffer _ 24) by lia. cbn [mbind option_bind]. rewrite Hs, Hcr.
    erewrite update_middle by done. cbn [mbind option_bind]. erewrite update_middle by done.
    cbn [mbind option_bind]. unfold with_entries, restored. simpl. rewrite Hset. f_equal. lia.
  - simpl (negb (0 =? 0)). cbv match. cbn [mbind option_bind]. erewrite update_middle by done.
    cbn [mbind option_bind]. change (len (@nil Z)) with 0 in Hn. unfold with_entries, restored. simpl.
    rewrite Hset. f_equal. lia.
Qed.

Lemma restore_loop_ok fuel data_len buffer ix l1 l2 loaded es :
  Forall entry_ok es -> Forall (fun e => is_persistent e = true) es -> (length es <= length l2)%nat ->
  (length es <= fuel)%nat -> entries ix = l1 ++ l2 -> 0 <= loaded ->
  slice buffer loaded (len (image es)) = image es -> loaded + len (image es) = data_len ->
  data_len <= len buffer ->
  restore_loop fuel data_len buffer ix loaded (len l1)
  = Some (data_len, with_entries ix (l1 ++ zip_with restored l2 es ++ drop (length es) l2)).
Proof.
  intros Hok. revert fuel ix l1 l2 loaded. induction Hok as [|e es He Hes IH];
    intros fuel ix l1 l2 loaded Hp Hlen Hfuel Hix Hl Hs Hd Hb.
  - change (len (image [])) with 0 in Hd. assert (restore_loop fuel data_len buffer ix loaded (len l1)
      = Some (loaded, ix)) as ->.
    { destruct fuel; simpl; by destruct (Z.ltb_spec loaded data_len); [lia|]. }
    destruct ix. unfold with_entries. simpl in *. rewrite Hix, drop_0. destruct l2; simpl; do 2 f_equal; lia.
  - destruct fuel as [|fuel]; [simpl in Hfuel; lia|]. destruct l2 as [|e0 l2]; [simpl in Hlen; lia|].
    apply Forall_cons in Hp as [Hpe Hp]. simpl image in *. rewrite Hpe in *.
    rewrite len_app in *. pose proof (len_nonneg (image es)). pose proof (len_nonneg (entry_bytes e)).
    apply bytes_front in Hs as [Hs1 Hs2]; [|lia..].
    rewrite (restore_one fuel data_len buffer ix l1 e0 l2 loaded e) by (done || lia).
    replace (len l1 + 1) with (len (l1 ++ [restored e0 e])) by (rewrite len_app; done).
    rewrite (IH fuel _ (l1 ++ [restored e0 e]) l2); try done.
    + simpl. unfold with_entries. simpl. by rewrite <- app_assoc.
    + simpl in Hlen. lia.
    + simpl in Hfuel. lia.
    + simpl. by rewrite <- app_assoc.
    + lia.
    + lia.
Qed.

Lemma image_filter es : image (filter (fun e => is_persistent e = true) es) = image es.
Proof.
  induction es as [|e es IH]; [done|]. rewrite filter_cons. simpl.
  destruct (is_persistent e) eqn:Hp; simpl.
  - destruct (decide (true = true)); [|done]. simpl. by rewrite Hp, IH.
  - destruct (decide (false = true)); [done|]. by rewrite IH.
Qed.

Definition persistent (v : variable) : Prop :=
  v_set v = true /\ Z.land (v_attributes v) EFI_VARIABLE_NON_VOLATILE <> 0.

Lemma bindings_cons e es : bindings (e :: es) = option_list (binding e) ++ bindings es.
Proof.
  change (e :: es) with ([e] ++ es). by rewrite bindings_app.
Qed.

Lemma sublist_map {A B} (f : A -> B) l1 l2 : l1 `sublist_of` l2 -> (f <$> l1) `sublist_of` (f <$> l2).
Proof. induction 1; simpl; by constructor. Qed.

(** The variables of a restored index. *)
Lemma restored_bindings n es :
  Forall (fun e => is_persistent e = true) es ->
  bindings (zip_with restored (replicate (length es) zero_entry) es ++ replicate n zero_entry) = bindings es.
Proof.
  assert (forall k, bindings (replicate k zero_entry) = []) as Hz by (induction k; done).
  rewrite bindings_app, Hz, app_nil_r. induction 1 as [|e es Hp _ IH]; [done|].
  unfold is_persistent in Hp. apply andb_true_iff in Hp as [[Hu Hset]%andb_true_iff _].
  simpl length. simpl replicate. simpl zip_with. rewrite !bindings_cons, IH. f_equal.
  unfold binding. rewrite Hu. unfold entry_key, entry_variable. simpl. rewrite Hset.
  by destruct (is_constraints_set (info e)).
Qed.

Lemma persistent_entry e :
  in_use e = true -> is_persistent e = true <-> persistent (entry_variable e).
Proof.
  intros Hu. unfold is_persistent, persistent. rewrite Hu. simpl.
  rewrite andb_true_iff, negb_true_iff, Z.eqb_neq. done.
Qed.

#[export] Instance persistent_dec v : Decision (persistent v).
Proof. unfold persistent. apply _. Defined.

(** The persistent variables in the table and in the map. *)
Lemma persistent_variables es :
  NoDup (bindings es).*1 ->
  bindings (filter (fun e => is_persistent e = true) es) `sublist_of` bindings es /\
  variables (filter (fun e => is_persistent e = true) es) = filter (fun '(_, v) => persistent v) (variables es).
Proof.
  intros Hnd.
  assert (bindings (filter (fun e => is_persistent e = true) es)
    = filter (fun b => persistent (snd b)) (bindings es)) as Hf.
  { clear Hnd. induction es as [|e es IH]; [done|]. rewrite filter_cons, (bindings_cons e es).
    destruct (in_use e) eqn:Hu; unfold binding; rewrite Hu; simpl.
    - rewrite filter_cons. simpl. pose proof (persistent_entry e Hu) as Hpe.
      destruct (decide (is_persistent e = true)), (decide (persistent (entry_variable e))); try tauto.
      rewrite bindings_cons, IH. unfold binding. by rewrite Hu.
    - destruct (decide (is_persistent e = true)) as [Hp|]; [|exact IH].
      unfold is_persistent in Hp. by rewrite Hu in Hp. }
  assert (bindings (filter (fun e => is_persistent e = true) es) `sublist_of` bindings es) as Hsub.
  { rewrite Hf. apply sublist_filter. }
  split; [done|]. apply map_eq. intros k. apply option_eq. intros v.
  rewrite map_lookup_filter_Some. unfold variables. rewrite <- !elem_of_list_to_map; [|done|].
  2:{ eapply sublist_NoDup; [exact Hnd|]. by apply sublist_map. }
  rewrite Hf, list_elem_of_filter. simpl. tauto.
Qed.

Lemma clean_bindings es : bindings (map clean es) = bindings es.
Proof. induction es as [|e es IH]; [done|]. simpl map. rewrite !bindings_cons, IH. done. Qed.

Lemma clean_ok ix : index_ok ix -> index_ok (with_entries ix (map clean (entries ix))).
Proof.
  intros (Hmax & Hlen & Hc & Hall & Hk & Hu & Hr). unfold index_ok, uids in *. simpl.
  rewrite clean_bindings. unfold len in *. rewrite length_map.
  do 3 (split; [done|]). split; [|done]. apply Forall_map. eapply Forall_impl; [exact Hall|]. done.
Qed.

(** The whole dump: the counter and the image of the persistent variables. *)
Lemma dump_ok ix size buffer :
  index_ok ix -> variable_index_max_dump_size ix <= size <= len buffer -> size < 2 ^ 64 ->
  exists buffer', variable_index_dump ix size buffer
      = Some (EFI_SUCCESS, buffer', 4 + len (image (entries ix)), existsb dirty (entries ix),
              with_entries ix (map clean (entries ix))) /\
    4 + len (image (entries ix)) <= variable_index_max_dump_size ix /\ len buffer' = len buffer /\
    slice buffer' 0 4 = le_split 4 (u32 (counter ix + 1)) /\
    slice buffer' 4 (len (image (entries ix))) = image (entries ix).
Proof.
  intros (Hmax & Hlen & Hc & Hall & _) Hs Hlt. pose proof (len_image (entries ix) Hall) as Him.
  unfold variable_index_max_dump_size, METADATA_SIZE, CONSTRAINTS_SIZE in *.
  rewrite wrap_small in Hs by lia. rewrite wrap_small by lia.
  set (hd := le_split 4 (u32 (counter ix + 1))). assert (len hd = 4) as Hhd by (unfold hd; by rewrite len_le_split).
  destruct (store_ok buffer 0 hd) as [b0 Hb0]; [lia..|]. pose proof (store_len _ _ _ _ Hb0) as Hl0.
  destruct (dump_loop_ok size [] (entries ix) b0 4 false) as (b1 & Hb1 & Hloop); [lia..|].
  pose proof (store_len _ _ _ _ Hb1) as Hl1. exists b1. unfold variable_index_dump. fold hd.
  rewrite Hb0. cbn [mbind option_bind].
  replace (length (entries ix)) with (Z.to_nat (max_variables ix)) in Hloop by (unfold len in Hlen; lia).
  simpl app in Hloop. change (len (@nil variable_entry)) with 0 in Hloop. rewrite Hloop.
  cbn [mbind option_bind orb]. split; [done|]. split; [lia|]. split; [lia|].
  pose proof (load_store_same _ _ _ _ Hb0) as H0. pose proof (load_store_same _ _ _ _ Hb1) as H1.
  rewrite Hhd in H0. rewrite load_is_slice in H0, H1 by lia. injection H0 as H0. injection H1 as H1.
  split; [|done]. rewrite (slice_store_disjoint b0 0 4 4 _ b1) by (done || lia). done.
Qed.

Lemma saved_counter b c : slice b 0 4 = le_split 4 (u32 c) -> uint_at b 0 4 = u32 c.
Proof. intros H. unfold uint_at. rewrite H, le_combine_split, !wrap_idem by lia. done. Qed.

Lemma image_fits ix : index_ok ix -> 4 + len (image (entries ix)) <= variable_index_max_dump_size ix < 2 ^ 63.
Proof.
  intros (Hmax & Hlen & _ & Hall & _). pose proof (len_image (entries ix) Hall).
  unfold variable_index_max_dump_size, METADATA_SIZE, CONSTRAINTS_SIZE in *. rewrite wrap_small; lia.
Qed.

Lemma restored_ok e : entry_ok e -> entry_ok (restored zero_entry e).
Proof.
  intros (Hm & Hc & _). split; [done|]. split; [|done]. simpl.
  destruct (is_constraints_set (info e)); [done|]. apply (zero_entry_ok false).
Qed.

Lemma zip_restored n es : (length es <= n)%nat ->
  zip_with restored (replicate n zero_entry) es ++ drop (length es) (replicate n zero_entry)
  = zip_with restored (replicate (length es) zero_entry) es ++ replicate (n - length es) zero_entry.
Proof.
  intros H. rewrite drop_replicate. f_equal. revert n H. induction es as [|e es IH]; intros n H.
  - by destruct (replicate n zero_entry).
  - destruct n as [|n]; [simpl in H; lia|]. simpl in *. f_equal. apply IH. lia.
Qed.

(** An index made of restored entries. *)
Lemma restored_index_ok ix c :
  index_ok ix -> fits 32 c ->
  let es := filter (fun e => is_persistent e = true) (entries ix) in
  let new := zip_with restored (replicate (length es) zero_entry) es ++
             replicate (Z.to_nat (max_variables ix) - length es) zero_entry in
  (length es <= Z.to_nat (max_variables ix))%nat /\ index_ok (Index (max_variables ix) c new) /\
  variables new = filter (fun '(_, v) => persistent v) (variables (entries ix)).
Proof.
  intros (Hmax & Hlen & Hc & Hall & Hk & Hu & Hr) Hcf es new.
  assert (length es <= Z.to_nat (max_variables ix))%nat as Hle.
  { unfold len in Hlen. rewrite <- Hlen, Nat2Z.id. apply length_filter. }
  assert (Forall (fun e => is_persistent e = true) es) as Hp.
  { apply Forall_forall. intros e He%list_elem_of_filter. apply He. }
  assert (bindings new = bindings es) as Hb by by apply restored_bindings.
  destruct (persistent_variables (entries ix) Hk) as [Hsub Hvars].
  split; [done|]. split; [|unfold variables; rewrite Hb; exact Hvars].
  unfold index_ok, uids. simpl. rewrite Hb. split; [done|]. split.
  { unfold len, new. rewrite length_app, length_zip_with, !length_replicate. lia. }
  split; [done|]. split.
  { apply Forall_app. split; [|apply Forall_replicate, zero_entry_ok].
    apply Forall_lookup. intros i e Hi. apply lookup_zip_with_Some in Hi as (e0 & e1 & -> & [-> _]%lookup_replicate & He).
    apply restored_ok. eapply Forall_lookup_1; [|exact He].
    apply Forall_forall. intros e' [_ He']%list_elem_of_filter. rewrite Forall_forall in Hall. by apply Hall. }
  split; [eapply sublist_NoDup; [exact Hk|by apply sublist_map]|].
  split; [eapply sublist_NoDup; [exact Hu|by apply sublist_map]|].
  apply Forall_forall. intros u Hin. rewrite Forall_forall in Hr. apply Hr.
  eapply elem_of_sublist; [exact Hin|by apply sublist_map].
Qed.

(** ** Lemmas: what is dirty is what a dump would change *)

Definition contribution (e : variable_entry) : bytes := if is_persistent e then entry_bytes e else [].

(** A change that marks the entry if it changes the dump. *)
Definition tracked (e e' : variable_entry) : Prop :=
  (dirty e = true -> dirty e' = true) /\ (dirty e' = true \/ contribution e' = contribution e).

Definition unsaved (saved e : variable_entry) : Prop := dirty e = true \/ contribution e = contribution saved.

Lemma unsaved_image saved es :
  Forall2 unsaved saved es -> existsb dirty es = false -> image es = image saved.
Proof.
  induction 1 as [|s e saved es Hu _ IH]; [done|]. simpl. intros [Hd Hds]%orb_false_iff.
  destruct Hu as [Hu|Hu]; [congruence|]. unfold contribution in Hu. by rewrite Hu, IH.
Qed.

Lemma unsaved_update saved ix pos e f ix' :
  nthZ (entries ix) pos = Some e -> update_entry ix pos f = Some ix' -> tracked e (f e) ->
  Forall2 unsaved saved (entries ix) -> Forall2 unsaved saved (entries ix').
Proof.
  intros He Hupd [Hd Hc] Hall. destruct (update_at ix pos e f He) as (l1 & l2 & Hes & _ & Hupd').
  rewrite Hupd in Hupd'. injection Hupd' as ->. simpl. rewrite Hes in Hall.
  apply Forall2_app_inv_r in Hall as (s1 & s2 & H1 & H2 & ->).
  apply Forall2_cons_inv_r in H2 as (s & s2' & Hs & H2 & ->).
  apply Forall2_app; [done|]. constructor; [|done]. destruct Hs as [Hs|Hs]; [left; auto|].
  destruct Hc as [Hc|Hc]; [by left|]. right. congruence.
Qed.

Lemma not_persistent e : is_persistent e = false -> contribution e = [].
Proof. unfold contribution. by intros ->. Qed.

Lemma mark_dirty_case e :
  Z.land (attributes (metadata (info e))) EFI_VARIABLE_NON_VOLATILE = 0 /\ mark_dirty e = e \/
  dirty (mark_dirty e) = true.
Proof. unfold mark_dirty. destruct (Z.eqb_spec (Z.land (attributes (metadata (info e))) EFI_VARIABLE_NON_VOLATILE) 0); simpl; auto. Qed.

Lemma volatile_contribution e :
  Z.land (attributes (metadata (info e))) EFI_VARIABLE_NON_VOLATILE = 0 -> contribution e = [].
Proof. intros H. apply not_persistent. unfold is_persistent. rewrite H. apply andb_false_r. Qed.

(** A variable that is stored is not made volatile while it is set. *)
Definition keeps_storage (m : gmap key variable) (o : index_op) : Prop :=
  match o with
  | SetVariable _ _ _ attrs =>
      forall v, m !! op_key o = Some v -> persistent v -> Z.land attrs EFI_VARIABLE_NON_VOLATILE <> 0
  | _ => True
  end.

Fixpoint keeps_storage_run (ix : variable_index) (os : list index_op) : Prop :=
  match os with
  | [] => True
  | o :: os => keeps_storage (variables (entries ix)) o /\
      forall r ix', index_step ix o = Some (r, ix') -> keeps_storage_run ix' os
  end.

Lemma add_entry_tracked saved ix g nsize nm p ix' :
  index_ok ix -> add_entry ix g nsize nm = Some (p, ix') ->
  Forall2 unsaved saved (entries ix) -> Forall2 unsaved saved (entries ix').
Proof.
  intros Hok. unfold add_entry. destruct (_ <=? _); [|by intros [= <- <-]].
  destruct (find_free_spec ix Hok) as [(pos & e & -> & _ & He & Hu & _)|[-> _]]; cbn [mbind option_bind];
    [|by intros [= <- <-]].
  destruct (pos >=? 0); [|by intros [= <- <-]]. intros (u & _ & H)%bind_Some Hall. rewrite He in H.
  cbn [mbind option_bind] in H.
  assert (contribution e = []) as Hc by (apply not_persistent; unfold is_persistent; by rewrite Hu).
  destruct (u =? 0).
  - apply bind_Some in H as (ix1 & Hupd & [= <- <-]). eapply unsaved_update; [done|exact Hupd| |done].
    split; [done|]. right. rewrite Hc. apply not_persistent. unfold is_persistent. simpl. by rewrite Hu.
  - apply bind_Some in H as (b & _ & H). apply bind_Some in H as (b' & _ & H).
    apply bind_Some in H as (ix1 & Hupd & [= <- <-]). eapply unsaved_update; [done|exact Hupd| |done].
    split; [done|]. right. by rewrite Hc.
Qed.

(** The change of a set entry is tracked when it marks the entry. *)
Lemma mark_dirty_tracked e e1 :
  dirty e1 = dirty e -> attributes (metadata (info e1)) = attributes (metadata (info e)) ->
  tracked e (mark_dirty e1).
Proof.
  intros Hd Ha. destruct (mark_dirty_case e1) as [[Hv ->]|Hm].
  - split; [by rewrite Hd|]. right. rewrite (volatile_contribution e1 Hv), volatile_contribution; [done|]. by rewrite <- Ha.
  - split; [by rewrite Hm|by left].
Qed.

(** A variable that is set and will be stored is dirty. *)
Lemma set_dirty ix pos e attrs ix' :
  nthZ (entries ix) pos = Some e -> variable_index_set_variable ix pos attrs = Some ix' ->
  negb (Z.land attrs EFI_VARIABLE_NON_VOLATILE =? 0) = true -> existsb dirty (entries ix') = true.
Proof.
  intros He Hupd Hnv. unfold variable_index_set_variable in Hupd.
  match type of Hupd with update_entry _ _ ?f = _ => destruct (update_at ix pos e f He) as (l1 & l2 & _ & _ & Hupd') end.
  rewrite Hupd' in Hupd. injection Hupd as <-. simpl. rewrite existsb_app. cbn [existsb].
  unfold mark_dirty. simpl. rewrite Hnv. simpl. by rewrite orb_true_r.
Qed.

Lemma index_step_tracked saved ix o r ix' :
  index_ok ix -> index_op_ok o -> keeps_storage (variables (entries ix)) o -> index_step ix o = Some (r, ix') ->
  Forall2 unsaved saved (entries ix) -> Forall2 unsaved saved (entries ix').
Proof.
  intros Hok Hop Hkeep Hstep Hall.
  destruct o as [g nsize nm|g nsize nm|g nsize nm attrs|g nsize nm|g nsize nm c|g nsize nm]; cbn [index_step] in Hstep;
    match type of Hstep with context [variable_index_find _ ?g ?n ?m] =>
      destruct (find_pos ix g n m Hok ltac:(apply Hop)) as [(pos & v & Hf & (e & He & Hu & Hk & Hv))|[Hf Hnone]]
    end; rewrite Hf in Hstep; cbn [mbind option_bind] in Hstep.
  - rewrite He in Hstep. cbn [mbind option_bind] in Hstep. by simplify_eq.
  - by simplify_eq/=.
  - rewrite He in Hstep. cbn [mbind option_bind] in Hstep. by simplify_eq.
  - apply bind_Some in Hstep as ([p ix1] & Hadd & Hstep).
    assert (ix1 = ix') as -> by (destruct p; [apply bind_Some in Hstep as (? & _ & ?)|]; by simplify_eq).
    by eapply add_entry_tracked.
  - apply bind_Some in Hstep as (ix1 & Hupd & Hstep). apply bind_Some in Hstep as (? & _ & [= <- <-]).
    eapply unsaved_update; [exact He|exact Hupd| |done]. simpl in Hkeep. specialize (Hkeep (entry_variable e)
      ltac:(rewrite <- Hk; by eapply binding_variable)). cbv beta zeta.
    match goal with |- tracked e (mark_dirty ?e1) => destruct (mark_dirty_case e1) as [[Hz ->]|Hm] end.
    + split; [done|]. right. rewrite volatile_contribution by done. symmetry. apply not_persistent.
      apply not_true_is_false. intros Hp. apply (persistent_entry e Hu) in Hp. by apply Hkeep in Hp.
    + split; [by rewrite Hm|by left].
  - by simplify_eq/=.
  - apply bind_Some in Hstep as (ix1 & Hupd & Hstep). apply bind_Some in Hstep as (? & _ & [= <- <-]).
    eapply unsaved_update; [exact He|exact Hupd| |done]. cbv beta zeta.
    destruct (mark_dirty_case e) as [[Hz ->]|Hm].
    + split; [done|]. right. by rewrite !volatile_contribution.
    + split; [by rewrite <- Hm|by left].
  - by simplify_eq/=.
  - apply bind_Some in Hstep as (ix1 & Hupd & Hstep). apply bind_Some in Hstep as (? & _ & [= <- <-]).
    eapply unsaved_update; [exact He|exact Hupd| |done]. by apply mark_dirty_tracked.
  - by simplify_eq/=.
  - apply bind_Some in Hstep as (ix1 & Hupd & [= <- <-]). eapply unsaved_update; [exact He|exact Hupd| |done].
    cbv beta. destruct (negb (is_constraints_set (info e)) && negb (is_variable_set (info e))) eqn:Hun.
    2:{ split; [done|by right]. }
    split; [done|]. right. symmetry. apply not_persistent. unfold is_persistent. rewrite Hu.
    apply andb_true_iff in Hun as [_ Hun%negb_true_iff]. by rewrite Hun.
  - by simplify_eq/=.
Qed.

Lemma index_run_tracked saved ix os rs ix' :
  index_ok ix -> Forall index_op_ok os -> keeps_storage_run ix os -> index_run ix os = Some (rs, ix') ->
  Forall2 unsaved saved (entries ix) -> Forall2 unsaved saved (entries ix').
Proof.
  intros Hok Hos. revert ix rs Hok. induction Hos as [|o os Ho _ IH]; intros ix rs Hok Hkeep Hrun Hall.
  { by simplify_eq/=. }
  destruct Hkeep as [Hk Hkeep]. destruct (index_step_ok ix o Hok Ho) as (r & ix1 & H1 & Hok1 & _).
  cbn [index_run] in Hrun. rewrite H1 in Hrun. cbn [mbind option_bind] in Hrun.
  apply bind_Some in Hrun as ([rs2 ix2] & Hrun & [= _ <-]). eapply IH; [exact Hok1|by eapply Hkeep|exact Hrun|].
  by apply (index_step_tracked saved ix o r).
Qed.

Lemma clean_contribution e : contribution (clean e) = contribution e.
Proof. done. Qed.

Lemma image_clean es : image (map clean es) = image es.
Proof. induction es as [|e es IH]; [done|]. simpl. by rewrite IH. Qed.

(** ** Lemmas: enumeration *)

(** GetNextVariableName from the empty name until there is no next one: the store
    asks again with the name it was given. *)
Fixpoint enumerate (fuel : nat) (ix : variable_index) (g : EFI_GUID) (nsize : Z) (nm : bytes)
    : option (list key * Z) :=
  match fuel with
  | O => None
  | S fuel =>
      '(p, status) ← variable_index_find_next ix g nsize nm;
      match p with
      | Some pos =>
          e ← nthZ (entries ix) pos;
          let m := metadata (info e) in
          '(ks, status) ← enumerate fuel ix (guid m) (name_size m) (name m);
          Some (entry_key e :: ks, status)
      | None => Some ([], status)
      end
  end.

Definition holds_variable (e : variable_entry) : bool := in_use e && is_variable_set (info e).

(** A name with at least one character before its terminator. *)
Definition named (e : variable_entry) : Prop :=
  holds_variable e = true -> 2 <= name_size (metadata (info e)) /\ uint_at (name (metadata (info e))) 0 2 <> 0.

Lemma key_unique ix i j e e' :
  index_ok ix -> nthZ (entries ix) i = Some e -> nthZ (entries ix) j = Some e' ->
  in_use e = true -> in_use e' = true -> entry_key e = entry_key e' -> i = j.
Proof.
  intros Hok He He' Hu Hu' Hk. destruct (decide (i = j)) as [|Hne]; [done|]. exfalso.
  destruct (nthZ_split _ _ _ He) as (l1 & l2 & Hes & Hl & Hset).
  assert (binding e = Some (entry_key e, entry_variable e)) as Hb by (unfold binding; by rewrite Hu).
  destruct (index_rest ix l1 e l2 _ _ Hok Hes Hb) as [Hn _]. apply Hn.
  assert (nthZ (l1 ++ l2) (if decide (j < i) then j else j - 1) = Some e') as Hj.
  { pose proof (nthZ_Some _ _ _ He'). rewrite Hes in He'. unfold nthZ, len in *.
    destruct (decide (j < i)); repeat case_match; try lia.
    - rewrite lookup_app_l in * by lia. done.
    - rewrite lookup_app_r in He' by lia. rewrite lookup_app_r by lia.
      replace (Z.to_nat j - length l1)%nat with (S (Z.to_nat (j - 1) - length l1)) in He' by lia. done. }
  apply list_elem_of_fmap. exists (entry_key e', entry_variable e'). split; [done|].
  apply list_elem_of_omap. exists e'. unfold binding. rewrite Hu'. split; [|done].
  unfold nthZ in Hj. case_match; [|done]. by eapply list_elem_of_lookup_2.
Qed.

Lemma drop_nthZ {A} (l : list A) i x :
  nthZ l i = Some x -> drop (Z.to_nat i) l = x :: drop (Z.to_nat (i + 1)) l.
Proof.
  unfold nthZ. destruct (Z.leb_spec 0 i); [|done]. intros Hx. rewrite (drop_S _ x _ Hx).
  by replace (Z.to_nat (i + 1)) with (S (Z.to_nat i)) by lia.
Qed.

(** Asking with the name of a variable goes on behind it. *)
Lemma find_next_behind ix pos g nsize nm v :
  index_ok ix -> at_pos ix pos (g, slice nm 0 nsize) v -> 2 <= nsize <= len nm -> uint_at nm 0 2 <> 0 ->
  variable_index_find_next ix g nsize nm
  = (r ← next_set ix (pos + 1);
     Some (r, match r with Some _ => EFI_SUCCESS | None => EFI_NOT_FOUND end)).
Proof.
  intros Hok Hp Hs Hc. pose proof (at_pos_var ix pos _ v Hok Hp) as Hv. destruct Hp as (e & He & Hu & Hk & _).
  unfold variable_index_find_next. destruct (Z.geb_spec nsize 2); [|lia].
  rewrite get_uint_ok by lia. cbn [mbind option_bind]. destruct (Z.eqb_spec (uint_at nm 0 2) 0); [done|]. simpl.
  destruct (find_variable_spec ix g nsize nm Hok ltac:(lia)) as [(p & e' & -> & Hp & He' & Hu' & Hk')|[_ Hnone]].
  - assert (p = pos) as -> by (eapply key_unique; [done|exact He'|exact He|done..|congruence]).
    cbn [mbind option_bind]. destruct (Z.geb_spec pos 0); [done|lia].
  - assert (Some v = None) as [=]. rewrite <- Hv. exact Hnone.
Qed.

Lemma find_next_after ix pos e :
  index_ok ix -> nthZ (entries ix) pos = Some e -> holds_variable e = true -> named e ->
  variable_index_find_next ix (guid (metadata (info e))) (name_size (metadata (info e))) (name (metadata (info e)))
  = (r ← next_set ix (pos + 1);
     Some (r, match r with Some _ => EFI_SUCCESS | None => EFI_NOT_FOUND end)).
Proof.
  intros Hok He Hh Hn. destruct (Hn Hh) as [Hs Hc]. apply andb_true_iff in Hh as [Hu _].
  destruct (entry_at ix pos e Hok He) as ((_ & _ & _ & Hns & Hnl & _) & _).
  apply (find_next_behind ix pos _ _ _ (entry_variable e)); [done| |lia|done]. by exists e.
Qed.

Lemma next_set_cons ix l1 e l2 :
  index_ok ix -> entries ix = l1 ++ e :: l2 ->
  next_set ix (len l1) = if holds_variable e then Some (Some (len l1)) else next_set ix (len l1 + 1).
Proof.
  intros (Hmax & Hlen & _) Hes. rewrite Hes in Hlen. unfold len in Hlen. rewrite length_app in Hlen. simpl in Hlen.
  unfold next_set. rewrite (swrap_small 32) by lia.
  replace (Z.to_nat (max_variables ix - len l1)) with (S (length l2)) by (unfold len; lia).
  replace (Z.to_nat (max_variables ix - (len l1 + 1))) with (length l2) by (unfold len; lia).
  cbn [scan]. assert (nthZ (entries ix) (len l1) = Some e) as ->.
  { rewrite Hes. unfold len. rewrite nthZ_of_nat. by rewrite list_lookup_middle. }
  done.
Qed.

Lemma enumerate_from fuel ix l1 l2 :
  index_ok ix -> Forall named (entries ix) -> entries ix = l1 ++ l2 -> (length l2 <= fuel)%nat ->
  (r ← next_set ix (len l1);
   match r with
   | Some pos =>
       e ← nthZ (entries ix) pos;
       let m := metadata (info e) in
       '(ks, status) ← enumerate fuel ix (guid m) (name_size m) (name m);
       Some (entry_key e :: ks, status)
   | None => Some ([], EFI_NOT_FOUND)
   end) = Some (entry_key <$> filter (fun e => holds_variable e = true) l2, EFI_NOT_FOUND).
Proof.
  intros Hok Hnames. revert l1 fuel. induction l2 as [|e l2 IH]; intros l1 fuel Hes Hf.
  { assert (next_set ix (len l1) = Some None) as ->; [|done].
    destruct Hok as (Hmax & Hlen & _). unfold next_set. rewrite (swrap_small 32) by lia.
    rewrite Hes, app_nil_r in Hlen. by replace (Z.to_nat (max_variables ix - len l1)) with 0%nat by lia. }
  rewrite (next_set_cons ix l1 e l2 Hok Hes), filter_cons.
  assert (len l1 + 1 = len (l1 ++ [e])) as Hl1 by (rewrite len_app; done).
  assert (entries ix = (l1 ++ [e]) ++ l2) as Hes' by (by rewrite <- app_assoc).
  destruct (holds_variable e) eqn:Hh.
  - cbn [mbind option_bind]. assert (nthZ (entries ix) (len l1) = Some e) as He.
    { rewrite Hes. unfold len. rewrite nthZ_of_nat. by rewrite list_lookup_middle. }
    rewrite He. cbn [mbind option_bind]. destruct fuel as [|fuel]; [simpl in Hf; lia|]. cbv zeta.
    cbn [enumerate]. rewrite (find_next_after ix (len l1) e) by (done || (rewrite Hes in Hnames;
      by apply Forall_app in Hnames as [_ [? _]%Forall_cons])).
    specialize (IH (l1 ++ [e]) fuel Hes' ltac:(simpl in Hf; lia)). rewrite <- Hl1 in IH.
    destruct (decide (true = true)); [|done].
    destruct (next_set ix (len l1 + 1)) as [[p|]|]; cbn [mbind option_bind] in IH |- *; [|injection IH as IH; rewrite fmap_cons; by rewrite <- IH|done].
    rewrite IH. cbn [mbind option_bind]. done.
  - destruct (decide (false = true)); [done|]. rewrite Hl1. apply IH; [done|]. simpl in Hf. lia.
Qed.

Lemma image_length es :
  Forall entry_ok es -> Forall (fun e => is_persistent e = true) es -> (Z.of_nat (length es) <= len (image es)).
Proof.
  induction 1 as [|e es He _ IH]; intros Hp; [done|]. apply Forall_cons in Hp as [Hpe Hp]. specialize (IH Hp).
  simpl image. rewrite Hpe, len_app. pose proof (len_variable_bytes e He). unfold METADATA_SIZE in *. simpl length. lia.
Qed.

Lemma clean_not_dirty es : existsb dirty (map clean es) = false.
Proof. by induction es. Qed.

Lemma set_keys_NoDup es :
  NoDup (bindings es).*1 -> NoDup (entry_key <$> filter (fun e => holds_variable e = true) es).
Proof.
  intros Hnd. eapply sublist_NoDup; [exact Hnd|]. clear Hnd. induction es as [|e es IH]; [done|].
  rewrite filter_cons, bindings_cons. destruct (decide (holds_variable e = true)) as [Hh|Hh].
  - apply andb_true_iff in Hh as [Hu _]. unfold binding. rewrite Hu. simpl. by constructor.
  - rewrite fmap_app. by apply sublist_inserts_l.
Qed.

Lemma index_init_entries malloc_ok max ix0 :
  0 <= max < 2 ^ 31 -> variable_index_init malloc_ok max = (EFI_SUCCESS, ix0) ->
  ix0 = Index max (counter ix0) (replicate (Z.to_nat max) zero_entry) /\ counter ix0 = 0.
Proof.
  intros Hmax. unfold variable_index_init, ENTRY_SIZE. rewrite wrap_small by lia.
  destruct (malloc_ok _); [|done]. intros [= <-]. by rewrite Z.mul_comm, Z.div_mul.
Qed.

(** A dump is loaded into a fresh index. *)
Lemma restore_ok ix c b c0 :
  index_ok ix -> fits 32 c -> 4 + len (image (entries ix)) <= len b -> slice b 0 4 = le_split 4 (u32 c) ->
  slice b 4 (len (image (entries ix))) = image (entries ix) ->
  exists ix2, variable_index_restore (Index (max_variables ix) c0 (replicate (Z.to_nat (max_variables ix)) zero_entry))
      (4 + len (image (entries ix))) b = Some (4 + len (image (entries ix)), ix2) /\ index_ok ix2 /\
    max_variables ix2 = max_variables ix /\ counter ix2 = c /\
    variables (entries ix2) = filter (fun '(_, v) => persistent v) (variables (entries ix)).
Proof.
  intros Hok Hcf Hlb Hc Him. destruct (restored_index_ok ix _ Hok Hcf) as (Hle & Hok2 & Hvars).
  eexists (Index (max_variables ix) _ _). split; [|done].
  pose proof Hok as (Hmax & Hlen & _ & Hall & _). pose proof (len_image (entries ix) Hall).
  unfold variable_index_restore. simpl max_variables. simpl entries.
  destruct (Z.geb_spec (4 + len (image (entries ix))) 4); [|lia].
  rewrite get_uint_ok, (saved_counter b _ Hc) by lia. cbn [mbind option_bind].
  rewrite wrap_small by exact Hcf.
  set (es := filter (fun e => is_persistent e = true) (entries ix)) in *.
  assert (Forall (fun e => is_persistent e = true) es) as Hp.
  { apply Forall_forall. intros e He%list_elem_of_filter. apply He. }
  assert (image es = image (entries ix)) as Hime by apply image_filter.
  assert (Forall entry_ok es) as Hes.
  { apply Forall_forall. intros e [_ He]%list_elem_of_filter. rewrite Forall_forall in Hall. by apply Hall. }
  rewrite (restore_loop_ok _ _ b _ [] (replicate (Z.to_nat (max_variables ix)) zero_entry) 4 es); try done.
  - rewrite zip_restored by done. done.
  - by rewrite length_replicate.
  - pose proof (image_length es Hes Hp) as Hcount. rewrite Hime in Hcount. lia.
  - by rewrite Hime.
  - by rewrite Hime.
Qed.

(** ** Lemmas: more records than entries *)

Lemma update_past ix pos f : len (entries ix) <= pos -> update_entry ix pos f = None.
Proof. intros H. unfold update_entry. by rewrite nthZ_None. Qed.

Lemma restore_loop_overflow fuel data_len buffer ix l1 l2 loaded es :
  Forall entry_ok es -> Forall (fun e => is_persistent e = true) es -> (length l2 < length es)%nat ->
  (length es <= fuel)%nat -> entries ix = l1 ++ l2 -> 0 <= loaded ->
  slice buffer loaded (len (image es)) = image es -> loaded + len (image es) = data_len ->
  data_len <= len buffer -> restore_loop fuel data_len buffer ix loaded (len l1) = None.
Proof.
  intros Hok. revert fuel ix l1 l2 loaded. induction Hok as [|e es He Hes IH];
    intros fuel ix l1 l2 loaded Hp Hlen Hfuel Hix Hl Hs Hd Hb; [simpl in Hlen; lia|].
  destruct fuel as [|fuel]; [simpl in Hfuel; lia|].
  apply Forall_cons in Hp as [Hpe Hp]. simpl image in *. rewrite Hpe in *.
  rewrite len_app in *. pose proof (len_nonneg (image es)). pose proof (len_variable_bytes e He) as Hle.
  apply bytes_front in Hs as [Hs1 Hs2]; [|lia..].
  destruct l2 as [|e0 l2].
  - unfold METADATA_SIZE in *. cbn [restore_loop]. unfold METADATA_SIZE. destruct (Z.ltb_spec loaded data_len); [|lia].
    destruct (Z.geb_spec (data_len - loaded) 216); [|lia].
    rewrite (load_is_slice buffer loaded 216) by lia. cbn [mbind option_bind].
    rewrite (update_past ix (len l1)); [done|]. rewrite Hix, app_nil_r. lia.
  - rewrite (restore_one fuel data_len buffer ix l1 e0 l2 loaded e) by (done || lia).
    replace (len l1 + 1) with (len (l1 ++ [restored e0 e])) by (rewrite len_app; done).
    apply (IH fuel _ (l1 ++ [restored e0 e]) l2); try done; simpl in Hlen, Hfuel;
      try (unfold METADATA_SIZE in Hle; lia).
    simpl. by rewrite <- app_assoc.
Qed.

(** A stored variable without constraints. *)
Definition plain_entry : variable_entry :=
  Entry (VarInfo (Metadata (Guid 0 0 0 (fill 0 8)) (fill 0 16) (fill 0 32) 0 (fill 0 128) 1 (fill 0 4) 1)
           (Constraints 0 0 0 0 0) true false) true false.

(** variable_index_restore trusts the number of records: in an index of ten or more
    entries a dump of one record too many fits the buffer and is written past the table. *)
Lemma restore_past_table malloc_ok max ix :
  10 <= max < 2 ^ 31 -> variable_index_init malloc_ok max = (EFI_SUCCESS, ix) ->
  exists buffer, len buffer <= variable_index_max_dump_size ix /\
    variable_index_restore ix (len buffer) buffer = None.
Proof.
  intros Hmax Hinit. set (es := replicate (S (Z.to_nat max)) plain_entry).
  destruct (index_init_ok malloc_ok max ix ltac:(lia) Hinit) as ((_ & Hlen & _) & Hm & _). rewrite Hm in *.
  assert (entry_ok plain_entry) as Hpl.
  { unfold entry_ok, metadata_ok, guid_ok, constraints_ok, fits. vm_compute. intuition discriminate. }
  assert (Forall entry_ok es) as Hes by by apply Forall_replicate.
  assert (Forall (fun e => is_persistent e = true) es) as Hp by by apply Forall_replicate.
  assert (forall n, len (image (replicate n plain_entry)) = 217 * Z.of_nat n) as Him.
  { induction n as [|n IH]; [done|]. simpl replicate.
    assert (forall l, image (plain_entry :: l) = entry_bytes plain_entry ++ image l) as -> by done.
    rewrite len_app, IH. change (len (entry_bytes plain_entry)) with 217. lia. }
  specialize (Him (S (Z.to_nat max))). fold es in Him.
  exists (fill 0 4 ++ image es). rewrite len_app, len_fill by lia.
  split; [unfold variable_index_max_dump_size, METADATA_SIZE, CONSTRAINTS_SIZE; rewrite Hm, wrap_small; lia|].
  unfold variable_index_restore. destruct (Z.geb_spec (4 + len (image es)) 4); [|lia].
  rewrite get_uint_ok by (rewrite ?len_app, ?len_fill by lia; lia). cbn [mbind option_bind].
  apply (restore_loop_overflow _ _ _ _ [] (entries ix) 4 es); try done.
  - unfold es. rewrite length_replicate. unfold len in Hlen. lia.
  - unfold es at 1. rewrite length_replicate. lia.
  - unfold slice. rewrite drop_app_length' by done. apply firstn_all2. unfold len. lia.
  - rewrite len_app, len_fill by lia. lia.
Qed.

(** ** Lemmas: the iterator *)

(** first, then current and next until done. *)
Fixpoint iterate (fuel : nat) (ix : variable_index) (pos : Z) : option (list Z) :=
  match fuel with
  | O => None
  | S fuel =>
      match variable_index_iterator_current ix pos with
      | None => Some []
      | Some p =>
          next ← variable_index_iterator_next ix pos;
          ps ← iterate fuel ix next;
          Some (p :: ps)
      end
  end.

Fixpoint used_positions (pos : Z) (es : list variable_entry) : list Z :=
  match es with
  | [] => []
  | e :: es => if in_use e then pos :: used_positions (pos + 1) es else used_positions (pos + 1) es
  end.

Definition next_used (ix : variable_index) (pos : Z) : option Z :=
  r ← scan (Z.to_nat (max_variables ix - pos)) (fun e => Some (in_use e)) (entries ix) pos;
  Some (match r with Some pos => pos | None => max_variables ix end).

Lemma iterate_from fuel ix l1 l2 :
  index_ok ix -> entries ix = l1 ++ l2 -> (length l2 < fuel)%nat ->
  (p ← next_used ix (len l1); iterate fuel ix p) = Some (used_positions (len l1) l2).
Proof.
  intros Hok. pose proof Hok as (Hmax & Hlen & _). revert l1 fuel.
  induction l2 as [|e l2 IH]; intros l1 fuel Hes Hf; unfold next_used.
  - rewrite Hes, app_nil_r in Hlen. replace (Z.to_nat (max_variables ix - len l1)) with 0%nat by lia.
    cbn [scan mbind option_bind]. destruct fuel as [|fuel]; [lia|]. simpl.
    unfold variable_index_iterator_current, variable_index_iterator_is_done.
    by destruct (Z.geb_spec (max_variables ix) (max_variables ix)); [|lia].
  - assert (entries ix = (l1 ++ [e]) ++ l2) as Hes' by (by rewrite <- app_assoc).
    assert (len (l1 ++ [e]) = len l1 + 1) as Hl1 by (rewrite len_app; done).
    assert (max_variables ix = len l1 + 1 + len l2) as Hm by (rewrite <- Hlen, Hes', len_app; lia).
    pose proof (len_nonneg l1). pose proof (len_nonneg l2).
    replace (Z.to_nat (max_variables ix - len l1)) with (S (Z.to_nat (max_variables ix - (len l1 + 1)))) by lia.
    cbn [scan]. assert (nthZ (entries ix) (len l1) = Some e) as ->.
    { rewrite Hes. unfold len. rewrite nthZ_of_nat. by rewrite list_lookup_middle. }
    cbn [mbind option_bind used_positions]. specialize (IH (l1 ++ [e])). rewrite Hl1 in IH.
    destruct (in_use e) eqn:Hu; [|by apply IH; [|simpl in Hf; lia]].
    destruct fuel as [|fuel]; [lia|]. cbn [iterate mbind option_bind].
    unfold variable_index_iterator_current, variable_index_iterator_is_done, variable_index_iterator_next.
    destruct (Z.geb_spec (len l1) (max_variables ix)); [lia|]. destruct (Z.ltb_spec (len l1) (max_variables ix)); [|lia].
    cbn [negb]. fold (next_used ix (len l1 + 1)). specialize (IH fuel Hes' ltac:(simpl in Hf; lia)).
    destruct (next_used ix (len l1 + 1)) as [p|]; [|done]. cbn [mbind option_bind] in IH |- *. by rewrite IH.
Qed.

(** The iterator visits the entries in use, each once. *)
Lemma iterator_visits ix :
  index_ok ix ->
  (p ← variable_index_iterator_first ix; iterate (S (length (entries ix))) ix p) = Some (used_positions 0 (entries ix)).
Proof.
  intros Hok. pose proof (iterate_from (S (length (entries ix))) ix [] (entries ix) Hok eq_refl ltac:(lia)) as H.
  change (len (@nil variable_entry)) with 0 in H. rewrite <- H.
  unfold variable_index_iterator_first, next_used, scan_all. by rewrite Z.sub_0_r.
Qed.

(** ** Properties *)

(** A saved index is restored.  A buffer of variable_index_max_dump_size octets
    always holds the dump, whatever the index contains; restoring the dump into a newly
    initialised index of the same size consumes it whole and gives exactly the
    non-volatile variables that are set, with their attributes, identifiers, time
    stamps, fingerprints and constraints, and the next value of the counter.  The
    index that was dumped is unchanged but for its dirty flags, which are reported. *)
Theorem variable_index_dump_restore malloc_ok ix buffer_size buffer ix0 :
  index_ok ix -> variable_index_max_dump_size ix <= buffer_size <= len buffer -> buffer_size < 2 ^ 64 ->
  variable_index_init malloc_ok (max_variables ix) = (EFI_SUCCESS, ix0) ->
  exists buffer' n ix1 ix2,
    variable_index_dump ix buffer_size buffer
      = Some (EFI_SUCCESS, buffer', n, existsb dirty (entries ix), ix1) /\
    n <= variable_index_max_dump_size ix /\ index_ok ix1 /\ existsb dirty (entries ix1) = false /\
    variables (entries ix1) = variables (entries ix) /\
    variable_index_restore ix0 n buffer' = Some (n, ix2) /\ index_ok ix2 /\
    counter ix2 = u32 (counter ix + 1) /\
    variables (entries ix2) = filter (fun '(_, v) => persistent v) (variables (entries ix)).
Proof.
  intros Hok Hs Hlt Hinit. destruct (dump_ok ix buffer_size buffer Hok Hs Hlt)
    as (b & Hd & Hn & Hlb & Hc & Him). pose proof Hok as (Hmax & _).
  destruct (restore_ok ix (u32 (counter ix + 1)) b (counter ix0)) as (ix2 & Hr & Hok2 & _ & Hrest);
    [done|by apply wrap_fits|lia|by rewrite wrap_idem|done|].
  exists b. eexists _, _, ix2. split; [exact Hd|]. split; [exact Hn|]. split; [by apply clean_ok|].
  split; [apply clean_not_dirty|]. split; [simpl; unfold variables; by rewrite clean_bindings|].
  split; [|done]. by destruct (index_init_entries malloc_ok (max_variables ix) ix0 Hmax Hinit) as [-> _].
Qed.

(** No change to a stored variable escapes the next dump.  After a dump, and any
    operations that do not make a stored variable volatile, the next dump reports
    unsaved data unless its contents are those of the dump before: data that is not
    written because nothing is dirty is data the storage already holds. *)
Theorem variable_index_dirty_sound ix buffer_size buffer os :
  index_ok ix -> variable_index_max_dump_size ix <= buffer_size <= len buffer -> buffer_size < 2 ^ 64 ->
  Forall index_op_ok os -> keeps_storage_run (with_entries ix (map clean (entries ix))) os ->
  exists b1 n1 d1 ix1 rs ix2 b2 n2 d2 ix3,
    variable_index_dump ix buffer_size buffer = Some (EFI_SUCCESS, b1, n1, d1, ix1) /\
    index_run ix1 os = Some (rs, ix2) /\
    variable_index_dump ix2 buffer_size buffer = Some (EFI_SUCCESS, b2, n2, d2, ix3) /\
    (d2 = false -> n2 = n1 /\ slice b2 4 (n2 - 4) = slice b1 4 (n1 - 4)).
Proof.
  intros Hok Hs Hlt Hos Hkeep.
  destruct (dump_ok ix buffer_size buffer Hok Hs Hlt) as (b1 & Hd1 & _ & _ & _ & Him1).
  set (ix1 := with_entries ix (map clean (entries ix))) in *.
  assert (index_ok ix1) as Hok1 by by apply clean_ok.
  destruct (index_run_ok ix1 os Hok1 Hos) as (rs & ix2 & Hrun & Hok2 & Hmax & _).
  destruct (dump_ok ix2 buffer_size buffer Hok2) as (b2 & Hd2 & _ & _ & _ & Him2); [|done|].
  { unfold variable_index_max_dump_size in *. by rewrite Hmax. }
  exists b1. eexists _, _, ix1, rs, ix2, b2, _, _, _. split; [exact Hd1|]. split; [exact Hrun|].
  split; [exact Hd2|]. intros Hclean.
  assert (image (entries ix2) = image (entries ix)) as Heq.
  { rewrite <- (image_clean (entries ix)). apply unsaved_image; [|done].
    apply (index_run_tracked (map clean (entries ix)) ix1 os rs ix2); try done.
    simpl. clear. induction (map clean (entries ix)); constructor; [by right|done]. }
  rewrite Heq in *. split; [done|]. rewrite !Z.add_simpl_l. by rewrite Him1, Him2.
Qed.

(** Enumeration visits every variable once and ends.  Where all variables have a
    name, asking for the first variable and then for the next one with each name that
    is returned gives every variable that is set, once and in the order of the table,
    and then reports that there are no more; the number of calls is bounded by the size
    of the index. *)
Theorem variable_enumeration_complete ix g nsize nm :
  index_ok ix -> Forall named (entries ix) -> 2 <= nsize <= len nm -> uint_at nm 0 2 = 0 ->
  exists ks, enumerate (S (length (entries ix))) ix g nsize nm = Some (ks, EFI_NOT_FOUND) /\ NoDup ks /\
    forall k, k ∈ ks <-> exists v, variables (entries ix) !! k = Some v /\ v_set v = true.
Proof.
  intros Hok Hn Hs Hz. cbn [enumerate]. unfold variable_index_find_next.
  destruct (Z.geb_spec nsize 2); [|lia]. rewrite get_uint_ok, Hz by lia. cbn [mbind option_bind].
  change (negb (0 =? 0)) with false. cbv match.
  pose proof (enumerate_from (length (entries ix)) ix [] (entries ix) Hok Hn eq_refl ltac:(lia)) as He.
  change (len (@nil variable_entry)) with 0 in He.
  exists (entry_key <$> filter (fun e => holds_variable e = true) (entries ix)). split.
  { rewrite <- He. destruct (next_set ix 0) as [[p|]|]; done. }
  pose proof Hok as (_ & _ & _ & _ & Hnd & _). split; [by apply set_keys_NoDup|].
  intros k. rewrite list_elem_of_fmap. split.
  - intros (e & -> & [[Hu Hset]%andb_true_iff Hin]%list_elem_of_filter). exists (entry_variable e).
    split; [|done]. apply list_elem_of_lookup in Hin as [i Hi]. rewrite <- nthZ_of_nat in Hi.
    by eapply binding_variable.
  - intros (v & (i & e & Hi & Hb)%variables_lookup & Hset); [|done]. unfold binding in Hb.
    destruct (in_use e) eqn:Hu; [|done]. injection Hb as <- <-. exists e. split; [done|].
    apply list_elem_of_filter. split; [unfold holds_variable; by rewrite Hu|].
    unfold nthZ in Hi. case_match; [|done]. by eapply list_elem_of_lookup_2.
Qed.

(** ** Samples *)

Lemma variable_index_dump_restore_witness :
  exists buffer' n ix1 ix2,
    variable_index_dump sample_index 1000 (fill 0 1000)
      = Some (EFI_SUCCESS, buffer', n, existsb dirty (entries sample_index), ix1) /\
    n <= variable_index_max_dump_size sample_index /\ index_ok ix1 /\ existsb dirty (entries ix1) = false /\
    variables (entries ix1) = variables (entries sample_index) /\
    variable_index_restore empty_index n buffer' = Some (n, ix2) /\ index_ok ix2 /\
    counter ix2 = u32 (counter sample_index + 1) /\
    variables (entries ix2) = filter (fun '(_, v) => persistent v) (variables (entries sample_index)).
Proof.
  apply (variable_index_dump_restore (fun _ => true) sample_index 1000 (fill 0 1000) empty_index).
  - exact sample_index_ok.
  - split; vm_compute; discriminate.
  - lia.
  - reflexivity.
Defined.

(** The dump of the sample holds the two non-volatile variables, one with constraints. *)
Example sample_dump :
  (fun '(st, _, n, d, _) => (st, n, d)) <$> variable_index_dump sample_index 1000 (fill 0 1000)
  = Some (EFI_SUCCESS, 4 + 217 + 241, true).
Proof. vm_compute. reflexivity. Qed.

(** Not enough room for the second one: the first entry is no longer dirty, although
    nothing can be saved. *)
Example sample_dump_short :
  (fun '(st, _, n, d, ix) => (st, n, d, map dirty (entries ix))) <$>
    variable_index_dump sample_index 300 (fill 0 300)
  = Some (EFI_BUFFER_TOO_SMALL, 0, true, [false; false; true]).
Proof. vm_compute. reflexivity. Qed.

Lemma variable_index_dirty_sound_witness :
  let os := [Lookup sample_guid 4 (sample_name 65); ClearVariable sample_guid 4 (sample_name 68)] in
  exists b1 n1 d1 ix1 rs ix2 b2 n2 d2 ix3,
    variable_index_dump sample_index 1000 (fill 0 1000) = Some (EFI_SUCCESS, b1, n1, d1, ix1) /\
    index_run ix1 os = Some (rs, ix2) /\
    variable_index_dump ix2 1000 (fill 0 1000) = Some (EFI_SUCCESS, b2, n2, d2, ix3) /\
    (d2 = false -> n2 = n1 /\ slice b2 4 (n2 - 4) = slice b1 4 (n1 - 4)).
Proof.
  intros os. apply (variable_index_dirty_sound sample_index 1000 (fill 0 1000) os).
  - exact sample_index_ok.
  - split; vm_compute; discriminate.
  - lia.
  - repeat (apply Forall_cons; split; [by repeat split; vm_compute|]). constructor.
  - by repeat split.
Defined.

Lemma variable_enumeration_complete_witness :
  exists ks, enumerate (S (length (entries sample_index))) sample_index sample_guid 2 [0; 0]
      = Some (ks, EFI_NOT_FOUND) /\ NoDup ks /\
    forall k, k ∈ ks <-> exists v, variables (entries sample_index) !! k = Some v /\ v_set v = true.
Proof.
  apply (variable_enumeration_complete sample_index sample_guid 2 [0; 0]).
  - exact sample_index_ok.
  - assert (entries sample_index = entries sample_index) as _ by reflexivity.
    repeat (apply Forall_cons; split; [by repeat split; vm_compute|]). constructor.
  - by repeat split.
  - reflexivity.
Defined.

Example sample_enumeration :
  enumerate 4 sample_index sample_guid 2 [0; 0]
  = Some ([(sample_guid, sample_name 65); (sample_guid, sample_name 66); (sample_guid, sample_name 68)], EFI_NOT_FOUND).
Proof. vm_compute. reflexivity. Qed.
