(* ===== verification/UefiStore.v ===== *)
(** * components/service/uefi/smm_variable/backend/uefi_variable_store.c

    The UEFI variable store: an index of variables in memory, their data in two storage
    backends, one persistent and one volatile, and copies A and B of the index in the
    persistent one.  This is the configuration without UEFI_AUTH_VAR.  The structures of
    protocols/service/smm_variable/parameters.h end in an array [Name] that is followed by
    the data: the field is the memory from [Name] on.  [P] and [W] are the contexts of the
    persistent and the volatile backend. *)
From S2P Require Import Prelude Status StorageBackend VariableIndex.

(** ** protocols/service/smm_variable/parameters.h *)

Definition EFI_LOAD_ERROR : Z := EFI_ERROR 1.
Definition EFI_UNSUPPORTED : Z := EFI_ERROR 3.
Definition EFI_NOT_READY : Z := EFI_ERROR 6.
Definition EFI_DEVICE_ERROR : Z := EFI_ERROR 7.
Definition EFI_ACCESS_DENIED : Z := EFI_ERROR 15.

Definition EFI_VARIABLE_BOOTSERVICE_ACCESS : Z := 2.
Definition EFI_VARIABLE_RUNTIME_ACCESS : Z := 4.
Definition EFI_VARIABLE_HARDWARE_ERROR_RECORD : Z := 8.
Definition EFI_VARIABLE_AUTHENTICATED_WRITE_ACCESS : Z := 16.
Definition EFI_VARIABLE_TIME_BASED_AUTHENTICATED_WRITE_ACCESS : Z := 32.
Definition EFI_VARIABLE_APPEND_WRITE : Z := 64.
Definition EFI_VARIABLE_ENHANCED_AUTHENTICATED_ACCESS : Z := 128.
Definition EFI_VARIABLE_MASK : Z := 255.

Record SMM_VARIABLE_COMMUNICATE_ACCESS_VARIABLE := AccessVariable {
  Guid_ : EFI_GUID; DataSize : Z; NameSize : Z; av_Attributes : Z; Name : bytes
}.

Record SMM_VARIABLE_COMMUNICATE_GET_NEXT_VARIABLE_NAME := NextVariableName {
  next_Guid : EFI_GUID; next_NameSize : Z; next_Name : bytes
}.

Record SMM_VARIABLE_COMMUNICATE_QUERY_VARIABLE_INFO := QueryVariableInfo {
  MaximumVariableStorageSize : Z; RemainingVariableStorageSize : Z; MaximumVariableSize : Z;
  query_Attributes : Z
}.

Record SMM_VARIABLE_COMMUNICATE_VAR_CHECK_VARIABLE_PROPERTY := CheckVariableProperty {
  check_Guid : EFI_GUID; check_NameSize : Z; VariableProperty : VAR_CHECK_VARIABLE_PROPERTY;
  check_Name : bytes
}.

Definition ACCESS_VARIABLE_NAME_OFFSET : Z := 36.
Definition NEXT_VARIABLE_NAME_NAME_OFFSET : Z := 24.

(** ** uefi_variable_store.h *)

(** [has_backend]: storage_backend is not NULL. *)
Record delegate_variable_store := DelegateStore {
  is_nv : bool; total_capacity : Z; max_variable_size : Z; has_backend : bool
}.

Record uefi_variable_store (P W : Type) := UefiStore {
  is_boot_service : bool;
  owner_id : Z;
  index_sync_buffer : option bytes;
  index_sync_buffer_size : Z;
  active_variable_index_uid : Z;
  variable_index_ : variable_index;
  persistent_store : delegate_variable_store;
  volatile_store : delegate_variable_store;
  persistent_backend : P;
  volatile_backend : W
}.
Arguments UefiStore {P W}.
Arguments is_boot_service {P W}.
Arguments owner_id {P W}.
Arguments index_sync_buffer {P W}.
Arguments index_sync_buffer_size {P W}.
Arguments active_variable_index_uid {P W}.
Arguments variable_index_ {P W}.
Arguments persistent_store {P W}.
Arguments volatile_store {P W}.
Arguments persistent_backend {P W}.
Arguments volatile_backend {P W}.

Definition SMM_VARIABLE_INDEX_STORAGE_A_UID : Z := 0x8000000000000001.
Definition SMM_VARIABLE_INDEX_STORAGE_B_UID : Z := 0x8000000000000002.
Definition DEFAULT_MAX_VARIABLE_SIZE : Z := 4096.
Definition RPC_CALLER_SESSION_SHARED_MEMORY_SIZE : Z := 4096.

Definition psa_to_efi_storage_status (psa_status : Z) : Z :=
  if psa_status =? PSA_SUCCESS then EFI_SUCCESS
  else if psa_status =? PSA_ERROR_NOT_PERMITTED then EFI_ACCESS_DENIED
  else if psa_status =? PSA_ERROR_INVALID_ARGUMENT then EFI_INVALID_PARAMETER
  else if psa_status =? PSA_ERROR_BAD_STATE then EFI_NOT_READY
  else if psa_status =? PSA_ERROR_BUFFER_TOO_SMALL then EFI_BUFFER_TOO_SMALL
  else if psa_status =? PSA_ERROR_DOES_NOT_EXIST then EFI_NOT_FOUND
  else if psa_status =? PSA_ERROR_INSUFFICIENT_MEMORY then EFI_OUT_OF_RESOURCES
  else if psa_status =? PSA_ERROR_INSUFFICIENT_STORAGE then EFI_OUT_OF_RESOURCES
  else EFI_DEVICE_ERROR.

(** name[name_size / sizeof(int16_t) - 1] must be 0. *)
Definition check_name_terminator (name : bytes) (name_size : Z) : option Z :=
  if name_size <? 2 then Some EFI_INVALID_PARAMETER
  else
    c ← get_uint name (2 * (name_size / 2 - 1)) 2;
    Some (if c =? 0 then EFI_SUCCESS else EFI_INVALID_PARAMETER).

Definition has (attributes flag : Z) : bool := negb (Z.land attributes flag =? 0).

Definition check_capabilities (var : SMM_VARIABLE_COMMUNICATE_ACCESS_VARIABLE) : Z :=
  let a := av_Attributes var in
  if has a EFI_VARIABLE_RUNTIME_ACCESS && negb (has a EFI_VARIABLE_BOOTSERVICE_ACCESS) then EFI_INVALID_PARAMETER
  else if has a EFI_VARIABLE_AUTHENTICATED_WRITE_ACCESS then EFI_UNSUPPORTED
  else if has a EFI_VARIABLE_TIME_BASED_AUTHENTICATED_WRITE_ACCESS &&
          has a EFI_VARIABLE_ENHANCED_AUTHENTICATED_ACCESS then EFI_INVALID_PARAMETER
  else if has a EFI_VARIABLE_ENHANCED_AUTHENTICATED_ACCESS then EFI_UNSUPPORTED
  else if has a (Z.lxor (2 ^ 32 - 1) EFI_VARIABLE_MASK) then EFI_UNSUPPORTED
  else if has a EFI_VARIABLE_HARDWARE_ERROR_RECORD then EFI_UNSUPPORTED
  else EFI_SUCCESS.

Section Store.
Context {P W : Type} (IP : storage_backend_interface P) (IW : storage_backend_interface W).
(** [malloc_ok n]: malloc of [n] octets succeeds; [junk n]: what it contains;
    [uninitialised]: a local variable. *)
Context (malloc_ok : Z -> bool) (junk : Z -> bytes) (uninitialised : psa_storage_info_t).
Abbreviation store_ctx := (uefi_variable_store P W).
Implicit Types context x : store_ctx.

Definition with_buffer x (b : option bytes) : store_ctx :=
  UefiStore (is_boot_service x) (owner_id x) b (index_sync_buffer_size x) (active_variable_index_uid x)
    (variable_index_ x) (persistent_store x) (volatile_store x) (persistent_backend x) (volatile_backend x).
Definition with_active x (u : Z) : store_ctx :=
  UefiStore (is_boot_service x) (owner_id x) (index_sync_buffer x) (index_sync_buffer_size x) u
    (variable_index_ x) (persistent_store x) (volatile_store x) (persistent_backend x) (volatile_backend x).
Definition with_index x (ix : variable_index) : store_ctx :=
  UefiStore (is_boot_service x) (owner_id x) (index_sync_buffer x) (index_sync_buffer_size x)
    (active_variable_index_uid x) ix (persistent_store x) (volatile_store x) (persistent_backend x) (volatile_backend x).
Definition with_persistent x (p : P) : store_ctx :=
  UefiStore (is_boot_service x) (owner_id x) (index_sync_buffer x) (index_sync_buffer_size x)
    (active_variable_index_uid x) (variable_index_ x) (persistent_store x) (volatile_store x) p (volatile_backend x).
Definition with_volatile x (w : W) : store_ctx :=
  UefiStore (is_boot_service x) (owner_id x) (index_sync_buffer x) (index_sync_buffer_size x)
    (active_variable_index_uid x) (variable_index_ x) (persistent_store x) (volatile_store x) (persistent_backend x) w.

(** ** Calls of the backend of a delegate store: the persistent one if [nv] *)

Definition backend_set x (nv : bool) (uid n : Z) (p : option bytes) (flags : Z) : option (Z * store_ctx) :=
  if nv then '(st, b) ← sb_set IP (persistent_backend x) (owner_id x) uid n p flags; Some (st, with_persistent x b)
  else '(st, b) ← sb_set IW (volatile_backend x) (owner_id x) uid n p flags; Some (st, with_volatile x b).

Definition backend_get x (nv : bool) (uid off n : Z) (p : option bytes) (k : Z)
    : option (Z * option bytes * Z * store_ctx) :=
  if nv then
    '(st, p, k, b) ← sb_get IP (persistent_backend x) (owner_id x) uid off n p k; Some (st, p, k, with_persistent x b)
  else '(st, p, k, b) ← sb_get IW (volatile_backend x) (owner_id x) uid off n p k; Some (st, p, k, with_volatile x b).

Definition backend_get_info x (nv : bool) (uid : Z) (i : psa_storage_info_t)
    : option (Z * psa_storage_info_t * store_ctx) :=
  if nv then
    '(st, i, b) ← sb_get_info IP (persistent_backend x) (owner_id x) uid (Some i);
    i ← i; Some (st, i, with_persistent x b)
  else
    '(st, i, b) ← sb_get_info IW (volatile_backend x) (owner_id x) uid (Some i);
    i ← i; Some (st, i, with_volatile x b).

Definition backend_remove x (nv : bool) (uid : Z) : option (Z * store_ctx) :=
  if nv then '(st, b) ← sb_remove IP (persistent_backend x) (owner_id x) uid; Some (st, with_persistent x b)
  else '(st, b) ← sb_remove IW (volatile_backend x) (owner_id x) uid; Some (st, with_volatile x b).

Definition backend_create x (uid room flags : Z) : option (Z * store_ctx) :=
  '(st, b) ← sb_create IP (persistent_backend x) (owner_id x) uid room flags; Some (st, with_persistent x b).

Definition backend_set_extended x (uid off n : Z) (p : option bytes) : option (Z * store_ctx) :=
  '(st, b) ← sb_set_extended IP (persistent_backend x) (owner_id x) uid off n p; Some (st, with_persistent x b).

(** ** The functions of the file *)

(** The delegate store is its [nv]. *)
Definition select_delegate_store (attributes : Z) : bool := has attributes EFI_VARIABLE_NON_VOLATILE.

Definition delegate_store x (nv : bool) : delegate_variable_store :=
  if nv then persistent_store x else volatile_store x.

Definition check_access_permitted context (info : variable_info) : Z :=
  let a := attributes (metadata info) in
  if is_variable_set info && has a (Z.lor EFI_VARIABLE_BOOTSERVICE_ACCESS EFI_VARIABLE_RUNTIME_ACCESS) then
    if is_boot_service context then
      if has a EFI_VARIABLE_BOOTSERVICE_ACCESS then EFI_SUCCESS else EFI_NOT_FOUND
    else if has a EFI_VARIABLE_RUNTIME_ACCESS then EFI_SUCCESS else EFI_NOT_FOUND
  else EFI_SUCCESS.

Definition check_access_permitted_on_set context (info : variable_info)
    (var : SMM_VARIABLE_COMMUNICATE_ACCESS_VARIABLE) : Z :=
  let status := check_access_permitted context info in
  if (status =? EFI_SUCCESS) && is_constraints_set info then
    variable_checker_check_on_set (check_constraints info) (av_Attributes var) (DataSize var)
  else status.

Definition store_overwrite x (nv : bool) (uid data_length : Z) (data : bytes) : option (Z * store_ctx) :=
  if data_length >? max_variable_size (delegate_store x nv) then Some (PSA_ERROR_INVALID_ARGUMENT, x)
  else backend_set x nv uid data_length (Some data) PSA_STORAGE_FLAG_NONE.

Definition store_append_write x (nv : bool) (uid data_length : Z) (data : bytes) : option (Z * store_ctx) :=
  if data_length =? 0 then Some (PSA_SUCCESS, x)
  else
    '(psa_status, storage_info, x) ← backend_get_info x nv uid uninitialised;
    if negb (psa_status =? PSA_SUCCESS) then Some (psa_status, x)
    else
      let new_size := u64 (si_size storage_info + data_length) in
      if new_size <? si_size storage_info then Some (PSA_ERROR_INVALID_ARGUMENT, x)
      else if new_size >? max_variable_size (delegate_store x nv) then Some (PSA_ERROR_INVALID_ARGUMENT, x)
      else if negb (malloc_ok new_size) then Some (PSA_ERROR_INSUFFICIENT_MEMORY, x)
      else
        '(psa_status, rw_buf, old_size, x) ← backend_get x nv uid 0 new_size (Some (junk new_size)) 0;
        if psa_status =? PSA_SUCCESS then
          if u64 (old_size + data_length) <=? new_size then
            b ← rw_buf;
            d ← load data 0 data_length;
            b ← store b old_size d;
            backend_set x nv uid (u64 (old_size + data_length)) (Some b) (si_flags storage_info)
          else Some (PSA_ERROR_STORAGE_FAILURE, x)
        else Some (psa_status, x).

(** The chunks of the index; the loop runs once for each RPC_CALLER_SESSION_SHARED_MEMORY_SIZE
    octets begun. *)
Fixpoint sync_loop (fuel : nat) x (uid data_offset remaining_data_len : Z) : option (Z * store_ctx) :=
  match fuel with
  | O => None
  | S fuel =>
      let data_of_this_iteration := Z.min remaining_data_len RPC_CALLER_SESSION_SHARED_MEMORY_SIZE in
      buffer ← index_sync_buffer x;
      '(psa_status, x) ← backend_set_extended x uid data_offset data_of_this_iteration
                           (Some (drop (Z.to_nat data_offset) buffer));
      if negb (psa_status =? PSA_SUCCESS) then Some (psa_status, x)
      else
        let remaining_data_len := remaining_data_len - data_of_this_iteration in
        if remaining_data_len =? 0 then Some (psa_status, x)
        else sync_loop fuel x uid (data_offset + RPC_CALLER_SESSION_SHARED_MEMORY_SIZE) remaining_data_len
  end.

(** The copy [next_index_uid] is written anew. *)
Definition write_index_copy x (next_index_uid remaining_data_len : Z) : option (Z * store_ctx) :=
  '(psa_status, x) ← backend_remove x true next_index_uid;
  if negb (psa_status =? PSA_SUCCESS) && negb (psa_status =? PSA_ERROR_DOES_NOT_EXIST) then Some (psa_status, x)
  else
    '(psa_status, x) ← backend_create x next_index_uid remaining_data_len PSA_STORAGE_FLAG_NONE;
    if negb (psa_status =? PSA_SUCCESS) then Some (psa_status, x)
    else sync_loop (S (Z.to_nat (remaining_data_len / RPC_CALLER_SESSION_SHARED_MEMORY_SIZE))) x next_index_uid 0
           remaining_data_len.

Definition sync_variable_index x : option (Z * store_ctx) :=
  buffer ← index_sync_buffer x;
  '(status, buffer, remaining_data_len, is_dirty, ix) ←
    variable_index_dump (variable_index_ x) (index_sync_buffer_size x) buffer;
  let x := with_index (with_buffer x (Some buffer)) ix in
  if negb (status =? EFI_SUCCESS) then Some (status, x)
  else if (is_dirty : bool) then
    if has_backend (persistent_store x) then
      let next_index_uid :=
        if active_variable_index_uid x =? SMM_VARIABLE_INDEX_STORAGE_A_UID
        then SMM_VARIABLE_INDEX_STORAGE_B_UID else SMM_VARIABLE_INDEX_STORAGE_A_UID in
      '(psa_status, x) ← write_index_copy x next_index_uid remaining_data_len;
      if negb (psa_status =? PSA_SUCCESS) then Some (psa_to_efi_storage_status psa_status, x)
      else
        Some (psa_to_efi_storage_status psa_status,
              with_active (with_index x (variable_index_confirm_write (variable_index_ x))) next_index_uid)
    else Some (EFI_LOAD_ERROR, x)
  else Some (psa_to_efi_storage_status PSA_SUCCESS, x).

(** One round of the loop below. *)
Definition purge_entry x (p : Z) (e : variable_entry) (any_orphans : bool) : option (bool * store_ctx) :=
  if is_variable_set (info e) && has (attributes (metadata (info e))) EFI_VARIABLE_NON_VOLATILE then
    assert! has_backend (persistent_store x) ;;
    '(psa_status, _, x) ← backend_get_info x true (uid (metadata (info e))) uninitialised;
    if negb (psa_status =? PSA_SUCCESS) then
      ix ← variable_index_clear_variable (variable_index_ x) (Some p);
      Some (true, with_index x ix)
    else Some (any_orphans, x)
  else Some (any_orphans, x).

(** The loop visits each entry of the index once. *)
Fixpoint purge_loop (fuel : nat) x (pos : Z) (any_orphans : bool) : option (bool * store_ctx) :=
  match variable_index_iterator_current (variable_index_ x) pos with
  | None => Some (any_orphans, x)
  | Some p =>
      match fuel with
      | O => None
      | S fuel =>
          e ← nthZ (entries (variable_index_ x)) p;
          '(any_orphans, x) ← purge_entry x p e any_orphans;
          next ← variable_index_iterator_next (variable_index_ x) pos;
          purge_loop fuel x next any_orphans
      end
  end.

Definition purge_orphan_index_entries x : option store_ctx :=
  pos ← variable_index_iterator_first (variable_index_ x);
  '(any_orphans, x) ← purge_loop (Z.to_nat (max_variables (variable_index_ x))) x pos false;
  if (any_orphans : bool) then '(_, x) ← sync_variable_index x; Some x else Some x.

(** [pos]: the entry of the variable. *)
Definition store_variable_data x (pos : Z) (var : SMM_VARIABLE_COMMUNICATE_ACCESS_VARIABLE)
    : option (Z * store_ctx) :=
  e ← nthZ (entries (variable_index_ x)) pos;
  let data_len := DataSize var in
  let data := drop (Z.to_nat (NameSize var)) (Name var) in
  let nv := select_delegate_store (attributes (metadata (info e))) in
  '(psa_status, x) ←
    (if has_backend (delegate_store x nv) then
       if negb (has (av_Attributes var) EFI_VARIABLE_APPEND_WRITE)
       then store_overwrite x nv (uid (metadata (info e))) data_len data
       else store_append_write x nv (uid (metadata (info e))) data_len data
     else Some (PSA_SUCCESS, x));
  x ← (if negb (psa_status =? PSA_SUCCESS) && is_nv (delegate_store x nv)
       then purge_orphan_index_entries x else Some x);
  Some (psa_to_efi_storage_status psa_status, x).

Definition remove_variable_data x (pos : Z) : option (Z * store_ctx) :=
  e ← nthZ (entries (variable_index_ x)) pos;
  if is_variable_set (info e) then
    let nv := select_delegate_store (attributes (metadata (info e))) in
    if has_backend (delegate_store x nv) then
      '(psa_status, x) ← backend_remove x nv (uid (metadata (info e)));
      Some (psa_to_efi_storage_status psa_status, x)
    else Some (psa_to_efi_storage_status PSA_SUCCESS, x)
  else Some (psa_to_efi_storage_status PSA_SUCCESS, x).

(** The data is written behind the name. *)
Definition load_variable_data x (e : variable_entry) (var : SMM_VARIABLE_COMMUNICATE_ACCESS_VARIABLE)
    (max_data_len : Z) : option (Z * SMM_VARIABLE_COMMUNICATE_ACCESS_VARIABLE * store_ctx) :=
  let with_size n := AccessVariable (Guid_ var) n (NameSize var) (av_Attributes var) (Name var) in
  let nv := select_delegate_store (attributes (metadata (info e))) in
  if has_backend (delegate_store x nv) then
    '(psa_status, storage_info, x) ← backend_get_info x nv (uid (metadata (info e))) uninitialised;
    if psa_status =? PSA_SUCCESS then
      let get_limit := if DataSize var <? max_data_len then DataSize var else max_data_len in
      if get_limit >=? si_size storage_info then
        '(psa_status, data, got_len, x) ←
          backend_get x nv (uid (metadata (info e))) 0 (si_size storage_info)
            (Some (drop (Z.to_nat (NameSize var)) (Name var))) 0;
        data ← data;
        Some (psa_to_efi_storage_status psa_status,
              AccessVariable (Guid_ var) got_len (NameSize var) (av_Attributes var)
                (take (Z.to_nat (NameSize var)) (Name var) ++ data), x)
      else Some (psa_to_efi_storage_status PSA_ERROR_BUFFER_TOO_SMALL, with_size (si_size storage_info), x)
    else Some (psa_to_efi_storage_status psa_status, var, x)
  else Some (psa_to_efi_storage_status PSA_SUCCESS, var, x).

(** The counter in a copy of the index; a copy without data is removed, [None] if that
    fails. *)
Definition read_copy_counter x (uid data_len : Z) : option (option Z * Z * Z * store_ctx) :=
  '(psa_status, c, data_len, x) ← backend_get x true uid 0 4 (Some (le_split 4 0)) data_len;
  c ← c;
  if (psa_status =? PSA_SUCCESS) && (data_len =? 0) then
    '(psa_status, x) ← backend_remove x true uid;
    Some (if psa_status =? PSA_SUCCESS then Some PSA_ERROR_DOES_NOT_EXIST else None, le_combine c, data_len, x)
  else Some (Some psa_status, le_combine c, data_len, x).

(** Returns the status, *active_index_uid and *counter. *)
Definition get_active_variable_uid x : option (Z * Z * Z * store_ctx) :=
  let A := SMM_VARIABLE_INDEX_STORAGE_A_UID in
  let B := SMM_VARIABLE_INDEX_STORAGE_B_UID in
  if has_backend (persistent_store x) then
    '(psa_status_A, counter_A, data_len, x) ← read_copy_counter x A 0;
    match psa_status_A with
    | None => Some (PSA_ERROR_STORAGE_FAILURE, A, 0, x)
    | Some psa_status_A =>
        '(psa_status_B, counter_B, _, x) ← read_copy_counter x B data_len;
        match psa_status_B with
        | None => Some (PSA_ERROR_STORAGE_FAILURE, A, 0, x)
        | Some psa_status_B =>
            if (negb (psa_status_A =? PSA_SUCCESS) && negb (psa_status_A =? PSA_ERROR_DOES_NOT_EXIST)) ||
               (negb (psa_status_B =? PSA_SUCCESS) && negb (psa_status_B =? PSA_ERROR_DOES_NOT_EXIST))
            then Some (PSA_ERROR_STORAGE_FAILURE, A, 0, x)
            else if psa_status_A =? PSA_ERROR_DOES_NOT_EXIST then
              if psa_status_B =? PSA_ERROR_DOES_NOT_EXIST then Some (PSA_ERROR_DOES_NOT_EXIST, A, 0, x)
              else Some (PSA_SUCCESS, B, counter_B, x)
            else if psa_status_B =? PSA_ERROR_DOES_NOT_EXIST then Some (PSA_SUCCESS, A, counter_A, x)
            else if u32 (counter_A + 1) =? counter_B then Some (PSA_SUCCESS, B, counter_B, x)
            else if u32 (counter_B + 1) =? counter_A then Some (PSA_SUCCESS, A, counter_A, x)
            else Some (PSA_ERROR_STORAGE_FAILURE, A, 0, x)
        end
    end
  else Some (PSA_ERROR_STORAGE_FAILURE, A, 0, x).

(** Returns the status, the number of octets loaded and the store. *)
Fixpoint load_loop (fuel : nat) x (data_offset data_len : Z) : option (Z * Z * store_ctx) :=
  match fuel with
  | O => None
  | S fuel =>
      buffer ← index_sync_buffer x;
      '(psa_status, chunk, data_len, x) ←
        backend_get x true (active_variable_index_uid x) data_offset RPC_CALLER_SESSION_SHARED_MEMORY_SIZE
          (Some (drop (Z.to_nat data_offset) buffer)) data_len;
      chunk ← chunk;
      let x := with_buffer x (Some (take (Z.to_nat data_offset) buffer ++ chunk)) in
      if negb (psa_status =? PSA_SUCCESS) then Some (EFI_LOAD_ERROR, data_offset, x)
      else
        let data_offset := data_offset + data_len in
        if data_len =? RPC_CALLER_SESSION_SHARED_MEMORY_SIZE then load_loop fuel x data_offset data_len
        else Some (EFI_SUCCESS, data_offset, x)
  end.

Definition load_variable_index x : option (Z * store_ctx) :=
  if has_backend (persistent_store x) then
    '(psa_status, active, c, x) ← get_active_variable_uid x;
    let ix := variable_index_ x in
    let x := with_active (with_index x (Index (max_variables ix) c (entries ix))) active in
    if psa_status =? PSA_SUCCESS then
      '(_, variable_index_info, x) ←
        backend_get_info x true (active_variable_index_uid x) (StorageInfo 0 0 0);
      if si_size variable_index_info >? index_sync_buffer_size x then Some (EFI_LOAD_ERROR, x)
      else
        '(status, data_offset, x) ←
          load_loop (S (S (Z.to_nat (index_sync_buffer_size x / RPC_CALLER_SESSION_SHARED_MEMORY_SIZE)))) x 0 0;
        if negb (status =? EFI_SUCCESS) then Some (status, x)
        else
          buffer ← index_sync_buffer x;
          '(_, ix) ← variable_index_restore (variable_index_ x) data_offset buffer;
          Some (EFI_SUCCESS, with_index x ix)
    else if psa_status =? PSA_ERROR_DOES_NOT_EXIST then Some (EFI_SUCCESS, x)
    else Some (EFI_LOAD_ERROR, x)
  else Some (EFI_LOAD_ERROR, x).

(** [context]: the memory before; [has_p], [has_w]: the backends are not NULL. *)
Definition uefi_variable_store_init context (owner max : Z) (has_p has_w : bool) : option (Z * store_ctx) :=
  let capacity := u64 (DEFAULT_MAX_VARIABLE_SIZE * max) in
  let '(status, ix) := variable_index_init malloc_ok max in
  let x := UefiStore true owner (index_sync_buffer context) (index_sync_buffer_size context)
             (active_variable_index_uid context) ix
             (DelegateStore true capacity DEFAULT_MAX_VARIABLE_SIZE has_p)
             (DelegateStore false capacity DEFAULT_MAX_VARIABLE_SIZE has_w)
             (persistent_backend context) (volatile_backend context) in
  if status =? EFI_SUCCESS then
    let size := variable_index_max_dump_size ix in
    let x := UefiStore true owner None size (active_variable_index_uid x) ix (persistent_store x)
               (volatile_store x) (persistent_backend x) (volatile_backend x) in
    if negb (size =? 0) then
      if malloc_ok size then
        '(status, x) ← load_variable_index (with_buffer x (Some (junk size)));
        if status =? EFI_SUCCESS then x ← purge_orphan_index_entries x; Some (status, x)
        else Some (status, x)
      else Some (EFI_OUT_OF_RESOURCES, x)
    else Some (EFI_INVALID_PARAMETER, x)
  else Some (status, x).

Definition uefi_variable_store_deinit x : store_ctx :=
  with_buffer (with_index x (variable_index_deinit (variable_index_ x))) None.

Definition uefi_variable_store_set_storage_limits x (attributes capacity max_size : Z) : store_ctx :=
  let limits d := DelegateStore (is_nv d) capacity max_size (has_backend d) in
  let nv := select_delegate_store attributes in
  UefiStore (is_boot_service x) (owner_id x) (index_sync_buffer x) (index_sync_buffer_size x)
    (active_variable_index_uid x) (variable_index_ x)
    (if nv then limits (persistent_store x) else persistent_store x)
    (if nv then volatile_store x else limits (volatile_store x)) (persistent_backend x) (volatile_backend x).

(** Whether a request for an existing variable deletes it. *)
Definition is_remove (var : SMM_VARIABLE_COMMUNICATE_ACCESS_VARIABLE) : bool :=
  negb (has (av_Attributes var) (Z.lor EFI_VARIABLE_BOOTSERVICE_ACCESS EFI_VARIABLE_RUNTIME_ACCESS)) ||
  (negb (has (av_Attributes var) (Z.lor EFI_VARIABLE_APPEND_WRITE EFI_VARIABLE_ENHANCED_AUTHENTICATED_ACCESS)) &&
   (DataSize var =? 0)).

(** The entry of the variable, found or added; the status if there is none. *)
Definition find_or_add x (var : SMM_VARIABLE_COMMUNICATE_ACCESS_VARIABLE) : option ((Z + Z) * store_ctx) :=
  p ← variable_index_find (variable_index_ x) (Guid_ var) (NameSize var) (Name var);
  match p with
  | Some pos => Some (inr pos, x)
  | None =>
      if negb (DataSize var =? 0) then
        '(p, ix) ← variable_index_add_entry (variable_index_ x) (Guid_ var) (NameSize var) (Name var);
        match p with
        | Some pos => Some (inr pos, with_index x ix)
        | None => Some (inl EFI_OUT_OF_RESOURCES, with_index x ix)
        end
      else Some (inl EFI_NOT_FOUND, x)
  end.

(** What is done with the index before it is saved: [inl] is a return, [inr] whether to
    save the index. *)
Definition apply_request x (pos : Z) (e : variable_entry) (var : SMM_VARIABLE_COMMUNICATE_ACCESS_VARIABLE)
    : option ((Z + bool) * store_ctx) :=
  if is_variable_set (info e) then
    if is_remove var then
      '(_, x) ← remove_variable_data x pos;
      ix ← variable_index_clear_variable (variable_index_ x) (Some pos);
      Some (inr (has (av_Attributes var) EFI_VARIABLE_NON_VOLATILE), with_index x ix)
    else
      let a := attributes (metadata (info e)) in
      if negb (Z.lor a EFI_VARIABLE_APPEND_WRITE =? Z.lor (av_Attributes var) EFI_VARIABLE_APPEND_WRITE) then
        Some (inl EFI_INVALID_PARAMETER, x)
      else if negb (Z.land (av_Attributes var) (Z.lxor (2 ^ 32 - 1) EFI_VARIABLE_APPEND_WRITE) =? a) then
        Some (inl EFI_INVALID_PARAMETER, x)
      else Some (inr false, x)
  else if negb (DataSize var =? 0) then
    ix ← variable_index_set_variable (variable_index_ x) pos (av_Attributes var);
    Some (inr (has (av_Attributes var) EFI_VARIABLE_NON_VOLATILE), with_index x ix)
  else Some (inl EFI_NOT_FOUND, x).

(** The end of an update that was allowed: the index is saved first, then the data.  The
    time stamp and the fingerprint that are copied back are those of the entry. *)
Definition save_and_store x (pos : Z) (var : SMM_VARIABLE_COMMUNICATE_ACCESS_VARIABLE) (should_sync_index : bool)
    : option (Z * store_ctx) :=
  '(status, x) ← (if should_sync_index then sync_variable_index x else Some (EFI_SUCCESS, x));
  e ← nthZ (entries (variable_index_ x)) pos;
  if is_variable_set (info e) && (status =? EFI_SUCCESS) then store_variable_data x pos var else Some (status, x).

(** What follows when access is permitted. *)
Definition update_variable x (pos : Z) (e : variable_entry) (var : SMM_VARIABLE_COMMUNICATE_ACCESS_VARIABLE)
    : option (Z * store_ctx) :=
  '(applied, x) ← apply_request x pos e var;
  match applied with
  | inl status => Some (status, x)
  | inr should_sync_index =>
      '(status, x) ← save_and_store x pos var should_sync_index;
      ix ← variable_index_remove_unused_entry (variable_index_ x) (Some pos);
      Some (status, with_index x ix)
  end.

Definition uefi_variable_store_set_variable x (var : SMM_VARIABLE_COMMUNICATE_ACCESS_VARIABLE)
    : option (Z * store_ctx) :=
  status ← check_name_terminator (Name var) (NameSize var);
  if negb (status =? EFI_SUCCESS) then Some (status, x)
  else if negb (check_capabilities var =? EFI_SUCCESS) then Some (check_capabilities var, x)
  else
    '(found, x) ← find_or_add x var;
    match found with
    | inl status => Some (status, x)
    | inr pos =>
        e ← nthZ (entries (variable_index_ x)) pos;
        let status := check_access_permitted_on_set x (info e) var in
        if status =? EFI_SUCCESS then update_variable x pos e var
        else
          ix ← variable_index_remove_unused_entry (variable_index_ x) (Some pos);
          Some (status, with_index x ix)
    end.

(** Returns the status, the variable, *total_length and the store. *)
Definition uefi_variable_store_get_variable x (var : SMM_VARIABLE_COMMUNICATE_ACCESS_VARIABLE)
    (max_data_len total_length : Z) : option (Z * SMM_VARIABLE_COMMUNICATE_ACCESS_VARIABLE * Z * store_ctx) :=
  status ← check_name_terminator (Name var) (NameSize var);
  if negb (status =? EFI_SUCCESS) then Some (status, var, total_length, x)
  else
    p ← variable_index_find (variable_index_ x) (Guid_ var) (NameSize var) (Name var);
    match p with
    | None => Some (EFI_NOT_FOUND, var, 0, x)
    | Some pos =>
        e ← nthZ (entries (variable_index_ x)) pos;
        if is_variable_set (info e) then
          let status := check_access_permitted x (info e) in
          if status =? EFI_SUCCESS then
            '(status, var, x) ← load_variable_data x e var max_data_len;
            let var := AccessVariable (Guid_ var) (DataSize var) (NameSize var) (attributes (metadata (info e)))
                         (Name var) in
            let total_length :=
              if status =? EFI_SUCCESS then u64 (ACCESS_VARIABLE_NAME_OFFSET + NameSize var + DataSize var)
              else if status =? EFI_BUFFER_TOO_SMALL then u64 (ACCESS_VARIABLE_NAME_OFFSET + NameSize var)
              else 0 in
            Some (status, var, total_length, x)
          else Some (status, var, 0, x)
        else Some (EFI_NOT_FOUND, var, 0, x)
    end.

(** The index of the first null character among the first [n] ones. *)
Fixpoint find_null (n : nat) (name : bytes) (i : Z) : option (option Z) :=
  match n with
  | O => Some None
  | S n =>
      c ← get_uint name (2 * i) 2;
      if c =? 0 then Some (Some i) else find_null n name (i + 1)
  end.

(** while (1): each round moves to a later entry of the index, unless the name of a variable
    begins with a null character. *)
Fixpoint next_name_loop (fuel : nat) x (buffer_size : Z)
    (cur : SMM_VARIABLE_COMMUNICATE_GET_NEXT_VARIABLE_NAME)
    : option (Z * SMM_VARIABLE_COMMUNICATE_GET_NEXT_VARIABLE_NAME) :=
  match fuel with
  | O => None
  | S fuel =>
      '(p, status) ← variable_index_find_next (variable_index_ x) (next_Guid cur) (next_NameSize cur) (next_Name cur);
      match p with
      | Some pos =>
          if status =? EFI_SUCCESS then
            e ← nthZ (entries (variable_index_ x)) pos;
            let m := metadata (info e) in
            if name_size m <=? buffer_size then
              nm ← load (name m) 0 (name_size m);
              nm ← store (next_Name cur) 0 nm;
              let cur := NextVariableName (guid m) (name_size m) nm in
              let status := check_access_permitted x (info e) in
              if status =? EFI_SUCCESS then Some (status, cur) else next_name_loop fuel x buffer_size cur
            else
              nm ← store (next_Name cur) 0 (fill 0 buffer_size);
              Some (EFI_BUFFER_TOO_SMALL, NextVariableName (Guid 0 0 0 (fill 0 8)) (name_size m) nm)
          else
            nm ← store (next_Name cur) 0 (fill 0 buffer_size);
            Some (status, NextVariableName (Guid 0 0 0 (fill 0 8)) 0 nm)
      | None =>
          nm ← store (next_Name cur) 0 (fill 0 buffer_size);
          Some (if status =? EFI_SUCCESS then EFI_NOT_FOUND else status, NextVariableName (Guid 0 0 0 (fill 0 8)) 0 nm)
      end
  end.

(** Returns the status, the name and *total_length. *)
Definition uefi_variable_store_get_next_variable_name x
    (cur : option SMM_VARIABLE_COMMUNICATE_GET_NEXT_VARIABLE_NAME) (total_length : Z)
    : option (Z * option SMM_VARIABLE_COMMUNICATE_GET_NEXT_VARIABLE_NAME * Z) :=
  match cur with
  | None => Some (EFI_INVALID_PARAMETER, None, total_length)
  | Some cur =>
      let buffer_size := next_NameSize cur in
      z ← find_null (Z.to_nat (buffer_size / 2)) (next_Name cur) 0;
      let cur := match z with
                 | Some i => NextVariableName (next_Guid cur) (2 * (i + 1)) (next_Name cur)
                 | None => cur
                 end in
      status ← check_name_terminator (next_Name cur) (next_NameSize cur);
      if negb (status =? EFI_SUCCESS) then Some (status, Some cur, total_length)
      else
        '(status, cur) ← next_name_loop (S (Z.to_nat (max_variables (variable_index_ x)))) x buffer_size cur;
        Some (status, Some cur,
              if status =? EFI_SUCCESS then u64 (NEXT_VARIABLE_NAME_NAME_OFFSET + next_NameSize cur)
              else NEXT_VARIABLE_NAME_NAME_OFFSET)
  end.

Fixpoint space_used_loop (fuel : nat) x (attrs : Z) (nv : bool) (pos total_used : Z) : option (Z * store_ctx) :=
  match variable_index_iterator_current (variable_index_ x) pos with
  | None => Some (total_used, x)
  | Some p =>
      match fuel with
      | O => None
      | S fuel =>
          e ← nthZ (entries (variable_index_ x)) p;
          '(total_used, x) ←
            (if is_variable_set (info e) &&
                (Z.land (attributes (metadata (info e))) EFI_VARIABLE_NON_VOLATILE =?
                 Z.land attrs EFI_VARIABLE_NON_VOLATILE) then
               '(psa_status, storage_info, x) ← backend_get_info x nv (uid (metadata (info e))) uninitialised;
               Some (if psa_status =? PSA_SUCCESS then u64 (total_used + si_size storage_info) else total_used, x)
             else Some (total_used, x));
          next ← variable_index_iterator_next (variable_index_ x) pos;
          space_used_loop fuel x attrs nv next total_used
      end
  end.

(** [nv]: the delegate store whose backend is given. *)
Definition space_used x (attrs : Z) (nv : bool) : option (Z * store_ctx) :=
  if negb (has_backend (delegate_store x nv)) then Some (0, x)
  else
    pos ← variable_index_iterator_first (variable_index_ x);
    space_used_loop (Z.to_nat (max_variables (variable_index_ x))) x attrs nv pos 0.

Definition uefi_variable_store_query_variable_info x (var_info : SMM_VARIABLE_COMMUNICATE_QUERY_VARIABLE_INFO)
    : option (Z * SMM_VARIABLE_COMMUNICATE_QUERY_VARIABLE_INFO * store_ctx) :=
  let nv := select_delegate_store (query_Attributes var_info) in
  '(total_used, x) ← space_used x (query_Attributes var_info) nv;
  let d := delegate_store x nv in
  Some (EFI_SUCCESS,
        QueryVariableInfo (total_capacity d)
          (if total_used <? total_capacity d then total_capacity d - total_used else 0) (max_variable_size d)
          (query_Attributes var_info), x).

Definition uefi_variable_store_exit_boot_service x : Z * store_ctx :=
  (EFI_SUCCESS,
   UefiStore false (owner_id x) (index_sync_buffer x) (index_sync_buffer_size x) (active_variable_index_uid x)
     (variable_index_ x) (persistent_store x) (volatile_store x) (persistent_backend x) (volatile_backend x)).

Definition uefi_variable_store_set_var_check_property x
    (prop : SMM_VARIABLE_COMMUNICATE_VAR_CHECK_VARIABLE_PROPERTY) : option (Z * store_ctx) :=
  status ← check_name_terminator (check_Name prop) (check_NameSize prop);
  if negb (status =? EFI_SUCCESS) then Some (status, x)
  else
    p ← variable_index_find (variable_index_ x) (check_Guid prop) (check_NameSize prop) (check_Name prop);
    '(p, x) ← match p with
              | Some pos => Some (Some pos, x)
              | None =>
                  '(p, ix) ← variable_index_add_entry (variable_index_ x) (check_Guid prop) (check_NameSize prop)
                               (check_Name prop);
                  Some (p, with_index x ix)
              end;
    match p with
    | None => Some (EFI_OUT_OF_RESOURCES, x)
    | Some pos =>
        e ← nthZ (entries (variable_index_ x)) pos;
        let '(status, constraints) :=
          variable_checker_set_constraints (check_constraints (info e)) (is_constraints_set (info e))
            (VariableProperty prop) in
        '(status, x) ←
          (if status =? EFI_SUCCESS then
             ix ← variable_index_set_constraints (variable_index_ x) (Some pos) constraints;
             sync_variable_index (with_index x ix)
           else Some (status, x));
        ix ← variable_index_remove_unused_entry (variable_index_ x) (Some pos);
        Some (status, with_index x ix)
    end.

(** Returns the status and the property. *)
Definition uefi_variable_store_get_var_check_property x
    (prop : SMM_VARIABLE_COMMUNICATE_VAR_CHECK_VARIABLE_PROPERTY)
    : option (Z * SMM_VARIABLE_COMMUNICATE_VAR_CHECK_VARIABLE_PROPERTY) :=
  status ← check_name_terminator (check_Name prop) (check_NameSize prop);
  if negb (status =? EFI_SUCCESS) then Some (status, prop)
  else
    p ← variable_index_find (variable_index_ x) (check_Guid prop) (check_NameSize prop) (check_Name prop);
    match p with
    | None => Some (EFI_NOT_FOUND, prop)
    | Some pos =>
        e ← nthZ (entries (variable_index_ x)) pos;
        if is_constraints_set (info e) then
          Some (EFI_SUCCESS,
                CheckVariableProperty (check_Guid prop) (check_NameSize prop)
                  (variable_checker_get_constraints (check_constraints (info e))) (check_Name prop))
        else Some (EFI_NOT_FOUND, prop)
    end.


End Store.
