(* ===== verification/UefiStoreSpec.v ===== *)
(** * The UEFI variable store as a map from names to attributes and data

    The contents of a store are what its index and its backends say together.  The lemmas
    follow the functions of uefi_variable_store.c from the backends up. *)
From S2P Require Import Prelude Status StorageBackend VariableIndex VariableStorage UefiStore.

Abbreviation vars ix := (variables (entries ix)).

(** The backend a variable's data is in. *)
Definition nv_of (v : variable) : bool := has (v_attributes v) EFI_VARIABLE_NON_VOLATILE.

(** Everything of a store but what is in its backends. *)
Definition shell {P W} (x : uefi_variable_store P W) :=
  (is_boot_service x, owner_id x, index_sync_buffer x, index_sync_buffer_size x, active_variable_index_uid x,
   variable_index_ x, persistent_store x, volatile_store x).

Section Store.
Context {P W : Type} {IP : storage_backend_interface P} {IW : storage_backend_interface W}.
Context {VP : storage_view P} {VW : storage_view W} `{!StorageLaws IP VP} `{!StorageLaws IW VW}.
Abbreviation store_ctx := (uefi_variable_store P W).
Implicit Types x y : store_ctx.

(** ** The assets of a store *)

Definition asset_of x (nv : bool) (u : Z) : option asset :=
  if nv then sv_asset VP (persistent_backend x) (owner_id x) u
  else sv_asset VW (volatile_backend x) (owner_id x) u.

Definition backends_ok x : Prop := sv_ok VP (persistent_backend x) /\ sv_ok VW (volatile_backend x).

Definition still x y : Prop := forall nv u, asset_of y nv u = asset_of x nv u.
Definition moved x y (nv : bool) (u : Z) (a : option asset) : Prop :=
  asset_of y nv u = a /\ forall nv' u', (nv', u') <> (nv, u) -> asset_of y nv' u' = asset_of x nv' u'.

(** A call of a backend changes the backend. *)
Definition called x y : Prop := shell y = shell x /\ backends_ok y.

Lemma called_refl x : backends_ok x -> called x x.
Proof. done. Qed.
Lemma called_trans x y z : called x y -> called y z -> called x z.
Proof. unfold called. intros [-> _] [-> ?]. done. Qed.
Lemma still_refl x : still x x.
Proof. done. Qed.
Lemma still_trans x y z : still x y -> still y z -> still x z.
Proof. intros H1 H2 nv u. by rewrite H2. Qed.
Lemma still_moved x y z nv u a : still x y -> moved y z nv u a -> moved x z nv u a.
Proof. intros H1 [H2 H3]. split; [done|]. intros. by rewrite H3. Qed.

Lemma moved_persistent x p u a :
  updated VP (persistent_backend x) p (owner_id x) u a -> moved x (with_persistent x p) true u a.
Proof. intros [H1 H2]. split; [done|]. intros [|] u' Hne; [|done]. apply H2. congruence. Qed.
Lemma moved_volatile x w u a :
  updated VW (volatile_backend x) w (owner_id x) u a -> moved x (with_volatile x w) false u a.
Proof. intros [H1 H2]. split; [done|]. intros [|] u' Hne; [done|]. apply H2. congruence. Qed.
Lemma still_persistent x p : unchanged VP (persistent_backend x) p -> still x (with_persistent x p).
Proof. intros H [|] u; [apply H|done]. Qed.
Lemma still_volatile x w : unchanged VW (volatile_backend x) w -> still x (with_volatile x w).
Proof. intros H [|] u; [done|apply H]. Qed.

Hint Resolve moved_persistent moved_volatile still_persistent still_volatile : core.

Lemma backend_set_ok x nv u n p flags data :
  backends_ok x -> fits 64 u -> fits 64 n -> fits 32 flags -> copy_in p n = Some data ->
  exists st y, backend_set IP IW x nv u n p flags = Some (st, y) /\ called x y /\
    ((st = PSA_SUCCESS /\ exists room, moved x y nv u (Some (Asset flags room data))) \/
     (st <> PSA_SUCCESS /\ still x y)).
Proof.
  intros [HP HW] Hu Hn Hf Hd. destruct nv; simpl.
  - destruct (law_set (persistent_backend x) (owner_id x) u n p flags data HP Hu Hn Hf Hd)
      as (st & d & -> & Hok & _ & H). cbn [mbind option_bind]. eexists _, _. split; [done|]. split; [done|].
    destruct H as [(-> & _ & _ & room & H)|[Hst H]]; [left|right]; eauto.
  - destruct (law_set (volatile_backend x) (owner_id x) u n p flags data HW Hu Hn Hf Hd)
      as (st & d & -> & Hok & _ & H). cbn [mbind option_bind]. eexists _, _. split; [done|]. split; [done|].
    destruct H as [(-> & _ & _ & room & H)|[Hst H]]; [left|right]; eauto.
Qed.

Definition limit (nv : bool) : Z := if nv then sv_limit VP else sv_limit VW.

Lemma backend_get_ok x nv u off n b k :
  backends_ok x -> fits 64 u -> fits 64 off -> fits 64 n ->
  (0 < n -> forall a, asset_of x nv u = Some a -> Z.min (len (a_data a) - off) n <= len b) ->
  exists st b' k' y, backend_get IP IW x nv u off n (Some b) k = Some (st, Some b', k', y) /\ called x y /\
    still x y /\ len b' = len b /\
    match asset_of x nv u with
    | Some a =>
        (off <= len (a_data a) -> n <= limit nv -> st = PSA_SUCCESS) /\
        (st = PSA_SUCCESS -> off <= len (a_data a) /\ k' = Z.min (len (a_data a) - off) n /\
           copy_out (Some b) (slice (a_data a) off k') = Some (Some b'))
    | None => st <> PSA_SUCCESS /\ (u <> 0 -> n <= limit nv -> st = PSA_ERROR_DOES_NOT_EXIST)
    end /\ (st <> PSA_SUCCESS -> k' = k \/ k' = 0).
Proof.
  intros [HP HW] Hu Ho Hn Hb. destruct nv; simpl in *.
  - destruct (law_get (persistent_backend x) (owner_id x) u off n (Some b) k HP Hu Ho Hn)
      as (st & p' & k' & d & -> & Hok & Hun & _ & Hlen & H); [eauto|]. cbn [mbind option_bind].
    destruct p' as [b'|]; [|done]. injection Hlen as Hlen. eexists _, _, _, _. split; [done|]. split; [done|].
    split; [eauto|]. split; [done|]. exact H.
  - destruct (law_get (volatile_backend x) (owner_id x) u off n (Some b) k HW Hu Ho Hn)
      as (st & p' & k' & d & -> & Hok & Hun & _ & Hlen & H); [eauto|]. cbn [mbind option_bind].
    destruct p' as [b'|]; [|done]. injection Hlen as Hlen. eexists _, _, _, _. split; [done|]. split; [done|].
    split; [eauto|]. split; [done|]. exact H.
Qed.

Lemma backend_get_info_ok x nv u i :
  backends_ok x -> fits 64 u ->
  exists st i' y, backend_get_info IP IW x nv u i = Some (st, i', y) /\ called x y /\ still x y /\
    match asset_of x nv u with
    | Some a => st = PSA_SUCCESS /\ si_size i' = u32 (len (a_data a)) /\ si_flags i' = a_flags a
    | None => st <> PSA_SUCCESS /\ (u <> 0 -> st = PSA_ERROR_DOES_NOT_EXIST)
    end.
Proof.
  intros [HP HW] Hu. destruct nv; simpl in *.
  - destruct (law_get_info (persistent_backend x) (owner_id x) u i HP Hu)
      as (st & i' & d & -> & Hok & Hun & _ & H). cbn [mbind option_bind]. eexists _, _, _. split; [done|].
    split; [done|]. split; [eauto|]. destruct (sv_asset _ _ _ _); [|done]. by destruct H as (? & ? & ? & _).
  - destruct (law_get_info (volatile_backend x) (owner_id x) u i HW Hu)
      as (st & i' & d & -> & Hok & Hun & _ & H). cbn [mbind option_bind]. eexists _, _, _. split; [done|].
    split; [done|]. split; [eauto|]. destruct (sv_asset _ _ _ _); [|done]. by destruct H as (? & ? & ? & _).
Qed.

Lemma backend_remove_ok x nv u :
  backends_ok x -> fits 64 u ->
  exists st y, backend_remove IP IW x nv u = Some (st, y) /\ called x y /\
    match asset_of x nv u with
    | Some a => if write_once a then st <> PSA_SUCCESS /\ still x y else st = PSA_SUCCESS /\ moved x y nv u None
    | None => st <> PSA_SUCCESS /\ still x y /\ (u <> 0 -> st = PSA_ERROR_DOES_NOT_EXIST)
    end.
Proof.
  intros [HP HW] Hu. destruct nv; simpl in *.
  - destruct (law_remove (persistent_backend x) (owner_id x) u HP Hu) as (st & d & -> & Hok & _ & H).
    cbn [mbind option_bind]. eexists _, _. split; [done|]. split; [done|].
    destruct (sv_asset _ _ _ _) as [a|]; [destruct (write_once a)|]; destruct H as (? & Hn); [eauto..|]. destruct Hn; eauto.
  - destruct (law_remove (volatile_backend x) (owner_id x) u HW Hu) as (st & d & -> & Hok & _ & H).
    cbn [mbind option_bind]. eexists _, _. split; [done|]. split; [done|].
    destruct (sv_asset _ _ _ _) as [a|]; [destruct (write_once a)|]; destruct H as (? & Hn); [eauto..|]. destruct Hn; eauto.
Qed.

(** The data of an asset, if it can be read at all. *)
Lemma asset_bounds x nv u a :
  backends_ok x -> asset_of x nv u = Some a -> fits 32 (a_flags a) /\ len (a_data a) < 2 ^ 64.
Proof.
  intros [HP HW] Ha. assert (asset_ok a) as (? & ?).
  { destruct nv; simpl in Ha; [by eapply law_asset in Ha|by eapply law_asset in Ha]. }
  split; [done|lia].
Qed.

Lemma called_delegate x y nv : called x y -> delegate_store y nv = delegate_store x nv.
Proof. intros [[=] _]. unfold delegate_store. by destruct nv. Qed.

(** ** Writing the data of a variable *)

Context {malloc_ok : Z -> bool} {junk : Z -> bytes} {uninitialised : psa_storage_info_t}.
Context (Hjunk : forall n, 0 <= n -> len (junk n) = n).

(** An asset the store can handle. *)
Definition plain (a : asset) : Prop := write_once a = false /\ len (a_data a) < 2 ^ 32.
Definition limits_ok x : Prop := forall nv, max_variable_size (delegate_store x nv) < 2 ^ 32.

(** Afterwards the data is [d], or nothing has changed. *)
Definition written x y nv u st (d : bytes) : Prop :=
  called x y /\
  ((st = PSA_SUCCESS /\ exists a, plain a /\ a_data a = d /\ moved x y nv u (Some a)) \/
   (st <> PSA_SUCCESS /\ still x y)).

Lemma store_overwrite_ok x nv u n data :
  backends_ok x -> limits_ok x -> fits 64 u -> fits 64 n -> n <= len data ->
  exists st y, store_overwrite IP IW x nv u n data = Some (st, y) /\ written x y nv u st (slice data 0 n).
Proof.
  intros Hok Hlim Hu Hn Hd. unfold store_overwrite. specialize (Hlim nv).
  destruct (Z.gtb_spec n (max_variable_size (delegate_store x nv))).
  { exists PSA_ERROR_INVALID_ARGUMENT, x. split; [done|]. split; [done|]. by right. }
  assert (copy_in (Some data) n = Some (slice data 0 n)) as Hcopy.
  { unfold copy_in. destruct (Z.eqb_spec n 0) as [->|]; [by rewrite slice_nil|].
    unfold fits in Hn. by apply load_is_slice; lia. }
  destruct (backend_set_ok x nv u n (Some data) PSA_STORAGE_FLAG_NONE _ Hok Hu Hn ltac:(done) Hcopy)
    as (st & y & -> & Hc & [[-> [room H1]]|[Hst Hs]]); eexists _, _; (split; [done|]); (split; [done|]); [left|by right].
  split; [done|]. eexists. split; [|split; [|exact H1]]; [|done]. split; [done|]. simpl.
  unfold fits in Hn. rewrite slice_len by lia. lia.
Qed.

Lemma copy_out_inv b d b' : copy_out (Some b) d = Some (Some b') -> store b 0 d = Some b'.
Proof.
  unfold copy_out. destruct (Z.eqb_spec (len d) 0) as [Hz|]; cbn [mbind option_bind].
  - intros [= ->]. assert (d = []) as -> by (apply nil_length_inv; unfold len in Hz; lia).
    apply store_nil. pose proof (len_nonneg b'). lia.
  - by intros (b1 & -> & [= ->])%bind_Some.
Qed.

Lemma copy_in_whole d n : len d = n -> copy_in (Some d) n = Some d.
Proof.
  intros <-. unfold copy_in. destruct (Z.eqb_spec (len d) 0) as [Hz|]; cbn [mbind option_bind]; [|apply load_all].
  f_equal. symmetry. apply nil_length_inv. unfold len in Hz. lia.
Qed.

(** Two parts that fill a buffer. *)
Lemma store_append b0 a d b :
  len b0 = len a + len d -> store b0 0 a = Some b -> store b (len a) d = Some (a ++ d).
Proof.
  intros Hl Hb. pose proof (store_app b0 0 a d) as H. rewrite Hb in H. cbn [mbind option_bind] in H.
  rewrite Z.add_0_l in H. rewrite H. destruct (store_ok b0 0 (a ++ d)) as [b' Hb']; [done|rewrite len_app; lia|].
  rewrite Hb'. f_equal. apply store_Some in Hb' as (_ & _ & ->). simpl.
  rewrite drop_ge, app_nil_r; [done|]. rewrite len_app. unfold len in *. lia.
Qed.

Lemma store_append_ok x nv u n data :
  backends_ok x -> limits_ok x -> fits 64 u -> 0 < n -> n < 2 ^ 64 -> n <= len data ->
  match asset_of x nv u with
  | Some a => plain a ->
      exists st y, store_append_write IP IW malloc_ok junk uninitialised x nv u n data = Some (st, y) /\
        written x y nv u st (a_data a ++ slice data 0 n)
  | None =>
      exists st y, store_append_write IP IW malloc_ok junk uninitialised x nv u n data = Some (st, y) /\
        st <> PSA_SUCCESS /\ called x y /\ still x y
  end.
Proof.
  intros Hok Hlim Hu Hn0 Hn Hd. unfold store_append_write. destruct (Z.eqb_spec n 0); [lia|].
  destruct (backend_get_info_ok x nv u uninitialised Hok Hu) as (st & i & y & -> & Hc & Hs & Hi).
  cbn [mbind option_bind]. destruct (asset_of x nv u) as [a|] eqn:Ha.
  2:{ destruct Hi as [Hst _]. destruct (Z.eqb_spec st PSA_SUCCESS); [done|]. eauto 6. }
  intros [Hw Hlen]. destruct Hi as (-> & Hsz & Hfl). simpl Z.eqb. cbv match. simpl negb. cbv match.
  pose proof (len_nonneg (a_data a)). rewrite wrap_small in Hsz by lia. rewrite Hsz.
  assert (forall st, st <> PSA_SUCCESS -> written x y nv u st (a_data a ++ slice data 0 n)) as Hfail.
  { intros st' Hst. split; [done|]. by right. }
  destruct (Z.ltb_spec (u64 (len (a_data a) + n)) (len (a_data a))); [eexists _, _; split; [done|]; by apply Hfail|].
  rewrite (called_delegate x y nv Hc). specialize (Hlim nv).
  destruct (Z.gtb_spec (u64 (len (a_data a) + n)) (max_variable_size (delegate_store x nv)));
    [eexists _, _; split; [done|]; by apply Hfail|].
  assert (u64 (len (a_data a) + n) = len (a_data a) + n) as Hnew.
  { unfold wrap in *. destruct (Z.lt_ge_cases (len (a_data a) + n) (2 ^ 64)); [apply Z.mod_small; lia|].
    assert ((len (a_data a) + n) mod 2 ^ 64 = len (a_data a) + n - 2 ^ 64) as Hw'.
    { symmetry. apply (Z.mod_unique _ _ 1); lia. } lia. }
  rewrite Hnew in *. destruct (malloc_ok _); [|eexists _, _; split; [done|]; by apply Hfail]. simpl negb. cbv match.
  set (m := len (a_data a) + n) in *.
  destruct (backend_get_ok y nv u 0 m (junk m) 0) as (st & b & k & z & -> & Hc2 & Hs2 & Hlb & Hg & _);
    [apply Hc|done|done|unfold fits; lia|intros; rewrite Hjunk; lia|].
  cbn [mbind option_bind]. rewrite Hs, Ha in Hg. destruct Hg as [_ Hg].
  assert (called x z) as Hcz by by eapply called_trans. assert (still x z) as Hsz2 by by eapply still_trans.
  destruct (Z.eqb_spec st PSA_SUCCESS) as [->|Hst]; [|eexists _, _; split; [done|]; split; [done|by right]].
  destruct (Hg eq_refl) as (_ & -> & Hcp). rewrite Z.sub_0_r, Z.min_l in * by lia. fold m. rewrite Hnew, slice_all in *.
  destruct (Z.leb_spec m m); [|lia]. cbn [mbind option_bind]. rewrite load_is_slice by lia. cbn [mbind option_bind].
  rewrite Hjunk in Hlb by lia. apply copy_out_inv in Hcp.
  rewrite (store_append (junk m) (a_data a) (slice data 0 n) b) by (rewrite ?slice_len, ?Hjunk by lia; done).
  cbn [mbind option_bind].
  destruct (backend_set_ok z nv u m (Some (a_data a ++ slice data 0 n)) (si_flags i) (a_data a ++ slice data 0 n))
    as (st & w & -> & Hc3 & H3); [apply Hcz|done|unfold fits; lia| | |].
  { rewrite Hfl. by destruct (asset_bounds x nv u a Hok Ha). }
  { apply copy_in_whole. rewrite len_app, slice_len by lia. done. }
  eexists _, _. split; [done|]. split; [by eapply called_trans|].
  destruct H3 as [[-> [room H3]]|[Hst H3]]; [left|right; split; [done|]; by eapply still_trans].
  split; [done|]. eexists. split; [|split; [|by eapply still_moved]]; [|done].
  rewrite Hfl. split; [done|]. simpl. rewrite len_app, slice_len by lia. fold m. lia.
Qed.

(** ** The invariant *)

Definition A_UID := SMM_VARIABLE_INDEX_STORAGE_A_UID.
Definition B_UID := SMM_VARIABLE_INDEX_STORAGE_B_UID.

(** The data of the variable with key [k]. *)
Definition contents x (k : key) : option (Z * bytes) :=
  v ← vars (variable_index_ x) !! k;
  if v_set v then a ← asset_of x (nv_of v) (v_uid v); Some (v_attributes v, a_data a) else None.

(** Every asset under the identifier of a variable is that variable's. *)
Definition owned x : Prop :=
  forall nv u a, 1 <= u <= max_variables (variable_index_ x) -> asset_of x nv u = Some a ->
    plain a /\ exists k v, vars (variable_index_ x) !! k = Some v /\ v_set v = true /\ nv_of v = nv /\ v_uid v = u.

(** What no operation changes. *)
Definition config x :=
  (owner_id x, index_sync_buffer_size x, persistent_store x, volatile_store x, max_variables (variable_index_ x),
   len <$> index_sync_buffer x).

Record config_ok x : Prop := {
  co_max : 1 <= max_variables (variable_index_ x);
  co_limits : limits_ok x;
  co_persistent : has_backend (persistent_store x) = true /\ is_nv (persistent_store x) = true;
  co_volatile : has_backend (volatile_store x) = true /\ is_nv (volatile_store x) = false;
  co_size : index_sync_buffer_size x = variable_index_max_dump_size (variable_index_ x);
  co_buffer : len <$> index_sync_buffer x = Some (index_sync_buffer_size x)
}.

Record store_inv x : Prop := {
  si_config : config_ok x;
  si_index : index_ok (variable_index_ x);
  si_backends : backends_ok x;
  si_owned : owned x
}.

Lemma config_ok_same x y : config y = config x -> config_ok x -> config_ok y.
Proof.
  unfold config. intros [= _ Hs Hp Hv Hm Hb] [H1 H2 H3 H4 H5 H6]. split.
  - by rewrite Hm.
  - intros nv. specialize (H2 nv). unfold delegate_store in *. by rewrite Hp, Hv.
  - by rewrite Hp.
  - by rewrite Hv.
  - rewrite Hs, H5. unfold variable_index_max_dump_size. by rewrite Hm.
  - by rewrite Hb, Hs.
Qed.

Lemma called_config x y : called x y -> config y = config x.
Proof. intros [[=] _]. unfold config. congruence. Qed.

Lemma contents_same x y :
  vars (variable_index_ y) = vars (variable_index_ x) ->
  (forall nv u, 1 <= u <= max_variables (variable_index_ x) -> asset_of y nv u = asset_of x nv u) ->
  index_ok (variable_index_ x) -> forall k, contents y k = contents x k.
Proof.
  intros Hv Ha Hok k. unfold contents. rewrite Hv. destruct (vars (variable_index_ x) !! k) as [v|] eqn:Hk; [|done].
  simpl. by rewrite Ha by by eapply uid_range.
Qed.

(** ** Saving the index *)

Lemma psa_to_efi_success st : psa_to_efi_storage_status st = EFI_SUCCESS -> st = PSA_SUCCESS.
Proof.
  unfold psa_to_efi_storage_status. destruct (Z.eqb_spec st PSA_SUCCESS) as [->|Hne]; [done|].
  repeat case_match; discriminate.
Qed.

Lemma extended_at_end a d d' : extended a (len a) d d' -> d' = a ++ d.
Proof.
  unfold extended. replace (len a + len d - len a) with (len d) by lia. pose proof (len_nonneg d) as Hd.
  intros H. pose proof (store_append (a ++ fill 0 (len d)) a d) as Happ.
  rewrite len_app, len_fill in Happ by done. specialize (Happ (a ++ fill 0 (len d)) eq_refl).
  assert (store (a ++ fill 0 (len d)) 0 a = Some (a ++ fill 0 (len d))) as Hs.
  { unfold store. rewrite len_app, len_fill by done. case_match; [|lia]. cbn [app]. f_equal.
    unfold len. rewrite Z.add_0_l, Nat2Z.id. by rewrite drop_app_length. }
  specialize (Happ Hs). congruence.
Qed.

(** One chunk of the index. *)
Lemma backend_set_extended_ok x u off n b :
  backends_ok x -> fits 64 u -> u <> 0 -> 0 <= off -> 0 <= n -> off + n < 2 ^ 64 -> n <= len b ->
  exists st y, backend_set_extended IP x u off n (Some b) = Some (st, y) /\ called x y /\
    ((st = PSA_SUCCESS /\ exists a d', asset_of x true u = Some a /\ extended (a_data a) off (slice b 0 n) d' /\
        moved x y true u (Some (Asset (a_flags a) (a_room a) d'))) \/
     (st <> PSA_SUCCESS /\ still x y)).
Proof.
  intros [HP HW] Hu Hu0 Ho Hn Hs Hb.
  destruct (law_set_extended (persistent_backend x) (owner_id x) u off n b (slice b 0 n) HP Hu Ho Hs)
    as (st & d & Hr & Hok & _ & H); [by apply load_is_slice; lia|].
  unfold backend_set_extended. rewrite Hr. cbn [mbind option_bind]. eexists _, _. split; [done|]. split; [done|].
  simpl asset_of at 1. destruct (sv_asset VP (persistent_backend x) (owner_id x) u) as [a|].
  - destruct H as [_ [(-> & _ & d' & Hx & Hm)|[Hst Hun]]]; [left|right; eauto].
    split; [done|]. exists a, d'. eauto.
  - right. destruct H as [Hun Hst]. eauto.
Qed.

(** Nothing but the asset [u] of the persistent backend changes. *)
Definition only x y (u : Z) : Prop := forall nv u', (nv, u') <> (true, u) -> asset_of y nv u' = asset_of x nv u'.

Lemma only_trans x y z u : only x y u -> only y z u -> only x z u.
Proof. intros H1 H2 nv u' Hne. by rewrite H2, H1. Qed.
Lemma still_only x y u : still x y -> only x y u.
Proof. intros H nv u' _. apply H. Qed.
Lemma moved_only x y u a : moved x y true u a -> only x y u.
Proof. intros [_ H]. exact H. Qed.

Lemma sync_loop_ok fuel x u off rem b :
  backends_ok x -> fits 64 u -> u <> 0 -> index_sync_buffer x = Some b ->
  0 <= off -> 0 <= rem -> off + rem <= len b < 2 ^ 63 -> rem / 4096 < Z.of_nat fuel ->
  exists st y, sync_loop IP fuel x u off rem = Some (st, y) /\ called x y /\ only x y u /\
    (st = PSA_SUCCESS -> forall a, asset_of x true u = Some a -> len (a_data a) = off ->
       exists a', asset_of y true u = Some a' /\ a_flags a' = a_flags a /\ a_data a' = a_data a ++ slice b off rem).
Proof.
  intros Hok Hu Hu0. revert x off rem Hok. induction fuel as [|fuel IH]; intros x off rem Hok Hb Ho Hr Hl Hf;
    [pose proof (Z.div_pos rem 4096); lia|].
  cbn [sync_loop]. rewrite Hb. cbn [mbind option_bind]. unfold RPC_CALLER_SESSION_SHARED_MEMORY_SIZE.
  set (n := Z.min rem 4096). assert (len (drop (Z.to_nat off) b) = len b - off) as Hld
    by (unfold len in *; rewrite length_drop; lia).
  destruct (backend_set_extended_ok x u off n (drop (Z.to_nat off) b)) as (st & y & -> & Hc & H); [try done; lia..|].
  cbn [mbind option_bind]. assert (slice (drop (Z.to_nat off) b) 0 n = slice b off n) as Hsl by done. rewrite Hsl in H.
  destruct H as [(-> & a & d' & Ha & Hx & Hm)|[Hst Hs]].
  2:{ destruct (Z.eqb_spec st PSA_SUCCESS); [done|]. eexists _, _. split; [done|]. split; [done|].
      split; [by apply still_only|]. done. }
  simpl Z.eqb. simpl negb. cbv match. pose proof (moved_only _ _ _ _ Hm) as Hon.
  destruct (Z.eqb_spec (rem - n) 0) as [Hz|Hz].
  - eexists _, _. split; [done|]. split; [done|]. split; [done|]. intros _ a0 Ha0 Hoff.
    rewrite Ha in Ha0. injection Ha0 as <-. subst off. apply extended_at_end in Hx as ->.
    destruct Hm as [Hm _]. exists (Asset (a_flags a) (a_room a) (a_data a ++ slice b (len (a_data a)) n)).
    by replace rem with n by lia.
  - assert (n = 4096) as Hn by lia.
    destruct (IH y (off + 4096) (rem - n)) as (st & z & -> & Hc2 & Hon2 & Hres); try lia.
    { apply Hc. } { destruct Hc as [[=] _]. congruence. }
    { replace (rem - n) with (rem + (-1) * 4096) by lia. rewrite Z.div_add by lia. lia. }
    eexists _, _. split; [done|]. split; [by eapply called_trans|]. split; [by eapply only_trans|].
    intros -> a0 Ha0 Hoff. rewrite Ha in Ha0. injection Ha0 as <-. subst off.
    apply extended_at_end in Hx as ->. destruct Hm as [Hm _].
    destruct (Hres eq_refl _ Hm) as (a' & Ha' & Hfl & Hd).
    { simpl. rewrite len_app, slice_len by lia. lia. }
    exists a'. split; [done|]. split; [done|]. rewrite Hd. simpl. rewrite <- app_assoc, Hn.
    rewrite <- slice_app by lia. do 2 f_equal. lia.
Qed.

Lemma called_buffer x y : called x y -> index_sync_buffer y = index_sync_buffer x.
Proof. intros [[=] _]. congruence. Qed.
Lemma called_index x y : called x y -> variable_index_ y = variable_index_ x.
Proof. intros [[=] _]. congruence. Qed.

Definition next_uid x : Z := if active_variable_index_uid x =? A_UID then B_UID else A_UID.

Lemma next_uid_fits x : fits 64 (next_uid x) /\ 2 ^ 63 < next_uid x.
Proof. unfold next_uid. by destruct (_ =? _). Qed.

(** What saving the index changes: the marks, the counter and one copy of the index. *)
Record synced x y : Prop := {
  sy_config : config y = config x;
  sy_boot : is_boot_service y = is_boot_service x;
  sy_entries : entries (variable_index_ y) = map clean (entries (variable_index_ x));
  sy_counter : fits 32 (counter (variable_index_ y));
  sy_backends : backends_ok y;
  sy_only : only x y (next_uid x)
}.

Lemma clean_at_pos ix ix' pos k v :
  entries ix' = map clean (entries ix) -> at_pos ix pos k v -> at_pos ix' pos k v.
Proof.
  intros He (e & Hp & Hu & Hk & Hv). exists (clean e). rewrite He. split; [|done].
  unfold nthZ in *. destruct (0 <=? pos); [|done]. change (map clean (entries ix)) with (clean <$> entries ix). by rewrite list_lookup_fmap, Hp.
Qed.

Lemma synced_inv x y :
  store_inv x -> synced x y ->
  store_inv y /\ vars (variable_index_ y) = vars (variable_index_ x) /\ (forall k, contents y k = contents x k) /\
  (forall nv u, 1 <= u <= max_variables (variable_index_ x) -> asset_of y nv u = asset_of x nv u).
Proof.
  intros [Hco Hix Hb Hown] [Hc _ He Hct Hb' Hon].
  assert (vars (variable_index_ y) = vars (variable_index_ x)) as Hv.
  { rewrite He. unfold variables. by rewrite clean_bindings. }
  pose proof (next_uid_fits x) as [_ Hnext]. pose proof Hix as (Hmax & _).
  assert (forall nv u, 1 <= u <= max_variables (variable_index_ x) -> asset_of y nv u = asset_of x nv u) as Ha.
  { intros nv u Hu. apply Hon. intros [= -> ->]. lia. }
  assert (max_variables (variable_index_ y) = max_variables (variable_index_ x)) as Hm.
  { unfold config in Hc. congruence. }
  split; [|split; [done|split; [by apply contents_same|done]]]. split.
  - by eapply config_ok_same.
  - pose proof (clean_ok _ Hix) as Hcl. unfold index_ok in *. simpl in *. rewrite He, Hm.
    destruct Hcl as (? & ? & _ & ?). done.
  - done.
  - intros nv u a Hu Hasset. rewrite Hm in Hu. rewrite Ha in Hasset by done. rewrite Hv. by apply Hown.
Qed.

(** The copy of the index that the next start reads. *)
Definition saved x (c : Z) (es : list variable_entry) : Prop :=
  exists a, asset_of x true (active_variable_index_uid x) = Some a /\ a_data a = le_split 4 (u32 c) ++ image es.

Lemma write_index_copy_ok x u n b :
  backends_ok x -> fits 64 u -> u <> 0 -> index_sync_buffer x = Some b -> 0 <= n <= len b -> len b < 2 ^ 63 ->
  exists st y, write_index_copy IP IW x u n = Some (st, y) /\ called x y /\ only x y u /\
    (st = PSA_SUCCESS -> exists a, asset_of y true u = Some a /\ a_data a = slice b 0 n).
Proof.
  intros Hok Hu Hu0 Hb Hn Hlb. unfold write_index_copy.
  destruct (backend_remove_ok x true u Hok Hu) as (st & y & -> & Hc & H). cbn [mbind option_bind].
  assert (only x y u) as Hon.
  { destruct (asset_of x true u) as [a|]; [destruct (write_once a)|];
      destruct H as [_ H]; [by apply still_only|by eapply moved_only|by apply still_only, H]. }
  destruct (negb _ && negb _) eqn:Hrem.
  { eexists _, _. split; [done|]. split; [done|]. split; [done|]. by intros ->. }
  assert (fits 64 n) as Hnf by (unfold fits; lia).
  unfold backend_create.
  destruct (law_create (persistent_backend y) (owner_id y) u n PSA_STORAGE_FLAG_NONE (proj1 (proj2 Hc)) Hu Hnf)
    as (st2 & d & -> & Hok2 & _ & H2); [done|].
  cbn [mbind option_bind]. set (z := with_persistent y d).
  assert (called x z) as Hcz by (apply (called_trans x y); [done|]; split; [done|]; split; [done|apply Hc]).
  destruct H2 as [(-> & _ & Hup)|[Hst Hun]].
  2:{ destruct (Z.eqb_spec st2 PSA_SUCCESS); [done|]. eexists _, _. split; [done|]. split; [done|].
      split; [|done]. eapply only_trans; [done|]. by apply still_only, still_persistent. }
  apply moved_persistent in Hup. fold z in Hup. destruct (Z.eqb_spec u 0); [done|].
  simpl Z.eqb. cbn [negb]. cbv match. unfold RPC_CALLER_SESSION_SHARED_MEMORY_SIZE.
  destruct (sync_loop_ok (S (Z.to_nat (n / 4096))) z u 0 n b) as (st3 & w & -> & Hc3 & Hon3 & H3);
    [apply Hcz|done|done|by rewrite (called_buffer x z Hcz)|lia|lia|lia|pose proof (Z.div_pos n 4096); lia|].
  eexists _, _. split; [done|]. split; [by eapply called_trans|].
  split; [eapply only_trans; [exact Hon|]; eapply only_trans; [by eapply moved_only|done]|].
  intros ->. destruct (H3 eq_refl _ (proj1 Hup)) as (a & Ha & _ & Hd); [done|]. by exists a.
Qed.

Lemma sync_ok x :
  store_inv x ->
  exists st y, sync_variable_index IP IW x = Some (st, y) /\ synced x y /\
    (existsb dirty (entries (variable_index_ x)) = false -> st = EFI_SUCCESS /\ still x y /\
       active_variable_index_uid y = active_variable_index_uid x /\
       counter (variable_index_ y) = counter (variable_index_ x)) /\
    (existsb dirty (entries (variable_index_ x)) = true -> st = EFI_SUCCESS ->
       active_variable_index_uid y = next_uid x /\
       counter (variable_index_ y) = u32 (counter (variable_index_ x) + 1) /\
       saved y (counter (variable_index_ x) + 1) (entries (variable_index_ x))).
Proof.
  intros [Hco Hix Hb Hown]. destruct Hco as [Hmax1 Hlim [Hp1 Hp2] Hw Hsize Hbuf].
  destruct (index_sync_buffer x) as [b|] eqn:Hbx; [|done]. injection Hbuf as Hlb.
  pose proof Hix as (Hmax & Hlen & Hct & _).
  assert (index_sync_buffer_size x < 2 ^ 63) as Hsz.
  { rewrite Hsize. unfold variable_index_max_dump_size, METADATA_SIZE, CONSTRAINTS_SIZE.
    rewrite wrap_small; lia. }
  destruct (dump_ok (variable_index_ x) (index_sync_buffer_size x) b Hix) as (b' & Hd & Hn & Hlb' & Hc4 & Him); [lia..|].
  unfold sync_variable_index. rewrite Hbx. cbn [mbind option_bind]. rewrite Hd. cbn [mbind option_bind].
  simpl Z.eqb. simpl negb. cbv match. set (y0 := with_index _ _).
  set (n := 4 + len (image (entries (variable_index_ x)))) in *.
  assert (slice b' 0 n = le_split 4 (u32 (counter (variable_index_ x) + 1)) ++ image (entries (variable_index_ x))) as Hdump.
  { unfold n. pose proof (len_nonneg (image (entries (variable_index_ x)))).
    rewrite slice_app by lia. by rewrite Hc4, Z.add_0_l, Him. }
  assert (forall y, called y0 y -> only y0 y (next_uid x) -> synced x y) as Hsync.
  { intros y Hcy Hon. pose proof (called_index _ _ Hcy) as Hiy. pose proof (called_config _ _ Hcy) as Hcf.
    split; try done; [|by destruct Hcy as [[=] _]|by rewrite Hiy|by rewrite Hiy|apply Hcy].
    rewrite Hcf. unfold config. simpl. by rewrite Hbx, Hlb'. }
  destruct (existsb dirty (entries (variable_index_ x))) eqn:Hdirty.
  2:{ exists EFI_SUCCESS, y0. split; [done|]. split; [by apply Hsync|]. done. }
  change (persistent_store y0) with (persistent_store x). rewrite Hp1.
  change (active_variable_index_uid y0) with (active_variable_index_uid x). fold A_UID B_UID. fold (next_uid x).
  pose proof (next_uid_fits x) as [Hnf Hnx].
  destruct (write_index_copy_ok y0 (next_uid x) n b') as (st & y & -> & Hc & Hon & Hres);
    [done|done|lia|done|unfold n; pose proof (len_nonneg (image (entries (variable_index_ x)))); lia|lia|].
  cbn [mbind option_bind]. destruct (Z.eqb_spec st PSA_SUCCESS) as [->|Hst]; simpl negb; cbv match.
  2:{ eexists _, _. split; [done|]. split; [by apply Hsync|]. split; [done|].
      intros _ Hs%psa_to_efi_success. congruence. }
  eexists _, _. split; [done|]. pose proof (Hsync y Hc Hon) as [s1 s2 s3 s4 s5 s6].
  split; [|split; [done|]].
  - split; try done. by apply wrap_fits.
  - intros _ _. split; [done|]. simpl. rewrite (called_index _ _ Hc). split; [done|]. destruct (Hres eq_refl) as (a & Ha & Hda).
    exists a. simpl. rewrite Hda, Hdump. done.
Qed.

(** ** Dropping variables without data *)

Definition cleared (v : variable) : variable :=
  Var (v_attributes v) (v_uid v) false (v_constraints v) (v_timestamp v) (v_fingerprint v).

(** Variables that are set but have no data in the persistent backend may be dropped. *)
Record dropped x y : Prop := {
  dr_config : config y = config x;
  dr_boot : is_boot_service y = is_boot_service x;
  dr_inv : store_inv y;
  dr_contents : forall k, contents y k = contents x k;
  dr_pos : forall pos k v, at_pos (variable_index_ x) pos k v ->
    at_pos (variable_index_ y) pos k v \/
    (at_pos (variable_index_ y) pos k (cleared v) /\ nv_of v = true /\ asset_of x true (v_uid v) = None);
  dr_assets : forall nv u, 1 <= u <= max_variables (variable_index_ x) -> asset_of y nv u = asset_of x nv u
}.

Lemma config_max x y : config y = config x -> max_variables (variable_index_ y) = max_variables (variable_index_ x).
Proof. unfold config. congruence. Qed.

Lemma dropped_refl x : store_inv x -> dropped x x.
Proof. split; auto. Qed.

Lemma dropped_trans x y z : index_ok (variable_index_ x) -> dropped x y -> dropped y z -> dropped x z.
Proof.
  intros Hix [c1 b1 i1 n1 p1 a1] [c2 b2 i2 n2 p2 a2]. pose proof (config_max x y c1) as Hm.
  split; [congruence..|done| | |].
  - intros k. by rewrite n2, n1.
  - intros pos k v Hp. destruct (p1 pos k v Hp) as [H1|(H1 & Hn & Ha)].
    + destruct (p2 pos k v H1) as [H2|(H2 & Hn2 & Ha2)]; [by left|]. right. split; [done|]. split; [done|].
      rewrite <- a1; [done|]. by eapply uid_range, at_pos_var.
    + destruct (p2 pos k _ H1) as [H2|(H2 & _)]; [by right|]. right. done.
  - intros nv u Hu. rewrite a2, a1; [done|done|by rewrite Hm].
Qed.

Lemma synced_dropped x y : store_inv x -> synced x y -> dropped x y.
Proof.
  intros Hx Hs. destruct (synced_inv x y Hx Hs) as (Hy & Hv & Hc & Ha). destruct Hs.
  split; try done. intros pos k v Hp. left. by eapply clean_at_pos.
Qed.

(** Only the index changes, and no variable is added to it. *)
Lemma owned_index x ix :
  owned x -> max_variables ix = max_variables (variable_index_ x) ->
  (forall nv u a k v, asset_of x nv u = Some a -> vars (variable_index_ x) !! k = Some v -> v_set v = true ->
     nv_of v = nv -> v_uid v = u -> exists v', vars ix !! k = Some v' /\ v_set v' = true /\ nv_of v' = nv /\ v_uid v' = u) ->
  owned (with_index x ix).
Proof.
  intros Hown Hm Hkeep nv u a Hu Ha. simpl in *. rewrite Hm in Hu. destruct (Hown nv u a Hu Ha) as [Hp (k & v & Hv & Hs & Hn & Hi)].
  split; [done|]. exists k. by eapply Hkeep.
Qed.

(** One variable is dropped. *)
Lemma drop_one x pos k v :
  store_inv x -> at_pos (variable_index_ x) pos k v -> v_set v = true -> nv_of v = true ->
  asset_of x true (v_uid v) = None ->
  exists ix, variable_index_clear_variable (variable_index_ x) (Some pos) = Some ix /\ dropped x (with_index x ix).
Proof.
  intros [Hco Hix Hb Hown] Hp Hset Hnv Hnone. pose proof (at_pos_var _ _ _ _ Hix Hp) as Hk.
  destruct (clear_variable_pos _ pos k v Hix Hp) as (ix & Hcl & Hok & Hm & Hct & Hvars & Hp'). fold (cleared v) in *.
  exists ix. split; [done|]. split; try done; simpl.
  - unfold config. simpl. by rewrite Hm.
  - split; try done; simpl.
    + eapply config_ok_same; [|exact Hco]. unfold config. simpl. by rewrite Hm.
    + apply owned_index; [done|done|]. intros nv u a k' v' Ha Hk' Hs' Hn' Hu'. exists v'.
      rewrite Hvars, lookup_insert_ne; [done|]. intros <-. rewrite Hk in Hk'. injection Hk' as <-. subst nv u.
      rewrite Hnv in Ha. congruence.
  - intros k'. unfold contents. simpl. rewrite Hvars. destruct (decide (k = k')) as [<-|Hne].
    + rewrite lookup_insert_eq, Hk. simpl. rewrite Hset, Hnv. by rewrite Hnone.
    + by rewrite lookup_insert_ne.
  - intros pos' k' v' Hp2. destruct (decide (pos = pos')) as [<-|Hne].
    + right. destruct Hp as (e & He & _ & He1 & He2), Hp2 as (e' & He' & _ & He1' & He2').
      rewrite He in He'. injection He' as <-. rewrite <- He1', <- He2', He1, He2. done.
    + left. destruct Hp2 as (e' & He' & Hrest). exists e'. split; [|done].
      rewrite (update_other _ _ _ _ _ Hcl); [done|congruence].
Qed.

Lemma iterator_first_ok ix :
  index_ok ix -> exists p, variable_index_iterator_first ix = Some p /\ 0 <= p /\
    (p < max_variables ix -> exists k v, at_pos ix p k v).
Proof.
  intros (Hmax & Hlen & _). unfold variable_index_iterator_first, scan_all.
  destruct (scan_spec (Z.to_nat (max_variables ix)) (fun e => Some (in_use e)) (entries ix) 0)
    as [(i & e & -> & Hi & He & Hp & _)|[-> _]]; [lia|lia|done| |]; cbn [mbind option_bind].
  - exists i. split; [done|]. split; [lia|]. intros _. injection Hp as Hp. exists (entry_key e), (entry_variable e).
    by exists e.
  - exists (max_variables ix). split; [done|]. split; [lia|]. lia.
Qed.

Lemma iterator_next_ok ix pos :
  index_ok ix -> 0 <= pos < max_variables ix ->
  exists p, variable_index_iterator_next ix pos = Some p /\ pos < p /\
    (p < max_variables ix -> exists k v, at_pos ix p k v).
Proof.
  intros (Hmax & Hlen & _) Hpos. unfold variable_index_iterator_next. destruct (Z.ltb_spec pos (max_variables ix)); [|lia].
  destruct (scan_spec (Z.to_nat (max_variables ix - (pos + 1))) (fun e => Some (in_use e)) (entries ix) (pos + 1))
    as [(i & e & -> & Hi & He & Hp & _)|[-> _]]; [lia|lia|done| |]; cbn [mbind option_bind].
  - exists i. split; [done|]. split; [lia|]. intros _. injection Hp as Hp. exists (entry_key e), (entry_variable e).
    by exists e.
  - exists (max_variables ix). split; [done|]. split; [lia|]. lia.
Qed.

Lemma called_dropped x y : store_inv x -> called x y -> still x y -> dropped x y.
Proof.
  intros [Hco Hix Hb Hown] Hc Hs. pose proof (called_index x y Hc) as Hi. pose proof (called_config x y Hc) as Hcf.
  assert (forall k, contents y k = contents x k) as Hct.
  { apply contents_same; [by rewrite Hi|done|done]. }
  split; try done.
  - by destruct Hc as [[=] _].
  - split; [by eapply config_ok_same|by rewrite Hi|apply Hc|].
    intros nv u a Hu Ha. rewrite Hi in *. rewrite Hs in Ha. by apply Hown.
  - rewrite Hi. auto.
Qed.

Lemma purge_entry_ok x pos k v e b :
  store_inv x -> at_pos (variable_index_ x) pos k v -> nthZ (entries (variable_index_ x)) pos = Some e ->
  exists b' y, purge_entry IP IW uninitialised x pos e b = Some (b', y) /\ dropped x y.
Proof.
  intros Hx Hp He. pose proof Hp as (e' & He' & Hu & Hk & Hv). rewrite He in He'. injection He' as <-.
  pose proof Hx as [Hco Hix Hb Hown]. unfold purge_entry.
  destruct (is_variable_set (info e) && has _ _) eqn:Hset; [|exists b, x; split; [done|]; by apply dropped_refl].
  apply andb_true_iff in Hset as [Hset Hnv]. destruct Hco as [_ _ [-> _] _ _ _].
  pose proof (uid_range _ _ _ Hix (at_pos_var _ _ _ _ Hix Hp)) as Hur. pose proof Hix as (Hmax & _).
  assert (v_uid v = uid (metadata (info e))) as Huid by (by rewrite <- Hv).
  destruct (backend_get_info_ok x true (uid (metadata (info e))) uninitialised Hb) as (st & i & y & -> & Hc & Hs & Hi);
    [unfold fits; lia|]. cbn [mbind option_bind].
  pose proof (called_dropped x y Hx Hc Hs) as Hd1.
  destruct (Z.eqb_spec st PSA_SUCCESS) as [->|Hst]; cbn [negb]; [by exists b, y|].
  assert (asset_of x true (v_uid v) = None) as Hnone.
  { rewrite Huid. destruct (asset_of x true (uid (metadata (info e)))); [|done]. by destruct Hi. }
  destruct (drop_one y pos k v) as (ix & -> & Hd2);
    [apply Hd1|by rewrite (called_index x y Hc)|by rewrite <- Hv|by rewrite <- Hv|by rewrite Hs|].
  cbn [mbind option_bind]. eexists _, _. split; [done|]. by eapply dropped_trans.
Qed.

Lemma purge_loop_ok fuel x pos b :
  store_inv x -> 0 <= pos -> (pos < max_variables (variable_index_ x) -> exists k v, at_pos (variable_index_ x) pos k v) ->
  max_variables (variable_index_ x) - pos <= Z.of_nat fuel ->
  exists b' y, purge_loop IP IW uninitialised fuel x pos b = Some (b', y) /\ dropped x y.
Proof.
  revert x pos b. induction fuel as [|fuel IH]; intros x pos b Hx Hpos Hat Hf;
    cbn [purge_loop]; unfold variable_index_iterator_current, variable_index_iterator_is_done;
    (destruct (Z.geb_spec pos (max_variables (variable_index_ x)));
      [exists b, x; split; [done|]; by apply dropped_refl|]); [lia|].
  cbn [negb]. destruct (Hat ltac:(lia)) as (k & v & Hp). pose proof Hp as (e & He & _). pose proof (si_index x Hx) as Hix.
  rewrite He. cbn [mbind option_bind].
  destruct (purge_entry_ok x pos k v e b Hx Hp He) as (b' & y & -> & Hd).
  cbn [mbind option_bind]. pose proof (config_max x y (dr_config _ _ Hd)) as Hm.
  destruct (iterator_next_ok (variable_index_ y) pos) as (p & -> & Hlt & Hat'); [apply Hd|lia|].
  cbn [mbind option_bind]. destruct (IH y p b') as (b2 & z & -> & Hd2); [apply Hd|lia|done|lia|].
  exists b2, z. split; [done|]. by eapply dropped_trans.
Qed.

Lemma purge_ok x :
  store_inv x -> exists y, purge_orphan_index_entries IP IW uninitialised x = Some y /\ dropped x y.
Proof.
  intros Hx. pose proof Hx as [Hco Hix Hb Hown]. pose proof Hix as (Hmax & _). unfold purge_orphan_index_entries.
  destruct (iterator_first_ok _ Hix) as (p & -> & Hp & Hat). cbn [mbind option_bind].
  destruct (purge_loop_ok (Z.to_nat (max_variables (variable_index_ x))) x p false) as (b & y & -> & Hd); [done|done|done|lia|].
  cbn [mbind option_bind]. destruct b; [|by exists y].
  destruct (sync_ok y (dr_inv _ _ Hd)) as (st & z & -> & Hs & _). cbn [mbind option_bind]. exists z. split; [done|].
  eapply dropped_trans; [done|exact Hd|]. apply synced_dropped; [apply Hd|done].
Qed.

End Store.
