(* ===== verification/UefiStoreSet.v ===== *)
(** * Changing a variable of the UEFI variable store

    uefi_variable_store_set_variable and the functions under it, for any two lawful
    backends: what each step does to the contents of the store, and to what the next start
    will find in the persistent backend. *)
From S2P Require Import Prelude Status StorageBackend VariableIndex VariableStorage UefiStore UefiStoreSpec.

Section Store.
Context {P W : Type} {IP : storage_backend_interface P} {IW : storage_backend_interface W}.
Context {VP : storage_view P} {VW : storage_view W} `{!StorageLaws IP VP} `{!StorageLaws IW VW}.
Context {malloc_ok : Z -> bool} {junk : Z -> bytes} {uninitialised : psa_storage_info_t}.
Context (Hjunk : forall n, 0 <= n -> len (junk n) = n).
Abbreviation store_ctx := (uefi_variable_store P W).
Abbreviation asset_of := (UefiStoreSpec.asset_of (VP := VP) (VW := VW)).
Abbreviation still := (UefiStoreSpec.still (VP := VP) (VW := VW)).
Abbreviation moved := (UefiStoreSpec.moved (VP := VP) (VW := VW)).
Abbreviation called := (UefiStoreSpec.called (VP := VP) (VW := VW)).
Abbreviation contents := (UefiStoreSpec.contents (VP := VP) (VW := VW)).
Abbreviation store_inv := (UefiStoreSpec.store_inv (VP := VP) (VW := VW)).
Abbreviation dropped := (UefiStoreSpec.dropped (VP := VP) (VW := VW)).
Abbreviation synced := (UefiStoreSpec.synced (VP := VP) (VW := VW)).
Abbreviation saved := (UefiStoreSpec.saved (VP := VP) (VW := VW)).
Abbreviation written := (UefiStoreSpec.written (VP := VP) (VW := VW)).
Implicit Types x y : store_ctx.

(** ** One variable changes *)

(** The rest of the store stays as it is. *)
Definition alike x y : Prop :=
  config y = config x /\ is_boot_service y = is_boot_service x /\
  active_variable_index_uid y = active_variable_index_uid x /\
  counter (variable_index_ y) = counter (variable_index_ x).

Lemma alike_refl x : alike x x.
Proof. done. Qed.
Lemma alike_trans x y z : alike x y -> alike y z -> alike x z.
Proof. unfold alike. intuition congruence. Qed.
Lemma called_alike x y : called x y -> alike x y.
Proof.
  intros Hc. split; [by eapply called_config|]. rewrite (called_index x y Hc). by destruct Hc as [[=] _].
Qed.
Lemma index_alike x ix :
  max_variables ix = max_variables (variable_index_ x) -> counter ix = counter (variable_index_ x) ->
  alike x (with_index x ix).
Proof. intros Hm Hc. split; [|done]. unfold config. simpl. by rewrite Hm. Qed.

(** The entry of [k] changes: the data of the variable must not become another's. *)
Lemma index_set_inv x ix pos k v :
  store_inv x -> index_set (variable_index_ x) ix pos k v ->
  (forall v0, vars (variable_index_ x) !! k = Some v0 -> v_set v0 = true ->
     v_uid v0 = v_uid v /\ (v_set v = true /\ nv_of v = nv_of v0 \/ asset_of x (nv_of v0) (v_uid v0) = None)) ->
  store_inv (with_index x ix).
Proof.
  intros [Hco Hix Hb Hown] (Hok & Hm & Hct & Hvars & _) Hv. split; try done.
  - eapply config_ok_same; [|exact Hco]. by apply index_alike.
  - apply owned_index; [done|done|]. intros nv u a k' v' Ha Hk' Hs Hn Hu. rewrite Hvars.
    destruct (decide (k = k')) as [<-|Hne]; [|exists v'; by rewrite lookup_insert_ne].
    rewrite lookup_insert_eq. exists v. split; [done|]. destruct (Hv v' Hk' Hs) as [He [[H1 H2]|H]]; [|congruence].
    split; [done|]. split; congruence.
Qed.

(** Other variables are untouched. *)
Lemma index_set_contents x ix pos k v k' :
  index_set (variable_index_ x) ix pos k v -> k' <> k -> contents (with_index x ix) k' = contents x k'.
Proof. intros (_ & _ & _ & Hvars & _) Hne. unfold contents. simpl. by rewrite Hvars, lookup_insert_ne. Qed.

(** An asset without a variable of its own cannot exist. *)
Lemma no_asset x k v nv :
  store_inv x -> vars (variable_index_ x) !! k = Some v -> (v_set v = false \/ nv_of v <> nv) ->
  asset_of x nv (v_uid v) = None.
Proof.
  intros [Hco Hix Hb Hown] Hk Hv. destruct (asset_of x nv (v_uid v)) as [a|] eqn:Ha; [|done].
  destruct (Hown nv (v_uid v) a (uid_range _ _ _ Hix Hk) Ha) as [_ (k' & v' & Hk' & Hs & Hn & Hu)].
  assert (k' = k) as -> by by eapply uid_unique. rewrite Hk in Hk'. injection Hk' as <-.
  destruct Hv; congruence.
Qed.

(** The data of one variable changes. *)
Lemma moved_inv x y k v o :
  store_inv x -> vars (variable_index_ x) !! k = Some v -> v_set v = true ->
  called x y -> moved x y (nv_of v) (v_uid v) o -> (forall a, o = Some a -> plain a) ->
  store_inv y /\ contents y k = (a ← o; Some (v_attributes v, a_data a)) /\
  forall k', k' <> k -> contents y k' = contents x k'.
Proof.
  intros [Hco Hix Hb Hown] Hk Hs Hc [Ha Hm] Hp. pose proof (called_index x y Hc) as Hi. split; [split|].
  - eapply config_ok_same; [by eapply called_config|done].
  - by rewrite Hi.
  - apply Hc.
  - intros nv u a Hu Hasset. rewrite Hi in *. destruct (decide ((nv, u) = (nv_of v, v_uid v))) as [[= -> ->]|Hne].
    + split; [apply Hp; congruence|]. by exists k, v.
    + rewrite Hm in Hasset by done. by apply Hown.
  - unfold contents. rewrite Hi, Hk. cbn [mbind option_bind]. rewrite Hs, Ha. split; [done|].
    intros k' Hne. destruct (vars (variable_index_ x) !! k') as [v'|] eqn:Hk'; [|done]. cbn [mbind option_bind].
    destruct (v_set v'); [|done]. rewrite Hm; [done|]. intros [= _ Hu]. apply Hne. by eapply uid_unique.
Qed.

(** An entry that is not needed any more is released. *)
Lemma release_ok x pos k v :
  store_inv x -> at_pos (variable_index_ x) pos k v ->
  exists ix, variable_index_remove_unused_entry (variable_index_ x) (Some pos) = Some ix /\
    store_inv (with_index x ix) /\ alike x (with_index x ix) /\ (forall k', contents (with_index x ix) k' = contents x k') /\
    vars ix = if unused v then delete k (vars (variable_index_ x)) else vars (variable_index_ x).
Proof.
  intros [Hco Hix Hb Hown] Hp. pose proof (at_pos_var _ _ _ _ Hix Hp) as Hk.
  destruct (remove_unused_pos _ pos k v Hix Hp) as (ix & Hr & Hok & Hm & Hct & Hvars). exists ix. split; [done|].
  assert (alike x (with_index x ix)) as Hal by by apply index_alike.
  assert (forall k' v', vars (variable_index_ x) !! k' = Some v' -> v_set v' = true -> vars ix !! k' = Some v') as Hkeep.
  { intros k' v' Hk' Hs. rewrite Hvars. destruct (unused v) eqn:Hun; [|done].
    rewrite lookup_delete_ne; [done|]. intros <-. rewrite Hk in Hk'. injection Hk' as <-.
    unfold unused in Hun. rewrite Hs in Hun. by destruct (v_constraints v). }
  split; [split; try done|split; [done|split; [|done]]].
  - eapply config_ok_same; [apply Hal|done].
  - apply owned_index; [done|done|]. intros nv u a k' v' Ha Hk' Hs Hn Hu. exists v'. split; [by apply Hkeep|done].
  - intros k'. unfold contents. simpl. destruct (vars (variable_index_ x) !! k') as [v'|] eqn:Hk'.
    + destruct (v_set v') eqn:Hs; cbn [mbind option_bind].
      * rewrite (Hkeep k' v' Hk' Hs). cbn [mbind option_bind]. by rewrite Hs.
      * rewrite Hvars, Hs. destruct (unused v); [|rewrite Hk'; cbn [mbind option_bind]; by rewrite Hs].
        destruct (decide (k = k')) as [<-|Hne]; [by rewrite lookup_delete_eq|].
        rewrite lookup_delete_ne, Hk' by done. cbn [mbind option_bind]. by rewrite Hs.
    + rewrite Hvars. destruct (unused v); [|by rewrite Hk'].
      destruct (decide (k = k')) as [<-|Hne]; [by rewrite lookup_delete_eq|]. by rewrite lookup_delete_ne, Hk'.
Qed.

(** ** A request for a variable *)

Definition request_ok (var : SMM_VARIABLE_COMMUNICATE_ACCESS_VARIABLE) : Prop :=
  guid_ok (Guid_ var) /\ 0 <= NameSize var /\ 0 <= DataSize var /\ NameSize var + DataSize var <= len (Name var) /\
  len (Name var) < 2 ^ 63 /\ fits 32 (av_Attributes var).

Definition request_key (var : SMM_VARIABLE_COMMUNICATE_ACCESS_VARIABLE) : key :=
  (Guid_ var, slice (Name var) 0 (NameSize var)).
Definition request_data (var : SMM_VARIABLE_COMMUNICATE_ACCESS_VARIABLE) : bytes :=
  slice (Name var) (NameSize var) (DataSize var).

Lemma terminator_ok nm n :
  n <= len nm -> exists st, check_name_terminator nm n = Some st /\ (st = EFI_SUCCESS \/ st = EFI_INVALID_PARAMETER).
Proof.
  intros Hn. unfold check_name_terminator. destruct (Z.ltb_spec n 2); [eauto|].
  pose proof (Z.mul_div_le n 2). pose proof (Z.div_le_lower_bound n 2 1).
  rewrite get_uint_ok by lia. cbn [mbind option_bind]. eexists. split; [done|]. destruct (_ =? _); auto.
Qed.

(** The index has an entry for [k] that says nothing yet. *)
Definition entry_added x y (k : key) (v : variable) : Prop :=
  vars (variable_index_ x) !! k = None /\ v_set v = false /\ v_constraints v = None /\
  vars (variable_index_ y) = <[k := v]> (vars (variable_index_ x)).

Lemma added_inv x g nsize nm (k : key) :
  store_inv x -> guid_ok g -> 0 <= nsize <= len nm -> k = (g, slice nm 0 nsize) ->
  vars (variable_index_ x) !! k = None ->
  (exists pos v ix, variable_index_add_entry (variable_index_ x) g nsize nm = Some (Some pos, ix) /\
     at_pos ix pos k v /\ store_inv (with_index x ix) /\ alike x (with_index x ix) /\
     (forall k', contents (with_index x ix) k' = contents x k') /\ entry_added x (with_index x ix) k v) \/
  variable_index_add_entry (variable_index_ x) g nsize nm = Some (None, variable_index_ x).
Proof.
  intros Hx Hg Hn Hk Hnew. pose proof Hx as [Hco Hix Hb Hown].
  pose proof (add_entry_pos _ g nsize nm Hix Hg Hn) as Hadd. rewrite <- Hk in Hadd.
  destruct (Hadd Hnew) as [(pos & u & ix & Hadd' & Hset & _)|[Hadd' _]]; [left|by right].
  exists pos, (fresh_variable u), ix. split; [done|]. pose proof Hset as (_ & Hm & Hct & Hvars & Hp).
  split; [done|]. split; [|split; [by apply index_alike|split; [|done]]].
  - eapply index_set_inv; [done|exact Hset|]. intros v0 Hk0. by rewrite Hnew in Hk0.
  - intros k'. destruct (decide (k' = k)) as [->|Hne]; [|by eapply index_set_contents].
    unfold contents. simpl. by rewrite Hvars, lookup_insert_eq, Hnew.
Qed.

Lemma with_index_id x : with_index x (variable_index_ x) = x.
Proof. by destruct x. Qed.

Lemma find_or_add_ok x var :
  store_inv x -> request_ok var ->
  (exists st, find_or_add x var = Some (inl st, x) /\ st <> EFI_SUCCESS /\
     vars (variable_index_ x) !! request_key var = None) \/
  (exists pos v y, find_or_add x var = Some (inr pos, y) /\ at_pos (variable_index_ y) pos (request_key var) v /\
     store_inv y /\ alike x y /\ still x y /\ (forall k, contents y k = contents x k) /\
     (y = x \/ entry_added x y (request_key var) v)).
Proof.
  intros Hx (Hg & Hn & Hd & Hl & _). pose proof (si_index x Hx) as Hix. unfold find_or_add.
  destruct (find_pos _ (Guid_ var) (NameSize var) (Name var) Hix) as [(pos & v & -> & Hp)|[-> Hnone]]; [lia| |];
    cbn [mbind option_bind].
  - right. exists pos, v, x. split; [done|]. split; [done|]. split; [done|]. split; [done|]. split; [done|]. auto.
  - destruct (Z.eqb_spec (DataSize var) 0); cbn [negb]; [left; by eexists|].
    destruct (added_inv x (Guid_ var) (NameSize var) (Name var) (request_key var) Hx Hg ltac:(lia) eq_refl Hnone)
      as [(pos & v & ix & -> & Hp & Hy & Hal & Hc & Hadd)| ->]; cbn [mbind option_bind].
    + right. exists pos, v, (with_index x ix). split; [done|]. split; [done|]. split; [done|]. split; [done|].
      split; [done|]. auto.
    + left. rewrite with_index_id. by eexists.
Qed.

(** What a request does to the variable [v] of [k] before the index is saved. *)
Inductive applied x k (v : variable) var : Z + bool -> store_ctx -> variable -> Prop :=
  | applied_refused st : st <> EFI_SUCCESS -> applied x k v var (inl st) x v
  | applied_remove y :
      v_set v = true -> is_remove var = true -> vars (variable_index_ y) = <[k := cleared v]> (vars (variable_index_ x)) ->
      asset_of y (nv_of v) (v_uid v) = None -> (forall nv u, (nv, u) <> (nv_of v, v_uid v) -> asset_of y nv u = asset_of x nv u) ->
      applied x k v var (inr (has (av_Attributes var) EFI_VARIABLE_NON_VOLATILE)) y (cleared v)
  | applied_update :
      v_set v = true -> is_remove var = false ->
      Z.land (av_Attributes var) (Z.lxor (2 ^ 32 - 1) EFI_VARIABLE_APPEND_WRITE) = v_attributes v ->
      applied x k v var (inr false) x v
  | applied_create y v' :
      v_set v = false -> DataSize var <> 0 ->
      v' = Var (av_Attributes var) (v_uid v) true (v_constraints v) (v_timestamp v) (v_fingerprint v) ->
      vars (variable_index_ y) = <[k := v']> (vars (variable_index_ x)) -> still x y ->
      (has (av_Attributes var) EFI_VARIABLE_NON_VOLATILE = true -> existsb dirty (entries (variable_index_ y)) = true) ->
      applied x k v var (inr (has (av_Attributes var) EFI_VARIABLE_NON_VOLATILE)) y v'.

Lemma remove_data_ok x pos k v :
  store_inv x -> at_pos (variable_index_ x) pos k v -> v_set v = true ->
  exists st y, remove_variable_data IP IW x pos = Some (st, y) /\ called x y /\
    moved x y (nv_of v) (v_uid v) None.
Proof.
  intros [Hco Hix Hb Hown] Hp Hs. pose proof (uid_range _ _ _ Hix (at_pos_var _ _ _ _ Hix Hp)) as Hur.
  pose proof Hix as (Hmax & _). destruct Hp as (e & He & _ & _ & Hv). unfold remove_variable_data.
  rewrite He. cbn [mbind option_bind]. assert (is_variable_set (info e) = true) as -> by (by rewrite <- Hv in Hs).
  assert (select_delegate_store (attributes (metadata (info e))) = nv_of v) as -> by (by rewrite <- Hv).
  assert (uid (metadata (info e)) = v_uid v) as -> by (by rewrite <- Hv).
  destruct Hco as [_ _ [Hp1 _] [Hw1 _] _ _].
  assert (has_backend (delegate_store x (nv_of v)) = true) as -> by (unfold delegate_store; by destruct (nv_of v)).
  destruct (backend_remove_ok x (nv_of v) (v_uid v) Hb) as (st & y & -> & Hc & H); [unfold fits; lia|].
  cbn [mbind option_bind]. eexists _, _. split; [done|]. split; [done|].
  destruct (asset_of x (nv_of v) (v_uid v)) as [a|] eqn:Ha.
  - destruct (Hown _ _ _ Hur Ha) as [[Hwo _] _]. rewrite Hwo in H. apply H.
  - destruct H as (_ & Hst & _). split; [by rewrite Hst|]. intros. apply Hst.
Qed.

Lemma apply_request_ok x pos k v e var :
  store_inv x -> at_pos (variable_index_ x) pos k v -> nthZ (entries (variable_index_ x)) pos = Some e -> request_ok var ->
  exists r y v', apply_request IP IW x pos e var = Some (r, y) /\ applied x k v var r y v' /\
    store_inv y /\ alike x y /\ at_pos (variable_index_ y) pos k v' /\
    forall k', k' <> k -> contents y k' = contents x k'.
Proof.
  intros Hx Hp He (_ & _ & _ & _ & _ & Hat). pose proof (si_index x Hx) as Hix.
  pose proof (at_pos_var _ _ _ _ Hix Hp) as Hk. pose proof Hp as (e' & He' & _ & _ & Hv).
  rewrite He in He'. injection He' as <-. assert (is_variable_set (info e) = v_set v) as Hset by by rewrite <- Hv.
  assert (attributes (metadata (info e)) = v_attributes v) as Hattr by by rewrite <- Hv.
  assert (forall st, st <> EFI_SUCCESS -> exists r y v', Some (inl st, x) = Some (r, y) /\ applied x k v var r y v' /\
    store_inv y /\ alike x y /\ at_pos (variable_index_ y) pos k v' /\ forall k', k' <> k -> contents y k' = contents x k') as Href.
  { intros st Hst. exists (inl st), x, v. split; [done|]. split; [by constructor|done]. }
  unfold apply_request. rewrite Hset, Hattr. destruct (v_set v) eqn:Hs.
  - destruct (is_remove var) eqn:Hrem.
    + destruct (remove_data_ok x pos k v Hx Hp Hs) as (st & y & -> & Hc & Hm). cbn [mbind option_bind].
      destruct (moved_inv x y k v None Hx Hk Hs Hc Hm ltac:(done)) as (Hy & _ & Hoth).
      pose proof (called_index x y Hc) as Hi. rewrite <- Hi in Hp, Hk.
      destruct (clear_variable_pos _ pos k v (si_index y Hy) Hp) as (ix & -> & Hset'). cbn [mbind option_bind].
      fold (cleared v) in Hset'. pose proof Hset' as (_ & Hmx & Hct & Hvars & Hp').
      eexists _, (with_index y ix), (cleared v). split; [done|]. split; [|split; [|split; [|split; [done|]]]].
      * constructor; [done|done|simpl; by rewrite Hvars, Hi|apply Hm|apply Hm].
      * eapply index_set_inv; [done|exact Hset'|]. intros v0 Hk0 _. rewrite Hk in Hk0. injection Hk0 as <-.
        split; [done|]. right. apply Hm.
      * eapply alike_trans; [by apply called_alike|by apply index_alike].
      * intros k' Hne. rewrite <- Hoth by done. by eapply index_set_contents.
    + destruct (Z.eqb_spec (Z.lor (v_attributes v) EFI_VARIABLE_APPEND_WRITE) (Z.lor (av_Attributes var) EFI_VARIABLE_APPEND_WRITE));
        cbn [negb]; [|by apply Href].
      destruct (Z.eqb_spec (Z.land (av_Attributes var) (Z.lxor (2 ^ 32 - 1) EFI_VARIABLE_APPEND_WRITE)) (v_attributes v));
        cbn [negb]; [|by apply Href].
      eexists _, x, v. split; [done|]. split; [by constructor|]. done.
  - destruct (Z.eqb_spec (DataSize var) 0); cbn [negb]; [by apply Href|].
    destruct (set_variable_pos _ pos k v (av_Attributes var) Hix Hp Hat) as (ix & Hupd & Hset').
    rewrite Hupd. cbn [mbind option_bind]. pose proof Hset' as (_ & Hmx & Hct & Hvars & Hp').
    eexists _, (with_index x ix), _. split; [done|]. split; [|split; [|split; [|split; [exact Hp'|]]]].
    + econstructor; try done. intros Hnv. simpl. eapply set_dirty; [exact He|exact Hupd|done].
    + eapply index_set_inv; [done|exact Hset'|]. intros v0 Hk0 Hs0. rewrite Hk in Hk0. congruence.
    + by apply index_alike.
    + intros k' Hne. by eapply index_set_contents.
Qed.

(** ** Storing the data *)

(** [y] holds the new data of the request for [v]. *)
Definition stored x y (k : key) (v : variable) var : Prop :=
  if has (av_Attributes var) EFI_VARIABLE_APPEND_WRITE then
    if DataSize var =? 0 then contents y k = contents x k
    else exists old, contents x k = Some (v_attributes v, old) /\
      contents y k = Some (v_attributes v, old ++ request_data var)
  else contents y k = Some (v_attributes v, request_data var).

(** The data of the request, or no change of it. *)
Lemma write_data_ok x k v var :
  store_inv x -> vars (variable_index_ x) !! k = Some v -> v_set v = true -> request_ok var ->
  let data := drop (Z.to_nat (NameSize var)) (Name var) in
  exists st y,
    (if negb (has (av_Attributes var) EFI_VARIABLE_APPEND_WRITE)
     then store_overwrite IP IW x (nv_of v) (v_uid v) (DataSize var) data
     else store_append_write IP IW malloc_ok junk uninitialised x (nv_of v) (v_uid v) (DataSize var) data) = Some (st, y) /\
    called x y /\
    ((st = PSA_SUCCESS /\ store_inv y /\ stored x y k v var /\
      (forall k', k' <> k -> contents y k' = contents x k') /\
      forall nv u, (nv, u) <> (nv_of v, v_uid v) -> asset_of y nv u = asset_of x nv u) \/
     (st <> PSA_SUCCESS /\ still x y)).
Proof.
  intros Hx Hk Hs (_ & Hn & Hd & Hl & Hl64 & _) data. pose proof Hx as [Hco Hix Hb Hown].
  pose proof (uid_range _ _ _ Hix Hk) as Hur. pose proof Hix as (Hmax & _). pose proof (co_limits x Hco) as Hlim.
  assert (fits 64 (v_uid v)) as Huf by (unfold fits; lia).
  assert (DataSize var <= len data) as Hld by (unfold data, len in *; rewrite length_drop; lia).
  assert (slice data 0 (DataSize var) = request_data var) as Hreq by done.
  assert (forall st y d, written x y (nv_of v) (v_uid v) st d ->
    (store_inv y -> contents y k = Some (v_attributes v, d) -> stored x y k v var) ->
    called x y /\ ((st = PSA_SUCCESS /\ store_inv y /\ stored x y k v var /\
      (forall k', k' <> k -> contents y k' = contents x k') /\
      forall nv u, (nv, u) <> (nv_of v, v_uid v) -> asset_of y nv u = asset_of x nv u) \/
     (st <> PSA_SUCCESS /\ still x y))) as Hfin.
  { intros st y d [Hc [(-> & a & Ha & <- & Hm)|H]] Hst; split; try done; [left|by right].
    destruct (moved_inv x y k v (Some a) Hx Hk Hs Hc Hm) as (Hy & Hck & Hoth); [by intros ? [= <-]|].
    split; [done|]. split; [done|]. split; [by apply Hst|]. split; [done|apply Hm]. }
  unfold stored in *. destruct (has (av_Attributes var) EFI_VARIABLE_APPEND_WRITE); cbn [negb].
  - destruct (Z.eqb_spec (DataSize var) 0) as [Hz|Hz].
    { unfold store_append_write. rewrite Hz. simpl Z.eqb. cbv match. exists PSA_SUCCESS, x. split; [done|].
      split; [done|]. left. done. }
    pose proof (store_append_ok (malloc_ok := malloc_ok) (uninitialised := uninitialised) Hjunk x (nv_of v) (v_uid v) (DataSize var) data Hb Hlim Huf ltac:(lia) ltac:(lia) Hld) as Happ.
    destruct (asset_of x (nv_of v) (v_uid v)) as [a|] eqn:Ha.
    + destruct (Happ (proj1 (Hown _ _ _ Hur Ha))) as (st & y & -> & Hw). exists st, y. split; [done|].
      eapply Hfin; [exact Hw|]. intros _ Hc. exists (a_data a). rewrite Hreq in Hc. split; [|done].
      unfold contents. rewrite Hk. cbn [mbind option_bind]. by rewrite Hs, Ha.
    + destruct Happ as (st & y & -> & Hst & Hc & Hsl). exists st, y. split; [done|]. split; [done|]. by right.
  - destruct (store_overwrite_ok x (nv_of v) (v_uid v) (DataSize var) data) as (st & y & -> & Hw);
      [done|done|done|unfold fits; lia|done|].
    exists st, y. split; [done|]. eapply Hfin; [exact Hw|]. by rewrite Hreq.
Qed.

Lemma store_data_ok x pos k v var :
  store_inv x -> at_pos (variable_index_ x) pos k v -> v_set v = true -> request_ok var ->
  exists st y, store_variable_data IP IW malloc_ok junk uninitialised x pos var = Some (st, y) /\ store_inv y /\
    (forall k', k' <> k -> contents y k' = contents x k') /\
    ((st = EFI_SUCCESS /\ stored x y k v var /\ called x y /\
      forall nv u, (nv, u) <> (nv_of v, v_uid v) -> asset_of y nv u = asset_of x nv u) \/
     (st <> EFI_SUCCESS /\ dropped x y)).
Proof.
  intros Hx Hp Hs Hvar. pose proof Hx as [Hco Hix Hb Hown]. pose proof (at_pos_var _ _ _ _ Hix Hp) as Hk.
  destruct (write_data_ok x k v var Hx Hk Hs Hvar) as (st & y & Hw & Hc & H).
  pose proof Hp as (e & He & _ & _ & Hv). unfold store_variable_data. rewrite He. cbn [mbind option_bind].
  assert (select_delegate_store (attributes (metadata (info e))) = nv_of v) as -> by (by rewrite <- Hv).
  assert (uid (metadata (info e)) = v_uid v) as -> by (by rewrite <- Hv).
  destruct Hco as [_ _ [Hp1 _] [Hw1 _] _ _].
  assert (has_backend (delegate_store x (nv_of v)) = true) as -> by (unfold delegate_store; by destruct (nv_of v)).
  cbv zeta in Hw. rewrite Hw. cbn [mbind option_bind]. destruct H as [(-> & Hy & Hst & Hoth & Ha)|[Hst Hsl]].
  - cbn [mbind option_bind]. eexists _, y. split; [done|]. split; [done|]. split; [done|]. left. done.
  - pose proof (called_dropped x y Hx Hc Hsl) as Hd. destruct (Z.eqb_spec st PSA_SUCCESS); [done|]. cbn [negb andb].
    assert (exists z, (if is_nv (delegate_store y (nv_of v)) then purge_orphan_index_entries IP IW uninitialised y
       else Some y) = Some z /\ dropped x z) as (z & -> & Hz).
    { destruct (is_nv _); [|by exists y]. destruct (purge_ok (uninitialised := uninitialised) y (dr_inv _ _ Hd)) as (z & -> & Hz). exists z.
      split; [done|]. by eapply dropped_trans. }
    cbn [mbind option_bind]. eexists _, z. split; [done|]. split; [apply Hz|]. split; [intros; apply Hz|]. right.
    split; [|done]. intros Hs0%psa_to_efi_success. done.
Qed.

(** ** What the next start will find *)

(** The copies of the index hold [ix0], or there are none and nothing was ever saved. *)
Definition on_disk x (ix0 : variable_index) : Prop :=
  index_ok ix0 /\ max_variables ix0 = max_variables (variable_index_ x) /\ fits 32 (counter (variable_index_ x)) /\
  (active_variable_index_uid x = A_UID \/ active_variable_index_uid x = B_UID) /\
  ((saved x (counter (variable_index_ x)) (entries ix0) /\
    forall a, asset_of x true (next_uid x) = Some a -> exists d, a_data a = le_split 4 (u32 (counter (variable_index_ x) - 1)) ++ d) \/
   (asset_of x true A_UID = None /\ asset_of x true B_UID = None /\ forall k v, vars ix0 !! k = Some v -> ~ persistent v)).

(** The variables with data are on the disk, and the others there have no data. *)
Record matching x (ix0 : variable_index) : Prop := {
  ma_saved : forall k v, vars (variable_index_ x) !! k = Some v -> persistent v ->
    exists v', vars ix0 !! k = Some v' /\ persistent v' /\ v_uid v' = v_uid v /\ v_attributes v' = v_attributes v;
  ma_lost : forall k v', vars ix0 !! k = Some v' -> persistent v' ->
    (exists v, vars (variable_index_ x) !! k = Some v /\ persistent v /\ v_uid v = v_uid v') \/
    asset_of x true (v_uid v') = None
}.

Definition persisted x : Prop := exists ix0, on_disk x ix0 /\ matching x ix0.

(** Neither copy of the index is touched. *)
Definition copies_same x y : Prop := forall u, u = A_UID \/ u = B_UID -> asset_of y true u = asset_of x true u.

Lemma next_uid_cases x : next_uid x = A_UID \/ next_uid x = B_UID.
Proof. unfold next_uid. destruct (_ =? _); auto. Qed.

Lemma on_disk_alike x y ix0 : alike x y -> copies_same x y -> on_disk x ix0 -> on_disk y ix0.
Proof.
  intros (Hc & _ & Hact & Hct) Hs (Hok & Hm & Hf & Hab & Hd).
  assert (next_uid y = next_uid x) as Hn by (unfold next_uid; by rewrite Hact).
  unfold on_disk, saved. rewrite Hact, Hct, Hn, (config_max x y Hc), !Hs by (auto using next_uid_cases). done.
Qed.

Lemma small_not_copy u max : 1 <= u <= max -> max < 2 ^ 31 -> u <> A_UID /\ u <> B_UID.
Proof. unfold A_UID, B_UID, SMM_VARIABLE_INDEX_STORAGE_A_UID, SMM_VARIABLE_INDEX_STORAGE_B_UID. lia. Qed.

Lemma others_copies x y nv u max :
  1 <= u <= max -> max < 2 ^ 31 -> (forall nv' u', (nv', u') <> (nv, u) -> asset_of y nv' u' = asset_of x nv' u') ->
  copies_same x y.
Proof.
  intros Hu Hm Ha u' Hu'. destruct (small_not_copy u max Hu Hm). apply Ha. intros [= _ ->]. tauto.
Qed.

(** The stored variables are the same. *)
Lemma persisted_vars x y :
  alike x y -> still x y ->
  (forall k v, persistent v -> vars (variable_index_ y) !! k = Some v <-> vars (variable_index_ x) !! k = Some v) ->
  persisted x -> persisted y.
Proof.
  intros Hal Hs Hv (ix0 & Hd & [H1 H2]). exists ix0. split; [by eapply on_disk_alike; [exact Hal|intros u _; apply Hs|]|].
  split.
  - intros k v Hk Hp. apply H1; [by apply Hv|done].
  - intros k v' Hk Hp. rewrite Hs. destruct (H2 k v' Hk Hp) as [(v & Hkv & Hpv & Hu)|H]; [left|by right].
    exists v. split; [by apply Hv|done].
Qed.

Lemma persisted_update x y k v :
  store_inv x -> vars (variable_index_ x) !! k = Some v -> v_set v = true -> called x y ->
  (forall nv u, (nv, u) <> (nv_of v, v_uid v) -> asset_of y nv u = asset_of x nv u) -> persisted x -> persisted y.
Proof.
  intros Hx Hk Hset Hc Ha (ix0 & Hd & [H1 H2]). pose proof (si_index x Hx) as Hix. pose proof Hix as (Hmax & _).
  exists ix0. split.
  { eapply on_disk_alike; [by apply called_alike|eapply others_copies; [by eapply uid_range|lia|done]|done]. }
  pose proof Hd as (Hok0 & _). split; rewrite (called_index x y Hc); [done|].
  intros k' v' Hk' Hp'. destruct (H2 k' v' Hk' Hp') as [H|H]; [by left|].
  destruct (decide ((true, v_uid v') = (nv_of v, v_uid v))) as [[= Hnv Hu]|Hne]; [left|right; by rewrite Ha].
  assert (persistent v) as Hp.
  { split; [done|]. unfold nv_of, has in Hnv. by apply eq_sym, negb_true_iff, Z.eqb_neq in Hnv. }
  destruct (H1 k v Hk Hp) as (v2 & Hk2 & _ & Hu2 & _).
  assert (k' = k) as -> by (eapply uid_unique; [exact Hok0|exact Hk'|exact Hk2|congruence]). by exists v.
Qed.

Lemma persisted_remove x y k v :
  store_inv x -> alike x y -> vars (variable_index_ x) !! k = Some v ->
  vars (variable_index_ y) = <[k := cleared v]> (vars (variable_index_ x)) -> asset_of y (nv_of v) (v_uid v) = None ->
  (forall nv u, (nv, u) <> (nv_of v, v_uid v) -> asset_of y nv u = asset_of x nv u) -> persisted x -> persisted y.
Proof.
  intros Hx Hal Hk Hvars Hnone Ha (ix0 & Hd & [H1 H2]). pose proof (si_index x Hx) as Hix. pose proof Hix as (Hmax & _).
  exists ix0. split.
  { eapply on_disk_alike; [done|eapply others_copies; [by eapply uid_range|lia|done]|done]. }
  assert (forall u, asset_of x true u = None -> asset_of y true u = None) as Hno.
  { intros u Hu. destruct (decide ((true, u) = (nv_of v, v_uid v))) as [Heq|Hne]; [|by rewrite Ha]. by injection Heq as -> ->. }
  split; rewrite Hvars.
  - intros k' v' Hk' Hp. destruct (decide (k = k')) as [<-|Hne].
    + rewrite lookup_insert_eq in Hk'. injection Hk' as <-. by destruct Hp.
    + rewrite lookup_insert_ne in Hk' by done. by apply H1.
  - intros k' v' Hk' Hp. destruct (H2 k' v' Hk' Hp) as [(v2 & Hk2 & Hp2 & Hu2)|H]; [|right; by apply Hno].
    destruct (decide (k = k')) as [<-|Hne].
    + right. rewrite Hk in Hk2. injection Hk2 as <-. rewrite <- Hu2.
      assert (nv_of v = true) as Hnv by (unfold nv_of, has; apply negb_true_iff, Z.eqb_neq, Hp2). by rewrite Hnv in Hnone.
    + left. exists v2. by rewrite lookup_insert_ne.
Qed.

(** The index is saved whole. *)
Lemma persisted_sync x y ix0 :
  store_inv x -> synced x y -> on_disk x ix0 ->
  active_variable_index_uid y = next_uid x -> counter (variable_index_ y) = u32 (counter (variable_index_ x) + 1) ->
  saved y (counter (variable_index_ x) + 1) (entries (variable_index_ x)) -> persisted y.
Proof.
  intros Hx Hs (_ & _ & Hf & Hab & Hd) Hact Hct Hsaved. destruct (synced_inv x y Hx Hs) as (Hy & Hv & _).
  pose proof (si_index x Hx) as Hix. pose proof (config_max x y (sy_config x y Hs)) as Hm.
  exists (variable_index_ x). split; [|split; rewrite Hv].
  - split; [done|]. split; [done|]. split; [rewrite Hct; by apply wrap_fits|].
    split; [rewrite Hact; apply next_uid_cases|]. left. split.
    { unfold saved in *. by rewrite Hct, wrap_idem. }
    assert (next_uid y = active_variable_index_uid x) as Hnext.
    { unfold next_uid at 1. rewrite Hact. unfold next_uid. by destruct Hab as [-> | ->]. }
    intros a Ha. rewrite Hnext, (sy_only _ _ Hs) in Ha by (unfold next_uid; by destruct Hab as [-> | ->]).
    destruct Hd as [[(a' & Ha' & Hda') _]|(HA & HB & _)]; [|by destruct Hab as [Hab|Hab]; rewrite Hab in Ha; congruence].
    rewrite Ha in Ha'. injection Ha' as <-. rewrite Hda'. eexists. do 2 f_equal. rewrite Hct.
    unfold fits in Hf. unfold wrap. rewrite Zminus_mod_idemp_l, Z.add_simpl_r. done.
  - intros k v Hk Hp. by exists v.
  - intros k v Hk Hp. left. by exists v.
Qed.

(** ** SetVariable *)

Definition stored_attributes var : Z := Z.land (av_Attributes var) (Z.lxor (2 ^ 32 - 1) EFI_VARIABLE_APPEND_WRITE).

(** What a request may do to a map of variables.  [held]: there is an entry for the name,
    with data or without. *)
Definition set_spec (m m' : key -> option (Z * bytes)) var (st : Z) : Prop :=
  let k := request_key var in
  (forall k', k' <> k -> m' k' = m k') /\
  exists held : bool, (m k <> None -> held = true) /\
  if st =? EFI_SUCCESS then
    if held && is_remove var then m' k = None
    else if has (av_Attributes var) EFI_VARIABLE_APPEND_WRITE then
      if DataSize var =? 0 then m' k = m k
      else exists old, m k = Some (stored_attributes var, old) /\ m' k = Some (stored_attributes var, old ++ request_data var)
    else m' k = Some (av_Attributes var, request_data var)
  else m' k = m k \/ (held && is_remove var = true /\ m' k = None).

Lemma no_append_attributes a :
  fits 32 a -> has a EFI_VARIABLE_APPEND_WRITE = false -> Z.land a (Z.lxor (2 ^ 32 - 1) EFI_VARIABLE_APPEND_WRITE) = a.
Proof.
  unfold has, fits, EFI_VARIABLE_APPEND_WRITE. intros Ha H%negb_false_iff%Z.eqb_eq.
  assert (Z.testbit a 6 = false) as H6.
  { pose proof (f_equal (fun z => Z.testbit z 6) H) as Hb. cbv beta in Hb. rewrite Z.land_spec, Z.bits_0 in Hb.
    by rewrite andb_true_r in Hb. }
  apply Z.bits_inj'. intros i Hi. rewrite Z.land_spec, Z.lxor_spec. change (2 ^ 32 - 1) with (Z.ones 32).
  change 64 with (2 ^ 6). rewrite Z.testbit_ones, Z.pow2_bits_eqb by lia.
  destruct (Z.leb_spec 0 i); [|lia]. destruct (Z.ltb_spec i 32); destruct (Z.eqb_spec 6 i) as [<-|]; simpl;
    rewrite ?andb_true_r, ?andb_false_r; try done.
  rewrite <- (Z.mod_small a (2 ^ 32)) by lia. by rewrite Z.mod_pow2_bits_high by lia.
Qed.

Definition saves_index (r : Z + bool) : bool := match r with inr b => b | inl _ => false end.

(** What is on the disk between the two parts of an operation: all there is to know, or
    an older state that is about to be replaced. *)
Lemma applied_persisted x k v var r y v' :
  store_inv x -> vars (variable_index_ x) !! k = Some v -> alike x y -> applied x k v var r y v' -> persisted x ->
  (exists ix0, on_disk y ix0) /\
  (persisted y \/ saves_index r = true /\ existsb dirty (entries (variable_index_ y)) = true).
Proof.
  intros Hx Hk Hal Happ Hper. pose proof Hper as (ix0 & Hd & _).
  assert (persisted y -> (exists ix0, on_disk y ix0) /\
    (persisted y \/ saves_index r = true /\ existsb dirty (entries (variable_index_ y)) = true)) as Hdone.
  { intros Hp. split; [|by left]. destruct Hp as (i & Hi & _). by exists i. }
  destruct Happ as [st Hst|y Hs Hrem Hvars Hnone Ha|Hs Hrem Hat|y v' Hs Hds -> Hvars Hstill Hdirty].
  - by apply Hdone.
  - apply Hdone. by eapply persisted_remove.
  - by apply Hdone.
  - destruct (has (av_Attributes var) EFI_VARIABLE_NON_VOLATILE) eqn:Hnv.
    + split; [|right; by split; [|apply Hdirty]]. exists ix0. eapply on_disk_alike; [done| |done]. intros u _. apply Hstill.
    + apply Hdone. eapply persisted_vars; [done|done| |done]. intros k' v' Hp. rewrite Hvars.
      destruct (decide (k = k')) as [<-|Hne]; [|by rewrite lookup_insert_ne].
      rewrite lookup_insert_eq, Hk. split; intros [= <-]; destruct Hp as [Hp1 Hp2]; simpl in *; [|congruence].
      unfold has in Hnv. apply negb_false_iff, Z.eqb_eq in Hnv. done.
Qed.

(** The index is saved if something must be. *)
Lemma sync_persisted x :
  store_inv x ->
  exists st y, sync_variable_index IP IW x = Some (st, y) /\ synced x y /\
    ((exists ix0, on_disk x ix0) -> persisted x \/ existsb dirty (entries (variable_index_ x)) = true ->
     st = EFI_SUCCESS -> persisted y).
Proof.
  intros Hx. destruct (sync_ok x Hx) as (st & y & Hsync & Hs & Hclean & Hdirty). exists st, y.
  split; [done|]. split; [done|]. intros [ix0 Hd] Hp ->. destruct (existsb dirty (entries (variable_index_ x))) eqn:Hb.
  - destruct (Hdirty eq_refl eq_refl) as (Hact & Hct & Hsv). by eapply persisted_sync.
  - destruct Hp as [Hp|]; [|done]. destruct (Hclean eq_refl) as (_ & Hst & Hact & Hct).
    destruct (synced_inv x y Hx Hs) as (_ & Hv & _). destruct Hs as [Hcf Hbo _ _ _ _].
    eapply persisted_vars; [done|done| |done]. by rewrite Hv.
Qed.

Lemma save_and_store_ok x pos k v var s :
  store_inv x -> at_pos (variable_index_ x) pos k v -> request_ok var ->
  exists st y v', save_and_store IP IW malloc_ok junk uninitialised x pos var s = Some (st, y) /\ store_inv y /\
    config y = config x /\ is_boot_service y = is_boot_service x /\ at_pos (variable_index_ y) pos k v' /\
    (forall k', k' <> k -> contents y k' = contents x k') /\
    (st = EFI_SUCCESS /\ (if v_set v then stored x y k v var else contents y k = contents x k) \/
     st <> EFI_SUCCESS /\ contents y k = contents x k) /\
    ((exists ix0, on_disk x ix0) -> persisted x \/ s = true /\ existsb dirty (entries (variable_index_ x)) = true ->
     st = EFI_SUCCESS -> persisted y).
Proof.
  intros Hx Hp Hvar. unfold save_and_store.
  assert (exists st y, (if s then sync_variable_index IP IW x else Some (EFI_SUCCESS, x)) = Some (st, y) /\
    dropped x y /\ at_pos (variable_index_ y) pos k v /\
    ((exists ix0, on_disk x ix0) -> persisted x \/ s = true /\ existsb dirty (entries (variable_index_ x)) = true ->
     st = EFI_SUCCESS -> persisted y)) as (st & y & -> & Hd & Hpy & Hper).
  { destruct s.
    - destruct (sync_persisted x Hx) as (st & y & -> & Hs & Hper). exists st, y. split; [done|].
      split; [by apply synced_dropped|]. split; [eapply clean_at_pos; [apply Hs|done]|].
      intros Hd Hp'. apply Hper; [done|]. destruct Hp' as [?|[_ ?]]; auto.
    - exists EFI_SUCCESS, x. split; [done|]. split; [by apply dropped_refl|]. split; [done|]. by intros _ [?|[? _]]. }
  cbn [mbind option_bind]. pose proof Hpy as (e & He & _ & _ & Hv). rewrite He. cbn [mbind option_bind].
  assert (is_variable_set (info e) = v_set v) as -> by by rewrite <- Hv.
  destruct (Z.eqb_spec st EFI_SUCCESS) as [->|Hst]; [|rewrite andb_false_r].
  2:{ exists st, y, v. split; [done|]. split; [apply Hd|]. split; [apply Hd|]. split; [apply Hd|]. split; [done|].
      split; [intros; apply Hd|]. split; [right; split; [done|apply Hd]|]. done. }
  rewrite andb_true_r. destruct (v_set v) eqn:Hset.
  2:{ exists EFI_SUCCESS, y, v. split; [done|]. split; [apply Hd|]. split; [apply Hd|]. split; [apply Hd|]. split; [done|].
      split; [intros; apply Hd|]. split; [left; split; [done|apply Hd]|]. done. }
  destruct (store_data_ok y pos k v var (dr_inv _ _ Hd) Hpy Hset Hvar)
    as (st & z & -> & Hz & Hoth & H).
  destruct H as [(-> & Hst & Hc & Ha)|(Hst & Hdz)].
  - exists EFI_SUCCESS, z, v. split; [done|]. split; [done|].
    split; [rewrite <- (dr_config _ _ Hd); by eapply called_config|].
    split; [rewrite <- (dr_boot _ _ Hd); by destruct Hc as [[=] _]|]. split; [by rewrite (called_index _ _ Hc)|].
    split; [intros; rewrite Hoth by done; apply Hd|]. split.
    + left. split; [done|]. unfold stored in *. by rewrite <- (dr_contents _ _ Hd k).
    + intros Hdk Hp' _. eapply persisted_update; [apply Hd|by eapply at_pos_var; [apply (si_index _ (dr_inv _ _ Hd))|]|done|done|done|].
      by apply Hper.
  - assert (dropped x z) as Hxz by (eapply dropped_trans; [apply (si_index x Hx)|done|done]).
    destruct (dr_pos _ _ Hdz pos k v Hpy) as [Hpz|[Hpz _]]; exists st, z; eexists; (split; [done|]);
      (split; [apply Hxz|]); (split; [apply Hxz|]); (split; [apply Hxz|]); (split; [exact Hpz|]);
      (split; [intros; apply Hxz|]); (split; [right; split; [done|apply Hxz]|]); done.
Qed.

(** The outcome of a request, as the abstract map sees it. *)
Lemma outcome_spec x y k v var (held : bool) st :
  (forall k', k' <> request_key var -> contents y k' = contents x k') ->
  (contents x (request_key var) <> None -> held = true) ->
  (st <> EFI_SUCCESS /\ (contents y (request_key var) = contents x (request_key var) \/
     held && is_remove var = true /\ contents y (request_key var) = None) \/
   st = EFI_SUCCESS /\ held && is_remove var = true /\ contents y (request_key var) = None \/
   st = EFI_SUCCESS /\ held && is_remove var = false /\ k = request_key var /\ stored x y k v var /\
     (v_attributes v = stored_attributes var \/ v_attributes v = av_Attributes var /\ contents x k = None) /\
     fits 32 (av_Attributes var)) ->
  set_spec (contents x) (contents y) var st.
Proof.
  intros Hoth Hheld H. split; [done|]. exists held. split; [done|].
  destruct H as [(Hst & H)|[(-> & -> & H)|(-> & -> & -> & H & Hat & Hf)]].
  - destruct (Z.eqb_spec st EFI_SUCCESS); [done|]. destruct H as [H|H]; [by left|by right].
  - done.
  - simpl Z.eqb. cbv match. unfold stored in H. destruct (has (av_Attributes var) EFI_VARIABLE_APPEND_WRITE) eqn:Ha.
    + destruct (DataSize var =? 0); [done|]. destruct H as (old & H1 & H2).
      destruct Hat as [Hat|[_ Hat]]; [|congruence]. rewrite Hat in *. by exists old.
    + destruct Hat as [Hat|[Hat _]]; [|by rewrite Hat in H].
      unfold stored_attributes in Hat. by rewrite no_append_attributes, Hat in H || (rewrite Hat, no_append_attributes in H).
Qed.

Lemma entry_added_persisted x y k v :
  alike x y -> still x y -> entry_added x y k v -> persisted x -> persisted y.
Proof.
  intros Hal Hs (Hnone & Hset & _ & Hvars). apply persisted_vars; [done|done|]. intros k' v' [Hp _]. rewrite Hvars.
  destruct (decide (k = k')) as [<-|Hne]; [|by rewrite lookup_insert_ne].
  rewrite lookup_insert_eq, Hnone. split; [|done]. intros [= ->]. congruence.
Qed.

(** The released entry held nothing. *)
Lemma release_persisted x pos k v ix :
  store_inv x -> at_pos (variable_index_ x) pos k v -> alike x (with_index x ix) ->
  vars ix = (if unused v then delete k (vars (variable_index_ x)) else vars (variable_index_ x)) ->
  persisted x -> persisted (with_index x ix).
Proof.
  intros Hx Hp Hal Hvars. apply persisted_vars; [done|done|]. intros k' v' [Hset _]. simpl. rewrite Hvars.
  pose proof (at_pos_var _ _ _ _ (si_index x Hx) Hp) as Hk.
  destruct (unused v) eqn:Hun; [|done]. destruct (decide (k = k')) as [<-|Hne]; [|by rewrite lookup_delete_ne].
  rewrite lookup_delete_eq, Hk. split; [done|]. intros [= ->]. unfold unused in Hun. rewrite Hset in Hun. done.
Qed.

Lemma stored_same x y x' y' k v var :
  contents x' k = contents x k -> contents y' k = contents y k -> stored x y k v var -> stored x' y' k v var.
Proof. unfold stored. by intros -> ->. Qed.

(** The operation succeeded or changed nothing; [y] is what it leaves. *)
Definition set_outcome x var (st : Z) y : Prop :=
  store_inv y /\ config y = config x /\ is_boot_service y = is_boot_service x /\
  set_spec (contents x) (contents y) var st /\ (persisted x -> st = EFI_SUCCESS -> persisted y).

Lemma refused_outcome x y var st :
  st <> EFI_SUCCESS -> store_inv y -> alike x y -> (forall k, contents y k = contents x k) -> set_outcome x var st y.
Proof.
  intros Hst Hy (Hc & Hb & _) Hct. split; [done|]. split; [done|]. split; [done|]. split; [|done].
  apply (outcome_spec x y (request_key var) (fresh_variable 0) var true); [auto|done|left; auto].
Qed.

(** An existing or a new entry is updated. *)
Lemma update_variable_ok x pos v e var :
  store_inv x -> at_pos (variable_index_ x) pos (request_key var) v ->
  nthZ (entries (variable_index_ x)) pos = Some e -> request_ok var ->
  exists st y, update_variable IP IW malloc_ok junk uninitialised x pos e var = Some (st, y) /\ set_outcome x var st y.
Proof.
  intros Hx Hp He Hvar. unfold update_variable. pose proof (at_pos_var _ _ _ _ (si_index _ Hx) Hp) as Hk.
  destruct (apply_request_ok x pos _ v e var Hx Hp He Hvar) as (r & x2 & v2 & -> & Happ & Hx2 & Hal2 & Hp2 & Hoth2).
  cbn [mbind option_bind]. destruct r as [st|s].
  { inversion Happ; subst. eexists _, _. split; [done|]. by apply refused_outcome. }
  destruct (save_and_store_ok x2 pos _ v2 var s Hx2 Hp2 Hvar)
    as (st & x3 & v3 & -> & Hx3 & Hc3 & Hb3 & Hp3 & Hoth3 & Hres & Hper3).
  cbn [mbind option_bind].
  destruct (release_ok x3 pos _ v3 Hx3 Hp3) as (ix & -> & Hy & Hal & Hct & Hvars). cbn [mbind option_bind].
  eexists _, _. split; [done|]. pose proof Hal as (Hc4 & Hb4 & _). pose proof Hal2 as (Hc2 & Hb2 & _).
  split; [done|]. split; [congruence|]. split; [congruence|]. split.
  2:{ intros Hper ->. eapply release_persisted; [exact Hx3|exact Hp3|done|done|].
      destruct (applied_persisted x _ v var _ x2 v2 Hx Hk Hal2 Happ Hper) as [Hd Hp']. by apply Hper3. }
  assert (contents x (request_key var) <> None -> v_set v = true) as Hheld.
  { unfold contents, UefiStoreSpec.contents. rewrite Hk. cbn [mbind option_bind]. by destruct (v_set v). }
  apply (outcome_spec x _ (request_key var) v2 var (v_set v)); [intros; by rewrite Hct, Hoth3, Hoth2|done|].
  rewrite Hct. destruct Hvar as (_ & _ & _ & _ & _ & Hf).
  inversion Happ as [|y Hs Hrem Hvs Hnone Ha|Hs Hrem Hat|y v' Hs Hds Hv' Hvs Hstill Hdirty]; subst.
  - assert (contents x2 (request_key var) = None) as Hnil.
    { unfold contents, UefiStoreSpec.contents. rewrite Hvs, lookup_insert_eq. done. }
    rewrite Hs, Hrem. simpl. simpl in Hres. destruct Hres as [(-> & H)|(Hst & H)]; rewrite Hnil in H; auto.
  - rewrite Hs in *. rewrite Hrem. destruct Hres as [(-> & H)|(Hst & H)]; [right; right|left; auto].
    do 3 (split; [done|]). split; [by eapply stored_same; [..|exact H]|]. split; [by left|done].
  - assert (contents x2 (request_key var) = contents x (request_key var)) as Hsame.
    { unfold contents, UefiStoreSpec.contents. rewrite Hvs, lookup_insert_eq, Hk. cbn [mbind option_bind v_set].
      rewrite Hs. rewrite Hstill. simpl v_uid.
      rewrite (no_asset x (request_key var) v); [done|done|done|by left]. }
    assert (contents x (request_key var) = None) as Hnone.
    { unfold contents, UefiStoreSpec.contents. rewrite Hk. cbn [mbind option_bind]. by rewrite Hs. }
    rewrite Hs in *. simpl in Hres |- *. destruct Hres as [(-> & H)|(Hst & H)]; [right; right|left; rewrite H, Hsame; auto].
    split; [done|]. split; [done|]. split; [done|]. split; [|auto]. by eapply stored_same; [..|exact H].
Qed.

Lemma set_variable_ok x var :
  store_inv x -> request_ok var ->
  exists st y, uefi_variable_store_set_variable IP IW malloc_ok junk uninitialised x var = Some (st, y) /\
    set_outcome x var st y.
Proof.
  intros Hx Hvar. unfold uefi_variable_store_set_variable.
  destruct (terminator_ok (Name var) (NameSize var)) as (st & -> & Hst); [destruct Hvar as (_ & ? & ? & ? & _); lia|].
  cbn [mbind option_bind]. destruct (Z.eqb_spec st EFI_SUCCESS); cbn [negb];
    [|eexists _, _; split; [done|]; by apply refused_outcome].
  destruct (Z.eqb_spec (check_capabilities var) EFI_SUCCESS); cbn [negb];
    [|eexists _, _; split; [done|]; by apply refused_outcome].
  destruct (find_or_add_ok x var Hx Hvar) as [(st' & -> & Hst' & _)|(pos & v & x1 & -> & Hp & Hx1 & Hal & Hstill & Hct & Hadd)];
    cbn [mbind option_bind]; [eexists _, _; split; [done|]; by apply refused_outcome|].
  pose proof Hp as (e1 & He & _ & _ & Hv). rewrite He. cbn [mbind option_bind].
  assert (persisted x -> persisted x1) as Hper1.
  { destruct Hadd as [->|Hadd]; [done|]. by eapply entry_added_persisted. }
  destruct (Z.eqb_spec (check_access_permitted_on_set x1 (info e1) var) EFI_SUCCESS) as [_|Hst1].
  - destruct (update_variable_ok x1 pos v e1 var Hx1 Hp He Hvar) as (st1 & y & -> & Hy & Hc & Hb & Hspec & Hper).
    exists st1, y. split; [done|]. destruct Hal as (Hc1 & Hb1 & _). split; [done|]. split; [congruence|].
    split; [congruence|]. split; [|auto]. unfold set_spec in *. rewrite !Hct in Hspec.
    destruct Hspec as [Hoth Hspec]. split; [|done]. intros k' Hne. by rewrite Hoth, Hct.
  - destruct (release_ok x1 pos _ v Hx1 Hp) as (ix & -> & Hy & Hal' & Hc' & _). cbn [mbind option_bind].
    eexists _, _. split; [done|]. apply refused_outcome; [done|done|by eapply alike_trans|]. intros k. by rewrite Hc'.
Qed.

End Store.
