(* ===== verification/UefiStoreRun.v ===== *)
(** * The UEFI variable store in operation

    Reading variables, histories of requests, and the start of the store: the theorems on
    uefi_variable_store.c, for any two lawful backends, and samples over mock stores. *)
From S2P Require Import Prelude Status StorageBackend VariableIndex VariableStorage UefiStore UefiStoreSpec UefiStoreSet.

(** The abstract store: the variables, and whether boot services are available. *)
Abbreviation map_state := ((key -> option (Z * bytes)) * bool)%type.

Section Store.
Context {P W : Type} {IP : storage_backend_interface P} {IW : storage_backend_interface W}.
Context {VP : storage_view P} {VW : storage_view W} `{!StorageLaws IP VP} `{!StorageLaws IW VW}.
Context {malloc_ok : Z -> bool} {junk : Z -> bytes} {uninitialised : psa_storage_info_t}.
Context (Hjunk : forall n, 0 <= n -> len (junk n) = n).
Abbreviation store_ctx := (uefi_variable_store P W).
Abbreviation asset_of := (UefiStoreSpec.asset_of (VP := VP) (VW := VW)).
Abbreviation still := (UefiStoreSpec.still (VP := VP) (VW := VW)).
Abbreviation called := (UefiStoreSpec.called (VP := VP) (VW := VW)).
Abbreviation contents := (UefiStoreSpec.contents (VP := VP) (VW := VW)).
Abbreviation store_inv := (UefiStoreSpec.store_inv (VP := VP) (VW := VW)).
Abbreviation dropped := (UefiStoreSpec.dropped (VP := VP) (VW := VW)).
Abbreviation saved := (UefiStoreSpec.saved (VP := VP) (VW := VW)).
Abbreviation on_disk := (UefiStoreSet.on_disk (VP := VP) (VW := VW)).
Abbreviation matching := (UefiStoreSet.matching (VP := VP) (VW := VW)).
Abbreviation persisted := (UefiStoreSet.persisted (VP := VP) (VW := VW)).
Implicit Types x y : store_ctx.

(** ** GetVariable *)

(** Whether a variable with these attributes may be accessed. *)
Definition accessible (boot : bool) (a : Z) : bool :=
  negb (has a (Z.lor EFI_VARIABLE_BOOTSERVICE_ACCESS EFI_VARIABLE_RUNTIME_ACCESS)) ||
  has a (if boot then EFI_VARIABLE_BOOTSERVICE_ACCESS else EFI_VARIABLE_RUNTIME_ACCESS).

Lemma variable_access_spec x i :
  is_variable_set i = true ->
  check_access_permitted x i =
    if accessible (is_boot_service x) (attributes (metadata i)) then EFI_SUCCESS else EFI_NOT_FOUND.
Proof.
  intros Hs. unfold check_access_permitted, accessible. rewrite Hs. simpl.
  destruct (has _ (Z.lor _ _)); [|done]. simpl. by destruct (is_boot_service x), (has _ _).
Qed.

(** The reply to a request for the variable with attributes [a] and data [d]. *)
Definition get_reply (var var' : SMM_VARIABLE_COMMUNICATE_ACCESS_VARIABLE) (max_data_len st total : Z) (limit : Z)
    (c : option (Z * bytes)) (boot : bool) : Prop :=
  len (Name var') = len (Name var) /\ Guid_ var' = Guid_ var /\ NameSize var' = NameSize var /\
  slice (Name var') 0 (NameSize var) = slice (Name var) 0 (NameSize var) /\
  match c with
  | Some (a, d) =>
      if accessible boot a then
        if len d <=? Z.min (DataSize var) max_data_len then
          (len d <= limit -> st = EFI_SUCCESS) /\
          (st = EFI_SUCCESS -> DataSize var' = len d /\ request_data var' = d /\ av_Attributes var' = a /\
             total = u64 (ACCESS_VARIABLE_NAME_OFFSET + NameSize var + len d))
        else st = EFI_BUFFER_TOO_SMALL /\ DataSize var' = len d /\ av_Attributes var' = a
      else st = EFI_NOT_FOUND /\ total = 0 /\ var' = var
  | None => st = EFI_NOT_FOUND /\ total = 0
  end.

(** A request that names a variable; [max_data_len] octets of room behind the name. *)
Definition lookup_ok (var : SMM_VARIABLE_COMMUNICATE_ACCESS_VARIABLE) (max_data_len : Z) : Prop :=
  guid_ok (Guid_ var) /\ 0 <= NameSize var /\ 0 <= DataSize var /\ 0 <= max_data_len /\
  NameSize var + max_data_len <= len (Name var) < 2 ^ 63.

Lemma load_data_ok x k v e var max_data_len :
  store_inv x -> vars (variable_index_ x) !! k = Some v -> entry_variable e = v -> lookup_ok var max_data_len ->
  exists st var' y, load_variable_data IP IW uninitialised x e var max_data_len = Some (st, var', y) /\
    called x y /\ still x y /\ len (Name var') = len (Name var) /\ Guid_ var' = Guid_ var /\ NameSize var' = NameSize var /\
    slice (Name var') 0 (NameSize var) = slice (Name var) 0 (NameSize var) /\
    match asset_of x (nv_of v) (v_uid v) with
    | Some a =>
        if len (a_data a) <=? Z.min (DataSize var) max_data_len then
          (len (a_data a) <= limit (VP := VP) (VW := VW) (nv_of v) -> st = EFI_SUCCESS) /\
          (st = EFI_SUCCESS -> DataSize var' = len (a_data a) /\ request_data var' = a_data a)
        else st = EFI_BUFFER_TOO_SMALL /\ DataSize var' = len (a_data a)
    | None => st = EFI_NOT_FOUND
    end.
Proof.
  intros [Hco Hix Hb Hown] Hk Hv (_ & Hn & Hd & Hmax0 & Hl & Hl64). unfold load_variable_data.
  pose proof (uid_range _ _ _ Hix Hk) as Hur. pose proof Hix as (Hm & _).
  assert (select_delegate_store (attributes (metadata (info e))) = nv_of v) as -> by (by rewrite <- Hv).
  assert (uid (metadata (info e)) = v_uid v) as -> by (by rewrite <- Hv).
  destruct Hco as [_ _ [Hp1 _] [Hw1 _] _ _].
  assert (has_backend (delegate_store x (nv_of v)) = true) as -> by (unfold delegate_store; by destruct (nv_of v)).
  assert (fits 64 (v_uid v)) as Hu by (unfold fits; lia).
  destruct (backend_get_info_ok x (nv_of v) (v_uid v) uninitialised Hb Hu) as (st & i & y & -> & Hc & Hs & Hi).
  cbn [mbind option_bind]. destruct (asset_of x (nv_of v) (v_uid v)) as [a|] eqn:Ha.
  2:{ destruct Hi as [Hst Hdne]. rewrite (Hdne ltac:(lia)). simpl. eexists _, var, y. auto 8. }
  destruct Hi as (-> & Hsz & _). simpl Z.eqb. cbv match.
  destruct (Hown _ _ _ Hur Ha) as [[_ Hlen] _]. pose proof (len_nonneg (a_data a)). rewrite wrap_small in Hsz by lia.
  rewrite Hsz. assert ((if DataSize var <? max_data_len then DataSize var else max_data_len) = Z.min (DataSize var) max_data_len)
    as -> by (destruct (Z.ltb_spec (DataSize var) max_data_len); lia).
  destruct (Z.leb_spec (len (a_data a)) (Z.min (DataSize var) max_data_len)) as [Hle|Hgt].
  2:{ destruct (Z.geb_spec (Z.min (DataSize var) max_data_len) (len (a_data a))); [lia|].
      eexists _, _, y. split; [done|]. simpl. auto 8. }
  destruct (Z.geb_spec (Z.min (DataSize var) max_data_len) (len (a_data a))); [|lia].
  set (buf := drop (Z.to_nat (NameSize var)) (Name var)).
  assert (len buf = len (Name var) - NameSize var) as Hlb by (unfold buf, len in *; rewrite length_drop; lia).
  destruct (backend_get_ok y (nv_of v) (v_uid v) 0 (len (a_data a)) buf 0) as (st & b & n & z & -> & Hc2 & Hs2 & Hlb2 & Hg & _);
    [apply Hc|done|done|unfold fits; lia|intros _ a' Ha'; lia|].
  cbn [mbind option_bind]. rewrite Hs, Ha in Hg. destruct Hg as [Hok Hg].
  assert (len (take (Z.to_nat (NameSize var)) (Name var)) = NameSize var) as Hlt
    by (unfold len in *; rewrite length_take; lia).
  eexists _, _, z. split; [done|]. simpl. split; [by eapply called_trans|]. split; [by eapply still_trans|].
  split; [rewrite len_app; lia|]. split; [done|]. split; [done|]. split; [|split].
  - unfold slice. rewrite !drop_0, take_app_le by (unfold len in Hlt; lia). by rewrite take_take, Nat.min_id.
  - intros Hlim. rewrite Hok; [done|lia|done].
  - intros Hst%psa_to_efi_success. destruct (Hg Hst) as (_ & Hn' & Hcp). rewrite Z.sub_0_r, Z.min_id in Hn'. subst n.
    split; [done|]. rewrite slice_all in Hcp. apply copy_out_inv in Hcp. unfold request_data. simpl.
    apply load_store_same in Hcp. rewrite load_is_slice in Hcp by lia. injection Hcp as Hcp.
    rewrite <- Hcp at 2. unfold slice. rewrite drop_app_length' by (unfold len in Hlt; lia). by rewrite drop_0.
Qed.

Definition terminated (nm : bytes) (n : Z) : Prop := check_name_terminator nm n = Some EFI_SUCCESS.

(** The limit of the backend that holds the variable. *)
Definition read_limit x (k : key) : Z :=
  match vars (variable_index_ x) !! k with Some v => limit (VP := VP) (VW := VW) (nv_of v) | None => 0 end.

Lemma get_variable_ok x var max_data_len total :
  store_inv x -> lookup_ok var max_data_len -> terminated (Name var) (NameSize var) ->
  exists st var' total' y,
    uefi_variable_store_get_variable IP IW uninitialised x var max_data_len total = Some (st, var', total', y) /\
    called x y /\ still x y /\
    get_reply var var' max_data_len st total' (read_limit x (request_key var)) (contents x (request_key var))
      (is_boot_service x).
Proof.
  intros Hx Hvar Ht. unfold uefi_variable_store_get_variable. rewrite Ht. cbn [mbind option_bind].
  simpl Z.eqb. cbn [negb]. cbv match. pose proof Hvar as (Hg & Hn & Hd & Hm0 & Hl). pose proof (si_index x Hx) as Hix.
  destruct (find_pos _ (Guid_ var) (NameSize var) (Name var) Hix) as [(pos & v & -> & Hp)|[-> Hnone]]; [lia| |];
    cbn [mbind option_bind].
  2:{ exists EFI_NOT_FOUND, var, 0, x. split; [done|]. split; [apply called_refl, Hx|]. split; [done|].
      assert (vars (variable_index_ x) !! request_key var = None) as Hnone' by exact Hnone.
      unfold get_reply, contents, UefiStoreSpec.contents. by rewrite Hnone'. }
  pose proof (at_pos_var _ _ _ _ Hix Hp) as Hk. pose proof Hp as (e & He & _ & _ & Hv). rewrite He. cbn [mbind option_bind].
  change (vars (variable_index_ x) !! request_key var = Some v) in Hk. assert (contents x (request_key var) =
    if v_set v then a ← asset_of x (nv_of v) (v_uid v); Some (v_attributes v, a_data a) else None) as ->.
  { unfold contents, UefiStoreSpec.contents. by rewrite Hk. }
  unfold read_limit. rewrite Hk.
  assert (is_variable_set (info e) = v_set v) as Hset by by rewrite <- Hv.
  assert (attributes (metadata (info e)) = v_attributes v) as Hat by by rewrite <- Hv.
  rewrite Hset. destruct (v_set v) eqn:Hs.
  2:{ exists EFI_NOT_FOUND, var, 0, x. split; [done|]. split; [apply called_refl, Hx|]. split; [done|]. done. }
  rewrite variable_access_spec, Hat by done.
  destruct (load_data_ok x _ v e var max_data_len Hx Hk Hv Hvar)
    as (st & var' & y & Hload & Hc & Hst & Hl' & Hg' & Hn' & Hnm & H). rewrite Hload.
  destruct (accessible (is_boot_service x) (v_attributes v)) eqn:Hacc; cbv match.
  2:{ exists EFI_NOT_FOUND, var, 0, x. split; [done|]. split; [apply called_refl, Hx|]. split; [done|].
      destruct (asset_of x (nv_of v) (v_uid v)); simpl; unfold get_reply; by rewrite ?Hacc. }
  simpl Z.eqb. cbv match. cbn [mbind option_bind]. eexists _, _, _, y. split; [done|]. split; [done|]. split; [done|].
  unfold get_reply. cbn [Name Guid_ NameSize DataSize av_Attributes]. do 4 (split; [done|]).
  destruct (asset_of x (nv_of v) (v_uid v)) as [a|]; simpl mbind; cbv match; [|by subst st].
  rewrite Hacc. destruct (_ <=? _); [|by destruct H as [-> Hds]].
  destruct H as [H1 H2]. split; [done|]. intros ->. destruct (H2 eq_refl) as [Hds Hrd]. do 2 (split; [done|]).
  split; [done|]. simpl. by rewrite Hn', Hds.
Qed.


(** ** The start of the store *)

(** The copies of the index in the persistent backend: [act] is the one to be used. *)
Definition copies x (act c : Z) (ix0 : variable_index) : Prop :=
  (act = A_UID \/ act = B_UID) /\ fits 32 c /\
  (exists a, asset_of x true act = Some a /\ a_data a = le_split 4 c ++ image (entries ix0)) /\
  (forall a, asset_of x true (if act =? A_UID then B_UID else A_UID) = Some a ->
     exists d, a_data a = le_split 4 (u32 (c - 1)) ++ d).

Context (Hlimit : RPC_CALLER_SESSION_SHARED_MEMORY_SIZE <= sv_limit VP).

Lemma copy_uid_fits u : u = A_UID \/ u = B_UID -> fits 64 u /\ u <> 0.
Proof. by intros [-> | ->]. Qed.

Lemma read_counter_ok x u k :
  backends_ok (VP := VP) (VW := VW) x -> u = A_UID \/ u = B_UID ->
  match asset_of x true u with
  | Some a => forall c d, fits 32 c -> a_data a = le_split 4 c ++ d ->
      exists y, read_copy_counter IP IW x u k = Some (Some PSA_SUCCESS, c, 4, y) /\ called x y /\ still x y
  | None => exists c k' y, read_copy_counter IP IW x u k = Some (Some PSA_ERROR_DOES_NOT_EXIST, c, k', y) /\
      called x y /\ still x y
  end.
Proof.
  intros Hok Hu. destruct (copy_uid_fits u Hu) as [Huf Hu0]. unfold read_copy_counter.
  unfold RPC_CALLER_SESSION_SHARED_MEMORY_SIZE in Hlimit.
  destruct (backend_get_ok x true u 0 4 (le_split 4 0) k Hok Huf) as (st & b & n & y & -> & Hc & Hs & Hl & Hg & _);
    [done|done|rewrite len_le_split; lia|]. cbn [mbind option_bind].
  destruct (asset_of x true u) as [a|] eqn:Ha.
  - intros c d Hcf Hd. destruct Hg as [Hok1 Hg]. pose proof (len_nonneg (a_data a)).
    rewrite Hok1 in * by (simpl; lia). destruct (Hg eq_refl) as (_ & -> & Hcp).
    assert (len (a_data a) = 4 + len d) as Hla by (by rewrite Hd, len_app, len_le_split). pose proof (len_nonneg d).
    rewrite Z.sub_0_r, Z.min_r in * by lia. simpl Z.eqb. cbn [andb]. cbv match.
    assert (slice (a_data a) 0 4 = le_split 4 c) as Hsl.
    { unfold slice. rewrite Hd, drop_0. apply take_app_length'. by rewrite length_le_split. }
    rewrite Hsl in Hcp. apply copy_out_inv, load_store_same in Hcp. rewrite len_le_split in Hcp.
    rewrite len_le_split in Hl. replace (Z.of_nat 4) with (len b) in Hcp by done. rewrite load_all in Hcp.
    apply (inj Some) in Hcp as ->. exists y. split; [|done]. by rewrite le_roundtrip.
  - destruct Hg as [_ Hg]. rewrite Hg by (simpl; lia || done). simpl Z.eqb. cbn [andb]. cbv match.
    eexists _, _, y. by split.
Qed.

(** The newer copy is found. *)
Lemma get_active_ok x act c ix0 :
  backends_ok (VP := VP) (VW := VW) x -> has_backend (persistent_store x) = true -> copies x act c ix0 ->
  exists y, get_active_variable_uid IP IW x = Some (PSA_SUCCESS, act, c, y) /\ called x y /\ still x y.
Proof.
  intros Hok Hb (Hact & Hcf & (a & Ha & Hd) & Hother). unfold get_active_variable_uid. rewrite Hb.
  fold A_UID B_UID. pose proof (read_counter_ok x A_UID 0 Hok (or_introl eq_refl)) as HA.
  assert (u32 (u32 (c - 1) + 1) = c) as Hinc.
  { unfold wrap. rewrite Zplus_mod_idemp_l. replace (c - 1 + 1) with c by lia. by apply Z.mod_small. }
  assert (u32 (c + 1) <> u32 (c - 1)) as Hne.
  { unfold wrap, fits in *. intros He. assert ((c + 1 - (c - 1)) mod 2 ^ 32 = 0) as H0.
    { rewrite Zminus_mod, He, Z.sub_diag. done. }
    by replace (c + 1 - (c - 1)) with 2 in H0 by lia. }
  assert (fits 32 (u32 (c - 1))) as Hcf' by by apply wrap_fits.
  destruct Hact as [-> | ->].
  - rewrite Ha in HA. destruct (HA c _ Hcf Hd) as (y & -> & Hc & Hs). cbn [mbind option_bind].
    pose proof (read_counter_ok y B_UID 4 (proj2 Hc) (or_intror eq_refl)) as HB. rewrite Hs in HB.
    simpl Z.eqb in Hother. cbv match in Hother. destruct (asset_of x true B_UID) as [b|] eqn:Hab.
    + destruct (Hother b eq_refl) as [d Hdb]. destruct (HB _ _ Hcf' Hdb) as (z & -> & Hc2 & Hs2). cbn [mbind option_bind].
      simpl Z.eqb. cbn [negb andb orb]. cbv match. destruct (Z.eqb_spec (u32 (c + 1)) (u32 (c - 1))); [done|].
      rewrite Hinc, Z.eqb_refl. exists z. split; [done|]. split; [by eapply called_trans|by eapply still_trans].
    + destruct HB as (cb & n & z & -> & Hc2 & Hs2). cbn [mbind option_bind]. exists z. split; [done|].
      split; [by eapply called_trans|by eapply still_trans].
  - simpl Z.eqb in Hother. cbv match in Hother. destruct (asset_of x true A_UID) as [b|] eqn:Hab.
    + destruct (Hother b eq_refl) as [d Hdb]. destruct (HA _ _ Hcf' Hdb) as (y & -> & Hc & Hs). cbn [mbind option_bind].
      pose proof (read_counter_ok y B_UID 4 (proj2 Hc) (or_intror eq_refl)) as HB. rewrite Hs, Ha in HB.
      destruct (HB _ _ Hcf Hd) as (z & -> & Hc2 & Hs2). cbn [mbind option_bind].
      simpl Z.eqb. cbn [negb andb orb]. cbv match. rewrite Hinc, Z.eqb_refl. exists z.
      split; [done|]. split; [by eapply called_trans|by eapply still_trans].
    + destruct HA as (ca & n & y & -> & Hc & Hs). cbn [mbind option_bind].
      pose proof (read_counter_ok y B_UID n (proj2 Hc) (or_intror eq_refl)) as HB. rewrite Hs, Ha in HB.
      destruct (HB _ _ Hcf Hd) as (z & -> & Hc2 & Hs2). cbn [mbind option_bind]. exists z. split; [done|].
      split; [by eapply called_trans|by eapply still_trans].
Qed.

(** There is no copy yet. *)
Lemma get_active_none x :
  backends_ok (VP := VP) (VW := VW) x -> has_backend (persistent_store x) = true ->
  asset_of x true A_UID = None -> asset_of x true B_UID = None ->
  exists y, get_active_variable_uid IP IW x = Some (PSA_ERROR_DOES_NOT_EXIST, A_UID, 0, y) /\ called x y /\ still x y.
Proof.
  intros Hok Hb HA0 HB0. unfold get_active_variable_uid. rewrite Hb. fold A_UID B_UID.
  pose proof (read_counter_ok x A_UID 0 Hok (or_introl eq_refl)) as HA. rewrite HA0 in HA.
  destruct HA as (ca & n & y & -> & Hc & Hs). cbn [mbind option_bind].
  pose proof (read_counter_ok y B_UID n (proj2 Hc) (or_intror eq_refl)) as HB. rewrite Hs, HB0 in HB.
  destruct HB as (cb & n' & z & -> & Hc2 & Hs2). cbn [mbind option_bind]. exists z. split; [done|].
  split; [by eapply called_trans|by eapply still_trans].
Qed.

(** The copy is read in chunks. *)
Lemma load_loop_ok fuel x off k b a :
  backends_ok (VP := VP) (VW := VW) x -> fits 64 (active_variable_index_uid x) ->
  asset_of x true (active_variable_index_uid x) = Some a -> index_sync_buffer x = Some b ->
  0 <= off <= len (a_data a) -> len (a_data a) <= len b < 2 ^ 63 -> slice b 0 off = slice (a_data a) 0 off ->
  (len (a_data a) - off) / 4096 < Z.of_nat fuel ->
  exists b' y, load_loop IP IW fuel x off k = Some (EFI_SUCCESS, len (a_data a), y) /\ still x y /\
    called (with_buffer x (Some b')) y /\ len b' = len b /\ slice b' 0 (len (a_data a)) = a_data a.
Proof.
  revert x off k b. induction fuel as [|fuel IH]; intros x off k b Hok Hu Ha Hb Ho Hl Hsl Hf;
    [pose proof (Z.div_pos (len (a_data a) - off) 4096); lia|].
  cbn [load_loop]. rewrite Hb. cbn [mbind option_bind]. unfold RPC_CALLER_SESSION_SHARED_MEMORY_SIZE in *.
  assert (len (drop (Z.to_nat off) b) = len b - off) as Hld by (unfold len in *; rewrite length_drop; lia).
  destruct (backend_get_ok x true (active_variable_index_uid x) off 4096 (drop (Z.to_nat off) b) k Hok Hu)
    as (st & d & n & y & -> & Hc & Hs & Hl' & Hg & _);
    [unfold fits; lia|done|intros _ a' Ha'; rewrite Ha in Ha'; injection Ha' as <-; lia|].
  rewrite Ha in Hg. destruct Hg as [Hst Hg]. rewrite Hst in * by (simpl; lia). destruct (Hg eq_refl) as (_ & Hn & Hcp).
  cbn [mbind option_bind]. simpl Z.eqb at 1. cbn [negb]. cbv match. cbv zeta.
  set (b' := take (Z.to_nat off) b ++ d).
  apply copy_out_inv in Hcp. assert (len (slice (a_data a) off n) = n) as Hlsl by (apply slice_len; lia).
  assert (store b off (slice (a_data a) off n) = Some b') as Hst' by (apply store_drop; [lia|done]).
  pose proof (store_len _ _ _ _ Hst') as Hlb'.
  assert (slice b' 0 (off + n) = slice (a_data a) 0 (off + n)) as Hsl'.
  { rewrite !slice_app, Z.add_0_l by lia. rewrite (slice_store_disjoint b 0 off off _ b') by (done || lia). rewrite Hsl.
    f_equal. apply load_store_same in Hst'. rewrite Hlsl, load_is_slice in Hst' by lia. by injection Hst'. }
  assert (still x (with_buffer y (Some b'))) as Hs' by exact Hs.
  assert (called (with_buffer x (Some b')) (with_buffer y (Some b'))) as Hc'.
  { destruct Hc as [Hsh Hb2]. split; [|done]. unfold shell in *. simpl. congruence. }
  assert (active_variable_index_uid y = active_variable_index_uid x) as Hactive by by destruct Hc as [[=] _].
  destruct (Z.eqb_spec n 4096) as [->|Hne].
  - destruct (IH (with_buffer y (Some b')) (off + 4096) 4096 b') as (b2 & z & -> & Hs2 & Hc2 & Hl2 & Hsl2).
    + apply Hc.
    + simpl. by rewrite Hactive.
    + simpl. rewrite Hactive. by rewrite <- Ha, <- Hs.
    + done.
    + lia.
    + lia.
    + done.
    + replace (len (a_data a) - (off + 4096)) with (len (a_data a) - off + (-1) * 4096) by lia.
      rewrite Z.div_add by lia. lia.
    + exists b2, z. split; [done|]. split; [by eapply still_trans|]. split; [|split; [by rewrite Hl2|done]].
      destruct Hc2 as [Hsh2 Hb2]. split; [|done]. rewrite Hsh2. destruct Hc' as [Hsh' _]. unfold shell in *. simpl in *. congruence.
  - exists b', (with_buffer y (Some b')). assert (off + n = len (a_data a)) as He by lia. rewrite He in *.
    split; [done|]. split; [done|]. split; [done|]. split; [done|]. by rewrite Hsl', slice_all.
Qed.

Lemma load_index_ok x act c ix0 c0 b :
  backends_ok (VP := VP) (VW := VW) x -> has_backend (persistent_store x) = true -> index_ok ix0 -> copies x act c ix0 ->
  variable_index_ x = Index (max_variables ix0) c0 (replicate (Z.to_nat (max_variables ix0)) zero_entry) ->
  index_sync_buffer x = Some b -> len b = index_sync_buffer_size x ->
  index_sync_buffer_size x = variable_index_max_dump_size ix0 ->
  exists b' ix2 y, load_variable_index IP IW x = Some (EFI_SUCCESS, y) /\ still x y /\
    called (with_index (with_active (with_buffer x (Some b')) act) ix2) y /\ len b' = len b /\ index_ok ix2 /\
    max_variables ix2 = max_variables ix0 /\ counter ix2 = c /\
    vars ix2 = filter (fun '(_, v) => persistent v) (vars ix0).
Proof.
  intros Hok Hb Hok0 Hcopies Hix Hbuf Hlb Hsize. unfold load_variable_index. rewrite Hb.
  destruct (get_active_ok x act c ix0 Hok Hb Hcopies) as (y & -> & Hc & Hs). cbn [mbind option_bind].
  destruct Hcopies as (Hact & Hcf & (a & Ha & Hd) & _). destruct (copy_uid_fits act Hact) as [Huf _].
  simpl Z.eqb at 1. cbv match. cbv zeta. rewrite (called_index x y Hc), Hix. cbn [max_variables entries].
  set (x1 := with_active _ act). assert (asset_of x1 true act = Some a) as Ha1 by (by rewrite <- Ha, <- Hs).
  pose proof (image_fits ix0 Hok0) as Him. pose proof (len_nonneg (image (entries ix0))) as Hpos.
  assert (len (a_data a) = 4 + len (image (entries ix0))) as Hla by (by rewrite Hd, len_app, len_le_split).
  destruct (backend_get_info_ok x1 true act (StorageInfo 0 0 0)) as (st & i & y2 & Hinfo & Hc2 & Hs2 & Hi); [apply Hc|done|].
  change (active_variable_index_uid x1) with act. rewrite Hinfo. cbn [mbind option_bind].
  rewrite Ha1 in Hi. destruct Hi as (_ & Hsz & _).
  assert (index_sync_buffer_size y2 = index_sync_buffer_size x) as Hsz2.
  { destruct Hc2 as [[=] _], Hc as [[=] _]. simpl in *. congruence. }
  assert (index_sync_buffer y2 = Some b) as Hbuf2.
  { destruct Hc2 as [[=] _], Hc as [[=] _]. simpl in *. congruence. }
  assert (active_variable_index_uid y2 = act) as Hact2 by by destruct Hc2 as [[=] _].
  assert (si_size i <= index_sync_buffer_size y2) as Hle.
  { rewrite Hsz, Hsz2. pose proof (Z.mod_le (len (a_data a)) (2 ^ 32)). unfold wrap. lia. }
  destruct (Z.gtb_spec (si_size i) (index_sync_buffer_size y2)); [lia|].
  rewrite Hsz2 in *. unfold RPC_CALLER_SESSION_SHARED_MEMORY_SIZE in *.
  destruct (load_loop_ok (S (S (Z.to_nat (index_sync_buffer_size x / 4096)))) y2 0 0 b a)
    as (b' & z & -> & Hs3 & Hc3 & Hl3 & Hsl); [apply Hc2|by rewrite Hact2|by rewrite Hact2, Hs2|done|lia|lia|done| |].
  { assert ((len (a_data a) - 0) / 4096 <= index_sync_buffer_size x / 4096) by (apply Z.div_le_mono; lia).
    pose proof (Z.div_pos (index_sync_buffer_size x) 4096). lia. }
  cbn [mbind option_bind]. simpl Z.eqb. cbn [negb]. cbv match. rewrite (called_buffer _ _ Hc3). cbn [index_sync_buffer with_buffer mbind option_bind].
  assert (variable_index_ z = Index (max_variables ix0) c (replicate (Z.to_nat (max_variables ix0)) zero_entry)) as Hiz.
  { rewrite (called_index _ _ Hc3). simpl. by rewrite (called_index _ _ Hc2). }
  assert (slice b' 0 4 ++ slice b' 4 (len (image (entries ix0))) = le_split 4 c ++ image (entries ix0)) as Hparts.
  { rewrite <- Hd, <- Hsl at 1. rewrite Hla, slice_app by lia. by rewrite Z.add_0_l. }
  apply app_inj_1 in Hparts as [Hp1 Hp2]; [|apply Nat2Z.inj; change (len (slice b' 0 4) = len (le_split 4 c)); rewrite slice_len, len_le_split; lia].
  destruct (restore_ok ix0 c b' c Hok0 Hcf) as (ix2 & Hr & Hrest); [lia|by rewrite wrap_small|done|].
  rewrite Hiz, Hla, Hr. cbn [mbind option_bind]. exists b', ix2. eexists. split; [done|].
  split; [exact (still_trans _ _ _ Hs (still_trans x1 _ _ Hs2 Hs3))|].
  split; [|split; [done|exact Hrest]]. destruct Hc as [Hsh _], Hc2 as [Hsh2 _], Hc3 as [Hsh3 Hb3]. split; [|done].
  unfold shell in *. simpl in *. congruence.
Qed.

(** The data of the non-volatile variables. *)
Definition nv_contents x (k : key) : option (Z * bytes) :=
  v ← vars (variable_index_ x) !! k;
  if v_set v && nv_of v then a ← asset_of x true (v_uid v); Some (v_attributes v, a_data a) else None.

Lemma persistent_nv v : persistent v <-> v_set v = true /\ nv_of v = true.
Proof. unfold persistent, nv_of, has. rewrite negb_true_iff, Z.eqb_neq. done. Qed.

(** A store [y] that has read what [x] left. *)
Lemma loaded_inv x y ix0 :
  store_inv x -> matching x ix0 -> config_ok y -> index_ok (variable_index_ y) -> backends_ok (VP := VP) (VW := VW) y ->
  max_variables (variable_index_ y) = max_variables (variable_index_ x) -> index_ok ix0 ->
  (forall u, asset_of y true u = asset_of x true u) ->
  (forall u, 1 <= u <= max_variables (variable_index_ x) -> asset_of y false u = None) ->
  vars (variable_index_ y) = filter (fun '(_, v) => persistent v) (vars ix0) ->
  store_inv y /\ forall k, contents y k = nv_contents x k.
Proof.
  intros [_ Hix _ Hown] [Hsaved Hlost] Hco Hixy Hb Hm Hok0 Ht Hf Hvars. split; [split; try done|].
  - intros nv u a Hu Ha. rewrite Hm in Hu. destruct nv; [|by rewrite Hf in Ha].
    rewrite Ht in Ha. destruct (Hown true u a Hu Ha) as [Hp (k & v & Hk & Hs & Hn & Hid)]. split; [done|].
    destruct (Hsaved k v Hk ltac:(by apply persistent_nv)) as (v' & Hk' & Hp' & Hu' & Ha'). exists k, v'.
    rewrite Hvars. split; [apply map_lookup_filter_Some; done|]. apply persistent_nv in Hp' as [? ?]. split; [done|].
    split; [done|congruence].
  - intros k. unfold contents, UefiStoreSpec.contents, nv_contents. rewrite Hvars.
    destruct (vars (variable_index_ x) !! k) as [v|] eqn:Hk; cbn [mbind option_bind].
    + destruct (v_set v && nv_of v) eqn:Hp.
      * apply andb_true_iff in Hp. destruct (Hsaved k v Hk ltac:(by apply persistent_nv)) as (v' & Hk' & Hp' & Hu' & Ha').
        assert (filter (fun '(_, v) => persistent v) (vars ix0) !! k = Some v') as -> by by apply map_lookup_filter_Some.
        cbn [mbind option_bind]. apply persistent_nv in Hp' as [-> ->]. by rewrite Ht, Hu', Ha'.
      * destruct (filter _ (vars ix0) !! k) as [v'|] eqn:Hk'; [|done]. cbn [mbind option_bind].
        apply map_lookup_filter_Some in Hk' as [Hk' Hp']. destruct (Hlost k v' Hk' Hp') as [(v2 & Hk2 & Hp2 & _)|Hnone].
        { rewrite Hk in Hk2. injection Hk2 as <-. apply persistent_nv in Hp2 as [Hp2 Hp3]. by rewrite Hp2, Hp3 in Hp. }
        apply persistent_nv in Hp' as [-> ->]. by rewrite Ht, Hnone.
    + destruct (filter _ (vars ix0) !! k) as [v'|] eqn:Hk'; [|done]. cbn [mbind option_bind].
      apply map_lookup_filter_Some in Hk' as [Hk' Hp']. destruct (Hlost k v' Hk' Hp') as [(v2 & Hk2 & _)|Hnone]; [congruence|].
      apply persistent_nv in Hp' as [-> ->]. by rewrite Ht, Hnone.
Qed.

(** The memory of the store after a start, before the index is read. *)
Definition mounted (context : store_ctx) (owner max : Z) (ix : variable_index) : store_ctx :=
  let d nv := DelegateStore nv (u64 (DEFAULT_MAX_VARIABLE_SIZE * max)) DEFAULT_MAX_VARIABLE_SIZE true in
  UefiStore true owner (Some (junk (variable_index_max_dump_size ix))) (variable_index_max_dump_size ix)
    (active_variable_index_uid context) ix (d true) (d false) (persistent_backend context) (volatile_backend context).

Lemma init_mounted context owner max :
  1 <= max < 2 ^ 31 -> malloc_ok (256 * max) = true -> malloc_ok (4 + 241 * max) = true ->
  exists ix, ix = Index max 0 (replicate (Z.to_nat max) zero_entry) /\ index_ok ix /\ vars ix = ∅ /\
    uefi_variable_store_init IP IW malloc_ok junk uninitialised context owner max true true
    = ('(status, x) ← load_variable_index IP IW (mounted context owner max ix);
       if status =? EFI_SUCCESS then x ← purge_orphan_index_entries IP IW uninitialised x; Some (status, x)
       else Some (status, x)).
Proof.
  intros Hmax Hm1 Hm2. destruct (variable_index_init malloc_ok max) as [st ix] eqn:Hinit.
  assert (st = EFI_SUCCESS) as ->.
  { unfold variable_index_init, ENTRY_SIZE in Hinit. rewrite wrap_small, Hm1 in Hinit by lia. by injection Hinit as <-. }
  destruct (index_init_ok malloc_ok max ix ltac:(lia) Hinit) as (Hok & Hmx & Hv).
  destruct (index_init_entries malloc_ok max ix ltac:(lia) Hinit) as [Hix Hc0]. rewrite Hc0 in Hix.
  exists ix. split; [done|]. split; [done|]. split; [done|].
  assert (variable_index_max_dump_size ix = 4 + 241 * max) as Hsz.
  { unfold variable_index_max_dump_size, METADATA_SIZE, CONSTRAINTS_SIZE. rewrite Hmx, wrap_small by lia. lia. }
  unfold uefi_variable_store_init. rewrite Hinit. simpl Z.eqb at 1. cbv match. cbv zeta. rewrite !Hsz.
  destruct (Z.eqb_spec (4 + 241 * max) 0); [lia|]. cbn [negb]. rewrite Hm2. unfold mounted. by rewrite Hsz.
Qed.

(** Reading what store [x] left. *)
Lemma load_left x z ix0 :
  store_inv x -> on_disk x ix0 -> config_ok z -> backends_ok (VP := VP) (VW := VW) z ->
  variable_index_ z = Index (max_variables ix0) 0 (replicate (Z.to_nat (max_variables ix0)) zero_entry) ->
  index_ok (variable_index_ z) -> vars (variable_index_ z) = ∅ -> (forall u, asset_of z true u = asset_of x true u) ->
  exists y, load_variable_index IP IW z = Some (EFI_SUCCESS, y) /\ still z y /\ backends_ok (VP := VP) (VW := VW) y /\
    config y = config z /\ is_boot_service y = is_boot_service z /\ index_ok (variable_index_ y) /\
    vars (variable_index_ y) = filter (fun '(_, v) => persistent v) (vars ix0).
Proof.
  intros Hx (Hok0 & Hm0 & Hcf & Hact & Hdisk) [_ _ [Hbz _] _ Hsize Hbuf] Hb Hiz Hokz Hvz Ht.
  destruct Hdisk as [[(a & Ha & Hd) Hother]|(HA & HB & Hno)].
  - destruct (index_sync_buffer z) as [b|] eqn:Hbz'; [|done].
    destruct (load_index_ok z (active_variable_index_uid x) (counter (variable_index_ x)) ix0 0 b)
      as (b' & ix2 & y & Hl & Hs & Hc & Hlb & Hok2 & Hm2 & _ & Hv2); try done.
    + split; [done|]. split; [done|]. split.
      { exists a. rewrite Ht. split; [done|]. by rewrite Hd, wrap_small. }
      intros o Ho. rewrite Ht in Ho. by apply Hother.
    + by injection Hbuf.
    + rewrite Hsize. unfold variable_index_max_dump_size. by rewrite Hiz.
    + exists y. rewrite (called_index _ _ Hc). split; [done|]. split; [done|]. split; [apply Hc|].
      split; [rewrite (called_config _ _ Hc); unfold config; simpl; by rewrite Hlb, Hm2, Hbz', Hiz|].
      split; [by destruct Hc as [[=] _]|done].
  - unfold load_variable_index. rewrite Hbz.
    destruct (get_active_none z Hb Hbz) as (y & -> & Hc & Hs); [by rewrite Ht..|].
    cbn [mbind option_bind]. simpl Z.eqb. cbv match. cbv zeta. eexists. split; [done|]. split; [exact Hs|].
    pose proof (called_index _ _ Hc) as Hi. pose proof (called_config _ _ Hc) as Hcf'.
    split; [apply Hc|]. split; [unfold config in *; simpl in *; by rewrite <- Hcf'|].
    split; [by destruct Hc as [[=] _]|]. simpl. rewrite Hi. split.
    + by rewrite Hiz in *.
    + rewrite Hvz. symmetry. apply map_empty_filter. intros k v Hk. by eapply Hno.
Qed.

(** The start of a store over what store [x] left in the persistent backend. *)
Lemma start_ok x context :
  store_inv x -> persisted x -> persistent_backend context = persistent_backend x -> sv_ok VW (volatile_backend context) ->
  (forall u, 1 <= u <= max_variables (variable_index_ x) -> sv_asset VW (volatile_backend context) (owner_id x) u = None) ->
  malloc_ok (256 * max_variables (variable_index_ x)) = true -> malloc_ok (4 + 241 * max_variables (variable_index_ x)) = true ->
  exists y, uefi_variable_store_init IP IW malloc_ok junk uninitialised context (owner_id x)
      (max_variables (variable_index_ x)) true true = Some (EFI_SUCCESS, y) /\
    store_inv y /\ is_boot_service y = true /\ owner_id y = owner_id x /\
    max_variables (variable_index_ y) = max_variables (variable_index_ x) /\ forall k, contents y k = nv_contents x k.
Proof.
  intros Hx (ix0 & Hdisk & Hmatch) Hp Hw Hnone Hm1 Hm2. pose proof Hdisk as (Hok0 & Hm0 & _).
  pose proof Hx as [Hco Hix [HbP _] _]. pose proof Hix as (Hmax & _). pose proof (co_max x Hco) as Hmax1.
  set (max := max_variables (variable_index_ x)) in *.
  destruct (init_mounted context (owner_id x) max) as (ix & Hie & Hiok & Hiv & ->); [lia|done|done|].
  set (z := mounted context (owner_id x) max ix). assert (max_variables ix = max) as Hmi by by rewrite Hie.
  assert (config_ok z) as Hcz.
  { split; simpl; try done; [by rewrite Hmi|by intros [|]|].
    rewrite Hjunk; [done|]. pose proof (image_fits ix Hiok). pose proof (len_nonneg (image (entries ix))). lia. }
  assert (forall u, asset_of z true u = asset_of x true u) as Ht by (intros u; simpl; by rewrite Hp).
  destruct (load_left x z ix0 Hx Hdisk Hcz) as (y & -> & Hs & Hby & Hcy & Hboot & Hoky & Hvy); try done.
  { split; [by simpl; rewrite Hp|done]. } { by rewrite Hm0. }
  cbn [mbind option_bind]. simpl Z.eqb. cbv match. pose proof (config_max z y Hcy) as Hmy. simpl in Hmy.
  destruct (loaded_inv x y ix0 Hx Hmatch) as [Hy Hcy']; try done.
  { by eapply config_ok_same. } { by rewrite Hmy, Hmi. } { intros u. by rewrite (Hs true u), Ht. }
  { intros u Hu. rewrite (Hs false u). by apply Hnone. }
  destruct (purge_ok (uninitialised := uninitialised) y Hy) as (w & -> & Hd). cbn [mbind option_bind].
  exists w. split; [done|]. split; [apply Hd|]. split; [by rewrite (dr_boot _ _ Hd)|].
  pose proof (dr_config _ _ Hd) as Hcw. rewrite (config_max _ _ Hcw), Hmy, Hmi.
  split; [unfold config in *; simpl in *; congruence|]. split; [done|]. intros k. by rewrite (dr_contents _ _ Hd).
Qed.

(** Backends that no store has used before. *)
Definition blank context (owner max : Z) : Prop :=
  sv_ok VP (persistent_backend context) /\ sv_ok VW (volatile_backend context) /\
  sv_asset VP (persistent_backend context) owner A_UID = None /\ sv_asset VP (persistent_backend context) owner B_UID = None /\
  forall u, 1 <= u <= max -> sv_asset VP (persistent_backend context) owner u = None /\
                             sv_asset VW (volatile_backend context) owner u = None.

Lemma start_blank context owner max :
  1 <= max < 2 ^ 31 -> malloc_ok (256 * max) = true -> malloc_ok (4 + 241 * max) = true -> blank context owner max ->
  exists y, uefi_variable_store_init IP IW malloc_ok junk uninitialised context owner max true true = Some (EFI_SUCCESS, y) /\
    store_inv y /\ persisted y /\ is_boot_service y = true /\ owner_id y = owner /\
    max_variables (variable_index_ y) = max /\ forall k, contents y k = None.
Proof.
  intros Hmax Hm1 Hm2 (Hp & Hw & HA & HB & Hno).
  destruct (init_mounted context owner max Hmax Hm1 Hm2) as (ix & Hie & Hiok & Hiv & ->).
  set (z := mounted context owner max ix). assert (max_variables ix = max) as Hmi by by rewrite Hie.
  unfold load_variable_index. change (has_backend (persistent_store z)) with true. cbv match.
  destruct (get_active_none z ltac:(by split) eq_refl HA HB) as (y & -> & Hc & Hs). cbn [mbind option_bind].
  simpl Z.eqb. cbv match. cbv zeta. cbn [mbind option_bind]. simpl Z.eqb. cbv match.
  assert (variable_index_ y = ix) as Hiy by by rewrite (called_index _ _ Hc).
  rewrite Hiy. set (y1 := with_active _ _).
  assert (variable_index_ y1 = ix) as Hi1 by (simpl; by rewrite Hie).
  assert (config y1 = config z) as Hcf.
  { rewrite <- (called_config _ _ Hc). unfold config. simpl. by rewrite Hiy. }
  assert (purge_orphan_index_entries IP IW uninitialised y1 = Some y1) as ->.
  { unfold purge_orphan_index_entries. rewrite Hi1.
    destruct (iterator_first_ok ix Hiok) as (p & -> & Hp0 & Hat). cbn [mbind option_bind].
    assert (p >= max_variables ix) as Hge.
    { destruct (Z.lt_ge_cases p (max_variables ix)) as [Hlt|]; [|lia]. destruct (Hat Hlt) as (k & v & Hk).
      apply at_pos_var in Hk; [|done]. by rewrite Hiv in Hk. }
    destruct (Z.to_nat (max_variables ix)); cbn [purge_loop]; rewrite Hi1;
      unfold variable_index_iterator_current, variable_index_iterator_is_done;
      destruct (Z.geb_spec p (max_variables ix)); try lia; done. }
  cbn [mbind option_bind]. exists y1. split; [done|].
  assert (config_ok y1) as Hco.
  { apply (config_ok_same z); [done|]. split; simpl; try done; [lia|by intros [|]|].
    rewrite Hjunk; [done|]. pose proof (image_fits ix Hiok). pose proof (len_nonneg (image (entries ix))). lia. }
  assert (forall nv u, asset_of y1 nv u = asset_of z nv u) as Ha by exact Hs.
  split; [split; [done|by rewrite Hi1|apply Hc|]|].
  { intros nv u a Hu Hua. rewrite Hi1, Hmi in Hu. rewrite Ha in Hua. destruct (Hno u Hu). destruct nv; simpl in Hua; congruence. }
  split; [|split; [by destruct Hc as [[=] _]|split; [by destruct Hc as [[=] _]|split; [by rewrite Hi1|]]]].
  - exists ix. split; [split; [done|split; [by rewrite Hi1|split; [by rewrite Hi1; apply Hiok|]]]|].
    + split; [by left|]. right. rewrite !Ha. split; [done|]. split; [done|]. intros k v. by rewrite Hiv.
    + split; [rewrite Hi1; intros k v; by rewrite Hiv|]. intros k v. by rewrite Hiv.
  - intros k. unfold contents, UefiStoreSpec.contents. by rewrite Hi1, Hiv.
Qed.

Lemma nv_contents_filter x k :
  nv_contents x k = (c ← contents x k; if has (fst c) EFI_VARIABLE_NON_VOLATILE then Some c else None).
Proof.
  unfold nv_contents, contents, UefiStoreSpec.contents. destruct (vars (variable_index_ x) !! k) as [v|]; [|done].
  cbn [mbind option_bind]. destruct (v_set v); [|done]. cbn [andb].
  assert (nv_of v = has (v_attributes v) EFI_VARIABLE_NON_VOLATILE) as Hn by done.
  destruct (nv_of v).
  - destruct (UefiStoreSpec.asset_of x true (v_uid v)); [|done]. cbn [mbind option_bind fst]. by rewrite <- Hn.
  - destruct (UefiStoreSpec.asset_of x false (v_uid v)); [|done]. cbn [mbind option_bind fst]. by rewrite <- Hn.
Qed.

(** ** Histories *)

Inductive store_op :=
  | OpSet (var : SMM_VARIABLE_COMMUNICATE_ACCESS_VARIABLE)
  | OpGet (var : SMM_VARIABLE_COMMUNICATE_ACCESS_VARIABLE) (max_data_len : Z)
  | OpExitBootService.

Inductive store_reply :=
  | ReplySet (status : Z)
  | ReplyGet (status : Z) (var : SMM_VARIABLE_COMMUNICATE_ACCESS_VARIABLE) (total_length : Z)
  | ReplyExit (status : Z).

Definition store_step x (o : store_op) : option (store_reply * store_ctx) :=
  match o with
  | OpSet var => '(st, x) ← uefi_variable_store_set_variable IP IW malloc_ok junk uninitialised x var; Some (ReplySet st, x)
  | OpGet var n =>
      '(st, var, total, x) ← uefi_variable_store_get_variable IP IW uninitialised x var n 0; Some (ReplyGet st var total, x)
  | OpExitBootService => let '(st, x) := uefi_variable_store_exit_boot_service x in Some (ReplyExit st, x)
  end.

Fixpoint store_run x (os : list store_op) : option (list store_reply * store_ctx) :=
  match os with
  | [] => Some ([], x)
  | o :: os => '(r, x) ← store_step x o; '(rs, x) ← store_run x os; Some (r :: rs, x)
  end.

Definition store_op_ok (o : store_op) : Prop :=
  match o with
  | OpSet var => request_ok var
  | OpGet var n => lookup_ok var n /\ terminated (Name var) (NameSize var)
  | OpExitBootService => True
  end.

Definition map_store_step (limit : Z) (s s' : map_state) (o : store_op) (r : store_reply) : Prop :=
  match o, r with
  | OpSet var, ReplySet st => set_spec (fst s) (fst s') var st /\ snd s' = snd s
  | OpGet var n, ReplyGet st var' total =>
      (forall k, fst s' k = fst s k) /\ snd s' = snd s /\
      get_reply var var' n st total limit (fst s (request_key var)) (snd s)
  | OpExitBootService, ReplyExit st => st = EFI_SUCCESS /\ (forall k, fst s' k = fst s k) /\ snd s' = false
  | _, _ => False
  end.

Inductive map_store_run (limit : Z) : map_state -> list store_op -> list store_reply -> map_state -> Prop :=
  | map_store_nil s : map_store_run limit s [] [] s
  | map_store_cons s o r s1 os rs s2 :
      map_store_step limit s s1 o r -> map_store_run limit s1 os rs s2 -> map_store_run limit s (o :: os) (r :: rs) s2.

Definition abstract x : map_state := (contents x, is_boot_service x).

Lemma get_reply_limit var var' n st total l l' c b :
  l <= l' -> get_reply var var' n st total l' c b -> get_reply var var' n st total l c b.
Proof.
  intros Hl. unfold get_reply. destruct c as [[a d]|]; [|done]. destruct (accessible b a); [|done].
  destruct (_ <=? _); [|done]. intros (? & ? & ? & ? & H1 & H2). do 4 (split; [done|]). split; [|done].
  intros. apply H1. lia.
Qed.

(** A variable is looked up and nothing changes. *)
Lemma variable_lookup_ok x var n :
  store_inv x -> lookup_ok var n -> terminated (Name var) (NameSize var) ->
  exists st var' total y, uefi_variable_store_get_variable IP IW uninitialised x var n 0 = Some (st, var', total, y) /\
    store_inv y /\ (forall k, contents y k = contents x k) /\ is_boot_service y = is_boot_service x /\
    get_reply var var' n st total (Z.min (sv_limit VP) (sv_limit VW)) (contents x (request_key var)) (is_boot_service x).
Proof.
  intros Hx Hvar Ht. destruct (get_variable_ok x var n 0 Hx Hvar Ht) as (st & var' & total & y & -> & Hc & Hs & Hr).
  exists st, var', total, y. pose proof (called_dropped x y Hx Hc Hs) as Hd. split; [done|]. split; [apply Hd|].
  split; [apply Hd|]. split; [apply Hd|].
  destruct (contents x (request_key var)) as [[a d]|] eqn:Hct; [|exact Hr]. eapply get_reply_limit; [|exact Hr].
  unfold read_limit. unfold contents, UefiStoreSpec.contents in Hct.
  destruct (vars (variable_index_ x) !! request_key var) as [v|]; [|done]. unfold limit. destruct (nv_of v); lia.
Qed.

Lemma uefi_step_ok x o :
  store_inv x -> store_op_ok o ->
  exists r y, store_step x o = Some (r, y) /\ store_inv y /\
    map_store_step (Z.min (sv_limit VP) (sv_limit VW)) (abstract x) (abstract y) o r.
Proof.
  intros Hx Ho. destruct o as [var|var n|]; simpl.
  - destruct (set_variable_ok (malloc_ok := malloc_ok) (uninitialised := uninitialised) Hjunk x var Hx Ho)
      as (st & y & -> & Hy & _ & Hb & Hspec & _). cbn [mbind option_bind]. exists (ReplySet st), y. done.
  - destruct Ho as (Hvar & Ht). destruct (variable_lookup_ok x var n Hx Hvar Ht) as (st & var' & total & y & -> & Hy & Hc & Hb & Hr).
    cbn [mbind option_bind]. by exists (ReplyGet st var' total), y.
  - eexists _, _. split; [done|]. split; [|done]. destruct Hx as [[c1 c2 c3 c4 c5 c6] Hi Hb Hown]. split; try done.
Qed.

Lemma uefi_run_ok x os :
  store_inv x -> Forall store_op_ok os ->
  exists rs y, store_run x os = Some (rs, y) /\ store_inv y /\
    map_store_run (Z.min (sv_limit VP) (sv_limit VW)) (abstract x) os rs (abstract y).
Proof.
  intros Hx Hos. revert x Hx. induction Hos as [|o os Ho _ IH]; intros x Hx.
  { exists [], x. split; [done|]. split; [done|]. constructor. }
  destruct (uefi_step_ok x o Hx Ho) as (r & y & Hstep & Hy & Hm).
  destruct (IH y Hy) as (rs & z & Hrun & Hz & Hms). exists (r :: rs), z. cbn [store_run]. rewrite Hstep.
  cbn [mbind option_bind]. rewrite Hrun. split; [done|]. split; [done|]. by econstructor.
Qed.

(** Requests that all succeed keep the disk up to date. *)
Lemma sets_persisted x vs :
  store_inv x -> persisted x -> Forall request_ok vs ->
  exists rs y, store_run x (OpSet <$> vs) = Some (rs, y) /\ store_inv y /\ owner_id y = owner_id x /\
    max_variables (variable_index_ y) = max_variables (variable_index_ x) /\
    (Forall (fun r => r = ReplySet EFI_SUCCESS) rs -> persisted y).
Proof.
  intros Hx Hp Hvs. assert (forall x, store_inv x -> exists rs y, store_run x (OpSet <$> vs) = Some (rs, y) /\
    store_inv y /\ config y = config x /\ (persisted x -> Forall (fun r => r = ReplySet EFI_SUCCESS) rs -> persisted y)) as H.
  { clear x Hx Hp. induction Hvs as [|var vs Hvar _ IH]; intros x Hx; [by exists [], x|].
    destruct (set_variable_ok (malloc_ok := malloc_ok) (uninitialised := uninitialised) Hjunk x var Hx Hvar)
      as (st & y & Hset & Hy & Hc & _ & _ & Hper). destruct (IH y Hy) as (rs & z & Hrun & Hz & Hcz & Hperz).
    exists (ReplySet st :: rs), z. rewrite fmap_cons. cbn [store_run store_step]. rewrite Hset. cbn [mbind option_bind]. rewrite Hrun.
    split; [done|]. split; [done|]. split; [congruence|]. intros Hp [[= ->] Hrs]%Forall_cons. auto. }
  destruct (H x Hx) as (rs & y & Hrun & Hy & Hc & Hper). exists rs, y. split; [done|]. split; [done|].
  split; [unfold config in Hc; congruence|]. split; [by apply config_max|auto].
Qed.

(** ** Properties *)

(** C2: the UEFI variable store is a map from names to attributes and data.  A store that is
    started over any two lawful storage backends it has not used before answers every
    sequence of SetVariable, GetVariable and ExitBootService requests, without a fault, as a
    map from GUID and name to attributes and data does: a request that succeeds creates,
    overwrites, extends or deletes the variable it names exactly as its attributes say, one
    that fails changes nothing (a delete may take effect although the index could not be
    saved), no request changes another variable, and what is read is what was written,
    whole, with its attributes and length, or an error that says why not. *)
Theorem uefi_variable_store_refines context owner max os :
  1 <= max < 2 ^ 31 -> malloc_ok (256 * max) = true -> malloc_ok (4 + 241 * max) = true -> blank context owner max ->
  Forall store_op_ok os ->
  exists x rs y s,
    uefi_variable_store_init IP IW malloc_ok junk uninitialised context owner max true true = Some (EFI_SUCCESS, x) /\
    store_run x os = Some (rs, y) /\ (forall k, fst s k = None) /\ snd s = true /\
    map_store_run (Z.min (sv_limit VP) (sv_limit VW)) s os rs (abstract y).
Proof.
  intros Hmax Hm1 Hm2 Hblank Hos.
  destruct (start_blank context owner max Hmax Hm1 Hm2 Hblank) as (x & Hinit & Hx & _ & Hb & _ & _ & Hc).
  destruct (uefi_run_ok x os Hx Hos) as (rs & y & Hrun & _ & Hm). exists x, rs, y, (abstract x). done.
Qed.

(** C4: variables survive a restart.  After any sequence of SetVariable requests that all
    succeeded, a store that is started over the same persistent backend, with another
    volatile one, has exactly the non-volatile variables, with their attributes and
    data, whatever the memory of the store held before. *)
Theorem uefi_variables_survive_restart context owner max vs :
  1 <= max < 2 ^ 31 -> malloc_ok (256 * max) = true -> malloc_ok (4 + 241 * max) = true -> blank context owner max ->
  Forall request_ok vs ->
  exists x rs y,
    uefi_variable_store_init IP IW malloc_ok junk uninitialised context owner max true true = Some (EFI_SUCCESS, x) /\
    store_run x (OpSet <$> vs) = Some (rs, y) /\
    forall context', Forall (fun r => r = ReplySet EFI_SUCCESS) rs -> persistent_backend context' = persistent_backend y ->
     sv_ok VW (volatile_backend context') ->
     (forall u, 1 <= u <= max -> sv_asset VW (volatile_backend context') owner u = None) ->
     exists z, uefi_variable_store_init IP IW malloc_ok junk uninitialised context' owner max true true
         = Some (EFI_SUCCESS, z) /\
       forall k, contents z k = (c ← contents y k; if has (fst c) EFI_VARIABLE_NON_VOLATILE then Some c else None).
Proof.
  intros Hmax Hm1 Hm2 Hblank Hvs.
  destruct (start_blank context owner max Hmax Hm1 Hm2 Hblank) as (x & Hinit & Hx & Hper & _ & Ho & Hmx & _).
  destruct (sets_persisted x vs Hx Hper Hvs) as (rs & y & Hrun & Hy & Hoy & Hmy & Hpy). exists x, rs, y.
  split; [done|]. split; [done|]. intros context' Hrs Hp Hw Hno. rewrite Hmx in Hmy. rewrite Ho in Hoy.
  destruct (start_ok y context' Hy (Hpy Hrs) Hp Hw) as (z & Hz & _ & _ & _ & _ & Hc);
    [by rewrite Hmy, Hoy|by rewrite Hmy..|]. rewrite Hmy, Hoy in Hz. exists z. split; [done|]. intros k.
  by rewrite Hc, nv_contents_filter.
Qed.

(** ** What SetVariable refuses *)

(** Whether the variable may be set at all: by its attributes, then by its constraints. *)
Definition set_permission (boot : bool) (v : variable) (var : SMM_VARIABLE_COMMUNICATE_ACCESS_VARIABLE) : Z :=
  if v_set v && negb (accessible boot (v_attributes v)) then EFI_NOT_FOUND
  else match v_constraints v with
       | Some c => variable_checker_check_on_set c (av_Attributes var) (DataSize var)
       | None => EFI_SUCCESS
       end.

Lemma check_on_set_spec x e v var :
  entry_variable e = v -> check_access_permitted_on_set x (info e) var = set_permission (is_boot_service x) v var.
Proof.
  intros <-. unfold check_access_permitted_on_set, set_permission. cbn [entry_variable v_set v_attributes v_constraints].
  destruct (is_variable_set (info e)) eqn:Hs.
  - rewrite variable_access_spec by done. destruct (accessible _ _); simpl; [|done]. by destruct (is_constraints_set (info e)).
  - unfold check_access_permitted. rewrite Hs. simpl. by destruct (is_constraints_set (info e)).
Qed.

(** C37: protected variables are not changed.  A request for a variable that may not be
    accessed any more (a boot service variable after ExitBootService), or that breaks the
    constraints set for it (read only, or the size of its data), is refused with the
    status that says so, and no variable changes. *)
Theorem protected_variables_unchanged x var v :
  store_inv x -> request_ok var -> terminated (Name var) (NameSize var) -> check_capabilities var = EFI_SUCCESS ->
  vars (variable_index_ x) !! request_key var = Some v -> set_permission (is_boot_service x) v var <> EFI_SUCCESS ->
  exists y, uefi_variable_store_set_variable IP IW malloc_ok junk uninitialised x var
      = Some (set_permission (is_boot_service x) v var, y) /\ store_inv y /\ forall k, contents y k = contents x k.
Proof.
  intros Hx Hvar Ht Hcap Hk Hperm. unfold uefi_variable_store_set_variable. rewrite Ht. cbn [mbind option_bind].
  simpl Z.eqb at 1. cbn [negb]. rewrite Hcap. simpl Z.eqb at 1. cbn [negb]. cbv match.
  destruct (find_or_add_ok x var Hx Hvar) as [(st & _ & _ & Hnone)|(pos & v' & y & -> & Hp & Hy & _ & _ & _ & Hadd)]; [congruence|].
  destruct Hadd as [->|(Hnone & _)]; [|congruence]. cbn [mbind option_bind].
  pose proof (at_pos_var _ _ _ _ (si_index x Hx) Hp) as Hk'. rewrite Hk in Hk'. injection Hk' as <-.
  pose proof Hp as (e & He & _ & _ & Hv). rewrite He. cbn [mbind option_bind]. rewrite (check_on_set_spec x e v var Hv).
  destruct (Z.eqb_spec (set_permission (is_boot_service x) v var) EFI_SUCCESS); [done|].
  destruct (release_ok x pos _ v Hx Hp) as (ix & -> & Hy' & _ & Hc & _). cbn [mbind option_bind]. by eexists.
Qed.

(** ** GetNextVariableName *)

(** GetNextVariableName trusts the size of the buffer it is told.  When there is no
    variable, the name of the request is cleared for that many octets; a request whose
    NameSize is more than the memory that holds it makes the store write past its end. *)
Lemma next_name_overrun x cur total :
  index_ok (variable_index_ x) -> (forall k v, vars (variable_index_ x) !! k = Some v -> v_set v = false) ->
  2 <= len (next_Name cur) < next_NameSize cur -> next_NameSize cur < 2 ^ 31 -> uint_at (next_Name cur) 0 2 = 0 ->
  uefi_variable_store_get_next_variable_name x (Some cur) total = None.
Proof.
  intros Hix Hunset Hlen H31 Hz. unfold uefi_variable_store_get_next_variable_name.
  assert (1 <= next_NameSize cur / 2) as Hdiv by (apply Z.div_le_lower_bound; lia).
  destruct (Z.to_nat (next_NameSize cur / 2)) as [|n] eqn:Hn; [lia|]. cbn [find_null].
  rewrite get_uint_ok by lia. cbn [mbind option_bind]. change (2 * 0) with 0. rewrite Hz. simpl Z.eqb. cbv match.
  cbn [mbind option_bind next_Name next_NameSize next_Guid]. change (2 * (0 + 1)) with 2.
  unfold check_name_terminator. simpl Z.ltb. cbv match. change (2 * (2 / 2 - 1)) with 0.
  rewrite get_uint_ok by lia. cbn [mbind option_bind]. rewrite Hz. simpl Z.eqb. cbn [negb]. cbv match.
  cbn [next_name_loop next_Guid next_NameSize next_Name]. unfold variable_index_find_next.
  simpl Z.geb. cbv match. rewrite get_uint_ok by lia. cbn [mbind option_bind]. rewrite Hz. simpl Z.eqb. cbn [negb]. cbv match.
  assert (next_set (variable_index_ x) 0 = Some None) as ->.
  { pose proof Hix as (Hmax & Hl & _ & _ & Hnd & _). unfold next_set. rewrite (swrap_small 32) by lia.
    destruct (scan_spec (Z.to_nat (max_variables (variable_index_ x) - 0)) (fun e => Some (in_use e && is_variable_set (info e)))
      (entries (variable_index_ x)) 0) as [(i & e & _ & _ & He & [= Hp] & _)|[-> _]]; [lia|lia|done| |done].
    apply andb_true_iff in Hp as [Hu Hs].
    assert (vars (variable_index_ x) !! entry_key e = Some (entry_variable e)) as Hk by by eapply binding_variable.
    pose proof (Hunset _ _ Hk) as Hf. simpl in Hf. congruence. }
  cbn [mbind option_bind]. unfold store. rewrite len_fill by lia.
  destruct (Z.leb_spec (0 + next_NameSize cur) (len (next_Name cur))); [lia|]. by rewrite andb_false_r.
Qed.

End Store.

(** ** Samples, over mock stores *)

Abbreviation sample_interface := (MockStore.interface (fun _ => true)).
Definition sample_mock : MockStore.mock_store := fst (MockStore.mock_store_init (fun _ => true)).
Definition sample_context {P} (p : P) : uefi_variable_store P MockStore.mock_store :=
  let none := DelegateStore false 0 0 false in
  UefiStore false 0 None 0 0 (Index 0 0 []) none none p sample_mock.
Definition sample_var (c a : Z) (d : bytes) : SMM_VARIABLE_COMMUNICATE_ACCESS_VARIABLE :=
  AccessVariable (Guid 1 2 3 (fill 4 8)) (len d) 4 a ([c; 0; 0; 0] ++ d).
Definition sample_request (c n : Z) : SMM_VARIABLE_COMMUNICATE_ACCESS_VARIABLE := sample_var c 0 (fill 0 n).

Definition sample_start {P} (I : storage_backend_interface P) (p : P) (max : Z)
    : option (Z * uefi_variable_store P MockStore.mock_store) :=
  uefi_variable_store_init I sample_interface (fun _ => true) (fill 170) (StorageInfo 0 0 0)
    (sample_context p) 7 max true true.
Definition sample_run {P} (I : storage_backend_interface P) (x : uefi_variable_store P MockStore.mock_store) (os : list store_op) :=
  store_run (IP := I) (IW := sample_interface) (malloc_ok := fun _ => true) (junk := fill 170)
    (uninitialised := StorageInfo 0 0 0) x os.

(** What the replies say: the status, and the data that was read. *)
Definition reply_view (r : store_reply) : Z * bytes :=
  match r with
  | ReplySet st => (st, [])
  | ReplyGet st var _ => (st, if st =? EFI_SUCCESS then request_data var else [])
  | ReplyExit st => (st, [])
  end.

Definition sample_ops : list store_op :=
  [OpSet (sample_var 65 7 [1; 2; 3]); OpSet (sample_var 66 6 [4; 5]); OpSet (sample_var 65 (7 + 64) [8]);
   OpSet (sample_var 67 3 [9]); OpGet (sample_request 65 10) 10; OpGet (sample_request 65 3) 3;
   OpGet (sample_request 66 2) 2; OpSet (sample_var 66 7 [1]); OpSet (sample_var 66 6 []); OpGet (sample_request 66 2) 2;
   OpExitBootService; OpGet (sample_request 67 2) 2].

Example sample_replies :
  ('(st, x) ← sample_start sample_interface sample_mock 4;
   '(rs, _) ← sample_run sample_interface x sample_ops; Some (map reply_view rs))
  = Some [(0, []); (0, []); (0, []); (0, []); (0, [1; 2; 3; 8]); (EFI_BUFFER_TOO_SMALL, []); (0, [4; 5]);
          (EFI_INVALID_PARAMETER, []); (0, []); (EFI_NOT_FOUND, []); (0, []); (EFI_NOT_FOUND, [])].
Proof. vm_compute. reflexivity. Qed.

Lemma sample_blank max : blank (VP := mock_view) (VW := mock_view) (sample_context sample_mock) 7 max.
Proof.
  destruct (mock_init_ok (fun _ => true)) as [Hok Hnone]. split; [exact Hok|]. split; [exact Hok|].
  split; [apply Hnone|]. split; [apply Hnone|]. intros u _. split; apply Hnone.
Qed.

Lemma sample_junk n : 0 <= n -> len (fill 170 n) = n.
Proof. apply len_fill. Qed.

Lemma sample_ops_ok : Forall store_op_ok sample_ops.
Proof.
  unfold sample_ops. repeat (apply Forall_cons; split); [..|apply Forall_nil];
    unfold store_op_ok, request_ok, lookup_ok, terminated, guid_ok, fits; vm_compute; intuition discriminate.
Qed.

Lemma uefi_variable_store_refines_witness :
  exists x rs y s, sample_start sample_interface sample_mock 4 = Some (EFI_SUCCESS, x) /\
    sample_run sample_interface x sample_ops = Some (rs, y) /\ (forall k, fst s k = None) /\
    snd s = true /\ map_store_run (Z.min (sv_limit mock_view) (sv_limit mock_view)) s sample_ops rs (abstract (VP := mock_view) (VW := mock_view) y).
Proof.
  pose proof (mock_store_laws (fun _ => true) ltac:(done)) as Hlaws. unfold sample_start, sample_run.
  apply (uefi_variable_store_refines (IP := sample_interface) (IW := sample_interface) (VP := mock_view) (VW := mock_view)
    (malloc_ok := fun _ => true) (junk := fill 170) (uninitialised := StorageInfo 0 0 0) sample_junk ltac:(vm_compute; discriminate)
    (sample_context sample_mock) 7 4 sample_ops).
  - lia.
  - reflexivity.
  - reflexivity.
  - apply sample_blank.
  - exact sample_ops_ok.
Defined.

Definition sample_sets : list SMM_VARIABLE_COMMUNICATE_ACCESS_VARIABLE :=
  [sample_var 65 7 [1; 2; 3]; sample_var 66 6 [4; 5]; sample_var 65 (7 + 64) [8]; sample_var 67 7 [9]; sample_var 67 7 []].

Lemma sample_sets_ok : Forall request_ok sample_sets.
Proof.
  unfold sample_sets. repeat (apply Forall_cons; split); [..|apply Forall_nil];
    unfold request_ok, guid_ok, fits; vm_compute; intuition discriminate.
Qed.

Lemma uefi_variables_survive_restart_witness :
  exists x rs y, sample_start sample_interface sample_mock 4 = Some (EFI_SUCCESS, x) /\
    sample_run sample_interface x (OpSet <$> sample_sets) = Some (rs, y) /\
    forall context', Forall (fun r => r = ReplySet EFI_SUCCESS) rs -> persistent_backend context' = persistent_backend y ->
     sv_ok mock_view (volatile_backend context') ->
     (forall u, 1 <= u <= 4 -> sv_asset mock_view (volatile_backend context') 7 u = None) ->
     exists z, uefi_variable_store_init sample_interface sample_interface (fun _ => true) (fill 170) (StorageInfo 0 0 0)
         context' 7 4 true true = Some (EFI_SUCCESS, z) /\
       forall k, contents (VP := mock_view) (VW := mock_view) z k =
         (c ← contents (VP := mock_view) (VW := mock_view) y k;
          if has (fst c) EFI_VARIABLE_NON_VOLATILE then Some c else None).
Proof.
  pose proof (mock_store_laws (fun _ => true) ltac:(done)) as Hlaws. unfold sample_start, sample_run.
  apply (uefi_variables_survive_restart (IP := sample_interface) (IW := sample_interface) (VP := mock_view) (VW := mock_view)
    (malloc_ok := fun _ => true) (junk := fill 170) (uninitialised := StorageInfo 0 0 0) sample_junk ltac:(vm_compute; discriminate)
    (sample_context sample_mock) 7 4 sample_sets).
  - lia.
  - reflexivity.
  - reflexivity.
  - apply sample_blank.
  - exact sample_sets_ok.
Defined.

(** All of them succeed, and the store that is started afterwards has the first variable only. *)
Example sample_restart :
  ('(_, x) ← sample_start sample_interface sample_mock 4;
   '(rs, x) ← sample_run sample_interface x (OpSet <$> sample_sets);
   '(st, x) ← sample_start sample_interface (persistent_backend x) 4;
   '(rs2, _) ← sample_run sample_interface x
     [OpGet (sample_request 65 10) 10; OpGet (sample_request 66 10) 10; OpGet (sample_request 67 10) 10];
   Some (map reply_view rs, st, map reply_view rs2))
  = Some ([(0, []); (0, []); (0, []); (0, []); (0, [])], EFI_SUCCESS,
          [(0, [1; 2; 3; 8]); (EFI_NOT_FOUND, []); (EFI_NOT_FOUND, [])]).
Proof. vm_compute. reflexivity. Qed.

(** A started store, and what is left of it after some requests. *)
Definition sample_store : uefi_variable_store MockStore.mock_store MockStore.mock_store :=
  match sample_start sample_interface sample_mock 4 with Some (_, x) => x | None => sample_context sample_mock end.
Definition sample_after (os : list store_op) : uefi_variable_store MockStore.mock_store MockStore.mock_store :=
  match sample_run sample_interface sample_store os with Some (_, x) => x | None => sample_store end.

Lemma sample_store_inv :
  store_inv (VP := mock_view) (VW := mock_view) sample_store /\
  forall k, contents (VP := mock_view) (VW := mock_view) sample_store k = None.
Proof.
  pose proof (mock_store_laws (fun _ => true) ltac:(done)) as Hlaws.
  destruct (start_blank (IP := sample_interface) (IW := sample_interface) (VP := mock_view) (VW := mock_view)
    (malloc_ok := fun _ => true) (junk := fill 170) (uninitialised := StorageInfo 0 0 0) sample_junk ltac:(vm_compute; discriminate)
    (sample_context sample_mock) 7 4) as (x & Hx & Hinv & _ & _ & _ & _ & Hc); [lia|done|done|apply sample_blank|].
  unfold sample_store, sample_start. by rewrite Hx.
Qed.

Lemma sample_after_inv os : Forall store_op_ok os -> store_inv (VP := mock_view) (VW := mock_view) (sample_after os).
Proof.
  intros Hos. pose proof (mock_store_laws (fun _ => true) ltac:(done)) as Hlaws.
  destruct (uefi_run_ok (IP := sample_interface) (IW := sample_interface) (VP := mock_view) (VW := mock_view)
    (malloc_ok := fun _ => true) (junk := fill 170) (uninitialised := StorageInfo 0 0 0) sample_junk
    sample_store os (proj1 sample_store_inv) Hos) as (rs & y & Hrun & Hy & _).
  unfold sample_after, sample_run. by rewrite Hrun.
Qed.

(** A boot service variable, after ExitBootService. *)
Definition sample_locked : list store_op := [OpSet (sample_var 65 2 [1]); OpExitBootService].

Lemma protected_variables_unchanged_witness :
  exists y, uefi_variable_store_set_variable sample_interface sample_interface (fun _ => true) (fill 170) (StorageInfo 0 0 0)
      (sample_after sample_locked) (sample_var 65 2 [9])
    = Some (set_permission (is_boot_service (sample_after sample_locked))
              (Var 2 1 true None (fill 0 16) (fill 0 32)) (sample_var 65 2 [9]), y) /\
    store_inv (VP := mock_view) (VW := mock_view) y /\
    forall k, contents (VP := mock_view) (VW := mock_view) y k
            = contents (VP := mock_view) (VW := mock_view) (sample_after sample_locked) k.
Proof.
  pose proof (mock_store_laws (fun _ => true) ltac:(done)) as Hlaws.
  apply (protected_variables_unchanged (VP := mock_view) (VW := mock_view)).
  - apply sample_after_inv. unfold sample_locked. repeat (apply Forall_cons; split); [..|apply Forall_nil];
      unfold store_op_ok, request_ok, lookup_ok, terminated, guid_ok, fits; vm_compute; intuition discriminate.
  - unfold request_ok, guid_ok, fits. vm_compute. intuition discriminate.
  - reflexivity.
  - reflexivity.
  - vm_compute. reflexivity.
  - vm_compute. discriminate.
Defined.

(** ** Saves that fail *)

(** A persistent backend without room for an index of two variables. *)
Definition scarce : storage_backend_interface MockStore.mock_store := MockStore.interface (fun n => negb (n =? 438)).

(** A variable can be lost although setting it succeeded.  When saving the index fails,
    the entries are no longer marked dirty although nothing was saved, and the variable
    stays in the index; setting it again succeeds, without saving the index, and it
    can be read; after a restart it does not exist. *)
Theorem failed_save_forgets_variable :
  ('(_, x) ← sample_start scarce sample_mock 4;
   '(rs, x) ← sample_run scarce x [OpSet (sample_var 65 7 [1]); OpSet (sample_var 66 7 [2]); OpSet (sample_var 66 7 [2]);
     OpGet (sample_request 66 1) 1];
   '(st, x) ← sample_start scarce (persistent_backend x) 4;
   '(rs2, _) ← sample_run scarce x [OpGet (sample_request 65 1) 1; OpGet (sample_request 66 1) 1];
   Some (map reply_view rs, st, map reply_view rs2))
  = Some ([(EFI_SUCCESS, []); (EFI_OUT_OF_RESOURCES, []); (EFI_SUCCESS, []); (EFI_SUCCESS, [2])],
          EFI_SUCCESS, [(EFI_SUCCESS, [1]); (EFI_NOT_FOUND, [])]).
Proof. vm_compute. reflexivity. Qed.

(** A backend that stops before the second part of a long index is written. *)
Definition cut : storage_backend_interface MockStore.mock_store :=
  let I := sample_interface in
  StorageBackend (sb_set I) (sb_get I) (sb_get_info I) (sb_remove I) (sb_create I)
    (fun d client u off n p => if off >=? 4096 then Some (PSA_ERROR_STORAGE_FAILURE, d) else sb_set_extended I d client u off n p)
    (sb_get_support I).

Definition sample_vars (n : nat) : list SMM_VARIABLE_COMMUNICATE_ACCESS_VARIABLE :=
  (fun i => sample_var (65 + Z.of_nat i) 7 [Z.of_nat i]) <$> seq 0 n.

(** A save that is cut short loses variables that were saved before.  The counter that
    tells the newer of the two copies of the index is written first; when the rest of a
    copy of more than 4096 octets is not written, the next start takes the part for the
    whole.  Nineteen variables are set successfully; while a twentieth is set, power
    is lost; after the restart the nineteenth is gone. *)
Theorem interrupted_save_loses_variable :
  ('(_, x) ← sample_start sample_interface sample_mock 40;
   '(rs, x) ← sample_run sample_interface x (OpSet <$> sample_vars 19);
   '(rs1, x) ← sample_run cut x [OpSet (sample_var 90 7 [1])];
   '(st, x) ← sample_start sample_interface (persistent_backend x) 40;
   '(rs2, _) ← sample_run sample_interface x ((fun i => OpGet (sample_request (65 + Z.of_nat i) 1) 1) <$> seq 0 19);
   Some (bool_decide (map reply_view rs = replicate 19 (EFI_SUCCESS, [])), map reply_view rs1, st,
         drop 17 (map reply_view rs2)))
  = Some (true, [(EFI_DEVICE_ERROR, [])], EFI_SUCCESS, [(EFI_SUCCESS, [17]); (EFI_NOT_FOUND, [])]).
Proof. vm_compute. reflexivity. Qed.

(** A variable without access attributes is created by one request and deleted by the next,
    although a request without access attributes is a deletion. *)
Example unattributed_variable :
  ('(rs, _) ← sample_run sample_interface sample_store
     [OpSet (sample_var 65 0 [1]); OpGet (sample_request 65 1) 1; OpSet (sample_var 65 0 [1]); OpGet (sample_request 65 1) 1];
   Some (map reply_view rs))
  = Some [(EFI_SUCCESS, []); (EFI_SUCCESS, [1]); (EFI_SUCCESS, []); (EFI_NOT_FOUND, [])].
Proof. vm_compute. reflexivity. Qed.
