(* ===== verification/UefiStoreNames.v ===== *)
(** * GetNextVariableName of the UEFI variable store

    What uefi_variable_store_get_next_variable_name answers, and that a client that asks
    again with each name it gets sees every variable it may access, once. *)
From S2P Require Import Prelude Status StorageBackend VariableIndex VariableStorage UefiStore UefiStoreSpec UefiStoreSet UefiStoreRun.

(** ** The entries that come next *)

Definition candidates (ix : variable_index) (pos : Z) : list variable_entry :=
  filter (fun e => holds_variable e = true) (drop (Z.to_nat pos) (entries ix)).

Lemma next_set_ok ix pos :
  index_ok ix -> 0 <= pos <= max_variables ix ->
  (next_set ix pos = Some None /\ candidates ix pos = []) \/
  (exists i e, next_set ix pos = Some (Some i) /\ pos <= i < max_variables ix /\ nthZ (entries ix) i = Some e /\
     holds_variable e = true /\ candidates ix pos = e :: candidates ix (i + 1)).
Proof.
  intros Hok. pose proof Hok as (Hmax & Hlen & _). remember (Z.to_nat (max_variables ix - pos)) as n eqn:Hn.
  revert pos Hn. induction n as [|n IH]; intros pos Hn Hpos.
  { left. unfold candidates, next_set. rewrite (swrap_small 32), <- Hn by lia.
    rewrite drop_ge by (unfold len in Hlen; lia). done. }
  destruct (nthZ_is_Some (entries ix) pos) as [e He]; [lia|]. unfold candidates. rewrite (drop_nthZ _ _ _ He), filter_cons.
  destruct (nthZ_split _ _ _ He) as (l1 & l2 & Hes & Hl & _). pose proof (next_set_cons ix l1 e l2 Hok Hes) as Hnx.
  rewrite Hl in Hnx. rewrite Hnx. destruct (holds_variable e) eqn:Hh; simpl.
  - right. exists pos, e. split; [done|]. split; [lia|done].
  - destruct (IH (pos + 1) ltac:(lia) ltac:(lia)) as [[-> Hc]|(i & e2 & -> & Hi & Hrest)]; [by left|right].
    exists i, e2. split; [done|]. split; [lia|done].
Qed.

(** The answer of GetNextVariableName, where [cs] are the variables that come next. *)
Fixpoint next_reply (boot : bool) (size : Z) (cs : list variable_entry) : Z * option variable_entry :=
  match cs with
  | [] => (EFI_NOT_FOUND, None)
  | e :: cs =>
      if name_size (metadata (info e)) <=? size then
        if accessible boot (attributes (metadata (info e))) then (EFI_SUCCESS, Some e) else next_reply boot size cs
      else (EFI_BUFFER_TOO_SMALL, Some e)
  end.

(** The name that is returned: of the variable, or none. *)
Definition next_message (size : Z) (cur cur' : SMM_VARIABLE_COMMUNICATE_GET_NEXT_VARIABLE_NAME)
    (r : Z * option variable_entry) : Prop :=
  len (next_Name cur') = len (next_Name cur) /\
  match r with
  | (st, Some e) =>
      next_NameSize cur' = name_size (metadata (info e)) /\
      if st =? EFI_SUCCESS then
        (next_Guid cur', slice (next_Name cur') 0 (next_NameSize cur')) = entry_key e /\ next_NameSize cur' <= size
      else next_Guid cur' = Guid 0 0 0 (fill 0 8) /\ slice (next_Name cur') 0 size = fill 0 size
  | (_, None) =>
      next_NameSize cur' = 0 /\ next_Guid cur' = Guid 0 0 0 (fill 0 8) /\ slice (next_Name cur') 0 size = fill 0 size
  end.

Section Store.
Context {P W : Type}.
Abbreviation store_ctx := (uefi_variable_store P W).
Implicit Types x y : store_ctx.

Lemma clear_name nm size :
  0 <= size <= len nm -> exists nm', store nm 0 (fill 0 size) = Some nm' /\ len nm' = len nm /\ slice nm' 0 size = fill 0 size.
Proof.
  intros Hs. destruct (store_front nm (fill 0 size)) as (nm' & -> & Hl & Hf); [rewrite len_fill; lia|].
  rewrite len_fill in Hf by lia. by exists nm'.
Qed.

(** [n]: the octets of a name that fix the variable. *)
Lemma copy_name e nm :
  entry_ok e -> name_size (metadata (info e)) <= len nm ->
  exists b nm', load (name (metadata (info e))) 0 (name_size (metadata (info e))) = Some b /\
    store nm 0 b = Some nm' /\ len nm' = len nm /\
    (guid (metadata (info e)), slice nm' 0 (name_size (metadata (info e)))) = entry_key e.
Proof.
  intros ((_ & _ & _ & Hns & Hnl & _) & _) Hl. eexists _. rewrite load_is_slice by lia.
  destruct (store_front nm (slice (name (metadata (info e))) 0 (name_size (metadata (info e))))) as (nm' & Hst & Hln & Hs);
    [rewrite slice_len; lia|]. rewrite slice_len in Hs by lia. exists nm'. split; [done|]. split; [done|].
  split; [done|]. unfold entry_key. by rewrite Hs.
Qed.

(** A variable that can be asked with. *)
Lemma entry_position ix i e :
  nthZ (entries ix) i = Some e -> holds_variable e = true -> at_pos ix i (entry_key e) (entry_variable e).
Proof. intros He [Hu _]%andb_true_iff. by exists e. Qed.

(** The loop visits the variables that come next until one can be returned. *)
Lemma next_name_loop_ok fuel x size cur pos :
  index_ok (variable_index_ x) -> Forall named (entries (variable_index_ x)) ->
  0 <= pos <= max_variables (variable_index_ x) -> 0 <= size <= len (next_Name cur) ->
  (length (candidates (variable_index_ x) pos) < fuel)%nat ->
  variable_index_find_next (variable_index_ x) (next_Guid cur) (next_NameSize cur) (next_Name cur)
  = (r ← next_set (variable_index_ x) pos;
     Some (r, match r with Some _ => EFI_SUCCESS | None => EFI_NOT_FOUND end)) ->
  let r := next_reply (is_boot_service x) size (candidates (variable_index_ x) pos) in
  exists cur', next_name_loop fuel x size cur = Some (fst r, cur') /\ next_message size cur cur' r.
Proof.
  revert cur pos. induction fuel as [|fuel IH]; intros cur pos Hok Hnames Hpos Hsz Hf Hfind; [lia|].
  cbn [next_name_loop]. rewrite Hfind. pose proof (fun e i => entry_at (variable_index_ x) i e Hok) as Hentry.
  destruct (next_set_ok _ pos Hok Hpos) as [[-> ->]|(i & e & -> & Hi & He & Hh & Hc)]; cbn [mbind option_bind].
  { destruct (clear_name (next_Name cur) size Hsz) as (nm' & -> & Hl & Hz). cbn [mbind option_bind next_reply fst snd].
    by eexists. }
  rewrite Hc in *. simpl Z.eqb. cbv match. rewrite He. cbn [mbind option_bind next_reply].
  destruct (Z.leb_spec (name_size (metadata (info e))) size) as [Hle|Hgt].
  2:{ destruct (clear_name (next_Name cur) size Hsz) as (nm' & -> & Hl & Hz). cbn [mbind option_bind fst snd].
      by eexists. }
  destruct (copy_name e (next_Name cur)) as (b & nm' & -> & Hst & Hl & Hk); [exact (Hentry e i He)|lia|].
  cbn [mbind option_bind]. rewrite Hst. cbn [mbind option_bind].
  assert (is_variable_set (info e) = true) as Hset by by apply andb_true_iff in Hh as [_ ?].
  rewrite (variable_access_spec x (info e) Hset).
  destruct (accessible (is_boot_service x) (attributes (metadata (info e)))) eqn:Hacc; simpl Z.eqb; cbv match.
  { eexists. split; [done|]. by cbn. }
  set (cur1 := NextVariableName _ _ _). destruct (IH cur1 (i + 1)) as (cur' & -> & Hl' & Hmsg); try done.
  - lia.
  - simpl. lia.
  - simpl in Hf. lia.
  - assert (named e) as Hn.
    { unfold nthZ in He. case_match; [|done]. by eapply Forall_lookup_1. }
    destruct (Hn Hh) as [H2 Hch]. destruct (Hentry e i He) as ((_ & _ & _ & Hns & Hnl & _) & _).
    eapply find_next_behind; [done|cbn [cur1 next_Guid next_NameSize next_Name]; rewrite Hk; by apply entry_position|simpl; lia|].
    simpl. rewrite (uint_at_prefix nm' (name (metadata (info e))) (name_size (metadata (info e)))); [done| |lia..]. unfold entry_key in Hk. by injection Hk.
  - exists cur'. split; [done|]. split; [simpl in Hl'; congruence|done].
Qed.

(** ** The name in the buffer *)

(** [n] octets of [nm] hold the name of [z] octets: up to its first null character, or all. *)
Definition name_in (nm : bytes) (n z : Z) : Prop :=
  exists i, 0 <= i <= n / 2 /\ (forall j, 0 <= j < i -> uint_at nm (2 * j) 2 <> 0) /\
    (i < n / 2 /\ uint_at nm (2 * i) 2 = 0 /\ z = 2 * (i + 1) \/ i = n / 2 /\ z = n).

Lemma find_null_ok n nm i :
  0 <= i -> 2 * (i + Z.of_nat n) <= len nm ->
  (exists k, find_null n nm i = Some (Some k) /\ i <= k < i + Z.of_nat n /\ uint_at nm (2 * k) 2 = 0 /\
     forall j, i <= j < k -> uint_at nm (2 * j) 2 <> 0) \/
  (find_null n nm i = Some None /\ forall j, i <= j < i + Z.of_nat n -> uint_at nm (2 * j) 2 <> 0).
Proof.
  revert i. induction n as [|n IH]; intros i Hi Hl; cbn [find_null]; [right; split; [done|]; intros; lia|].
  rewrite get_uint_ok by lia. cbn [mbind option_bind]. destruct (Z.eqb_spec (uint_at nm (2 * i) 2) 0) as [Hz|Hz].
  { left. exists i. split; [done|]. split; [lia|]. split; [done|]. intros; lia. }
  destruct (IH (i + 1)) as [(k & -> & Hk & Hzk & Hb)|[-> Hb]]; [lia|lia|left; exists k|right];
    (split; [done|]); [split; [lia|]; split; [done|]|]; intros j Hj;
    (destruct (decide (j = i)) as [->|]; [done|apply Hb; lia]).
Qed.

Lemma name_in_bounds nm n z : 0 <= n -> name_in nm n z -> 0 <= z <= n.
Proof.
  intros Hn (i & Hi & _ & [(Hlt & _ & ->)|[_ ->]]); [|lia]. pose proof (Z.mul_div_le n 2). lia.
Qed.

Definition next_key (cur : SMM_VARIABLE_COMMUNICATE_GET_NEXT_VARIABLE_NAME) (n : Z) : key :=
  (next_Guid cur, slice (next_Name cur) 0 n).

(** What GetNextVariableName answers, to a name of [n] octets in a buffer of [size]. *)
Definition next_after x (size n : Z) (cur : SMM_VARIABLE_COMMUNICATE_GET_NEXT_VARIABLE_NAME)
    (r : Z * option variable_entry) : Prop :=
  let ix := variable_index_ x in
  if uint_at (next_Name cur) 0 2 =? 0 then r = next_reply (is_boot_service x) size (candidates ix 0)
  else match vars ix !! next_key cur n with
       | Some v => exists pos, at_pos ix pos (next_key cur n) v /\
                     r = next_reply (is_boot_service x) size (candidates ix (pos + 1))
       | None => r = (EFI_INVALID_PARAMETER, None)
       end.

Lemma candidates_length ix pos : (length (candidates ix pos) <= length (entries ix))%nat.
Proof.
  unfold candidates. etrans; [apply length_filter|]. rewrite length_drop. lia.
Qed.

Lemma at_pos_range ix pos k v : index_ok ix -> at_pos ix pos k v -> 0 <= pos < max_variables ix.
Proof. intros (_ & Hl & _) (e & He & _). pose proof (nthZ_Some _ _ _ He). lia. Qed.

Lemma get_next_ok x cur total :
  index_ok (variable_index_ x) -> Forall named (entries (variable_index_ x)) ->
  0 <= next_NameSize cur <= len (next_Name cur) ->
  exists n, name_in (next_Name cur) (next_NameSize cur) n /\
    (terminated (next_Name cur) n ->
     exists r cur', uefi_variable_store_get_next_variable_name x (Some cur) total
         = Some (fst r, Some cur', if fst r =? EFI_SUCCESS then u64 (NEXT_VARIABLE_NAME_NAME_OFFSET + next_NameSize cur')
                                   else NEXT_VARIABLE_NAME_NAME_OFFSET) /\
       next_after x (next_NameSize cur) n cur r /\ next_message (next_NameSize cur) cur cur' r) /\
    (~ terminated (next_Name cur) n ->
     uefi_variable_store_get_next_variable_name x (Some cur) total
     = Some (EFI_INVALID_PARAMETER, Some (NextVariableName (next_Guid cur) n (next_Name cur)), total)).
Proof.
  intros Hok Hnames Hs. pose proof Hok as (Hmax & Hlen & _).
  set (size := next_NameSize cur) in *. set (nm := next_Name cur) in *.
  assert (exists n, name_in nm size n /\ uefi_variable_store_get_next_variable_name x (Some cur) total =
    (status ← check_name_terminator nm n;
     if negb (status =? EFI_SUCCESS) then Some (status, Some (NextVariableName (next_Guid cur) n nm), total)
     else
       '(status, cur) ← next_name_loop (S (Z.to_nat (max_variables (variable_index_ x)))) x size
                          (NextVariableName (next_Guid cur) n nm);
       Some (status, Some cur,
             if status =? EFI_SUCCESS then u64 (NEXT_VARIABLE_NAME_NAME_OFFSET + next_NameSize cur)
             else NEXT_VARIABLE_NAME_NAME_OFFSET))) as (n & Hn & ->).
  { unfold uefi_variable_store_get_next_variable_name. fold size nm. pose proof (Z.mul_div_le size 2).
    pose proof (Z.div_pos size 2). 
    destruct (find_null_ok (Z.to_nat (size / 2)) nm 0) as [(k & -> & Hk & Hz & Hb)|[-> Hb]]; [lia|lia| |];
      cbn [mbind option_bind].
    - exists (2 * (k + 1)). split; [|done]. exists k. split; [lia|]. split; [intros; apply Hb; lia|left; lia || (split; [lia|done])].
    - exists size. split; [|by destruct cur]. exists (size / 2). split; [lia|]. split; [intros; apply Hb; lia|by right]. }
  pose proof (name_in_bounds nm size n (proj1 Hs) Hn) as Hnb. exists n. split; [done|]. split.
  - intros Ht. rewrite Ht. cbn [mbind option_bind]. simpl Z.eqb at 1. cbn [negb]. cbv match.
    assert (2 <= n) as H2 by (unfold terminated, check_name_terminator in Ht; destruct (Z.ltb_spec n 2); [discriminate|lia]).
    set (cur0 := NextVariableName (next_Guid cur) n nm). unfold next_after. fold nm.
    assert (forall pos, 0 <= pos <= max_variables (variable_index_ x) ->
      variable_index_find_next (variable_index_ x) (next_Guid cur) n nm
      = (r ← next_set (variable_index_ x) pos; Some (r, match r with Some _ => EFI_SUCCESS | None => EFI_NOT_FOUND end)) ->
      let r := next_reply (is_boot_service x) size (candidates (variable_index_ x) pos) in
      exists cur', next_name_loop (S (Z.to_nat (max_variables (variable_index_ x)))) x size cur0 = Some (fst r, cur') /\
        next_message size cur cur' r) as Hloop.
    { intros pos Hpos Hf. pose proof (candidates_length (variable_index_ x) pos). unfold len in Hlen.
      destruct (next_name_loop_ok (S (Z.to_nat (max_variables (variable_index_ x)))) x size cur0 pos) as (cur' & -> & Hmsg);
        [done|done|done|done|lia|done|by exists cur']. }
    destruct (Z.eqb_spec (uint_at nm 0 2) 0) as [Hz|Hnz].
    + destruct (Hloop 0) as (cur' & -> & Hmsg); [lia| |by eexists _, _].
      unfold variable_index_find_next. destruct (Z.geb_spec n 2); [|lia]. rewrite get_uint_ok, Hz by lia. done.
    + destruct (find_variable_spec (variable_index_ x) (next_Guid cur) n nm Hok ltac:(lia))
        as [(pos & e & Hfind & Hpos & He & Hu & Hk)|[Hfind Hnone]].
      * assert (at_pos (variable_index_ x) pos (next_key cur n) (entry_variable e)) as Hp by by exists e.
        rewrite (at_pos_var _ _ _ _ Hok Hp).
        destruct (Hloop (pos + 1)) as (cur' & -> & Hmsg); [lia|eapply find_next_behind; [done|exact Hp|lia|done]|].
        eexists _, _. split; [done|]. split; [by exists pos|done].
      * change (vars (variable_index_ x) !! next_key cur n = None) in Hnone. rewrite Hnone. cbn [next_name_loop cur0 next_Guid next_NameSize next_Name].
        unfold variable_index_find_next. destruct (Z.geb_spec n 2); [|lia]. rewrite get_uint_ok by lia.
        cbn [mbind option_bind]. destruct (Z.eqb_spec (uint_at nm 0 2) 0); [done|]. cbn [negb]. cbv match.
        rewrite Hfind. cbn [mbind option_bind]. simpl Z.geb. cbv match.
        destruct (clear_name nm size Hs) as (nm' & -> & Hl & Hz). cbn [mbind option_bind].
        eexists (EFI_INVALID_PARAMETER, None), _. split; [done|]. split; [done|]. by cbn.
  - intros Ht. destruct (terminator_ok nm n ltac:(lia)) as (st & Hst & [->| ->]); [by destruct Ht|].
    rewrite Hst. done.
Qed.

(** ** Enumeration *)

(** A client with a buffer of [size] octets asks for the first name, and then for the name
    after each one it gets. *)
Fixpoint list_variables (fuel : nat) x (size : Z) (g : EFI_GUID) (nm : bytes) : option (list key * Z) :=
  match fuel with
  | O => None
  | S fuel =>
      '(status, cur, _) ← uefi_variable_store_get_next_variable_name x (Some (NextVariableName g size nm)) 0;
      cur ← cur;
      if status =? EFI_SUCCESS then
        '(ks, status) ← list_variables fuel x size (next_Guid cur) (next_Name cur);
        Some (next_key cur (next_NameSize cur) :: ks, status)
      else Some ([], status)
  end.

(** The only null character of a name is its last, and not its first. *)
Definition plain_name (e : variable_entry) : Prop :=
  holds_variable e = true ->
  exists m, 1 <= m /\ name_size (metadata (info e)) = 2 * (m + 1) /\ uint_at (name (metadata (info e))) (2 * m) 2 = 0 /\
    forall j, 0 <= j < m -> uint_at (name (metadata (info e))) (2 * j) 2 <> 0.

Lemma plain_named e : plain_name e -> named e.
Proof.
  intros H Hh. destruct (H Hh) as (m & Hm & Hs & _ & Hz). split; [lia|]. apply (Hz 0). lia.
Qed.

(** The name that was returned is found in the buffer again. *)
Lemma plain_name_in nm e size n :
  entry_ok e -> plain_name e -> holds_variable e = true -> name_size (metadata (info e)) <= size <= len nm ->
  slice nm 0 (name_size (metadata (info e))) = slice (name (metadata (info e))) 0 (name_size (metadata (info e))) ->
  name_in nm size n -> n = name_size (metadata (info e)) /\ terminated nm n /\ uint_at nm 0 2 <> 0.
Proof.
  intros He Hp Hh Hsz Hs (i & Hi & Hb & Hend). destruct (Hp Hh) as (m & Hm & Hns & Hz & Hnz).
  assert (forall j, 0 <= j <= m -> uint_at nm (2 * j) 2 = uint_at (name (metadata (info e))) (2 * j) 2) as Heq
    by (intros j Hj; apply (uint_at_prefix _ _ (name_size (metadata (info e)))); [done|lia..]).
  assert (m < size / 2) as Hdiv by (assert (m + 1 <= size / 2) by (apply Z.div_le_lower_bound; lia); lia).
  rewrite <- Heq in Hz by lia. assert (i = m) as ->.
  { destruct (Z.lt_trichotomy i m) as [Hlt|[|Hgt]]; [|done|by destruct (Hb m ltac:(lia))].
    destruct Hend as [(_ & Hzi & _)|[-> _]]; [|lia]. rewrite Heq in Hzi by lia. by destruct (Hnz i ltac:(lia)). }
  destruct Hend as [(_ & _ & ->)|[-> _]]; [|lia]. split; [lia|]. split.
  - unfold terminated, check_name_terminator. destruct (Z.ltb_spec (2 * (m + 1)) 2); [lia|].
    replace (2 * (2 * (m + 1) / 2 - 1)) with (2 * m) by (rewrite (Z.mul_comm 2 (m + 1)), Z.div_mul by lia; lia).
    rewrite get_uint_ok, Hz by lia. done.
  - specialize (Hnz 0 ltac:(lia)). rewrite <- (Heq 0) in Hnz by lia. done.
Qed.

(** The variables that may be accessed. *)
Definition visible x (cs : list variable_entry) : list key :=
  entry_key <$> filter (fun e => accessible (is_boot_service x) (attributes (metadata (info e))) = true) cs.

(** With room for any name, the next visible variable is returned. *)
Lemma next_reply_visible x size pos :
  index_ok (variable_index_ x) -> 128 <= size -> 0 <= pos <= max_variables (variable_index_ x) ->
  let r := next_reply (is_boot_service x) size (candidates (variable_index_ x) pos) in
  (r = (EFI_NOT_FOUND, None) /\ visible x (candidates (variable_index_ x) pos) = []) \/
  (exists i e, r = (EFI_SUCCESS, Some e) /\ pos <= i < max_variables (variable_index_ x) /\
     nthZ (entries (variable_index_ x)) i = Some e /\ holds_variable e = true /\
     visible x (candidates (variable_index_ x) pos) = entry_key e :: visible x (candidates (variable_index_ x) (i + 1))).
Proof.
  intros Hok Hsz. remember (length (candidates (variable_index_ x) pos)) as n eqn:Hn. revert pos Hn.
  induction n as [|n IH]; intros pos Hn Hpos;
    (destruct (next_set_ok _ pos Hok Hpos) as [[_ ->]|(i & e & _ & Hi & He & Hh & Hc)]; [by left|]);
    rewrite Hc in Hn |- *; simpl in Hn; [lia|]. cbn [next_reply].
  destruct (entry_at _ _ _ Hok He) as ((_ & _ & _ & Hns & _) & _).
  destruct (Z.leb_spec (name_size (metadata (info e))) size); [|lia].
  unfold visible. rewrite filter_cons.
  destruct (accessible (is_boot_service x) (attributes (metadata (info e)))) eqn:Hacc; simpl.
  - right. exists i, e. done.
  - destruct (IH (i + 1) ltac:(lia) ltac:(lia)) as [[-> Hv]|(j & e' & -> & Hj & Hrest)]; [by left|right].
    exists j, e'. split; [done|]. split; [lia|done].
Qed.

(** Asking with this name continues at [pos]. *)
Definition asks x (size : Z) (g : EFI_GUID) (nm : bytes) (pos : Z) : Prop :=
  forall n, name_in nm size n -> terminated nm n /\
    forall r, next_after x size n (NextVariableName g size nm) r ->
      r = next_reply (is_boot_service x) size (candidates (variable_index_ x) pos).

Lemma asks_first x size g nm : 2 <= size <= len nm -> uint_at nm 0 2 = 0 -> asks x size g nm 0.
Proof.
  intros Hs Hz n (i & Hi & Hb & Hend).
  assert (1 <= size / 2) by (apply Z.div_le_lower_bound; lia).
  assert (n = 2) as ->.
  { destruct (Z.eq_dec i 0) as [->|]; [|by destruct (Hb 0 ltac:(lia))]. destruct Hend as [(_ & _ & ->)|[? _]]; lia. }
  split.
  - unfold terminated, check_name_terminator. simpl Z.ltb. cbv match.
    change (2 * (2 / 2 - 1)) with 0. by rewrite get_uint_ok, Hz by lia.
  - intros r. unfold next_after. cbn [next_Name]. by rewrite Hz.
Qed.

Lemma asks_behind x size g nm i e :
  index_ok (variable_index_ x) -> nthZ (entries (variable_index_ x)) i = Some e -> plain_name e ->
  holds_variable e = true -> name_size (metadata (info e)) <= size <= len nm ->
  (g, slice nm 0 (name_size (metadata (info e)))) = entry_key e -> asks x size g nm (i + 1).
Proof.
  intros Hok He Hp Hh Hs Hk n Hn. pose proof (entry_at _ _ _ Hok He) as Hent.
  destruct (plain_name_in nm e size n Hent Hp Hh Hs) as (-> & Ht & Hz); [by injection Hk|done|]. split; [done|].
  intros r. unfold next_after. cbn [next_Name]. destruct (Z.eqb_spec (uint_at nm 0 2) 0); [done|].
  assert (next_key (NextVariableName g size nm) (name_size (metadata (info e))) = entry_key e) as -> by done.
  pose proof (entry_position _ _ _ He Hh) as Hat. rewrite (at_pos_var _ _ _ _ Hok Hat).
  intros (pos & (e' & He' & Hu' & Hk' & _) & ->).
  assert (pos = i) as ->; [|done]. apply andb_true_iff in Hh as [Hu _]. by eapply key_unique.
Qed.

Lemma list_from fuel x size g nm pos :
  index_ok (variable_index_ x) -> Forall plain_name (entries (variable_index_ x)) -> 128 <= size <= len nm ->
  0 <= pos <= max_variables (variable_index_ x) -> asks x size g nm pos ->
  (length (visible x (candidates (variable_index_ x) pos)) < fuel)%nat ->
  list_variables fuel x size g nm = Some (visible x (candidates (variable_index_ x) pos), EFI_NOT_FOUND).
Proof.
  intros Hok Hplain. revert g nm pos. induction fuel as [|fuel IH]; intros g nm pos Hs Hpos Hask Hf; [lia|].
  assert (Forall named (entries (variable_index_ x))) as Hnames by (eapply Forall_impl; [done|apply plain_named]).
  cbn [list_variables]. destruct (get_next_ok x (NextVariableName g size nm) 0 Hok Hnames) as (n & Hn & Hget & _);
    [simpl; lia|]. destruct (Hask n Hn) as [Ht Hr]. destruct (Hget Ht) as (r & cur' & -> & Hnext & Hl & Hmsg).
  cbn [mbind option_bind next_NameSize next_Name] in *. apply Hr in Hnext. subst r.
  destruct (next_reply_visible x size pos Hok ltac:(lia) Hpos) as [[Hrep ->]|(i & e & Hrep & Hi & He & Hh & Hv)];
    rewrite Hrep in *; cbn [fst] in *; [done|]. simpl Z.eqb. cbv match. rewrite Hv in Hf |- *. simpl in Hf.
  simpl Z.eqb in Hmsg. cbv match in Hmsg. destruct Hmsg as (Hns & Hkey & Hle). rewrite Hns in *.
  rewrite (IH (next_Guid cur') (next_Name cur') (i + 1)); [|lia|lia| |lia].
  - cbn [mbind option_bind]. unfold next_key. by rewrite Hkey.
  - eapply asks_behind; [done|done| |done|lia|done].
    unfold nthZ in He. case_match; [|done]. by eapply Forall_lookup_1.
Qed.

(** ** Properties *)

Lemma visible_keys x k :
  index_ok (variable_index_ x) ->
  k ∈ visible x (candidates (variable_index_ x) 0) <->
  exists v, vars (variable_index_ x) !! k = Some v /\ v_set v = true /\ accessible (is_boot_service x) (v_attributes v) = true.
Proof.
  intros Hok. unfold visible, candidates. rewrite drop_0, list_elem_of_fmap. split.
  - intros (e & -> & [Hacc [[Hu Hset]%andb_true_iff Hin]%list_elem_of_filter]%list_elem_of_filter).
    exists (entry_variable e). split; [|done]. apply list_elem_of_lookup in Hin as [i Hi]. rewrite <- nthZ_of_nat in Hi.
    by eapply binding_variable.
  - intros (v & (i & e & Hi & Hb)%variables_lookup & Hset & Hacc); [|by destruct Hok as (_ & _ & _ & _ & ? & _)].
    unfold binding in Hb. destruct (in_use e) eqn:Hu; [|done]. injection Hb as <- <-. exists e. split; [done|].
    apply list_elem_of_filter. split; [done|]. apply list_elem_of_filter. split; [unfold holds_variable; by rewrite Hu|].
    unfold nthZ in Hi. case_match; [|done]. by eapply list_elem_of_lookup_2.
Qed.

(** C38: every variable is listed.  A client that asks the store for the first name and then
    for the name after each one it gets, with a buffer that has room for any name, is given
    every variable that may be accessed, each once, and is then told that there are no
    more; the number of requests is bounded by the size of the index.  The names have to
    end with their first null character, and none is the empty name (a null alone), after
    which the listing would start again. *)
Theorem uefi_variables_listed x size g nm :
  index_ok (variable_index_ x) -> Forall plain_name (entries (variable_index_ x)) -> 128 <= size <= len nm ->
  uint_at nm 0 2 = 0 ->
  exists ks, list_variables (S (length (entries (variable_index_ x)))) x size g nm = Some (ks, EFI_NOT_FOUND) /\ NoDup ks /\
    forall k, k ∈ ks <-> exists v, vars (variable_index_ x) !! k = Some v /\ v_set v = true /\
                          accessible (is_boot_service x) (v_attributes v) = true.
Proof.
  intros Hok Hplain Hs Hz. pose proof Hok as (Hmax & _ & _ & _ & Hnd & _).
  exists (visible x (candidates (variable_index_ x) 0)). split; [|split; [|intros k; by apply visible_keys]].
  - apply list_from; [done|done|done|lia|apply asks_first; [lia|done]|].
    pose proof (candidates_length (variable_index_ x) 0). unfold visible. rewrite length_fmap.
    pose proof (length_filter (fun e => accessible (is_boot_service x) (attributes (metadata (info e))) = true)
      (candidates (variable_index_ x) 0)). lia.
  - unfold visible, candidates. rewrite drop_0. eapply sublist_NoDup; [by apply set_keys_NoDup|].
    apply fmap_sublist, sublist_filter.
Qed.

(** A request for the first name, with a buffer of [size] octets. *)
Definition first_name_request (size : Z) (cur : SMM_VARIABLE_COMMUNICATE_GET_NEXT_VARIABLE_NAME) : Prop :=
  2 <= next_NameSize cur /\ size <= len (next_Name cur) /\ uint_at (next_Name cur) 0 2 = 0.

(** C39: GetNextVariableName may never return.  When the first variable of the index has a
    name that begins with a null character, and may not be accessed any more, a request for
    the first name makes the store visit that variable over and over again: the name it
    goes on from is again the one that asks for the first variable. *)
Theorem empty_name_never_returns x size cur pos e :
  index_ok (variable_index_ x) -> next_set (variable_index_ x) 0 = Some (Some pos) ->
  nthZ (entries (variable_index_ x)) pos = Some e ->
  2 <= name_size (metadata (info e)) <= size -> uint_at (name (metadata (info e))) 0 2 = 0 ->
  is_variable_set (info e) = true -> accessible (is_boot_service x) (attributes (metadata (info e))) = false ->
  first_name_request size cur ->
  forall fuel, next_name_loop fuel x size cur = None.
Proof.
  intros Hok Hnext He Hns Hz Hset Hacc Hfirst fuel. revert cur Hfirst.
  induction fuel as [|fuel IH]; intros cur (Hcur & Hsz & Hz0); [done|]. cbn [next_name_loop]. unfold variable_index_find_next.
  destruct (Z.geb_spec (next_NameSize cur) 2); [|lia]. rewrite get_uint_ok, Hz0 by lia. cbn [mbind option_bind].
  simpl Z.eqb. cbn [negb]. cbv match. rewrite Hnext. cbn [mbind option_bind]. simpl Z.eqb. cbv match.
  rewrite He. cbn [mbind option_bind]. destruct (Z.leb_spec (name_size (metadata (info e))) size); [|lia].
  pose proof (entry_at _ _ _ Hok He) as Hent. pose proof Hent as ((_ & _ & _ & Hn & Hnl & _) & _).
  destruct (copy_name e (next_Name cur) Hent) as (b & nm' & -> & Hst & Hl & Hk); [lia|]. cbn [mbind option_bind].
  rewrite Hst. cbn [mbind option_bind]. rewrite variable_access_spec, Hacc by done. simpl Z.eqb. cbv match.
  apply IH. split; [simpl; lia|]. split; [simpl; lia|]. cbn [next_NameSize next_Name].
  rewrite (uint_at_prefix nm' (name (metadata (info e))) (name_size (metadata (info e)))); [done| |lia..].
  unfold entry_key in Hk. by injection Hk.
Qed.

End Store.

(** ** Samples *)

Definition sample_names : list store_op :=
  [OpSet (sample_var 65 7 [1]); OpSet (sample_var 66 2 [2]); OpSet (sample_var 67 6 [3]); OpExitBootService].

Lemma sample_index_entries os :
  Forall store_op_ok os -> index_ok (variable_index_ (sample_after os)).
Proof. intros Hos. apply (si_index _ (sample_after_inv os Hos)). Qed.

Lemma sample_names_ok : Forall store_op_ok sample_names.
Proof.
  unfold sample_names. repeat (apply Forall_cons; split); [..|apply Forall_nil];
    unfold store_op_ok, request_ok, lookup_ok, terminated, guid_ok, fits; vm_compute; intuition discriminate.
Qed.

Lemma plain_sample e c :
  uint_at (name (metadata (info e))) 0 2 = c -> c <> 0 -> uint_at (name (metadata (info e))) 2 2 = 0 ->
  name_size (metadata (info e)) = 4 -> plain_name e.
Proof.
  intros Hc Hnz Hz Hn _. exists 1. split; [lia|]. split; [done|]. split; [done|]. intros j Hj.
  assert (j = 0) as -> by lia. change (2 * 0) with 0. congruence.
Qed.

Lemma uefi_variables_listed_witness :
  exists ks, list_variables (S (length (entries (variable_index_ (sample_after sample_names))))) (sample_after sample_names)
      128 (Guid 0 0 0 []) (fill 0 128) = Some (ks, EFI_NOT_FOUND) /\ NoDup ks /\
    forall k, k ∈ ks <-> exists v, vars (variable_index_ (sample_after sample_names)) !! k = Some v /\ v_set v = true /\
                          accessible (is_boot_service (sample_after sample_names)) (v_attributes v) = true.
Proof.
  apply uefi_variables_listed.
  - apply sample_index_entries, sample_names_ok.
  - vm_compute entries. repeat (apply Forall_cons; split); [..|apply Forall_nil];
      first [exact I|intros Hh; vm_compute in Hh; discriminate Hh|eapply plain_sample; [vm_compute; reflexivity|discriminate|reflexivity|reflexivity]].
  - vm_compute. split; discriminate.
  - reflexivity.
Defined.

(** The boot service variable is not listed. *)
Example sample_listed :
  (fun '(ks, st) => (map snd ks, st)) <$> list_variables 5 (sample_after sample_names) 128 (Guid 0 0 0 []) (fill 0 128)
  = Some ([[65; 0; 0; 0]; [67; 0; 0; 0]], EFI_NOT_FOUND).
Proof. vm_compute. reflexivity. Qed.

(** A variable named by a null character only, and one with a null character inside. *)
Definition odd_var (nm : bytes) (a : Z) (d : bytes) : SMM_VARIABLE_COMMUNICATE_ACCESS_VARIABLE :=
  AccessVariable (Guid 1 2 3 (fill 4 8)) (len d) (len nm) a (nm ++ d).

Definition sample_empty_name : list store_op := [OpSet (odd_var [0; 0] 2 [1]); OpExitBootService].

Lemma empty_name_never_returns_witness :
  next_set (variable_index_ (sample_after sample_empty_name)) 0 = Some (Some 0) /\
  forall fuel, next_name_loop fuel (sample_after sample_empty_name) 128 (NextVariableName (Guid 0 0 0 []) 2 (fill 0 128)) = None.
Proof.
  assert (index_ok (variable_index_ (sample_after sample_empty_name))) as Hok.
  { apply sample_index_entries. unfold sample_empty_name. repeat (apply Forall_cons; split); [..|apply Forall_nil];
      unfold store_op_ok, request_ok, lookup_ok, terminated, guid_ok, fits; vm_compute; intuition discriminate. }
  split; [vm_compute; reflexivity|].
  eapply (empty_name_never_returns (sample_after sample_empty_name) 128 _ 0); [exact Hok|vm_compute; reflexivity..| | | | |];
    vm_compute; try reflexivity; repeat split; discriminate.
Defined.

(** The listing ends at the name with a null character inside: the variable behind it is
    never seen. *)
Example embedded_null :
  (fun '(ks, st) => (map snd ks, st)) <$>
    list_variables 5 (sample_after [OpSet (odd_var [65; 0; 0; 0; 66; 0; 0; 0] 7 [1]); OpSet (sample_var 67 7 [2])])
      128 (Guid 0 0 0 []) (fill 0 128)
  = Some ([[65; 0; 0; 0; 66; 0; 0; 0]], EFI_INVALID_PARAMETER).
Proof. vm_compute. reflexivity. Qed.
