(* ===== verification/UefiStoreInfo.v ===== *)
(** * QueryVariableInfo and the check properties of the UEFI variable store

    uefi_variable_store_query_variable_info accounts for the data of every variable;
    uefi_variable_store_set_var_check_property and _get_var_check_property write and read
    the constraints of one variable. *)
From S2P Require Import Prelude Status StorageBackend VariableIndex VariableStorage UefiStore UefiStoreSpec UefiStoreSet UefiStoreRun.

Lemma nv_bit a b : (Z.land a 1 =? Z.land b 1) = Bool.eqb (has a 1) (has b 1).
Proof.
  unfold has. assert (forall c, Z.land c 1 = c mod 2) as Hl by (intros c; apply (Z.land_ones c 1); lia). rewrite !Hl.
  pose proof (Z.mod_pos_bound a 2). pose proof (Z.mod_pos_bound b 2).
  destruct (Z.eqb_spec (a mod 2) 0), (Z.eqb_spec (b mod 2) 0), (Z.eqb_spec (a mod 2) (b mod 2)); simpl; lia || done.
Qed.

Section Store.
Context {P W : Type} {IP : storage_backend_interface P} {IW : storage_backend_interface W}.
Context {VP : storage_view P} {VW : storage_view W} `{!StorageLaws IP VP} `{!StorageLaws IW VW}.
Context {malloc_ok : Z -> bool} {junk : Z -> bytes} {uninitialised : psa_storage_info_t}.
Context (Hjunk : forall n, 0 <= n -> len (junk n) = n).
Abbreviation store_ctx := (uefi_variable_store P W).
Abbreviation asset_of := (UefiStoreSpec.asset_of (VP := VP) (VW := VW)).
Abbreviation still := (UefiStoreSpec.still (VP := VP) (VW := VW)).
Abbreviation called := (UefiStoreSpec.called (VP := VP) (VW := VW)).
Abbreviation contents := (UefiStoreSpec.contents (VP := VP) (VW := VW)).
Abbreviation store_inv := (UefiStoreSpec.store_inv (VP := VP) (VW := VW)).
Implicit Types x y z : store_ctx.

(** ** The octets that are used *)

(** The data of the variables among [es] that are in the persistent backend, or are not. *)
Definition entry_used x (nv : bool) (e : variable_entry) : Z :=
  if holds_variable e then
    match contents x (entry_key e) with
    | Some (a, d) => if Bool.eqb (has a EFI_VARIABLE_NON_VOLATILE) nv then len d else 0
    | None => 0
    end
  else 0.
Definition used x (nv : bool) (es : list variable_entry) : Z := foldr (fun e n => entry_used x nv e + n) 0 es.

Lemma entry_contents x i e :
  index_ok (variable_index_ x) -> nthZ (entries (variable_index_ x)) i = Some e -> holds_variable e = true ->
  contents x (entry_key e) = (a ← asset_of x (nv_of (entry_variable e)) (uid (metadata (info e)));
                              Some (attributes (metadata (info e)), a_data a)).
Proof.
  intros Hok He Hh. apply andb_true_iff in Hh as [Hu Hs]. unfold contents, UefiStoreSpec.contents.
  rewrite (binding_variable _ _ _ Hok He Hu). cbn [mbind option_bind entry_variable v_set v_uid v_attributes]. by rewrite Hs.
Qed.

Lemma entries_used_bound x nv :
  store_inv x -> Forall (fun e => 0 <= entry_used x nv e < 2 ^ 32) (entries (variable_index_ x)).
Proof.
  intros Hx. apply Forall_lookup_2. intros i e He. rewrite <- nthZ_of_nat in He. unfold entry_used.
  destruct (holds_variable e) eqn:Hh; [|lia]. rewrite (entry_contents x _ e (si_index x Hx) He Hh).
  apply andb_true_iff in Hh as [Hu Hs].
  destruct (asset_of x _ _) as [a|] eqn:Ha; cbn [mbind option_bind]; [|lia]. destruct (Bool.eqb _ _); [|lia].
  pose proof (binding_variable _ _ _ (si_index x Hx) He Hu) as Hk.
  destruct (si_owned x Hx _ _ _ (uid_range _ _ _ (si_index x Hx) Hk) Ha) as [[_ Hl] _].
  pose proof (len_nonneg (a_data a)). lia.
Qed.

Lemma used_bound x nv es :
  Forall (fun e => 0 <= entry_used x nv e < 2 ^ 32) es -> 0 <= used x nv es <= 2 ^ 32 * len es.
Proof. induction 1 as [|e es He _ IH]; unfold len in *; simpl; lia. Qed.

(** Entries that are not in use do not count. *)
Lemma used_skip x nv es a b :
  0 <= a <= b -> b <= len es -> (forall j e, a <= j < b -> nthZ es j = Some e -> in_use e = false) ->
  used x nv (drop (Z.to_nat a) es) = used x nv (drop (Z.to_nat b) es).
Proof.
  intros Hab Hb. remember (Z.to_nat (b - a)) as n eqn:Hn. revert a Hab Hn.
  induction n as [|n IH]; intros a Hab Hn Hfree; [by replace b with a by lia|].
  destruct (nthZ_is_Some es a) as [e He]; [lia|]. rewrite (drop_nthZ _ _ _ He). cbn [used foldr].
  fold (used x nv (drop (Z.to_nat (a + 1)) es)). rewrite (IH (a + 1)); [|lia|lia|intros; eapply Hfree; [|done]; lia].
  unfold entry_used, holds_variable. rewrite (Hfree a e); [done|lia|done].
Qed.

Lemma used_step x nv es i e :
  nthZ es i = Some e -> used x nv (drop (Z.to_nat i) es) = entry_used x nv e + used x nv (drop (Z.to_nat (i + 1)) es).
Proof. intros He. by rewrite (drop_nthZ _ _ _ He). Qed.

(** The iterator skips entries that are not in use. *)
Lemma next_used ix x nv pos :
  index_ok ix -> 0 <= pos < max_variables ix ->
  exists p, variable_index_iterator_next ix pos = Some p /\ pos < p <= max_variables ix /\
    used x nv (drop (Z.to_nat (pos + 1)) (entries ix)) = used x nv (drop (Z.to_nat p) (entries ix)).
Proof.
  intros (Hmax & Hlen & _) Hpos. unfold variable_index_iterator_next. destruct (Z.ltb_spec pos (max_variables ix)); [|lia].
  destruct (scan_spec (Z.to_nat (max_variables ix - (pos + 1))) (fun e => Some (in_use e)) (entries ix) (pos + 1))
    as [(i & e & -> & Hi & He & _ & Hb)|[-> Hb]]; [lia|lia|done| |]; cbn [mbind option_bind]; eexists;
    (split; [done|]); (split; [lia|]); apply used_skip; try lia; intros j e' Hj He';
    destruct (in_use e') eqn:Hu; try done; specialize (Hb j e' ltac:(lia) He'); simpl in Hb; congruence.
Qed.

Lemma first_used ix x nv :
  index_ok ix -> exists p, variable_index_iterator_first ix = Some p /\ 0 <= p <= max_variables ix /\
    used x nv (entries ix) = used x nv (drop (Z.to_nat p) (entries ix)).
Proof.
  intros (Hmax & Hlen & _). unfold variable_index_iterator_first, scan_all.
  destruct (scan_spec (Z.to_nat (max_variables ix)) (fun e => Some (in_use e)) (entries ix) 0)
    as [(i & e & -> & Hi & He & _ & Hb)|[-> Hb]]; [lia|lia|done| |]; cbn [mbind option_bind]; eexists;
    (split; [done|]); (split; [lia|]); rewrite <- (drop_0 (entries ix)) at 1; change 0%nat with (Z.to_nat 0);
    apply used_skip; try lia; intros j e' Hj He';
    destruct (in_use e') eqn:Hu; try done; specialize (Hb j e' ltac:(lia) He'); simpl in Hb; congruence.
Qed.

Lemma entry_used_at x nv i e :
  store_inv x -> nthZ (entries (variable_index_ x)) i = Some e -> 0 <= entry_used x nv e < 2 ^ 32.
Proof.
  intros Hx He. pose proof (entries_used_bound x nv Hx) as Hall. unfold nthZ in He. case_match; [|done].
  by apply (Forall_lookup_1 _ _ _ _ Hall He).
Qed.

(** One entry is counted. *)
Lemma space_entry_ok x y attrs i e total :
  store_inv x -> called x y -> still x y -> nthZ (entries (variable_index_ x)) i = Some e ->
  let nv := select_delegate_store attrs in
  0 <= total -> total + entry_used x nv e < 2 ^ 64 ->
  exists z, (if is_variable_set (info e) &&
      (Z.land (attributes (metadata (info e))) EFI_VARIABLE_NON_VOLATILE =? Z.land attrs EFI_VARIABLE_NON_VOLATILE) then
      '(psa_status, storage_info, x) ← backend_get_info IP IW y nv (uid (metadata (info e))) uninitialised;
      Some (if psa_status =? PSA_SUCCESS then u64 (total + si_size storage_info) else total, x)
    else Some (total, y)) = Some (total + entry_used x nv e, z) /\ called x z /\ still x z.
Proof.
  intros Hx Hc Hs He nv Ht Hlt. pose proof (si_index x Hx) as Hix. pose proof (entry_at _ _ _ Hix He) as (_ & _ & Hfree).
  rewrite nv_bit. change (has attrs 1) with nv. unfold entry_used in *.
  destruct (is_variable_set (info e)) eqn:Hset; cbn [andb].
  2:{ exists y. split; [|done]. unfold holds_variable. rewrite Hset, andb_false_r. do 2 f_equal. lia. }
  assert (in_use e = true) as Hu by (destruct (in_use e); [done|]; by destruct Hfree).
  assert (holds_variable e = true) as Hh by (unfold holds_variable; by rewrite Hu, Hset). rewrite Hh in *.
  rewrite (entry_contents x i e Hix He Hh) in *. set (a := attributes (metadata (info e))) in *.
  change (nv_of (entry_variable e)) with (has a EFI_VARIABLE_NON_VOLATILE) in *.
  destruct (Bool.eqb (has a 1) nv) eqn:Heq; cbn [andb].
  2:{ exists y. split; [|done]. destruct (asset_of x _ _); cbn [mbind option_bind]; [|do 2 f_equal; lia].
      change EFI_VARIABLE_NON_VOLATILE with 1. rewrite Heq. do 2 f_equal. lia. }
  apply eqb_prop in Heq. change (has a EFI_VARIABLE_NON_VOLATILE) with (has a 1) in *. rewrite Heq in Hlt |- *.
  pose proof (uid_range _ _ _ Hix (binding_variable _ _ _ Hix He Hu)) as Hur. simpl in Hur.
  pose proof Hix as (Hmax & _).
  destruct (backend_get_info_ok y nv (uid (metadata (info e))) uninitialised) as (st & inf & z & -> & Hcz & Hsz & Hi);
    [apply Hc|unfold fits; lia|]. cbn [mbind option_bind].
  assert (called x z /\ still x z) as Hz by (split; [by eapply called_trans|by eapply still_trans]).
  rewrite Hs in Hi. exists z. split; [|done]. destruct (asset_of x nv (uid (metadata (info e)))) as [s|] eqn:Ha; cbn [mbind option_bind] in *.
  - change EFI_VARIABLE_NON_VOLATILE with 1 in *. rewrite Heq, eqb_reflx in Hlt |- *.
    destruct Hi as (-> & -> & _). simpl Z.eqb. cbv match. do 2 f_equal.
    destruct (si_owned x Hx _ _ _ Hur Ha) as [[_ Hl] _]. pose proof (len_nonneg (a_data s)).
    rewrite (wrap_small 32) by lia. rewrite wrap_small by lia. done.
  - destruct Hi as [Hne _]. destruct (Z.eqb_spec st PSA_SUCCESS); [done|]. do 2 f_equal. lia.
Qed.

Lemma space_used_loop_ok fuel x y attrs pos total :
  store_inv x -> called x y -> still x y -> 0 <= pos <= max_variables (variable_index_ x) ->
  max_variables (variable_index_ x) - pos <= Z.of_nat fuel ->
  let nv := select_delegate_store attrs in
  let rest := used x nv (drop (Z.to_nat pos) (entries (variable_index_ x))) in
  0 <= total -> total + rest < 2 ^ 64 ->
  exists z, space_used_loop IP IW uninitialised fuel y attrs nv pos total = Some (total + rest, z) /\ called x z /\ still x z.
Proof.
  intros Hx Hc Hs Hpos Hf nv. revert y pos total Hc Hs Hpos Hf.
  pose proof (si_index x Hx) as Hix. pose proof Hix as (Hmax & Hlen & _).
  induction fuel as [|fuel IH]; intros y pos total Hc Hs Hpos Hf rest Ht0 Ht; cbn [space_used_loop];
    pose proof (called_index x y Hc) as Hi; rewrite Hi;
    unfold variable_index_iterator_current, variable_index_iterator_is_done;
    (destruct (Z.geb_spec pos (max_variables (variable_index_ x)));
      [exists y; split; [|done]; unfold rest; rewrite drop_ge by (unfold len in Hlen; lia); simpl; do 2 f_equal; lia|]); [lia|].
  destruct (nthZ_is_Some (entries (variable_index_ x)) pos) as [e He]; [lia|]. cbn [negb]. cbv match. rewrite He. cbn [mbind option_bind].
  unfold rest in Ht |- *. rewrite (used_step x nv _ pos e He) in Ht |- *. clear rest.
  destruct (next_used _ x nv pos Hix ltac:(lia)) as (p & Hnext & Hp & Hskip). rewrite Hskip in *.
  pose proof (used_bound x nv _ (Forall_drop _ (Z.to_nat p) _ (entries_used_bound x nv Hx))) as Hub.
  pose proof (entry_used_at x nv pos e Hx He) as Heb.
  destruct (space_entry_ok x y attrs pos e total Hx Hc Hs He) as (y' & Hy' & Hc' & Hs'); [lia|unfold nv in *; lia|].
  fold nv in Hy'. rewrite Hy'. cbn [mbind option_bind]. rewrite (called_index x y' Hc'), Hnext. cbn [mbind option_bind].
  destruct (IH y' p (total + entry_used x nv e)) as (z & -> & Hz); [done|done|lia|lia|lia|lia|].
  exists z. split; [|done]. do 2 f_equal. lia.
Qed.

Lemma query_info_ok x q :
  store_inv x ->
  let nv := select_delegate_store (query_Attributes q) in
  let d := delegate_store x nv in
  exists y, uefi_variable_store_query_variable_info IP IW uninitialised x q
      = Some (EFI_SUCCESS, QueryVariableInfo (total_capacity d)
                (Z.max 0 (total_capacity d - used x nv (entries (variable_index_ x)))) (max_variable_size d)
                (query_Attributes q), y) /\ called x y /\ still x y.
Proof.
  intros Hx nv d. pose proof (si_index x Hx) as Hix. pose proof Hix as (Hmax & Hlen & _).
  assert (has_backend (delegate_store x nv) = true) as Hb.
  { destruct (si_config x Hx) as [_ _ [Hp _] [Hw _] _ _]. unfold delegate_store. by destruct nv. }
  unfold uefi_variable_store_query_variable_info, space_used. fold nv. rewrite Hb. cbn [negb].
  destruct (first_used _ x nv Hix) as (p & -> & Hp & Hu). cbn [mbind option_bind].
  pose proof (used_bound x nv _ (entries_used_bound x nv Hx)) as Hub. rewrite Hlen in Hub.
  destruct (space_used_loop_ok (Z.to_nat (max_variables (variable_index_ x))) x x (query_Attributes q) p 0 Hx)
    as (y & Hloop & Hc & Hs); [apply called_refl, Hx|done|done|lia|lia|fold nv; rewrite <- Hu; lia|].
  fold nv in Hloop. rewrite Hloop. cbn [mbind option_bind]. rewrite <- Hu, Z.add_0_l.
  rewrite (called_delegate x y nv Hc). fold d. exists y. split; [|done]. do 4 f_equal.
  destruct (Z.ltb_spec (used x nv (entries (variable_index_ x))) (total_capacity d)); lia.
Qed.

(** ** The constraints of variables *)

Definition constraints_of x (k : key) : option variable_constraints := v ← vars (variable_index_ x) !! k; v_constraints v.

Definition property_fits (p : VAR_CHECK_VARIABLE_PROPERTY) : Prop :=
  fits 16 (Revision p) /\ fits 16 (Property_ p) /\ fits 32 (Attributes p) /\ fits 64 (MinSize p) /\ fits 64 (MaxSize p).

Definition check_ok (prop : SMM_VARIABLE_COMMUNICATE_VAR_CHECK_VARIABLE_PROPERTY) : Prop :=
  guid_ok (check_Guid prop) /\ 0 <= check_NameSize prop <= len (check_Name prop) /\ property_fits (VariableProperty prop).

Definition check_key (prop : SMM_VARIABLE_COMMUNICATE_VAR_CHECK_VARIABLE_PROPERTY) : key :=
  (check_Guid prop, slice (check_Name prop) 0 (check_NameSize prop)).

Definition constraints_for (p : VAR_CHECK_VARIABLE_PROPERTY) : variable_constraints :=
  Constraints (Revision p) (Property_ p) (Attributes p) (MinSize p) (MaxSize p).

Definition valid_property (p : VAR_CHECK_VARIABLE_PROPERTY) : bool :=
  (Revision p =? VAR_CHECK_VARIABLE_PROPERTY_REVISION) && (MinSize p <=? MaxSize p).

Lemma set_constraints_spec c b p :
  variable_checker_set_constraints c b p = if valid_property p then (EFI_SUCCESS, constraints_for p) else (EFI_INVALID_PARAMETER, c).
Proof.
  unfold variable_checker_set_constraints, valid_property. destruct (_ =? _); [|done]. cbn [negb andb].
  destruct (Z.gtb_spec (MinSize p) (MaxSize p)), (Z.leb_spec (MinSize p) (MaxSize p)); lia || done.
Qed.

(** The same variables with the same constraints. *)
Definition undisturbed x y : Prop :=
  store_inv y /\ is_boot_service y = is_boot_service x /\ (forall k, contents y k = contents x k).

Lemma undisturbed_trans x y z : undisturbed x y -> undisturbed y z -> undisturbed x z.
Proof. intros (_ & Hb & Hc) (Hz & Hb' & Hc'). split; [done|]. split; [congruence|]. intros k. by rewrite Hc', Hc. Qed.

(** The entry for the name of a request. *)
Lemma find_entry_ok x prop :
  store_inv x -> check_ok prop ->
  exists q p y, variable_index_find (variable_index_ x) (check_Guid prop) (check_NameSize prop) (check_Name prop) = Some q /\
    match q with
    | Some pos => Some (Some pos, x)
    | None =>
        '(p, ix) ← variable_index_add_entry (variable_index_ x) (check_Guid prop) (check_NameSize prop) (check_Name prop);
        Some (p, with_index x ix)
    end = Some (p, y) /\ undisturbed x y /\ (forall k, constraints_of y k = constraints_of x k) /\
    match p with
    | Some pos => exists v, at_pos (variable_index_ y) pos (check_key prop) v
    | None => y = x
    end.
Proof.
  intros Hx (Hg & Hn & _). pose proof (si_index x Hx) as Hix.
  destruct (find_pos _ (check_Guid prop) (check_NameSize prop) (check_Name prop) Hix Hn) as [(pos & v & -> & Hp)|[-> Hnone]].
  { exists (Some pos), (Some pos), x. split; [done|]. split; [done|]. split; [done|]. split; [done|]. by exists v. }
  destruct (added_inv x (check_Guid prop) (check_NameSize prop) (check_Name prop) (check_key prop) Hx Hg Hn eq_refl Hnone)
    as [(pos & v & ix & Hadd & Hp & Hy & Hal & Hc & Hnew & _ & Hvc & Hvars)|Hadd].
  - exists None, (Some pos), (with_index x ix). split; [done|]. rewrite Hadd. split; [done|]. split; [done|]. split; [|by exists v].
    intros k. unfold constraints_of. rewrite Hvars. destruct (decide (k = check_key prop)) as [->|Hne].
    + rewrite lookup_insert_eq, Hnew. done.
    + by rewrite lookup_insert_ne.
  - exists None, None, x. split; [done|]. rewrite Hadd. cbn [mbind option_bind]. by rewrite with_index_id.
Qed.

Lemma release_undisturbed x pos k v :
  store_inv x -> at_pos (variable_index_ x) pos k v ->
  exists ix, variable_index_remove_unused_entry (variable_index_ x) (Some pos) = Some ix /\
    undisturbed x (with_index x ix) /\ forall k', constraints_of (with_index x ix) k' = constraints_of x k'.
Proof.
  intros Hx Hp. destruct (release_ok x pos k v Hx Hp) as (ix & Hr & Hy & Hal & Hc & Hvars). exists ix. split; [done|].
  split; [done|]. intros k'. unfold constraints_of. simpl. rewrite Hvars. destruct (unused v) eqn:Hun; [|done].
  destruct (decide (k' = k)) as [->|Hne]; [|by rewrite lookup_delete_ne].
  rewrite lookup_delete_eq, (at_pos_var _ _ _ _ (si_index x Hx) Hp). unfold unused in Hun.
  apply andb_true_iff in Hun as [_ Hun%bool_decide_eq_true]. by simpl.
Qed.

(** What setting a property does: to its variable only. *)
Definition property_set x y prop (st : Z) : Prop :=
  undisturbed x y /\ (forall k, k <> check_key prop -> constraints_of y k = constraints_of x k) /\
  (constraints_of y (check_key prop) = constraints_of x (check_key prop) \/
   valid_property (VariableProperty prop) = true /\
   constraints_of y (check_key prop) = Some (constraints_for (VariableProperty prop))) /\
  (st = EFI_SUCCESS -> terminated (check_Name prop) (check_NameSize prop) /\ valid_property (VariableProperty prop) = true /\
     constraints_of y (check_key prop) = Some (constraints_for (VariableProperty prop))).

Lemma property_failed x y prop st :
  undisturbed x y -> (forall k, constraints_of y k = constraints_of x k) -> st <> EFI_SUCCESS -> property_set x y prop st.
Proof. intros Hu Hc Hst. split; [done|]. split; [done|]. split; [by left|done]. Qed.

Lemma set_property_ok x prop :
  store_inv x -> check_ok prop ->
  exists st y, uefi_variable_store_set_var_check_property IP IW x prop = Some (st, y) /\ property_set x y prop st.
Proof.
  intros Hx Hprop. pose proof Hprop as (_ & Hn & Hfit). unfold uefi_variable_store_set_var_check_property.
  destruct (terminator_ok (check_Name prop) (check_NameSize prop) ltac:(lia)) as (st & Ht & [-> | ->]); rewrite Ht;
    cbn [mbind option_bind].
  2:{ exists EFI_INVALID_PARAMETER, x. split; [done|]. by apply property_failed. }
  simpl Z.eqb at 1. cbn [negb]. cbv match.
  destruct (find_entry_ok x prop Hx Hprop) as (q & p & y & -> & Hq & Huy & Hcy & Hp). cbn [mbind option_bind].
  rewrite Hq. cbn [mbind option_bind]. destruct p as [pos|].
  2:{ exists EFI_OUT_OF_RESOURCES, y. split; [done|]. by apply property_failed. }
  destruct Hp as [v Hp]. pose proof Huy as (Hy & _). pose proof Hp as (e & He & _). rewrite He. cbn [mbind option_bind].
  rewrite set_constraints_spec. destruct (valid_property (VariableProperty prop)) eqn:Hvalid.
  - simpl Z.eqb at 1. cbv match.
    destruct (set_constraints_pos _ pos _ v (constraints_for (VariableProperty prop)) (si_index y Hy) Hp Hfit) as (ix & -> & Hset).
    cbn [mbind option_bind]. pose proof Hset as (_ & _ & _ & Hvars & Hp1). set (v1 := Var _ _ _ _ _ _) in *.
    pose proof (at_pos_var _ _ _ _ (si_index y Hy) Hp) as Hkv.
    assert (store_inv (with_index y ix)) as Hy1.
    { eapply index_set_inv; [done|exact Hset|]. intros v0 Hk0 Hs0. rewrite Hkv in Hk0. injection Hk0 as <-.
      split; [done|]. by left. }
    destruct (sync_ok (with_index y ix) Hy1) as (st & z & -> & Hsync & _). cbn [mbind option_bind].
    destruct (synced_inv _ z Hy1 Hsync) as (Hz & Hvz & Hcz & _).
    assert (at_pos (variable_index_ z) pos (check_key prop) v1) as Hp2 by (eapply clean_at_pos; [apply (sy_entries _ _ Hsync)|done]).
    destruct (release_undisturbed z pos _ v1 Hz Hp2) as (ix2 & -> & Huz & Hcw). cbn [mbind option_bind].
    assert (undisturbed y z) as Huyz.
    { split; [done|]. split; [by rewrite (sy_boot _ _ Hsync)|]. intros k. rewrite Hcz.
      destruct (decide (k = check_key prop)) as [->|Hne]; [|by eapply index_set_contents].
      unfold contents, UefiStoreSpec.contents. simpl. by rewrite Hvars, lookup_insert_eq, Hkv. }
    assert (constraints_of (with_index z ix2) (check_key prop) = Some (constraints_for (VariableProperty prop))) as Hnew.
    { rewrite Hcw. unfold constraints_of. rewrite Hvz. simpl. by rewrite Hvars, lookup_insert_eq. }
    eexists _, _. split; [done|]. split; [eapply undisturbed_trans; [exact Huy|by eapply undisturbed_trans]|].
    split; [|split; [by right|done]]. intros k Hne. rewrite Hcw, <- Hcy. unfold constraints_of. rewrite Hvz. simpl.
    by rewrite Hvars, lookup_insert_ne.
  - simpl Z.eqb. cbv match. cbn [mbind option_bind].
    destruct (release_undisturbed y pos _ v Hy Hp) as (ix2 & -> & Huz & Hcw). cbn [mbind option_bind].
    eexists _, _. split; [done|]. apply property_failed; [by eapply undisturbed_trans| |done].
    intros k. by rewrite Hcw.
Qed.

Lemma get_property_ok x prop :
  store_inv x -> check_ok prop -> terminated (check_Name prop) (check_NameSize prop) ->
  uefi_variable_store_get_var_check_property x prop =
    Some (match constraints_of x (check_key prop) with
          | Some c => (EFI_SUCCESS, CheckVariableProperty (check_Guid prop) (check_NameSize prop)
                                      (variable_checker_get_constraints c) (check_Name prop))
          | None => (EFI_NOT_FOUND, prop)
          end).
Proof.
  intros Hx (Hg & Hn & _) Ht. unfold uefi_variable_store_get_var_check_property. rewrite Ht. cbn [mbind option_bind].
  simpl Z.eqb at 1. cbn [negb]. cbv match. pose proof (si_index x Hx) as Hix. unfold constraints_of.
  destruct (find_pos _ (check_Guid prop) (check_NameSize prop) (check_Name prop) Hix Hn) as [(pos & v & -> & Hp)|[-> Hnone]];
    cbn [mbind option_bind].
  - change (at_pos (variable_index_ x) pos (check_key prop) v) in Hp. rewrite (at_pos_var _ _ _ _ Hix Hp).
    destruct Hp as (e & -> & _ & _ & <-). cbn [mbind option_bind entry_variable v_constraints].
    by destruct (is_constraints_set (info e)).
  - change (vars (variable_index_ x) !! check_key prop = None) in Hnone. by rewrite Hnone.
Qed.

(** ** Properties *)

(** QueryVariableInfo reports what is left.  It tells the capacity, the largest size of
    a variable and the attributes of the store that is asked for, persistent or volatile,
    and as the remaining size exactly the capacity less the octets of data of all its
    variables, or 0 when they exceed it; nothing changes. *)
Theorem variable_info_accounts x q :
  store_inv x ->
  let nv := select_delegate_store (query_Attributes q) in
  let d := delegate_store x nv in
  exists y, uefi_variable_store_query_variable_info IP IW uninitialised x q
      = Some (EFI_SUCCESS, QueryVariableInfo (total_capacity d)
                (Z.max 0 (total_capacity d - used x nv (entries (variable_index_ x)))) (max_variable_size d)
                (query_Attributes q), y) /\
    store_inv y /\ forall k, contents y k = contents x k.
Proof.
  intros Hx nv d. destruct (query_info_ok x q Hx) as (y & Hq & Hc & Hs). exists y. split; [exact Hq|].
  pose proof (called_dropped x y Hx Hc Hs) as Hd. split; apply Hd.
Qed.

(** A check property is kept.  Setting one changes no variable, no constraints of another
    one, and none at all when its values make no sense; when it succeeds, asking
    for it gives back what was set, and a request to set a variable that the property
    forbids is refused from then on. *)
Theorem check_property_kept x prop :
  store_inv x -> check_ok prop ->
  exists st y, uefi_variable_store_set_var_check_property IP IW x prop = Some (st, y) /\ store_inv y /\
    (forall k, contents y k = contents x k) /\
    (forall k, k <> check_key prop \/ valid_property (VariableProperty prop) = false ->
       constraints_of y k = constraints_of x k) /\
    (st = EFI_SUCCESS ->
     uefi_variable_store_get_var_check_property y prop = Some (EFI_SUCCESS, prop) /\
     forall v var, vars (variable_index_ y) !! check_key prop = Some v ->
       accessible (is_boot_service y) (v_attributes v) = true ->
       set_permission (is_boot_service y) v var =
         variable_checker_check_on_set (constraints_for (VariableProperty prop)) (av_Attributes var) (DataSize var)).
Proof.
  intros Hx Hprop. destruct (set_property_ok x prop Hx Hprop) as (st & y & Hset & (Hy & Hb & Hc) & Hother & Hsame & Hok).
  exists st, y. split; [done|]. split; [done|]. split; [done|]. split.
  { intros k [Hne|Hv]; [by apply Hother|]. destruct (decide (k = check_key prop)) as [->|]; [|by apply Hother].
    destruct Hsame as [|[Hv' _]]; [done|congruence]. }
  intros Hst.
  destruct (Hok Hst) as (Ht & Hv & Hnew). split.
  - rewrite get_property_ok, Hnew by done. destruct prop as [g n [r p a mn mx] nm]. done.
  - intros v var Hk Hacc. unfold set_permission, constraints_of in *. rewrite Hk in Hnew. simpl in Hnew.
    rewrite Hnew, Hacc. by rewrite andb_false_r.
Qed.

End Store.

(** ** Samples *)

Definition sample_info_ops : list store_op :=
  [OpSet (sample_var 65 7 [1; 2; 3]); OpSet (sample_var 66 6 [4; 5]); OpSet (sample_var 67 7 [6])].

Lemma sample_info_ok : store_inv (VP := mock_view) (VW := mock_view) (sample_after sample_info_ops).
Proof.
  apply sample_after_inv. unfold sample_info_ops. repeat (apply Forall_cons; split); [..|apply Forall_nil];
    unfold store_op_ok, request_ok, lookup_ok, guid_ok, fits; vm_compute; intuition discriminate.
Qed.

Lemma variable_info_accounts_witness :
  let nv := select_delegate_store 7 in
  let d := delegate_store (sample_after sample_info_ops) nv in
  exists y, uefi_variable_store_query_variable_info sample_interface sample_interface (StorageInfo 0 0 0)
        (sample_after sample_info_ops) (QueryVariableInfo 0 0 0 7)
      = Some (EFI_SUCCESS, QueryVariableInfo (total_capacity d)
                (Z.max 0 (total_capacity d - used (VP := mock_view) (VW := mock_view) (sample_after sample_info_ops) nv
                                               (entries (variable_index_ (sample_after sample_info_ops)))))
                (max_variable_size d) 7, y) /\
    store_inv (VP := mock_view) (VW := mock_view) y /\
    forall k, contents (VP := mock_view) (VW := mock_view) y k
            = contents (VP := mock_view) (VW := mock_view) (sample_after sample_info_ops) k.
Proof.
  pose proof (mock_store_laws (fun _ => true) ltac:(done)) as Hlaws.
  apply (variable_info_accounts (IP := sample_interface) (IW := sample_interface) (VP := mock_view) (VW := mock_view)
    (uninitialised := StorageInfo 0 0 0) (sample_after sample_info_ops) (QueryVariableInfo 0 0 0 7)).
  exact sample_info_ok.
Defined.

(** Four octets of the 16384 are used. *)
Example sample_remaining :
  (fun '(st, q, _) => (st, RemainingVariableStorageSize q)) <$>
    uefi_variable_store_query_variable_info sample_interface sample_interface (StorageInfo 0 0 0)
      (sample_after sample_info_ops) (QueryVariableInfo 0 0 0 7) = Some (EFI_SUCCESS, 16384 - 4).
Proof. vm_compute. reflexivity. Qed.

Definition sample_property : SMM_VARIABLE_COMMUNICATE_VAR_CHECK_VARIABLE_PROPERTY :=
  CheckVariableProperty (Guid 1 2 3 (fill 4 8)) 4 (Property 1 0 7 1 3) [65; 0; 0; 0].

Lemma check_property_kept_witness :
  exists st y, uefi_variable_store_set_var_check_property sample_interface sample_interface
        (sample_after sample_info_ops) sample_property = Some (st, y) /\
    store_inv (VP := mock_view) (VW := mock_view) y /\
    (forall k, contents (VP := mock_view) (VW := mock_view) y k
             = contents (VP := mock_view) (VW := mock_view) (sample_after sample_info_ops) k) /\
    (forall k, k <> check_key sample_property \/ valid_property (VariableProperty sample_property) = false ->
       constraints_of y k = constraints_of (sample_after sample_info_ops) k) /\
    (st = EFI_SUCCESS ->
     uefi_variable_store_get_var_check_property y sample_property = Some (EFI_SUCCESS, sample_property) /\
     forall v var, vars (variable_index_ y) !! check_key sample_property = Some v ->
       accessible (is_boot_service y) (v_attributes v) = true ->
       set_permission (is_boot_service y) v var =
         variable_checker_check_on_set (constraints_for (VariableProperty sample_property)) (av_Attributes var) (DataSize var)).
Proof.
  pose proof (mock_store_laws (fun _ => true) ltac:(done)) as Hlaws.
  apply (check_property_kept (VP := mock_view) (VW := mock_view)); [exact sample_info_ok|].
  unfold check_ok, guid_ok, property_fits, fits. vm_compute. intuition discriminate.
Defined.

(** It succeeds, and four octets are then too many. *)
Example sample_property_set :
  ('(st, x) ← uefi_variable_store_set_var_check_property sample_interface sample_interface (sample_after sample_info_ops) sample_property;
   '(rs, _) ← sample_run sample_interface x [OpSet (sample_var 65 7 [1; 2; 3; 4]); OpSet (sample_var 65 7 [9])];
   Some (st, map reply_view rs)) = Some (EFI_SUCCESS, [(EFI_INVALID_PARAMETER, []); (EFI_SUCCESS, [])]).
Proof. vm_compute. reflexivity. Qed.
