(* ===== verification/UefiProvider.v ===== *)
(** * components/service/uefi/smm_variable/provider: the UEFI variable service

    smm_variable_provider.c serves the operations of a UEFI variable store to the clients
    of an endpoint, with the messages of protocols/service/smm_variable/parameters.h.  The
    handlers copy the request to the response buffer and let the store work there; the
    endpoint gives the same memory for both.  The state is that of the store. *)
From S2P Require Import Prelude Status RpcService RpcEndpoint StorageBackend VariableIndex VariableStorage UefiStore UefiStoreSpec UefiStoreSet UefiStoreRun UefiStoreNames UefiStoreInfo.

(** ** protocols/service/smm_variable *)

Definition EFI_BAD_BUFFER_SIZE : Z := EFI_ERROR 4.

Definition SMM_VARIABLE_FUNCTION_GET_VARIABLE : Z := 1.
Definition SMM_VARIABLE_FUNCTION_GET_NEXT_VARIABLE_NAME : Z := 2.
Definition SMM_VARIABLE_FUNCTION_SET_VARIABLE : Z := 3.
Definition SMM_VARIABLE_FUNCTION_QUERY_VARIABLE_INFO : Z := 4.
Definition SMM_VARIABLE_FUNCTION_EXIT_BOOT_SERVICE : Z := 6.
Definition SMM_VARIABLE_FUNCTION_VAR_CHECK_VARIABLE_PROPERTY_SET : Z := 9.
Definition SMM_VARIABLE_FUNCTION_VAR_CHECK_VARIABLE_PROPERTY_GET : Z := 10.
Definition SMM_VARIABLE_FUNCTION_GET_PAYLOAD_SIZE : Z := 11.

Definition CHECK_PROPERTY_NAME_OFFSET : Z := 48.
(** 28 octets of members, and padding. *)
Definition QUERY_VARIABLE_INFO_SIZE : Z := 32.
Definition GET_PAYLOAD_SIZE_SIZE : Z := 8.

(** The structures in memory: a buffer seen as a structure, and the buffer behind it. *)
Definition access_at (m : bytes) : option SMM_VARIABLE_COMMUNICATE_ACCESS_VARIABLE :=
  g ← load m 0 16;
  data_size ← get_uint m 16 8;
  name_size ← get_uint m 24 8;
  attrs ← get_uint m 32 4;
  Some (AccessVariable (guid_of_bytes g) data_size name_size attrs (drop 36 m)).
Definition access_bytes (v : SMM_VARIABLE_COMMUNICATE_ACCESS_VARIABLE) : bytes :=
  guid_bytes (Guid_ v) ++ le_split 8 (DataSize v) ++ le_split 8 (NameSize v) ++ le_split 4 (av_Attributes v) ++ Name v.

Definition next_at (m : bytes) : option SMM_VARIABLE_COMMUNICATE_GET_NEXT_VARIABLE_NAME :=
  g ← load m 0 16;
  name_size ← get_uint m 16 8;
  Some (NextVariableName (guid_of_bytes g) name_size (drop 24 m)).
Definition next_bytes (v : SMM_VARIABLE_COMMUNICATE_GET_NEXT_VARIABLE_NAME) : bytes :=
  guid_bytes (next_Guid v) ++ le_split 8 (next_NameSize v) ++ next_Name v.

Definition query_at (m : bytes) : option SMM_VARIABLE_COMMUNICATE_QUERY_VARIABLE_INFO :=
  max_storage ← get_uint m 0 8;
  remaining ← get_uint m 8 8;
  max_size ← get_uint m 16 8;
  attrs ← get_uint m 24 4;
  Some (QueryVariableInfo max_storage remaining max_size attrs).
Definition query_bytes (q : SMM_VARIABLE_COMMUNICATE_QUERY_VARIABLE_INFO) : bytes :=
  le_split 8 (MaximumVariableStorageSize q) ++ le_split 8 (RemainingVariableStorageSize q) ++
  le_split 8 (MaximumVariableSize q) ++ le_split 4 (query_Attributes q).

Definition check_at (m : bytes) : option SMM_VARIABLE_COMMUNICATE_VAR_CHECK_VARIABLE_PROPERTY :=
  g ← load m 0 16;
  name_size ← get_uint m 16 8;
  rev ← get_uint m 24 2;
  prop ← get_uint m 26 2;
  attrs ← get_uint m 28 4;
  min ← get_uint m 32 8;
  max ← get_uint m 40 8;
  Some (CheckVariableProperty (guid_of_bytes g) name_size (Property rev prop attrs min max) (drop 48 m)).
Definition check_bytes (c : SMM_VARIABLE_COMMUNICATE_VAR_CHECK_VARIABLE_PROPERTY) : bytes :=
  let p := VariableProperty c in
  guid_bytes (check_Guid c) ++ le_split 8 (check_NameSize c) ++ le_split 2 (Revision p) ++ le_split 2 (Property_ p) ++
  le_split 4 (Attributes p) ++ le_split 8 (MinSize p) ++ le_split 8 (MaxSize p) ++ check_Name c.

(** ** smm_variable_provider.c *)

(** Returns the status and *param_len. *)
Definition sanitize_access_variable_param (req : rpc_request) : option (Z * Z) :=
  if request_data_length req >=? ACCESS_VARIABLE_NAME_OFFSET then
    m ← region req;
    param ← access_at m;
    let max_space_for_name := request_data_length req - ACCESS_VARIABLE_NAME_OFFSET in
    if NameSize param <=? max_space_for_name then Some (EFI_SUCCESS, ACCESS_VARIABLE_NAME_OFFSET + NameSize param)
    else Some (EFI_INVALID_PARAMETER, 0)
  else Some (EFI_INVALID_PARAMETER, 0).

Definition sanitize_var_check_property_param (req : rpc_request) : option (Z * Z) :=
  if request_data_length req >=? CHECK_PROPERTY_NAME_OFFSET then
    m ← region req;
    param ← check_at m;
    let max_space_for_name := request_data_length req - CHECK_PROPERTY_NAME_OFFSET in
    if check_NameSize param <=? max_space_for_name then Some (EFI_SUCCESS, CHECK_PROPERTY_NAME_OFFSET + check_NameSize param)
    else Some (EFI_INVALID_PARAMETER, 0)
  else Some (EFI_INVALID_PARAMETER, 0).

(** A memcpy of [n] octets of the request to the response. *)
Definition copy_request (req : rpc_request) (n : Z) : option bytes :=
  m ← region req; b ← load m 0 n; store m 0 b.

(** req->service_status is an int64_t. *)
Definition with_efi_status (req : rpc_request) (efi_status : Z) : rpc_request := put_status req (s64 efi_status).
Definition with_efi_response (req : rpc_request) (efi_status data_length : Z) (m : bytes) : rpc_request :=
  set_response req (s64 efi_status) data_length (Some m).

Section Provider.
Context {P W : Type} (IP : storage_backend_interface P) (IW : storage_backend_interface W).
Context (malloc_ok : Z -> bool) (junk : Z -> bytes) (uninitialised : psa_storage_info_t).
Abbreviation store_ctx := (uefi_variable_store P W).

Definition get_variable_handler : service store_ctx := fun x req =>
  '(efi_status, param_len) ← sanitize_access_variable_param req;
  if efi_status =? EFI_SUCCESS then
    if response_size req >=? param_len then
      let max_data_len := response_size req - param_len in
      m ← copy_request req param_len;
      var ← access_at m;
      '(efi_status, var, data_length, x) ←
        uefi_variable_store_get_variable IP IW uninitialised x var max_data_len (response_data_length req);
      Some (RPC_SUCCESS, with_efi_response req efi_status data_length (access_bytes var), x)
    else Some (RPC_SUCCESS, with_efi_status req EFI_BAD_BUFFER_SIZE, x)
  else Some (RPC_SUCCESS, with_efi_status req efi_status, x).

(** The pointers are NULL, with a length of 0, when the caller has shared no memory. *)
Definition get_next_variable_name_handler : service store_ctx := fun x req =>
  match region req with
  | None =>
      assert! request_data_length req =? 0 ;;
      '(efi_status, _, variable_size) ← uefi_variable_store_get_next_variable_name x None 0;
      Some (RPC_SUCCESS, set_response req (s64 efi_status) variable_size None, x)
  | Some _ =>
      m ← copy_request req (request_data_length req);
      cur ← next_at m;
      '(efi_status, cur, variable_size) ← uefi_variable_store_get_next_variable_name x (Some cur) 0;
      cur ← cur;
      Some (RPC_SUCCESS, with_efi_response req efi_status variable_size (next_bytes cur), x)
  end.

Definition set_variable_handler : service store_ctx := fun x req =>
  '(efi_status, _) ← sanitize_access_variable_param req;
  if efi_status =? EFI_SUCCESS then
    m ← region req;
    access_var ← access_at m;
    let space_for_data := request_data_length req - (ACCESS_VARIABLE_NAME_OFFSET + NameSize access_var) in
    if DataSize access_var <=? space_for_data then
      '(efi_status, x) ← uefi_variable_store_set_variable IP IW malloc_ok junk uninitialised x access_var;
      Some (RPC_SUCCESS, with_efi_status req efi_status, x)
    else Some (RPC_SUCCESS, with_efi_status req EFI_INVALID_PARAMETER, x)
  else Some (RPC_SUCCESS, with_efi_status req efi_status, x).

Definition query_variable_info_handler : service store_ctx := fun x req =>
  if request_data_length req >=? QUERY_VARIABLE_INFO_SIZE then
    if response_size req >=? request_data_length req then
      m ← copy_request req (request_data_length req);
      q ← query_at m;
      '(efi_status, q, x) ← uefi_variable_store_query_variable_info IP IW uninitialised x q;
      m ← store m 0 (query_bytes q);
      Some (RPC_SUCCESS,
            with_efi_response req efi_status
              (if efi_status =? EFI_SUCCESS then QUERY_VARIABLE_INFO_SIZE else response_data_length req) m, x)
    else Some (RPC_SUCCESS, with_efi_status req EFI_BAD_BUFFER_SIZE, x)
  else Some (RPC_SUCCESS, with_efi_status req EFI_INVALID_PARAMETER, x).

Definition exit_boot_service_handler : service store_ctx := fun x req =>
  let '(efi_status, x) := uefi_variable_store_exit_boot_service x in
  Some (RPC_SUCCESS, with_efi_status req efi_status, x).

Definition set_var_check_property_handler : service store_ctx := fun x req =>
  '(efi_status, _) ← sanitize_var_check_property_param req;
  if efi_status =? EFI_SUCCESS then
    m ← region req;
    check_property ← check_at m;
    '(efi_status, x) ← uefi_variable_store_set_var_check_property IP IW x check_property;
    Some (RPC_SUCCESS, with_efi_status req efi_status, x)
  else Some (RPC_SUCCESS, with_efi_status req efi_status, x).

Definition get_var_check_property_handler : service store_ctx := fun x req =>
  '(efi_status, param_len) ← sanitize_var_check_property_param req;
  if efi_status =? EFI_SUCCESS then
    if response_size req >=? param_len then
      m ← copy_request req param_len;
      check_property ← check_at m;
      '(efi_status, check_property) ← uefi_variable_store_get_var_check_property x check_property;
      Some (RPC_SUCCESS, with_efi_response req efi_status param_len (check_bytes check_property), x)
    else Some (RPC_SUCCESS, with_efi_status req EFI_BAD_BUFFER_SIZE, x)
  else Some (RPC_SUCCESS, with_efi_status req efi_status, x).

Definition get_payload_size_handler : service store_ctx := fun x req =>
  let payload_size := u64 (request_size req - ACCESS_VARIABLE_NAME_OFFSET) in
  if response_size req >=? GET_PAYLOAD_SIZE_SIZE then
    m ← region req;
    m ← store m 0 (le_split 8 payload_size);
    Some (RPC_SUCCESS, with_efi_response req EFI_SUCCESS GET_PAYLOAD_SIZE_SIZE m, x)
  else Some (RPC_SUCCESS, with_efi_status req EFI_BAD_BUFFER_SIZE, x).

Definition handler_table : list (service_handler store_ctx) :=
  [Handler SMM_VARIABLE_FUNCTION_GET_VARIABLE get_variable_handler;
   Handler SMM_VARIABLE_FUNCTION_GET_NEXT_VARIABLE_NAME get_next_variable_name_handler;
   Handler SMM_VARIABLE_FUNCTION_SET_VARIABLE set_variable_handler;
   Handler SMM_VARIABLE_FUNCTION_QUERY_VARIABLE_INFO query_variable_info_handler;
   Handler SMM_VARIABLE_FUNCTION_EXIT_BOOT_SERVICE exit_boot_service_handler;
   Handler SMM_VARIABLE_FUNCTION_VAR_CHECK_VARIABLE_PROPERTY_SET set_var_check_property_handler;
   Handler SMM_VARIABLE_FUNCTION_VAR_CHECK_VARIABLE_PROPERTY_GET get_var_check_property_handler;
   Handler SMM_VARIABLE_FUNCTION_GET_PAYLOAD_SIZE get_payload_size_handler].

(** [has_context]: context is not NULL.  Returns the interface and the store. *)
Definition smm_variable_provider_init (has_context : bool) (x : store_ctx) (owner max : Z) (has_p has_w : bool)
    : option (option (rpc_service_interface store_ctx) * store_ctx) :=
  if has_context then
    sp ← service_provider_init (fill 0 16) handler_table (len handler_table);
    '(status, x) ← uefi_variable_store_init IP IW malloc_ok junk uninitialised x owner max has_p has_w;
    Some (if status =? EFI_SUCCESS then Some (service_provider_get_rpc_interface sp) else None, x)
  else Some (None, x).

Definition smm_variable_provider_deinit (x : store_ctx) : store_ctx := uefi_variable_store_deinit x.

End Provider.

(** ** Specification: what a message asks for, and what it gets *)

(** Why a message is refused before the store is asked: [k] octets of members, then a name of
    [name_size] octets. *)
Definition bad_header (req : rpc_request) (k name_size : Z) (copied : bool) : option Z :=
  if (request_data_length req <? k) || (request_data_length req - k <? name_size) then Some EFI_INVALID_PARAMETER
  else if copied && (response_size req <? k + name_size) then Some EFI_BAD_BUFFER_SIZE
  else None.

Definition refusal (req : rpc_request) : option Z :=
  let m := default [] (region req) in
  let op := opcode req in
  if op =? SMM_VARIABLE_FUNCTION_GET_VARIABLE then bad_header req 36 (uint_at m 24 8) true
  else if op =? SMM_VARIABLE_FUNCTION_SET_VARIABLE then
    match bad_header req 36 (uint_at m 24 8) false with
    | Some st => Some st
    | None => if request_data_length req - 36 - uint_at m 24 8 <? uint_at m 16 8 then Some EFI_INVALID_PARAMETER else None
    end
  else if op =? SMM_VARIABLE_FUNCTION_QUERY_VARIABLE_INFO then
    if request_data_length req <? 32 then Some EFI_INVALID_PARAMETER
    else if response_size req <? request_data_length req then Some EFI_BAD_BUFFER_SIZE else None
  else if op =? SMM_VARIABLE_FUNCTION_VAR_CHECK_VARIABLE_PROPERTY_SET then bad_header req 48 (uint_at m 16 8) false
  else if op =? SMM_VARIABLE_FUNCTION_VAR_CHECK_VARIABLE_PROPERTY_GET then bad_header req 48 (uint_at m 16 8) true
  else if op =? SMM_VARIABLE_FUNCTION_GET_PAYLOAD_SIZE then
    if response_size req <? 8 then Some EFI_BAD_BUFFER_SIZE else None
  else None.

Definition functions : list Z := [1; 2; 3; 4; 6; 9; 10; 11].

Definition same (s s' : map_state) : Prop := (forall k, fst s' k = fst s k) /\ snd s' = snd s.

(** What a well-formed message does, by its function: the status, the length of the response,
    and the buffer afterwards. *)
Definition uefi_effect (limit : Z) (s s' : map_state) (req : rpc_request) (m : bytes) (st n : Z) (m' : bytes) : Prop :=
  let op := opcode req in
  if op =? SMM_VARIABLE_FUNCTION_GET_VARIABLE then
    same s s' /\ exists var var', access_at m = Some var /\ m' = access_bytes var' /\
      (terminated (Name var) (NameSize var) ->
       get_reply var var' (response_size req - (36 + NameSize var)) st n limit (fst s (request_key var)) (snd s)) /\
      (~ terminated (Name var) (NameSize var) -> st = EFI_INVALID_PARAMETER /\ var' = var /\ n = 0)
  else if op =? SMM_VARIABLE_FUNCTION_SET_VARIABLE then
    m' = m /\ n = 0 /\ snd s' = snd s /\ exists var, access_at m = Some var /\ set_spec (fst s) (fst s') var st
  else if op =? SMM_VARIABLE_FUNCTION_QUERY_VARIABLE_INFO then
    same s s' /\ st = EFI_SUCCESS /\ n = 32 /\ exists q q', query_at m = Some q /\ query_Attributes q' = query_Attributes q /\
      store m 0 (query_bytes q') = Some m'
  else if op =? SMM_VARIABLE_FUNCTION_EXIT_BOOT_SERVICE then
    m' = m /\ n = 0 /\ st = EFI_SUCCESS /\ (forall k, fst s' k = fst s k) /\ snd s' = false
  else if op =? SMM_VARIABLE_FUNCTION_VAR_CHECK_VARIABLE_PROPERTY_SET then m' = m /\ n = 0 /\ same s s'
  else if op =? SMM_VARIABLE_FUNCTION_VAR_CHECK_VARIABLE_PROPERTY_GET then
    same s s' /\ exists c c', check_at m = Some c /\ m' = check_bytes c' /\ check_Guid c' = check_Guid c /\
      check_NameSize c' = check_NameSize c /\ check_Name c' = check_Name c /\ n = 48 + check_NameSize c
  else same s s' /\ st = EFI_SUCCESS /\ n = 8 /\ store m 0 (le_split 8 (u64 (request_size req - 36))) = Some m'.

Inductive uefi_step (limit : Z) (s : map_state) (req : rpc_request) : Z -> rpc_request -> map_state -> Prop :=
  | uefi_unknown s' :
      opcode req ∉ functions -> same s s' -> uefi_step limit s req RPC_ERROR_INVALID_VALUE req s'
  | uefi_refused st s' :
      opcode req ∈ functions -> refusal req = Some st -> same s s' ->
      uefi_step limit s req RPC_SUCCESS (with_efi_status req st) s'
  | uefi_answered m st n m' s' :
      opcode req ∈ functions -> refusal req = None -> region req = Some m -> uefi_effect limit s s' req m st n m' ->
      len m' = len m -> uefi_step limit s req RPC_SUCCESS (with_efi_response req st n m') s'
  | uefi_exited s' :
      opcode req = SMM_VARIABLE_FUNCTION_EXIT_BOOT_SERVICE -> region req = None ->
      (forall k, fst s' k = fst s k) -> snd s' = false ->
      uefi_step limit s req RPC_SUCCESS (with_efi_status req EFI_SUCCESS) s'.

Inductive uefi_session (limit : Z) : map_state -> list rpc_request -> list (Z * rpc_request) -> map_state -> Prop :=
  | uefi_session_nil s : uefi_session limit s [] [] s
  | uefi_session_cons s req status req' s1 reqs out s2 :
      uefi_step limit s req status req' s1 -> uefi_session limit s1 reqs out s2 ->
      uefi_session limit s (req :: reqs) ((status, req') :: out) s2.

(** Messages as the endpoint passes them on, other than GetNextVariableName. *)
Definition message_ok (req : rpc_request) : Prop :=
  fresh_request req /\ len (default [] (region req)) < 2 ^ 63 /\
  opcode req <> SMM_VARIABLE_FUNCTION_GET_NEXT_VARIABLE_NAME.

(** ** Lemmas: messages *)

Lemma guid_of_bytes_ok b : len b = 16 -> guid_ok (guid_of_bytes b).
Proof.
  intros Hb. unfold guid_ok, guid_of_bytes, fits. cbn [Data1 Data2 Data3 Data4].
  pose proof (uint_at_bound b 0 4). pose proof (uint_at_bound b 4 2). pose proof (uint_at_bound b 6 2).
  rewrite slice_len by lia. lia.
Qed.

Lemma access_at_ok m :
  36 <= len m -> exists v, access_at m = Some v /\ guid_ok (Guid_ v) /\ DataSize v = uint_at m 16 8 /\
    NameSize v = uint_at m 24 8 /\ fits 32 (av_Attributes v) /\ len (Name v) = len m - 36.
Proof.
  intros Hm. unfold access_at. rewrite load_is_slice by lia. cbn [mbind option_bind]. rewrite !get_uint_ok by lia.
  cbn [mbind option_bind]. eexists. split; [done|]. cbn. split; [apply guid_of_bytes_ok, slice_len; lia|].
  split; [done|]. split; [done|]. split; [by apply (uint_at_bound m 32 4)|]. unfold len in *. rewrite length_drop. lia.
Qed.

Lemma check_at_ok m :
  48 <= len m -> exists c, check_at m = Some c /\ guid_ok (check_Guid c) /\ check_NameSize c = uint_at m 16 8 /\
    property_fits (VariableProperty c) /\ len (check_Name c) = len m - 48.
Proof.
  intros Hm. unfold check_at. rewrite load_is_slice by lia. cbn [mbind option_bind]. rewrite !get_uint_ok by lia.
  cbn [mbind option_bind]. eexists. split; [done|]. cbn. split; [apply guid_of_bytes_ok, slice_len; lia|].
  split; [done|]. split; [|unfold len in *; rewrite length_drop; lia].
  unfold property_fits, fits. cbn. pose proof (uint_at_bound m 24 2). pose proof (uint_at_bound m 26 2).
  pose proof (uint_at_bound m 28 4). pose proof (uint_at_bound m 32 8). pose proof (uint_at_bound m 40 8). lia.
Qed.

Lemma query_at_ok m : 28 <= len m -> exists q, query_at m = Some q.
Proof. intros Hm. unfold query_at. rewrite !get_uint_ok by lia. by eexists. Qed.

Lemma len_access_bytes v : guid_ok (Guid_ v) -> len (access_bytes v) = 36 + len (Name v).
Proof. intros Hg. unfold access_bytes. rewrite !len_app, !len_le_split, len_guid_bytes by done. lia. Qed.
Lemma len_check_bytes c : guid_ok (check_Guid c) -> len (check_bytes c) = 48 + len (check_Name c).
Proof. intros Hg. unfold check_bytes. rewrite !len_app, !len_le_split, len_guid_bytes by done. lia. Qed.

(** Copying octets to where they are changes nothing. *)
Lemma copy_request_ok req m n : region req = Some m -> 0 <= n <= len m -> copy_request req n = Some m.
Proof.
  intros Hm Hn. unfold copy_request. rewrite Hm. cbn [mbind option_bind]. rewrite load_is_slice by lia.
  cbn [mbind option_bind]. unfold store. rewrite slice_len by lia. destruct (Z.leb_spec (0 + n) (len m)); [|lia].
  cbn. f_equal. unfold slice. rewrite drop_0, take_0. by rewrite Z.add_0_l, take_drop.
Qed.

(** ** Lemmas: each handler *)

Section Handlers.
Context {P W : Type} {IP : storage_backend_interface P} {IW : storage_backend_interface W}.
Context {VP : storage_view P} {VW : storage_view W} `{!StorageLaws IP VP} `{!StorageLaws IW VW}.
Context {malloc_ok : Z -> bool} {junk : Z -> bytes} {uninitialised : psa_storage_info_t}.
Context (Hjunk : forall n, 0 <= n -> len (junk n) = n).
Abbreviation store_ctx := (uefi_variable_store P W).
Abbreviation store_inv := (UefiStoreSpec.store_inv (VP := VP) (VW := VW)).
Abbreviation abstract := (UefiStoreRun.abstract (VP := VP) (VW := VW)).
Abbreviation limit := (Z.min (sv_limit VP) (sv_limit VW)).
Implicit Types (x y : store_ctx) (req : rpc_request).

Definition uefi_served x req (result : option (Z * rpc_request * store_ctx)) : Prop :=
  exists status req' y, result = Some (status, req', y) /\ store_inv y /\
    uefi_step limit (abstract x) req status req' (abstract y).

Lemma served_refused x req st :
  store_inv x -> opcode req ∈ functions -> refusal req = Some st ->
  uefi_served x req (Some (RPC_SUCCESS, with_efi_status req st, x)).
Proof. intros Hx Hop Hr. eexists _, _, x. split; [done|]. split; [done|]. by apply uefi_refused. Qed.

Lemma served_answered x y req m st n m' :
  store_inv y -> opcode req ∈ functions -> refusal req = None -> region req = Some m -> len m' = len m ->
  uefi_effect limit (abstract x) (abstract y) req m st n m' ->
  uefi_served x req (Some (RPC_SUCCESS, with_efi_response req st n m', y)).
Proof. intros Hy Hop Hr Hm Hl He. eexists _, _, y. split; [done|]. split; [done|]. by eapply uefi_answered. Qed.

(** A status without a response. *)
Lemma uefi_served_status x y req m st :
  fresh_request req -> store_inv y -> opcode req ∈ functions -> refusal req = None -> region req = Some m ->
  uefi_effect limit (abstract x) (abstract y) req m st 0 m ->
  uefi_served x req (Some (RPC_SUCCESS, with_efi_status req st, y)).
Proof.
  intros [_ Hd] Hy Hop Hr Hm He. unfold with_efi_status, put_status. rewrite Hd, Hm.
  by eapply served_answered.
Qed.

Lemma called_same x y : store_inv x -> UefiStoreSpec.called (VP := VP) (VW := VW) x y ->
  UefiStoreSpec.still (VP := VP) (VW := VW) x y -> store_inv y /\ same (abstract x) (abstract y).
Proof.
  intros Hx Hc Hs. pose proof (called_dropped x y Hx Hc Hs) as Hd. split; [apply Hd|]. split; [apply Hd|]. apply Hd.
Qed.

(** The message of a request that is long enough. *)
Lemma message_memory req k :
  message_ok req -> 0 < k <= request_data_length req ->
  exists m, region req = Some m /\ k <= request_data_length req <= len m /\ response_size req <= len m /\
    request_data_length req <= response_size req /\ len m < 2 ^ 63 /\ response_data_length req = 0.
Proof.
  intros (Hf & Hl & _) Hk. destruct (fresh_region req k Hf Hk) as (m & Hm & Hkm & Hs & Hd & Hr).
  rewrite Hm in Hl. simpl in Hl. exists m. destruct Hf as [(H1 & _ & H2 & _) _]. split; [done|]. lia.
Qed.

Ltac opcode_known H :=
  rewrite H; unfold functions; rewrite !elem_of_cons; tauto.

Lemma access_param_ok req copied :
  message_ok req ->
  match bad_header req 36 (uint_at (default [] (region req)) 24 8) copied with
  | Some st =>
      st = EFI_INVALID_PARAMETER /\ sanitize_access_variable_param req = Some (EFI_INVALID_PARAMETER, 0)
  | None =>
      exists m v, region req = Some m /\ access_at m = Some v /\ guid_ok (Guid_ v) /\ 0 <= NameSize v /\ 0 <= DataSize v /\
        NameSize v = uint_at m 24 8 /\ DataSize v = uint_at m 16 8 /\
        fits 32 (av_Attributes v) /\ len (Name v) = len m - 36 /\ len m < 2 ^ 63 /\ response_data_length req = 0 /\
        36 + NameSize v <= request_data_length req <= response_size req /\ response_size req <= len m /\
        sanitize_access_variable_param req = Some (EFI_SUCCESS, 36 + NameSize v)
  end.
Proof.
  intros Hok. unfold bad_header, sanitize_access_variable_param, ACCESS_VARIABLE_NAME_OFFSET.
  destruct (Z.ltb_spec (request_data_length req) 36), (Z.geb_spec (request_data_length req) 36); try lia; cbn [orb];
    [by split|].
  destruct (message_memory req 36 Hok) as (m & Hm & Hk & Hs & Hsz & Hl & Hd); [lia|].
  destruct (access_at_ok m) as (v & Hv & Hg & Hds & Hns & Ha & Hnl); [lia|].
  pose proof (uint_at_bound m 24 8). pose proof (uint_at_bound m 16 8).
  rewrite Hm. cbn [mbind option_bind]. rewrite Hv. cbn [mbind option_bind]. change (default [] (Some m)) with m. rewrite <- Hns.
  destruct (Z.ltb_spec (request_data_length req - 36) (NameSize v)), (Z.leb_spec (NameSize v) (request_data_length req - 36));
    try lia; [by split|].
  destruct (Z.ltb_spec (response_size req) (36 + NameSize v)); [lia|]. rewrite andb_false_r.
  exists m, v. do 3 (split; [done|]). do 2 (split; [lia|]). do 4 (split; [done|]). do 2 (split; [done|]). split; [lia|]. by split.
Qed.

Lemma variable_get_handled x req :
  store_inv x -> message_ok req -> opcode req = SMM_VARIABLE_FUNCTION_GET_VARIABLE ->
  uefi_served x req (get_variable_handler IP IW uninitialised x req).
Proof using All.
  intros Hx Hok Hop. assert (opcode req ∈ functions) as Hin by opcode_known Hop.
  assert (refusal req = bad_header req 36 (uint_at (default [] (region req)) 24 8) true) as Href by (unfold refusal; by rewrite Hop).
  unfold get_variable_handler. pose proof (access_param_ok req true Hok) as Hp.
  destruct (bad_header _ _ _ _) as [st|].
  { destruct Hp as [-> ->]. cbn [mbind option_bind]. by apply served_refused. }
  destruct Hp as (m & v & Hm & Hv & Hg & Hn & Hds & _ & _ & Ha & Hnl & Hl & Hd & Hk & Hs & ->). cbn [mbind option_bind].
  simpl Z.eqb. cbv match. destruct (Z.geb_spec (response_size req) (36 + NameSize v)); [|lia].
  rewrite (copy_request_ok req m) by (done || lia). cbn [mbind option_bind]. rewrite Hv, Hd. cbn [mbind option_bind].
  destruct (terminator_ok (Name v) (NameSize v)) as (st & Ht & [->| ->]); [lia| |].
  - assert (lookup_ok v (response_size req - (36 + NameSize v))) as Hlk by (split; [done|]; lia).
    destruct (variable_lookup_ok (uninitialised := uninitialised) x v _ Hx Hlk Ht)
      as (st & v' & n & y & -> & Hy & Hc & Hb & Hr).
    cbn [mbind option_bind]. eapply served_answered; [done|done|done|done| |].
    + pose proof Hr as (Hl' & Hg' & _). rewrite len_access_bytes by by rewrite Hg'. lia.
    + unfold uefi_effect. rewrite Hop. simpl Z.eqb. cbv match. split; [done|]. exists v, v'. split; [done|]. split; [done|].
      split; [done|by intros []].
  - unfold uefi_variable_store_get_variable. rewrite Ht. cbn [mbind option_bind]. simpl Z.eqb. cbn [negb]. cbv match.
    eapply served_answered; [done|done|done|done| |].
    + rewrite len_access_bytes by done. lia.
    + unfold uefi_effect. rewrite Hop. simpl Z.eqb. cbv match. split; [done|]. exists v, v. split; [done|]. split; [done|].
      split; [|done]. intros Ht'. unfold terminated in Ht'. rewrite Ht in Ht'. vm_compute in Ht'. discriminate Ht'.
Qed.

Lemma variable_set_handled x req :
  store_inv x -> message_ok req -> opcode req = SMM_VARIABLE_FUNCTION_SET_VARIABLE ->
  uefi_served x req (set_variable_handler IP IW malloc_ok junk uninitialised x req).
Proof using All.
  intros Hx Hok Hop. assert (opcode req ∈ functions) as Hin by opcode_known Hop.
  assert (refusal req = match bad_header req 36 (uint_at (default [] (region req)) 24 8) false with
    | Some st => Some st
    | None => if request_data_length req - 36 - uint_at (default [] (region req)) 24 8 <? uint_at (default [] (region req)) 16 8
              then Some EFI_INVALID_PARAMETER else None
    end) as Href by (unfold refusal; by rewrite Hop).
  unfold set_variable_handler. pose proof (access_param_ok req false Hok) as Hp.
  destruct (bad_header _ _ _ _) as [st|].
  { destruct Hp as [-> ->]. cbn [mbind option_bind]. by apply served_refused. }
  destruct Hp as (m & v & Hm & Hv & Hg & Hn & Hds & Hns' & Hds' & Ha & Hnl & Hl & Hd & Hk & Hs & ->). cbn [mbind option_bind].
  simpl Z.eqb. cbv match. rewrite Hm in Href |- *. change (default [] (Some m)) with m in Href. rewrite <- Hns', <- Hds' in Href.
  cbn [mbind option_bind]. rewrite Hv. cbn [mbind option_bind]. unfold ACCESS_VARIABLE_NAME_OFFSET.
  destruct (Z.leb_spec (DataSize v) (request_data_length req - (36 + NameSize v))),
    (Z.ltb_spec (request_data_length req - 36 - NameSize v) (DataSize v)); try lia.
  - assert (UefiStoreSet.request_ok v) as Hreq
      by (do 3 (split; [done|]); split; [lia|]; split; [lia|done]).
    destruct (set_variable_ok (malloc_ok := malloc_ok) (uninitialised := uninitialised) Hjunk x v Hx Hreq)
      as (st & y & -> & Hy & _ & Hb & Hspec & _). cbn [mbind option_bind].
    eapply uefi_served_status; [apply Hok|done|done|done|done|].
    unfold uefi_effect. rewrite Hop. simpl Z.eqb. cbv match. split; [done|]. split; [done|]. split; [done|]. by exists v.
  - by apply served_refused.
Qed.

Lemma query_handled x req :
  store_inv x -> message_ok req -> opcode req = SMM_VARIABLE_FUNCTION_QUERY_VARIABLE_INFO ->
  uefi_served x req (query_variable_info_handler IP IW uninitialised x req).
Proof using All.
  intros Hx Hok Hop. assert (opcode req ∈ functions) as Hin by opcode_known Hop.
  assert (refusal req = if request_data_length req <? 32 then Some EFI_INVALID_PARAMETER
    else if response_size req <? request_data_length req then Some EFI_BAD_BUFFER_SIZE else None) as Href
    by (unfold refusal; by rewrite Hop).
  unfold query_variable_info_handler, QUERY_VARIABLE_INFO_SIZE.
  destruct (Z.geb_spec (request_data_length req) 32), (Z.ltb_spec (request_data_length req) 32); try lia;
    [|by apply served_refused].
  destruct (message_memory req 32 Hok) as (m & Hm & Hk & Hs & Hsz & Hl & Hd); [lia|].
  destruct (Z.geb_spec (response_size req) (request_data_length req)), (Z.ltb_spec (response_size req) (request_data_length req));
    try lia. rewrite (copy_request_ok req m) by (done || lia). cbn [mbind option_bind].
  destruct (query_at_ok m) as [q Hq]; [lia|]. rewrite Hq. cbn [mbind option_bind].
  destruct (query_info_ok (uninitialised := uninitialised) x q Hx) as (y & Hcall & Hc & Hst). rewrite Hcall. cbn [mbind option_bind]. simpl Z.eqb. cbv match.
  destruct (called_same x y Hx Hc Hst) as [Hy Hsame].
  set (q' := QueryVariableInfo _ _ _ _). assert (len (query_bytes q') = 28) as Hql
    by (unfold query_bytes; by rewrite !len_app, !len_le_split).
  destruct (store_ok m 0 (query_bytes q')) as [m' Hm']; [lia..|]. rewrite Hm'. cbn [mbind option_bind].
  eapply served_answered; [done|done|done|done|by eapply store_len|].
  unfold uefi_effect. rewrite Hop. simpl Z.eqb. cbv match. split; [done|]. split; [done|]. split; [done|]. by exists q, q'.
Qed.

Lemma exit_handled x req :
  store_inv x -> message_ok req -> opcode req = SMM_VARIABLE_FUNCTION_EXIT_BOOT_SERVICE ->
  uefi_served x req (exit_boot_service_handler x req).
Proof using.
  intros Hx Hok Hop. assert (opcode req ∈ functions) as Hin by opcode_known Hop.
  assert (refusal req = None) as Href by (unfold refusal; by rewrite Hop).
  unfold exit_boot_service_handler. destruct (uefi_variable_store_exit_boot_service x) as [st y] eqn:He.
  injection He as <- Hy'. assert (store_inv y) as Hy.
  { rewrite <- Hy'. destruct Hx as [[c1 c2 c3 c4 c5 c6] Hi Hb Hown]. split; try done. }
  assert ((forall k, fst (abstract y) k = fst (abstract x) k) /\ snd (abstract y) = false) as [Hc Hb] by by rewrite <- Hy'.
  destruct (region req) as [m|] eqn:Hm.
  - eapply uefi_served_status; [apply Hok|done|done|done|done|]. unfold uefi_effect. by rewrite Hop.
  - eexists _, _, y. split; [done|]. split; [done|]. by apply uefi_exited.
Qed.

Lemma check_param_ok req copied :
  message_ok req ->
  match bad_header req 48 (uint_at (default [] (region req)) 16 8) copied with
  | Some st =>
      st = EFI_INVALID_PARAMETER /\ sanitize_var_check_property_param req = Some (EFI_INVALID_PARAMETER, 0)
  | None =>
      exists m c, region req = Some m /\ check_at m = Some c /\ check_ok c /\ len (check_Name c) = len m - 48 /\
        response_data_length req = 0 /\ 48 + check_NameSize c <= request_data_length req <= response_size req /\
        response_size req <= len m /\ sanitize_var_check_property_param req = Some (EFI_SUCCESS, 48 + check_NameSize c)
  end.
Proof.
  intros Hok. unfold bad_header, sanitize_var_check_property_param, CHECK_PROPERTY_NAME_OFFSET.
  destruct (Z.ltb_spec (request_data_length req) 48), (Z.geb_spec (request_data_length req) 48); try lia; cbn [orb];
    [by split|].
  destruct (message_memory req 48 Hok) as (m & Hm & Hk & Hs & Hsz & Hl & Hd); [lia|].
  destruct (check_at_ok m) as (c & Hc & Hg & Hns & Hfit & Hnl); [lia|]. pose proof (uint_at_bound m 16 8).
  rewrite Hm. cbn [mbind option_bind]. rewrite Hc. cbn [mbind option_bind]. change (default [] (Some m)) with m. rewrite <- Hns.
  destruct (Z.ltb_spec (request_data_length req - 48) (check_NameSize c)), (Z.leb_spec (check_NameSize c) (request_data_length req - 48));
    try lia; [by split|].
  destruct (Z.ltb_spec (response_size req) (48 + check_NameSize c)); [lia|]. rewrite andb_false_r.
  exists m, c. split; [done|]. split; [done|]. split; [split; [done|split; [lia|done]]|]. split; [lia|]. split; [done|]. split; [lia|]. by split.
Qed.

Lemma set_check_handled x req :
  store_inv x -> message_ok req -> opcode req = SMM_VARIABLE_FUNCTION_VAR_CHECK_VARIABLE_PROPERTY_SET ->
  uefi_served x req (set_var_check_property_handler IP IW x req).
Proof using All.
  intros Hx Hok Hop. assert (opcode req ∈ functions) as Hin by opcode_known Hop.
  assert (refusal req = bad_header req 48 (uint_at (default [] (region req)) 16 8) false) as Href by (unfold refusal; by rewrite Hop).
  unfold set_var_check_property_handler. pose proof (check_param_ok req false Hok) as Hp.
  destruct (bad_header _ _ _ _) as [st|].
  { destruct Hp as [-> ->]. cbn [mbind option_bind]. by apply served_refused. }
  destruct Hp as (m & c & Hm & Hc & Hcok & Hnl & Hd & Hk & Hs & ->). cbn [mbind option_bind]. simpl Z.eqb. cbv match.
  rewrite Hm. cbn [mbind option_bind]. rewrite Hc. cbn [mbind option_bind].
  destruct (set_property_ok x c Hx Hcok) as (st & y & -> & (Hy & Hb & Hct) & _). cbn [mbind option_bind].
  eapply uefi_served_status; [apply Hok|done|done|done|done|]. unfold uefi_effect. by rewrite Hop.
Qed.

Lemma get_check_handled x req :
  store_inv x -> message_ok req -> opcode req = SMM_VARIABLE_FUNCTION_VAR_CHECK_VARIABLE_PROPERTY_GET ->
  uefi_served x req (get_var_check_property_handler x req).
Proof using All.
  intros Hx Hok Hop. assert (opcode req ∈ functions) as Hin by opcode_known Hop.
  assert (refusal req = bad_header req 48 (uint_at (default [] (region req)) 16 8) true) as Href by (unfold refusal; by rewrite Hop).
  unfold get_var_check_property_handler. pose proof (check_param_ok req true Hok) as Hp.
  destruct (bad_header _ _ _ _) as [st|].
  { destruct Hp as [-> ->]. cbn [mbind option_bind]. by apply served_refused. }
  destruct Hp as (m & c & Hm & Hc & Hcok & Hnl & Hd & Hk & Hs & ->). cbn [mbind option_bind]. simpl Z.eqb. cbv match.
  destruct (Z.geb_spec (response_size req) (48 + check_NameSize c)); [|lia]. pose proof Hcok as (Hg & Hn & Hfit).
  rewrite (copy_request_ok req m) by (done || lia). cbn [mbind option_bind]. rewrite Hc. cbn [mbind option_bind].
  assert (exists st c', uefi_variable_store_get_var_check_property x c = Some (st, c') /\ check_Guid c' = check_Guid c /\
    check_NameSize c' = check_NameSize c /\ check_Name c' = check_Name c) as (st & c' & -> & Hg' & Hn' & Hnm').
  { destruct (terminator_ok (check_Name c) (check_NameSize c)) as (st & Ht & [->| ->]); [lia| |].
    - rewrite get_property_ok by done. destruct (constraints_of x (check_key c)); by eexists _, _.
    - unfold uefi_variable_store_get_var_check_property. rewrite Ht. by eexists _, _. }
  cbn [mbind option_bind]. eapply served_answered; [done|done|done|done| |].
  - rewrite len_check_bytes by by rewrite Hg'. rewrite Hnm'. lia.
  - unfold uefi_effect. rewrite Hop. simpl Z.eqb. cbv match. split; [done|]. by exists c, c'.
Qed.

Lemma payload_handled x req :
  store_inv x -> message_ok req -> opcode req = SMM_VARIABLE_FUNCTION_GET_PAYLOAD_SIZE ->
  uefi_served x req (get_payload_size_handler x req).
Proof using.
  intros Hx Hok Hop. assert (opcode req ∈ functions) as Hin by opcode_known Hop.
  assert (refusal req = if response_size req <? 8 then Some EFI_BAD_BUFFER_SIZE else None) as Href by (unfold refusal; by rewrite Hop).
  unfold get_payload_size_handler, GET_PAYLOAD_SIZE_SIZE.
  destruct (Z.geb_spec (response_size req) 8), (Z.ltb_spec (response_size req) 8); try lia; [|by apply served_refused].
  pose proof Hok as ([(H1 & H2 & H3 & Hreg) Hd] & _). destruct (region req) as [m|] eqn:Hm; [|lia].
  cbn [mbind option_bind]. set (n := u64 _).
  destruct (store_ok m 0 (le_split 8 n)) as [m' Hm']; [lia|rewrite len_le_split; lia|]. rewrite Hm'. cbn [mbind option_bind].
  eapply served_answered; [done|done|done|done|by eapply store_len|].
  unfold uefi_effect. rewrite Hop. simpl Z.eqb. cbv match. split; [done|]. split; [done|]. by split.
Qed.

(** ** The service *)

Lemma handlers_of sp (x : store_ctx) req :
  service_provider_init (fill 0 16) (handler_table IP IW malloc_ok junk uninitialised)
    (len (handler_table IP IW malloc_ok junk uninitialised)) = Some sp ->
  receive sp x req =
    match first_handler (handler_table IP IW malloc_ok junk uninitialised) (opcode req) with
    | Some h => h_invoke h x req
    | None => Some (RPC_ERROR_INVALID_VALUE, req, x)
    end.
Proof.
  intros Hinit. destruct (service_provider_init_ok (fill 0 16) (handler_table IP IW malloc_ok junk uninitialised))
    as (sp' & Hi & Htab & Hh & Hs). rewrite Hinit in Hi. injection Hi as <-. by rewrite receive_spec, Hh, Hs.
Qed.

Lemma message_served sp x req :
  service_provider_init (fill 0 16) (handler_table IP IW malloc_ok junk uninitialised)
    (len (handler_table IP IW malloc_ok junk uninitialised)) = Some sp ->
  store_inv x -> message_ok req -> uefi_served x req (receive sp x req).
Proof using All.
  intros Hinit Hx Hok. rewrite (handlers_of sp x req Hinit). unfold first_handler, handler_table. cbn [find_index h_opcode].
  rewrite !(Z.eqb_sym _ (opcode req)).
  destruct (Z.eqb_spec (opcode req) SMM_VARIABLE_FUNCTION_GET_VARIABLE) as [E|N0]; [by apply variable_get_handled|].
  destruct (Z.eqb_spec (opcode req) SMM_VARIABLE_FUNCTION_GET_NEXT_VARIABLE_NAME) as [E|N1]; [by destruct Hok as (_ & _ & ?)|].
  destruct (Z.eqb_spec (opcode req) SMM_VARIABLE_FUNCTION_SET_VARIABLE) as [E|N2]; [by apply variable_set_handled|].
  destruct (Z.eqb_spec (opcode req) SMM_VARIABLE_FUNCTION_QUERY_VARIABLE_INFO) as [E|N3]; [by apply query_handled|].
  destruct (Z.eqb_spec (opcode req) SMM_VARIABLE_FUNCTION_EXIT_BOOT_SERVICE) as [E|N4]; [by apply exit_handled|].
  destruct (Z.eqb_spec (opcode req) SMM_VARIABLE_FUNCTION_VAR_CHECK_VARIABLE_PROPERTY_SET) as [E|N5]; [by apply set_check_handled|].
  destruct (Z.eqb_spec (opcode req) SMM_VARIABLE_FUNCTION_VAR_CHECK_VARIABLE_PROPERTY_GET) as [E|N6]; [by apply get_check_handled|].
  destruct (Z.eqb_spec (opcode req) SMM_VARIABLE_FUNCTION_GET_PAYLOAD_SIZE) as [E|N7]; [by apply payload_handled|].
  eexists _, _, x. split; [done|]. split; [done|]. apply uefi_unknown; [|done].
  unfold functions. rewrite !elem_of_cons, elem_of_nil. intuition.
Qed.

Lemma provider_started x owner max svc y :
  smm_variable_provider_init IP IW malloc_ok junk uninitialised true x owner max true true = Some (Some svc, y) ->
  exists sp, service_provider_init (fill 0 16) (handler_table IP IW malloc_ok junk uninitialised)
      (len (handler_table IP IW malloc_ok junk uninitialised)) = Some sp /\ svc = service_provider_get_rpc_interface sp /\
    uefi_variable_store_init IP IW malloc_ok junk uninitialised x owner max true true = Some (EFI_SUCCESS, y).
Proof.
  unfold smm_variable_provider_init. intros (sp & Hsp & H)%bind_Some. exists sp. split; [done|].
  apply bind_Some in H as ([st z] & Hz & H). rewrite Hz. destruct (Z.eqb_spec st EFI_SUCCESS) as [->|]; [|done].
  by injection H as <- <-.
Qed.

(** ** Properties *)

(** C3: The UEFI variable service is a map from names to attributes and data.  Started over
    any two lawful storage backends it has not used before, it answers any messages of any
    clients, in any order, without a fault and within their buffers (GetNextVariableName
    apart): a malformed message is refused and changes nothing, and any other one reads,
    creates, overwrites, extends or deletes the variable it names as the map would, ends
    boot services, or leaves all variables as they are. *)
Theorem uefi_service_refines x owner max reqs :
  RPC_CALLER_SESSION_SHARED_MEMORY_SIZE <= sv_limit VP ->
  1 <= max < 2 ^ 31 -> malloc_ok (256 * max) = true -> malloc_ok (4 + 241 * max) = true ->
  blank (VP := VP) (VW := VW) x owner max -> Forall message_ok reqs ->
  exists svc y out z s,
    smm_variable_provider_init IP IW malloc_ok junk uninitialised true x owner max true true = Some (Some svc, y) /\
    service_run (svc_receive svc) y reqs = Some (out, z) /\ (forall k, fst s k = None) /\ snd s = true /\
    uefi_session limit s reqs out (abstract z).
Proof using All.
  intros Hlim Hmax Hm1 Hm2 Hblank Hreqs.
  destruct (start_blank (malloc_ok := malloc_ok) (uninitialised := uninitialised) Hjunk Hlim x owner max Hmax Hm1 Hm2 Hblank)
    as (y & Hinit & Hy & _ & Hb & _ & _ & Hc).
  destruct (service_provider_init_ok (fill 0 16) (handler_table IP IW malloc_ok junk uninitialised)) as (sp & Hsp & _).
  exists (service_provider_get_rpc_interface sp), y.
  assert (exists out z, service_run (receive sp) y reqs = Some (out, z) /\ uefi_session limit (abstract y) reqs out (abstract z))
    as (out & z & Hrun & Hses).
  { clear Hinit Hb Hc. revert y Hy. induction Hreqs as [|req reqs Hreq _ IH]; intros y Hy; [eexists _, y; split; [done|constructor]|].
    destruct (message_served sp y req Hsp Hy Hreq) as (status & req' & y1 & Hr & Hy1 & Hstep).
    destruct (IH y1 Hy1) as (out & z & Hrun & Hses). eexists _, z. cbn [service_run]. rewrite Hr. cbn [mbind option_bind].
    rewrite Hrun. split; [done|]. by econstructor. }
  exists out, z, (abstract y). split; [|done]. unfold smm_variable_provider_init. rewrite Hsp. cbn [mbind option_bind].
  rewrite Hinit. done.
Qed.

(** One message can crash the service.  A GetNextVariableName message is not checked:
    while there is no variable, one that asks for the first name and claims a buffer
    larger than the memory it is in makes the service write past the end of the memory. *)
Theorem next_name_message_faults x owner max svc y req m :
  smm_variable_provider_init IP IW malloc_ok junk uninitialised true x owner max true true = Some (Some svc, y) ->
  store_inv y -> (forall k v, vars (variable_index_ y) !! k = Some v -> v_set v = false) ->
  opcode req = SMM_VARIABLE_FUNCTION_GET_NEXT_VARIABLE_NAME -> region req = Some m ->
  0 <= request_data_length req <= len m -> 26 <= len m -> uint_at m 24 2 = 0 ->
  len m - 24 < uint_at m 16 8 < 2 ^ 31 ->
  svc_receive svc y req = None.
Proof.
  intros (sp & Hsp & -> & _)%provider_started Hy Hunset Hop Hm Hd Hl Hz Hn. cbn [svc_receive service_provider_get_rpc_interface].
  rewrite (handlers_of sp y req Hsp), Hop. change (first_handler _ SMM_VARIABLE_FUNCTION_GET_NEXT_VARIABLE_NAME)
    with (Some (Handler SMM_VARIABLE_FUNCTION_GET_NEXT_VARIABLE_NAME (get_next_variable_name_handler (P := P) (W := W)))).
  cbn [h_invoke]. unfold get_next_variable_name_handler. rewrite Hm, (copy_request_ok req m) by done.
  cbn [mbind option_bind]. unfold next_at. rewrite load_is_slice by lia. cbn [mbind option_bind]. rewrite get_uint_ok by lia.
  cbn [mbind option_bind]. set (cur := NextVariableName _ _ _).
  assert (len (next_Name cur) = len m - 24) as Hln by (unfold cur, len in *; simpl; rewrite length_drop; lia).
  rewrite (next_name_overrun y cur 0); [done|apply Hy|done|unfold cur in *; simpl in *; lia|unfold cur; simpl; lia|].
  exact Hz.
Qed.

End Handlers.

(** ** Samples *)

Definition uefi_message (op : Z) (b : bytes) : rpc_request :=
  Request 5 0 op 0 0 (len b) 128 0 128 (Some (b ++ fill 0 (128 - len b))).

(** A variable is set and read, a message is cut short, boot services end, and it is gone. *)
Definition sample_messages : list rpc_request :=
  [uefi_message 3 (access_bytes (sample_var 65 2 [1; 2; 3])); uefi_message 1 (access_bytes (sample_var 65 0 [0; 0; 0]));
   uefi_message 1 (take 37 (access_bytes (sample_var 65 0 []))); uefi_message 6 [];
   uefi_message 4 (fill 0 32); uefi_message 11 []; uefi_message 5 [];
   uefi_message 9 (check_bytes sample_property); uefi_message 10 (check_bytes sample_property);
   uefi_message 1 (access_bytes (sample_var 65 0 [0; 0; 0]))].

Lemma uefi_messages_ok : Forall message_ok sample_messages.
Proof.
  unfold sample_messages. repeat (apply Forall_cons; split); [..|apply Forall_nil]; try done;
    (split; [split; [|done]|split; [|discriminate]]; vm_compute; intuition discriminate).
Qed.

Lemma uefi_service_refines_witness :
  exists svc y out z s,
    smm_variable_provider_init sample_interface sample_interface (fun _ => true) (fill 170) (StorageInfo 0 0 0) true
      (sample_context sample_mock) 7 4 true true = Some (Some svc, y) /\
    service_run (svc_receive svc) y sample_messages = Some (out, z) /\ (forall k, fst s k = None) /\ snd s = true /\
    uefi_session (Z.min (sv_limit mock_view) (sv_limit mock_view)) s sample_messages out
      (abstract (VP := mock_view) (VW := mock_view) z).
Proof.
  pose proof (mock_store_laws (fun _ => true) ltac:(done)) as Hlaws.
  apply (uefi_service_refines (VP := mock_view) (VW := mock_view) sample_junk (sample_context sample_mock) 7 4 sample_messages).
  - vm_compute. discriminate.
  - lia.
  - reflexivity.
  - reflexivity.
  - apply sample_blank.
  - exact uefi_messages_ok.
Defined.

Definition sample_service : option (option (rpc_service_interface (uefi_variable_store MockStore.mock_store MockStore.mock_store))
    * uefi_variable_store MockStore.mock_store MockStore.mock_store) :=
  smm_variable_provider_init sample_interface sample_interface (fun _ => true) (fill 170) (StorageInfo 0 0 0) true
      (sample_context sample_mock) 7 4 true true.

Example sample_answers :
  ('(svc, y) ← sample_service; svc ← svc; '(out, _) ← service_run (svc_receive svc) y sample_messages;
   Some (map (fun '(st, r) => (st, service_status r, response_data_length r)) out))
  = Some [(0, 0, 0); (0, 0, 43); (0, s64 EFI_INVALID_PARAMETER, 0); (0, 0, 0); (0, 0, 32); (0, 0, 8);
          (RPC_ERROR_INVALID_VALUE, 0, 0); (0, 0, 0); (0, 0, 52); (0, s64 EFI_NOT_FOUND, 0)].
Proof. vm_compute. reflexivity. Qed.

Definition overrun_message : rpc_request :=
  uefi_message 2 (next_bytes (NextVariableName (Guid 0 0 0 (fill 0 8)) 4096 [0; 0])).

Lemma next_name_message_faults_witness :
  exists svc y, sample_service = Some (Some svc, y) /\ svc_receive svc y overrun_message = None.
Proof.
  destruct sample_service as [[[svc|] y]|] eqn:Hs; [|discriminate Hs..]. exists svc, y. split; [done|].
  destruct (provider_started _ _ _ _ _ Hs) as (sp & _ & _ & Hy).
  assert (y = sample_store) as ->.
  { unfold sample_store, sample_start. rewrite Hy. reflexivity. }
  pose proof (mock_store_laws (fun _ => true) ltac:(done)) as Hlaws.
  eapply (next_name_message_faults (VP := mock_view) (VW := mock_view) _ _ _ svc sample_store overrun_message); [exact Hs|..].
  - apply (proj1 sample_store_inv).
  - intros k v Hk. assert (vars (variable_index_ sample_store) = ∅) as Hv by (vm_compute; reflexivity).
    by rewrite Hv in Hk.
  - reflexivity.
  - reflexivity.
  - vm_compute. split; discriminate.
  - vm_compute. discriminate.
  - reflexivity.
  - vm_compute. split; reflexivity.
Defined.
