(* ===== verification/SfsFlash.v ===== *)
(** * components/service/secure_storage/backend/secure_flash_store: utilities and flash

    sfs_utils.[ch], flash/sfs_flash.[ch] and the flash in memory of flash/ram.  A
    [struct sfs_flash_info_t] is a table of functions with the geometry of the flash; it
    is a record of operations over the type [F] of devices.  [FlashLaws] is what the
    file system relies on in a flash. *)
From S2P Require Import Prelude Status.

(** ** State

    The functions of the file system change the flash and a context: [SFS S A] is a
    computation over states [S] that gives an [A], or faults.  [check] is
    [if (err != PSA_SUCCESS) return err;] and [check_as] the same with another code. *)
Definition SFS (S A : Type) : Type := S -> option (A * S).

#[export] Instance SFS_ret {S} : MRet (SFS S) := fun A x s => Some (x, s).
#[export] Instance SFS_bind {S} : MBind (SFS S) := fun A B f m s => '(x, s) ← m s; f x s.

Definition fault {S A} : SFS S A := fun _ => None.
Definition check {S} (m : SFS S Z) (k : SFS S Z) : SFS S Z :=
  err ← m; if err =? PSA_SUCCESS then k else mret err.
Definition check_as {S} (e : Z) (m : SFS S Z) (k : SFS S Z) : SFS S Z :=
  err ← m; if err =? PSA_SUCCESS then k else mret e.

Notation "'check!' m ;; k" := (check m k)
  (at level 100, m at next level, k at level 200, right associativity) : ts_scope.
Notation "'check!' m 'else' e ;; k" := (check_as e m k)
  (at level 100, m at next level, e at next level, k at level 200, right associativity) : ts_scope.

(** [m] gives a result from [s], and the result satisfies [Q]. *)
Definition runs {S A} (m : SFS S A) (s : S) (Q : A -> S -> Prop) : Prop :=
  exists x s', m s = Some (x, s') /\ Q x s'.

(** ** sfs_utils *)
Definition SFS_FILE_ID_SIZE : Z := 12.
Definition SFS_DEFAULT_EMPTY_BUFF_VAL : Z := 0.
Definition SFS_UTILS_MIN (x y : Z) : Z := if x <? y then x else y.
Definition SFS_UTILS_ALIGN (x a : Z) : Z := Z.land (x + (a - 1)) (Z.lnot (a - 1)).

Definition sfs_utils_check_contained_in (superset_size subset_offset subset_size : Z) : Z :=
  if superset_size <? subset_offset then PSA_ERROR_INVALID_ARGUMENT
  else if u64 (superset_size - subset_offset) <? subset_size then PSA_ERROR_INVALID_ARGUMENT
  else PSA_SUCCESS.

(** The loop looks at the [SFS_FILE_ID_SIZE] octets of [fid]. *)
Definition sfs_utils_validate_fid (fid : bytes) : Z :=
  if existsb (fun c => negb (c =? 0)) (take (Z.to_nat SFS_FILE_ID_SIZE) fid) then PSA_SUCCESS
  else PSA_ERROR_DOES_NOT_EXIST.

(** ** sfs_flash

    [fi_read] takes and returns the buffer. *)
Definition SFS_BLOCK_INVALID_ID : Z := 4294967295.

Record sfs_flash_info_t (F : Type) := FlashInfo {
  fi_init : SFS F Z;
  fi_read : Z -> bytes -> Z -> Z -> SFS F (Z * bytes);
  fi_write : Z -> bytes -> Z -> Z -> SFS F Z;
  fi_flush : SFS F Z;
  fi_erase : Z -> SFS F Z;
  flash_area_addr : Z;
  sector_size : Z;
  block_size : Z;
  num_blocks : Z;
  program_unit : Z;
  max_file_size : Z;
  max_num_files : Z;
  erase_val : Z
}.
Arguments FlashInfo {F}.
Arguments fi_init {F}.
Arguments fi_read {F}.
Arguments fi_write {F}.
Arguments fi_flush {F}.
Arguments fi_erase {F}.
Arguments flash_area_addr {F}.
Arguments sector_size {F}.
Arguments block_size {F}.
Arguments num_blocks {F}.
Arguments program_unit {F}.
Arguments max_file_size {F}.
Arguments max_num_files {F}.
Arguments erase_val {F}.

Definition SFS_MAX_BLOCK_DATA_COPY : Z := 256.

Section Move.
Context {F : Type} (info : sfs_flash_info_t F).

(** The loop moves at least one octet a round: [size] rounds are enough. *)
Fixpoint block_move_loop (fuel : nat) (copy : bytes) (dst_block dst_offset src_block src_offset size : Z)
    : SFS F Z :=
  if size <=? 0 then mret PSA_SUCCESS
  else match fuel with
  | O => fault
  | S fuel =>
      let bytes_to_move := SFS_UTILS_MIN size SFS_MAX_BLOCK_DATA_COPY in
      '(status, copy) ← fi_read info src_block copy src_offset bytes_to_move;
      if negb (status =? PSA_SUCCESS) then mret status
      else check! fi_write info dst_block copy dst_offset bytes_to_move;;
           block_move_loop fuel copy dst_block (u64 (dst_offset + bytes_to_move))
             src_block (u64 (src_offset + bytes_to_move)) (size - bytes_to_move)
  end.

(** [dst_block_data_copy] is written before it is read: its first contents do not matter. *)
Definition sfs_flash_block_to_block_move (dst_block dst_offset src_block src_offset size : Z) : SFS F Z :=
  block_move_loop (Z.to_nat size) (fill 0 SFS_MAX_BLOCK_DATA_COPY)
    dst_block dst_offset src_block src_offset size.

End Move.

(** ** flash/ram

    The device is the array [sfs_block_data]. *)
Section Ram.
Context (info_block_size info_erase_val : Z).

Definition get_phys_address (block_id offset : Z) : Z := u32 (u32 (block_id * info_block_size) + offset).

Definition sfs_flash_ram_init : SFS bytes Z := mret PSA_SUCCESS.

Definition sfs_flash_ram_read (block_id : Z) (buff : bytes) (offset size : Z) : SFS bytes (Z * bytes) :=
  fun flash_dev =>
    d ← load flash_dev (get_phys_address block_id offset) size;
    buff ← store buff 0 d;
    Some ((PSA_SUCCESS, buff), flash_dev).

Definition sfs_flash_ram_write (block_id : Z) (buff : bytes) (offset size : Z) : SFS bytes Z :=
  fun flash_dev =>
    d ← load buff 0 size;
    flash_dev ← store flash_dev (get_phys_address block_id offset) d;
    Some (PSA_SUCCESS, flash_dev).

Definition sfs_flash_ram_flush : SFS bytes Z := mret PSA_SUCCESS.

Definition sfs_flash_ram_erase (block_id : Z) : SFS bytes Z :=
  fun flash_dev =>
    flash_dev ← store flash_dev (get_phys_address block_id 0) (fill info_erase_val info_block_size);
    Some (PSA_SUCCESS, flash_dev).

End Ram.

Definition SFS_FLASH_AREA_ADDR : Z := 0.
Definition SFS_FLASH_AREA_SIZE : Z := 16384.
Definition SFS_SECTOR_SIZE : Z := 4096.
Definition SFS_SECTORS_PER_BLOCK : Z := 1.
Definition SFS_FLASH_ALIGNMENT : Z := 1.
Definition SFS_MAX_ASSET_SIZE : Z := 4096.
Definition SFS_NUM_ASSETS : Z := 10.
Definition FLASH_INFO_BLOCK_SIZE : Z := SFS_SECTOR_SIZE * SFS_SECTORS_PER_BLOCK.
Definition FLASH_INFO_NUM_BLOCKS : Z := SFS_FLASH_AREA_SIZE / FLASH_INFO_BLOCK_SIZE.
Definition FLASH_INFO_MAX_FILE_SIZE : Z := SFS_UTILS_ALIGN SFS_MAX_ASSET_SIZE SFS_FLASH_ALIGNMENT.
Definition FLASH_INFO_MAX_NUM_FILES : Z := SFS_NUM_ASSETS.
Definition FLASH_INFO_ERASE_VAL : Z := 255.

(** A flash in memory of any geometry; the instance of the repository. *)
Definition ram_flash (bs nb max_file files ev : Z) : sfs_flash_info_t bytes :=
  FlashInfo sfs_flash_ram_init (sfs_flash_ram_read bs) (sfs_flash_ram_write bs) sfs_flash_ram_flush
    (sfs_flash_ram_erase bs ev) SFS_FLASH_AREA_ADDR SFS_SECTOR_SIZE bs nb SFS_FLASH_ALIGNMENT
    max_file files ev.

Definition sfs_flash_ram_instance : sfs_flash_info_t bytes :=
  ram_flash FLASH_INFO_BLOCK_SIZE FLASH_INFO_NUM_BLOCKS FLASH_INFO_MAX_FILE_SIZE
    FLASH_INFO_MAX_NUM_FILES FLASH_INFO_ERASE_VAL.

(** ** What a flash promises

    [fv_blocks] is the contents of the blocks; [fv_erased] the contents an erase may leave;
    [fv_guard] what the client promises of the contents after each write and each erase, and
    after each part of a write: nothing, for the flashes of the repository.  A write of at most
    eight octets, which the header of a metablock is, has no parts. *)
Record flash_view (F : Type) := FlashView {
  fv_ok : F -> Prop;
  fv_blocks : F -> list bytes;
  fv_erased : bytes -> Prop;
  fv_guard : list bytes -> Prop
}.
Arguments FlashView {F}.
Arguments fv_ok {F}.
Arguments fv_blocks {F}.
Arguments fv_erased {F}.
Arguments fv_guard {F}.

Definition unguarded {F} (V : flash_view F) : Prop := forall bl, fv_guard V bl.

Definition write_cuts (n : Z) : list Z := if n <=? 8 then [n] else seqZ 0 (n + 1).

Lemma write_cuts_range n k : 0 <= n -> k ∈ write_cuts n -> 0 <= k <= n.
Proof. unfold write_cuts. destruct (n <=? 8); [intros ? ->%list_elem_of_singleton; lia|]. intros ? Hk%elem_of_seqZ. lia. Qed.

Lemma write_cuts_all n : 0 <= n -> n ∈ write_cuts n.
Proof. unfold write_cuts. destruct (n <=? 8); [intros; by apply list_elem_of_singleton|]. intros. apply elem_of_seqZ. lia. Qed.

Class FlashLaws {F} (info : sfs_flash_info_t F) (V : flash_view F) : Prop := {
  fl_block_size : 0 < block_size info < 2 ^ 16;
  fl_num_blocks : 2 <= num_blocks info < 2 ^ 16;
  fl_blocks : forall d, fv_ok V d -> len (fv_blocks V d) = num_blocks info /\
    Forall (fun x => len x = block_size info) (fv_blocks V d);
  fl_init : forall d, fv_ok V d ->
    runs (fi_init info) d (fun st d' => st = PSA_SUCCESS /\ fv_ok V d' /\ fv_blocks V d' = fv_blocks V d);
  fl_read : forall d b buff off n x,
    fv_ok V d -> nthZ (fv_blocks V d) b = Some x -> 0 <= off -> 0 <= n <= len buff ->
    off + n <= block_size info ->
    runs (fi_read info b buff off n) d (fun '(st, buff') d' =>
      st = PSA_SUCCESS /\ store buff 0 (slice x off n) = Some buff' /\
      fv_ok V d' /\ fv_blocks V d' = fv_blocks V d);
  fl_write : forall d b buff off n x,
    fv_ok V d -> nthZ (fv_blocks V d) b = Some x -> 0 <= off -> 0 <= n <= len buff ->
    off + n <= block_size info ->
    (forall k x', k ∈ write_cuts n -> store x off (slice buff 0 k) = Some x' -> fv_guard V (<[Z.to_nat b := x']> (fv_blocks V d))) ->
    runs (fi_write info b buff off n) d (fun st d' =>
      st = PSA_SUCCESS /\ fv_ok V d' /\
      exists x', store x off (slice buff 0 n) = Some x' /\
        fv_blocks V d' = <[Z.to_nat b := x']> (fv_blocks V d));
  fl_flush : forall d, fv_ok V d ->
    runs (fi_flush info) d (fun st d' => st = PSA_SUCCESS /\ fv_ok V d' /\ fv_blocks V d' = fv_blocks V d);
  fl_erase : forall d b,
    fv_ok V d -> 0 <= b < num_blocks info ->
    (forall e, len e = block_size info -> fv_erased V e -> fv_guard V (<[Z.to_nat b := e]> (fv_blocks V d))) ->
    runs (fi_erase info b) d (fun st d' =>
      st = PSA_SUCCESS /\ fv_ok V d' /\
      exists e, len e = block_size info /\ fv_erased V e /\
        fv_blocks V d' = <[Z.to_nat b := e]> (fv_blocks V d))
}.

(** ** Computations: lemmas *)
Lemma runs_ret {S A} (x : A) (s : S) (Q : A -> S -> Prop) : Q x s -> runs (mret x) s Q.
Proof. intros. by exists x, s. Qed.

Lemma runs_bind {S A B} (m : SFS S A) (f : A -> SFS S B) (s : S) (Q : B -> S -> Prop) :
  runs m s (fun x s' => runs (f x) s' Q) -> runs (m ≫= f) s Q.
Proof.
  intros (x & s' & Hm & y & s'' & Hf & HQ). exists y, s''. split; [|done].
  unfold mbind, SFS_bind. rewrite Hm. by cbn.
Qed.

Lemma runs_mono {S A} (m : SFS S A) (s : S) (Q Q' : A -> S -> Prop) :
  runs m s Q -> (forall x s', Q x s' -> Q' x s') -> runs m s Q'.
Proof. intros (x & s' & ? & ?) HQ. exists x, s'. eauto. Qed.

Lemma runs_check {S} (m k : SFS S Z) (s : S) (Q : Z -> S -> Prop) :
  runs m s (fun st s' => st = PSA_SUCCESS /\ runs k s' Q) -> runs (check m k) s Q.
Proof.
  intros Hm. apply runs_bind. eapply runs_mono; [exact Hm|]. by intros ? ? [-> ?].
Qed.

Lemma runs_check_as {S} e (m k : SFS S Z) (s : S) (Q : Z -> S -> Prop) :
  runs m s (fun st s' => st = PSA_SUCCESS /\ runs k s' Q) -> runs (check_as e m k) s Q.
Proof.
  intros Hm. apply runs_bind. eapply runs_mono; [exact Hm|]. by intros ? ? [-> ?].
Qed.

(** ** Overwriting a part of a block *)
Definition patch (x : bytes) (off : Z) (d : bytes) : bytes :=
  take (Z.to_nat off) x ++ d ++ drop (Z.to_nat (off + len d)) x.

Lemma patch_store x off d : 0 <= off -> off + len d <= len x -> store x off d = Some (patch x off d).
Proof. intros. unfold store, patch. case_match; [done|lia]. Qed.

Lemma store_patch x off d x' : store x off d = Some x' -> x' = patch x off d.
Proof. by intros (_ & _ & ->)%store_Some. Qed.

Lemma patch_len x off d : 0 <= off -> off + len d <= len x -> len (patch x off d) = len x.
Proof. intros. by eapply store_len, patch_store. Qed.

Lemma patch_nil x off : 0 <= off <= len x -> patch x off [] = x.
Proof.
  intros. pose proof (store_nil x off ltac:(lia)) as Hs.
  rewrite patch_store in Hs by (unfold len in *; simpl; lia). by injection Hs.
Qed.

Lemma patch_app x off d1 d2 :
  0 <= off -> off + len d1 + len d2 <= len x ->
  patch (patch x off d1) (off + len d1) d2 = patch x off (d1 ++ d2).
Proof.
  intros. pose proof (store_app x off d1 d2) as Ha. pose proof (len_nonneg d1). pose proof (len_nonneg d2).
  rewrite !patch_store in Ha by (rewrite ?len_app; lia). cbn in Ha.
  rewrite patch_store in Ha by (rewrite ?patch_len; lia). congruence.
Qed.

Lemma slice_patch_same x off d n :
  n = len d -> 0 <= off -> off + len d <= len x -> slice (patch x off d) off n = d.
Proof.
  intros -> ? ?. pose proof (len_nonneg d).
  pose proof (load_store_same _ _ _ _ (patch_store x off d ltac:(lia) ltac:(lia))) as Hl.
  rewrite load_is_slice in Hl by (rewrite ?patch_len; lia). congruence.
Qed.

Lemma slice_patch_disjoint x off d s n :
  0 <= off -> off + len d <= len x -> 0 <= s -> s + n <= off \/ off + len d <= s ->
  slice (patch x off d) s n = slice x s n.
Proof. intros. eapply slice_store_disjoint; [done..|]. by apply patch_store. Qed.

(** A window of what was written. *)
Lemma slice_patch_inside x off d s n :
  0 <= off -> off + len d <= len x -> off <= s -> 0 <= n -> s + n <= off + len d ->
  slice (patch x off d) s n = slice d (s - off) n.
Proof.
  intros. replace s with (off + (s - off)) at 1 by lia. rewrite (slice_slice _ off (len d)) by lia.
  by rewrite slice_patch_same.
Qed.

(** ** sfs_utils: correctness *)

(** For size_t arguments, sfs_utils_check_contained_in accepts a range exactly when it ends
    within the superset; the computation does not wrap. *)
Theorem check_contained_in_exact superset_size off size :
  fits 64 superset_size -> fits 64 off -> fits 64 size ->
  sfs_utils_check_contained_in superset_size off size = PSA_SUCCESS <-> off + size <= superset_size.
Proof.
  unfold fits, sfs_utils_check_contained_in. intros. case_match; [split; [done|lia]|].
  rewrite wrap_small by lia. case_match; split; try done; lia.
Qed.

Lemma check_contained_in_exact_witness :
  fits 64 10 /\ sfs_utils_check_contained_in 10 4 6 = PSA_SUCCESS /\
  (sfs_utils_check_contained_in 10 (2 ^ 64 - 1) 1 = PSA_SUCCESS <-> 2 ^ 64 - 1 + 1 <= 10).
Proof.
  split; [by unfold fits|]. split; [by apply check_contained_in_exact|].
  apply check_contained_in_exact; by unfold fits.
Defined.

(** ** Moving data between blocks *)
Section MoveLemmas.
Context {F : Type} (info : sfs_flash_info_t F) (V : flash_view F) `{!FlashLaws info V}.

Lemma block_len d b x : fv_ok V d -> nthZ (fv_blocks V d) b = Some x -> len x = block_size info.
Proof.
  intros Hd Hx. destruct (fl_blocks d Hd) as [_ Hall]. rewrite Forall_forall in Hall. apply Hall.
  unfold nthZ in Hx. case_match; [|done]. by eapply list_elem_of_lookup_2.
Qed.

Lemma insert_block_id (l : list bytes) b x : nthZ l b = Some x -> <[Z.to_nat b := x]> l = l.
Proof. unfold nthZ. case_match; [|done]. apply list_insert_id. Qed.

Lemma nthZ_block_insert (l : list bytes) b c x :
  0 <= b < len l -> 0 <= c -> nthZ (<[Z.to_nat b := x]> l) c = if c =? b then Some x else nthZ l c.
Proof.
  intros. destruct (Z.eqb_spec c b) as [->|]; [by apply nthZ_insert_eq|]. apply nthZ_insert_ne; lia.
Qed.

Lemma write_runs d b buff off n x :
  fv_ok V d -> nthZ (fv_blocks V d) b = Some x -> 0 <= off -> 0 <= n <= len buff ->
  off + n <= block_size info ->
  (forall k, k ∈ write_cuts n -> fv_guard V (<[Z.to_nat b := patch x off (slice buff 0 k)]> (fv_blocks V d))) ->
  runs (fi_write info b buff off n) d (fun st d' => st = PSA_SUCCESS /\ fv_ok V d' /\
    fv_blocks V d' = <[Z.to_nat b := patch x off (slice buff 0 n)]> (fv_blocks V d)).
Proof.
  intros. eapply runs_mono; [eapply fl_write; try done; intros k x' Hk ->%store_patch; by auto|]. intros st d' (-> & ? & x' & Hx & ->).
  split; [done|]. split; [done|]. by apply store_patch in Hx as ->.
Qed.

Lemma block_move_done fuel d copy dst doff src soff x y :
  fv_ok V d -> nthZ (fv_blocks V d) dst = Some x -> 0 <= doff -> doff + 0 <= block_size info ->
  runs (block_move_loop info fuel copy dst doff src soff 0) d (fun st d' =>
    st = PSA_SUCCESS /\ fv_ok V d' /\
    fv_blocks V d' = <[Z.to_nat dst := patch x doff (slice y soff 0)]> (fv_blocks V d)).
Proof.
  intros Hd Hx ??. rewrite slice_nil, patch_nil, (insert_block_id _ _ _ Hx)
    by (pose proof (block_len _ _ _ Hd Hx); lia).
  destruct fuel; by apply runs_ret.
Qed.

Lemma block_move_runs fuel d copy dst doff src soff size x y :
  fv_ok V d -> dst <> src -> nthZ (fv_blocks V d) dst = Some x -> nthZ (fv_blocks V d) src = Some y ->
  len copy = SFS_MAX_BLOCK_DATA_COPY -> 0 <= doff -> 0 <= soff -> 0 <= size <= Z.of_nat fuel ->
  doff + size <= block_size info -> soff + size <= block_size info ->
  (forall k, 0 <= k <= size -> fv_guard V (<[Z.to_nat dst := patch x doff (slice y soff k)]> (fv_blocks V d))) ->
  runs (block_move_loop info fuel copy dst doff src soff size) d (fun st d' =>
    st = PSA_SUCCESS /\ fv_ok V d' /\
    fv_blocks V d' = <[Z.to_nat dst := patch x doff (slice y soff size)]> (fv_blocks V d)).
Proof.
  revert d copy doff soff size x. induction fuel as [|fuel IH]; intros d copy doff soff size x Hd Hne Hx Hy Hc ????? Hg.
  - assert (size = 0) as -> by lia. eapply block_move_done; [done|exact Hx|lia..].
  - cbn [block_move_loop]. destruct (Z.leb_spec size 0) as [|Hpos].
    { assert (size = 0) as -> by lia. rewrite slice_nil, patch_nil, (insert_block_id _ _ _ Hx)
        by (pose proof (block_len _ _ _ Hd Hx); lia). by apply runs_ret. }
    pose proof (block_len _ _ _ Hd Hx) as Hlx. pose proof (block_len _ _ _ Hd Hy) as Hly.
    pose proof (nthZ_Some _ _ _ Hx). pose proof (nthZ_Some _ _ _ Hy). pose proof (fl_block_size (V := V)).
    set (k := SFS_UTILS_MIN size SFS_MAX_BLOCK_DATA_COPY).
    assert (0 < k <= size /\ k <= 256) as Hk
      by (unfold k, SFS_UTILS_MIN, SFS_MAX_BLOCK_DATA_COPY; case_match; lia).
    unfold SFS_MAX_BLOCK_DATA_COPY in Hc. apply runs_bind.
    eapply runs_mono; [eapply fl_read; [done|exact Hy|lia..]|].
    intros [st copy'] d1 (-> & Hst & Hd1 & Hb1). cbn.
    assert (slice copy' 0 k = slice y soff k) as Hs.
    { pose proof (load_store_same _ _ _ _ Hst) as Hl. pose proof (store_len _ _ _ _ Hst).
      rewrite slice_len in Hl by lia. rewrite load_is_slice in Hl by lia. congruence. }
    assert (len copy' = 256) as Hc' by (pose proof (store_len _ _ _ _ Hst); lia).
    apply runs_check. rewrite <- Hb1 in Hx.
    eapply runs_mono; [eapply write_runs; [done|exact Hx|lia..|]|].
    { intros j Hj%write_cuts_range; [|lia]. replace (slice copy' 0 j) with (slice y soff j); [rewrite Hb1; apply Hg; lia|].
      pose proof (slice_slice copy' 0 k 0 j ltac:(lia) ltac:(lia) ltac:(lia) ltac:(lia)) as Hj1.
      pose proof (slice_slice y soff k 0 j ltac:(lia) ltac:(lia) ltac:(lia) ltac:(lia)) as Hj2.
      rewrite Z.add_0_r in Hj1, Hj2. by rewrite Hj1, Hj2, Hs. }
    intros st d2 (-> & Hd2 & Hb2). split; [done|]. rewrite Hs, Hb1 in Hb2.
    assert (nthZ (fv_blocks V d2) dst = Some (patch x doff (slice y soff k))) as Hx2
      by (rewrite Hb2; by apply nthZ_insert_eq).
    assert (nthZ (fv_blocks V d2) src = Some y) as Hy2
      by (rewrite Hb2, nthZ_insert_ne; [done|lia|done]).
    rewrite !wrap_small by lia.
    eapply runs_mono; [apply IH; [done|done|exact Hx2|exact Hy2|done|lia..|]|].
    { intros k' Hk'. pose proof (slice_len y soff k ltac:(lia) ltac:(lia) ltac:(lia)) as Hlk.
      pose proof (slice_len y (soff + k) k' ltac:(lia) ltac:(lia) ltac:(lia)) as Hlk'.
      rewrite Hb2, list_insert_insert_eq. specialize (Hg (k + k') ltac:(lia)). rewrite (slice_app y soff k k'), <- patch_app in Hg by lia.
      by rewrite Hlk in Hg. }
    intros st d3 (-> & ? & ->). split; [done|]. split; [done|]. rewrite Hb2.
    rewrite list_insert_insert_eq. f_equal.
    replace size with (k + (size - k)) at 2 by lia. rewrite (slice_app _ _ k) by lia.
    pose proof (slice_len y soff k ltac:(lia) ltac:(lia) ltac:(lia)) as Hlk.
    rewrite <- patch_app; rewrite ?Hlk, ?slice_len by lia; [done|lia|lia].
Qed.

(** On a lawful flash sfs_flash_block_to_block_move returns, and the destination holds the
    octets of the source, moved in pieces of 256; the rest of it and the other blocks are as
    they were. *)
Theorem block_to_block_move_copies d dst doff src soff size x y :
  fv_ok V d -> dst <> src -> nthZ (fv_blocks V d) dst = Some x -> nthZ (fv_blocks V d) src = Some y ->
  0 <= doff -> 0 <= soff -> 0 <= size ->
  doff + size <= block_size info -> soff + size <= block_size info ->
  (forall k, 0 <= k <= size -> fv_guard V (<[Z.to_nat dst := patch x doff (slice y soff k)]> (fv_blocks V d))) ->
  runs (sfs_flash_block_to_block_move info dst doff src soff size) d (fun st d' =>
    st = PSA_SUCCESS /\ fv_ok V d' /\
    fv_blocks V d' = <[Z.to_nat dst := patch x doff (slice y soff size)]> (fv_blocks V d)).
Proof. intros. apply block_move_runs; done || lia. Qed.

End MoveLemmas.

(** ** The flash in memory is lawful *)
Section RamLaws.
Context (bs nb max_file files ev : Z).
Hypothesis bs_ok : 0 < bs < 2 ^ 16.
Hypothesis nb_ok : 2 <= nb < 2 ^ 16.

Definition ram_blocks (dev : bytes) : list bytes := (fun i => slice dev (i * bs) bs) <$> seqZ 0 nb.

Definition ram_flash_view : flash_view bytes :=
  FlashView (fun dev => len dev = bs * nb) ram_blocks (fun e => e = fill ev bs) (fun _ => True).

Lemma nthZ_ram_blocks dev b : nthZ (ram_blocks dev) b = if (0 <=? b) && (b <? nb) then Some (slice dev (b * bs) bs) else None.
Proof.
  unfold nthZ, ram_blocks. destruct (Z.leb_spec 0 b); [|done]. rewrite list_lookup_fmap. simpl.
  destruct (Z.ltb_spec b nb).
  - rewrite lookup_seqZ_lt by lia. simpl. do 2 f_equal. lia.
  - by rewrite lookup_seqZ_ge by lia.
Qed.

Lemma ram_address b off :
  0 <= b < nb -> 0 <= off <= bs -> get_phys_address bs b off = b * bs + off.
Proof.
  intros. unfold get_phys_address. assert (0 <= b * bs <= 65534 * 65535) by nia.
  rewrite (wrap_small 32 (b * bs)) by lia. apply wrap_small. lia.
Qed.

Lemma ram_store dev b off d :
  len dev = bs * nb -> 0 <= b < nb -> 0 <= off -> off + len d <= bs ->
  exists dev', store dev (b * bs + off) d = Some dev' /\ len dev' = bs * nb /\
    ram_blocks dev' = <[Z.to_nat b := patch (slice dev (b * bs) bs) off d]> (ram_blocks dev).
Proof.
  intros Hl Hb Ho Hd. pose proof (len_nonneg d).
  destruct (store_ok dev (b * bs + off) d) as [dev' Hs]; [lia|nia|].
  exists dev'. split; [done|]. pose proof (store_len _ _ _ _ Hs) as Hl'. split; [lia|].
  assert (len (ram_blocks dev) = nb) as Hlb.
  { unfold len, ram_blocks. rewrite length_fmap, length_seqZ. lia. }
  apply list_eq_nthZ. intros i Hi. rewrite nthZ_block_insert, !nthZ_ram_blocks by lia.
  destruct (Z.eqb_spec i b) as [->|Hne].
  - case_match; [|lia]. f_equal. eapply store_patch, store_slice; [nia|lia|lia|nia|done].
  - case_match; [|done]. f_equal. eapply slice_store_disjoint; [nia| |done]. nia.
Qed.

#[export] Instance ram_flash_laws : FlashLaws (ram_flash bs nb max_file files ev) ram_flash_view.
Proof.
  split; cbn [ram_flash block_size num_blocks fi_init fi_read fi_write fi_flush fi_erase ram_flash_view fv_ok fv_blocks fv_erased]; try done.
  - intros d Hd. split; [unfold len, ram_blocks; rewrite length_fmap, length_seqZ; lia|].
    apply Forall_fmap, Forall_forall. intros i Hi%elem_of_seqZ. cbn. apply slice_len; nia.
  - intros d Hd. by apply runs_ret.
  - intros d b buff off n x Hd Hx ???. rewrite nthZ_ram_blocks in Hx. case_match; [|done]. simplify_eq.
    unfold runs, sfs_flash_ram_read. rewrite ram_address by lia.
    rewrite load_is_slice by nia. cbn [mbind option_bind].
    destruct (store_ok buff 0 (slice d (b * bs + off) n)) as [buff' Hs]; [done|rewrite slice_len; nia|].
    rewrite Hs. eexists _, _. split; [done|]. split; [done|]. split; [|done].
    rewrite <- slice_slice by lia. done.
  - intros d b buff off n x Hd Hx ??? _. rewrite nthZ_ram_blocks in Hx. case_match; [|done]. simplify_eq.
    unfold runs, sfs_flash_ram_write. rewrite ram_address by lia.
    rewrite load_is_slice by lia. cbn [mbind option_bind].
    pose proof (slice_len buff 0 n ltac:(lia) ltac:(lia) ltac:(lia)) as Hsl.
    destruct (ram_store d b off (slice buff 0 n)) as (d' & Hs & ? & Hbl); [done|lia..|].
    rewrite Hs. eexists _, _. split; [done|]. split; [done|]. split; [done|]. eexists. split; [|exact Hbl].
    apply patch_store; rewrite ?slice_len by nia; lia.
  - intros d Hd. by apply runs_ret.
  - intros d b Hd Hb _. unfold runs, sfs_flash_ram_erase. rewrite ram_address by lia. rewrite Z.add_0_r.
    pose proof (len_fill ev bs ltac:(lia)) as Hf.
    destruct (ram_store d b 0 (fill ev bs)) as (d' & Hs & ? & Hbl); [done|lia..|].
    rewrite Z.add_0_r in Hs. rewrite Hs. eexists _, _. split; [done|]. split; [done|]. split; [done|].
    exists (fill ev bs). split; [done|]. split; [done|]. rewrite Hbl. f_equal.
    unfold patch. rewrite take_0, Z.add_0_l, Hf. simpl. rewrite drop_ge, app_nil_r; [done|].
    pose proof (slice_len d (b * bs) bs ltac:(nia) ltac:(lia) ltac:(nia)). unfold len in *. lia.
Qed.

End RamLaws.

(** An erased flash of 4 small blocks. *)
Definition small_flash : sfs_flash_info_t bytes := ram_flash 8 4 8 1 255.
Definition small_view : flash_view bytes := ram_flash_view 8 4 255.
#[export] Instance small_flash_laws : FlashLaws small_flash small_view.
Proof. apply ram_flash_laws; lia. Qed.

Lemma block_to_block_move_copies_witness :
  runs (sfs_flash_block_to_block_move small_flash 0 2 1 3 4)
    [0;1;2;3;4;5;6;7; 8;9;10;11;12;13;14;15; 0;0;0;0;0;0;0;0; 0;0;0;0;0;0;0;0]
    (fun st d' => st = PSA_SUCCESS /\ fv_ok small_view d' /\
      fv_blocks small_view d' =
        [[0;1;11;12;13;14;6;7]; [8;9;10;11;12;13;14;15]; [0;0;0;0;0;0;0;0]; [0;0;0;0;0;0;0;0]]).
Proof.
  eapply runs_mono.
  - apply (block_to_block_move_copies small_flash small_view _ 0 2 1 3 4
      [0;1;2;3;4;5;6;7] [8;9;10;11;12;13;14;15]); done.
  - intros st d' (? & ? & ->). by repeat split.
Defined.
