(* ===== verification/SfsAdapter.v ===== *)
(** * secure_flash_store/flash/block_store_adapter: a flash over a block store

    sfs_flash_block_store_adapter.c: a flash block is a number of blocks of a storage
    partition.  The device is the adapter; over a lawful block store it is a lawful flash. *)
From S2P Require Import Prelude Status StoragePartition BlockStore BlockDevice SfsFlash.

(** [flash_info] is [None] until the adapter is initialised; its geometry is kept apart
    from the functions, which are the same for all adapters. *)
Record flash_geometry := Geometry {
  g_sector_size : Z; g_block_size : Z; g_num_blocks : Z; g_max_file_size : Z; g_max_num_files : Z
}.

Record sfs_flash_block_store_adapter (C : Type) := Adapter {
  flash_info : flash_geometry;
  ad_block_store : option (block_store C);
  partition_handle : Z;
  client_id : Z;
  blocks_per_flash_block : Z
}.
Arguments Adapter {C}.
Arguments flash_info {C}.
Arguments ad_block_store {C}.
Arguments partition_handle {C}.
Arguments client_id {C}.
Arguments blocks_per_flash_block {C}.

Section Adapter.
Context {C : Type}.
Implicit Types context : sfs_flash_block_store_adapter C.

Definition with_block_store context (b : block_store C) : sfs_flash_block_store_adapter C :=
  Adapter (flash_info context) (Some b) (partition_handle context) (client_id context)
    (blocks_per_flash_block context).

(** The unsigned division by [sub_block_size] faults when it is zero. *)
Definition calc_sub_block_pos context (block_id offset : Z) : option (Z * Z) :=
  let sub_block_size := g_sector_size (flash_info context) in
  assert! negb (sub_block_size =? 0) ;;
  Some (u64 (u64 (block_id * blocks_per_flash_block context) + offset / sub_block_size),
        offset mod sub_block_size).

Definition sfs_flash_init : SFS (sfs_flash_block_store_adapter C) Z := fun context =>
  Some (match ad_block_store context with None => PSA_ERROR_BAD_STATE | Some _ => PSA_SUCCESS end, context).

(** A round that transfers nothing makes no progress: the loop faults when its [fuel], the
    octets to transfer, is used up. *)
Fixpoint read_loop (fuel : nat) (buff : bytes) (size total_bytes_read lba offset : Z)
    : SFS (sfs_flash_block_store_adapter C) (Z * bytes * Z) := fun context =>
  if size <=? total_bytes_read then Some ((PSA_SUCCESS, buff, total_bytes_read), context)
  else match fuel with
  | O => None
  | S fuel =>
      let bytes_to_read := u64 (size - total_bytes_read) in
      let bytes_to_read := if g_sector_size (flash_info context) <? bytes_to_read
                           then g_sector_size (flash_info context) else bytes_to_read in
      b ← ad_block_store context;
      '(status, rest, bytes_read, b) ← block_store_read b (client_id context) (partition_handle context)
        lba offset bytes_to_read (drop (Z.to_nat total_bytes_read) buff) 0;
      let buff := take (Z.to_nat total_bytes_read) buff ++ rest in
      let context := with_block_store context b in
      if negb (status =? PSA_SUCCESS) then Some ((status, buff, total_bytes_read), context)
      else read_loop fuel buff size (u64 (total_bytes_read + bytes_read)) (u64 (lba + 1)) 0 context
  end.

Definition sfs_flash_read (block_id : Z) (buff : bytes) (offset size : Z)
    : SFS (sfs_flash_block_store_adapter C) (Z * bytes) := fun context =>
  '(lba, sub_offset) ← calc_sub_block_pos context block_id offset;
  '((status, buff, total), context) ← read_loop (Z.to_nat size) buff size 0 lba sub_offset context;
  Some ((if (status =? PSA_SUCCESS) && negb (total =? size) then PSA_ERROR_INVALID_ARGUMENT else status, buff),
        context).

Fixpoint write_loop (fuel : nat) (buff : bytes) (size total_bytes_written lba offset : Z)
    : SFS (sfs_flash_block_store_adapter C) (Z * Z) := fun context =>
  if size <=? total_bytes_written then Some ((PSA_SUCCESS, total_bytes_written), context)
  else match fuel with
  | O => None
  | S fuel =>
      let bytes_to_write := u64 (size - total_bytes_written) in
      let bytes_to_write := if g_sector_size (flash_info context) <? bytes_to_write
                            then g_sector_size (flash_info context) else bytes_to_write in
      b ← ad_block_store context;
      '(status, bytes_written, b) ← block_store_write b (client_id context) (partition_handle context)
        lba offset (drop (Z.to_nat total_bytes_written) buff) bytes_to_write 0;
      let context := with_block_store context b in
      if negb (status =? PSA_SUCCESS) then Some ((status, total_bytes_written), context)
      else write_loop fuel buff size (u64 (total_bytes_written + bytes_written)) (u64 (lba + 1)) 0 context
  end.

Definition sfs_flash_write (block_id : Z) (buff : bytes) (offset size : Z)
    : SFS (sfs_flash_block_store_adapter C) Z := fun context =>
  '(lba, sub_offset) ← calc_sub_block_pos context block_id offset;
  '((status, total), context) ← write_loop (Z.to_nat size) buff size 0 lba sub_offset context;
  Some (if (status =? PSA_SUCCESS) && negb (total =? size) then PSA_ERROR_INVALID_ARGUMENT else status,
        context).

Definition sfs_flash_flush : SFS (sfs_flash_block_store_adapter C) Z := mret PSA_SUCCESS.

Definition sfs_flash_erase (block_id : Z) : SFS (sfs_flash_block_store_adapter C) Z := fun context =>
  '(lba, _) ← calc_sub_block_pos context block_id 0;
  b ← ad_block_store context;
  '(status, b) ← block_store_erase b (client_id context) (partition_handle context) lba
    (blocks_per_flash_block context);
  Some (status, with_block_store context b).

(** The functions of an adapter with the geometry [info]. *)
Definition adapter_info (info : flash_geometry) : sfs_flash_info_t (sfs_flash_block_store_adapter C) :=
  FlashInfo sfs_flash_init sfs_flash_read sfs_flash_write sfs_flash_flush sfs_flash_erase
    0 (g_sector_size info) (g_block_size info) (g_num_blocks info) 1 (g_max_file_size info)
    (g_max_num_files info) 255.

(** A partition without block size makes the division fault. *)
Definition sfs_flash_block_store_adapter_init context (client : Z) (b : block_store C)
    (partition_guid : bytes) (min_flash_block_size max_files : Z)
    : option (Z * sfs_flash_block_store_adapter C) :=
  '(status, partition_info, b) ← block_store_get_partition_info b partition_guid
    (Info 0 0 (fill 0 16) (fill 0 16));
  let context := Adapter (flash_info context) (Some b) (partition_handle context) client
    (blocks_per_flash_block context) in
  if negb (status =? PSA_SUCCESS) then Some (status, context)
  else
    assert! negb (info_block_size partition_info =? 0) ;;
    let per_block := u64 (min_flash_block_size + info_block_size partition_info - 1) / info_block_size partition_info in
    assert! negb (per_block =? 0) ;;
    let sector := u16 (info_block_size partition_info) in
    let size := u16 (info_block_size partition_info * per_block) in
    let number := u16 (info_num_blocks partition_info / per_block) in
    let geometry files max := Geometry sector size number files max in
    if (sector =? 0) || (size =? 0) || (number <? 2) then
      Some (PSA_ERROR_INSUFFICIENT_STORAGE,
        Adapter (geometry (g_max_file_size (flash_info context)) (g_max_num_files (flash_info context)))
          (Some b) (partition_handle context) client per_block)
    else
      let context := Adapter (geometry size (u16 max_files)) (Some b) (partition_handle context) client per_block in
      '(status, handle, b) ← block_store_open b client partition_guid (partition_handle context);
      Some (status, Adapter (flash_info context) (Some b) handle client per_block).

Definition sfs_flash_block_store_adapter_deinit context : option (Z * sfs_flash_block_store_adapter C) :=
  b ← ad_block_store context;
  '(status, b) ← block_store_close b (client_id context) (partition_handle context);
  Some (status, with_block_store context b).

End Adapter.

(** ** Over a lawful block store the adapter is a lawful flash *)
Section AdapterLaws.
Context {C : Type} (I : block_store_interface C) (V : store_view C) `{!BlockStoreLaws I V}.
Context (info : flash_geometry).
Implicit Types context : sfs_flash_block_store_adapter C.

Let sec : Z := g_sector_size info.

(** An initialised adapter whose client has opened the partition. *)
Record adapter_ok context : Prop := {
  ao_info : flash_info context = info;
  ao_handle : 0 <= partition_handle context;
  ao_per : g_block_size info = sec * blocks_per_flash_block context;
  ao_store : exists c, ad_block_store context = Some (BlockStore c (Some I)) /\ v_ok V c /\
    v_access V c (client_id context) (partition_handle context) /\
    v_bsize V c (partition_handle context) = sec /\
    g_num_blocks info * blocks_per_flash_block context <= v_nblocks V c (partition_handle context)
}.

Definition adapter_data context : bytes :=
  match ad_block_store context with
  | Some b => v_data V (bs_context b) (partition_handle context)
  | None => []
  end.

Definition adapter_blocks context : list bytes :=
  (fun i => slice (adapter_data context) (i * g_block_size info) (g_block_size info))
    <$> seqZ 0 (g_num_blocks info).

(** What an erase leaves is up to the block store. *)
Definition adapter_view : flash_view (sfs_flash_block_store_adapter C) :=
  FlashView adapter_ok adapter_blocks (fun _ => True) (fun _ => True).

Hypothesis size_ok : 0 < g_block_size info < 2 ^ 16.
Hypothesis number_ok : 2 <= g_num_blocks info < 2 ^ 16.

Lemma sector_ok context : adapter_ok context ->
  0 < sec <= g_block_size info /\ 0 < blocks_per_flash_block context <= g_block_size info.
Proof.
  intros [_ _ Hp (c & _ & Hc & Ha & Hb & _)].
  destruct (law_geometry (V := V) c _ _ Hc Ha) as (_ & [? _] & _). rewrite Hb in *.
  assert (0 < sec) by (destruct (Z.eq_dec sec 0) as [Hz|]; [rewrite Hz in Hp|]; lia).
  assert (0 < blocks_per_flash_block context) by (destruct (Z.ltb_spec 0 (blocks_per_flash_block context)); [done|nia]).
  split; nia.
Qed.

Lemma block_bound context : adapter_ok context ->
  0 < g_num_blocks info * blocks_per_flash_block context <= 65536 * 65536.
Proof. intros (_ & ?)%sector_ok. nia. Qed.

Lemma adapter_data_len context : adapter_ok context ->
  g_num_blocks info * g_block_size info <= len (adapter_data context) < 2 ^ 64.
Proof.
  intros Hok. pose proof (sector_ok _ Hok). destruct Hok as [_ _ Hp (c & Hs & Hc & Ha & Hb & Hn)].
  destruct (law_geometry (V := V) c _ _ Hc Ha) as (_ & _ & ? & Hl). unfold adapter_data. rewrite Hs. cbn.
  rewrite Hl, Hb in *. rewrite Hp. nia.
Qed.

(** The position in the partition of an offset in a flash block. *)
Lemma sub_block_pos context b off :
  adapter_ok context -> 0 <= b < g_num_blocks info -> 0 <= off <= g_block_size info ->
  exists lba so, calc_sub_block_pos context b off = Some (lba, so) /\ 0 <= lba < 2 ^ 33 /\ 0 <= so < sec /\
    lba * sec + so = b * g_block_size info + off.
Proof.
  intros Hok Hb Ho. pose proof (sector_ok _ Hok) as (? & ?). destruct Hok as [Hi _ Hp _].
  unfold calc_sub_block_pos. rewrite Hi. fold sec. case_match; [|lia].
  pose proof (Z.div_mod off sec ltac:(lia)) as Hd. pose proof (Z.mod_pos_bound off sec ltac:(lia)).
  assert (0 <= off / sec <= off) by (split; [apply Z.div_pos; lia|apply Z.div_le_upper_bound; nia]).
  assert (0 <= b * blocks_per_flash_block context <= 65536 * 65536) by nia.
  exists (b * blocks_per_flash_block context + off / sec), (off mod sec).
  rewrite (wrap_small 64 (b * _)), (wrap_small 64 (_ + _)) by lia.
  split; [done|]. split; [lia|]. split; [lia|]. rewrite Hp. nia.
Qed.

Lemma with_store_ok context c c' :
  ad_block_store context = Some (BlockStore c (Some I)) -> adapter_ok context -> view_ext V c c' ->
  adapter_ok (with_block_store context (BlockStore c' (Some I))) /\
  adapter_data (with_block_store context (BlockStore c' (Some I))) = adapter_data context.
Proof.
  intros Hs [? ? ? (c0 & Hs0 & Hc & Ha & Hb & Hn)] [Hc' Hx]. rewrite Hs in Hs0. simplify_eq.
  destruct (Hx _ _ Ha) as (? & Hn' & Hb' & Hd'). split.
  - split; try done. exists c'. split; [done|]. cbn. rewrite Hn', Hb'. done.
  - unfold adapter_data. rewrite Hs. cbn. done.
Qed.

Lemma with_store_upd context c c' d :
  ad_block_store context = Some (BlockStore c (Some I)) -> adapter_ok context ->
  view_upd V c (partition_handle context) d c' ->
  adapter_ok (with_block_store context (BlockStore c' (Some I))) /\
  adapter_data (with_block_store context (BlockStore c' (Some I))) = d.
Proof.
  intros Hs [? ? ? (c0 & Hs0 & Hc & Ha & Hb & Hn)] (Hc' & Hd & Hx). rewrite Hs in Hs0. simplify_eq.
  destruct (Hx _ _ Ha) as (? & Hn' & Hb'). split; [|done].
  split; try done. exists c'. split; [done|]. cbn. rewrite Hn', Hb'. done.
Qed.

Lemma read_loop_runs fuel context buff size total lba off :
  adapter_ok context -> 0 <= total <= size -> size - total <= Z.of_nat fuel -> size <= len buff ->
  size <= g_block_size info -> 0 <= lba -> 0 <= off < sec ->
  lba * sec + off + (size - total) <= g_num_blocks info * g_block_size info ->
  runs (read_loop fuel buff size total lba off) context (fun '(st, buff', total') context' =>
    st = PSA_SUCCESS /\ total' = size /\ adapter_ok context' /\ adapter_data context' = adapter_data context /\
    store buff total (slice (adapter_data context) (lba * sec + off) (size - total)) = Some buff').
Proof.
  revert context buff total lba off. induction fuel as [|fuel IH]; intros context buff total lba off Hok Ht Hf Hbl Hsz Hl Ho Hend;
    cbn [read_loop]; unfold runs; (case_match; [assert (total = size) as -> by lia; eexists _, _; split; [done|];
      rewrite Z.sub_diag, slice_nil, store_nil by lia; done|]); [lia|].
  pose proof (sector_ok _ Hok) as (? & ?). pose proof (adapter_data_len _ Hok) as (? & ?).
  pose proof Hok as [Hi Hh Hp (c & Hs & Hc & Ha & Hb & Hn)].
  rewrite Hi. fold sec. rewrite (wrap_small 64 (size - total)) by lia.
  set (n := if sec <? size - total then sec else size - total).
  assert (0 < n <= size - total /\ n <= sec) as Hnn by (unfold n; case_match; lia).
  rewrite Hs. cbn [mbind option_bind]. unfold block_store_read. cbn [bs_interface bs_context mbind option_bind].
  assert (len (drop (Z.to_nat total) buff) = len buff - total) as Hdl by (unfold len in *; rewrite length_drop; lia).
  destruct (law_read (V := V) c (client_id context) (partition_handle context) lba off n (drop (Z.to_nat total) buff) 0)
    as (st & rest & dl & c' & -> & Hx & Hcase); [done|done|lia..|]. cbn [mbind option_bind].
  assert (lba < g_num_blocks info * blocks_per_flash_block context) as Hlba0
    by (apply (Z.mul_lt_mono_pos_r sec); [lia|]; rewrite Hp, (Z.mul_comm sec), Z.mul_assoc in Hend; lia).
  assert (lba < v_nblocks V c (partition_handle context)) as Hlba by lia.
  destruct Hcase as [(-> & _ & Hdl' & d & Hld & Hst)|(_ & Hnr & _)]; [|exfalso; apply Hnr; split; [done|]; rewrite Hb; lia].
  cbn [negb Z.eqb PSA_SUCCESS]. rewrite Hb in *.
  apply store_drop in Hst; [|lia].
  set (buff1 := take (Z.to_nat total) buff ++ rest) in *.
  destruct (with_store_ok context c c' Hs Hok Hx) as [Hok' Hd'].
  pose proof (store_len _ _ _ _ Hst) as Hlb1. pose proof (load_len _ _ _ _ Hld) as Hlen.
  pose proof (block_bound _ Hok).
  rewrite (wrap_small 64 (total + dl)), (wrap_small 64 (lba + 1)) by lia. replace (set_context _ c') with (BlockStore c' (Some I)) by done.
  destruct (Z.eqb_spec (total + dl) size) as [Hdone|Hmore].
  - (* the last round *)
    assert (read_loop fuel buff1 size (total + dl) (lba + 1) 0 (with_block_store context (BlockStore c' (Some I)))
      = Some ((PSA_SUCCESS, buff1, size), with_block_store context (BlockStore c' (Some I)))) as ->
      by (destruct fuel; cbn [read_loop]; rewrite Hdone, Z.leb_refl; done).
    eexists _, _. split; [done|]. split; [done|]. split; [done|]. split; [done|]. split; [done|].
    rewrite <- Hst. f_equal. unfold adapter_data. rewrite Hs. cbn. rewrite load_is_slice in Hld by (apply load_Some in Hld; lia).
    replace (size - total) with dl by lia. congruence.
  - assert (dl = sec - off \/ off = 0 /\ dl = sec) as Hdl2 by (unfold n in *; case_match; lia).
    assert (dl = sec - off) as Hdl3 by lia.
    destruct (IH (with_block_store context (BlockStore c' (Some I))) buff1 (total + dl) (lba + 1) 0)
      as ([[st b2] t2] & ctx2 & Hrun & -> & -> & Hok2 & Hd2 & Hst2); [done|lia..|nia|].
    eexists _, _. split; [exact Hrun|]. split; [done|]. split; [done|]. split; [done|]. split; [congruence|].
    rewrite Hd' in Hst2. replace ((lba + 1) * sec + 0) with (lba * sec + off + dl) in Hst2 by nia.
    replace (size - total) with (dl + (size - (total + dl))) by lia.
    rewrite slice_app by nia. rewrite <- store_app.
    assert (slice (adapter_data context) (lba * sec + off) dl = d) as Hsd.
    { unfold adapter_data. rewrite Hs. cbn. rewrite load_is_slice in Hld by (apply load_Some in Hld; lia). congruence. }
    rewrite Hsd, Hst. cbn [mbind option_bind]. by rewrite Hlen.
Qed.


Lemma take_drop_slice (l : bytes) a n : take (Z.to_nat n) (drop (Z.to_nat a) l) = slice l a n.
Proof. done. Qed.

Lemma write_loop_runs fuel context buff size total lba off :
  adapter_ok context -> 0 <= total <= size -> size - total <= Z.of_nat fuel -> size <= len buff ->
  size <= g_block_size info -> 0 <= lba -> 0 <= off < sec ->
  lba * sec + off + (size - total) <= g_num_blocks info * g_block_size info ->
  runs (write_loop fuel buff size total lba off) context (fun '(st, total') context' =>
    st = PSA_SUCCESS /\ total' = size /\ adapter_ok context' /\
    store (adapter_data context) (lba * sec + off) (slice buff total (size - total)) =
      Some (adapter_data context')).
Proof.
  revert context total lba off. induction fuel as [|fuel IH]; intros context total lba off Hok Ht Hf Hbl Hsz Hl Ho Hend;
    cbn [write_loop]; unfold runs; pose proof (adapter_data_len _ Hok) as (? & ?);
    pose proof (sector_ok _ Hok) as (? & ?); pose proof (Z.mul_nonneg_nonneg lba sec ltac:(lia) ltac:(lia));
    (case_match; [assert (total = size) as -> by lia; eexists _, _; split; [done|];
      rewrite Z.sub_diag, slice_nil, store_nil by lia; done|]); [lia|].
  pose proof (block_bound _ Hok).
  pose proof Hok as [Hi Hh Hp (c & Hs & Hc & Ha & Hb & Hn)].
  rewrite Hi. fold sec. rewrite (wrap_small 64 (size - total)) by lia.
  set (n := if sec <? size - total then sec else size - total).
  assert (0 < n <= size - total /\ n <= sec) as Hnn by (unfold n; case_match; lia).
  rewrite Hs. cbn [mbind option_bind]. unfold block_store_write. cbn [bs_interface bs_context mbind option_bind].
  assert (len (drop (Z.to_nat total) buff) = len buff - total) as Hdl by (unfold len in *; rewrite length_drop; lia).
  destruct (law_write (V := V) c (client_id context) (partition_handle context) lba off (drop (Z.to_nat total) buff) n 0)
    as (st & nw & c' & -> & Hcase); [done|done|lia..|]. cbn [mbind option_bind].
  assert (lba < g_num_blocks info * blocks_per_flash_block context) as Hlba0
    by (apply (Z.mul_lt_mono_pos_r sec); [lia|]; rewrite Hp, (Z.mul_comm sec), Z.mul_assoc in Hend; lia).
  destruct Hcase as [(-> & _ & Hnw & d & Hst & Hx)|(_ & Hnr & _)]; [|exfalso; apply Hnr; split; [done|]; rewrite Hb; lia].
  cbn [negb Z.eqb PSA_SUCCESS]. rewrite Hb in *.
  destruct (with_store_upd context c c' d Hs Hok Hx) as [Hok' Hd'].
  replace (set_context _ c') with (BlockStore c' (Some I)) by done.
  set (context1 := with_block_store context (BlockStore c' (Some I))) in *.
  rewrite take_drop_slice in Hst. change (v_data V c (partition_handle context)) with (v_data V (bs_context (BlockStore c (Some I))) (partition_handle context)) in Hst.
  assert (adapter_data context = v_data V c (partition_handle context)) as Hda by (unfold adapter_data; by rewrite Hs).
  cbn [bs_context] in Hst. rewrite <- Hda in Hst.
  rewrite (wrap_small 64 (total + nw)), (wrap_small 64 (lba + 1)) by lia.
  destruct (Z.eqb_spec (total + nw) size) as [Hdone|Hmore].
  - assert (write_loop fuel buff size (total + nw) (lba + 1) 0 context1 = Some ((PSA_SUCCESS, size), context1)) as ->
      by (destruct fuel; cbn [write_loop]; rewrite Hdone, Z.leb_refl; done).
    eexists _, _. split; [done|]. split; [done|]. split; [done|]. split; [done|].
    rewrite Hd', <- Hst. f_equal. replace (size - total) with nw by lia. done.
  - assert (nw = sec - off) as Hdl3 by (unfold n in *; case_match; lia).
    destruct (IH context1 (total + nw) (lba + 1) 0)
      as ([st t2] & ctx2 & Hrun & -> & -> & Hok2 & Hst2); [done|lia..|].
    eexists _, _. split; [exact Hrun|]. split; [done|]. split; [done|]. split; [done|].
    rewrite Hd' in Hst2. replace ((lba + 1) * sec + 0) with (lba * sec + off + nw) in Hst2 by lia.
    replace (size - total) with (nw + (size - (total + nw))) by lia.
    rewrite slice_app by lia. rewrite <- store_app, slice_len by lia.
    by rewrite <- Hst2, Hst.
Qed.


Lemma nthZ_adapter_blocks context b :
  nthZ (adapter_blocks context) b =
    if (0 <=? b) && (b <? g_num_blocks info)
    then Some (slice (adapter_data context) (b * g_block_size info) (g_block_size info)) else None.
Proof.
  unfold nthZ, adapter_blocks. destruct (Z.leb_spec 0 b); [|done]. rewrite list_lookup_fmap. simpl.
  destruct (Z.ltb_spec b (g_num_blocks info)).
  - rewrite lookup_seqZ_lt by lia. simpl. do 2 f_equal. lia.
  - by rewrite lookup_seqZ_ge by lia.
Qed.

Lemma adapter_blocks_len context : len (adapter_blocks context) = g_num_blocks info.
Proof. unfold len, adapter_blocks. rewrite length_fmap, length_seqZ. lia. Qed.

(** The blocks of a context are determined by the data of the partition. *)
Lemma adapter_blocks_data context context' :
  adapter_data context' = adapter_data context -> adapter_blocks context' = adapter_blocks context.
Proof. unfold adapter_blocks. by intros ->. Qed.

(** Data stored inside a flash block change that block only. *)
Lemma adapter_blocks_store context context' b off d :
  adapter_ok context -> 0 <= b < g_num_blocks info -> 0 <= off -> off + len d <= g_block_size info ->
  store (adapter_data context) (b * g_block_size info + off) d = Some (adapter_data context') ->
  adapter_blocks context' = <[Z.to_nat b := patch (slice (adapter_data context) (b * g_block_size info)
    (g_block_size info)) off d]> (adapter_blocks context).
Proof.
  intros Hok Hb Ho Hd Hs. pose proof (adapter_data_len _ Hok) as (? & _). pose proof (len_nonneg d).
  apply list_eq_nthZ. intros i Hi. rewrite nthZ_block_insert, !nthZ_adapter_blocks by (rewrite ?adapter_blocks_len; lia).
  assert (0 <= b * g_block_size info /\ b * g_block_size info + g_block_size info <= g_num_blocks info * g_block_size info) by nia.
  destruct (Z.eqb_spec i b) as [->|Hne].
  - case_match; [|lia]. f_equal. eapply store_patch, store_slice; [lia..|done].
  - case_match; [|done]. f_equal. eapply slice_store_disjoint; [nia| |done]. nia.
Qed.

Lemma adapter_end b off :
  0 <= b < g_num_blocks info -> 0 <= off <= g_block_size info ->
  b * g_block_size info + off <= g_num_blocks info * g_block_size info.
Proof. intros. nia. Qed.

Lemma sub_block_start context b lba so :
  adapter_ok context -> calc_sub_block_pos context b 0 = Some (lba, so) -> 0 <= b < g_num_blocks info ->
  so = 0 /\ lba = b * blocks_per_flash_block context.
Proof.
  intros Hok Hc Hb. pose proof (sector_ok _ Hok) as (? & ?). destruct Hok as [Hi _ _ _].
  unfold calc_sub_block_pos in Hc. rewrite Hi in Hc. fold sec in Hc. rewrite Z.div_0_l, Z.mod_0_l in Hc by lia.
  case_match; [|done]. simplify_eq. split; [done|].
  assert (0 <= b * blocks_per_flash_block context <= 65536 * 65536) by nia.
  rewrite !wrap_small by (rewrite ?wrap_small; lia). lia.
Qed.

Lemma erased_block context context' b e :
  adapter_ok context -> 0 <= b < g_num_blocks info -> len e = g_block_size info ->
  store (adapter_data context) (b * g_block_size info) e = Some (adapter_data context') ->
  adapter_blocks context' = <[Z.to_nat b := e]> (adapter_blocks context).
Proof.
  intros Hok Hb He Hs. rewrite (adapter_blocks_store context context' b 0 e); rewrite ?Z.add_0_r; [|done|lia..|done].
  f_equal. unfold patch. rewrite take_0, Z.add_0_l, He. simpl. pose proof (adapter_data_len _ Hok).
  pose proof (slice_len (adapter_data context) (b * g_block_size info) (g_block_size info) ltac:(nia) ltac:(lia) ltac:(nia)).
  rewrite drop_ge, app_nil_r; [done|]. unfold len in *. lia.
Qed.

(** C40: over any lawful block store the adapter is a lawful flash: reads, writes and erases of
    flash blocks, whose pieces are transferred in units of the store's blocks, return, do not
    leave the partition and have the effect on the array of flash blocks that the file system
    relies on. *)
Theorem adapter_flash_laws : FlashLaws (adapter_info info) adapter_view.
Proof.
  split; cbn [adapter_info block_size num_blocks fi_init fi_read fi_write fi_flush fi_erase
    adapter_view fv_ok fv_blocks fv_erased]; try done.
  - intros d Hok. split; [apply adapter_blocks_len|]. pose proof (adapter_data_len _ Hok).
    apply Forall_fmap, Forall_forall. intros i Hi%elem_of_seqZ. cbn. apply slice_len; nia.
  - intros d Hok. pose proof Hok as [_ _ _ (c & Hs & _)]. unfold runs, sfs_flash_init. rewrite Hs. by eexists _, _.
  - intros d b buff off n x Hok Hx ???. rewrite nthZ_adapter_blocks in Hx. case_match; [|done]. simplify_eq.
    destruct (sub_block_pos d b off) as (lba & so & Hp & ? & ? & Hpos); [done|lia..|].
    pose proof (adapter_end b (off + n) ltac:(lia) ltac:(lia)).
    destruct (read_loop_runs (Z.to_nat n) d buff n 0 lba so) as ([[st b'] t] & d' & Hr & -> & -> & Hok' & Hd' & Hst);
      [done|lia..|].
    unfold runs, sfs_flash_read. rewrite Hp. cbn [mbind option_bind]. rewrite Hr. cbn [mbind option_bind].
    rewrite !Z.eqb_refl. eexists _, _. split; [done|]. split; [done|]. split; [|by split; [|apply adapter_blocks_data]].
    rewrite Hpos, Z.sub_0_r in Hst. rewrite <- slice_slice by nia. done.
  - intros d b buff off n x Hok Hx ??? _. rewrite nthZ_adapter_blocks in Hx. case_match; [|done]. simplify_eq.
    destruct (sub_block_pos d b off) as (lba & so & Hp & ? & ? & Hpos); [done|lia..|].
    pose proof (adapter_end b (off + n) ltac:(lia) ltac:(lia)).
    destruct (write_loop_runs (Z.to_nat n) d buff n 0 lba so) as ([st t] & d' & Hr & -> & -> & Hok' & Hst);
      [done|lia..|].
    unfold runs, sfs_flash_write. rewrite Hp. cbn [mbind option_bind]. rewrite Hr. cbn [mbind option_bind].
    rewrite !Z.eqb_refl. eexists _, _. split; [done|]. split; [done|]. split; [done|].
    rewrite Hpos, Z.sub_0_r in Hst. pose proof (slice_len buff 0 n ltac:(lia) ltac:(lia) ltac:(lia)) as Hsl.
    pose proof (adapter_data_len _ Hok). exists (patch (slice (adapter_data d) (b * g_block_size info) (g_block_size info)) off (slice buff 0 n)).
    split; [apply patch_store; rewrite ?slice_len by nia; lia|]. eapply adapter_blocks_store; [done|lia..|done].
  - intros d Hok. by apply runs_ret.
  - intros d b Hok Hb _. destruct (sub_block_pos d b 0) as (lba & so & Hp & ? & ? & Hpos); [done|lia..|].
    unfold runs, sfs_flash_erase. rewrite Hp. cbn [mbind option_bind].
    pose proof (sector_ok _ Hok) as (? & ?). pose proof (adapter_data_len _ Hok).
    pose proof Hok as [Hi Hh Hper (c & Hs & Hc & Ha & Hbs & Hn)].
    destruct (sub_block_start d b lba so) as [-> ->]; [done..|].
    rewrite Hs. cbn [mbind option_bind]. unfold block_store_erase. cbn [bs_interface bs_context mbind option_bind].
    destruct (law_erase (V := V) c (client_id d) (partition_handle d) (b * blocks_per_flash_block d) (blocks_per_flash_block d))
      as (st & c' & -> & Hcase); [done|done|lia..|].
    assert (b * blocks_per_flash_block d + blocks_per_flash_block d <= g_num_blocks info * blocks_per_flash_block d) by nia.
    destruct Hcase as [(-> & _ & _ & e & d' & He & Hst & Hx)|(_ & Hn' & _)]; [|exfalso; apply Hn'; split; [done|lia]].
    cbn [mbind option_bind]. rewrite Hbs in He, Hst. rewrite Z.min_l in He by lia.
    destruct (with_store_upd d c c' d' Hs Hok Hx) as [Hok' Hd'].
    eexists _, _. split; [done|]. split; [done|]. split; [done|]. exists e.
    assert (len e = g_block_size info) as Hle by lia. split; [done|]. split; [done|].
    apply erased_block; [done..|]. change (set_context _ c') with (BlockStore c' (Some I)). rewrite Hd', Hper, <- Hst.
    unfold adapter_data. rewrite Hs. cbn. f_equal. lia.
Qed.

End AdapterLaws.

(** The RAM block store under a flash of 4 blocks of 512 octets. *)
Lemma adapter_flash_laws_witness :
  FlashLaws (adapter_info (Geometry 128 512 4 512 10))
    (adapter_view ram_block_store_interface ram_view (Geometry 128 512 4 512 10)).
Proof. apply (adapter_flash_laws ram_block_store_interface ram_view); cbn; lia. Defined.
