(* ===== verification/SfsMblock.v ===== *)
(** * secure_flash_store/flash_fs/sfs_flash_fs_mblock.c: the metadata of the flash file system

    Two blocks hold metadata, one of them active: a header, a table of the logical data
    blocks and a table of files.  Every change is written to the other, the scratch
    metablock; writing its header makes it the active one.  The structures are stored as
    they are in memory, with their padding, which the records keep.  The code is that
    without SFS_VALIDATE_METADATA_FROM_FLASH, which nothing in the repository defines. *)
From S2P Require Import Prelude Status SfsFlash.

Definition SFS_SUPPORTED_VERSION : Z := 1.
Definition SFS_METADATA_INVALID_INDEX : Z := 65535.
Definition SFS_LOGICAL_DBLOCK0 : Z := 0.
Definition SFS_METADATA_BLOCK0 : Z := 0.
Definition SFS_METADATA_BLOCK1 : Z := 1.
Definition SFS_OTHER_META_BLOCK (metablock : Z) : Z :=
  if metablock =? SFS_METADATA_BLOCK0 then SFS_METADATA_BLOCK1 else SFS_METADATA_BLOCK0.

(** ** The structures and their octets *)
Record sfs_metadata_block_header_t := Header {
  scratch_dblock : Z; fs_version : Z; active_swap_count : Z; header_pad : bytes
}.

Record sfs_block_meta_t := BlockMeta {
  phy_id : Z; data_start : Z; free_size : Z; block_pad : bytes
}.

Record sfs_file_meta_t := FileMeta {
  lblock : Z; data_idx : Z; cur_size : Z; max_size : Z; fm_flags : Z; fm_id : bytes; file_pad : bytes
}.

Definition SFS_BLOCK_META_HEADER_SIZE : Z := 8.
Definition SFS_BLOCK_METADATA_SIZE : Z := 24.
Definition SFS_FILE_METADATA_SIZE : Z := 48.

Definition header_bytes (h : sfs_metadata_block_header_t) : bytes :=
  le_split 4 (scratch_dblock h) ++ le_split 1 (fs_version h) ++ le_split 1 (active_swap_count h) ++ header_pad h.
Definition header_of (b : bytes) : sfs_metadata_block_header_t :=
  Header (uint_at b 0 4) (uint_at b 4 1) (uint_at b 5 1) (slice b 6 2).

Definition block_meta_bytes (m : sfs_block_meta_t) : bytes :=
  le_split 4 (phy_id m) ++ block_pad m ++ le_split 8 (data_start m) ++ le_split 8 (free_size m).
Definition block_meta_of (b : bytes) : sfs_block_meta_t :=
  BlockMeta (uint_at b 0 4) (uint_at b 8 8) (uint_at b 16 8) (slice b 4 4).

Definition file_meta_bytes (m : sfs_file_meta_t) : bytes :=
  le_split 4 (lblock m) ++ file_pad m ++ le_split 8 (data_idx m) ++ le_split 8 (cur_size m) ++
  le_split 8 (max_size m) ++ le_split 4 (fm_flags m) ++ fm_id m.
Definition file_meta_of (b : bytes) : sfs_file_meta_t :=
  FileMeta (uint_at b 0 4) (uint_at b 8 8) (uint_at b 16 8) (uint_at b 24 8) (uint_at b 32 4)
    (slice b 36 12) (slice b 4 4).

Definition empty_block_meta : sfs_block_meta_t := BlockMeta 0 0 0 (fill 0 4).
Definition empty_file_meta : sfs_file_meta_t := FileMeta 0 0 0 0 0 (fill 0 12) (fill 0 4).

(** ** The context, with the flash it works on *)
Record sfs_flash_fs_ctx_t (F : Type) := FsCtx {
  meta_block_header : sfs_metadata_block_header_t;
  active_metablock : Z;
  scratch_metablock : Z;
  flash : F
}.
Arguments FsCtx {F}.
Arguments meta_block_header {F}.
Arguments active_metablock {F}.
Arguments scratch_metablock {F}.
Arguments flash {F}.

Section Mblock.
Context {F : Type} (info : sfs_flash_info_t F).
Abbreviation ctx := (sfs_flash_fs_ctx_t F).
Abbreviation fs := (SFS ctx).

(** Reading the context, and an operation of the flash. *)
Definition get {A} (f : ctx -> A) : fs A := fun c => Some (f c, c).
Definition on_flash {A} (m : SFS F A) : fs A := fun c =>
  '(x, d) ← m (flash c); Some (x, FsCtx (meta_block_header c) (active_metablock c) (scratch_metablock c) d).
Definition set_header (h : sfs_metadata_block_header_t) : fs unit := fun c =>
  Some (tt, FsCtx h (active_metablock c) (scratch_metablock c) (flash c)).
Definition set_metablocks (active scratch : Z) : fs unit := fun c =>
  Some (tt, FsCtx (meta_block_header c) active scratch (flash c)).

Definition sfs_init_scratch_dblock : Z := if num_blocks info =? 2 then 1 else 2.
Definition sfs_init_dblock_start : Z := if num_blocks info =? 2 then 0 else 3.
Definition sfs_num_dedicated_dblocks : Z :=
  if num_blocks info =? 2 then 0 else u32 (num_blocks info - sfs_init_dblock_start).
Definition sfs_num_active_dblocks : Z := u32 (sfs_num_dedicated_dblocks + 1).

(** The indices have 32 bits: the 64-bit sums do not wrap. *)
Definition sfs_mblock_block_meta_offset (lb : Z) : Z :=
  SFS_BLOCK_META_HEADER_SIZE + lb * SFS_BLOCK_METADATA_SIZE.
Definition sfs_mblock_file_meta_offset (idx : Z) : Z :=
  SFS_BLOCK_META_HEADER_SIZE + sfs_num_active_dblocks * SFS_BLOCK_METADATA_SIZE + idx * SFS_FILE_METADATA_SIZE.

Definition sfs_mblock_swap_metablocks : fs unit :=
  a ← get active_metablock; s ← get scratch_metablock; set_metablocks s a.

Definition sfs_mblock_latest_meta_block (h_meta0 h_meta1 : sfs_metadata_block_header_t) : Z :=
  let meta0_swap_count := active_swap_count h_meta0 in
  let meta1_swap_count := active_swap_count h_meta1 in
  if (meta1_swap_count =? 0) && negb (meta0_swap_count =? 1) then SFS_METADATA_BLOCK1
  else if (meta0_swap_count =? 0) && negb (meta1_swap_count =? 1) then SFS_METADATA_BLOCK0
  else if meta0_swap_count <? meta1_swap_count then SFS_METADATA_BLOCK1
  else SFS_METADATA_BLOCK0.

Definition sfs_mblock_validate_swap_count (swap_count : Z) : Z :=
  if swap_count =? erase_val info then PSA_ERROR_GENERIC_ERROR else PSA_SUCCESS.
Definition sfs_mblock_validate_fs_version (version : Z) : Z :=
  if negb (version =? SFS_SUPPORTED_VERSION) then PSA_ERROR_GENERIC_ERROR else PSA_SUCCESS.
Definition sfs_mblock_validate_header_meta (h_meta : sfs_metadata_block_header_t) : Z :=
  let err := sfs_mblock_validate_fs_version (fs_version h_meta) in
  if err =? PSA_SUCCESS then sfs_mblock_validate_swap_count (active_swap_count h_meta) else err.

(** ** Reading metadata

    The structure on the stack is overwritten when the read succeeds, and not used when it fails. *)
Definition sfs_flash_fs_mblock_read_file_meta (idx : Z) : fs (Z * sfs_file_meta_t) :=
  b ← get active_metablock;
  '(err, buff) ← on_flash (fi_read info b (fill 0 SFS_FILE_METADATA_SIZE)
    (sfs_mblock_file_meta_offset idx) SFS_FILE_METADATA_SIZE);
  mret (err, file_meta_of buff).

Definition sfs_flash_fs_mblock_read_block_metadata (lb : Z) : fs (Z * sfs_block_meta_t) :=
  b ← get active_metablock;
  '(err, buff) ← on_flash (fi_read info b (fill 0 SFS_BLOCK_METADATA_SIZE)
    (sfs_mblock_block_meta_offset lb) SFS_BLOCK_METADATA_SIZE);
  mret (err, block_meta_of buff).

(** A header on the stack, and that of the context: its octets are where they are read to. *)
Definition read_header (b : Z) (old : bytes) : fs (Z * sfs_metadata_block_header_t) :=
  '(err, buff) ← on_flash (fi_read info b old 0 SFS_BLOCK_META_HEADER_SIZE);
  mret (err, header_of buff).

Definition sfs_mblock_read_meta_header : fs Z :=
  b ← get active_metablock; h ← get meta_block_header;
  '(err, h) ← read_header b (header_bytes h);
  set_header h;;
  if negb (err =? PSA_SUCCESS) then mret err else mret (sfs_mblock_validate_header_meta h).

(** The [n] entries from [i] on. *)
Fixpoint free_index_loop (n : nat) (i : Z) : fs Z :=
  match n with
  | O => mret SFS_METADATA_INVALID_INDEX
  | S n =>
      '(err, tmp_metadata) ← sfs_flash_fs_mblock_read_file_meta i;
      if negb (err =? PSA_SUCCESS) then mret SFS_METADATA_INVALID_INDEX
      else if negb (sfs_utils_validate_fid (fm_id tmp_metadata) =? PSA_SUCCESS) then mret i
      else free_index_loop n (i + 1)
  end.
Definition sfs_get_free_file_index : fs Z := free_index_loop (Z.to_nat (max_num_files info)) 0.

Fixpoint file_idx_loop (n : nat) (fid : bytes) (i : Z) : fs (Z * Z) :=
  match n with
  | O => mret (PSA_ERROR_DOES_NOT_EXIST, 0)
  | S n =>
      '(err, tmp_metadata) ← sfs_flash_fs_mblock_read_file_meta i;
      if negb (err =? PSA_SUCCESS) then mret (PSA_ERROR_GENERIC_ERROR, 0)
      else if bytes_eqb (fm_id tmp_metadata) fid then mret (PSA_SUCCESS, i)
      else file_idx_loop n fid (i + 1)
  end.
Definition sfs_flash_fs_mblock_get_file_idx (fid : bytes) : fs (Z * Z) :=
  file_idx_loop (Z.to_nat (max_num_files info)) fid 0.

(** ** Writing metadata to the scratch block *)
Definition sfs_flash_fs_mblock_cur_data_scratch_id (lb : Z) : fs Z :=
  if lb =? SFS_LOGICAL_DBLOCK0 then get scratch_metablock
  else h ← get meta_block_header; mret (scratch_dblock h).

Definition sfs_flash_fs_mblock_set_data_scratch (phy lb : Z) : fs unit :=
  if negb (lb =? SFS_LOGICAL_DBLOCK0) then
    h ← get meta_block_header;
    set_header (Header phy (fs_version h) (active_swap_count h) (header_pad h))
  else mret tt.

Definition sfs_mblock_erase_scratch_blocks : fs Z :=
  s ← get scratch_metablock;
  err ← on_flash (fi_erase info s);
  if negb (err =? PSA_SUCCESS) then mret err
  else if 2 <? num_blocks info then
    scratch_datablock ← sfs_flash_fs_mblock_cur_data_scratch_id (SFS_LOGICAL_DBLOCK0 + 1);
    on_flash (fi_erase info scratch_datablock)
  else mret err.

Definition sfs_mblock_update_scratch_block_meta (lb : Z) (block_meta : sfs_block_meta_t) : fs Z :=
  s ← get scratch_metablock;
  on_flash (fi_write info s (block_meta_bytes block_meta) (sfs_mblock_block_meta_offset lb) SFS_BLOCK_METADATA_SIZE).

Definition move (dst dst_offset src src_offset size : Z) : fs Z :=
  on_flash (sfs_flash_block_to_block_move info dst dst_offset src src_offset size).

Definition sfs_mblock_copy_remaining_block_meta (lb : Z) : fs Z :=
  scratch_block ← get scratch_metablock;
  meta_block ← get active_metablock;
  let rest : fs Z :=
    let pos := sfs_mblock_block_meta_offset (u32 (lb + 1)) in
    move scratch_block pos meta_block pos (u64 (sfs_mblock_file_meta_offset 0 - pos)) in
  if negb (lb =? SFS_LOGICAL_DBLOCK0) then
    '(err, block_meta) ← sfs_flash_fs_mblock_read_block_metadata SFS_LOGICAL_DBLOCK0;
    if negb (err =? PSA_SUCCESS) then mret PSA_ERROR_GENERIC_ERROR
    else
      check! sfs_mblock_update_scratch_block_meta SFS_LOGICAL_DBLOCK0
        (BlockMeta scratch_block (data_start block_meta) (free_size block_meta) (block_pad block_meta))
        else PSA_ERROR_GENERIC_ERROR;;
      if 1 <? lb then
        let pos := sfs_mblock_block_meta_offset (SFS_LOGICAL_DBLOCK0 + 1) in
        check! move scratch_block pos meta_block pos (u64 (sfs_mblock_block_meta_offset lb - pos));;
        rest
      else rest
  else rest.

(** The block metadata is changed in place when it is that of logical block 0. *)
Definition sfs_flash_fs_mblock_update_scratch_block_meta (lb : Z) (block_meta : sfs_block_meta_t) : fs Z :=
  s ← get scratch_metablock;
  let block_meta :=
    if lb =? SFS_LOGICAL_DBLOCK0
    then BlockMeta s (data_start block_meta) (free_size block_meta) (block_pad block_meta) else block_meta in
  check! sfs_mblock_update_scratch_block_meta lb block_meta else PSA_ERROR_GENERIC_ERROR;;
  sfs_mblock_copy_remaining_block_meta lb.

Definition sfs_flash_fs_mblock_update_scratch_file_meta (idx : Z) (file_meta : sfs_file_meta_t) : fs Z :=
  s ← get scratch_metablock;
  on_flash (fi_write info s (file_meta_bytes file_meta) (sfs_mblock_file_meta_offset idx) SFS_FILE_METADATA_SIZE).

Definition sfs_flash_fs_mblock_cp_remaining_file_meta (idx : Z) : fs Z :=
  scratch_block ← get scratch_metablock;
  meta_block ← get active_metablock;
  let pos := sfs_mblock_file_meta_offset 0 in
  check! move scratch_block pos meta_block pos (idx * SFS_FILE_METADATA_SIZE);;
  let pos := sfs_mblock_file_meta_offset (u32 (idx + 1)) in
  let last := sfs_mblock_file_meta_offset (max_num_files info) in
  if pos <? last then move scratch_block pos meta_block pos (last - pos) else mret PSA_SUCCESS.

Definition sfs_mblock_write_scratch_meta_header : fs Z :=
  h ← get meta_block_header;
  let count := u8 (active_swap_count h + 1) in
  let count := if negb (sfs_mblock_validate_swap_count count =? PSA_SUCCESS) then 0 else count in
  let h := Header (scratch_dblock h) (fs_version h) count (header_pad h) in
  set_header h;;
  s ← get scratch_metablock;
  on_flash (fi_write info s (header_bytes h) 0 SFS_BLOCK_META_HEADER_SIZE).

Definition sfs_flash_fs_mblock_migrate_lb0_data_to_scratch : fs Z :=
  '(err, block_meta) ← sfs_flash_fs_mblock_read_block_metadata SFS_LOGICAL_DBLOCK0;
  if negb (err =? PSA_SUCCESS) then mret err
  else
    let data_size := u64 (u64 (block_size info - data_start block_meta) - free_size block_meta) in
    s ← get scratch_metablock; a ← get active_metablock;
    move s (data_start block_meta) a (data_start block_meta) data_size.

Definition sfs_flash_fs_mblock_meta_update_finalize : fs Z :=
  check! sfs_mblock_write_scratch_meta_header;;
  check! on_flash (fi_flush info);;
  sfs_mblock_swap_metablocks;;
  sfs_mblock_erase_scratch_blocks.

(** ** Reserving space *)
Fixpoint reserve_loop (n : nat) (fid : bytes) (size flags i : Z) (file_meta : sfs_file_meta_t)
    (block_meta : sfs_block_meta_t) : fs (Z * sfs_file_meta_t * sfs_block_meta_t) :=
  match n with
  | O => mret (PSA_ERROR_INSUFFICIENT_STORAGE, file_meta, block_meta)
  | S n =>
      '(err, block_meta) ← sfs_flash_fs_mblock_read_block_metadata i;
      if negb (err =? PSA_SUCCESS) then mret (PSA_ERROR_GENERIC_ERROR, file_meta, block_meta)
      else if size <=? free_size block_meta then
        mret (PSA_SUCCESS,
          FileMeta i (u64 (block_size info - free_size block_meta)) 0 size flags fid (file_pad file_meta),
          BlockMeta (phy_id block_meta) (data_start block_meta) (free_size block_meta - size) (block_pad block_meta))
      else reserve_loop n fid size flags (i + 1) file_meta block_meta
  end.
Definition sfs_mblock_reserve_file (fid : bytes) (size flags : Z) (file_meta : sfs_file_meta_t)
    (block_meta : sfs_block_meta_t) : fs (Z * sfs_file_meta_t * sfs_block_meta_t) :=
  reserve_loop (Z.to_nat sfs_num_active_dblocks) fid size flags 0 file_meta block_meta.

Definition sfs_flash_fs_mblock_reserve_file (fid : bytes) (size flags : Z) (file_meta : sfs_file_meta_t)
    (block_meta : sfs_block_meta_t) : fs (Z * Z * sfs_file_meta_t * sfs_block_meta_t) :=
  '(err, file_meta, block_meta) ← sfs_mblock_reserve_file fid size flags file_meta block_meta;
  idx ← sfs_get_free_file_index;
  mret ((if negb (err =? PSA_SUCCESS) || (idx =? SFS_METADATA_INVALID_INDEX)
         then PSA_ERROR_INSUFFICIENT_STORAGE else PSA_SUCCESS), idx, file_meta, block_meta).

(** ** Initialisation and reset *)
Definition sfs_init_get_active_metablock : fs Z :=
  '(err, h_meta0) ← read_header SFS_METADATA_BLOCK0 (fill 0 SFS_BLOCK_META_HEADER_SIZE);
  let valid0 := (err =? PSA_SUCCESS) && (sfs_mblock_validate_header_meta h_meta0 =? PSA_SUCCESS) in
  '(err, h_meta1) ← read_header SFS_METADATA_BLOCK1 (fill 0 SFS_BLOCK_META_HEADER_SIZE);
  let valid1 := (err =? PSA_SUCCESS) && (sfs_mblock_validate_header_meta h_meta1 =? PSA_SUCCESS) in
  if negb (valid0 || valid1) then mret PSA_ERROR_GENERIC_ERROR
  else
    let cur_meta_block :=
      if valid0 && valid1 then sfs_mblock_latest_meta_block h_meta0 h_meta1
      else if valid1 then SFS_METADATA_BLOCK1 else SFS_METADATA_BLOCK0 in
    set_metablocks cur_meta_block (SFS_OTHER_META_BLOCK cur_meta_block);;
    mret PSA_SUCCESS.

Definition sfs_flash_fs_mblock_init : fs Z :=
  check! on_flash (fi_init info);;
  check! sfs_init_get_active_metablock else PSA_ERROR_GENERIC_ERROR;;
  check! sfs_mblock_read_meta_header else PSA_ERROR_GENERIC_ERROR;;
  sfs_mblock_erase_scratch_blocks.

(** The loops of the reset: erasing the data blocks, whatever fails; their metadata; the files. *)
Fixpoint erase_dblocks_loop (n : nat) (i err : Z) : fs Z :=
  match n with
  | O => mret err
  | S n =>
      e ← on_flash (fi_erase info (u32 (i + sfs_init_dblock_start)));
      erase_dblocks_loop n (i + 1) (Z.lor err e)
  end.

Fixpoint reset_block_meta_loop (n : nat) (i : Z) (block_meta : sfs_block_meta_t) : fs Z :=
  match n with
  | O => mret PSA_SUCCESS
  | S n =>
      let block_meta := BlockMeta (u32 (i + sfs_init_dblock_start)) (data_start block_meta)
        (free_size block_meta) (block_pad block_meta) in
      check! sfs_mblock_update_scratch_block_meta (u32 (i + 1)) block_meta else PSA_ERROR_GENERIC_ERROR;;
      reset_block_meta_loop n (i + 1) block_meta
  end.

Fixpoint reset_file_meta_loop (n : nat) (i : Z) : fs Z :=
  match n with
  | O => mret PSA_SUCCESS
  | S n =>
      check! sfs_flash_fs_mblock_update_scratch_file_meta i (file_meta_of (fill SFS_DEFAULT_EMPTY_BUFF_VAL SFS_FILE_METADATA_SIZE))
        else PSA_ERROR_GENERIC_ERROR;;
      reset_file_meta_loop n (i + 1)
  end.

Definition sfs_flash_fs_mblock_reset_metablock : fs Z :=
  err ← sfs_init_get_active_metablock;
  scratch ← get scratch_metablock;
  let metablock_to_erase_first := if err =? PSA_SUCCESS then scratch else SFS_METADATA_BLOCK0 in
  check! on_flash (fi_erase info metablock_to_erase_first);;
  check! on_flash (fi_erase info (SFS_OTHER_META_BLOCK metablock_to_erase_first));;
  h ← get meta_block_header;
  set_header (Header sfs_init_scratch_dblock SFS_SUPPORTED_VERSION 0 (header_pad h));;
  set_metablocks SFS_METADATA_BLOCK0 SFS_METADATA_BLOCK1;;
  let start := sfs_mblock_file_meta_offset (max_num_files info) in
  check! sfs_mblock_update_scratch_block_meta SFS_LOGICAL_DBLOCK0
    (BlockMeta SFS_METADATA_BLOCK0 start (u64 (block_size info - start)) (block_pad empty_block_meta));;
  check! erase_dblocks_loop (Z.to_nat sfs_num_dedicated_dblocks) 0 PSA_SUCCESS else PSA_ERROR_STORAGE_FAILURE;;
  check! reset_block_meta_loop (Z.to_nat sfs_num_dedicated_dblocks) 0
    (BlockMeta SFS_METADATA_BLOCK0 0 (block_size info) (block_pad empty_block_meta));;
  check! reset_file_meta_loop (Z.to_nat (max_num_files info)) 0;;
  check! sfs_mblock_write_scratch_meta_header else PSA_ERROR_GENERIC_ERROR;;
  check! on_flash (fi_flush info);;
  sfs_mblock_swap_metablocks;;
  mret PSA_SUCCESS.

End Mblock.
