(* ===== verification/SfsFs.v ===== *)
(** * secure_flash_store/flash_fs: data blocks and the flash file system

    sfs_flash_fs_dblock.c and sfs_flash_fs.c.  A change of a file writes the data block it is
    in to the scratch data block, the metadata to the scratch metablock, and commits with the
    header.  SFS_FLASH_MAX_ALIGNMENT is 1: the code for larger program units is left out. *)
From S2P Require Import Prelude Status SfsFlash SfsMblock.

Record sfs_file_info_t := FileInfo { size_current : Z; size_max : Z; fi_flags : Z }.

Definition SFS_FLASH_FS_INIT_FILE : Z := 0.

Section Fs.
Context {F : Type} (info : sfs_flash_info_t F).
Abbreviation fs := (SFS (sfs_flash_fs_ctx_t F)).

(** ** sfs_flash_fs_dblock.c *)
Definition sfs_dblock_lo_to_phy (lb : Z) : fs Z :=
  '(err, block_meta) ← sfs_flash_fs_mblock_read_block_metadata info lb;
  mret (if negb (err =? PSA_SUCCESS) then SFS_BLOCK_INVALID_ID else phy_id block_meta).

(** The last part of the compaction, with the metadata of the block as changed so far. *)
Definition compact_finish (lb scratch_id : Z) (block_meta : sfs_block_meta_t) : fs Z :=
  sfs_flash_fs_mblock_set_data_scratch (phy_id block_meta) lb;;
  err ← sfs_flash_fs_mblock_update_scratch_block_meta info lb
    (BlockMeta scratch_id (data_start block_meta) (free_size block_meta) (block_pad block_meta));
  if negb (err =? PSA_SUCCESS) then
    sfs_flash_fs_mblock_set_data_scratch scratch_id lb;; mret err
  else if negb (lb =? SFS_LOGICAL_DBLOCK0) then on_flash (fi_flush info)
  else mret err.

Definition sfs_flash_fs_dblock_compact_block (lb free src_offset dst_offset size : Z) : fs Z :=
  '(err, block_meta) ← sfs_flash_fs_mblock_read_block_metadata info lb;
  if negb (err =? PSA_SUCCESS) then mret err
  else
    let block_meta := BlockMeta (phy_id block_meta) (data_start block_meta)
      (u64 (free_size block_meta + free)) (block_pad block_meta) in
    scratch_id ← sfs_flash_fs_mblock_cur_data_scratch_id lb;
    check! (if 0 <? size then move info scratch_id dst_offset (phy_id block_meta) src_offset size
            else mret PSA_SUCCESS) else PSA_ERROR_GENERIC_ERROR;;
    check! (if data_start block_meta <? dst_offset then
              move info scratch_id (data_start block_meta) (phy_id block_meta) (data_start block_meta)
                (dst_offset - data_start block_meta)
            else mret PSA_SUCCESS) else PSA_ERROR_GENERIC_ERROR;;
    compact_finish lb scratch_id block_meta.

Definition sfs_flash_fs_dblock_read_file (file_meta : sfs_file_meta_t) (offset size : Z) (buf : bytes)
    : fs (Z * bytes) :=
  phys_block ← sfs_dblock_lo_to_phy (lblock file_meta);
  if phys_block =? SFS_BLOCK_INVALID_ID then mret (PSA_ERROR_GENERIC_ERROR, buf)
  else on_flash (fi_read info phys_block buf (u64 (data_idx file_meta + offset)) size).

Definition sfs_flash_fs_dblock_write_file (block_meta : sfs_block_meta_t) (file_meta : sfs_file_meta_t)
    (offset size : Z) (data : bytes) : fs Z :=
  scratch_id ← sfs_flash_fs_mblock_cur_data_scratch_id (lblock file_meta);
  let pos := u64 (data_idx file_meta + offset) in
  check! move info scratch_id (data_start block_meta) (phy_id block_meta) (data_start block_meta)
    (u64 (pos - data_start block_meta));;
  check! on_flash (fi_write info scratch_id data pos size);;
  let pos := u64 (data_idx file_meta + max_size file_meta) in
  let num_bytes := u64 (u64 (block_size info - free_size block_meta) - pos) in
  check! move info scratch_id pos (phy_id block_meta) pos num_bytes;;
  if negb (lblock file_meta =? SFS_LOGICAL_DBLOCK0) then on_flash (fi_flush info)
  else mret PSA_SUCCESS.

(** ** sfs_flash_fs.c *)
Definition sfs_flash_fs_file_write_aligned_data (block_meta : sfs_block_meta_t) (file_meta : sfs_file_meta_t)
    (offset size : Z) (data : bytes) : fs Z :=
  if cur_size file_meta <? offset then mret PSA_ERROR_INVALID_ARGUMENT
  else if negb (sfs_utils_check_contained_in (max_size file_meta) offset size =? PSA_SUCCESS)
  then mret PSA_ERROR_INVALID_ARGUMENT
  else sfs_flash_fs_dblock_write_file block_meta file_meta offset size data.

(** The context keeps [info], which is an argument here. *)
Definition sfs_flash_fs_prepare : fs Z := sfs_flash_fs_mblock_init info.

Definition sfs_flash_fs_wipe_all : fs Z := sfs_flash_fs_mblock_reset_metablock info.

Definition sfs_flash_fs_file_exist (fid : bytes) : fs Z :=
  '(err, _) ← sfs_flash_fs_mblock_get_file_idx info fid;
  mret (if negb (err =? PSA_SUCCESS) then PSA_ERROR_DOES_NOT_EXIST else PSA_SUCCESS).

(** The metadata of a changed file is written, that of the others copied. *)
Definition update_file_meta (idx : Z) (file_meta : sfs_file_meta_t) (k : fs Z) : fs Z :=
  check! sfs_flash_fs_mblock_update_scratch_file_meta info idx file_meta else PSA_ERROR_GENERIC_ERROR;;
  check! sfs_flash_fs_mblock_cp_remaining_file_meta info idx else PSA_ERROR_GENERIC_ERROR;;
  k.

(** The data of logical block 0 follow the metadata, unless they are already there. *)
Definition migrate_and_finalize (migrate : bool) : fs Z :=
  check! (if migrate then sfs_flash_fs_mblock_migrate_lb0_data_to_scratch info else mret PSA_SUCCESS)
    else PSA_ERROR_GENERIC_ERROR;;
  sfs_flash_fs_mblock_meta_update_finalize info.

(** The scratch data block becomes the data block. *)
Definition swap_data_block (block_meta : sfs_block_meta_t) (lb : Z) : fs sfs_block_meta_t :=
  scratch ← sfs_flash_fs_mblock_cur_data_scratch_id lb;
  sfs_flash_fs_mblock_set_data_scratch (phy_id block_meta) lb;;
  mret (BlockMeta scratch (data_start block_meta) (free_size block_meta) (block_pad block_meta)).

Definition sfs_flash_fs_file_create (fid : bytes) (max data_size flags : Z) (data : bytes) : fs Z :=
  if max_file_size info <? max then mret PSA_ERROR_INSUFFICIENT_STORAGE
  else
    '(err, _) ← sfs_flash_fs_mblock_get_file_idx info fid;
    if err =? PSA_SUCCESS then mret PSA_ERROR_INVALID_ARGUMENT
    else
      '(err, idx, file_meta, block_meta) ←
        sfs_flash_fs_mblock_reserve_file info fid max flags empty_file_meta empty_block_meta;
      if negb (err =? PSA_SUCCESS) then mret err
      else
        let finish (file_meta : sfs_file_meta_t) (block_meta : sfs_block_meta_t) : fs Z :=
          check! sfs_flash_fs_mblock_update_scratch_block_meta info (lblock file_meta) block_meta
            else PSA_ERROR_GENERIC_ERROR;;
          update_file_meta idx file_meta
            (migrate_and_finalize (negb (lblock file_meta =? SFS_LOGICAL_DBLOCK0) || (data_size =? 0))) in
        if negb (data_size =? 0) then
          check! sfs_flash_fs_file_write_aligned_data block_meta file_meta SFS_FLASH_FS_INIT_FILE data_size data
            else PSA_ERROR_GENERIC_ERROR;;
          block_meta ← swap_data_block block_meta (lblock file_meta);
          finish (FileMeta (lblock file_meta) (data_idx file_meta) data_size (max_size file_meta)
            (fm_flags file_meta) (fm_id file_meta) (file_pad file_meta)) block_meta
        else finish file_meta block_meta.

Definition sfs_flash_fs_file_get_info (fid : bytes) (i : sfs_file_info_t) : fs (Z * sfs_file_info_t) :=
  '(err, idx) ← sfs_flash_fs_mblock_get_file_idx info fid;
  if negb (err =? PSA_SUCCESS) then mret (PSA_ERROR_DOES_NOT_EXIST, i)
  else
    '(err, tmp_metadata) ← sfs_flash_fs_mblock_read_file_meta info idx;
    if negb (err =? PSA_SUCCESS) then mret (err, i)
    else if negb (bytes_eqb fid (fm_id tmp_metadata)) then mret (PSA_ERROR_DOES_NOT_EXIST, i)
    else mret (PSA_SUCCESS, FileInfo (cur_size tmp_metadata) (max_size tmp_metadata) (fm_flags tmp_metadata)).

Definition sfs_flash_fs_file_write (fid : bytes) (size offset : Z) (data : bytes) : fs Z :=
  '(err, idx) ← sfs_flash_fs_mblock_get_file_idx info fid;
  if negb (err =? PSA_SUCCESS) then mret PSA_ERROR_DOES_NOT_EXIST
  else
    '(err, file_meta) ← sfs_flash_fs_mblock_read_file_meta info idx;
    if negb (err =? PSA_SUCCESS) then mret PSA_ERROR_DOES_NOT_EXIST
    else
      '(err, block_meta) ← sfs_flash_fs_mblock_read_block_metadata info (lblock file_meta);
      if negb (err =? PSA_SUCCESS) then mret PSA_ERROR_GENERIC_ERROR
      else
        check! sfs_flash_fs_file_write_aligned_data block_meta file_meta offset size data
          else PSA_ERROR_GENERIC_ERROR;;
        let cur := if cur_size file_meta <? u64 (offset + size) then u64 (offset + size)
                   else cur_size file_meta in
        let file_meta := FileMeta (lblock file_meta) (data_idx file_meta) cur (max_size file_meta)
          (fm_flags file_meta) (fm_id file_meta) (file_pad file_meta) in
        block_meta ← swap_data_block block_meta (lblock file_meta);
        check! sfs_flash_fs_mblock_update_scratch_block_meta info (lblock file_meta) block_meta
          else PSA_ERROR_GENERIC_ERROR;;
        update_file_meta idx file_meta
          (migrate_and_finalize (negb (lblock file_meta =? SFS_LOGICAL_DBLOCK0))).

(** The loop over the [n] files from [idx] on: those behind the deleted one in its block are
    moved up. *)
Fixpoint delete_loop (n : nat) (idx del_file_idx del_file_lblock del_file_data_idx del_file_max_size
    src_offset nbr_bytes_to_move : Z) : fs (Z * Z * Z) :=
  match n with
  | O => mret (PSA_SUCCESS, src_offset, nbr_bytes_to_move)
  | S n =>
      let next := delete_loop n (idx + 1) del_file_idx del_file_lblock del_file_data_idx del_file_max_size in
      if idx =? del_file_idx then next src_offset nbr_bytes_to_move
      else
        '(err, file_meta) ← sfs_flash_fs_mblock_read_file_meta info idx;
        if negb (err =? PSA_SUCCESS) then mret (err, src_offset, nbr_bytes_to_move)
        else
          let moved := (lblock file_meta =? del_file_lblock) &&
            (sfs_utils_validate_fid (fm_id file_meta) =? PSA_SUCCESS) &&
            (del_file_data_idx <? data_idx file_meta) in
          let src_offset := if moved && (data_idx file_meta <? src_offset) then data_idx file_meta else src_offset in
          let nbr_bytes_to_move :=
            if moved then u64 (nbr_bytes_to_move + max_size file_meta) else nbr_bytes_to_move in
          let file_meta :=
            if moved then FileMeta (lblock file_meta) (u64 (data_idx file_meta - del_file_max_size))
              (cur_size file_meta) (max_size file_meta) (fm_flags file_meta) (fm_id file_meta) (file_pad file_meta)
            else file_meta in
          err ← sfs_flash_fs_mblock_update_scratch_file_meta info idx file_meta;
          if negb (err =? PSA_SUCCESS) then mret (err, src_offset, nbr_bytes_to_move)
          else next src_offset nbr_bytes_to_move
  end.

Definition sfs_flash_fs_file_delete (fid : bytes) : fs Z :=
  '(err, del_file_idx) ← sfs_flash_fs_mblock_get_file_idx info fid;
  if negb (err =? PSA_SUCCESS) then mret PSA_ERROR_DOES_NOT_EXIST
  else
    '(err, file_meta) ← sfs_flash_fs_mblock_read_file_meta info del_file_idx;
    if negb (err =? PSA_SUCCESS) then mret err
    else if negb (sfs_utils_validate_fid (fm_id file_meta) =? PSA_SUCCESS) then mret PSA_ERROR_DOES_NOT_EXIST
    else
      check! sfs_flash_fs_mblock_update_scratch_file_meta info del_file_idx empty_file_meta;;
      '(err, src_offset, nbr_bytes_to_move) ← delete_loop (Z.to_nat (max_num_files info)) 0 del_file_idx
        (lblock file_meta) (data_idx file_meta) (max_size file_meta) (block_size info) 0;
      if negb (err =? PSA_SUCCESS) then mret err
      else
        check! sfs_flash_fs_dblock_compact_block (lblock file_meta) (max_size file_meta) src_offset
          (data_idx file_meta) nbr_bytes_to_move;;
        migrate_and_finalize (negb (lblock file_meta =? SFS_LOGICAL_DBLOCK0)).

Definition sfs_flash_fs_file_read (fid : bytes) (size offset : Z) (data : bytes) : fs (Z * bytes) :=
  '(err, idx) ← sfs_flash_fs_mblock_get_file_idx info fid;
  if negb (err =? PSA_SUCCESS) then mret (PSA_ERROR_DOES_NOT_EXIST, data)
  else
    '(err, tmp_metadata) ← sfs_flash_fs_mblock_read_file_meta info idx;
    if negb (err =? PSA_SUCCESS) then mret (PSA_ERROR_GENERIC_ERROR, data)
    else if negb (bytes_eqb fid (fm_id tmp_metadata)) then mret (PSA_ERROR_DOES_NOT_EXIST, data)
    else
      let err := sfs_utils_check_contained_in (cur_size tmp_metadata) offset size in
      if negb (err =? PSA_SUCCESS) then mret (err, data)
      else
        '(err, data) ← sfs_flash_fs_dblock_read_file tmp_metadata offset size data;
        mret (if negb (err =? PSA_SUCCESS) then PSA_ERROR_GENERIC_ERROR else PSA_SUCCESS, data).

End Fs.
