(* ===== verification/SecureFlashStore.v ===== *)
(** * secure_flash_store/secure_flash_store.c: the storage backend over the flash file system

    The static buffer [asset_data] is part of the state, with the context of the file system;
    [g_fid] and [g_file_info] are written before they are read in every operation and are
    local here.  [p_data] is the memory a pointer points to, as in [StorageBackend]. *)
From S2P Require Import Prelude Status StorageBackend SfsFlash SfsMblock SfsFs.

Definition SFS_INVALID_UID : Z := 0.
Definition PSA_STORAGE_FLAG_NO_CONFIDENTIALITY : Z := Z.shiftl 1 1.
Definition PSA_STORAGE_FLAG_NO_REPLAY_PROTECTION : Z := Z.shiftl 1 2.

Definition sfs_get_fid (client_id uid : Z) : bytes := le_split 4 client_id ++ le_split 8 uid.

Section Store.
Context {F : Type} (info : sfs_flash_info_t F).

Record sfs_state := SfsState {
  fs_ctx_sfs : sfs_flash_fs_ctx_t F;
  asset_data : bytes
}.

(** sizeof(asset_data) *)
Definition asset_data_size : Z := SFS_UTILS_ALIGN SFS_MAX_ASSET_SIZE SFS_FLASH_ALIGNMENT.

Definition on_fs {A} (m : SFS (sfs_flash_fs_ctx_t F) A) : SFS sfs_state A := fun s =>
  '(x, c) ← m (fs_ctx_sfs s); Some (x, SfsState c (asset_data s)).

(** memcpy(asset_data, data, n) *)
Definition copy_asset (data : option bytes) (n : Z) : SFS sfs_state unit := fun s =>
  d ← copy_in data n; a ← store (asset_data s) 0 d; Some (tt, SfsState (fs_ctx_sfs s) a).

Definition get_asset : SFS sfs_state bytes := fun s => Some (asset_data s, s).
Definition set_asset (a : bytes) : SFS sfs_state unit := fun s => Some (tt, SfsState (fs_ctx_sfs s) a).

(** memcpy(data, asset_data, n) *)
Definition copy_to_caller (data : option bytes) (n : Z) : SFS sfs_state (option bytes) := fun s =>
  d ← load (asset_data s) 0 n; p ← copy_out data d; Some (p, s).

(** A pointer advanced by [n] octets. *)
Definition advance (p : option bytes) (n : Z) : option bytes := drop (Z.to_nat n) <$> p.

(** Every round writes at least one octet: [data_length] rounds are enough. *)
Fixpoint set_loop (fuel : nat) (fid : bytes) (offset data_length : Z) (data : option bytes) : SFS sfs_state Z :=
  if data_length <=? 0 then mret PSA_SUCCESS
  else match fuel with
  | O => fault
  | S fuel =>
      let write_size := SFS_UTILS_MIN data_length asset_data_size in
      copy_asset data write_size;;
      a ← get_asset;
      status ← on_fs (sfs_flash_fs_file_write info fid write_size offset a);
      if negb (status =? PSA_SUCCESS) then
        on_fs (sfs_flash_fs_file_delete info fid);; mret status
      else set_loop fuel fid (offset + write_size) (data_length - write_size) (advance data write_size)
  end.

Definition set_new (fid : bytes) (data_length create_flags : Z) (p_data : option bytes) : SFS sfs_state Z :=
  let write_size := SFS_UTILS_MIN data_length asset_data_size in
  copy_asset p_data write_size;;
  a ← get_asset;
  check! on_fs (sfs_flash_fs_file_create info fid data_length write_size create_flags a);;
  set_loop (Z.to_nat data_length) fid write_size (data_length - write_size) (advance p_data write_size).

Definition no_info : sfs_file_info_t := FileInfo 0 0 0.

Definition sfs_set (client_id uid data_length : Z) (p_data : option bytes) (create_flags : Z) : SFS sfs_state Z :=
  if uid =? SFS_INVALID_UID then mret PSA_ERROR_INVALID_ARGUMENT
  else if negb (Z.land create_flags (Z.lnot (Z.lor (Z.lor PSA_STORAGE_FLAG_WRITE_ONCE
    PSA_STORAGE_FLAG_NO_CONFIDENTIALITY) PSA_STORAGE_FLAG_NO_REPLAY_PROTECTION)) =? 0)
  then mret PSA_ERROR_NOT_SUPPORTED
  else
    let fid := sfs_get_fid client_id uid in
    '(status, file_info) ← on_fs (sfs_flash_fs_file_get_info info fid no_info);
    if status =? PSA_SUCCESS then
      if negb (Z.land (fi_flags file_info) PSA_STORAGE_FLAG_WRITE_ONCE =? 0) then mret PSA_ERROR_NOT_PERMITTED
      else
        check! on_fs (sfs_flash_fs_file_delete info fid);;
        set_new fid data_length create_flags p_data
    else if negb (status =? PSA_ERROR_DOES_NOT_EXIST) then mret status
    else set_new fid data_length create_flags p_data.

(** The body runs at least once; it returns the memory from [data] on. *)
Fixpoint get_loop (fuel : nat) (fid : bytes) (data_offset data_size : Z) (data : option bytes)
    : SFS sfs_state (Z * option bytes) :=
  match fuel with
  | O => fault
  | S fuel =>
      let read_size := SFS_UTILS_MIN data_size asset_data_size in
      a ← get_asset;
      '(status, a) ← on_fs (sfs_flash_fs_file_read info fid read_size data_offset a);
      set_asset a;;
      if negb (status =? PSA_SUCCESS) then mret (status, data)
      else
        data ← copy_to_caller data read_size;
        if 0 <? data_size - read_size then
          '(status, rest) ← get_loop fuel fid (data_offset + read_size) (data_size - read_size) (advance data read_size);
          mret (status, p ← data; r ← rest; Some (take (Z.to_nat read_size) p ++ r))
        else mret (PSA_SUCCESS, data)
  end.

Definition sfs_get (client_id uid data_offset data_size : Z) (p_data : option bytes) (p_data_length : Z)
    : SFS sfs_state (Z * option bytes * Z) :=
  if uid =? SFS_INVALID_UID then mret (PSA_ERROR_INVALID_ARGUMENT, p_data, p_data_length)
  else
    let fid := sfs_get_fid client_id uid in
    '(status, file_info) ← on_fs (sfs_flash_fs_file_get_info info fid no_info);
    if negb (status =? PSA_SUCCESS) then mret (status, p_data, p_data_length)
    else if size_current file_info <? data_offset then mret (PSA_ERROR_INVALID_ARGUMENT, p_data, p_data_length)
    else
      let data_size := SFS_UTILS_MIN data_size (size_current file_info - data_offset) in
      '(status, p_data) ← get_loop (S (Z.to_nat data_size)) fid data_offset data_size p_data;
      mret (status, p_data, if negb (status =? PSA_SUCCESS) then 0 else data_size).

Definition sfs_get_info (client_id uid : Z) (p_info : option psa_storage_info_t)
    : SFS sfs_state (Z * option psa_storage_info_t) :=
  if uid =? SFS_INVALID_UID then mret (PSA_ERROR_INVALID_ARGUMENT, p_info)
  else
    '(status, file_info) ← on_fs (sfs_flash_fs_file_get_info info (sfs_get_fid client_id uid) no_info);
    if negb (status =? PSA_SUCCESS) then mret (status, p_info)
    else match p_info with
    | None => fault
    | Some _ => mret (PSA_SUCCESS,
        Some (StorageInfo (u32 (size_max file_info)) (u32 (size_current file_info)) (fi_flags file_info)))
    end.

Definition sfs_remove (client_id uid : Z) : SFS sfs_state Z :=
  if uid =? SFS_INVALID_UID then mret PSA_ERROR_INVALID_ARGUMENT
  else
    let fid := sfs_get_fid client_id uid in
    '(status, file_info) ← on_fs (sfs_flash_fs_file_get_info info fid no_info);
    if negb (status =? PSA_SUCCESS) then mret status
    else if negb (Z.land (fi_flags file_info) PSA_STORAGE_FLAG_WRITE_ONCE =? 0) then mret PSA_ERROR_NOT_PERMITTED
    else on_fs (sfs_flash_fs_file_delete info fid).

Definition sfs_create (client_id uid capacity create_flags : Z) : SFS sfs_state Z :=
  if uid =? SFS_INVALID_UID then mret PSA_ERROR_INVALID_ARGUMENT
  else if negb (Z.land create_flags PSA_STORAGE_FLAG_WRITE_ONCE =? 0) then mret PSA_ERROR_NOT_SUPPORTED
  else
    let fid := sfs_get_fid client_id uid in
    '(status, _) ← on_fs (sfs_flash_fs_file_get_info info fid no_info);
    if status =? PSA_SUCCESS then mret PSA_ERROR_ALREADY_EXISTS
    else if status =? PSA_ERROR_DOES_NOT_EXIST then
      on_fs (sfs_flash_fs_file_create info fid capacity 0 create_flags [])
    else mret status.

Definition sfs_set_extended (client_id uid data_offset data_length : Z) (p_data : option bytes) : SFS sfs_state Z :=
  if uid =? SFS_INVALID_UID then mret PSA_ERROR_INVALID_ARGUMENT
  else
    let fid := sfs_get_fid client_id uid in
    '(status, file_info) ← on_fs (sfs_flash_fs_file_get_info info fid no_info);
    if negb (status =? PSA_SUCCESS) then mret status
    else if negb (Z.land (fi_flags file_info) PSA_STORAGE_FLAG_WRITE_ONCE =? 0) then mret PSA_ERROR_NOT_PERMITTED
    else if 2 ^ 64 - 1 - data_offset <? data_length then mret PSA_ERROR_INVALID_ARGUMENT
    else if asset_data_size <? data_length then mret PSA_ERROR_INVALID_ARGUMENT
    else if size_max file_info <? data_offset + data_length then mret PSA_ERROR_INVALID_ARGUMENT
    else if size_current file_info <? data_offset then mret PSA_ERROR_INVALID_ARGUMENT
    else
      copy_asset p_data data_length;;
      a ← get_asset;
      on_fs (sfs_flash_fs_file_write info fid data_length data_offset a).

Definition sfs_get_support (client_id : Z) : SFS sfs_state Z := mret PSA_STORAGE_SUPPORT_SET_EXTENDED.

Definition sfs_backend : storage_backend_interface sfs_state :=
  StorageBackend
    (fun c client u n p flags => sfs_set client u n p flags c)
    (fun c client u off n p k => '(r, c) ← sfs_get client u off n p k c; Some (r, c))
    (fun c client u p => '(r, c) ← sfs_get_info client u p c; Some (r, c))
    (fun c client u => sfs_remove client u c)
    (fun c client u capacity flags => sfs_create client u capacity flags c)
    (fun c client u off n p => sfs_set_extended client u off n p c)
    (fun c client => sfs_get_support client c).

(** SFS_CREATE_FLASH_LAYOUT is defined; [false] stands for NULL. *)
Definition sfs_init : SFS sfs_state bool :=
  status ← on_fs (sfs_flash_fs_prepare info);
  if negb (status =? PSA_SUCCESS) then
    status ← on_fs (sfs_flash_fs_wipe_all info);
    if negb (status =? PSA_SUCCESS) then mret false
    else
      status ← on_fs (sfs_flash_fs_prepare info);
      mret (status =? PSA_SUCCESS)
  else mret true.

End Store.

(** ** Assets that are lost

    The store over the flash in memory of the repository, started on memory that is zero. *)
Definition started : SFS (sfs_state (F := bytes)) bool := sfs_init sfs_flash_ram_instance.
Definition zeroed : sfs_state :=
  SfsState (FsCtx (Header 0 0 0 (fill 0 2)) 0 0 (fill 0 SFS_FLASH_AREA_SIZE)) (fill 0 asset_data_size).

(** What [client] reads of an asset of [n] octets, or the status. *)
Definition read_back (client uid n : Z) : SFS (sfs_state (F := bytes)) (Z + bytes) :=
  '(st, p, k) ← sfs_get sfs_flash_ram_instance client uid 0 n (Some (fill 0 n)) 0;
  mret (if st =? PSA_SUCCESS then inr (default [] p) else inl st).

Definition empty_asset_scenario (secret : bytes) : SFS (sfs_state (F := bytes)) (list Z * list (Z + bytes)) :=
  _ ← started;
  s1 ← sfs_set sfs_flash_ram_instance 1 7 0 None 0;
  s2 ← sfs_set sfs_flash_ram_instance 2 8 3 (Some [1; 2; 3]) 0;
  s3 ← sfs_set sfs_flash_ram_instance 3 9 (len secret) (Some secret) 0;
  before ← read_back 2 8 3;
  s4 ← sfs_remove sfs_flash_ram_instance 1 7;
  after2 ← read_back 2 8 3;
  after3 ← read_back 3 9 (len secret);
  mret ([s1; s2; s3; s4], [before; after2; after3]).

(** Removing an asset without data moves the assets behind it in the block to the wrong place:
    client 1 sets an asset of length 0 and removes it again; client 2 then reads the data of
    client 3 as its own, and client 3 reads erased flash.  All four operations succeed. *)
Theorem empty_asset_removal_leaks :
  fst <$> empty_asset_scenario [65; 66; 67] zeroed =
    Some ([PSA_SUCCESS; PSA_SUCCESS; PSA_SUCCESS; PSA_SUCCESS],
      [inr [1; 2; 3]; inr [65; 66; 67]; inr [255; 255; 255]]).
Proof. vm_compute. reflexivity. Qed.

Definition overwrite_scenario : SFS (sfs_state (F := bytes)) (list Z * list (Z + bytes)) :=
  _ ← started;
  s1 ← sfs_set sfs_flash_ram_instance 1 7 5 (Some [1; 2; 3; 4; 5]) 0;
  s2 ← sfs_set_extended sfs_flash_ram_instance 1 7 1 2 (Some [8; 9]);
  r ← read_back 1 7 5;
  mret ([s1; s2], [r]).

(** sfs_set_extended of a part of an asset that is not at its end erases what is behind it:
    the data from the end of the written part to that of the asset are not copied. *)
Theorem overwrite_erases_tail :
  fst <$> overwrite_scenario zeroed =
    Some ([PSA_SUCCESS; PSA_SUCCESS], [inr [1; 8; 9; 255; 255]]).
Proof. vm_compute. reflexivity. Qed.

Definition failed_set_scenario : SFS (sfs_state (F := bytes)) (list Z * list (Z + bytes)) :=
  _ ← started;
  s1 ← sfs_set sfs_flash_ram_instance 1 7 3 (Some [1; 2; 3]) 0;
  s2 ← sfs_set sfs_flash_ram_instance 1 7 5000 (Some (fill 9 5000)) 0;
  r ← read_back 1 7 3;
  mret ([s1; s2], [r]).

(** A replacement that does not fit leaves no asset: the old one is removed first. *)
Example failed_set_removes :
  fst <$> failed_set_scenario zeroed =
    Some ([PSA_SUCCESS; PSA_ERROR_INSUFFICIENT_STORAGE], [inl PSA_ERROR_DOES_NOT_EXIST]).
Proof. vm_compute. reflexivity. Qed.
