(* ===== verification/SfsLogic.v ===== *)
(** * A logic for the flash file system

    Over a lawful flash the state of the file system is an image: header, the two metablock
    numbers and the contents of the blocks.  [triple i m Q] says that the computation [m]
    returns from every state with the image [i], with a result and an image that satisfy [Q];
    the rules follow the operations of the flash and the functions of sfs_flash_fs_mblock.c. *)
From S2P Require Import Prelude Status SfsFlash SfsMblock.

Record image := Image {
  i_header : sfs_metadata_block_header_t;
  i_active : Z;
  i_scratch : Z;
  i_blocks : list bytes
}.

Definition with_blocks (i : image) (bl : list bytes) : image :=
  Image (i_header i) (i_active i) (i_scratch i) bl.
Definition with_header (i : image) (h : sfs_metadata_block_header_t) : image :=
  Image h (i_active i) (i_scratch i) (i_blocks i).

(** The image with other contents of one block. *)
Definition with_block (i : image) (b : Z) (x : bytes) : image :=
  with_blocks i (<[Z.to_nat b := x]> (i_blocks i)).

Definition block (i : image) (b : Z) : option bytes := nthZ (i_blocks i) b.

Section Logic.
Context {F : Type} (info : sfs_flash_info_t F) (V : flash_view F) `{!FlashLaws info V}.
Abbreviation ctx := (sfs_flash_fs_ctx_t F).
Abbreviation fs := (SFS ctx).

Definition repr (c : ctx) (i : image) : Prop :=
  fv_ok V (flash c) /\ fv_blocks V (flash c) = i_blocks i /\ meta_block_header c = i_header i /\
  active_metablock c = i_active i /\ scratch_metablock c = i_scratch i.

(** The contents a write or an erase may leave, by the guard of the flash. *)
Definition allowed (i : image) : Prop := fv_guard V (i_blocks i).

Lemma unguarded_allows : unguarded V -> forall i, allowed i.
Proof. intros H i. apply H. Qed.

Definition triple {A} (i : image) (m : fs A) (Q : A -> image -> Prop) : Prop :=
  forall c, repr c i -> runs m c (fun x c' => exists i', repr c' i' /\ Q x i').

(** What a state with the image tells of it. *)
Definition image_ok (i : image) : Prop :=
  len (i_blocks i) = num_blocks info /\ Forall (fun x => len x = block_size info) (i_blocks i).

Lemma repr_ok c i : repr c i -> image_ok i.
Proof. intros (Hok & Hb & _). unfold image_ok. rewrite <- Hb. by apply fl_blocks. Qed.

Lemma block_is_Some i b : image_ok i -> 0 <= b < num_blocks info ->
  exists x, block i b = Some x /\ len x = block_size info.
Proof.
  intros [Hl Hall] Hb. destruct (nthZ_is_Some (i_blocks i) b) as [x Hx]; [lia|]. exists x.
  split; [done|]. rewrite Forall_forall in Hall. apply Hall. unfold nthZ in Hx. case_match; [|done].
  by eapply list_elem_of_lookup_2.
Qed.

Lemma block_size_of i b x : image_ok i -> block i b = Some x -> len x = block_size info /\ 0 <= b < num_blocks info.
Proof.
  intros Hi Hx. pose proof (nthZ_Some _ _ _ Hx) as Hb. destruct Hi as [Hl Hall]. rewrite Hl in Hb.
  destruct (block_is_Some i b) as (y & Hy & ?); [done|done|]. split; [congruence|done].
Qed.

Lemma block_with_block i b x c :
  image_ok i -> 0 <= b < num_blocks info -> 0 <= c ->
  block (with_block i b x) c = if c =? b then Some x else block i c.
Proof. intros [Hl _] ??. apply nthZ_block_insert; lia. Qed.

Lemma with_block_ok i b x : image_ok i -> len x = block_size info -> image_ok (with_block i b x).
Proof.
  intros [Hl Hall] Hx. split; cbn.
  - unfold len in *. by rewrite length_insert.
  - by apply Forall_insert.
Qed.

Lemma with_header_ok i h : image_ok i -> image_ok (with_header i h).
Proof. done. Qed.

Lemma with_block_again i b x y : with_block (with_block i b x) b y = with_block i b y.
Proof. unfold with_block, with_blocks. cbn. by rewrite list_insert_insert_eq. Qed.

Lemma with_block_same i b x : block i b = Some x -> with_block i b x = i.
Proof.
  intros Hx. unfold with_block, with_blocks. rewrite (insert_block_id _ _ _ Hx). by destruct i.
Qed.

(** ** Rules *)
Lemma t_ret {A} i (x : A) (Q : A -> image -> Prop) : Q x i -> triple i (mret x) Q.
Proof. intros HQ c Hc. apply runs_ret. eauto. Qed.

Lemma t_mono {A} i (m : fs A) (Q Q' : A -> image -> Prop) :
  triple i m Q -> (forall x i', Q x i' -> Q' x i') -> triple i m Q'.
Proof.
  intros Hm HQ c Hc. eapply runs_mono; [by apply Hm|]. intros x c' (i' & ? & ?). eauto.
Qed.

Lemma t_bind {A B} i (m : fs A) (f : A -> fs B) (Q : B -> image -> Prop) :
  triple i m (fun x i' => triple i' (f x) Q) -> triple i (m ≫= f) Q.
Proof.
  intros Hm c Hc. apply runs_bind. eapply runs_mono; [by apply Hm|]. intros x c' (i' & Hc' & Hf). by apply Hf.
Qed.

Lemma t_check i (m k : fs Z) (Q : Z -> image -> Prop) :
  triple i m (fun st i' => st = PSA_SUCCESS /\ triple i' k Q) -> triple i (check m k) Q.
Proof.
  intros Hm c Hc. apply runs_check. eapply runs_mono; [by apply Hm|]. intros x c' (i' & Hc' & -> & Hk).
  split; [done|]. by apply Hk.
Qed.

Lemma t_check_as i e (m k : fs Z) (Q : Z -> image -> Prop) :
  triple i m (fun st i' => st = PSA_SUCCESS /\ triple i' k Q) -> triple i (check_as e m k) Q.
Proof.
  intros Hm c Hc. apply runs_check_as. eapply runs_mono; [by apply Hm|]. intros x c' (i' & Hc' & -> & Hk).
  split; [done|]. by apply Hk.
Qed.

(** The image may be assumed well-formed. *)
Lemma t_ok {A} i (m : fs A) (Q : A -> image -> Prop) : (image_ok i -> triple i m Q) -> triple i m Q.
Proof. intros H c Hc. apply H; [|done]. by eapply repr_ok. Qed.

Lemma t_active i (Q : Z -> image -> Prop) : Q (i_active i) i -> triple i (get active_metablock) Q.
Proof. intros HQ c Hc. pose proof Hc as (_ & _ & _ & Ha & _). eexists _, _. split; [done|]. rewrite Ha. eauto. Qed.

Lemma t_scratch i (Q : Z -> image -> Prop) : Q (i_scratch i) i -> triple i (get scratch_metablock) Q.
Proof. intros HQ c Hc. pose proof Hc as (_ & _ & _ & _ & Ha). eexists _, _. split; [done|]. rewrite Ha. eauto. Qed.

Lemma t_header i (Q : _ -> image -> Prop) : Q (i_header i) i -> triple i (get meta_block_header) Q.
Proof. intros HQ c Hc. pose proof Hc as (_ & _ & Ha & _). eexists _, _. split; [done|]. rewrite Ha. eauto. Qed.

Lemma t_set_header i h (Q : unit -> image -> Prop) : Q tt (with_header i h) -> triple i (set_header h) Q.
Proof.
  intros HQ c (? & ? & ? & ? & ?). eexists _, _. split; [done|]. exists (with_header i h). split; [|done]. done.
Qed.

Lemma t_set_metablocks i a s (Q : unit -> image -> Prop) :
  Q tt (Image (i_header i) a s (i_blocks i)) -> triple i (set_metablocks a s) Q.
Proof.
  intros HQ c (? & ? & ? & ? & ?). eexists _, _. split; [done|]. eexists. split; [|done]. done.
Qed.

(** An operation of the flash changes the blocks only. *)
Lemma t_flash {A} i (m : SFS F A) (Q : A -> image -> Prop) :
  (forall d, fv_ok V d -> fv_blocks V d = i_blocks i ->
    runs m d (fun x d' => fv_ok V d' /\ Q x (with_blocks i (fv_blocks V d')))) ->
  triple i (on_flash m) Q.
Proof.
  intros Hm c (Hok & Hb & Hh & Ha & Hs). destruct (Hm _ Hok Hb) as (x & d' & Hr & Hok' & HQ).
  unfold runs, on_flash. rewrite Hr. cbn. eexists _, _. split; [done|].
  eexists. split; [|exact HQ]. done.
Qed.

Lemma with_blocks_same i : with_blocks i (i_blocks i) = i.
Proof. by destruct i. Qed.

Lemma t_read i b buff off n x (Q : Z * bytes -> image -> Prop) :
  block i b = Some x -> 0 <= off -> 0 <= n -> n = len buff -> off + n <= block_size info ->
  Q (PSA_SUCCESS, slice x off n) i -> triple i (on_flash (fi_read info b buff off n)) Q.
Proof.
  intros Hx ? ? Hn ? HQ. apply t_ok. intros Hi. apply t_flash. intros d Hok Hb.
  pose proof (block_size_of _ _ _ Hi Hx) as [Hlx _].
  unfold block in Hx. rewrite <- Hb in Hx.
  eapply runs_mono; [eapply (fl_read (info := info)); [done|exact Hx|lia..]|]. intros [st buff'] d' (-> & Hst & ? & Hb').
  split; [done|]. rewrite Hb', Hb, with_blocks_same.
  assert (buff' = slice x off n) as ->; [|done].
  apply store_patch in Hst as ->. unfold patch. rewrite take_0, slice_len by lia. simpl.
  rewrite drop_ge, app_nil_r; [done|]. unfold len in *. lia.
Qed.

Lemma t_write i b buff off n x (Q : Z -> image -> Prop) :
  block i b = Some x -> 0 <= off -> 0 <= n <= len buff -> off + n <= block_size info ->
  (forall k, k ∈ write_cuts n -> allowed (with_block i b (patch x off (slice buff 0 k)))) ->
  Q PSA_SUCCESS (with_block i b (patch x off (slice buff 0 n))) ->
  triple i (on_flash (fi_write info b buff off n)) Q.
Proof.
  intros Hx ? ? ? Hg HQ. apply t_flash. intros d Hok Hb. unfold block in Hx. rewrite <- Hb in Hx.
  eapply runs_mono; [eapply (write_runs info V); [done|exact Hx|lia..|intros k Hk; rewrite Hb; by apply Hg]|]. intros st d' (-> & ? & Hb').
  split; [done|]. rewrite Hb', Hb. done.
Qed.

Lemma t_move i dst doff src soff size x y (Q : Z -> image -> Prop) :
  dst <> src -> block i dst = Some x -> block i src = Some y ->
  0 <= doff -> 0 <= soff -> 0 <= size -> doff + size <= block_size info -> soff + size <= block_size info ->
  (forall k, 0 <= k <= size -> allowed (with_block i dst (patch x doff (slice y soff k)))) ->
  Q PSA_SUCCESS (with_block i dst (patch x doff (slice y soff size))) ->
  triple i (move info dst doff src soff size) Q.
Proof.
  intros Hne Hx Hy ? ? ? ? ? Hg HQ. apply t_flash. intros d Hok Hb. unfold block in *. rewrite <- Hb in *.
  eapply runs_mono; [eapply (block_move_runs info V); [done|done|exact Hx|exact Hy|by vm_compute|lia..|]|].
  { intros k Hk. rewrite Hb. by apply Hg. }
  intros st d' (-> & ? & Hb'). split; [done|]. rewrite Hb', Hb. done.
Qed.

Lemma t_flush i (Q : Z -> image -> Prop) : Q PSA_SUCCESS i -> triple i (on_flash (fi_flush info)) Q.
Proof.
  intros HQ. apply t_flash. intros d Hok Hb. eapply runs_mono; [by apply fl_flush|].
  intros st d' (-> & ? & Hb'). split; [done|]. by rewrite Hb', Hb, with_blocks_same.
Qed.

Lemma t_init i (Q : Z -> image -> Prop) : Q PSA_SUCCESS i -> triple i (on_flash (fi_init info)) Q.
Proof.
  intros HQ. apply t_flash. intros d Hok Hb. eapply runs_mono; [by apply fl_init|].
  intros st d' (-> & ? & Hb'). split; [done|]. by rewrite Hb', Hb, with_blocks_same.
Qed.

Lemma t_erase i b (Q : Z -> image -> Prop) :
  0 <= b < num_blocks info ->
  (forall e, len e = block_size info -> fv_erased V e -> allowed (with_block i b e) /\ Q PSA_SUCCESS (with_block i b e)) ->
  triple i (on_flash (fi_erase info b)) Q.
Proof.
  intros Hb HQ. apply t_flash. intros d Hok Hbl. eapply runs_mono; [apply fl_erase; [done..|]|].
  { intros e He Her. rewrite Hbl. by apply HQ. }
  intros st d' (-> & ? & e & He & Her & Hb'). split; [done|]. rewrite Hb', Hbl. by apply HQ.
Qed.


(** A read into the front of a larger buffer. *)
Lemma t_read_into i b buff off n x (Q : Z * bytes -> image -> Prop) :
  block i b = Some x -> 0 <= off -> 0 <= n <= len buff -> off + n <= block_size info ->
  Q (PSA_SUCCESS, patch buff 0 (slice x off n)) i -> triple i (on_flash (fi_read info b buff off n)) Q.
Proof.
  intros Hx ? ? ? HQ. apply t_flash. intros d Hok Hb. unfold block in Hx. rewrite <- Hb in Hx.
  eapply runs_mono; [eapply (fl_read (info := info)); [done|exact Hx|lia..]|]. intros [st buff'] d' (-> & Hst & ? & Hb').
  split; [done|]. rewrite Hb', Hb, with_blocks_same. by apply store_patch in Hst as ->.
Qed.

End Logic.
