(* ===== verification/SfsMeta.v ===== *)
(** * What the metadata operations of the flash file system do

    The layout of a metablock, its entries as they are read from it, and a rule for each
    function of sfs_flash_fs_mblock.c: which entries the scratch metablock has after it. *)
From S2P Require Import Prelude Status SfsFlash SfsMblock SfsLogic.

(** ** The structures are read back as they were written *)
Definition block_meta_ok (m : sfs_block_meta_t) : Prop :=
  fits 32 (phy_id m) /\ fits 64 (data_start m) /\ fits 64 (free_size m) /\ len (block_pad m) = 4.
Definition file_meta_ok (m : sfs_file_meta_t) : Prop :=
  fits 32 (lblock m) /\ fits 64 (data_idx m) /\ fits 64 (cur_size m) /\ fits 64 (max_size m) /\
  fits 32 (fm_flags m) /\ len (fm_id m) = 12 /\ len (file_pad m) = 4.
Definition header_ok (h : sfs_metadata_block_header_t) : Prop :=
  fits 32 (scratch_dblock h) /\ fits 8 (fs_version h) /\ fits 8 (active_swap_count h) /\ len (header_pad h) = 2.

Lemma block_meta_bytes_len m : block_meta_ok m -> len (block_meta_bytes m) = SFS_BLOCK_METADATA_SIZE.
Proof. intros (_ & _ & _ & Hp). unfold block_meta_bytes, SFS_BLOCK_METADATA_SIZE. rewrite !len_app, !len_le_split. lia. Qed.

Lemma file_meta_bytes_len m : file_meta_ok m -> len (file_meta_bytes m) = SFS_FILE_METADATA_SIZE.
Proof.
  intros (_ & _ & _ & _ & _ & Hi & Hp). unfold file_meta_bytes, SFS_FILE_METADATA_SIZE.
  rewrite !len_app, !len_le_split. lia.
Qed.

Lemma header_bytes_len h : header_ok h -> len (header_bytes h) = SFS_BLOCK_META_HEADER_SIZE.
Proof. intros (_ & _ & _ & Hp). unfold header_bytes, SFS_BLOCK_META_HEADER_SIZE. rewrite !len_app, !len_le_split. lia. Qed.

Lemma uint_last b off k v :
  slice b off (Z.of_nat k) = le_split k v -> 0 <= v < 2 ^ (8 * Z.of_nat k) -> uint_at b off (Z.of_nat k) = v.
Proof. intros Hs Hv. unfold uint_at. rewrite Hs, le_combine_split, wrap_idem by lia. by apply wrap_small. Qed.

(** Take the next member off the front of [Hs : slice b off n = member ++ tail]. *)
Ltac next_uint Hs Hv :=
  apply uint_front in Hs as [Hv Hs]; [|first [assumption | rewrite ?len_app, ?len_le_split; lia]..];
  rewrite ?len_app, ?len_le_split in Hs.
Ltac next_bytes Hs Hv :=
  apply bytes_front in Hs as [Hv Hs]; [|rewrite ?len_app, ?len_le_split; lia..];
  rewrite ?len_app, ?len_le_split in Hs.

Lemma block_meta_roundtrip m : block_meta_ok m -> block_meta_of (block_meta_bytes m) = m.
Proof.
  intros Hm. pose proof (block_meta_bytes_len _ Hm) as Hl. destruct Hm as (H1 & H2 & H3 & H4). unfold fits in *.
  destruct m as [a d f p]. cbn [phy_id data_start free_size block_pad] in *. unfold block_meta_of.
  set (b := block_meta_bytes _) in *. unfold SFS_BLOCK_METADATA_SIZE in Hl.
  pose proof (slice_all b) as Hs. rewrite Hl in Hs. unfold b at 2 in Hs. unfold block_meta_bytes in Hs. cbn [phy_id data_start free_size block_pad] in Hs.
  next_uint Hs Ha. next_bytes Hs Hp. next_uint Hs Hd. apply uint_last in Hs; [|assumption].
  rewrite H4 in *. f_equal; assumption.
Qed.

Lemma file_meta_roundtrip m : file_meta_ok m -> file_meta_of (file_meta_bytes m) = m.
Proof.
  intros Hm. pose proof (file_meta_bytes_len _ Hm) as Hl. destruct Hm as (H1 & H2 & H3 & H4 & H5 & H6 & H7).
  unfold fits in *. destruct m as [a d c x f i p].
  cbn [lblock data_idx cur_size max_size fm_flags fm_id file_pad] in *. unfold file_meta_of.
  set (b := file_meta_bytes _) in *. unfold SFS_FILE_METADATA_SIZE in Hl.
  pose proof (slice_all b) as Hs. rewrite Hl in Hs. unfold b at 2 in Hs. unfold file_meta_bytes in Hs.
  cbn [lblock data_idx cur_size max_size fm_flags fm_id file_pad] in Hs.
  next_uint Hs Ha. next_bytes Hs Hp. next_uint Hs Hd. next_uint Hs Hc. next_uint Hs Hx. next_uint Hs Hf.
  rewrite H7, H6 in *. f_equal; assumption.
Qed.

Lemma header_roundtrip h : header_ok h -> header_of (header_bytes h) = h.
Proof.
  intros Hm. pose proof (header_bytes_len _ Hm) as Hl. destruct Hm as (H1 & H2 & H3 & H4). unfold fits in *.
  destruct h as [a v c p]. cbn [scratch_dblock fs_version active_swap_count header_pad] in *. unfold header_of.
  set (b := header_bytes _) in *. unfold SFS_BLOCK_META_HEADER_SIZE in Hl.
  pose proof (slice_all b) as Hs. rewrite Hl in Hs. unfold b at 2 in Hs. unfold header_bytes in Hs.
  cbn [scratch_dblock fs_version active_swap_count header_pad] in Hs.
  next_uint Hs Ha. next_uint Hs Hv. next_uint Hs Hc. rewrite H4 in *. f_equal; assumption.
Qed.

(** What is read from octets is well-formed. *)
Lemma block_meta_of_ok b : len b = SFS_BLOCK_METADATA_SIZE -> block_meta_ok (block_meta_of b).
Proof.
  unfold SFS_BLOCK_METADATA_SIZE. intros. unfold block_meta_ok, fits. cbn.
  repeat split; try apply uint_at_bound; try done. apply slice_len; lia.
Qed.

Lemma file_meta_of_ok b : len b = SFS_FILE_METADATA_SIZE -> file_meta_ok (file_meta_of b).
Proof.
  unfold SFS_FILE_METADATA_SIZE. intros. unfold file_meta_ok, fits. cbn.
  repeat split; try apply uint_at_bound; try done; apply slice_len; lia.
Qed.

Lemma header_of_ok b : len b = SFS_BLOCK_META_HEADER_SIZE -> header_ok (header_of b).
Proof.
  unfold SFS_BLOCK_META_HEADER_SIZE. intros. unfold header_ok, fits. cbn.
  repeat split; try apply uint_at_bound; try done. apply slice_len; lia.
Qed.

(** ** A block changed between [a] and [b] only *)
Definition kept (a b : Z) (x x' : bytes) : Prop :=
  len x' = len x /\
  forall p k, 0 <= p -> 0 <= k -> p + k <= a \/ b <= p -> slice x' p k = slice x p k.

Lemma kept_refl a b x : kept a b x x.
Proof. done. Qed.

Lemma kept_trans a b x y z : kept a b x y -> kept a b y z -> kept a b x z.
Proof. intros [H1 H2] [H3 H4]. split; [lia|]. intros. by rewrite H4, H2. Qed.

Lemma kept_wider a b a' b' x y : a' <= a -> b <= b' -> kept a b x y -> kept a' b' x y.
Proof. intros ?? [? Hk]. split; [done|]. intros. apply Hk; lia. Qed.

Lemma kept_patch x off d n :
  n = len d -> 0 <= off -> off + n <= len x -> kept off (off + n) x (patch x off d).
Proof.
  intros -> ??. split; [by apply patch_len|]. intros. apply slice_patch_disjoint; lia.
Qed.

Lemma kept_slice a b x y p k : kept a b x y -> 0 <= p -> 0 <= k -> p + k <= a \/ b <= p -> slice y p k = slice x p k.
Proof. intros [_ H]. by apply H. Qed.

Section Meta.
Context {F : Type} (info : sfs_flash_info_t F) (V : flash_view F) `{!FlashLaws info V}.

Abbreviation files := (max_num_files info).
Abbreviation dblocks := (sfs_num_active_dblocks info).
Abbreviation boff := sfs_mblock_block_meta_offset.
Abbreviation foff := (sfs_mblock_file_meta_offset info).

(** The metadata fit in a block, as sfs_flash_fs_check_info.h demands. *)
Record config_ok : Prop := {
  co_files : 0 <= files < 65535;
  co_fits : foff files <= block_size info;
  co_erase : 0 < erase_val info < 256
}.
Hypothesis cfg : config_ok.

Lemma dblocks_range : 1 <= dblocks <= 2 ^ 16 /\
  dblocks = if num_blocks info =? 2 then 1 else num_blocks info - 2.
Proof.
  pose proof (fl_num_blocks (info := info) (V := V)). unfold sfs_num_active_dblocks, sfs_num_dedicated_dblocks, sfs_init_dblock_start.
  destruct (Z.eqb_spec (num_blocks info) 2); [done|].
  rewrite (wrap_small 32 (num_blocks info - 3)), wrap_small by lia. lia.
Qed.

(** The table of blocks ends where that of the files begins. *)
Lemma boff_end : boff dblocks = foff 0.
Proof. unfold sfs_mblock_block_meta_offset, sfs_mblock_file_meta_offset, SFS_FILE_METADATA_SIZE. lia. Qed.

Lemma layout : 32 <= foff 0 <= foff files /\ foff files <= block_size info < 2 ^ 16.
Proof.
  pose proof (fl_block_size (info := info) (V := V)). pose proof dblocks_range as (? & _). destruct cfg.
  split; [|lia]. unfold sfs_mblock_file_meta_offset, SFS_FILE_METADATA_SIZE, SFS_BLOCK_META_HEADER_SIZE, SFS_BLOCK_METADATA_SIZE. lia.
Qed.

(** ** Entries of a metablock *)
Definition bmeta (x : bytes) (j : Z) : sfs_block_meta_t := block_meta_of (slice x (boff j) SFS_BLOCK_METADATA_SIZE).
Definition fmeta (x : bytes) (j : Z) : sfs_file_meta_t := file_meta_of (slice x (foff j) SFS_FILE_METADATA_SIZE).
Definition hmeta (x : bytes) : sfs_metadata_block_header_t := header_of (slice x 0 SFS_BLOCK_META_HEADER_SIZE).
Arguments bmeta : simpl never.
Arguments fmeta : simpl never.
Arguments hmeta : simpl never.

Lemma boff_range j : 0 <= j < dblocks -> 8 <= boff j /\ boff j + 24 <= foff 0.
Proof. intros. rewrite <- boff_end. unfold sfs_mblock_block_meta_offset, SFS_BLOCK_META_HEADER_SIZE, SFS_BLOCK_METADATA_SIZE. lia. Qed.

Lemma foff_range j : 0 <= j < files -> foff 0 <= foff j /\ foff j + 48 <= foff files.
Proof. intros. unfold sfs_mblock_file_meta_offset, SFS_FILE_METADATA_SIZE. lia. Qed.

Lemma boff_disjoint j k : j <> k -> boff j + 24 <= boff k \/ boff k + 24 <= boff j.
Proof. intros. unfold sfs_mblock_block_meta_offset, SFS_BLOCK_METADATA_SIZE. lia. Qed.

Lemma foff_disjoint j k : j <> k -> foff j + 48 <= foff k \/ foff k + 48 <= foff j.
Proof. intros. unfold sfs_mblock_file_meta_offset, SFS_FILE_METADATA_SIZE. lia. Qed.

Lemma bmeta_ok x j : len x = block_size info -> 0 <= j < dblocks -> block_meta_ok (bmeta x j).
Proof.
  intros Hx Hj. pose proof (boff_range _ Hj). pose proof layout.
  apply block_meta_of_ok, slice_len; unfold SFS_BLOCK_METADATA_SIZE; lia.
Qed.

Lemma fmeta_ok x j : len x = block_size info -> 0 <= j < files -> file_meta_ok (fmeta x j).
Proof.
  intros Hx Hj. pose proof (foff_range _ Hj). pose proof layout.
  apply file_meta_of_ok, slice_len; unfold SFS_FILE_METADATA_SIZE; lia.
Qed.

(** ** Reading *)
Lemma t_read_file_meta i y j (Q : Z * sfs_file_meta_t -> image -> Prop) :
  block i (i_active i) = Some y -> 0 <= j < files ->
  Q (PSA_SUCCESS, fmeta y j) i -> triple V i (sfs_flash_fs_mblock_read_file_meta info j) Q.
Proof.
  intros Hy Hj HQ. pose proof (foff_range _ Hj). pose proof layout.
  apply t_bind, t_active, t_bind. eapply (t_read info V); [exact Hy|lia|done|done|unfold SFS_FILE_METADATA_SIZE; lia|].
  by apply t_ret.
Qed.

Lemma t_read_block_meta i y j (Q : Z * sfs_block_meta_t -> image -> Prop) :
  block i (i_active i) = Some y -> 0 <= j < dblocks ->
  Q (PSA_SUCCESS, bmeta y j) i -> triple V i (sfs_flash_fs_mblock_read_block_metadata info j) Q.
Proof.
  intros Hy Hj HQ. pose proof (boff_range _ Hj). pose proof layout.
  apply t_bind, t_active, t_bind. eapply (t_read info V); [exact Hy|lia|done|done|unfold SFS_BLOCK_METADATA_SIZE; lia|].
  by apply t_ret.
Qed.

Lemma t_read_header i b y old (Q : Z * sfs_metadata_block_header_t -> image -> Prop) :
  block i b = Some y -> len old = SFS_BLOCK_META_HEADER_SIZE ->
  Q (PSA_SUCCESS, hmeta y) i -> triple V i (read_header info b old) Q.
Proof.
  intros Hy Hl HQ. pose proof layout.
  apply t_bind. eapply (t_read info V); [exact Hy|done|done|by rewrite Hl|unfold SFS_BLOCK_META_HEADER_SIZE; lia|].
  by apply t_ret.
Qed.

(** ** Searching *)
Lemma seqZ_S j n : seqZ j (Z.of_nat (S n)) = j :: seqZ (j + 1) (Z.of_nat n).
Proof. rewrite seqZ_cons by lia. f_equal. f_equal; lia. Qed.

Definition file_index (y fid : bytes) : option nat :=
  find_index (fun j => bytes_eqb (fm_id (fmeta y j)) fid) (seqZ 0 files).
Definition free_entry (y : bytes) : option nat :=
  find_index (fun j => negb (sfs_utils_validate_fid (fm_id (fmeta y j)) =? PSA_SUCCESS)) (seqZ 0 files).
Definition roomy_block (y : bytes) (size : Z) : option nat :=
  find_index (fun j => size <=? free_size (bmeta y j)) (seqZ 0 dblocks).

Lemma t_file_idx i y fid (Q : Z * Z -> image -> Prop) :
  block i (i_active i) = Some y ->
  Q (match file_index y fid with Some k => (PSA_SUCCESS, Z.of_nat k) | None => (PSA_ERROR_DOES_NOT_EXIST, 0) end) i ->
  triple V i (sfs_flash_fs_mblock_get_file_idx info fid) Q.
Proof.
  intros Hy HQ.
  assert (forall n j, 0 <= j -> j + Z.of_nat n <= files ->
    triple V i (file_idx_loop info n fid j) (fun r i' => i' = i /\
      r = match find_index (fun j => bytes_eqb (fm_id (fmeta y j)) fid) (seqZ j (Z.of_nat n)) with
          | Some k => (PSA_SUCCESS, j + Z.of_nat k) | None => (PSA_ERROR_DOES_NOT_EXIST, 0) end)) as Hloop.
  { induction n as [|n IH]; intros j Hj Hn; [by apply t_ret|].
    cbn [file_idx_loop]. rewrite seqZ_S. cbn [find_index]. apply t_bind.
    eapply t_read_file_meta; [exact Hy|lia|]. cbn. destruct (bytes_eqb _ fid).
    - apply t_ret. split; [done|]. f_equal. lia.
    - eapply t_mono; [apply IH; lia|]. intros r i' [-> ->]. split; [done|].
      destruct (find_index _ (seqZ (j + 1) (Z.of_nat n))); cbn; [f_equal; lia|done]. }
  eapply t_mono; [apply Hloop; destruct cfg; lia|]. intros r i' [-> ->].
  unfold file_index in HQ. rewrite Z2Nat.id by (destruct cfg; lia). by destruct (find_index _ _).
Qed.

Lemma t_free_index i y (Q : Z -> image -> Prop) :
  block i (i_active i) = Some y ->
  Q (match free_entry y with Some k => Z.of_nat k | None => SFS_METADATA_INVALID_INDEX end) i ->
  triple V i (sfs_get_free_file_index info) Q.
Proof.
  intros Hy HQ.
  assert (forall n j, 0 <= j -> j + Z.of_nat n <= files ->
    triple V i (free_index_loop info n j) (fun r i' => i' = i /\
      r = match find_index (fun j => negb (sfs_utils_validate_fid (fm_id (fmeta y j)) =? PSA_SUCCESS)) (seqZ j (Z.of_nat n)) with
          | Some k => j + Z.of_nat k | None => SFS_METADATA_INVALID_INDEX end)) as Hloop.
  { induction n as [|n IH]; intros j Hj Hn; [by apply t_ret|].
    cbn [free_index_loop]. rewrite seqZ_S. cbn [find_index]. apply t_bind.
    eapply t_read_file_meta; [exact Hy|lia|]. cbn. destruct (negb _).
    - apply t_ret. split; [done|]. lia.
    - eapply t_mono; [apply IH; lia|]. intros r i' [-> ->]. split; [done|].
      destruct (find_index _ (seqZ (j + 1) (Z.of_nat n))); cbn; [lia|done]. }
  eapply t_mono; [apply Hloop; destruct cfg; lia|]. intros r i' [-> ->].
  unfold free_entry in HQ. rewrite Z2Nat.id by (destruct cfg; lia). by destruct (find_index _ _).
Qed.

(** The entries a new file gets: in the table of files and in that of blocks. *)
Definition reserved_file (y fid : bytes) (size flags j : Z) : sfs_file_meta_t :=
  FileMeta j (block_size info - free_size (bmeta y j)) 0 size flags fid (fill 0 4).
Definition reserved_block (y : bytes) (size j : Z) : sfs_block_meta_t :=
  BlockMeta (phy_id (bmeta y j)) (data_start (bmeta y j)) (free_size (bmeta y j) - size) (block_pad (bmeta y j)).

Lemma t_reserve i y fid size flags (Q : Z * Z * sfs_file_meta_t * sfs_block_meta_t -> image -> Prop) :
  block i (i_active i) = Some y ->
  (forall j, 0 <= j < dblocks -> 0 <= free_size (bmeta y j) <= block_size info) ->
  match roomy_block y size, free_entry y with
  | Some k, Some idx => Q (PSA_SUCCESS, Z.of_nat idx, reserved_file y fid size flags (Z.of_nat k), reserved_block y size (Z.of_nat k)) i
  | _, _ => forall idx f b, Q (PSA_ERROR_INSUFFICIENT_STORAGE, idx, f, b) i
  end ->
  triple V i (sfs_flash_fs_mblock_reserve_file info fid size flags empty_file_meta empty_block_meta) Q.
Proof.
  intros Hy Hfree HQ. pose proof layout.
  assert (forall n j bm, 0 <= j -> j + Z.of_nat n <= dblocks ->
    triple V i (reserve_loop info n fid size flags j empty_file_meta bm) (fun r i' => i' = i /\
      match find_index (fun j => size <=? free_size (bmeta y j)) (seqZ j (Z.of_nat n)) with
      | Some k => r = (PSA_SUCCESS, reserved_file y fid size flags (j + Z.of_nat k), reserved_block y size (j + Z.of_nat k))
      | None => r.1.1 = PSA_ERROR_INSUFFICIENT_STORAGE end)) as Hloop.
  { induction n as [|n IH]; intros j bm Hj Hn; [by apply t_ret|].
    cbn [reserve_loop]. rewrite seqZ_S. cbn [find_index]. apply t_bind.
    eapply t_read_block_meta; [exact Hy|lia|]. cbn. destruct (size <=? _) eqn:Hs.
    - apply t_ret. split; [done|]. rewrite Z.add_0_r. unfold reserved_file, reserved_block.
      pose proof (Hfree j ltac:(lia)). by rewrite wrap_small by lia.
    - eapply t_mono; [apply IH; lia|]. intros r i' [-> Hr]. split; [done|].
      destruct (find_index _ (seqZ (j + 1) (Z.of_nat n))); cbn; [|done].
      by replace (j + Z.of_nat (S n0)) with (j + 1 + Z.of_nat n0) by lia. }
  unfold sfs_flash_fs_mblock_reserve_file, sfs_mblock_reserve_file. pose proof dblocks_range as (? & _).
  apply t_bind. eapply t_mono; [apply Hloop; lia|]. intros [[err fm] bm] i' [-> Hr]. rewrite Z2Nat.id in Hr by lia.
  unfold roomy_block in HQ. apply t_bind. eapply t_free_index; [exact Hy|]. apply t_ret.
  destruct (find_index _ (seqZ 0 dblocks)) as [k|] eqn:Hk; [|cbn in Hr; subst err; apply HQ].
  simplify_eq. destruct (free_entry y) as [idx|] eqn:Hidx; [|apply HQ].
  apply find_index_lt in Hidx. rewrite length_seqZ in Hidx. destruct cfg.
  destruct (Z.eqb_spec (Z.of_nat idx) SFS_METADATA_INVALID_INDEX) as [Hbad|]; [|apply HQ].
  unfold SFS_METADATA_INVALID_INDEX in Hbad. lia.
Qed.


(** ** Writing to the scratch metablock

    [open i s a b x]: the flash allows any change of block [s], whose contents are [x], between
    [a] and [b]. *)
Definition open (i : image) (s a b : Z) (x : bytes) : Prop :=
  forall x', kept a b x x' -> allowed V (with_block i s x').

Lemma open_narrow i s a b x a' b' : open i s a b x -> a <= a' -> b' <= b -> open i s a' b' x.
Proof. intros Ho ?? x' Hk. apply Ho. by eapply kept_wider. Qed.

Lemma open_after i s a b x x1 a' b' :
  open i s a b x -> kept a b x x1 -> a <= a' -> b' <= b -> open (with_block i s x1) s a' b' x1.
Proof.
  intros Ho Hk ?? x' Hk'. rewrite with_block_again. apply Ho. eapply kept_trans; [exact Hk|]. by eapply kept_wider.
Qed.

Lemma slice_bytes n d : len d = n -> slice d 0 n = d.
Proof. intros <-. apply slice_all. Qed.

(** The parts of a write inside an open range. *)
Lemma open_cuts i s a b x off d n :
  open i s a b x -> 0 <= off -> a <= off -> off + n <= b -> 0 <= n <= len d -> off + n <= len x ->
  forall k, k ∈ write_cuts n -> allowed V (with_block i s (patch x off (slice d 0 k))).
Proof.
  intros Ho ????? k Hk%write_cuts_range; [|lia]. apply Ho. pose proof (slice_len d 0 k ltac:(lia) ltac:(lia) ltac:(lia)).
  eapply kept_wider; [| |apply (kept_patch x off (slice d 0 k) k)]; lia.
Qed.

(** An entry written whole. *)
Lemma t_write_scratch i x off d n (Q : Z -> image -> Prop) :
  block i (i_scratch i) = Some x -> len d = n -> 0 <= off -> off + n <= block_size info ->
  (len x = block_size info -> kept off (off + n) x (patch x off d) -> slice (patch x off d) off n = d ->
   (forall k, k ∈ write_cuts n -> allowed V (with_block i (i_scratch i) (patch x off (slice d 0 k)))) /\
   Q PSA_SUCCESS (with_block i (i_scratch i) (patch x off d))) ->
  triple V i (s ← get scratch_metablock; on_flash (fi_write info s d off n)) Q.
Proof.
  intros Hx <- Ho Hn HQ. apply t_ok with info; [done|]. intros Hi. destruct (block_size_of info _ _ _ Hi Hx) as [Hl _].
  apply t_bind, t_scratch. pose proof (len_nonneg d).
  destruct HQ as [Hg HQ]; [done|apply kept_patch; lia|apply slice_patch_same; lia|].
  eapply (t_write info V); [exact Hx|lia..|done|]. by rewrite slice_all.
Qed.

Lemma t_update_file_meta i x j m (Q : Z -> image -> Prop) :
  block i (i_scratch i) = Some x -> 0 <= j < files -> file_meta_ok m ->
  open i (i_scratch i) (foff j) (foff j + 48) x ->
  (forall x', kept (foff j) (foff j + 48) x x' -> fmeta x' j = m -> Q PSA_SUCCESS (with_block i (i_scratch i) x')) ->
  triple V i (sfs_flash_fs_mblock_update_scratch_file_meta info j m) Q.
Proof.
  intros Hx Hj Hm Hg HQ. pose proof (foff_range _ Hj). pose proof layout.
  eapply t_write_scratch; [exact Hx|by apply file_meta_bytes_len|lia|unfold SFS_FILE_METADATA_SIZE; lia|].
  intros Hl Hk Hs. split; [|apply HQ; [done|]; unfold fmeta; by rewrite Hs, file_meta_roundtrip].
  pose proof (file_meta_bytes_len _ Hm). eapply open_cuts; [exact Hg|unfold SFS_FILE_METADATA_SIZE in *; lia..].
Qed.

Lemma t_update_block_raw i x j m (Q : Z -> image -> Prop) :
  block i (i_scratch i) = Some x -> 0 <= j < dblocks -> block_meta_ok m ->
  open i (i_scratch i) (boff j) (boff j + 24) x ->
  (forall x', kept (boff j) (boff j + 24) x x' -> bmeta x' j = m -> Q PSA_SUCCESS (with_block i (i_scratch i) x')) ->
  triple V i (sfs_mblock_update_scratch_block_meta info j m) Q.
Proof.
  intros Hx Hj Hm Hg HQ. pose proof (boff_range _ Hj). pose proof layout.
  eapply t_write_scratch; [exact Hx|by apply block_meta_bytes_len|lia|unfold SFS_BLOCK_METADATA_SIZE; lia|].
  intros Hl Hk Hs. split; [|apply HQ; [done|]; unfold bmeta; by rewrite Hs, block_meta_roundtrip].
  pose proof (block_meta_bytes_len _ Hm). eapply open_cuts; [exact Hg|unfold SFS_BLOCK_METADATA_SIZE in *; lia..].
Qed.

(** A piece of the active block copied to the same place. *)
Lemma t_move_same i s x src y off n (Q : Z -> image -> Prop) :
  block i s = Some x -> block i src = Some y -> s <> src -> 0 <= off -> 0 <= n -> off + n <= block_size info ->
  open i s off (off + n) x ->
  (forall x', kept off (off + n) x x' -> slice x' off n = slice y off n -> Q PSA_SUCCESS (with_block i s x')) ->
  triple V i (move info s off src off n) Q.
Proof.
  intros Hx Hy Hne Ho Hn Hs Hg HQ. apply t_ok with info; [done|]. intros Hi.
  destruct (block_size_of info _ _ _ Hi Hx) as [Hlx _]. destruct (block_size_of info _ _ _ Hi Hy) as [Hly _].
  pose proof (slice_len y off n ltac:(lia) ltac:(lia) ltac:(lia)) as Hl.
  eapply (t_move info V); [exact Hne|exact Hx|exact Hy|lia..| |].
  { intros k Hk. pose proof (slice_len y off k ltac:(lia) ltac:(lia) ltac:(lia)).
    apply Hg. eapply kept_wider; [| |apply (kept_patch x off (slice y off k) k)]; lia. }
  apply HQ.
  - apply kept_patch; lia.
  - apply slice_patch_same; lia.
Qed.

(** The entries of a window that was copied. *)
Lemma copied_bmeta x y a n j :
  slice x a n = slice y a n -> 0 <= a -> a <= boff j -> boff j + 24 <= a + n -> bmeta x j = bmeta y j.
Proof.
  intros Hs ? ? ?. unfold bmeta, SFS_BLOCK_METADATA_SIZE. f_equal.
  replace (boff j) with (a + (boff j - a)) by lia. by rewrite (slice_slice x a n), (slice_slice y a n), Hs by lia.
Qed.

Lemma copied_fmeta x y a n j :
  slice x a n = slice y a n -> 0 <= a -> a <= foff j -> foff j + 48 <= a + n -> fmeta x j = fmeta y j.
Proof.
  intros Hs ? ? ?. unfold fmeta, SFS_FILE_METADATA_SIZE. f_equal.
  replace (foff j) with (a + (foff j - a)) by lia. by rewrite (slice_slice x a n), (slice_slice y a n), Hs by lia.
Qed.

Lemma kept_bmeta a b x y j : kept a b x y -> 0 <= boff j -> boff j + 24 <= a \/ b <= boff j -> bmeta y j = bmeta x j.
Proof. intros [_ Hk] ? ?. unfold bmeta, SFS_BLOCK_METADATA_SIZE. f_equal. apply Hk; lia. Qed.

Lemma kept_fmeta a b x y j : kept a b x y -> 0 <= foff j -> foff j + 48 <= a \/ b <= foff j -> fmeta y j = fmeta x j.
Proof. intros [_ Hk] ? ?. unfold fmeta, SFS_FILE_METADATA_SIZE. f_equal. apply Hk; lia. Qed.


(** ** Updating the table of blocks *)
Definition with_phy (m : sfs_block_meta_t) (b : Z) : sfs_block_meta_t :=
  BlockMeta b (data_start m) (free_size m) (block_pad m).

Lemma with_phy_ok m b : fits 32 b -> block_meta_ok m -> block_meta_ok (with_phy m b).
Proof. by intros ? (_ & ? & ? & ?). Qed.

(** The entry of block [j] once the table is copied around entry [lb]. *)
Definition new_bmeta (y : bytes) (s lb : Z) (m : sfs_block_meta_t) (j : Z) : sfs_block_meta_t :=
  if j =? lb then (if lb =? 0 then with_phy m s else m)
  else if j =? 0 then with_phy (bmeta y 0) s else bmeta y j.

Lemma active_with_scratch i x y :
  image_ok info i -> block i (i_scratch i) = Some x -> block i (i_active i) = Some y -> i_active i <> i_scratch i ->
  forall x', block (with_block i (i_scratch i) x') (i_active i) = Some y /\
             block (with_block i (i_scratch i) x') (i_scratch i) = Some x'.
Proof.
  intros Hi Hx Hy Hne x'. destruct (block_size_of info _ _ _ Hi Hx) as [_ ?]. destruct (block_size_of info _ _ _ Hi Hy) as [_ ?].
  rewrite !(block_with_block info) by (done || lia). rewrite Z.eqb_refl. by destruct (Z.eqb_spec (i_active i) (i_scratch i)).
Qed.

(** The end of the copy: the entries behind [lb]. *)
Lemma t_copy_rest i x y lb (Q : Z -> image -> Prop) :
  block i (i_scratch i) = Some x -> block i (i_active i) = Some y -> i_active i <> i_scratch i ->
  0 <= lb < dblocks -> open i (i_scratch i) (boff (lb + 1)) (foff 0) x ->
  (forall x', kept (boff (lb + 1)) (foff 0) x x' ->
     (forall j, lb < j < dblocks -> bmeta x' j = bmeta y j) -> Q PSA_SUCCESS (with_block i (i_scratch i) x')) ->
  triple V i (move info (i_scratch i) (boff (u32 (lb + 1))) (i_active i) (boff (u32 (lb + 1)))
    (u64 (foff 0 - boff (u32 (lb + 1))))) Q.
Proof.
  intros Hx Hy Hne Hlb Hg HQ. pose proof layout. pose proof dblocks_range as (? & _).
  pose proof (boff_range _ Hlb). assert (boff (lb + 1) = boff lb + 24) as Hb
    by (unfold sfs_mblock_block_meta_offset, SFS_BLOCK_METADATA_SIZE; lia).
  rewrite (wrap_small 32 (lb + 1)), (wrap_small 64) by lia.
  eapply t_move_same; [exact Hx|exact Hy|done|lia..|by rewrite Zplus_minus|]. intros x' Hk Hs.
  rewrite Zplus_minus in Hk. apply HQ; [done|]. intros j Hj. pose proof (boff_range j ltac:(lia)).
  eapply copied_bmeta; [exact Hs|lia| |lia]. unfold sfs_mblock_block_meta_offset, SFS_BLOCK_METADATA_SIZE in *. lia.
Qed.

Lemma t_copy_remaining i x y lb m (Q : Z -> image -> Prop) :
  block i (i_scratch i) = Some x -> block i (i_active i) = Some y -> i_active i <> i_scratch i ->
  fits 32 (i_scratch i) -> 0 <= lb < dblocks -> bmeta x lb = (if lb =? 0 then with_phy m (i_scratch i) else m) ->
  open i (i_scratch i) 8 (foff 0) x ->
  (forall x', kept 8 (foff 0) x x' -> (forall j, 0 <= j < dblocks -> bmeta x' j = new_bmeta y (i_scratch i) lb m j) ->
     Q PSA_SUCCESS (with_block i (i_scratch i) x')) ->
  triple V i (sfs_mblock_copy_remaining_block_meta info lb) Q.
Proof.
  intros Hx Hy Hne Hs Hlb Hm Hg HQ. apply t_ok with info; [done|]. intros Hi.
  pose proof layout. pose proof (boff_range _ Hlb). pose proof (boff_range 0 ltac:(lia)).
  assert (boff (lb + 1) = boff lb + 24) as Hb1 by (unfold sfs_mblock_block_meta_offset, SFS_BLOCK_METADATA_SIZE; lia).
  pose proof (active_with_scratch i x y Hi Hx Hy Hne) as Hw.
  destruct (block_size_of info _ _ _ Hi Hy) as [Hly _].
  apply t_bind, t_scratch, t_bind, t_active. destruct (Z.eqb_spec lb SFS_LOGICAL_DBLOCK0) as [->|Hlb0].
  { eapply t_copy_rest; [done..|eapply open_narrow; [exact Hg|lia|lia]|]. intros x' Hk Hb. apply HQ; [eapply kept_wider; [..|exact Hk]; lia|].
    intros j Hj. unfold new_bmeta. destruct (Z.eqb_spec j SFS_LOGICAL_DBLOCK0) as [->|].
    - rewrite (kept_bmeta _ _ _ _ _ Hk) by lia. by rewrite Hm.
    - destruct (Z.eqb_spec j 0); [done|]. apply Hb. unfold SFS_LOGICAL_DBLOCK0 in *. lia. }
  unfold SFS_LOGICAL_DBLOCK0 in *. cbn [negb]. apply t_bind. eapply t_read_block_meta; [exact Hy|lia|]. cbn [negb Z.eqb PSA_SUCCESS].
  apply t_check_as. eapply t_update_block_raw; [exact Hx|lia|apply (with_phy_ok (bmeta y 0)); [done|apply bmeta_ok; lia]|eapply open_narrow; [exact Hg|lia|lia]|].
  intros x1 Hk1 Hb1'. split; [done|]. destruct (Hw x1) as [Hy1 Hx1].
  assert (boff 0 + 24 = boff 1) as Hb01 by done.
  assert (boff 0 + 24 <= boff lb /\ (lb = 1 \/ boff 1 + 24 <= boff lb)) as Hlb1
    by (unfold sfs_mblock_block_meta_offset, SFS_BLOCK_METADATA_SIZE; lia).
  (* the last step, from the contents [x2] *)
  assert (forall x2, kept (boff 0) (boff lb) x1 x2 ->
    (forall j, 0 < j < lb -> bmeta x2 j = bmeta y j) -> bmeta x2 0 = with_phy (bmeta y 0) (i_scratch i) ->
    triple V (with_block i (i_scratch i) x2)
      (move info (i_scratch i) (boff (u32 (lb + 1))) (i_active i) (boff (u32 (lb + 1))) (u64 (foff 0 - boff (u32 (lb + 1))))) Q) as Hlast.
  { intros x2 Hk2 Hbefore Hzero. destruct (Hw x2) as [Hy2 Hx2].
    eapply (t_copy_rest (with_block i (i_scratch i) x2)); [done..| |].
    { eapply open_after; [exact Hg| |lia|lia]. eapply kept_trans; (eapply kept_wider; [| |eassumption]); lia. }
    intros x3 Hk3 Hafter. cbn [i_scratch with_block with_blocks].
    rewrite with_block_again. apply HQ.
    - eapply kept_trans; [eapply kept_trans|]; (eapply kept_wider; [| |eassumption]); lia.
    - intros j Hj. pose proof (boff_range _ Hj). unfold new_bmeta. destruct (Z.eqb_spec j lb) as [->|].
      + rewrite (kept_bmeta _ _ _ _ _ Hk3), (kept_bmeta _ _ _ _ _ Hk2), (kept_bmeta _ _ _ _ _ Hk1) by lia.
        rewrite Hm. by destruct (Z.eqb_spec lb 0).
      + destruct (Z.ltb_spec lb j); [rewrite Hafter by lia; by destruct (Z.eqb_spec j 0); [lia|]|].
        pose proof (boff_disjoint j lb ltac:(lia)).
        assert (boff j < boff lb) by (unfold sfs_mblock_block_meta_offset, SFS_BLOCK_METADATA_SIZE in *; lia).
        rewrite (kept_bmeta _ _ _ _ _ Hk3) by lia.
        destruct (Z.eqb_spec j 0) as [->|]; [done|]. apply Hbefore. lia. }
  destruct (Z.ltb_spec 1 lb) as [Hgt|Hle].
  - apply t_check. change (0 + 1) with 1. rewrite (wrap_small 64) by lia.
    eapply (t_move_same (with_block i (i_scratch i) x1)); [exact Hx1|exact Hy1|lia..| |].
    { rewrite Zplus_minus. eapply open_after; [exact Hg| |lia|lia]. eapply kept_wider; [| |exact Hk1]; lia. }
    intros x2 Hk2 Hs2. split; [done|].
    cbn [i_scratch with_block with_blocks] in *. rewrite with_block_again. rewrite Zplus_minus in Hk2.
    apply Hlast.
    + eapply kept_wider; [..|exact Hk2]; lia.
    + intros j Hj. pose proof (boff_range j ltac:(lia)).
      eapply copied_bmeta; [exact Hs2|lia| |]; unfold sfs_mblock_block_meta_offset, SFS_BLOCK_METADATA_SIZE in *; lia.
    + rewrite (kept_bmeta _ _ _ _ _ Hk2) by lia. done.
  - apply Hlast; [apply kept_refl|lia|done].
Qed.

Lemma t_update_block_meta i x y lb m (Q : Z -> image -> Prop) :
  block i (i_scratch i) = Some x -> block i (i_active i) = Some y -> i_active i <> i_scratch i ->
  fits 32 (i_scratch i) -> 0 <= lb < dblocks -> block_meta_ok m -> open i (i_scratch i) 8 (foff 0) x ->
  (forall x', kept 8 (foff 0) x x' -> (forall j, 0 <= j < dblocks -> bmeta x' j = new_bmeta y (i_scratch i) lb m j) ->
     Q PSA_SUCCESS (with_block i (i_scratch i) x')) ->
  triple V i (sfs_flash_fs_mblock_update_scratch_block_meta info lb m) Q.
Proof.
  intros Hx Hy Hne Hs Hlb Hm Hg HQ. apply t_ok with info; [done|]. intros Hi.
  pose proof (boff_range _ Hlb). pose proof layout. pose proof (active_with_scratch i x y Hi Hx Hy Hne) as Hw.
  apply t_bind, t_scratch, t_check_as.
  eapply t_update_block_raw; [exact Hx|done|by destruct (Z.eqb_spec lb SFS_LOGICAL_DBLOCK0); [apply with_phy_ok|]|eapply open_narrow; [exact Hg|lia|lia]|].
  intros x1 Hk1 Hb1. split; [done|]. destruct (Hw x1) as [Hy1 Hx1].
  eapply (t_copy_remaining (with_block i (i_scratch i) x1)); [exact Hx1|exact Hy1|done|done|done|exact Hb1| |].
  { eapply open_after; [exact Hg| |lia|lia]. eapply kept_wider; [| |exact Hk1]; lia. }
  intros x2 Hk2 Hb2. cbn [i_scratch with_block with_blocks] in *. rewrite with_block_again. apply HQ; [|done].
  eapply kept_trans; [|exact Hk2]. eapply kept_wider; [..|exact Hk1]; lia.
Qed.


(** ** The table of files, the data of logical block 0, and the commit *)
Lemma t_cp_remaining i x y idx (Q : Z -> image -> Prop) :
  block i (i_scratch i) = Some x -> block i (i_active i) = Some y -> i_active i <> i_scratch i ->
  0 <= idx < files -> open i (i_scratch i) (foff 0) (foff files) x ->
  (forall x', kept (foff 0) (foff files) x x' ->
     (forall j, 0 <= j < files -> fmeta x' j = if j =? idx then fmeta x idx else fmeta y j) ->
     Q PSA_SUCCESS (with_block i (i_scratch i) x')) ->
  triple V i (sfs_flash_fs_mblock_cp_remaining_file_meta info idx) Q.
Proof.
  intros Hx Hy Hne Hidx Hg HQ. apply t_ok with info; [done|]. intros Hi.
  pose proof layout. pose proof (foff_range _ Hidx). pose proof (active_with_scratch i x y Hi Hx Hy Hne) as Hw.
  assert (foff 0 + idx * 48 = foff idx /\ foff (idx + 1) = foff idx + 48) as [Hf0 Hf1]
    by (unfold sfs_mblock_file_meta_offset, SFS_FILE_METADATA_SIZE; lia).
  apply t_bind, t_scratch, t_bind, t_active. cbv zeta. apply t_check.
  eapply t_move_same; [exact Hx|exact Hy|by intros ?; apply Hne|lia|unfold SFS_FILE_METADATA_SIZE; lia..|eapply open_narrow; [exact Hg|lia|unfold SFS_FILE_METADATA_SIZE; lia]|].
  intros x1 Hk1 Hs1. split; [done|]. unfold SFS_FILE_METADATA_SIZE in Hk1, Hs1. destruct (Hw x1) as [Hy1 Hx1].
  destruct cfg as [Hfl _ _]. cbv zeta. rewrite (wrap_small 32 (idx + 1)) by lia. destruct (Z.ltb_spec (foff (idx + 1)) (foff files)) as [Hmore|Hlast].
  - eapply (t_move_same (with_block i (i_scratch i) x1)); [exact Hx1|exact Hy1|by intros ?; apply Hne|lia..| |].
    { eapply open_after; [exact Hg| |lia|lia]. eapply kept_wider; [| |exact Hk1]; lia. }
    intros x2 Hk2 Hs2. rewrite Zplus_minus in Hk2. cbn [i_scratch with_block with_blocks]. rewrite with_block_again. apply HQ.
    + eapply kept_trans; (eapply kept_wider; [| |eassumption]); lia.
    + intros j Hj. pose proof (foff_range _ Hj). destruct (Z.eqb_spec j idx) as [->|].
      * rewrite (kept_fmeta _ _ _ _ _ Hk2), (kept_fmeta _ _ _ _ _ Hk1) by lia. done.
      * pose proof (foff_disjoint j idx ltac:(lia)). destruct (Z.ltb_spec j idx).
        -- rewrite (kept_fmeta _ _ _ _ _ Hk2) by (unfold sfs_mblock_file_meta_offset, SFS_FILE_METADATA_SIZE in *; lia).
           eapply copied_fmeta; [exact Hs1|lia|lia|unfold sfs_mblock_file_meta_offset, SFS_FILE_METADATA_SIZE in *; lia].
        -- eapply copied_fmeta; [exact Hs2|lia|unfold sfs_mblock_file_meta_offset, SFS_FILE_METADATA_SIZE in *; lia|lia].
  - apply t_ret. apply HQ; [eapply kept_wider; [| |exact Hk1]; lia|]. intros j Hj. pose proof (foff_range _ Hj).
    destruct (Z.eqb_spec j idx) as [->|]; [by rewrite (kept_fmeta _ _ _ _ _ Hk1) by lia|].
    eapply copied_fmeta; [exact Hs1|lia|lia|unfold sfs_mblock_file_meta_offset, SFS_FILE_METADATA_SIZE in *; lia].
Qed.

Lemma t_migrate i x y (Q : Z -> image -> Prop) :
  block i (i_scratch i) = Some x -> block i (i_active i) = Some y -> i_active i <> i_scratch i ->
  let ds := data_start (bmeta y 0) in let used := block_size info - free_size (bmeta y 0) in
  0 <= ds <= used -> used <= block_size info -> open i (i_scratch i) ds used x ->
  (forall x', kept ds used x x' -> slice x' ds (used - ds) = slice y ds (used - ds) ->
     Q PSA_SUCCESS (with_block i (i_scratch i) x')) ->
  triple V i (sfs_flash_fs_mblock_migrate_lb0_data_to_scratch info) Q.
Proof.
  intros Hx Hy Hne ds used Hds Hused Hg HQ. pose proof layout. pose proof dblocks_range as (? & _).
  unfold sfs_flash_fs_mblock_migrate_lb0_data_to_scratch, SFS_LOGICAL_DBLOCK0.
  apply t_bind. eapply t_read_block_meta; [exact Hy|lia|]. cbn [negb Z.eqb PSA_SUCCESS].
  rewrite (wrap_small 64 (block_size info - _)), (wrap_small 64) by lia.
  replace (block_size info - data_start (bmeta y 0) - free_size (bmeta y 0)) with (used - ds) by lia.
  apply t_bind, t_scratch, t_bind, t_active.
  fold ds. eapply t_move_same; [exact Hx|exact Hy|by intros ?; apply Hne|lia..|by rewrite Zplus_minus|]. intros x' Hk Hs. rewrite Zplus_minus in Hk. by apply HQ.
Qed.

Definition next_count (c : Z) : Z := if u8 (c + 1) =? erase_val info then 0 else u8 (c + 1).

Lemma next_count_range c : 0 <= next_count c < 256.
Proof. unfold next_count. pose proof (wrap_fits 8 (c + 1) ltac:(lia)) as Hf. unfold fits in Hf. case_match; lia. Qed.

Definition next_header (h : sfs_metadata_block_header_t) : sfs_metadata_block_header_t :=
  Header (scratch_dblock h) (fs_version h) (next_count (active_swap_count h)) (header_pad h).

Lemma next_header_ok h : header_ok h -> header_ok (next_header h).
Proof. intros (? & ? & ? & ?). split; [done|]. split; [done|]. split; [apply next_count_range|done]. Qed.

Lemma t_write_header i x (Q : Z -> image -> Prop) :
  block i (i_scratch i) = Some x -> header_ok (i_header i) ->
  (forall x', kept 0 8 x x' -> hmeta x' = next_header (i_header i) ->
     allowed V (with_block i (i_scratch i) x') /\ Q PSA_SUCCESS (with_block (with_header i (next_header (i_header i))) (i_scratch i) x')) ->
  triple V i (sfs_mblock_write_scratch_meta_header info) Q.
Proof.
  intros Hx Hh HQ. pose proof layout. apply t_bind, t_header. cbv beta zeta.
  assert ((if negb (sfs_mblock_validate_swap_count info (u8 (active_swap_count (i_header i) + 1)) =? PSA_SUCCESS) then 0
           else u8 (active_swap_count (i_header i) + 1)) = next_count (active_swap_count (i_header i))) as ->
    by (unfold next_count, sfs_mblock_validate_swap_count; by destruct (_ =? erase_val info)).
  apply t_bind, t_set_header. fold (next_header (i_header i)). pose proof (next_header_ok _ Hh) as Hn.
  eapply (t_write_scratch (with_header i (next_header (i_header i)))); [exact Hx|by apply header_bytes_len|done|unfold SFS_BLOCK_META_HEADER_SIZE; lia|].
  intros _ Hk Hs. destruct (HQ (patch x 0 (header_bytes (next_header (i_header i))))) as [Hal HQ'];
    [exact Hk|unfold hmeta; by rewrite Hs, header_roundtrip|]. split; [|exact HQ'].
  intros k Hk8. apply list_elem_of_singleton in Hk8 as ->. by rewrite <- (header_bytes_len _ Hn), slice_all.
Qed.

(** After the header is written: the old metablock is there still, or erased. *)
Record committed (i : image) (x : bytes) (i' : image) : Prop := {
  cm_header : i_header i' = next_header (i_header i);
  cm_active : i_active i' = i_scratch i;
  cm_scratch : i_scratch i' = i_active i;
  cm_meta : exists x', block i' (i_scratch i) = Some x' /\ kept 0 8 x x' /\ hmeta x' = next_header (i_header i);
  cm_old : block i' (i_active i) = block i (i_active i) \/ exists e, block i' (i_active i) = Some e /\ fv_erased V e;
  cm_other : forall b, 0 <= b -> b <> i_scratch i -> b <> i_active i ->
    (2 < num_blocks info -> b <> scratch_dblock (i_header i)) -> block i' b = block i b
}.

Lemma t_finalize i x (Q : Z -> image -> Prop) :
  block i (i_scratch i) = Some x -> header_ok (i_header i) -> i_active i <> i_scratch i ->
  0 <= i_active i < num_blocks info ->
  (2 < num_blocks info -> 0 <= scratch_dblock (i_header i) < num_blocks info /\
     scratch_dblock (i_header i) <> i_scratch i /\ scratch_dblock (i_header i) <> i_active i) ->
  (forall i', image_ok info i' -> committed i x i' ->
     allowed V i' /\ ((exists e, block i' (i_active i) = Some e /\ fv_erased V e) -> Q PSA_SUCCESS i')) ->
  triple V i (sfs_flash_fs_mblock_meta_update_finalize info) Q.
Proof.
  intros Hx Hh Hne Ha Hd HQ. apply t_ok with info; [done|]. intros Hi. destruct (block_size_of info _ _ _ Hi Hx) as [Hlx Hs].
  apply t_check. eapply t_write_header; [done..|]. intros x' Hk Hx'.
  assert (len x' = block_size info) as Hlx' by (destruct Hk; lia).
  set (i1 := Image (next_header (i_header i)) (i_scratch i) (i_active i) (<[Z.to_nat (i_scratch i):=x']> (i_blocks i))).
  assert (image_ok info i1) as Hi1 by exact (with_block_ok info i (i_scratch i) x' Hi Hlx').
  assert (forall b, 0 <= b -> block i1 b = if b =? i_scratch i then Some x' else block i b) as Hb1
    by (intros b Hb; exact (block_with_block info i (i_scratch i) x' b Hi Hs Hb)).
  (* the states from the header on *)
  assert (forall i', image_ok info i' -> i_header i' = next_header (i_header i) -> i_active i' = i_scratch i ->
    i_scratch i' = i_active i ->
    (block i' (i_active i) = block i (i_active i) \/ exists e, block i' (i_active i) = Some e /\ fv_erased V e) ->
    (forall b, 0 <= b -> b <> i_active i -> (2 < num_blocks info -> b <> scratch_dblock (i_header i)) -> block i' b = block i1 b) ->
    committed i x i') as Hcm.
  { intros i' Hi' H1 H2 H3 Hold Hb. split; [done..| |done|].
    - exists x'. split; [|done]. rewrite Hb, Hb1, Z.eqb_refl by (lia || (intros; destruct Hd; auto)). done.
    - intros b Hb0 Hbs Hba Hbd. rewrite Hb, Hb1 by done. by destruct (Z.eqb_spec b (i_scratch i)). }
  split.
  { apply (HQ i1); [done|]. apply Hcm; try done. left. rewrite Hb1 by lia. by destruct (Z.eqb_spec (i_active i) (i_scratch i)). }
  split; [done|]. apply t_check, t_flush; [done|]. split; [done|].
  apply t_bind. unfold sfs_mblock_swap_metablocks. apply t_bind, t_active, t_bind, t_scratch, t_set_metablocks.
  cbn [i_active i_scratch i_header i_blocks with_block with_blocks with_header]. fold i1.
  unfold sfs_mblock_erase_scratch_blocks. apply t_bind, t_scratch, t_bind. cbn [i_scratch i1].
  eapply (t_erase info V); [done|]. intros e He Her.
  set (i2 := with_block i1 (i_active i) e). assert (image_ok info i2) as Hi2 by by apply with_block_ok.
  assert (forall b, 0 <= b -> block i2 b = if b =? i_active i then Some e else block i1 b) as Hb2
    by (intros b Hb; by apply (block_with_block info)).
  assert (committed i x i2) as Hcm2.
  { apply Hcm; try done.
    - right. exists e. split; [|done]. by rewrite Hb2, Z.eqb_refl by lia.
    - intros b Hb Hba _. rewrite Hb2 by done. by destruct (Z.eqb_spec b (i_active i)). }
  assert (exists e, block i2 (i_active i) = Some e /\ fv_erased V e) as Hold2 by (exists e; split; [by rewrite Hb2, Z.eqb_refl by lia|done]).
  split; [by apply HQ|]. cbn [negb Z.eqb PSA_SUCCESS].
  destruct (Z.ltb_spec 2 (num_blocks info)) as [Hnb|Hnb]; [|apply t_ret; by apply HQ].
  apply t_bind. change (sfs_flash_fs_mblock_cur_data_scratch_id (SFS_LOGICAL_DBLOCK0 + 1))
    with (h ← get (F := F) meta_block_header; mret (scratch_dblock h)).
  apply t_bind, t_header, t_ret. cbn [i_header i2 i1 with_block with_blocks]. destruct (Hd Hnb) as (Hdr & Hds & Hda).
  eapply (t_erase info V); [exact Hdr|]. intros e2 He2 Her2.
  set (i3 := with_block i2 _ e2). assert (image_ok info i3) as Hi3 by by apply with_block_ok.
  assert (forall b, 0 <= b -> block i3 b = if b =? scratch_dblock (i_header i) then Some e2 else block i2 b) as Hb3
    by (intros b Hb; by apply (block_with_block info)).
  assert (exists e, block i3 (i_active i) = Some e /\ fv_erased V e) as Hold3.
  { destruct Hold2 as (e' & Hb & He'). exists e'. split; [|done]. rewrite Hb3 by lia.
    by destruct (Z.eqb_spec (i_active i) (scratch_dblock (i_header i))); [congruence|]. }
  assert (committed i x i3) as Hcm3.
  { apply Hcm; try done; [by right|]. intros b Hb Hba Hbd. rewrite Hb3, Hb2 by done.
    destruct (Z.eqb_spec b (scratch_dblock (i_header i))); [by destruct (Hbd Hnb)|]. by destruct (Z.eqb_spec b (i_active i)). }
  split; by apply HQ.
Qed.

End Meta.

#[global] Arguments bmeta : simpl never.
#[global] Arguments fmeta {F} info x j : simpl never.
#[global] Arguments hmeta : simpl never.
