(* ===== verification/SfsData.v ===== *)
(** * The data blocks of the flash file system

    The invariant of a mounted file system: its metadata, and the files in the data blocks,
    which lie behind each other without a gap.  Rules for the functions that write data. *)
From S2P Require Import Prelude Status SfsFlash SfsMblock SfsFs SfsLogic SfsMeta.

(** A file identifier of a file: not all octets are zero. *)
Definition valid_fid (fid : bytes) : bool := sfs_utils_validate_fid fid =? PSA_SUCCESS.

Definition sumZ (l : list Z) : Z := foldr Z.add 0 l.

(** ** Sums over the table of files *)
Lemma sumZ_app l k : sumZ (l ++ k) = sumZ l + sumZ k.
Proof. unfold sumZ. induction l; cbn; lia. Qed.

Lemma sumZ_nonneg {A} (f : A -> Z) l : (forall x, x ∈ l -> 0 <= f x) -> 0 <= sumZ (f <$> l).
Proof.
  induction l as [|x l IH]; intros Hf; cbn; [lia|].
  pose proof (Hf x ltac:(set_solver)). pose proof (IH ltac:(set_solver)). unfold sumZ in *. lia.
Qed.

Lemma sumZ_ext {A} (f g : A -> Z) l : (forall x, x ∈ l -> f x = g x) -> sumZ (f <$> l) = sumZ (g <$> l).
Proof.
  induction l as [|x l IH]; intros Hf; cbn; [done|].
  rewrite Hf by set_solver. unfold sumZ in IH. rewrite IH by set_solver. done.
Qed.

Lemma sumZ_le {A} (f g : A -> Z) l : (forall x, x ∈ l -> f x <= g x) -> sumZ (f <$> l) <= sumZ (g <$> l).
Proof.
  induction l as [|x l IH]; intros Hf; cbn; [done|].
  pose proof (Hf x ltac:(set_solver)). pose proof (IH ltac:(set_solver)). unfold sumZ in *. lia.
Qed.

(** A sum that differs from another at one index only. *)
Lemma sumZ_change (f g : Z -> Z) n k :
  0 <= k < n -> (forall j, 0 <= j < n -> j <> k -> f j = g j) ->
  sumZ (f <$> seqZ 0 n) = sumZ (g <$> seqZ 0 n) + f k - g k.
Proof.
  intros Hk Hfg. replace n with (k + (1 + (n - k - 1))) by lia.
  rewrite (seqZ_app 0 k), (seqZ_app (0 + k) 1) by lia. rewrite !fmap_app, !sumZ_app.
  rewrite (sumZ_ext f g (seqZ 0 k)), (sumZ_ext f g (seqZ (0 + k + 1) (n - k - 1)))
    by (intros x Hx%elem_of_seqZ; apply Hfg; lia).
  replace (seqZ (0 + k) 1) with [k]; [cbn; lia|].
  rewrite seqZ_cons by lia. done.
Qed.

Lemma sumZ_same (f g : Z -> Z) n :
  (forall j, 0 <= j < n -> f j = g j) -> sumZ (f <$> seqZ 0 n) = sumZ (g <$> seqZ 0 n).
Proof. intros H. apply sumZ_ext. intros x Hx%elem_of_seqZ. apply H. lia. Qed.


Section Inv.
Context {F : Type} (info : sfs_flash_info_t F) (V : flash_view F) `{!FlashLaws info V}.

Abbreviation files := (max_num_files info).
Abbreviation dblocks := (sfs_num_active_dblocks info).
Abbreviation bsize := (block_size info).
Abbreviation foff := (sfs_mblock_file_meta_offset info).

(** Where the data of a logical block begin and end. *)
Definition dstart (lb : Z) : Z := if lb =? 0 then foff files else 0.
Definition dend (y : bytes) (lb : Z) : Z := bsize - free_size (bmeta y lb).

(** Entry [j] of metablock [y] is a file in logical block [lb]. *)
Definition in_block (y : bytes) (lb j : Z) : bool :=
  valid_fid (fm_id (fmeta info y j)) && (lblock (fmeta info y j) =? lb).

(** The sizes of the files of a block whose data begin behind [p]. *)
Definition size_behind (y : bytes) (lb p : Z) : Z :=
  sumZ ((fun j => if in_block y lb j && (p <? data_idx (fmeta info y j)) then max_size (fmeta info y j) else 0)
    <$> seqZ 0 files).

(** The table of blocks of an active metablock [y], with number [a] and scratch data block [sd].
    The data of logical block 0 are in the active metablock; after a reset, when there are none,
    its entry names the other one. *)
Record blocks_ok (y : bytes) (a sd : Z) : Prop := {
  bo_zero : phy_id (bmeta y 0) = a \/ dend y 0 = dstart 0 /\ phy_id (bmeta y 0) = 1 - a;
  bo_start : forall lb, 0 <= lb < dblocks -> data_start (bmeta y lb) = dstart lb;
  bo_end : forall lb, 0 <= lb < dblocks -> dstart lb <= dend y lb <= bsize;
  bo_phy : forall lb, 0 < lb < dblocks -> 2 <= phy_id (bmeta y lb) < num_blocks info /\ phy_id (bmeta y lb) <> sd;
  bo_inj : forall lb lb', 0 < lb < dblocks -> 0 < lb' < dblocks ->
    phy_id (bmeta y lb) = phy_id (bmeta y lb') -> lb = lb';
  bo_scratch : 2 < num_blocks info -> 2 <= sd < num_blocks info
}.

(** The files of a block lie one behind the other up to its end. *)
Record files_ok (y : bytes) : Prop := {
  fo_block : forall j, 0 <= j < files -> valid_fid (fm_id (fmeta info y j)) = true -> lblock (fmeta info y j) < dblocks;
  fo_size : forall j, 0 <= j < files -> valid_fid (fm_id (fmeta info y j)) = true ->
    cur_size (fmeta info y j) <= max_size (fmeta info y j) /\ 0 < max_size (fmeta info y j) /\
    dstart (lblock (fmeta info y j)) <= data_idx (fmeta info y j);
  fo_behind : forall lb j, 0 <= j < files -> in_block y lb j = true ->
    data_idx (fmeta info y j) + max_size (fmeta info y j) + size_behind y lb (data_idx (fmeta info y j)) = dend y lb;
  fo_apart : forall lb j k, 0 <= j < files -> 0 <= k < files -> in_block y lb j = true -> in_block y lb k = true ->
    data_idx (fmeta info y j) = data_idx (fmeta info y k) -> j = k;
  fo_id : forall j k, 0 <= j < files -> 0 <= k < files -> valid_fid (fm_id (fmeta info y j)) = true ->
    fm_id (fmeta info y j) = fm_id (fmeta info y k) -> j = k
}.

(** ** Consequences of the invariant *)
Hypothesis cfg : config_ok info.

Lemma in_block_true y lb j :
  in_block y lb j = true <-> valid_fid (fm_id (fmeta info y j)) = true /\ lblock (fmeta info y j) = lb.
Proof. unfold in_block. rewrite andb_true_iff, Z.eqb_eq. done. Qed.

Lemma in_block_own y j : valid_fid (fm_id (fmeta info y j)) = true -> in_block y (lblock (fmeta info y j)) j = true.
Proof. intros. by apply in_block_true. Qed.

Lemma in_block_size y lb j : files_ok y -> 0 <= j < files -> in_block y lb j = true ->
  0 < max_size (fmeta info y j) /\ cur_size (fmeta info y j) <= max_size (fmeta info y j) /\
  dstart lb <= data_idx (fmeta info y j) /\ lb < dblocks.
Proof.
  intros Hy Hj [Hv <-]%in_block_true. destruct (fo_size _ Hy j Hj Hv) as (? & ? & ?).
  pose proof (fo_block _ Hy j Hj Hv). lia.
Qed.

Lemma size_behind_nonneg y lb p : files_ok y -> 0 <= size_behind y lb p.
Proof.
  intros Hy. apply sumZ_nonneg. intros j Hj%elem_of_seqZ. destruct (in_block y lb j) eqn:Hb; [|done].
  pose proof (in_block_size y lb j Hy ltac:(lia) Hb). cbn. destruct (p <? _); lia.
Qed.

Lemma file_end y lb j : files_ok y -> 0 <= j < files -> in_block y lb j = true ->
  data_idx (fmeta info y j) + max_size (fmeta info y j) <= dend y lb.
Proof.
  intros Hy Hj Hb. pose proof (fo_behind _ Hy _ _ Hj Hb). pose proof (size_behind_nonneg y lb (data_idx (fmeta info y j)) Hy). lia.
Qed.

(** The sum behind [p] holds what is behind file [k], and file [k] if it begins behind [p]. *)
Lemma size_behind_split y lb p k :
  files_ok y -> 0 <= k < files -> in_block y lb k = true -> p < data_idx (fmeta info y k) ->
  max_size (fmeta info y k) + size_behind y lb (data_idx (fmeta info y k)) <= size_behind y lb p.
Proof.
  intros Hy Hk Hb Hp. unfold size_behind.
  set (g j := (if in_block y lb j && (data_idx (fmeta info y k) <? data_idx (fmeta info y j)) then max_size (fmeta info y j) else 0)).
  set (g' j := if j =? k then max_size (fmeta info y k) else g j).
  assert (g k = 0) as Hgk by (unfold g; rewrite Z.ltb_irrefl; by destruct (in_block y lb k)).
  assert (sumZ (g' <$> seqZ 0 files) = sumZ (g <$> seqZ 0 files) + max_size (fmeta info y k)) as Hsum.
  { rewrite (sumZ_change g' g files k); [|lia|].
    - unfold g' at 1. rewrite Z.eqb_refl. lia.
    - intros j _ Hne. unfold g'. by destruct (Z.eqb_spec j k). }
  rewrite Z.add_comm, <- Hsum. apply sumZ_le. intros j Hj%elem_of_seqZ. unfold g', g.
  destruct (Z.eqb_spec j k) as [->|].
  - rewrite Hb. destruct (Z.ltb_spec p (data_idx (fmeta info y k))); [done|lia].
  - destruct (in_block y lb j) eqn:Hbj; cbn; [|done].
    destruct (in_block_size y lb j Hy ltac:(lia) Hbj).
    destruct (Z.ltb_spec (data_idx (fmeta info y k)) (data_idx (fmeta info y j))),
      (Z.ltb_spec p (data_idx (fmeta info y j))); lia.
Qed.

(** Two files of a block do not overlap. *)
Lemma files_apart y lb j k :
  files_ok y -> 0 <= j < files -> 0 <= k < files -> in_block y lb j = true -> in_block y lb k = true -> j <> k ->
  data_idx (fmeta info y j) + max_size (fmeta info y j) <= data_idx (fmeta info y k) \/
  data_idx (fmeta info y k) + max_size (fmeta info y k) <= data_idx (fmeta info y j).
Proof.
  intros Hy Hj Hk Hbj Hbk Hne.
  pose proof (fo_behind _ Hy _ _ Hj Hbj). pose proof (fo_behind _ Hy _ _ Hk Hbk).
  destruct (Z.lt_trichotomy (data_idx (fmeta info y j)) (data_idx (fmeta info y k))) as [Hlt|[Heq|Hlt]].
  - pose proof (size_behind_split y lb _ k Hy Hk Hbk Hlt). lia.
  - by destruct Hne; apply (fo_apart _ Hy lb).
  - pose proof (size_behind_split y lb _ j Hy Hj Hbj Hlt). lia.
Qed.

(** ** Writing the data of a file *)
Lemma t_cur_scratch i lb (Q : Z -> image -> Prop) :
  Q (if lb =? 0 then i_scratch i else scratch_dblock (i_header i)) i ->
  triple V i (sfs_flash_fs_mblock_cur_data_scratch_id lb) Q.
Proof.
  intros HQ. unfold sfs_flash_fs_mblock_cur_data_scratch_id, SFS_LOGICAL_DBLOCK0. destruct (lb =? 0).
  - by apply t_scratch.
  - by apply t_bind, t_header, t_ret.
Qed.

(** A piece copied to the same place of another block, or nothing. *)
Lemma t_move_kept i s x src y off n (Q : Z -> image -> Prop) :
  block i s = Some x -> (0 < n -> s <> src /\ block i src = Some y) -> 0 <= off -> 0 <= n -> off + n <= bsize ->
  open V i s off (off + n) x ->
  (forall x', kept off (off + n) x x' -> slice x' off n = slice y off n -> Q PSA_SUCCESS (with_block i s x')) ->
  triple V i (move info s off src off n) Q.
Proof.
  intros Hx Hy Ho Hn Hs Hg HQ. destruct (Z.eq_dec n 0) as [->|Hn0].
  - intros c Hc. exists PSA_SUCCESS, c. split; [by destruct c|]. exists i. split; [done|].
    rewrite <- (with_block_same i s x Hx). apply HQ; [apply kept_refl|]. by rewrite !slice_nil.
  - destruct (Hy ltac:(lia)). by eapply (t_move_same info V).
Qed.

(** The new contents of a data block: [data] at [pos], the rest up to [pos] and from [fin] to
    [used] as in [old]. *)
Record rewritten (ds pos fin used : Z) (old data z : bytes) : Prop := {
  rw_before : slice z ds (pos - ds) = slice old ds (pos - ds);
  rw_data : slice z pos (len data) = data;
  rw_behind : slice z fin (used - fin) = slice old fin (used - fin)
}.

Lemma t_write_file i lb (bm : sfs_block_meta_t) (fm : sfs_file_meta_t) off n data old z0 (Q : Z -> image -> Prop) :
  let dst := if lb =? 0 then i_scratch i else scratch_dblock (i_header i) in
  let pos := data_idx fm + off in let fin := data_idx fm + max_size fm in let used := bsize - free_size bm in
  lblock fm = lb -> block i (phy_id bm) = Some old -> block i dst = Some z0 ->
  phy_id bm <> dst \/ pos = data_start bm /\ fin = used ->
  0 <= data_start bm <= data_idx fm -> 0 <= off <= cur_size fm -> cur_size fm <= max_size fm -> 0 <= n -> off + n <= max_size fm ->
  fin <= used <= bsize -> n <= len data -> open V i dst (data_start bm) bsize z0 ->
  (forall z, kept (data_start bm) bsize z0 z -> rewritten (data_start bm) pos fin used old (slice data 0 n) z ->
     Q PSA_SUCCESS (with_block i dst z)) ->
  triple V i (sfs_flash_fs_dblock_write_file info bm fm off n data) Q.
Proof.
  intros dst pos fin used Hlb Hold Hz0 Hne Hds Hoff Hcur Hn Hmax Hfin Hdata Hg HQ.
  apply t_ok with info; [done|]. intros Hi. pose proof (layout info V cfg) as (? & ?).
  destruct (block_size_of info _ _ _ Hi Hz0) as [Hlz Hdst]. destruct (block_size_of info _ _ _ Hi Hold) as [Hlo Hphy].
  pose proof (slice_len data 0 n ltac:(lia) ltac:(lia) ltac:(lia)) as Hld.
  unfold sfs_flash_fs_dblock_write_file. apply t_bind. rewrite Hlb. apply t_cur_scratch. fold dst. cbv zeta.
  fold pos fin. rewrite (wrap_small 64 pos), (wrap_small 64 (pos - _)), (wrap_small 64 fin) by lia.
  fold used. rewrite (wrap_small 64 used), (wrap_small 64 (used - fin)) by lia.
  apply t_check. eapply t_move_kept; [exact Hz0|intros ?; split; [|exact Hold]; intros ?; lia|lia..|eapply open_narrow; [exact Hg|lia|lia]|].
  intros z1 Hk1 Hs1. split; [done|]. rewrite Zplus_minus in Hk1.
  assert (forall z, block (with_block i dst z) dst = Some z /\ (phy_id bm <> dst -> block (with_block i dst z) (phy_id bm) = Some old)) as Hw.
  { intros z. rewrite !(block_with_block info) by (done || lia). rewrite Z.eqb_refl. split; [done|]. intros ?. by destruct (Z.eqb_spec (phy_id bm) dst). }
  destruct (Hw z1) as [Hz1 Ho1]. assert (len z1 = bsize) as Hl1 by (destruct Hk1; lia).
  apply t_check. eapply (t_write info V); [exact Hz1|lia..| |].
  { eapply (open_cuts V (with_block i dst z1) dst (data_start bm) bsize); [|lia..].
    eapply open_after; [exact Hg|eapply kept_wider; [| |exact Hk1]; lia|reflexivity|reflexivity]. }
  split; [done|]. rewrite with_block_again.
  set (z2 := patch z1 pos (slice data 0 n)).
  assert (kept pos (pos + n) z1 z2) as Hk2 by (apply kept_patch; lia).
  assert (slice z2 pos n = slice data 0 n) as Hs2 by (apply slice_patch_same; lia).
  destruct (Hw z2) as [Hz2 Ho2]. assert (len z2 = bsize) as Hl2 by (destruct Hk2; lia).
  apply t_check. eapply t_move_kept; [exact Hz2|intros ?; split; [intros ?; lia|apply Ho2; lia]|lia..| |].
  { eapply open_after; [exact Hg| |lia|lia]. eapply kept_trans; (eapply kept_wider; [| |eassumption]); lia. }
  intros z3 Hk3 Hs3. split; [done|]. rewrite Zplus_minus in Hk3. rewrite with_block_again.
  assert (Q PSA_SUCCESS (with_block i dst z3)) as HQ'.
  { apply HQ.
    - eapply kept_trans; [eapply kept_trans|]; (eapply kept_wider; [| |eassumption]); lia.
    - split; [| |exact Hs3].
      + by rewrite (kept_slice _ _ _ _ _ _ Hk3), (kept_slice _ _ _ _ _ _ Hk2) by lia.
      + rewrite Hld. by rewrite (kept_slice _ _ _ _ _ _ Hk3) by lia. }
  destruct (negb (lb =? SFS_LOGICAL_DBLOCK0)); [by apply t_flush|by apply t_ret].
Qed.


(** ** A mounted file system, and one change of it *)
Record mounted (i : image) (y : bytes) : Prop := {
  mt_numbers : (i_active i = 0 /\ i_scratch i = 1) \/ (i_active i = 1 /\ i_scratch i = 0);
  mt_block : block i (i_active i) = Some y;
  mt_header : hmeta y = i_header i;
  mt_valid : sfs_mblock_validate_header_meta info (i_header i) = PSA_SUCCESS;
  mt_blocks : blocks_ok y (i_active i) (scratch_dblock (i_header i));
  mt_files : files_ok y
}.

(** Nothing is half done: the scratch metablock is erased. *)
Definition settled (i : image) : Prop :=
  image_ok info i /\ exists e, block i (i_scratch i) = Some e /\ fv_erased V e.

(** A start finds the active metablock: the other one is erased, or has the count before. *)
Definition live (i : image) : Prop :=
  image_ok info i /\ exists e, block i (i_scratch i) = Some e /\
    (fv_erased V e \/ sfs_mblock_validate_header_meta info (hmeta e) = PSA_SUCCESS /\ fits 8 (active_swap_count (hmeta e)) /\
       active_swap_count (i_header i) = next_count info (active_swap_count (hmeta e))).

Lemma settled_live i : settled i -> live i.
Proof. intros [Hi (e & He & Her)]. split; [done|]. exists e. split; [done|]. by left. Qed.

(** The end of an operation: its image is allowed, and when it is settled it is the result. *)
Definition lands (Q : Z -> image -> Prop) (i : image) : Prop := allowed V i /\ (settled i -> Q PSA_SUCCESS i).

Definition data (i : image) (y : bytes) (lb : Z) : bytes := default [] (block i (phy_id (bmeta y lb))).

Definition set_dblock (h : sfs_metadata_block_header_t) (b : Z) : sfs_metadata_block_header_t :=
  Header b (fs_version h) (active_swap_count h) (header_pad h).

Lemma more_blocks j : 0 < j < dblocks -> 2 < num_blocks info.
Proof.
  intros Hj. pose proof (dblocks_range info V) as [_ Hd]. pose proof (fl_num_blocks (info := info) (V := V)).
  destruct (Z.eqb_spec (num_blocks info) 2); lia.
Qed.

(** A change of logical block [lb]: its entry becomes [m], the files [f]; with [swap] the data
    block is replaced by the scratch data block, which holds [z].  The data of logical block 0
    are those of [z0] up to [e0]. *)
Section Step.
Context (i : image) (y : bytes) (lb : Z) (swap : bool) (m : sfs_block_meta_t) (f : Z -> sfs_file_meta_t)
  (z z0 : bytes) (e0 : Z).

Definition step_dblock : Z := if swap then phy_id (bmeta y lb) else scratch_dblock (i_header i).

(** The scratch metablock is [x], and only the header is missing. *)
Record prepared (i2 : image) (x : bytes) : Prop := {
  pr_active : i_active i2 = i_active i;
  pr_number : i_scratch i2 = i_scratch i;
  pr_header : i_header i2 = set_dblock (i_header i) step_dblock;
  pr_scratch : block i2 (i_scratch i) = Some x;
  pr_bmeta : forall j, 0 <= j < dblocks -> bmeta x j = new_bmeta y (i_scratch i) lb m j;
  pr_fmeta : forall j, 0 <= j < files -> fmeta info x j = f j;
  pr_zero : forall p n, foff files <= p -> 0 <= n -> p + n <= e0 -> slice x p n = slice z0 p n;
  pr_other : forall b, 2 <= b -> (swap = true -> b <> scratch_dblock (i_header i)) -> block i2 b = block i b;
  pr_new : swap = true -> block i2 (scratch_dblock (i_header i)) = Some z;
  pr_old : block i2 (i_active i) = Some y
}.

Record stepped (i' : image) (y' : bytes) : Prop := {
  st_active : i_active i' = i_scratch i;
  st_number : i_scratch i' = i_active i;
  st_header : i_header i' = next_header info (set_dblock (i_header i) step_dblock);
  st_block : block i' (i_active i') = Some y';
  st_hmeta : hmeta y' = i_header i';
  st_bmeta : forall j, 0 <= j < dblocks -> bmeta y' j = new_bmeta y (i_scratch i) lb m j;
  st_fmeta : forall j, 0 <= j < files -> fmeta info y' j = f j;
  st_zero : forall p n, foff files <= p -> 0 <= n -> p + n <= e0 -> slice y' p n = slice z0 p n;
  st_other : forall j, 0 < j < dblocks -> (swap = true -> j <> lb) ->
    block i' (phy_id (bmeta y j)) = block i (phy_id (bmeta y j));
  st_new : swap = true -> block i' (scratch_dblock (i_header i)) = Some z
}.

Hypothesis Hm : mounted i y.
Hypothesis Hlb : 0 <= lb < dblocks.
Hypothesis Hswap : swap = true -> 0 < lb.

Lemma dblock_range : 2 < num_blocks info -> 2 <= step_dblock < num_blocks info.
Proof.
  intros Hn. unfold step_dblock. destruct swap; [apply (bo_phy _ _ _ (mt_blocks _ _ Hm))|apply (bo_scratch _ _ _ (mt_blocks _ _ Hm) Hn)].
  pose proof (Hswap eq_refl). lia.
Qed.

Lemma header_of_mounted : image_ok info i -> header_ok (i_header i).
Proof.
  intros Hi. destruct (block_size_of info _ _ _ Hi (mt_block _ _ Hm)) as [Hl _]. pose proof (layout info V cfg).
  rewrite <- (mt_header _ _ Hm). apply header_of_ok, slice_len; unfold SFS_BLOCK_META_HEADER_SIZE; lia.
Qed.

Lemma t_finish i2 x (Q : Z -> image -> Prop) :
  image_ok info i -> prepared i2 x -> (forall i' y', live i' -> stepped i' y' -> lands Q i') ->
  triple V i2 (sfs_flash_fs_mblock_meta_update_finalize info) Q.
Proof.
  intros Hi [Ha Hs Hh Hx Hb Hf Hz Ho Hn Hold] HQ. pose proof (header_of_mounted Hi) as (Hh1 & Hh2 & Hh3 & Hh4).
  pose proof (mt_numbers _ _ Hm) as Hnum. pose proof (fl_num_blocks (info := info) (V := V)).
  pose proof dblock_range as Hdr. pose proof (layout info V cfg). pose proof (dblocks_range info V) as (? & _).
  pose proof (mt_blocks _ _ Hm) as [_ _ _ Hphy Hinj Hsd].
  rewrite <- Hs in Hx. eapply (t_finalize info V); [done|exact Hx| | |lia| |].
  - rewrite Hh. split; [|done]. unfold fits, set_dblock, step_dblock. cbn. destruct swap eqn:Hsw; [|done].
    destruct (block_size_of info _ _ _ Hi (mt_block _ _ Hm)) as [Hl _].
    by destruct (bmeta_ok info V cfg y lb Hl Hlb).
  - rewrite Ha, Hs. lia.
  - rewrite Hh. intros Hn2. specialize (Hdr Hn2). cbn. rewrite Ha, Hs. lia.
  - intros i' Hi' [Ch Ca Cs (x' & Cx & Ck & Chm) Cold Co].
    assert (forall j, settled j -> i_scratch j = i_active i -> exists e, block j (i_active i) = Some e /\ fv_erased V e) as Hset
      by (intros j [_ Hj] <-; done).
    rewrite Ha in Cold, Cs. assert (live i') as Hlive.
    { split; [done|]. rewrite Cs. destruct Cold as [Heq|(e & He & Her)]; [|exists e; split; [done|by left]].
      exists y. rewrite Heq. split; [done|]. right. rewrite (mt_header _ _ Hm). split; [apply Hm|]. split; [done|].
      by rewrite Ch, Hh. }
    assert (stepped i' x') as Hst; [|destruct (HQ i' x' Hlive Hst) as [Hal HQ']; split; [done|]; rewrite Ha; intros (e & He & Her);
      apply HQ'; split; [done|]; exists e; by rewrite Cs].
    rewrite Ha, Hs, Hh in *. split; try done.
    + by rewrite Ca.
    + by rewrite Chm, Ch.
    + intros j Hj. pose proof (boff_range info j Hj). rewrite (kept_bmeta _ _ _ _ _ Ck) by lia. by apply Hb.
    + intros j Hj. pose proof (foff_range info j Hj). rewrite (kept_fmeta info _ _ _ _ _ Ck) by lia. by apply Hf.
    + intros p n ???. rewrite (kept_slice _ _ _ _ _ _ Ck) by lia. by apply Hz.
    + intros j Hj Hne. destruct (Hphy j Hj). rewrite Co; [apply Ho; [lia|done]|lia|lia|lia|].
      intros Hn2. cbn. unfold step_dblock. destruct swap; [|done]. intros Heq. apply Hne; [done|].
      apply Hinj; [done| |done]. pose proof (Hswap eq_refl). lia.
    + intros Hsw. pose proof (Hswap Hsw). pose proof (more_blocks lb ltac:(lia)) as Hmb. specialize (Hsd Hmb).
      destruct (Hphy lb ltac:(lia)). rewrite Co; [by apply Hn|lia|lia|lia|]. intros _. cbn. unfold step_dblock. rewrite Hsw. lia.
Qed.

(** The table of blocks stays well-formed. *)
Lemma stepped_blocks i' y' :
  stepped i' y' -> data_start m = dstart lb -> dstart lb <= bsize - free_size m <= bsize ->
  (0 < lb -> phy_id m = if swap then scratch_dblock (i_header i) else phy_id (bmeta y lb)) ->
  blocks_ok y' (i_active i') (scratch_dblock (i_header i')).
Proof.
  intros [Ha _ Hh _ _ Hb _ _ _ _] Hds Hfree Hphy. pose proof (dblocks_range info V) as (? & _).
  pose proof (mt_blocks _ _ Hm) as [Bz Bs Be Bp Bi Bsd].
  assert (scratch_dblock (i_header i') = step_dblock) as -> by by rewrite Hh.
  assert (forall j, 0 < j < dblocks -> phy_id (bmeta y' j) =
    if (j =? lb) && swap then scratch_dblock (i_header i) else phy_id (bmeta y j)) as Hp.
  { intros j Hj. rewrite Hb by lia. unfold new_bmeta. destruct (Z.eqb_spec j lb) as [->|]; cbn.
    - destruct (Z.eqb_spec lb 0); [lia|]. rewrite Hphy by lia. done.
    - by destruct (Z.eqb_spec j 0); [lia|]. }
  split.
  - left. rewrite Hb, Ha by lia. unfold new_bmeta. by destruct (Z.eqb_spec 0 lb) as [<-|].
  - intros j Hj. rewrite Hb by lia. unfold new_bmeta. destruct (Z.eqb_spec j lb) as [->|]; [by destruct (lb =? 0)|].
    destruct (Z.eqb_spec j 0) as [->|]; [exact (Bs 0 ltac:(lia))|by apply Bs].
  - intros j Hj. unfold dend. rewrite Hb by lia. unfold new_bmeta.
    destruct (Z.eqb_spec j lb) as [->|]; [by destruct (lb =? 0)|].
    destruct (Z.eqb_spec j 0) as [->|]; [exact (Be 0 ltac:(lia))|by apply Be].
  - intros j Hj. rewrite Hp by done. destruct (Bp j Hj). unfold step_dblock.
    pose proof (Bsd (more_blocks j Hj)). destruct swap; [|rewrite andb_false_r; done].
    pose proof (Hswap eq_refl). destruct (Bp lb ltac:(lia)). rewrite andb_true_r.
    destruct (Z.eqb_spec j lb) as [->|]; [lia|]. split; [lia|]. intros Heq. by destruct n; apply Bi; [done|lia|].
  - intros j k Hj Hk. rewrite !Hp by done. destruct (Bp j Hj), (Bp k Hk).
    destruct (Z.eqb_spec j lb) as [->|], (Z.eqb_spec k lb) as [->|]; cbn; try done.
    + destruct swap; [lia|]. by apply Bi.
    + destruct swap; [lia|]. by apply Bi.
    + by apply Bi.
  - intros Hn. by apply dblock_range.
Qed.

Lemma stepped_mounted i' y' :
  stepped i' y' -> data_start m = dstart lb -> dstart lb <= bsize - free_size m <= bsize ->
  (0 < lb -> phy_id m = if swap then scratch_dblock (i_header i) else phy_id (bmeta y lb)) ->
  files_ok y' -> mounted i' y'.
Proof.
  intros Hst Hds Hfree Hphy Hf. pose proof (stepped_blocks i' y' Hst Hds Hfree Hphy) as Hb.
  destruct Hst as [Ha Hs Hh Hbl Hhm _ _ _ _ _]. split; try done.
  - rewrite Ha, Hs. pose proof (mt_numbers _ _ Hm). lia.
  - rewrite Hh. pose proof (mt_valid _ _ Hm) as Hv. unfold sfs_mblock_validate_header_meta in *. cbn.
    destruct (Z.eqb_spec (sfs_mblock_validate_fs_version (fs_version (i_header i))) PSA_SUCCESS); [|done].
    unfold sfs_mblock_validate_swap_count. destruct cfg as [_ _ He]. unfold next_count.
    destruct (Z.eqb_spec (u8 (active_swap_count (i_header i) + 1)) (erase_val info)) as [Heq|Hneq].
    + destruct (Z.eqb_spec 0 (erase_val info)); [lia|done].
    + by destruct (Z.eqb_spec (u8 (active_swap_count (i_header i) + 1)) (erase_val info)).
Qed.

(** The data of the logical blocks after the step. *)
Lemma stepped_data_other i' y' j p n :
  stepped i' y' -> 0 <= j < dblocks -> j <> lb -> (lb <> 0 -> z0 = y /\ e0 = dend y 0) ->
  dstart j <= p -> 0 <= n -> p + n <= dend y j ->
  slice (data i' y' j) p n = slice (data i y j) p n.
Proof.
  intros [Ha _ _ Hbl _ Hb _ Hz Ho _] Hj Hne H0 Hp Hn He. unfold data.
  pose proof (mt_blocks _ _ Hm) as [Bz _ _ _ _ _].
  rewrite Hb by done. unfold new_bmeta. destruct (Z.eqb_spec j lb); [done|].
  destruct (Z.eqb_spec j 0) as [->|].
  - destruct Bz as [Bz|[Bz _]]; [|replace n with 0 by lia; by rewrite !slice_nil].
    cbn. rewrite <- Ha, Hbl, Bz, (mt_block _ _ Hm). cbn. destruct (H0 ltac:(lia)) as [-> ->]. apply Hz; [done|done|lia].
  - rewrite Ho by (done || lia). done.
Qed.

Lemma stepped_data_zero i' y' p n :
  stepped i' y' -> lb = 0 -> foff files <= p -> 0 <= n -> p + n <= e0 ->
  slice (data i' y' lb) p n = slice z0 p n.
Proof.
  intros [Ha _ _ Hbl _ Hb _ Hz Ho _] H0 Hp Hn He. unfold data. rewrite Hb by lia. unfold new_bmeta.
  rewrite Z.eqb_refl, H0. cbn. rewrite <- Ha, Hbl. cbn. by apply Hz.
Qed.

Lemma stepped_data_new i' y' :
  stepped i' y' -> swap = true -> phy_id m = scratch_dblock (i_header i) -> data i' y' lb = z.
Proof.
  intros [Ha _ _ Hbl _ Hb _ Hz Ho Hn] Hsw Hphy. unfold data. rewrite Hb by lia. unfold new_bmeta.
  rewrite Z.eqb_refl. pose proof (Hswap Hsw). destruct (Z.eqb_spec lb 0); [lia|]. by rewrite Hphy, Hn.
Qed.

Lemma stepped_data_same i' y' :
  stepped i' y' -> swap = false -> 0 < lb -> phy_id m = phy_id (bmeta y lb) -> data i' y' lb = data i y lb.
Proof.
  intros [Ha _ _ Hbl _ Hb _ Hz Ho Hn] Hsw H0 Hphy. unfold data. rewrite Hb by lia. unfold new_bmeta.
  rewrite Z.eqb_refl. destruct (Z.eqb_spec lb 0); [lia|]. rewrite Hphy, Ho; [done|lia|by rewrite Hsw].
Qed.
End Step.


(** ** What the flash must allow during an operation

    [shadow i j]: [j] differs from [i] in the scratch blocks only, and not in the header of the
    scratch metablock; this is so until the header is written. *)
Definition shadow (i j : image) : Prop :=
  image_ok info j /\
  (forall b, 0 <= b -> b <> i_scratch i -> (2 < num_blocks info -> b <> scratch_dblock (i_header i)) -> block j b = block i b) /\
  exists x x', block i (i_scratch i) = Some x /\ block j (i_scratch i) = Some x' /\ kept 8 bsize x x'.

Definition safe (i : image) : Prop := forall j, shadow i j -> allowed V j.

Lemma shadow_refl i x : image_ok info i -> block i (i_scratch i) = Some x -> shadow i i.
Proof. intros Hi Hx. split; [done|]. split; [done|]. exists x, x. split; [done|]. split; [done|apply kept_refl]. Qed.

Lemma shadow_scratch i j x x' : shadow i j -> block j (i_scratch i) = Some x -> kept 8 bsize x x' -> shadow i (with_block j (i_scratch i) x').
Proof.
  intros (Hj & Hb & x0 & x1 & Hx0 & Hx1 & Hk) Hx Hk'. assert (x1 = x) as -> by congruence.
  destruct (block_size_of info _ _ _ Hj Hx) as [Hl Hr]. split; [apply with_block_ok; [done|destruct Hk'; lia]|]. split.
  - intros b Hb0 Hbs Hbd. rewrite (block_with_block info) by (done || lia). destruct (Z.eqb_spec b (i_scratch i)); [done|]. by apply Hb.
  - exists x0, x'. split; [done|]. split; [rewrite (block_with_block info) by (done || lia); by rewrite Z.eqb_refl|].
    by eapply kept_trans.
Qed.

Lemma shadow_data i j w : 2 < num_blocks info -> scratch_dblock (i_header i) <> i_scratch i ->
  0 <= i_scratch i < num_blocks info -> 0 <= scratch_dblock (i_header i) < num_blocks info ->
  shadow i j -> len w = bsize -> shadow i (with_block j (scratch_dblock (i_header i)) w).
Proof.
  intros Hn Hne Hs Hd (Hj & Hb & x0 & x1 & Hx0 & Hx1 & Hk) Hl. split; [by apply with_block_ok|]. split.
  - intros b Hb0 Hbs Hbd. rewrite (block_with_block info) by (done || lia).
    destruct (Z.eqb_spec b (scratch_dblock (i_header i))); [by destruct (Hbd Hn)|]. by apply Hb.
  - exists x0, x1. split; [done|]. split; [|done]. rewrite (block_with_block info) by (done || lia).
    by destruct (Z.eqb_spec (i_scratch i) (scratch_dblock (i_header i))); [congruence|].
Qed.

Lemma open_scratch i j x : safe i -> shadow i j -> block j (i_scratch i) = Some x -> open V j (i_scratch i) 8 bsize x.
Proof. intros Hs Hj Hx x' Hk. apply Hs. by eapply shadow_scratch. Qed.

Lemma open_data i j w a b : 2 < num_blocks info -> scratch_dblock (i_header i) <> i_scratch i ->
  0 <= i_scratch i < num_blocks info -> 0 <= scratch_dblock (i_header i) < num_blocks info ->
  safe i -> shadow i j -> len w = bsize -> open V j (scratch_dblock (i_header i)) a b w.
Proof. intros Hn Hne Hsr Hdr Hs Hj Hl x' [Hk _]. apply Hs. apply shadow_data; (done || lia). Qed.

(** ** The common end of the operations that create and write files *)
Definition new_fmeta (y : bytes) (idx : Z) (fm : sfs_file_meta_t) (j : Z) : sfs_file_meta_t :=
  if j =? idx then fm else fmeta info y j.

Lemma active_not_scratch i y : mounted i y -> i_active i <> i_scratch i /\ 0 <= i_active i < 2 /\ 0 <= i_scratch i < 2.
Proof. intros Hm. pose proof (mt_numbers _ _ Hm). lia. Qed.

Lemma t_change i y lb swap m idx fm z z0 e0 x0 (mig : bool) i1 (Q : Z -> image -> Prop) :
  mounted i y -> 0 <= lb < dblocks -> (swap = true -> 0 < lb) -> block_meta_ok m -> 0 <= idx < files -> file_meta_ok fm ->
  image_ok info i ->
  i_active i1 = i_active i -> i_scratch i1 = i_scratch i -> i_header i1 = set_dblock (i_header i) (step_dblock i y lb swap) ->
  block i1 (i_active i) = Some y -> block i1 (i_scratch i) = Some x0 ->
  (forall b, 2 <= b -> (swap = true -> b <> scratch_dblock (i_header i)) -> block i1 b = block i b) ->
  (swap = true -> block i1 (scratch_dblock (i_header i)) = Some z) ->
  (mig = true -> z0 = y /\ e0 = dend y 0) -> (mig = false -> z0 = x0 /\ e0 = bsize) ->
  open V i1 (i_scratch i) 8 bsize x0 ->
  (forall i' y', live i' -> stepped i y lb swap m (new_fmeta y idx fm) z z0 e0 i' y' -> lands Q i') ->
  triple V i1 (check! sfs_flash_fs_mblock_update_scratch_block_meta info lb m else PSA_ERROR_GENERIC_ERROR;;
    update_file_meta info idx fm (migrate_and_finalize info mig)) Q.
Proof.
  intros Hm Hlb Hsw Hmok Hidx Hfm Hi Ha Hs Hh Hy Hx0 Ho Hn Hmig Hnomig Hg HQ. rewrite <- Hs in Hg.
  destruct (active_not_scratch _ _ Hm) as (Hne & Har & Hsr). pose proof (layout info V cfg).
  pose proof (fl_num_blocks (info := info) (V := V)).
  pose proof (dblocks_range info V) as (? & _). pose proof (mt_blocks _ _ Hm) as [Bz Bs Be _ _ _].
  apply t_ok with info; [done|]. intros Hi1. rewrite <- Ha in Hy. rewrite <- Hs in Hx0.
  pose proof (foff_range info idx Hidx).
  assert (i_active i1 <> i_scratch i1) as Hne1 by congruence.
  pose proof (active_with_scratch info i1 x0 y Hi1 Hx0 Hy Hne1) as Hw.
  apply t_check_as. eapply (t_update_block_meta info V cfg); [exact Hx0|exact Hy|done|unfold fits; lia|done|done|eapply open_narrow; [exact Hg|lia|lia]|].
  intros x1 Hk1 Hb1. split; [done|]. destruct (Hw x1) as [Hy1 Hx1].
  unfold update_file_meta. apply t_check_as.
  eapply (t_update_file_meta info V cfg (with_block i1 (i_scratch i1) x1)); [exact Hx1|done|done| |].
  { eapply open_after; [exact Hg|eapply kept_wider; [| |exact Hk1]; lia|lia|lia]. }
  intros x2 Hk2 Hf2. split; [done|]. cbn [i_scratch with_block with_blocks]. rewrite with_block_again. destruct (Hw x2) as [Hy2 Hx2].
  apply t_check_as. eapply (t_cp_remaining info V cfg (with_block i1 (i_scratch i1) x2)); [exact Hx2|exact Hy2|done|done| |].
  { eapply open_after; [exact Hg| |lia|lia]. eapply kept_trans; (eapply kept_wider; [| |eassumption]); lia. }
  intros x3 Hk3 Hf3. split; [done|]. cbn [i_scratch with_block with_blocks]. rewrite with_block_again. destruct (Hw x3) as [Hy3 Hx3].
  assert (kept 8 (foff files) x0 x3) as Hk03
    by (eapply kept_trans; [eapply kept_trans|]; (eapply kept_wider; [| |eassumption]); lia).
  assert (forall x, kept (foff files) bsize x3 x -> (forall p n, foff files <= p -> 0 <= n -> p + n <= e0 -> slice x p n = slice z0 p n) ->
    prepared i y lb swap m (new_fmeta y idx fm) z z0 e0 (with_block i1 (i_scratch i1) x) x) as Hprep.
  { intros x Hkx Hz. destruct (Hw x) as [Hyx Hxx]. split; try done.
    - by rewrite <- Hs.
    - intros j Hj. pose proof (boff_range info j Hj).
      rewrite (kept_bmeta _ _ _ _ _ Hkx), (kept_bmeta _ _ _ _ _ Hk3), (kept_bmeta _ _ _ _ _ Hk2), Hb1 by lia. by rewrite Hs.
    - intros j Hj. pose proof (foff_range info j Hj). rewrite (kept_fmeta info _ _ _ _ _ Hkx), Hf3, Hf2 by lia. done.
    - intros b Hb Hbn. rewrite (block_with_block info) by (done || lia).
      destruct (Z.eqb_spec b (i_scratch i1)); [lia|]. by apply Ho.
    - intros Hswt. pose proof (Hsw Hswt). pose proof (bo_scratch _ _ _ (mt_blocks _ _ Hm) (more_blocks lb ltac:(lia))).
      rewrite (block_with_block info) by (done || lia).
      destruct (Z.eqb_spec (scratch_dblock (i_header i)) (i_scratch i1)); [lia|]. by apply Hn.
    - by rewrite <- Ha. }
  unfold migrate_and_finalize. apply t_check_as. destruct mig.
  - destruct (Hmig eq_refl) as [-> ->]. pose proof (Be 0 ltac:(lia)) as Hbe. pose proof (Bs 0 ltac:(lia)) as Hbs.
    change (dstart 0) with (foff files) in Hbe, Hbs. unfold dend in Hbe.
    eapply (t_migrate info V cfg (with_block i1 (i_scratch i1) x3)); [exact Hx3|exact Hy3|done|rewrite Hbs; lia|lia| |].
    { rewrite Hbs. eapply open_after; [exact Hg|eapply kept_wider; [| |exact Hk03]; lia|lia|lia]. }
    rewrite Hbs. intros x4 Hk4 Hs4. split; [done|]. cbn [i_scratch with_block with_blocks]. rewrite with_block_again.
    eapply (t_finish i y lb swap m _ z y (dend y 0) Hm Hlb Hsw); [done|apply Hprep|done].
    + eapply kept_wider; [| |exact Hk4]; lia.
    + intros p n ???. unfold dend in *. replace p with (foff files + (p - foff files)) by lia.
      by rewrite (slice_slice x4 (foff files) (bsize - free_size (bmeta y 0) - foff files)),
        (slice_slice y (foff files) (bsize - free_size (bmeta y 0) - foff files)), Hs4 by lia.
  - destruct (Hnomig eq_refl) as [-> ->]. apply t_ret. split; [done|].
    eapply (t_finish i y lb swap m _ z x0 bsize Hm Hlb Hsw); [done|apply Hprep|done].
    + apply kept_refl.
    + intros p n ???. apply (kept_slice _ _ _ _ _ _ Hk03); lia.
Qed.

End Inv.
