(* ===== verification/SfsFiles.v ===== *)
(** * The files of the flash file system

    A mounted file system is a map from file identifiers to flags, capacity and data; the
    operations of sfs_flash_fs.c look up and change this map. *)
From S2P Require Import Prelude Status SfsFlash SfsMblock SfsFs SfsLogic SfsMeta SfsData.

Record fsfile := FsFile { ff_flags : Z; ff_capacity : Z; ff_data : bytes }.

Section Files.
Context {F : Type} (info : sfs_flash_info_t F) (V : flash_view F) `{!FlashLaws info V}.
Hypothesis cfg : config_ok info.

Abbreviation files := (max_num_files info).
Abbreviation dblocks := (sfs_num_active_dblocks info).
Abbreviation bsize := (block_size info).
Abbreviation foff := (sfs_mblock_file_meta_offset info).
Abbreviation fm y j := (fmeta info y j).

Definition file_entry (i : image) (y : bytes) (j : Z) : fsfile :=
  FsFile (fm_flags (fm y j)) (max_size (fm y j))
    (slice (data i y (lblock (fm y j))) (data_idx (fm y j)) (cur_size (fm y j))).

Definition fs_file (i : image) (y fid : bytes) : option fsfile :=
  (fun k => file_entry i y (Z.of_nat k)) <$> file_index info y fid.

Lemma file_index_Some y fid k :
  file_index info y fid = Some k -> 0 <= Z.of_nat k < files /\ fm_id (fm y (Z.of_nat k)) = fid.
Proof.
  intros [(j & Hj & Hp) _]%find_index_Some. apply lookup_seqZ in Hj as [-> ?]. split; [lia|].
  by apply bytes_eqb_eq in Hp.
Qed.

Lemma file_index_None y fid j :
  file_index info y fid = None -> 0 <= j < files -> fm_id (fm y j) <> fid.
Proof.
  intros Hn Hj Hid. apply find_index_None in Hn. rewrite Forall_forall in Hn.
  specialize (Hn j ltac:(apply elem_of_seqZ; lia)). cbn in Hn. rewrite <- Hid in Hn.
  assert (bytes_eqb (fm_id (fm y j)) (fm_id (fm y j)) = true) by by apply bytes_eqb_eq. congruence.
Qed.

Lemma fs_file_Some i y fid e :
  files_ok info y -> valid_fid fid = true ->
  fs_file i y fid = Some e <-> exists j, 0 <= j < files /\ fm_id (fm y j) = fid /\ e = file_entry i y j.
Proof.
  intros Hy Hv. unfold fs_file. split.
  - intros (k & Hk & ->)%fmap_Some. apply file_index_Some in Hk as [? ?]. eauto.
  - intros (j & Hj & Hid & ->). destruct (file_index info y fid) as [k|] eqn:Hk.
    + apply file_index_Some in Hk as [Hkr Hkid]. cbn. do 2 f_equal. apply (fo_id _ _ Hy); [done|done|congruence|congruence].
    + by destruct (file_index_None _ _ _ Hk Hj).
Qed.

(** The files of two images agree when their entries do. *)
Lemma fs_file_same i y i' y' fid :
  files_ok info y -> files_ok info y' -> valid_fid fid = true ->
  (forall j, 0 <= j < files -> fm_id (fm y' j) = fid <-> fm_id (fm y j) = fid) ->
  (forall j, 0 <= j < files -> fm_id (fm y j) = fid -> file_entry i' y' j = file_entry i y j) ->
  fs_file i' y' fid = fs_file i y fid.
Proof.
  intros Hy Hy' Hv Hid He. apply option_eq. intros e. rewrite !fs_file_Some by done. split.
  - intros (j & Hj & Hf & ->). apply Hid in Hf; [|done]. exists j. split; [done|]. split; [done|]. by apply He.
  - intros (j & Hj & Hf & ->). exists j. split; [done|]. split; [by apply Hid|]. by rewrite He.
Qed.

(** The entry of a file whose metadata and data are as they were. *)
Lemma file_entry_same i y i' y' j :
  files_ok info y -> 0 <= j < files -> valid_fid (fm_id (fm y j)) = true -> fm y' j = fm y j ->
  (forall p n, data_idx (fm y j) <= p -> 0 <= n -> p + n <= data_idx (fm y j) + max_size (fm y j) ->
     slice (data i' y' (lblock (fm y j))) p n = slice (data i y (lblock (fm y j))) p n) ->
  len y = bsize -> file_entry i' y' j = file_entry i y j.
Proof.
  intros Hy Hj Hv Hf Hd Hl. unfold file_entry. rewrite Hf. f_equal.
  destruct (fo_size _ _ Hy j Hj Hv) as (? & _). destruct (fmeta_ok info V cfg y j Hl Hj) as (_ & _ & [? _] & _).
  apply Hd; lia.
Qed.

(** ** The data blocks of a mounted file system *)
Lemma dstart_nonneg lb : 0 <= dstart info lb.
Proof. pose proof (layout info V cfg). unfold dstart. destruct (lb =? 0); lia. Qed.

Lemma data_block i y lb : image_ok info i -> mounted info i y -> 0 <= lb < dblocks ->
  block i (phy_id (bmeta y lb)) = Some (data i y lb) /\ len (data i y lb) = bsize /\
  0 <= phy_id (bmeta y lb) < num_blocks info.
Proof.
  intros Hi Hm Hlb. pose proof (fl_num_blocks (info := info) (V := V)).
  assert (0 <= phy_id (bmeta y lb) < num_blocks info) as Hp.
  { pose proof (mt_blocks _ _ _ Hm) as [Bz _ _ Bp _ _]. destruct (Z.eqb_spec lb 0) as [->|].
    - pose proof (mt_numbers _ _ _ Hm). lia.
    - destruct (Bp lb ltac:(lia)). lia. }
  destruct (block_is_Some info i _ Hi Hp) as (x & Hx & Hl). unfold data. rewrite Hx. done.
Qed.

Lemma mounted_len i y : image_ok info i -> mounted info i y -> len y = bsize.
Proof. intros Hi Hm. by destruct (block_size_of info _ _ _ Hi (mt_block _ _ _ Hm)). Qed.

(** Where the data of a file are. *)
Lemma file_range i y j : image_ok info i -> mounted info i y -> 0 <= j < files -> valid_fid (fm_id (fm y j)) = true ->
  0 <= lblock (fm y j) < dblocks /\ 0 <= cur_size (fm y j) <= max_size (fm y j) /\ 0 < max_size (fm y j) /\
  dstart info (lblock (fm y j)) <= data_idx (fm y j) /\ 0 <= dstart info (lblock (fm y j)) /\
  data_idx (fm y j) + max_size (fm y j) <= dend info y (lblock (fm y j)) <= bsize.
Proof.
  intros Hi Hm Hj Hv. pose proof (mt_files _ _ _ Hm) as Hf. pose proof (mounted_len _ _ Hi Hm) as Hl.
  destruct (fo_size _ _ Hf j Hj Hv) as (? & ? & ?). pose proof (fo_block _ _ Hf j Hj Hv).
  destruct (fmeta_ok info V cfg y j Hl Hj) as ([? _] & _ & [? _] & _).
  pose proof (file_end info y _ j Hf Hj (in_block_own info y j Hv)). pose proof (layout info V cfg).
  pose proof (bo_end _ _ _ _ (mt_blocks _ _ _ Hm) (lblock (fm y j)) ltac:(lia)).
  pose proof (dstart_nonneg (lblock (fm y j))). lia.
Qed.

Lemma file_entry_len i y j : image_ok info i -> mounted info i y -> 0 <= j < files -> valid_fid (fm_id (fm y j)) = true ->
  len (ff_data (file_entry i y j)) = cur_size (fm y j).
Proof.
  intros Hi Hm Hj Hv. destruct (file_range _ _ _ Hi Hm Hj Hv) as (? & ? & ? & ? & ? & ?).
  destruct (data_block i y (lblock (fm y j)) Hi Hm ltac:(lia)) as (_ & ? & _). apply slice_len; lia.
Qed.

(** ** Looking up and reading *)
Lemma t_file_index i y fid (Q : Z * Z -> image -> Prop) :
  mounted info i y ->
  Q (match file_index info y fid with Some k => (PSA_SUCCESS, Z.of_nat k) | None => (PSA_ERROR_DOES_NOT_EXIST, 0) end) i ->
  triple V i (sfs_flash_fs_mblock_get_file_idx info fid) Q.
Proof. intros Hm HQ. eapply (t_file_idx info V cfg); [apply Hm|done]. Qed.

Lemma t_get_info i y fid fi (Q : Z * sfs_file_info_t -> image -> Prop) :
  mounted info i y ->
  Q (match fs_file i y fid with
     | Some e => (PSA_SUCCESS, FileInfo (len (ff_data e)) (ff_capacity e) (ff_flags e))
     | None => (PSA_ERROR_DOES_NOT_EXIST, fi) end) i ->
  valid_fid fid = true -> triple V i (sfs_flash_fs_file_get_info info fid fi) Q.
Proof.
  intros Hm HQ Hv. apply t_bind. eapply t_file_index; [exact Hm|]. unfold fs_file in HQ.
  destruct (file_index info y fid) as [k|] eqn:Hk; [|by apply t_ret].
  apply file_index_Some in Hk as [Hkr Hid]. cbn [negb Z.eqb PSA_SUCCESS].
  apply t_ok with info; [done|]. intros Hi.
  apply t_bind. eapply (t_read_file_meta info V cfg); [apply Hm|lia|]. cbn [negb Z.eqb PSA_SUCCESS].
  replace (bytes_eqb fid (fm_id (fm y (Z.of_nat k)))) with true by (symmetry; by apply bytes_eqb_eq).
  apply t_ret. cbn [fmap option_fmap option_map] in HQ. rewrite file_entry_len in HQ by (done || by rewrite Hid). exact HQ.
Qed.

Lemma t_read_file i y fid n off buf (Q : Z * bytes -> image -> Prop) :
  mounted info i y -> valid_fid fid = true -> 0 <= n <= len buf -> n < 2 ^ 64 -> 0 <= off < 2 ^ 64 ->
  match fs_file i y fid with
  | Some e => if off + n <=? len (ff_data e) then Q (PSA_SUCCESS, patch buf 0 (slice (ff_data e) off n)) i
              else Q (PSA_ERROR_INVALID_ARGUMENT, buf) i
  | None => Q (PSA_ERROR_DOES_NOT_EXIST, buf) i
  end ->
  triple V i (sfs_flash_fs_file_read info fid n off buf) Q.
Proof.
  intros Hm Hv Hn Hn64 Hoff HQ. apply t_ok with info; [done|]. intros Hi. apply t_bind. eapply t_file_index; [exact Hm|]. unfold fs_file in HQ.
  destruct (file_index info y fid) as [k|] eqn:Hk; [|by apply t_ret].
  apply file_index_Some in Hk as [Hkr Hid]. cbn [negb Z.eqb PSA_SUCCESS].
  set (j := Z.of_nat k) in *. assert (valid_fid (fm_id (fm y j)) = true) as Hvj by by rewrite Hid.
  destruct (file_range _ _ _ Hi Hm Hkr Hvj) as (Hlb & ? & ? & ? & ? & ?). pose proof (layout info V cfg).
  pose proof (file_entry_len _ _ _ Hi Hm Hkr Hvj) as Hel.
  apply t_bind. eapply (t_read_file_meta info V cfg); [apply Hm|done|]. cbn [negb Z.eqb PSA_SUCCESS].
  replace (bytes_eqb fid (fm_id (fm y j))) with true by (symmetry; by apply bytes_eqb_eq). cbn [negb fmap option_fmap option_map] in *.
  fold j in HQ. rewrite Hel in HQ.
  pose proof (check_contained_in_exact (cur_size (fm y j)) off n ltac:(unfold fits; lia) ltac:(unfold fits; lia) ltac:(unfold fits; lia)) as Hc.
  destruct (Z.leb_spec (off + n) (cur_size (fm y j))) as [Hin|Hout].
  - rewrite (proj2 Hc Hin). cbn [negb Z.eqb PSA_SUCCESS]. destruct (data_block i y _ Hi Hm Hlb) as (Hb & Hdl & Hp).
    pose proof (fl_num_blocks (info := info) (V := V)).
    apply t_bind. unfold sfs_flash_fs_dblock_read_file, sfs_dblock_lo_to_phy. apply t_bind, t_bind.
    eapply (t_read_block_meta info V cfg); [apply Hm|done|]. cbn [negb Z.eqb PSA_SUCCESS]. apply t_ret.
    destruct (Z.eqb_spec (phy_id (bmeta y (lblock (fm y j)))) SFS_BLOCK_INVALID_ID) as [Hbad|]; [unfold SFS_BLOCK_INVALID_ID in Hbad; lia|].
    rewrite wrap_small by lia. eapply (t_read_into info V); [exact Hb|lia..|]. apply t_ret.
    unfold file_entry in HQ. cbn [ff_data] in HQ. rewrite <- slice_slice in HQ by lia. exact HQ.
  - assert (sfs_utils_check_contained_in (cur_size (fm y j)) off n = PSA_ERROR_INVALID_ARGUMENT) as ->.
    { unfold sfs_utils_check_contained_in in *. case_match; [done|]. case_match; [done|]. lia. }
    by apply t_ret.
Qed.

(** ** Writing to a file *)
Lemma set_dblock_same h : set_dblock h (scratch_dblock h) = h.
Proof. by destruct h. Qed.

Lemma rewritten_same ds pos fin used old d z p n :
  rewritten ds pos fin used old d z -> 0 <= ds <= p -> 0 <= n -> p + n <= pos \/ fin <= p /\ p + n <= used -> 0 <= fin ->
  slice z p n = slice old p n.
Proof.
  intros [Hb _ Ha] Hp Hn [Hc|[Hc1 Hc2]] Hf.
  - replace p with (ds + (p - ds)) by lia. by rewrite (slice_slice z ds (pos - ds)), (slice_slice old ds (pos - ds)), Hb by lia.
  - replace p with (fin + (p - fin)) by lia. by rewrite (slice_slice z fin (used - fin)), (slice_slice old fin (used - fin)), Ha by lia.
Qed.

(** Entries that differ in the current size only. *)
Definition same_place (m m' : sfs_file_meta_t) : Prop :=
  fm_id m' = fm_id m /\ lblock m' = lblock m /\ data_idx m' = data_idx m /\ max_size m' = max_size m.

Lemma files_ok_resize y y' :
  files_ok info y -> (forall j, 0 <= j < files -> same_place (fm y j) (fm y' j)) ->
  (forall j, 0 <= j < files -> valid_fid (fm_id (fm y j)) = true -> cur_size (fm y' j) <= max_size (fm y' j)) ->
  (forall lb, 0 <= lb < dblocks -> dend info y' lb = dend info y lb) ->
  (forall j, 0 <= j < files -> 0 <= lblock (fm y j)) -> files_ok info y'.
Proof.
  intros Hy Hs Hc Hd Hpos.
  assert (forall lb j, 0 <= j < files -> in_block info y' lb j = in_block info y lb j) as Hin.
  { intros lb j Hj. unfold in_block. by destruct (Hs j Hj) as (-> & -> & _). }
  split.
  - intros j Hj Hv. destruct (Hs j Hj) as (Hid & -> & _). rewrite Hid in Hv. by apply (fo_block _ _ Hy).
  - intros j Hj Hv. destruct (Hs j Hj) as (Hid & Hlb & Hdi & Hms). rewrite Hid in Hv. split; [by apply Hc|].
    rewrite Hms, Hdi, Hlb. by destruct (fo_size _ _ Hy j Hj Hv) as (_ & ? & ?).
  - intros lb j Hj Hb. rewrite Hin in Hb by done. pose proof (fo_behind _ _ Hy lb j Hj Hb) as Hbh.
    apply in_block_true in Hb as [Hv Hlb]. pose proof (fo_block _ _ Hy j Hj Hv).
    destruct (Hs j Hj) as (_ & _ & -> & ->). rewrite Hd by (pose proof (Hpos j Hj); lia). rewrite <- Hbh. f_equal.
    apply sumZ_same. intros k Hk. rewrite Hin by done. by destruct (Hs k Hk) as (_ & _ & -> & ->).
  - intros lb j k Hj Hk. rewrite !Hin by done. destruct (Hs j Hj) as (_ & _ & -> & _), (Hs k Hk) as (_ & _ & -> & _).
    by apply (fo_apart _ _ Hy).
  - intros j k Hj Hk. destruct (Hs j Hj) as (-> & _), (Hs k Hk) as (-> & _). by apply (fo_id _ _ Hy).
Qed.

(** The change [i'] of [i]: file [fid] becomes [e], the other files are as they were. *)
Definition changed (i : image) (y fid : bytes) (e : option fsfile) (i' : image) (y' : bytes) : Prop :=
  live info V i' /\ mounted info i' y' /\ fs_file i' y' fid = e /\
  forall fid', valid_fid fid' = true -> fid' <> fid -> fs_file i' y' fid' = fs_file i y fid'.

(** What a file that changes in its place, in one logical block, does to the map of files. *)
Lemma changed_file i y lb swap m f z z0 e0 i' y' idx e :
  image_ok info i -> live info V i' -> mounted info i y -> 0 <= lb < dblocks -> (swap = true -> 0 < lb) ->
  stepped info i y lb swap m f z z0 e0 i' y' -> mounted info i' y' ->
  (lb <> 0 -> z0 = y /\ e0 = dend info y 0) ->
  0 <= idx < files -> valid_fid (fm_id (f idx)) = true ->
  (forall j, 0 <= j < files -> j <> idx -> f j = fm y j) ->
  (fm_id (fm y idx) = fm_id (f idx) \/ forall j, 0 <= j < files -> fm_id (fm y j) <> fm_id (f idx)) ->
  (valid_fid (fm_id (fm y idx)) = true -> fm_id (fm y idx) = fm_id (f idx)) ->
  (forall j p n, 0 <= j < files -> j <> idx -> in_block info y lb j = true -> data_idx (fm y j) <= p -> 0 <= n ->
     p + n <= data_idx (fm y j) + max_size (fm y j) -> slice (data i' y' lb) p n = slice (data i y lb) p n) ->
  file_entry i' y' idx = e -> changed i y (fm_id (f idx)) (Some e) i' y'.
Proof.
  intros Hi Hi' Hm Hlb Hsw Hst Hm' H0 Hidx Hv Hf Hid Hidv Hsame He.
  pose proof (mt_files _ _ _ Hm) as Hy. pose proof (mt_files _ _ _ Hm') as Hy'.
  pose proof (st_fmeta _ _ _ _ _ _ _ _ _ _ _ _ Hst) as Hfm. pose proof (mounted_len _ _ Hi Hm) as Hl.
  split; [done|]. split; [done|]. split.
  - apply fs_file_Some; [done|done|]. exists idx. rewrite Hfm by done. done.
  - intros fid' Hv' Hne. apply fs_file_same; [done..| |].
    + intros j Hj. rewrite Hfm by done. destruct (Z.eq_dec j idx) as [->|Hji]; [|by rewrite Hf].
      split; [by intros <-|]. intros <-. by destruct Hne; apply Hidv.
    + intros j Hj Hjid. assert (j <> idx) as Hji.
      { intros ->. destruct Hne. rewrite <- Hjid. apply Hidv. by rewrite Hjid. }
      assert (valid_fid (fm_id (fm y j)) = true) as Hvj by by rewrite Hjid.
      destruct (file_range _ _ _ Hi Hm Hj Hvj) as (? & ? & ? & ? & ? & ?).
      apply file_entry_same; [done|done|done|by rewrite Hfm, Hf|intros p n ???|done].
      destruct (Z.eq_dec (lblock (fm y j)) lb) as [Hjlb|Hjlb].
      * rewrite Hjlb. apply (Hsame j); [done..| |done|done|done]. by apply in_block_true.
      * eapply stepped_data_other; [exact Hm|exact Hlb|exact Hsw|exact Hst|done|done|done|lia..].
Qed.

Lemma t_set_scratch i phy lb (Q : unit -> image -> Prop) :
  Q tt (with_header i (if lb =? 0 then i_header i else set_dblock (i_header i) phy)) ->
  triple V i (sfs_flash_fs_mblock_set_data_scratch phy lb) Q.
Proof.
  intros HQ. unfold sfs_flash_fs_mblock_set_data_scratch, SFS_LOGICAL_DBLOCK0. destruct (lb =? 0); cbn [negb].
  - apply t_ret. by destruct i.
  - by apply t_bind, t_header, t_set_header.
Qed.

Lemma t_swap_data_block i bm lb (Q : sfs_block_meta_t -> image -> Prop) :
  Q (with_phy bm (if lb =? 0 then i_scratch i else scratch_dblock (i_header i)))
    (with_header i (if lb =? 0 then i_header i else set_dblock (i_header i) (phy_id bm))) ->
  triple V i (swap_data_block bm lb) Q.
Proof. intros HQ. apply t_bind, t_cur_scratch, t_bind, t_set_scratch, t_ret. exact HQ. Qed.

(** The block the data of a logical block are written to is another one, unless there are none. *)
Lemma scratch_for i y lb : image_ok info i -> mounted info i y -> 0 <= lb < dblocks ->
  let dst := if lb =? 0 then i_scratch i else scratch_dblock (i_header i) in
  0 <= dst < num_blocks info /\ (dstart info lb < dend info y lb -> phy_id (bmeta y lb) <> dst) /\ (lb <> 0 -> 2 <= dst /\ phy_id (bmeta y lb) <> dst).
Proof.
  intros Hi Hm Hlb dst. pose proof (fl_num_blocks (info := info) (V := V)). destruct (active_not_scratch info _ _ Hm) as (Hne & Har & Hsr).
  pose proof (mt_blocks _ _ _ Hm) as [Bz _ _ Bp _ Bsd]. unfold dst. destruct (Z.eqb_spec lb 0) as [->|].
  - lia.
  - destruct (Bp lb ltac:(lia)). pose proof (Bsd (more_blocks info V lb ltac:(lia))). lia.
Qed.

(** Writing the data is writing to the scratch blocks. *)
Lemma dst_written i y lb j w : image_ok info i -> mounted info i y -> 0 <= lb < dblocks -> safe info V i -> shadow info i j ->
  let dst := if lb =? 0 then i_scratch i else scratch_dblock (i_header i) in
  block j dst = Some w ->
  open V j dst (dstart info lb) bsize w /\ forall z, kept (dstart info lb) bsize w z -> shadow info i (with_block j dst z).
Proof.
  intros Hi Hm Hlb Hsafe Hj dst Hw. pose proof (scratch_for i y lb Hi Hm Hlb) as (Hdst & _ & Hdst2). fold dst in Hdst, Hdst2.
  destruct (active_not_scratch info _ _ Hm) as (Hne & Har & Hsr). pose proof (layout info V cfg).
  pose proof (fl_num_blocks (info := info) (V := V)). destruct (block_size_of info _ _ _ (proj1 Hj) Hw) as [Hlw _].
  unfold dst, dstart in *. destruct (Z.eqb_spec lb 0) as [Hz|Hz].
  - split; [eapply open_narrow; [by eapply (open_scratch info V)|lia|lia]|]. intros z Hk. eapply (shadow_scratch info); [done|exact Hw|].
    eapply kept_wider; [| |exact Hk]; lia.
  - destruct (Hdst2 Hz) as [H2 _]. pose proof (more_blocks info V lb ltac:(lia)).
    split; [by apply (open_data info V); [done|lia|lia|lia|..]|]. intros z [Hk _]. apply (shadow_data info); [done|lia|lia|lia|done|lia].
Qed.

(** The write of [n] octets of [buf] at [off] of the file with metadata [fm0] in block [lb], whose
    metadata are [bm], and the step that replaces entry [idx] of the table of files by [fm1]. *)
Lemma t_write_step i y lb bm fm0 idx fm1 off n buf (Q : Z -> image -> Prop) :
  mounted info i y -> image_ok info i -> 0 <= lb < dblocks -> block_meta_ok bm -> 0 <= idx < files -> file_meta_ok fm1 ->
  phy_id bm = phy_id (bmeta y lb) -> data_start bm = dstart info lb ->
  lblock fm0 = lb -> lblock fm1 = lb ->
  dstart info lb <= data_idx fm0 -> 0 <= off <= cur_size fm0 -> cur_size fm0 <= max_size fm0 -> 0 <= n -> off + n <= max_size fm0 ->
  data_idx fm0 + max_size fm0 <= bsize - free_size bm <= bsize -> n <= len buf ->
  (dend info y lb = dstart info lb -> data_idx fm0 + off = dstart info lb /\ data_idx fm0 + max_size fm0 = bsize - free_size bm) ->
  safe info V i ->
  (forall i' y' z z0 e0,
     let dst := if lb =? 0 then i_scratch i else scratch_dblock (i_header i) in
     live info V i' -> stepped info i y lb (negb (lb =? 0)) (with_phy bm dst) (new_fmeta info y idx fm1) z z0 e0 i' y' ->
     (lb <> 0 -> z0 = y /\ e0 = dend info y 0) ->
     rewritten (dstart info lb) (data_idx fm0 + off) (data_idx fm0 + max_size fm0) (bsize - free_size bm)
       (data i y lb) (slice buf 0 n) (data i' y' lb) -> lands info V Q i') ->
  triple V i (check! sfs_flash_fs_dblock_write_file info bm fm0 off n buf else PSA_ERROR_GENERIC_ERROR;;
    block_meta ← swap_data_block bm lb;
    check! sfs_flash_fs_mblock_update_scratch_block_meta info lb block_meta else PSA_ERROR_GENERIC_ERROR;;
    update_file_meta info idx fm1 (migrate_and_finalize info (negb (lb =? 0)))) Q.
Proof.
  intros Hm Hi Hlb Hbm Hidx Hfm1 Hphy Hds Hf0 Hf1 Hdi Hoff Hcur Hn Hmax Hfin Hbuf Hempty Hsafe HQ.
  pose proof (fl_num_blocks (info := info) (V := V)). pose proof (layout info V cfg).
  destruct (data_block i y lb Hi Hm Hlb) as (Hold & Hlold & Hpr). destruct (active_not_scratch info _ _ Hm) as (Hne & Har & Hsr).
  pose proof (mt_blocks _ _ _ Hm) as [Bz Bs Be Bp Bi Bsd].
  pose proof (dstart_nonneg lb) as Hds0.
  set (dst := if lb =? 0 then i_scratch i else scratch_dblock (i_header i)) in *.
  pose proof (scratch_for i y lb Hi Hm Hlb) as (Hdst & Hpd & Hdst2). fold dst in Hdst, Hpd, Hdst2. rewrite <- Hphy in Hpd, Hdst2.
  pose proof (Be lb Hlb) as Hbe.
  destruct (block_is_Some info i dst Hi Hdst) as (w0 & Hw0 & _).
  destruct (block_is_Some info i (i_scratch i) Hi ltac:(lia)) as (x0 & Hx0 & _).
  pose proof (shadow_refl info i x0 Hi Hx0) as Hsh.
  destruct (dst_written i y lb i w0 Hi Hm Hlb Hsafe Hsh Hw0) as [Hopen Hsz]. fold dst in Hopen, Hsz.
  apply t_check_as. rewrite <- Hphy in Hold.
  eapply (t_write_file info V cfg i lb bm fm0 off n buf); [done|exact Hold|exact Hw0|fold dst|lia..|fold dst; by rewrite Hds|].
  { destruct (Z.eq_dec (dend info y lb) (dstart info lb)); [right; rewrite Hds; by apply Hempty|left; apply Hpd; lia]. }
  intros z Hkz Hrw. split; [done|]. rewrite Hds in Hkz, Hrw. fold dst. specialize (Hsz z Hkz).
  apply t_bind. apply t_swap_data_block. cbn [i_header i_scratch with_block with_blocks with_header].
  fold dst. apply t_ok with info; [done|]. intros Hi1.
  assert (forall b, 0 <= b -> block (with_header (with_block i dst z) (if lb =? 0 then i_header i else set_dblock (i_header i) (phy_id bm))) b
    = if b =? dst then Some z else block i b) as Hb1 by (intros b Hb; by apply (block_with_block info)).
  destruct (Z.eqb_spec lb 0) as [Hz0|Hz0]; cbn [negb] in *.
  - eapply (t_change info V cfg i y lb false _ idx fm1 [] z bsize z false);
      [done|done|done|by apply with_phy_ok; [unfold fits, dst; lia|]|done|done|done|done|done| | | | |done|done|done| |].
    + unfold step_dblock. by rewrite set_dblock_same.
    + rewrite Hb1 by lia. destruct (Z.eqb_spec (i_active i) dst); [unfold dst in *; lia|]. apply Hm.
    + rewrite Hb1 by lia. unfold dst. by rewrite Z.eqb_refl.
    + intros b Hb _. rewrite Hb1 by lia. destruct (Z.eqb_spec b dst); [unfold dst in *; lia|done].
    + eapply (open_scratch info V i (with_block i dst z)); [done|done|]. change (block (with_block i dst z) (i_scratch i) = Some z).
      rewrite (block_with_block info) by (done || lia). unfold dst. by rewrite Z.eqb_refl.
    + intros i' y' Hi' Hst. apply (HQ i' y' [] z bsize Hi' Hst); [done|].
      assert (forall p k, dstart info lb <= p -> 0 <= k -> p + k <= bsize -> slice (data i' y' lb) p k = slice z p k) as Hd.
      { intros p k Hp Hk Hpk. rewrite Hz0 in Hp.
        eapply (stepped_data_zero info i y lb false); [exact Hlb|done|exact Hst|done|exact Hp|done|done]. }
      destruct Hrw as [Hr1 Hr2 Hr3]. pose proof (len_nonneg (slice buf 0 n)).
      rewrite (slice_len buf 0 n) in Hr2 by lia.
      split; rewrite ?(slice_len buf 0 n) by lia; rewrite Hd by lia; done.
  - eapply (t_change info V cfg i y lb true _ idx fm1 z y (dend info y 0) x0 true);
      [done|done|lia|by apply with_phy_ok; [unfold fits; lia|]|done|done|done|done|done| | | | | |done|done| |].
    + unfold step_dblock. by rewrite Hphy.
    + rewrite Hb1 by lia. destruct (Z.eqb_spec (i_active i) dst); [lia|]. apply Hm.
    + rewrite Hb1 by lia. destruct (Z.eqb_spec (i_scratch i) dst); [lia|done].
    + intros b Hb Hbn. rewrite Hb1 by lia. destruct (Z.eqb_spec b dst); [by destruct Hbn|done].
    + intros _. rewrite Hb1 by lia. unfold dst. by rewrite Z.eqb_refl.
    + eapply (open_scratch info V i (with_block i dst z)); [done|done|]. rewrite (block_with_block info) by (done || lia).
      destruct (Z.eqb_spec (i_scratch i) dst); [lia|done].
    + intros i' y' Hi' Hst. apply (HQ i' y' z y (dend info y 0) Hi' Hst); [done|].
      assert (data i' y' lb = z) as -> by (eapply (stepped_data_new info i y lb true); [exact Hlb|lia|exact Hst|done|done]). done.
Qed.


Lemma t_fail i e x k (Q : Z -> image -> Prop) :
  x <> PSA_SUCCESS -> Q e i -> triple V i (check_as e (mret x) k) Q.
Proof.
  intros Hx HQ. apply t_bind, t_ret. destruct (Z.eqb_spec x PSA_SUCCESS); [done|]. by apply t_ret.
Qed.

Lemma stepped_dend i y lb swap m f z z0 e0 i' y' j :
  stepped info i y lb swap m f z z0 e0 i' y' -> 0 <= j < dblocks ->
  dend info y' j = if j =? lb then bsize - free_size m else dend info y j.
Proof.
  intros Hst Hj. unfold dend. rewrite (st_bmeta _ _ _ _ _ _ _ _ _ _ _ _ Hst) by done. unfold new_bmeta.
  destruct (Z.eqb_spec j lb) as [->|]; [by destruct (lb =? 0)|]. by destruct (Z.eqb_spec j 0) as [->|].
Qed.

(** What is seen of the other files of a block that was rewritten around [data_idx fm0]. *)
Lemma rewritten_files i y lb j idx0 pos fin used d z p n :
  image_ok info i -> mounted info i y -> 0 <= j < files -> in_block info y lb j = true ->
  rewritten (dstart info lb) pos fin used (data i y lb) d z ->
  idx0 <= pos -> 0 <= fin -> dend info y lb <= used \/ dend info y lb <= idx0 ->
  data_idx (fm y j) + max_size (fm y j) <= idx0 \/ fin <= data_idx (fm y j) ->
  data_idx (fm y j) <= p -> 0 <= n -> p + n <= data_idx (fm y j) + max_size (fm y j) ->
  slice z p n = slice (data i y lb) p n.
Proof.
  intros Hi Hm Hj Hb Hrw Hpos Hfin Hused Hpl Hp Hn He.
  apply in_block_true in Hb as [Hv Hlb]. destruct (file_range _ _ _ Hi Hm Hj Hv) as (? & ? & ? & ? & ? & ?).
  rewrite Hlb in *. eapply rewritten_same; [exact Hrw|lia|done| |done]. lia.
Qed.

Lemma mounted_pos i y j : image_ok info i -> mounted info i y -> 0 <= j < files -> 0 <= lblock (fm y j).
Proof.
  intros Hi Hm Hj. by destruct (fmeta_ok info V cfg y j (mounted_len _ _ Hi Hm) Hj) as ([? _] & _).
Qed.

Lemma t_file_write i y fid n off buf (Q : Z -> image -> Prop) :
  mounted info i y -> safe info V i -> valid_fid fid = true -> 0 <= n <= len buf -> n < 2 ^ 32 -> 0 <= off < 2 ^ 64 ->
  match fs_file i y fid with
  | Some e =>
      if (off <=? len (ff_data e)) && (off + n <=? ff_capacity e) then
        len (ff_data e) <= off + n /\
        forall i' y', changed i y fid (Some (FsFile (ff_flags e) (ff_capacity e)
          (take (Z.to_nat off) (ff_data e) ++ slice buf 0 n))) i' y' -> lands info V Q i'
      else Q PSA_ERROR_GENERIC_ERROR i
  | None => Q PSA_ERROR_DOES_NOT_EXIST i
  end ->
  triple V i (sfs_flash_fs_file_write info fid n off buf) Q.
Proof.
  intros Hm Hsafe Hv Hn Hn32 Hoff HQ. apply t_ok with info; [done|]. intros Hi. apply t_bind. eapply t_file_index; [exact Hm|].
  unfold fs_file in HQ. destruct (file_index info y fid) as [k|] eqn:Hk; [|by apply t_ret].
  apply file_index_Some in Hk as [Hkr Hid]. cbn [negb Z.eqb PSA_SUCCESS fmap option_fmap option_map] in *.
  set (j := Z.of_nat k) in *. assert (valid_fid (fm_id (fm y j)) = true) as Hvj by by rewrite Hid.
  pose proof (mounted_len _ _ Hi Hm) as Hly. pose proof (mt_files _ _ _ Hm) as Hy. pose proof (layout info V cfg).
  destruct (file_range _ _ _ Hi Hm Hkr Hvj) as (Hlb & Hcur & Hmax & Hdi & Hds0 & Hend).
  pose proof (file_entry_len _ _ _ Hi Hm Hkr Hvj) as Hel.
  apply t_bind. eapply (t_read_file_meta info V cfg); [apply Hm|done|]. cbn [negb Z.eqb PSA_SUCCESS].
  apply t_bind. eapply (t_read_block_meta info V cfg); [apply Hm|done|]. cbn [negb Z.eqb PSA_SUCCESS].
  rewrite Hel in HQ. change (ff_capacity (file_entry i y j)) with (max_size (fm y j)) in HQ.
  unfold sfs_flash_fs_file_write_aligned_data.
  destruct (Z.ltb_spec (cur_size (fm y j)) off) as [Hgap|Hnogap].
  { destruct (Z.leb_spec off (cur_size (fm y j))); [lia|]. by apply t_fail. }
  destruct (Z.leb_spec off (cur_size (fm y j))); [|lia]. cbn [andb] in HQ.
  pose proof (check_contained_in_exact (max_size (fm y j)) off n ltac:(unfold fits; lia) ltac:(unfold fits; lia) ltac:(unfold fits; lia)) as Hc.
  destruct (Z.leb_spec (off + n) (max_size (fm y j))) as [Hin|Hout].
  2: { destruct (Z.eqb_spec (sfs_utils_check_contained_in (max_size (fm y j)) off n) PSA_SUCCESS) as [Hs|]; [|by apply t_fail].
       apply Hc in Hs. lia. }
  rewrite (proj2 Hc Hin). cbn [negb Z.eqb PSA_SUCCESS]. destruct HQ as [Htail HQ].
  rewrite (wrap_small 64 (off + n)) by lia.
  replace (if cur_size (fm y j) <? off + n then off + n else cur_size (fm y j)) with (off + n) by (case_match; lia).
  set (lb := lblock (fm y j)) in *.
  set (fm1 := FileMeta lb (data_idx (fm y j)) (off + n) (max_size (fm y j)) (fm_flags (fm y j)) (fm_id (fm y j)) (file_pad (fm y j))).
  pose proof (bo_start _ _ _ _ (mt_blocks _ _ _ Hm) lb Hlb) as Hst0.
  destruct (fmeta_ok info V cfg y j Hly Hkr) as (F1 & F2 & F3 & F4 & F5 & F6 & F7).
  eapply (t_write_step i y lb (bmeta y lb) (fm y j) j fm1 off n buf);
    [done|done|done|by apply (bmeta_ok info V cfg)|done| |done|done|done|done|done|lia|lia|lia|lia|unfold dend in Hend; lia|lia|intros ?; lia|done|].
  { split; [done|]. split; [done|]. split; [unfold fits; cbn; lia|]. done. }
  intros i' y' z z0 e0 dst Hi' Hst Hz0 Hrw. pose proof (st_fmeta _ _ _ _ _ _ _ _ _ _ _ _ Hst) as Hfm.
  assert (forall lb', 0 <= lb' < dblocks -> dend info y' lb' = dend info y lb') as Hde.
  { intros lb' Hlb'. rewrite (stepped_dend _ _ _ _ _ _ _ _ _ _ _ _ Hst) by done. by destruct (Z.eqb_spec lb' lb) as [->|]. }
  assert (negb (lb =? 0) = true -> 0 < lb) as Hsw by (destruct (Z.eqb_spec lb 0); [done|lia]).
  pose proof (bo_end _ _ _ _ (mt_blocks _ _ _ Hm) lb Hlb) as Hbe. unfold dend in Hbe.
  assert (files_ok info y') as Hy'.
  { apply (files_ok_resize y); [done| | |done|intros; by apply (mounted_pos i)].
    - intros j' Hj'. rewrite Hfm by done. unfold new_fmeta. by destruct (Z.eqb_spec j' j) as [->|].
    - intros j' Hj' Hvj'. rewrite Hfm by done. unfold new_fmeta. destruct (Z.eqb_spec j' j) as [->|]; [done|].
      by apply (fo_size _ _ Hy j' Hj' Hvj'). }
  assert (mounted info i' y') as Hm'.
  { eapply (stepped_mounted info V cfg); [exact Hm|exact Hlb|exact Hsw|exact Hst|done|done| |done].
    intros Hpos. cbn. unfold dst. by destruct (Z.eqb_spec lb 0); [lia|]. }
  apply (HQ i' y'). rewrite <- Hid. change (fm_id (fm y j)) with (fm_id fm1).
  replace fm1 with (new_fmeta info y j fm1 j) at 1 by (unfold new_fmeta; by rewrite Z.eqb_refl).
  eapply (changed_file i y lb); [done|done|done|exact Hlb|exact Hsw|exact Hst|done|exact Hz0|done| | | | | |];
    rewrite ?(eq_refl : new_fmeta info y j fm1 j = if j =? j then fm1 else fm y j), ?Z.eqb_refl; try done.
  - intros j' Hj' Hne. unfold new_fmeta. by destruct (Z.eqb_spec j' j).
  - by left.
  - intros j' p k' Hj' Hne Hb Hp Hk' He. eapply (rewritten_files i y lb j' (data_idx (fm y j))); [done|done|exact Hj'|done|exact Hrw|lia|lia| | |done|done|done].
    + left. done.
    + pose proof (files_apart info y lb j' j Hy Hj' Hkr Hb (in_block_own info y j Hvj) Hne). lia.
  - unfold file_entry. rewrite Hfm by done. unfold new_fmeta. rewrite Z.eqb_refl. cbn [fm_flags max_size lblock data_idx cur_size fm1 ff_flags ff_capacity ff_data].
    f_equal. rewrite slice_app by lia. destruct Hrw as [R1 R2 R3].
    pose proof (slice_len buf 0 n ltac:(lia) ltac:(lia) ltac:(lia)) as Hlen. rewrite Hlen in R2. rewrite R2. f_equal.
    replace (data_idx (fm y j)) with (dstart info lb + (data_idx (fm y j) - dstart info lb)) by lia.
    rewrite (slice_slice _ (dstart info lb) (data_idx (fm y j) + off - dstart info lb)), R1, <- slice_slice by lia.
    replace (dstart info lb + (data_idx (fm y j) - dstart info lb)) with (data_idx (fm y j)) by lia.
    change (take (Z.to_nat off) ?l) with (slice l 0 off). fold lb.
    rewrite <- slice_slice by lia. by rewrite Z.add_0_r.
Qed.


(** ** Creating a file *)

(** A new entry [idx] at the end of block [lb]. *)
Lemma files_ok_create y y' idx lb size m :
  files_ok info y -> 0 <= idx < files -> valid_fid (fm_id (fm y idx)) = false -> 0 <= lb < dblocks -> 0 < size ->
  (forall j, 0 <= j < files -> fm y' j = new_fmeta info y idx m j) ->
  lblock m = lb -> data_idx m = dend info y lb -> max_size m = size -> cur_size m <= size -> valid_fid (fm_id m) = true ->
  dstart info lb <= dend info y lb ->
  (forall j, 0 <= j < files -> fm_id (fm y j) <> fm_id m) ->
  (forall lb', 0 <= lb' < dblocks -> dend info y' lb' = if lb' =? lb then dend info y lb + size else dend info y lb') ->
  (forall j, 0 <= j < files -> 0 <= lblock (fm y j)) -> files_ok info y'.
Proof.
  intros Hy Hidx Hfree Hlb Hsize Hfm Mlb Mdi Mms Mcs Mv Hds Hnew Hde Hpos.
  assert (forall j, 0 <= j < files -> j <> idx -> fm y' j = fm y j) as Hold
    by (intros j Hj Hne; rewrite Hfm by done; unfold new_fmeta; by destruct (Z.eqb_spec j idx)).
  assert (fm y' idx = m) as Hat by (rewrite Hfm by done; unfold new_fmeta; by rewrite Z.eqb_refl).
  assert (forall lb' j, 0 <= j < files -> j <> idx -> in_block info y' lb' j = in_block info y lb' j) as Hin
    by (intros lb' j Hj Hne; unfold in_block; by rewrite Hold).
  assert (forall lb', in_block info y' lb' idx = (lb =? lb')) as Hinidx
    by (intros lb'; unfold in_block; by rewrite Hat, Mv, Mlb).
  assert (forall lb', in_block info y lb' idx = false) as Hnotin by (intros lb'; unfold in_block; by rewrite Hfree).
  assert (forall lb' p, size_behind info y' lb' p = size_behind info y lb' p +
    if (lb =? lb') && (p <? dend info y lb) then size else 0) as Hsum.
  { intros lb' p. unfold size_behind at 1.
    rewrite (sumZ_change _ (fun j => if in_block info y lb' j && (p <? data_idx (fm y j)) then max_size (fm y j) else 0) files idx);
      [|done|intros j Hj Hne; by rewrite Hin, Hold].
    unfold size_behind. rewrite Hinidx, Hnotin, Hat, Mdi, Mms. cbn. lia. }
  split.
  - intros j Hj. destruct (Z.eq_dec j idx) as [->|Hne]; [intros _; rewrite Hat, Mlb; lia|]. rewrite Hold by done. by apply (fo_block _ _ Hy).
  - intros j Hj. destruct (Z.eq_dec j idx) as [->|Hne]; [intros _; rewrite Hat, Mlb, Mdi, Mms; lia|]. rewrite Hold by done. by apply (fo_size _ _ Hy).
  - intros lb' j Hj Hb. rewrite Hsum. destruct (Z.eq_dec j idx) as [->|Hne].
    + rewrite Hinidx in Hb. apply Z.eqb_eq in Hb as <-. rewrite Hat, Mdi, Mms, Hde, !Z.eqb_refl, Z.ltb_irrefl by done. cbn [andb].
      assert (size_behind info y lb (dend info y lb) = 0) as ->; [|lia].
      apply Z.le_antisymm; [|by apply size_behind_nonneg]. unfold size_behind.
      transitivity (sumZ ((fun _ : Z => 0) <$> seqZ 0 files)).
      * apply sumZ_le. intros k Hk%elem_of_seqZ. destruct (in_block info y lb k) eqn:Hbk; [|done].
        pose proof (file_end info y lb k Hy ltac:(lia) Hbk). pose proof (in_block_size info y lb k Hy ltac:(lia) Hbk).
        destruct (Z.ltb_spec (dend info y lb) (data_idx (fm y k))); cbn; lia.
      * clear. generalize (seqZ 0 files) as l. unfold sumZ. induction l as [|a l IH]; [done|]. cbn [fmap list_fmap foldr]. lia.
    + rewrite Hin in Hb by done. rewrite Hold by done. pose proof (fo_behind _ _ Hy lb' j Hj Hb) as Hbh.
      pose proof (file_end info y lb' j Hy Hj Hb). pose proof (in_block_size info y lb' j Hy Hj Hb).
      pose proof Hb as [Hv Hlbj]%in_block_true. pose proof (Hpos j Hj). rewrite Hde by lia.
      rewrite (Z.eqb_sym lb' lb). destruct (Z.eqb_spec lb lb') as [<-|]; cbn [andb]; [|lia].
      destruct (Z.ltb_spec (data_idx (fm y j)) (dend info y lb)); lia.
  - intros lb' j k Hj Hk Hbj Hbk.
    destruct (Z.eq_dec j idx) as [->|Hne], (Z.eq_dec k idx) as [->|Hne']; [done| | |].
    + rewrite Hinidx in Hbj. apply Z.eqb_eq in Hbj as <-. rewrite Hin in Hbk by done. rewrite Hat, Hold, Mdi by done.
      pose proof (file_end info y lb k Hy Hk Hbk). pose proof (in_block_size info y lb k Hy Hk Hbk). lia.
    + rewrite Hinidx in Hbk. apply Z.eqb_eq in Hbk as <-. rewrite Hin in Hbj by done. rewrite Hat, Hold, Mdi by done.
      pose proof (file_end info y lb j Hy Hj Hbj). pose proof (in_block_size info y lb j Hy Hj Hbj). lia.
    + rewrite Hin in Hbj, Hbk by done. rewrite !Hold by done. by apply (fo_apart _ _ Hy lb').
  - intros j k Hj Hk. destruct (Z.eq_dec j idx) as [->|Hne], (Z.eq_dec k idx) as [->|Hne']; [done| | |].
    + rewrite Hat, Hold by done. intros _ Heq. by destruct (Hnew k Hk).
    + rewrite Hat, Hold by done. intros _ Heq. by destruct (Hnew j Hj).
    + rewrite !Hold by done. by apply (fo_id _ _ Hy).
Qed.

Lemma free_entry_Some y k : free_entry info y = Some k ->
  0 <= Z.of_nat k < files /\ valid_fid (fm_id (fm y (Z.of_nat k))) = false.
Proof.
  intros [(j & Hj & Hp) _]%find_index_Some. apply lookup_seqZ in Hj as [-> ?]. split; [lia|]. by apply negb_true_iff in Hp.
Qed.

Lemma roomy_block_Some y size k : roomy_block info y size = Some k ->
  0 <= Z.of_nat k < dblocks /\ size <= free_size (bmeta y (Z.of_nat k)).
Proof.
  intros [(j & Hj & Hp) _]%find_index_Some. apply lookup_seqZ in Hj as [-> ?]. split; [lia|]. by apply Z.leb_le in Hp.
Qed.

(** The step that adds the new file, whatever was done with its data. *)
Lemma created i y lb swap bm fm1 idx size z z0 e0 i' y' :
  mounted info i y -> image_ok info i -> live info V i' -> 0 <= lb < dblocks -> (swap = true -> 0 < lb) ->
  stepped info i y lb swap bm (new_fmeta info y idx fm1) z z0 e0 i' y' ->
  data_start bm = dstart info lb -> free_size bm = free_size (bmeta y lb) - size ->
  (0 < lb -> phy_id bm = if swap then scratch_dblock (i_header i) else phy_id (bmeta y lb)) ->
  0 <= idx < files -> valid_fid (fm_id (fm y idx)) = false -> 0 < size <= free_size (bmeta y lb) ->
  lblock fm1 = lb -> data_idx fm1 = dend info y lb -> max_size fm1 = size -> 0 <= cur_size fm1 <= size ->
  valid_fid (fm_id fm1) = true -> (forall j, 0 <= j < files -> fm_id (fm y j) <> fm_id fm1) ->
  (lb <> 0 -> z0 = y /\ e0 = dend info y 0) ->
  (forall p n, dstart info lb <= p -> 0 <= n -> p + n <= dend info y lb -> slice (data i' y' lb) p n = slice (data i y lb) p n) ->
  changed i y (fm_id fm1) (Some (FsFile (fm_flags fm1) size (slice (data i' y' lb) (dend info y lb) (cur_size fm1)))) i' y'.
Proof.
  intros Hm Hi Hi' Hlb Hsw Hst Bds Bfr Bph Hidx Hfree Hsize Mlb Mdi Mms Mcs Mv Hnew Hz0 Hdata.
  pose proof (mt_files _ _ _ Hm) as Hy. pose proof (st_fmeta _ _ _ _ _ _ _ _ _ _ _ _ Hst) as Hfm.
  pose proof (bo_end _ _ _ _ (mt_blocks _ _ _ Hm) lb Hlb) as Hbe. pose proof (layout info V cfg).
  assert (0 <= free_size (bmeta y lb)) as Hfr0 by (unfold dend in Hbe; lia).
  assert (files_ok info y') as Hy'.
  { apply (files_ok_create y y' idx lb size fm1); try done; [lia|lia|lia| |intros; by apply (mounted_pos i)].
    intros lb' Hlb'. rewrite (stepped_dend _ _ _ _ _ _ _ _ _ _ _ _ Hst) by done.
    destruct (Z.eqb_spec lb' lb) as [->|]; [|done]. unfold dend. lia. }
  assert (mounted info i' y') as Hm'.
  { eapply (stepped_mounted info V cfg); [exact Hm|exact Hlb|exact Hsw|exact Hst|done|unfold dend in Hbe; lia|exact Bph|done]. }
  assert (new_fmeta info y idx fm1 idx = fm1) as Hat by (unfold new_fmeta; by rewrite Z.eqb_refl).
  rewrite <- Hat at 1. eapply (changed_file i y lb); [done|done|done|exact Hlb|exact Hsw|exact Hst|done|exact Hz0|done| | | | | |]; rewrite ?Hat.
  - done.
  - intros j Hj Hne. unfold new_fmeta. by destruct (Z.eqb_spec j idx).
  - by right.
  - rewrite Hfree. done.
  - intros j p n Hj Hne Hb Hp Hn He. pose proof (file_end info y lb j Hy Hj Hb). pose proof (in_block_size info y lb j Hy Hj Hb).
    apply Hdata; lia.
  - unfold file_entry. rewrite Hfm, Hat, Mlb, Mdi, Mms by done. done.
Qed.


(** There is a block with [size] free octets, and a free entry. *)
Definition has_room (y : bytes) (size : Z) : bool :=
  match roomy_block info y size, free_entry info y with Some _, Some _ => true | _, _ => false end.

Section Create.
Context (i : image) (y fid : bytes) (size n flags : Z) (buf : bytes) (k idx : nat).
Hypothesis Hi : image_ok info i.
Hypothesis Hm : mounted info i y.
Hypothesis Hv : valid_fid fid = true.
Hypothesis Hid12 : len fid = 12.
Hypothesis Hsize : 0 < size.
Hypothesis Hn : 0 <= n <= size.
Hypothesis Hbuf : n <= len buf.
Hypothesis Hflags : fits 32 flags.
Hypothesis Hk : roomy_block info y size = Some k.
Hypothesis Hidx : free_entry info y = Some idx.
Hypothesis Hnew : forall j, 0 <= j < files -> fm_id (fm y j) <> fid.
Hypothesis Hsafe : safe info V i.

Let lb := Z.of_nat k.
Let bm := reserved_block y size lb.
Let fm0 := reserved_file info y fid size flags lb.
Let fm1 := FileMeta lb (data_idx fm0) n size flags fid (fill 0 4).

Lemma create_facts :
  0 <= lb < dblocks /\ size <= free_size (bmeta y lb) /\ 0 <= Z.of_nat idx < files /\
  valid_fid (fm_id (fm y (Z.of_nat idx))) = false /\ block_meta_ok bm /\ file_meta_ok fm1 /\ data_idx fm0 = dend info y lb /\
  dstart info lb <= dend info y lb <= bsize /\ 0 <= dstart info lb /\ dend info y lb + size = bsize - free_size bm /\
  dend info y lb + size <= bsize.
Proof.
  destruct (roomy_block_Some _ _ _ Hk) as [Hlb Hfr]. fold lb in Hlb, Hfr. destruct (free_entry_Some _ _ Hidx) as [Hir Hiv].
  pose proof (mounted_len _ _ Hi Hm) as Hl. destruct (bmeta_ok info V cfg y lb Hl Hlb) as (B1 & B2 & B3 & B4).
  pose proof (bo_end _ _ _ _ (mt_blocks _ _ _ Hm) lb Hlb) as Hbe. pose proof (layout info V cfg).
  pose proof (dstart_nonneg lb).
  split; [done|]. split; [done|]. split; [done|]. split; [done|].
  assert (free_size bm = free_size (bmeta y lb) - size) as Hb by done.
  unfold dend in *. unfold fits in *. split.
  { split; [done|]. split; [done|]. split; [|done]. unfold fits. lia. }
  split.
  { pose proof (dblocks_range info V). split; [unfold fits; cbn; lia|]. split; [unfold fits; cbn; lia|]. split; [unfold fits; cbn; lia|].
    split; [unfold fits; cbn; lia|]. done. }
  split; [done|]. lia.
Qed.

(** The new file with data. *)
Lemma t_create_data (Q : Z -> image -> Prop) :
  0 < n -> (forall i' y', changed i y fid (Some (FsFile flags size (slice buf 0 n))) i' y' -> lands info V Q i') ->
  triple V i (check! sfs_flash_fs_dblock_write_file info bm fm0 0 n buf else PSA_ERROR_GENERIC_ERROR;;
    block_meta ← swap_data_block bm lb;
    check! sfs_flash_fs_mblock_update_scratch_block_meta info lb block_meta else PSA_ERROR_GENERIC_ERROR;;
    update_file_meta info (Z.of_nat idx) fm1 (migrate_and_finalize info (negb (lb =? 0)))) Q.
Proof.
  intros Hn0 HQ. destruct create_facts as (Hlb & Hfr & Hir & Hiv & Hbm & Hfm1 & Hdi & Hds & Hds0 & Hfin & Hle).
  pose proof (bo_start _ _ _ _ (mt_blocks _ _ _ Hm) lb Hlb) as Hst0.
  assert (n <= len buf) as Hb by done.
  eapply (t_write_step i y lb bm fm0 (Z.of_nat idx) fm1 0 n buf);
    [done|done|done|done|done|done|done|exact Hst0|done|done|lia|by cbn| |lia|cbn; lia|change (max_size fm0) with size; lia|lia|intros ?; change (max_size fm0) with size; lia|done|].
  { change (cur_size fm0) with 0. change (max_size fm0) with size. lia. }
  intros i' y' z z0 e0 dst Hi' Hst Hz0 Hrw.
  assert (negb (lb =? 0) = true -> 0 < lb) as Hsw by (destruct (Z.eqb_spec lb 0); [done|lia]).
  apply (HQ i' y'). change (max_size fm0) with size in Hrw. rewrite Hdi, Z.add_0_r in Hrw.
  assert (slice buf 0 n = slice (data i' y' lb) (dend info y lb) n) as ->.
  { destruct Hrw as [_ R2 _]. rewrite slice_len in R2 by lia. by rewrite R2. }
  eapply (created i y lb _ _ fm1 (Z.of_nat idx) size);
    [done|done|done|exact Hlb|exact Hsw|exact Hst|exact Hst0|done| |done|done|lia|done|done|done| |done|done|done|].
  - intros Hpos. cbn. unfold dst. by destruct (Z.eqb_spec lb 0); [lia|].
  - cbn. lia.
  - intros p m Hp Hm' He. eapply rewritten_same; [exact Hrw|lia|done|lia|lia].
Qed.

(** The new file without data: the data block stays. *)
Lemma t_create_empty (Q : Z -> image -> Prop) :
  n = 0 -> (forall i' y', changed i y fid (Some (FsFile flags size [])) i' y' -> lands info V Q i') ->
  triple V i (check! sfs_flash_fs_mblock_update_scratch_block_meta info lb bm else PSA_ERROR_GENERIC_ERROR;;
    update_file_meta info (Z.of_nat idx) fm1 (migrate_and_finalize info true)) Q.
Proof.
  intros Hn0 HQ. destruct create_facts as (Hlb & Hfr & Hir & Hiv & Hbm & Hfm1 & Hdi & Hds & Hds0 & Hfin & Hle).
  pose proof (bo_start _ _ _ _ (mt_blocks _ _ _ Hm) lb Hlb) as Hst0.
  destruct (active_not_scratch info _ _ Hm) as (Hne & Har & Hsr). pose proof (fl_num_blocks (info := info) (V := V)).
  destruct (block_is_Some info i (i_scratch i) Hi ltac:(lia)) as (x0 & Hx0 & _).
  eapply (t_change info V cfg i y lb false bm (Z.of_nat idx) fm1 [] y (dend info y 0) x0 true);
    [done|done|done|done|done|done|done|done|done| |apply Hm|done|done|done|done|done| |].
  { unfold step_dblock. by rewrite set_dblock_same. }
  { eapply (open_scratch info V i i); [done|by eapply (shadow_refl info)|done]. }
  intros i' y' Hi' Hst. apply (HQ i' y').
  replace [] with (slice (data i' y' lb) (dend info y lb) n) by (rewrite Hn0; apply slice_nil).
  eapply (created i y lb false bm fm1 (Z.of_nat idx) size);
    [done|done|done|exact Hlb|done|exact Hst|exact Hst0|done| |done|done|lia|done|done|done| |done|done|done|].
  - intros Hpos. done.
  - cbn. lia.
  - intros p m' Hp Hm' He. destruct (Z.eqb_spec lb 0) as [H0|H0].
    + rewrite H0 in Hp, He. rewrite (stepped_data_zero info i y lb false bm _ [] y (dend info y 0) Hlb ltac:(done) i' y' p m' Hst H0 Hp Hm' ltac:(lia)).
      rewrite H0 in *. unfold data. destruct (bo_zero _ _ _ _ (mt_blocks _ _ _ Hm)) as [->|[Hz _]]; [by rewrite (mt_block _ _ _ Hm)|].
      replace m' with 0 by lia. by rewrite !slice_nil.
    + by rewrite (stepped_data_same info i y lb false bm _ [] y (dend info y 0) Hlb ltac:(done) i' y' Hst ltac:(done) ltac:(lia) ltac:(done)).
Qed.
End Create.

Lemma t_file_create i y fid size n flags buf (Q : Z -> image -> Prop) :
  mounted info i y -> safe info V i -> valid_fid fid = true -> len fid = 12 -> 0 < size < 2 ^ 64 -> 0 <= n <= len buf -> n < 2 ^ 64 -> fits 32 flags ->
  (if max_file_size info <? size then Q PSA_ERROR_INSUFFICIENT_STORAGE i
   else match fs_file i y fid with
   | Some _ => Q PSA_ERROR_INVALID_ARGUMENT i
   | None =>
       if has_room y size then
         if n <=? size then forall i' y', changed i y fid (Some (FsFile flags size (slice buf 0 n))) i' y' -> lands info V Q i'
         else Q PSA_ERROR_GENERIC_ERROR i
       else Q PSA_ERROR_INSUFFICIENT_STORAGE i
   end) ->
  triple V i (sfs_flash_fs_file_create info fid size n flags buf) Q.
Proof.
  intros Hm Hsafe Hv H12 Hsize Hn Hn64 Hfl HQ. apply t_ok with info; [done|]. intros Hi. unfold sfs_flash_fs_file_create.
  destruct (max_file_size info <? size); [by apply t_ret|].
  apply t_bind. eapply t_file_index; [exact Hm|]. unfold fs_file in HQ.
  destruct (file_index info y fid) as [k0|] eqn:Hk0; [by apply t_ret|]. cbn [Z.eqb PSA_SUCCESS PSA_ERROR_DOES_NOT_EXIST fmap option_fmap option_map] in *.
  assert (forall j, 0 <= j < files -> fm_id (fm y j) <> fid) as Hnew by (intros j Hj; by apply (file_index_None y)).
  pose proof (layout info V cfg). pose proof (mounted_len _ _ Hi Hm) as Hl.
  apply t_bind. eapply (t_reserve info V cfg); [apply Hm| |].
  { intros j Hj. pose proof (bo_end _ _ _ _ (mt_blocks _ _ _ Hm) j Hj) as Hbe. unfold dend in Hbe.
    destruct (bmeta_ok info V cfg y j Hl Hj) as (_ & _ & [? _] & _).
    pose proof (dstart_nonneg j). lia. }
  unfold has_room in HQ. destruct (roomy_block info y size) as [k|] eqn:Hk; [|intros; by apply t_ret].
  destruct (free_entry info y) as [idx|] eqn:Hidx; [|intros; by apply t_ret].
  cbn [negb Z.eqb PSA_SUCCESS]. change (lblock (reserved_file info y fid size flags (Z.of_nat k))) with (Z.of_nat k).
  destruct (Z.eqb_spec n 0) as [Hn0|Hn0]; cbn [negb].
  - destruct (Z.leb_spec n size); [|lia]. rewrite orb_true_r. subst n. rewrite slice_nil in HQ.
    eapply (t_create_empty i y fid size 0 flags k idx); try done; lia.
  - rewrite orb_false_r. unfold sfs_flash_fs_file_write_aligned_data, SFS_FLASH_FS_INIT_FILE.
    change (cur_size (reserved_file info y fid size flags (Z.of_nat k)) <? 0) with false. cbv iota.
    change (max_size (reserved_file info y fid size flags (Z.of_nat k))) with size.
    pose proof (check_contained_in_exact size 0 n ltac:(unfold fits; lia) ltac:(unfold fits; lia) ltac:(unfold fits; lia)) as Hc.
    destruct (Z.leb_spec n size).
    + rewrite (proj2 Hc ltac:(lia)). cbn [negb Z.eqb PSA_SUCCESS].
      eapply (t_create_data i y fid size n flags buf k idx); try done; lia.
    + destruct (Z.eqb_spec (sfs_utils_check_contained_in size 0 n) PSA_SUCCESS) as [Hs|]; [apply Hc in Hs; lia|by apply t_fail].
Qed.

End Files.
