(* ===== verification/SfsDelete.v ===== *)
(** * Deleting a file

    sfs_flash_fs_file_delete moves the files behind the deleted one up, in the table of files
    and in the data block. *)
From S2P Require Import Prelude Status SfsFlash SfsMblock SfsFs SfsLogic SfsMeta SfsData SfsFiles.

Section Delete.
Context {F : Type} (info : sfs_flash_info_t F) (V : flash_view F) `{!FlashLaws info V}.
Hypothesis cfg : config_ok info.

Abbreviation files := (max_num_files info).
Abbreviation dblocks := (sfs_num_active_dblocks info).
Abbreviation bsize := (block_size info).
Abbreviation foff := (sfs_mblock_file_meta_offset info).
Abbreviation fm y j := (fmeta info y j).

(** The file [d] in block [lb] of a mounted file system. *)
Context (i : image) (y : bytes) (d : Z).
Hypothesis Hi : image_ok info i.
Hypothesis Hm : mounted info i y.
Hypothesis Hd : 0 <= d < files.
Hypothesis Hv : valid_fid (fm_id (fm y d)) = true.

Let lb := lblock (fm y d).
Let di := data_idx (fm y d).
Let n := max_size (fm y d).

Definition moved (j : Z) : bool := in_block info y lb j && (di <? data_idx (fm y j)).

(** The entry of file [j] after the deletion. *)
Definition deleted_fmeta (j : Z) : sfs_file_meta_t :=
  if j =? d then empty_file_meta
  else if moved j then FileMeta (lblock (fm y j)) (data_idx (fm y j) - n) (cur_size (fm y j)) (max_size (fm y j))
    (fm_flags (fm y j)) (fm_id (fm y j)) (file_pad (fm y j))
  else fm y j.

Let Hy : files_ok info y := mt_files _ _ _ Hm.

Lemma delete_range :
  0 <= lb < dblocks /\ 0 < n /\ 0 <= dstart info lb <= di /\ di + n <= dend info y lb <= bsize /\ bsize < 2 ^ 16.
Proof.
  destruct (file_range info V cfg _ _ _ Hi Hm Hd Hv) as (? & ? & ? & ? & ? & ?). pose proof (layout info V cfg).
  subst lb di n. lia.
Qed.

Lemma moved_d : moved d = false.
Proof. unfold moved. by rewrite Z.ltb_irrefl, andb_false_r. Qed.

Lemma in_block_d : in_block info y lb d = true.
Proof. by apply in_block_own. Qed.

(** A file that is moved was behind the deleted one, one that is not was before it. *)
Lemma moved_place j : 0 <= j < files -> j <> d -> in_block info y lb j = true ->
  if moved j then di + n <= data_idx (fm y j) else data_idx (fm y j) + max_size (fm y j) <= di.
Proof.
  intros Hj Hne Hb. pose proof (files_apart info y lb j d Hy Hj Hd Hb in_block_d Hne) as Ha.
  pose proof (in_block_size info y lb j Hy Hj Hb). pose proof delete_range. fold di n in Ha.
  unfold moved. rewrite Hb. cbn [andb]. destruct (Z.ltb_spec di (data_idx (fm y j))); lia.
Qed.

Lemma moved_in_block j : moved j = true -> in_block info y lb j = true.
Proof. unfold moved. by intros [? _]%andb_true_iff. Qed.

Lemma behind_d : di + n + size_behind info y lb di = dend info y lb.
Proof. exact (fo_behind _ _ Hy lb d Hd in_block_d). Qed.

(** ** The invariant of the files after the deletion *)
Section After.
Context (y' : bytes).
Hypothesis Hf : forall j, 0 <= j < files -> fm y' j = deleted_fmeta j.
Hypothesis Hde : forall lb', 0 <= lb' < dblocks -> dend info y' lb' = if lb' =? lb then dend info y lb - n else dend info y lb'.

Lemma after_d : valid_fid (fm_id (fm y' d)) = false.
Proof. rewrite Hf by done. unfold deleted_fmeta. rewrite Z.eqb_refl. by vm_compute. Qed.

Lemma after_other j : 0 <= j < files -> j <> d ->
  fm_id (fm y' j) = fm_id (fm y j) /\ lblock (fm y' j) = lblock (fm y j) /\ max_size (fm y' j) = max_size (fm y j) /\
  cur_size (fm y' j) = cur_size (fm y j) /\ fm_flags (fm y' j) = fm_flags (fm y j) /\
  data_idx (fm y' j) = if moved j then data_idx (fm y j) - n else data_idx (fm y j).
Proof.
  intros Hj Hne. rewrite Hf by done. unfold deleted_fmeta. destruct (Z.eqb_spec j d); [done|]. by destruct (moved j).
Qed.

Lemma after_in_block lb' j : 0 <= j < files -> in_block info y' lb' j = negb (j =? d) && in_block info y lb' j.
Proof.
  intros Hj. unfold in_block. destruct (Z.eqb_spec j d) as [->|Hne]; [by rewrite after_d|].
  by destruct (after_other j Hj Hne) as (-> & -> & _).
Qed.

(** The order of the files of a block is that before. *)
Lemma after_order j k lb' : 0 <= j < files -> 0 <= k < files -> j <> d -> k <> d ->
  in_block info y lb' j = true -> in_block info y lb' k = true ->
  (data_idx (fm y' j) <? data_idx (fm y' k)) = (data_idx (fm y j) <? data_idx (fm y k)).
Proof.
  intros Hj Hk Hjd Hkd Hbj Hbk. destruct (after_other j Hj Hjd) as (_ & _ & _ & _ & _ & ->).
  destruct (after_other k Hk Hkd) as (_ & _ & _ & _ & _ & ->). pose proof delete_range.
  pose proof (in_block_size info y lb' j Hy Hj Hbj). pose proof (in_block_size info y lb' k Hy Hk Hbk).
  destruct (Z.eq_dec lb' lb) as [->|Hlb'].
  - pose proof (moved_place j Hj Hjd Hbj). pose proof (moved_place k Hk Hkd Hbk). destruct (moved j), (moved k); lia.
  - assert (forall x, in_block info y lb' x = true -> moved x = false) as Hmv.
    { intros x [_ Hx]%in_block_true. unfold moved. destruct (in_block info y lb x) eqn:Hxb; [|done].
      apply in_block_true in Hxb as [_ Hxb]. congruence. }
    by rewrite (Hmv j Hbj), (Hmv k Hbk).
Qed.

Lemma after_behind lb' j : 0 <= j < files -> j <> d -> in_block info y lb' j = true ->
  size_behind info y' lb' (data_idx (fm y' j)) =
  size_behind info y lb' (data_idx (fm y j)) - if in_block info y lb' d && (data_idx (fm y j) <? di) then n else 0.
Proof.
  intros Hj Hjd Hb. unfold size_behind at 1.
  rewrite (sumZ_change _ (fun k => if in_block info y lb' k && (data_idx (fm y j) <? data_idx (fm y k)) then max_size (fm y k) else 0) files d);
    [|done|].
  - rewrite after_in_block, Z.eqb_refl by done. cbn [negb andb]. fold di n. unfold size_behind. lia.
  - intros k Hk Hkd. rewrite after_in_block by done. destruct (Z.eqb_spec k d); [done|]. cbn [negb andb].
    destruct (after_other k Hk Hkd) as (_ & _ & -> & _). destruct (in_block info y lb' k) eqn:Hbk; [|done]. cbn [andb].
    by rewrite (after_order j k lb') by done.
Qed.

Lemma after_files_ok : files_ok info y'.
Proof.
  pose proof delete_range as (Hlb & Hn & Hds & Hde' & _). split.
  - intros j Hj Hvj. destruct (Z.eq_dec j d) as [->|Hne]; [by rewrite after_d in Hvj|].
    destruct (after_other j Hj Hne) as (Hid & -> & _). apply (fo_block _ _ Hy); congruence.
  - intros j Hj Hvj. destruct (Z.eq_dec j d) as [->|Hne]; [by rewrite after_d in Hvj|].
    destruct (after_other j Hj Hne) as (Hid & -> & -> & -> & _ & ->). rewrite Hid in Hvj.
    destruct (fo_size _ _ Hy j Hj Hvj) as (? & ? & ?). split; [done|]. split; [done|].
    destruct (moved j) eqn:Hmj; [|done]. pose proof (moved_in_block j Hmj) as Hb. pose proof (moved_place j Hj Hne Hb) as Hp.
    rewrite Hmj in Hp. apply in_block_true in Hb as [_ ->]. lia.
  - intros lb' j Hj Hb. rewrite after_in_block in Hb by done. apply andb_true_iff in Hb as [Hne Hb].
    apply negb_true_iff, Z.eqb_neq in Hne. rewrite after_behind by done.
    pose proof (fo_behind _ _ Hy lb' j Hj Hb) as Hbh. pose proof Hb as [Hvj Hlbj]%in_block_true.
    pose proof (fo_block _ _ Hy j Hj Hvj). pose proof (mounted_pos info V cfg i y j Hi Hm Hj). rewrite Hde by lia.
    destruct (after_other j Hj Hne) as (_ & _ & -> & _ & _ & ->). destruct (Z.eqb_spec lb' lb) as [->|Hl].
    + rewrite in_block_d. cbn [andb]. pose proof (moved_place j Hj Hne Hb). pose proof (in_block_size info y lb j Hy Hj Hb).
      destruct (moved j), (Z.ltb_spec (data_idx (fm y j)) di); lia.
    + assert (in_block info y lb' d = false) as ->.
      { destruct (in_block info y lb' d) eqn:He; [|done]. by apply in_block_true in He as [_ ?]. }
      cbn [andb]. destruct (moved j) eqn:Hmj; [|lia]. apply moved_in_block, in_block_true in Hmj as [_ ?]. congruence.
  - intros lb' j k Hj Hk. rewrite !after_in_block by done. intros [Hne Hbj]%andb_true_iff [Hne' Hbk]%andb_true_iff Heq.
    apply negb_true_iff, Z.eqb_neq in Hne, Hne'. pose proof (after_order j k lb' Hj Hk Hne Hne' Hbj Hbk).
    pose proof (after_order k j lb' Hk Hj Hne' Hne Hbk Hbj). apply (fo_apart _ _ Hy lb'); [done..|]. lia.
  - intros j k Hj Hk Hvj. destruct (Z.eq_dec j d) as [->|Hne]; [by rewrite after_d in Hvj|].
    destruct (after_other j Hj Hne) as (Hid & _). rewrite Hid in *. destruct (Z.eq_dec k d) as [->|Hne'].
    + intros Heq. rewrite Heq, after_d in Hvj. done.
    + destruct (after_other k Hk Hne') as (-> & _). by apply (fo_id _ _ Hy).
Qed.
End After.

(** ** The loop over the table of files *)
Definition src_step (s j : Z) : Z := if moved j && (data_idx (fm y j) <? s) then data_idx (fm y j) else s.
Definition moved_size (j : Z) : Z := if moved j then max_size (fm y j) else 0.

(** The offset the loop finds is that of the first file behind the deleted one. *)
Lemma src_spec l s :
  (foldl src_step s l = s \/ exists j, j ∈ l /\ moved j = true /\ foldl src_step s l = data_idx (fm y j)) /\
  (forall j, j ∈ l -> moved j = true -> foldl src_step s l <= data_idx (fm y j)) /\ foldl src_step s l <= s.
Proof.
  revert s. induction l as [|k l IH]; intros s; cbn [foldl]; [split; [by left|]; split; [set_solver|done]|].
  destruct (IH (src_step s k)) as (Hor & Hle & Hs).
  assert (src_step s k <= s /\ (moved k = true -> src_step s k <= data_idx (fm y k)) /\
    (src_step s k = s \/ moved k = true /\ src_step s k = data_idx (fm y k))) as (H1 & H2 & H3).
  { unfold src_step. destruct (moved k); cbn [andb]; [|split; [done|split; [done|by left]]].
    destruct (Z.ltb_spec (data_idx (fm y k)) s); (split; [lia|]); split; [lia|by right|lia|by left]. }
  split; [|split; [|lia]].
  - destruct Hor as [->|(j & Hj & Hmj & ->)]; [|right; exists j; split; [by apply list_elem_of_further|done]].
    destruct H3 as [->|[Hmk ->]]; [by left|right; exists k; split; [by apply list_elem_of_here|done]].
  - intros j [->|Hj]%elem_of_cons Hmj; [specialize (H2 Hmj); lia|by apply Hle].
Qed.

Lemma moved_size_sum : sumZ (moved_size <$> seqZ 0 files) = size_behind info y lb di.
Proof. done. Qed.

Lemma src_first : 0 < size_behind info y lb di -> foldl src_step bsize (seqZ 0 files) = di + n.
Proof.
  intros Hpos. pose proof delete_range as (_ & ? & _ & Hend & _). destruct (src_spec (seqZ 0 files) bsize) as (Hor & Hle & _).
  destruct Hor as [Hs|(k & Hk%elem_of_seqZ & Hmk & Hs)].
  - (* no file was moved *)
    exfalso. assert (sumZ (moved_size <$> seqZ 0 files) <= sumZ ((fun _ : Z => 0) <$> seqZ 0 files)) as Hz.
    { apply sumZ_le. intros j Hj. unfold moved_size. destruct (moved j) eqn:Hmj; [|done]. specialize (Hle j Hj Hmj).
      apply elem_of_seqZ in Hj. apply moved_in_block in Hmj. pose proof (file_end info y lb j Hy ltac:(lia) Hmj).
      pose proof (in_block_size info y lb j Hy ltac:(lia) Hmj). lia. }
    rewrite moved_size_sum in Hz. assert (sumZ ((fun _ : Z => 0) <$> seqZ 0 files) = 0); [|lia].
    clear. generalize (seqZ 0 files) as l. unfold sumZ. induction l as [|a l IH]; [done|]. cbn [fmap list_fmap foldr]. lia.
  - rewrite Hs. pose proof (moved_in_block k Hmk) as Hbk. pose proof (fo_behind _ _ Hy lb k ltac:(lia) Hbk) as Hbh. pose proof behind_d as Hbd.
    assert (size_behind info y lb di = size_behind info y lb (data_idx (fm y k)) + max_size (fm y k)) as Heq; [|lia].
    unfold size_behind at 1.
    rewrite (sumZ_change _ (fun j => if in_block info y lb j && (data_idx (fm y k) <? data_idx (fm y j)) then max_size (fm y j) else 0) files k).
    + rewrite Z.ltb_irrefl, andb_false_r. change (in_block info y lb k && (di <? data_idx (fm y k))) with (moved k). rewrite Hmk. unfold size_behind. lia.
    + lia.
    + intros j Hj Hne. destruct (in_block info y lb j) eqn:Hbj; [|done]. cbn [andb].
      pose proof (Hle j ltac:(apply elem_of_seqZ; lia)) as Hlej. unfold moved in Hlej, Hmk. rewrite Hbj in Hlej. rewrite Hbk in Hmk.
      cbn [andb] in Hlej, Hmk. assert (data_idx (fm y j) <> data_idx (fm y k)) by (intros Heq; apply Hne; apply (fo_apart _ _ Hy lb); (done || lia)).
      destruct (Z.ltb_spec di (data_idx (fm y j))), (Z.ltb_spec (data_idx (fm y k)) (data_idx (fm y j))); lia.
Qed.

Lemma deleted_fmeta_ok j : 0 <= j < files -> file_meta_ok (deleted_fmeta j).
Proof.
  intros Hj. pose proof (fmeta_ok info V cfg y j (mounted_len info _ _ Hi Hm) Hj) as Hok. pose proof delete_range.
  unfold deleted_fmeta. destruct (Z.eqb_spec j d); [by vm_compute|]. destruct (moved j) eqn:Hmj; [|done].
  destruct Hok as (? & ? & ? & ? & ? & ? & ?). pose proof (moved_place j Hj ltac:(done) (moved_in_block j Hmj)) as Hp.
  rewrite Hmj in Hp. unfold fits in *. split; [done|]. split; [cbn; unfold fits; lia|]. done.
Qed.

Lemma t_delete_loop k j i1 x src nbr (Q : Z * Z * Z -> image -> Prop) :
  0 <= j -> j + Z.of_nat k = files -> i_active i1 <> i_scratch i1 -> image_ok info i1 ->
  block i1 (i_active i1) = Some y -> block i1 (i_scratch i1) = Some x ->
  nbr + sumZ (moved_size <$> seqZ j (Z.of_nat k)) < 2 ^ 64 -> 0 <= nbr ->
  fm x d = empty_file_meta -> (forall j', 0 <= j' < j -> fm x j' = deleted_fmeta j') ->
  open V i1 (i_scratch i1) (foff 0) (foff files) x ->
  (forall x', kept (foff 0) (foff files) x x' -> (forall j', 0 <= j' < files -> fm x' j' = deleted_fmeta j') ->
     Q (PSA_SUCCESS, foldl src_step src (seqZ j (Z.of_nat k)), nbr + sumZ (moved_size <$> seqZ j (Z.of_nat k)))
       (with_block i1 (i_scratch i1) x')) ->
  triple V i1 (delete_loop info k j d lb di n src nbr) Q.
Proof.
  revert j i1 x src nbr. induction k as [|k IH]; intros j i1 x src nbr Hj Hk Hne1 Hi1 Hy1 Hx1 Hnbr Hnbr0 Hxd Hx Hg HQ.
  - cbn [delete_loop]. apply t_ret. cbn in HQ. rewrite Z.add_0_r in HQ. rewrite <- (with_block_same i1 (i_scratch i1) x Hx1) at 1.
    apply HQ; [apply kept_refl|]. intros j' Hj'. apply Hx. lia.
  - cbn [delete_loop]. rewrite seqZ_S in HQ, Hnbr. cbn [foldl fmap list_fmap] in HQ, Hnbr.
    assert (0 <= sumZ (moved_size <$> seqZ (j + 1) (Z.of_nat k))) as Hrest.
    { apply sumZ_nonneg. intros j' Hj'%elem_of_seqZ. unfold moved_size. destruct (moved j') eqn:Hmj; [|done].
      pose proof (in_block_size info y lb j' Hy ltac:(lia) (moved_in_block j' Hmj)). lia. }
    unfold sumZ in HQ, Hnbr. cbn [foldr] in HQ, Hnbr. fold (sumZ (moved_size <$> seqZ (j + 1) (Z.of_nat k))) in HQ, Hnbr.
    destruct (Z.eqb_spec j d) as [->|Hjd].
    { unfold src_step at 2 in HQ. unfold moved_size at 1 in HQ. unfold moved_size at 1 in Hnbr. rewrite moved_d in HQ, Hnbr. cbn [andb] in HQ. rewrite Z.add_0_l in HQ, Hnbr.
      apply (IH (d + 1) i1 x); try done; [lia|lia|]. intros j' Hj'. destruct (Z.eq_dec j' d) as [->|]; [|apply Hx; lia].
      rewrite Hxd. unfold deleted_fmeta. by rewrite Z.eqb_refl. }
    apply t_bind. eapply (t_read_file_meta info V cfg); [exact Hy1|lia|]. cbn [negb Z.eqb PSA_SUCCESS].
    assert ((lblock (fm y j) =? lb) && (sfs_utils_validate_fid (fm_id (fm y j)) =? PSA_SUCCESS) && (di <? data_idx (fm y j)) = moved j) as Hmv.
    { unfold moved, in_block, valid_fid. by rewrite (andb_comm (lblock (fm y j) =? lb)). }
    rewrite Hmv. assert ((if moved j then u64 (nbr + max_size (fm y j)) else nbr) = nbr + moved_size j) as ->.
    { unfold moved_size in *. destruct (moved j) eqn:Hmj; [|lia]. pose proof (in_block_size info y lb j Hy ltac:(lia) (moved_in_block j Hmj)).
      apply wrap_small. lia. }
    fold (src_step src j).
    assert ((if moved j then FileMeta (lblock (fm y j)) (u64 (data_idx (fm y j) - n)) (cur_size (fm y j)) (max_size (fm y j))
      (fm_flags (fm y j)) (fm_id (fm y j)) (file_pad (fm y j)) else fm y j) = deleted_fmeta j) as ->.
    { unfold deleted_fmeta. destruct (Z.eqb_spec j d); [done|]. destruct (moved j) eqn:Hmj; [|done]. f_equal. apply wrap_small.
      pose proof (moved_place j ltac:(lia) Hjd (moved_in_block j Hmj)) as Hp. rewrite Hmj in Hp. pose proof delete_range.
      destruct (fmeta_ok info V cfg y j (mounted_len info _ _ Hi Hm) ltac:(lia)) as (_ & [_ ?] & _). lia. }
    assert (0 <= moved_size j) as Hms.
    { unfold moved_size. destruct (moved j) eqn:Hmj; [|done]. pose proof (in_block_size info y lb j Hy ltac:(lia) (moved_in_block j Hmj)). lia. }
    apply t_bind. eapply (t_update_file_meta info V cfg); [exact Hx1|lia|apply deleted_fmeta_ok; lia| |].
    { pose proof (foff_range info j ltac:(lia)). eapply open_narrow; [exact Hg|lia|lia]. }
    intros x2 Hk2 Hf2. cbn [negb Z.eqb PSA_SUCCESS]. pose proof (foff_range info j ltac:(lia)). pose proof (layout info V cfg).
    destruct (active_with_scratch info i1 x y Hi1 Hx1 Hy1 Hne1 x2) as [Hy2 Hx2].
    destruct (block_size_of info _ _ _ Hi1 Hx1) as [Hlx _].
    apply (IH (j + 1) (with_block i1 (i_scratch i1) x2) x2); try done; [lia|lia|by apply with_block_ok; [|destruct Hk2; lia]|lia|lia| | | |].
    + rewrite (kept_fmeta info _ _ _ _ _ Hk2); [done| |]; pose proof (foff_range info d Hd); pose proof (foff_disjoint info j d Hjd); lia.
    + intros j' Hj'. destruct (Z.eq_dec j' j) as [->|Hne]; [done|].
      pose proof (foff_range info j' ltac:(lia)). pose proof (foff_disjoint info j j' ltac:(lia)).
      rewrite (kept_fmeta info _ _ _ _ _ Hk2) by lia. apply Hx. lia.
    + eapply open_after; [exact Hg| |lia|lia]. eapply kept_wider; [| |exact Hk2]; lia.
    + intros x3 Hk3 Hf3. cbn [i_scratch with_block with_blocks]. rewrite with_block_again.
      replace (nbr + moved_size j + sumZ (moved_size <$> seqZ (j + 1) (Z.of_nat k)))
        with (nbr + (moved_size j + sumZ (moved_size <$> seqZ (j + 1) (Z.of_nat k)))) by lia.
      apply HQ; [|done]. eapply kept_trans; [|exact Hk3]. eapply kept_wider; [| |exact Hk2]; lia.
Qed.

(** ** The data of the block moved together *)
Let nb := size_behind info y lb di.
Let dst := if lb =? 0 then i_scratch i else scratch_dblock (i_header i).
Let old := data i y lb.
Let bm := BlockMeta (phy_id (bmeta y lb)) (data_start (bmeta y lb)) (free_size (bmeta y lb) + n) (block_pad (bmeta y lb)).

(** The contents [z] of the block without the deleted file. *)
Record compacted (z : bytes) : Prop := {
  cp_before : slice z (dstart info lb) (di - dstart info lb) = slice old (dstart info lb) (di - dstart info lb);
  cp_moved : slice z di nb = slice old (di + n) nb
}.

Lemma delete_facts :
  0 <= dst < num_blocks info /\ phy_id (bmeta y lb) <> dst /\ (lb <> 0 -> 2 <= dst) /\ 0 <= nb /\ di + n + nb = dend info y lb /\
  data_start (bmeta y lb) = dstart info lb /\ 0 <= dstart info lb /\ block_meta_ok bm /\ free_size bm < 2 ^ 16 /\
  0 <= free_size (bmeta y lb).
Proof.
  pose proof delete_range as (Hlb & ? & ? & ? & ?). pose proof (scratch_for info V i y lb Hi Hm Hlb) as (? & Hnd & Hn0). fold dst in Hnd, Hn0.
  pose proof behind_d. pose proof (size_behind_nonneg info y lb di Hy). pose proof (dstart_nonneg info V cfg lb).
  destruct (bmeta_ok info V cfg y lb (mounted_len info _ _ Hi Hm) Hlb) as (B1 & B2 & [B3 _] & B4).
  split; [done|]. split; [apply Hnd; lia|]. split; [intros Hl; by apply Hn0|]. split; [done|]. split; [subst nb; lia|].
  split; [by apply (bo_start _ _ _ _ (mt_blocks _ _ _ Hm))|]. split; [done|]. cbn. unfold dend in *.
  split; [|lia]. split; [done|]. split; [done|]. split; [|done]. unfold fits. cbn. lia.
Qed.

Lemma compacted_slice z p k off : compacted z -> 0 <= off <= n ->
  dstart info lb <= p -> 0 <= k -> off = 0 /\ p + k <= di \/ off = n /\ di + n <= p /\ p + k <= di + n + nb ->
  slice z (p - off) k = slice old p k.
Proof.
  intros [Hb Hm'] Hoff Hp Hk Hc. pose proof delete_facts as (_ & _ & _ & ? & _ & _ & ? & _). pose proof delete_range.
  destruct Hc as [[-> He]|(-> & Hp' & He)].
  - rewrite Z.sub_0_r. replace p with (dstart info lb + (p - dstart info lb)) by lia.
    by rewrite (slice_slice z _ (di - dstart info lb)), (slice_slice old _ (di - dstart info lb)), Hb by lia.
  - replace (p - n) with (di + (p - n - di)) by lia. replace p with (di + n + (p - n - di)) at 2 by lia.
    by rewrite (slice_slice z di nb), (slice_slice old (di + n) nb), Hm' by lia.
Qed.

Lemma t_compact_data i1 w src (k : SFS _ Z) (Q : Z -> image -> Prop) :
  block i1 dst = Some w -> block i1 (phy_id (bmeta y lb)) = Some old -> (0 < nb -> src = di + n) ->
  open V i1 dst (dstart info lb) bsize w ->
  (forall z, kept (dstart info lb) bsize w z -> compacted z -> triple V (with_block i1 dst z) k Q) ->
  triple V i1 (check! (if 0 <? nb then move info dst di (phy_id bm) src nb else mret PSA_SUCCESS) else PSA_ERROR_GENERIC_ERROR;;
    check! (if data_start bm <? di then move info dst (data_start bm) (phy_id bm) (data_start bm) (di - data_start bm)
            else mret PSA_SUCCESS) else PSA_ERROR_GENERIC_ERROR;; k) Q.
Proof.
  intros Hw Hold Hsrc Hg HQ. apply t_ok with info; [done|]. intros Hi1.
  pose proof delete_range as (Hlb & ? & ? & ? & ?). pose proof delete_facts as (Hdst & Hne & _ & ? & Hend & Hbds & ? & _).
  unfold bm. cbn [phy_id data_start]. rewrite Hbds. destruct (block_size_of info _ _ _ Hi1 Hw) as [Hlw _]. destruct (block_size_of info _ _ _ Hi1 Hold) as [Hlo _].
  assert (forall x, block (with_block i1 dst x) dst = Some x /\ block (with_block i1 dst x) (phy_id (bmeta y lb)) = Some old) as Hb.
  { intros x. pose proof (block_size_of info _ _ _ Hi1 Hold) as [_ ?]. rewrite !(block_with_block info) by (done || lia).
    rewrite Z.eqb_refl. by destruct (Z.eqb_spec (phy_id (bmeta y lb)) dst). }
  (* the octets before the deleted file, from the contents [z1] on *)
  assert (forall z1, kept di (di + nb) w z1 -> slice z1 di nb = slice old (di + n) nb ->
    triple V (with_block i1 dst z1) (check! (if dstart info lb <? di then
      move info dst (dstart info lb) (phy_id (bmeta y lb)) (dstart info lb) (di - dstart info lb)
      else mret PSA_SUCCESS) else PSA_ERROR_GENERIC_ERROR;; k) Q) as Hlast.
  { intros z1 Hk1 Hs1. destruct (Hb z1) as [Hz1 Hold1]. apply t_check_as. destruct (Z.ltb_spec (dstart info lb) di).
    - eapply (t_move_same info V); [exact Hz1|exact Hold1|done|lia..| |].
      { eapply open_after; [exact Hg|eapply kept_wider; [| |exact Hk1]; lia|lia|lia]. }
      intros z2 Hk2 Hs2. split; [done|].
      rewrite Zplus_minus in Hk2. rewrite with_block_again. apply HQ.
      + eapply kept_trans; (eapply kept_wider; [| |eassumption]); lia.
      + split; [done|]. rewrite (kept_slice _ _ _ _ _ _ Hk2) by lia. done.
    - apply t_ret. split; [done|]. apply HQ; [eapply kept_wider; [| |exact Hk1]; lia|]. split; [|done].
      replace (di - dstart info lb) with 0 by lia. by rewrite !slice_nil. }
  apply t_check_as. destruct (Z.ltb_spec 0 nb) as [Hpos|Hz].
  - rewrite Hsrc by done. pose proof (slice_len old (di + n) nb ltac:(lia) ltac:(lia) ltac:(lia)) as Hl.
    eapply (t_move info V); [by intros ?; apply Hne|exact Hw|exact Hold|lia..| |].
    { intros m Hm'. apply Hg. pose proof (slice_len old (di + n) m ltac:(lia) ltac:(lia) ltac:(lia)).
      eapply kept_wider; [| |eapply (kept_patch w di (slice old (di + n) m) m)]; lia. }
    split; [done|]. apply Hlast.
    + rewrite <- Hl at 1. apply kept_patch; lia.
    + apply slice_patch_same; lia.
  - apply t_ret. split; [done|]. rewrite <- (with_block_same i1 dst w Hw) at 1. apply Hlast; [apply kept_refl|].
    replace nb with 0 by lia. by rewrite !slice_nil.
Qed.

(** The end of the deletion, from the scratch metablock [x] whose table of files is complete. *)
Lemma t_delete_end x src (Q : Z -> image -> Prop) :
  safe info V i -> shadow info i (with_block i (i_scratch i) x) -> len x = bsize -> (forall j, 0 <= j < files -> fm x j = deleted_fmeta j) -> (0 < nb -> src = di + n) ->
  (forall i' y' z z0 e0 zc, live info V i' ->
     stepped info i y lb (negb (lb =? 0)) (with_phy bm dst) deleted_fmeta z z0 e0 i' y' ->
     (lb <> 0 -> z0 = y /\ e0 = dend info y 0) -> compacted zc ->
     (forall p k, dstart info lb <= p -> 0 <= k -> p + k <= bsize -> slice (data i' y' lb) p k = slice zc p k) ->
     lands info V Q i') ->
  triple V (with_block i (i_scratch i) x)
    (check! sfs_flash_fs_dblock_compact_block info lb n src di nb;; migrate_and_finalize info (negb (lb =? 0))) Q.
Proof.
  intros Hsafe Hsh Hlx Hfx Hsrc HQ. pose proof delete_range as (Hlb & ? & ? & ? & ?).
  pose proof delete_facts as (Hdst & Hne & Hdst2 & ? & Hend & Hbds & ? & Hbok & Hbf & ?).
  destruct (active_not_scratch info _ _ Hm) as (Has & Har & Hsr). pose proof (fl_num_blocks (info := info) (V := V)). pose proof (layout info V cfg).
  pose proof (dblocks_range info V) as (? & _). destruct (data_block info V i y lb Hi Hm Hlb) as (Hold & Hlo & Hpr).
  set (i1 := with_block i (i_scratch i) x). assert (image_ok info i1) as Hi1 by by apply with_block_ok.
  assert (forall b, 0 <= b -> block i1 b = if b =? i_scratch i then Some x else block i b) as Hb1
    by (intros b Hb; apply (block_with_block info); [done|lia|done]).
  assert (block i1 (i_active i1) = Some y) as Hy1.
  { rewrite Hb1 by (cbn; lia). cbn. destruct (Z.eqb_spec (i_active i) (i_scratch i)); [done|]. apply Hm. }
  assert (exists w, block i1 dst = Some w /\ (lb = 0 -> w = x)) as (w & Hw & Hwx).
  { rewrite Hb1 by lia. unfold dst. destruct (Z.eqb_spec lb 0); [rewrite Z.eqb_refl; by eexists|].
    destruct (Z.eqb_spec (scratch_dblock (i_header i)) (i_scratch i)); [unfold dst in *; destruct (Z.eqb_spec lb 0); [done|lia]|].
    destruct (block_is_Some info i dst Hi Hdst) as (w & Hw & _). unfold dst in Hw. destruct (Z.eqb_spec lb 0); [done|]. exists w. done. }
  assert (block i1 (phy_id (bmeta y lb)) = Some old) as Hold1.
  { rewrite Hb1 by lia. destruct (Z.eqb_spec (phy_id (bmeta y lb)) (i_scratch i)) as [Heq|]; [|done].
    pose proof (mt_blocks _ _ _ Hm) as [Bz _ _ Bp _ _]. destruct (Z.eqb_spec lb 0) as [Hl0|Hl0]; [rewrite Hl0 in *; destruct Bz; lia|].
    destruct (Bp lb ltac:(lia)). lia. }
  apply t_check. unfold sfs_flash_fs_dblock_compact_block. apply t_bind.
  eapply (t_read_block_meta info V cfg); [exact Hy1|done|]. cbn [negb Z.eqb PSA_SUCCESS].
  rewrite (wrap_small 64) by (cbn in Hbf; lia). fold bm. apply t_bind, t_cur_scratch. fold i1. cbn [i_scratch i_header with_block with_blocks i1].
  fold dst. fold i1. eapply t_compact_data; [exact Hw|exact Hold1|done|by eapply (dst_written info V cfg i y lb i1 w)|]. intros z Hkz Hcz.
  assert (shadow info i (with_block i1 dst z)) as Hsh2 by (by eapply (dst_written info V cfg i y lb i1 w)).
  unfold compact_finish. apply t_bind, t_set_scratch.
  set (i2 := with_header _ _). cbn [i_header with_block with_blocks i1] in i2. cbn [bm phy_id] in i2.
  set (xs := if lb =? 0 then z else x).
  assert (image_ok info i2) as Hi2.
  { apply (with_block_ok info i1 dst z Hi1). destruct (block_size_of info _ _ _ Hi1 Hw). destruct Hkz. lia. }
  assert (forall b, 0 <= b -> block i2 b = if b =? dst then Some z else block i1 b) as Hb2
    by (intros b Hb; apply (block_with_block info); [done|lia|done]).
  assert (block i2 (i_active i2) = Some y) as Hy2.
  { rewrite Hb2 by (cbn; lia). cbn. destruct (Z.eqb_spec (i_active i) dst) as [Heq|]; [|done].
    unfold dst in *. destruct (Z.eqb_spec lb 0); lia. }
  assert (block i2 (i_scratch i2) = Some xs) as Hx2.
  { rewrite Hb2 by (cbn; lia). cbn. unfold xs, dst in *. destruct (Z.eqb_spec lb 0); [by rewrite Z.eqb_refl|].
    destruct (Z.eqb_spec (i_scratch i) (scratch_dblock (i_header i))) as [Heq|]; [lia|]. rewrite Hb1 by lia. by rewrite Z.eqb_refl. }
  pose proof (open_scratch info V i i2 xs Hsafe Hsh2 Hx2) as Hopen. pose proof (foff_range info d Hd).
  assert (forall j, 0 <= j < files -> fm xs j = deleted_fmeta j) as Hfxs.
  { intros j Hj. unfold xs. destruct (Z.eqb_spec lb 0) as [Hl0|]; [|by apply Hfx]. rewrite <- Hfx by done. rewrite <- (Hwx Hl0).
    pose proof (foff_range info j Hj). apply (kept_fmeta info _ _ _ _ _ Hkz); [lia|]. unfold dstart. rewrite Hl0. cbn. lia. }
  change (BlockMeta dst (data_start bm) (free_size bm) (block_pad bm)) with (with_phy bm dst).
  apply t_bind. eapply (t_update_block_meta info V cfg i2); [exact Hx2|exact Hy2|done|unfold fits; cbn; lia|done| | |].
  { apply with_phy_ok; [unfold fits; lia|done]. }
  { eapply open_narrow; [exact Hopen|lia|lia]. }
  intros x2 Hk2 Hbm2. cbn [negb Z.eqb PSA_SUCCESS i_scratch i2 i1 with_header with_block with_blocks] in *.
  pose proof (active_with_scratch info i2 xs y Hi2 Hx2 Hy2 Has) as Hws.
  assert (forall xf z0 e0 z', kept (foff files) bsize x2 xf -> (forall p k, foff files <= p -> 0 <= k -> p + k <= e0 -> slice xf p k = slice z0 p k) ->
    (lb <> 0 -> z' = z) ->
    prepared info i y lb (negb (lb =? 0)) (with_phy bm dst) deleted_fmeta z' z0 e0 (with_block i2 (i_scratch i) xf) xf) as Hprep.
  { intros xf z0 e0 z' Hkf Hz0 Hz'. destruct (Hws xf) as [Hyf Hxf]. split; try done.
    - cbn. unfold step_dblock. destruct (Z.eqb_spec lb 0); cbn [negb]; [by rewrite set_dblock_same|done].
    - intros j Hj. pose proof (boff_range info j Hj). rewrite (kept_bmeta _ _ _ _ _ Hkf) by lia. by apply Hbm2.
    - intros j Hj. pose proof (foff_range info j Hj). rewrite (kept_fmeta info _ _ _ _ _ Hkf), (kept_fmeta info _ _ _ _ _ Hk2) by lia. by apply Hfxs.
    - intros b Hb Hsw. rewrite (block_with_block info) by (done || lia). destruct (Z.eqb_spec b (i_scratch i)); [lia|].
      rewrite Hb2, Hb1 by lia. destruct (Z.eqb_spec b dst) as [Heq|]; [|by destruct (Z.eqb_spec b (i_scratch i))].
      unfold dst in *. destruct (Z.eqb_spec lb 0); [lia|]. by destruct Hsw.
    - intros Hsw. unfold dst in *. destruct (Z.eqb_spec lb 0); [done|]. rewrite (block_with_block info), Hb2 by (done || lia).
      destruct (Z.eqb_spec (scratch_dblock (i_header i)) (i_scratch i)); [lia|]. rewrite Z.eqb_refl. by rewrite Hz'. }
  assert (negb (lb =? 0) = true -> 0 < lb) as Hsw by (destruct (Z.eqb_spec lb 0); [done|lia]).
  unfold migrate_and_finalize, SFS_LOGICAL_DBLOCK0. destruct (Z.eqb_spec lb 0) as [Hl0|Hl0]; cbn [negb] in *.
  - apply t_ret. split; [done|]. apply t_check_as, t_ret. split; [done|].
    eapply (t_finish info V cfg i y lb false _ _ [] x2 bsize Hm Hlb Hsw); [done|by apply Hprep; [apply kept_refl| |]|].
    intros i' y' Hi' Hst. eapply (HQ i' y' [] x2 bsize z); [done|exact Hst|done|done|]. intros p k Hp Hk Hpk.
    assert (foff files <= p) by (unfold dstart in Hp; rewrite Hl0 in Hp; done).
    rewrite (stepped_data_zero info i y lb false (with_phy bm dst) deleted_fmeta [] x2 bsize Hlb Hsw i' y' p k Hst Hl0 ltac:(lia) Hk Hpk).
    apply (kept_slice _ _ _ _ _ _ Hk2); lia.
  - apply t_flush; [done|]. split; [done|]. apply t_check_as. destruct (Hws x2) as [Hy3 Hx3].
    pose proof (bo_end _ _ _ _ (mt_blocks _ _ _ Hm) 0 ltac:(lia)) as Hbe. pose proof (bo_start _ _ _ _ (mt_blocks _ _ _ Hm) 0 ltac:(lia)) as Hbs.
    change (dstart info 0) with (foff files) in Hbe, Hbs. unfold dend in Hbe.
    eapply (t_migrate info V cfg (with_block i2 (i_scratch i) x2)); [exact Hx3|exact Hy3|done|rewrite Hbs; lia|lia| |].
    { rewrite Hbs. eapply open_after; [exact Hopen|eapply kept_wider; [| |exact Hk2]; lia|lia|lia]. }
    rewrite Hbs. intros x4 Hk4 Hs4. split; [done|]. cbn [i_scratch with_block with_blocks i2 with_header i1]. rewrite with_block_again.
    eapply (t_finish info V cfg i y lb true _ _ z y (dend info y 0) Hm Hlb Hsw); [done|apply Hprep; [| |done]|].
    + eapply kept_wider; [| |exact Hk4]; lia.
    + intros p k ???. unfold dend in *. replace p with (foff files + (p - foff files)) by lia.
      by rewrite (slice_slice x4 (foff files) (bsize - free_size (bmeta y 0) - foff files)),
        (slice_slice y (foff files) (bsize - free_size (bmeta y 0) - foff files)), Hs4 by lia.
    + intros i' y' Hi' Hst. eapply (HQ i' y' z y _ z); [done|exact Hst|done|done|]. intros p k Hp Hk Hpk. f_equal.
      eapply (stepped_data_new info i y lb true); [exact Hlb|exact Hsw|exact Hst|done|]. cbn. unfold dst. by destruct (Z.eqb_spec lb 0).
Qed.


(** ** What is left after the deletion *)
Section Left.
Context (i' : image) (y' z z0 : bytes) (e0 : Z) (zc : bytes).
Hypothesis Hi' : live info V i'.
Hypothesis Hst : stepped info i y lb (negb (lb =? 0)) (with_phy bm dst) deleted_fmeta z z0 e0 i' y'.
Hypothesis H0 : lb <> 0 -> z0 = y /\ e0 = dend info y 0.
Hypothesis Hzc : compacted zc.
Hypothesis Hdata : forall p k, dstart info lb <= p -> 0 <= k -> p + k <= bsize -> slice (data i' y' lb) p k = slice zc p k.

Lemma delete_swap : negb (lb =? 0) = true -> 0 < lb.
Proof. pose proof delete_range. destruct (Z.eqb_spec lb 0); [done|lia]. Qed.

Lemma left_files : files_ok info y'.
Proof.
  pose proof delete_range as (Hlb & _). apply after_files_ok; [apply Hst|]. intros lb' Hlb'.
  rewrite (stepped_dend info _ _ _ _ _ _ _ _ _ _ _ _ Hst) by done. cbn. destruct (Z.eqb_spec lb' lb) as [->|]; [|done]. unfold dend. lia.
Qed.

Lemma left_mounted : mounted info i' y'.
Proof.
  pose proof delete_range as (Hlb & ? & ? & ? & ?). pose proof delete_facts as (Hdst & Hne & Hdst2 & ? & Hend & Hbds & ? & Hbok & Hbf & ?).
  eapply (stepped_mounted info V cfg); [exact Hm|exact Hlb|exact delete_swap|exact Hst|done| | |exact left_files].
  - cbn. unfold dend in *. lia.
  - intros Hpos. cbn. unfold dst. by destruct (Z.eqb_spec lb 0); [lia|].
Qed.

Lemma left_entry j : 0 <= j < files -> j <> d -> valid_fid (fm_id (fm y j)) = true ->
  file_entry info i' y' j = file_entry info i y j.
Proof.
  intros Hj Hjd Hvj. pose proof delete_range as (Hlb & ? & ? & ? & ?). pose proof delete_facts as (_ & _ & _ & ? & Hend & _).
  destruct (file_range info V cfg _ _ _ Hi Hm Hj Hvj) as (? & ? & ? & ? & ? & ?).
  destruct (after_other y' (st_fmeta _ _ _ _ _ _ _ _ _ _ _ _ Hst) j Hj Hjd) as (_ & Hl & Hms & Hcs & Hfl & Hdi).
  unfold file_entry. rewrite Hl, Hms, Hcs, Hfl, Hdi. f_equal. destruct (Z.eq_dec (lblock (fm y j)) lb) as [Hjl|Hjl].
  - assert (in_block info y lb j = true) as Hb by by apply in_block_true.
    pose proof (moved_place j Hj Hjd Hb) as Hp. rewrite Hjl in *. fold old. destruct (moved j).
    + rewrite Hdata by lia. apply (compacted_slice zc _ _ n Hzc); lia.
    + rewrite Hdata by lia. pose proof (compacted_slice zc (data_idx (fm y j)) (cur_size (fm y j)) 0 Hzc) as Hc.
      rewrite Z.sub_0_r in Hc. apply Hc; lia.
  - assert (moved j = false) as ->.
    { destruct (moved j) eqn:Hmj; [|done]. apply moved_in_block, in_block_true in Hmj as [_ ?]. congruence. }
    eapply (stepped_data_other info i y lb (negb (lb =? 0))); [exact Hm|exact Hlb|exact delete_swap|exact Hst|done|exact Hjl|exact H0|lia..].
Qed.

Lemma left_changed : changed info V i y (fm_id (fm y d)) None i' y'.
Proof.
  pose proof (st_fmeta _ _ _ _ _ _ _ _ _ _ _ _ Hst) as Hf.
  pose proof left_files as Hy'. split; [done|]. split; [exact left_mounted|]. split.
  - destruct (fs_file info i' y' (fm_id (fm y d))) as [e|] eqn:He; [|done].
    apply fs_file_Some in He as (j & Hj & Hid & _); [|done..]. destruct (Z.eq_dec j d) as [->|Hjd].
    + pose proof (after_d y' Hf). congruence.
    + destruct (after_other y' Hf j Hj Hjd) as (Hid' & _). destruct Hjd.
      apply (fo_id _ _ Hy); [done|done|by rewrite <- Hid', Hid|congruence].
  - intros fid' Hv' Hne. apply fs_file_same; [done..| |].
    + intros j Hj. destruct (Z.eq_dec j d) as [->|Hjd].
      * pose proof (after_d y' Hf). split; congruence.
      * by destruct (after_other y' Hf j Hj Hjd) as (-> & _).
    + intros j Hj Hid. apply left_entry; [done| |by rewrite Hid]. congruence.
Qed.
End Left.

End Delete.

Section DeleteFile.
Context {F : Type} (info : sfs_flash_info_t F) (V : flash_view F) `{!FlashLaws info V}.
Hypothesis cfg : config_ok info.

Lemma t_file_delete i y fid (Q : Z -> image -> Prop) :
  mounted info i y -> safe info V i -> valid_fid fid = true ->
  match fs_file info i y fid with
  | Some _ => forall i' y', changed info V i y fid None i' y' -> lands info V Q i'
  | None => Q PSA_ERROR_DOES_NOT_EXIST i
  end ->
  triple V i (sfs_flash_fs_file_delete info fid) Q.
Proof.
  intros Hm Hsafe Hv HQ. apply t_ok with info; [done|]. intros Hi. apply t_bind. eapply (t_file_index info V cfg); [exact Hm|].
  unfold fs_file in HQ. destruct (file_index info y fid) as [k|] eqn:Hk; [|by apply t_ret].
  apply file_index_Some in Hk as [Hd Hid]. cbn [negb Z.eqb PSA_SUCCESS fmap option_fmap option_map] in *.
  set (d := Z.of_nat k) in *. assert (valid_fid (fm_id (fmeta info y d)) = true) as Hvd by by rewrite Hid.
  pose proof (layout info V cfg). pose proof (fl_num_blocks (info := info) (V := V)).
  destruct (active_not_scratch info _ _ Hm) as (Has & Har & Hsr). pose proof (co_files _ cfg).
  destruct (block_is_Some info i (i_scratch i) Hi ltac:(lia)) as (x & Hx & _).
  pose proof (shadow_refl info i x Hi Hx) as Hsh. pose proof (open_scratch info V i i x Hsafe Hsh Hx) as Hopen.
  pose proof (foff_range info d Hd).
  apply t_bind. eapply (t_read_file_meta info V cfg); [apply Hm|done|]. cbn [negb Z.eqb PSA_SUCCESS].
  unfold valid_fid in Hvd. rewrite Hvd. fold (valid_fid (fm_id (fmeta info y d))) in Hvd. cbn [negb].
  apply t_check. eapply (t_update_file_meta info V cfg); [exact Hx|done|by vm_compute| |].
  { eapply open_narrow; [exact Hopen|lia|lia]. }
  intros x1 Hk1 Hf1. split; [done|].
  destruct (active_with_scratch info i x y Hi Hx (mt_block _ _ _ Hm) Has x1) as [Hy1 Hx1].
  destruct (block_size_of info _ _ _ Hi Hx) as [Hlx _]. assert (len x1 = block_size info) as Hlx1 by (destruct Hk1; lia).
  pose proof (delete_facts info V cfg i y d Hi Hm Hd Hvd) as (_ & _ & _ & Hnb & Hend & _).
  pose proof (delete_range info V cfg i y d Hi Hm Hd Hvd) as (_ & ? & ? & ? & ?).
  apply t_bind. eapply (t_delete_loop info V cfg i y d Hi Hm Hd Hvd (Z.to_nat (max_num_files info)) 0 _ x1);
    [done|lia|exact Has|by apply with_block_ok|exact Hy1|exact Hx1| |done|exact Hf1|lia| |].
  { rewrite Z2Nat.id by lia. rewrite moved_size_sum. lia. }
  { eapply open_after; [exact Hopen|eapply kept_wider; [| |exact Hk1]; lia|lia|lia]. }
  intros x2 Hk2 Hf2. cbn [negb Z.eqb PSA_SUCCESS]. rewrite Z2Nat.id, moved_size_sum, Z.add_0_l by lia.
  cbn [i_scratch with_block with_blocks]. rewrite with_block_again.
  eapply (t_delete_end info V cfg i y d Hi Hm Hd Hvd x2); [exact Hsafe| |destruct Hk2; lia|done|by apply (src_first info V cfg i y d Hi Hm Hd Hvd)|].
  { eapply (shadow_scratch info); [exact Hsh|exact Hx|]. eapply kept_trans; (eapply kept_wider; [| |eassumption]); lia. }
  intros i' y' z z0 e0 zc Hi' Hst Hz0 Hzc Hdata. apply (HQ i' y'). rewrite <- Hid.
  eapply (left_changed info V cfg); done.
Qed.
End DeleteFile.
