(* ===== verification/SfsInit.v ===== *)
(** * Starting the flash file system

    What sfs_flash_fs_mblock_reset_metablock leaves, and what sfs_flash_fs_mblock_init finds:
    a reset leaves a file system without files, and one that was left settled is found again
    with the same files, whatever the context in memory was. *)
From S2P Require Import Prelude Status SfsFlash SfsMblock SfsFs SfsLogic SfsMeta SfsData SfsFiles.

Section Init.
Context {F : Type} (info : sfs_flash_info_t F) (V : flash_view F) `{!FlashLaws info V}.
Hypothesis cfg : config_ok info.

Abbreviation files := (max_num_files info).
Abbreviation dblocks := (sfs_num_active_dblocks info).
Abbreviation bsize := (block_size info).
Abbreviation boff := sfs_mblock_block_meta_offset.
Abbreviation foff := (sfs_mblock_file_meta_offset info).
Abbreviation fm y j := (fmeta info y j).

(** ** Which metablock is active *)
Definition header_valid (y : bytes) : bool := sfs_mblock_validate_header_meta info (hmeta y) =? PSA_SUCCESS.

Definition pick (y0 y1 : bytes) : option Z :=
  if header_valid y0 || header_valid y1 then
    Some (if header_valid y0 && header_valid y1 then sfs_mblock_latest_meta_block (hmeta y0) (hmeta y1)
          else if header_valid y1 then 1 else 0)
  else None.

Definition with_active (i : image) (a : Z) : image := Image (i_header i) a (SFS_OTHER_META_BLOCK a) (i_blocks i).

Lemma t_get_active i y0 y1 (Q : Z -> image -> Prop) :
  block i 0 = Some y0 -> block i 1 = Some y1 ->
  match pick y0 y1 with Some a => Q PSA_SUCCESS (with_active i a) | None => Q PSA_ERROR_GENERIC_ERROR i end ->
  triple V i (sfs_init_get_active_metablock info) Q.
Proof.
  intros H0 H1 HQ. apply t_bind. eapply (t_read_header info V cfg); [exact H0|done|]. cbn [Z.eqb PSA_SUCCESS andb].
  apply t_bind. eapply (t_read_header info V cfg); [exact H1|done|]. cbn [Z.eqb PSA_SUCCESS andb].
  fold (header_valid y0) (header_valid y1). unfold pick in HQ.
  destruct (header_valid y0), (header_valid y1); cbn [negb orb andb] in *; [..|by apply t_ret];
    by apply t_bind, t_set_metablocks, t_ret.
Qed.

Lemma pick_range y0 y1 a : pick y0 y1 = Some a -> a = 0 \/ a = 1.
Proof.
  unfold pick, sfs_mblock_latest_meta_block, SFS_METADATA_BLOCK0, SFS_METADATA_BLOCK1.
  intros H. repeat case_match; simplify_eq; by (left + right).
Qed.

(** ** A reset

    All writes of a reset are taken as allowed: it forgets the files. *)
Section Reset.
Hypothesis free : forall i, allowed V i.
Local Hint Resolve free : core.

Lemma dedicated : sfs_num_dedicated_dblocks info = (if num_blocks info =? 2 then 0 else num_blocks info - 3) /\
  dblocks = sfs_num_dedicated_dblocks info + 1 /\ 0 <= sfs_num_dedicated_dblocks info < 2 ^ 16.
Proof.
  pose proof (fl_num_blocks (info := info) (V := V)). pose proof (dblocks_range info V) as [? Hd].
  unfold sfs_num_active_dblocks, sfs_num_dedicated_dblocks, sfs_init_dblock_start in *.
  destruct (Z.eqb_spec (num_blocks info) 2); [done|]. destruct (Z.eq_dec (num_blocks info) 2); [lia|].
  rewrite (wrap_small 32 (num_blocks info - 3)) in * by lia. rewrite wrap_small by lia. lia.
Qed.

Lemma t_erase_dblocks n j i (Q : Z -> image -> Prop) :
  image_ok info i -> 0 <= j -> j + Z.of_nat n <= sfs_num_dedicated_dblocks info ->
  (forall bl, image_ok info (with_blocks i bl) -> (forall b, 0 <= b < 3 -> nthZ bl b = block i b) -> Q PSA_SUCCESS (with_blocks i bl)) ->
  triple V i (erase_dblocks_loop info n j PSA_SUCCESS) Q.
Proof.
  revert i j. induction n as [|n IH]; intros i j Hi Hj Hn HQ; cbn [erase_dblocks_loop].
  - apply t_ret. rewrite <- (with_blocks_same i). apply HQ; [by rewrite with_blocks_same|done].
  - pose proof dedicated as (Hd & _). pose proof (fl_num_blocks (info := info) (V := V)).
    assert (u32 (j + sfs_init_dblock_start info) = j + 3 /\ j + 3 < num_blocks info) as [-> Hb].
    { unfold sfs_init_dblock_start. destruct (Z.eqb_spec (num_blocks info) 2); [lia|]. rewrite wrap_small by lia. lia. }
    apply t_bind. eapply (t_erase info V); [lia|]. intros e He _. split; [done|].
    apply IH; [by apply with_block_ok|lia|lia|]. intros bl Hbl Hsame. apply HQ; [done|].
    intros b Hb3. rewrite Hsame, (block_with_block info) by (done || lia). by destruct (Z.eqb_spec b (j + 3)); [lia|].
Qed.

Lemma t_reset_block_meta n j i x bm (Q : Z -> image -> Prop) :
  block i (i_scratch i) = Some x -> 0 <= j -> j + Z.of_nat n <= sfs_num_dedicated_dblocks info -> block_meta_ok bm ->
  (forall x', kept (boff (j + 1)) (foff 0) x x' ->
     (forall k, j <= k < j + Z.of_nat n -> bmeta x' (k + 1) = with_phy bm (k + 3)) -> Q PSA_SUCCESS (with_block i (i_scratch i) x')) ->
  triple V i (reset_block_meta_loop info n j bm) Q.
Proof.
  revert i j x bm. induction n as [|n IH]; intros i j x bm Hx Hj Hn Hbm HQ; cbn [reset_block_meta_loop].
  - apply t_ret. rewrite <- (with_block_same _ _ _ Hx) at 1. apply HQ; [apply kept_refl|lia].
  - pose proof dedicated as (Hd & Hd1 & _). pose proof (fl_num_blocks (info := info) (V := V)).
    assert (u32 (j + sfs_init_dblock_start info) = j + 3 /\ j + 3 < num_blocks info) as [-> Hb].
    { unfold sfs_init_dblock_start. destruct (Z.eqb_spec (num_blocks info) 2); [lia|]. rewrite wrap_small by lia. lia. }
    rewrite (wrap_small 32 (j + 1)) by lia. change (BlockMeta (j + 3) _ _ _) with (with_phy bm (j + 3)).
    assert (block_meta_ok (with_phy bm (j + 3))) as Hbm' by (apply with_phy_ok; [unfold fits; lia|done]).
    apply t_check_as. eapply (t_update_block_raw info V cfg); [exact Hx|lia|done|by intros ??|]. intros x1 Hk1 Hb1. split; [done|].
    pose proof (boff_range info (j + 1) ltac:(lia)). apply t_ok with info; [done|]. intros Hi1.
    assert (boff (j + 1 + 1) = boff (j + 1) + 24) as Hbo by (unfold sfs_mblock_block_meta_offset, SFS_BLOCK_METADATA_SIZE; lia).
    eapply (IH _ (j + 1) x1); [|lia|lia|done|].
    { unfold block, with_block, with_blocks. cbn. rewrite nthZ_block_insert; [by rewrite Z.eqb_refl|apply (nthZ_Some _ _ _ Hx)|apply (nthZ_Some _ _ _ Hx)]. }
    intros x2 Hk2 Hb2. cbn [i_scratch with_block with_blocks]. rewrite with_block_again. apply HQ.
    + eapply kept_trans; (eapply kept_wider; [| |eassumption]); lia.
    + intros k Hk. destruct (Z.eq_dec k j) as [->|]; [|rewrite Hb2 by lia; done].
      rewrite (kept_bmeta _ _ _ _ _ Hk2) by lia. done.
Qed.

Definition wiped_file : sfs_file_meta_t := file_meta_of (fill SFS_DEFAULT_EMPTY_BUFF_VAL SFS_FILE_METADATA_SIZE).

Lemma t_reset_file_meta n j i x (Q : Z -> image -> Prop) :
  block i (i_scratch i) = Some x -> 0 <= j -> j + Z.of_nat n <= files ->
  (forall x', kept (foff j) (foff files) x x' ->
     (forall k, j <= k < j + Z.of_nat n -> fm x' k = wiped_file) -> Q PSA_SUCCESS (with_block i (i_scratch i) x')) ->
  triple V i (reset_file_meta_loop info n j) Q.
Proof.
  revert i j x. induction n as [|n IH]; intros i j x Hx Hj Hn HQ; cbn [reset_file_meta_loop].
  - apply t_ret. rewrite <- (with_block_same _ _ _ Hx) at 1. apply HQ; [apply kept_refl|lia].
  - pose proof (foff_range info j ltac:(lia)). assert (foff (j + 1) = foff j + 48) as Hfo by (unfold sfs_mblock_file_meta_offset, SFS_FILE_METADATA_SIZE; lia).
    apply t_check_as. eapply (t_update_file_meta info V cfg); [exact Hx|lia|by apply file_meta_of_ok|by intros ??|]. intros x1 Hk1 Hf1. split; [done|].
    eapply (IH _ (j + 1) x1); [|lia|lia|].
    { unfold block, with_block, with_blocks. cbn. rewrite nthZ_block_insert; [by rewrite Z.eqb_refl|apply (nthZ_Some _ _ _ Hx)|apply (nthZ_Some _ _ _ Hx)]. }
    intros x2 Hk2 Hf2. cbn [i_scratch with_block with_blocks]. rewrite with_block_again. apply HQ.
    + eapply kept_trans; (eapply kept_wider; [| |eassumption]); lia.
    + intros k Hk. destruct (Z.eq_dec k j) as [->|]; [|apply Hf2; lia]. pose proof (layout info V cfg). by rewrite (kept_fmeta info _ _ _ _ _ Hk2) by lia.
Qed.


(** The header a commit writes is valid. *)
Lemma next_header_valid h : fs_version h = SFS_SUPPORTED_VERSION -> sfs_mblock_validate_header_meta info (next_header info h) = PSA_SUCCESS.
Proof.
  intros Hv. unfold sfs_mblock_validate_header_meta, sfs_mblock_validate_fs_version, next_header. cbn. rewrite Hv, Z.eqb_refl. cbn.
  unfold sfs_mblock_validate_swap_count, next_count. destruct cfg as [_ _ He].
  destruct (Z.eqb_spec (u8 (active_swap_count h + 1)) (erase_val info)) as [Heq|Hne]; [by destruct (Z.eqb_spec 0 (erase_val info)); [lia|]|].
  by destruct (Z.eqb_spec (u8 (active_swap_count h + 1)) (erase_val info)).
Qed.

(** What a reset leaves: no files. *)
Definition empty_fs (y : bytes) : Prop := forall j, 0 <= j < files -> fm y j = wiped_file.

Lemma wiped_files y : empty_fs y -> files_ok info y /\ forall i fid, valid_fid fid = true -> fs_file info i y fid = None.
Proof.
  intros He. assert (valid_fid (fm_id wiped_file) = false) as Hw by by vm_compute.
  assert (forall lb j, 0 <= j < files -> in_block info y lb j = false) as Hin by (intros lb j Hj; unfold in_block; by rewrite He, Hw by done).
  split.
  - split.
    + intros j Hj. by rewrite He, Hw by done.
    + intros j Hj. by rewrite He, Hw by done.
    + intros lb j Hj. by rewrite Hin by done.
    + intros lb j k Hj Hk. by rewrite Hin by done.
    + intros j k Hj Hk. by rewrite He, Hw by done.
  - intros i fid Hv. unfold fs_file. destruct (file_index info y fid) as [k|] eqn:Hk; [|done].
    apply file_index_Some in Hk as [Hk Hid]. rewrite He in Hid by done. congruence.
Qed.

(** The writes of the reset, once the metablocks are erased and numbered. *)
Definition write_layout : SFS (sfs_flash_fs_ctx_t F) Z :=
  check! sfs_mblock_update_scratch_block_meta info SFS_LOGICAL_DBLOCK0
    (BlockMeta SFS_METADATA_BLOCK0 (foff files) (u64 (bsize - foff files)) (block_pad empty_block_meta));;
  check! erase_dblocks_loop info (Z.to_nat (sfs_num_dedicated_dblocks info)) 0 PSA_SUCCESS else PSA_ERROR_STORAGE_FAILURE;;
  check! reset_block_meta_loop info (Z.to_nat (sfs_num_dedicated_dblocks info)) 0
    (BlockMeta SFS_METADATA_BLOCK0 0 bsize (block_pad empty_block_meta));;
  check! reset_file_meta_loop info (Z.to_nat files) 0;;
  check! sfs_mblock_write_scratch_meta_header info else PSA_ERROR_GENERIC_ERROR;;
  check! on_flash (fi_flush info);;
  sfs_mblock_swap_metablocks;;
  mret PSA_SUCCESS.

(** The entries of the table of blocks after a reset. *)
Definition fresh_bmeta (j : Z) : sfs_block_meta_t :=
  if j =? 0 then BlockMeta 0 (foff files) (bsize - foff files) (fill 0 4) else BlockMeta (j + 2) 0 bsize (fill 0 4).

Lemma fresh_blocks y : (forall j, 0 <= j < dblocks -> bmeta y j = fresh_bmeta j) -> blocks_ok info y 1 (sfs_init_scratch_dblock info).
Proof.
  intros Hb. pose proof dedicated as (Hd1 & Hd2 & Hd3). pose proof (fl_num_blocks (info := info) (V := V)). pose proof (layout info V cfg).
  assert (2 < num_blocks info -> num_blocks info = dblocks + 2 /\ sfs_init_scratch_dblock info = 2) as Hn.
  { unfold sfs_init_scratch_dblock. destruct (Z.eqb_spec (num_blocks info) 2); lia. }
  assert (forall j, 0 < j < dblocks -> phy_id (bmeta y j) = j + 2) as Hp.
  { intros j Hj. rewrite Hb by lia. unfold fresh_bmeta. by destruct (Z.eqb_spec j 0); [lia|]. }
  split.
  - right. unfold dend, dstart. rewrite Hb by lia. cbn. lia.
  - intros j Hj. rewrite Hb by lia. unfold fresh_bmeta, dstart. by destruct (Z.eqb_spec j 0).
  - intros j Hj. unfold dend, dstart. rewrite Hb by lia. unfold fresh_bmeta. destruct (Z.eqb_spec j 0); cbn; lia.
  - intros j Hj. rewrite Hp by done. pose proof (more_blocks info V j Hj). lia.
  - intros j k Hj Hk. rewrite !Hp by done. lia.
  - lia.
Qed.

Lemma t_write_layout i x (Q : Z -> image -> Prop) :
  image_ok info i -> i_active i = 0 -> i_scratch i = 1 -> block i 1 = Some x -> (exists e, block i 0 = Some e /\ fv_erased V e) ->
  len (header_pad (i_header i)) = 2 -> i_header i = Header (sfs_init_scratch_dblock info) SFS_SUPPORTED_VERSION 0 (header_pad (i_header i)) ->
  (forall i' y', settled info V i' -> mounted info i' y' -> empty_fs y' -> Q PSA_SUCCESS i') ->
  triple V i write_layout Q.
Proof.
  intros Hi Ha Hs Hx He Hpad Hh HQ. pose proof (fl_num_blocks (info := info) (V := V)) as Hnb. pose proof (layout info V cfg).
  pose proof dedicated as (Hd1 & Hd2 & Hd3). pose proof (co_files _ cfg). pose proof (boff_range info 0 ltac:(lia)).
  assert (boff (0 + 1) = boff 0 + 24) as Hb1 by done. assert (boff 0 = 8) as Hb0 by done.
  assert (header_ok (i_header i)) as Hhok.
  { rewrite Hh. split; [unfold fits, sfs_init_scratch_dblock; cbn; case_match; lia|]. done. }
  unfold write_layout, SFS_LOGICAL_DBLOCK0, SFS_METADATA_BLOCK0. rewrite (wrap_small 64) by lia. apply t_check.
  eapply (t_update_block_raw info V cfg); [by rewrite Hs|lia|repeat split; unfold fits; cbn; lia|by intros ??|]. intros x1 Hk1 Hm1. split; [done|]. rewrite Hs.
  apply t_check_as. destruct (block_size_of info _ _ _ Hi Hx) as [Hlx _].
  apply t_erase_dblocks; [by apply with_block_ok; [|destruct Hk1; lia]|lia|lia|]. intros bl Hbl Hsame. split; [done|].
  set (i2 := with_blocks _ bl). assert (block i2 (i_scratch i2) = Some x1) as Hx2.
  { cbn [i_scratch i2 with_blocks with_block]. rewrite Hs. change (nthZ bl 1 = Some x1). rewrite Hsame by lia. by rewrite (block_with_block info) by (done || lia). }
  apply t_check. eapply t_reset_block_meta; [exact Hx2|lia|lia|repeat split; unfold fits; cbn; lia|]. intros x2 Hk2 Hm2. split; [done|].
  rewrite Z2Nat.id in Hm2 by lia. destruct (block_size_of info _ _ _ Hbl Hx2) as [Hlx1 Hsr].
  assert (block (with_block i2 (i_scratch i2) x2) (i_scratch i2) = Some x2) as Hx3
    by (rewrite (block_with_block info) by (done || lia); by rewrite Z.eqb_refl).
  apply t_check. eapply (t_reset_file_meta _ 0 (with_block i2 (i_scratch i2) x2)); [exact Hx3|lia|lia|]. intros x3 Hk3 Hf3. split; [done|].
  rewrite Z2Nat.id in Hf3 by lia. cbn [i_scratch with_block with_blocks]. rewrite with_block_again.
  assert (block (with_block i2 (i_scratch i2) x3) (i_scratch i2) = Some x3) as Hx4
    by (rewrite (block_with_block info) by (done || lia); by rewrite Z.eqb_refl).
  apply t_check_as. eapply (t_write_header info V cfg (with_block i2 (i_scratch i2) x3)); [exact Hx4|done|]. intros x4 Hk4 Hm4. split; [done|]. split; [done|].
  apply t_check, t_flush; [done|]. split; [done|]. apply t_bind. unfold sfs_mblock_swap_metablocks.
  apply t_bind, t_active, t_bind, t_scratch, t_set_metablocks, t_ret.
  cbn [i_active i_scratch i_header i_blocks with_block with_blocks with_header i2]. rewrite Ha, Hs. cbn in Hm4.
  set (i' := Image _ 1 0 _). assert (image_ok info i') as Hi'.
  { apply (with_block_ok info (with_block i2 1 x3) 1 x4); [apply with_block_ok; [done|]|]; destruct Hk2, Hk3, Hk4; lia. }
  assert (forall b, 0 <= b < 2 -> block i' b = if b =? 1 then Some x4 else block i b) as Hbl'.
  { intros b Hb. unfold i', block. cbn. rewrite list_insert_insert_eq. destruct Hbl as [Hlbl _]. cbn in Hlbl.
    rewrite nthZ_block_insert by lia. destruct (Z.eqb_spec b 1); [done|]. rewrite Hsame by lia.
    rewrite (block_with_block info) by (done || lia). by destruct (Z.eqb_spec b 1). }
  assert (empty_fs x4) as Hempty.
  { intros j Hj. pose proof (foff_range info j Hj). rewrite (kept_fmeta info _ _ _ _ _ Hk4) by lia. apply Hf3. lia. }
  apply (HQ i' x4); [split; [done|]| |done].
  - destruct He as (e & Hb & Her). exists e. split; [|done]. cbn [i_scratch i']. by rewrite Hbl' by lia.
  - split; [by right|by rewrite Hbl' by (cbn; lia)|exact Hm4| | |by apply wiped_files].
    + cbn [i_header i']. apply next_header_valid. by rewrite Hh.
    + cbn [i_header i' i_active next_header scratch_dblock]. rewrite Hh. apply fresh_blocks. intros j Hj. pose proof (boff_range info j Hj).
      rewrite (kept_bmeta _ _ _ _ _ Hk4), (kept_bmeta _ _ _ _ _ Hk3) by lia. unfold fresh_bmeta. destruct (Z.eqb_spec j 0) as [->|Hj0].
      * rewrite (kept_bmeta _ _ _ _ _ Hk2) by lia. exact Hm1.
      * replace j with (j - 1 + 1) by lia. rewrite Hm2 by lia. unfold with_phy. cbn. f_equal. lia.
Qed.

Lemma t_reset i (Q : Z -> image -> Prop) :
  image_ok info i -> len (header_pad (i_header i)) = 2 ->
  (forall i' y', settled info V i' -> mounted info i' y' -> empty_fs y' -> Q PSA_SUCCESS i') ->
  triple V i (sfs_flash_fs_mblock_reset_metablock info) Q.
Proof.
  intros Hi Hpad HQ. pose proof (fl_num_blocks (info := info) (V := V)). pose proof (layout info V cfg).
  pose proof dedicated as (Hd1 & Hd2 & Hd3). pose proof (co_files _ cfg).
  destruct (block_is_Some info i 0 Hi ltac:(lia)) as (y0 & Hy0 & _). destruct (block_is_Some info i 1 Hi ltac:(lia)) as (y1 & Hy1 & _).
  apply t_bind. eapply t_get_active; [exact Hy0|exact Hy1|].
  assert (forall i1 first, image_ok info i1 -> i_header i1 = i_header i -> first = 0 \/ first = 1 ->
    triple V i1 (check! on_flash (fi_erase info first);; check! on_flash (fi_erase info (SFS_OTHER_META_BLOCK first));;
      h ← get meta_block_header;
      set_header (Header (sfs_init_scratch_dblock info) SFS_SUPPORTED_VERSION 0 (header_pad h));;
      set_metablocks SFS_METADATA_BLOCK0 SFS_METADATA_BLOCK1;; write_layout) Q) as Hrest.
  { intros i1 first Hi1 Hh1 Hf. assert (SFS_OTHER_META_BLOCK first = 1 - first) as -> by by destruct Hf as [->| ->].
    apply t_check, (t_erase info V); [lia|]. intros ea Hla Hea. split; [done|]. split; [done|].
    apply t_check, (t_erase info V); [lia|]. intros eb Hlb Heb. split; [done|]. split; [done|].
    apply t_bind, t_header, t_bind, t_set_header, t_bind, t_set_metablocks. cbn [i_header i_blocks with_header with_block with_blocks]. rewrite Hh1.
    set (i2 := Image _ _ _ _). assert (image_ok info i2) as Hi2 by (apply (with_block_ok info (with_block i1 first ea) (1 - first) eb); [by apply with_block_ok|done]).
    assert (forall b, 0 <= b < 2 -> exists e, block i2 b = Some e /\ fv_erased V e) as Hb.
    { intros b Hb. destruct Hi1 as [Hl1 _]. unfold block, i2. cbn. rewrite nthZ_block_insert by (unfold len in *; rewrite ?length_insert; lia).
      rewrite nthZ_block_insert by lia. destruct (Z.eqb_spec b (1 - first)); [by eexists|]. destruct (Z.eqb_spec b first); [by eexists|lia]. }
    destruct (Hb 1 ltac:(lia)) as (x & Hx & _). eapply (t_write_layout i2 x); try done. apply Hb. lia. }
  destruct (pick y0 y1) as [a|] eqn:Hp.
  - apply pick_range in Hp. apply t_bind, t_scratch. cbn [i_scratch with_active Z.eqb PSA_SUCCESS].
    apply Hrest; [done|done|]. destruct Hp as [->| ->]; [by right|by left].
  - apply t_bind, t_scratch. cbn [Z.eqb PSA_SUCCESS PSA_ERROR_GENERIC_ERROR]. apply Hrest; [done|done|by left].
Qed.

End Reset.

(** ** Starting again *)

(** Of two metablocks the one written last is chosen: its count is the successor of the other's. *)
Lemma latest_is_successor h0 h1 :
  3 <= erase_val info -> fits 8 (active_swap_count h0) -> active_swap_count h0 <> erase_val info ->
  (active_swap_count h1 = next_count info (active_swap_count h0) -> sfs_mblock_latest_meta_block h0 h1 = 1) /\
  (active_swap_count h1 = next_count info (active_swap_count h0) -> sfs_mblock_latest_meta_block h1 h0 = 0).
Proof.
  unfold fits. intros He [Hc0 Hc1] Hne. set (c := active_swap_count h0) in *.
  assert (next_count info c = if (c + 1 =? erase_val info) || (c =? 255) then 0 else c + 1) as Hn.
  { unfold next_count. destruct (Z.eqb_spec c 255) as [Hc|]; [rewrite orb_true_r, Hc; change (u8 (255 + 1)) with 0; by destruct (0 =? erase_val info)|].
    rewrite wrap_small by lia. rewrite orb_false_r. done. }
  unfold sfs_mblock_latest_meta_block, SFS_METADATA_BLOCK0, SFS_METADATA_BLOCK1. fold c. pose proof (co_erase _ cfg). split; intros ->; rewrite Hn.
  - destruct (Z.eqb_spec (c + 1) (erase_val info)), (Z.eqb_spec c 255); cbn [orb]; repeat case_match; lia.
  - destruct (Z.eqb_spec (c + 1) (erase_val info)), (Z.eqb_spec c 255); cbn [orb]; repeat case_match; lia.
Qed.

(** Images that show the same files. *)
Lemma same_files i y i' :
  image_ok info i -> mounted info i y ->
  i_header i' = i_header i -> i_active i' = i_active i -> i_scratch i' = i_scratch i ->
  (forall b, 0 <= b -> b <> i_scratch i -> (2 < num_blocks info -> b <> scratch_dblock (i_header i)) -> block i' b = block i b) ->
  mounted info i' y /\ forall fid, valid_fid fid = true -> fs_file info i' y fid = fs_file info i y fid.
Proof.
  intros Hi Hm Hh Ha Hs Hb. destruct (active_not_scratch info _ _ Hm) as (Hne & Har & Hsr).
  pose proof (mt_blocks _ _ _ Hm) as [Bz Bs Be Bp Bi Bsd]. pose proof (mt_files _ _ _ Hm) as Hy.
  assert (mounted info i' y) as Hm'.
  { split; rewrite ?Hh, ?Ha, ?Hs; try apply Hm. rewrite Hb; [apply Hm|lia|done|]. intros Hn. specialize (Bsd Hn). lia. }
  split; [done|]. intros fid Hv. apply fs_file_same; [done..|]. intros j Hj Hid.
  assert (valid_fid (fm_id (fm y j)) = true) as Hvj by by rewrite Hid.
  destruct (file_range info V cfg _ _ _ Hi Hm Hj Hvj) as (Hlb & ? & ? & ? & ? & ?).
  apply (file_entry_same info V cfg); [done..| |by apply (mounted_len info _ _ Hi Hm)].
  intros p n Hp Hn He. unfold data. destruct (Z.eq_dec (lblock (fm y j)) 0) as [Hl|Hl].
  - rewrite Hl in *. destruct Bz as [->|[Hz _]]; [|lia]. rewrite Hb; [done|lia|done|]. intros Hn2. specialize (Bsd Hn2). lia.
  - destruct (Bp (lblock (fm y j)) ltac:(lia)). rewrite Hb; [done|lia|lia|lia].
Qed.

Hypothesis erased_invalid : forall e, len e = bsize -> fv_erased V e -> header_valid e = false.

(** A start finds the active metablock of the image. *)
Definition found (i : image) : Prop :=
  image_ok info i /\ exists y0 y1, block i 0 = Some y0 /\ block i 1 = Some y1 /\ pick y0 y1 = Some (i_active i).

Lemma mounted_valid i y : mounted info i y -> header_valid y = true.
Proof. intros Hm. unfold header_valid. by rewrite (mt_header _ _ _ Hm), (mt_valid _ _ _ Hm). Qed.

(** It does so when the header of the other metablock is not valid, or has the count before. *)
Lemma found_by i y e :
  image_ok info i -> mounted info i y -> block i (i_scratch i) = Some e ->
  header_valid e = false \/ 3 <= erase_val info /\ fits 8 (active_swap_count (hmeta e)) /\ header_valid e = true /\
    active_swap_count (i_header i) = next_count info (active_swap_count (hmeta e)) ->
  found i.
Proof.
  intros Hi Hm He Hc. split; [done|]. pose proof (mounted_valid i y Hm) as Hvy. pose proof (mt_block _ _ _ Hm) as Hy.
  assert ((header_valid e = false -> pick y e = Some 0 /\ pick e y = Some 1)) as Hbad
    by (intros Hve; unfold pick; by rewrite Hvy, Hve).
  assert (header_valid e = true -> 3 <= erase_val info -> fits 8 (active_swap_count (hmeta e)) ->
    active_swap_count (i_header i) = next_count info (active_swap_count (hmeta e)) -> pick y e = Some 0 /\ pick e y = Some 1) as Hgood.
  { intros Hve Her Hf Hn. unfold pick. rewrite Hvy, Hve. cbn [orb andb].
    destruct (latest_is_successor (hmeta e) (hmeta y) Her Hf) as [H1 H2].
    - apply Z.eqb_eq in Hve. unfold sfs_mblock_validate_header_meta, sfs_mblock_validate_swap_count in Hve. repeat case_match; done || lia.
    - rewrite (mt_header _ _ _ Hm) in *. by rewrite H1, H2. }
  assert (pick y e = Some 0 /\ pick e y = Some 1) as [H0 H1]
    by (destruct Hc as [Hc|(? & ? & ? & ?)]; [by apply Hbad|by apply Hgood]).
  destruct (mt_numbers _ _ _ Hm) as [[Ha Hs]|[Ha Hs]]; rewrite Ha in *; rewrite Hs in *.
  - by exists y, e.
  - by exists e, y.
Qed.

Lemma settled_found i y : settled info V i -> mounted info i y -> found i.
Proof.
  intros [Hi (e & He & Her)] Hm. apply (found_by i y e Hi Hm He). left. destruct (block_size_of info _ _ _ Hi He) as [Hle _].
  by apply erased_invalid.
Qed.

Lemma live_found i y : 3 <= erase_val info -> live info V i -> mounted info i y -> found i.
Proof.
  intros Hev [Hi (e & He & [Her|(Hv & Hf & Hn)])] Hm; apply (found_by i y e Hi Hm He).
  - left. destruct (block_size_of info _ _ _ Hi He) as [Hle _]. by apply erased_invalid.
  - right. split; [done|]. split; [done|]. split; [by apply Z.eqb_eq|done].
Qed.

(** The start of a file system whose active metablock is found, from any context. *)
Lemma t_prepare c i y (Q : Z -> image -> Prop) :
  found i -> mounted info i y -> i_blocks c = i_blocks i -> header_ok (i_header c) ->
  (forall i', settled info V i' -> mounted info i' y ->
     (forall fid, valid_fid fid = true -> fs_file info i' y fid = fs_file info i y fid) -> allowed V i') ->
  (forall i', settled info V i' -> mounted info i' y ->
     (forall fid, valid_fid fid = true -> fs_file info i' y fid = fs_file info i y fid) -> Q PSA_SUCCESS i') ->
  triple V c (sfs_flash_fs_prepare info) Q.
Proof.
  intros [Hi (y0 & y1 & Hy0 & Hy1 & Hp)] Hm Hbl Hh Hal HQ. destruct (active_not_scratch info _ _ Hm) as (Hne & Har & Hsr).
  pose proof (fl_num_blocks (info := info) (V := V)). pose proof (mt_blocks _ _ _ Hm) as [_ _ _ _ _ Bsd].
  assert (forall b, block c b = block i b) as Hcb by (intros b; unfold block; by rewrite Hbl).
  unfold sfs_flash_fs_prepare, sfs_flash_fs_mblock_init. apply t_check, t_init; [done|]. split; [done|].
  apply t_check_as. eapply t_get_active; [rewrite Hcb; exact Hy0|rewrite Hcb; exact Hy1|]. rewrite Hp. split; [done|].
  set (c1 := with_active c (i_active i)). assert (block c1 (i_active i) = Some y) as Hy by (change (block c (i_active i) = Some y); rewrite Hcb; apply Hm).
  unfold sfs_mblock_read_meta_header. apply t_check_as, t_bind, t_active, t_bind, t_header, t_bind.
  eapply (t_read_header info V cfg); [exact Hy|by apply header_bytes_len|]. apply t_bind, t_set_header. cbn [negb Z.eqb PSA_SUCCESS]. apply t_ret.
  split; [rewrite (mt_header _ _ _ Hm); apply Hm|]. set (c2 := with_header c1 (hmeta y)).
  assert (SFS_OTHER_META_BLOCK (i_active i) = i_scratch i) as Hoth by (destruct (mt_numbers _ _ _ Hm) as [[-> ->]|[-> ->]]; done).
  assert (c2 = i) as ->.
  { unfold c2, c1, with_active, with_header. cbn. rewrite Hoth, Hbl, (mt_header _ _ _ Hm). by destruct i. }
  unfold sfs_mblock_erase_scratch_blocks. apply t_bind, t_scratch, t_bind. eapply (t_erase info V); [lia|]. intros e1 Hl1 He1.
  assert (forall b, 0 <= b -> block (with_block i (i_scratch i) e1) b = if b =? i_scratch i then Some e1 else block i b) as Hb1
    by (intros b Hb; apply (block_with_block info); (done || lia)).
  set (i1 := with_block i (i_scratch i) e1) in *. assert (image_ok info i1) as Hi1 by by apply with_block_ok.
  destruct (same_files i y i1) as [Hm1 Hf1]; [done..| |].
  { intros b Hb Hbs _. rewrite Hb1 by done. by destruct (Z.eqb_spec b (i_scratch i)). }
  assert (settled info V i1) as Hset1.
  { split; [done|]. exists e1. split; [|done]. change (i_scratch i1) with (i_scratch i). by rewrite Hb1, Z.eqb_refl by lia. }
  split; [by apply Hal|]. cbn [negb Z.eqb PSA_SUCCESS].
  destruct (Z.ltb_spec 2 (num_blocks info)) as [Hn|Hn]; [|apply t_ret; by apply HQ].
  specialize (Bsd Hn). apply t_bind. unfold SFS_LOGICAL_DBLOCK0. apply t_cur_scratch. change (0 + 1 =? 0) with false. cbv iota.
  eapply (t_erase info V); [cbn; lia|]. intros e2 Hl2 He2. cbn [i_header with_block with_blocks i1].
  set (i2 := with_block _ _ e2). assert (image_ok info i2) as Hi2 by by repeat apply with_block_ok.
  assert (forall b, 0 <= b -> block i2 b = if b =? scratch_dblock (i_header i) then Some e2 else if b =? i_scratch i then Some e1 else block i b) as Hb2.
  { intros b Hb. unfold i2. rewrite (block_with_block info); [by rewrite Hb1|by apply with_block_ok|lia|done]. }
  destruct (same_files i y i2) as [Hm' Hf]; [done..| |].
  { intros b Hb Hbs Hbd. rewrite Hb2 by done. destruct (Z.eqb_spec b (scratch_dblock (i_header i))); [by destruct Hbd|]. by destruct (Z.eqb_spec b (i_scratch i)). }
  assert (settled info V i2); [|by split; [apply Hal|apply HQ]]. split; [done|]. exists e1. split; [|done]. change (i_scratch i2) with (i_scratch i). rewrite Hb2, Z.eqb_refl by lia.
  by destruct (Z.eqb_spec (i_scratch i) (scratch_dblock (i_header i))); [lia|].
Qed.

(** The start without a valid metablock fails, and changes nothing. *)
Lemma t_prepare_fails c y0 y1 (Q : Z -> image -> Prop) :
  block c 0 = Some y0 -> block c 1 = Some y1 -> pick y0 y1 = None -> Q PSA_ERROR_GENERIC_ERROR c -> triple V c (sfs_flash_fs_prepare info) Q.
Proof.
  intros H0 H1 Hp HQ. unfold sfs_flash_fs_prepare, sfs_flash_fs_mblock_init. apply t_check, t_init; [done|]. split; [done|].
  apply t_bind. eapply t_get_active; [exact H0|exact H1|]. rewrite Hp. by apply t_ret.
Qed.

End Init.
