(* ===== verification/SfsStore.v ===== *)
(** * The secure flash store keeps assets

    A specification of the storage backend of secure_flash_store.c, an executable function on
    a map from clients and identifiers to assets, and the proof that over a lawful flash and a
    mounted file system every operation replies and acts as the specification says. *)
From S2P Require Import Prelude Status StorageBackend SfsFlash SfsMblock SfsFs SecureFlashStore SfsLogic SfsMeta SfsData SfsFiles SfsDelete SfsInit.

(** ** The specification *)
Abbreviation assets := (gmap (Z * Z) asset).

Definition flags_supported (flags : Z) : bool :=
  Z.land flags (Z.lnot (Z.lor (Z.lor PSA_STORAGE_FLAG_WRITE_ONCE PSA_STORAGE_FLAG_NO_CONFIDENTIALITY)
    PSA_STORAGE_FLAG_NO_REPLAY_PROTECTION)) =? 0.

Definition reply (st : Z) : storage_reply := Reply st [] StorageBackend.no_info.

(** [roomy]: there is room for the asset that is created.  An asset is replaced by removing
    it first, so that a replacement without room loses it. *)
Definition asset_step (roomy : bool) (m : assets) (client : Z) (o : storage_op) : storage_reply * assets :=
  match o with
  | SetAsset u d flags =>
      if u =? SFS_INVALID_UID then (reply PSA_ERROR_INVALID_ARGUMENT, m)
      else if negb (flags_supported flags) then (reply PSA_ERROR_NOT_SUPPORTED, m)
      else if from_option write_once false (m !! (client, u)) then (reply PSA_ERROR_NOT_PERMITTED, m)
      else if roomy then (reply PSA_SUCCESS, <[(client, u) := Asset flags (len d) d]> m)
      else (reply PSA_ERROR_INSUFFICIENT_STORAGE, delete (client, u) m)
  | GetData u off n =>
      if u =? SFS_INVALID_UID then (reply PSA_ERROR_INVALID_ARGUMENT, m)
      else match m !! (client, u) with
      | None => (reply PSA_ERROR_DOES_NOT_EXIST, m)
      | Some a =>
          if len (a_data a) <? off then (reply PSA_ERROR_INVALID_ARGUMENT, m)
          else (Reply PSA_SUCCESS (slice (a_data a) off (Z.min n (len (a_data a) - off))) StorageBackend.no_info, m)
      end
  | GetInfo u =>
      if u =? SFS_INVALID_UID then (reply PSA_ERROR_INVALID_ARGUMENT, m)
      else match m !! (client, u) with
      | None => (reply PSA_ERROR_DOES_NOT_EXIST, m)
      | Some a => (Reply PSA_SUCCESS [] (StorageInfo (u32 (a_room a)) (u32 (len (a_data a))) (a_flags a)), m)
      end
  | RemoveAsset u =>
      if u =? SFS_INVALID_UID then (reply PSA_ERROR_INVALID_ARGUMENT, m)
      else match m !! (client, u) with
      | None => (reply PSA_ERROR_DOES_NOT_EXIST, m)
      | Some a => if write_once a then (reply PSA_ERROR_NOT_PERMITTED, m) else (reply PSA_SUCCESS, delete (client, u) m)
      end
  | CreateAsset u room flags =>
      if u =? SFS_INVALID_UID then (reply PSA_ERROR_INVALID_ARGUMENT, m)
      else if negb (Z.land flags PSA_STORAGE_FLAG_WRITE_ONCE =? 0) then (reply PSA_ERROR_NOT_SUPPORTED, m)
      else match m !! (client, u) with
      | Some _ => (reply PSA_ERROR_ALREADY_EXISTS, m)
      | None => if roomy then (reply PSA_SUCCESS, <[(client, u) := Asset flags room []]> m)
                else (reply PSA_ERROR_INSUFFICIENT_STORAGE, m)
      end
  | ExtendAsset u off d =>
      if u =? SFS_INVALID_UID then (reply PSA_ERROR_INVALID_ARGUMENT, m)
      else match m !! (client, u) with
      | None => (reply PSA_ERROR_DOES_NOT_EXIST, m)
      | Some a =>
          if write_once a then (reply PSA_ERROR_NOT_PERMITTED, m)
          else if (asset_data_size <? len d) || (a_room a <? off + len d) || (len (a_data a) <? off)
          then (reply PSA_ERROR_INVALID_ARGUMENT, m)
          else (reply PSA_SUCCESS, <[(client, u) := Asset (a_flags a) (a_room a) (take (Z.to_nat off) (a_data a) ++ d)]> m)
      end
  | GetSupport => (Reply PSA_SUCCESS [] (StorageInfo 0 0 PSA_STORAGE_SUPPORT_SET_EXTENDED), m)
  end.

(** The requests the specification covers: those with data or capacity, and extensions up to
    the end of the asset at least.  What the others do to the store, [empty_asset_removal_leaks]
    and [overwrite_erases_tail] show. *)
Definition covered (m : assets) (client : Z) (o : storage_op) : Prop :=
  op_ok o /\
  match o with
  | SetAsset _ d _ => 0 < len d
  | CreateAsset _ room _ => 0 < room
  | ExtendAsset u off d => match m !! (client, u) with Some a => len (a_data a) <= off + len d | None => True end
  | _ => True
  end.

(** What a request that did not end may leave of the asset it names. *)
Definition op_uid (o : storage_op) : Z :=
  match o with
  | SetAsset u _ _ | GetData u _ _ | GetInfo u | RemoveAsset u | CreateAsset u _ _ | ExtendAsset u _ _ => u
  | GetSupport => SFS_INVALID_UID
  end.

Definition unfinished (m : assets) (client : Z) (o : storage_op) (a : option asset) : Prop :=
  a = m !! (client, op_uid o) \/
  match o with
  | SetAsset _ d flags => a = None \/
      exists n, 0 < n <= len d /\ (len d <= asset_data_size -> n = len d) /\ a = Some (Asset flags (len d) (slice d 0 n))
  | RemoveAsset _ => a = None
  | CreateAsset _ room flags => a = Some (Asset flags room [])
  | ExtendAsset u off d => exists b, m !! (client, u) = Some b /\
      a = Some (Asset (a_flags b) (a_room b) (take (Z.to_nat off) (a_data b) ++ d))
  | _ => False
  end.

(** A sequence of requests of clients; at each creation there is room or not. *)
Fixpoint all_covered (m : assets) (l : list (Z * storage_op)) : Prop :=
  match l with
  | [] => True
  | (client, o) :: l => fits 32 client /\ covered m client o /\ forall b, all_covered (asset_step b m client o).2 l
  end.

Inductive asset_history : assets -> list (Z * storage_op) -> list storage_reply -> assets -> Prop :=
  | history_end m : asset_history m [] [] m
  | history_step m client o b l rs m' :
      asset_history (asset_step b m client o).2 l rs m' ->
      asset_history m ((client, o) :: l) ((asset_step b m client o).1 :: rs) m'.

(** ** Identifiers *)
Lemma fid_len client u : len (sfs_get_fid client u) = 12.
Proof. unfold sfs_get_fid. by rewrite len_app, !len_le_split. Qed.

Lemma fid_valid client u : fits 64 u -> u <> 0 -> valid_fid (sfs_get_fid client u) = true.
Proof.
  intros Hu Hne. unfold valid_fid, sfs_utils_validate_fid. case_match eqn:He; [done|]. exfalso.
  pose proof (fid_len client u) as Hl. unfold len in Hl. rewrite take_ge in He by (unfold SFS_FILE_ID_SIZE; lia).
  assert (forall c, c ∈ le_split 8 u -> c = 0) as Hz.
  { intros c Hc. destruct (Z.eq_dec c 0) as [|Hc0]; [done|]. rewrite <- not_true_iff_false in He. destruct He.
    apply existsb_exists. exists c. split; [apply list_elem_of_In; unfold sfs_get_fid; apply elem_of_app; by right|]. by destruct (Z.eqb_spec c 0). }
  pose proof (le_roundtrip 8 u Hu) as Hr. revert Hz Hr. generalize (le_split 8 u) as l. intros l Hz Hr. destruct Hne. rewrite <- Hr.
  clear Hr. induction l as [|c l IH]; [done|]. cbn [le_combine]. rewrite (Hz c), IH by set_solver. done.
Qed.

Lemma fid_inj client u client' u' :
  fits 32 client -> fits 64 u -> fits 32 client' -> fits 64 u' ->
  sfs_get_fid client u = sfs_get_fid client' u' -> (client, u) = (client', u').
Proof.
  intros Hc Hu Hc' Hu' He. unfold sfs_get_fid in He.
  apply app_inj_1 in He as [H1 H2]; [|pose proof (len_le_split 4 client); pose proof (len_le_split 4 client'); unfold len in *; lia].
  apply (f_equal le_combine) in H1, H2. rewrite !le_roundtrip in H1 by done. rewrite !le_roundtrip in H2 by done. congruence.
Qed.

Lemma asset_data_size_is : asset_data_size = 4096.
Proof. by vm_compute. Qed.

(** ** The state of the store *)
Section Store.
Context {F : Type} (info : sfs_flash_info_t F) (V : flash_view F) `{!FlashLaws info V}.
Hypothesis cfg : config_ok info.
Abbreviation st := (sfs_state (F := F)).

Definition asset_of (f : fsfile) : asset := Asset (ff_flags f) (ff_capacity f) (ff_data f).

(** The image shows the assets [m]. *)
Definition shows (i : image) (y : bytes) (m : assets) : Prop :=
  forall client u, fits 32 client -> fits 64 u -> u <> 0 ->
    m !! (client, u) = asset_of <$> fs_file info i y (sfs_get_fid client u).

Record keeps (s : st) (m : assets) : Prop := {
  kp_buffer : len (asset_data s) = asset_data_size;
  kp_image : exists i y, repr V (fs_ctx_sfs s) i /\ settled info V i /\ mounted info i y /\ shows i y m
}.

Lemma shows_changed i y m client u e i' y' :
  fits 32 client -> fits 64 u -> u <> 0 -> shows i y m ->
  changed info V i y (sfs_get_fid client u) e i' y' ->
  shows i' y' (match e with Some f => <[(client, u) := asset_of f]> m | None => delete (client, u) m end).
Proof.
  intros Hc Hu Hne Hs (_ & _ & He & Ho) c' u' Hc' Hu' Hne'. destruct (decide ((client, u) = (c', u'))) as [[= <- <-]|Hd].
  - rewrite He. destruct e; [by rewrite lookup_insert_eq|by rewrite lookup_delete_eq].
  - assert (sfs_get_fid c' u' <> sfs_get_fid client u) as Hf by (intros Hf; apply Hd; symmetry; by apply fid_inj).
    rewrite Ho by (done || by apply fid_valid). rewrite <- Hs by done.
    destruct e; [by rewrite lookup_insert_ne|by rewrite lookup_delete_ne].
Qed.

Lemma shows_set i y m client u f i' y' :
  fits 32 client -> fits 64 u -> u <> 0 -> shows i y m ->
  changed info V i y (sfs_get_fid client u) (Some f) i' y' -> shows i' y' (<[(client, u) := asset_of f]> m).
Proof. intros. by apply (shows_changed i y m client u (Some f)). Qed.

Lemma shows_removed i y m client u i' y' :
  fits 32 client -> fits 64 u -> u <> 0 -> shows i y m ->
  changed info V i y (sfs_get_fid client u) None i' y' -> shows i' y' (delete (client, u) m).
Proof. intros. by apply (shows_changed i y m client u None). Qed.

(** The image shows the assets [m], but for one of which it shows [S]. *)
Definition shows_but (m : assets) (client u : Z) (S : option asset -> Prop) (i : image) (y : bytes) : Prop :=
  exists a, S a /\ shows i y (partial_alter (fun _ => a) (client, u) m).

(** The guard of the flash allows what an operation on this asset leaves, and does on the way. *)
Definition guards (m : assets) (client u : Z) (S : option asset -> Prop) : Prop :=
  (forall i y, settled info V i -> mounted info i y -> shows_but m client u S i y -> safe info V i) /\
  (forall i y, live info V i -> mounted info i y -> shows_but m client u S i y -> allowed V i).

Lemma guards_unguarded m client u S : unguarded V -> guards m client u S.
Proof. intros H. split; [intros ? ? _ _ _ ? _|intros ? ? _ _ _]; apply H. Qed.

Lemma guards_delete m client u S : guards m client u S -> guards (delete (client, u) m) client u S.
Proof.
  assert (forall i y, shows_but (delete (client, u) m) client u S i y -> shows_but m client u S i y) as Hs.
  { intros i y (a & Ha & H). exists a. split; [done|]. by rewrite partial_alter_delete_eq in H. }
  intros [H1 H2]. split; eauto.
Qed.

Lemma guards_start m client u (S : option asset -> Prop) i y :
  guards m client u S -> S (m !! (client, u)) -> settled info V i -> mounted info i y -> shows i y m -> safe info V i.
Proof. intros [H _] HS ?? Hs. eapply H; [done..|]. exists (m !! (client, u)). split; [done|]. by rewrite partial_alter_self. Qed.

Lemma shows_changed_but i y m client u (S : option asset -> Prop) e i' y' :
  fits 32 client -> fits 64 u -> u <> 0 -> shows i y m -> S (asset_of <$> e) ->
  changed info V i y (sfs_get_fid client u) e i' y' -> shows_but m client u S i' y'.
Proof.
  intros Hc Hu Hne Hs HS Hch. exists (asset_of <$> e). split; [done|].
  pose proof (shows_changed i y m client u e i' y' Hc Hu Hne Hs Hch) as H. by destruct e.
Qed.

Lemma guards_safe m client u (S : option asset -> Prop) i y e i' y' :
  guards m client u S -> fits 32 client -> fits 64 u -> u <> 0 -> shows i y m -> S (asset_of <$> e) ->
  changed info V i y (sfs_get_fid client u) e i' y' -> settled info V i' -> safe info V i'.
Proof. intros [H _] ????? Hch Hset. eapply H; [done|apply Hch|]. by eapply shows_changed_but. Qed.

(** The end of an operation on the asset. *)
Lemma landed m client u (S : option asset -> Prop) i y e i' y' (Q : Z -> image -> Prop) :
  guards m client u S -> fits 32 client -> fits 64 u -> u <> 0 -> shows i y m ->
  changed info V i y (sfs_get_fid client u) e i' y' -> S (asset_of <$> e) -> (settled info V i' -> Q PSA_SUCCESS i') -> lands info V Q i'.
Proof. intros [_ H] ???? Hch ? HQ. split; [|exact HQ]. eapply H; [apply Hch|apply Hch|]. by eapply shows_changed_but. Qed.

Lemma changed_trans i y fid e i1 y1 e' i2 y2 :
  changed info V i y fid e i1 y1 -> changed info V i1 y1 fid e' i2 y2 -> changed info V i y fid e' i2 y2.
Proof.
  intros (_ & _ & _ & H1) (? & ? & ? & H2). split; [done|]. split; [done|]. split; [done|]. intros. by rewrite H2, H1.
Qed.

Lemma shows_lookup i y m client u a : fits 32 client -> fits 64 u -> u <> 0 -> shows i y m ->
  m !! (client, u) = Some a <-> exists f, fs_file info i y (sfs_get_fid client u) = Some f /\ a = asset_of f.
Proof. intros Hc Hu Hne Hs. rewrite Hs by done. rewrite fmap_Some. done. Qed.

(** ** Rules for the operations of the store

    [striple i n m Q]: from the image [i] and a buffer of [n] octets. *)
Definition at_image (i : image) (a : bytes) (s : st) : Prop := repr V (fs_ctx_sfs s) i /\ asset_data s = a.

Definition striple {A} (i : image) (a : bytes) (m : SFS st A) (Q : A -> image -> bytes -> Prop) : Prop :=
  forall s, at_image i a s -> runs m s (fun x s' => exists i' a', at_image i' a' s' /\ Q x i' a').

Lemma s_ret {A} i a (x : A) (Q : A -> image -> bytes -> Prop) : Q x i a -> striple i a (mret x) Q.
Proof. intros HQ s Hs. apply runs_ret. eauto. Qed.

Lemma s_bind {A B} i a (m : SFS st A) (f : A -> SFS st B) (Q : B -> image -> bytes -> Prop) :
  striple i a m (fun x i' a' => striple i' a' (f x) Q) -> striple i a (m ≫= f) Q.
Proof.
  intros Hm s Hs. apply runs_bind. eapply runs_mono; [by apply Hm|]. intros x s' (i' & a' & Hs' & Hf). by apply Hf.
Qed.

Lemma s_check i a (m k : SFS st Z) (Q : Z -> image -> bytes -> Prop) :
  striple i a m (fun x i' a' => if x =? PSA_SUCCESS then striple i' a' k Q else Q x i' a') -> striple i a (check m k) Q.
Proof.
  intros Hm. apply s_bind. intros s Hs. eapply runs_mono; [by apply Hm|]. intros x s' (i' & a' & Hs' & HQ).
  exists i', a'. split; [done|]. destruct (x =? PSA_SUCCESS); [done|by apply s_ret].
Qed.

Lemma s_on_fs {A} i a (m : SFS (sfs_flash_fs_ctx_t F) A) (Q : A -> image -> bytes -> Prop) :
  triple V i m (fun x i' => Q x i' a) -> striple i a (on_fs m) Q.
Proof.
  intros Hm s [Hr Ha]. destruct (Hm _ Hr) as (x & c & Hx & i' & Hr' & HQ). exists x, (SfsState c (asset_data s)).
  split; [unfold on_fs; by rewrite Hx|]. exists i', a. done.
Qed.

Lemma s_copy_asset i a p n d (Q : unit -> image -> bytes -> Prop) :
  copy_in p n = Some d -> len d <= len a -> Q tt i (patch a 0 d) -> striple i a (copy_asset p n) Q.
Proof.
  intros Hd Hl HQ s [Hr Ha]. unfold runs, copy_asset. rewrite Hd. cbn [mbind option_bind]. rewrite Ha, patch_store by lia. cbn.
  eexists _, _. split; [done|]. exists i, (patch a 0 d). done.
Qed.

Lemma s_get_asset i a (Q : bytes -> image -> bytes -> Prop) : Q a i a -> striple i a get_asset Q.
Proof. intros HQ s [Hr Ha]. eexists _, _. split; [done|]. rewrite Ha. exists i, a. done. Qed.

Lemma s_set_asset i a b (Q : unit -> image -> bytes -> Prop) : Q tt i b -> striple i a (set_asset b) Q.
Proof. intros HQ s [Hr Ha]. eexists _, _. split; [done|]. exists i, b. done. Qed.

Lemma s_copy_to_caller i a b n (Q : option bytes -> image -> bytes -> Prop) :
  0 <= n <= len a -> n <= len b -> Q (Some (patch b 0 (slice a 0 n))) i a -> striple i a (copy_to_caller (Some b) n) Q.
Proof.
  intros Hn Hb HQ s [Hr Ha]. unfold runs, copy_to_caller. rewrite Ha, load_is_slice by lia. cbn [mbind option_bind].
  pose proof (slice_len a 0 n ltac:(lia) ltac:(lia) ltac:(lia)) as Hl. unfold copy_out. destruct (Z.eqb_spec (len (slice a 0 n)) 0) as [Hz|_].
  - cbn. eexists _, _. split; [done|]. exists i, a. split; [done|]. replace n with 0 in * by lia. rewrite slice_nil in HQ.
    by rewrite patch_nil in HQ by lia.
  - cbn [mbind option_bind]. rewrite patch_store by lia. cbn. eexists _, _. split; [done|]. exists i, a. done.
Qed.


(** ** Setting an asset *)
Definition roomy (y : bytes) (size : Z) : bool := (size <=? max_file_size info) && has_room info y size.

Lemma changed_mounted i y fid e i' y' : changed info V i y fid e i' y' -> mounted info i' y' /\ fs_file info i' y' fid = e.
Proof. by intros (_ & ? & ? & _). Qed.

(** A piece of data is copied to the buffer. *)
Lemma s_copy_piece i a D off k (Q : unit -> image -> bytes -> Prop) :
  len a = asset_data_size -> 0 <= off -> 0 < k <= asset_data_size -> off + k <= len D ->
  (forall a', len a' = asset_data_size -> slice a' 0 k = slice D off k -> Q tt i a') ->
  striple i a (copy_asset (Some (drop (Z.to_nat off) D)) k) Q.
Proof.
  intros Ha Hoff Hk Hd HQ. pose proof (slice_len D off k ltac:(lia) ltac:(lia) ltac:(lia)) as Hl.
  apply (s_copy_asset _ _ _ _ (slice D off k)); [|lia|].
  - unfold copy_in. destruct (Z.eqb_spec k 0); [lia|]. cbn [mbind option_bind].
    rewrite load_ok; [by rewrite drop_0|lia|lia|]. unfold len in *. rewrite length_drop. lia.
  - apply HQ; [by rewrite patch_len by lia|]. apply slice_patch_same; lia.
Qed.

Lemma s_set_loop fuel i0 y0 m client u (S : option asset -> Prop) i y a D flags off (Q : Z -> image -> bytes -> Prop) :
  let fid := sfs_get_fid client u in
  fits 32 client -> fits 64 u -> u <> 0 -> shows i0 y0 m -> guards m client u S ->
  (forall n, 0 < n <= len D -> (len D <= asset_data_size -> n = len D) -> S (Some (Asset flags (len D) (slice D 0 n)))) ->
  0 < off -> (len D <= asset_data_size -> off = len D) -> 0 <= off <= len D -> len D < 2 ^ 64 -> len D - off <= Z.of_nat fuel -> len a = asset_data_size ->
  settled info V i -> changed info V i0 y0 fid (Some (FsFile flags (len D) (slice D 0 off))) i y ->
  (forall i' y' a', len a' = asset_data_size -> settled info V i' -> changed info V i0 y0 fid (Some (FsFile flags (len D) D)) i' y' -> Q PSA_SUCCESS i' a') ->
  striple i a (set_loop info fuel fid off (len D - off) (Some (drop (Z.to_nat off) D))) Q.
Proof.
  intros fid Hc Hu Hne Hs0 HG HS. pose proof (fid_valid client u Hu Hne) as Hv. fold fid in Hv.
  revert i y a off. induction fuel as [|fuel IH]; intros i y a off Hpos Hsmall Hoff HD Hf Ha Hset Hch HQ; cbn [set_loop];
    destruct (Z.leb_spec (len D - off) 0) as [Hend|Hmore]; try lia.
  1, 2: apply s_ret; replace off with (len D) in Hch by lia; rewrite slice_all in Hch; by apply (HQ i y a).
  destruct (changed_mounted _ _ _ _ _ _ Hch) as [Hm Hfile]. pose proof asset_data_size_is.
  set (k := SFS_UTILS_MIN (len D - off) asset_data_size).
  assert (0 < k <= asset_data_size /\ off + k <= len D) as [Hk Hkd] by (unfold k, SFS_UTILS_MIN; case_match; lia).
  pose proof (slice_len D 0 off ltac:(lia) ltac:(lia) ltac:(lia)) as Hl.
  apply s_bind, (s_copy_piece _ _ D off k); [done|lia..|]. intros a' Ha' Hs. apply s_bind, s_get_asset, s_bind, s_on_fs.
  eapply (t_file_write info V cfg); [exact Hm| |done|lia|lia|lia|].
  { eapply (guards_safe m client u S i0 y0 _ i y); [done..| |exact Hch|done]. apply HS; [lia|done]. }
  rewrite Hfile. cbn [ff_data ff_capacity ff_flags]. rewrite Hl.
  destruct (Z.leb_spec off off); [|lia]. destruct (Z.leb_spec (off + k) (len D)); [|lia]. cbn [andb]. split; [lia|].
  intros i' y' Hch'.
  replace (take (Z.to_nat off) (slice D 0 off)) with (slice D 0 off) in Hch'
    by (rewrite take_ge; [done|unfold len in *; lia]).
  pose proof (slice_app D 0 off k ltac:(lia) ltac:(lia) ltac:(lia)) as Hsl. rewrite Z.add_0_l in Hsl. rewrite Hs, <- Hsl in Hch'.
  pose proof (changed_trans _ _ _ _ _ _ _ _ _ Hch Hch') as Hch0.
  eapply (landed m client u S i0 y0); [done..|exact Hch0| |]. { apply HS; [lia|]. intros Hsm. specialize (Hsmall Hsm). lia. }
  intros Hset'. cbn [negb Z.eqb PSA_SUCCESS].
  replace (len D - off - k) with (len D - (off + k)) by lia. unfold advance. cbn [fmap option_fmap option_map]. rewrite drop_drop, <- Z2Nat.inj_add by lia.
  eapply IH; [lia|intros Hsm; specialize (Hsmall Hsm); lia|lia|done|lia|done|exact Hset'|exact Hch0|exact HQ].
Qed.

Lemma s_set_new i y m client u (S : option asset -> Prop) a D flags (Q : Z -> image -> bytes -> Prop) :
  let fid := sfs_get_fid client u in
  fits 32 client -> fits 64 u -> u <> 0 -> settled info V i -> shows i y m -> guards m client u S -> S None ->
  (forall n, 0 < n <= len D -> (len D <= asset_data_size -> n = len D) -> S (Some (Asset flags (len D) (slice D 0 n)))) ->
  mounted info i y -> 0 < len D < 2 ^ 64 -> fits 32 flags -> len a = asset_data_size ->
  fs_file info i y fid = None ->
  (if roomy y (len D) then forall i' y' a', len a' = asset_data_size -> settled info V i' -> changed info V i y fid (Some (FsFile flags (len D) D)) i' y' -> Q PSA_SUCCESS i' a'
   else forall a', len a' = asset_data_size -> Q PSA_ERROR_INSUFFICIENT_STORAGE i a') ->
  striple i a (set_new info fid (len D) flags (Some D)) Q.
Proof.
  intros fid Hc Hu Hne Hset0 Hs0 HG HSn HS Hm HD Hfl Ha Hnone HQ. pose proof asset_data_size_is. unfold set_new, roomy in *.
  pose proof (fid_valid client u Hu Hne) as Hv. fold fid in Hv. pose proof (fid_len client u) as H12. fold fid in H12.
  set (k := SFS_UTILS_MIN (len D) asset_data_size).
  assert (0 < k <= asset_data_size /\ k <= len D /\ (len D <= asset_data_size -> k = len D)) as (Hk & Hkd & Hkn)
    by (clear HQ; unfold k, SFS_UTILS_MIN; case_match; lia).
  apply s_bind, (s_copy_piece i a D 0 k); [done|lia..|]. intros a' Ha' Hs. apply s_bind, s_get_asset, s_check, s_on_fs.
  eapply (t_file_create info V cfg); [exact Hm| |done|done|lia|lia|lia|done|].
  { eapply guards_start; [exact HG| |done|done|done]. rewrite (Hs0 client u) by done. fold fid. by rewrite Hnone. }
  rewrite Hnone.
  destruct (Z.ltb_spec (max_file_size info) (len D)), (Z.leb_spec (len D) (max_file_size info)); try lia; cbn [andb] in HQ; [by apply HQ|].
  destruct (has_room info y (len D)); [|by apply HQ]. destruct (Z.leb_spec k (len D)); [|lia]. intros i' y' Hch.
  rewrite Hs in Hch. eapply (landed m client u S i y); [done..|exact Hch|apply HS; [lia|done]|]. intros Hset. cbn [Z.eqb PSA_SUCCESS].
  eapply (s_set_loop _ i y m client u S); [done|done|done|done|done|done|lia|done|lia|lia|lia|done|exact Hset|exact Hch|]. intros i2 y2 a2 Ha2 Hset2 Hch2. by apply (HQ i2 y2).
Qed.

Lemma s_info i y a fid (Q : Z * sfs_file_info_t -> image -> bytes -> Prop) :
  mounted info i y -> valid_fid fid = true ->
  Q (match fs_file info i y fid with
     | Some e => (PSA_SUCCESS, FileInfo (len (ff_data e)) (ff_capacity e) (ff_flags e))
     | None => (PSA_ERROR_DOES_NOT_EXIST, SecureFlashStore.no_info) end) i a ->
  striple i a (on_fs (sfs_flash_fs_file_get_info info fid SecureFlashStore.no_info)) Q.
Proof. intros Hm Hv HQ. apply s_on_fs. by eapply (t_get_info info V cfg). Qed.

(** What an operation leaves: the assets [m], which the image shows. *)
Definition leaves (m : assets) (i : image) (a : bytes) : Prop :=
  len a = asset_data_size /\ settled info V i /\ exists y, mounted info i y /\ shows i y m.

Lemma leaves_same i y m a : len a = asset_data_size -> settled info V i -> mounted info i y -> shows i y m -> leaves m i a.
Proof. intros. split; [done|]. eauto. Qed.


(** The metablock that decides whether a new asset has room: that after the old asset is removed. *)
Definition room_for (i : image) (y : bytes) (client u size : Z) (b : bool) : Prop :=
  match fs_file info i y (sfs_get_fid client u) with
  | None => b = roomy y size
  | Some _ => exists i' y', changed info V i y (sfs_get_fid client u) None i' y' /\ b = roomy y' size
  end.

Lemma s_set i y m a client u D flags (Q : Z -> image -> bytes -> Prop) :
  settled info V i -> mounted info i y -> shows i y m -> fits 32 client -> fits 64 u -> fits 32 flags -> len a = asset_data_size -> 0 < len D < 2 ^ 64 ->
  guards m client u (unfinished m client (SetAsset u D flags)) ->
  (forall b i' a', (u <> 0 -> from_option write_once false (m !! (client, u)) = false -> flags_supported flags = true -> room_for i y client u (len D) b) ->
     leaves (asset_step b m client (SetAsset u D flags)).2 i' a' ->
     Q (r_status (asset_step b m client (SetAsset u D flags)).1) i' a') ->
  striple i a (sfs_set info client u (len D) (Some D) flags) Q.
Proof.
  intros Hset Hm Hs Hc Hu Hf Ha HD HG HQ. unfold sfs_set, asset_step in *. fold (flags_supported flags). unfold room_for in HQ.
  destruct (Z.eqb_spec u SFS_INVALID_UID) as [Hz|Hnz]; [apply s_ret, (HQ true); [by intros ?|]; by apply (leaves_same i y)|].
  destruct (flags_supported flags); cbn [negb] in *; [|apply s_ret, (HQ true); [by intros ?|]; by apply (leaves_same i y)].
  pose proof (fid_valid client u Hu Hnz) as Hv. apply s_bind. eapply s_info; [exact Hm|done|].
  rewrite (Hs client u) in HQ by done. set (fid := sfs_get_fid client u) in *.
  destruct (fs_file info i y fid) as [f|] eqn:Hfile; cbn [fmap option_fmap option_map from_option] in HQ.
  - cbn [Z.eqb PSA_SUCCESS fi_flags]. change (negb (Z.land (ff_flags f) PSA_STORAGE_FLAG_WRITE_ONCE =? 0)) with (write_once (asset_of f)).
    destruct (write_once (asset_of f)) eqn:Hw; [apply s_ret, (HQ true); [done|]; by apply (leaves_same i y)|].
    apply s_check, s_on_fs. eapply (t_file_delete info V cfg); [exact Hm|by eapply guards_start; [exact HG|by left|..]|done|].
    fold fid. rewrite Hfile. intros i1 y1 Hch1.
    eapply landed; [exact HG|done|done|done|exact Hs|exact Hch1|right; by left|]. intros Hset1. cbn [Z.eqb PSA_SUCCESS].
    destruct (changed_mounted _ _ _ _ _ _ Hch1) as [Hm1 Hf1]. pose proof (shows_removed i y m client u i1 y1 Hc Hu Hnz Hs Hch1) as Hs1.
    eapply (s_set_new i1 y1 (delete (client, u) m) client u);
      [done|done|done|done|exact Hs1|by apply guards_delete, HG|right; by left|intros n Hn Hns; right; right; by exists n|exact Hm1|done|done|done|done|].
    destruct (roomy y1 (len D)) eqn:Hr.
    + intros i' y' a' Ha' Hset' Hch'. apply (HQ true); [by eauto|]. split; [done|]. split; [exact Hset'|]. exists y'. split; [apply Hch'|].
      eapply (shows_set i y m client u (FsFile flags (len D) D)); [done..|]. by eapply changed_trans.
    + intros a' Ha'. apply (HQ false); [by eauto|]. split; [done|]. split; [exact Hset1|]. exists y1. split; [done|]. by eapply (shows_removed i y m client u).
  - cbn [Z.eqb PSA_SUCCESS PSA_ERROR_DOES_NOT_EXIST negb].
    eapply (s_set_new i y m client u); [done|done|done|done|exact Hs|exact HG|right; by left|intros n Hn Hns; right; right; by exists n|exact Hm|done|done|done|done|].
    destruct (roomy y (len D)) eqn:Hr.
    + intros i' y' a' Ha' Hset' Hch'. apply (HQ true); [done|]. split; [done|]. split; [exact Hset'|]. exists y'. split; [apply Hch'|]. by eapply (shows_set i y m client u (FsFile flags (len D) D)).
    + intros a' Ha'. apply (HQ false); [done|]. split; [done|]. split; [done|]. exists y. split; [done|].
      cbn [snd]. rewrite delete_id; [done|]. rewrite Hs by done. fold fid. by rewrite Hfile.
Qed.


(** ** The other operations *)
Lemma s_remove i y m a client u b (Q : Z -> image -> bytes -> Prop) :
  settled info V i -> mounted info i y -> shows i y m -> fits 32 client -> fits 64 u -> len a = asset_data_size ->
  guards m client u (unfinished m client (RemoveAsset u)) ->
  (forall i' a', leaves (asset_step b m client (RemoveAsset u)).2 i' a' -> Q (r_status (asset_step b m client (RemoveAsset u)).1) i' a') ->
  striple i a (sfs_remove info client u) Q.
Proof.
  intros Hset Hm Hs Hc Hu Ha HG HQ. unfold sfs_remove, asset_step in *. pose proof (leaves_same i y m a Ha Hset Hm Hs) as Hl.
  destruct (Z.eqb_spec u SFS_INVALID_UID) as [Hz|Hnz]; [by apply s_ret, HQ|].
  pose proof (fid_valid client u Hu Hnz) as Hv. apply s_bind. eapply s_info; [exact Hm|done|].
  rewrite (Hs client u) in HQ by done. set (fid := sfs_get_fid client u) in *.
  destruct (fs_file info i y fid) as [f|] eqn:Hfile; cbn [fmap option_fmap option_map] in HQ; [|by apply s_ret, HQ].
  cbn [Z.eqb PSA_SUCCESS fi_flags negb]. change (negb (Z.land (ff_flags f) PSA_STORAGE_FLAG_WRITE_ONCE =? 0)) with (write_once (asset_of f)).
  destruct (write_once (asset_of f)); [by apply s_ret, HQ|].
  apply s_on_fs. eapply (t_file_delete info V cfg); [exact Hm|by eapply guards_start; [exact HG|by left|..]|done|].
  fold fid. rewrite Hfile. intros i1 y1 Hch. eapply landed; [exact HG|done|done|done|exact Hs|exact Hch|by right|]. intros Hset1. apply HQ.
  eapply leaves_same; [done|exact Hset1|apply Hch|]. by eapply (shows_removed i y m client u).
Qed.

Lemma s_create i y m a client u room flags (Q : Z -> image -> bytes -> Prop) :
  settled info V i -> mounted info i y -> shows i y m -> fits 32 client -> fits 64 u -> fits 32 flags -> len a = asset_data_size -> 0 < room < 2 ^ 64 ->
  guards m client u (unfinished m client (CreateAsset u room flags)) ->
  (forall i' a', leaves (asset_step (roomy y room) m client (CreateAsset u room flags)).2 i' a' ->
     Q (r_status (asset_step (roomy y room) m client (CreateAsset u room flags)).1) i' a') ->
  striple i a (sfs_create info client u room flags) Q.
Proof.
  intros Hset Hm Hs Hc Hu Hf Ha Hroom HG HQ. unfold sfs_create, asset_step in *. pose proof (leaves_same i y m a Ha Hset Hm Hs) as Hl.
  destruct (Z.eqb_spec u SFS_INVALID_UID) as [Hz|Hnz]; [by apply s_ret, HQ|].
  destruct (negb (Z.land flags PSA_STORAGE_FLAG_WRITE_ONCE =? 0)); [by apply s_ret, HQ|].
  pose proof (fid_valid client u Hu Hnz) as Hv. apply s_bind. eapply s_info; [exact Hm|done|].
  rewrite (Hs client u) in HQ by done. set (fid := sfs_get_fid client u) in *.
  destruct (fs_file info i y fid) as [f|] eqn:Hfile; cbn [fmap option_fmap option_map] in HQ; [by apply s_ret, HQ|].
  cbn [Z.eqb PSA_SUCCESS PSA_ERROR_DOES_NOT_EXIST]. apply s_on_fs. pose proof asset_data_size_is.
  eapply (t_file_create info V cfg); [exact Hm|by eapply guards_start; [exact HG|by left|..]|done|apply fid_len|done|done|done|done|].
  fold fid. rewrite Hfile. unfold roomy in HQ.
  destruct (Z.ltb_spec (max_file_size info) room), (Z.leb_spec room (max_file_size info)); try lia; cbn [andb] in HQ; [by apply HQ|].
  destruct (has_room info y room); [|by apply HQ]. destruct (Z.leb_spec 0 room); [|lia]. intros i' y' Hch.
  eapply landed; [exact HG|done|done|done|exact Hs|exact Hch|by right|]. intros Hset1. apply HQ.
  eapply leaves_same; [done|exact Hset1|apply Hch|]. by eapply (shows_set i y m client u (FsFile flags room [])).
Qed.

Lemma s_set_extended i y m a client u off D b (Q : Z -> image -> bytes -> Prop) :
  settled info V i -> mounted info i y -> shows i y m -> fits 32 client -> len a = asset_data_size -> covered m client (ExtendAsset u off D) ->
  guards m client u (unfinished m client (ExtendAsset u off D)) ->
  (forall i' a', leaves (asset_step b m client (ExtendAsset u off D)).2 i' a' ->
     Q (r_status (asset_step b m client (ExtendAsset u off D)).1) i' a') ->
  striple i a (sfs_set_extended info client u off (len D) (Some D)) Q.
Proof.
  intros Hset Hm Hs Hc Ha [(Hu & Hoff & Hend) Hcov] HG HQ. unfold sfs_set_extended, asset_step in *. pose proof (leaves_same i y m a Ha Hset Hm Hs) as Hl.
  destruct (Z.eqb_spec u SFS_INVALID_UID) as [Hz|Hnz]; [by apply s_ret, HQ|]. pose proof asset_data_size_is. pose proof (len_nonneg D).
  pose proof (fid_valid client u Hu Hnz) as Hv. apply s_bind. eapply s_info; [exact Hm|done|].
  rewrite (Hs client u) in HQ, Hcov by done. set (fid := sfs_get_fid client u) in *.
  destruct (fs_file info i y fid) as [f|] eqn:Hfile; cbn [fmap option_fmap option_map] in HQ, Hcov; [|by apply s_ret, HQ].
  cbn [Z.eqb PSA_SUCCESS fi_flags size_max size_current negb]. change (negb (Z.land (ff_flags f) PSA_STORAGE_FLAG_WRITE_ONCE =? 0)) with (write_once (asset_of f)).
  cbn [asset_of a_room a_data] in HQ, Hcov. destruct (write_once (asset_of f)); [by apply s_ret, HQ|].
  destruct (Z.ltb_spec (2 ^ 64 - 1 - off) (len D)); [lia|].
  destruct (Z.ltb_spec asset_data_size (len D)); [by apply s_ret, HQ|].
  destruct (Z.ltb_spec (ff_capacity f) (off + len D)); [by apply s_ret, HQ|].
  destruct (Z.ltb_spec (len (ff_data f)) off); [by apply s_ret, HQ|]. cbn [orb] in HQ.
  apply s_bind, (s_copy_asset _ _ _ _ D); [|lia|apply s_bind, s_get_asset, s_on_fs].
  { unfold copy_in. destruct (Z.eqb_spec (len D) 0) as [Hz|]; [|cbn; by rewrite load_all]. destruct D; [done|]. unfold len in Hz. cbn in Hz. lia. }
  pose proof (patch_len a 0 D ltac:(lia) ltac:(lia)).
  eapply (t_file_write info V cfg); [exact Hm|by eapply guards_start; [exact HG|by left|..]|done|lia|lia|lia|]. fold fid. rewrite Hfile.
  destruct (Z.leb_spec off (len (ff_data f))); [|lia]. destruct (Z.leb_spec (off + len D) (ff_capacity f)); [|lia]. cbn [andb].
  split; [done|]. intros i' y' Hch. rewrite slice_patch_same in Hch by lia.
  eapply landed; [exact HG|done|done|done|exact Hs|exact Hch| |].
  { right. exists (asset_of f). split; [|done]. rewrite Hs by done. fold fid. by rewrite Hfile. }
  intros Hset1. apply HQ. eapply leaves_same; [lia|exact Hset1|apply Hch|].
  by eapply (shows_set i y m client u (FsFile (ff_flags f) (ff_capacity f) (take (Z.to_nat off) (ff_data f) ++ D))).
Qed.

(** ** Reading *)
Lemma s_get_loop fuel i y a fid e off n p (Q : Z * option bytes -> image -> bytes -> Prop) :
  mounted info i y -> valid_fid fid = true -> fs_file info i y fid = Some e ->
  0 <= off < 2 ^ 64 -> 0 <= n <= len p -> off + n <= len (ff_data e) < 2 ^ 64 -> n < Z.of_nat fuel -> len a = asset_data_size ->
  (forall a', len a' = asset_data_size -> Q (PSA_SUCCESS, Some (patch p 0 (slice (ff_data e) off n))) i a') ->
  striple i a (get_loop info fuel fid off n (Some p)) Q.
Proof.
  intros Hm Hv Hfile. revert a off n p Q. induction fuel as [|fuel IH]; intros a off n p Q Hoff Hn Hend Hf Ha HQ; [lia|].
  cbn [get_loop]. pose proof asset_data_size_is. set (k := SFS_UTILS_MIN n asset_data_size).
  assert (0 <= k <= asset_data_size /\ k <= n /\ (0 < n -> 0 < k)) as (Hk & Hkn & Hk0) by (unfold k, SFS_UTILS_MIN; case_match; lia).
  pose proof (slice_len (ff_data e) off k ltac:(lia) ltac:(lia) ltac:(lia)) as Hl.
  apply s_bind, s_get_asset, s_bind, s_on_fs. eapply (t_read_file info V cfg); [exact Hm|done|lia|lia|lia|]. rewrite Hfile.
  destruct (Z.leb_spec (off + k) (len (ff_data e))); [|lia].
  apply s_bind, s_set_asset. cbn [negb Z.eqb PSA_SUCCESS]. pose proof (patch_len a 0 (slice (ff_data e) off k) ltac:(lia) ltac:(lia)).
  apply s_bind, s_copy_to_caller; [lia|lia|]. rewrite slice_patch_same by lia.
  pose proof (patch_len p 0 (slice (ff_data e) off k) ltac:(lia) ltac:(lia)) as Hpl.
  destruct (Z.ltb_spec 0 (n - k)).
  - apply s_bind. unfold advance. cbn [fmap option_fmap option_map].
    assert (len (drop (Z.to_nat k) (patch p 0 (slice (ff_data e) off k))) = len p - k) as Hdl.
    { unfold len in *. rewrite length_drop. lia. }
    pose proof (slice_len (ff_data e) (off + k) (n - k) ltac:(lia) ltac:(lia) ltac:(lia)) as Hl2.
    apply IH; [lia|lia|lia|lia|lia|]. intros a' Ha'. apply s_ret. cbn [mbind option_bind].
    replace (take (Z.to_nat k) (patch p 0 (slice (ff_data e) off k)) ++ patch (drop (Z.to_nat k) (patch p 0 (slice (ff_data e) off k))) 0 (slice (ff_data e) (off + k) (n - k)))
      with (patch p 0 (slice (ff_data e) off n)); [by apply HQ|].
    replace n with (k + (n - k)) at 1 by lia. rewrite slice_app, <- patch_app by lia. rewrite Hl, Z.add_0_l.
    set (q := patch p 0 (slice (ff_data e) off k)) in *.
    pose proof (patch_store (drop (Z.to_nat k) q) 0 (slice (ff_data e) (off + k) (n - k)) ltac:(lia) ltac:(lia)) as Hst.
    apply store_drop in Hst; [|lia]. by apply store_patch in Hst.
  - apply s_ret. assert (k = n) as Hkeq by lia. rewrite Hkeq. apply HQ. rewrite <- Hkeq. lia.
Qed.


Lemma s_ok {A} i a (m : SFS st A) (Q : A -> image -> bytes -> Prop) : (image_ok info i -> striple i a m Q) -> striple i a m Q.
Proof. intros H s Hs. apply H; [|done]. destruct Hs as [Hs _]. by eapply (repr_ok info V). Qed.

Lemma file_bounds i y fid f : image_ok info i -> mounted info i y -> valid_fid fid = true -> fs_file info i y fid = Some f ->
  len (ff_data f) <= ff_capacity f < 2 ^ 16.
Proof.
  intros Hi Hm Hv (j & Hj & Hid & ->)%(fs_file_Some info i y fid f (mt_files _ _ _ Hm) Hv). rewrite <- Hid in Hv.
  rewrite (file_entry_len info V cfg i y j Hi Hm Hj Hv). destruct (file_range info V cfg i y j Hi Hm Hj Hv) as (? & ? & ? & ? & ? & ?).
  pose proof (layout info V cfg). cbn. lia.
Qed.

Lemma s_get i y m a client u off n p k0 b (Q : Z * option bytes * Z -> image -> bytes -> Prop) :
  settled info V i -> mounted info i y -> shows i y m -> fits 32 client -> fits 64 u -> fits 64 off -> fits 64 n -> len p = n -> len a = asset_data_size ->
  (forall a' st p' k', leaves (asset_step b m client (GetData u off n)).2 i a' ->
     st = r_status (asset_step b m client (GetData u off n)).1 ->
     (st = PSA_SUCCESS -> load p' 0 k' = Some (r_data (asset_step b m client (GetData u off n)).1)) -> Q (st, Some p', k') i a') ->
  striple i a (sfs_get info client u off n (Some p) k0) Q.
Proof.
  intros Hset Hm Hs Hc Hu Hoff Hn Hp Ha HQ. apply s_ok. intros Hi. unfold sfs_get, asset_step in *. unfold fits in Hoff, Hn.
  destruct (Z.eqb_spec u SFS_INVALID_UID) as [Hz|Hnz]; [by apply s_ret, HQ; [apply (leaves_same i y)| |]|].
  pose proof (fid_valid client u Hu Hnz) as Hv. apply s_bind. eapply s_info; [exact Hm|done|].
  rewrite (Hs client u) in HQ by done. set (fid := sfs_get_fid client u) in *.
  destruct (fs_file info i y fid) as [f|] eqn:Hfile; cbn [fmap option_fmap option_map] in HQ; [|by apply s_ret, HQ; [apply (leaves_same i y)| |]].
  cbn [Z.eqb PSA_SUCCESS size_current negb asset_of a_data] in *.
  destruct (Z.ltb_spec (len (ff_data f)) off); [by apply s_ret, HQ; [apply (leaves_same i y)| |]|].
  set (k := SFS_UTILS_MIN n (len (ff_data f) - off)).
  assert (Z.min n (len (ff_data f) - off) = k) as Hkeq by (clear HQ; unfold k, SFS_UTILS_MIN; case_match; lia).
  rewrite Hkeq in HQ. pose proof (file_bounds i y fid f Hi Hm Hv Hfile).
  pose proof (slice_len (ff_data f) off k ltac:(lia) ltac:(lia) ltac:(lia)) as Hl.
  apply s_bind. eapply s_get_loop; [exact Hm|exact Hv|exact Hfile|lia..|]. intros a' Ha'. cbn [negb Z.eqb PSA_SUCCESS]. apply s_ret.
  apply HQ; [by apply (leaves_same i y)|done|]. intros _. cbn [fst r_data].
  pose proof (load_store_same p 0 (slice (ff_data f) off k) _ (patch_store p 0 (slice (ff_data f) off k) ltac:(lia) ltac:(lia))) as Hld.
  by rewrite Hl in Hld.
Qed.

Lemma s_get_info i y m a client u k0 b (Q : Z * option psa_storage_info_t -> image -> bytes -> Prop) :
  settled info V i -> mounted info i y -> shows i y m -> fits 32 client -> fits 64 u -> len a = asset_data_size ->
  (forall v, leaves (asset_step b m client (GetInfo u)).2 i a ->
     (if r_status (asset_step b m client (GetInfo u)).1 =? PSA_SUCCESS then v = r_info (asset_step b m client (GetInfo u)).1 else v = k0) ->
     Q (r_status (asset_step b m client (GetInfo u)).1, Some v) i a) ->
  striple i a (sfs_get_info info client u (Some k0)) Q.
Proof.
  intros Hset Hm Hs Hc Hu Ha HQ. unfold sfs_get_info, asset_step in *. pose proof (leaves_same i y m a Ha Hset Hm Hs) as Hl.
  destruct (Z.eqb_spec u SFS_INVALID_UID) as [Hz|Hnz]; [by apply s_ret, HQ|].
  pose proof (fid_valid client u Hu Hnz) as Hv. apply s_bind. eapply s_info; [exact Hm|done|].
  rewrite (Hs client u) in HQ by done. set (fid := sfs_get_fid client u) in *.
  destruct (fs_file info i y fid) as [f|] eqn:Hfile; cbn [fmap option_fmap option_map] in HQ; by apply s_ret, HQ.
Qed.

(** ** One request *)

(** Whether there is room, as the request finds the store; it matters when an asset is to be created. *)
Definition room_found (s : st) (m : assets) (client : Z) (o : storage_op) (b : bool) : Prop :=
  match o with
  | SetAsset u d flags =>
      u <> 0 -> from_option write_once false (m !! (client, u)) = false -> flags_supported flags = true ->
      exists i y, repr V (fs_ctx_sfs s) i /\ mounted info i y /\ room_for i y client u (len d) b
  | CreateAsset u room _ => exists i y, repr V (fs_ctx_sfs s) i /\ mounted info i y /\ b = roomy y room
  | _ => True
  end.

Lemma striple_runs {A} s i a (m : SFS st A) (Q : A -> image -> bytes -> Prop) (R : A -> st -> Prop) :
  at_image i a s -> striple i a m Q -> (forall x i' a' s', at_image i' a' s' -> Q x i' a' -> R x s') -> exists x s', m s = Some (x, s') /\ R x s'.
Proof. intros Hs Hm HR. destruct (Hm s Hs) as (x & s' & Hx & i' & a' & Hs' & HQ). eauto. Qed.

Lemma leaves_keeps s i a m : at_image i a s -> leaves m i a -> keeps s m.
Proof. intros [Hr <-] (Ha & Hset & y & Hm & Hs). split; [done|]. by exists i, y. Qed.

(** An operation that returns a status, from its rule. *)
Lemma step_status s m client o (op : SFS st Z) :
  keeps s m ->
  (forall i y, at_image i (asset_data s) s -> settled info V i -> mounted info i y -> shows i y m -> striple i (asset_data s) op (fun x i' a' =>
     exists b, room_found s m client o b /\ leaves (asset_step b m client o).2 i' a' /\ x = r_status (asset_step b m client o).1)) ->
  (forall b, r_data (asset_step b m client o).1 = [] /\ r_info (asset_step b m client o).1 = StorageBackend.no_info) ->
  exists b s', room_found s m client o b /\
    ('(x, d) ← op s; Some (Reply x [] StorageBackend.no_info, d)) = Some ((asset_step b m client o).1, s') /\
    keeps s' (asset_step b m client o).2.
Proof.
  intros [Ha (i & y & Hr & Hset & Hm & Hs)] Hop Hrep. assert (at_image i (asset_data s) s) as Hat by done.
  destruct (Hop i y Hat Hset Hm Hs s Hat) as (x & s' & Hx & i' & a' & Hat' & b & Hb & Hl & ->).
  exists b, s'. split; [done|]. rewrite Hx. cbn [mbind option_bind]. split; [|by eapply leaves_keeps].
  destruct (Hrep b) as [Hd Hi]. destruct (asset_step b m client o).1 as [x d n]. cbn in *. by subst.
Qed.

Lemma step_of s m client o :
  keeps s m -> fits 32 client -> covered m client o -> guards m client (op_uid o) (unfinished m client o) ->
  exists b s', room_found s m client o b /\
    run_op (sfs_backend info) client s o = Some ((asset_step b m client o).1, s') /\ keeps s' (asset_step b m client o).2.
Proof.
  intros Hk Hc Hcov HG. pose proof Hcov as [Hok Hcov']. pose proof (kp_buffer _ _ Hk) as Ha.
  destruct o as [u d flags|u off n|u|u|u room flags|u off d|];
    cbn [op_ok run_op sfs_backend sb_set sb_get sb_get_info sb_remove sb_create sb_set_extended sb_get_support] in *.
  - destruct Hok as (Hu & Hd & Hf). apply step_status; [done| |intros b; cbn; by repeat case_match].
    intros i y Hat Hset Hm Hs. eapply (s_set i y m); try done. intros b i' a' Hroom Hl. exists b. split; [|done].
    intros H1 H2 H3. exists i, y. split; [apply Hat|]. split; [done|]. by apply Hroom.
  - destruct Hok as (Hu & Ho & Hn). destruct Hk as [_ (i & y & Hr & Hset & Hm & Hs)].
    destruct (s_get i y m (asset_data s) client u off n (fill 0 n) 0 true
      (fun r i' a' => exists p' k', r = (r_status (asset_step true m client (GetData u off n)).1, Some p', k') /\
        leaves (asset_step true m client (GetData u off n)).2 i' a' /\
        (r.1.1 = PSA_SUCCESS -> load p' 0 k' = Some (r_data (asset_step true m client (GetData u off n)).1))) Hset Hm Hs Hc Hu Ho Hn)
      with s as (x & s' & Hx & i' & a' & Hat' & p' & k' & -> & Hl & Hd);
      [apply len_fill; unfold fits in Hn; lia|done|intros a' x p' k' Hl -> Hd; by eexists _, _|done|].
    exists true, s'. split; [done|]. rewrite Hx. cbn [mbind option_bind fst] in *. split; [|by eapply leaves_keeps].
    unfold asset_step in *. destruct (u =? SFS_INVALID_UID); [done|]. destruct (m !! (client, u)) as [v|]; [|done].
    destruct (len (a_data v) <? off); [done|]. cbn [fst r_status Z.eqb PSA_SUCCESS r_data] in *. by rewrite Hd.
  - destruct Hk as [_ (i & y & Hr & Hset & Hm & Hs)].
    destruct (s_get_info i y m (asset_data s) client u StorageBackend.no_info true
      (fun r i' a' => exists v, r = (r_status (asset_step true m client (GetInfo u)).1, Some v) /\
        leaves (asset_step true m client (GetInfo u)).2 i' a' /\
        (r.1 = PSA_SUCCESS -> v = r_info (asset_step true m client (GetInfo u)).1)) Hset Hm Hs Hc Hok Ha)
      with s as (x & s' & Hx & i' & a' & Hat' & v & -> & Hl & Hv); [|done|].
    { intros v Hl Hv. exists v. split; [done|]. split; [done|]. cbn [fst]. intros Heq. by rewrite Heq, Z.eqb_refl in Hv. }
    exists true, s'. split; [done|]. rewrite Hx. cbn [mbind option_bind fst] in *. split; [|by eapply leaves_keeps].
    unfold asset_step in *. destruct (u =? SFS_INVALID_UID); [done|]. destruct (m !! (client, u)) as [w|]; [|done].
    cbn [fst r_status Z.eqb PSA_SUCCESS r_info] in *. by rewrite Hv.
  - apply step_status; [done| |intros b; cbn; by repeat case_match].
    intros i y Hat Hset Hm Hs. eapply (s_remove i y m _ _ _ true); try done. intros i' a' Hl. by exists true.
  - destruct Hok as (Hu & Hd & Hf). apply step_status; [done| |intros b; cbn; by repeat case_match].
    intros i y Hat Hset Hm Hs. eapply (s_create i y m); try done; [unfold fits in Hd; lia|]. intros i' a' Hl. exists (roomy y room).
    split; [|done]. exists i, y. split; [apply Hat|done].
  - apply step_status; [done| |intros b; cbn; by repeat case_match].
    intros i y Hat Hset Hm Hs. eapply (s_set_extended i y m _ _ _ _ _ true); try done. intros i' a' Hl. by exists true.
  - exists true, s. split; [done|]. split; [done|exact Hk].
Qed.


(** ** Starting the store *)

(** The contents of the flash, whatever the memory of the service holds. *)
Definition flash_blocks (s : st) : list bytes := fv_blocks V (flash (fs_ctx_sfs s)).

(** A state in which the service may be started: the flash is lawful, the static data have
    their sizes. *)
Definition startable (s : st) : Prop :=
  fv_ok V (flash (fs_ctx_sfs s)) /\ len (asset_data s) = asset_data_size /\ header_ok (meta_block_header (fs_ctx_sfs s)).

Definition image_of (s : st) : image :=
  Image (meta_block_header (fs_ctx_sfs s)) (active_metablock (fs_ctx_sfs s)) (scratch_metablock (fs_ctx_sfs s)) (flash_blocks s).

Lemma startable_image s : startable s -> at_image (image_of s) (asset_data s) s /\ image_ok info (image_of s).
Proof.
  intros (Hok & _ & _). assert (repr V (fs_ctx_sfs s) (image_of s)) as Hr by done. split; [done|]. by eapply (repr_ok info V).
Qed.

Definition unformatted (s : st) : Prop :=
  exists y0 y1, nthZ (flash_blocks s) 0 = Some y0 /\ nthZ (flash_blocks s) 1 = Some y1 /\
    header_valid info y0 = false /\ header_valid info y1 = false.

(** The contents of the flash from which a start finds the assets [m]. *)
Definition restartable (m : assets) (bl : list bytes) : Prop :=
  exists i y, i_blocks i = bl /\ found info i /\ mounted info i y /\ shows i y m.

Lemma init_of_restartable s m :
  startable s -> restartable m (flash_blocks s) ->
  (forall i y, settled info V i -> mounted info i y -> shows i y m -> allowed V i) ->
  runs (sfs_init info) s (fun ok s' => ok = true /\ keeps s' m).
Proof.
  intros Hst (i & y & Hbl & Hf & Hm & Hs) Hal. destruct (startable_image s Hst) as [Hat _]. destruct Hst as (Hok & Ha & Hh).
  assert (forall i', (forall fid, valid_fid fid = true -> fs_file info i' y fid = fs_file info i y fid) -> shows i' y m) as Hsame
    by (intros i' Hfi client u Hc Hu Hne; rewrite Hfi by (by apply fid_valid); by apply Hs).
  assert (striple (image_of s) (asset_data s) (sfs_init info) (fun ok i' a' => ok = true /\ leaves m i' a')) as Hrun.
  { apply s_bind, s_on_fs. eapply (t_prepare info V cfg _ i y); [done|done|done|done| |]; intros i' Hset' Hm' Hfi.
    - eapply Hal; eauto.
    - cbn [negb Z.eqb PSA_SUCCESS]. apply s_ret. split; [done|]. by eapply leaves_same; eauto. }
  eapply runs_mono; [by apply Hrun|]. intros ok s' (i' & a' & Hat' & -> & Hl). split; [done|]. by eapply leaves_keeps.
Qed.

Hypothesis free : unguarded V.
Hypothesis erased_invalid : forall e, len e = block_size info -> fv_erased V e -> header_valid info e = false.

Lemma init_of_kept s m s1 :
  keeps s m -> startable s1 -> flash_blocks s1 = flash_blocks s -> runs (sfs_init info) s1 (fun ok s' => ok = true /\ keeps s' m).
Proof.
  intros [_ (i & y & Hr & Hset & Hm & Hs)] Hst Hbl. apply (init_of_restartable s1 m Hst); [|intros; apply free].
  exists i, y. split; [|split; [by eapply settled_found|done]]. destruct Hr as (_ & Hb & _). by rewrite Hbl, <- Hb.
Qed.

Lemma init_of_unformatted s :
  startable s -> unformatted s -> runs (sfs_init info) s (fun ok s' => ok = true /\ keeps s' ∅).
Proof.
  intros Hst (y0 & y1 & H0 & H1 & Hv0 & Hv1). destruct (startable_image s Hst) as [Hat Hi]. destruct Hst as (Hok & Ha & Hh).
  assert (striple (image_of s) (asset_data s) (sfs_init info) (fun ok i' a' => ok = true /\ leaves ∅ i' a')) as Hrun.
  { apply s_bind, s_on_fs. eapply (t_prepare_fails info V cfg); [exact H0|exact H1|by unfold pick; rewrite Hv0, Hv1|].
    cbn [negb Z.eqb PSA_SUCCESS PSA_ERROR_GENERIC_ERROR]. apply s_bind, s_on_fs. apply (t_reset info V cfg (unguarded_allows V free)); [done|apply Hh|].
    intros i1 y Hset1 Hm1 He1. cbn [negb Z.eqb PSA_SUCCESS]. apply s_bind, s_on_fs.
    assert (header_ok (i_header i1)) as Hh1 by (apply (header_of_mounted info V cfg i1 y 0 false Hm1); [done|apply Hset1]).
    eapply (t_prepare info V cfg i1 i1 y); [by eapply settled_found|done|done|done|intros; apply free|].
    intros i' Hset' Hm' Hf. apply s_ret. split; [done|]. eapply leaves_same; [done|done|done|].
    intros client u Hc Hu Hne. rewrite Hf by by apply fid_valid. destruct (wiped_files info y He1) as [_ Hn].
    by rewrite Hn by by apply fid_valid. }
  eapply runs_mono; [by apply Hrun|]. intros ok s' (i' & a' & Hat' & -> & Hl). split; [done|]. by eapply leaves_keeps.
Qed.

(** ** Histories *)
Fixpoint run_requests (s : st) (l : list (Z * storage_op)) : option (list storage_reply * st) :=
  match l with
  | [] => Some ([], s)
  | (client, o) :: l =>
      '(r, s) ← run_op (sfs_backend info) client s o;
      '(rs, s) ← run_requests s l;
      Some (r :: rs, s)
  end.

Lemma run_history s m l :
  keeps s m -> all_covered m l ->
  exists rs s' m', run_requests s l = Some (rs, s') /\ keeps s' m' /\ asset_history m l rs m'.
Proof.
  revert s m. induction l as [|[client o] l IH]; intros s m Hk Hl.
  { exists [], s, m. split; [done|]. split; [done|]. constructor. }
  destruct Hl as (Hc & Hcov & Hl). destruct (step_of s m client o Hk Hc Hcov (guards_unguarded _ _ _ _ free)) as (b & s1 & _ & Hx & Hk1).
  destruct (IH s1 _ Hk1 (Hl b)) as (rs & s2 & m2 & Hrs & Hk2 & Hh). exists ((asset_step b m client o).1 :: rs), s2, m2.
  cbn [run_requests]. rewrite Hx. cbn [mbind option_bind]. rewrite Hrs. split; [done|]. split; [done|]. by econstructor.
Qed.

End Store.

(** ** Properties *)

(** C6: over a lawful flash, every covered request to the secure flash store, in a state that keeps
    the assets [m], returns, replies what the specification says of [m], and leaves a state that
    keeps the assets of the specification; an asset is refused for want of room exactly when no
    block of the flash has enough free octets, the table of files is full, or the asset is larger
    than the flash allows. *)
Theorem sfs_request_refines {F} (info : sfs_flash_info_t F) (V : flash_view F) `{!FlashLaws info V} s m client o :
  config_ok info -> unguarded V -> keeps info V s m -> fits 32 client -> covered m client o ->
  exists b s', room_found info V s m client o b /\
    run_op (sfs_backend info) client s o = Some ((asset_step b m client o).1, s') /\
    keeps info V s' (asset_step b m client o).2.
Proof. intros cfg free ???. apply (step_of info V cfg); [done..|by apply guards_unguarded]. Qed.

(** C5: the store that is started on a flash without a file system formats it and serves any
    sequence of covered requests of any clients: every call returns, and the replies are those of
    a map from clients and identifiers to assets that is empty at first. *)
Theorem sfs_serves_from_unformatted {F} (info : sfs_flash_info_t F) (V : flash_view F) `{!FlashLaws info V} s l :
  config_ok info -> unguarded V -> (forall e, len e = block_size info -> fv_erased V e -> header_valid info e = false) ->
  startable V s -> unformatted info V s -> all_covered ∅ l ->
  exists s0 rs s' m', sfs_init info s = Some (true, s0) /\ run_requests info s0 l = Some (rs, s') /\
    asset_history ∅ l rs m' /\ keeps info V s' m'.
Proof.
  intros cfg free He Hs Hu Hl. destruct (init_of_unformatted info V cfg free He s Hs Hu) as (ok & s0 & Hi & -> & Hk).
  destruct (run_history info V cfg free s0 ∅ l Hk Hl) as (rs & s' & m' & Hr & Hk' & Hh). by exists s0, rs, s', m'.
Qed.

(** C8: a restart of the service between two requests loses nothing: started with the contents of
    the flash and any data in memory, the store keeps the same assets. *)
Theorem sfs_restart_keeps_assets {F} (info : sfs_flash_info_t F) (V : flash_view F) `{!FlashLaws info V} s m s1 :
  config_ok info -> unguarded V -> (forall e, len e = block_size info -> fv_erased V e -> header_valid info e = false) ->
  keeps info V s m -> startable V s1 -> flash_blocks V s1 = flash_blocks V s ->
  exists s2, sfs_init info s1 = Some (true, s2) /\ keeps info V s2 m.
Proof.
  intros cfg free He Hk Hs Hb. destruct (init_of_kept info V cfg free He s m s1 Hk Hs Hb) as (ok & s2 & Hi & -> & Hk2). by exists s2.
Qed.

(** The assets a store keeps are well-formed: the flags have 32 bits, the data fit in the
    capacity, which is at least one octet and at most what a block of the flash holds. *)
Lemma kept_assets_fit {F} (info : sfs_flash_info_t F) (V : flash_view F) `{!FlashLaws info V} s m client u a :
  config_ok info -> keeps info V s m -> fits 32 client -> fits 64 u -> u <> 0 -> m !! (client, u) = Some a ->
  fits 32 (a_flags a) /\ len (a_data a) <= a_room a /\ 0 < a_room a <= block_size info.
Proof.
  intros cfg [_ (i & y & Hr & [Hi _] & Hm & Hs)] Hc Hu Hne Ha. rewrite Hs in Ha by done.
  apply fmap_Some in Ha as (f & Hf & ->). pose proof (fid_valid client u Hu Hne) as Hv.
  apply (fs_file_Some info i y _ f (mt_files _ _ _ Hm) Hv) in Hf as (j & Hj & Hid & ->). rewrite <- Hid in Hv.
  cbn [asset_of a_flags a_data a_room]. rewrite (file_entry_len info V cfg i y j Hi Hm Hj Hv).
  destruct (file_range info V cfg i y j Hi Hm Hj Hv) as (? & ? & ? & ? & ? & ?).
  destruct (fmeta_ok info V cfg y j (mounted_len info _ _ Hi Hm) Hj) as (_ & _ & _ & _ & Hfl & _). cbn. split; [done|]. lia.
Qed.

(** C34: what get_info reports can be relied on.  After a start on a flash without a file
    system and any sequence of covered requests of any clients, a get_info that succeeds
    reports a capacity of at least one octet and at most what a block of the flash holds, a
    size within the capacity, and flags of 32 bits; and every read at an offset up to that
    size then succeeds with all the octets the size promises. *)
Theorem reported_assets_fit {F} (info : sfs_flash_info_t F) (V : flash_view F) `{!FlashLaws info V} s l :
  config_ok info -> unguarded V -> (forall e, len e = block_size info -> fv_erased V e -> header_valid info e = false) ->
  startable V s -> unformatted info V s -> all_covered ∅ l ->
  exists s0 rs s1, sfs_init info s = Some (true, s0) /\ run_requests info s0 l = Some (rs, s1) /\
    forall client u d i s2, fits 32 client -> fits 64 u ->
      run_op (sfs_backend info) client s1 (GetInfo u) = Some (Reply PSA_SUCCESS d i, s2) ->
      0 < si_capacity i <= block_size info /\ si_size i <= si_capacity i /\ fits 32 (si_flags i) /\
      forall off n, fits 64 off -> fits 64 n -> off <= si_size i ->
        exists x i' s3, run_op (sfs_backend info) client s2 (GetData u off n) = Some (Reply PSA_SUCCESS x i', s3) /\
          len x = Z.min n (si_size i - off).
Proof.
  intros cfg free He Hs Hun Hl. destruct (init_of_unformatted info V cfg free He s Hs Hun) as (ok & s0 & Hi & -> & Hk0).
  destruct (run_history info V cfg free s0 ∅ l Hk0 Hl) as (rs & s1 & m & Hr & Hk1 & _).
  exists s0, rs, s1. split; [exact Hi|]. split; [exact Hr|]. intros client u d i s2 Hc Hu Hx.
  destruct (step_of info V cfg s1 m client (GetInfo u) Hk1 Hc (conj Hu I) ltac:(by apply guards_unguarded))
    as (b & s2' & _ & Hx' & Hk2).
  rewrite Hx in Hx'. injection Hx' as Hrep <-. cbn [asset_step] in Hrep, Hk2.
  destruct (Z.eqb_spec u SFS_INVALID_UID) as [|Hne]; [done|].
  destruct (m !! (client, u)) as [a|] eqn:Ha; [|done]. injection Hrep as -> ->.
  destruct (kept_assets_fit info V s1 m client u a cfg Hk1 Hc Hu Hne Ha) as (Hf & Hla & Hr0 & Hr1).
  pose proof (fl_block_size (info := info) (V := V)) as Hb. pose proof (len_nonneg (a_data a)).
  cbn [si_capacity si_size si_flags]. rewrite !(wrap_small 32) by lia.
  split; [done|]. split; [done|]. split; [done|]. intros off n Ho Hn Hle.
  destruct (step_of info V cfg s2 m client (GetData u off n) Hk2 Hc (conj (conj Hu (conj Ho Hn)) I) ltac:(by apply guards_unguarded))
    as (b' & s3 & _ & Hx3 & _).
  cbn [asset_step] in Hx3. destruct (Z.eqb_spec u SFS_INVALID_UID) as [|_]; [done|]. rewrite Ha in Hx3.
  destruct (Z.ltb_spec (len (a_data a)) off); [lia|]. eexists _, _, s3. split; [exact Hx3|].
  unfold fits in *. apply slice_len; lia.
Qed.

(** ** The flash in memory of the repository *)
Definition ram_view : flash_view bytes := ram_flash_view FLASH_INFO_BLOCK_SIZE FLASH_INFO_NUM_BLOCKS FLASH_INFO_ERASE_VAL.
#[export] Instance ram_instance_laws : FlashLaws sfs_flash_ram_instance ram_view.
Proof. apply ram_flash_laws; vm_compute; intuition discriminate. Qed.

Lemma ram_config : config_ok sfs_flash_ram_instance.
Proof. split; vm_compute; intuition discriminate. Qed.

Lemma ram_unguarded : unguarded ram_view.
Proof. exact (fun _ => I). Qed.

Lemma ram_erased e : len e = block_size sfs_flash_ram_instance -> fv_erased ram_view e -> header_valid sfs_flash_ram_instance e = false.
Proof. intros _ ->. by vm_compute. Qed.

Lemma zeroed_startable : startable ram_view zeroed.
Proof. split; [by vm_compute|]. split; [by vm_compute|]. vm_compute. intuition discriminate. Qed.

Lemma zeroed_unformatted : unformatted sfs_flash_ram_instance ram_view zeroed.
Proof. do 2 eexists. split; [by vm_compute|]. split; [by vm_compute|]. split; by vm_compute. Qed.

(** Two clients use the same identifier. *)
Definition sample_requests : list (Z * storage_op) :=
  [(1, SetAsset 7 [1; 2; 3] 0); (2, SetAsset 7 [4; 5] 0); (1, ExtendAsset 7 2 [9]); (1, GetData 7 1 8);
   (2, RemoveAsset 7); (2, GetData 7 0 1); (1, CreateAsset 8 5 0); (1, ExtendAsset 8 0 [6; 6]); (1, GetInfo 8)].

Lemma sfs_serves_from_unformatted_witness :
  exists s0 rs s' m', sfs_init sfs_flash_ram_instance zeroed = Some (true, s0) /\
    run_requests sfs_flash_ram_instance s0 sample_requests = Some (rs, s') /\
    asset_history ∅ sample_requests rs m' /\ keeps sfs_flash_ram_instance ram_view s' m'.
Proof.
  apply (sfs_serves_from_unformatted sfs_flash_ram_instance ram_view zeroed sample_requests).
  - exact ram_config.
  - exact ram_unguarded.
  - exact ram_erased.
  - exact zeroed_startable.
  - exact zeroed_unformatted.
  - repeat first [exact I | split; [vm_compute; intuition discriminate|split; [vm_compute; intuition discriminate|intros []]]].
Defined.

Lemma ram_started : exists s0, sfs_init sfs_flash_ram_instance zeroed = Some (true, s0) /\ keeps sfs_flash_ram_instance ram_view s0 ∅.
Proof.
  destruct (init_of_unformatted sfs_flash_ram_instance ram_view ram_config ram_unguarded ram_erased zeroed zeroed_startable zeroed_unformatted)
    as (ok & s0 & Hi & -> & Hk). exists s0. split; [exact Hi|exact Hk].
Qed.

Definition first_request : storage_op := SetAsset 7 [1; 2; 3] 0.

Lemma client_1 : fits 32 1.
Proof. by vm_compute. Qed.

Lemma first_covered : covered ∅ 1 first_request.
Proof. split; vm_compute; intuition discriminate. Qed.

Lemma sfs_request_refines_witness :
  exists s0 b s', keeps sfs_flash_ram_instance ram_view s0 ∅ /\
    run_op (sfs_backend sfs_flash_ram_instance) 1 s0 first_request = Some ((asset_step b ∅ 1 first_request).1, s') /\
    keeps sfs_flash_ram_instance ram_view s' (asset_step b ∅ 1 first_request).2.
Proof.
  destruct ram_started as (s0 & _ & Hk). exists s0.
  destruct (sfs_request_refines sfs_flash_ram_instance ram_view s0 ∅ 1 first_request ram_config ram_unguarded Hk client_1 first_covered)
    as (b & s' & _ & Hr & Hk'). exists b, s'. split; [exact Hk|]. split; [exact Hr|exact Hk'].
Defined.

(** The memory of a service that was started again is zero; the flash is as it was. *)
Definition restarted (s : sfs_state (F := bytes)) : sfs_state :=
  SfsState (FsCtx (Header 0 0 0 (fill 0 2)) 0 0 (flash (fs_ctx_sfs s))) (fill 0 asset_data_size).

Lemma restarted_blocks s : flash_blocks ram_view (restarted s) = flash_blocks ram_view s.
Proof. reflexivity. Qed.

Lemma restarted_startable s m : keeps sfs_flash_ram_instance ram_view s m -> startable ram_view (restarted s).
Proof. intros [_ (i & y & (Hok & _) & _)]. split; [exact Hok|]. split; [by vm_compute|]. vm_compute. intuition discriminate. Qed.

Lemma uid_7 : fits 64 7.
Proof. by vm_compute. Qed.

Lemma ram_kept : exists s, keeps sfs_flash_ram_instance ram_view s {[(1, 7) := Asset 0 3 [1; 2; 3]]}.
Proof.
  destruct ram_started as (s0 & Hi & Hk).
  destruct (step_of sfs_flash_ram_instance ram_view ram_config s0 ∅ 1 first_request Hk client_1 first_covered (guards_unguarded _ _ _ _ _ _ ram_unguarded)) as (b & s & _ & Hr & Hk').
  assert ((r_status ∘ fst) <$> ('(_, s) ← sfs_init sfs_flash_ram_instance zeroed; run_op (sfs_backend sfs_flash_ram_instance) 1 s first_request) = Some PSA_SUCCESS) as Hst
    by (vm_compute; reflexivity).
  rewrite Hi in Hst. cbn [mbind option_bind] in Hst. rewrite Hr in Hst. destruct b; [clear Hi Hst|discriminate Hst]. exists s. exact Hk'.
Qed.

Lemma sfs_restart_keeps_assets_witness :
  exists s s2, keeps sfs_flash_ram_instance ram_view s {[(1, 7) := Asset 0 3 [1; 2; 3]]} /\
    sfs_init sfs_flash_ram_instance (restarted s) = Some (true, s2) /\
    keeps sfs_flash_ram_instance ram_view s2 {[(1, 7) := Asset 0 3 [1; 2; 3]]}.
Proof.
  destruct ram_kept as (s & Hk).
  destruct (sfs_restart_keeps_assets sfs_flash_ram_instance ram_view s _ (restarted s) ram_config ram_unguarded ram_erased Hk (restarted_startable s _ Hk) (restarted_blocks s))
    as (s2 & Hs2 & Hk2). exists s, s2. split; [exact Hk|]. split; [exact Hs2|exact Hk2].
Defined.

Lemma reported_assets_fit_witness :
  exists s0 rs s1, sfs_init sfs_flash_ram_instance zeroed = Some (true, s0) /\
    run_requests sfs_flash_ram_instance s0 sample_requests = Some (rs, s1) /\
    forall client u d i s2, fits 32 client -> fits 64 u ->
      run_op (sfs_backend sfs_flash_ram_instance) client s1 (GetInfo u) = Some (Reply PSA_SUCCESS d i, s2) ->
      0 < si_capacity i <= block_size sfs_flash_ram_instance /\ si_size i <= si_capacity i /\ fits 32 (si_flags i) /\
      forall off n, fits 64 off -> fits 64 n -> off <= si_size i ->
        exists x i' s3, run_op (sfs_backend sfs_flash_ram_instance) client s2 (GetData u off n) = Some (Reply PSA_SUCCESS x i', s3) /\
          len x = Z.min n (si_size i - off).
Proof.
  apply (reported_assets_fit sfs_flash_ram_instance ram_view zeroed sample_requests).
  - exact ram_config.
  - exact ram_unguarded.
  - exact ram_erased.
  - exact zeroed_startable.
  - exact zeroed_unformatted.
  - repeat first [exact I | split; [vm_compute; intuition discriminate|split; [vm_compute; intuition discriminate|intros []]]].
Defined.
