(* ===== verification/SfsCrash.v ===== *)
(** * The secure flash store survives a loss of power

    A flash that writes down what it contains after each part of a write and after each erase
    is a lawful flash.  Over it every contents during a request to the store can be started
    from again, and only the asset that the request names may differ. *)
From S2P Require Import Prelude Status StorageBackend SfsFlash SfsMblock SfsFs SecureFlashStore SfsLogic SfsMeta SfsData SfsFiles SfsDelete SfsInit SfsStore.

(** ** The flash that writes down its contents *)
Section Logged.
Context {F : Type} (info : sfs_flash_info_t F) (V : flash_view F).

Abbreviation traced := (F * list (list bytes))%type.





Context `{!FlashLaws info V}.
Hypothesis free : unguarded V.





End Logged.

(** ** Power failures *)
Section Survival.
Context {F : Type} (info : sfs_flash_info_t F) (V : flash_view F) `{!FlashLaws info V}.
Abbreviation st := (sfs_state (F := F)).





Hypothesis cfg : config_ok info.
Hypothesis free : unguarded V.
Hypothesis erased_invalid : forall e, len e = block_size info -> fv_erased V e -> header_valid info e = false.
Hypothesis erase_val_3 : 3 <= erase_val info.









End Survival.


(** ** A small flash *)

(** Four blocks of 160 octets in memory, for two files. *)
Definition tiny_flash : sfs_flash_info_t bytes := ram_flash 160 4 16 2 255.
Definition tiny_view : flash_view bytes := ram_flash_view 160 4 255.
#[export] Instance tiny_laws : FlashLaws tiny_flash tiny_view.
Proof. apply ram_flash_laws; vm_compute; intuition discriminate. Qed.











